(* ===== verification/_CoqProject ===== *)
-Q . S2P
Prelude.v
PriorityQueue.v
Executor.v
WorkerPool.v
PyFloat.v
FloatOrder.v
FloatInt.v
PyString.v
PyFormat.v
PyParse.v
Elo.v
Database.v
DbUtil.v
Session.v
ScoreTypes.v
Scoring.v
ScoringService.v
EsOperations.v
Pvp.v
Phase.v
Tokening.v
FlushingDict.v
EvalExecutor.v
WhiteDiff.v
Ranking.v
ScoringStore.v
RankingEntities.v
RankingServer.v
ProxyService.v
RankingFeed.v
ContestRanking.v
Languages.v
TaskTypes.v
Job.v
EvalService.v
EvalServiceRows.v
EvalServiceSafe.v
EvalServiceSpec.v
EvalServiceWrite.v
Interleaving.v
FileStorage.v
FileCacher.v
FileStorageSpec.v
FileCacherSpec.v
FileService.v
CleanFiles.v
SubmissionCheck.v
Archive.v
FileMatching.v
AcceptSubmission.v
SubmissionLimits.v
SubmissionSpec.v
Sandbox.v
GradingSteps.v
Grading.v
GradingSpec.v
ManagedTasks.v
MatchSpec.v
