(* ===== verification/Prelude.v ===== *)
(** * Formal model of the CMS contest server (PvP fork)

    CMS (Contest Management System) runs programming contests: contestants
    submit programs, the evaluation service compiles them and runs them on the
    testcases of the task, scores are computed and shown on a ranking server.
    This fork adds tasks where submissions play against each other (PvP):
    matches between submissions, rounds of matches, and ratings. The program
    is a set of Python services that share a PostgreSQL database and call each
    other; in a service, handlers run one at a time between the points where
    they wait (greenlets).

    This development translates the services' logic into executable
    definitions and proves what they promise. All paths below are under src/.

    ** Conventions

    - A Python call is a value of [res]: a result, an exception, a wait, or an
      exhausted recursion budget of the model. A method that changes its object
      is a function in the state and exception monad [M]; changes made before a
      [raise] stay. [triple] and [keeps] are the program logic for it.
    - Dictionaries that are iterated are [pydict] (insertion order); those only
      looked up are stdpp's [gmap]. Integers are Python's (unbounded, [Z]);
      floats are the kernel's binary64 ([PyFloat]); times are microseconds.
    - Definitions have the names of the source. Greenlets appear as explicit
      steps or as what other sessions may have done; logging is left out.

    ** Files, in dependency order

    - [Prelude] (this file): [res], [M], [pydict], loops, program logic.
    - [PriorityQueue] (cms/io/priorityqueue.py): the heap of operations with
      its reverse index. [PQueue] is the class (interface) that the clients use:
      a map from items to priorities, of which [pop] takes the least.
      [queue_refines_map], [reachable_queue_verifies].
    - [Executor] (cms/io/triggeredservice.py): batches taken from the queue, the
      services that forward to executors. [run_iteration_takes_least],
      [service_enqueue_counts], against [PQueue] only.
    - [WorkerPool] (cms/service/workerpool.py): workers, the operations they run,
      timeouts and lost connections. [reachable_pool_inv], [check_timeouts_hands_back],
      [acquire_worker_assigns].
    - [PyFloat], [FloatOrder], [FloatInt], [PyString], [PyFormat], [PyParse]: what the code uses
      of floats (with monotone rounding, and exact on integers), of [str], of os.path, of shlex, of ["%g"]
      and [round], of [int] and [float] of a text and of lines.
    - [Elo] (class Elo of cms/service/PvPService.py): ratings; [to_scores_positive].
    - [Database] (cms/db/submission.py, match.py, usertest.py, task.py): rows, SQL's
      three-valued conditions, results and their status, the constraints [db_wf].
      [filters_agree] (with what the filters select and the predicates do not).
    - [DbUtil] (cms/db/util.py), [Session] (cms/db/session.py): queries that select
      submissions and results; a session, what it sees and what it commits.
    - [ScoreTypes] (cms/grading/scoretypes/): the score of a submission from the
      outcomes of its testcases; [scores_within_maximum].
    - [Scoring] (cms/grading/scoring.py): the score of a contestant on a task, by
      score mode; [score_modes_ordered].
    - [ScoringService] (cms/service/ScoringService.py, scoringoperations.py): the
      executor that scores results, its loop, the sweep, first solutions.
      [sweep_scores_everything], [new_evaluation_scores].
    - [EsOperations] (cms/service/esoperations.py): what there is to do, found by
      generators (one object) and by queries (the sweep). They agree
      (priorities too, when the task has an active data set):
      [submissions_sweep_complete], [matches_sweep_complete], [user_tests_sweep_untried];
      [relevant_operations_exact], [operation_roundtrip].
    - [Pvp] (cms/service/PvPService.py, pvpoperations.py): batches of rounds of
      matches. [round_starts], [pairing_complete], [round_accounting] (also when a
      report raises, and in the last round; [pow_ok] is what Python promises of [**]
      for ratings at most a window apart).
    - [Phase] (cms/server/contest/phase_management.py): [phases_partition_time].
    - [Tokening] (cms/server/contest/tokening.py): tokens generated with the float
      divisions of the code; [next_generation_exact], [regular_bounds],
      [accept_token_regular], for intervals of whole seconds; [fractional_interval]
      shows what happens with others.
    - [FlushingDict] (cms/service/flushingdict.py): [flush_delivers].
    - [EvalExecutor] (cms/service/EvaluationService.py, dispatching): the places an
      operation goes through, from the queue to the result cache, as events of
      a state machine; also batches whose job group cannot be built. For runs where
      every job group could be built:
      [reachable_one_place], [dispatch_refines_places] (the abstract specification is
      a map from operations to places), [no_operation_lost], [queue_status_exact];
      what becomes of a batch otherwise: [given_up_batch_lost].
    - [WhiteDiff] (cms/grading/steps/whitediff.py): [canonicalize_iff],
      [white_diff_lines].
    - [Ranking], [ScoringStore] (cmsranking/Scoring.py, Store.py): scores of the
      ranking server as a replay of submissions and changes in any order;
      the stores, their callbacks and restarts. [history_is_replay],
      [history_order_irrelevant], [requests_served], [restart_same_history],
      [global_history_merges].
    - [RankingEntities] (cmsranking/Contest.py, Task.py, Team.py, User.py, ...): the
      entities of the ranking server, set from JSON and given back; [Entity] is
      the class that the stores use. [entities_roundtrip].
    - [RankingServer] (cmsranking/Store.py, RankingWebServer.py): the six stores with
      their files and callbacks, and the handlers of HTTP requests.
      [server_keeps_references], [restart_restores].
    - [ProxyService] (cms/service/ProxyService.py): the operations that tell the
      ranking servers about a contest, the sweep, the executors' requests.
      [only_public_data_sent] (in the databases that were read),
      [sweep_queues_missing], [missing_operations_ok].
    - [RankingFeed], [ContestRanking]: the proxy service, its executor, and a ranking
      server that gets the requests; [ranking_agrees_with_contest].
    - [Languages] (cms/grading/language.py, languages/*.py, languagemanager.py).
    - [TaskTypes] (cms/grading/ParameterTypes.py, tasktypes/): parameters, constructors,
      managers and commands of the five task types; [task_types_typed].
    - [Job] (cms/grading/Job.py): jobs built from operations, sent as JSON, and
      written into rows; [group_roundtrip].
    - [EvalService] (cms/service/EvaluationService.py, the database side): sessions,
      savepoints and commits, every handler that reads or writes the database.
    - [EvalServiceRows], [EvalServiceSafe]: what the handlers keep whatever
      happens; [handlers_keep_database].
    - [EvalServiceSpec], [EvalServiceWrite]: what the handlers achieve for
      ordinary task types; [sweep_holds_everything], [new_submission_settles],
      [write_results_writes].
    - [Interleaving]: programs of atomic actions ([prog]), pools of them under any
      schedule ([pool_step]), and a rely-guarantee logic ([valid]) over a
      [Protocol]; [pool_run], [pool_keeps], [pool_terminates].
    - [FileStorage] (cms/db/filecacher.py, cms/db/fsobject.py, cmscommon/digest.py,
      cmscommon/binary.py): digests and the backends, instances of the class
      [FileCacherBackend]: a directory, large objects of the database, nothing.
    - [FileCacher] (cms/db/filecacher.py): the cacher, every operation as a [prog].
    - [FileStorageSpec], [FileCacherSpec]: the contract [BackendSpec] of a backend,
      its proof for the two that store, and the cacher against the contract.
    - [FileService]: the cacher on the database among others: [concurrent_requests],
      [put_then_get].
    - [CleanFiles] (cmscontrib/CleanFiles.py, enumerate_files of cms/db/util.py,
      precache_files of cms/service/Worker.py): the files that tables refer to, and
      the removal of the others; [clean_files_exact] (tombstones only reach the
      database when it has finished), [integrity_check_exact].
    - [SubmissionCheck] (cms/server/contest/submission/check.py): limits on the number
      and the frequency of submissions and user tests (class [Sent]).
    - [Archive] (cmscommon/archive.py): temporary files and directories of an
      archive that is read; patool is the class [Patool].
    - [FileMatching] (cms/server/contest/submission/file_retrieval.py,
      file_matching.py): the files that were received, in the format and the
      language that fit; [match_files_and_language_exact].
    - [AcceptSubmission] (cms/server/contest/submission/workflow.py, utils.py and the
      handlers that call them): requests of contestants as programs on the
      database, the file cacher, the temporary directory and the local copies.
    - [SubmissionLimits]: requests one after another; [limits_respected].
    - [SubmissionSpec]: which submissions are accepted, [accept_submission_exact];
      an example of two at the same time, [limit_exceeded_by_race].
    - [Sandbox] (cms/grading/Sandbox.py): the object that drives isolate: files and
      their permissions, options, command lines, processes, logs. isolate and the
      machine are the class [Isolate], the file cacher the class [FileStore].
    - [GradingSteps] (cms/grading/steps/): steps of a compilation and an evaluation,
      checkers, statistics, messages, outcomes of managers.
    - [Grading] (cms/grading/tasktypes/util.py, Batch.py, OutputOnly.py): from a job to
      the job with its results; [compile] of Batch, Communication and PvP.
    - [GradingSpec]: what isolate is given and how each end of a program is judged,
      on a storage with [StoreLaws]; [batch_evaluate_exact].
    - [ManagedTasks] (cms/grading/tasktypes/PvP.py, Communication.py, TwoSteps.py):
      processes that run at the same time and talk through fifos.
    - [MatchSpec]: the match of two programs; [pvp_match_exact].

    ** How the components meet

    The evaluation service is a [World]: the committed database and the changes
    of the session in progress, the [Dispatcher] of EvalExecutor (queue, pool,
    cache), and the calls to other services. Its handlers find operations with
    EsOperations, hand them to the dispatcher ([ds_enqueue], whose specification
    [ds_enqueue_spec] is all that EvalServiceSpec uses), and write the jobs of
    Job. It reports results to ScoringService, whose [World] is the database, the
    [TriggeredService] of Executor and the calls of ProxyService; scores come
    from ScoreTypes. ProxyService reads the same database; its executors' requests
    are [RankingServer.wsgi_app] of the ranking server, which sets entities with
    RankingEntities and calls ScoringStore back ([to_world], [in_scoring]).
    ContestRanking follows a score through all of them. Services share files
    through the cacher: a [prog] on the state of a service acts on the backend
    that all have in common, and others may act in between. A request of a
    contestant (AcceptSubmission) runs those programs with the checks of
    SubmissionCheck, the matching of FileMatching on Languages, and TaskTypes. A
    worker takes a job of Job and gives it back: Grading and ManagedTasks run the
    steps of GradingSteps in a Sandbox with the commands of Languages, compare
    outputs with WhiteDiff, and leave in the job the outcome that ScoreTypes
    scores, or the two numbers that Pvp reads. The theorems on the services hold for any implementation of [PQueue]; [PriorityQueue] is one.

    ** Bounds and fuel

    Loops whose end is not structural have fuel, and a theorem that it is
    enough: [fill_batch] has the length of the queue; [white_diff] the lengths of
    the files; [history_loop] the number of items of the histories; the window
    of PvP pairing 12 steps of 50; [submission_enqueue] one level per data set
    ([judge_fuel], [new_submission_settles]); [run_until_idle] the size of the
    queue; [delete] of an entity four levels of stores ([depth_enough]); the loops
    that copy a file the length of the file and one more. [to_scores_positive] is
    for at most 500 ratings (its constants are checked by computation). Tokens:
    times up to 136 years after the start ([HORIZON]) and histories of at most
    [MANY], within which floats are exact on whole seconds.

    ** Not modelled, and why

    What isolate does to a program, and what programs, compilers, checkers and
    managers write, are parameters ([Isolate]). When a task type raises, what it
    had put in the job until then is lost with the state of the model; the loop
    of the worker over the jobs of a group is not modelled. Links and
    directories inside a sandbox, the order in which the outputs of processes
    are read, StupidSandbox. The RPC library, web handlers (other than the
    submission of files) and templates, loaders, the command line tools other
    than CleanFiles, logging and configuration: input and output, or glue around
    libraries. SQLAlchemy is the record of rows and the session of EvalService. *)

From stdpp Require Export base decidable option list gmap strings sorting.
From Stdlib Require Export ZArith Lia.

Declare Scope cms_scope.
Delimit Scope cms_scope with cms.

(** ** Outcomes of a Python call

    [Ok v]     the call returns [v];
    [Raise e]  the call raises;
    [Blocks]   the greenlet waits on an event that this state has not set;
    [NoFuel]   the model's recursion budget is exhausted (not a behaviour of
               the program: every loop comes with a theorem that rules it
               out). *)

Inductive exn : Set :=
  | KeyError
  | IndexError
  | LookupError
  | ValueError
  | TypeError
  | AttributeError
  | AssertionError
  | ZeroDivisionError
  | OverflowError
  | RuntimeError
  | UserError (name : string).

#[export] Instance exn_eq_dec : EqDecision exn.
Proof. solve_decision. Defined.

(** [except LookupError] also catches the two subclasses. *)
Definition is_lookup_error (e : exn) : bool :=
  match e with
  | KeyError | IndexError | LookupError => true
  | _ => false
  end.

Inductive res (A : Type) : Type :=
  | Ok (a : A)
  | Raise (e : exn)
  | Blocks
  | NoFuel.
Arguments Ok {A} a.
Arguments Raise {A} e.
Arguments Blocks {A}.
Arguments NoFuel {A}.

#[export] Instance res_eq_dec {A} `{EqDecision A} : EqDecision (res A).
Proof. solve_decision. Defined.

#[export] Instance res_ret : MRet res := @Ok.
#[export] Instance res_bind : MBind res := λ A B f m,
  match m with
  | Ok a => f a
  | Raise e => Raise e
  | Blocks => Blocks
  | NoFuel => NoFuel
  end.

(** [d[k]] and [l[i]]: an absent key or index raises [e]. *)
Definition or_raise {A} (e : exn) (o : option A) : res A :=
  match o with
  | Some a => Ok a
  | None => Raise e
  end.

Definition assert (b : bool) : res unit :=
  if b then Ok tt else Raise AssertionError.

(** [del d[k]] *)
Definition del_key `{Countable K} {V} (k : K) (m : gmap K V) : res (gmap K V) :=
  match m !! k with
  | Some _ => Ok (delete k m)
  | None => Raise KeyError
  end.

Definition is_Ok {A} (r : res A) : Prop := ∃ a, r = Ok a.

Lemma or_raise_Ok {A} e (o : option A) a : or_raise e o = Ok a → o = Some a.
Proof. destruct o; [by intros [= ->]|done]. Qed.

Lemma res_bind_Ok {A B} (m : res A) (f : A → res B) b :
  (m ≫= f) = Ok b ↔ ∃ a, m = Ok a ∧ f a = Ok b.
Proof.
  split.
  - destruct m as [a| | |]; intros H; try discriminate. by exists a.
  - by intros (a & -> & H).
Qed.

(** [acc = init; for x in l: acc = f acc x], where nothing is mutated. *)
Fixpoint fold_res {A B} (f : B → A → res B) (acc : B) (l : list A) : res B :=
  match l with
  | [] => Ok acc
  | x :: l => acc ← f acc x; fold_res f acc l
  end.

(** [[f(x) for x in l]] *)
Fixpoint map_res {A B} (f : A → res B) (l : list A) : res (list B) :=
  match l with
  | [] => Ok []
  | x :: l => y ← f x; ys ← map_res f l; Ok (y :: ys)
  end.

(** [all(f(x) for x in l)]: it stops at the first false one. *)
Fixpoint all_res {A} (f : A → res bool) (l : list A) : res bool :=
  match l with
  | [] => Ok true
  | x :: l => b ← f x; if b : bool then all_res f l else Ok false
  end.

(** Running the first part of a bind. *)
Lemma res_bind_eq {A B} (m : res A) (f : A → res B) a : m = Ok a → (m ≫= f) = f a.
Proof. by intros ->. Qed.

(** ** State passing with exceptions

    A method that mutates its object and may raise: mutations made before
    the [raise] stay, as in Python. *)

Definition M (S A : Type) : Type := S → res A * S.

#[export] Instance M_ret {S} : MRet (M S) := λ A a s, (Ok a, s).
#[export] Instance M_bind {S} : MBind (M S) := λ A B f m s,
  match m s with
  | (Ok a, s') => f a s'
  | (Raise e, s') => (Raise e, s')
  | (Blocks, s') => (Blocks, s')
  | (NoFuel, s') => (NoFuel, s')
  end.

Definition get {S} : M S S := λ s, (Ok s, s).
Definition put {S} (s : S) : M S unit := λ _, (Ok tt, s).
Definition modify {S} (f : S → S) : M S unit := λ s, (Ok tt, f s).
Definition gets {S A} (f : S → A) : M S A := λ s, (Ok (f s), s).
Definition lift {S A} (r : res A) : M S A := λ s, (r, s).
Definition raise {S A} (e : exn) : M S A := λ s, (Raise e, s).

(** [m] on a part of the state. *)
Definition zoom {S T A} (part : S → T) (set_part : T → S → S) (m : M T A) : M S A :=
  λ s, let '(r, t) := m (part s) in (r, set_part t s).

(** A method written by state passing; the state is unchanged if it raises. *)
Definition run_res {S A} (f : S → res (A * S)) : M S A := λ s,
  match f s with
  | Ok (a, s') => (Ok a, s')
  | Raise e => (Raise e, s)
  | Blocks => (Blocks, s)
  | NoFuel => (NoFuel, s)
  end.

(** [try: m  except e if handles e: h] *)
Definition try_except {S A} (handles : exn → bool) (m h : M S A) : M S A :=
  λ s, match m s with
       | (Raise e, s') => if handles e then h s' else (Raise e, s')
       | r => r
       end.

(** [for x in l: f x] *)
Fixpoint for_each {S A} (f : A → M S unit) (l : list A) : M S unit :=
  match l with
  | [] => mret tt
  | x :: l => _ ← f x; for_each f l
  end.

(** [acc = init; for x in l: acc = f acc x] *)
Fixpoint for_acc {S A B} (f : B → A → M S B) (acc : B) (l : list A) : M S B :=
  match l with
  | [] => mret acc
  | x :: l => acc ← f acc x; for_acc f acc l
  end.

Lemma M_bind_Ok {S A B} (m : M S A) (f : A → M S B) s b s' :
  (m ≫= f) s = (Ok b, s') ↔ ∃ a s1, m s = (Ok a, s1) ∧ f a s1 = (Ok b, s').
Proof.
  unfold mbind, M_bind. split.
  - destruct (m s) as [[a| | |] s1]; intros H; try discriminate. eauto.
  - by intros (a & s1 & -> & H).
Qed.

(** Running the first part of a bind. *)
Lemma M_run_Ok {S A B} (m : M S A) (f : A → M S B) s a s' :
  m s = (Ok a, s') → (m ≫= f) s = f a s'.
Proof. unfold mbind, M_bind. by intros ->. Qed.

Lemma M_run_Raise {S A B} (m : M S A) (f : A → M S B) s e s' :
  m s = (Raise e, s') → (m ≫= f) s = (Raise e, s').
Proof. unfold mbind, M_bind. by intros ->. Qed.

Lemma for_acc_app {S A B} (f : B → A → M S B) acc l1 l2 s :
  for_acc f acc (l1 ++ l2) s =
  (acc' ← for_acc f acc l1; for_acc f acc' l2) s.
Proof.
  revert acc s. induction l1 as [|x l1 IH]; intros acc s; [done|].
  cbn. unfold mbind, M_bind in *.
  destruct (f acc x s) as [[b| | |] s1]; [apply IH|done..].
Qed.

(** An invariant of every iteration is an invariant of the loop. *)
Lemma for_acc_inv {S A B} (f : B → A → M S B) (I : B → S → Prop) acc l s b s' :
  (∀ acc x s b s', x ∈ l → I acc s → f acc x s = (Ok b, s') → I b s') →
  I acc s → for_acc f acc l s = (Ok b, s') → I b s'.
Proof.
  revert acc s. induction l as [|x l IH]; intros acc s Hf HI H; simpl in H.
  - by injection H as <- <-.
  - apply M_bind_Ok in H as (b1 & s1 & H1 & H2).
    eapply (IH b1 s1); [|by eapply Hf; [left|..]|done].
    intros ?????? ??. eapply Hf; [by right|done..].
Qed.

(** Total correctness of a loop: [I done acc s] is kept by every iteration,
    [done] being the elements already treated. *)
Lemma for_acc_total {S A B} (f : B → A → M S B) (I : list A → B → S → Prop) l acc s :
  (∀ pre x post acc s, l = pre ++ x :: post → I pre acc s →
     ∃ b s', f acc x s = (Ok b, s') ∧ I (pre ++ [x]) b s') →
  I [] acc s → ∃ b s', for_acc f acc l s = (Ok b, s') ∧ I l b s'.
Proof.
  intros Hf. assert (∀ post pre acc s, l = pre ++ post → I pre acc s →
    ∃ b s', for_acc f acc post s = (Ok b, s') ∧ I l b s') as Hgen.
  { induction post as [|x post IH]; intros pre acc' s' Hl HI.
    - exists acc', s'. split; [done|]. by rewrite Hl, app_nil_r.
    - destruct (Hf pre x post acc' s' Hl HI) as (b & s1 & H1 & HI1).
      destruct (IH (pre ++ [x]) b s1) as (b' & s2 & H2 & HI2);
        [by rewrite <- app_assoc|done|].
      exists b', s2. split; [|done]. simpl. apply M_bind_Ok. eauto. }
  by apply Hgen.
Qed.

(** The same for a loop without a result. *)
Lemma for_each_total {S A} (f : A → M S unit) (I : list A → S → Prop) l s :
  (∀ pre x post s, l = pre ++ x :: post → I pre s →
     ∃ s', f x s = (Ok tt, s') ∧ I (pre ++ [x]) s') →
  I [] s → ∃ s', for_each f l s = (Ok tt, s') ∧ I l s'.
Proof.
  intros Hf. assert (∀ post pre s, l = pre ++ post → I pre s →
    ∃ s', for_each f post s = (Ok tt, s') ∧ I l s') as Hgen.
  { induction post as [|x post IH]; intros pre s' Hl HI.
    - exists s'. split; [done|]. by rewrite Hl, app_nil_r.
    - destruct (Hf pre x post s' Hl HI) as (s1 & H1 & HI1).
      destruct (IH (pre ++ [x]) s1) as (s2 & H2 & HI2); [by rewrite <- app_assoc|done|].
      exists s2. split; [|done]. cbn [for_each]. by rewrite (M_run_Ok _ _ _ _ _ H1). }
  by apply Hgen.
Qed.

(** What holds after a loop that returns. *)
Lemma for_acc_returns {S A B} (f : B → A → M S B) (I : list A → B → S → Prop) l acc s b s' :
  (∀ pre x post acc s b s', l = pre ++ x :: post → I pre acc s → f acc x s = (Ok b, s') → I (pre ++ [x]) b s') →
  I [] acc s → for_acc f acc l s = (Ok b, s') → I l b s'.
Proof.
  intros Hf. assert (∀ pre post acc s, l = pre ++ post → I pre acc s →
    for_acc f acc post s = (Ok b, s') → I l b s') as H; [|by apply H].
  intros pre post. revert pre. induction post as [|x post IH]; intros pre a t Hl Ht Hr.
  - injection Hr as <- <-. by rewrite Hl, app_nil_r.
  - cbn in Hr. apply M_bind_Ok in Hr as (b1 & s1 & H1 & H2).
    apply (IH (pre ++ [x]) b1 s1); [by rewrite <- app_assoc|by eapply Hf|done].
Qed.

Lemma for_each_returns {S A} (f : A → M S unit) (I : list A → S → Prop) l s s' :
  (∀ pre x post s s', l = pre ++ x :: post → I pre s → f x s = (Ok tt, s') → I (pre ++ [x]) s') →
  I [] s → for_each f l s = (Ok tt, s') → I l s'.
Proof.
  intros Hf. assert (∀ post pre s, l = pre ++ post → I pre s → for_each f post s = (Ok tt, s') → I l s') as Hgen.
  { induction post as [|x post IH]; intros pre t Hl HI H.
    - injection H as <-. by rewrite Hl, app_nil_r.
    - cbn [for_each] in H. apply M_bind_Ok in H as ([] & t1 & H1 & H2).
      apply (IH (pre ++ [x]) t1); [by rewrite <- app_assoc|by eapply Hf|done]. }
  by apply Hgen.
Qed.

Create HintDb keeps.

(** [keeps P m]: whatever its outcome, [m] ends in a state that satisfies [P]
    when it starts in one. *)
Definition keeps {S A} (P : S → Prop) (m : M S A) : Prop := ∀ s, P s → P (m s).2.

Section keeps.
Context {S : Type} (P : S → Prop).

Lemma keeps_bind {A B} (m : M S A) (f : A → M S B) :
  keeps P m → (∀ a, keeps P (f a)) → keeps P (m ≫= f).
Proof.
  intros Hm Hf s Hs. specialize (Hm s Hs). unfold mbind, M_bind.
  destruct (m s) as [[a| | |] s']; cbn in *; [by apply Hf|done..].
Qed.

Lemma keeps_ret {A} (a : A) : keeps P (mret a).
Proof. by intros s Hs. Qed.

Lemma keeps_get : keeps P get.
Proof. by intros s Hs. Qed.

Lemma keeps_lift {A} (r : res A) : keeps P (lift r).
Proof. by intros s Hs. Qed.

Lemma keeps_raise {A} e : keeps P (raise (A:=A) e).
Proof. by intros s Hs. Qed.

Lemma keeps_modify (f : S → S) : (∀ s, P s → P (f s)) → keeps P (modify f).
Proof. intros Hf s Hs. by apply Hf. Qed.

Lemma keeps_for_each {A} (f : A → M S unit) l : (∀ x, keeps P (f x)) → keeps P (for_each f l).
Proof.
  intros Hf. induction l as [|x l IH]; cbn [for_each]; [apply keeps_ret|]. by apply keeps_bind.
Qed.
End keeps.

(** Walk through the code of a method. *)
Ltac keeps_tac :=
  repeat match goal with
    | |- keeps _ (mret _) => apply keeps_ret
    | |- keeps _ get => apply keeps_get
    | |- keeps _ (lift _) => apply keeps_lift
    | |- keeps _ (raise _) => apply keeps_raise
    | |- keeps _ (_ ≫= _) => apply keeps_bind; [|intros ?]
    | |- keeps _ (for_each _ _) => apply keeps_for_each; intros ?
    | |- keeps _ (modify _) => apply keeps_modify; intros ??
    | |- keeps _ (match ?x with _ => _ end) => destruct x
    | |- keeps _ _ => solve [eauto with keeps]
    end.

(** [triple P m Q E]: from a state that satisfies [P], [m] ends in one that
    satisfies [Q] with its result, or [E] when it does not return. *)
Definition triple {S A} (P : S → Prop) (m : M S A) (Q : A → S → Prop) (E : S → Prop) : Prop :=
  ∀ s, P s → match m s with (Ok a, s') => Q a s' | (_, s') => E s' end.

Section triple.
Context {S : Type}.
Implicit Types (P E : S → Prop).

Lemma triple_bind {A B} P (m : M S A) (f : A → M S B) R Q E :
  triple P m R E → (∀ a, triple (R a) (f a) Q E) → triple P (m ≫= f) Q E.
Proof.
  intros Hm Hf s Hs. specialize (Hm s Hs). unfold mbind, M_bind.
  destruct (m s) as [[a| | |] s']; try done. by apply Hf.
Qed.

Lemma triple_consequence {A} P P' (m : M S A) (Q Q' : A → S → Prop) E E' :
  triple P' m Q' E' → (∀ s, P s → P' s) → (∀ a s, Q' a s → Q a s) → (∀ s, E' s → E s) →
  triple P m Q E.
Proof.
  intros Hm HP HQ HE s Hs. specialize (Hm s (HP s Hs)). destruct (m s) as [[a| | |] s']; auto.
Qed.

Lemma triple_ret {A} P E (a : A) (Q : A → S → Prop) : (∀ s, P s → Q a s) → triple P (mret a) Q E.
Proof. intros H s Hs. by apply H. Qed.

Lemma triple_gets {A} P E (f : S → A) (Q : A → S → Prop) :
  (∀ s, P s → Q (f s) s) → triple P (gets f) Q E.
Proof. intros H s Hs. by apply H. Qed.

Lemma triple_modify P E (f : S → S) (Q : unit → S → Prop) :
  (∀ s, P s → Q tt (f s)) → triple P (modify f) Q E.
Proof. intros H s Hs. by apply H. Qed.

Lemma triple_lift {A} P E (r : res A) (Q : A → S → Prop) :
  (∀ s a, P s → r = Ok a → Q a s) → (∀ s, P s → E s) → triple P (lift r) Q E.
Proof. intros H HE s Hs. cbn. destruct r; auto. Qed.

Lemma triple_for_each {A} P E (f : A → M S unit) l :
  (∀ x, x ∈ l → triple P (f x) (λ _, P) E) → triple P (for_each f l) (λ _, P) E.
Proof.
  induction l as [|x l IH]; intros Hf; cbn [for_each]; [by apply triple_ret|].
  eapply triple_bind; [apply Hf; by left|]. intros []. apply IH. intros y Hy. apply Hf. by right.
Qed.

Lemma triple_for_acc {A B} P E (f : B → A → M S B) acc l :
  (∀ acc x, x ∈ l → triple P (f acc x) (λ _, P) E) → triple P (for_acc f acc l) (λ _, P) E.
Proof.
  revert acc. induction l as [|x l IH]; intros acc Hf; cbn [for_acc]; [by apply triple_ret|].
  eapply triple_bind; [apply Hf; by left|]. intros b. apply IH. intros c y Hy. apply Hf. by right.
Qed.
End triple.

Lemma StronglySorted_sublist {A} (R : relation A) l1 l2 :
  l1 `sublist_of` l2 → StronglySorted R l2 → StronglySorted R l1.
Proof.
  induction 1 as [|x l1 l2 Hs IH|x l1 l2 Hs IH]; intros H; [constructor| |].
  - apply StronglySorted_cons in H as [Hx H]. constructor; [by apply IH|].
    rewrite Forall_forall in *. intros y Hy. apply Hx. by eapply elem_of_sublist.
  - apply StronglySorted_cons in H as [_ H]. by apply IH.
Qed.

(** ** Python dictionaries that are iterated

    A [pydict] keeps the insertion order: assigning an existing key keeps its
    place, a new key goes last. Dictionaries that are only looked up are
    stdpp's [gmap]. *)

Definition pydict (K V : Type) : Type := list (K * V).

Section pydict.
Context {K V : Type} `{EqDecision K}.
Implicit Types (d : pydict K V) (k : K) (v : V).

Fixpoint pd_get d k : option V :=
  match d with
  | [] => None
  | (k', v) :: d => if decide (k = k') then Some v else pd_get d k
  end.

Fixpoint pd_set d k v : pydict K V :=
  match d with
  | [] => [(k, v)]
  | (k', v') :: d =>
      if decide (k = k') then (k', v) :: d else (k', v') :: pd_set d k v
  end.

Definition pd_del d k : pydict K V :=
  filter (λ kv, kv.1 ≠ k) d.

Definition pd_keys d : list K := d.*1.
Definition pd_values d : list V := d.*2.

Definition pd_mem d k : bool := bool_decide (is_Some (pd_get d k)).

Lemma pd_get_set_eq d k v : pd_get (pd_set d k v) k = Some v.
Proof.
  induction d as [|[k' v'] d IH]; simpl; [by rewrite decide_True|].
  case_decide; simpl; [by rewrite decide_True|by rewrite decide_False].
Qed.

Lemma pd_get_set_ne d k k' v : k ≠ k' → pd_get (pd_set d k v) k' = pd_get d k'.
Proof.
  intros Hne. induction d as [|[k1 v1] d IH]; simpl.
  - by rewrite decide_False.
  - case_decide; simpl; [subst|]; case_decide; congruence.
Qed.

Lemma pd_get_set d k k' v :
  pd_get (pd_set d k v) k' = if decide (k = k') then Some v else pd_get d k'.
Proof. case_decide; [subst; apply pd_get_set_eq|by apply pd_get_set_ne]. Qed.

Lemma pd_get_Some_in d k v : pd_get d k = Some v → (k, v) ∈ d.
Proof.
  induction d as [|[k' v'] d IH]; simpl; [done|].
  rewrite elem_of_cons. case_decide; naive_solver.
Qed.

Lemma pd_get_in d k : is_Some (pd_get d k) ↔ k ∈ pd_keys d.
Proof.
  unfold pd_keys. induction d as [|[k' v'] d IH]; csimpl.
  - split; [by intros []|]. by intros ?%elem_of_nil.
  - rewrite elem_of_cons. case_decide; [subst; split; eauto|].
    rewrite IH. split; [auto|by intros [?|?]].
Qed.

Lemma pd_get_None d k : pd_get d k = None ↔ k ∉ pd_keys d.
Proof. rewrite <- pd_get_in. apply eq_None_not_Some. Qed.

Lemma pd_in_get d k v : NoDup (pd_keys d) → (k, v) ∈ d → pd_get d k = Some v.
Proof.
  unfold pd_keys. induction d as [|[k' v'] d IH]; csimpl.
  - by intros _ ?%elem_of_nil.
  - intros [Hn Hnd]%NoDup_cons [[=]|Hin]%elem_of_cons; [subst; by rewrite decide_True|].
    rewrite decide_False; [auto|]. intros ->. apply Hn.
    apply list_elem_of_fmap. by exists (k', v).
Qed.

Lemma pd_keys_set_in d k v : k ∈ pd_keys d → pd_keys (pd_set d k v) = pd_keys d.
Proof.
  unfold pd_keys. induction d as [|[k' v'] d IH]; csimpl.
  - by intros ?%elem_of_nil.
  - rewrite elem_of_cons. intros Hk. case_decide; csimpl; [done|].
    destruct Hk as [->|Hk]; [done|]. by rewrite IH.
Qed.

Lemma pd_keys_set_new d k v : k ∉ pd_keys d → pd_keys (pd_set d k v) = pd_keys d ++ [k].
Proof.
  unfold pd_keys. induction d as [|[k' v'] d IH]; csimpl; [done|].
  rewrite not_elem_of_cons. intros [Hne Hk]. rewrite decide_False by done.
  csimpl. by rewrite IH.
Qed.

Lemma pd_keys_set_NoDup d k v : NoDup (pd_keys d) → NoDup (pd_keys (pd_set d k v)).
Proof.
  intros Hnd. destruct (decide (k ∈ pd_keys d)) as [H|H].
  - by rewrite pd_keys_set_in.
  - rewrite pd_keys_set_new by done. apply NoDup_app. split_and!; [done| |].
    + intros x Hx ->%list_elem_of_singleton. done.
    + apply NoDup_singleton.
Qed.

Lemma pd_get_del d k k' : pd_get (pd_del d k) k' = if decide (k = k') then None else pd_get d k'.
Proof.
  assert (∀ x l, pd_del (x :: l) k = if decide (x.1 ≠ k) then x :: pd_del l k else pd_del l k)
    as Hcons by done.
  induction d as [|[k1 v1] d IH]; [by case_decide|].
  rewrite Hcons. simpl. destruct (decide (k1 ≠ k)) as [Hne|Heq%dec_stable]; simpl; rewrite IH.
  - destruct (decide (k' = k1)) as [->|]; [by rewrite decide_False by congruence|done].
  - subst k1. case_decide; [done|]. by rewrite decide_False by congruence.
Qed.

Lemma pd_keys_del_NoDup d k : NoDup (pd_keys d) → NoDup (pd_keys (pd_del d k)).
Proof.
  intros Hnd. eapply sublist_NoDup; [exact Hnd|]. unfold pd_keys, pd_del.
  change (sublist (fst <$> filter (λ kv, kv.1 ≠ k) d) (fst <$> d)). apply fmap_sublist, sublist_filter.
Qed.

Lemma pd_keys_set_elem d k v k' : k' ∈ pd_keys (pd_set d k v) ↔ k' = k ∨ k' ∈ pd_keys d.
Proof.
  rewrite <- !pd_get_in, pd_get_set. case_decide as Hk; [subst; split; [by left|eauto]|].
  split; [by right|intros [->|?]; done].
Qed.

Lemma pd_set_elem d k v kv : kv ∈ pd_set d k v → kv = (k, v) ∨ kv ∈ d.
Proof.
  induction d as [|[k1 v1] d IH]; cbn [pd_set]; [by intros ->%list_elem_of_singleton; left|].
  case_decide as Hk; [subst k1|]; intros [->|H]%elem_of_cons; rewrite ?elem_of_cons; auto.
  destruct (IH H); auto.
Qed.

Lemma pd_set_fresh d k v : k ∉ pd_keys d → pd_set d k v = d ++ [(k, v)].
Proof.
  unfold pd_keys. induction d as [|[k1 v1] d IH]; csimpl; [done|].
  intros [Hne Hd]%not_elem_of_cons. rewrite decide_False by done. f_equal. by apply IH.
Qed.

(** Two dictionaries with the same contents. *)
Lemma pd_Permutation d1 d2 :
  NoDup (pd_keys d1) → NoDup (pd_keys d2) → (∀ k, pd_get d1 k = pd_get d2 k) → d1 ≡ₚ d2.
Proof.
  intros H1 H2 Hg. apply NoDup_Permutation; [by eapply NoDup_fmap_1..|]. intros [k v].
  split; intros Hin; apply pd_get_Some_in.
  - rewrite <- Hg. by apply pd_in_get.
  - rewrite Hg. by apply pd_in_get.
Qed.

(** Assigning a key that is present replaces its value in place. *)
Lemma pd_split d k v :
  pd_get d k = Some v →
  ∃ d1 d2, d = d1 ++ (k, v) :: d2 ∧ ∀ v', pd_set d k v' = d1 ++ (k, v') :: d2.
Proof.
  induction d as [|[k1 v1] d IH]; simpl; [done|]. case_decide as Hk.
  - intros [= ->]. subst k1. by exists [], d.
  - intros (d1 & d2 & -> & Hs)%IH. exists ((k1, v1) :: d1), d2. split; [done|].
    intros v'. by rewrite Hs.
Qed.

Lemma pd_get_Permutation d1 d2 k : NoDup (pd_keys d1) → d1 ≡ₚ d2 → pd_get d1 k = pd_get d2 k.
Proof.
  intros Hn Hp. assert (NoDup (pd_keys d2)) as Hn2.
  { unfold pd_keys in *. by rewrite <- Hp. }
  apply option_eq. intros v. split; intros Hv%pd_get_Some_in; apply pd_in_get; try done.
  - by rewrite <- Hp.
  - by rewrite Hp.
Qed.

Lemma pd_get_filter (P : V → Prop) `{!∀ v, Decision (P v)} d k :
  NoDup (pd_keys d) →
  pd_get (filter (λ kv, P kv.2) d) k = (pd_get d k ≫= λ v, if decide (P v) then Some v else None).
Proof.
  intros Hn. apply option_eq. intros v.
  assert (NoDup (pd_keys (filter (λ kv, P kv.2) d))) as Hn'.
  { eapply sublist_NoDup; [exact Hn|]. apply fmap_sublist, sublist_filter. }
  split.
  - intros [HP Hin]%pd_get_Some_in%list_elem_of_filter.
    rewrite (pd_in_get d k v Hn Hin). simpl. by rewrite decide_True.
  - intros (v' & Hv & Hd)%bind_Some. case_decide; [|done]. injection Hd as ->.
    apply pd_in_get; [done|]. apply list_elem_of_filter. by split; [|apply pd_get_Some_in].
Qed.

Lemma pd_get_fmap f d k : pd_get (prod_map id f <$> d) k = f <$> pd_get d k.
Proof. induction d as [|[k1 v1] d IH]; csimpl; [done|]. by case_decide. Qed.

(** Two dictionaries with the same keys in the same order and the same values
    are equal. *)
Lemma pd_ext d1 d2 :
  NoDup (pd_keys d1) → pd_keys d1 = pd_keys d2 → (∀ k, pd_get d1 k = pd_get d2 k) → d1 = d2.
Proof.
  unfold pd_keys. revert d2. induction d1 as [|[k v] d1 IH]; intros [|[k2 v2] d2]; try done.
  csimpl. intros [Hk Hn]%NoDup_cons [= <- Hks] Hg.
  pose proof (Hg k) as Hv. rewrite !decide_True in Hv by done. injection Hv as ->. f_equal.
  apply IH; [done..|]. intros k'. specialize (Hg k'). case_decide; [|done]. subst k'.
  rewrite (proj2 (pd_get_None d1 k)) by done. symmetry. apply pd_get_None. unfold pd_keys.
  by rewrite <- Hks.
Qed.
End pydict.

(** Building a dictionary from items with different keys gives the items. *)
Lemma dict_of_items {K V} `{EqDecision K} (items : list (K * V)) (d : pydict K V) :
  NoDup (pd_keys d ++ items.*1) → foldl (λ d kv, pd_set d kv.1 kv.2) d items = d ++ items.
Proof.
  revert d. induction items as [|[k v] items IH]; intros d Hn; csimpl in *; [by rewrite app_nil_r|].
  pose proof Hn as (_ & Hk & _)%NoDup_app. rewrite pd_set_fresh.
  - rewrite IH; [by rewrite <- app_assoc|]. unfold pd_keys in *. rewrite fmap_app. csimpl.
    by rewrite <- app_assoc.
  - intros Hin. apply NoDup_app in Hn as (_ & Hd & _). by destruct (Hd _ Hin); left.
Qed.

(** ** Calls that return or raise *)

(** No wait, and no exhausted budget. *)
Definition returns_or_raises {A} (r : res A) : Prop :=
  match r with Ok _ | Raise _ => True | _ => False end.

Lemma ror_bind {A B} (m : res A) (f : A → res B) :
  returns_or_raises m → (∀ a, returns_or_raises (f a)) → returns_or_raises (m ≫= f).
Proof. destruct m; cbn; auto. Qed.

Lemma ror_or_raise {A} e (o : option A) : returns_or_raises (or_raise e o).
Proof. by destruct o. Qed.

Lemma ror_fold_res {A B} (f : B → A → res B) acc l :
  (∀ b x, returns_or_raises (f b x)) → returns_or_raises (fold_res f acc l).
Proof. intros Hf. revert acc. induction l; intros acc; cbn; [done|]. by apply ror_bind. Qed.

Lemma ror_map_res {A B} (f : A → res B) l :
  (∀ x, returns_or_raises (f x)) → returns_or_raises (map_res f l).
Proof.
  intros Hf. induction l; cbn; [done|]. apply ror_bind; [done|]. intros y. by apply ror_bind.
Qed.

Lemma ror_all_res {A} (f : A → res bool) l :
  (∀ x, returns_or_raises (f x)) → returns_or_raises (all_res f l).
Proof. intros Hf. induction l; cbn; [done|]. apply ror_bind; [done|]. by intros []. Qed.

Create HintDb ror discriminated.
#[export] Hint Resolve ror_or_raise : ror.

(** Go through the binds, the loops and the cases of a call. *)
Ltac ror_solve :=
  repeat first
    [ exact I
    | solve [auto with ror nocore]
    | apply ror_bind
    | apply ror_fold_res
    | apply ror_map_res
    | apply ror_all_res
    | progress intros
    | match goal with
      | |- returns_or_raises (match ?x with _ => _ end) => destruct x
      | |- returns_or_raises (let '(_, _) := ?x in _) => destruct x
      end ].

(** ** Filters and binds of lists *)

Lemma filter_all {A} (P : A → Prop) `{!∀ x, Decision (P x)} (l : list A) :
  (∀ x, x ∈ l → P x) → filter P l = l.
Proof.
  induction l as [|x l IH]; intros Hl; [done|].
  rewrite filter_cons_True by (apply Hl; by left). f_equal. apply IH. intros y Hy. apply Hl. by right.
Qed.

Lemma filter_none {A} (P : A → Prop) `{!∀ x, Decision (P x)} (l : list A) :
  (∀ x, x ∈ l → ¬ P x) → filter P l = [].
Proof.
  intros Hl. destruct (filter P l) as [|y l'] eqn:Hf; [done|]. exfalso.
  assert (y ∈ filter P l) as [HP Hy]%list_elem_of_filter by (rewrite Hf; by left). by apply (Hl y).
Qed.

Lemma filter_ext_elem {A} (P P' : A → Prop) `{!∀ x, Decision (P x)} `{!∀ x, Decision (P' x)} (l : list A) :
  (∀ x, x ∈ l → P x ↔ P' x) → filter P l = filter P' l.
Proof.
  intros Hl. induction l as [|x l IH]; [done|]. rewrite !filter_cons, IH by (intros y Hy; apply Hl; by right).
  specialize (Hl x ltac:(by left)). repeat case_decide; tauto.
Qed.

Lemma bind_ext_in {A B} (f g : A → list B) l : (∀ x, x ∈ l → f x = g x) → l ≫= f = l ≫= g.
Proof.
  intros Hl. induction l as [|x l IH]; [done|]. rewrite !bind_cons, (Hl x) by (by left).
  f_equal. apply IH. intros y Hy. apply Hl. by right.
Qed.

(** ** Loops that raise *)

Lemma fold_res_app {A B} (f : B → A → res B) acc l1 l2 :
  fold_res f acc (l1 ++ l2) = (acc ← fold_res f acc l1; fold_res f acc l2).
Proof.
  revert acc. induction l1 as [|x l1 IH]; intros acc; [done|]. cbn. unfold mbind, res_bind in *.
  by destruct (f acc x).
Qed.

(** A relation kept by every iteration, each of which returns. *)
Lemma fold_res_total {A B} (f : B → A → res B) (I : B → Prop) acc l :
  (∀ x acc, x ∈ l → I acc → ∃ acc', f acc x = Ok acc' ∧ I acc') →
  I acc → ∃ acc', fold_res f acc l = Ok acc' ∧ I acc'.
Proof.
  revert acc. induction l as [|x l IH]; intros acc Hf HI; [by exists acc|].
  destruct (Hf x acc ltac:(by left) HI) as (a & Ha & HIa). cbn. rewrite Ha. cbn.
  apply IH; [|done]. intros y b Hy. apply Hf. by right.
Qed.

(** The same, with the elements already treated. *)
Lemma fold_res_prefix {A B} (f : B → A → res B) (I : list A → B → Prop) l acc :
  (∀ pre x post acc, l = pre ++ x :: post → I pre acc → ∃ acc', f acc x = Ok acc' ∧ I (pre ++ [x]) acc') →
  I [] acc → ∃ acc', fold_res f acc l = Ok acc' ∧ I l acc'.
Proof.
  intros Hf. assert (∀ post pre acc, l = pre ++ post → I pre acc →
    ∃ acc', fold_res f acc post = Ok acc' ∧ I l acc') as H; [|by apply H].
  induction post as [|x post IH]; intros pre a Hl HI; [exists a; split; [done|by rewrite Hl, app_nil_r]|].
  destruct (Hf pre x post a Hl HI) as (a1 & H1 & HI1).
  destruct (IH (pre ++ [x]) a1) as (a2 & H2 & HI2); [by rewrite <- app_assoc|done|].
  exists a2. split; [|done]. cbn. by rewrite H1.
Qed.

Lemma map_res_Forall2 {A B} (f : A → res B) l l' :
  map_res f l = Ok l' ↔ Forall2 (λ x y, f x = Ok y) l l'.
Proof.
  revert l'. induction l as [|x l IH]; intros l'; cbn.
  - split; [by intros [= <-]|]. by inversion 1.
  - split.
    + intros (y & Hy & (ys & Hys & [= <-])%res_bind_Ok)%res_bind_Ok. constructor; [done|]. by apply IH.
    + inversion 1 as [|? y ? ys Hy Hys]; subst. rewrite Hy. cbn. apply IH in Hys. by rewrite Hys.
Qed.

Lemma map_res_total {A B} (f : A → res B) l :
  (∀ x, x ∈ l → ∃ y, f x = Ok y) → ∃ l', map_res f l = Ok l'.
Proof.
  induction l as [|x l IH]; intros Hf; [by exists []|]. destruct (Hf x ltac:(by left)) as [y Hy].
  destruct IH as [ys Hys]; [intros z Hz; apply Hf; by right|]. exists (y :: ys). cbn. by rewrite Hy, Hys.
Qed.

Create HintDb cms discriminated.
Create Rewrite HintDb cms_rw.
#[export] Hint Rewrite @pd_get_set_eq : cms_rw.
#[export] Hint Resolve pd_keys_set_NoDup : cms.

(** ** Tactics *)

(** Destruct the scrutinee of the first [match] of hypothesis [H] and drop
    the cases it contradicts. *)
Ltac case_in H :=
  match type of H with
  | context [match ?x with _ => _ end] =>
      let E := fresh "E" in destruct x eqn:E; try discriminate H
  end.

(** Run a monadic equation [m s = (Ok b, s')] one bind at a time. *)
Ltac run_in H :=
  repeat (apply M_bind_Ok in H;
          let a := fresh "a" in let s := fresh "s" in
          let H1 := fresh H in destruct H as (a & s & H1 & H)).

(** Evaluate the monadic combinators of a goal. *)
Ltac run_goal :=
  unfold mbind, mret, M_bind, M_ret, get, put, gets, modify, lift, raise in *;
  cbn [or_raise assert] in *.
