(* ===== verification/PriorityQueue.v ===== *)
(** * The operation queue (cms/io/priorityqueue.py)

    [QueueEntry] and [PriorityQueue] follow the Python classes: the heap is a
    list, [_reverse] maps each item to its index in it, [_event] is the flag
    of the gevent [Event], [_next_index] the tie-breaking counter. A datetime
    is a number of microseconds. The sift loops take fuel: the index for
    [_up_heap], the length of the heap for [_down_heap]; the specifications
    below show that this is enough on every well-formed queue.

    The second half states the contract of the queue ([PQueue]): a finite map
    from items to keys, where [pop] takes the least key. *)

From S2P Require Import Prelude.

Definition PRIORITY_EXTRA_HIGH : Z := 0.
Definition PRIORITY_HIGH : Z := 1.
Definition PRIORITY_MEDIUM : Z := 2.
Definition PRIORITY_LOW : Z := 3.
Definition PRIORITY_EXTRA_LOW : Z := 4.

Section PriorityQueue.
Context {Item : Type} `{Countable Item}.

Record QueueEntry : Type := mkEntry {
  item : Item;
  priority : Z;
  timestamp : Z;
  index : nat;
}.

(** [QueueEntry.__eq__] and [QueueEntry.__lt__]: tuple comparison. *)
Definition entry_eq (a b : QueueEntry) : bool :=
  (priority a =? priority b)%Z && (timestamp a =? timestamp b)%Z
  && (index a =? index b)%nat.

Definition entry_lt (a b : QueueEntry) : bool :=
  if (priority a =? priority b)%Z then
    if (timestamp a =? timestamp b)%Z then (index a <? index b)%nat
    else (timestamp a <? timestamp b)%Z
  else (priority a <? priority b)%Z.

Record PriorityQueue : Type := mkPQ {
  _queue : list QueueEntry;
  _reverse : gmap Item nat;
  _event : bool;
  _next_index : nat;
}.

Definition pq_init : PriorityQueue := mkPQ [] ∅ false 0.

Definition set_queue (q : list QueueEntry) (pq : PriorityQueue) : PriorityQueue :=
  mkPQ q (_reverse pq) (_event pq) (_next_index pq).

Definition length (pq : PriorityQueue) : nat := List.length (_queue pq).

Definition empty (pq : PriorityQueue) : bool := (length pq =? 0)%nat.

(** [item in queue] *)
Definition contains (it : Item) (pq : PriorityQueue) : bool :=
  bool_decide (is_Some (_reverse pq !! it)).

Fixpoint verify_items (l : list (Item * nat)) (pq : PriorityQueue) : res bool :=
  match l with
  | [] => Ok true
  | (it, idx) :: l =>
      e ← or_raise IndexError (_queue pq !! idx);
      if decide (item e = it) then verify_items l pq else Ok false
  end.

Definition _verify (pq : PriorityQueue) : res bool :=
  if negb (List.length (_queue pq) =? size (_reverse pq))%nat then Ok false
  else if negb (List.length (_queue pq) =? length pq)%nat then Ok false
  else if negb (Bool.eqb (empty pq) (length pq =? 0)%nat) then Ok false
  else if Bool.eqb (_event pq) (empty pq) then Ok false
  else verify_items (map_to_list (_reverse pq)) pq.

Definition _swap (idx1 idx2 : nat) (pq : PriorityQueue) : res PriorityQueue :=
  e1 ← or_raise IndexError (_queue pq !! idx1);
  e2 ← or_raise IndexError (_queue pq !! idx2);
  Ok (mkPQ (<[idx2 := e1]> (<[idx1 := e2]> (_queue pq)))
           (<[item e1 := idx2]> (<[item e2 := idx1]> (_reverse pq)))
           (_event pq) (_next_index pq)).

Fixpoint up_heap_loop (fuel idx : nat) (pq : PriorityQueue)
    : res (nat * PriorityQueue) :=
  if (idx =? 0)%nat then Ok (idx, pq) else
  match fuel with
  | O => NoFuel
  | S fuel =>
      let parent := ((idx - 1) / 2)%nat in
      e ← or_raise IndexError (_queue pq !! idx);
      p ← or_raise IndexError (_queue pq !! parent);
      if entry_lt e p then
        pq ← _swap parent idx pq;
        up_heap_loop fuel parent pq
      else Ok (idx, pq)
  end.

Definition _up_heap (idx : nat) (pq : PriorityQueue) : res (nat * PriorityQueue) :=
  up_heap_loop idx idx pq.

(** The child with the smaller entry, [last] being the last index. *)
Definition min_child (last idx : nat) (pq : PriorityQueue) : res nat :=
  let child := (2 * idx + 1)%nat in
  if (2 * idx + 2 <=? last)%nat then
    r ← or_raise IndexError (_queue pq !! (2 * idx + 2)%nat);
    c ← or_raise IndexError (_queue pq !! child);
    Ok (if entry_lt r c then 2 * idx + 2 else child)%nat
  else Ok child.

Fixpoint down_heap_loop (fuel last idx : nat) (pq : PriorityQueue)
    : res (nat * PriorityQueue) :=
  if negb (2 * idx + 1 <=? last)%nat then Ok (idx, pq) else
  match fuel with
  | O => NoFuel
  | S fuel =>
      child ← min_child last idx pq;
      c ← or_raise IndexError (_queue pq !! child);
      e ← or_raise IndexError (_queue pq !! idx);
      if entry_lt c e then
        pq ← _swap child idx pq;
        down_heap_loop fuel last child pq
      else Ok (idx, pq)
  end.

(** [last = len(self._queue) - 1]: the loop does not run on an empty list
    (where Python's [last] is [-1]) nor with the truncated [0]. *)
Definition _down_heap (idx : nat) (pq : PriorityQueue) : res (nat * PriorityQueue) :=
  down_heap_loop (length pq) (length pq - 1) idx pq.

Definition _updown_heap (idx : nat) (pq : PriorityQueue)
    : res (nat * PriorityQueue) :=
  '(idx, pq) ← _up_heap idx pq;
  _down_heap idx pq.

(** [now] is what [make_datetime()] returns at the call. *)
Definition push (it : Item) (prio ts : option Z) (now : Z) (pq : PriorityQueue)
    : res (bool * PriorityQueue) :=
  if contains it pq then Ok (false, pq) else
  let prio := default PRIORITY_MEDIUM prio in
  let ts := default now ts in
  let index := _next_index pq in
  let q := _queue pq ++ [mkEntry it prio ts index] in
  let last := (List.length q - 1)%nat in
  let pq := mkPQ q (<[it := last]> (_reverse pq)) (_event pq) (S index) in
  '(_, pq) ← _up_heap last pq;
  Ok (true, mkPQ (_queue pq) (_reverse pq) true (_next_index pq)).

Definition top (wait : bool) (pq : PriorityQueue) : res QueueEntry :=
  if negb (empty pq) then or_raise IndexError (_queue pq !! 0%nat)
  else if negb wait then Raise LookupError
  else Blocks.

(** [del self._reverse[it]; del self._queue[last]] *)
Definition del_last (it : Item) (last : nat) (pq : PriorityQueue)
    : res PriorityQueue :=
  rev ← del_key it (_reverse pq);
  _ ← or_raise IndexError (_queue pq !! last);
  Ok (mkPQ (delete last (_queue pq)) rev (_event pq) (_next_index pq)).

Definition clear_event (pq : PriorityQueue) : PriorityQueue :=
  mkPQ (_queue pq) (_reverse pq) false (_next_index pq).

Definition pop (wait : bool) (pq : PriorityQueue)
    : res (QueueEntry * PriorityQueue) :=
  top ← top wait pq;
  let last := (length pq - 1)%nat in
  pq ← _swap 0 last pq;
  pq ← del_last (item top) last pq;
  if (0 <? last)%nat then
    '(_, pq) ← _down_heap 0 pq;
    Ok (top, pq)
  else Ok (top, clear_event pq).

Definition remove (it : Item) (pq : PriorityQueue)
    : res (QueueEntry * PriorityQueue) :=
  pos ← or_raise KeyError (_reverse pq !! it);
  entry ← or_raise IndexError (_queue pq !! pos);
  let last := (length pq - 1)%nat in
  pq ← _swap pos last pq;
  pq ← del_last it last pq;
  '(_, pq) ← (if decide (pos = last) then Ok (pos, pq) else _updown_heap pos pq);
  Ok (entry, if empty pq then clear_event pq else pq).

Definition set_priority (it : Item) (prio : Z) (pq : PriorityQueue)
    : res PriorityQueue :=
  pos ← or_raise KeyError (_reverse pq !! it);
  e ← or_raise IndexError (_queue pq !! pos);
  let e' := mkEntry (item e) prio (timestamp e) (index e) in
  '(_, pq) ← _updown_heap pos (set_queue (<[pos := e']> (_queue pq)) pq);
  Ok pq.

(** ** The order of entries *)

Definition entry_le (a b : QueueEntry) : Prop := entry_lt b a = false.

Lemma entry_lt_spec a b :
  entry_lt a b = true ↔
  (priority a < priority b)%Z ∨
  (priority a = priority b ∧ timestamp a < timestamp b)%Z ∨
  (priority a = priority b ∧ timestamp a = timestamp b ∧ index a < index b).
Proof.
  unfold entry_lt. case (Z.eqb_spec (priority a) (priority b)); intros;
    [case (Z.eqb_spec (timestamp a) (timestamp b)); intros|];
    rewrite ?Z.ltb_lt, ?Nat.ltb_lt; intuition lia.
Qed.

Lemma entry_le_spec a b :
  entry_le a b ↔
  (priority a < priority b)%Z ∨
  (priority a = priority b ∧ timestamp a < timestamp b)%Z ∨
  (priority a = priority b ∧ timestamp a = timestamp b ∧ index a ≤ index b).
Proof.
  unfold entry_le. rewrite <- not_true_iff_false, entry_lt_spec. lia.
Qed.

Lemma entry_le_refl a : entry_le a a.
Proof. apply entry_le_spec. lia. Qed.

Lemma entry_le_trans a b c : entry_le a b → entry_le b c → entry_le a c.
Proof. rewrite !entry_le_spec. lia. Qed.

Lemma entry_lt_le a b : entry_lt a b = true → entry_le a b.
Proof. rewrite entry_lt_spec, entry_le_spec. lia. Qed.

Lemma entry_le_lt a b : entry_le a b → index a ≠ index b → entry_lt a b = true.
Proof. rewrite entry_lt_spec, entry_le_spec. lia. Qed.

(** ** The heap order, and the two ways a sift loop may break it *)

Implicit Types (q : list QueueEntry) (pq : PriorityQueue).

Definition parent (i : nat) : nat := (i - 1) / 2.

Definition le_at q (i j : nat) : Prop :=
  ∀ a b, q !! i = Some a → q !! j = Some b → entry_le a b.

Definition heap q : Prop := ∀ i, 0 < i → le_at q (parent i) i.

(** Children of [idx] are above the parent of [idx]. *)
Definition bridge q idx : Prop :=
  ∀ i, 0 < i → 0 < idx → parent i = idx → le_at q (parent idx) i.

(** Heap order except between [idx] and its neighbours. *)
Definition hole q idx : Prop :=
  (∀ i, 0 < i → i ≠ idx → parent i ≠ idx → le_at q (parent i) i) ∧ bridge q idx.

(** Heap order except between [idx] and its parent. *)
Definition up_inv q idx : Prop :=
  (∀ i, 0 < i → i ≠ idx → le_at q (parent i) i) ∧ bridge q idx.

(** Heap order except between [idx] and its children. *)
Definition down_inv q idx : Prop :=
  (∀ i, 0 < i → parent i ≠ idx → le_at q (parent i) i) ∧ bridge q idx.

Lemma parent_lt i : 0 < i → parent i < i.
Proof. unfold parent. intros. apply Nat.Div0.div_lt_upper_bound; lia. Qed.

Lemma parent_child i c : 0 < i → parent i = c → i = 2 * c + 1 ∨ i = 2 * c + 2.
Proof.
  unfold parent. intros Hi <-. pose proof (Nat.div_mod_eq (i - 1) 2).
  pose proof (Nat.mod_upper_bound (i - 1) 2). lia.
Qed.

Lemma child_parent c : parent (2 * c + 1) = c ∧ parent (2 * c + 2) = c.
Proof.
  unfold parent. split.
  - symmetry. apply (Nat.div_unique _ 2 c 0); lia.
  - symmetry. apply (Nat.div_unique _ 2 c 1); lia.
Qed.

Lemma up_inv_hole q idx : up_inv q idx → hole q idx.
Proof. intros [Hu Hb]. split; [|done]. intros. by apply Hu. Qed.

Lemma up_inv_heap q idx :
  up_inv q idx → (0 < idx → le_at q (parent idx) idx) → heap q.
Proof. intros [Hu _] Hi i Hpos. destruct (decide (i = idx)) as [->|]; auto. Qed.

Lemma hole_down q idx :
  hole q idx → (0 < idx → le_at q (parent idx) idx) → down_inv q idx.
Proof.
  intros [Hh Hb] Hi. split; [|done]. intros i Hpos Hne.
  destruct (decide (i = idx)) as [->|]; auto.
Qed.

Lemma heap_down q idx : heap q → down_inv q idx.
Proof.
  intros Hh. split; [by auto|].
  intros i Hi Hidx Hp a b Ha Hb.
  destruct (q !! idx) as [c|] eqn:Hc.
  - apply entry_le_trans with c; [by apply (Hh idx)|].
    apply (Hh i); [done| |done]. by rewrite Hp.
  - apply lookup_ge_None in Hc. apply lookup_lt_Some in Hb.
    pose proof (parent_lt i Hi). lia.
Qed.

(** ** Exchanging two positions of the list *)

Definition exchange (i j : nat) (a b : QueueEntry) q : list QueueEntry :=
  <[j := a]> (<[i := b]> q).

Lemma lookup_exchange q i j a b k :
  q !! i = Some a → q !! j = Some b →
  exchange i j a b q !! k =
    if decide (k = j) then Some a else if decide (k = i) then Some b else q !! k.
Proof.
  intros Hi%lookup_lt_Some Hj%lookup_lt_Some. unfold exchange.
  case_decide; [subst; apply list_lookup_insert_eq; by rewrite length_insert|].
  rewrite list_lookup_insert_ne by done.
  case_decide; [subst; by apply list_lookup_insert_eq|].
  by rewrite list_lookup_insert_ne.
Qed.

Lemma elem_of_exchange q i j a b e :
  q !! i = Some a → q !! j = Some b → (e ∈ exchange i j a b q ↔ e ∈ q).
Proof.
  intros Ha Hb. rewrite !list_elem_of_lookup. split; intros [k Hk].
  - rewrite lookup_exchange in Hk by done.
    repeat case_decide; simplify_eq; eauto.
  - destruct (decide (k = i)) as [->|]; [|destruct (decide (k = j)) as [->|]].
    + exists j. rewrite lookup_exchange by done. rewrite decide_True; congruence.
    + exists i. rewrite lookup_exchange by done.
      repeat case_decide; congruence.
    + exists k. rewrite lookup_exchange by done. by rewrite !decide_False.
Qed.

(** One step of [_up_heap]: the child [idx] moves to its parent. *)
Lemma exchange_up q idx a b :
  0 < idx → q !! parent idx = Some a → q !! idx = Some b →
  entry_le b a → hole q idx →
  up_inv (exchange (parent idx) idx a b q) (parent idx).
Proof.
  intros Hpos Ha Hb Hba [Hh Hbr]. pose proof (parent_lt idx Hpos) as Hlt.
  split; intros i Hi.
  - intros Hne x y. rewrite !lookup_exchange by done.
    pose proof (parent_lt i Hi). repeat case_decide; intros; simplify_eq; try lia; auto.
    + apply (Hbr i); congruence.
    + apply entry_le_trans with a; [done|].
      apply (Hh i); try congruence.
    + by apply (Hh i).
  - intros Hp Heq x y. pose proof (parent_lt (parent idx) Hp).
    pose proof (parent_lt i Hi).
    rewrite !lookup_exchange by done. repeat case_decide; intros; simplify_eq; try lia.
    + apply (Hh (parent idx)); try done; lia.
    + apply entry_le_trans with a; [apply (Hh (parent idx)); try done; lia|].
      apply (Hh i); congruence.
Qed.

(** One step of [_down_heap]: the least child [c] moves to [idx]. *)
Lemma exchange_down q idx c a b :
  0 < c → parent c = idx → q !! c = Some a → q !! idx = Some b →
  entry_le a b → (∀ i, 0 < i → parent i = idx → le_at q c i) →
  down_inv q idx → down_inv (exchange c idx a b q) c.
Proof.
  intros Hc Hpc Ha Hb Hab Hmin [Hd Hbr]. pose proof (parent_lt c Hc) as Hlt.
  split; intros i Hi.
  - intros Hne x y. rewrite !lookup_exchange by done.
    pose proof (parent_lt i Hi). repeat case_decide; intros; simplify_eq; try lia; auto.
    + apply (Hmin i); congruence.
    + apply (Hbr c); try congruence; lia.
    + by apply (Hd i).
  - intros _ Heq x y. pose proof (parent_lt i Hi).
    rewrite !lookup_exchange by done. repeat case_decide; intros; simplify_eq; try lia.
    apply (Hd i); try congruence. lia.
Qed.

(** ** The reverse lookup array *)

Definition rev_ok pq : Prop :=
  (∀ i e, _queue pq !! i = Some e → _reverse pq !! item e = Some i) ∧
  (∀ it i, _reverse pq !! it = Some i →
    ∃ e, _queue pq !! i = Some e ∧ item e = it).

Lemma rev_ok_inj pq i j e e' :
  rev_ok pq → _queue pq !! i = Some e → _queue pq !! j = Some e' →
  item e = item e' → i = j.
Proof. intros [Hr _] Hi%Hr Hj%Hr ?. congruence. Qed.

(** What sifting keeps: the entries, the event and the counter. *)
Definition sifted pq pq' : Prop :=
  rev_ok pq' ∧ length pq' = length pq ∧
  (∀ e, e ∈ _queue pq' ↔ e ∈ _queue pq) ∧
  _event pq' = _event pq ∧ _next_index pq' = _next_index pq.

Lemma sifted_refl pq : rev_ok pq → sifted pq pq.
Proof. by intros ?. Qed.

Lemma sifted_trans pq1 pq2 pq3 : sifted pq1 pq2 → sifted pq2 pq3 → sifted pq1 pq3.
Proof.
  intros (H1 & H2 & H3 & H4 & H5) (G1 & G2 & G3 & G4 & G5).
  split_and!; [done|congruence| |congruence..]. intros e. by rewrite G3.
Qed.

Lemma swap_spec pq i j a b :
  rev_ok pq → _queue pq !! i = Some a → _queue pq !! j = Some b →
  ∃ pq', _swap i j pq = Ok pq' ∧ _queue pq' = exchange i j a b (_queue pq) ∧
         sifted pq pq'.
Proof.
  intros Hr Ha Hb. unfold _swap. rewrite Ha, Hb. simpl.
  eexists. split; [done|]. split; [done|].
  assert (∀ i' e, _queue pq !! i' = Some e → item e = item a → i' = i) as Hia
    by (intros; eapply rev_ok_inj; eauto).
  assert (∀ i' e, _queue pq !! i' = Some e → item e = item b → i' = j) as Hjb
    by (intros; eapply rev_ok_inj; eauto).
  destruct Hr as [Hr1 Hr2].
  split_and!; [split|..]; try done; simpl.
  - intros k e. fold (exchange i j a b (_queue pq)).
    rewrite lookup_exchange by done. rewrite !lookup_insert.
    repeat case_decide; intros; simplify_eq; try done.
    + exfalso. eauto.
    + exfalso. eauto.
    + exfalso. eauto.
    + by apply Hr1.
  - intros it k. fold (exchange i j a b (_queue pq)).
    rewrite !lookup_insert. repeat case_decide; intros Hk; simplify_eq.
    + exists a. rewrite lookup_exchange by done. by rewrite decide_True.
    + exists b. rewrite lookup_exchange by done. rewrite decide_False by congruence.
      by rewrite decide_True.
    + apply Hr2 in Hk as (e & Hk & <-). exists e.
      rewrite lookup_exchange by done.
      rewrite !decide_False by congruence. done.
  - unfold length; simpl. by rewrite !length_insert.
  - intros e. by apply elem_of_exchange.
Qed.

(** ** The sift loops *)

Lemma le_at_intro q i j a b :
  q !! i = Some a → q !! j = Some b → entry_le a b → le_at q i j.
Proof. intros Ha Hb Hle x y Hx Hy. congruence. Qed.

Lemma up_heap_loop_spec fuel idx pq :
  rev_ok pq → idx < length pq → idx ≤ fuel → hole (_queue pq) idx →
  ∃ idx' pq', up_heap_loop fuel idx pq = Ok (idx', pq') ∧ sifted pq pq' ∧
    idx' < length pq' ∧ down_inv (_queue pq') idx' ∧
    (up_inv (_queue pq) idx → heap (_queue pq')).
Proof.
  revert idx pq. induction fuel as [|fuel IH]; intros idx pq Hr Hlt Hf Hh.
  all: destruct idx as [|n]; [exists 0, pq|]; [split_and!|].
  all: try solve [done | by apply sifted_refl | apply hole_down; [done|lia] |
                  intros; apply up_inv_heap with 0; [done|lia] | lia].
  pose proof (parent_lt (S n) ltac:(lia)) as Hp.
  destruct (lookup_lt_is_Some_2 (_queue pq) (S n)) as [b Hb]; [done|].
  destruct (lookup_lt_is_Some_2 (_queue pq) (parent (S n))) as [a Ha];
    [unfold length in *; lia|].
  cbn [up_heap_loop Nat.eqb]. fold (parent (S n)). rewrite Hb, Ha. simpl.
  destruct (entry_lt b a) eqn:Hlt'.
  - destruct (swap_spec pq (parent (S n)) (S n) a b) as (pq1 & -> & Hq & Hs); try done.
    pose proof Hs as (Hr1 & Hl1 & _). simpl.
    assert (up_inv (_queue pq1) (parent (S n))) as Hu
      by (rewrite Hq; apply exchange_up; auto using entry_lt_le; lia).
    destruct (IH (parent (S n)) pq1) as (i' & pq' & -> & Hs' & Hi' & Hd & Hheap);
      [done|lia|lia|by apply up_inv_hole|].
    exists i', pq'. split_and!; auto. by apply sifted_trans with pq1.
  - exists (S n), pq. assert (le_at (_queue pq) (parent (S n)) (S n))
      by (eapply le_at_intro; eauto).
    split_and!; [done|by apply sifted_refl|done|by apply hole_down|].
    intros. by apply up_inv_heap with (S n).
Qed.

Lemma min_child_spec last idx pq :
  last = length pq - 1 → 2 * idx + 1 ≤ last →
  ∃ c a, min_child last idx pq = Ok c ∧ _queue pq !! c = Some a ∧
         0 < c ∧ idx < c ∧ parent c = idx ∧
         (∀ i, 0 < i → parent i = idx → le_at (_queue pq) c i).
Proof.
  intros -> Hle. destruct (child_parent idx) as [Hp1 Hp2].
  destruct (lookup_lt_is_Some_2 (_queue pq) (2 * idx + 1)) as [l Hl];
    [unfold length in *; lia|].
  unfold min_child. case (Nat.leb_spec (2 * idx + 2) (length pq - 1)); intros Hle2.
  - destruct (lookup_lt_is_Some_2 (_queue pq) (2 * idx + 2)) as [r Hr];
      [unfold length in *; lia|].
    rewrite Hl, Hr. simpl or_raise. cbn [mbind res_bind].
    destruct (entry_lt r l) eqn:Hrl; eexists _, _; (split_and!;
      [reflexivity|eassumption|lia|lia|done|]); intros i Hi Hpi;
      destruct (parent_child i idx Hi Hpi) as [-> | ->];
      eapply le_at_intro; eauto using entry_lt_le, entry_le_refl.
  - eexists _, _. split_and!; [reflexivity|eassumption|lia|lia|done|].
    intros i Hi Hpi x y Hx Hy.
    destruct (parent_child i idx Hi Hpi) as [-> | ->].
    + simplify_eq. apply entry_le_refl.
    + apply lookup_lt_Some in Hy. unfold length in *. lia.
Qed.

Lemma down_heap_loop_spec fuel last idx pq :
  last = length pq - 1 → rev_ok pq → idx < length pq → length pq ≤ idx + fuel →
  down_inv (_queue pq) idx →
  ∃ idx' pq', down_heap_loop fuel last idx pq = Ok (idx', pq') ∧ sifted pq pq' ∧
    heap (_queue pq').
Proof.
  intros ->. revert idx pq. induction fuel as [|fuel IH]; intros idx pq Hr Hlt Hf Hd;
    [lia|].
  assert (length pq - 1 < 2 * idx + 1 → heap (_queue pq)) as Hleaf.
  { intros Hge i Hi. destruct (decide (parent i = idx)) as [Hpi|];
      [|by apply Hd]. intros x y _ Hy%lookup_lt_Some.
    destruct (parent_child i idx Hi Hpi); unfold length in *; lia. }
  cbn [down_heap_loop].
  case (Nat.leb_spec (2 * idx + 1) (length pq - 1)); intros Hle; simpl negb; cbn iota;
    [|exists idx, pq; auto using sifted_refl].
  destruct (min_child_spec (length pq - 1) idx pq) as (c & a & -> & Ha & Hc & Hic & Hpc & Hmin);
    [done..|].
  destruct (lookup_lt_is_Some_2 (_queue pq) idx) as [b Hb]; [done|].
  simpl. rewrite Ha, Hb. simpl.
  destruct (entry_lt a b) eqn:Hab.
  - destruct (swap_spec pq c idx a b) as (pq1 & -> & Hq & Hs); try done.
    pose proof Hs as (Hr1 & Hl1 & _). simpl. rewrite <- Hl1.
    destruct (IH c pq1) as (i' & pq' & -> & Hs' & Hh); try done.
    + rewrite Hl1. apply lookup_lt_Some in Ha. done.
    + lia.
    + rewrite Hq. apply exchange_down; eauto using entry_lt_le.
    + exists i', pq'. eauto using sifted_trans.
  - exists idx, pq. split_and!; auto using sifted_refl.
    intros i Hi. destruct (decide (parent i = idx)) as [Hpi|]; [|by apply Hd].
    intros x y Hx Hy. assert (x = b) as -> by congruence.
    apply entry_le_trans with a; [done|]. by apply (Hmin i).
Qed.

Lemma down_heap_spec idx pq :
  rev_ok pq → idx < length pq → down_inv (_queue pq) idx →
  ∃ idx' pq', _down_heap idx pq = Ok (idx', pq') ∧ sifted pq pq' ∧ heap (_queue pq').
Proof. intros. apply down_heap_loop_spec; auto. lia. Qed.

Lemma updown_heap_spec idx pq :
  rev_ok pq → idx < length pq → hole (_queue pq) idx →
  ∃ idx' pq', _updown_heap idx pq = Ok (idx', pq') ∧ sifted pq pq' ∧ heap (_queue pq').
Proof.
  intros Hr Hlt Hh. unfold _updown_heap, _up_heap.
  destruct (up_heap_loop_spec idx idx pq) as (i1 & pq1 & -> & Hs & Hi1 & Hd & _); auto.
  simpl. destruct (down_heap_spec i1 pq1) as (i2 & pq2 & -> & Hs2 & Hheap);
    [by apply Hs|done|done|]. eauto 6 using sifted_trans.
Qed.

(** ** Well-formed queues and the map they stand for *)

Definition key : Type := Z * Z * nat.
Definition ekey (e : QueueEntry) : key := (priority e, timestamp e, index e).

Definition key_lt (k1 k2 : key) : Prop :=
  (k1.1.1 < k2.1.1)%Z ∨ (k1.1.1 = k2.1.1 ∧ k1.1.2 < k2.1.2)%Z ∨
  (k1.1.1 = k2.1.1 ∧ k1.1.2 = k2.1.2 ∧ k1.2 < k2.2).

Definition abs pq : gmap Item key :=
  list_to_map ((λ e, (item e, ekey e)) <$> _queue pq).

Definition idx_ok pq : Prop :=
  (∀ e, e ∈ _queue pq → index e < _next_index pq) ∧
  (∀ e e', e ∈ _queue pq → e' ∈ _queue pq → index e = index e' → e = e').

Record wf pq : Prop := {
  wf_rev : rev_ok pq;
  wf_heap : heap (_queue pq);
  wf_idx : idx_ok pq;
  wf_event : _event pq = negb (empty pq);
}.

Lemma abs_lookup pq it k :
  rev_ok pq → abs pq !! it = Some k ↔ ∃ e, e ∈ _queue pq ∧ item e = it ∧ ekey e = k.
Proof.
  intros Hr. unfold abs. rewrite <- elem_of_list_to_map.
  - rewrite list_elem_of_fmap. split.
    + intros (e & [= -> ->] & He). by exists e.
    + intros (e & He & <- & <-). by exists e.
  - rewrite <- list_fmap_compose. apply NoDup_alt. intros i j x.
    rewrite !list_lookup_fmap, !fmap_Some.
    intros (e & He & ->) (e' & He' & ?). by eapply rev_ok_inj.
Qed.

Lemma abs_ext pq (m : gmap Item key) :
  rev_ok pq →
  (∀ it k, m !! it = Some k ↔ ∃ e, e ∈ _queue pq ∧ item e = it ∧ ekey e = k) →
  abs pq = m.
Proof.
  intros Hr Hm. apply map_eq. intros it. apply option_eq. intros k.
  by rewrite abs_lookup, Hm.
Qed.

Lemma item_inj pq e e' :
  rev_ok pq → e ∈ _queue pq → e' ∈ _queue pq → item e = item e' → e = e'.
Proof.
  intros Hr [i Hi]%list_elem_of_lookup [j Hj]%list_elem_of_lookup Heq.
  assert (i = j) as -> by eauto using rev_ok_inj. congruence.
Qed.

Lemma rev_in pq it :
  rev_ok pq → is_Some (_reverse pq !! it) ↔ is_Some (abs pq !! it).
Proof.
  intros Hr. split.
  - intros [i (e & He & <-)%Hr]. exists (ekey e). apply abs_lookup; [done|].
    exists e. eauto using list_elem_of_lookup_2.
  - intros [k (e & [i Hi]%list_elem_of_lookup & <- & _)%abs_lookup]; [|done].
    exists i. by apply Hr.
Qed.

Lemma rev_dom pq :
  rev_ok pq → dom (_reverse pq) = list_to_set (item <$> _queue pq).
Proof.
  intros Hr. apply set_eq. intros it.
  rewrite elem_of_dom, elem_of_list_to_set, list_elem_of_fmap. split.
  - intros [i (e & He & <-)%Hr]. eauto using list_elem_of_lookup_2.
  - intros (e & -> & [i Hi]%list_elem_of_lookup). exists i. by apply Hr.
Qed.

Lemma rev_size pq : rev_ok pq → size (_reverse pq) = length pq.
Proof.
  intros Hr. rewrite <- size_dom, rev_dom by done. rewrite size_list_to_set.
  - unfold length. by rewrite length_fmap.
  - apply NoDup_alt. intros i j x. rewrite !list_lookup_fmap, !fmap_Some.
    intros (e & He & ->) (e' & He' & ?). eauto using rev_ok_inj.
Qed.

Lemma idx_ok_ext pq pq' :
  (∀ e, e ∈ _queue pq' → e ∈ _queue pq) → _next_index pq' = _next_index pq →
  idx_ok pq → idx_ok pq'.
Proof. intros He Hn [H1 H2]. split; [rewrite Hn|]; eauto. Qed.

Lemma sifted_abs pq pq' : rev_ok pq → sifted pq pq' → abs pq' = abs pq.
Proof.
  intros Hr (Hr' & _ & He & _). apply abs_ext; [done|].
  intros it k. rewrite abs_lookup by done. setoid_rewrite He. done.
Qed.

Lemma sifted_idx pq pq' : sifted pq pq' → idx_ok pq → idx_ok pq'.
Proof. intros (_ & _ & He & _ & Hn). apply idx_ok_ext; [by setoid_rewrite He|done]. Qed.

Lemma heap_root pq e0 e :
  heap (_queue pq) → _queue pq !! 0 = Some e0 → e ∈ _queue pq → entry_le e0 e.
Proof.
  intros Hh H0 [i Hi]%list_elem_of_lookup. revert e Hi.
  induction i as [i IH] using lt_wf_ind. intros e Hi.
  destruct (decide (i = 0)) as [->|Hne]; [simplify_eq; apply entry_le_refl|].
  assert (0 < i) as Hpos by lia. pose proof (parent_lt i Hpos) as Hp.
  destruct (lookup_lt_is_Some_2 (_queue pq) (parent i)) as [p Hpe];
    [apply lookup_lt_Some in Hi; lia|].
  apply entry_le_trans with p; [by eapply IH|]. by apply (Hh i).
Qed.

(** The entries other than the root come strictly after it. *)
Lemma root_least pq e0 e :
  wf pq → _queue pq !! 0 = Some e0 → e ∈ _queue pq → item e ≠ item e0 →
  key_lt (ekey e0) (ekey e).
Proof.
  intros [Hr Hh [_ Hinj] _] H0 He Hne.
  assert (entry_lt e0 e = true) as Hlt.
  { apply entry_le_lt; [by apply (heap_root pq)|].
    intros Heq. apply Hne. f_equal. symmetry. apply Hinj; auto.
    by apply list_elem_of_lookup_2 with 0. }
  by apply entry_lt_spec in Hlt.
Qed.

(** Moving the entry at [pos] to the end and deleting it there. *)
Lemma drop_spec pq pos e :
  rev_ok pq → _queue pq !! pos = Some e →
  ∃ pq1 pq2, _swap pos (length pq - 1) pq = Ok pq1 ∧
    del_last (item e) (length pq - 1) pq1 = Ok pq2 ∧ rev_ok pq2 ∧
    length pq2 = length pq - 1 ∧
    (∀ x, x ∈ _queue pq2 ↔ x ∈ _queue pq ∧ x ≠ e) ∧
    (∀ i, i < length pq - 1 → i ≠ pos → _queue pq2 !! i = _queue pq !! i) ∧
    _event pq2 = _event pq ∧ _next_index pq2 = _next_index pq.
Proof.
  intros Hr Hpos. pose proof (lookup_lt_Some _ _ _ Hpos) as Hlt.
  set (last := length pq - 1).
  destruct (lookup_lt_is_Some_2 (_queue pq) last) as [l Hl];
    [unfold last, length in *; lia|].
  destruct (swap_spec pq pos last e l) as (pq1 & Hsw & Hq & Hs); [done..|].
  exists pq1. pose proof Hs as ([Hr1 Hr1'] & Hl1 & He1 & Hev & Hn).
  assert (_queue pq1 !! last = Some e) as Hlast
    by (rewrite Hq, lookup_exchange by done; by rewrite decide_True).
  assert (∀ i, i < last → delete last (_queue pq1) !! i = _queue pq1 !! i) as Hdel
    by (intros; by apply list_lookup_delete_lt).
  assert (∀ i, last ≤ i → delete last (_queue pq1) !! i = None) as Hdel2.
  { intros i Hi. rewrite list_lookup_delete_ge by done.
    apply lookup_ge_None. unfold last, length in *. lia. }
  exists (mkPQ (delete last (_queue pq1)) (delete (item e) (_reverse pq1))
               (_event pq1) (_next_index pq1)).
  split; [done|]. split.
  { unfold del_last, del_key. rewrite (Hr1 last e) by done. simpl. by rewrite Hlast. }
  split_and!; simpl; try done.
  - split; simpl.
    + intros i x Hi. destruct (decide (i < last)); [|rewrite Hdel2 in Hi by lia; done].
      rewrite Hdel in Hi by done. rewrite lookup_delete_ne; [by apply Hr1|].
      intros Heq. assert (i = last); [|lia]. eapply (rev_ok_inj pq1); try done.
    + intros it i [Hne Hi]%lookup_delete_Some.
      apply Hr1' in Hi as (x & Hx & <-). exists x. split; [|done].
      rewrite Hdel; [done|]. apply lookup_lt_Some in Hx as ?.
      destruct (decide (i = last)) as [->|]; [congruence|].
      unfold last, length in *. lia.
  - unfold length at 1. simpl. rewrite length_delete by eauto.
    change (length pq1 - 1 = last). by rewrite Hl1.
  - intros x. rewrite <- He1. split.
    + intros [i Hi]%list_elem_of_lookup.
      destruct (decide (i < last)); [|rewrite Hdel2 in Hi by lia; done].
      rewrite Hdel in Hi by done.
      split; [by eapply list_elem_of_lookup_2|]. intros ->.
      assert (i = last); [|lia]. eapply (rev_ok_inj pq1); try done.
    + intros [[i Hi]%list_elem_of_lookup Hne].
      apply list_elem_of_lookup. exists i. rewrite Hdel; [done|].
      apply lookup_lt_Some in Hi as ?. destruct (decide (i = last)) as [->|]; [congruence|].
      unfold last, length in *. lia.
  - intros i Hi Hne. rewrite Hdel by done. rewrite Hq, lookup_exchange by done.
    rewrite !decide_False by lia. done.
Qed.

Lemma hole_agree q q' pos e n :
  heap q → q !! pos = Some e → List.length q' = n → n ≤ List.length q →
  (∀ i, i < n → i ≠ pos → q' !! i = q !! i) → hole q' pos.
Proof.
  intros Hh Hpos Hl' Hn Heq.
  assert (∀ i b, i ≠ pos → q' !! i = Some b → i < n ∧ q !! i = Some b) as Hb.
  { intros i b Hne Hi. pose proof (lookup_lt_Some _ _ _ Hi).
    rewrite <- Heq by lia. split; [lia|done]. }
  split.
  - intros i Hi Hne Hpne a b Ha Hb'. apply Hb in Ha as [_ ?]; [|done].
    apply Hb in Hb' as [_ ?]; [|done]. by apply (Hh i).
  - intros i Hi Hpos0 Hpi a b Ha Hb'. pose proof (parent_lt i Hi).
    pose proof (parent_lt pos Hpos0).
    apply Hb in Ha as [_ Ha]; [|lia]. apply Hb in Hb' as [_ Hb']; [|lia].
    apply entry_le_trans with e; [by apply (Hh pos)|].
    apply (Hh i); [done| |done]. by rewrite Hpi.
Qed.

(** ** Functional specifications of the operations *)

Lemma empty_abs pq : rev_ok pq → empty pq = true ↔ abs pq = ∅.
Proof.
  intros Hr. unfold empty. rewrite Nat.eqb_eq, <- rev_size by done.
  rewrite map_size_empty_iff, !map_empty.
  split; intros Hn it; apply eq_None_not_Some.
  - rewrite <- rev_in, Hn by done. apply is_Some_None.
  - rewrite rev_in, Hn by done. apply is_Some_None.
Qed.

Lemma wf_init : wf pq_init ∧ abs pq_init = ∅.
Proof.
  split; [split|done].
  - split; simpl; [by intros i e; rewrite lookup_nil|by intros it i; rewrite lookup_empty].
  - intros i _ a b Ha. simpl in Ha. by rewrite lookup_nil in Ha.
  - split; simpl; [by intros ? ?%elem_of_nil|by intros ? ? ?%elem_of_nil].
  - done.
Qed.

Lemma contains_spec it pq : wf pq → contains it pq = true ↔ is_Some (abs pq !! it).
Proof. intros Hw. unfold contains. rewrite bool_decide_eq_true. by apply rev_in, Hw. Qed.

Lemma length_spec pq : wf pq → length pq = size (abs pq).
Proof.
  intros [Hr _ _ _]. rewrite <- rev_size, <- !size_dom by done. f_equal.
  apply set_eq. intros it. rewrite !elem_of_dom. by apply rev_in.
Qed.

Lemma push_present it prio ts now pq :
  wf pq → is_Some (abs pq !! it) → push it prio ts now pq = Ok (false, pq).
Proof. intros Hw Hin. unfold push. by rewrite (proj2 (contains_spec it pq Hw) Hin). Qed.

Lemma push_absent it prio ts now pq :
  wf pq → abs pq !! it = None →
  ∃ pq', push it prio ts now pq = Ok (true, pq') ∧ wf pq' ∧
    abs pq' = <[it := (default PRIORITY_MEDIUM prio, default now ts, _next_index pq)]>
                (abs pq) ∧
    _next_index pq' = S (_next_index pq).
Proof.
  intros [Hr Hh [Hi1 Hi2] Hev] Habs. unfold push, contains.
  rewrite bool_decide_eq_false_2
    by (rewrite rev_in, Habs by done; apply is_Some_None).
  set (e := mkEntry it _ _ _). set (q := _queue pq ++ [e]).
  replace (List.length q - 1) with (length pq)
    by (unfold q, length; rewrite length_app; simpl; lia).
  set (pq1 := mkPQ q _ _ _).
  assert (q !! length pq = Some e) as Hlast by (by apply list_lookup_middle).
  assert (∀ i, i < length pq → q !! i = _queue pq !! i) as Hold
    by (intros; by apply lookup_app_l).
  assert (length pq1 = S (length pq)) as Hl1
    by (unfold length, pq1, q; simpl; rewrite length_app; simpl; lia).
  assert (∀ x, x ∈ q ↔ x ∈ _queue pq ∨ x = e) as Hin
    by (intros; unfold q; by rewrite elem_of_app, list_elem_of_singleton).
  assert (∀ x, x ∈ _queue pq → item x ≠ it) as Hnew.
  { intros x Hx <-. assert (abs pq !! item x = Some (ekey x)); [|congruence].
    apply abs_lookup; [done|]. by exists x. }
  assert (rev_ok pq1) as Hr1.
  { split; simpl.
    - intros i x Hi. destruct (decide (i < length pq)) as [Hlt|Hge].
      + rewrite Hold in Hi by done. rewrite lookup_insert_ne; [by apply Hr|].
        apply not_eq_sym, Hnew. by eapply list_elem_of_lookup_2.
      + apply lookup_lt_Some in Hi as Hl. unfold q in Hl. rewrite length_app in Hl.
        assert (i = length pq) as -> by (unfold length in *; simpl in Hl; lia).
        simplify_eq. by rewrite lookup_insert_eq.
    - intros it' i. rewrite lookup_insert. case_decide; intros Hi; simplify_eq.
      + by exists e.
      + apply Hr in Hi as (x & Hx & <-). exists x.
        by rewrite Hold by (by eapply lookup_lt_Some). }
  assert (up_inv q (length pq)) as Hu.
  { split.
    - intros i Hi Hne x y Hx Hy. apply lookup_lt_Some in Hy as Hl.
      unfold q in Hl. rewrite length_app in Hl. simpl in Hl.
      pose proof (parent_lt i Hi).
      rewrite Hold in Hx, Hy by (unfold length in *; lia). by apply (Hh i).
    - intros i Hi _ Hp x y _ Hy%lookup_lt_Some. pose proof (parent_lt i Hi).
      unfold q in Hy. rewrite length_app in Hy. unfold length in *. simpl in Hy. lia. }
  unfold _up_heap.
  destruct (up_heap_loop_spec (length pq) (length pq) pq1)
    as (i' & pq2 & -> & Hs & _ & _ & Hheap); [done|lia|lia|by apply up_inv_hole|].
  pose proof Hs as (Hr2 & Hl2 & He2 & Hev2 & Hn2). simpl.
  eexists. split; [done|]. split_and!; simpl.
  - split; simpl; [done|by apply Hheap| |].
    + apply idx_ok_ext with pq1; simpl; [by setoid_rewrite He2|done|].
      split; simpl; setoid_rewrite Hin.
      * intros x [Hx%Hi1| ->]; simpl; lia.
      * intros x y [Hx| ->] [Hy| ->]; simpl; auto; intros.
        -- apply Hi1 in Hx. lia.
        -- apply Hi1 in Hy. lia.
    + unfold empty, length in *. simpl. by rewrite Hl2, Hl1.
  - etransitivity; [exact (sifted_abs pq1 pq2 Hr1 Hs)|].
    apply abs_ext; [done|]. intros it' k. simpl. setoid_rewrite Hin.
    rewrite lookup_insert. case_decide as Heq; [subst it'|]; split.
    + intros [= <-]. exists e. auto.
    + intros (x & [Hx| ->] & Hx' & <-); [by apply Hnew in Hx|done].
    + intros (x & Hx)%abs_lookup; [|done]. destruct Hx as (? & ? & ?). exists x. auto.
    + intros (x & [Hx| ->] & Hx' & <-); [|done]. apply abs_lookup; [done|]. by exists x.
  - done.
Qed.

Lemma pop_empty w pq :
  wf pq → abs pq = ∅ → pop w pq = if w then Blocks else Raise LookupError.
Proof.
  intros Hw Habs. unfold pop, top.
  rewrite (proj2 (empty_abs pq (wf_rev _ Hw)) Habs). by destruct w.
Qed.

(** What is left after dropping [e] and restoring the heap order. *)
Lemma dropped_wf pq pq' e :
  wf pq → e ∈ _queue pq → rev_ok pq' →
  (∀ x, x ∈ _queue pq' ↔ x ∈ _queue pq ∧ x ≠ e) →
  _next_index pq' = _next_index pq →
  heap (_queue pq') → _event pq' = negb (empty pq') →
  wf pq' ∧ abs pq' = delete (item e) (abs pq) ∧ _next_index pq' = _next_index pq.
Proof.
  intros [Hr Hh Hi Hev] He Hr' Hin Hn Hh' Hev'.
  split_and!; [split; try done| |done].
  { apply idx_ok_ext with pq; [by intros ? [??]%Hin|done..]. }
  apply abs_ext; [done|]. intros it k.
  rewrite lookup_delete_Some, abs_lookup by done. setoid_rewrite Hin. split.
  - intros (Hne & x & Hx & <- & <-). exists x. split_and!; try done. by intros ->.
  - intros (x & [Hx Hne] & <- & <-). split; [|by exists x].
    intros Heq. by apply Hne, (item_inj pq).
Qed.

Lemma nonempty_root pq :
  wf pq → abs pq ≠ ∅ → ∃ e0, _queue pq !! 0 = Some e0 ∧ empty pq = false ∧ 0 < length pq.
Proof.
  intros [Hr _ _ _] Hne. destruct (empty pq) eqn:He.
  - by apply empty_abs in He.
  - unfold empty in He. apply Nat.eqb_neq in He.
    destruct (lookup_lt_is_Some_2 (_queue pq) 0) as [e0 H0]; [unfold length in *; lia|].
    exists e0. split_and!; [done..|lia].
Qed.

Lemma pop_nonempty w pq :
  wf pq → abs pq ≠ ∅ →
  ∃ e pq', pop w pq = Ok (e, pq') ∧ wf pq' ∧
    abs pq !! item e = Some (ekey e) ∧
    (∀ it k, abs pq !! it = Some k → it ≠ item e → key_lt (ekey e) k) ∧
    abs pq' = delete (item e) (abs pq) ∧ _next_index pq' = _next_index pq.
Proof.
  intros Hw Hne. pose proof Hw as [Hr Hh Hi Hev].
  destruct (nonempty_root pq Hw Hne) as (e0 & H0 & Hemp & Hpos).
  assert (e0 ∈ _queue pq) as Hin0 by (by eapply list_elem_of_lookup_2).
  destruct (drop_spec pq 0 e0) as (pq1 & pq2 & Hsw & Hdel & Hr2 & Hl2 & Hin & Hag & Hev2 & Hn2);
    [done..|].
  assert (∃ pq3, pop w pq = Ok (e0, pq3) ∧ rev_ok pq3 ∧
            (∀ x, x ∈ _queue pq3 ↔ x ∈ _queue pq2) ∧
            _next_index pq3 = _next_index pq2 ∧ heap (_queue pq3) ∧
            _event pq3 = negb (empty pq3)) as (pq3 & Hpop & Hr3 & He3 & Hn3 & Hh3 & Hev3).
  { unfold pop, top. rewrite Hemp, H0. simpl. rewrite Hsw. simpl. rewrite Hdel. simpl.
    case (Nat.ltb_spec 0 (length pq - 1)); intros Hlt.
    - destruct (down_heap_spec 0 pq2) as (i & pq3 & -> & Hs & Hh3);
        [done|lia|apply hole_down; [|lia]|].
      { eapply (hole_agree (_queue pq)); eauto. unfold length in *; lia. }
      destruct Hs as (Hr3 & Hl3 & He3 & Hev3 & Hn3).
      exists pq3. split_and!; try done.
      rewrite Hev3, Hev2, Hev, Hemp. unfold empty. rewrite Hl3.
      destruct (Nat.eqb_spec (length pq2) 0); [lia|done].
    - eexists. split; [done|]. split_and!; try done.
      + intros i Hi0 a b _ Hb%lookup_lt_Some. simpl in Hb. unfold length in *. lia.
      + unfold empty. change (length (clear_event pq2)) with (length pq2).
        destruct (Nat.eqb_spec (length pq2) 0); [done|lia]. }
  exists e0, pq3. split; [done|].
  destruct (dropped_wf pq pq3 e0) as (Hw3 & Habs & Hn); try done.
  { intros x. by rewrite He3. }
  { congruence. }
  split_and!; try done.
  - apply abs_lookup; [done|]. by exists e0.
  - intros it k (x & Hx & <- & <-)%abs_lookup Hdiff; [|done].
    by apply (root_least pq).
Qed.

Lemma remove_absent it pq : wf pq → abs pq !! it = None → remove it pq = Raise KeyError.
Proof.
  intros Hw Habs. unfold remove.
  destruct (_reverse pq !! it) as [pos|] eqn:Hrev; [|done].
  destruct (proj1 (rev_in pq it (wf_rev _ Hw))) as [k Hk]; [by rewrite Hrev|congruence].
Qed.

Lemma remove_present it pq k :
  wf pq → abs pq !! it = Some k →
  ∃ e pq', remove it pq = Ok (e, pq') ∧ wf pq' ∧ item e = it ∧ ekey e = k ∧
    abs pq' = delete it (abs pq) ∧ _next_index pq' = _next_index pq.
Proof.
  intros Hw Habs. pose proof Hw as [Hr Hh Hi Hev].
  apply abs_lookup in Habs as (e & Hin0 & <- & <-); [|done].
  pose proof Hin0 as [pos Hpos]%list_elem_of_lookup.
  pose proof (lookup_lt_Some _ _ _ Hpos) as Hlt.
  destruct (drop_spec pq pos e) as (pq1 & pq2 & Hsw & Hdel & Hr2 & Hl2 & Hin & Hag & Hev2 & Hn2);
    [done..|].
  assert (empty pq = false) as Hemp.
  { unfold empty. destruct (Nat.eqb_spec (length pq) 0); [unfold length in *; lia|done]. }
  assert (hole (_queue pq2) pos) as Hhole.
  { eapply (hole_agree (_queue pq)); eauto. unfold length in *; lia. }
  assert (∃ i pq3, (if decide (pos = length pq - 1) then Ok (pos, pq2)
                    else _updown_heap pos pq2) = Ok (i, pq3) ∧
            sifted pq2 pq3 ∧ heap (_queue pq3)) as (i & pq3 & Hud & Hs & Hh3).
  { case_decide as Heq.
    - exists pos, pq2. split_and!; [done|by apply sifted_refl|].
      intros i Hi0 a b Ha Hb. pose proof (parent_lt i Hi0).
      apply lookup_lt_Some in Ha as ?, Hb as ?. unfold length in *.
      rewrite Hag in Ha, Hb by lia. by apply (Hh i).
    - apply updown_heap_spec; [done| |done]. unfold length in *. lia. }
  exists e, (if empty pq3 then clear_event pq3 else pq3).
  destruct Hs as (Hr3 & Hl3 & He3 & Hev3 & Hn3).
  split.
  { unfold remove. rewrite (proj1 Hr pos e Hpos). simpl. rewrite Hpos. simpl.
    rewrite Hsw. simpl. rewrite Hdel. simpl. by rewrite Hud. }
  destruct (dropped_wf pq (if empty pq3 then clear_event pq3 else pq3) e)
    as (Hw3 & Habs & Hn); try done.
  - by destruct (empty pq3).
  - intros x. rewrite <- Hin, <- He3. by destruct (empty pq3).
  - destruct (empty pq3); simpl; congruence.
  - by destruct (empty pq3).
  - destruct (empty pq3) eqn:He; [unfold empty in *; simpl; unfold length in *; simpl; by rewrite He|].
    by rewrite Hev3, Hev2, Hev, Hemp, He.
Qed.

Lemma set_priority_absent it p pq :
  wf pq → abs pq !! it = None → set_priority it p pq = Raise KeyError.
Proof.
  intros Hw Habs. unfold set_priority.
  destruct (_reverse pq !! it) as [pos|] eqn:Hrev; [|done].
  destruct (proj1 (rev_in pq it (wf_rev _ Hw))) as [k Hk]; [by rewrite Hrev|congruence].
Qed.

Lemma set_priority_present it p pq k :
  wf pq → abs pq !! it = Some k →
  ∃ pq', set_priority it p pq = Ok pq' ∧ wf pq' ∧
    abs pq' = <[it := (p, k.1.2, k.2)]> (abs pq) ∧ _next_index pq' = _next_index pq.
Proof.
  intros Hw Habs. pose proof Hw as [Hr Hh [Hi1 Hi2] Hev].
  apply abs_lookup in Habs as (e & Hin0 & <- & <-); [|done].
  pose proof Hin0 as [pos Hpos]%list_elem_of_lookup.
  pose proof (lookup_lt_Some _ _ _ Hpos) as Hlt.
  unfold set_priority. rewrite (proj1 Hr pos e Hpos). simpl. rewrite Hpos. simpl.
  set (e' := mkEntry (item e) p (timestamp e) (index e)).
  set (pq1 := set_queue (<[pos:=e']> (_queue pq)) pq).
  assert (∀ i, _queue pq1 !! i = if decide (i = pos) then Some e' else _queue pq !! i) as Hl.
  { intros i. simpl. case_decide; [subst; by apply list_lookup_insert_eq|].
    by apply list_lookup_insert_ne. }
  assert (rev_ok pq1) as Hr1.
  { split.
    - intros i x. rewrite Hl. case_decide; intros Hx; simplify_eq.
      + by apply (proj1 Hr pos e).
      + by apply Hr.
    - intros it i (x & Hx & <-)%Hr. rewrite Hl. case_decide; [|by exists x].
      simplify_eq. by exists e'. }
  assert (∀ x, x ∈ _queue pq1 ↔ x = e' ∨ (x ∈ _queue pq ∧ x ≠ e)) as Hin.
  { intros x. rewrite !list_elem_of_lookup. setoid_rewrite Hl. split.
    - intros [i Hi]. case_decide; [left; congruence|]. right. split; [eauto|].
      intros ->. assert (i = pos) by eauto using rev_ok_inj. done.
    - intros [-> | [[i Hi] Hne]]; [exists pos; by rewrite decide_True|].
      exists i. rewrite decide_False; [done|]. congruence. }
  destruct (updown_heap_spec pos pq1) as (i & pq2 & -> & Hs & Hh2); [done| | |].
  { unfold length. simpl. by rewrite length_insert. }
  { eapply (hole_agree (_queue pq) _ pos e (length pq1)); try done.
    - unfold length. simpl. by rewrite length_insert.
    - intros j _ Hne. by rewrite Hl, decide_False. }
  exists pq2. split; [done|]. pose proof Hs as (Hr2 & Hl2 & He2 & Hev2 & Hn2).
  split_and!; [split; try done| |done].
  - apply (sifted_idx pq1); [done|]. split.
    + intros x [-> | [Hx _]]%Hin; [by apply (Hi1 e)|by apply (Hi1 x)].
    + intros x y [-> | [Hx Hxe]]%Hin [-> | [Hy Hye]]%Hin Heq; simpl in Heq; auto;
        [destruct Hye; symmetry|destruct Hxe]; by apply Hi2.
  - rewrite Hev2. unfold empty. rewrite Hl2. simpl. rewrite Hev. unfold empty, length.
    simpl. by rewrite length_insert.
  - rewrite (sifted_abs pq1) by done. apply abs_ext; [done|]. intros it k.
    setoid_rewrite Hin. rewrite lookup_insert. case_decide as Heq; [subst it|]; split.
    + intros [= <-]. exists e'. auto.
    + intros (x & [-> | [Hx Hxe]] & Hx' & <-); [done|]. destruct Hxe.
      by apply (item_inj pq).
    + intros (x & Hx & <- & <-)%abs_lookup; [|done]. exists x. split_and!; try done.
      right. split; [done|]. by intros ->.
    + intros (x & [-> | [Hx Hxe]] & Hx' & <-); [done|]. apply abs_lookup; [done|].
      by exists x.
Qed.

Lemma verify_items_true l pq :
  (∀ it i, (it, i) ∈ l → ∃ e, _queue pq !! i = Some e ∧ item e = it) →
  verify_items l pq = Ok true.
Proof.
  induction l as [|[it i] l IH]; intros Hl; [done|]. simpl.
  destruct (Hl it i) as (e & -> & He); [by left|]. simpl.
  rewrite decide_True by done. apply IH. intros. apply Hl. by right.
Qed.

Lemma verify_wf pq : wf pq → _verify pq = Ok true.
Proof.
  intros [Hr Hh Hi Hev]. unfold _verify. rewrite rev_size by done. unfold length at 1 2.
  rewrite !Nat.eqb_refl. simpl. fold (empty pq). rewrite Bool.eqb_reflx. simpl.
  rewrite Hev. destruct (empty pq) eqn:He; simpl; rewrite ?He; simpl;
    apply verify_items_true; intros it i Hin%elem_of_map_to_list; by apply Hr.
Qed.
End PriorityQueue.

Arguments QueueEntry Item : clear implicits.
Arguments PriorityQueue Item {_ _}.

(** ** The contract of the queue

    What the executors of the services rely on: a finite map from items to
    keys (priority, timestamp, insertion index) where [pop] takes the least
    key. The laws also say when each call raises, and that every call
    returns. *)

Class PQueue (Item : Type) `{Countable Item} (Q : Type) : Type := {
  q_init : Q;
  q_push : Item → option Z → option Z → Z → Q → res (bool * Q);
  q_pop : bool → Q → res (QueueEntry Item * Q);
  q_remove : Item → Q → res (QueueEntry Item * Q);
  q_contains : Item → Q → bool;
  q_length : Q → nat;

  q_wf : Q → Prop;
  q_abs : Q → gmap Item key;
  q_next : Q → nat;

  q_init_wf : q_wf q_init ∧ q_abs q_init = ∅;
  q_contains_law it q : q_wf q → q_contains it q = true ↔ is_Some (q_abs q !! it);
  q_length_law q : q_wf q → q_length q = size (q_abs q);
  q_push_present it p t now q :
    q_wf q → is_Some (q_abs q !! it) → q_push it p t now q = Ok (false, q);
  q_push_absent it p t now q :
    q_wf q → q_abs q !! it = None →
    ∃ q', q_push it p t now q = Ok (true, q') ∧ q_wf q' ∧
      q_abs q' = <[it := (default PRIORITY_MEDIUM p, default now t, q_next q)]> (q_abs q) ∧
      q_next q' = S (q_next q);
  q_pop_empty w q :
    q_wf q → q_abs q = ∅ → q_pop w q = if w then Blocks else Raise LookupError;
  q_pop_nonempty w q :
    q_wf q → q_abs q ≠ ∅ →
    ∃ e q', q_pop w q = Ok (e, q') ∧ q_wf q' ∧ q_abs q !! item e = Some (ekey e) ∧
      (∀ it k, q_abs q !! it = Some k → it ≠ item e → key_lt (ekey e) k) ∧
      q_abs q' = delete (item e) (q_abs q) ∧ q_next q' = q_next q;
  q_remove_absent it q : q_wf q → q_abs q !! it = None → q_remove it q = Raise KeyError;
  q_remove_present it q k :
    q_wf q → q_abs q !! it = Some k →
    ∃ e q', q_remove it q = Ok (e, q') ∧ q_wf q' ∧ item e = it ∧ ekey e = k ∧
      q_abs q' = delete it (q_abs q) ∧ q_next q' = q_next q;
}.

#[export] Instance PriorityQueue_PQueue `{Countable Item} :
    PQueue Item (PriorityQueue Item) := {|
  q_init := pq_init; q_push := push; q_pop := pop; q_remove := remove;
  q_contains := contains; q_length := length;
  q_wf := wf; q_abs := abs; q_next := _next_index;
  q_init_wf := wf_init; q_contains_law := contains_spec; q_length_law := length_spec;
  q_push_present := push_present; q_push_absent := push_absent;
  q_pop_empty := pop_empty; q_pop_nonempty := pop_nonempty;
  q_remove_absent := remove_absent; q_remove_present := remove_present;
|}.

(** ** Refinement: command sequences *)

Section refinement.
Context {Item : Type} `{Countable Item}.

Inductive cmd : Type :=
  | CPush (it : Item) (prio ts : option Z) (now : Z)
  | CPop (wait : bool)
  | CRemove (it : Item)
  | CSetPriority (it : Item) (prio : Z).

(** What a command returns: the boolean of [push], the item and key of the
    entry of [pop] and [remove], nothing for [set_priority]. *)
Inductive out : Type :=
  | OBool (b : bool)
  | OEntry (it : Item) (k : key)
  | OUnit.

Definition entry_out (e : QueueEntry Item) : out := OEntry (item e) (ekey e).

Definition run_cmd (c : cmd) (pq : PriorityQueue Item) : res out * PriorityQueue Item :=
  match match c with
        | CPush it p t now => '(b, pq') ← push it p t now pq; Ok (OBool b, pq')
        | CPop w => '(e, pq') ← pop w pq; Ok (entry_out e, pq')
        | CRemove it => '(e, pq') ← remove it pq; Ok (entry_out e, pq')
        | CSetPriority it p => pq' ← set_priority it p pq; Ok (OUnit, pq')
        end with
  | Ok (o, pq') => (Ok o, pq')
  | Raise e => (Raise e, pq)
  | Blocks => (Blocks, pq)
  | NoFuel => (NoFuel, pq)
  end.

Fixpoint run_cmds (cs : list cmd) (pq : PriorityQueue Item)
    : list (res out) * PriorityQueue Item :=
  match cs with
  | [] => ([], pq)
  | c :: cs =>
      let '(o, pq) := run_cmd c pq in
      let '(os, pq) := run_cmds cs pq in (o :: os, pq)
  end.

(** The abstract queue: a map from items to keys and the next index. *)
Definition spec_state : Type := gmap Item key * nat.

Inductive spec_step : cmd → spec_state → res out → spec_state → Prop :=
  | spec_push_present it p t now m n :
      is_Some (m !! it) →
      spec_step (CPush it p t now) (m, n) (Ok (OBool false)) (m, n)
  | spec_push_absent it p t now m n :
      m !! it = None →
      spec_step (CPush it p t now) (m, n) (Ok (OBool true))
        (<[it := (default PRIORITY_MEDIUM p, default now t, n)]> m, S n)
  | spec_pop it k w m n :
      m !! it = Some k →
      (∀ it' k', m !! it' = Some k' → it' ≠ it → key_lt k k') →
      spec_step (CPop w) (m, n) (Ok (OEntry it k)) (delete it m, n)
  | spec_pop_empty w n :
      spec_step (CPop w) (∅, n) (if w then Blocks else Raise LookupError) (∅, n)
  | spec_remove it k m n :
      m !! it = Some k →
      spec_step (CRemove it) (m, n) (Ok (OEntry it k)) (delete it m, n)
  | spec_remove_absent it m n :
      m !! it = None → spec_step (CRemove it) (m, n) (Raise KeyError) (m, n)
  | spec_set_priority it p k m n :
      m !! it = Some k →
      spec_step (CSetPriority it p) (m, n) (Ok OUnit)
        (<[it := (p, k.1.2, k.2)]> m, n)
  | spec_set_priority_absent it p m n :
      m !! it = None → spec_step (CSetPriority it p) (m, n) (Raise KeyError) (m, n).

Inductive spec_steps : list cmd → spec_state → list (res out) → spec_state → Prop :=
  | spec_nil s : spec_steps [] s [] s
  | spec_cons c cs s1 o s2 os s3 :
      spec_step c s1 o s2 → spec_steps cs s2 os s3 →
      spec_steps (c :: cs) s1 (o :: os) s3.

Definition alpha (pq : PriorityQueue Item) : spec_state := (abs pq, _next_index pq).

Lemma run_cmd_refines c pq :
  wf pq → let '(o, pq') := run_cmd c pq in
  wf pq' ∧ spec_step c (alpha pq) o (alpha pq').
Proof.
  intros Hw. unfold run_cmd, alpha. destruct c as [it p t now|w|it|it p].
  - destruct (abs pq !! it) eqn:Habs.
    + rewrite push_present by eauto. simpl. split; [done|]. constructor. eauto.
    + destruct (push_absent it p t now pq) as (pq' & -> & Hw' & Ha & Hn); [done..|].
      cbn. rewrite Ha, Hn. split; [done|]. by constructor.
  - destruct (decide (abs pq = ∅)) as [He|Hne].
    + rewrite pop_empty by done.
      destruct w; (split; [done|]); rewrite He;
        [apply (spec_pop_empty true)|apply (spec_pop_empty false)].
    + destruct (pop_nonempty w pq) as (e & pq' & -> & Hw' & He & Hmin & Ha & Hn); [done..|].
      cbn. rewrite Ha, Hn. split; [done|]. by constructor.
  - destruct (abs pq !! it) as [k|] eqn:Habs.
    + destruct (remove_present it pq k) as (e & pq' & -> & Hw' & He & Hk & Ha & Hn); [done..|].
      cbn. rewrite Ha, Hn. split; [done|]. unfold entry_out. rewrite He, Hk. by constructor.
    + rewrite remove_absent by done. split; [done|]. by constructor.
  - destruct (abs pq !! it) as [k|] eqn:Habs.
    + destruct (set_priority_present it p pq k) as (pq' & -> & Hw' & Ha & Hn); [done..|].
      cbn. rewrite Ha, Hn. split; [done|]. by constructor.
    + rewrite set_priority_absent by done. split; [done|]. by constructor.
Qed.

Lemma run_cmds_refines cs pq :
  wf pq → let '(os, pq') := run_cmds cs pq in
  wf pq' ∧ spec_steps cs (alpha pq) os (alpha pq').
Proof.
  revert pq. induction cs as [|c cs IH]; intros pq Hw; simpl; [split; [done|constructor]|].
  pose proof (run_cmd_refines c pq Hw) as Hc. destruct (run_cmd c pq) as [o pq1].
  destruct Hc as [Hw1 Hc]. specialize (IH pq1 Hw1).
  destruct (run_cmds cs pq1) as [os pq2]. destruct IH as [Hw2 IH].
  split; [done|]. by econstructor.
Qed.

Lemma run_cmds_wf cs pq : wf pq → wf (run_cmds cs pq).2.
Proof.
  intros Hw. pose proof (run_cmds_refines cs pq Hw) as Hr.
  destruct (run_cmds cs pq). apply Hr.
Qed.

(** C17. The heap implements the abstract queue: started empty and driven by
    any sequence of [push], [pop], [remove] and [set_priority], the queue
    returns, call by call, exactly what a finite map from items to
    (priority, timestamp, insertion index) returns, where [pop] takes the
    entry with the least key, a second [push] of an item does nothing, and
    only the documented exceptions are raised. *)
Theorem queue_refines_map (cs : list cmd) :
  let '(os, pq) := run_cmds cs pq_init in
  spec_steps cs (∅, 0) os (abs pq, _next_index pq).
Proof.
  pose proof (run_cmds_refines cs pq_init (proj1 wf_init)) as Hr.
  destruct (run_cmds cs pq_init) as [os pq]. apply Hr.
Qed.

(** The consistency check of the class, [_verify], returns true on
    every queue reachable from the empty one: heap and reverse index agree
    and the event is set exactly when the queue is not empty. *)
Theorem reachable_queue_verifies (cs : list cmd) :
  _verify (run_cmds cs pq_init).2 = Ok true.
Proof. apply verify_wf, run_cmds_wf, wf_init. Qed.
End refinement.
