(* ===== verification/Executor.v ===== *)
(** * Executors and triggered services (cms/io/triggeredservice.py)

    [Executor] holds an operation queue; the loop of [run] extracts a batch
    from it. Subclasses override [_pop] and [max_operations_per_batch], so
    the loop is written once over any [_pop] that extracts from the queue
    ([Section run]), and instantiated here with the base class and in
    [EvaluationExecutor] with its override. Everything is proved against the
    contract [PQueue] of the queue. A [TriggeredService] forwards to a list
    of executors. Not modelled: the greenlets, the sweeper's clock, logging. *)

From S2P Require Import Prelude PriorityQueue.

Lemma key_lt_trans k1 k2 k3 : key_lt k1 k2 → key_lt k2 k3 → key_lt k1 k3.
Proof. unfold key_lt. lia. Qed.

Lemma key_lt_irrefl k : ¬ key_lt k k.
Proof. unfold key_lt. lia. Qed.

#[export] Hint Resolve key_lt_trans : cms.

(** ** The base class *)

Section Executor.
Context {Item : Type} `{Countable Item} {Q : Type} `{!PQueue Item Q}.

Record Executor : Type := mkExecutor {
  _batch_executions : bool;
  _operation_queue : Q;
}.

Definition executor_init (batch_executions : bool) : Executor :=
  mkExecutor batch_executions q_init.

Definition executor_contains (it : Item) (ex : Executor) : bool :=
  q_contains it (_operation_queue ex).

Definition enqueue (it : Item) (prio ts : option Z) (now : Z) (ex : Executor)
    : res (bool * Executor) :=
  '(b, q) ← q_push it prio ts now (_operation_queue ex);
  Ok (b, mkExecutor (_batch_executions ex) q).

Definition dequeue (it : Item) (ex : Executor) : res (QueueEntry Item * Executor) :=
  '(e, q) ← q_remove it (_operation_queue ex);
  Ok (e, mkExecutor (_batch_executions ex) q).

Definition _pop (wait : bool) (ex : Executor) : res (QueueEntry Item * Executor) :=
  '(e, q) ← q_pop wait (_operation_queue ex);
  Ok (e, mkExecutor (_batch_executions ex) q).

(** [0]: no limit. *)
Definition max_operations_per_batch (ex : Executor) : nat := 0.

End Executor.

Arguments Executor Q : clear implicits.

(** ** The extraction loop of [run] *)

Section run.
Context {Item : Type} `{Countable Item} {Q : Type} `{!PQueue Item Q}.

(** [St] is the state of the executor, [qu] its queue, [pop_op] its [_pop]. *)
Context {St : Type} (qu : St → Q).
Context (pop_op : bool → St → res (QueueEntry Item * St)).

(** [while not self._operation_queue.empty() and
       (max_operations == 0 or len(to_execute) < max_operations): ...] *)
Fixpoint fill_batch (fuel max_operations : nat) (to_execute : list (QueueEntry Item))
    (s : St) : res (list (QueueEntry Item) * St) :=
  if negb (q_length (qu s) =? 0)%nat
     && ((max_operations =? 0)%nat || (List.length to_execute <? max_operations)%nat)
  then
    match fuel with
    | O => NoFuel
    | S fuel =>
        '(e, s) ← pop_op false s;
        fill_batch fuel max_operations (to_execute ++ [e]) s
    end
  else Ok (to_execute, s).

(** The batch that one iteration of [run] passes to [execute]. *)
Definition run_collect (batch : bool) (max_operations : St → res nat) (s : St)
    : res (list (QueueEntry Item) * St) :=
  '(e, s) ← pop_op true s;
  if batch then
    m ← max_operations s;
    fill_batch (q_length (qu s)) m [e] s
  else Ok ([e], s).

(** What the loop needs of [_pop]: it extracts what the queue extracts. *)
Context (Inv : St → Prop).
Hypothesis pop_op_ok : ∀ w s e q',
  Inv s → q_wf (qu s) → q_pop w (qu s) = Ok (e, q') →
  ∃ s', pop_op w s = Ok (e, s') ∧ qu s' = q' ∧ Inv s'.
Hypothesis pop_op_empty : ∀ w s,
  Inv s → q_wf (qu s) → q_abs (qu s) = ∅ →
  pop_op w s = if w then Blocks else Raise LookupError.

(** [es] are the least entries of the queue [q], in order, and [q'] holds the
    others. *)
Record batch_of (q : Q) (es : list (QueueEntry Item)) (q' : Q) : Prop := {
  batch_sorted : StronglySorted (λ e e', key_lt (ekey e) (ekey e')) es;
  batch_least e it k : e ∈ es → q_abs q' !! it = Some k → key_lt (ekey e) k;
  batch_split it k :
    q_abs q !! it = Some k ↔
    (∃ e, e ∈ es ∧ item e = it ∧ ekey e = k) ∨ q_abs q' !! it = Some k;
  batch_disjoint e : e ∈ es → q_abs q' !! item e = None;
  batch_size : size (q_abs q) = List.length es + size (q_abs q');
}.

Lemma StronglySorted_snoc {A} (R : relation A) l x :
  StronglySorted R l → (∀ y, y ∈ l → R y x) → StronglySorted R (l ++ [x]).
Proof.
  intros Hs. induction Hs as [|y l Hs IH Hy]; intros Hx; simpl.
  - repeat constructor.
  - constructor.
    + apply IH. intros z Hz. apply Hx. by right.
    + rewrite Forall_app. split; [done|]. repeat constructor. apply Hx. by left.
Qed.

Lemma batch_nil q : batch_of q [] q.
Proof.
  split; try done; [constructor|..].
  - by intros e it k ?%elem_of_nil.
  - intros it k. split; [auto|]. intros [(e & ?%elem_of_nil & _)|?]; done.
  - by intros e ?%elem_of_nil.
Qed.

Lemma batch_snoc q es q1 w e q2 :
  q_wf q1 → batch_of q es q1 → q_abs q1 ≠ ∅ → q_pop w q1 = Ok (e, q2) →
  q_wf q2 ∧ batch_of q (es ++ [e]) q2.
Proof.
  intros Hw [Hs Hl Hsp Hd Hsz] Hne Hpop.
  destruct (q_pop_nonempty w q1 Hw Hne) as (e' & q' & Hpop' & Hw2 & He & Hmin & Habs & _).
  rewrite Hpop' in Hpop. injection Hpop as -> ->. split; [done|]. split.
  - apply StronglySorted_snoc; [done|]. intros y Hy. by apply (Hl y (item e)).
  - intros x it k Hx. rewrite Habs, lookup_delete_Some. intros [Hit Hk].
    apply elem_of_app in Hx as [Hx|Hx%list_elem_of_singleton]; [by apply (Hl x it)|].
    subst x. by apply (Hmin it).
  - intros it k. rewrite Hsp, Habs, lookup_delete_Some.
    setoid_rewrite elem_of_app. setoid_rewrite list_elem_of_singleton. split.
    + intros [(x & Hx & <- & <-)|Hk]; [left; exists x; auto|].
      destruct (decide (item e = it)) as [<-|]; [|auto].
      left. exists e. split_and!; [auto|done|congruence].
    + intros [(x & [Hx| ->] & <- & <-)|[_ Hk]]; [left; exists x; auto|auto|auto].
  - intros x Hx. rewrite Habs. apply elem_of_app in Hx as [Hx|Hx%list_elem_of_singleton].
    + rewrite lookup_delete_None. right. auto.
    + subst x. apply lookup_delete_eq.
  - rewrite length_app, Habs, map_size_delete, He. simpl.
    destruct (size (q_abs q1)) eqn:Hsz1; [|lia].
    by apply map_size_empty_inv in Hsz1.
Qed.

Lemma batch_in q es q' e : batch_of q es q' → e ∈ es → q_abs q !! item e = Some (ekey e).
Proof. intros Hb He. apply (batch_split _ _ _ Hb). eauto. Qed.

(** A batch has no item twice. *)
Lemma batch_NoDup q es q' : batch_of q es q' → NoDup (item <$> es).
Proof.
  intros Hb. pose proof (λ e, batch_in q es q' e Hb) as Hin.
  pose proof (batch_sorted _ _ _ Hb) as Hs. clear Hb.
  induction Hs as [|e es Hs IH Hall]; csimpl; [apply NoDup_nil_2|].
  apply NoDup_cons. split; [|by apply IH; intros ??; apply Hin; right].
  intros (e' & Heq & He')%list_elem_of_fmap. rewrite Forall_forall in Hall.
  apply (key_lt_irrefl (ekey e)). replace (ekey e) with (ekey e') at 2; [by apply Hall|].
  apply (inj Some).
  rewrite <- (Hin e) by (by left). rewrite <- (Hin e') by (by right). by rewrite Heq.
Qed.

(** Number of entries the loop takes from a queue of [n], [done] being
    already taken. *)
Definition batch_len (max_operations n : nat) : nat :=
  if (max_operations =? 0)%nat then n else Nat.min n (Nat.max 1 max_operations).

Lemma q_length_zero q : q_wf q → q_length q = 0 ↔ q_abs q = ∅.
Proof. intros Hw. by rewrite q_length_law, map_size_empty_iff. Qed.

Lemma fill_batch_spec q fuel m es s :
  Inv s → q_wf (qu s) → batch_of q es (qu s) → 0 < List.length es →
  q_length (qu s) ≤ fuel →
  (m = 0 ∨ List.length es ≤ Nat.max 1 m) →
  ∃ es' s', fill_batch fuel m es s = Ok (es', s') ∧ Inv s' ∧ q_wf (qu s') ∧
    batch_of q es' (qu s') ∧ List.length es' = batch_len m (size (q_abs q)).
Proof.
  revert es s. induction fuel as [|fuel IH]; intros es s Hi Hw Hb Hes Hf Hm.
  all: pose proof (batch_size _ _ _ Hb) as Hsz.
  all: pose proof (q_length_law (qu s) Hw) as Hlen.
  - cbn [fill_batch]. replace (q_length (qu s)) with 0 by lia. simpl.
    exists es, s. split_and!; try done.
    unfold batch_len. case (Nat.eqb_spec m 0); intros; lia.
  - cbn [fill_batch]. case (Nat.eqb_spec (q_length (qu s)) 0); intros Hz; simpl.
    { exists es, s. split_and!; try done.
      unfold batch_len. case (Nat.eqb_spec m 0); intros; lia. }
    destruct ((m =? 0)%nat || (List.length es <? m)%nat) eqn:Hc.
    + assert (q_abs (qu s) ≠ ∅) as Hne by (by rewrite <- q_length_zero).
      destruct (q_pop_nonempty false (qu s) Hw Hne) as (e & q' & Hpop & _).
      destruct (pop_op_ok _ _ _ _ Hi Hw Hpop) as (s' & -> & <- & Hi').
      destruct (batch_snoc q es (qu s) false e (qu s')) as [Hw' Hb']; [done..|].
      cbn [mbind res_bind]. apply IH; try done.
      * rewrite length_app. simpl. lia.
      * rewrite q_length_law by done. pose proof (batch_size _ _ _ Hb') as Hsz'.
        rewrite length_app in Hsz'. simpl in Hsz'. lia.
      * rewrite length_app. simpl. apply orb_true_iff in Hc as [Hc|Hc].
        -- left. by apply Nat.eqb_eq.
        -- apply Nat.ltb_lt in Hc. right. lia.
    + apply orb_false_iff in Hc as [Hc1%Nat.eqb_neq Hc2%Nat.ltb_ge].
      exists es, s. split_and!; try done.
      unfold batch_len. case (Nat.eqb_spec m 0); intros; lia.
Qed.

Lemma run_collect_spec batch max_ops s :
  Inv s → q_wf (qu s) → (∀ s, Inv s → ∃ m, max_ops s = Ok m) →
  (q_abs (qu s) = ∅ ∧ run_collect batch max_ops s = Blocks) ∨
  ∃ es s1 m s', run_collect batch max_ops s = Ok (es, s') ∧ Inv s' ∧ q_wf (qu s') ∧
    (∃ e, pop_op true s = Ok (e, s1)) ∧ max_ops s1 = Ok m ∧
    batch_of (qu s) es (qu s') ∧
    List.length es = batch_len (if batch then m else 1) (size (q_abs (qu s))).
Proof.
  intros Hi Hw Hmax. destruct (decide (q_abs (qu s) = ∅)) as [He|Hne].
  { left. split; [done|]. unfold run_collect. by rewrite pop_op_empty. }
  right. destruct (q_pop_nonempty true (qu s) Hw Hne) as (e & q' & Hpop & _).
  destruct (pop_op_ok _ _ _ _ Hi Hw Hpop) as (s1 & Hp1 & <- & Hi1).
  destruct (batch_snoc (qu s) [] (qu s) true e (qu s1)) as [Hw1 Hb1];
    [done|apply batch_nil|done..|]. simpl in Hb1.
  destruct (Hmax s1 Hi1) as [m Hm].
  unfold run_collect. rewrite Hp1. cbn [mbind res_bind]. destruct batch.
  - rewrite Hm. cbn [mbind res_bind].
    destruct (fill_batch_spec (qu s) (q_length (qu s1)) m [e] s1)
      as (es & s' & -> & Hi' & Hw' & Hb & Hlen); try done; simpl; [lia|right; lia|].
    exists es, s1, m, s'. eauto 10.
  - exists [e], s1, m, s1. pose proof (batch_size _ _ _ Hb1) as Hsz. simpl in Hsz.
    split_and!; eauto. unfold batch_len. simpl. lia.
Qed.
End run.

(** ** The base executor's loop *)

Section base_run.
Context {Item : Type} `{Countable Item} {Q : Type} `{!PQueue Item Q}.

(** One iteration of [Executor.run] up to the call of [execute]. *)
Definition run_iteration (ex : Executor Q) : res (list (QueueEntry Item) * Executor Q) :=
  run_collect _operation_queue _pop (_batch_executions ex)
    (λ ex, Ok (max_operations_per_batch ex)) ex.

(** What one iteration takes. *)
Lemma run_iteration_spec (ex : Executor Q) :
  q_wf (_operation_queue ex) →
  let n := size (q_abs (Item:=Item) (_operation_queue ex)) in
  (n = 0 ∧ run_iteration ex = Blocks) ∨
  ∃ es ex', run_iteration ex = Ok (es, ex') ∧ q_wf (_operation_queue ex') ∧
    List.length es = (if _batch_executions ex then n else Nat.min n 1) ∧
    batch_of (_operation_queue ex) es (_operation_queue ex').
Proof.
  intros Hw n. unfold run_iteration.
  destruct (run_collect_spec _operation_queue _pop (λ _, True))
    with (batch := _batch_executions ex) (max_ops := λ ex, Ok (max_operations_per_batch (Q:=Q) ex))
      (s := ex)
    as [[He Hb]|(es & s1 & m & s' & Hr & _ & Hw' & _ & Hm & Hb & Hlen)]; try done.
  - intros w s e q' _ _ Hpop. unfold _pop. rewrite Hpop. simpl.
    eexists. by split_and!.
  - intros w s _ Hq He. unfold _pop. rewrite (q_pop_empty w _ Hq He). by destruct w.
  - eauto.
  - left. split; [|done]. unfold n. by rewrite He, map_size_empty.
  - right. exists es, s'. split_and!; try done. rewrite Hlen.
    injection Hm as <-. unfold batch_len, max_operations_per_batch. destruct (_batch_executions ex); simpl; lia.
Qed.

(** One iteration of [Executor.run] on a well-formed queue blocks exactly
    when the queue is empty; otherwise it returns, and what it passes to
    [execute] are the least entries of the queue in strictly increasing
    (priority, timestamp, insertion) order - all of them for a batch
    executor, one otherwise - while the queue keeps exactly the others. *)
Theorem run_iteration_takes_least (ex : Executor Q) :
  q_wf (_operation_queue ex) →
  let n := size (q_abs (Item:=Item) (_operation_queue ex)) in
  (n = 0 ∧ run_iteration ex = Blocks) ∨
  ∃ es ex', run_iteration ex = Ok (es, ex') ∧ q_wf (_operation_queue ex') ∧
    List.length es = (if _batch_executions ex then n else Nat.min n 1) ∧
    batch_of (_operation_queue ex) es (_operation_queue ex').
Proof. apply run_iteration_spec. Qed.
End base_run.

(** ** Triggered services *)

Section TriggeredService.
Context {Item : Type} `{Countable Item} {Q : Type} `{!PQueue Item Q}.

Record TriggeredService : Type := mkService {
  _executors : list (Executor Q);
  _sweeper_started : bool;
  _sweeper_timeout : option Z;
}.

Definition service_init : TriggeredService := mkService [] false None.

Definition add_executor (ex : Executor Q) (s : TriggeredService) : TriggeredService :=
  mkService (_executors s ++ [ex]) (_sweeper_started s) (_sweeper_timeout s).

Definition get_executor (s : TriggeredService) : res (Executor Q) :=
  or_raise IndexError (_executors s !! 0%nat).

(** [clock i] is the time at which the [i]-th remaining executor is reached. *)
Fixpoint enqueue_all (op : Item) (prio ts : option Z) (clock : nat → Z)
    (exs : list (Executor Q)) : res (nat * list (Executor Q)) :=
  match exs with
  | [] => Ok (0, [])
  | ex :: exs =>
      '(b, ex) ← enqueue op prio ts (clock (List.length exs)) ex;
      '(ret, exs) ← enqueue_all op prio ts clock exs;
      Ok ((if b : bool then S ret else ret), ex :: exs)
  end.

Definition service_enqueue (op : Item) (prio ts : option Z) (clock : nat → Z)
    (s : TriggeredService) : res (nat * TriggeredService) :=
  '(ret, exs) ← enqueue_all op prio ts clock (_executors s);
  Ok (ret, mkService exs (_sweeper_started s) (_sweeper_timeout s)).

(** An executor without the operation raises; the ones before it have
    already dequeued theirs. *)
Fixpoint dequeue_all (op : Item) (exs : list (Executor Q))
    : res unit * list (Executor Q) :=
  match exs with
  | [] => (Ok tt, [])
  | ex :: exs =>
      match dequeue op ex with
      | Ok (_, ex) => let '(r, exs) := dequeue_all op exs in (r, ex :: exs)
      | Raise e => (Raise e, ex :: exs)
      | Blocks => (Blocks, ex :: exs)
      | NoFuel => (NoFuel, ex :: exs)
      end
  end.

Definition service_dequeue (op : Item) (s : TriggeredService)
    : res unit * TriggeredService :=
  let '(r, exs) := dequeue_all op (_executors s) in
  (r, mkService exs (_sweeper_started s) (_sweeper_timeout s)).

(** A second call is only logged. *)
Definition start_sweeper (timeout : Z) (s : TriggeredService) : TriggeredService :=
  if _sweeper_started s then s
  else mkService (_executors s) true (Some timeout).

Definition service_wf (s : TriggeredService) : Prop :=
  Forall (λ ex, q_wf (_operation_queue ex)) (_executors s).

(** Number of executors that do not hold [op]. *)
Definition missing (op : Item) (exs : list (Executor Q)) : nat :=
  List.length (filter (λ ex, executor_contains op ex = false) exs).

Definition enqueued (op : Item) (ex ex' : Executor Q) : Prop :=
  q_wf (_operation_queue ex') ∧
  is_Some (q_abs (_operation_queue ex') !! op) ∧
  delete op (q_abs (_operation_queue ex')) = delete op (q_abs (_operation_queue ex)) ∧
  _batch_executions ex' = _batch_executions ex ∧
  (is_Some (q_abs (_operation_queue ex) !! op) → ex' = ex).

Lemma enqueue_spec op prio ts now ex :
  q_wf (_operation_queue ex) →
  ∃ ex', enqueue op prio ts now ex = Ok (negb (executor_contains op ex), ex') ∧
         enqueued op ex ex'.
Proof.
  intros Hw. unfold enqueue, executor_contains.
  destruct (q_abs (_operation_queue ex) !! op) as [k|] eqn:Hop.
  - rewrite q_push_present by eauto. simpl.
    rewrite (proj2 (q_contains_law op _ Hw)) by eauto. simpl.
    exists ex. split; [by destruct ex|]. split_and!; eauto.
  - destruct (q_push_absent op prio ts now _ Hw Hop) as (q' & -> & Hw' & Habs & _). simpl.
    destruct (q_contains op (_operation_queue ex)) eqn:Hc.
    { apply q_contains_law in Hc as [? ?]; [congruence|done]. }
    eexists. split; [done|]. unfold enqueued. simpl. rewrite Habs, lookup_insert_eq, Hop.
    split_and!; [done|eauto|apply delete_insert_eq|done|by intros [? [=]]].
Qed.

Lemma enqueue_all_spec op prio ts clock exs :
  Forall (λ ex, q_wf (_operation_queue ex)) exs →
  ∃ exs', enqueue_all op prio ts clock exs = Ok (missing op exs, exs') ∧
          Forall2 (enqueued op) exs exs'.
Proof.
  induction exs as [|ex exs IH]; intros Hall; [by exists []|].
  apply Forall_cons in Hall as [Hw Hall]. simpl.
  destruct (enqueue_spec op prio ts (clock (List.length exs)) ex Hw) as (ex' & -> & He).
  destruct (IH Hall) as (exs' & -> & Hf). simpl. exists (ex' :: exs').
  split; [|by constructor]. unfold missing. rewrite filter_cons.
  by destruct (executor_contains op ex).
Qed.

(** [TriggeredService.enqueue] returns the number of executors whose queue
    did not hold the operation; afterwards every executor holds it, those
    that already did are untouched and no other entry of any queue changes. *)
Theorem service_enqueue_counts (op : Item) (prio ts : option Z) (clock : nat → Z)
    (s : TriggeredService) :
  service_wf s →
  ∃ s', service_enqueue op prio ts clock s = Ok (missing op (_executors s), s') ∧
    service_wf s' ∧ Forall2 (enqueued op) (_executors s) (_executors s').
Proof.
  intros Hw. unfold service_enqueue.
  destruct (enqueue_all_spec op prio ts clock _ Hw) as (exs & -> & Hf). simpl.
  eexists. split_and!; [done| |done].
  unfold service_wf. simpl. clear Hw. induction Hf as [|? ? ? ? [? _]]; by constructor.
Qed.
End TriggeredService.

(** ** Concrete instances *)

(** A batch executor holding operations 7, 8, 9; 9 was pushed last with high
    priority. *)
Definition demo_queue : PriorityQueue nat :=
  (run_cmds [CPush 7 None (Some 30%Z) 0; CPush 8 None (Some 20%Z) 0;
             CPush 9 (Some PRIORITY_HIGH) (Some 40%Z) 0] pq_init).2.

Lemma demo_queue_wf : q_wf demo_queue.
Proof. exact (run_cmds_wf _ pq_init (proj1 wf_init)). Qed.

Lemma run_iteration_takes_least_witness :
  let ex := mkExecutor true demo_queue in
  q_wf (_operation_queue ex) ∧
  match run_iteration ex with Ok (es, _) => item <$> es = [9; 8; 7] | _ => False end ∧
  ∃ es ex', run_iteration ex = Ok (es, ex') ∧ List.length es = 3 ∧
    batch_of (_operation_queue ex) es (_operation_queue ex').
Proof.
  split; [exact demo_queue_wf|]. split; [vm_compute; reflexivity|].
  destruct (run_iteration_takes_least (mkExecutor true demo_queue) demo_queue_wf)
    as [[Hz _]|(es & ex' & Hr & _ & Hl & Hb)]; [by vm_compute in Hz|].
  exists es, ex'. split; [exact Hr|]. split; [|exact Hb].
  rewrite Hl. vm_compute. reflexivity.
Defined.

Lemma service_enqueue_counts_witness :
  let s := mkService [mkExecutor true demo_queue; mkExecutor false pq_init] false None in
  service_wf s ∧ missing 8 (_executors s) = 1 ∧
  ∃ s', service_enqueue 8 None None (λ _, 50%Z) s = Ok (missing 8 (_executors s), s') ∧
    service_wf s' ∧ Forall2 (enqueued 8) (_executors s) (_executors s').
Proof.
  assert (service_wf (mkService [mkExecutor true demo_queue; mkExecutor false pq_init]
    false None)) as Hw.
  { constructor; [apply demo_queue_wf|]. constructor; [apply (proj1 wf_init)|constructor]. }
  split; [exact Hw|]. split; [vm_compute; reflexivity|].
  exact (service_enqueue_counts 8 None None (λ _, 50%Z) _ Hw).
Defined.
