(* ===== verification/WorkerPool.v ===== *)
(** * The pool of workers (cms/service/workerpool.py)

    One dictionary per attribute, keyed by shard, as in the class; a worker's
    entry in [_operations] is inactive, disabled or the list of operations it
    executes. [_worker] keeps the connection flag of the RPC client, and
    [_rpc] logs the calls made to the workers. Methods run in the state and
    exception monad [M WorkerPool].

    Arguments that stand for the environment of a call: [now] is
    [make_datetime()] in microseconds, [rnd] the number behind
    [random.choice], [jg] the outcome of building the job group from the
    database. Not modelled: locks (methods do not yield inside them), log
    messages, [get_status] (read-only). *)

From S2P Require Import Prelude.

Section WorkerPool.
Context {Op : Type} `{Countable Op}.

Inductive operations : Type :=
  | WORKER_INACTIVE
  | WORKER_DISABLED
  | Ops (l : list Op).

#[export] Instance operations_eq_dec : EqDecision operations.
Proof. solve_decision. Defined.

Definition is_list (o : operations) : bool :=
  match o with Ops _ => true | _ => false end.

(** 600 seconds. *)
Definition WORKER_TIMEOUT : Z := 600 * 1000000.

Inductive rpc : Type :=
  | PrecacheFiles (shard : Z)
  | ExecuteJobGroup (shard : Z) (ops : list Op)
  | Quit (shard : Z).

Record WorkerPool : Type := mkPool {
  _worker : pydict Z bool;
  _operations : pydict Z operations;
  _operations_to_ignore : pydict Z (list Op);
  _start_time : pydict Z (option Z);
  _schedule_disabling : pydict Z bool;
  _ignore : pydict Z bool;
  _operations_reverse : gmap Op Z;
  _workers_available_event : bool;
  _rpc : list rpc;
}.

Definition pool_init : WorkerPool := mkPool [] [] [] [] [] [] ∅ false [].

(** Assignments [self._x[shard] = v]. *)
Definition set_worker s v p := mkPool (pd_set (_worker p) s v) (_operations p)
  (_operations_to_ignore p) (_start_time p) (_schedule_disabling p) (_ignore p)
  (_operations_reverse p) (_workers_available_event p) (_rpc p).
Definition set_operations s v p := mkPool (_worker p) (pd_set (_operations p) s v)
  (_operations_to_ignore p) (_start_time p) (_schedule_disabling p) (_ignore p)
  (_operations_reverse p) (_workers_available_event p) (_rpc p).
Definition set_to_ignore s v p := mkPool (_worker p) (_operations p)
  (pd_set (_operations_to_ignore p) s v) (_start_time p) (_schedule_disabling p) (_ignore p)
  (_operations_reverse p) (_workers_available_event p) (_rpc p).
Definition set_start_time s v p := mkPool (_worker p) (_operations p)
  (_operations_to_ignore p) (pd_set (_start_time p) s v) (_schedule_disabling p) (_ignore p)
  (_operations_reverse p) (_workers_available_event p) (_rpc p).
Definition set_schedule_disabling s v p := mkPool (_worker p) (_operations p)
  (_operations_to_ignore p) (_start_time p) (pd_set (_schedule_disabling p) s v) (_ignore p)
  (_operations_reverse p) (_workers_available_event p) (_rpc p).
Definition set_ignore s v p := mkPool (_worker p) (_operations p)
  (_operations_to_ignore p) (_start_time p) (_schedule_disabling p) (pd_set (_ignore p) s v)
  (_operations_reverse p) (_workers_available_event p) (_rpc p).
Definition set_reverse m p := mkPool (_worker p) (_operations p)
  (_operations_to_ignore p) (_start_time p) (_schedule_disabling p) (_ignore p)
  m (_workers_available_event p) (_rpc p).
Definition set_event b p := mkPool (_worker p) (_operations p)
  (_operations_to_ignore p) (_start_time p) (_schedule_disabling p) (_ignore p)
  (_operations_reverse p) b (_rpc p).
Definition send c p := mkPool (_worker p) (_operations p)
  (_operations_to_ignore p) (_start_time p) (_schedule_disabling p) (_ignore p)
  (_operations_reverse p) (_workers_available_event p) (_rpc p ++ [c]).

(** [self._x[shard]] *)
Definition item_of {V} (d : WorkerPool → pydict Z V) (shard : Z) : M WorkerPool V :=
  λ p, (or_raise KeyError (pd_get (d p) shard), p).

Definition pool_length (p : WorkerPool) : nat := List.length (_worker p).

(** [operation in pool] *)
Definition pool_contains (op : Op) (p : WorkerPool) : bool :=
  bool_decide (is_Some (_operations_reverse p !! op)).

Definition _remove_operations (shard : Z) (new_operation : operations) : M WorkerPool unit :=
  ops ← item_of _operations shard;
  _ ← modify (set_operations shard new_operation);
  match ops with
  | Ops l =>
      for_each (λ op, rev ← gets _operations_reverse;
                      rev ← lift (del_key op rev);
                      modify (set_reverse rev)) l
  | _ => mret tt
  end.

Definition _add_operations (shard : Z) (ops : list Op) : M WorkerPool unit :=
  cur ← item_of _operations shard;
  if decide (cur = WORKER_INACTIVE) then
    _ ← modify (set_operations shard (Ops ops));
    for_each (λ op, modify (λ p, set_reverse (<[op := shard]> (_operations_reverse p)) p)) ops
  else raise ValueError.

Definition wait_for_workers : M WorkerPool unit :=
  b ← gets _workers_available_event;
  if b : bool then mret tt else lift Blocks.

(** [connected] is the state of the RPC client that [connect_to] returns. *)
Definition add_worker (shard : Z) (connected : bool) : M WorkerPool unit :=
  _ ← modify (set_worker shard connected);
  _ ← modify (set_operations shard WORKER_INACTIVE);
  _ ← modify (set_to_ignore shard []);
  _ ← modify (set_start_time shard None);
  _ ← modify (set_schedule_disabling shard false);
  _ ← modify (set_ignore shard false);
  modify (set_event true).

Definition on_worker_connected (shard : Z) (contest_id : option Z) : M WorkerPool unit :=
  _ ← match contest_id with
      | Some _ => _ ← item_of _worker shard; modify (send (PrecacheFiles shard))
      | None => mret tt
      end;
  modify (set_event true).

(** The scan of [_operations.items()]: [inl s] when it returns [s] at once,
    [inr pool] with the candidates otherwise. *)
Fixpoint find_loop (operation : operations) (require_connection random_worker : bool)
    (items : pydict Z operations) (pool : list Z) : M WorkerPool (Z + list Z) :=
  match items with
  | [] => mret (inr pool)
  | (shard, worker_operation) :: items =>
      if decide (worker_operation = operation) then
        ok ← (if require_connection then item_of _worker shard else mret true);
        if ok : bool then
          if random_worker then
            find_loop operation require_connection random_worker items (pool ++ [shard])
          else mret (inl shard)
        else find_loop operation require_connection random_worker items pool
      else find_loop operation require_connection random_worker items pool
  end.

Definition find_worker (operation : operations) (require_connection random_worker : bool)
    (rnd : nat) : M WorkerPool Z :=
  items ← gets _operations;
  r ← find_loop operation require_connection random_worker items [];
  match r with
  | inl shard => mret shard
  | inr [] => raise LookupError
  | inr pool => lift (or_raise IndexError (pool !! (rnd `mod` List.length pool)%nat))
  end.

Definition acquire_worker (ops : list Op) (now : Z) (rnd : nat) (jg : res unit)
    : M WorkerPool (option Z) :=
  found ← try_except is_lookup_error
            (shard ← find_worker WORKER_INACTIVE true true rnd; mret (Some shard))
            (_ ← modify (set_event false); mret None);
  match found with
  | None => mret None
  | Some shard =>
      _ ← _add_operations shard ops;
      _ ← modify (set_start_time shard (Some now));
      _ ← lift jg;
      _ ← item_of _worker shard;
      _ ← modify (send (ExecuteJobGroup shard ops));
      mret (Some shard)
  end.

(** What [release_worker] returns. *)
Inductive released : Type :=
  | IgnoreAll (b : bool)
  | IgnoreOps (l : list Op).

Definition release_worker (shard : Z) : M WorkerPool released :=
  ops ← item_of _operations shard;
  if decide (ops = WORKER_INACTIVE) then raise ValueError
  else if decide (ops = WORKER_DISABLED) then mret (IgnoreAll true)
  else
    ret ← item_of _ignore shard;
    to_ignore ← item_of _operations_to_ignore shard;
    _ ← modify (set_to_ignore shard []);
    _ ← modify (set_start_time shard None);
    _ ← modify (set_ignore shard false);
    sched ← item_of _schedule_disabling shard;
    _ ← (if sched : bool then
           _ ← _remove_operations shard WORKER_DISABLED;
           modify (set_schedule_disabling shard false)
         else
           _ ← _remove_operations shard WORKER_INACTIVE;
           modify (set_event true));
    mret (if negb ret && negb (bool_decide (to_ignore = [])) then IgnoreOps to_ignore
          else IgnoreAll ret).

Definition ignore_operation (op : Op) : M WorkerPool unit :=
  rev ← gets _operations_reverse;
  shard ← lift (or_raise KeyError (rev !! op));
  to_ignore ← item_of _operations_to_ignore shard;
  modify (set_to_ignore shard (to_ignore ++ [op])).

(** The operations of a list that are not to be ignored. *)
Definition not_ignored (to_ignore l : list Op) : list Op := filter (λ op, op ∉ to_ignore) l.

Definition check_timeouts_body (now : Z) (lost : list Op) (shard : Z)
    : M WorkerPool (list Op) :=
  start ← item_of _start_time shard;
  match start with
  | None => mret lost
  | Some t =>
      if (WORKER_TIMEOUT <? now - t)%Z then
        ops ← item_of _operations shard;
        _ ← lift (assert (bool_decide (ops ≠ WORKER_INACTIVE) &&
                          bool_decide (ops ≠ WORKER_DISABLED)));
        ign ← item_of _ignore shard;
        to_ignore ← item_of _operations_to_ignore shard;
        let lost := match ops with
                    | Ops l => if ign : bool then lost else lost ++ not_ignored to_ignore l
                    | _ => lost
                    end in
        _ ← modify (set_schedule_disabling shard true);
        _ ← modify (set_ignore shard true);
        _ ← release_worker shard;
        _ ← item_of _worker shard;
        _ ← modify (send (Quit shard));
        mret lost
      else mret lost
  end.

Definition check_timeouts (now : Z) : M WorkerPool (list Op) :=
  shards ← gets (λ p, pd_keys (_worker p));
  for_acc (check_timeouts_body now) [] shards.

Definition disable_worker (shard : Z) : M WorkerPool (list Op) :=
  ops ← item_of _operations shard;
  match ops with
  | WORKER_DISABLED => raise ValueError
  | WORKER_INACTIVE =>
      _ ← modify (set_operations shard WORKER_DISABLED); mret []
  | Ops l =>
      ign ← item_of _ignore shard;
      lost ← (if ign : bool then mret []
              else to_ignore ← item_of _operations_to_ignore shard;
                   mret (not_ignored to_ignore l));
      _ ← modify (set_schedule_disabling shard true);
      _ ← modify (set_to_ignore shard []);
      _ ← modify (set_ignore shard true);
      _ ← release_worker shard;
      mret lost
  end.

Definition enable_worker (shard : Z) : M WorkerPool unit :=
  ops ← item_of _operations shard;
  if decide (ops = WORKER_DISABLED) then
    _ ← modify (set_operations shard WORKER_INACTIVE);
    _ ← modify (set_to_ignore shard []);
    modify (set_event true)
  else raise ValueError.

Definition check_connections_body (lost : list Op) (shard : Z) : M WorkerPool (list Op) :=
  connected ← item_of _worker shard;
  if connected : bool then mret lost else
  ops ← item_of _operations shard;
  match ops with
  | Ops l =>
      ign ← item_of _ignore shard;
      _ ← release_worker shard;
      mret (if ign : bool then lost else lost ++ l)
  | _ => mret lost
  end.

Definition check_connections : M WorkerPool (list Op) :=
  shards ← gets (λ p, pd_keys (_worker p));
  for_acc check_connections_body [] shards.

(** ** The pool's invariant *)

Implicit Types (p : WorkerPool) (s : Z) (l : list Op) (op : Op).

(** The operation is executed by some worker. *)
Definition assigned p op : Prop := is_Some (_operations_reverse p !! op).

Definition busy p s l : Prop := pd_get (_operations p) s = Some (Ops l).

Record keys_ok p : Prop := {
  keys_nodup : NoDup (pd_keys (_worker p));
  keys_operations : pd_keys (_operations p) = pd_keys (_worker p);
  keys_to_ignore : pd_keys (_operations_to_ignore p) = pd_keys (_worker p);
  keys_start_time : pd_keys (_start_time p) = pd_keys (_worker p);
  keys_schedule_disabling : pd_keys (_schedule_disabling p) = pd_keys (_worker p);
  keys_ignore : pd_keys (_ignore p) = pd_keys (_worker p);
}.

(** What holds at every moment, inside the methods too. *)
Record pool_base p : Prop := {
  base_keys : keys_ok p;
  base_reverse op s :
    _operations_reverse p !! op = Some s ↔ ∃ l, busy p s l ∧ op ∈ l;
  base_nodup s l : busy p s l → NoDup l;
  base_start s :
    (∃ t, pd_get (_start_time p) s = Some (Some t)) ↔ ∃ l, busy p s l;
  base_to_ignore s li op :
    pd_get (_operations_to_ignore p) s = Some li → op ∈ li → ∃ l, busy p s l ∧ op ∈ l;
}.

(** Between two calls the two flags of every worker are down: they are only
    raised right before the [release_worker] that consumes them. *)
Definition flags_down p : Prop := ∀ s,
  pd_get (_schedule_disabling p) s ≠ Some true ∧ pd_get (_ignore p) s ≠ Some true.

Definition pool_ok p : Prop := pool_base p ∧ flags_down p.

Definition known p s : Prop := s ∈ pd_keys (_worker p).

#[export] Instance known_dec p s : Decision (known p s).
Proof. unfold known. apply _. Defined.

Lemma known_get {V} (d : WorkerPool → pydict Z V) p s :
  pd_keys (d p) = pd_keys (_worker p) → known p s → ∃ v, pd_get (d p) s = Some v.
Proof. intros Hk Hs. apply pd_get_in. by rewrite Hk. Qed.

Lemma busy_known p s l : keys_ok p → busy p s l → known p s.
Proof.
  intros Hk Hb. unfold known. rewrite <- (keys_operations p Hk). apply pd_get_in. eauto.
Qed.

Lemma assigned_busy p op :
  pool_base p → assigned p op ↔ ∃ s l, busy p s l ∧ op ∈ l.
Proof.
  intros Hb. unfold assigned. split.
  - intros [s (l & Hl)%base_reverse]; eauto.
  - intros (s & l & Hl). exists s. apply base_reverse; eauto.
Qed.

Lemma busy_unique p s1 s2 l1 l2 op :
  pool_base p → busy p s1 l1 → busy p s2 l2 → op ∈ l1 → op ∈ l2 → s1 = s2.
Proof.
  intros Hb H1 H2 Ho1 Ho2.
  assert (_operations_reverse p !! op = Some s1) by (apply base_reverse; eauto).
  assert (_operations_reverse p !! op = Some s2) by (apply base_reverse; eauto).
  congruence.
Qed.

(** ** Removing a list of keys from the reverse lookup *)

Definition del_all l (m : gmap Op Z) : gmap Op Z := foldl (λ m op, delete op m) m l.

Lemma lookup_del_all l m op :
  del_all l m !! op = if decide (op ∈ l) then None else m !! op.
Proof.
  unfold del_all. revert m. induction l as [|x l IH]; intros m; cbn [foldl].
  - case_decide as Hx; [by apply elem_of_nil in Hx|done].
  - rewrite IH. destruct (decide (op ∈ l)).
    + rewrite decide_True; [done|by right].
    + rewrite lookup_delete. case_decide as Hx; subst.
      * rewrite decide_True; [done|by left].
      * rewrite decide_False; [done|]. rewrite elem_of_cons. intuition congruence.
Qed.

Definition remove_one op : M WorkerPool unit :=
  rev ← gets _operations_reverse;
  rev ← lift (del_key op rev);
  modify (set_reverse rev).

Lemma remove_ops_loop l p :
  NoDup l → (∀ op, op ∈ l → assigned p op) →
  for_each remove_one l p = (Ok tt, set_reverse (del_all l (_operations_reverse p)) p).
Proof.
  revert p. induction l as [|x l IH]; intros p Hnd Hin.
  - cbn. by destruct p.
  - apply NoDup_cons in Hnd as [Hx Hnd]. destruct (Hin x) as [v Hv]; [by left|].
    cbn [for_each]. unfold mbind at 1, M_bind. unfold remove_one at 1. run_goal.
    unfold del_key. rewrite Hv. rewrite IH; [done|done|].
    intros op Hop. unfold assigned. simpl. rewrite lookup_delete_ne by congruence.
    apply Hin. by right.
Qed.

Lemma remove_operations_busy s l new p :
  pool_base p → busy p s l →
  _remove_operations s new p =
    (Ok tt, set_reverse (del_all l (_operations_reverse p)) (set_operations s new p)).
Proof.
  intros Hb Hl. unfold _remove_operations, item_of. unfold mbind at 1, M_bind.
  rewrite Hl. cbn [or_raise]. unfold mbind at 1, M_bind, modify.
  change (for_each remove_one l (set_operations s new p) = 
    (Ok tt, set_reverse (del_all l (_operations_reverse p)) (set_operations s new p))).
  rewrite remove_ops_loop; [done|by eapply base_nodup|].
  intros op Hop. apply (assigned_busy p); eauto.
Qed.

(** ** Looking at an updated pool *)

Lemma keys_set {V} (d : pydict Z V) s v ks :
  pd_keys d = ks → s ∈ ks → pd_keys (pd_set d s v) = ks.
Proof. intros <- Hs. by apply pd_keys_set_in. Qed.

(** ** Releasing a busy worker *)

(** The pool after releasing the busy worker [s]. *)
Definition free_worker s l (sched : bool) p : WorkerPool :=
  let p1 := set_ignore s false (set_start_time s None (set_to_ignore s [] p)) in
  let p2 := set_reverse (del_all l (_operations_reverse p))
              (set_operations s (if sched then WORKER_DISABLED else WORKER_INACTIVE) p1) in
  if sched then set_schedule_disabling s false p2 else set_event true p2.

Lemma release_busy s l ti b g p :
  pool_base p → busy p s l →
  pd_get (_operations_to_ignore p) s = Some ti →
  pd_get (_schedule_disabling p) s = Some b → pd_get (_ignore p) s = Some g →
  release_worker s p =
    (Ok (if negb g && negb (bool_decide (ti = [])) then IgnoreOps ti else IgnoreAll g),
     free_worker s l b p).
Proof.
  intros Hb Hl Hti Hs Hg. unfold release_worker.
  set (p1 := set_ignore s false (set_start_time s None (set_to_ignore s [] p))).
  assert (_remove_operations s (if b then WORKER_DISABLED else WORKER_INACTIVE) p1 =
    (Ok tt, set_reverse (del_all l (_operations_reverse p))
       (set_operations s (if b then WORKER_DISABLED else WORKER_INACTIVE) p1))) as Hrm.
  { unfold _remove_operations, item_of. unfold mbind at 1, M_bind. cbn [_operations p1].
    simpl. rewrite Hl. cbn [or_raise]. unfold mbind at 1, M_bind, modify.
    set (p2 := set_operations _ _ p1).
    change (for_each remove_one l p2 = (Ok tt, set_reverse (del_all l (_operations_reverse p2)) p2)).
    apply remove_ops_loop; [by eapply base_nodup|].
    intros op Hop. apply (assigned_busy p); eauto. }
  unfold item_of. run_goal. rewrite Hl. cbn [or_raise].
  rewrite !decide_False by done. rewrite Hg, Hti. cbn [or_raise].
  cbn [_schedule_disabling set_ignore set_start_time set_to_ignore]. rewrite Hs. cbn [or_raise].
  fold (set_to_ignore s [] p). fold p1.
  destruct b; rewrite Hrm; done.
Qed.

Lemma busy_free s l b p s' l' :
  busy (free_worker s l b p) s' l' ↔ s ≠ s' ∧ busy p s' l'.
Proof.
  unfold busy, free_worker. destruct b; simpl; rewrite pd_get_set; case_decide; naive_solver.
Qed.

Lemma free_keys s l b p : keys_ok p → known p s → keys_ok (free_worker s l b p).
Proof.
  intros Hk Hs. pose proof Hk as [K1 K2 K3 K4 K5 K6].
  destruct b; split; simpl; try done; by repeat apply keys_set.
Qed.

Lemma free_base s l b p : pool_base p → busy p s l → pool_base (free_worker s l b p).
Proof.
  intros Hb Hl. pose proof (busy_known p s l (base_keys p Hb) Hl) as Hs.
  split; [by apply free_keys, Hs; apply base_keys|..].
  - intros op s'. setoid_rewrite busy_free.
    assert (_operations_reverse (free_worker s l b p) = del_all l (_operations_reverse p)) as ->
      by by destruct b.
    rewrite lookup_del_all. case_decide as Hop.
    + split; [done|]. intros (l' & [Hne Hl'] & Hop'). by destruct (busy_unique p s s' l l' op).
    + rewrite base_reverse by done. split; [|naive_solver].
      intros (l' & Hl' & Hop'). exists l'. split_and!; try done.
      intros <-. unfold busy in *. congruence.
  - intros s' l' [_ ?]%busy_free. by eapply base_nodup.
  - intros s'. setoid_rewrite busy_free.
    assert (_start_time (free_worker s l b p) = pd_set (_start_time p) s None) as ->
      by by destruct b.
    rewrite pd_get_set. case_decide; [naive_solver|]. rewrite base_start by done. naive_solver.
  - intros s' li op. setoid_rewrite busy_free.
    assert (_operations_to_ignore (free_worker s l b p) = pd_set (_operations_to_ignore p) s [])
      as -> by by destruct b.
    rewrite pd_get_set. case_decide; [intros [= <-] []%elem_of_nil|].
    intros H1 H2. destruct (base_to_ignore p Hb s' li op) as (l' & ? & ?); eauto.
Qed.

(** Everything the pool knows of a worker. *)
Definition local p s :=
  (pd_get (_operations p) s, pd_get (_operations_to_ignore p) s, pd_get (_start_time p) s,
   pd_get (_schedule_disabling p) s, pd_get (_ignore p) s).

Lemma local_free s l b p s' : s ≠ s' → local (free_worker s l b p) s' = local p s'.
Proof. intros Hne. unfold local. destruct b; simpl; by rewrite !pd_get_set_ne. Qed.

Lemma flags_free s l b p :
  (∀ s', s ≠ s' → pd_get (_schedule_disabling p) s' ≠ Some true ∧
                  pd_get (_ignore p) s' ≠ Some true) →
  pd_get (_schedule_disabling p) s = Some b → flags_down (free_worker s l b p).
Proof.
  intros Hf Hs s'. destruct (decide (s = s')) as [<-|Hne].
  - destruct b; simpl; rewrite ?pd_get_set_eq, ?Hs; naive_solver.
  - destruct b; simpl; rewrite !pd_get_set_ne; naive_solver.
Qed.

Lemma local_inactive s l b p :
  pool_base p → busy p s l →
  pd_get (_operations (free_worker s l b p)) s =
    Some (if b then WORKER_DISABLED else WORKER_INACTIVE).
Proof. intros _ _. destruct b; simpl; by rewrite pd_get_set_eq. Qed.

(** ** Sweeps over the workers

    [check_timeouts] and [check_connections] visit the workers in order and
    release those that a condition on their own data selects. *)

(** Worker [s] has been released: [b] tells whether it is disabled. *)
Record freed p s (b : bool) p' : Prop := {
  freed_ok : pool_ok p';
  freed_worker : _worker p' = _worker p;
  freed_other s' : s ≠ s' → local p' s' = local p s';
  freed_operations :
    pd_get (_operations p') s = Some (if b then WORKER_DISABLED else WORKER_INACTIVE);
  freed_event :
    _workers_available_event p' = if b then _workers_available_event p else true;
}.

(** The workers selected by [hit] have been released and nothing else
    changed. *)
Record swept (hit : Z → bool) (b : bool) p p' : Prop := {
  swept_ok : pool_ok p';
  swept_worker : _worker p' = _worker p;
  swept_hit s : known p s → hit s = true →
    pd_get (_operations p') s = Some (if b then WORKER_DISABLED else WORKER_INACTIVE);
  swept_other s : known p s → hit s = false → local p' s = local p s;
  swept_event : _workers_available_event p' = _workers_available_event p ∨
                _workers_available_event p' = true;
}.

Section sweep.
Context (body : list Op → Z → M WorkerPool (list Op)) (p0 : WorkerPool).
Context (hit : Z → bool) (out : Z → list Op) (msgs : Z → list rpc) (b : bool).
Hypothesis body_ok : ∀ acc s p,
  pool_ok p → known p s → _worker p = _worker p0 → local p s = local p0 s →
  if hit s
  then ∃ p', body acc s p = (Ok (acc ++ out s), p') ∧ freed p s b p' ∧
             _rpc p' = _rpc p ++ msgs s
  else body acc s p = (Ok acc, p).

Definition hits : list Z := filter (λ s, hit s) (pd_keys (_worker p0)).

Lemma sweep_spec :
  pool_ok p0 →
  ∃ p', for_acc body [] (pd_keys (_worker p0)) p0 = (Ok (hits ≫= out), p') ∧
    swept hit b p0 p' ∧ _rpc p' = _rpc p0 ++ (hits ≫= msgs).
Proof.
  intros Hok. set (I := λ (done : list Z) acc p,
    pool_ok p ∧ _worker p = _worker p0 ∧ acc = filter (λ s, hit s) done ≫= out ∧
    _rpc p = _rpc p0 ++ (filter (λ s, hit s) done ≫= msgs) ∧
    (∀ s, s ∈ done → hit s = true → pd_get (_operations p) s =
       Some (if b then WORKER_DISABLED else WORKER_INACTIVE)) ∧
    (∀ s, s ∉ done ∨ hit s = false → local p s = local p0 s) ∧
    (_workers_available_event p = _workers_available_event p0 ∨
     _workers_available_event p = true)).
  destruct (for_acc_total body I (pd_keys (_worker p0)) [] p0)
    as (acc & p' & Hr & Hp & Hw & -> & Hm & Hh & Ho & Hev).
  - intros pre s post acc p Hsplit (Hp & Hw & -> & Hm & Hh & Ho & Hev).
    pose proof (keys_nodup _ (base_keys _ (proj1 Hok))) as Hnd. rewrite Hsplit in Hnd.
    apply NoDup_app in Hnd as (_ & Hdisj & _).
    assert (s ∉ pre) as Hs by (intros ?; apply (Hdisj s); [done|by left]).
    assert (known p s) as Hk.
    { unfold known. rewrite Hw, Hsplit. apply elem_of_app. right. by left. }
    pose proof (body_ok (filter (λ s, hit s) pre ≫= out) s p Hp Hk Hw (Ho s (or_introl Hs)))
      as Hb. unfold I. destruct (hit s) eqn:Hhit.
    + destruct Hb as (p' & -> & Hf & Hrpc). eexists _, p'. split; [done|].
      rewrite filter_app, (filter_cons_True _ _ []), filter_nil by (by rewrite Hhit).
      rewrite !bind_app, !bind_singleton, Hrpc, Hm, app_assoc.
      split_and!; try done; [apply Hf|rewrite <- Hw; apply Hf|..].
      * intros s' [Hs'|Hs'%list_elem_of_singleton]%elem_of_app Hh'.
        -- assert (s ≠ s') as Hne by congruence. pose proof (freed_other _ _ _ _ Hf s' Hne) as Hl.
           rewrite <- (Hh s' Hs' Hh'). unfold local in Hl. congruence.
        -- subst s'. apply Hf.
      * intros s' Hs'. rewrite elem_of_app, list_elem_of_singleton in Hs'.
        assert (s ≠ s') as Hne by (intros ->; destruct Hs'; [tauto|congruence]).
        rewrite (freed_other _ _ _ _ Hf s' Hne). apply Ho. tauto.
      * rewrite (freed_event _ _ _ _ Hf). destruct b; [done|by right].
    + exists (filter (λ s, hit s) pre ≫= out), p. rewrite Hb.
      rewrite filter_app, (filter_cons_False _ _ []), filter_nil, app_nil_r by (rewrite Hhit; tauto).
      split_and!; try done.
      * intros s'. rewrite elem_of_app, list_elem_of_singleton. intros [?| ->]; [auto|congruence].
      * intros s'. rewrite elem_of_app. intros Hs'. apply Ho. tauto.
  - unfold I. rewrite app_nil_r. split_and!; try done; [by intros s ?%elem_of_nil|by left].
  - exists p'. split_and!; try done. split; try done; eauto.
Qed.
End sweep.

(** The operations of the released workers, and only those, are no longer
    assigned. *)
Lemma swept_assigned hit b p p' op :
  pool_ok p → swept hit b p p' →
  (∀ s, known p s → hit s = true → ∃ l, busy p s l) →
  assigned p op ∧ ¬ assigned p' op ↔ ∃ s l, hit s = true ∧ busy p s l ∧ op ∈ l.
Proof.
  intros Hok [Hok' Hw Hh Ho _] Hbusy. rewrite !assigned_busy by apply Hok || apply Hok'. split.
  - intros [(s & l & Hl & Hop) Hn]. exists s, l. split_and!; try done.
    destruct (hit s) eqn:Hs; [done|]. destruct Hn. exists s, l. split; [|done].
    pose proof (busy_known p s l (base_keys _ (proj1 Hok)) Hl) as Hk.
    specialize (Ho s Hk Hs). unfold local, busy in *. congruence.
  - intros (s & l & Hs & Hl & Hop). split; [eauto|]. intros (s' & l' & Hl' & Hop').
    pose proof (busy_known p s l (base_keys _ (proj1 Hok)) Hl) as Hk.
    assert (known p s') as Hk'.
    { unfold known. rewrite <- Hw. by apply (busy_known p' s' l' (base_keys _ (proj1 Hok'))). }
    destruct (hit s') eqn:Hs'.
    + specialize (Hh s' Hk' Hs'). unfold busy in *. destruct b; congruence.
    + specialize (Ho s' Hk' Hs'). assert (busy p s' l').
      { unfold local, busy in *. congruence. }
      destruct (busy_unique p s s' l l' op (proj1 Hok)); done || congruence.
Qed.

Lemma swept_busy hit b p p' s l :
  pool_ok p → swept hit b p p' → busy p' s l ↔ busy p s l ∧ hit s = false.
Proof.
  intros Hok [Hok' Hw Hh Ho _]. split.
  - intros Hl. assert (known p s) as Hk.
    { unfold known. rewrite <- Hw. by apply (busy_known p' s l (base_keys _ (proj1 Hok'))). }
    destruct (hit s) eqn:Hs; [|specialize (Ho s Hk Hs); unfold local, busy in *; split; congruence].
    specialize (Hh s Hk Hs). unfold busy in Hl. destruct b; congruence.
  - intros [Hl Hs]. pose proof (busy_known p s l (base_keys _ (proj1 Hok)) Hl) as Hk.
    specialize (Ho s Hk Hs). unfold local, busy in *. congruence.
Qed.

(** The worker of every operation after a sweep. *)
Lemma swept_reverse hit b p p' op :
  pool_ok p → swept hit b p p' →
  _operations_reverse p' !! op =
    s ← _operations_reverse p !! op; if hit s : bool then None else Some s.
Proof.
  intros Hok Hs. apply option_eq. intros s.
  rewrite base_reverse by apply (swept_ok _ _ _ _ Hs).
  setoid_rewrite (swept_busy hit b p p' s); [|done..]. rewrite bind_Some. split.
  - intros (l & [Hl Hh] & Hop). exists s. rewrite Hh. split; [|done].
    apply base_reverse; [apply Hok|eauto].
  - intros (s' & Hr & Hh). destruct (hit s') eqn:Hh'; [done|]. injection Hh as ->.
    apply base_reverse in Hr as (l & Hl & Hop); [|apply Hok]. eauto.
Qed.

(** Releasing one worker is a sweep of that worker. *)
Lemma freed_swept p s b p' :
  pool_ok p → freed p s b p' → swept (λ s', bool_decide (s = s')) b p p'.
Proof.
  intros Hok [H1 H2 H3 H4 H5]. split; try done.
  - intros s' _ ->%bool_decide_eq_true_1. done.
  - intros s' _ Hne%bool_decide_eq_false_1. by apply H3.
  - rewrite H5. destruct b; auto.
Qed.

(** ** The methods on a well-formed pool *)

Lemma local_known p s :
  keys_ok p → known p s → ∃ o ti st sd ig,
    pd_get (_operations p) s = Some o ∧ pd_get (_operations_to_ignore p) s = Some ti ∧
    pd_get (_start_time p) s = Some st ∧ pd_get (_schedule_disabling p) s = Some sd ∧
    pd_get (_ignore p) s = Some ig.
Proof.
  intros [K1 K2 K3 K4 K5 K6] Hs.
  destruct (known_get _operations p s K2 Hs) as [o ?].
  destruct (known_get _operations_to_ignore p s K3 Hs) as [ti ?].
  destruct (known_get _start_time p s K4 Hs) as [st ?].
  destruct (known_get _schedule_disabling p s K5 Hs) as [sd ?].
  destruct (known_get _ignore p s K6 Hs) as [ig ?].
  by exists o, ti, st, sd, ig.
Qed.

Lemma flags_false p s sd ig :
  flags_down p → pd_get (_schedule_disabling p) s = Some sd → pd_get (_ignore p) s = Some ig →
  sd = false ∧ ig = false.
Proof. intros Hf H1 H2. destruct (Hf s). destruct sd, ig; try congruence. done. Qed.

(** Raising the flags, or forgetting what is to be ignored, right before a
    release. *)
Lemma base_schedule s v p : pool_base p → known p s → pool_base (set_schedule_disabling s v p).
Proof.
  intros [[K1 K2 K3 K4 K5 K6] B1 B2 B3 B4] Hs. split; try done. split; try done.
  by apply keys_set.
Qed.

Lemma base_ignore s v p : pool_base p → known p s → pool_base (set_ignore s v p).
Proof.
  intros [[K1 K2 K3 K4 K5 K6] B1 B2 B3 B4] Hs. split; try done. split; try done.
  by apply keys_set.
Qed.

Lemma base_set_to_ignore s ti p :
  pool_base p → known p s → (∀ op, op ∈ ti → ∃ l, busy p s l ∧ op ∈ l) →
  pool_base (set_to_ignore s ti p).
Proof.
  intros [[K1 K2 K3 K4 K5 K6] B1 B2 B3 B4] Hs Hti. split; try done.
  - split; try done. by apply keys_set.
  - intros s' li op. simpl. rewrite pd_get_set. case_decide; [|by apply B4].
    intros [= <-]. subst. apply Hti.
Qed.

Lemma release_prepared p p1 s l b :
  pool_ok p → pool_base p1 → busy p1 s l →
  pd_get (_schedule_disabling p1) s = Some b →
  (∀ s', s ≠ s' → local p1 s' = local p s') → _worker p1 = _worker p →
  _workers_available_event p1 = _workers_available_event p →
  ∃ ret p', release_worker s p1 = (Ok ret, p') ∧ freed p s b p' ∧ _rpc p' = _rpc p1.
Proof.
  intros [_ Hf] Hb1 Hl Hs Hloc Hw Hev.
  pose proof (busy_known p1 s l (base_keys _ Hb1) Hl) as Hk.
  destruct (local_known p1 s (base_keys _ Hb1) Hk) as (o & ti & st & sd & ig & ? & ? & ? & ? & ?).
  assert (sd = b) as -> by congruence.
  eexists _, (free_worker s l b p1). split; [by eapply release_busy|].
  split; [split|by destruct b].
  - split; [by apply free_base|]. apply flags_free; [|done].
    intros s' Hne. specialize (Hloc s' Hne). specialize (Hf s'). unfold local in Hloc.
    injection Hloc as Ho Hti Hst Hsd Hig. by rewrite Hsd, Hig.
  - rewrite <- Hw. by destruct b.
  - intros s' Hne. by rewrite local_free, Hloc.
  - by apply local_inactive.
  - by destruct b.
Qed.

Lemma freed_send p s b p' c : freed p s b p' → freed p s b (send c p').
Proof.
  intros [[Hb Hf] H2 H3 H4 H5]. split; try done. split; [|done].
  destruct Hb as [[] ? ? ? ?]. split; try done.
Qed.

(** *** check_timeouts *)

Definition expired now p s : bool :=
  match pd_get (_start_time p) s with
  | Some (Some t) => (WORKER_TIMEOUT <? now - t)%Z
  | _ => false
  end.

(** What [check_timeouts] reports for a worker: its operations, but those it
    was told to ignore. *)
Definition kept_operations p s : list Op :=
  match pd_get (_operations p) s, pd_get (_operations_to_ignore p) s with
  | Some (Ops l), Some ti => not_ignored ti l
  | _, _ => []
  end.

Lemma expired_busy now p s : pool_base p → expired now p s = true → ∃ l, busy p s l.
Proof.
  unfold expired. intros Hb He. apply base_start; [done|].
  destruct (pd_get (_start_time p) s) as [[t|]|]; try done. eauto.
Qed.

Lemma check_timeouts_step now p0 acc s p :
  pool_ok p → known p s → _worker p = _worker p0 → local p s = local p0 s →
  if expired now p0 s
  then ∃ p', check_timeouts_body now acc s p = (Ok (acc ++ kept_operations p0 s), p') ∧
             freed p s true p' ∧ _rpc p' = _rpc p ++ [Quit s]
  else check_timeouts_body now acc s p = (Ok acc, p).
Proof.
  intros Hok Hk _ Hl. unfold local in Hl. injection Hl as Ho Hti Hst _ _.
  assert (expired now p0 s = expired now p s) as -> by (unfold expired; by rewrite Hst).
  assert (kept_operations p0 s = kept_operations p s) as ->
    by (unfold kept_operations; by rewrite Ho, Hti).
  clear Ho Hti Hst p0.
  destruct (local_known p s (base_keys _ (proj1 Hok)) Hk)
    as (o & ti & st & sd & ig & Ho & Hti & Hst & Hsd & Hig).
  destruct (flags_false p s sd ig (proj2 Hok) Hsd Hig) as [-> ->].
  destruct (expired now p s) eqn:He.
  - destruct (expired_busy now p s (proj1 Hok) He) as [l Hl].
    unfold expired in He. rewrite Hst in He. destruct st as [t|]; [|done].
    assert (o = Ops l) as -> by (unfold busy in Hl; congruence).
    set (p1 := set_ignore s true (set_schedule_disabling s true p)).
    destruct (release_prepared p p1 s l true) as (ret & p' & Hrel & Hfr & Hrpc); try done.
    + apply base_ignore; [apply base_schedule|]; [apply Hok|done|done].
    + simpl. apply pd_get_set_eq.
    + intros s' Hne. unfold local. simpl. by rewrite !pd_get_set_ne.
    + exists (send (Quit s) p'). split_and!; [|by apply freed_send|simpl; by rewrite Hrpc].
      unfold check_timeouts_body, item_of. run_goal. rewrite Hst. cbn [or_raise]. rewrite He.
      rewrite Ho. cbn. rewrite Hig. cbn. rewrite Hti. cbn. fold (set_schedule_disabling s true p).
      fold p1. rewrite Hrel, (freed_worker _ _ _ _ Hfr).
      destruct (proj2 (pd_get_in (_worker p) s) Hk) as [c ->]. cbn.
      unfold kept_operations. by rewrite Ho, Hti.
  - unfold check_timeouts_body, item_of. run_goal. rewrite Hst. cbn [or_raise].
    unfold expired in He. rewrite Hst in He. destruct st as [t|]; [by rewrite He|done].
Qed.

Lemma check_timeouts_sweep now p :
  pool_ok p →
  let dead := filter (λ s, expired now p s) (pd_keys (_worker p)) in
  ∃ p', check_timeouts now p = (Ok (dead ≫= kept_operations p), p') ∧
    swept (expired now p) true p p' ∧ _rpc p' = _rpc p ++ (Quit <$> dead).
Proof.
  intros Hok dead.
  destruct (sweep_spec (check_timeouts_body now) p (expired now p) (kept_operations p)
    (λ s, [Quit s]) true) as (p' & Hr & Hs & Hm); [|done|].
  - intros acc s q Hq Hk Hw Hl. by apply check_timeouts_step.
  - exists p'. split_and!; [done|done|]. rewrite Hm. f_equal.
Qed.

(** *** check_connections *)

Definition disconnected p s : bool :=
  match pd_get (_worker p) s, pd_get (_operations p) s with
  | Some false, Some (Ops _) => true
  | _, _ => false
  end.

Definition its_operations p s : list Op :=
  match pd_get (_operations p) s with Some (Ops l) => l | _ => [] end.

Lemma check_connections_step p0 acc s p :
  pool_ok p → known p s → _worker p = _worker p0 → local p s = local p0 s →
  if disconnected p0 s
  then ∃ p', check_connections_body acc s p = (Ok (acc ++ its_operations p0 s), p') ∧
             freed p s false p' ∧ _rpc p' = _rpc p ++ []
  else check_connections_body acc s p = (Ok acc, p).
Proof.
  intros Hok Hk Hw Hl. unfold local in Hl. injection Hl as Ho _ _ _ _.
  assert (disconnected p0 s = disconnected p s) as -> by (unfold disconnected; by rewrite Ho, Hw).
  assert (its_operations p0 s = its_operations p s) as -> by (unfold its_operations; by rewrite Ho).
  clear Ho Hw p0.
  destruct (local_known p s (base_keys _ (proj1 Hok)) Hk)
    as (o & ti & st & sd & ig & Ho & Hti & Hst & Hsd & Hig).
  destruct (flags_false p s sd ig (proj2 Hok) Hsd Hig) as [-> ->].
  destruct (proj2 (pd_get_in (_worker p) s) Hk) as [c Hc].
  unfold disconnected. rewrite Hc, Ho.
  unfold check_connections_body, item_of. run_goal. rewrite Hc. cbn [or_raise].
  destruct c; [done|]. rewrite Ho. cbn [or_raise]. destruct o as [| |l]; [done|done|].
  rewrite Hig. cbn [or_raise].
  destruct (release_prepared p p s l false) as (ret & p' & -> & Hfr & Hrpc); try done.
  { apply Hok. }
  exists p'. rewrite app_nil_r. unfold its_operations. by rewrite Ho.
Qed.

Lemma check_connections_sweep p :
  pool_ok p →
  let gone := filter (λ s, disconnected p s) (pd_keys (_worker p)) in
  ∃ p', check_connections p = (Ok (gone ≫= its_operations p), p') ∧
    swept (disconnected p) false p p' ∧ _rpc p' = _rpc p.
Proof.
  intros Hok gone.
  destruct (sweep_spec check_connections_body p (disconnected p) (its_operations p)
    (λ _, []) false) as (p' & Hr & Hs & Hm); [|done|].
  - intros acc s q Hq Hk Hw Hl. by apply check_connections_step.
  - exists p'. split_and!; [done|done|]. rewrite Hm. rewrite <- (app_nil_r (_rpc p)) at 2. f_equal.
    clear. induction (hits p (disconnected p)) as [|x l IH]; [done|apply IH].
Qed.

(** *** The single-worker methods *)

Lemma release_worker_ok s p :
  pool_ok p → known p s →
  match pd_get (_operations p) s, pd_get (_operations_to_ignore p) s with
  | Some WORKER_INACTIVE, _ => release_worker s p = (Raise ValueError, p)
  | Some WORKER_DISABLED, _ => release_worker s p = (Ok (IgnoreAll true), p)
  | Some (Ops l), Some ti =>
      ∃ p', release_worker s p =
              (Ok (if bool_decide (ti = []) then IgnoreAll false else IgnoreOps ti), p') ∧
            freed p s false p' ∧ _rpc p' = _rpc p
  | _, _ => False
  end.
Proof.
  intros Hok Hk.
  destruct (local_known p s (base_keys _ (proj1 Hok)) Hk)
    as (o & ti & st & sd & ig & Ho & Hti & Hst & Hsd & Hig).
  destruct (flags_false p s sd ig (proj2 Hok) Hsd Hig) as [-> ->].
  rewrite Ho, Hti. destruct o as [| |l].
  - unfold release_worker, item_of. run_goal. by rewrite Ho.
  - unfold release_worker, item_of. run_goal. by rewrite Ho.
  - destruct (release_prepared p p s l false) as (ret & p' & Hr & Hfr & Hrpc); try done.
    { apply Hok. }
    exists p'. split; [|done]. rewrite Hr. f_equal.
    rewrite (release_busy s l ti false false) in Hr; try done; [|apply Hok].
    injection Hr as <- _. by case_bool_decide.
Qed.

Lemma disable_worker_ok s p :
  pool_ok p → known p s →
  match pd_get (_operations p) s with
  | Some WORKER_DISABLED => disable_worker s p = (Raise ValueError, p)
  | Some WORKER_INACTIVE => disable_worker s p = (Ok [], set_operations s WORKER_DISABLED p)
  | Some (Ops l) =>
      ∃ p', disable_worker s p = (Ok (kept_operations p s), p') ∧ freed p s true p' ∧
            _rpc p' = _rpc p
  | None => False
  end.
Proof.
  intros Hok Hk.
  destruct (local_known p s (base_keys _ (proj1 Hok)) Hk)
    as (o & ti & st & sd & ig & Ho & Hti & Hst & Hsd & Hig).
  destruct (flags_false p s sd ig (proj2 Hok) Hsd Hig) as [-> ->].
  unfold disable_worker, item_of. run_goal. rewrite Ho. cbn [or_raise].
  destruct o as [| |l]; [done|done|].
  rewrite Hig. cbn [or_raise]. rewrite Hti. cbn [or_raise].
  set (p1 := set_ignore s true (set_to_ignore s [] (set_schedule_disabling s true p))).
  destruct (release_prepared p p1 s l true) as (ret & p' & -> & Hfr & Hrpc); try done.
  - apply base_ignore; [apply base_set_to_ignore; [apply base_schedule|..]|]; try done.
    { apply Hok. }
    by intros op ?%elem_of_nil.
  - simpl. apply pd_get_set_eq.
  - intros s' Hne. unfold local. simpl. by rewrite !pd_get_set_ne.
  - exists p'. unfold kept_operations. by rewrite Ho, Hti.
Qed.

(** *** acquire_worker *)

(** The worker can be given operations. *)
Definition idle p s : Prop :=
  pd_get (_operations p) s = Some WORKER_INACTIVE ∧ pd_get (_worker p) s = Some true.

(** "If a worker is available, then this event is set." *)
Definition event_ok p : Prop := ∀ s, idle p s → _workers_available_event p = true.

Definition candidates (items : list (Z * operations)) p : list Z :=
  (filter (λ so, so.2 = WORKER_INACTIVE ∧ pd_get (_worker p) so.1 = Some true) items).*1.

Lemma candidates_idle p s : pool_base p → s ∈ candidates (_operations p) p ↔ idle p s.
Proof.
  intros Hb. unfold candidates, idle. rewrite list_elem_of_fmap.
  assert (NoDup (pd_keys (_operations p))) as Hnd.
  { rewrite (keys_operations p) by apply Hb. apply (keys_nodup p), Hb. }
  setoid_rewrite list_elem_of_filter. split.
  - intros ([s' o] & -> & [[Ho Hw] Hin]). simpl in *. subst o. eauto using pd_in_get.
  - intros [Ho Hw]. exists (s, WORKER_INACTIVE). eauto using pd_get_Some_in.
Qed.

Lemma find_loop_inactive items pool p :
  (∀ s, s ∈ pd_keys items → known p s) →
  find_loop WORKER_INACTIVE true true items pool p = (Ok (inr (pool ++ candidates items p)), p).
Proof.
  revert pool. induction items as [|[s o] items IH]; intros pool Hk; cbn [find_loop].
  - unfold candidates. simpl. by rewrite app_nil_r.
  - assert (∀ s, s ∈ pd_keys items → known p s) as Hk' by (intros ??; apply Hk; by right).
    destruct (proj2 (pd_get_in (_worker p) s) (Hk s ltac:(by left))) as [c Hc].
    unfold candidates. rewrite filter_cons. cbn [fst snd]. case_decide as Ho.
    + subst o. unfold mbind at 1, M_bind. unfold item_of. rewrite Hc. cbn [or_raise].
      destruct c.
      * rewrite IH by done. rewrite decide_True by done. simpl. by rewrite <- app_assoc.
      * rewrite IH by done. rewrite decide_False by naive_solver. done.
    + rewrite IH by done. rewrite decide_False by naive_solver. done.
Qed.

Lemma find_worker_idle rnd p :
  pool_base p →
  (find_worker WORKER_INACTIVE true true rnd p = (Raise LookupError, p) ∧ ∀ s, ¬ idle p s) ∨
  ∃ s, find_worker WORKER_INACTIVE true true rnd p = (Ok s, p) ∧ idle p s.
Proof.
  intros Hb. unfold find_worker.
  rewrite (M_run_Ok _ _ p (_operations p) p) by done.
  rewrite (M_run_Ok _ _ p (inr (candidates (_operations p) p)) p).
  2: { apply find_loop_inactive. intros s Hs. unfold known.
       rewrite <- (keys_operations p); [done|apply Hb]. }
  destruct (candidates (_operations p) p) as [|x pool] eqn:Hc.
  - left. split; [done|]. intros s Hi%(candidates_idle p s Hb). rewrite Hc in Hi.
    by apply elem_of_nil in Hi.
  - right. unfold lift.
    assert (rnd `mod` List.length (x :: pool) < List.length (x :: pool)) as Hlt
      by (apply Nat.mod_upper_bound; simpl; lia).
    destruct (lookup_lt_is_Some_2 _ _ Hlt) as [s Hs]. exists s. rewrite Hs. split; [done|].
    rewrite <- candidates_idle by done. rewrite Hc. by eapply list_elem_of_lookup_2.
Qed.

Definition fresh p (ops : list Op) : Prop := NoDup ops ∧ ∀ op, op ∈ ops → ¬ assigned p op.

(** The pool when the idle worker [s] has been given [ops]. *)
Definition give s ops now p : WorkerPool :=
  set_start_time s (Some now)
    (set_reverse (foldl (λ m op, <[op := s]> m) (_operations_reverse p) ops)
       (set_operations s (Ops ops) p)).

Lemma add_operations_loop s ops p :
  for_each (λ op, modify (λ p, set_reverse (<[op := s]> (_operations_reverse p)) p)) ops p =
  (Ok tt, set_reverse (foldl (λ m op, <[op := s]> m) (_operations_reverse p) ops) p).
Proof.
  revert p. induction ops as [|op ops IH]; intros p; cbn [for_each foldl].
  - by destruct p.
  - unfold mbind, M_bind, modify at 1. by rewrite IH.
Qed.

Lemma add_operations_idle s ops p :
  idle p s →
  _add_operations s ops p =
  (Ok tt, set_reverse (foldl (λ m op, <[op := s]> m) (_operations_reverse p) ops)
            (set_operations s (Ops ops) p)).
Proof.
  intros [Ho _]. unfold _add_operations, item_of. unfold mbind at 1, M_bind. rewrite Ho.
  cbn [or_raise]. rewrite decide_True by done. unfold mbind, M_bind, modify at 1.
  by rewrite add_operations_loop.
Qed.

Lemma lookup_give (ops : list Op) (s : Z) (m : gmap Op Z) op :
  foldl (λ m op, <[op := s]> m) m ops !! op = if decide (op ∈ ops) then Some s else m !! op.
Proof.
  revert m. induction ops as [|x ops IH]; intros m; cbn [foldl].
  - case_decide as Hx; [by apply elem_of_nil in Hx|done].
  - rewrite IH. destruct (decide (op ∈ ops)).
    + rewrite decide_True; [done|by right].
    + rewrite lookup_insert. case_decide as Hx; subst.
      * rewrite decide_True; [done|by left].
      * rewrite decide_False; [done|]. rewrite elem_of_cons. intuition congruence.
Qed.

Lemma busy_give s ops now p s' l' :
  busy (give s ops now p) s' l' ↔ (s = s' ∧ l' = ops) ∨ (s ≠ s' ∧ busy p s' l').
Proof. unfold busy, give. simpl. rewrite pd_get_set. case_decide; naive_solver. Qed.

Lemma give_base s ops now p :
  pool_base p → idle p s → fresh p ops → pool_base (give s ops now p).
Proof.
  intros Hb [Hi Hw] [Hnd Hfr].
  assert (known p s) as Hk by (apply pd_get_in; eauto).
  pose proof (base_keys p Hb) as [K1 K2 K3 K4 K5 K6]. split.
  - split; try done; by apply keys_set.
  - intros op s'. setoid_rewrite busy_give. unfold give. simpl. rewrite lookup_give.
    case_decide as Hop.
    + split; [intros [= <-]; exists ops; auto|].
      intros (l & [[<- _]|[_ Hl]] & Hl'); [done|]. destruct (Hfr op Hop).
      apply assigned_busy; eauto.
    + rewrite base_reverse by done. split.
      * intros (l & Hl & Hl'). exists l. split; [|done]. right. split; [|done].
        intros <-. unfold busy in Hl. congruence.
      * intros (l & [[_ ->]|[_ Hl]] & Hl'); [done|eauto].
  - intros s' l [[_ ->]|[_ ?]]%busy_give; [done|by eapply base_nodup].
  - intros s'. setoid_rewrite busy_give. unfold give. simpl. rewrite pd_get_set.
    case_decide; [naive_solver|]. rewrite base_start by done. naive_solver.
  - intros s' li op. setoid_rewrite busy_give. unfold give. simpl. intros H1 H2.
    destruct (base_to_ignore p Hb s' li op H1 H2) as (l & Hl & Hl').
    exists l. split; [|done]. right. split; [|done]. intros <-. unfold busy in Hl. congruence.
Qed.

Lemma acquire_worker_ok ops now rnd jg p :
  pool_ok p → fresh p ops →
  ((∀ s, ¬ idle p s) ∧ acquire_worker ops now rnd jg p = (Ok None, set_event false p)) ∨
  ∃ s, idle p s ∧ pool_ok (give s ops now p) ∧
    acquire_worker ops now rnd jg p =
      match jg with
      | Ok _ => (Ok (Some s), send (ExecuteJobGroup s ops) (give s ops now p))
      | Raise e => (Raise e, give s ops now p)
      | Blocks => (Blocks, give s ops now p)
      | NoFuel => (NoFuel, give s ops now p)
      end.
Proof.
  intros Hok Hfr. unfold acquire_worker.
  destruct (find_worker_idle rnd p (proj1 Hok)) as [[Hf Hn]|(s & Hf & Hi)]; [left|right].
  - split; [done|]. rewrite (M_run_Ok _ _ p None (set_event false p)); [done|].
    unfold try_except. by rewrite (M_run_Raise _ _ p _ p Hf).
  - exists s. split_and!; [done|split; [by apply give_base; [apply Hok|..]|apply Hok]|].
    rewrite (M_run_Ok _ _ p (Some s) p)
      by (unfold try_except; by rewrite (M_run_Ok _ _ p s p Hf)).
    rewrite (M_run_Ok _ _ _ _ _ (add_operations_idle s ops p Hi)).
    unfold mbind, M_bind, modify, lift, item_of. destruct jg; try done.
    destruct Hi as [_ Hw]. simpl. by rewrite Hw.
Qed.

(** *** Transitions of the pool

    What the service, the RPC layer and the clock can do to a pool. A worker
    that connects triggers [on_worker_connected]. The service never assigns
    an operation that is already assigned, and adds each shard once. *)
Inductive pool_step : WorkerPool → WorkerPool → Prop :=
  | step_add s c p r p' :
      ¬ known p s → add_worker s c p = (r, p') → pool_step p p'
  | step_disconnect s p : known p s → pool_step p (set_worker s false p)
  | step_connect s cid p r p' :
      known p s → on_worker_connected s cid (set_worker s true p) = (r, p') → pool_step p p'
  | step_acquire ops now rnd jg p r p' :
      fresh p ops → acquire_worker ops now rnd jg p = (r, p') → pool_step p p'
  | step_release s p r p' : release_worker s p = (r, p') → pool_step p p'
  | step_ignore op p r p' : ignore_operation op p = (r, p') → pool_step p p'
  | step_check_timeouts now p r p' : check_timeouts now p = (r, p') → pool_step p p'
  | step_check_connections p r p' : check_connections p = (r, p') → pool_step p p'
  | step_disable s p r p' : disable_worker s p = (r, p') → pool_step p p'
  | step_enable s p r p' : enable_worker s p = (r, p') → pool_step p p'.

Definition pool_inv p : Prop := pool_ok p ∧ event_ok p.

Lemma pool_init_inv : pool_inv pool_init.
Proof.
  split; [split|by intros s [? _]].
  - split.
    + split; try done. apply NoDup_nil_2.
    + intros op s. split; [done|]. by intros (l & ? & _).
    + by intros s l ?.
    + intros s. split; [by intros [? ?]|by intros [? ?]].
    + by intros s li op ?.
  - intros s. done.
Qed.

Lemma unknown_get {V} (d : WorkerPool → pydict Z V) p s :
  pd_keys (d p) = pd_keys (_worker p) → ¬ known p s → pd_get (d p) s = None.
Proof. intros Hk Hs. apply pd_get_None. by rewrite Hk. Qed.

Lemma keys_add {V} (d : pydict Z V) s v ks :
  pd_keys d = ks → s ∉ ks → pd_keys (pd_set d s v) = ks ++ [s].
Proof. intros <- Hs. by apply pd_keys_set_new. Qed.

Lemma step_add_inv s c p r p' :
  pool_inv p → ¬ known p s → add_worker s c p = (r, p') → pool_inv p'.
Proof.
  intros [[Hb Hf] _] Hs [= _ <-]. pose proof (base_keys p Hb) as [K1 K2 K3 K4 K5 K6].
  pose proof (unknown_get _operations p s K2 Hs) as Ho.
  split; [split; [split|]|by intros ??]; simpl.
  - split; simpl; [by apply pd_keys_set_NoDup|..]; rewrite (keys_add (_worker p) s c _ eq_refl Hs);
      by apply keys_add.
  - intros op s'. unfold busy. simpl. rewrite base_reverse by done. unfold busy.
    setoid_rewrite pd_get_set. case_decide; naive_solver.
  - intros s' l. unfold busy. simpl. rewrite pd_get_set.
    case_decide; [done|by apply (base_nodup p Hb)].
  - intros s'. unfold busy. simpl. setoid_rewrite pd_get_set.
    case_decide; [naive_solver|by apply base_start].
  - intros s' li op. unfold busy. simpl. rewrite pd_get_set. setoid_rewrite pd_get_set.
    case_decide; [intros [= <-] []%elem_of_nil|by apply (base_to_ignore p Hb)].
  - intros s'. simpl. rewrite !pd_get_set. case_decide; [done|apply Hf].
Qed.

Lemma base_worker s c p : pool_base p → known p s → pool_base (set_worker s c p).
Proof.
  intros [[K1 K2 K3 K4 K5 K6] B1 B2 B3 B4] Hs. split; try done.
  split; simpl; rewrite ?pd_keys_set_in by done; try done.
Qed.

Lemma ok_event b p : pool_ok p → pool_ok (set_event b p).
Proof. intros [[[] ? ? ? ?] ?]. split; [split; try done; by split|done]. Qed.

Lemma ok_send c p : pool_ok p → pool_ok (send c p).
Proof. intros [[[] ? ? ? ?] ?]. split; [split; try done; by split|done]. Qed.

Lemma step_connect_inv s cid p r p' :
  pool_inv p → known p s → on_worker_connected s cid (set_worker s true p) = (r, p') →
  pool_inv p'.
Proof.
  intros [[Hb Hf] _] Hs H0.
  assert (pool_ok (set_worker s true p)) as Hok by (split; [by apply base_worker|done]).
  unfold on_worker_connected in H0. destruct cid.
  - rewrite (M_run_Ok _ _ _ tt (send (PrecacheFiles s) (set_worker s true p))) in H0.
    + injection H0 as _ <-. split; [by apply ok_event, ok_send|by intros ??].
    + unfold item_of. run_goal. simpl. by rewrite pd_get_set_eq.
  - injection H0 as _ <-. split; [by apply ok_event|by intros ??].
Qed.

Lemma base_set_free s o p :
  pool_base p → known p s → (∀ l, ¬ busy p s l) → is_list o = false →
  pool_base (set_operations s o p).
Proof.
  intros [[K1 K2 K3 K4 K5 K6] B1 B2 B3 B4] Hs Hn Ho.
  assert (∀ s' l, busy (set_operations s o p) s' l ↔ busy p s' l) as Hbusy.
  { intros s' l. unfold busy. simpl. rewrite pd_get_set. case_decide; [|done].
    subst s'. split; [intros [= ->]; done|intros ?; by destruct (Hn l)]. }
  split.
  - split; try done. by apply keys_set.
  - intros op s'. setoid_rewrite Hbusy. apply B1.
  - intros s' l Hl%Hbusy. by eapply B2.
  - intros s'. setoid_rewrite Hbusy. apply B3.
  - intros s' li op. setoid_rewrite Hbusy. apply B4.
Qed.

(** Methods on a shard that the pool does not know. *)
Lemma item_of_unknown {V} (d : WorkerPool → pydict Z V) p s :
  pd_keys (d p) = pd_keys (_worker p) → ¬ known p s → item_of d s p = (Raise KeyError, p).
Proof. intros Hk Hs. unfold item_of. by rewrite (unknown_get d p s Hk Hs). Qed.

Lemma freed_event_ok p s b p' : event_ok p → freed p s b p' → event_ok p'.
Proof.
  intros He [_ Hw Ho Hs Hev] s' [Hi Hc]. rewrite Hev. destruct b; [|done].
  destruct (decide (s = s')) as [<-|Hne]; [congruence|]. apply (He s').
  specialize (Ho s' Hne). unfold local in Ho. split; congruence.
Qed.

Lemma step_release_inv s p r p' : pool_inv p → release_worker s p = (r, p') → pool_inv p'.
Proof.
  intros [Hok He] H0. destruct (decide (known p s)) as [Hk|Hk].
  - pose proof (release_worker_ok s p Hok Hk) as Hr.
    destruct (pd_get (_operations p) s) as [[| |l]|]; [..|done].
    1, 2: rewrite H0 in Hr; by injection Hr as -> ->.
    destruct (pd_get (_operations_to_ignore p) s); [|done].
    destruct Hr as (p1 & Hr & Hf & _). rewrite H0 in Hr. injection Hr as -> ->.
    split; [apply Hf|by eapply freed_event_ok].
  - unfold release_worker in H0.
    erewrite M_run_Raise in H0 by (apply item_of_unknown; [apply Hok|done]).
    by injection H0 as _ <-.
Qed.

Lemma step_disable_inv s p r p' : pool_inv p → disable_worker s p = (r, p') → pool_inv p'.
Proof.
  intros [Hok He] H0. destruct (decide (known p s)) as [Hk|Hk].
  - pose proof (disable_worker_ok s p Hok Hk) as Hr.
    destruct (pd_get (_operations p) s) as [[| |l]|] eqn:Ho; [..|done].
    + rewrite H0 in Hr. injection Hr as -> ->. split; [split|].
      * apply base_set_free; [apply Hok|done| |done]. intros l. unfold busy. congruence.
      * apply Hok.
      * intros s' [Hi Hc]. simpl in *. apply (He s'). rewrite pd_get_set in Hi.
        case_decide; [done|]. by split.
    + rewrite H0 in Hr. by injection Hr as -> ->.
    + destruct Hr as (p1 & Hr & Hf & _). rewrite H0 in Hr. injection Hr as -> ->.
      split; [apply Hf|by eapply freed_event_ok].
  - unfold disable_worker in H0.
    erewrite M_run_Raise in H0 by (apply item_of_unknown; [apply Hok|done]).
    by injection H0 as _ <-.
Qed.

Lemma step_enable_inv s p r p' : pool_inv p → enable_worker s p = (r, p') → pool_inv p'.
Proof.
  intros [Hok He] H0. unfold enable_worker in H0. destruct (decide (known p s)) as [Hk|Hk].
  - destruct (local_known p s (base_keys _ (proj1 Hok)) Hk)
      as (o & ti & st & sd & ig & Ho & Hti & Hst & Hsd & Hig).
    rewrite (M_run_Ok _ _ p o p) in H0 by (unfold item_of; by rewrite Ho).
    case_decide as Hd; injection H0 as _ <-; [|done]. subst o.
    split; [apply ok_event|by intros ??]. split; [|apply Hok].
    apply base_set_to_ignore; [|done|by intros op ?%elem_of_nil].
    apply base_set_free; [apply Hok|done| |done]. intros l. unfold busy. congruence.
  - erewrite M_run_Raise in H0 by (apply item_of_unknown; [apply Hok|done]).
    by injection H0 as _ <-.
Qed.

Lemma step_ignore_inv op p r p' : pool_inv p → ignore_operation op p = (r, p') → pool_inv p'.
Proof.
  intros [[Hb Hf] He] H0. unfold ignore_operation in H0.
  rewrite (M_run_Ok _ _ p (_operations_reverse p) p) in H0 by done.
  destruct (_operations_reverse p !! op) as [s|] eqn:Hop; [|by injection H0 as _ <-].
  rewrite (M_run_Ok _ _ p s p) in H0 by done.
  destruct (proj1 (base_reverse p Hb op s) Hop) as (l & Hl & Hin).
  pose proof (busy_known p s l (base_keys _ Hb) Hl) as Hk.
  destruct (local_known p s (base_keys _ Hb) Hk) as (o & ti & st & sd & ig & Ho & Hti & _).
  rewrite (M_run_Ok _ _ p ti p) in H0 by (unfold item_of; by rewrite Hti).
  injection H0 as _ <-. split; [split; [|done]|done].
  apply base_set_to_ignore; [done..|].
  intros op' [Hop'|Hop'%list_elem_of_singleton]%elem_of_app; [|subst op'; eauto].
  by eapply base_to_ignore.
Qed.

Lemma swept_event_ok hit b p p' :
  event_ok p → pool_ok p → swept hit b p p' →
  (∀ s, hit s = true → b = true ∨ pd_get (_worker p) s ≠ Some true) → event_ok p'.
Proof.
  intros He Hok [Hok' Hw Hh Ho Hev] Hn s [Hi Hc].
  destruct Hev as [Hev|Hev]; rewrite Hev; [|done]. apply (He s). rewrite Hw in Hc. split; [|done].
  assert (known p s) as Hk by (apply pd_get_in; eauto).
  destruct (hit s) eqn:Hs.
  - destruct (Hn s Hs) as [->|Hn']; [|congruence]. specialize (Hh s Hk Hs). congruence.
  - specialize (Ho s Hk Hs). unfold local in Ho. congruence.
Qed.

Lemma pool_step_inv p p' : pool_step p p' → pool_inv p → pool_inv p'.
Proof.
  intros Hstep Hinv. pose proof Hinv as [Hok He]. destruct Hstep as
    [s c p r p' Hk H0|s p Hk|s cid p r p' Hk H0|ops now rnd jg p r p' Hfr H0|s p r p' H0
    |op p r p' H0|now p r p' H0|p r p' H0|s p r p' H0|s p r p' H0].
  - by eapply step_add_inv.
  - split; [split; [by apply base_worker; [apply Hok|]|apply Hok]|].
    intros s' [Hi Hc]. simpl in *. rewrite pd_get_set in Hc. case_decide; [done|].
    apply (He s'). by split.
  - by eapply step_connect_inv.
  - destruct (acquire_worker_ok ops now rnd jg p Hok Hfr) as [[Hn Ha]|(s & Hi & Hg & Ha)].
    + rewrite H0 in Ha. injection Ha as _ ->. split; [by apply ok_event|].
      intros s Hi. by destruct (Hn s).
    + assert (event_ok (give s ops now p)) as Hev.
      { intros s' [Hi' Hc]. simpl in *. rewrite pd_get_set in Hi'. case_decide; [done|].
        apply (He s'). by split. }
      rewrite H0 in Ha. destruct jg; injection Ha as _ ->; try done.
      split; [by apply ok_send|done].
  - by eapply step_release_inv.
  - by eapply step_ignore_inv.
  - destruct (check_timeouts_sweep now p Hok) as (p1 & Hr & Hs & _). rewrite H0 in Hr.
    injection Hr as _ ->. split; [apply Hs|]. eapply swept_event_ok; eauto.
  - destruct (check_connections_sweep p Hok) as (p1 & Hr & Hs & _). rewrite H0 in Hr.
    injection Hr as _ ->. split; [apply Hs|]. eapply swept_event_ok; eauto.
    intros s. unfold disconnected. destruct (pd_get (_worker p) s) as [[]|]; naive_solver.
  - by eapply step_disable_inv.
  - by eapply step_enable_inv.
Qed.

Lemma rtc_pool_inv p : rtc pool_step pool_init p → pool_inv p.
Proof.
  intros Hr. generalize pool_init_inv. induction Hr as [|q q' p Hs _ IH]; [done|].
  intros Hq. by eapply IH, pool_step_inv.
Qed.

(** ** Main theorems *)

(** The results of [op] are to be ignored. *)
Definition ignored p op : Prop :=
  ∃ s ti, pd_get (_operations_to_ignore p) s = Some ti ∧ op ∈ ti.

(** C18. In every reachable state of the pool the reverse lookup agrees with
    the lists of operations of the workers, no operation is executed by two
    workers, exactly the busy workers have a start time, the operations to
    ignore are operations of their worker, and the event is set whenever a
    worker is idle and connected. *)
Theorem reachable_pool_inv (p : WorkerPool) :
  rtc pool_step pool_init p →
  pool_inv p ∧
  ∀ s1 s2 l1 l2 op, busy p s1 l1 → busy p s2 l2 → op ∈ l1 → op ∈ l2 → s1 = s2.
Proof.
  intros Hr. assert (pool_inv p) as Hi.
  { by apply rtc_pool_inv. }
  split; [done|]. intros s1 s2 l1 l2 op. apply busy_unique, Hi.
Qed.

Lemma kept_operations_spec now p op :
  pool_ok p →
  op ∈ (filter (λ s, expired now p s) (pd_keys (_worker p)) ≫= kept_operations p) ↔
  (∃ s l, expired now p s = true ∧ busy p s l ∧ op ∈ l) ∧ ¬ ignored p op.
Proof.
  intros Hok. rewrite list_elem_of_bind. setoid_rewrite list_elem_of_filter.
  unfold kept_operations, not_ignored. split.
  - intros (s & Hop & He & Hk).
    destruct (local_known p s (base_keys _ (proj1 Hok)) Hk) as (o & ti & _ & _ & _ & Ho & Hti & _).
    rewrite Ho, Hti in Hop. destruct o as [| |l]; try by apply elem_of_nil in Hop.
    apply list_elem_of_filter in Hop as [Hn Hop]. split.
    + exists s, l. split_and!; [by apply Is_true_true|done|done].
    + intros (s' & ti' & Hti' & Hin).
      destruct (base_to_ignore p (proj1 Hok) s' ti' op Hti' Hin) as (l' & Hl' & Hop').
      assert (s = s') as <- by (eapply (busy_unique p); [apply Hok|done..]). congruence.
  - intros [(s & l & He & Hl & Hop) Hn]. exists s.
    pose proof (busy_known p s l (base_keys _ (proj1 Hok)) Hl) as Hk.
    destruct (local_known p s (base_keys _ (proj1 Hok)) Hk) as (o & ti & _ & _ & _ & Ho & Hti & _).
    split_and!; [|by apply Is_true_true|done]. unfold busy in Hl. rewrite Hl, Hti.
    apply list_elem_of_filter. split; [|done]. intros Hin. apply Hn. by exists s, ti.
Qed.

Lemma sweep_NoDup (hit : Z → bool) (out : Z → list Op) p :
  pool_ok p → (∀ s, ∃ l, sublist (out s) l ∧ (busy p s l ∨ l = [])) →
  NoDup (filter (λ s, hit s) (pd_keys (_worker p)) ≫= out).
Proof.
  intros Hok Hout. apply NoDup_bind.
  - intros s1 s2 op _ _ H1 H2.
    destruct (Hout s1) as (l1 & Hl1 & Hb1), (Hout s2) as (l2 & Hl2 & Hb2).
    assert (op ∈ l1) by (eapply elem_of_submseteq; [exact H1|by apply sublist_submseteq]).
    assert (op ∈ l2) by (eapply elem_of_submseteq; [exact H2|by apply sublist_submseteq]).
    destruct Hb1 as [Hb1| ->]; [|set_solver].
    destruct Hb2 as [Hb2| ->]; [|set_solver].
    by eapply (busy_unique p); [apply Hok|..].
  - intros s _. destruct (Hout s) as (l & Hl & Hb). eapply sublist_NoDup; [|exact Hl].
    destruct Hb as [Hb| ->]; [exact (base_nodup p (proj1 Hok) s l Hb)|apply NoDup_nil_2].
  - apply NoDup_filter, (keys_nodup p), Hok.
Qed.

(** *** What the service relies on *)

Lemma timeouts_lost_NoDup now p :
  pool_ok p →
  NoDup (filter (λ s, expired now p s) (pd_keys (_worker p)) ≫= kept_operations p).
Proof.
  intros Hok. apply sweep_NoDup; [done|]. intros s. unfold kept_operations, busy, not_ignored.
  destruct (pd_get (_operations p) s) as [[| |l]|]; try (exists []; by auto using sublist_nil).
  destruct (pd_get (_operations_to_ignore p) s) as [ti|]; exists l;
    auto using sublist_filter, sublist_nil_l.
Qed.

Lemma connections_lost_NoDup p :
  pool_ok p →
  NoDup (filter (λ s, disconnected p s) (pd_keys (_worker p)) ≫= its_operations p).
Proof.
  intros Hok. apply sweep_NoDup; [done|]. intros s. unfold its_operations, busy.
  destruct (pd_get (_operations p) s) as [[| |l]|]; try (exists []; by auto using sublist_nil).
  exists l. auto.
Qed.

Lemma disconnected_busy p s : disconnected p s = true → ∃ l, busy p s l.
Proof.
  unfold disconnected, busy. destruct (pd_get (_worker p) s) as [[]|]; try done.
  destruct (pd_get (_operations p) s) as [[| |l]|]; naive_solver.
Qed.

Lemma busy_reverse (P : Z → Prop) p op :
  pool_ok p →
  (∃ s l, P s ∧ busy p s l ∧ op ∈ l) ↔ ∃ s, _operations_reverse p !! op = Some s ∧ P s.
Proof.
  intros Hok. setoid_rewrite base_reverse; [|apply Hok..]. naive_solver.
Qed.

Lemma check_timeouts_spec now p :
  pool_inv p →
  ∃ lost p', check_timeouts now p = (Ok lost, p') ∧ pool_inv p' ∧ _worker p' = _worker p ∧
    NoDup lost ∧
    (∀ op, _operations_reverse p' !! op =
             s ← _operations_reverse p !! op; if expired now p s : bool then None else Some s) ∧
    (∀ op, op ∈ lost ↔
             (∃ s, _operations_reverse p !! op = Some s ∧ expired now p s = true) ∧
             ¬ ignored p op).
Proof.
  intros Hi. pose proof (proj1 Hi) as Hok.
  destruct (check_timeouts_sweep now p Hok) as (p' & Hr & Hs & _).
  eexists _, p'. split_and!; [done|by eapply pool_step_inv; [eapply step_check_timeouts|]
    |apply Hs|by apply timeouts_lost_NoDup|..].
  - intros op. by eapply swept_reverse.
  - intros op. by rewrite kept_operations_spec, (busy_reverse (λ s, expired now p s = true)).
Qed.

Lemma its_operations_spec p op :
  pool_ok p →
  op ∈ (filter (λ s, disconnected p s) (pd_keys (_worker p)) ≫= its_operations p) ↔
  ∃ s l, disconnected p s = true ∧ busy p s l ∧ op ∈ l.
Proof.
  intros Hok. rewrite list_elem_of_bind. setoid_rewrite list_elem_of_filter.
  unfold its_operations. split.
  - intros (s & Hop & He%Is_true_true & Hk). destruct (disconnected_busy p s He) as [l Hl].
    exists s, l. rewrite Hl in Hop. done.
  - intros (s & l & He & Hl & Hop). exists s. rewrite Hl.
    split_and!; [done|by apply Is_true_true|].
    by apply (busy_known p s l (base_keys _ (proj1 Hok))).
Qed.

Lemma check_connections_spec p :
  pool_inv p →
  ∃ lost p', check_connections p = (Ok lost, p') ∧ pool_inv p' ∧ _worker p' = _worker p ∧
    NoDup lost ∧
    (∀ op, _operations_reverse p' !! op =
             s ← _operations_reverse p !! op; if disconnected p s : bool then None else Some s) ∧
    (∀ op, op ∈ lost ↔ ∃ s, _operations_reverse p !! op = Some s ∧ disconnected p s = true).
Proof.
  intros Hi. pose proof (proj1 Hi) as Hok.
  destruct (check_connections_sweep p Hok) as (p' & Hr & Hs & _).
  eexists _, p'. split_and!; [done|by eapply pool_step_inv; [eapply step_check_connections|]
    |apply Hs|by apply connections_lost_NoDup|..].
  - intros op. by eapply swept_reverse.
  - intros op. by rewrite its_operations_spec, (busy_reverse (λ s, disconnected p s = true)).
Qed.

(** An operation is ignored by the worker that executes it. *)
Lemma ignored_worker p op s ti :
  pool_ok p → _operations_reverse p !! op = Some s →
  pd_get (_operations_to_ignore p) s = Some ti → ignored p op ↔ op ∈ ti.
Proof.
  intros Hok Hr Hti. split; [|by exists s, ti]. intros (s' & ti' & Hti' & Hop).
  destruct (base_to_ignore p (proj1 Hok) s' ti' op Hti' Hop) as (l & Hl & Hin).
  assert (_operations_reverse p !! op = Some s') by (apply base_reverse; [apply Hok|eauto]).
  congruence.
Qed.

Lemma disable_worker_spec s p :
  pool_inv p → known p s →
  match pd_get (_operations p) s with
  | Some WORKER_DISABLED => disable_worker s p = (Raise ValueError, p)
  | _ => ∃ lost p', disable_worker s p = (Ok lost, p') ∧ pool_inv p' ∧ _worker p' = _worker p ∧
      NoDup lost ∧
      (∀ op, _operations_reverse p' !! op =
               s' ← _operations_reverse p !! op; if decide (s = s') then None else Some s') ∧
      (∀ op, op ∈ lost ↔ _operations_reverse p !! op = Some s ∧ ¬ ignored p op)
  end.
Proof.
  intros Hi Hk. pose proof (proj1 Hi) as Hok. pose proof (disable_worker_ok s p Hok Hk) as Hd.
  assert (∀ op, _operations_reverse p !! op = Some s ↔ ∃ l, busy p s l ∧ op ∈ l) as Hrev
    by (intros; apply base_reverse, Hok).
  destruct (pd_get (_operations p) s) as [[| |l]|] eqn:Ho; [..|done].
  - eexists [], _. split_and!; [done|by eapply pool_step_inv; [eapply step_disable|]|done
      |apply NoDup_nil_2|..]; intros op; specialize (Hrev op); unfold busy in Hrev.
    + simpl. destruct (_operations_reverse p !! op) as [s'|]; [|done]. simpl.
      case_decide; [|done]. subst s'. exfalso. destruct (proj1 Hrev eq_refl) as (l & Hl & _).
      congruence.
    + split; [by intros ?%elem_of_nil|]. intros [Hr _].
      destruct (proj1 Hrev Hr) as (l & Hl & _). congruence.
  - done.
  - destruct Hd as (p' & Hd & Hf & _). pose proof (freed_swept p s true p' Hok Hf) as Hs.
    eexists _, p'. split_and!; [done|by eapply pool_step_inv; [eapply step_disable|]|apply Hf|..].
    + unfold kept_operations. rewrite Ho. destruct (pd_get (_operations_to_ignore p) s);
        [|apply NoDup_nil_2]. apply NoDup_filter. by apply (base_nodup p (proj1 Hok) s).
    + intros op. rewrite (swept_reverse _ _ _ _ op Hok Hs).
      destruct (_operations_reverse p !! op) as [s'|]; simpl; [|done].
      by case_bool_decide; case_decide.
    + intros op. destruct (local_known p s (base_keys _ (proj1 Hok)) Hk)
        as (o & ti & _ & _ & _ & _ & Hti & _).
      unfold kept_operations, not_ignored. rewrite Ho, Hti, list_elem_of_filter.
      split.
      * intros [Hn Hop]. assert (_operations_reverse p !! op = Some s) as Hr
          by (apply Hrev; eauto). by rewrite (ignored_worker p op s ti).
      * intros [Hr Hn]. rewrite (ignored_worker p op s ti) in Hn by done. split; [done|].
        apply Hrev in Hr as (l' & Hl' & Hop). unfold busy in Hl'. congruence.
Qed.

Lemma release_worker_spec s p :
  pool_inv p → known p s →
  match pd_get (_operations p) s with
  | Some WORKER_INACTIVE => release_worker s p = (Raise ValueError, p)
  | Some WORKER_DISABLED => release_worker s p = (Ok (IgnoreAll true), p)
  | _ => ∃ l p', release_worker s p = (Ok (if bool_decide (l = []) then IgnoreAll false
                                          else IgnoreOps l), p') ∧
      pool_inv p' ∧ _worker p' = _worker p ∧
      (∀ op, _operations_reverse p' !! op =
               s' ← _operations_reverse p !! op; if decide (s = s') then None else Some s') ∧
      (∀ op, _operations_reverse p !! op = Some s → op ∈ l ↔ ignored p op)
  end.
Proof.
  intros Hi Hk. pose proof (proj1 Hi) as Hok. pose proof (release_worker_ok s p Hok Hk) as Hd.
  destruct (pd_get (_operations p) s) as [[| |l]|] eqn:Ho; [done|done| |done].
  destruct (pd_get (_operations_to_ignore p) s) as [ti|] eqn:Hti; [|done].
  destruct Hd as (p' & Hd & Hf & _). pose proof (freed_swept p s false p' Hok Hf) as Hs.
  exists ti, p'. split_and!; [done|by eapply pool_step_inv; [eapply step_release|]|apply Hf|..].
  - intros op. rewrite (swept_reverse _ _ _ _ op Hok Hs).
    destruct (_operations_reverse p !! op) as [s'|]; simpl; [|done].
    destruct (decide (s = s')) as [->|]; [by rewrite bool_decide_eq_true_2|by rewrite bool_decide_eq_false_2].
  - intros op Hr. by rewrite (ignored_worker p op s ti).
Qed.

(** C19. [check_timeouts] never fails on a reachable pool: it disables exactly
    the workers that have been executing for more than [WORKER_TIMEOUT], asks
    them to quit, and leaves every other worker as it was; it returns, once
    each, the operations that are no longer assigned, except those that the
    service had asked to ignore. *)
Theorem check_timeouts_hands_back (now : Z) (p : WorkerPool) :
  pool_inv p →
  let dead := filter (λ s, expired now p s) (pd_keys (_worker p)) in
  ∃ lost p', check_timeouts now p = (Ok lost, p') ∧ pool_inv p' ∧
    (∀ s, known p s →
       if expired now p s then pd_get (_operations p') s = Some WORKER_DISABLED
       else local p' s = local p s) ∧
    (∀ op, op ∈ lost ↔ (assigned p op ∧ ¬ assigned p' op) ∧ ¬ ignored p op) ∧
    NoDup lost ∧ _rpc p' = _rpc p ++ (Quit <$> dead).
Proof.
  intros Hi dead. pose proof (proj1 Hi) as Hok.
  destruct (check_timeouts_sweep now p Hok) as (p' & Hr & Hs & Hm).
  exists (dead ≫= kept_operations p), p'. split_and!; try done.
  - by eapply pool_step_inv; [eapply step_check_timeouts|].
  - intros s Hk. destruct (expired now p s) eqn:He;
      [by apply (swept_hit _ _ _ _ Hs)|by apply (swept_other _ _ _ _ Hs)].
  - intros op. unfold dead. rewrite kept_operations_spec, (swept_assigned _ _ _ _ _ Hok Hs); try done.
    intros s _ He. apply (expired_busy now); [apply Hok|done].
  - by apply timeouts_lost_NoDup.
Qed.

(** [check_connections] never fails on a reachable pool: it frees exactly
    the workers that are executing and disconnected, and returns, once each,
    all the operations that are no longer assigned - the ones that the service
    had asked to ignore included. *)
Theorem check_connections_hands_back (p : WorkerPool) :
  pool_inv p →
  ∃ lost p', check_connections p = (Ok lost, p') ∧ pool_inv p' ∧
    (∀ s, known p s →
       if disconnected p s then pd_get (_operations p') s = Some WORKER_INACTIVE
       else local p' s = local p s) ∧
    (∀ op, op ∈ lost ↔ assigned p op ∧ ¬ assigned p' op) ∧ NoDup lost.
Proof.
  intros Hi. pose proof (proj1 Hi) as Hok.
  destruct (check_connections_sweep p Hok) as (p' & Hr & Hs & Hm).
  eexists _, p'. split_and!; try done.
  - by eapply pool_step_inv; [eapply step_check_connections|].
  - intros s Hk. destruct (disconnected p s) eqn:He;
      [by apply (swept_hit _ _ _ _ Hs)|by apply (swept_other _ _ _ _ Hs)].
  - intros op. rewrite (swept_assigned _ _ _ _ _ Hok Hs) by eauto using disconnected_busy.
    by apply its_operations_spec.
  - by apply connections_lost_NoDup.
Qed.

(** [acquire_worker], given operations that no worker executes: when no
    worker is idle and connected it returns [None] and clears the event;
    otherwise it gives the operations to such a worker, which becomes the one
    that executes them, and sends it the job group. *)
Theorem acquire_worker_assigns (ops : list Op) (now : Z) (rnd : nat) (p : WorkerPool) :
  pool_inv p → fresh p ops →
  ∃ r p', acquire_worker ops now rnd (Ok tt) p = (Ok r, p') ∧ pool_inv p' ∧
    match r with
    | None => (∀ s, ¬ idle p s) ∧ p' = set_event false p
    | Some s =>
        idle p s ∧ busy p' s ops ∧ pd_get (_start_time p') s = Some (Some now) ∧
        (∀ s', s ≠ s' → local p' s' = local p s') ∧
        (∀ op, _operations_reverse p' !! op =
               if decide (op ∈ ops) then Some s else _operations_reverse p !! op) ∧
        _rpc p' = _rpc p ++ [ExecuteJobGroup s ops]
    end.
Proof.
  intros Hi Hfr. destruct (acquire_worker_ok ops now rnd (Ok tt) p (proj1 Hi) Hfr)
    as [[Hn Ha]|(s & Hs & Hg & Ha)].
  - exists None, (set_event false p). split_and!; try done.
    by eapply pool_step_inv; [eapply step_acquire|].
  - eexists (Some s), _. split_and!; [done|by eapply pool_step_inv; [eapply step_acquire|]|done|..].
    + apply busy_give. auto.
    + simpl. apply pd_get_set_eq.
    + intros s' Hne. unfold local. simpl. by rewrite !pd_get_set_ne.
    + intros op. apply lookup_give.
    + done.
Qed.
End WorkerPool.

Arguments operations Op : clear implicits.
Arguments rpc Op : clear implicits.
Arguments WorkerPool Op {_ _}.
Arguments released Op : clear implicits.

(** ** Concrete pools *)

(** Workers 0 and 1; worker 0 executes 10 and 11 since time 0, 11 is to be
    ignored; worker 1 executes 12 since 500s and is disconnected. *)
Definition demo_p1 : WorkerPool nat := (add_worker 0 true pool_init).2.
Definition demo_p2 : WorkerPool nat := (add_worker 1 true demo_p1).2.
Definition demo_p3 : WorkerPool nat := (acquire_worker [10; 11] 0 0 (Ok tt) demo_p2).2.
Definition demo_p4 : WorkerPool nat := (acquire_worker [12] 500000000 0 (Ok tt) demo_p3).2.
Definition demo_p5 : WorkerPool nat := (ignore_operation 11 demo_p4).2.
Definition demo_p6 : WorkerPool nat := set_worker 1 false demo_p5.

Lemma step_pair {A} (f : M (WorkerPool nat) A) p :
  (∀ r p', f p = (r, p') → pool_step p p') → pool_step p (f p).2.
Proof. intros Hs. apply (Hs (f p).1). by destruct (f p). Qed.

Lemma demo_fresh p ops :
  bool_decide (NoDup ops ∧ Forall (λ op, _operations_reverse p !! op = None) ops) = true →
  fresh (Op:=nat) p ops.
Proof.
  intros [Hnd Hf]%bool_decide_eq_true. split; [done|]. rewrite Forall_forall in Hf.
  intros op Hop [s Hs]. rewrite (Hf op Hop) in Hs. done.
Qed.

Lemma demo_unknown (p : WorkerPool nat) s : bool_decide (¬ known p s) = true → ¬ known p s.
Proof. apply bool_decide_eq_true. Qed.

Lemma demo_reachable : rtc pool_step pool_init demo_p6.
Proof.
  apply (rtc_l _ _ demo_p1).
  { apply step_pair. intros r p' Hr. eapply step_add; [|exact Hr].
    apply demo_unknown. vm_compute. reflexivity. }
  apply (rtc_l _ _ demo_p2).
  { apply step_pair. intros r p' Hr. eapply step_add; [|exact Hr].
    apply demo_unknown. vm_compute. reflexivity. }
  apply (rtc_l _ _ demo_p3).
  { apply step_pair. intros r p' Hr. eapply step_acquire; [|exact Hr].
    apply demo_fresh. vm_compute. reflexivity. }
  apply (rtc_l _ _ demo_p4).
  { apply step_pair. intros r p' Hr. eapply step_acquire; [|exact Hr].
    apply demo_fresh. vm_compute. reflexivity. }
  apply (rtc_l _ _ demo_p5).
  { apply step_pair. intros r p' Hr. eapply step_ignore. exact Hr. }
  apply (rtc_l _ _ demo_p6); [|apply rtc_refl].
  apply step_disconnect. apply (bool_decide_eq_true (known demo_p5 1)). vm_compute. reflexivity.
Qed.

Lemma reachable_pool_inv_witness :
  rtc pool_step pool_init demo_p6 ∧ busy demo_p6 0 [10; 11] ∧ pool_inv demo_p6.
Proof.
  split; [exact demo_reachable|]. split; [vm_compute; reflexivity|].
  exact (proj1 (reachable_pool_inv demo_p6 demo_reachable)).
Defined.

Lemma check_timeouts_hands_back_witness :
  pool_inv demo_p6 ∧ (check_timeouts 700000000 demo_p6).1 = Ok [10] ∧
  ∃ lost p', check_timeouts 700000000 demo_p6 = (Ok lost, p') ∧ pool_inv p' ∧
    _rpc p' = _rpc demo_p6 ++
      (Quit <$> filter (λ s, expired 700000000 demo_p6 s) (pd_keys (_worker demo_p6))).
Proof.
  split; [exact (rtc_pool_inv _ demo_reachable)|]. split; [vm_compute; reflexivity|].
  destruct (check_timeouts_hands_back 700000000 demo_p6 (rtc_pool_inv _ demo_reachable))
    as (lost & p' & Hr & Hi & _ & _ & _ & Hm).
  exists lost, p'. exact (conj Hr (conj Hi Hm)).
Defined.

Lemma check_connections_hands_back_witness :
  pool_inv demo_p6 ∧ (check_connections demo_p6).1 = Ok [12] ∧
  ∃ lost p', check_connections demo_p6 = (Ok lost, p') ∧ pool_inv p' ∧ NoDup lost.
Proof.
  split; [exact (rtc_pool_inv _ demo_reachable)|]. split; [vm_compute; reflexivity|].
  destruct (check_connections_hands_back demo_p6 (rtc_pool_inv _ demo_reachable))
    as (lost & p' & Hr & Hi & _ & _ & Hn).
  exists lost, p'. exact (conj Hr (conj Hi Hn)).
Defined.

Lemma acquire_worker_assigns_witness :
  let p := (release_worker 0 demo_p6).2 in
  pool_inv p ∧ fresh p [11; 13] ∧
  (acquire_worker [11; 13] 800000000 5 (Ok tt) p).1 = Ok (Some 0%Z) ∧
  ∃ r p', acquire_worker [11; 13] 800000000 5 (Ok tt) p = (Ok r, p') ∧ pool_inv p'.
Proof.
  assert (pool_inv (release_worker 0 demo_p6).2) as Hi.
  { eapply pool_step_inv; [|exact (rtc_pool_inv _ demo_reachable)].
    apply step_pair. intros r p' Hr. eapply step_release. exact Hr. }
  assert (fresh (release_worker 0 demo_p6).2 [11; 13]) as Hf
    by (apply demo_fresh; vm_compute; reflexivity).
  split; [exact Hi|]. split; [exact Hf|]. split; [vm_compute; reflexivity|].
  destruct (acquire_worker_assigns [11; 13] 800000000 5 _ Hi Hf) as (r & p' & Hr & Hi' & _).
  exists r, p'. exact (conj Hr Hi').
Defined.
