(* ===== verification/PyFloat.v ===== *)
(** * Python floats

    A float is an IEEE 754 binary64 number, computed with the Standard
    Library's specification of floating-point arithmetic (round to nearest,
    ties to even), which is executable and axiom-free. *)

From S2P Require Import Prelude.
From Stdlib Require Import SpecFloat.

Definition float : Type := spec_float.

Definition prec : Z := 53.
Definition emax : Z := 1024.

Definition fadd : float → float → float := SFadd prec emax.
Definition fsub : float → float → float := SFsub prec emax.
Definition fmul : float → float → float := SFmul prec emax.
Definition fdiv : float → float → float := SFdiv prec emax.
Definition fopp : float → float := SFopp.
Definition fltb : float → float → bool := SFltb.
Definition fleb : float → float → bool := SFleb.
Definition feqb : float → float → bool := SFeqb.

(** [float(n)] *)
Definition of_Z (n : Z) : float := binary_normalize prec emax n 0 false.

(** The literal [n/d], correctly rounded when [n] and [d] are exact. *)
Definition of_Q (n : Z) (d : positive) : float := fdiv (of_Z n) (of_Z (Zpos d)).

Definition f0 : float := S754_zero false.
Definition f1 : float := of_Z 1.

(** [x / y] *)
Definition fdiv_py (x y : float) : res float :=
  if feqb y f0 then Raise ZeroDivisionError else Ok (fdiv x y).

(** [max(x, y)] returns the first argument unless the second is greater. *)
Definition fmax (x y : float) : float := if fltb x y then y else x.

(** [min(x, y)] *)
Definition fmin (x y : float) : float := if fltb y x then y else x.

#[export] Instance float_eq_dec : EqDecision float.
Proof. unfold float. solve_decision. Defined.

(** ** Comparison

    On floats that are not NaN, the comparison is the lexicographic order of
    a key, hence a strict weak order; [-0.0] and [0.0] are the only two
    distinct floats with the same key. *)

Definition is_nan (x : float) : bool := match x with S754_nan => true | _ => false end.

Definition fkey (x : float) : Z * Z * Z :=
  match x with
  | S754_zero _ | S754_nan => (0, 0, 0)
  | S754_infinity false => (2, 0, 0)
  | S754_infinity true => (-2, 0, 0)
  | S754_finite false m e => (1, e, Zpos m)
  | S754_finite true m e => (-1, - e, Zneg m)
  end%Z.

Definition key_lt3 (a b : Z * Z * Z) : Prop :=
  (a.1.1 < b.1.1 ∨ a.1.1 = b.1.1 ∧ (a.1.2 < b.1.2 ∨ a.1.2 = b.1.2 ∧ a.2 < b.2))%Z.

Lemma fltb_key x y :
  is_nan x = false → is_nan y = false → fltb x y = true ↔ key_lt3 (fkey x) (fkey y).
Proof.
  unfold fltb, SFltb, key_lt3.
  destruct x as [sx|[]| |[] mx ex], y as [sy|[]| |[] my ey]; try done; intros _ _; simpl;
    try (split; [done|lia]); try (split; [lia|done]).
  - destruct (Z.compare_spec ex ey) as [->|Hl|Hl]; [|split; [done|lia]|split; [lia|done]].
    change (Pcompare mx my Eq) with (Pos.compare mx my).
    destruct (Pos.compare_spec mx my) as [->|Hm|Hm]; simpl; split; try done; lia.
  - destruct (Z.compare_spec ex ey) as [->|Hl|Hl]; [|split; [lia|done]|split; [done|lia]].
    change (Pcompare mx my Eq) with (Pos.compare mx my).
    destruct (Pos.compare_spec mx my) as [->|Hm|Hm]; simpl; split; try done; lia.
Qed.

Lemma fleb_key x y :
  is_nan x = false → is_nan y = false → fleb x y = true ↔ ¬ key_lt3 (fkey y) (fkey x).
Proof.
  unfold fleb, SFleb, key_lt3.
  destruct x as [sx|[]| |[] mx ex], y as [sy|[]| |[] my ey]; try done; intros _ _; simpl;
    try (split; [done|lia]); try (split; [lia|done]).
  - destruct (Z.compare_spec ex ey) as [->|Hl|Hl]; [|split; [done|lia]|split; [lia|done]].
    change (Pcompare mx my Eq) with (Pos.compare mx my).
    destruct (Pos.compare_spec mx my) as [->|Hm|Hm]; simpl; split; try done; lia.
  - destruct (Z.compare_spec ex ey) as [->|Hl|Hl]; [|split; [lia|done]|split; [done|lia]].
    change (Pcompare mx my Eq) with (Pos.compare mx my).
    destruct (Pos.compare_spec mx my) as [->|Hm|Hm]; simpl; split; try done; lia.
Qed.

Lemma key_lt3_trans a b c : key_lt3 a b → key_lt3 b c → key_lt3 a c.
Proof. unfold key_lt3. lia. Qed.

Lemma fleb_total x y :
  is_nan x = false → is_nan y = false → fleb x y = true ∨ fleb y x = true.
Proof. intros Hx Hy. rewrite !fleb_key by done. unfold key_lt3. lia. Qed.

Lemma fleb_trans x y z :
  is_nan x = false → is_nan y = false → is_nan z = false →
  fleb x y = true → fleb y z = true → fleb x z = true.
Proof. intros Hx Hy Hz. rewrite !fleb_key by done. unfold key_lt3. lia. Qed.

Lemma fltb_negb_fleb x y :
  is_nan x = false → is_nan y = false → fltb x y = negb (fleb y x).
Proof.
  intros Hx Hy. apply eq_true_iff_eq. rewrite negb_true_iff, <- not_true_iff_false.
  rewrite fltb_key, fleb_key by done. unfold key_lt3. lia.
Qed.

(** ** Floats that are not negative

    Without NaN and [-0.0] the comparison decides equality, so that [max] is
    commutative, associative and has [0.0] as its unit. *)

Definition nonneg (x : float) : bool :=
  match x with
  | S754_zero s | S754_infinity s | S754_finite s _ _ => negb s
  | S754_nan => false
  end.

Lemma nonneg_not_nan x : nonneg x = true → is_nan x = false.
Proof. by destruct x. Qed.

Lemma nonneg_key_inj x y : nonneg x = true → nonneg y = true → fkey x = fkey y → x = y.
Proof.
  destruct x as [[]|[]| |[] mx ex], y as [[]|[]| |[] my ey]; intros ?? Hk; try done.
  by injection Hk as -> ->.
Qed.

Lemma feqb_nonneg x y : nonneg x = true → nonneg y = true → feqb x y = true ↔ x = y.
Proof.
  intros Hx Hy. transitivity (fltb x y = false ∧ fltb y x = false).
  - rewrite !fltb_negb_fleb, !negb_false_iff by by apply nonneg_not_nan.
    unfold feqb, fleb, SFeqb, SFleb.
    destruct x as [[]|[]| |[] mx ex], y as [[]|[]| |[] my ey]; try done; simpl; try tauto;
      try (split; [done|by intros []]).
    rewrite (Z.compare_antisym ex ey). destruct (ex ?= ey)%Z; simpl; try (split; [done|by intros []]).
    change (Pos.compare_cont Eq my mx) with (my ?= mx)%positive.
    change (Pos.compare_cont Eq mx my) with (mx ?= my)%positive.
    rewrite (Pos.compare_antisym mx my).
    destruct (mx ?= my)%positive; simpl; try (split; [done|by intros []]); tauto.
  - rewrite <- !not_true_iff_false, !fltb_key by by apply nonneg_not_nan. split.
    + intros [H1 H2]. apply nonneg_key_inj; [done|done|].
      destruct (fkey x) as [[a b] c], (fkey y) as [[a' b'] c']. unfold key_lt3 in *; simpl in *.
      repeat f_equal; lia.
    + intros ->. unfold key_lt3. lia.
Qed.

Lemma feqb_refl x : nonneg x = true → feqb x x = true.
Proof. intros Hx. by apply feqb_nonneg. Qed.

Lemma fmax_nonneg x y : nonneg x = true → nonneg y = true → nonneg (fmax x y) = true.
Proof. intros Hx Hy. unfold fmax. by destruct (fltb x y). Qed.

Lemma fmax_spec x y :
  nonneg x = true → nonneg y = true →
  fmax x y = y ∧ ¬ key_lt3 (fkey y) (fkey x) ∨ fmax x y = x ∧ ¬ key_lt3 (fkey x) (fkey y).
Proof.
  intros Hx Hy. unfold fmax. destruct (fltb x y) eqn:Hlt.
  - left. apply fltb_key in Hlt; [|by apply nonneg_not_nan..]. split; [done|].
    unfold key_lt3 in *. lia.
  - right. split; [done|]. rewrite <- fltb_key by by apply nonneg_not_nan. by rewrite Hlt.
Qed.

Lemma nonneg_antisym x y :
  nonneg x = true → nonneg y = true →
  ¬ key_lt3 (fkey x) (fkey y) → ¬ key_lt3 (fkey y) (fkey x) → x = y.
Proof.
  intros Hx Hy H1 H2. apply nonneg_key_inj; [done|done|].
  destruct (fkey x) as [[a b] c], (fkey y) as [[a' b'] c']. unfold key_lt3 in *; simpl in *.
  repeat f_equal; lia.
Qed.

Lemma key_ge_trans a b c : ¬ key_lt3 b a → ¬ key_lt3 c b → ¬ key_lt3 c a.
Proof. unfold key_lt3. lia. Qed.

Lemma fmax_comm x y : nonneg x = true → nonneg y = true → fmax x y = fmax y x.
Proof.
  intros Hx Hy. destruct (fmax_spec x y Hx Hy) as [[-> H1]|[-> H1]],
    (fmax_spec y x Hy Hx) as [[-> H2]|[-> H2]]; try done; by apply nonneg_antisym.
Qed.

Lemma fmax_assoc x y z :
  nonneg x = true → nonneg y = true → nonneg z = true → fmax x (fmax y z) = fmax (fmax x y) z.
Proof.
  intros Hx Hy Hz.
  destruct (fmax_spec y z Hy Hz) as [[E1 H1]|[E1 H1]], (fmax_spec x y Hx Hy) as [[E2 H2]|[E2 H2]];
    rewrite E1, E2; rewrite ?E1, ?E2; try done.
  - destruct (fmax_spec x z Hx Hz) as [[-> H3]|[-> H3]]; [done|].
    apply nonneg_antisym; eauto using key_ge_trans.
  - destruct (fmax_spec x z Hx Hz) as [[-> H3]|[-> H3]]; [|done].
    apply nonneg_antisym; eauto using key_ge_trans.
Qed.

Lemma fmax_f0_r x : nonneg x = true → fmax x f0 = x.
Proof. intros Hx. unfold fmax. by destruct x as [[]|[]| |[] ??]. Qed.

Lemma fmax_f0_l x : nonneg x = true → fmax f0 x = x.
Proof. intros Hx. rewrite fmax_comm by done. by apply fmax_f0_r. Qed.

Lemma shr_1_nonneg r : (0 <= shr_m r)%Z → (0 <= shr_m (shr_1 r))%Z.
Proof. destruct r as [[|[p|p|]|p] r s]; simpl; lia. Qed.

Lemma iter_pos_inv {A} (f : A → A) (P : A → Prop) n x : (∀ y, P y → P (f y)) → P x → P (iter_pos f n x).
Proof. intros Hf. revert x. induction n as [n IH|n IH|]; intros x Hx; simpl; auto. Qed.

Lemma shr_fexp_nonneg m e l : (0 <= m)%Z → (0 <= shr_m (shr_fexp prec emax m e l).1)%Z.
Proof.
  intros Hm. unfold shr_fexp, shr.
  assert (0 <= shr_m (shr_record_of_loc m l))%Z by by destruct l as [|[]].
  destruct (_ - e)%Z; simpl; [done| |done].
  apply (iter_pos_inv _ (λ r, 0 <= shr_m r)%Z); [apply shr_1_nonneg|done].
Qed.

Lemma binary_round_aux_nonneg m e l :
  (0 <= m)%Z → nonneg (binary_round_aux prec emax false m e l) = true.
Proof.
  intros Hm. unfold binary_round_aux.
  pose proof (shr_fexp_nonneg m e l Hm) as H1. destruct (shr_fexp prec emax m e l) as [r1 e1].
  assert (0 <= round_nearest_even (shr_m r1) (loc_of_shr_record r1))%Z as H2.
  { simpl in H1. unfold round_nearest_even.
    destruct (loc_of_shr_record r1) as [|[]]; [done| |done|lia]. case_match; lia. }
  pose proof (shr_fexp_nonneg _ e1 loc_Exact H2) as H3.
  destruct (shr_fexp prec emax (round_nearest_even _ _) e1 loc_Exact) as [r2 e2]. simpl in H3.
  destruct (shr_m r2); [done| |lia]. by case_match.
Qed.

Lemma fadd_nonneg x y : nonneg x = true → nonneg y = true → nonneg (fadd x y) = true.
Proof.
  intros Hx Hy. unfold fadd, SFadd.
  destruct x as [[]|[]| |[] mx ex], y as [[]|[]| |[] my ey]; try done.
  unfold cond_Zopp. rewrite <- Pos2Z.inj_add. simpl. unfold binary_round.
  destruct (shl_align _ _ _). by apply binary_round_aux_nonneg.
Qed.

(** The greatest of a list, and its sum. *)
Definition fmaxs (l : list float) : float := foldr fmax f0 l.

Lemma fmaxs_nonneg l : Forall (λ x, nonneg x = true) l → nonneg (fmaxs l) = true.
Proof. induction 1; simpl; [done|]. by apply fmax_nonneg. Qed.

Lemma foldl_fmax x l :
  nonneg x = true → Forall (λ x, nonneg x = true) l → foldl fmax x l = fmax x (fmaxs l).
Proof.
  intros Hx Hl. revert x Hx. induction Hl as [|y l Hy Hl IH]; intros x Hx; simpl.
  - by rewrite fmax_f0_r.
  - rewrite IH by by apply fmax_nonneg. rewrite fmax_assoc; [done..|]. by apply fmaxs_nonneg.
Qed.

Lemma fmaxs_Permutation l1 l2 :
  Forall (λ x, nonneg x = true) l1 → l1 ≡ₚ l2 → fmaxs l1 = fmaxs l2.
Proof.
  intros Hl Hp. induction Hp as [|x l1 l2 Hp IH|x y l|l1 l2 l3 Hp1 IH1 Hp2 IH2]; simpl.
  - done.
  - apply Forall_cons in Hl as [_ Hl]. by rewrite IH.
  - apply Forall_cons in Hl as [Hy Hl]. apply Forall_cons in Hl as [Hx Hl].
    apply fmaxs_nonneg in Hl. rewrite !fmax_assoc by done. by rewrite (fmax_comm y x).
  - rewrite IH1 by done. apply IH2. by rewrite <- Hp1.
Qed.

Lemma fmaxs_zeros l1 l2 :
  Forall (λ x, nonneg x = true) l1 → Forall (λ x, x = f0) l2 → fmaxs (l1 ++ l2) = fmaxs l1.
Proof.
  intros H1 H2. unfold fmaxs. rewrite foldr_app. f_equal.
  induction H2 as [|x l -> _ IH]; [done|]. simpl. by rewrite IH.
Qed.

Lemma fmax_fmaxs x l :
  Forall (λ x, nonneg x = true) l → x ∈ f0 :: l → fmax x (fmaxs l) = fmaxs l.
Proof.
  intros Hl [->|Hx]%elem_of_cons; [by apply fmax_f0_l, fmaxs_nonneg|].
  induction Hl as [|y l Hy Hl IH]; [by apply elem_of_nil in Hx|]. simpl. pose proof (fmaxs_nonneg _ Hl) as Hm.
  apply elem_of_cons in Hx as [->|Hx].
  - rewrite fmax_assoc by done. f_equal. unfold fmax. by destruct (fltb y y).
  - assert (nonneg x = true) as Hn by by eapply Forall_forall in Hl.
    rewrite fmax_assoc, (fmax_comm x y), <- fmax_assoc, IH by done. done.
Qed.

Lemma fmaxs_sub l1 l2 :
  Forall (λ x, nonneg x = true) l1 → Forall (λ x, nonneg x = true) l2 → (∀ x, x ∈ l1 → x ∈ f0 :: l2) →
  fmax (fmaxs l1) (fmaxs l2) = fmaxs l2.
Proof.
  intros H1 H2. induction H1 as [|x l Hx Hl IH]; intros Hs; simpl; [by apply fmax_f0_l, fmaxs_nonneg|].
  rewrite <- fmax_assoc by auto using fmaxs_nonneg. rewrite IH by (intros; apply Hs; by right).
  apply fmax_fmaxs; [done|]. apply Hs. by left.
Qed.

(** The greatest element depends on the set of elements only, without the
    zeros. *)
Lemma fmaxs_same l1 l2 :
  Forall (λ x, nonneg x = true) l1 → Forall (λ x, nonneg x = true) l2 →
  (∀ x, x ∈ l1 → x ∈ f0 :: l2) → (∀ x, x ∈ l2 → x ∈ f0 :: l1) → fmaxs l1 = fmaxs l2.
Proof.
  intros H1 H2 S1 S2. rewrite <- (fmaxs_sub l2 l1), fmax_comm, fmaxs_sub by auto using fmaxs_nonneg. done.
Qed.

Lemma foldl_fadd_nonneg x l :
  nonneg x = true → Forall (λ x, nonneg x = true) l → nonneg (foldl fadd x l) = true.
Proof.
  intros Hx Hl. revert x Hx. induction Hl as [|y l Hy Hl IH]; intros x Hx; simpl; [done|].
  by apply IH, fadd_nonneg.
Qed.

(** [math.ceil(x)] *)
Definition fceil (x : float) : res Z :=
  match x with
  | S754_zero _ => Ok 0%Z
  | S754_infinity _ => Raise (UserError "OverflowError")
  | S754_nan => Raise ValueError
  | S754_finite s m e =>
      let n := if s then Zneg m else Zpos m in
      Ok (if (0 <=? e)%Z then n * 2 ^ e else - ((- n) / 2 ^ (- e)))%Z
  end.

Example literal_0_1 : of_Q 1 10 = S754_finite false 7205759403792794 (-56).
Proof. vm_compute. reflexivity. Qed.

Example add_0_1_0_2 : feqb (fadd (of_Q 1 10) (of_Q 2 10)) (of_Q 3 10) = false.
Proof. vm_compute. reflexivity. Qed.
