(* ===== verification/FloatOrder.v ===== *)
(** * Rounding is monotone

    The sum and the product of floats that are not negative, as functions of
    their operands: each is the exact value, rounded by one monotone function
    [rounded] to the values that floats have. Hence sums and products grow
    with their operands, [0.0] and [1.0] are neutral, and a value that
    is representable is not changed. Values are integers, in units of
    [2 ^ -K]: no product of two floats needs a smaller unit. *)

From S2P Require Import Prelude PyFloat.
From Stdlib Require Import SpecFloat.

Local Open Scope Z_scope.

Definition K : Z := 3000.
Definition top : Z := 2 ^ (1024 + K).

(** The value of a mantissa and an exponent. *)
Definition scaled (m e : Z) : Z := m * 2 ^ (e + K).

(** [m / 2^n] to the nearest integer, ties to even. *)
Definition rne (m n : Z) : Z :=
  let q := m / 2 ^ n in
  let r := m mod 2 ^ n in
  if 2 * r <? 2 ^ n then q
  else if 2 * r =? 2 ^ n then (if Z.even q then q else q + 1) else q + 1.

(** The weight of the last bit of the mantissa that represents [v]. *)
Definition unit_of (v : Z) : Z := Z.max (Z.log2 v - 52) (K - 1074).

Definition rounded (v : Z) : Z := if v <=? 0 then 0 else rne v (unit_of v) * 2 ^ unit_of v.

(** The mantissas and exponents of finite floats. *)
Definition canon (m e : Z) : Prop :=
  -1074 ≤ e ≤ 971 ∧ 0 < m < 2 ^ 53 ∧ (e = -1074 ∨ 2 ^ 52 ≤ m).

(** The float is the result of rounding to [v]; everything from [top] on is
    infinite. *)
Definition denotes (x : float) (v : Z) : Prop :=
  match x with
  | S754_zero false => v = 0
  | S754_finite false m e => canon (Zpos m) e ∧ v = scaled (Zpos m) e
  | S754_infinity false => top ≤ v
  | _ => False
  end.

Definition finite (x : float) : bool :=
  match x with S754_zero _ | S754_finite _ _ _ => true | _ => false end.

(** ** Powers of two *)

Lemma pow2_pos n : 0 ≤ n → 0 < 2 ^ n.
Proof. intros. by apply Z.pow_pos_nonneg. Qed.

Lemma pow2_split a b : 0 ≤ a → 0 ≤ b → 2 ^ (a + b) = 2 ^ a * 2 ^ b.
Proof. intros. by apply Z.pow_add_r. Qed.

Lemma pow2_le a b : a ≤ b → 2 ^ a ≤ 2 ^ b.
Proof. intros. apply Z.pow_le_mono_r; lia. Qed.

(** ** Rounding to the nearest integer *)

Lemma rne_spec m n :
  0 ≤ n →
  2 * rne m n * 2 ^ n ≤ 2 * m + 2 ^ n ∧ 2 * m ≤ 2 * rne m n * 2 ^ n + 2 ^ n ∧
  (2 * rne m n * 2 ^ n = 2 * m + 2 ^ n ∨ 2 * m = 2 * rne m n * 2 ^ n + 2 ^ n →
   Z.even (rne m n) = true).
Proof.
  intros Hn. pose proof (pow2_pos n Hn) as Hp. unfold rne.
  pose proof (Z.div_mod m (2 ^ n) ltac:(lia)) as Hd.
  pose proof (Z.mod_pos_bound m (2 ^ n) Hp) as Hr.
  set (q := m / 2 ^ n) in *. set (r := m mod 2 ^ n) in *.
  destruct (Z.ltb_spec (2 * r) (2 ^ n)); [split_and!; [nia..|intros []; nia]|].
  destruct (Z.eqb_spec (2 * r) (2 ^ n)).
  - destruct (Z.even q) eqn:He; [split_and!; [nia..|done]|].
    split_and!; [nia..|]. intros _. by rewrite Z.even_add, He.
  - split_and!; [nia..|intros []; nia].
Qed.

Lemma rne_mono m1 n1 m2 n2 :
  0 ≤ n1 → 0 ≤ n2 → m1 * 2 ^ n2 ≤ m2 * 2 ^ n1 → rne m1 n1 ≤ rne m2 n2.
Proof.
  intros H1 H2 Hm. destruct (rne_spec m1 n1 H1) as (A1 & _ & A3).
  destruct (rne_spec m2 n2 H2) as (_ & B2 & B3).
  pose proof (pow2_pos n1 H1) as P1. pose proof (pow2_pos n2 H2) as P2.
  set (z1 := rne m1 n1) in *. set (z2 := rne m2 n2) in *.
  destruct (Z.le_gt_cases z1 z2) as [|Hz]; [done|exfalso].
  assert (2 * z1 - 1 ≤ 2 * z2 + 1) as Hle.
  { apply (Z.mul_le_mono_pos_r _ _ (2 ^ n1 * 2 ^ n2)); nia. }
  assert (z1 = z2 + 1) as E by lia.
  assert (Z.even z1 = true) as E1 by (apply A3; left; nia).
  assert (Z.even z2 = true) as E2 by (apply B3; right; nia).
  rewrite E, Z.even_add, E2 in E1. done.
Qed.

Lemma rne_0 m : rne m 0 = m.
Proof. unfold rne. by rewrite Z.div_1_r, Z.mod_1_r. Qed.

Lemma rne_exact z n : 0 ≤ n → rne (z * 2 ^ n) n = z.
Proof.
  intros Hn. pose proof (pow2_pos n Hn). unfold rne.
  rewrite Z.div_mul, Z.mod_mul by lia. by destruct (Z.ltb_spec (2 * 0) (2 ^ n)); [|lia].
Qed.

Lemma rne_scale m n k : 0 ≤ n → 0 ≤ k → rne (m * 2 ^ k) (n + k) = rne m n.
Proof.
  intros Hn Hk. pose proof (pow2_pos n Hn). pose proof (pow2_pos k Hk).
  apply Z.le_antisymm; apply rne_mono; try lia; rewrite pow2_split by done; nia.
Qed.

(** Bounds by powers of two are kept. *)
Lemma rne_le m n k : 0 ≤ n → 0 ≤ k → m ≤ 2 ^ (n + k) → rne m n ≤ 2 ^ k.
Proof.
  intros Hn Hk Hm. rewrite <- (rne_exact (2 ^ k) n Hn). apply rne_mono; [done..|].
  rewrite (Z.mul_comm (2 ^ k)), <- pow2_split by done. pose proof (pow2_pos n Hn). nia.
Qed.

Lemma rne_ge m n k : 0 ≤ n → 0 ≤ k → 2 ^ (n + k) ≤ m → 2 ^ k ≤ rne m n.
Proof.
  intros Hn Hk Hm. rewrite <- (rne_exact (2 ^ k) n Hn). apply rne_mono; [done..|].
  rewrite (Z.mul_comm (2 ^ k)), <- pow2_split by done. pose proof (pow2_pos n Hn). nia.
Qed.

Lemma rne_nonneg m n : 0 ≤ n → 0 ≤ m → 0 ≤ rne m n.
Proof.
  intros Hn Hm. rewrite <- (rne_exact 0 n Hn). apply rne_mono; [done..|].
  pose proof (pow2_pos n Hn). nia.
Qed.

(** ** [rounded] *)

Lemma unit_pos v : 0 < unit_of v.
Proof. unfold unit_of, K. lia. Qed.

Lemma unit_mono v w : v ≤ w → unit_of v ≤ unit_of w.
Proof. intros H. unfold unit_of. pose proof (Z.log2_le_mono v w H). lia. Qed.

Lemma rounded_nonneg v : 0 ≤ rounded v.
Proof.
  unfold rounded. destruct (Z.leb_spec v 0); [done|]. pose proof (unit_pos v).
  pose proof (rne_nonneg v (unit_of v) ltac:(lia) ltac:(lia)).
  pose proof (pow2_pos (unit_of v) ltac:(lia)). nia.
Qed.

Lemma rounded_mono v w : v ≤ w → rounded v ≤ rounded w.
Proof.
  intros Hle. unfold rounded at 1. destruct (Z.leb_spec v 0); [apply rounded_nonneg|].
  unfold rounded. destruct (Z.leb_spec w 0); [lia|].
  pose proof (unit_mono v w Hle) as Hu. pose proof (unit_pos v) as Pv. pose proof (unit_pos w) as Pw.
  pose proof (pow2_pos (unit_of v) ltac:(lia)) as Qv. pose proof (pow2_pos (unit_of w) ltac:(lia)) as Qw.
  destruct (Z.eq_dec (unit_of v) (unit_of w)) as [->|Hne].
  { apply Z.mul_le_mono_nonneg_r; [lia|]. apply rne_mono; [lia..|]. nia. }
  pose proof (Z.log2_spec v ltac:(lia)) as [_ Lv]. pose proof (Z.log2_spec w ltac:(lia)) as [Lw _].
  assert (unit_of w = Z.log2 w - 52) as Ew by (unfold unit_of in *; lia).
  assert (Z.log2 v < unit_of v + 53) as Ev by (unfold unit_of; lia).
  assert (rne v (unit_of v) ≤ 2 ^ 53) as H1.
  { apply rne_le; [lia..|]. pose proof (pow2_le (Z.succ (Z.log2 v)) (unit_of v + 53) ltac:(lia)). lia. }
  assert (2 ^ 52 ≤ rne w (unit_of w)) as H2.
  { apply rne_ge; [lia..|]. replace (unit_of w + 52) with (Z.log2 w) by lia. done. }
  pose proof (pow2_le (unit_of v + 1) (unit_of w) ltac:(lia)) as H3.
  rewrite pow2_split in H3 by lia. nia.
Qed.

Lemma canon_unit m e : canon m e → unit_of (scaled m e) = e + K.
Proof.
  intros (He & Hm & Hc). unfold unit_of, scaled, K in *.
  rewrite Z.log2_mul_pow2 by lia.
  assert (Z.log2 m < 53) by (apply Z.log2_lt_pow2; lia).
  destruct Hc as [->|Hc]; [lia|]. assert (52 ≤ Z.log2 m) by (apply Z.log2_le_pow2; lia). lia.
Qed.

Lemma rounded_exact m e : canon m e → rounded (scaled m e) = scaled m e.
Proof.
  intros Hc. unfold rounded. rewrite canon_unit by done. destruct Hc as (He & Hm & _).
  unfold scaled, K in *. pose proof (pow2_pos (e + 3000) ltac:(lia)).
  destruct (Z.leb_spec (m * 2 ^ (e + 3000)) 0); [nia|]. by rewrite rne_exact by lia.
Qed.

(** ** The rounding of the Standard Library *)

(** The record is [m / 2^n] with its round and sticky bits. *)
Definition shr_ok (m n : Z) (r : shr_record) : Prop :=
  shr_m r = m / 2 ^ n ∧
  (shr_r r = true ↔ 2 ^ n ≤ 2 * (m mod 2 ^ n)) ∧
  (shr_s r = true ↔ m mod 2 ^ n ≠ 0 ∧ 2 * (m mod 2 ^ n) ≠ 2 ^ n).

Lemma shr_1_eq q r s :
  0 ≤ q → shr_1 (Build_shr_record q r s) = Build_shr_record (q / 2) (Z.odd q) (r || s).
Proof.
  intros Hq. destruct q as [|[p|p|]|p]; [done|simpl|simpl|done|lia].
  - by rewrite (Pos2Z.inj_xI p), Z.add_comm, Z.mul_comm, Z.div_add by done.
  - by rewrite (Pos2Z.inj_xO p), Z.mul_comm, Z.div_mul by done.
Qed.

Lemma shr_1_ok m n r : 0 ≤ m → 0 ≤ n → shr_ok m n r → shr_ok m (n + 1) (shr_1 r).
Proof.
  intros Hm Hn (H1 & H2 & H3). destruct r as [q r s]. cbn [shr_m shr_r shr_s] in *. subst q.
  pose proof (pow2_pos n Hn) as Hp.
  pose proof (Z.div_mod m (2 ^ n) ltac:(lia)) as Hd.
  pose proof (Z.mod_pos_bound m (2 ^ n) Hp) as Hr.
  pose proof (Z.div_pos m (2 ^ n) Hm Hp) as Hq.
  rewrite shr_1_eq by done.
  set (q := m / 2 ^ n) in *. set (t := m mod 2 ^ n) in *.
  pose proof (Z.div_mod q 2 ltac:(lia)) as Hq2. rewrite Zmod_odd in Hq2.
  assert (2 ^ (n + 1) = 2 * 2 ^ n) as Hpow by (rewrite pow2_split by lia; lia).
  assert (m / 2 ^ (n + 1) = q / 2) as Ed.
  { rewrite Hpow, Z.mul_comm, <- Z.div_div by lia. done. }
  assert (m mod 2 ^ (n + 1) = t + (if Z.odd q then 1 else 0) * 2 ^ n) as Em.
  { rewrite Z.mod_eq, Ed, Hpow by (rewrite Hpow; lia). nia. }
  unfold shr_ok. simpl. rewrite Ed, Em, Hpow. split; [done|].
  rewrite orb_true_iff, H2, H3. destruct (Z.odd q); split; split; intros; try nia; try done.
Qed.

Lemma iter_shr_ok m n r p :
  0 ≤ m → 0 ≤ n → shr_ok m n r → shr_ok m (n + Zpos p) (iter_pos shr_1 p r).
Proof.
  intros Hm. revert n r. induction p as [p IH|p IH|]; intros n r Hn Hr; simpl.
  - replace (n + Zpos p~1) with (n + 1 + Zpos p + Zpos p) by lia.
    apply IH; [lia|]. apply IH; [lia|]. by apply shr_1_ok.
  - replace (n + Zpos p~0) with (n + Zpos p + Zpos p) by lia.
    apply IH; [lia|]. by apply IH.
  - by apply shr_1_ok.
Qed.

Lemma shr_ok_rne m n r :
  0 ≤ n → shr_ok m n r → round_nearest_even (shr_m r) (loc_of_shr_record r) = rne m n.
Proof.
  intros Hn (H1 & H2 & H3). pose proof (pow2_pos n Hn) as Hp.
  pose proof (Z.mod_pos_bound m (2 ^ n) Hp) as Hr.
  destruct r as [q r s]; simpl in *. unfold rne. subst q.
  set (t := m mod 2 ^ n) in *. set (q := m / 2 ^ n) in *.
  destruct (Z.ltb_spec (2 * t) (2 ^ n)), (Z.eqb_spec (2 * t) (2 ^ n)), r, s; simpl; try done; exfalso;
    first [lia
          |assert (2 ^ n ≤ 2 * t) by (by apply H2); lia
          |assert (t ≠ 0 ∧ 2 * t ≠ 2 ^ n) by (by apply H3); lia
          |discriminate (proj2 H2 ltac:(lia))
          |discriminate (proj2 H3 ltac:(lia))].
Qed.

Lemma digits_log2 m : Zpos (digits2_pos m) = Z.log2 (Zpos m) + 1.
Proof.
  assert (∀ p, digits2_pos p = Pos.size p) as E by (induction p; simpl; congruence).
  rewrite E. destruct m; simpl; lia.
Qed.

Lemma fexp_eq e : fexp prec emax e = Z.max (e - 53) (-1074).
Proof. done. Qed.

Lemma shr_fexp_eq m e n :
  0 < m → fexp prec emax (Z.log2 m + 1 + e) = e + n → 0 ≤ n →
  ∃ r, shr_fexp prec emax m e loc_Exact = (r, e + n) ∧ shr_ok m n r.
Proof.
  intros Hm Hf Hn. unfold shr_fexp.
  assert (Zdigits2 m = Z.log2 m + 1) as -> by (destruct m; [lia|apply digits_log2|lia]).
  rewrite Hf. replace (e + n - e) with n by lia.
  assert (shr_ok m 0 (Build_shr_record m false false)) as H0.
  { unfold shr_ok. simpl. rewrite Z.div_1_r, Z.mod_1_r. split_and!; [done|split; [done|lia]..]. }
  destruct n as [|p|p]; simpl.
  - eexists. split; [|exact H0]. by rewrite Z.add_0_r.
  - eexists. split; [done|]. apply (iter_shr_ok m 0); [lia|done|done].
  - lia.
Qed.

(** A mantissa that fits is left alone; a mantissa of [2^53] is halved. *)
Lemma shr_fexp_fits z e :
  0 ≤ z < 2 ^ 53 → -1074 ≤ e →
  shr_fexp prec emax z e loc_Exact = (Build_shr_record z false false, e).
Proof.
  intros Hz He. unfold shr_fexp, shr. rewrite fexp_eq.
  assert (Zdigits2 z ≤ 53) as Hd.
  { destruct (Z.eq_dec z 0) as [->|]; [done|].
    assert (Zdigits2 z = Z.log2 z + 1) as -> by (destruct z; [lia|apply digits_log2|lia]).
    assert (Z.log2 z < 53) by (apply Z.log2_lt_pow2; lia). lia. }
  destruct (Z.max (Zdigits2 z + e - 53) (-1074) - e) eqn:E; [done|lia|done].
Qed.

Lemma shr_fexp_carry e :
  -1074 ≤ e →
  shr_fexp prec emax (2 ^ 53) e loc_Exact = (Build_shr_record (2 ^ 52) false false, e + 1).
Proof.
  intros He. unfold shr_fexp. rewrite fexp_eq.
  change (Zdigits2 (2 ^ 53)) with 54. replace (Z.max (54 + e - 53) (-1074) - e) with 1 by lia. done.
Qed.

Lemma scaled_eq m e n : 0 ≤ n → 0 ≤ e + K → scaled m (e + n) = m * 2 ^ n * 2 ^ (e + K).
Proof.
  intros Hn He. unfold scaled. replace (e + n + K) with (n + (e + K)) by lia.
  rewrite pow2_split by lia. lia.
Qed.

(** A rounded mantissa as a float. *)
Lemma denotes_mantissa z e :
  0 ≤ z ≤ 2 ^ 53 → -1074 ≤ e → e = -1074 ∨ 2 ^ 52 ≤ z →
  denotes (let '(mrs, e') := shr_fexp prec emax z e loc_Exact in
           match shr_m mrs with
           | Z0 => S754_zero false
           | Zpos m => if Z.leb e' (Z.sub emax prec) then S754_finite false m e' else S754_infinity false
           | _ => S754_nan
           end) (scaled z e).
Proof.
  intros Hz He Hc. destruct (Z.eq_dec z (2 ^ 53)) as [->|Hne].
  - rewrite shr_fexp_carry by done. cbn -[Z.pow Z.sub]. change (2 ^ 52) with (Zpos (2 ^ 52)).
    cbv beta iota. change (Z.sub emax prec) with 971.
    assert (scaled (2 ^ 53) e = scaled (2 ^ 52) (e + 1)) as ->.
    { rewrite scaled_eq by (unfold K; lia). unfold scaled. lia. }
    destruct (Z.leb_spec (e + 1) 971); simpl.
    + split; [|done]. unfold canon. lia.
    + unfold top, scaled. change (Zpos (2 ^ 52)) with (2 ^ 52). rewrite <- pow2_split by (unfold K; lia).
      apply pow2_le. lia.
  - rewrite shr_fexp_fits by lia. cbn -[Z.pow Z.sub]. change (Z.sub emax prec) with 971.
    destruct z as [|m|m]; [done| |lia]. destruct (Z.leb_spec e 971); simpl.
    + split; [|done]. unfold canon. lia.
    + unfold top, scaled. assert (2 ^ 52 ≤ Zpos m) by lia.
      pose proof (pow2_le (1024 + K) (52 + (e + K)) ltac:(lia)) as Hp.
      rewrite (pow2_split 52) in Hp by (unfold K; lia). pose proof (pow2_pos (e + K) ltac:(unfold K; lia)).
      transitivity (2 ^ 52 * 2 ^ (e + K)); [done|]. apply Z.mul_le_mono_nonneg_r; lia.
Qed.

Lemma round_aux_denotes m e :
  - K ≤ e → e ≤ fexp prec emax (Z.log2 (Zpos m) + 1 + e) →
  denotes (binary_round_aux prec emax false (Zpos m) e loc_Exact) (rounded (scaled (Zpos m) e)).
Proof.
  intros He Hf. set (n := fexp prec emax (Z.log2 (Zpos m) + 1 + e) - e).
  destruct (shr_fexp_eq (Zpos m) e n) as (r & Hr & Hok); [lia|lia|lia|].
  unfold binary_round_aux. rewrite Hr, (shr_ok_rne (Zpos m) n r) by (lia || done).
  assert (e + n = Z.max (Z.log2 (Zpos m) + 1 + e - 53) (-1074)) as En by (unfold n; rewrite fexp_eq; lia).
  assert (unit_of (scaled (Zpos m) e) = e + n + K) as Eu.
  { unfold unit_of, scaled. rewrite Z.log2_mul_pow2 by lia. unfold K in *. lia. }
  assert (rounded (scaled (Zpos m) e) = scaled (rne (Zpos m) n) (e + n)) as ->.
  { unfold rounded. rewrite Eu. unfold scaled at 1 2.
    pose proof (pow2_pos (e + K) ltac:(lia)). destruct (Z.leb_spec (Zpos m * 2 ^ (e + K)) 0); [lia|].
    replace (e + n + K) with (n + (e + K)) at 1 by lia. rewrite rne_scale by (unfold n; lia). done. }
  pose proof (Z.log2_spec (Zpos m) ltac:(lia)) as [L1 L2].
  apply denotes_mantissa; [split| |].
  - apply rne_nonneg; lia.
  - apply rne_le; [lia..|]. pose proof (pow2_le (Z.succ (Z.log2 (Zpos m))) (n + 53) ltac:(lia)). lia.
  - lia.
  - destruct (Z.eq_dec (e + n) (-1074)); [by left|right]. apply rne_ge; [lia..|].
    replace (n + 52) with (Z.log2 (Zpos m)) by lia. done.
Qed.

(** ** Order *)

Lemma canon_bound m e : canon m e → 0 < scaled m e < top.
Proof.
  intros (He & Hm & _). unfold scaled, top. pose proof (pow2_pos (e + K) ltac:(unfold K; lia)) as Hp.
  split; [nia|]. apply Z.lt_le_trans with (2 ^ 53 * 2 ^ (e + K)).
  - apply Z.mul_lt_mono_pos_r; lia.
  - rewrite <- pow2_split by (unfold K; lia). apply pow2_le. lia.
Qed.

Lemma canon_lt m1 e1 m2 e2 : canon m1 e1 → canon m2 e2 → e1 < e2 → scaled m1 e1 < scaled m2 e2.
Proof.
  intros (H1 & M1 & _) (H2 & M2 & C2) He. assert (2 ^ 52 ≤ m2) as M2' by lia. unfold scaled.
  pose proof (pow2_pos (e1 + K) ltac:(unfold K; lia)) as P1.
  pose proof (pow2_pos (e2 + K) ltac:(unfold K; lia)) as P2.
  apply Z.lt_le_trans with (2 ^ 53 * 2 ^ (e1 + K)); [apply Z.mul_lt_mono_pos_r; lia|].
  transitivity (2 ^ 52 * 2 ^ (e2 + K)); [|apply Z.mul_le_mono_nonneg_r; lia].
  rewrite <- !pow2_split by (unfold K; lia). apply pow2_le. lia.
Qed.

Lemma denotes_nonneg x v : denotes x v → nonneg x = true.
Proof. by destruct x as [[]|[]| |[] m e]. Qed.

Lemma top_pos : 0 < top.
Proof. unfold top, K. by apply Z.pow_pos_nonneg. Qed.

Lemma denotes_value x v : denotes x v → 0 ≤ v.
Proof.
  pose proof top_pos. destruct x as [[]|[]| |[] m e]; simpl; try done; [lia..|].
  intros [Hc ->]. pose proof (canon_bound _ _ Hc). lia.
Qed.

Lemma denotes_le x v y w : denotes x v → denotes y w → v ≤ w → fleb x y = true.
Proof.
  intros Hx Hy Hle. apply fleb_key; [by eapply nonneg_not_nan, denotes_nonneg..|]. unfold key_lt3.
  pose proof top_pos. destruct x as [[]|[]| |[] mx ex], y as [[]|[]| |[] my ey]; simpl in *; try done; try lia.
  - destruct Hy as [Hy ->]. pose proof (canon_bound _ _ Hy). lia.
  - destruct Hx as [Hx ->]. pose proof (canon_bound _ _ Hx). lia.
  - destruct Hx as [Hx ->], Hy as [Hy ->].
    intros [|(_ & [Hlt|[E Hm]])]; [lia|pose proof (canon_lt _ _ _ _ Hy Hx Hlt); lia|].
    subst ey. unfold scaled in Hle. destruct Hx as (He & _ & _).
    pose proof (pow2_pos (ex + K) ltac:(unfold K; lia)). nia.
Qed.

Lemma le_denotes x v y w :
  finite x = true → denotes x v → denotes y w → fleb x y = true → v ≤ w.
Proof.
  intros Hf Hx Hy Hle. apply fleb_key in Hle; [|by eapply nonneg_not_nan, denotes_nonneg..].
  unfold key_lt3 in Hle. pose proof (denotes_value _ _ Hy).
  destruct x as [[]|[]| |[] mx ex], y as [[]|[]| |[] my ey]; simpl in *; try done; try lia.
  - destruct Hx as [Hx ->]. pose proof (canon_bound _ _ Hx). lia.
  - destruct Hx as [Hx ->], Hy as [Hy ->]. destruct (Z.lt_trichotomy ex ey) as [Hlt|[->|Hlt]].
    + pose proof (canon_lt _ _ _ _ Hx Hy Hlt). lia.
    + unfold scaled. destruct Hx as (He & _ & _). pose proof (pow2_pos (ey + K) ltac:(unfold K; lia)). nia.
    + lia.
Qed.

(** Two floats that denote the same value are the same. *)
Lemma denotes_inj x y v : denotes x v → denotes y v → x = y.
Proof.
  intros Hx Hy. pose proof (denotes_nonneg _ _ Hx) as Nx. pose proof (denotes_nonneg _ _ Hy) as Ny.
  apply nonneg_antisym; [done|done|..]; rewrite <- fleb_key by (by apply nonneg_not_nan);
    by eapply denotes_le.
Qed.

(** ** Sums *)

Lemma iter_xO m d : Zpos (Pos.iter xO m d) = Zpos m * 2 ^ Zpos d.
Proof.
  induction d as [|d IH] using Pos.peano_ind; [simpl; lia|].
  rewrite Pos.iter_succ, Pos2Z.inj_xO, IH, Pos2Z.inj_succ, Z.pow_succ_r by lia. lia.
Qed.

Lemma align_scaled m e e' :
  e' ≤ e → - K ≤ e' →
  let '(mz, ez) := shl_align m e e' in ez = e' ∧ scaled (Zpos mz) ez = scaled (Zpos m) e.
Proof.
  intros He HK. unfold shl_align. destruct (e' - e) as [|d|d] eqn:Hd; [|lia|].
  - split; [lia|done].
  - split; [done|]. rewrite iter_xO.
    replace e with (e' + Zpos d) by lia. by rewrite scaled_eq by lia.
Qed.

Lemma binary_round_denotes m e :
  - K + 1074 ≤ e → denotes (binary_round prec emax false m e) (rounded (scaled (Zpos m) e)).
Proof.
  intros He. unfold binary_round. rewrite digits_log2, fexp_eq.
  set (f := Z.max (Z.log2 (Zpos m) + 1 + e - 53) (-1074)).
  pose proof (Z.log2_nonneg (Zpos m)) as HL.
  destruct (Z.le_gt_cases f e) as [Hf|Hf].
  - pose proof (align_scaled m e f Hf ltac:(unfold f, K; lia)) as Ha.
    destruct (shl_align m e f) as [mz ez]. destruct Ha as [-> Hs]. rewrite <- Hs.
    assert (f + K + Z.log2 (Zpos mz) = Z.log2 (Zpos m) + (e + K)) as Hl.
    { unfold scaled in Hs. apply (f_equal Z.log2) in Hs.
      rewrite !Z.log2_mul_pow2 in Hs by (unfold f, K in *; lia). lia. }
    apply round_aux_denotes; [unfold f, K; lia|]. rewrite fexp_eq. lia.
  - assert (shl_align m e f = (m, e)) as ->.
    { unfold shl_align. by destruct (f - e) eqn:E; [lia| |lia]. }
    apply round_aux_denotes; [lia|]. rewrite fexp_eq. unfold f in Hf. lia.
Qed.

Lemma scaled_add m1 m2 e : scaled (m1 + m2) e = scaled m1 e + scaled m2 e.
Proof. unfold scaled. lia. Qed.

Lemma fadd_denotes x y v w :
  finite x = true → finite y = true → denotes x v → denotes y w →
  denotes (fadd x y) (rounded (v + w)).
Proof.
  intros Fx Fy Hx Hy. unfold fadd, SFadd.
  destruct x as [[]|[]| |[] mx ex], y as [[]|[]| |[] my ey]; simpl in Hx, Hy; try done.
  - by subst.
  - subst v. destruct Hy as [Hy ->]. rewrite Z.add_0_l, rounded_exact by done. done.
  - subst w. destruct Hx as [Hx ->]. rewrite Z.add_0_r, rounded_exact by done. done.
  - destruct Hx as [Hx ->], Hy as [Hy ->]. destruct (Hx) as (Ex & _), (Hy) as (Ey & _).
    set (ez := Z.min ex ey).
    pose proof (align_scaled mx ex ez ltac:(lia) ltac:(unfold K; lia)) as Ax.
    pose proof (align_scaled my ey ez ltac:(lia) ltac:(unfold K; lia)) as Ay.
    destruct (shl_align mx ex ez) as [m1 e1], (shl_align my ey ez) as [m2 e2].
    destruct Ax as [-> Ax], Ay as [-> Ay]. cbn [fst cond_Zopp]. rewrite <- Ax, <- Ay, <- scaled_add.
    cbn [Z.add binary_normalize]. apply binary_round_denotes. unfold ez, K. lia.
Qed.

(** ** Products *)

Lemma fmul_denotes x y v w :
  finite x = true → finite y = true → denotes x v → denotes y w →
  ∃ p, p * 2 ^ K = v * w ∧ denotes (fmul x y) (rounded p).
Proof.
  intros Fx Fy Hx Hy. unfold fmul, SFmul.
  destruct x as [[]|[]| |[] mx ex], y as [[]|[]| |[] my ey]; simpl in Hx, Hy; try done;
    try (exists 0; split; [lia|done]).
  destruct Hx as [Hx ->], Hy as [Hy ->]. exists (scaled (Zpos (mx * my)) (ex + ey)).
  destruct Hx as (Ex & Mx & Cx), Hy as (Ey & My & Cy). split.
  - unfold scaled. rewrite Pos2Z.inj_mul, <- !Z.mul_assoc, <- pow2_split by (unfold K; lia).
    replace (ex + ey + K + K) with (ex + K + (ey + K)) by lia. rewrite pow2_split by (unfold K; lia). lia.
  - apply round_aux_denotes; [unfold K; lia|]. rewrite fexp_eq.
    destruct (Z.le_gt_cases (ex + ey) (-1074)); [lia|].
    assert (52 ≤ Z.log2 (Zpos (mx * my))); [|lia]. apply Z.log2_le_pow2; [lia|].
    rewrite Pos2Z.inj_mul. assert (2 ^ 52 ≤ Zpos mx ∨ 2 ^ 52 ≤ Zpos my) as [?|?] by lia;
      [rewrite <- (Z.mul_1_r (2 ^ 52))|rewrite <- (Z.mul_1_l (2 ^ 52))];
      apply Z.mul_le_mono_nonneg; lia.
Qed.

(** ** Floats from 0.0 up *)

(** A float that is not negative, in its canonical form. *)
Definition fvalid (x : float) : bool := nonneg x && valid_binary prec emax x.

Lemma canonical_eq m e : canonical_mantissa prec emax m e = (Z.max (Z.log2 (Zpos m) + 1 + e - 53) (-1074) =? e).
Proof. unfold canonical_mantissa. by rewrite digits_log2, fexp_eq. Qed.

Lemma bounded_canon m e : bounded prec emax m e = true ↔ canon (Zpos m) e.
Proof.
  unfold bounded. rewrite canonical_eq, andb_true_iff, Z.eqb_eq, Z.leb_le.
  change (Z.sub emax prec) with 971. pose proof (Z.log2_spec (Zpos m) ltac:(lia)) as [L1 L2]. split.
  - intros [E1 E2]. assert (Z.log2 (Zpos m) < 53) as Hl by lia. apply Z.log2_lt_pow2 in Hl; [|lia].
    split; [lia|]. split; [lia|]. destruct (Z.eq_dec e (-1074)); [by left|right].
    apply Z.log2_le_pow2; lia.
  - intros (He & Hm & Hc). assert (Z.log2 (Zpos m) < 53) by (apply Z.log2_lt_pow2; lia).
    destruct Hc as [->|Hc]; [lia|]. assert (52 ≤ Z.log2 (Zpos m)) by (apply Z.log2_le_pow2; lia). lia.
Qed.

Lemma fvalid_denotes x : fvalid x = true ↔ ∃ v, denotes x v.
Proof.
  unfold fvalid. split.
  - intros [Hn Hv]%andb_true_iff. destruct x as [[]|[]| |[] m e]; try done; simpl in *;
      [by exists 0|by exists top|]. apply bounded_canon in Hv. eauto.
  - intros [v Hv]. pose proof (denotes_nonneg _ _ Hv) as ->.
    destruct x as [[]|[]| |[] m e]; try done. destruct Hv as [Hc _]. simpl. by apply bounded_canon.
Qed.

Lemma fvalid_nonneg x : fvalid x = true → nonneg x = true.
Proof. intros [H _]%andb_true_iff. done. Qed.

Lemma fvalid_0 : fvalid f0 = true.
Proof. done. Qed.

Lemma fvalid_1 : fvalid f1 = true.
Proof. by vm_compute. Qed.

Lemma fle_refl x : fvalid x = true → fleb x x = true.
Proof. intros [v Hv]%fvalid_denotes. by apply (denotes_le x v x v). Qed.

Lemma fle_trans x y z :
  fvalid x = true → fvalid y = true → fvalid z = true →
  fleb x y = true → fleb y z = true → fleb x z = true.
Proof. intros ???. by apply fleb_trans; apply nonneg_not_nan, fvalid_nonneg. Qed.

Lemma fle_antisym x y :
  fvalid x = true → fvalid y = true → fleb x y = true → fleb y x = true → x = y.
Proof.
  intros Hx%fvalid_nonneg Hy%fvalid_nonneg H1 H2.
  apply nonneg_antisym; [done|done|..]; by rewrite <- fleb_key by (by apply nonneg_not_nan).
Qed.

Lemma fle_0 x : fvalid x = true → fleb f0 x = true.
Proof. intros [v Hv]%fvalid_denotes. apply (denotes_le f0 0 x v); [done|done|]. by eapply denotes_value. Qed.

Lemma fle_infinity x : fvalid x = true → fleb x (S754_infinity false) = true.
Proof.
  intros [v Hv]%fvalid_denotes. apply (denotes_le x v _ (Z.max v top)); [done|simpl; lia|lia].
Qed.

Lemma infinite_valid x : fvalid x = true → finite x = false → x = S754_infinity false.
Proof. by destruct x as [[]|[]| |[] m e]. Qed.

Lemma fle_finite x y : fvalid x = true → fvalid y = true → fleb x y = true → finite y = true → finite x = true.
Proof. destruct x as [[]|[]| |[] ??], y as [[]|[]| |[] ??]; done. Qed.

Lemma fadd_valid x y : fvalid x = true → fvalid y = true → fvalid (fadd x y) = true.
Proof.
  intros Hx Hy. destruct (finite x) eqn:Fx; [|by rewrite (infinite_valid x) by done; destruct y as [[]|[]| |[] ??]].
  destruct (finite y) eqn:Fy; [|by rewrite (infinite_valid y) by done; destruct x as [[]|[]| |[] ??]].
  apply fvalid_denotes in Hx as [v Hv], Hy as [w Hw]. apply fvalid_denotes. eauto using fadd_denotes.
Qed.

Lemma fadd_infinity_l y : fvalid y = true → fadd (S754_infinity false) y = S754_infinity false.
Proof. by destruct y as [[]|[]| |[] ??]. Qed.

Lemma fadd_infinity_r x : fvalid x = true → fadd x (S754_infinity false) = S754_infinity false.
Proof. by destruct x as [[]|[]| |[] ??]. Qed.

(** Addition grows with its operands. *)
Lemma fadd_mono x x' y y' :
  fvalid x = true → fvalid x' = true → fvalid y = true → fvalid y' = true →
  fleb x x' = true → fleb y y' = true → fleb (fadd x y) (fadd x' y') = true.
Proof.
  intros Vx Vx' Vy Vy' Hx Hy.
  destruct (finite x') eqn:Fx';
    [|rewrite (infinite_valid x'), fadd_infinity_l by done; by apply fle_infinity, fadd_valid].
  destruct (finite y') eqn:Fy';
    [|rewrite (infinite_valid y'), fadd_infinity_r by done; by apply fle_infinity, fadd_valid].
  pose proof (fle_finite x x' Vx Vx' Hx Fx') as Fx. pose proof (fle_finite y y' Vy Vy' Hy Fy') as Fy.
  apply fvalid_denotes in Vx as [v Hv], Vx' as [v' Hv'], Vy as [w Hw], Vy' as [w' Hw'].
  pose proof (le_denotes _ _ _ _ Fx Hv Hv' Hx). pose proof (le_denotes _ _ _ _ Fy Hw Hw' Hy).
  eapply denotes_le; [by apply fadd_denotes..|]. apply rounded_mono. lia.
Qed.

Lemma fadd_0_l x : nonneg x = true → fadd f0 x = x.
Proof. by destruct x as [[]|[]| |[] ??]. Qed.

Lemma fadd_0_r x : nonneg x = true → fadd x f0 = x.
Proof. by destruct x as [[]|[]| |[] ??]. Qed.

(** A sum is at least each of its terms. *)
Lemma fadd_ge_l x y : fvalid x = true → fvalid y = true → fleb x (fadd x y) = true.
Proof.
  intros Hx Hy. rewrite <- (fadd_0_r x) at 1 by by apply fvalid_nonneg.
  apply fadd_mono; auto using fvalid_0, fle_refl, fle_0.
Qed.

Lemma fadd_ge_r x y : fvalid x = true → fvalid y = true → fleb y (fadd x y) = true.
Proof.
  intros Hx Hy. rewrite <- (fadd_0_l y) at 1 by by apply fvalid_nonneg.
  apply fadd_mono; auto using fvalid_0, fle_refl, fle_0.
Qed.

Lemma fmul_valid x y :
  finite x = true → finite y = true → fvalid x = true → fvalid y = true → fvalid (fmul x y) = true.
Proof.
  intros Fx Fy [v Hv]%fvalid_denotes [w Hw]%fvalid_denotes. apply fvalid_denotes.
  destruct (fmul_denotes x y v w) as (p & _ & Hp); eauto.
Qed.

(** So does multiplication. *)
Lemma fmul_mono x x' y y' :
  finite x' = true → finite y' = true →
  fvalid x = true → fvalid x' = true → fvalid y = true → fvalid y' = true →
  fleb x x' = true → fleb y y' = true → fleb (fmul x y) (fmul x' y') = true.
Proof.
  intros Fx' Fy' Vx Vx' Vy Vy' Hx Hy.
  pose proof (fle_finite x x' Vx Vx' Hx Fx') as Fx. pose proof (fle_finite y y' Vy Vy' Hy Fy') as Fy.
  apply fvalid_denotes in Vx as [v Hv], Vx' as [v' Hv'], Vy as [w Hw], Vy' as [w' Hw'].
  pose proof (le_denotes _ _ _ _ Fx Hv Hv' Hx). pose proof (le_denotes _ _ _ _ Fy Hw Hw' Hy).
  destruct (fmul_denotes x y v w) as (p & Ep & Hp); [done..|].
  destruct (fmul_denotes x' y' v' w') as (p' & Ep' & Hp'); [done..|].
  eapply denotes_le; [done..|]. apply rounded_mono.
  pose proof (denotes_value _ _ Hv). pose proof (denotes_value _ _ Hw).
  apply (Z.mul_le_mono_pos_r _ _ (2 ^ K)); [by apply pow2_pos|]. rewrite Ep, Ep'. nia.
Qed.

Lemma f1_denotes : denotes f1 (2 ^ K).
Proof.
  replace (2 ^ K) with (scaled (2 ^ 52) (-52)).
  - change f1 with (S754_finite false (2 ^ 52) (-52)).
    split; [|done]. split_and!; [done..|by right].
  - unfold scaled. rewrite <- pow2_split by (unfold K; lia). done.
Qed.

Lemma fmul_1_l y : finite y = true → fvalid y = true → fmul f1 y = y.
Proof.
  intros Fy [w Hw]%fvalid_denotes.
  destruct (fmul_denotes f1 y (2 ^ K) w) as (p & Ep & Hp); [done|done|apply f1_denotes|done|].
  assert (p = w) as ->.
  { apply (Z.mul_cancel_r _ _ (2 ^ K)); [|by rewrite Ep, Z.mul_comm].
    pose proof (pow2_pos K ltac:(done)). lia. }
  apply (denotes_inj _ _ w); [|done]. replace w with (rounded w) at 1; [done|].
  destruct y as [[]|[]| |[] m e]; simpl in Hw; try done; [by subst|].
  destruct Hw as [Hc ->]. by apply rounded_exact.
Qed.

(** A fraction of [y] is at most [y]. *)
Lemma fmul_le x y :
  finite y = true → fvalid x = true → fvalid y = true → fleb x f1 = true → fleb (fmul x y) y = true.
Proof.
  intros Fy Vx Vy Hx. rewrite <- (fmul_1_l y) at 2 by done.
  apply fmul_mono; auto using fvalid_1, fle_refl.
Qed.

#[export] Hint Resolve fvalid_0 fvalid_1 fvalid_nonneg fle_refl fle_0 fadd_valid fmul_valid : cms.

(** ** Folds *)

Definition valids (l : list float) : Prop := Forall (λ x, fvalid x = true) l.

Lemma foldl_fadd_valid x l : fvalid x = true → valids l → fvalid (foldl fadd x l) = true.
Proof. intros Hx Hl. revert x Hx. induction Hl; intros; simpl; auto with cms. Qed.

(** Sums of the same length, term by term. *)
Lemma foldl_fadd_mono x y l l' :
  fvalid x = true → fvalid y = true → valids l → valids l' →
  fleb x y = true → Forall2 (λ a b, fleb a b = true) l l' →
  fleb (foldl fadd x l) (foldl fadd y l') = true.
Proof.
  intros Hx Hy Hl Hl' Hle H. revert x y Hx Hy Hle.
  induction H as [|a b l l' Hab H IH]; intros x y Hx Hy Hle; simpl; [done|].
  apply Forall_cons in Hl as [Ha Hl], Hl' as [Hb Hl'].
  apply IH; auto using fadd_mono with cms.
Qed.

(** A sum is at least where it starts from. *)
Lemma foldl_fadd_ge x l : fvalid x = true → valids l → fleb x (foldl fadd x l) = true.
Proof.
  intros Hx Hl. revert x Hx. induction Hl as [|y l Hy Hl IH]; intros x Hx; simpl; [by apply fle_refl|].
  eapply fle_trans; [..|apply IH]; auto using foldl_fadd_valid, fadd_ge_l with cms.
Qed.

Lemma fmax_valid x y : fvalid x = true → fvalid y = true → fvalid (fmax x y) = true.
Proof. intros. unfold fmax. by destruct (fltb x y). Qed.

Lemma fmax_ge_l x y : fvalid x = true → fvalid y = true → fleb x (fmax x y) = true.
Proof.
  intros Hx Hy. unfold fmax. destruct (fltb x y) eqn:E; [|by apply fle_refl].
  rewrite fltb_negb_fleb in E by (by apply nonneg_not_nan, fvalid_nonneg).
  destruct (fleb_total x y) as [|H]; [by apply nonneg_not_nan, fvalid_nonneg..|done|]. by rewrite H in E.
Qed.

Lemma fmax_ge_r x y : fvalid x = true → fvalid y = true → fleb y (fmax x y) = true.
Proof.
  intros Hx Hy. rewrite fmax_comm by (by apply fvalid_nonneg). by apply fmax_ge_l.
Qed.

Lemma fmax_lub x y z : fleb x z = true → fleb y z = true → fleb (fmax x y) z = true.
Proof. intros. unfold fmax. by destruct (fltb x y). Qed.

#[export] Hint Resolve fmax_valid fmax_ge_l fmax_ge_r fmax_lub foldl_fadd_valid : cms.

(** The greatest of a start value and a list. *)
Lemma foldl_fmax_valid x l : fvalid x = true → valids l → fvalid (foldl fmax x l) = true.
Proof. intros Hx Hl. revert x Hx. induction Hl; intros; simpl; auto with cms. Qed.

Lemma foldl_fmax_start x l : fvalid x = true → valids l → fleb x (foldl fmax x l) = true.
Proof.
  intros Hx Hl. revert x Hx. induction Hl as [|y l Hy Hl IH]; intros x Hx; simpl; [by apply fle_refl|].
  eapply fle_trans; [..|apply IH]; auto using foldl_fmax_valid with cms.
Qed.

Lemma foldl_fmax_ge x l y : fvalid x = true → valids l → y ∈ l → fleb y (foldl fmax x l) = true.
Proof.
  intros Hx Hl. revert x Hx. induction Hl as [|z l Hz Hl IH]; intros x Hx Hy; [by apply elem_of_nil in Hy|].
  apply elem_of_cons in Hy as [->|Hy]; simpl; [|by auto with cms].
  eapply fle_trans; [..|apply foldl_fmax_start]; auto using foldl_fmax_valid with cms.
Qed.

Lemma foldl_fmax_lub x l z :
  fleb x z = true → (∀ y, y ∈ l → fleb y z = true) → fleb (foldl fmax x l) z = true.
Proof.
  revert x. induction l as [|y l IH]; intros x Hx Hl; simpl; [done|].
  apply IH; [apply fmax_lub; [done|apply Hl; by left]|]. intros w Hw. apply Hl. by right.
Qed.
