(* ===== verification/FloatInt.v ===== *)
(** * Python floats that are integers

    Python's true division of integers ([int_div]), floor division of floats
    ([floordiv]) and [timedelta] arithmetic with floats, as CPython computes
    them; and exactness: the integers up to [2 ^ 53] are floats, and sums,
    differences, products, comparisons and whole quotients of such floats are
    those of the integers. *)

From S2P Require Import Prelude PyFloat FloatOrder.
From Stdlib Require Import SpecFloat.

Local Open Scope Z_scope.

(** ** Definitions *)

(** [n / d] for integers: the quotient, correctly rounded. *)
Definition quotient (s : bool) (m d : positive) : float :=
  let '(q, e, l) := SFdiv_core_binary prec emax (Zpos m) 0 (Zpos d) 0 in
  binary_round_aux prec emax s q e l.

Definition int_div (n : Z) (d : positive) : float :=
  match n with
  | Z0 => f0
  | Zpos m => quotient false m d
  | Zneg m => quotient true m d
  end.

(** [timedelta.total_seconds], for a number of microseconds. *)
Definition total_seconds (us : Z) : float := int_div us 1000000.

(** [fmod(x, y)]: the exact remainder, with the sign of [x]. *)
Definition fmod (x y : float) : float :=
  match x, y with
  | S754_nan, _ | _, S754_nan | S754_infinity _, _ | _, S754_zero _ => S754_nan
  | S754_zero _, _ | _, S754_infinity _ => x
  | S754_finite sx mx ex, S754_finite _ my ey =>
      let ez := Z.min ex ey in
      binary_normalize prec emax
        (cond_Zopp sx (Zpos (fst (shl_align mx ex ez)) mod Zpos (fst (shl_align my ey ez)))) ez sx
  end.

(** [floor(x)] *)
Definition ffloor (x : float) : float :=
  match x with
  | S754_finite s m e =>
      if 0 <=? e then x
      else binary_normalize prec emax (cond_Zopp s (Zpos m) / 2 ^ (- e)) 0 s
  | _ => x
  end.

Definition fsign (x : float) : bool :=
  match x with
  | S754_zero s | S754_infinity s | S754_finite s _ _ => s
  | S754_nan => false
  end.

(** [x // y] *)
Definition floordiv (x y : float) : res float :=
  if feqb y f0 then Raise ZeroDivisionError
  else
    let m := fmod x y in
    let q := fdiv (fsub x m) y in
    let q := if feqb m f0 then q
             else if xorb (fltb y f0) (fltb m f0) then fsub q f1 else q in
    Ok (if feqb q f0 then S754_zero (fsign (fdiv x y))
        else
          let fl := ffloor q in
          if fltb (of_Q 1 2) (fsub q fl) then fadd fl f1 else fl).

(** [us * x] for a timedelta of [us] microseconds. *)
Definition timedelta_mul (us : Z) (x : float) : res Z :=
  match x with
  | S754_zero _ => Ok 0
  | S754_finite s m e =>
      let n := us * cond_Zopp s (Zpos m) in
      Ok (if 0 <=? e then n * 2 ^ e else rne n (- e))
  | S754_infinity _ => Raise OverflowError
  | S754_nan => Raise ValueError
  end.

Example floordiv_6 : floordiv (total_seconds 6600000) (total_seconds 600000) = Ok (of_Z 10).
Proof. vm_compute. reflexivity. Qed.

Example floordiv_neg : floordiv (of_Z (-7)) (of_Z 2) = Ok (of_Z (-4)).
Proof. vm_compute. reflexivity. Qed.

(** ** Rounding *)

Lemma rounded_multiple v : 0 ≤ v → (2 ^ unit_of v | v) → rounded v = v.
Proof.
  intros Hv [z Hz]. unfold rounded. destruct (Z.leb_spec v 0); [lia|].
  pose proof (unit_pos v). rewrite Hz at 1. rewrite rne_exact by lia. by rewrite <- Hz.
Qed.

Lemma divide_pow2 z a b : 0 ≤ a ≤ b → (2 ^ a | z * 2 ^ b).
Proof.
  intros H. exists (z * 2 ^ (b - a)). rewrite <- Z.mul_assoc, <- pow2_split by lia. do 2 f_equal. lia.
Qed.

(** A mantissa of at most 53 bits is not rounded. *)
Lemma rounded_fits m e : 0 ≤ m < 2 ^ 53 → -1074 ≤ e → rounded (scaled m e) = scaled m e.
Proof.
  intros Hm He. destruct (Z.eq_dec m 0) as [->|Hne]; [done|].
  unfold scaled. pose proof (pow2_pos (e + K) ltac:(unfold K; lia)).
  apply rounded_multiple; [nia|]. apply divide_pow2.
  unfold unit_of. rewrite Z.log2_mul_pow2 by (unfold K in *; lia).
  assert (Z.log2 m < 53) by (apply Z.log2_lt_pow2; lia). unfold K in *. lia.
Qed.

Lemma rounded_int n : 0 ≤ n ≤ 2 ^ 53 → rounded (n * 2 ^ K) = n * 2 ^ K.
Proof.
  intros Hn. destruct (Z.eq_dec n (2 ^ 53)) as [->|].
  - change (2 ^ 53 * 2 ^ K) with (2 ^ 52 * 2 ^ (1 + K)). exact (rounded_fits (2 ^ 52) 1 ltac:(lia) ltac:(lia)).
  - exact (rounded_fits n 0 ltac:(lia) ltac:(lia)).
Qed.

Lemma round_aux_opp m e l :
  binary_round_aux prec emax true m e l = fopp (binary_round_aux prec emax false m e l).
Proof.
  unfold binary_round_aux. destruct (shr_fexp prec emax m e l) as [r e1].
  destruct (shr_fexp prec emax _ e1 _) as [r2 e2]. destruct (shr_m r2); [done| |done].
  by destruct (e2 <=? emax - prec).
Qed.

Lemma round_opp m e : binary_round prec emax true m e = fopp (binary_round prec emax false m e).
Proof. unfold binary_round. destruct (shl_align m e _). apply round_aux_opp. Qed.

(** A normalized float depends on the value only. *)
Lemma normalize_value m1 e1 m2 e2 :
  - K + 1074 ≤ e1 → - K + 1074 ≤ e2 → scaled m1 e1 = scaled m2 e2 →
  binary_normalize prec emax m1 e1 false = binary_normalize prec emax m2 e2 false.
Proof.
  intros H1 H2 Hs. unfold scaled in Hs.
  pose proof (pow2_pos (e1 + K) ltac:(lia)) as P1. pose proof (pow2_pos (e2 + K) ltac:(lia)) as P2.
  assert (∀ p1 p2, Zpos p1 * 2 ^ (e1 + K) = Zpos p2 * 2 ^ (e2 + K) →
    binary_round prec emax false p1 e1 = binary_round prec emax false p2 e2) as Hp.
  { intros p1 p2 Hp. eapply denotes_inj; [by apply binary_round_denotes|].
    unfold scaled. rewrite Hp. by apply binary_round_denotes. }
  destruct m1 as [|p1|p1], m2 as [|p2|p2]; try done; try (exfalso; nia).
  - by apply Hp.
  - cbn [binary_normalize]. rewrite !round_opp. f_equal. apply Hp. lia.
Qed.

(** ** Integers *)

Definition exact_int (n : Z) : Prop := - 2 ^ 53 ≤ n ≤ 2 ^ 53.

Lemma denotes_finite x v : denotes x v → v < top → finite x = true.
Proof. destruct x as [[]|[]| |[] m e]; simpl; try done. lia. Qed.

Lemma int_below_top n : n ≤ 2 ^ 53 → n * 2 ^ K < top.
Proof.
  intros Hn. unfold top. rewrite pow2_split by (unfold K; lia).
  apply Z.mul_lt_mono_pos_r; [apply pow2_pos; unfold K; lia|].
  apply Z.le_lt_trans with (2 ^ 53); [done|]. apply Z.pow_lt_mono_r; lia.
Qed.

Lemma of_Z_rounded n : 0 ≤ n → denotes (of_Z n) (rounded (n * 2 ^ K)).
Proof. intros Hn. destruct n as [|m|]; [done| |lia]. by apply (binary_round_denotes m 0). Qed.

Lemma of_Z_denotes n : 0 ≤ n ≤ 2 ^ 53 → denotes (of_Z n) (n * 2 ^ K).
Proof. intros Hn. rewrite <- rounded_int by done. apply of_Z_rounded. lia. Qed.

Lemma of_Z_opp m : of_Z (Zneg m) = fopp (of_Z (Zpos m)).
Proof. apply round_opp. Qed.

Lemma denotes_int x n : 0 ≤ n ≤ 2 ^ 53 → denotes x (n * 2 ^ K) → x = of_Z n.
Proof. intros Hn Hx. eapply denotes_inj; [done|]. by apply of_Z_denotes. Qed.

(** An integer as a float: zero, or a signed mantissa and exponent. *)
Inductive int_float (n : Z) : float → Prop :=
  | int_zero : n = 0 → int_float n (S754_zero false)
  | int_finite s m e :
      canon (Zpos m) e → s = (n <? 0) → scaled (cond_Zopp s (Zpos m)) e = n * 2 ^ K →
      int_float n (S754_finite s m e).

Lemma of_Z_int n : exact_int n → int_float n (of_Z n).
Proof.
  intros Hn. unfold exact_int in Hn. assert (∀ p, Zpos p ≤ 2 ^ 53 →
    ∃ m e, of_Z (Zpos p) = S754_finite false m e ∧ canon (Zpos m) e ∧ scaled (Zpos m) e = Zpos p * 2 ^ K)
    as Hp.
  { intros p Hp. pose proof (of_Z_denotes (Zpos p) ltac:(lia)) as Hd.
    pose proof (denotes_finite _ _ Hd (int_below_top _ Hp)) as Hf.
    pose proof (pow2_pos K ltac:(unfold K; lia)).
    destruct (of_Z (Zpos p)) as [[]|[]| |[] m e]; try done.
    destruct Hd as [Hc Hs]. eauto. }
  destruct n as [|p|p]; [by constructor| |].
  - destruct (Hp p) as (m & e & -> & Hc & Hs); [lia|]. by constructor.
  - rewrite of_Z_opp. destruct (Hp p) as (m & e & -> & Hc & Hs); [lia|]. constructor; [done|done|].
    unfold scaled in *. simpl. lia.
Qed.

Lemma signed_align s m e ez :
  ez ≤ e → - K ≤ ez →
  scaled (cond_Zopp s (Zpos (shl_align m e ez).1)) ez = scaled (cond_Zopp s (Zpos m)) e.
Proof.
  intros He Hk. pose proof (align_scaled m e ez He Hk) as Ha.
  destruct (shl_align m e ez) as [mz e1]. destruct Ha as [-> Ha]. unfold scaled in *.
  destruct s; simpl; lia.
Qed.

Lemma scaled_0 n : scaled n 0 = n * 2 ^ K.
Proof. done. Qed.

Lemma fadd_of_Z a b : exact_int a → exact_int b → fadd (of_Z a) (of_Z b) = of_Z (a + b).
Proof.
  intros Ha Hb. pose proof (of_Z_int a Ha) as Hx. pose proof (of_Z_int b Hb) as Hy.
  destruct (Z.eq_dec a 0) as [->|Ha0]; [rewrite Z.add_0_l; by destruct Hy|].
  destruct (Z.eq_dec b 0) as [->|Hb0]; [rewrite Z.add_0_r; by destruct Hx as [|[]]|].
  destruct Hx as [?|s m e Hc _ Hv]; [done|]. destruct Hy as [?|s' m' e' Hc' _ Hv']; [done|].
  unfold fadd, SFadd. destruct Hc as (He & _), Hc' as (He' & _).
  apply (normalize_value _ _ (a + b) 0); [unfold K; lia..|].
  rewrite scaled_add, !signed_align by (unfold K; lia). rewrite Hv, Hv', scaled_0. lia.
Qed.

Lemma fsub_of_Z a b : exact_int a → exact_int b → fsub (of_Z a) (of_Z b) = of_Z (a - b).
Proof.
  intros Ha Hb. pose proof (of_Z_int a Ha) as Hx. pose proof (of_Z_int b Hb) as Hy.
  destruct (Z.eq_dec b 0) as [->|Hb0]; [rewrite Z.sub_0_r; by destruct Hx as [|[]]|].
  destruct (Z.eq_dec a 0) as [->|Ha0].
  { rewrite Z.sub_0_l. destruct b as [|p|p]; [done|..].
    - change (- Zpos p) with (Zneg p). rewrite of_Z_opp. by destruct Hy.
    - change (- Zneg p) with (Zpos p). rewrite of_Z_opp in Hy |- *. destruct (of_Z (Zpos p)); simpl in Hy;
        try (by inversion Hy); simpl; by rewrite negb_involutive. }
  destruct Hx as [?|s m e Hc _ Hv]; [done|]. destruct Hy as [?|s' m' e' Hc' _ Hv']; [done|].
  unfold fsub, SFsub. destruct Hc as (He & _), Hc' as (He' & _).
  apply (normalize_value _ _ (a - b) 0); [unfold K; lia..|]. rewrite <- Z.add_opp_r, scaled_add.
  assert (∀ z e, scaled (- z) e = - scaled z e) as Hopp by (intros; unfold scaled; lia).
  rewrite Hopp, !signed_align by (unfold K; lia). rewrite Hv, Hv', scaled_0. lia.
Qed.

Lemma fmul_of_Z a b :
  0 ≤ a ≤ 2 ^ 53 → 0 ≤ b ≤ 2 ^ 53 → fmul (of_Z a) (of_Z b) = of_Z (a * b).
Proof.
  intros Ha Hb. pose proof (of_Z_denotes a Ha) as Da. pose proof (of_Z_denotes b Hb) as Db.
  destruct (fmul_denotes _ _ _ _ (denotes_finite _ _ Da (int_below_top _ (proj2 Ha)))
    (denotes_finite _ _ Db (int_below_top _ (proj2 Hb))) Da Db) as (p & Hp & Hd).
  assert (p = a * b * 2 ^ K) as ->.
  { pose proof (pow2_pos K ltac:(unfold K; lia)). nia. }
  eapply denotes_inj; [exact Hd|]. apply of_Z_rounded. lia.
Qed.

Lemma fleb_opp x y : finite x = true → finite y = true → fleb (fopp x) (fopp y) = fleb y x.
Proof.
  unfold fleb, SFleb. destruct x as [[]|?| |[] mx ex], y as [[]|?| |[] my ey]; try done; intros _ _; simpl;
    rewrite (Z.compare_antisym ex ey); destruct (ex ?= ey); simpl; try done;
    change (Pcompare mx my Eq) with (Pos.compare mx my);
    change (Pcompare my mx Eq) with (Pos.compare my mx);
    rewrite (Pos.compare_antisym mx my); by destruct (mx ?= my)%positive.
Qed.

Lemma fleb_of_Z a b : exact_int a → exact_int b → fleb (of_Z a) (of_Z b) = (a <=? b).
Proof.
  intros Ha Hb. unfold exact_int in *.
  assert (∀ a b, 0 ≤ a ≤ 2 ^ 53 → 0 ≤ b ≤ 2 ^ 53 → fleb (of_Z a) (of_Z b) = (a <=? b)) as Hpos.
  { clear. intros a b Ha Hb. pose proof (of_Z_denotes a Ha) as Da. pose proof (of_Z_denotes b Hb) as Db.
    pose proof (pow2_pos K ltac:(unfold K; lia)). apply eq_true_iff_eq. rewrite Z.leb_le. split; intros H'.
    - apply (le_denotes _ _ _ _ (denotes_finite _ _ Da (int_below_top _ (proj2 Ha))) Da Db) in H'. nia.
    - eapply denotes_le; [exact Da|exact Db|nia]. }
  assert (∀ p, Zpos p ≤ 2 ^ 53 → finite (of_Z (Zpos p)) = true) as Hfin.
  { intros p Hp. eapply denotes_finite; [apply of_Z_denotes; lia|by apply int_below_top]. }
  destruct (Z.le_gt_cases 0 a) as [Ha0|Ha0], (Z.le_gt_cases 0 b) as [Hb0|Hb0].
  - apply Hpos; lia.
  - rewrite (proj2 (Z.leb_gt _ _)) by lia. destruct (of_Z_int b) as [|s' m' e' _ -> _]; [done|lia|].
    rewrite (proj2 (Z.ltb_lt _ _)) by lia. destruct (of_Z_int a) as [|s m e _ -> _]; [done|done|].
    by rewrite (proj2 (Z.ltb_ge _ _)) by lia.
  - rewrite (proj2 (Z.leb_le _ _)) by lia. destruct (of_Z_int a) as [|s m e _ -> _]; [done|lia|].
    rewrite (proj2 (Z.ltb_lt _ _)) by lia. destruct (of_Z_int b) as [|s' m' e' _ -> _]; [done|done|].
    by rewrite (proj2 (Z.ltb_ge _ _)) by lia.
  - destruct a as [|p|p], b as [|q|q]; try lia. rewrite !of_Z_opp, fleb_opp by (apply Hfin; lia).
    rewrite Hpos by lia. destruct (Z.leb_spec (Zpos q) (Zpos p)), (Z.leb_spec (Zneg p) (Zneg q)); lia.
Qed.

Lemma of_Z_not_nan n : exact_int n → is_nan (of_Z n) = false.
Proof. intros Hn. by destruct (of_Z_int n Hn). Qed.

Lemma fltb_of_Z a b : exact_int a → exact_int b → fltb (of_Z a) (of_Z b) = (a <? b).
Proof.
  intros Ha Hb. rewrite fltb_negb_fleb, fleb_of_Z by (done || by apply of_Z_not_nan).
  by rewrite Z.ltb_antisym.
Qed.

Lemma feqb_le x y : is_nan x = false → is_nan y = false → feqb x y = fleb x y && fleb y x.
Proof.
  unfold feqb, fleb, SFeqb, SFleb.
  destruct x as [[]|[]| |[] mx ex], y as [[]|[]| |[] my ey]; try done; intros _ _; simpl;
    rewrite (Z.compare_antisym ex ey); destruct (ex ?= ey); simpl; try done;
    change (Pcompare mx my Eq) with (Pos.compare mx my);
    change (Pcompare my mx Eq) with (Pos.compare my mx);
    rewrite (Pos.compare_antisym mx my); by destruct (mx ?= my)%positive.
Qed.

Lemma feqb_of_Z a b : exact_int a → exact_int b → feqb (of_Z a) (of_Z b) = (a =? b).
Proof.
  intros Ha Hb. rewrite feqb_le, !fleb_of_Z by (done || by apply of_Z_not_nan).
  destruct (Z.leb_spec a b), (Z.leb_spec b a), (Z.eqb_spec a b); try done; lia.
Qed.

Lemma fmin_of_Z a b : exact_int a → exact_int b → fmin (of_Z a) (of_Z b) = of_Z (Z.min a b).
Proof.
  intros Ha Hb. unfold fmin. rewrite fltb_of_Z by done.
  destruct (Z.ltb_spec b a); f_equal; lia.
Qed.

(** ** Quotients *)

Lemma zdigits_log2 m : 0 < m → Zdigits2 m = Z.log2 m + 1.
Proof. intros Hm. destruct m; [lia|apply digits_log2|lia]. Qed.

Lemma log2_scaled m e : 0 < m → - K ≤ e → Z.log2 (scaled m e) = Z.log2 m + e + K.
Proof. intros Hm He. unfold scaled. rewrite Z.log2_mul_pow2 by lia. lia. Qed.

(** The quotient of two floats, when it is an integer. *)
Lemma div_core_exact m1 e1 m2 e2 n :
  0 < n < 2 ^ 52 → -1074 ≤ e1 ≤ 971 → -1074 ≤ e2 ≤ 971 →
  scaled (Zpos m1) e1 = n * scaled (Zpos m2) e2 →
  (let '(q, e, l) := SFdiv_core_binary prec emax (Zpos m1) e1 (Zpos m2) e2 in
   binary_round_aux prec emax false q e l) = of_Z n.
Proof.
  intros Hn He1 He2 Hs. unfold SFdiv_core_binary.
  rewrite !zdigits_log2, fexp_eq by lia.
  set (e' := Z.min (Z.max (Z.log2 (Zpos m1) + 1 + e1 - (Z.log2 (Zpos m2) + 1 + e2) - 53) (-1074)) (e1 - e2)).
  assert (0 < scaled (Zpos m2) e2) as Hp2.
  { unfold scaled. pose proof (pow2_pos (e2 + K) ltac:(unfold K; lia)). lia. }
  assert (Z.log2 (Zpos m1) + e1 ≤ Z.log2 n + (Z.log2 (Zpos m2) + e2) + 1) as Hlog.
  { pose proof (Z.log2_mul_above n (scaled (Zpos m2) e2) ltac:(lia) ltac:(lia)) as Hl.
    rewrite <- Hs, !log2_scaled in Hl by (unfold K; lia). lia. }
  assert (Z.log2 n < 52) as Hln by (apply Z.log2_lt_pow2; lia).
  set (s := e1 - e2 - e').
  assert (e' < 0) as Hneg by (unfold e'; lia).
  assert (0 ≤ s) as Hs0 by (unfold s, e'; lia).
  assert (Zpos m1 * 2 ^ s = n * 2 ^ (- e') * Zpos m2) as Hq.
  { unfold scaled in Hs. pose proof (pow2_pos (e2 + K) ltac:(unfold K; lia)).
    apply (Z.mul_reg_r _ _ (2 ^ (e2 + K))); [lia|].
    rewrite <- Z.mul_assoc, <- pow2_split by (unfold K; lia).
    replace (s + (e2 + K)) with (- e' + (e1 + K)) by (unfold s; lia).
    rewrite pow2_split by (unfold K; lia). nia. }
  assert ((match s with 0 => Zpos m1 | Zpos _ => Z.shiftl (Zpos m1) s | Zneg _ => 0 end) =
          n * 2 ^ (- e') * Zpos m2) as ->.
  { rewrite <- Hq. destruct s; [by rewrite Z.mul_1_r|by rewrite Z.shiftl_mul_pow2|lia]. }
  pose proof (pow2_pos (- e') ltac:(lia)) as Pe.
  destruct (Z.div_eucl (n * 2 ^ (- e') * Zpos m2) (Zpos m2)) as [q r] eqn:Hd.
  assert (q = n * 2 ^ (- e') ∧ r = 0) as [-> ->].
  { pose proof (Z.div_mul (n * 2 ^ (- e')) (Zpos m2) ltac:(lia)) as H1.
    pose proof (Z.mod_mul (n * 2 ^ (- e')) (Zpos m2) ltac:(lia)) as H2.
    unfold Z.div, Z.modulo in H1, H2. rewrite Hd in H1, H2. done. }
  assert (new_location (Zpos m2) 0 = loc_Exact) as ->
    by (unfold new_location, new_location_even, new_location_odd; by destruct (Z.even _)).
  assert (0 < n * 2 ^ (- e')) as Hpos by nia.
  assert (scaled (n * 2 ^ (- e')) e' = n * 2 ^ K) as Hv.
  { unfold scaled. rewrite <- Z.mul_assoc, <- pow2_split by (unfold K, e'; lia). do 2 f_equal. lia. }
  assert (Z.log2 (n * 2 ^ (- e')) + e' = Z.log2 n) as Hlq by (rewrite Z.log2_mul_pow2; lia).
  destruct (n * 2 ^ (- e')) as [|p|p]; [lia| |lia].
  apply denotes_int; [lia|]. rewrite <- rounded_int, <- Hv by lia.
  apply round_aux_denotes; [unfold K, e'; lia|]. rewrite fexp_eq. unfold e' in *. lia.
Qed.

Lemma fdiv_of_Z a b n :
  0 ≤ n < 2 ^ 52 → 0 < b ≤ 2 ^ 53 → a = n * b → a ≤ 2 ^ 53 → fdiv (of_Z a) (of_Z b) = of_Z n.
Proof.
  intros Hn Hb Ha Ha'. pose proof (of_Z_int b ltac:(unfold exact_int; lia)) as Hy.
  pose proof (of_Z_int a ltac:(unfold exact_int; nia)) as Hx.
  destruct Hy as [?|s' m' e' Hc' -> Hv']; [lia|]. rewrite (proj2 (Z.ltb_ge b 0)) in * by lia.
  destruct (Z.eq_dec n 0) as [->|Hn0]; [rewrite Z.mul_0_l in Ha; by subst a|].
  destruct Hx as [?|s m e Hc -> Hv]; [nia|]. rewrite (proj2 (Z.ltb_ge a 0)) in * by nia.
  destruct Hc as (He & _), Hc' as (He' & _). apply div_core_exact; [lia|done|done|].
  simpl in Hv, Hv'. rewrite Hv, Hv', Ha. lia.
Qed.

Lemma int_div_exact n d : 0 < n < 2 ^ 52 → int_div (n * Zpos d) d = of_Z n.
Proof.
  intros Hn. destruct (n * Zpos d) as [|p|p] eqn:Hp; [lia| |lia].
  apply div_core_exact; [lia..|]. unfold scaled. lia.
Qed.

Lemma seconds_exact n : 0 < n < 2 ^ 52 → total_seconds (n * 1000000) = of_Z n.
Proof. apply int_div_exact. Qed.

(** *** Rounding of a quotient that is not exact *)

Lemma shr_1_mantissa r : 0 ≤ shr_m r → shr_m (shr_1 r) = shr_m r / 2.
Proof. destruct r as [q x y]. cbn [shr_m]. intros Hq. by rewrite shr_1_eq. Qed.

Lemma iter_shr_mantissa p r :
  0 ≤ shr_m r → shr_m (iter_pos shr_1 p r) = shr_m r / 2 ^ Zpos p.
Proof.
  assert (∀ p r, 0 ≤ shr_m r →
    0 ≤ shr_m (iter_pos shr_1 p r) ∧ shr_m (iter_pos shr_1 p r) = shr_m r / 2 ^ Zpos p) as H;
    [|intros Hr; by apply H].
  clear. assert (∀ p, 0 < 2 ^ Zpos p) as Hp by (intros; by apply pow2_pos).
  induction p as [p IH|p IH|]; intros r Hr; simpl.
  - assert (0 ≤ shr_m (shr_1 r)) as H1 by (rewrite shr_1_mantissa by done; by apply Z.div_pos).
    destruct (IH _ H1) as [H2 E2], (IH _ H2) as [H3 E3]. split; [done|].
    rewrite E3, E2, shr_1_mantissa, !Z.div_div by (done || specialize (Hp p); lia).
    f_equal. replace (Zpos p~1) with (1 + Zpos p + Zpos p) by lia. rewrite !pow2_split by lia. lia.
  - destruct (IH _ Hr) as [H2 E2], (IH _ H2) as [H3 E3]. split; [done|].
    rewrite E3, E2, !Z.div_div by (specialize (Hp p); lia).
    f_equal. replace (Zpos p~0) with (Zpos p + Zpos p) by lia. by rewrite pow2_split by lia.
  - rewrite shr_1_mantissa by done. split; [by apply Z.div_pos|done].
Qed.

(** The result is one of the two neighbours of the quotient. *)
Lemma round_aux_near m e l n :
  0 < m → - 1074 ≤ e + n → fexp prec emax (Z.log2 m + 1 + e) = e + n → 0 ≤ n →
  ∃ u, denotes (binary_round_aux prec emax false m e l) u ∧
    scaled (m / 2 ^ n) (e + n) ≤ u ≤ scaled (m / 2 ^ n + 1) (e + n).
Proof.
  intros Hm He Hf Hn. unfold binary_round_aux.
  assert (∃ r, shr_fexp prec emax m e l = (r, e + n) ∧ shr_m r = m / 2 ^ n) as (r & -> & Hr).
  { unfold shr_fexp. rewrite zdigits_log2, Hf by done. replace (e + n - e) with n by lia.
    assert (shr_m (shr_record_of_loc m l) = m) as Hl by (by destruct l as [|[]]).
    destruct n as [|p|p]; [|..|lia]; simpl.
    - eexists. split; [by rewrite Z.add_0_r|]. by rewrite Hl, Z.div_1_r.
    - eexists. split; [done|]. rewrite iter_shr_mantissa by lia. by rewrite Hl. }
  pose proof (Z.log2_spec m Hm) as [L1 L2]. rewrite fexp_eq in Hf. pose proof (pow2_pos n Hn) as Pn.
  assert (0 ≤ m / 2 ^ n < 2 ^ 53) as Hq.
  { split; [apply Z.div_pos; lia|]. apply Z.div_lt_upper_bound; [lia|]. rewrite <- pow2_split by lia.
    pose proof (pow2_le (Z.succ (Z.log2 m)) (n + 53) ltac:(lia)). lia. }
  assert (e + n = -1074 ∨ 2 ^ 52 ≤ m / 2 ^ n) as Hc.
  { destruct (Z.eq_dec (e + n) (-1074)); [by left|right]. apply Z.div_le_lower_bound; [lia|].
    rewrite <- pow2_split by lia. replace (n + 52) with (Z.log2 m) by lia. done. }
  assert (∃ z, round_nearest_even (shr_m r) (loc_of_shr_record r) = z ∧
    m / 2 ^ n ≤ z ≤ m / 2 ^ n + 1) as (z & -> & Hz).
  { rewrite Hr. eexists. split; [done|]. destruct r as [? [] []]; simpl; try lia. destruct (Z.even _); lia. }
  exists (scaled z (e + n)). split; [apply denotes_mantissa; lia|].
  unfold scaled. pose proof (pow2_pos (e + n + K) ltac:(unfold K; lia)). nia.
Qed.

(** The whole seconds of a time of less than [2 ^ 32] seconds are exact. *)
Lemma seconds_floor us :
  0 ≤ us < 2 ^ 32 * 1000000 →
  ∃ v, denotes (total_seconds us) v ∧ v / 2 ^ K = us / 1000000 ∧ v < 2 ^ 33 * 2 ^ K.
Proof.
  intros Hus. destruct us as [|m|]; [by exists 0| |lia].
  unfold total_seconds, int_div, quotient, SFdiv_core_binary.
  rewrite !zdigits_log2, fexp_eq by lia. change (Z.log2 1000000) with 19.
  pose proof (Z.log2_spec (Zpos m) ltac:(lia)) as [L1 L2].
  assert (Z.log2 (Zpos m) < 52) as Hl by (apply Z.log2_lt_pow2; lia).
  pose proof (Z.log2_nonneg (Zpos m)) as Hl0.
  set (L := Z.log2 (Zpos m)) in *.
  replace (Z.min _ _) with (L - 72) by lia.
  set (s := 72 - L). replace (0 - 0 - (L - 72)) with s by (unfold s; lia).
  assert ((match s with 0 => Zpos m | Zpos _ => Z.shiftl (Zpos m) s | Zneg _ => 0 end) =
          Zpos m * 2 ^ s) as ->.
  { unfold s. destruct (72 - L) as [|p|p] eqn:E; [by rewrite Z.mul_1_r|by rewrite Z.shiftl_mul_pow2|lia]. }
  assert (2 ^ 72 ≤ Zpos m * 2 ^ s < 2 ^ 73) as Hms.
  { pose proof (pow2_pos s ltac:(lia)). split.
    - replace 72 with (L + s) by lia. rewrite pow2_split by lia. nia.
    - replace 73 with (Z.succ L + s) by lia. rewrite pow2_split by lia. nia. }
  destruct (Z.div_eucl (Zpos m * 2 ^ s) 1000000) as [q r] eqn:Hd.
  assert (q = Zpos m * 2 ^ s / 1000000) as Hq by (unfold Z.div; by rewrite Hd).
  assert (2 ^ 52 ≤ q < 2 ^ 54) as Hqb.
  { rewrite Hq. split; [apply Z.div_le_lower_bound; lia|apply Z.div_lt_upper_bound; lia]. }
  pose proof (Z.mul_div_le (Zpos m * 2 ^ s) 1000000 ltac:(lia)) as Hq1. rewrite <- Hq in Hq1.
  assert (52 ≤ Z.log2 q < 54) as Hlq by (split; [apply Z.log2_le_pow2|apply Z.log2_lt_pow2]; lia).
  set (n := Z.log2 q - 52).
  destruct (round_aux_near q (L - 72) (new_location 1000000 r) n) as (u & Hu & Hu1 & Hu2);
    [lia|lia|rewrite fexp_eq; lia|lia|].
  exists u. split; [exact Hu|].
  pose proof (pow2_pos n ltac:(lia)) as Pn. pose proof (Z.mul_div_le q (2 ^ n) ltac:(lia)) as Hqn.
  assert (2 ^ n ≤ 2) as Hn2 by (change 2 with (2 ^ 1) at 2; apply pow2_le; lia).
  set (t := 72 - L - n). assert (2 ^ s = 2 ^ t * 2 ^ n) as Hst by (rewrite <- pow2_split by lia; f_equal; lia).
  assert (2 ^ K = 2 ^ t * 2 ^ (L - 72 + n + K)) as HK.
  { rewrite <- pow2_split by (unfold K in *; lia). f_equal. lia. }
  pose proof (pow2_pos t ltac:(lia)) as Pt.
  assert (2 ^ 21 ≤ 2 ^ s) as Hs21 by (apply pow2_le; lia).
  pose proof (pow2_pos (L - 72 + n + K) ltac:(unfold K; lia)) as PU.
  unfold scaled in Hu1, Hu2. set (U := 2 ^ (L - 72 + n + K)) in *.
  set (k := q / 2 ^ n) in *. set (c := Zpos m / 1000000).
  pose proof (Z.mul_div_le (Zpos m) 1000000 ltac:(lia)) as Hc1. fold c in Hc1.
  pose proof (Z.mul_succ_div_gt (Zpos m) 1000000 ltac:(lia)) as Hc2. fold c in Hc2.
  assert (c * 2 ^ t ≤ k) as Hlow.
  { apply Z.div_le_lower_bound; [lia|]. rewrite Hq. apply Z.div_le_lower_bound; [lia|]. nia. }
  assert (k + 1 ≤ (c + 1) * 2 ^ t - 1 ∨ k + 1 < (c + 1) * 2 ^ t) as Hup.
  { right. apply (Z.mul_lt_mono_pos_r (2 ^ n)); [lia|].
    apply (Z.mul_lt_mono_pos_r 1000000); [lia|]. nia. }
  assert (k + 1 < (c + 1) * 2 ^ t) as Hup' by lia.
  assert (c < 2 ^ 32) as Hc32 by (unfold c; apply Z.div_lt_upper_bound; lia).
  split.
  - symmetry. apply Z.div_unique with (u - c * 2 ^ K); [left|lia].
    rewrite HK. split; nia.
  - rewrite HK. assert (k + 1 < 2 ^ 33 * 2 ^ t) by nia. nia.
Qed.

(** ** Floor division *)

(** A float from 0.0 up, as a mantissa and an exponent. *)
Lemma denotes_cases x v :
  finite x = true → denotes x v →
  (x = S754_zero false ∧ v = 0) ∨
  ∃ m e, x = S754_finite false m e ∧ canon (Zpos m) e ∧ v = scaled (Zpos m) e.
Proof.
  destruct x as [[]|[]| |[] m e]; try done; intros _ Hd; [by left|right]. destruct Hd. eauto.
Qed.

Lemma fsub_denotes_int x y v w n :
  finite x = true → finite y = true → denotes x v → denotes y w →
  0 ≤ n ≤ 2 ^ 53 → v - w = n * 2 ^ K → fsub x y = of_Z n.
Proof.
  intros Fx Fy Hx Hy Hn Hv.
  destruct (denotes_cases y w Fy Hy) as [[-> ->]|(m' & e' & -> & Hc' & ->)].
  { rewrite Z.sub_0_r in Hv. subst v.
    destruct (denotes_cases x _ Fx Hx) as [[-> Hz]|(m & e & -> & _)]; [|by apply denotes_int].
    assert (n = 0) as -> by (pose proof (pow2_pos K ltac:(unfold K; lia)); nia). done. }
  pose proof (canon_bound _ _ Hc') as Hb'.
  destruct (denotes_cases x v Fx Hx) as [[-> ->]|(m & e & -> & Hc & ->)].
  { pose proof (pow2_pos K ltac:(unfold K; lia)). nia. }
  unfold fsub, SFsub. destruct Hc as (He & _), Hc' as (He' & _).
  apply (normalize_value _ _ n 0); [unfold K; lia..|]. rewrite <- Z.add_opp_r, scaled_add.
  assert (∀ z e, scaled (- z) e = - scaled z e) as Hopp by (intros; unfold scaled; lia).
  rewrite Hopp, !signed_align by (unfold K; lia). simpl. rewrite scaled_0. lia.
Qed.

Lemma scaled_mod a b e : 0 < b → - K ≤ e → scaled (a mod b) e = scaled a e mod scaled b e.
Proof.
  intros Hb He. unfold scaled. pose proof (pow2_pos (e + K) ltac:(lia)).
  rewrite Z.mul_mod_distr_r by lia. done.
Qed.

Lemma align_same m e e' : e ≤ e' → shl_align m e e' = (m, e).
Proof. intros He. unfold shl_align. destruct (e' - e) eqn:E; [done|done|lia]. Qed.

(** The remainder is exact. *)
Lemma fmod_denotes x y v w :
  finite x = true → finite y = true → denotes x v → denotes y w → 0 < w →
  finite (fmod x y) = true ∧ denotes (fmod x y) (v mod w).
Proof.
  intros Fx Fy Hx Hy Hw.
  destruct (denotes_cases y w Fy Hy) as [[-> ->]|(m' & e' & -> & Hc' & ->)]; [lia|].
  destruct (denotes_cases x v Fx Hx) as [[-> ->]|(m & e & -> & Hc & ->)]; [by rewrite Z.mod_0_l by lia|].
  unfold fmod. set (ez := Z.min e e'). cbn [cond_Zopp].
  destruct (Hc) as (He & Hm & _), (Hc') as (He' & Hm' & _).
  pose proof (signed_align false m e ez ltac:(lia) ltac:(unfold K; lia)) as A1.
  pose proof (signed_align false m' e' ez ltac:(lia) ltac:(unfold K; lia)) as A2.
  cbn [cond_Zopp] in A1, A2.
  set (a := Zpos (shl_align m e ez).1) in *. set (b := Zpos (shl_align m' e' ez).1) in *.
  assert (0 < b) as Hb by done. pose proof (Z.mod_pos_bound a b Hb) as Hr.
  assert (a mod b < 2 ^ 53) as Hr53.
  { destruct (Z.le_gt_cases e e') as [Hle|Hgt].
    - assert (a = Zpos m) as Ea by (unfold a; rewrite align_same by lia; done).
      pose proof (Z.mod_le a b ltac:(lia) Hb). lia.
    - assert (b = Zpos m') as Eb by (unfold b; rewrite align_same by lia; done). lia. }
  assert (denotes (binary_normalize prec emax (a mod b) ez false) (scaled (Zpos m) e mod scaled (Zpos m') e'))
    as Hd.
  { rewrite <- A1, <- A2, <- scaled_mod by (unfold K; lia).
    rewrite <- rounded_fits by lia. destruct (a mod b) as [|p|p]; [done| |lia].
    apply binary_round_denotes. unfold ez, K. lia. }
  split; [|done]. eapply denotes_finite; [exact Hd|].
  pose proof (canon_bound _ _ Hc'). pose proof (Z.mod_pos_bound (scaled (Zpos m) e) (scaled (Zpos m') e') Hw). lia.
Qed.

Lemma ffloor_of_Z n : 0 < n ≤ 2 ^ 53 → ffloor (of_Z n) = of_Z n.
Proof.
  intros Hn. pose proof (of_Z_int n ltac:(unfold exact_int; lia)) as Hx.
  remember (of_Z n) as x eqn:Ex. destruct Hx as [->|s m e Hc Hs Hv]; [done|].
  unfold ffloor. destruct (Z.leb_spec 0 e) as [He|He]; [done|].
  pose proof (pow2_pos (- e) ltac:(lia)) as Pe. destruct Hc as (He1 & _).
  assert (cond_Zopp s (Zpos m) = n * 2 ^ (- e)) as ->.
  { unfold scaled in Hv. apply (Z.mul_reg_r _ _ (2 ^ (e + K))); [pose proof (pow2_pos (e + K) ltac:(unfold K; lia)); lia|].
    rewrite Hv, <- Z.mul_assoc, <- pow2_split by (unfold K; lia). do 2 f_equal. lia. }
  rewrite Z.div_mul by lia. rewrite Ex. by destruct n.
Qed.

Lemma fsign_fdiv x y v w :
  finite x = true → finite y = true → denotes x v → denotes y w → fsign (fdiv x y) = false.
Proof.
  intros Fx Fy Hx Hy.
  destruct (denotes_cases y w Fy Hy) as [[-> ->]|(m' & e' & -> & _)];
    destruct (denotes_cases x v Fx Hx) as [[-> ->]|(m & e & -> & _)]; try done.
  unfold fdiv, SFdiv. destruct (SFdiv_core_binary _ _ _ _ _ _) as [[q e1] l].
  unfold binary_round_aux. destruct (shr_fexp prec emax _ e1 l) as [r e2].
  destruct (shr_fexp prec emax _ e2 _) as [r2 e3]. destruct (shr_m r2); [done| |done].
  by destruct (e3 <=? emax - prec).
Qed.

(** The floor division of a float by a whole number, when the quotient is
    not too large, is the floor of the exact quotient. *)
Lemma floordiv_int x v b :
  finite x = true → denotes x v → 0 < b ≤ 2 ^ 53 → v < 2 ^ 52 * 2 ^ K →
  floordiv x (of_Z b) = Ok (of_Z (v / (b * 2 ^ K))).
Proof.
  intros Fx Hx Hb Hv. pose proof (pow2_pos K ltac:(unfold K; lia)) as PK.
  pose proof (of_Z_denotes b ltac:(lia)) as Hy.
  pose proof (denotes_finite _ _ Hy (int_below_top _ (proj2 Hb))) as Fy.
  pose proof (denotes_value _ _ Hx) as Hv0. set (w := b * 2 ^ K) in *. set (n := v / w).
  assert (0 < w) as Hw by (unfold w; nia).
  pose proof (Z.mul_div_le v w Hw) as Hle. fold n in Hle.
  pose proof (Z.div_pos v w Hv0 Hw) as Hn0. fold n in Hn0.
  destruct (fmod_denotes x (of_Z b) v w Fx Fy Hx Hy Hw) as [Fm Hm].
  assert (n * b < 2 ^ 52) as Hnb by (unfold w in *; nia).
  assert (fsub x (fmod x (of_Z b)) = of_Z (n * b)) as Hsub.
  { eapply fsub_denotes_int; [done|exact Fm|exact Hx|exact Hm|lia|].
    rewrite Z.mod_eq by lia. fold n. unfold w. lia. }
  unfold floordiv. change f0 with (of_Z 0) at 1.
  rewrite feqb_of_Z by (unfold exact_int; lia). rewrite (proj2 (Z.eqb_neq b 0)) by lia.
  rewrite Hsub, (fdiv_of_Z (n * b) b n) by (nia || lia).
  assert (xorb (fltb (of_Z b) f0) (fltb (fmod x (of_Z b)) f0) = false) as Hx0.
  { pose proof (denotes_nonneg _ _ Hm) as Nm. pose proof (denotes_nonneg _ _ Hy) as Ny.
    assert (∀ y, finite y = true → nonneg y = true → fltb y f0 = false) as H.
    { clear. intros y. by destruct y as [[]|[]| |[] m e]. }
    by rewrite !H. }
  rewrite Hx0. replace (if feqb (fmod x (of_Z b)) f0 then of_Z n else of_Z n) with (of_Z n) by by destruct (feqb _ _).
  change f0 with (of_Z 0) at 1. rewrite feqb_of_Z by (unfold exact_int; nia).
  destruct (Z.eqb_spec n 0) as [Hz|Hz].
  - rewrite (fsign_fdiv _ _ _ _ Fx Fy Hx Hy). by rewrite Hz.
  - rewrite ffloor_of_Z by nia. rewrite fsub_of_Z by (unfold exact_int; nia). by rewrite Z.sub_diag.
Qed.

(** Whole periods of a whole number of seconds. *)
Lemma periods_whole us b :
  0 ≤ us < 2 ^ 32 * 1000000 → 0 < b < 2 ^ 52 →
  floordiv (total_seconds us) (total_seconds (b * 1000000)) = Ok (of_Z (us / (b * 1000000))).
Proof.
  intros Hus Hb. destruct (seconds_floor us Hus) as (v & Hv & Hfl & Hlt).
  pose proof (pow2_pos K ltac:(unfold K; lia)) as PK.
  rewrite seconds_exact by lia. rewrite (floordiv_int _ v b); [|..|done|lia|lia].
  - do 2 f_equal. rewrite (Z.mul_comm b (2 ^ K)), (Z.mul_comm b 1000000).
    rewrite <- !Z.div_div by lia. by rewrite Hfl.
  - eapply denotes_finite; [exact Hv|]. apply Z.lt_le_trans with (2 ^ 33 * 2 ^ K); [done|].
    pose proof (int_below_top (2 ^ 33) ltac:(lia)). lia.
Qed.

Lemma timedelta_mul_of_Z us n : exact_int n → timedelta_mul us (of_Z n) = Ok (us * n).
Proof.
  intros Hn. destruct (of_Z_int n Hn) as [->|s m e Hc _ Hv]; [by rewrite Z.mul_0_r|].
  unfold timedelta_mul. f_equal. destruct Hc as (He & _). unfold scaled in Hv.
  destruct (Z.leb_spec 0 e) as [H0|H0].
  - rewrite <- Z.mul_assoc. f_equal. apply (Z.mul_reg_r _ _ (2 ^ K)); [pose proof (pow2_pos K ltac:(unfold K; lia)); lia|].
    rewrite <- Z.mul_assoc, <- pow2_split by (unfold K; lia). done.
  - assert (cond_Zopp s (Zpos m) = n * 2 ^ (- e)) as ->; [|by rewrite Z.mul_assoc, rne_exact by lia].
    apply (Z.mul_reg_r _ _ (2 ^ (e + K))); [pose proof (pow2_pos (e + K) ltac:(unfold K; lia)); lia|].
    rewrite Hv, <- Z.mul_assoc, <- pow2_split by (unfold K; lia). do 2 f_equal. lia.
Qed.
