(* ===== verification/PyString.v ===== *)
(** * Methods of Python's [str] and functions of [os.path]

    File names are strings of characters; the functions are defined as the
    language documents them, for POSIX paths. *)

From S2P Require Import Prelude.
From Stdlib Require Import Strings.Ascii.

Local Open Scope string_scope.
Local Open Scope list_scope.

(** ** Strings *)

(** [s.startswith(p)] *)
Definition startswith (p s : string) : bool := String.prefix p s.

(** [s.endswith(p)] *)
Definition endswith (p s : string) : bool :=
  (String.length p <=? String.length s)%nat
  && String.eqb (String.substring (String.length s - String.length p) (String.length p) s) p.

(** Replace [old], which is not empty; [skip] characters belong to the
    occurrence found last. *)
Fixpoint replace_from (skip : nat) (old new s : string) : string :=
  match s with
  | EmptyString => EmptyString
  | String c s' =>
      match skip with
      | S skip => replace_from skip old new s'
      | 0%nat =>
          if startswith old s then new +:+ replace_from (String.length old - 1) old new s'
          else String c (replace_from 0 old new s')
      end
  end.

(** [s.replace(old, new)] *)
Definition replace (old new s : string) : string := replace_from 0 old new s.

(** [s.upper()] of one character. *)
Definition upper (c : ascii) : ascii :=
  let n := nat_of_ascii c in
  if (97 <=? n)%nat && (n <=? 122)%nat then ascii_of_nat (n - 32) else c.

(** [sep.join(l)] *)
Definition join_strings (sep : string) (l : list string) : string := String.concat sep l.

(** [s.rfind(c)], as an optional position. *)
Fixpoint rfind (c : ascii) (s : string) : option nat :=
  match s with
  | EmptyString => None
  | String x s =>
      match rfind c s with
      | Some i => Some (S i)
      | None => if Ascii.eqb x c then Some 0%nat else None
      end
  end.

(** [s[:i]] and [s[i:]] *)
Definition take_string (i : nat) (s : string) : string := String.substring 0 i s.
Definition drop_string (i : nat) (s : string) : string :=
  String.substring i (String.length s - i) s.

(** [s.rstrip(c)] *)
Fixpoint rstrip (c : ascii) (s : string) : string :=
  match s with
  | EmptyString => EmptyString
  | String x s =>
      match rstrip c s with
      | EmptyString => if Ascii.eqb x c then EmptyString else String x EmptyString
      | s => String x s
      end
  end.

(** [sorted(l)]: the order of the code points, which is the order of the
    bytes of UTF-8. *)
Definition sort_strings (l : list string) : list string :=
  merge_sort (λ a b, Is_true (String.leb a b)) l.

(** ** Paths *)

Definition slash : ascii := "/"%char.
Definition dot : ascii := "."%char.

(** [os.path.split(p)] *)
Definition path_split (p : string) : string * string :=
  let i := match rfind slash p with Some i => S i | None => 0%nat end in
  let head := take_string i p in
  (match rstrip slash head with EmptyString => head | h => h end, drop_string i p).

Definition basename (p : string) : string := (path_split p).2.

(** [os.path.join(a, b)] *)
Definition path_join (a b : string) : string :=
  if startswith "/" b then b
  else if String.eqb a "" || endswith "/" a then a +:+ b
  else a +:+ "/" +:+ b.

(** Some character of the string is not a dot. *)
Fixpoint not_only_dots (s : string) : bool :=
  match s with
  | EmptyString => false
  | String c s => negb (Ascii.eqb c dot) || not_only_dots s
  end.

(** [os.path.splitext(p)]: the extension starts at the last dot of the last
    component, unless only dots come before it there. *)
Definition splitext (p : string) : string * string :=
  let base := match rfind slash p with Some i => S i | None => 0%nat end in
  match rfind dot p with
  | Some i =>
      if (base <=? i)%nat && not_only_dots (String.substring base (i - base) p)
      then (take_string i p, drop_string i p)
      else (p, "")
  | None => (p, "")
  end.

(** [shlex.quote(s)]: characters that need no quotes are word characters and
    [@%+=:,./-]. *)
Definition shell_safe (c : ascii) : bool :=
  let n := nat_of_ascii c in
  (48 <=? n)%nat && (n <=? 58)%nat || (64 <=? n)%nat && (n <=? 90)%nat
  || (97 <=? n)%nat && (n <=? 122)%nat || (43 <=? n)%nat && (n <=? 47)%nat
  || (n =? 95)%nat || (n =? 61)%nat || (n =? 37)%nat.

Fixpoint string_forall (f : ascii → bool) (s : string) : bool :=
  match s with
  | EmptyString => true
  | String c s => f c && string_forall f s
  end.

Definition quote_mark : string := String (ascii_of_nat 34) EmptyString.

Definition shell_quote (s : string) : string :=
  if String.eqb s "" then "''"
  else if string_forall shell_safe s then s
  else "'" +:+ replace "'" ("'" +:+ quote_mark +:+ "'" +:+ quote_mark +:+ "'") s +:+ "'".

Example path_demo :
  path_split "a//b/c.tar.gz" = ("a//b", "c.tar.gz") ∧ splitext "a.b/c.tar.gz" = ("a.b/c.tar", ".gz") ∧
  splitext "..rc" = ("..rc", "") ∧ path_join "a" "b" = "a/b" ∧
  replace ".%l" ".cpp" "x.%l.%l" = "x.cpp.cpp" ∧ shell_quote "a b.jar" = "'a b.jar'".
Proof. vm_compute. done. Qed.

(** ** Lengths, parts and pieces *)

Lemma substring_all b : String.substring 0 (String.length b) b = b.
Proof. induction b as [|c b IH]; simpl; [done|by rewrite IH]. Qed.

Lemma length_append a b : String.length (a +:+ b) = (String.length a + String.length b)%nat.
Proof. induction a as [|c a IH]; simpl; [done|by rewrite IH]. Qed.

Lemma append_nil a b : a +:+ b = b → a = "".
Proof. intros H. apply (f_equal String.length) in H. rewrite length_append in H. destruct a; [done|simpl in H; lia]. Qed.

Lemma string_forall_append P a b : string_forall P (a +:+ b) = string_forall P a && string_forall P b.
Proof. induction a as [|c a IH]; simpl; [done|]. by rewrite IH, andb_assoc. Qed.

Lemma append_cons c a b : String c a +:+ b = String c (a +:+ b).
Proof. done. Qed.

Lemma append_empty_r s : s +:+ "" = s.
Proof. induction s as [|c s IH]; [done|]. by rewrite append_cons, IH. Qed.

Lemma append_assoc a b c : a +:+ (b +:+ c) = (a +:+ b) +:+ c.
Proof. induction a as [|x a IH]; [done|]. by rewrite !append_cons, IH. Qed.

Lemma take_string_0 s : take_string 0 s = "".
Proof. by destruct s. Qed.

Lemma take_string_S i c s : take_string (S i) (String c s) = String c (take_string i s).
Proof. done. Qed.

Lemma drop_string_0 s : drop_string 0 s = s.
Proof. unfold drop_string. rewrite Nat.sub_0_r. apply substring_all. Qed.

Lemma drop_string_S i c s : drop_string (S i) (String c s) = drop_string i s.
Proof. done. Qed.

Lemma take_drop_string i s : take_string i s +:+ drop_string i s = s.
Proof.
  revert i. induction s as [|c s IH]; intros i; [by destruct i|].
  destruct i as [|i]; [by rewrite take_string_0, drop_string_0|].
  by rewrite take_string_S, drop_string_S, append_cons, IH.
Qed.

Lemma length_take_string i s : String.length (take_string i s) = Nat.min i (String.length s).
Proof.
  revert i. induction s as [|c s IH]; intros i; [by destruct i|].
  destruct i as [|i]; [done|]. rewrite take_string_S. cbn. by rewrite IH.
Qed.

Lemma length_drop_string i s : String.length (drop_string i s) = (String.length s - i)%nat.
Proof.
  revert i. induction s as [|c s IH]; intros i; [by destruct i|].
  destruct i as [|i]; [by rewrite drop_string_0|]. by rewrite drop_string_S, IH.
Qed.

Lemma take_string_all i s : (String.length s <= i)%nat → take_string i s = s.
Proof.
  revert i. induction s as [|c s IH]; intros [|i] Hi; cbn in Hi; try done; [lia|].
  rewrite take_string_S, IH by lia. done.
Qed.
