(* ===== verification/PyFormat.v ===== *)
(** * round() and the printf formats of Python floats

    [round(x, n)] and ["%g" % x], as the language defines them: the exact
    value of the float, in decimal, correctly rounded (ties to even).
    Comparisons of floats with integers are exact, too. *)

From S2P Require Import Prelude PyFloat FloatOrder PyString.
From Stdlib Require Import SpecFloat Strings.Ascii.
From stdpp Require Import pretty.

Local Open Scope Z_scope.

Definition OverflowError : exn := UserError "OverflowError".

(** ** Exact values *)

(** The absolute value of [S754_finite _ m e], as a fraction. *)
Definition numerator (m : positive) (e : Z) : Z := if 0 <=? e then Zpos m * 2 ^ e else Zpos m.
Definition denominator (e : Z) : Z := if 0 <=? e then 1 else 2 ^ (- e).

(** [n / d] to the nearest integer, ties to even. *)
Definition div_even (n d : Z) : Z :=
  let q := n / d in
  let r := n mod d in
  if 2 * r <? d then q else if 2 * r =? d then (if Z.even q then q else q + 1) else q + 1.

(** The float nearest to [n / d]. *)
Definition of_ratio (s : bool) (n : Z) (d : positive) : float :=
  match n with
  | Zpos _ =>
      let '(q, e, l) := SFdiv_core_binary prec emax n 0 (Zpos d) 0 in
      binary_round_aux prec emax s q e l
  | _ => S754_zero s
  end.

(** [x <= n] and [x >= n] for an integer [n]. *)
Definition fle_int (x : float) (n : Z) : bool :=
  match x with
  | S754_nan => false
  | S754_infinity s => s
  | S754_zero _ => 0 <=? n
  | S754_finite false m e => numerator m e <=? n * denominator e
  | S754_finite true m e => - numerator m e <=? n * denominator e
  end.

Definition fge_int (x : float) (n : Z) : bool :=
  match x with
  | S754_nan => false
  | S754_infinity s => negb s
  | S754_zero _ => n <=? 0
  | S754_finite false m e => n * denominator e <=? numerator m e
  | S754_finite true m e => n * denominator e <=? - numerator m e
  end.

(** An integer as an operand of a float. *)
Definition int_float (n : Z) : res float :=
  match of_Z n with S754_infinity _ => Raise OverflowError | x => Ok x end.

(** ** round(x, ndigits) *)

Definition fround (x : float) (ndigits : Z) : res float :=
  match x with
  | S754_finite s m e =>
      if 323 <? ndigits then Ok x
      else if ndigits <? -308 then Ok (S754_zero s)
      else
        let r :=
          if 0 <=? ndigits then
            of_ratio s (div_even (numerator m e * 10 ^ ndigits) (denominator e))
              (Z.to_pos (10 ^ ndigits))
          else of_ratio s (div_even (numerator m e) (denominator e * 10 ^ (- ndigits))
                           * 10 ^ (- ndigits)) 1 in
        match r with S754_infinity _ => Raise OverflowError | _ => Ok r end
  | _ => Ok x
  end.

(** ** "%g" % x *)

(** [10 ^ k <= n / d] *)
Definition pow10_le (k n d : Z) : bool :=
  if 0 <=? k then 10 ^ k * d <=? n else d <=? n * 10 ^ (- k).

(** The exponent of the first decimal digit of [n / d]: the estimate from the
    binary logarithm is off by at most two. *)
Definition exponent10 (n d : Z) : Z :=
  let k := (Z.log2 n - Z.log2 d) * 30103 / 100000 in
  if pow10_le (k + 2) n d then k + 2
  else if pow10_le (k + 1) n d then k + 1
  else if pow10_le k n d then k
  else if pow10_le (k - 1) n d then k - 1
  else k - 2.

(** Six significant digits, and the exponent of the first. *)
Definition six_digits (n d : Z) : Z * Z :=
  let k := exponent10 n d in
  let q := if k <=? 5 then div_even (n * 10 ^ (5 - k)) d else div_even n (d * 10 ^ (k - 5)) in
  if q =? 10 ^ 6 then (10 ^ 5, k + 1) else (q, k).

Definition strip_zeros (s : string) : string := rstrip "0"%char s.

Definition with_fraction (integer fraction : string) : string :=
  match fraction with EmptyString => integer | _ => integer +:+ "." +:+ fraction end.

Fixpoint zeros (n : nat) : string :=
  match n with O => "" | S n => "0" +:+ zeros n end.

Definition two_digits (n : Z) : string := (if n <? 10 then "0" else "") +:+ pretty n.

Definition format_digits (digits : string) (k : Z) : string :=
  if (-4 <=? k) && (k <? 6) then
    if 0 <=? k then
      with_fraction (take_string (Z.to_nat k + 1) digits)
        (strip_zeros (drop_string (Z.to_nat k + 1) digits))
    else with_fraction "0" (strip_zeros (zeros (Z.to_nat (- k - 1)) +:+ digits))
  else
    with_fraction (take_string 1 digits) (strip_zeros (drop_string 1 digits))
    +:+ "e" +:+ (if k <? 0 then "-" else "+") +:+ two_digits (Z.abs k).

Definition format_g (x : float) : string :=
  match x with
  | S754_nan => "nan"
  | S754_infinity s => if s then "-inf" else "inf"
  | S754_zero s => if s then "-0" else "0"
  | S754_finite s m e =>
      let '(q, k) := six_digits (numerator m e) (denominator e) in
      (if s then "-" else "") +:+ format_digits (pretty q) k
  end.

(** ** round(x, 2) of a finite float returns

    A float of [2^53] or more is an integer, which the rounding does not change;
    below, the result cannot be large enough to overflow. *)

Lemma iter_shr_m p r : 0 <= shr_m r → shr_m (SpecFloat.iter_pos shr_1 p r) = shr_m r / 2 ^ Zpos p.
Proof.
  intros Hr. assert (∀ q, shr_m (SpecFloat.iter_pos shr_1 q r) = shr_m r / 2 ^ Zpos q ∧ 0 <= shr_m r / 2 ^ Zpos q) as H;
    [|apply H].
  assert (∀ r, 0 <= shr_m r → shr_m (shr_1 r) = shr_m r / 2) as H1.
  { intros [q a b] Hq. by rewrite shr_1_eq. }
  clear p. intros p. revert r Hr. induction p as [p IH|p IH|]; intros r Hr; simpl.
  - pose proof (Z.div_pos (shr_m r) 2 Hr ltac:(lia)) as Hp1. rewrite <- H1 in Hp1 by done.
    destruct (IH _ Hp1) as [E1 P1]. rewrite <- E1 in P1. destruct (IH _ P1) as [E2 P2].
    rewrite E2, E1, H1 in * by done. pose proof (pow2_pos (Zpos p) ltac:(lia)).
    replace (2 ^ Zpos p~1) with (2 * 2 ^ Zpos p * 2 ^ Zpos p); [by rewrite <- !Z.div_div by lia|].
    replace (Zpos p~1) with (1 + Zpos p + Zpos p) by lia. by rewrite !pow2_split by lia.
  - destruct (IH _ Hr) as [E1 P1]. rewrite <- E1 in P1. destruct (IH _ P1) as [E2 P2].
    rewrite E2, E1 in *. pose proof (pow2_pos (Zpos p) ltac:(lia)).
    replace (2 ^ Zpos p~0) with (2 ^ Zpos p * 2 ^ Zpos p); [by rewrite <- !Z.div_div by lia|].
    replace (Zpos p~0) with (Zpos p + Zpos p) by lia. by rewrite !pow2_split by lia.
  - rewrite H1 by done. split; [done|]. apply Z.div_pos; lia.
Qed.

Lemma shr_fexp_small q e l :
  0 <= q → Zdigits2 q + e <= 900 → e <= 900 →
  ∃ r e', shr_fexp prec emax q e l = (r, e') ∧ 0 <= shr_m r < 2 ^ 53 ∧ -1074 <= e' <= 900.
Proof.
  intros Hq Hd He. unfold shr_fexp, shr. rewrite fexp_eq.
  set (n := Z.max (Zdigits2 q + e - 53) (-1074) - e).
  assert (shr_m (shr_record_of_loc q l) = q) as Hm by (by destruct l as [|[]]).
  assert (q < 2 ^ Zdigits2 q) as Hlt.
  { destruct q as [|q|q]; [done| |lia]. cbn [Zdigits2]. rewrite digits_log2.
    apply (Z.log2_spec (Zpos q)). lia. }
  destruct n as [|p|p] eqn:Hn; eexists _, _; (split; [done|]); rewrite ?iter_shr_m by (by rewrite Hm);
    rewrite Hm; (split; [|unfold n in Hn; lia]).
  - pose proof (pow2_le (Zdigits2 q) 53 ltac:(unfold n in Hn; lia)). lia.
  - pose proof (pow2_pos (Zpos p) ltac:(lia)). split; [apply Z.div_pos; lia|].
    apply Z.div_lt_upper_bound; [lia|]. rewrite <- pow2_split by lia.
    pose proof (pow2_le (Zdigits2 q) (Zpos p + 53) ltac:(unfold n in Hn; lia)). lia.
  - pose proof (pow2_le (Zdigits2 q) 53 ltac:(unfold n in Hn; lia)). lia.
Qed.

Lemma round_aux_finite s q e l :
  0 <= q → Zdigits2 q + e <= 900 → e <= 900 →
  finite (binary_round_aux prec emax s q e l) = true.
Proof.
  intros Hq Hd He. unfold binary_round_aux.
  destruct (shr_fexp_small q e l Hq Hd He) as (r & e1 & -> & Hr & He1).
  assert (0 <= round_nearest_even (shr_m r) (loc_of_shr_record r) <= 2 ^ 53) as Hz.
  { unfold round_nearest_even. destruct (loc_of_shr_record r) as [|[]]; try lia. case_match; lia. }
  set (z := round_nearest_even _ _) in *. change (Z.sub emax prec) with 971.
  destruct (Z.eq_dec z (2 ^ 53)) as [->|].
  - rewrite shr_fexp_carry by lia. cbn -[Z.pow]. change (2 ^ 52) with (Zpos (2 ^ 52)). cbv beta iota.
    by destruct (Z.leb_spec (e1 + 1) 971); [|lia].
  - rewrite shr_fexp_fits by lia. cbn [shr_m]. destruct z; [done| |lia].
    by destruct (Z.leb_spec e1 971); [|lia].
Qed.

Lemma div_even_bounds n d : 0 <= n → 0 < d → 0 <= div_even n d <= n / d + 1.
Proof.
  intros Hn Hd. unfold div_even. pose proof (Z.div_pos n d Hn Hd).
  repeat case_match; lia.
Qed.

Lemma log2_digits n : 0 < n → Zdigits2 n = Z.log2 n + 1.
Proof. destruct n; [lia|intros _; apply digits_log2|lia]. Qed.

(** A quotient by [100] of a small integer. *)
Lemma of_ratio_finite s n : 0 <= n < 2 ^ 60 → finite (of_ratio s n 100) = true.
Proof.
  intros Hn. unfold of_ratio. destruct n as [|n|n]; [done| |lia].
  unfold SFdiv_core_binary. change (Zdigits2 100) with 7. rewrite log2_digits by lia.
  rewrite fexp_eq. pose proof (Z.log2_nonneg (Zpos n)) as L0.
  assert (Z.log2 (Zpos n) < 60) as L1 by (apply Z.log2_lt_pow2; lia).
  set (e := Z.min _ _). assert (-60 <= e <= 0) as He by (unfold e; lia).
  set (m := match 0 - 0 - e with Z0 => _ | Zpos _ => _ | Zneg _ => _ end).
  assert (0 <= m < 2 ^ 120) as Hm.
  { unfold m. destruct (0 - 0 - e) as [|p|p] eqn:E; [lia| |lia]. rewrite Z.shiftl_mul_pow2 by lia.
    pose proof (pow2_le (Zpos p) 60 ltac:(lia)). pose proof (pow2_pos (Zpos p) ltac:(lia)). nia. }
  assert (Z.div_eucl m 100 = (m / 100, m mod 100)) as ->.
  { unfold Z.div, Z.modulo. by destruct (Z.div_eucl m 100). }
  assert (0 <= m / 100 <= m) as Hq by (split; [apply Z.div_pos; lia|apply Z.div_le_upper_bound; lia]).
  apply round_aux_finite; [lia| |lia]. destruct (Z.eq_dec (m / 100) 0) as [->|]; [simpl; lia|].
  rewrite log2_digits by lia. assert (Z.log2 (m / 100) < 120) by (apply Z.log2_lt_pow2; lia). lia.
Qed.

(** An integer, divided by [100] after it was multiplied, is unchanged. *)
Lemma of_ratio_integer m e :
  canon (Zpos m) e → 0 <= e →
  of_ratio false (Zpos m * 2 ^ e * 100) 100 = S754_finite false m e.
Proof.
  intros Hc He. pose proof (pow2_pos e He) as Hp. set (n := Zpos m * 2 ^ e).
  assert (0 < n) as Hn by (unfold n; lia). unfold of_ratio.
  destruct (n * 100) as [|p|p] eqn:E; [lia| |lia]. rewrite <- E.
  unfold SFdiv_core_binary. change (Zdigits2 100) with 7. rewrite log2_digits, fexp_eq by lia.
  assert (Z.log2 (n * 100) <= Z.log2 n + 7) as HL.
  { rewrite Z.add_comm, <- Z.log2_mul_pow2 by lia. apply Z.log2_le_mono. change (2 ^ 7) with 128. lia. }
  pose proof (Z.log2_nonneg (n * 100)) as HL0.
  set (f := Z.min _ _). assert (-60 <= f <= 0) as Hf by (unfold f; lia).
  set (x := match 0 - 0 - f with Z0 => _ | Zpos _ => _ | Zneg _ => _ end).
  assert (x = n * 2 ^ (- f) * 100) as ->.
  { unfold x. replace (0 - 0 - f) with (- f) by lia. destruct (- f) as [|q|q] eqn:Ef; [simpl; lia| |lia].
    rewrite Z.shiftl_mul_pow2 by lia. lia. }
  assert (Z.div_eucl (n * 2 ^ (- f) * 100) 100 = (n * 2 ^ (- f), 0)) as ->.
  { pose proof (Z.div_mul (n * 2 ^ (- f)) 100 ltac:(lia)) as H1.
    pose proof (Z.mod_mul (n * 2 ^ (- f)) 100 ltac:(lia)) as H2. unfold Z.div, Z.modulo in *.
    destruct (Z.div_eucl _ 100). by subst. }
  change (new_location 100 0) with loc_Exact.
  pose proof (pow2_pos (- f) ltac:(lia)) as Hpf.
  destruct (n * 2 ^ (- f)) as [|y|y] eqn:Ey; [lia| |lia].
  assert (scaled (Zpos y) f = scaled (Zpos m) e) as Es.
  { rewrite <- Ey. unfold n, scaled. replace (e + K) with (e + (- f + (f + K))) by lia.
    rewrite (pow2_split e), (pow2_split (- f)) by (unfold K; lia). ring. }
  apply (denotes_inj _ _ (scaled (Zpos m) e)); [|by split].
  rewrite <- (rounded_exact (Zpos m) e Hc), <- Es. apply round_aux_denotes; [unfold K; lia|].
  rewrite fexp_eq, <- Ey, Z.log2_mul_pow2 by lia. unfold f in *. lia.
Qed.

Lemma fround_returns x : fvalid x = true → finite x = true → ∃ y, fround x 2 = Ok y.
Proof.
  intros [v Hv]%fvalid_denotes Hf. destruct x as [s|s| |[] m e]; try done; [by eexists|].
  destruct Hv as [Hc _]. unfold fround. cbv beta iota.
  change (323 <? 2) with false. change (2 <? -308) with false. change (0 <=? 2) with true.
  change (Z.to_pos (10 ^ 2)) with 100%positive. change (10 ^ 2) with 100. cbv beta iota.
  unfold numerator, denominator. destruct (Z.leb_spec 0 e) as [He|He].
  - assert (div_even (Zpos m * 2 ^ e * 100) 1 = Zpos m * 2 ^ e * 100) as ->.
    { unfold div_even. by rewrite Z.mod_1_r, Z.div_1_r. }
    rewrite of_ratio_integer by done. by eexists.
  - assert (finite (of_ratio false (div_even (Zpos m * 100) (2 ^ (- e))) 100) = true) as Hfin.
    { apply of_ratio_finite. destruct Hc as (_ & Hm & _). pose proof (pow2_le 1 (- e) ltac:(lia)) as H2.
      pose proof (div_even_bounds (Zpos m * 100) (2 ^ (- e)) ltac:(lia) ltac:(lia)) as Hd.
      assert (Zpos m * 100 / 2 ^ (- e) <= Zpos m * 100); [|lia]. apply Z.div_le_upper_bound; nia. }
    destruct (of_ratio false _ 100) eqn:E; try done; by eexists.
Qed.

(** ** Examples *)

Example format_g_demo :
  format_g (of_Q 1 10) = "0.1" ∧ format_g (of_Z 100) = "100" ∧ format_g (of_Q 100 3) = "33.3333" ∧
  format_g (of_Z 1000000) = "1e+06" ∧ format_g (of_Q 246913 2) = "123456" ∧
  format_g (of_Q 1 10000) = "0.0001" ∧ format_g (of_Q 1 100000) = "1e-05" ∧
  format_g (of_Q (-99999951) 100) = "-1e+06" ∧ format_g (of_Z (10 ^ 300)) = "1e+300".
Proof. vm_compute. done. Qed.

Example fround_demo :
  fround (of_Q 2675 1000) 2 = Ok (of_Q 267 100) ∧ fround (of_Q 5 2) 0 = Ok (of_Z 2) ∧
  fround (of_Z 1250) (-2) = Ok (of_Z 1200) ∧ fround (of_Q 100 3) 2 = Ok (of_Q 3333 100).
Proof. vm_compute. done. Qed.
