(* ===== verification/PyParse.v ===== *)
(** * Numbers and lines read from text

    [str.strip], [int(s)] and [float(s)] of Python, and the lines of a text
    file. Characters are bytes; white space is that of ASCII. *)

From S2P Require Import Prelude PyFloat PyString PyFormat.
From Stdlib Require Import SpecFloat Strings.Ascii.

Local Open Scope string_scope.

(** ** Strings *)

Definition is_white (c : ascii) : bool :=
  let n := nat_of_ascii c in (9 <=? n)%nat && (n <=? 13)%nat || (28 <=? n)%nat && (n <=? 32)%nat.

Fixpoint lstrip_white (s : string) : string :=
  match s with
  | EmptyString => EmptyString
  | String c s' => if is_white c then lstrip_white s' else s
  end.

Fixpoint rstrip_white (s : string) : string :=
  match s with
  | EmptyString => EmptyString
  | String c s' =>
      match rstrip_white s' with
      | EmptyString => if is_white c then EmptyString else String c EmptyString
      | r => String c r
      end
  end.

(** [s.strip()] *)
Definition strip (s : string) : string := rstrip_white (lstrip_white s).

(** [s.split(c, 1)]: what comes before the first [c] and after it. *)
Fixpoint split_once (c : ascii) (s : string) : option (string * string) :=
  match s with
  | EmptyString => None
  | String x s =>
      if Ascii.eqb x c then Some (EmptyString, s)
      else match split_once c s with Some (a, b) => Some (String x a, b) | None => None end
  end.

(** [s.split(c)] *)
Fixpoint split_all (c : ascii) (s : string) : list string :=
  match s with
  | EmptyString => [EmptyString]
  | String x s =>
      let l := split_all c s in
      if Ascii.eqb x c then EmptyString :: l
      else match l with w :: l => String x w :: l | [] => [String x EmptyString] end
  end.

Definition newline : ascii := ascii_of_nat 10.
Definition carriage_return : ascii := ascii_of_nat 13.

(** The lines of a file opened in text mode, which any of the three ends of
    line ends. *)
Definition universal_newlines (s : string) : string :=
  replace (String carriage_return "") (String newline "")
    (replace (String carriage_return (String newline "")) (String newline "") s).

Definition text_lines (s : string) : list string :=
  let l := split_all newline (universal_newlines s) in
  match last l with
  | Some EmptyString => removelast l
  | _ => l
  end.

(** [f.readline()], without the end of line. *)
Definition first_line (s : string) : string := default EmptyString (head (text_lines s)).

(** ** Numbers *)

Definition digit (c : ascii) : option Z :=
  let n := nat_of_ascii c in
  if (48 <=? n)%nat && (n <=? 57)%nat then Some (Z.of_nat n - 48)%Z else None.

(** Digits with single underscores in between: their value and number. *)
Fixpoint read_digits (acc : Z) (n : nat) (after_digit : bool) (s : string) : option (Z * nat) :=
  match s with
  | EmptyString => if after_digit then Some (acc, n) else None
  | String c s =>
      match digit c with
      | Some d => read_digits (acc * 10 + d)%Z (S n) true s
      | None => if Ascii.eqb c "_"%char && after_digit then read_digits acc n false s else None
      end
  end.
Definition digits (s : string) : option (Z * nat) := read_digits 0 0 false s.

(** The sign and what follows it. *)
Definition read_sign (s : string) : bool * string :=
  match s with
  | String c s' => if Ascii.eqb c "-"%char then (true, s') else if Ascii.eqb c "+"%char then (false, s') else (false, s)
  | EmptyString => (false, s)
  end.

(** [int(s)] *)
Definition int_of_string (s : string) : res Z :=
  let '(negative, s) := read_sign (strip s) in
  n ← or_raise ValueError (digits s);
  Ok (if negative : bool then - n.1 else n.1)%Z.

Definition lower (c : ascii) : ascii :=
  let n := nat_of_ascii c in if (65 <=? n)%nat && (n <=? 90)%nat then ascii_of_nat (n + 32) else c.
Fixpoint lower_string (s : string) : string :=
  match s with EmptyString => EmptyString | String c s => String (lower c) (lower_string s) end.

(** The decimal [(-1)^negative * mantissa * 10^exponent]. *)
Definition of_decimal (negative : bool) (mantissa exponent : Z) : float :=
  if (0 <=? exponent)%Z then of_ratio negative (mantissa * 10 ^ exponent) 1
  else of_ratio negative mantissa (Z.to_pos (10 ^ (- exponent))).

(** The part before the exponent: its digits, and how many come after the
    point. *)
Definition read_mantissa (s : string) : option (Z * nat) :=
  match split_once "."%char s with
  | None => n ← digits s; Some (n.1, 0%nat)
  | Some (EmptyString, f) => n ← digits f; Some n
  | Some (i, EmptyString) => n ← digits i; Some (n.1, 0%nat)
  | Some (i, f) => a ← digits i; b ← digits f; Some (a.1 * 10 ^ Z.of_nat b.2 + b.1, b.2)%Z
  end.

Definition read_float (s : string) : option float :=
  let '(negative, s) := read_sign (lower_string (strip s)) in
  if String.eqb s "inf" || String.eqb s "infinity" then Some (S754_infinity negative)
  else if String.eqb s "nan" then Some S754_nan
  else
    match split_once "e"%char s with
    | None => m ← read_mantissa s; Some (of_decimal negative m.1 (- Z.of_nat m.2))
    | Some (m, e) =>
        m ← read_mantissa m;
        let '(eneg, e) := read_sign e in
        e ← digits e;
        Some (of_decimal negative m.1 ((if eneg : bool then - e.1 else e.1) - Z.of_nat m.2))
    end%Z.

(** [float(s)] *)
Definition float_of_string (s : string) : res float := or_raise ValueError (read_float s).

Example parse_demo :
  int_of_string " -1_024 " = Ok (-1024)%Z ∧ int_of_string "1__0" = Raise ValueError ∧
  int_of_string "" = Raise ValueError ∧
  float_of_string "0.125" = Ok (of_Q 1 8) ∧ float_of_string "1e-1" = Ok (of_Q 1 10) ∧
  float_of_string "-.5E+1" = Ok (of_Z (-5)) ∧ float_of_string "0.3" = Ok (of_Q 3 10) ∧
  float_of_string "1." = Ok f1 ∧ float_of_string "." = Raise ValueError ∧ float_of_string "1 2" = Raise ValueError ∧
  text_lines (String "a" (String newline (String carriage_return (String newline "b")))) = ["a"; ""; "b"].
Proof. by vm_compute. Qed.
