(* ===== verification/Elo.v ===== *)
(** * Ratings of PvP players (class Elo of cms/service/PvPService.py)

    [players] is the dictionary from participation ids to ratings. The power
    operator on floats is the C library's [pow], a parameter that may also
    overflow. *)

From S2P Require Import Prelude PyFloat.

Definition S_RATING : float := of_Z 1500.

Definition elo : Type := pydict Z float.

(** [{i: Elo.S_RATING for i in participation_ids}] *)
Definition elo_init (participation_ids : list Z) : elo :=
  foldl (λ d i, pd_set d i S_RATING) [] participation_ids.

Section Elo.
Context (fpow : float → float → res float).

(** [1 / (1 + 10 ** ((rating_b - rating_a) / 400))] *)
Definition expected_score (rating_a rating_b : float) : res float :=
  p ← fpow (of_Z 10) (fdiv (fsub rating_b rating_a) (of_Z 400));
  fdiv_py (of_Z 1) (fadd (of_Z 1) p).

Definition update_elo (rating expected actual k : float) : float :=
  fadd rating (fmul k (fsub actual expected)).

Definition update_scores (player_a player_b : Z) (result1 result2 k : float) (d : elo)
    : res elo :=
  ra ← or_raise KeyError (pd_get d player_a);
  rb ← or_raise KeyError (pd_get d player_b);
  expected_a ← expected_score ra rb;
  expected_b ← expected_score rb ra;
  let sum := fadd result1 result2 in
  result1 ← fdiv_py result1 sum;
  result2 ← fdiv_py result2 sum;
  let d := pd_set d player_a (update_elo ra expected_a result1 k) in
  rb ← or_raise KeyError (pd_get d player_b);
  Ok (pd_set d player_b (update_elo rb expected_b result2 k)).

(** Only the two players' ratings change. *)
Lemma update_scores_frame a b r1 r2 k d d' :
  update_scores a b r1 r2 k d = Ok d' →
  pd_keys d' = pd_keys d ∧ ∀ p, p ≠ a → p ≠ b → pd_get d' p = pd_get d p.
Proof.
  unfold update_scores. intros H.
  apply res_bind_Ok in H as (ra & Ha & H). apply res_bind_Ok in H as (rb & Hb & H).
  apply res_bind_Ok in H as (ea & _ & H). apply res_bind_Ok in H as (eb & _ & H).
  apply res_bind_Ok in H as (q1 & _ & H). apply res_bind_Ok in H as (q2 & _ & H).
  apply res_bind_Ok in H as (rb' & Hb' & H). injection H as <-.
  destruct (pd_get d a) eqn:Ea; [|done]. destruct (pd_get d b) eqn:Eb; [|done].
  assert (a ∈ pd_keys d) by (apply pd_get_in; eauto).
  assert (b ∈ pd_keys d) by (apply pd_get_in; eauto). split.
  - rewrite !pd_keys_set_in; [done|done|]. by rewrite pd_keys_set_in.
  - intros p Hpa Hpb. by rewrite !pd_get_set_ne.
Qed.
End Elo.

(** ** From ratings to scores *)

(** [sorted(l, key=lambda x: x[1], reverse=True)]: a stable sort. *)
Fixpoint insert_desc (x : Z * float) (l : list (Z * float)) : list (Z * float) :=
  match l with
  | [] => [x]
  | y :: l => if fltb y.2 x.2 then x :: y :: l else y :: insert_desc x l
  end.

Definition sort_desc (l : list (Z * float)) : list (Z * float) :=
  foldl (λ acc x, insert_desc x acc) [] l.

Definition calc_score (rating min_rating max_rating min_score max_score : float) : res float :=
  _ ← assert (fleb min_rating rating && fleb rating max_rating);
  if feqb min_rating max_rating then Ok max_score
  else
    q ← fdiv_py (fmul (fsub max_score min_score) (fsub rating min_rating))
          (fsub max_rating min_rating);
    Ok (fadd q min_score).

(** Percentages and the range of scores of each class of players. *)
Definition div : list (Z * float * float) :=
  [(10%Z, of_Q 85 100, of_Q 100 100);
   (30%Z, of_Q 60 100, of_Q 85 100);
   (30%Z, of_Q 35 100, of_Q 60 100);
   (20%Z, of_Q 20 100, of_Q 35 100);
   (10%Z, of_Q 5 100, of_Q 20 100)].

(** [int(ceil(total_number * sum_percent / 100))] *)
Definition class_end (total_number : nat) (sum_percent : Z) : res nat :=
  z ← fceil (fdiv (of_Z (Z.of_nat total_number * sum_percent)) (of_Z 100));
  Ok (Z.to_nat z).

(** [l[i:j]] *)
Definition slice {A} (i j : nat) (l : list A) : list A := take (j - i) (drop i l).

(** The scores of one class. *)
Fixpoint class_scores (min_rating max_rating min_score max_score : float)
    (l : list (Z * float)) : res (list (Z * float)) :=
  match l with
  | [] => Ok []
  | (p_id, rating) :: l =>
      s ← calc_score rating min_rating max_rating min_score max_score;
      rest ← class_scores min_rating max_rating min_score max_score l;
      Ok ((p_id, s) :: rest)
  end.

Fixpoint to_scores_loop (total_number : nat) (ratings : list (Z * float))
    (div : list (Z * float * float)) (last : nat) (sum_percent : Z)
    (scores : list (Z * float)) : res (nat * list (Z * float)) :=
  match div with
  | [] => Ok (last, scores)
  | (percent, min_score, max_score) :: div =>
      let sum_percent := (sum_percent + percent)%Z in
      pos ← class_end total_number sum_percent;
      if decide (last = pos) then
        to_scores_loop total_number ratings div last sum_percent scores
      else
        max_rating ← or_raise IndexError (ratings !! last);
        min_rating ← or_raise IndexError (ratings !! (pos - 1)%nat);
        class ← class_scores min_rating.2 max_rating.2 min_score max_score
                  (slice last pos ratings);
        to_scores_loop total_number ratings div pos sum_percent (scores ++ class)
  end.

Definition to_scores (d : elo) : res (list (Z * float)) :=
  let ratings := sort_desc d in
  let total_number := List.length (filter (λ x, fltb f0 x.2) ratings) in
  '(last, scores) ← to_scores_loop total_number ratings div 0 0 [];
  Ok (scores ++ ((λ p, (p.1, f0)) <$> drop last scores)).

(** ** The sort *)

Lemma insert_desc_perm x l : insert_desc x l ≡ₚ x :: l.
Proof.
  induction l as [|y l IH]; simpl; [done|]. destruct (fltb y.2 x.2); [done|].
  rewrite IH. apply Permutation_swap.
Qed.

Lemma sort_desc_perm l : sort_desc l ≡ₚ l.
Proof.
  unfold sort_desc. assert (∀ acc, foldl (λ acc x, insert_desc x acc) acc l ≡ₚ acc ++ l) as Hg;
    [|apply Hg]. induction l as [|x l IH]; intros acc; cbn [foldl]; [by rewrite app_nil_r|].
  rewrite IH, insert_desc_perm. by rewrite <- Permutation_middle.
Qed.

Definition no_nan (l : list (Z * float)) : Prop := ∀ x, x ∈ l → is_nan x.2 = false.

(** In descending order of rating. *)
Definition desc (a b : Z * float) : Prop := fleb b.2 a.2 = true.

Lemma insert_desc_sorted x l :
  is_nan x.2 = false → no_nan l → StronglySorted desc l → StronglySorted desc (insert_desc x l).
Proof.
  intros Hx Hn Hs. induction Hs as [|y l Hs IH Hy]; simpl; [by repeat constructor|].
  assert (is_nan y.2 = false) as Hny by (apply Hn; by left).
  assert (no_nan l) as Hnl by (intros z Hz; apply Hn; by right).
  rewrite fltb_negb_fleb by done. destruct (fleb x.2 y.2) eqn:Hle; simpl.
  - constructor; [by apply IH|]. apply Forall_forall. intros z Hz.
    rewrite insert_desc_perm in Hz. apply elem_of_cons in Hz as [-> |Hz]; [done|].
    by eapply Forall_forall in Hy.
  - assert (desc x y) as Hxy.
    { unfold desc. destruct (fleb_total x.2 y.2); [done|done|congruence|done]. }
    constructor; [by constructor|]. constructor; [done|].
    apply Forall_forall. intros z Hz. eapply Forall_forall in Hy; [|done].
    unfold desc in *. eapply (fleb_trans z.2 y.2 x.2); auto.
Qed.

Lemma sort_desc_sorted l : no_nan l → StronglySorted desc (sort_desc l).
Proof.
  unfold sort_desc. intros Hn.
  assert (∀ acc, no_nan acc → StronglySorted desc acc →
    StronglySorted desc (foldl (λ acc x, insert_desc x acc) acc l)) as Hg.
  { induction l as [|x l IH]; intros acc Ha Hs; cbn [foldl]; [done|].
    apply IH; [intros y Hy; apply Hn; by right| |].
    - intros y. rewrite insert_desc_perm. intros [-> |Hy]%elem_of_cons; [apply Hn; by left|auto].
    - apply insert_desc_sorted; [apply Hn; by left|done|done]. }
  apply Hg; [intros x Hx; by apply elem_of_nil in Hx|constructor].
Qed.

(** Positive ratings come first. *)
Lemma positive_prefix l :
  no_nan l → StronglySorted desc l →
  filter (λ x, fltb f0 x.2) l = take (List.length (filter (λ x, fltb f0 x.2) l)) l.
Proof.
  intros Hn Hs. induction Hs as [|y l Hs IH Hy]; [done|].
  assert (no_nan l) as Hnl by (intros z Hz; apply Hn; by right).
  assert (is_nan y.2 = false) as Hny by (apply Hn; by left).
  rewrite filter_cons. case_decide as Hp; cbn [List.length firstn]; [by f_equal; apply IH|].
  assert (filter (λ x, fltb f0 x.2) l = []) as ->; [|done].
  destruct (filter (λ x, fltb f0 x.2) l) as [|z zs] eqn:Hf; [done|]. exfalso.
  assert (z ∈ filter (λ x, fltb f0 x.2) l) as [Hpz Hz]%list_elem_of_filter
    by (rewrite Hf; by left).
  apply Hp.
  eapply Forall_forall in Hy; [|exact Hz]. unfold desc in Hy.
  apply Is_true_true. apply Is_true_true in Hpz.
  rewrite fltb_key in * by auto. rewrite fleb_key in Hy by auto. unfold key_lt3 in *. lia.
Qed.

(** ** The classes *)

(** The float computation agrees with the exact ceiling for every number of
    players up to 500. *)
Definition class_end_exact (n : nat) : bool :=
  forallb (λ s, bool_decide (class_end n s = Ok (Z.to_nat ((Z.of_nat n * s + 99) / 100))))
    [10; 40; 70; 90; 100]%Z.

Lemma class_ends_exact : forallb class_end_exact (seq 0 501) = true.
Proof. vm_compute. reflexivity. Qed.

Lemma class_end_eq n s :
  n ≤ 500 → s ∈ [10; 40; 70; 90; 100]%Z →
  class_end n s = Ok (Z.to_nat ((Z.of_nat n * s + 99) / 100)).
Proof.
  intros Hn Hs. pose proof class_ends_exact as Hall. rewrite forallb_forall in Hall.
  specialize (Hall n). unfold class_end_exact in Hall.
  assert (In n (seq 0 501)) as Hin by (apply in_seq; lia). specialize (Hall Hin).
  rewrite forallb_forall in Hall. apply list_elem_of_In in Hs.
  by apply Hall, bool_decide_eq_true in Hs.
Qed.

(** ** Scores of a class *)

(** The difference of two distinct ratings is not zero, as gradual underflow
    guarantees for binary64 numbers. *)
Definition gaps_ok (l : list (Z * float)) : Prop :=
  ∀ x y, x ∈ l → y ∈ l → feqb x.2 y.2 = false → feqb (fsub y.2 x.2) f0 = false.

Lemma calc_score_ok r lo hi s1 s2 :
  fleb lo r = true → fleb r hi = true →
  (feqb lo hi = false → feqb (fsub hi lo) f0 = false) →
  ∃ s, calc_score r lo hi s1 s2 = Ok s.
Proof.
  intros H1 H2 Hg. unfold calc_score. rewrite H1, H2. cbn [assert andb].
  unfold mbind, res_bind. destruct (feqb lo hi); [eauto|]. unfold fdiv_py.
  rewrite Hg by done. eauto.
Qed.

Lemma class_scores_ok lo hi s1 s2 l :
  (∀ x, x ∈ l → fleb lo x.2 = true ∧ fleb x.2 hi = true) →
  (feqb lo hi = false → feqb (fsub hi lo) f0 = false) →
  ∃ ss, class_scores lo hi s1 s2 l = Ok ss ∧ ss.*1 = l.*1.
Proof.
  intros Hl Hg. induction l as [|[p r] l IH]; [by exists []|]. cbn [class_scores].
  destruct (Hl (p, r) ltac:(by left)) as [H1 H2]. simpl in H1, H2.
  destruct (calc_score_ok r lo hi s1 s2 H1 H2 Hg) as [s ->].
  destruct IH as (ss & -> & Hss); [intros x Hx; apply Hl; by right|].
  exists ((p, s) :: ss). split; [done|]. cbn. by rewrite Hss.
Qed.

(** In a sorted list an earlier element is not smaller. *)
Lemma desc_lookup l i j x y :
  no_nan l → StronglySorted desc l → l !! i = Some x → l !! j = Some y → i ≤ j → desc x y.
Proof.
  intros Hn Hs. revert i j. induction Hs as [|z l Hs IH Hz]; intros i j Hi Hj Hij; [done|].
  assert (no_nan l) as Hnl by (intros ??; apply Hn; by right).
  destruct i as [|i], j as [|j]; simpl in *; try lia.
  - injection Hi as <-. injection Hj as <-. unfold desc.
    assert (is_nan z.2 = false) by (apply Hn; by left). by destruct (fleb_total z.2 z.2).
  - injection Hi as <-. eapply Forall_forall in Hz; [done|]. by eapply list_elem_of_lookup_2.
  - apply (IH Hnl i j); [done|done|lia].
Qed.

Lemma slice_elem {A} i j (l : list A) x :
  x ∈ slice i j l → ∃ k, i ≤ k < j ∧ l !! k = Some x.
Proof.
  unfold slice. intros (k & Hk)%list_elem_of_lookup. exists (i + k).
  apply lookup_take_Some in Hk as [Hk Hlt]. rewrite lookup_drop in Hk. split; [lia|done].
Qed.

Lemma slice_app {A} i j k (l : list A) :
  i ≤ j → j ≤ k → slice i j l ++ slice j k l = slice i k l.
Proof.
  unfold slice. intros Hij Hjk. replace (k - i) with ((j - i) + (k - j)) by lia.
  rewrite <- take_take_drop, drop_drop. repeat f_equal; lia.
Qed.

(** The classes still to be treated, their cumulated percentages ending at
    100. *)
Fixpoint ends_ok (sum : Z) (d : list (Z * float * float)) : Prop :=
  match d with
  | [] => sum = 100%Z
  | (p, _, _) :: d => (0 <= p)%Z ∧ (sum + p)%Z ∈ [10; 40; 70; 90; 100]%Z ∧ ends_ok (sum + p) d
  end.

Definition exact_end (n : nat) (s : Z) : nat := Z.to_nat ((Z.of_nat n * s + 99) / 100).

Lemma exact_end_mono n s s' :
  (0 <= s <= s')%Z → exact_end n s ≤ exact_end n s'.
Proof.
  intros Hs. unfold exact_end.
  assert ((Z.of_nat n * s + 99) / 100 <= (Z.of_nat n * s' + 99) / 100)%Z
    by (apply Z.div_le_mono; nia).
  lia.
Qed.

Lemma exact_end_100 n : exact_end n 100 = n.
Proof.
  unfold exact_end. replace (Z.of_nat n * 100 + 99)%Z with (99 + Z.of_nat n * 100)%Z by lia.
  rewrite Z.div_add by lia. change (99 / 100)%Z with 0%Z. lia.
Qed.

Lemma to_scores_loop_ok n ratings d last sum scores :
  n ≤ 500 → n ≤ List.length ratings → no_nan ratings → gaps_ok ratings →
  StronglySorted desc ratings → (0 <= sum <= 100)%Z → last = exact_end n sum → ends_ok sum d →
  scores.*1 = (take last ratings).*1 →
  ∃ scores', to_scores_loop n ratings d last sum scores = Ok (n, scores') ∧
             scores'.*1 = (take n ratings).*1.
Proof.
  intros Hn Hlen Hnn Hg Hs. revert last sum scores.
  induction d as [|[[p s1] s2] d IH]; intros last sum scores Hsum Hlast Hd Hsc.
  - simpl in Hd. subst sum. rewrite exact_end_100 in Hlast. subst last. by exists scores.
  - destruct Hd as (Hp & Hin & Hd). cbn [to_scores_loop].
    rewrite class_end_eq by done. fold (exact_end n (sum + p)).
    unfold mbind at 1, res_bind.
    assert (sum + p <= 100)%Z as Hle by (revert Hin; rewrite !elem_of_cons, elem_of_nil; lia).
    assert (last ≤ exact_end n (sum + p)) as Hmono by (subst last; apply exact_end_mono; lia).
    assert (exact_end n (sum + p) ≤ n) as Hbound.
    { rewrite <- (exact_end_100 n) at 2. apply exact_end_mono. lia. }
    remember (exact_end n (sum + p)) as pos eqn:Hpos.
    case_decide as Heq; [apply IH; try done; [lia|by rewrite Heq]|].
    destruct (lookup_lt_is_Some_2 ratings last ltac:(lia)) as [hi Hhi].
    destruct (lookup_lt_is_Some_2 ratings (pos - 1) ltac:(lia)) as [lo Hlo].
    rewrite Hhi, Hlo. cbn [or_raise mbind res_bind].
    destruct (class_scores_ok lo.2 hi.2 s1 s2 (slice last pos ratings)) as (ss & -> & Hss).
    + intros x (k & Hk & Hx)%slice_elem. split.
      * by apply (desc_lookup ratings k (pos - 1)); [..|lia].
      * by apply (desc_lookup ratings last k); [..|lia].
    + apply Hg; by eapply list_elem_of_lookup_2.
    + apply IH; try done; [lia|]. rewrite fmap_app, Hsc, Hss, <- fmap_app. f_equal.
      pose proof (slice_app 0 last pos ratings) as Hsl. unfold slice in Hsl at 1 3.
      rewrite !Nat.sub_0_r, !drop_0 in Hsl. apply Hsl; lia.
Qed.

(** On a table of at most 500 ratings without NaN, [to_scores] returns:
    every player with a positive rating gets exactly one score, in descending
    order of rating, and the players rated zero or less get none. (The source
    means to give them 0.0, but the loop that does it runs over [scores[last:]],
    which is empty, and not over the remaining ratings.) *)
Theorem to_scores_positive (d : elo) :
  List.length d ≤ 500 → no_nan d → gaps_ok d →
  ∃ scores, to_scores d = Ok scores ∧
    scores.*1 = (filter (λ x, fltb f0 x.2) (sort_desc d)).*1 ∧
    sort_desc d ≡ₚ d ∧ StronglySorted desc (sort_desc d).
Proof.
  intros Hlen Hnn Hg. set (ratings := sort_desc d).
  assert (ratings ≡ₚ d) as Hperm by apply sort_desc_perm.
  assert (no_nan ratings) as Hnn' by (intros x; rewrite Hperm; apply Hnn).
  assert (StronglySorted desc ratings) as Hs by by apply sort_desc_sorted.
  set (n := List.length (filter (λ x, fltb f0 x.2) ratings)).
  assert (n ≤ List.length ratings) as Hnl by apply length_filter.
  assert (List.length ratings = List.length d) as Hll by (by rewrite Hperm).
  destruct (to_scores_loop_ok n ratings div 0 0 []) as (scores & Hr & Hsc); try done.
  - lia.
  - intros x y. rewrite !Hperm. apply Hg.
  - unfold exact_end. rewrite Z.mul_0_r. done.
  - repeat split; try lia; apply (bool_decide_eq_true_1 (_ ∈ _)); reflexivity.
  - assert (List.length scores = n) as Hl.
    { rewrite <- (length_fmap fst), Hsc, length_fmap, length_take. lia. }
    exists scores. split_and!; [|rewrite Hsc; f_equal; symmetry; by apply positive_prefix|done|done].
    unfold to_scores. fold ratings. fold n. rewrite Hr. cbn.
    rewrite drop_ge by lia. by rewrite app_nil_r.
Qed.

(** Players 3, 1 and 4 have played; 2 did not submit. *)
Definition demo_elo : elo :=
  [(1%Z, of_Z 1500); (2%Z, f0); (3%Z, of_Z 1520); (4%Z, of_Z 1480)].

Lemma demo_elo_nan : no_nan demo_elo.
Proof.
  intros x Hx. repeat (apply elem_of_cons in Hx as [-> |Hx]; [reflexivity|]).
  by apply elem_of_nil in Hx.
Qed.

Lemma demo_elo_gaps : gaps_ok demo_elo.
Proof.
  assert (forallb (λ x, forallb (λ y, implb (negb (feqb x.2 y.2))
    (negb (feqb (fsub y.2 x.2) f0))) demo_elo) demo_elo = true) as Hall
    by (vm_compute; reflexivity).
  intros x y Hx Hy Hne. rewrite forallb_forall in Hall.
  specialize (Hall x (proj1 (list_elem_of_In _ _) Hx)). rewrite forallb_forall in Hall.
  specialize (Hall y (proj1 (list_elem_of_In _ _) Hy)). rewrite Hne in Hall.
  by destruct (feqb (fsub y.2 x.2) f0).
Qed.

Lemma to_scores_positive_witness :
  match to_scores demo_elo with Ok scores => scores.*1 = [3; 1; 4]%Z | _ => False end ∧
  ∃ scores, to_scores demo_elo = Ok scores ∧
    scores.*1 = (filter (λ x, fltb f0 x.2) (sort_desc demo_elo)).*1.
Proof.
  split; [vm_compute; reflexivity|].
  destruct (to_scores_positive demo_elo) as (scores & Hs & Hf & _);
    [simpl; lia|exact demo_elo_nan|exact demo_elo_gaps|].
  exists scores. exact (conj Hs Hf).
Defined.
