(* ===== verification/Database.v ===== *)
(** * Rows of the database and their status predicates
    (cms/db/submission.py, cms/db/match.py, cms/db/usertest.py)

    A table is a list of records; nullable columns are options. Rows that
    SQLAlchemy keeps in a relationship owned by their parent (evaluations of
    a submission result, matchings of a match result) are fields of the
    parent. Filtering expressions sent to the database are evaluated in SQL's
    three-valued logic. Only the columns that the modelled code reads or
    writes are kept. *)

From S2P Require Import Prelude PyFloat.

(** ** SQL conditions *)

(** [None] is SQL's unknown. *)
Definition sql : Type := option bool.

Definition sql_not (a : sql) : sql := negb <$> a.

Definition sql_and (a b : sql) : sql :=
  match a, b with
  | Some false, _ | _, Some false => Some false
  | Some true, Some true => Some true
  | _, _ => None
  end.

Definition sql_or (a b : sql) : sql :=
  match a, b with
  | Some true, _ | _, Some true => Some true
  | Some false, Some false => Some false
  | _, _ => None
  end.

Definition sql_is_none {A} (a : option A) : sql :=
  Some (match a with None => true | Some _ => false end).
Definition sql_isnot_none {A} (a : option A) : sql := sql_not (sql_is_none a).

(** [column == value] on a nullable column. *)
Definition sql_eq {A} `{EqDecision A} (a : option A) (b : A) : sql :=
  (λ x, bool_decide (x = b)) <$> a.
Definition sql_ne {A} `{EqDecision A} (a : option A) (b : A) : sql := sql_not (sql_eq a b).

(** A [WHERE] keeps the rows on which the condition is true. *)
Definition holds (a : sql) : bool := match a with Some true => true | _ => false end.

Lemma holds_and a b : holds (sql_and a b) = holds a && holds b.
Proof. by destruct a as [[]|], b as [[]|]. Qed.

Lemma holds_or a b : holds (sql_or a b) = holds a || holds b.
Proof. by destruct a as [[]|], b as [[]|]. Qed.

Lemma holds_bool (b : bool) : holds (Some b) = b.
Proof. by destruct b. Qed.

(** [outerjoin]: the matching rows, or one null row. *)
Definition outer_join {A} (P : A → bool) (l : list A) : list (option A) :=
  match filter P l with
  | [] => [None]
  | l => Some <$> l
  end.

#[export] Hint Rewrite holds_and holds_or holds_bool : cms_rw.

(** ** Enumerations *)

Inductive compilation : Set := COk | CFail.
#[export] Instance compilation_eq_dec : EqDecision compilation.
Proof. solve_decision. Defined.

(** The evaluation outcome and the discarded flag have a single value. *)
Inductive evaluation : Set := EOk.
Inductive discard : Set := Discarded.

(** JSON columns. *)
Inductive json : Type :=
  | JNull
  | JBool (b : bool)
  | JInt (n : Z)
  | JFloat (x : float)
  | JString (s : string)
  | JList (l : list json)
  | JObject (l : list (string * json)).

(** ** Rows *)

(** The constraints on the number of submissions and user tests, and on the
    time between two of them, of a contest or of a task. *)
Record Limits : Type := mkLimits {
  max_submission_number : option Z;
  max_user_test_number : option Z;
  min_submission_interval : option Z;
  min_user_test_interval : option Z;
}.
Definition no_limits : Limits := mkLimits None None None None.

Record Task : Type := mkTask {
  task_id : Z;
  task_contest_id : option Z;
  task_active_dataset_id : option Z;
  task_pvp_batch : Z;
  task_title : string;
  task_score_mode : string;
  task_score_precision : Z;
  task_solved : bool;
  task_name : string;
  task_num : option Z;
  task_submission_format : list string;
  task_limits : Limits;
}.

Record Contest : Type := mkContest {
  co_id : Z;
  co_start : Z;
  co_stop : Z;
  co_languages : list string;
  co_name : string;
  co_description : string;
  co_score_precision : Z;
  co_limits : Limits;
}.

Record Participation : Type := mkParticipation {
  pa_id : Z;
  pa_contest_id : Z;
  pa_user_id : Z;
  pa_hidden : bool;
  pa_unrestricted : bool;
  pa_team_id : option Z;
}.

Record User : Type := mkUser {
  us_id : Z;
  us_first_name : string;
  us_last_name : string;
  us_username : string;
}.

Record Team : Type := mkTeam {
  tm_id : Z;
  tm_code : string;
  tm_name : string;
}.

Record Announcement : Type := mkAnnouncement {
  an_timestamp : Z;
  an_subject : string;
  an_text : string;
  an_contest_id : Z;
  an_firstblood : bool;
}.

Record Dataset : Type := mkDataset {
  ds_id : Z;
  ds_task_id : Z;
  ds_autojudge : bool;
  ds_time_limit : option float;
  ds_memory_limit : option Z;
  ds_task_type : string;
  ds_task_type_parameters : list json;
  ds_managers : pydict string string;
  ds_score_type : string;
  ds_score_type_parameters : json;
}.

Record Testcase : Type := mkTestcase {
  tc_id : Z;
  tc_dataset_id : Z;
  tc_codename : string;
  tc_input : string;
  tc_output : string;
  tc_public : bool;
}.

Record Submission : Type := mkSubmission {
  sub_id : Z;
  sub_participation_id : Z;
  sub_task_id : Z;
  sub_timestamp : Z;
  sub_language : option string;
  sub_official : bool;
  sub_pvp_batch : option Z;
  sub_token : option Z;
}.

Record File : Type := mkFile {
  fi_submission_id : Z;
  fi_filename : string;
  fi_digest : string;
}.

Record Evaluation : Type := mkEvaluation {
  ev_submission_id : Z;
  ev_dataset_id : Z;
  ev_testcase_id : Z;
  ev_outcome : option string;
  ev_text : list string;
  ev_execution_time : option float;
  ev_execution_wall_clock_time : option float;
  ev_execution_memory : option Z;
  ev_evaluation_shard : option Z;
  ev_evaluation_sandbox : option string;
}.

Record SubmissionResult : Type := mkSubmissionResult {
  sr_submission_id : Z;
  sr_dataset_id : Z;
  sr_compilation_outcome : option compilation;
  sr_compilation_text : list string;
  sr_compilation_tries : Z;
  sr_compilation_stdout : option string;
  sr_compilation_stderr : option string;
  sr_compilation_time : option float;
  sr_compilation_wall_clock_time : option float;
  sr_compilation_memory : option Z;
  sr_compilation_shard : option Z;
  sr_compilation_sandbox : option string;
  sr_evaluation_outcome : option evaluation;
  sr_submission_discarded : option discard;
  sr_evaluation_tries : Z;
  sr_score : option float;
  sr_score_details : option json;
  sr_public_score : option float;
  sr_public_score_details : option json;
  sr_ranking_score_details : option (list string);
  sr_executables : pydict string string;
  sr_evaluations : list Evaluation;
}.

Record Match : Type := mkMatch {
  m_id : Z;
  m_submission1_id : Z;
  m_submission2_id : Z;
  m_task_id : Z;
  m_timestamp : Z;
  m_batch : option Z;
  m_batch_eval_id : option Z;
  m_testcase_id : option Z;
}.

Record Matching : Type := mkMatching {
  mg_match_id : Z;
  mg_dataset_id : Z;
  mg_testcase_id : Z;
  mg_outcome : option string;
  mg_text : list string;
}.

Record MatchResult : Type := mkMatchResult {
  mr_match_id : Z;
  mr_dataset_id : Z;
  mr_evaluation_tries : Z;
  mr_matchings : list Matching;
  mr_evaluation_outcome : option evaluation;
}.

Record UserTest : Type := mkUserTest {
  ut_id : Z;
  ut_task_id : Z;
  ut_timestamp : Z;
  ut_language : option string;
  ut_input : string;
  ut_files : pydict string string;
  ut_managers : pydict string string;
  ut_participation_id : Z;
}.

Record UserTestResult : Type := mkUserTestResult {
  utr_user_test_id : Z;
  utr_dataset_id : Z;
  utr_output : option string;
  utr_compilation_outcome : option compilation;
  utr_compilation_text : list string;
  utr_compilation_tries : Z;
  utr_compilation_stdout : option string;
  utr_compilation_stderr : option string;
  utr_compilation_time : option float;
  utr_compilation_wall_clock_time : option float;
  utr_compilation_memory : option Z;
  utr_compilation_shard : option Z;
  utr_compilation_sandbox : option string;
  utr_evaluation_outcome : option evaluation;
  utr_evaluation_text : list string;
  utr_evaluation_tries : Z;
  utr_execution_time : option float;
  utr_execution_wall_clock_time : option float;
  utr_execution_memory : option Z;
  utr_evaluation_shard : option Z;
  utr_evaluation_sandbox : option string;
  utr_executables : pydict string string;
}.

Inductive batch_status : Set := BATCH_PENDING | BATCH_EVALUATING | BATCH_EVALUATED.
#[export] Instance batch_status_eq_dec : EqDecision batch_status.
Proof. solve_decision. Defined.

Record Batch : Type := mkBatch {
  ba_id : Z;
  ba_task_id : Z;
  ba_task_pvp_batch : Z;
  ba_rounds_id : Z;
  ba_rounds : Z;
  ba_rest_matches : Z;
  ba_status : batch_status;
  ba_timestamp : Z;
}.

Definition start_evaluate (b : Batch) : Batch :=
  mkBatch (ba_id b) (ba_task_id b) (ba_task_pvp_batch b) (ba_rounds_id b) (ba_rounds b)
    (ba_rest_matches b) BATCH_EVALUATING (ba_timestamp b).

Definition end_evaluate (b : Batch) : Batch :=
  mkBatch (ba_id b) (ba_task_id b) (ba_task_pvp_batch b) (ba_rounds_id b) (ba_rounds b)
    (ba_rest_matches b) BATCH_EVALUATED (ba_timestamp b).

Definition is_some {A} (o : option A) : bool := match o with Some _ => true | None => false end.

(** ** SubmissionResult *)

Module SR.
Implicit Types r : SubmissionResult.

Inductive status : Set :=
  | COMPILING | COMPILATION_FAILED | EVALUATING | SCORING | SCORED | PENDING | DISCARDED.

#[export] Instance status_eq_dec : EqDecision status.
Proof. solve_decision. Defined.

Definition compiled r : bool := is_some (sr_compilation_outcome r).
Definition compilation_failed r : bool :=
  bool_decide (sr_compilation_outcome r = Some CFail).
Definition compilation_succeeded r : bool :=
  bool_decide (sr_compilation_outcome r = Some COk).
Definition evaluated r : bool := is_some (sr_evaluation_outcome r).
Definition discarded r : bool :=
  compilation_failed r && is_some (sr_submission_discarded r).

(** [self.dataset] and [self.submission] are the rows that the result
    references. *)
Definition pending (d : Dataset) (s : Submission) r : bool :=
  negb (discarded r) && bool_decide (ds_task_type d = "PvP"%string)
  && negb (is_some (sub_pvp_batch s)).

Definition scored r : bool :=
  negb (discarded r) &&
  (is_some (sr_score r) && is_some (sr_score_details r) && is_some (sr_public_score r)
   && is_some (sr_public_score_details r) && is_some (sr_ranking_score_details r)).

Definition needs_scoring r : bool :=
  (compilation_failed r || evaluated r) && negb (scored r).

Definition get_status (d : Dataset) (s : Submission) r : status :=
  if discarded r then DISCARDED
  else if negb (compiled r) then COMPILING
  else if compilation_failed r then COMPILATION_FAILED
  else if pending d s r then PENDING
  else if negb (evaluated r) then EVALUATING
  else if negb (scored r) then SCORING
  else SCORED.

(** [get_evaluation]: the query's filters are the primary key of the
    evaluations. *)
Definition get_evaluation (t : Testcase) r : res (option Evaluation) :=
  _ ← assert (bool_decide (sr_dataset_id r = tc_dataset_id t));
  Ok (head (filter (λ e, ev_testcase_id e = tc_id t) (sr_evaluations r))).

Definition max_opt {A} (lt : A → A → bool) (acc x : option A) : option A :=
  match x with
  | None => acc
  | Some v =>
      match acc with
      | None => Some v
      | Some a => if lt a v then Some v else acc
      end
  end.

Definition get_max_evaluation_resources r : option float * option Z :=
  if evaluated r && negb (bool_decide (sr_evaluations r = [])) then
    foldl (λ acc ev, (max_opt fltb acc.1 (ev_execution_time ev),
                      max_opt Z.ltb acc.2 (ev_execution_memory ev)))
      (None, None) (sr_evaluations r)
  else (None, None).

(** *** Filtering expressions *)

Definition filter_pending (d : Dataset) (s : Submission) r : sql :=
  sql_and (sql_and (sql_and (sql_is_none (sr_submission_discarded r))
    (sql_ne (sr_compilation_outcome r) CFail))
    (Some (bool_decide (ds_task_type d = "PvP"%string))))
    (sql_is_none (sub_pvp_batch s)).

Definition filter_compiled r : sql := sql_isnot_none (sr_compilation_outcome r).

(** [expr1 and expr2] in Python: an SQLAlchemy expression has no truth value,
    except that the comparison of two columns or of a column and a literal is
    true only when both sides are the same object. The first operand is
    therefore false and it is the result. *)
Definition filter_compilation_failed r : sql := sql_eq (sr_compilation_outcome r) CFail.

Definition filter_compilation_succeeded r : sql := sql_eq (sr_compilation_outcome r) COk.

Definition filter_evaluated r : sql :=
  sql_and (sql_is_none (sr_submission_discarded r)) (sql_isnot_none (sr_evaluation_outcome r)).

Definition filter_discarded r : sql := sql_isnot_none (sr_submission_discarded r).

Definition filter_scored r : sql :=
  sql_and (sql_and (sql_and (sql_and (sql_and (sql_is_none (sr_submission_discarded r))
    (sql_isnot_none (sr_score r))) (sql_isnot_none (sr_score_details r)))
    (sql_isnot_none (sr_public_score r))) (sql_isnot_none (sr_public_score_details r)))
    (sql_isnot_none (sr_ranking_score_details r)).

(** *** Updates *)

Definition invalidate_score r : SubmissionResult :=
  mkSubmissionResult (sr_submission_id r) (sr_dataset_id r)
    (sr_compilation_outcome r) (sr_compilation_text r) (sr_compilation_tries r)
    (sr_compilation_stdout r) (sr_compilation_stderr r)
    (sr_compilation_time r) (sr_compilation_wall_clock_time r) (sr_compilation_memory r)
    (sr_compilation_shard r) (sr_compilation_sandbox r) (sr_evaluation_outcome r)
    (sr_submission_discarded r) (sr_evaluation_tries r)
    None None None None None (sr_executables r) (sr_evaluations r).

Definition invalidate_evaluation r : SubmissionResult :=
  let r := invalidate_score r in
  mkSubmissionResult (sr_submission_id r) (sr_dataset_id r)
    (sr_compilation_outcome r) (sr_compilation_text r) (sr_compilation_tries r)
    (sr_compilation_stdout r) (sr_compilation_stderr r)
    (sr_compilation_time r) (sr_compilation_wall_clock_time r) (sr_compilation_memory r)
    (sr_compilation_shard r) (sr_compilation_sandbox r) None
    (sr_submission_discarded r) 0
    (sr_score r) (sr_score_details r) (sr_public_score r) (sr_public_score_details r)
    (sr_ranking_score_details r) (sr_executables r) [].

Definition invalidate_compilation r : SubmissionResult :=
  let r := invalidate_evaluation r in
  mkSubmissionResult (sr_submission_id r) (sr_dataset_id r)
    None [] 0 (sr_compilation_stdout r) (sr_compilation_stderr r)
    None None None None None (sr_evaluation_outcome r)
    (sr_submission_discarded r) (sr_evaluation_tries r)
    (sr_score r) (sr_score_details r) (sr_public_score r) (sr_public_score_details r)
    (sr_ranking_score_details r) [] (sr_evaluations r).

Definition set_compilation_outcome (success : bool) r : SubmissionResult :=
  mkSubmissionResult (sr_submission_id r) (sr_dataset_id r)
    (Some (if success then COk else CFail)) (sr_compilation_text r) (sr_compilation_tries r)
    (sr_compilation_stdout r) (sr_compilation_stderr r)
    (sr_compilation_time r) (sr_compilation_wall_clock_time r) (sr_compilation_memory r)
    (sr_compilation_shard r) (sr_compilation_sandbox r) (sr_evaluation_outcome r)
    (sr_submission_discarded r) (sr_evaluation_tries r)
    (sr_score r) (sr_score_details r) (sr_public_score r) (sr_public_score_details r)
    (sr_ranking_score_details r) (sr_executables r) (sr_evaluations r).

Definition set_evaluation_outcome r : SubmissionResult :=
  mkSubmissionResult (sr_submission_id r) (sr_dataset_id r)
    (sr_compilation_outcome r) (sr_compilation_text r) (sr_compilation_tries r)
    (sr_compilation_stdout r) (sr_compilation_stderr r)
    (sr_compilation_time r) (sr_compilation_wall_clock_time r) (sr_compilation_memory r)
    (sr_compilation_shard r) (sr_compilation_sandbox r) (Some EOk)
    (sr_submission_discarded r) (sr_evaluation_tries r)
    (sr_score r) (sr_score_details r) (sr_public_score r) (sr_public_score_details r)
    (sr_ranking_score_details r) (sr_executables r) (sr_evaluations r).

Definition set_discarded r : SubmissionResult :=
  let r := invalidate_score (set_compilation_outcome false r) in
  mkSubmissionResult (sr_submission_id r) (sr_dataset_id r)
    (sr_compilation_outcome r) (sr_compilation_text r) (sr_compilation_tries r)
    (sr_compilation_stdout r) (sr_compilation_stderr r)
    (sr_compilation_time r) (sr_compilation_wall_clock_time r) (sr_compilation_memory r)
    (sr_compilation_shard r) (sr_compilation_sandbox r) (sr_evaluation_outcome r)
    (Some Discarded) (sr_evaluation_tries r)
    (Some f0) (Some (JString "Discarded because of newer submission."))
    (sr_public_score r) (sr_public_score_details r)
    (sr_ranking_score_details r) (sr_executables r) (sr_evaluations r).

(** [compilation_tries += 1] *)
Definition add_compilation_try r : SubmissionResult :=
  mkSubmissionResult (sr_submission_id r) (sr_dataset_id r)
    (sr_compilation_outcome r) (sr_compilation_text r) (sr_compilation_tries r + 1)
    (sr_compilation_stdout r) (sr_compilation_stderr r)
    (sr_compilation_time r) (sr_compilation_wall_clock_time r) (sr_compilation_memory r)
    (sr_compilation_shard r) (sr_compilation_sandbox r) (sr_evaluation_outcome r)
    (sr_submission_discarded r) (sr_evaluation_tries r)
    (sr_score r) (sr_score_details r) (sr_public_score r) (sr_public_score_details r)
    (sr_ranking_score_details r) (sr_executables r) (sr_evaluations r).

(** [evaluation_tries += 1] *)
Definition add_evaluation_try r : SubmissionResult :=
  mkSubmissionResult (sr_submission_id r) (sr_dataset_id r)
    (sr_compilation_outcome r) (sr_compilation_text r) (sr_compilation_tries r)
    (sr_compilation_stdout r) (sr_compilation_stderr r)
    (sr_compilation_time r) (sr_compilation_wall_clock_time r) (sr_compilation_memory r)
    (sr_compilation_shard r) (sr_compilation_sandbox r) (sr_evaluation_outcome r)
    (sr_submission_discarded r) (sr_evaluation_tries r + 1)
    (sr_score r) (sr_score_details r) (sr_public_score r) (sr_public_score_details r)
    (sr_ranking_score_details r) (sr_executables r) (sr_evaluations r).

(** [sr.evaluations += [e]] *)
Definition add_evaluation (e : Evaluation) r : SubmissionResult :=
  mkSubmissionResult (sr_submission_id r) (sr_dataset_id r)
    (sr_compilation_outcome r) (sr_compilation_text r) (sr_compilation_tries r)
    (sr_compilation_stdout r) (sr_compilation_stderr r)
    (sr_compilation_time r) (sr_compilation_wall_clock_time r) (sr_compilation_memory r)
    (sr_compilation_shard r) (sr_compilation_sandbox r) (sr_evaluation_outcome r)
    (sr_submission_discarded r) (sr_evaluation_tries r)
    (sr_score r) (sr_score_details r) (sr_public_score r) (sr_public_score_details r)
    (sr_ranking_score_details r) (sr_executables r) (sr_evaluations r ++ [e]).

(** A row as the constructor leaves it. *)
Definition new (submission_id dataset_id : Z) : SubmissionResult :=
  mkSubmissionResult submission_id dataset_id None [] 0 None None None None None None None None None 0
    None None None None None [] [].
End SR.

(** ** UserTestResult *)

Module UTR.
Implicit Types r : UserTestResult.

Inductive status : Set := COMPILING | COMPILATION_FAILED | EVALUATING | EVALUATED.

Definition compiled r : bool := is_some (utr_compilation_outcome r).
Definition compilation_failed r : bool :=
  bool_decide (utr_compilation_outcome r = Some CFail).
Definition compilation_succeeded r : bool :=
  bool_decide (utr_compilation_outcome r = Some COk).
Definition evaluated r : bool := is_some (utr_evaluation_outcome r).

Definition get_status r : status :=
  if negb (compiled r) then COMPILING
  else if compilation_failed r then COMPILATION_FAILED
  else if negb (evaluated r) then EVALUATING
  else EVALUATED.

Definition filter_compiled r : sql := sql_isnot_none (utr_compilation_outcome r).
Definition filter_compilation_failed r : sql := sql_eq (utr_compilation_outcome r) CFail.
Definition filter_compilation_succeeded r : sql := sql_eq (utr_compilation_outcome r) COk.
Definition filter_evaluated r : sql := sql_isnot_none (utr_evaluation_outcome r).

Definition invalidate_evaluation r : UserTestResult :=
  mkUserTestResult (utr_user_test_id r) (utr_dataset_id r) None
    (utr_compilation_outcome r) (utr_compilation_text r) (utr_compilation_tries r)
    (utr_compilation_stdout r) (utr_compilation_stderr r)
    (utr_compilation_time r) (utr_compilation_wall_clock_time r) (utr_compilation_memory r)
    (utr_compilation_shard r) (utr_compilation_sandbox r)
    None [] 0 None None None None None (utr_executables r).

Definition invalidate_compilation r : UserTestResult :=
  let r := invalidate_evaluation r in
  mkUserTestResult (utr_user_test_id r) (utr_dataset_id r) (utr_output r)
    None [] 0 (utr_compilation_stdout r) (utr_compilation_stderr r) None None None None None
    (utr_evaluation_outcome r) (utr_evaluation_text r) (utr_evaluation_tries r)
    (utr_execution_time r) (utr_execution_wall_clock_time r) (utr_execution_memory r)
    (utr_evaluation_shard r) (utr_evaluation_sandbox r) [].

Definition set_compilation_outcome (success : bool) r : UserTestResult :=
  mkUserTestResult (utr_user_test_id r) (utr_dataset_id r) (utr_output r)
    (Some (if success then COk else CFail)) (utr_compilation_text r) (utr_compilation_tries r)
    (utr_compilation_stdout r) (utr_compilation_stderr r)
    (utr_compilation_time r) (utr_compilation_wall_clock_time r) (utr_compilation_memory r)
    (utr_compilation_shard r) (utr_compilation_sandbox r)
    (utr_evaluation_outcome r) (utr_evaluation_text r) (utr_evaluation_tries r)
    (utr_execution_time r) (utr_execution_wall_clock_time r) (utr_execution_memory r)
    (utr_evaluation_shard r) (utr_evaluation_sandbox r) (utr_executables r).

Definition set_evaluation_outcome r : UserTestResult :=
  mkUserTestResult (utr_user_test_id r) (utr_dataset_id r) (utr_output r)
    (utr_compilation_outcome r) (utr_compilation_text r) (utr_compilation_tries r)
    (utr_compilation_stdout r) (utr_compilation_stderr r)
    (utr_compilation_time r) (utr_compilation_wall_clock_time r) (utr_compilation_memory r)
    (utr_compilation_shard r) (utr_compilation_sandbox r)
    (Some EOk) (utr_evaluation_text r) (utr_evaluation_tries r)
    (utr_execution_time r) (utr_execution_wall_clock_time r) (utr_execution_memory r)
    (utr_evaluation_shard r) (utr_evaluation_sandbox r) (utr_executables r).

(** [compilation_tries += 1], [evaluation_tries += 1] *)
Definition add_tries (compilation evaluation : Z) r : UserTestResult :=
  mkUserTestResult (utr_user_test_id r) (utr_dataset_id r) (utr_output r)
    (utr_compilation_outcome r) (utr_compilation_text r) (utr_compilation_tries r + compilation)
    (utr_compilation_stdout r) (utr_compilation_stderr r)
    (utr_compilation_time r) (utr_compilation_wall_clock_time r) (utr_compilation_memory r)
    (utr_compilation_shard r) (utr_compilation_sandbox r)
    (utr_evaluation_outcome r) (utr_evaluation_text r) (utr_evaluation_tries r + evaluation)
    (utr_execution_time r) (utr_execution_wall_clock_time r) (utr_execution_memory r)
    (utr_evaluation_shard r) (utr_evaluation_sandbox r) (utr_executables r).

(** A row as the constructor leaves it. *)
Definition new (user_test_id dataset_id : Z) : UserTestResult :=
  mkUserTestResult user_test_id dataset_id None None [] 0 None None None None None None None
    None [] 0 None None None None None [].
End UTR.

(** ** MatchResult *)

Module MR.
Implicit Types r : MatchResult.

Inductive status : Set := EVALUATING | SCORED.

Definition single_testcase (m : Match) : bool := is_some (m_testcase_id m).

Definition evaluated r : bool := is_some (mr_evaluation_outcome r).
Definition filter_evaluated r : sql := sql_isnot_none (mr_evaluation_outcome r).

Definition set_evaluation_outcome r : MatchResult :=
  mkMatchResult (mr_match_id r) (mr_dataset_id r) (mr_evaluation_tries r) (mr_matchings r)
    (Some EOk).

Definition get_status r : status := if negb (evaluated r) then EVALUATING else SCORED.

(** [evaluation_tries += 1] *)
Definition add_evaluation_try r : MatchResult :=
  mkMatchResult (mr_match_id r) (mr_dataset_id r) (mr_evaluation_tries r + 1) (mr_matchings r)
    (mr_evaluation_outcome r).

(** [mr.matchings += [g]] *)
Definition add_matching (g : Matching) r : MatchResult :=
  mkMatchResult (mr_match_id r) (mr_dataset_id r) (mr_evaluation_tries r) (mr_matchings r ++ [g])
    (mr_evaluation_outcome r).

(** A row as the constructor leaves it. *)
Definition new (match_id dataset_id : Z) : MatchResult :=
  mkMatchResult match_id dataset_id 0 [] None.
End MR.

(** ** The database *)

Record Db : Type := mkDb {
  db_contests : list Contest;
  db_participations : list Participation;
  db_tasks : list Task;
  db_datasets : list Dataset;
  db_testcases : list Testcase;
  db_submissions : list Submission;
  db_files : list File;
  db_submission_results : list SubmissionResult;
  db_matches : list Match;
  db_match_results : list MatchResult;
  db_batches : list Batch;
  db_user_tests : list UserTest;
  db_user_test_results : list UserTestResult;
  db_users : list User;
  db_announcements : list Announcement;
  db_teams : list Team;
}.

Section queries.
Context (db : Db).

(** [submission.task], [dataset.task], ...: the row with that primary key. *)
Definition get_task (i : Z) : option Task :=
  head (filter (λ t, task_id t = i) (db_tasks db)).

(** [task.datasets] *)
Definition task_datasets (i : Z) : list Dataset :=
  filter (λ d, ds_task_id d = i) (db_datasets db).

(** [dataset.testcases.values()]; the keys of the dictionary are their
    codenames. *)
Definition testcases (d : Dataset) : list Testcase :=
  filter (λ t, tc_dataset_id t = ds_id d) (db_testcases db).

(** [self is self.task.active_dataset] *)
Definition active (d : Dataset) : bool :=
  match get_task (ds_task_id d) with
  | Some t => bool_decide (task_active_dataset_id t = Some (ds_id d))
  | None => false
  end.

(** [X.get_from_id((id, dataset_id), session)]; a null dataset id matches
    nothing. *)
Definition find_submission_result (i : Z) (d : option Z) : option SubmissionResult :=
  head (filter (λ r, sr_submission_id r = i ∧ Some (sr_dataset_id r) = d)
          (db_submission_results db)).
Definition find_match_result (i : Z) (d : option Z) : option MatchResult :=
  head (filter (λ r, mr_match_id r = i ∧ Some (mr_dataset_id r) = d) (db_match_results db)).
Definition find_user_test_result (i : Z) (d : option Z) : option UserTestResult :=
  head (filter (λ r, utr_user_test_id r = i ∧ Some (utr_dataset_id r) = d)
          (db_user_test_results db)).

(** The dataset id that [get_result(dataset)] looks up. *)
Definition result_dataset_id (own_task_id : Z) (d : option Dataset) : res (option Z) :=
  match d with
  | Some d => _ ← assert (bool_decide (own_task_id = ds_task_id d)); Ok (Some (ds_id d))
  | None => t ← or_raise AttributeError (get_task own_task_id); Ok (task_active_dataset_id t)
  end.

Definition submission_get_result (s : Submission) (d : option Dataset)
    : res (option SubmissionResult) :=
  i ← result_dataset_id (sub_task_id s) d; Ok (find_submission_result (sub_id s) i).

Definition match_get_result (m : Match) (d : option Dataset) : res (option MatchResult) :=
  i ← result_dataset_id (m_task_id m) d; Ok (find_match_result (m_id m) i).

Definition user_test_get_result (u : UserTest) (d : option Dataset)
    : res (option UserTestResult) :=
  i ← result_dataset_id (ut_task_id u) d; Ok (find_user_test_result (ut_id u) i).

(** [get_result_or_create(dataset)] of a given dataset. *)
Definition submission_get_result_or_create (s : Submission) (d : Dataset)
    : res SubmissionResult :=
  r ← submission_get_result s (Some d);
  Ok (default (SR.new (sub_id s) (ds_id d)) r).

Definition match_get_result_or_create (m : Match) (d : Dataset) : res MatchResult :=
  r ← match_get_result m (Some d);
  Ok (default (MR.new (m_id m) (ds_id d)) r).

Definition user_test_get_result_or_create (u : UserTest) (d : Dataset) : res UserTestResult :=
  r ← user_test_get_result u (Some d);
  Ok (default (UTR.new (ut_id u) (ds_id d)) r).

(** [X.get_from_id(i, session)] *)
Definition get_dataset (i : Z) : option Dataset := head (filter (λ d, ds_id d = i) (db_datasets db)).
Definition get_submission (i : Z) : option Submission :=
  head (filter (λ s, sub_id s = i) (db_submissions db)).
Definition get_match (i : Z) : option Match := head (filter (λ m, m_id m = i) (db_matches db)).
Definition get_user_test (i : Z) : option UserTest :=
  head (filter (λ u, ut_id u = i) (db_user_tests db)).

(** [get_datasets_to_judge(task)] of cms/db/util.py *)
Definition get_datasets_to_judge (task_id : Z) : list Dataset :=
  filter (λ d, active d || ds_autojudge d) (task_datasets task_id).
End queries.

(** ** Changing a table *)

Definition replace_row {A} (key : A → Z) (i : Z) (f : A → A) (l : list A) : list A :=
  (λ x, if decide (key x = i) then f x else x) <$> l.

Definition with_tasks f (d : Db) := mkDb (db_contests d) (db_participations d) (f (db_tasks d))
  (db_datasets d) (db_testcases d) (db_submissions d) (db_files d) (db_submission_results d)
  (db_matches d) (db_match_results d) (db_batches d) (db_user_tests d) (db_user_test_results d)
  (db_users d) (db_announcements d) (db_teams d).
Definition with_submissions f (d : Db) := mkDb (db_contests d) (db_participations d) (db_tasks d)
  (db_datasets d) (db_testcases d) (f (db_submissions d)) (db_files d) (db_submission_results d)
  (db_matches d) (db_match_results d) (db_batches d) (db_user_tests d) (db_user_test_results d)
  (db_users d) (db_announcements d) (db_teams d).
Definition with_files f (d : Db) := mkDb (db_contests d) (db_participations d) (db_tasks d)
  (db_datasets d) (db_testcases d) (db_submissions d) (f (db_files d)) (db_submission_results d)
  (db_matches d) (db_match_results d) (db_batches d) (db_user_tests d) (db_user_test_results d)
  (db_users d) (db_announcements d) (db_teams d).
Definition with_results f (d : Db) := mkDb (db_contests d) (db_participations d) (db_tasks d)
  (db_datasets d) (db_testcases d) (db_submissions d) (db_files d) (f (db_submission_results d))
  (db_matches d) (db_match_results d) (db_batches d) (db_user_tests d) (db_user_test_results d)
  (db_users d) (db_announcements d) (db_teams d).
Definition with_matches f (d : Db) := mkDb (db_contests d) (db_participations d) (db_tasks d)
  (db_datasets d) (db_testcases d) (db_submissions d) (db_files d) (db_submission_results d)
  (f (db_matches d)) (db_match_results d) (db_batches d) (db_user_tests d)
  (db_user_test_results d)
  (db_users d) (db_announcements d) (db_teams d).
Definition with_match_results f (d : Db) := mkDb (db_contests d) (db_participations d)
  (db_tasks d) (db_datasets d) (db_testcases d) (db_submissions d) (db_files d)
  (db_submission_results d) (db_matches d) (f (db_match_results d)) (db_batches d)
  (db_user_tests d) (db_user_test_results d)
  (db_users d) (db_announcements d) (db_teams d).
Definition with_batches f (d : Db) := mkDb (db_contests d) (db_participations d) (db_tasks d)
  (db_datasets d) (db_testcases d) (db_submissions d) (db_files d) (db_submission_results d)
  (db_matches d) (db_match_results d) (f (db_batches d)) (db_user_tests d)
  (db_user_test_results d)
  (db_users d) (db_announcements d) (db_teams d).
Definition with_user_test_results f (d : Db) := mkDb (db_contests d) (db_participations d)
  (db_tasks d) (db_datasets d) (db_testcases d) (db_submissions d) (db_files d)
  (db_submission_results d) (db_matches d) (db_match_results d) (db_batches d) (db_user_tests d)
  (f (db_user_test_results d))
  (db_users d) (db_announcements d) (db_teams d).

Definition with_announcements f (d : Db) := mkDb (db_contests d) (db_participations d)
  (db_tasks d) (db_datasets d) (db_testcases d) (db_submissions d) (db_files d)
  (db_submission_results d) (db_matches d) (db_match_results d) (db_batches d) (db_user_tests d)
  (db_user_test_results d) (db_users d) (f (db_announcements d)) (db_teams d).

Definition with_user_tests f (d : Db) := mkDb (db_contests d) (db_participations d)
  (db_tasks d) (db_datasets d) (db_testcases d) (db_submissions d) (db_files d)
  (db_submission_results d) (db_matches d) (db_match_results d) (db_batches d)
  (f (db_user_tests d)) (db_user_test_results d) (db_users d) (db_announcements d) (db_teams d).

(** ** Constraints of the schema

    Primary keys, unique constraints, foreign keys, and two conditions that
    the code keeps: a result belongs to a dataset of its submission's task,
    and a discarded result has no successful compilation. [set_discarded]
    writes the flag together with a failed compilation; the invalidation of
    the compilation keeps the flag and leaves the result without an outcome,
    until it is compiled again, which fails by decree. *)

Definition discard_sound (r : SubmissionResult) : Prop :=
  is_some (sr_submission_discarded r) = true → sr_compilation_outcome r ≠ Some COk.

Record db_wf (db : Db) : Prop := {
  wf_tasks : NoDup (task_id <$> db_tasks db);
  wf_datasets : NoDup (ds_id <$> db_datasets db);
  wf_testcases : NoDup (tc_id <$> db_testcases db);
  wf_codenames t1 t2 :
    t1 ∈ db_testcases db → t2 ∈ db_testcases db →
    tc_dataset_id t1 = tc_dataset_id t2 → tc_codename t1 = tc_codename t2 → t1 = t2;
  wf_submissions : NoDup (sub_id <$> db_submissions db);
  wf_submission_results :
    NoDup ((λ r, (sr_submission_id r, sr_dataset_id r)) <$> db_submission_results db);
  wf_matches : NoDup (m_id <$> db_matches db);
  wf_match_results :
    NoDup ((λ r, (mr_match_id r, mr_dataset_id r)) <$> db_match_results db);
  wf_user_tests : NoDup (ut_id <$> db_user_tests db);
  wf_user_test_results :
    NoDup ((λ r, (utr_user_test_id r, utr_dataset_id r)) <$> db_user_test_results db);
  wf_evaluations r e :
    r ∈ db_submission_results db → e ∈ sr_evaluations r →
    ev_submission_id e = sr_submission_id r ∧ ev_dataset_id e = sr_dataset_id r;
  wf_matchings r g :
    r ∈ db_match_results db → g ∈ mr_matchings r →
    mg_match_id g = mr_match_id r ∧ mg_dataset_id g = mr_dataset_id r;
  wf_dataset_task d :
    d ∈ db_datasets db → ∃ t, t ∈ db_tasks db ∧ task_id t = ds_task_id d;
  wf_discard r : r ∈ db_submission_results db → discard_sound r;
  wf_submission_result r s :
    r ∈ db_submission_results db → s ∈ db_submissions db → sr_submission_id r = sub_id s →
    ∃ d, d ∈ db_datasets db ∧ ds_id d = sr_dataset_id r ∧ ds_task_id d = sub_task_id s;
  wf_match_result r m :
    r ∈ db_match_results db → m ∈ db_matches db → mr_match_id r = m_id m →
    ∃ d, d ∈ db_datasets db ∧ ds_id d = mr_dataset_id r ∧ ds_task_id d = m_task_id m;
  wf_user_test_result r u :
    r ∈ db_user_test_results db → u ∈ db_user_tests db → utr_user_test_id r = ut_id u →
    ∃ d, d ∈ db_datasets db ∧ ds_id d = utr_dataset_id r ∧ ds_task_id d = ut_task_id u;
}.

(** A row is determined by its key. *)
Lemma key_unique {A K} (f : A → K) (l : list A) x y :
  NoDup (f <$> l) → x ∈ l → y ∈ l → f x = f y → x = y.
Proof.
  intros Hnd (i & Hi)%list_elem_of_lookup (j & Hj)%list_elem_of_lookup Hf.
  assert (i = j) as ->; [|congruence].
  eapply NoDup_lookup; [exact Hnd|..]; rewrite list_lookup_fmap; [by rewrite Hi|].
  rewrite Hj. simpl. by rewrite Hf.
Qed.

Lemma head_filter_in {A} (P : A → Prop) `{∀ x, Decision (P x)} (l : list A) x :
  head (filter P l) = Some x → x ∈ l ∧ P x.
Proof.
  intros Hx. assert (x ∈ filter P l) as Hin.
  { destruct (filter P l); [done|]. injection Hx as ->. by left. }
  apply list_elem_of_filter in Hin. tauto.
Qed.

Lemma head_filter_notin {A} (P : A → Prop) `{∀ x, Decision (P x)} (l : list A) x :
  head (filter P l) = None → x ∈ l → ¬ P x.
Proof.
  intros Hn Hin HP. assert (x ∈ filter P l) as Hx by (by apply list_elem_of_filter).
  destruct (filter P l); [by apply elem_of_nil in Hx|done].
Qed.

(** A lookup by a unique key finds the row that has it. *)
Lemma head_filter_unique {A} (P : A → Prop) `{∀ x, Decision (P x)} (l : list A) x :
  x ∈ l → P x → (∀ y, y ∈ l → P y → y = x) → head (filter P l) = Some x.
Proof.
  intros Hin HP Hu. destruct (head (filter P l)) as [y|] eqn:Hy.
  - apply head_filter_in in Hy as [Hy HPy]. by rewrite (Hu y Hy HPy).
  - by destruct (head_filter_notin P l x Hy Hin).
Qed.

(** ** Filtering expressions against predicates *)

(** The flag is set on a result whose compilation has not failed, which the
    predicates do not take for a discarded one. *)
Definition flag_only (r : SubmissionResult) : bool :=
  is_some (sr_submission_discarded r) && negb (SR.compilation_failed r).

(** C21. What the filtering expressions sent to the database select, on any
    result, in terms of the Python predicates. The three about the
    compilation agree with the predicates of their names.
    [filter_discarded] looks at the flag only: it selects also the results
    that have the flag and no failed compilation, which is what invalidating
    the compilation of a discarded result leaves; on the others it agrees with
    [discarded]. [filter_evaluated] and [filter_scored] leave out everything
    with the flag: so [filter_scored] agrees with [scored] but for those
    results, and [filter_evaluated] with [evaluated] but for those and the
    discarded ones. [filter_pending] leaves out also what is not compiled, or
    failed to. *)
Theorem filters_agree (d : Dataset) (s : Submission) (r : SubmissionResult) :
  holds (SR.filter_compiled r) = SR.compiled r ∧
  holds (SR.filter_compilation_succeeded r) = SR.compilation_succeeded r ∧
  holds (SR.filter_compilation_failed r) = SR.compilation_failed r ∧
  holds (SR.filter_discarded r) = SR.discarded r || flag_only r ∧
  SR.discarded r && flag_only r = false ∧
  holds (SR.filter_evaluated r) = SR.evaluated r && negb (SR.discarded r) && negb (flag_only r) ∧
  holds (SR.filter_scored r) = SR.scored r && negb (flag_only r) ∧
  holds (SR.filter_pending d s r) = SR.pending d s r && SR.compilation_succeeded r && negb (flag_only r) ∧
  SR.discarded (SR.set_discarded r) = true ∧
  flag_only (SR.invalidate_compilation (SR.set_discarded r)) = true.
Proof.
  unfold flag_only, SR.filter_compiled, SR.filter_compilation_succeeded,
    SR.filter_compilation_failed, SR.filter_discarded, SR.filter_evaluated, SR.filter_pending,
    SR.filter_scored, SR.compiled, SR.compilation_succeeded, SR.compilation_failed, SR.discarded,
    SR.evaluated, SR.pending, SR.scored.
  destruct r as [? ? co ? ? ? ? ? ? ? ? ? eo di ? sc sd ps pd rk ? ?]. simpl.
  destruct co as [[]|], di as [[]|]; split_and!;
    try done; try (by destruct eo); try (by destruct sc, sd, ps, pd, rk);
    by destruct (bool_decide (ds_task_type d = _)), (sub_pvp_batch s).
Qed.

Definition demo_result : SubmissionResult :=
  SR.set_discarded (SR.set_compilation_outcome true (SR.new 4 2)).

(** A discarded submission whose compilation is invalidated is neither
    discarded nor compiled for the service, and discarded for the statistics. *)
Example invalidated_still_discarded :
  let r := SR.invalidate_compilation demo_result in
  SR.discarded r = false ∧ SR.compiled r = false ∧ holds (SR.filter_discarded r) = true.
Proof. done. Qed.

(** A lookup after a change that keeps what is looked up. *)
Lemma head_filter_fmap {A} (P : A → Prop) `{∀ x, Decision (P x)} (g : A → A) (l : list A) :
  (∀ x, x ∈ l → P (g x) ↔ P x) → head (filter P (g <$> l)) = g <$> head (filter P l).
Proof.
  induction l as [|x l IH]; intros Hg; [done|]. csimpl.
  pose proof (Hg x ltac:(by left)) as Hx. rewrite !filter_cons.
  destruct (decide (P (g x))), (decide (P x)); [done|tauto|tauto|].
  apply IH. intros y Hy. apply Hg. by right.
Qed.
