(* ===== verification/DbUtil.v ===== *)
(** * Submissions and results chosen by their context (cms/db/util.py)

    A request names a submission, a participation, a task, a data set or a
    contest; a combination that would be ambiguous is refused. *)

From S2P Require Import Prelude Database.

(** [o is None or x == o] *)
Definition matches (o : option Z) (x : Z) : bool :=
  match o with None => true | Some y => bool_decide (x = y) end.

(** The submission is by a participation in the contest, for a task of it. *)
Definition in_contest (db : Db) (contest_id : option Z) (s : Submission) : bool :=
  match contest_id with
  | None => true
  | Some c =>
      existsb (λ p, bool_decide (pa_id p = sub_participation_id s) && bool_decide (pa_contest_id p = c))
        (db_participations db)
      && existsb (λ t, bool_decide (task_id t = sub_task_id s) && bool_decide (task_contest_id t = Some c))
           (db_tasks db)
  end.

Definition get_submissions (db : Db) (contest_id participation_id task_id submission_id : option Z)
    : res (list Submission) :=
  if is_some task_id && is_some contest_id || is_some participation_id && is_some contest_id
     || is_some submission_id && is_some contest_id || is_some submission_id && is_some task_id
     || is_some submission_id && is_some participation_id
  then Raise ValueError
  else Ok (filter (λ s, matches submission_id (sub_id s) && matches participation_id (sub_participation_id s)
                        && matches task_id (sub_task_id s) && in_contest db contest_id s)
             (db_submissions db)).

Definition get_submission_results (db : Db)
    (contest_id participation_id task_id submission_id dataset_id : option Z)
    : res (list SubmissionResult) :=
  if is_some task_id && is_some contest_id || is_some participation_id && is_some contest_id
     || is_some submission_id && is_some contest_id || is_some submission_id && is_some task_id
     || is_some submission_id && is_some participation_id
     || is_some dataset_id && is_some task_id || is_some dataset_id && is_some contest_id
  then Raise ValueError
  else Ok (filter (λ r,
         matches submission_id (sr_submission_id r) && matches dataset_id (sr_dataset_id r)
         && existsb (λ s, bool_decide (sub_id s = sr_submission_id r)
                          && matches participation_id (sub_participation_id s)
                          && matches task_id (sub_task_id s) && in_contest db contest_id s)
              (db_submissions db)) (db_submission_results db)).
