(* ===== verification/Session.v ===== *)
(** * Database sessions of one service

    [with SessionGen() as session]: the handler sees the rows that are
    committed when it starts and its own changes; [commit] publishes what it
    sees; what is not committed when the block ends, by whatever exit, is
    dropped. For services whose handlers do not wait inside the block; the
    evaluation service, whose handlers do, has its own model. *)

From S2P Require Import Prelude Database.

Record Session : Type := mkSession {
  ses_committed : Db;
  ses_view : Db;
}.

Definition db_query {A} (f : Db → A) : M Session A := gets (λ s, f (ses_view s)).

(** A query or an attribute that may raise. *)
Definition db_query_res {A} (f : Db → res A) : M Session A := r ← db_query f; lift r.

Definition db_update (f : Db → Db) : M Session unit :=
  modify (λ s, mkSession (ses_committed s) (f (ses_view s))).

Definition db_commit : M Session unit := modify (λ s, mkSession (ses_view s) (ses_view s)).

Section in_session.
Context {W : Type} (db : W → Db) (set_db : Db → W → W).

Definition in_session {A} (m : M Session A) : M W A := λ w,
  let '(r, s) := m (mkSession (db w) (db w)) in (r, set_db (ses_committed s) w).
End in_session.

(** A handler that raises before it commits changes nothing. *)
Definition uncommitted {A} (m : M Session A) : Prop :=
  ∀ s, ses_committed (m s).2 = ses_committed s.

Lemma uncommitted_ret {A} (a : A) : uncommitted (mret a).
Proof. by intros s. Qed.

Lemma uncommitted_lift {A} (r : res A) : uncommitted (lift r).
Proof. by intros s. Qed.

Lemma uncommitted_query {A} (f : Db → A) : uncommitted (db_query f).
Proof. by intros s. Qed.

Lemma uncommitted_update f : uncommitted (db_update f).
Proof. by intros s. Qed.

Lemma uncommitted_bind {A B} (m : M Session A) (f : A → M Session B) :
  uncommitted m → (∀ a, uncommitted (f a)) → uncommitted (m ≫= f).
Proof.
  intros Hm Hf s. specialize (Hm s). unfold mbind, M_bind.
  destruct (m s) as [[a| | |] s']; simpl in *; try done. by rewrite Hf.
Qed.

Lemma uncommitted_query_res {A} (f : Db → res A) : uncommitted (db_query_res f).
Proof. apply uncommitted_bind; [apply uncommitted_query|]. intros r. apply uncommitted_lift. Qed.

#[export] Hint Resolve uncommitted_ret uncommitted_lift uncommitted_query uncommitted_update
  uncommitted_bind uncommitted_query_res : cms.
