(* ===== verification/ScoreTypes.v ===== *)
(** * Score types (cms/grading/scoretypes/, Dataset.score_type_object of
    cms/db/task.py)

    A score type is built from its parameters (a JSON value, checked only by
    being used) and from the codenames of the testcases with a flag for the
    public ones; it gives the maximum scores and scores the evaluations of a
    submission. Numbers of the parameters may be integers, floats or
    booleans, as in Python; a sum that starts from the integer [0] is modelled
    from [0.0]. Regular expressions and the reading of a float are parameters
    of the model. Not modelled: templates and translations. *)

From S2P Require Import Prelude PyFloat FloatOrder PyString PyFormat Database.
From stdpp Require Import pretty.
From Stdlib Require Strings.String.

Local Open Scope string_scope.
Local Open Scope list_scope.

(** ** JSON values as Python objects *)

Definition chars (s : string) : list json := (λ c, JString (String c "")) <$> Strings.String.list_ascii_of_string s.

(** [for x in j] *)
Definition json_iter (j : json) : res (list json) :=
  match j with
  | JList l => Ok l
  | JObject d => Ok (JString <$> d.*1)
  | JString s => Ok (chars s)
  | _ => Raise TypeError
  end.

(** [j[i]]; the keys of an object are strings. *)
Definition json_item (j : json) (i : nat) : res json :=
  match j with
  | JList l => or_raise IndexError (l !! i)
  | JString s => or_raise IndexError (chars s !! i)
  | JObject _ => Raise KeyError
  | _ => Raise TypeError
  end.

(** An operand of [+] or [*] with a float, or of ["%g"]. *)
Definition json_float (j : json) : res float :=
  match j with
  | JFloat x => Ok x
  | JInt n => int_float n
  | JBool b => Ok (if b then f1 else f0)
  | _ => Raise TypeError
  end.

(** [x <= j] and [x >= j] *)
Definition fle_json (x : float) (j : json) : res bool :=
  match j with
  | JFloat y => Ok (fleb x y)
  | JInt n => Ok (fle_int x n)
  | JBool b => Ok (fle_int x (Z.b2z b))
  | _ => Raise TypeError
  end.

Definition fge_json (x : float) (j : json) : res bool :=
  match j with
  | JFloat y => Ok (fleb y x)
  | JInt n => Ok (fge_int x n)
  | JBool b => Ok (fge_int x (Z.b2z b))
  | _ => Raise TypeError
  end.

(** [isinstance(j, int)], with the value; booleans are integers. *)
Definition json_int (j : json) : option Z :=
  match j with JInt n => Some n | JBool b => Some (Z.b2z b) | _ => None end.
Definition json_str (j : json) : option string :=
  match j with JString s => Some s | _ => None end.

(** [l[a:b]] *)
Definition slice_index (n : nat) (i : Z) : nat :=
  Z.to_nat (Z.max 0 (Z.min (Z.of_nat n) (if (i <? 0)%Z then i + Z.of_nat n else i))).
Definition slice {A} (l : list A) (a b : Z) : list A :=
  let a := slice_index (length l) a in
  let b := slice_index (length l) b in
  take (b - a) (drop a l).

(** ** Classes *)

Inductive score_class : Set := Sum | GroupMin | GroupMul | GroupThreshold.

#[export] Instance score_class_eq_dec : EqDecision score_class.
Proof. solve_decision. Defined.

(** [SCORE_TYPES]: the entry points of setup.py. *)
Definition SCORE_TYPES : pydict string score_class :=
  [("Sum", Sum); ("GroupMin", GroupMin); ("GroupMul", GroupMul);
   ("GroupThreshold", GroupThreshold)].

Definition get_score_type_class (name : string) : res score_class :=
  or_raise KeyError (pd_get SCORE_TYPES name).

Record ScoreType : Type := mkScoreType {
  st_class : score_class;
  parameters : json;
  public_testcases : pydict string bool;
  max_score : float;
  max_public_score : float;
  ranking_headers : list string;
}.

(** The five values that [compute_score] returns. *)
Record Scores : Type := mkScores {
  score : float;
  score_details : json;
  public_score : float;
  public_score_details : json;
  ranking_score_details : list string;
}.

Section score_types.
(** [re.compile(t).match(s)] is not [None]; [None] if [t] is not a regular
    expression. [float(s)]; [None] if [s] is not the text of a float. *)
Context (re_match : string → option (string → bool)) (float_of_string : string → option float).

Definition parse_outcome (outcome : option string) : res float :=
  o ← or_raise TypeError outcome; or_raise ValueError (float_of_string o).

(** ** ScoreTypeGroup *)

(** The loop over the integers: consecutive slices of the codenames. *)
Fixpoint targets_by_number (indices : list string) (current : Z) (ts : list Z) : list (list string) :=
  match ts with
  | [] => []
  | t :: ts => slice indices current (current + t) :: targets_by_number indices (current + t) ts
  end.

Definition target_by_regexp (indices : list string) (t : string) : res (list string) :=
  f ← or_raise (UserError "re.error") (re_match t);
  match filter (λ tc, f tc = true) indices with
  | [] => Raise ValueError
  | target => Ok target
  end.

Definition retrieve_target_testcases (params : list json) (publics : pydict string bool)
    : res (list (list string)) :=
  t_params ← map_res (λ p, json_item p 1) params;
  let indices := sort_strings (pd_keys publics) in
  match mapM json_int t_params with
  | Some ts => Ok (targets_by_number indices 0 ts)
  | None =>
      match mapM json_str t_params with
      | Some ts => map_res (target_by_regexp indices) ts
      | None => Raise ValueError
      end
  end.

(** [all(self.public_testcases[tc_idx] for tc_idx in target)] *)
Definition all_public (publics : pydict string bool) (target : list string) : res bool :=
  all_res (λ tc, or_raise KeyError (pd_get publics tc)) target.

(** [enumerate(self.parameters)], with [targets[st_idx]]. *)
Definition enumerate_subtasks (params : list json) (targets : list (list string))
    : list (nat * (json * list string)) :=
  zip (seq 0 (length params)) (zip params targets).

Definition subtask_max (publics : pydict string bool) (acc : float * float * list string)
    (p : nat * (json * list string)) : res (float * float * list string) :=
  let '(score, public_score, headers) := acc in
  let '(st_idx, (parameter, target)) := p in
  p0 ← json_item parameter 0;
  p0 ← json_float p0;
  public ← all_public publics target;
  Ok (fadd score p0, if public : bool then fadd public_score p0 else public_score,
      headers ++ ["Subtask " +:+ pretty (Z.of_nat st_idx + 1)%Z +:+ " (" +:+ format_g p0 +:+ ")"]).

Definition group_max_scores (parameters : json) (publics : pydict string bool)
    : res (float * float * list string) :=
  params ← json_iter parameters;
  targets ← retrieve_target_testcases params publics;
  fold_res (subtask_max publics) (f0, f0, []) (enumerate_subtasks params targets).

(** [get_public_outcome] of GroupMin, GroupMul and GroupThreshold *)
Definition three_way_outcome (outcome : float) : string :=
  if fleb outcome f0 then "Not correct"
  else if fleb f1 outcome then "Correct"
  else "Partially correct".

(** [0 < outcome <= threshold] *)
Definition below_threshold (threshold : json) (outcome : float) : res bool :=
  if fltb f0 outcome then fle_json outcome threshold else Ok false.

Definition get_public_outcome (c : score_class) (outcome : float) (parameter : json) : res string :=
  match c with
  | GroupThreshold =>
      threshold ← json_item parameter 2;
      b ← below_threshold threshold outcome;
      Ok (if b : bool then "Correct" else "Not correct")
  | _ => Ok (three_way_outcome outcome)
  end.

(** [reduce] of the three classes; [min] and [functools.reduce] refuse an
    empty list. *)
Definition reduce (c : score_class) (outcomes : list float) (parameter : json) : res float :=
  match c with
  | GroupThreshold =>
      threshold ← json_item parameter 2;
      b ← all_res (below_threshold threshold) outcomes;
      Ok (if b : bool then f1 else f0)
  | GroupMul =>
      match outcomes with [] => Raise TypeError | x :: l => Ok (foldl fmul x l) end
  | _ => match outcomes with [] => Raise ValueError | x :: l => Ok (foldl fmin x l) end
  end.

Definition opt_float (x : option float) : json := match x with Some x => JFloat x | None => JNull end.
Definition opt_int (n : option Z) : json := match n with Some n => JInt n | None => JNull end.

(** The part of the details of a testcase that all score types have. *)
Definition testcase_details (idx outcome : string) (ev : Evaluation) : list (string * json) :=
  [("idx", JString idx); ("outcome", JString outcome);
   ("text", JList (JString <$> ev_text ev)); ("time", opt_float (ev_execution_time ev));
   ("memory", opt_int (ev_execution_memory ev))].

Definition hidden_testcase (idx : string) : json := JObject [("idx", JString idx)].

(** One testcase of a subtask: [testcases], [public_testcases] and
    [previous_tc_all_correct]. *)
Definition group_testcase (c : score_class) (publics : pydict string bool)
    (evaluations : pydict string Evaluation) (parameter : json)
    (acc : list json * list json * bool) (tc_idx : string) : res (list json * list json * bool) :=
  let '(testcases, public_testcases, previous_tc_all_correct) := acc in
  ev ← or_raise KeyError (pd_get evaluations tc_idx);
  x ← parse_outcome (ev_outcome ev);
  tc_outcome ← get_public_outcome c x parameter;
  let details := JObject (testcase_details tc_idx tc_outcome ev
                   ++ [("show_in_restricted_feedback", JBool previous_tc_all_correct)]) in
  public ← or_raise KeyError (pd_get publics tc_idx);
  Ok (testcases ++ [details],
      public_testcases ++ [if public : bool then details else hidden_testcase tc_idx],
      if public : bool then previous_tc_all_correct && String.eqb tc_outcome "Correct"
      else previous_tc_all_correct).

(** [[float(evaluations[tc_idx].outcome) for tc_idx in target]] *)
Definition outcomes_of (evaluations : pydict string Evaluation) (target : list string) : res (list float) :=
  map_res (λ tc, ev ← or_raise KeyError (pd_get evaluations tc); parse_outcome (ev_outcome ev)) target.

(** The body of the loop over the subtasks. *)
Definition group_subtask (c : score_class) (publics : pydict string bool)
    (evaluations : pydict string Evaluation)
    (acc : float * list json * float * list json * list string) (p : nat * (json * list string))
    : res (float * list json * float * list json * list string) :=
  let '(score, subtasks, public_score, public_subtasks, ranking_details) := acc in
  let '(st_idx, (parameter, target)) := p in
  '(testcases, public_testcases, _) ←
    fold_res (group_testcase c publics evaluations parameter) ([], [], true) target;
  outcomes ← outcomes_of evaluations target;
  st_score_fraction ← reduce c outcomes parameter;
  p0 ← json_item parameter 0;
  m ← json_float p0;
  let st_score := fmul st_score_fraction m in
  let idx := JInt (Z.of_nat st_idx + 1) in
  let subtask := JObject [("idx", idx); ("score_fraction", JFloat st_score_fraction);
                          ("max_score", p0); ("testcases", JList testcases)] in
  public ← all_public publics target;
  shown ← fround st_score 2;
  Ok (fadd score st_score, subtasks ++ [subtask],
      if public : bool then fadd public_score st_score else public_score,
      public_subtasks ++ [if public : bool then subtask
                          else JObject [("idx", idx); ("testcases", JList public_testcases)]],
      ranking_details ++ [format_g shown]).

Definition group_compute_score (st : ScoreType) (evaluations : pydict string Evaluation) : res Scores :=
  params ← json_iter (parameters st);
  targets ← retrieve_target_testcases params (public_testcases st);
  '(score, subtasks, public_score, public_subtasks, ranking_details) ←
    fold_res (group_subtask (st_class st) (public_testcases st) evaluations)
      (f0, [], f0, [], []) (enumerate_subtasks params targets);
  Ok (mkScores score (JList subtasks) public_score (JList public_subtasks) ranking_details).

(** ** Sum *)

Definition sum_max_scores (parameters : json) (publics : pydict string bool)
    : res (float * float * list string) :=
  '(score, public_score) ←
    fold_res (λ (acc : float * float) (public : bool),
      p ← json_float parameters;
      Ok (fadd acc.1 p, if public then fadd acc.2 p else acc.2))
      (f0, f0) (pd_values publics);
  Ok (score, public_score, []).

Definition sum_public_outcome (parameters : json) (outcome : float) : res string :=
  if fleb outcome f0 then Ok "Not correct"
  else
    b ← fge_json outcome parameters;
    Ok (if b : bool then "Correct" else "Partially correct").

Definition sum_testcase (parameters : json) (publics : pydict string bool)
    (evaluations : pydict string Evaluation) (acc : float * list json * float * list json) (idx : string)
    : res (float * list json * float * list json) :=
  let '(score, testcases, public_score, public_testcases) := acc in
  ev ← or_raise KeyError (pd_get evaluations idx);
  x ← parse_outcome (ev_outcome ev);
  p ← json_float parameters;
  let this_score := fmul x p in
  tc_outcome ← sum_public_outcome parameters this_score;
  let details := JObject (testcase_details idx tc_outcome ev) in
  public ← or_raise KeyError (pd_get publics idx);
  Ok (fadd score this_score, testcases ++ [details],
      if public : bool then fadd public_score this_score else public_score,
      public_testcases ++ [if public : bool then details else hidden_testcase idx]).

Definition sum_compute_score (st : ScoreType) (evaluations : pydict string Evaluation) : res Scores :=
  let indices := sort_strings (pd_keys (public_testcases st)) in
  '(score, testcases, public_score, public_testcases) ←
    fold_res (sum_testcase (parameters st) (public_testcases st) evaluations) (f0, [], f0, []) indices;
  Ok (mkScores score (JList testcases) public_score (JList public_testcases) []).

(** ** ScoreType *)

Definition max_scores (c : score_class) : json → pydict string bool → res (float * float * list string) :=
  match c with Sum => sum_max_scores | _ => group_max_scores end.

(** [class_(parameters, public_testcases)]: every exception becomes a
    [ValueError]. *)
Definition score_type_init (c : score_class) (parameters : json) (publics : pydict string bool)
    : res ScoreType :=
  match max_scores c parameters publics with
  | Ok (m, p, h) => Ok (mkScoreType c parameters publics m p h)
  | _ => Raise ValueError
  end.

Definition get_score_type (name : string) (parameters : json) (publics : pydict string bool)
    : res ScoreType :=
  c ← get_score_type_class name; score_type_init c parameters publics.

(** [{ev.codename: ev for ev in submission_result.evaluations}] *)
Definition evaluations_by_codename (db : Db) (sr : SubmissionResult) : res (pydict string Evaluation) :=
  fold_res (λ d ev,
    tc ← or_raise AttributeError (head (filter (λ t, tc_id t = ev_testcase_id ev) (db_testcases db)));
    Ok (pd_set d (tc_codename tc) ev)) [] (sr_evaluations sr).

(** [self.parameters] of a group score type is iterated over also for a
    submission that did not compile. *)
Definition compute_score (db : Db) (st : ScoreType) (sr : SubmissionResult) : res Scores :=
  if negb (SR.evaluated sr) then
    match st_class st with
    | Sum => Ok (mkScores f0 (JList []) f0 (JList []) [])
    | _ =>
        params ← json_iter (parameters st);
        Ok (mkScores f0 (JList []) f0 (JList []) ((λ _, format_g f0) <$> params))
    end
  else
    match st_class st with
    | Sum => evaluations ← evaluations_by_codename db sr; sum_compute_score st evaluations
    | _ => evaluations ← evaluations_by_codename db sr; group_compute_score st evaluations
    end.

(** [{k: tc.public for k, tc in self.testcases.items()}] *)
Definition dataset_publics (db : Db) (d : Dataset) : pydict string bool :=
  foldl (λ acc tc, pd_set acc (tc_codename tc) (tc_public tc)) [] (testcases db d).

(** [dataset.score_type_object]; the cache holds the value for the same
    arguments. *)
Definition score_type_object (db : Db) (d : Dataset) : res ScoreType :=
  get_score_type (ds_score_type d) (ds_score_type_parameters d) (dataset_publics db d).

(** ** No call waits *)

Lemma ror_json_iter j : returns_or_raises (json_iter j).
Proof. by destruct j. Qed.
Lemma ror_json_item j i : returns_or_raises (json_item j i).
Proof. destruct j; cbn [json_item]; ror_solve. Qed.
Lemma ror_json_float j : returns_or_raises (json_float j).
Proof. destruct j; cbn [json_float]; try done. unfold int_float. by destruct (of_Z n). Qed.
Lemma ror_fle_json x j : returns_or_raises (fle_json x j).
Proof. by destruct j. Qed.
Lemma ror_fge_json x j : returns_or_raises (fge_json x j).
Proof. by destruct j. Qed.
Lemma ror_fround x n : returns_or_raises (fround x n).
Proof. unfold fround. ror_solve. Qed.
Lemma ror_parse_outcome o : returns_or_raises (parse_outcome o).
Proof. unfold parse_outcome. ror_solve. Qed.
#[local] Hint Resolve ror_json_iter ror_json_item ror_json_float ror_fle_json ror_fge_json ror_fround
  ror_parse_outcome : ror.

Lemma ror_targets params publics : returns_or_raises (retrieve_target_testcases params publics).
Proof. unfold retrieve_target_testcases, target_by_regexp. cbv zeta. ror_solve. Qed.
Lemma ror_all_public publics target : returns_or_raises (all_public publics target).
Proof. unfold all_public. ror_solve. Qed.
Lemma ror_below_threshold t x : returns_or_raises (below_threshold t x).
Proof. unfold below_threshold. ror_solve. Qed.
#[local] Hint Resolve ror_targets ror_all_public ror_below_threshold : ror.

Lemma ror_reduce c outcomes p : returns_or_raises (reduce c outcomes p).
Proof. unfold reduce. ror_solve. Qed.
Lemma ror_get_public_outcome c x p : returns_or_raises (get_public_outcome c x p).
Proof. unfold get_public_outcome. ror_solve. Qed.
Lemma ror_sum_public_outcome p x : returns_or_raises (sum_public_outcome p x).
Proof. unfold sum_public_outcome. ror_solve. Qed.
#[local] Hint Resolve ror_reduce ror_get_public_outcome ror_sum_public_outcome : ror.

Lemma ror_group_testcase c publics evs p acc tc : returns_or_raises (group_testcase c publics evs p acc tc).
Proof. unfold group_testcase. cbv zeta. ror_solve. Qed.
Lemma ror_sum_testcase p publics evs acc tc : returns_or_raises (sum_testcase p publics evs acc tc).
Proof. unfold sum_testcase. cbv zeta. ror_solve. Qed.
Lemma ror_outcomes_of evs target : returns_or_raises (outcomes_of evs target).
Proof. unfold outcomes_of. ror_solve. Qed.
#[local] Hint Resolve ror_group_testcase ror_sum_testcase ror_outcomes_of : ror.

Lemma ror_group_subtask c publics evs acc p : returns_or_raises (group_subtask c publics evs acc p).
Proof. unfold group_subtask. cbv zeta. ror_solve. Qed.
#[local] Hint Resolve ror_group_subtask : ror.

Lemma ror_compute_score db st sr : returns_or_raises (compute_score db st sr).
Proof.
  unfold compute_score, evaluations_by_codename, sum_compute_score, group_compute_score. cbv zeta. ror_solve.
Qed.

Lemma ror_score_type_object db d : returns_or_raises (score_type_object db d).
Proof. unfold score_type_object, get_score_type, get_score_type_class, score_type_init. cbv zeta. ror_solve. Qed.

(** ** Fractions *)

(** [j] is the maximum score [m] of a subtask. *)
Definition maximum (j : json) (m : float) : Prop :=
  json_float j = Ok m ∧ fvalid m = true ∧ finite m = true.

Definition comparable (j : json) : Prop :=
  match j with JFloat _ | JInt _ | JBool _ => True | _ => False end.

(** What a subtask needs of its parameter and of the number of its testcases. *)
Definition reducible (c : score_class) (parameter : json) (target : list string) : Prop :=
  match c with
  | GroupThreshold => ∃ t, json_item parameter 2 = Ok t ∧ comparable t
  | _ => target ≠ []
  end.

(** Outcomes from 0.0 to 1.0; GroupThreshold accepts any. *)
Definition outcome_ok (c : score_class) (x : float) : Prop :=
  match c with GroupThreshold => True | _ => fvalid x = true ∧ fleb x f1 = true end.

(** A correct outcome. *)
Definition perfect (c : score_class) (parameter : json) (x : float) : Prop :=
  match c with
  | GroupThreshold => ∃ t, json_item parameter 2 = Ok t ∧ below_threshold t x = Ok true
  | _ => x = f1
  end.

Lemma below_threshold_total t x : comparable t → ∃ b, below_threshold t x = Ok b.
Proof. unfold below_threshold. destruct (fltb f0 x), t; try done; by eexists. Qed.

Lemma all_res_total {A} (f : A → res bool) l :
  (∀ x, x ∈ l → ∃ b, f x = Ok b) →
  ∃ b, all_res f l = Ok b ∧ (b = true ↔ Forall (λ x, f x = Ok true) l).
Proof.
  induction l as [|x l IH]; intros Hf; [exists true; split; [done|]; by split; [constructor|]|].
  destruct (Hf x ltac:(by left)) as [b Hb]. destruct IH as (b' & Hb' & Hiff); [intros y Hy; apply Hf; by right|].
  cbn. rewrite Hb. cbn. destruct b.
  - exists b'. split; [done|]. rewrite Forall_cons, Hiff, Hb. naive_solver.
  - exists false. split; [done|]. rewrite Forall_cons, Hb. naive_solver.
Qed.

Definition fraction (x : float) : Prop := fvalid x = true ∧ finite x = true ∧ fleb x f1 = true.

Lemma fraction_0 : fraction f0.
Proof. done. Qed.

Lemma fraction_1 : fraction f1.
Proof. by vm_compute. Qed.

Lemma fraction_intro x : fvalid x = true → fleb x f1 = true → fraction x.
Proof. intros Hx Hle. split_and!; [done| |done]. by apply (fle_finite x f1). Qed.

Lemma fraction_fmul x y : fraction x → fraction y → fraction (fmul x y).
Proof.
  intros (Vx & Fx & Lx) (Vy & Fy & Ly). apply fraction_intro; [by auto with cms|].
  apply (fle_trans _ y); auto using fmul_le with cms.
Qed.

Lemma foldl_closed {A} (f : A → A → A) (P : A → Prop) x l :
  (∀ a b, P a → P b → P (f a b)) → P x → Forall P l → P (foldl f x l).
Proof. intros Hf Hx Hl. revert x Hx. induction Hl; intros; simpl; auto. Qed.

Lemma foldl_fixed {A} (f : A → A → A) x l :
  f x x = x → Forall (λ y, y = x) l → foldl f x l = x.
Proof. intros Hf. induction 1 as [|y l -> _ IH]; simpl; [done|]. by rewrite Hf. Qed.

Lemma fraction_fmin x y : fraction x → fraction y → fraction (fmin x y).
Proof. intros Hx Hy. unfold fmin. by destruct (fltb y x). Qed.

Lemma fold_fraction g outcomes :
  (∀ x y, fraction x → fraction y → fraction (g x y)) → g f1 f1 = f1 →
  outcomes ≠ [] → Forall (λ x, fvalid x = true ∧ fleb x f1 = true) outcomes →
  ∃ x l, outcomes = x :: l ∧ fraction (foldl g x l) ∧
    (Forall (λ y, y = f1) outcomes → foldl g x l = f1).
Proof.
  intros Hg H1 Hne Ho. destruct outcomes as [|x l]; [done|]. exists x, l. split; [done|].
  apply (Forall_impl _ fraction) in Ho; [|intros y []; by apply fraction_intro].
  apply Forall_cons in Ho as [Hx Hl]. split; [by apply foldl_closed|].
  intros [-> Hp]%Forall_cons. by apply foldl_fixed.
Qed.

(** The score of a subtask is a fraction of its maximum, the whole of it when
    every outcome is correct. *)
Lemma reduce_fraction c parameter target outcomes :
  reducible c parameter target → (target ≠ [] → outcomes ≠ []) → Forall (outcome_ok c) outcomes →
  ∃ f, reduce c outcomes parameter = Ok f ∧ fraction f ∧
    (Forall (perfect c parameter) outcomes → f = f1).
Proof.
  intros Hr Hne Ho. destruct c; simpl in Hr, Ho |- *.
  - destruct (fold_fraction fmin outcomes fraction_fmin eq_refl (Hne Hr) Ho) as (x & l & -> & Hf & Hp).
    by exists (foldl fmin x l).
  - destruct (fold_fraction fmin outcomes fraction_fmin eq_refl (Hne Hr) Ho) as (x & l & -> & Hf & Hp).
    by exists (foldl fmin x l).
  - destruct (fold_fraction fmul outcomes fraction_fmul eq_refl (Hne Hr) Ho) as (x & l & -> & Hf & Hp).
    by exists (foldl fmul x l).
  - destruct Hr as (t & Ht & Hc). rewrite Ht. cbn.
    destruct (all_res_total (below_threshold t) outcomes) as (b & Hb & Hiff);
      [intros; by apply below_threshold_total|].
    rewrite Hb. cbn. exists (if b then f1 else f0). split; [done|].
    split; [destruct b; [apply fraction_1|apply fraction_0]|].
    intros Hp. destruct b; [done|]. discriminate (proj2 Hiff). eapply Forall_impl; [exact Hp|].
    intros x (t' & Ht' & Hx). rewrite Ht in Ht'. by injection Ht' as <-.
Qed.

(** ** One subtask *)

(** The outcome of a testcase. *)
Definition outcome_at (evaluations : pydict string Evaluation) (tc : string) : res float :=
  ev ← or_raise KeyError (pd_get evaluations tc); parse_outcome (ev_outcome ev).

Record subtask_ok (c : score_class) (publics : pydict string bool)
    (evaluations : pydict string Evaluation) (parameter : json) (target : list string) : Prop := {
  ok_maximum : ∃ p0 m, json_item parameter 0 = Ok p0 ∧ maximum p0 m;
  ok_reducible : reducible c parameter target;
  ok_public tc : tc ∈ target → ∃ b, pd_get publics tc = Some b;
  ok_outcome tc : tc ∈ target → ∃ x, outcome_at evaluations tc = Ok x ∧ outcome_ok c x;
}.

(** Every testcase of the subtask has a correct outcome. *)
Definition subtask_perfect (c : score_class) (evaluations : pydict string Evaluation)
    (parameter : json) (target : list string) : Prop :=
  ∀ tc, tc ∈ target → ∃ x, outcome_at evaluations tc = Ok x ∧ perfect c parameter x.

Lemma get_public_outcome_returns c x parameter target :
  reducible c parameter target → ∃ o, get_public_outcome c x parameter = Ok o.
Proof.
  intros Hr. destruct c; simpl in *; [by eexists..|]. destruct Hr as (t & -> & Hc). cbn.
  destruct (below_threshold_total t x Hc) as [b ->]. by eexists.
Qed.

Lemma group_testcases_return c publics evaluations parameter target acc :
  subtask_ok c publics evaluations parameter target →
  ∃ r, fold_res (group_testcase c publics evaluations parameter) acc target = Ok r.
Proof.
  intros [_ Hr Hp Ho].
  destruct (fold_res_total (group_testcase c publics evaluations parameter) (λ _, True) acc target)
    as (r & Hfold & _); [|done|by exists r].
  intros tc [[a b] p] Htc _. destruct (Ho tc Htc) as (x & (ev & Hev & Hx)%res_bind_Ok & _).
  destruct (Hp tc Htc) as [u Hu]. destruct (get_public_outcome_returns c x parameter target Hr) as [o Hout].
  eexists. split; [|done]. unfold group_testcase. rewrite Hev. cbn. rewrite Hx. cbn. rewrite Hout. cbn.
  rewrite Hu. cbn. done.
Qed.

Lemma group_outcomes c publics evaluations parameter target :
  subtask_ok c publics evaluations parameter target →
  ∃ outcomes, outcomes_of evaluations target = Ok outcomes ∧
    Forall2 (λ tc x, outcome_at evaluations tc = Ok x) target outcomes ∧ Forall (outcome_ok c) outcomes.
Proof.
  intros [_ _ _ Ho]. destruct (map_res_total (outcome_at evaluations) target) as [l Hl].
  { intros tc Htc. destruct (Ho tc Htc) as (x & Hx & _). by exists x. }
  exists l. split; [done|]. apply map_res_Forall2 in Hl. split; [done|].
  apply Forall_forall. intros x Hx. apply list_elem_of_lookup in Hx as [i Hi].
  destruct (Forall2_lookup_r _ _ _ _ _ Hl Hi) as (tc & Htc & Hox).
  destruct (Ho tc) as (x' & Hx' & Hok); [by eapply list_elem_of_lookup_2|]. rewrite Hx' in Hox. by injection Hox as <-.
Qed.

(** [sub] is the entry of the [i]-th subtask in the score details, whose
    score is [a]. *)
Definition is_subtask (i : nat) (sub : json) (a : float) : Prop :=
  ∃ f p0 m ts, json_float p0 = Ok m ∧ a = fmul f m ∧
    sub = JObject [("idx", JInt (Z.of_nat i + 1)); ("score_fraction", JFloat f); ("max_score", p0);
                   ("testcases", ts)].

(** A subtask adds at most its maximum, and adds to the public score if and
    only if its maximum counts there. *)
Lemma group_subtask_spec c publics evaluations st_idx parameter target M P H :
  subtask_ok c publics evaluations parameter target →
  ∃ m a (b : bool) h, fvalid m = true ∧ fvalid a = true ∧ fleb a m = true ∧
    (subtask_perfect c evaluations parameter target → a = m) ∧
    subtask_max publics (M, P, H) (st_idx, (parameter, target)) =
      Ok (fadd M m, if b then fadd P m else P, H ++ [h]) ∧
    ∀ s subs p psubs rd, ∃ sub psub r, is_subtask st_idx sub a ∧
      group_subtask c publics evaluations (s, subs, p, psubs, rd) (st_idx, (parameter, target)) =
        Ok (fadd s a, subs ++ [sub], if b then fadd p a else p, psubs ++ [psub], rd ++ [r]).
Proof.
  intros Hok. destruct (ok_maximum _ _ _ _ _ Hok) as (p0 & m & Hp0 & Hm & Vm & Fm).
  destruct (group_outcomes _ _ _ _ _ Hok) as (outcomes & Hout & Hrel & Hoo).
  destruct (reduce_fraction c parameter target outcomes) as (f & Hf & (Vf & Ff & Lf) & Hperf); [apply Hok| |done|].
  { intros Hne ->. by inversion Hrel; subst. }
  destruct (all_res_total (λ tc, or_raise KeyError (pd_get publics tc)) target) as (b & Hb & _).
  { intros tc Htc. destruct (ok_public _ _ _ _ _ Hok tc Htc) as [u ->]. by exists u. }
  pose proof (fmul_le f m Fm Vf Vm Lf) as Hle.
  assert (fvalid (fmul f m) = true) as Va by auto with cms.
  destruct (fround_returns (fmul f m)) as [y Hy]; [done|by apply (fle_finite _ m)|].
  destruct (group_testcases_return c publics evaluations parameter target ([], [], true) Hok) as [[[ts pts] u] Ht].
  eexists m, (fmul f m), b, _. split_and!; [done..| | |].
  - intros Hp. rewrite Hperf; [by apply fmul_1_l|]. apply Forall_forall. intros x Hx.
    apply list_elem_of_lookup in Hx as [i Hi]. destruct (Forall2_lookup_r _ _ _ _ _ Hrel Hi) as (tc & Htc & Hox).
    destruct (Hp tc) as (x' & Hx' & Hpx); [by eapply list_elem_of_lookup_2|]. rewrite Hx' in Hox. by injection Hox as <-.
  - unfold subtask_max. rewrite Hp0. cbn. rewrite Hm. cbn. unfold all_public. rewrite Hb. cbn. done.
  - intros s subs p psubs rd. eexists (JObject _), _, _.
    split; [by exists f, p0, m, (JList ts)|]. unfold group_subtask. rewrite Ht. cbn [mbind res_bind].
    rewrite Hout. cbn [mbind res_bind]. rewrite Hf. cbn [mbind res_bind]. rewrite Hp0. cbn [mbind res_bind].
    rewrite Hm. cbn [mbind res_bind]. unfold all_public. rewrite Hb. cbn [mbind res_bind]. rewrite Hy.
    cbn [mbind res_bind]. done.
Qed.

(** ** All subtasks *)

(** Scores and maximum scores side by side; with [exact], equal. *)
Definition within (exact : Prop) (s p M P : float) : Prop :=
  fvalid s = true ∧ fvalid p = true ∧ fvalid M = true ∧ fvalid P = true ∧
  fleb s M = true ∧ fleb p P = true ∧ fleb p s = true ∧ (exact → s = M ∧ p = P).

Lemma within_0 exact : within exact f0 f0 f0 f0.
Proof. by split_and!. Qed.

Lemma within_add (exact : Prop) s p M P a m (b : bool) :
  within exact s p M P → fvalid m = true → fvalid a = true → fleb a m = true → (exact → a = m) →
  within exact (fadd s a) (if b then fadd p a else p) (fadd M m) (if b then fadd P m else P).
Proof.
  intros (Vs & Vp & VM & VP & L1 & L2 & L3 & He) Vm Va La Hex.
  assert (fleb s (fadd s a) = true) as Hs by (by apply fadd_ge_l).
  split_and!; [by auto with cms|destruct b; by auto with cms|by auto with cms|destruct b; by auto with cms|..].
  - by apply fadd_mono.
  - destruct b; [by apply fadd_mono|done].
  - destruct b; [by apply fadd_mono; auto with cms|].
    apply (fle_trans _ s); auto with cms.
  - intros Hx. destruct (He Hx) as [-> ->]. by rewrite (Hex Hx).
Qed.

Lemma group_fold c publics evaluations (exact : Prop) l s subs p psubs rd M P H :
  (∀ x, x ∈ l → subtask_ok c publics evaluations x.2.1 x.2.2) →
  (exact → ∀ x, x ∈ l → subtask_perfect c evaluations x.2.1 x.2.2) →
  within exact s p M P →
  ∃ M' P' H' vals more p' psubs' rd',
    fold_res (subtask_max publics) (M, P, H) l = Ok (M', P', H') ∧
    fold_res (group_subtask c publics evaluations) (s, subs, p, psubs, rd) l =
      Ok (foldl fadd s vals, subs ++ more, p', psubs', rd') ∧
    within exact (foldl fadd s vals) p' M' P' ∧ valids vals ∧
    Forall3 (λ x sub a, is_subtask x.1 sub a) l more vals.
Proof.
  revert s subs p psubs rd M P H. induction l as [|[i [q t]] l IH]; intros s subs p psubs rd M P H Hok Hex Hw.
  { exists M, P, H, [], [], p, psubs, rd. rewrite app_nil_r. split_and!; try done; constructor. }
  destruct (group_subtask_spec c publics evaluations i q t M P H (Hok _ (list_elem_of_here _ _)))
    as (m & a & b & h & Vm & Va & La & Hp & Hmax & Hsub).
  destruct (Hsub s subs p psubs rd) as (sub & psub & r & His & Hgs).
  destruct (IH (fadd s a) (subs ++ [sub]) (if b then fadd p a else p) (psubs ++ [psub]) (rd ++ [r])
              (fadd M m) (if b then fadd P m else P) (H ++ [h]))
    as (M' & P' & H' & vals & more & p' & psubs' & rd' & E1 & E2 & Hw' & Hv & H3).
  - intros x Hx. apply Hok. by right.
  - intros Hx y Hy. apply Hex; [done|]. by right.
  - apply within_add; [done..|]. intros Hx. apply Hp. exact (Hex Hx _ (list_elem_of_here _ _)).
  - exists M', P', H', (a :: vals), (sub :: more), p', psubs', rd'. cbn [fold_res foldl]. rewrite Hmax, Hgs.
    split; [exact E1|]. split; [by rewrite <- app_assoc in E2|]. split; [done|].
    split; [by constructor|]. by constructor.
Qed.

Lemma sort_strings_elem x l : x ∈ sort_strings l ↔ x ∈ l.
Proof. unfold sort_strings. by rewrite merge_sort_Permutation. Qed.

Lemma slice_subset {A} (l : list A) a b x : x ∈ slice l a b → x ∈ l.
Proof.
  unfold slice. intros Hx. eapply elem_of_sublist; [exact Hx|].
  etransitivity; [apply sublist_take|apply sublist_drop].
Qed.

(** Targets are codenames of testcases. *)
Lemma targets_by_number_subset indices current ts target tc :
  target ∈ targets_by_number indices current ts → tc ∈ target → tc ∈ indices.
Proof.
  revert current. induction ts as [|t ts IH]; intros current; cbn; [by intros ?%elem_of_nil|].
  intros [->|Ht]%elem_of_cons Htc; [by eapply slice_subset|by eapply IH].
Qed.

Lemma target_by_regexp_subset indices t target tc :
  target_by_regexp indices t = Ok target → tc ∈ target → tc ∈ indices.
Proof.
  unfold target_by_regexp. intros (f & _ & H)%res_bind_Ok Htc.
  assert (tc ∈ filter (λ tc, f tc = true) indices) as [_ Hin]%list_elem_of_filter; [|done].
  destruct (filter _ indices) as [|x l]; [done|]. by injection H as <-.
Qed.

Lemma targets_subset params publics targets target tc :
  retrieve_target_testcases params publics = Ok targets →
  target ∈ targets → tc ∈ target → tc ∈ pd_keys publics.
Proof.
  unfold retrieve_target_testcases. intros (l & _ & H)%res_bind_Ok Ht Htc.
  rewrite <- sort_strings_elem. destruct (mapM json_int l) as [ts|].
  - injection H as <-. by eapply targets_by_number_subset.
  - destruct (mapM json_str l) as [ts|]; [|done]. apply map_res_Forall2 in H.
    apply list_elem_of_lookup in Ht as [i Hi]. destruct (Forall2_lookup_r _ _ _ _ _ H Hi) as (t & _ & Hr).
    by eapply target_by_regexp_subset.
Qed.

(** ** What a data set needs to be scored *)

Lemma dataset_publics_NoDup db d : NoDup (pd_keys (dataset_publics db d)).
Proof.
  unfold dataset_publics. assert (NoDup (pd_keys ([] : pydict string bool))) as H by constructor.
  revert H. generalize ([] : pydict string bool). induction (testcases db d) as [|tc l IH]; intros acc Hacc; simpl; [done|].
  by apply IH, pd_keys_set_NoDup.
Qed.

Definition sound_parameters (c : score_class) (parameters : json) (publics : pydict string bool) : Prop :=
  match c with
  | Sum => ∃ m, maximum parameters m
  | _ => ∃ params targets, json_iter parameters = Ok params ∧
      retrieve_target_testcases params publics = Ok targets ∧
      ∀ x, x ∈ enumerate_subtasks params targets →
        (∃ p0 m, json_item x.2.1 0 = Ok p0 ∧ maximum p0 m) ∧ reducible c x.2.1 x.2.2
  end.

(** Every testcase has an evaluation, with an outcome. *)
Definition judged (c : score_class) (publics : pydict string bool)
    (evaluations : pydict string Evaluation) : Prop :=
  ∀ tc, tc ∈ pd_keys publics → ∃ x, outcome_at evaluations tc = Ok x ∧ outcome_ok c x.

(** Every outcome is correct. *)
Definition all_correct (c : score_class) (parameters : json) (publics : pydict string bool)
    (evaluations : pydict string Evaluation) : Prop :=
  match c with
  | Sum => ∀ tc, tc ∈ pd_keys publics → outcome_at evaluations tc = Ok f1
  | _ => ∀ params targets x, json_iter parameters = Ok params →
      retrieve_target_testcases params publics = Ok targets →
      x ∈ enumerate_subtasks params targets → subtask_perfect c evaluations x.2.1 x.2.2
  end.

(** Score details that consist of the subtasks whose scores add up to [x]. *)
Definition details_of (subs : list json) (x : float) : Prop :=
  ∃ vals, valids vals ∧ x = foldl fadd f0 vals ∧
    Forall3 is_subtask (seq 0 (length subs)) subs vals.

(** The number of subtasks. *)
Definition subtask_count (parameters : json) (n : nat) : Prop :=
  ∃ params, json_iter parameters = Ok params ∧ length params = n.

Lemma enumerate_length params targets :
  length params = length targets →
  (enumerate_subtasks params targets).*1 = seq 0 (length params).
Proof.
  intros Hl. unfold enumerate_subtasks. apply fst_zip. rewrite length_seq, length_zip_with. lia.
Qed.

Lemma length_targets params publics targets :
  retrieve_target_testcases params publics = Ok targets → length params = length targets.
Proof.
  unfold retrieve_target_testcases. intros (l & Hl%map_res_Forall2%Forall2_length & H)%res_bind_Ok.
  destruct (mapM json_int l) as [ts|] eqn:E1.
  - injection H as <-. apply length_mapM in E1. rewrite Hl, E1. clear. generalize 0%Z.
    induction ts as [|t ts IH]; intros z; simpl; [done|]. by rewrite <- IH.
  - destruct (mapM json_str l) as [ts|] eqn:E2; [|done]. apply length_mapM in E2.
    apply map_res_Forall2, Forall2_length in H. lia.
Qed.

Lemma group_spec c parameters publics evaluations :
  c ≠ Sum → sound_parameters c parameters publics → judged c publics evaluations →
  ∃ M P H, group_max_scores parameters publics = Ok (M, P, H) ∧
    ∃ sc, group_compute_score (mkScoreType c parameters publics M P H) evaluations = Ok sc ∧
      within (all_correct c parameters publics evaluations) (score sc) (public_score sc) M P ∧
      ∃ subs, score_details sc = JList subs ∧ details_of subs (score sc) ∧
        subtask_count parameters (length subs).
Proof.
  intros Hc Hs Hj.
  assert (∃ params targets, json_iter parameters = Ok params ∧
    retrieve_target_testcases params publics = Ok targets ∧
    ∀ x, x ∈ enumerate_subtasks params targets →
      (∃ p0 m, json_item x.2.1 0 = Ok p0 ∧ maximum p0 m) ∧ reducible c x.2.1 x.2.2)
    as (params & targets & Hp & Ht & Hx) by (by destruct c).
  assert (all_correct c parameters publics evaluations →
    ∀ x, x ∈ enumerate_subtasks params targets → subtask_perfect c evaluations x.2.1 x.2.2) as Hex
    by (intros Ha x Hin; destruct c; [done|by eapply Ha..]).
  destruct (group_fold c publics evaluations (all_correct c parameters publics evaluations)
    (enumerate_subtasks params targets) f0 [] f0 [] [] f0 f0 [])
    as (M & P & H & vals & subs & p & psubs & rd & E1 & E2 & Hw & Hv & H3); [|done|apply within_0|].
  - intros [i [q t]] Hin. destruct (Hx _ Hin) as [Hmax Hred].
    assert (∀ tc, tc ∈ t → tc ∈ pd_keys publics) as Hkeys.
    { intros tc Htc. eapply targets_subset; [exact Ht| |exact Htc].
      by apply list_elem_of_In, in_combine_r, in_combine_r, list_elem_of_In in Hin. }
    split; [done|done|..]; intros tc Htc%Hkeys; [|by apply Hj].
    destruct (pd_get publics tc) eqn:E; [by eexists|]. by apply pd_get_None in E.
  - exists M, P, H. split.
    + unfold group_max_scores. rewrite Hp. cbn [mbind res_bind]. rewrite Ht. exact E1.
    + exists (mkScores (foldl fadd f0 vals) (JList subs) p (JList psubs) rd). split; [|split; [exact Hw|]].
      * unfold group_compute_score. cbn [ScoreTypes.parameters public_testcases st_class].
        rewrite Hp. cbn [mbind res_bind]. rewrite Ht. cbn [mbind res_bind]. rewrite E2. done.
      * exists subs. split; [done|]. pose proof (enumerate_length params targets (length_targets _ _ _ Ht)) as Hi.
        assert (length subs = length params) as Hl.
        { rewrite <- (length_seq (length params) 0), <- Hi, length_fmap. symmetry. by eapply Forall3_length_lm. }
        split; [|by exists params]. exists vals. split; [done|]. split; [done|].
        rewrite Hl, <- Hi. clear -H3. induction H3; csimpl; by constructor.
Qed.

(** ** Sum *)

(** [m + ... + m], [n] times. *)
Definition adds (n : nat) (m : float) : float := Nat.iter n (λ x, fadd x m) f0.

Definition is_public (publics : pydict string bool) (tc : string) : Prop := pd_get publics tc = Some true.

#[export] Instance is_public_dec publics tc : Decision (is_public publics tc).
Proof. unfold is_public. solve_decision. Defined.

Lemma sum_max_eq parameters m publics :
  json_float parameters = Ok m →
  sum_max_scores parameters publics =
    Ok (adds (length publics) m, adds (length (filter (λ b, b = true) (pd_values publics))) m, []).
Proof.
  intros Hm. unfold sum_max_scores.
  assert (∀ l n k, fold_res (λ (acc : float * float) (public : bool),
      p ← json_float parameters; Ok (fadd acc.1 p, if public then fadd acc.2 p else acc.2))
      (adds n m, adds k m) l =
    Ok (adds (length l + n) m, adds (length (filter (λ b, b = true) l) + k) m)) as Hfold.
  { induction l as [|b l IH]; intros n k; [done|]. cbn [fold_res]. rewrite Hm at 1. cbn [mbind res_bind fst snd].
    destruct b.
    - rewrite filter_cons_True by done. etransitivity; [apply (IH (S n) (S k))|]. by rewrite <- !plus_n_Sm.
    - rewrite filter_cons_False by done. etransitivity; [apply (IH (S n) k)|]. by rewrite <- plus_n_Sm. }
  specialize (Hfold (pd_values publics) 0%nat 0%nat). rewrite !Nat.add_0_r in Hfold.
  change (adds 0 m) with f0 in Hfold. rewrite Hfold. unfold pd_values. by rewrite length_fmap.
Qed.

Lemma public_count publics :
  NoDup (pd_keys publics) →
  length (filter (is_public publics) (pd_keys publics)) = length (filter (λ b, b = true) (pd_values publics)).
Proof.
  induction publics as [|[k b] d IH]; [done|]. unfold pd_keys, pd_values in *. csimpl.
  intros [Hk Hn]%NoDup_cons. specialize (IH Hn).
  assert (filter (is_public ((k, b) :: d)) d.*1 = filter (is_public d) d.*1) as E.
  { apply filter_ext_elem. intros x Hx. unfold is_public. cbn. by rewrite decide_False by (by intros ->). }
  assert (is_public ((k, b) :: d) k ↔ b = true) as Hkb.
  { unfold is_public. cbn. rewrite decide_True by done. naive_solver. }
  rewrite !filter_cons, E. destruct (decide (is_public ((k, b) :: d) k)) as [Hd|Hd].
  - rewrite (decide_True (P := b = true)) by (by apply Hkb). cbn [length]. by rewrite IH.
  - rewrite (decide_False (P := b = true)) by (by rewrite <- Hkb). done.
Qed.

Lemma sum_testcase_spec parameters m publics evaluations tc x b s ts p pts :
  json_float parameters = Ok m → outcome_at evaluations tc = Ok x → pd_get publics tc = Some b →
  ∃ ts' pts', sum_testcase parameters publics evaluations (s, ts, p, pts) tc =
    Ok (fadd s (fmul x m), ts', if b then fadd p (fmul x m) else p, pts').
Proof.
  intros Hm (ev & Hev & Hx)%res_bind_Ok Hb.
  assert (∃ o, sum_public_outcome parameters (fmul x m) = Ok o) as [o Ho].
  { unfold sum_public_outcome. case_match; [by eexists|]. destruct parameters; try done; by eexists. }
  eexists _, _. unfold sum_testcase. rewrite Hev. cbn [mbind res_bind]. rewrite Hx. cbn [mbind res_bind].
  rewrite Hm. cbn [mbind res_bind]. rewrite Ho, Hb. cbn [mbind res_bind or_raise]. done.
Qed.

Lemma sum_fold parameters m publics evaluations (exact : Prop) idxs s ts p pts n k :
  maximum parameters m → judged Sum publics evaluations →
  (∀ tc, tc ∈ idxs → tc ∈ pd_keys publics) →
  (exact → ∀ tc, tc ∈ idxs → outcome_at evaluations tc = Ok f1) →
  within exact s p (adds n m) (adds k m) →
  ∃ s' ts' p' pts',
    fold_res (sum_testcase parameters publics evaluations) (s, ts, p, pts) idxs =
      Ok (s', ts', p', pts') ∧
    within exact s' p' (adds (length idxs + n) m) (adds (length (filter (is_public publics) idxs) + k) m).
Proof.
  intros (Hm & Vm & Fm) Hj. revert s ts p pts n k.
  induction idxs as [|tc idxs IH]; intros s ts p pts n k Hk Hex Hw; [by eauto 10|].
  destruct (Hj tc) as (x & Hx & Vx & Lx); [apply Hk; by left|].
  destruct (pd_get publics tc) as [b|] eqn:Hb; [|exfalso; apply pd_get_None in Hb; apply Hb, Hk; by left].
  destruct (sum_testcase_spec parameters m publics evaluations tc x b s ts p pts Hm Hx Hb) as (ts1 & pts1 & Hone).
  assert (within exact (fadd s (fmul x m)) (if b then fadd p (fmul x m) else p)
            (adds (S n) m) (adds (if b then S k else k) m)) as Hw'.
  { pose proof (within_add exact s p _ _ (fmul x m) m b Hw Vm) as Ha. destruct b; apply Ha;
      try (by auto using fmul_le with cms);
      try (apply fmul_valid; [by apply (fle_finite x f1)|done..]);
      intros He; pose proof (Hex He tc ltac:(by left)) as Hxe; rewrite Hx in Hxe; injection Hxe as ->;
      by apply fmul_1_l. }
  destruct (IH (fadd s (fmul x m)) ts1 (if b then fadd p (fmul x m) else p) pts1 (S n) (if b then S k else k))
    as (s' & ts' & p' & pts' & Hrest & Hw2); [intros ??; apply Hk; by right|intros ???; apply Hex; [done|by right]|done|].
  exists s', ts', p', pts'. cbn [fold_res]. rewrite Hone. split; [exact Hrest|].
  rewrite filter_cons. cbn [length]. replace (S (length idxs) + n)%nat with (length idxs + S n)%nat by lia.
  destruct b.
  - rewrite decide_True by done. cbn [length]. by rewrite plus_Sn_m, plus_n_Sm.
  - rewrite decide_False by (unfold is_public; congruence). done.
Qed.

Lemma sum_spec parameters publics evaluations :
  NoDup (pd_keys publics) → sound_parameters Sum parameters publics → judged Sum publics evaluations →
  ∃ M P H, sum_max_scores parameters publics = Ok (M, P, H) ∧
    ∃ sc, sum_compute_score (mkScoreType Sum parameters publics M P H) evaluations = Ok sc ∧
      within (all_correct Sum parameters publics evaluations) (score sc) (public_score sc) M P.
Proof.
  intros Hn [m Hm] Hj. eexists _, _, _. split; [by apply sum_max_eq, Hm|].
  set (ks := sort_strings (pd_keys publics)).
  assert (ks ≡ₚ pd_keys publics) as Hp by apply merge_sort_Permutation.
  destruct (sum_fold parameters m publics evaluations (all_correct Sum parameters publics evaluations) ks
    f0 [] f0 [] 0 0 Hm Hj) as (s & ts & p & pts & Hfold & Hw).
  - intros tc. apply (proj1 (sort_strings_elem tc (pd_keys publics))).
  - intros Ha tc Htc. apply (Ha tc), (proj1 (sort_strings_elem _ _) Htc).
  - apply within_0.
  - exists (mkScores s (JList ts) p (JList pts) []). split.
    + unfold sum_compute_score. cbn [ScoreTypes.parameters public_testcases]. fold ks. by rewrite Hfold.
    + rewrite !Nat.add_0_r, Hp in Hw. rewrite <- public_count by done. unfold pd_keys in Hw at 1.
      rewrite length_fmap in Hw. exact Hw.
Qed.

(** ** Any score type *)

Lemma compute_score_spec c parameters publics evaluations :
  NoDup (pd_keys publics) → sound_parameters c parameters publics → judged c publics evaluations →
  ∃ st, score_type_init c parameters publics = Ok st ∧
    ∀ db sr, SR.evaluated sr = true → evaluations_by_codename db sr = Ok evaluations →
      ∃ sc, compute_score db st sr = Ok sc ∧
        within (all_correct c parameters publics evaluations) (score sc) (public_score sc)
          (max_score st) (max_public_score st).
Proof.
  intros Hn Hs Hj. destruct (decide (c = Sum)) as [->|Hc].
  - destruct (sum_spec parameters publics evaluations Hn Hs Hj) as (M & P & H & Hmax & sc & Hsc & Hw).
    exists (mkScoreType Sum parameters publics M P H). unfold score_type_init. simpl. rewrite Hmax. split; [done|].
    intros db sr He Hev. exists sc. unfold compute_score. rewrite He, Hev. by cbn [negb st_class mbind res_bind].
  - destruct (group_spec c parameters publics evaluations Hc Hs Hj) as (M & P & H & Hmax & sc & Hsc & Hw & _).
    exists (mkScoreType c parameters publics M P H).
    split; [unfold score_type_init; destruct c; [done|..]; simpl; by rewrite Hmax|].
    intros db sr He Hev. exists sc. split; [|exact Hw]. unfold compute_score. rewrite He, Hev.
    cbn [negb st_class mbind res_bind]. by destruct c.
Qed.

(** C13. A data set with sound parameters has a score type; when every
    testcase is evaluated, scoring returns, with scores from zero up to the maximum,
    the public score being at most the score and at most the public maximum.
    When every outcome is correct, the two scores are the two maxima exactly,
    although they are sums of rounded floats. *)
Theorem scores_within_maximum c parameters publics evaluations db sr :
  NoDup (pd_keys publics) → sound_parameters c parameters publics → judged c publics evaluations →
  SR.evaluated sr = true → evaluations_by_codename db sr = Ok evaluations →
  ∃ st sc, score_type_init c parameters publics = Ok st ∧
    compute_score db st sr = Ok sc ∧
    fleb f0 (public_score sc) = true ∧ fleb (public_score sc) (score sc) = true ∧
    fleb (score sc) (max_score st) = true ∧ fleb (public_score sc) (max_public_score st) = true ∧
    (all_correct c parameters publics evaluations →
     score sc = max_score st ∧ public_score sc = max_public_score st).
Proof.
  intros Hn Hs Hj He Hev. destruct (compute_score_spec c parameters publics evaluations Hn Hs Hj) as (st & Hst & Hc).
  destruct (Hc db sr He Hev) as (sc & Hsc & Vs & Vp & VM & VP & L1 & L2 & L3 & Hx).
  exists st, sc. split_and!; auto with cms.
Qed.
End score_types.

(** ** Two subtasks, the second with a half-correct testcase *)

Definition demo_read_float (s : string) : option float :=
  if String.eqb s "1.0" then Some f1 else if String.eqb s "0.5" then Some (of_Q 1 2) else None.
Definition demo_regexp (t : string) : option (string → bool) := Some (startswith t).

Definition demo_parameters : json :=
  JList [JList [JInt 40; JString "a"]; JList [JInt 60; JString "b"]].
Definition demo_publics : pydict string bool := [("b2", false); ("a1", true); ("b1", true)].

Definition demo_evaluation (tc : Z) (outcome : string) : Evaluation :=
  mkEvaluation 10 1 tc (Some outcome) [] None None None None None.
Definition demo_evaluations : pydict string Evaluation :=
  [("a1", demo_evaluation 1 "1.0"); ("b1", demo_evaluation 2 "1.0"); ("b2", demo_evaluation 3 "0.5")].

Definition demo_scoring_db : Db := mkDb [] [] [] []
  [mkTestcase 3 1 "b2" "in" "out" false; mkTestcase 1 1 "a1" "in" "out" true;
   mkTestcase 2 1 "b1" "in" "out" true]
  [] [] [] [] [] [] [] [] [] [] [].
Definition demo_judged_result : SubmissionResult :=
  mkSubmissionResult 10 1 (Some COk) [] 1 None None None None None None None (Some EOk) None 1
    None None None None None [] (demo_evaluations.*2).

Lemma demo_sound : sound_parameters demo_regexp GroupMin demo_parameters demo_publics.
Proof.
  eexists _, _. split; [reflexivity|]. split; [vm_compute; reflexivity|].
  intros x [->|[->|[]%elem_of_nil]%elem_of_cons]%elem_of_cons; cbn;
    (split; [eexists _, _; split; [reflexivity|]; split_and!; vm_compute; reflexivity|done]).
Qed.

Lemma demo_judged : judged demo_read_float GroupMin demo_publics demo_evaluations.
Proof.
  intros tc [->|[->|[->|[]%elem_of_nil]%elem_of_cons]%elem_of_cons]%elem_of_cons;
    (eexists; split; [vm_compute; reflexivity|split; vm_compute; reflexivity]).
Qed.

Lemma scores_within_maximum_witness :
  ∃ st sc, score_type_init demo_regexp GroupMin demo_parameters demo_publics = Ok st ∧
    compute_score demo_regexp demo_read_float demo_scoring_db st demo_judged_result = Ok sc ∧
    (score sc, public_score sc, max_score st, ranking_score_details sc) =
      (of_Z 70, of_Z 40, of_Z 100, ["40"; "30"]) ∧
    fleb (public_score sc) (score sc) = true ∧ fleb (score sc) (max_score st) = true.
Proof.
  destruct (scores_within_maximum demo_regexp demo_read_float GroupMin demo_parameters demo_publics
    demo_evaluations demo_scoring_db demo_judged_result) as (st & sc & Hst & Hsc & _ & H1 & H2 & _).
  - vm_compute. repeat constructor; set_solver.
  - apply demo_sound.
  - apply demo_judged.
  - reflexivity.
  - vm_compute. reflexivity.
  - exists st, sc. split; [exact Hst|]. split; [exact Hsc|]. split; [|by split].
    vm_compute in Hst. injection Hst as <-. vm_compute in Hsc. injection Hsc as <-. vm_compute. reflexivity.
Defined.
