(* ===== verification/Scoring.v ===== *)
(** * Scores of a contestant on a task (cms/grading/scoring.py)

    [task_score] combines the results of the submissions of a participation
    with the score mode of the task; [compute_changes_for_dataset] compares the
    results on two data sets. A relationship is read in the order of its
    table. *)

From S2P Require Import Prelude PyFloat FloatOrder PyFormat Database ScoreTypes.

Local Open Scope string_scope.
Local Open Scope list_scope.

Definition SCORE_MODE_MAX : string := "max".
Definition SCORE_MODE_MAX_SUBTASK : string := "max_subtask".
Definition SCORE_MODE_MAX_TOKENED_LAST : string := "max_tokened_last".

(** Score, score details, and whether the submission was tokened. *)
Definition scored_entry : Type := option float * option json * bool.

Definition tokened (s : Submission) : bool := is_some (sub_token s).

(** ** Subtasks in score details *)

(** A key of a dictionary; numbers that are equal are the same key. *)
Inductive dict_key : Type :=
  | KNone | KInt (n : Z) | KFloat (x : float) | KString (s : string).

#[export] Instance dict_key_eq_dec : EqDecision dict_key.
Proof. solve_decision. Defined.

Definition json_dict_key (j : json) : res dict_key :=
  match j with
  | JNull => Ok KNone
  | JBool b => Ok (KInt (Z.b2z b))
  | JInt n => Ok (KInt n)
  | JFloat x =>
      Ok (match fceil x with
          | Ok n => if fge_int x n then KInt n else KFloat x
          | _ => KFloat x
          end)
  | JString s => Ok (KString s)
  | JList _ | JObject _ => Raise TypeError
  end.

(** [j[key]] *)
Definition json_get (j : json) (key : string) : res json :=
  match j with
  | JObject d => or_raise KeyError (pd_get (d : pydict string json) key)
  | _ => Raise TypeError
  end.

(** [a * b]: [None] stands for a repeated sequence, which is not a number.
    Score types write a float as the fraction. *)
Definition json_times (a b : json) : res (option float) :=
  match a, b with
  | (JString _ | JList _), (JInt _ | JBool _) | (JInt _ | JBool _), (JString _ | JList _) => Ok None
  | _, _ => x ← json_float a; y ← json_float b; Ok (Some (fmul x y))
  end.

Definition subtask_item (subtask : json) : res (dict_key * option float) :=
  idx ← json_get subtask "idx";
  a ← json_get subtask "score_fraction";
  b ← json_get subtask "max_score";
  p ← json_times a b;
  k ← json_dict_key idx;
  Ok (k, p).

(** The dictionary that the [try] builds. *)
Definition subtask_scores (details : option json) : option (pydict dict_key (option float)) :=
  match (l ← json_iter (default JNull details); map_res subtask_item l) with
  | Ok items => Some (foldl (λ d kv, pd_set d kv.1 kv.2) [] items)
  | _ => None
  end.

(** [subtask_scores], or [{1: score}]. *)
Definition entry_subtasks (score : float) (details : option json) : pydict dict_key (option float) :=
  match subtask_scores details with
  | None | Some [] => [(KInt 1, Some score)]
  | Some d => d
  end.

(** ** Score modes *)

Definition _task_score_max (l : list scored_entry) : float :=
  foldl (λ m e, match e.1.1 with Some s => fmax m s | None => m end) f0 l.

Definition _task_score_max_tokened_last (l : list scored_entry) : float :=
  let last_score := match last l with Some (Some s, _, _) => s | _ => f0 end in
  let max_tokened_score :=
    foldl (λ m (e : scored_entry),
      match e.1.1 with Some s => if e.2 then fmax m s else m | None => m end) f0 l in
  fmax last_score max_tokened_score.

(** [details == [] and score == 0.0] *)
Definition did_not_compile (score : float) (details : option json) : bool :=
  match details with Some (JList []) => feqb score f0 | _ => false end.

Definition max_subtask_step (max_scores : pydict dict_key float) (kv : dict_key * option float)
    : res (pydict dict_key float) :=
  s ← or_raise TypeError kv.2;
  Ok (pd_set max_scores kv.1 (fmax (default f0 (pd_get max_scores kv.1)) s)).

Definition max_subtask_entry (max_scores : pydict dict_key float) (e : scored_entry)
    : res (pydict dict_key float) :=
  match e.1.1 with
  | None => Ok max_scores
  | Some score =>
      if did_not_compile score e.1.2 then Ok max_scores
      else fold_res max_subtask_step max_scores (entry_subtasks score e.1.2)
  end.

Definition _task_score_max_subtask (l : list scored_entry) : res float :=
  max_scores ← fold_res max_subtask_entry [] l;
  Ok (foldl fadd f0 (pd_values max_scores)).

(** ** task_score *)

(** [sorted(submissions, key=lambda s: s.timestamp)] is stable. *)
Fixpoint insert_by_time (s : Submission) (l : list Submission) : list Submission :=
  match l with
  | [] => [s]
  | x :: l' => if (sub_timestamp s <=? sub_timestamp x)%Z then s :: l else x :: insert_by_time s l'
  end.
Definition sort_by_time (l : list Submission) : list Submission := foldr insert_by_time [] l.

Definition official_submissions (db : Db) (p : Participation) (t : Task) : list Submission :=
  filter (λ s, sub_participation_id s = pa_id p ∧ sub_task_id s = task_id t ∧ sub_official s = true)
    (db_submissions db).

(** What a result tells: nothing, if it is not scored. *)
Definition entry_of (public only_tokened : bool) (s : Submission) (sr : option SubmissionResult)
    : option scored_entry :=
  match sr with
  | Some sr =>
      if SR.scored sr then
        Some (if public then (sr_public_score sr, sr_public_score_details sr, tokened s)
              else if only_tokened && negb (tokened s) then (None, None, tokened s)
              else (sr_score sr, sr_score_details sr, tokened s))
      else None
  | None => None
  end.

Definition mode_score (mode : string) (l : list scored_entry) : res float :=
  if String.eqb mode SCORE_MODE_MAX then Ok (_task_score_max l)
  else if String.eqb mode SCORE_MODE_MAX_SUBTASK then _task_score_max_subtask l
  else if String.eqb mode SCORE_MODE_MAX_TOKENED_LAST then Ok (_task_score_max_tokened_last l)
  else Raise ValueError.

(** [s.get_result(task.active_dataset)] of every submission. *)
Definition submissions_and_results (db : Db) (t : Task) (submissions : list Submission)
    : res (list (Submission * option SubmissionResult)) :=
  map_res (λ s,
    r ← submission_get_result db s (task_active_dataset_id t ≫= get_dataset db);
    Ok (s, r)) submissions.

Definition task_score (db : Db) (p : Participation) (t : Task) (public only_tokened rounded : bool)
    : res (float * bool) :=
  if public && only_tokened then Raise ValueError
  else
    match official_submissions db p t with
    | [] => Ok (f0, false)
    | submissions =>
        l ← submissions_and_results db t (sort_by_time submissions);
        let entries := (λ sr, entry_of public only_tokened sr.1 sr.2) <$> l in
        let partial := existsb (λ e, negb (is_some e)) entries in
        match omap id entries with
        | [] => Ok (f0, false)
        | score_details_tokened =>
            score ← mode_score (task_score_mode t) score_details_tokened;
            score ← (if rounded then fround score (task_score_precision t) else Ok score);
            Ok (score, partial)
        end
    end.

(** ** compute_changes_for_dataset *)

Record SubmissionScoreDelta : Type := mkDelta {
  sd_submission : Submission;
  old_score : option float;
  new_score : option float;
  old_public_score : option float;
  new_public_score : option float;
  old_ranking_score_details : option (list string);
  new_ranking_score_details : option (list string);
}.

Definition opt_feqb (a b : option float) : bool :=
  match a, b with Some x, Some y => feqb x y | None, None => true | _, _ => false end.

(** [compare(a, b)] *)
Definition compare {A} (eqb : A → A → bool) (a b : A) (none : A) : bool * (A * A) :=
  if eqb a b then (false, (none, none)) else (true, (a, b)).

Definition submission_delta (s : Submission) (old new : option SubmissionResult)
    : option SubmissionScoreDelta :=
  let '(diff1, pair1) := compare opt_feqb (old ≫= sr_score) (new ≫= sr_score) None in
  let '(diff2, pair2) := compare opt_feqb (old ≫= sr_public_score) (new ≫= sr_public_score) None in
  let '(diff3, pair3) := compare (λ a b, bool_decide (a = b))
    (old ≫= sr_ranking_score_details) (new ≫= sr_ranking_score_details) None in
  if diff1 || diff2 || diff3 then
    Some (mkDelta s pair1.1 pair1.2 pair2.1 pair2.2 pair3.1 pair3.2)
  else None.

Definition submission_change (db : Db) (old_dataset new_dataset : Dataset) (s : Submission)
    : res (option SubmissionScoreDelta) :=
  old ← submission_get_result db s (Some old_dataset);
  new ← submission_get_result db s (Some new_dataset);
  Ok (submission_delta s old new).

Definition compute_changes_for_dataset (db : Db) (old_dataset new_dataset : Dataset)
    : res (list SubmissionScoreDelta) :=
  if bool_decide (ds_task_id old_dataset ≠ ds_task_id new_dataset) then Raise ValueError
  else
    l ← map_res (submission_change db old_dataset new_dataset)
          (filter (λ s, sub_task_id s = ds_task_id old_dataset) (db_submissions db));
    Ok (omap (M:=list) id l).

(** ** The three modes compared *)

(** Keys [1], [2], ..., with [n] before them. *)
Definition subtask_keys (start n : nat) : list dict_key :=
  (λ i, KInt (Z.of_nat i + 1)) <$> seq start n.

Lemma subtask_keys_NoDup start n : NoDup (subtask_keys start n).
Proof.
  apply NoDup_fmap_2; [|apply NoDup_seq]. intros i j [= H]. lia.
Qed.

Lemma pd_set_middle {K V} `{EqDecision K} (d1 d2 : pydict K V) k w v :
  k ∉ pd_keys d1 → pd_set (d1 ++ (k, w) :: d2) k v = d1 ++ (k, v) :: d2.
Proof.
  unfold pd_keys. induction d1 as [|[k1 v1] d1 IH]; csimpl; [by rewrite decide_True|].
  intros [Hne Hd]%not_elem_of_cons. rewrite decide_False by done. f_equal. by apply IH.
Qed.

Lemma pd_get_middle {K V} `{EqDecision K} (d1 d2 : pydict K V) k w :
  k ∉ pd_keys d1 → pd_get (d1 ++ (k, w) :: d2) k = Some w.
Proof.
  unfold pd_keys. induction d1 as [|[k1 v1] d1 IH]; csimpl; [by rewrite decide_True|].
  intros [Hne Hd]%not_elem_of_cons. rewrite decide_False by done. by apply IH.
Qed.

Lemma max_steps_present (d : pydict dict_key float) ks v a :
  NoDup (pd_keys d ++ ks) → length v = length ks → length a = length ks →
  fold_res max_subtask_step (d ++ zip ks v) (zip ks (Some <$> a)) = Ok (d ++ zip ks (zip_with fmax v a)).
Proof.
  revert d v a. induction ks as [|k ks IH]; intros d [|x v] [|y a] Hn; try done. csimpl. intros [= Hv] [= Ha].
  pose proof Hn as (Hd & Hk & _)%NoDup_app.
  assert (k ∉ pd_keys d) as Hkd by (intros Hin; by destruct (Hk _ Hin); left).
  cbn [fold_res]. unfold max_subtask_step at 1. cbn [or_raise mbind res_bind fst snd].
  rewrite pd_get_middle, pd_set_middle by done. cbn [default].
  specialize (IH (d ++ [(k, fmax x y)]) v a). rewrite <- !app_assoc in IH. apply IH; [|done..].
  unfold pd_keys in *. rewrite fmap_app. csimpl. by rewrite <- app_assoc.
Qed.

Lemma max_steps_fresh (d : pydict dict_key float) ks a :
  NoDup (pd_keys d ++ ks) → valids a → length a = length ks →
  fold_res max_subtask_step d (zip ks (Some <$> a)) = Ok (d ++ zip ks a).
Proof.
  revert d a. induction ks as [|k ks IH]; intros d [|y a] Hn; try done.
  { intros _ _. cbn. by rewrite app_nil_r. }
  intros [Vy Va]%Forall_cons. csimpl. intros [= Ha].
  pose proof Hn as (Hd & Hk & _)%NoDup_app.
  assert (k ∉ pd_keys d) as Hkd by (intros Hin; by destruct (Hk _ Hin); left).
  cbn [fold_res]. unfold max_subtask_step at 1. cbn [or_raise mbind res_bind fst snd].
  rewrite (proj2 (pd_get_None d k)), pd_set_fresh by done. cbn [default].
  rewrite fmax_f0_l by (by apply fvalid_nonneg). rewrite IH; [by rewrite <- app_assoc| |done|done].
  unfold pd_keys in *. rewrite fmap_app. csimpl. by rewrite <- app_assoc.
Qed.

(** The dictionary built from the details of a group score type. *)
Lemma subtask_item_spec i sub a :
  is_subtask i sub a → subtask_item sub = Ok (KInt (Z.of_nat i + 1), Some a).
Proof.
  intros (f & p0 & m & ts & Hm & -> & ->).
  assert (json_times (JFloat f) p0 = Ok (Some (fmul f m))) as Ht.
  { destruct p0; try discriminate Hm; cbn -[fmul int_float] in *;
      first [by rewrite Hm|by injection Hm as <-]. }
  unfold subtask_item, json_get.
  do 3 (etransitivity; [apply res_bind_eq; reflexivity|cbv beta]).
  etransitivity; [by apply res_bind_eq|]. done.
Qed.

Lemma details_items start subs vals :
  Forall3 is_subtask (seq start (length subs)) subs vals →
  map_res subtask_item subs = Ok (zip (subtask_keys start (length subs)) (Some <$> vals)) ∧
  length vals = length subs.
Proof.
  revert start vals. induction subs as [|sub subs IH]; intros start vals; cbn.
  - inversion 1; subst. done.
  - inversion 1 as [|? ? a ? ? vals' Ha Hrest]; subst. destruct (IH _ _ Hrest) as [E Hl].
    rewrite (subtask_item_spec _ _ _ Ha). cbn. rewrite E. cbn. by rewrite Hl.
Qed.

Lemma details_subtasks subs vals s :
  subs ≠ [] → Forall3 is_subtask (seq 0 (length subs)) subs vals →
  entry_subtasks s (Some (JList subs)) = zip (subtask_keys 0 (length subs)) (Some <$> vals).
Proof.
  intros Hne [E Hl]%details_items. unfold entry_subtasks, subtask_scores.
  change (json_iter (default JNull (Some (JList subs))) ≫= (λ l, map_res subtask_item l))
    with (map_res subtask_item subs).
  rewrite E, (dict_of_items _ []).
  - destruct subs as [|x subs], vals; try done.
  - simpl. rewrite fst_zip; [apply subtask_keys_NoDup|].
    rewrite length_fmap, Hl. unfold subtask_keys. by rewrite length_fmap, length_seq.
Qed.

(** What a group score type with [n] subtasks leaves in a result: the scores of
    the subtasks, or an empty list for a submission that did not compile.
    [None] stands for a score that is to be ignored. *)
Definition entry_ok (n : nat) (e : scored_entry) : Prop :=
  match e.1.1 with
  | None => True
  | Some s => ∃ subs, e.1.2 = Some (JList subs) ∧ (subs = [] ∨ length subs = n) ∧ details_of subs s
  end.

Definition scores_of (l : list scored_entry) : list float := omap (λ e, e.1.1) l.

Lemma details_valid subs s : details_of subs s → fvalid s = true.
Proof. intros (vals & Hv & -> & _). by apply foldl_fadd_valid. Qed.

Lemma scores_valid n l : Forall (entry_ok n) l → valids (scores_of l).
Proof.
  intros Hl. apply Forall_forall. intros s ([[o d] t] & He & Hs)%list_elem_of_omap. simpl in Hs. subst o.
  rewrite Forall_forall in Hl. destruct (Hl _ He) as (subs & _ & _ & Hd). by eapply details_valid.
Qed.

Lemma task_score_max_eq l : _task_score_max l = foldl fmax f0 (scores_of l).
Proof.
  unfold _task_score_max. generalize f0. induction l as [|[[[s|] d] t] l IH]; intros m; csimpl; [done|..]; apply IH.
Qed.

(** The best tokened submission and the last one are among all. *)
Lemma tokened_last_le l :
  valids (scores_of l) →
  fvalid (_task_score_max_tokened_last l) = true ∧
  fleb (_task_score_max_tokened_last l) (_task_score_max l) = true.
Proof.
  intros Hv. rewrite task_score_max_eq. unfold _task_score_max_tokened_last.
  set (ts := omap (λ e : scored_entry, if e.2 then e.1.1 else None) l).
  assert (∀ s, s ∈ ts → s ∈ scores_of l) as Hsub.
  { intros s ([[o d] t] & He & Hs)%list_elem_of_omap. apply list_elem_of_omap. exists (o, d, t).
    by destruct t. }
  assert (valids ts) as Hvt.
  { apply Forall_forall. intros s Hs. unfold valids in Hv. rewrite Forall_forall in Hv. auto. }
  assert (∀ m, foldl (λ m (e : scored_entry),
      match e.1.1 with Some s => if e.2 then fmax m s else m | None => m end) m l = foldl fmax m ts) as ->.
  { unfold ts. clear. induction l as [|[[[s|] d] []] l IH]; intros m; csimpl; [done|..]; apply IH. }
  set (last_score := match last l with Some (Some s, _, _) => s | _ => f0 end).
  assert (last_score = f0 ∨ last_score ∈ scores_of l) as Hlast.
  { unfold last_score. destruct (last l) as [[[[s|] d] t]|] eqn:E; [right|by left..].
    apply last_Some in E as [l' ->]. apply list_elem_of_omap. exists (Some s, d, t).
    split; [|done]. apply elem_of_app. right. by left. }
  assert (fvalid last_score = true) as Hlv.
  { destruct Hlast as [->|Hin]; [done|]. unfold valids in Hv. rewrite Forall_forall in Hv. auto. }
  split; [by auto using foldl_fmax_valid with cms|]. apply fmax_lub.
  - destruct Hlast as [->|Hin]; [by apply foldl_fmax_start|by apply foldl_fmax_ge].
  - apply foldl_fmax_lub; [by apply foldl_fmax_start|]. intros y Hy. by apply foldl_fmax_ge; auto.
Qed.

(** The best scores of the subtasks so far. *)
Definition best_ok (n : nat) (d : pydict dict_key float) : Prop :=
  d = [] ∨ ∃ v, d = zip (subtask_keys 0 n) v ∧ length v = n ∧ valids v.

Definition total (d : pydict dict_key float) : float := foldl fadd f0 (pd_values d).

Lemma length_subtask_keys start n : length (subtask_keys start n) = n.
Proof. unfold subtask_keys. by rewrite length_fmap, length_seq. Qed.

Lemma total_zip n v : length v = n → total (zip (subtask_keys 0 n) v) = foldl fadd f0 v.
Proof.
  intros Hv. unfold total, pd_values. by rewrite snd_zip by (by rewrite length_subtask_keys, Hv).
Qed.

Lemma best_ok_valid n d : best_ok n d → fvalid (total d) = true.
Proof.
  intros [->|(v & -> & Hl & Hv)]; [done|]. rewrite total_zip by done. by apply foldl_fadd_valid.
Qed.

Lemma zip_with_fmax_ge v w :
  length v = length w → valids v → valids w →
  valids (zip_with fmax v w) ∧ Forall2 (λ a b, fleb a b = true) v (zip_with fmax v w) ∧
  Forall2 (λ a b, fleb a b = true) w (zip_with fmax v w).
Proof.
  revert w. induction v as [|x v IH]; intros [|y w]; try done.
  intros [= Hl] [Hx Hv]%Forall_cons [Hy Hw]%Forall_cons. destruct (IH w Hl Hv Hw) as (H1 & H2 & H3).
  split_and!; constructor; auto with cms.
Qed.

Lemma max_subtask_entry_spec n d e :
  best_ok n d → entry_ok n e →
  ∃ d', max_subtask_entry d e = Ok d' ∧ best_ok n d' ∧ fleb (total d) (total d') = true ∧
    ∀ s, e.1.1 = Some s → fleb s (total d') = true.
Proof.
  intros Hd He. pose proof (best_ok_valid n d Hd) as Vd. unfold max_subtask_entry, entry_ok in *.
  destruct (e.1.1) as [s|]; [|exists d; split_and!; [done|done|by apply fle_refl|done]].
  destruct He as (subs & -> & Hn & vals & Hv & -> & H3). destruct subs as [|sub subs'].
  { inversion H3; subst. exists d. split_and!; auto with cms. by intros s [= <-]; apply fle_0. }
  destruct Hn as [|Hn]; [done|]. set (subs := sub :: subs') in *.
  destruct (details_items _ _ _ H3) as [_ Hlv]. cbn [did_not_compile].
  rewrite (details_subtasks subs vals _ ltac:(done) H3), Hn.
  assert (fvalid (foldl fadd f0 vals) = true) as Vs by (by apply foldl_fadd_valid).
  destruct Hd as [->|(v & -> & Hl & Hvv)].
  - rewrite (max_steps_fresh [] (subtask_keys 0 n) vals); [|by apply subtask_keys_NoDup|done|by rewrite length_subtask_keys, Hlv].
    exists (zip (subtask_keys 0 n) vals). rewrite total_zip by lia.
    split; [done|]. split; [right; exists vals; split_and!; [done|lia|done]|].
    split; [by apply fle_0|]. intros s [= <-]. by apply fle_refl.
  - pose proof (max_steps_present [] (subtask_keys 0 n) v vals) as Hms. cbn [app] in Hms.
    rewrite Hms; [|by apply subtask_keys_NoDup|rewrite length_subtask_keys; lia..]. clear Hms.
    destruct (zip_with_fmax_ge v vals ltac:(lia) Hvv Hv) as (V & G1 & G2).
    assert (length (zip_with fmax v vals) = n) as Hlz by (rewrite length_zip_with; lia).
    exists (zip (subtask_keys 0 n) (zip_with fmax v vals)). rewrite !total_zip by done.
    split; [done|]. split; [right; by exists (zip_with fmax v vals)|].
    split; [|intros s [= <-]]; by apply foldl_fadd_mono.
Qed.

Lemma max_subtask_fold n d l :
  best_ok n d → Forall (entry_ok n) l →
  ∃ d', fold_res max_subtask_entry d l = Ok d' ∧ best_ok n d' ∧ fleb (total d) (total d') = true ∧
    ∀ s, s ∈ scores_of l → fleb s (total d') = true.
Proof.
  intros Hd Hl. revert d Hd. induction Hl as [|e l He Hl IH]; intros d Hd.
  { exists d. split_and!; [done|done|by eapply fle_refl, best_ok_valid|]. by intros s ?%elem_of_nil. }
  destruct (max_subtask_entry_spec n d e Hd He) as (d1 & E1 & Hd1 & Hle1 & Hs1).
  destruct (IH d1 Hd1) as (d2 & E2 & Hd2 & Hle2 & Hs2).
  exists d2. cbn [fold_res]. rewrite E1. split; [exact E2|]. split; [done|].
  pose proof (best_ok_valid _ _ Hd). pose proof (best_ok_valid _ _ Hd1). pose proof (best_ok_valid _ _ Hd2).
  split; [by apply (fle_trans _ (total d1))|].
  intros s Hs. unfold scores_of in Hs. csimpl in Hs. destruct (e.1.1) as [x|] eqn:Ex; [|by apply Hs2].
  apply elem_of_cons in Hs as [->|Hs]; [|by apply Hs2].
  apply (fle_trans _ (total d1)); auto. unfold entry_ok in He. rewrite Ex in He.
  destruct He as (subs & _ & _ & Hdet). by eapply details_valid.
Qed.

Section modes.
Context (re_match : string → option (string → bool)) (float_of_string : string → option float).

(** A result of a group score type, scored after its testcases were judged or
    its compilation failed. *)
Definition result_scored (c : score_class) (publics : pydict string bool) (st : ScoreType)
    (score_ : float) (details : json) : Prop :=
  ∃ db sr sc, compute_score re_match float_of_string db st sr = Ok sc ∧
    score sc = score_ ∧ score_details sc = details ∧
    (SR.evaluated sr = true →
     ∃ evaluations, evaluations_by_codename db sr = Ok evaluations ∧
       judged float_of_string c publics evaluations).

Lemma result_scored_entry c parameters publics :
  c ≠ Sum → sound_parameters re_match c parameters publics →
  ∃ n, ∀ st s d, score_type_init re_match c parameters publics = Ok st → result_scored c publics st s d →
    ∃ subs, d = JList subs ∧ (subs = [] ∨ length subs = n) ∧ details_of subs s.
Proof.
  intros Hc Hs.
  assert (∃ params, json_iter parameters = Ok params) as [params Hp]
    by (destruct c; [done|destruct Hs as (p & _ & Hp & _); by exists p..]).
  exists (length params). intros st s d Hst (db & sr & sc & Hsc & <- & <- & Hj).
  unfold compute_score in Hsc. destruct (SR.evaluated sr) eqn:He.
  - destruct (Hj eq_refl) as (evs & Hev & Hjud).
    destruct (group_spec re_match float_of_string c parameters publics evs Hc Hs Hjud)
      as (M & P & H & Hmax & sc' & Hsc' & _ & subs & Hd & Hdet & ps & Hps & Hn).
    assert (st = mkScoreType c parameters publics M P H) as ->.
    { unfold score_type_init in Hst.
      assert (max_scores re_match c parameters publics = group_max_scores re_match parameters publics) as E
        by (by destruct c).
      rewrite E, Hmax in Hst. by injection Hst. }
    assert (group_compute_score re_match float_of_string (mkScoreType c parameters publics M P H) evs = Ok sc) as Hg.
    { cbn [negb st_class] in Hsc. rewrite Hev in Hsc. by destruct c. }
    rewrite Hsc' in Hg. injection Hg as <-. exists subs. rewrite Hp in Hps. injection Hps as <-. auto.
  - assert (score sc = f0 ∧ score_details sc = JList []) as [-> ->].
    { cbn [negb] in Hsc. destruct (st_class st).
      1: by injection Hsc as <-.
      all: apply res_bind_Ok in Hsc as (ps & _ & [= <-]); done. }
    exists []. split_and!; [done|by left|]. exists []. repeat constructor.
Qed.

(** C16. For a task with a group score type, whatever its submissions and tokens
    are, each score mode is at least as generous as the one before: the best
    of the tokened and the last submission, the best submission, the sum of
    the best subtasks - although each mode adds rounded floats in its own
    way. *)
Theorem score_modes_ordered c parameters publics st l :
  c ≠ Sum → sound_parameters re_match c parameters publics →
  score_type_init re_match c parameters publics = Ok st →
  (∀ o d t, (o, d, t) ∈ l →
     o = None ∨ ∃ s j, o = Some s ∧ d = Some j ∧ result_scored c publics st s j) →
  ∃ a b m, mode_score SCORE_MODE_MAX_TOKENED_LAST l = Ok a ∧ mode_score SCORE_MODE_MAX l = Ok b ∧
    mode_score SCORE_MODE_MAX_SUBTASK l = Ok m ∧
    fleb f0 a = true ∧ fleb a b = true ∧ fleb b m = true.
Proof.
  intros Hc Hs Hst Hl. destruct (result_scored_entry c parameters publics Hc Hs) as (n & Hn).
  assert (Forall (entry_ok n) l) as Hok.
  { apply Forall_forall. intros [[o d] t] He. unfold entry_ok. cbn [fst].
    destruct (Hl _ _ _ He) as [->|(s & j & -> & -> & Hr)]; [done|].
    destruct (Hn st s j Hst Hr) as (subs & -> & Hsubs). by exists subs. }
  pose proof (scores_valid n l Hok) as Hv. destruct (tokened_last_le l Hv) as [Va Hab].
  destruct (max_subtask_fold n [] l ltac:(by left) Hok) as (d & Hd & Hbest & _ & Hle).
  exists (_task_score_max_tokened_last l), (_task_score_max l), (total d).
  split; [done|]. split; [done|]. split; [by cbv [mode_score _task_score_max_subtask]; cbn; rewrite Hd|].
  split; [by apply fle_0|]. split; [done|]. rewrite task_score_max_eq.
  apply foldl_fmax_lub; [by eapply fle_0, best_ok_valid|done].
Qed.
End modes.

(** ** What the result says about submissions that are not scored *)

(** Whatever the mode, when no submission has a score the total is [0.0] and
    the partial flag is not set, although submissions are waiting. *)
Lemma nothing_scored db p t public rounded s0 l :
  official_submissions db p t = s0 :: l →
  submissions_and_results db t (sort_by_time (s0 :: l)) =
    Ok ((λ s, (s, None)) <$> sort_by_time (s0 :: l)) →
  task_score db p t public false rounded = Ok (f0, false).
Proof.
  intros Hs Hr. unfold task_score. rewrite andb_false_r, Hs, Hr. cbn [mbind res_bind].
  rewrite <- list_fmap_compose. generalize (sort_by_time (s0 :: l)). intros ss.
  assert (omap id ((λ sr, entry_of public false sr.1 sr.2) ∘ (λ s, (s, None)) <$> ss) = []) as ->; [|done].
  induction ss; [done|]. by csimpl.
Qed.

(** A tokened submission that failed to compile, then one that scored 70. *)
Lemma score_modes_ordered_witness :
  ∃ st sc a b m,
    score_type_init demo_regexp GroupMin demo_parameters demo_publics = Ok st ∧
    compute_score demo_regexp demo_read_float demo_scoring_db st demo_judged_result = Ok sc ∧
    let l := [(Some (score sc), Some (score_details sc), true);
              (Some f0, Some (JList []), false); (None, None, true)] in
    mode_score SCORE_MODE_MAX_TOKENED_LAST l = Ok a ∧ mode_score SCORE_MODE_MAX l = Ok b ∧
    mode_score SCORE_MODE_MAX_SUBTASK l = Ok m ∧ fleb a b = true ∧ fleb b m = true ∧ m = of_Z 70.
Proof.
  destruct (score_type_init demo_regexp GroupMin demo_parameters demo_publics) as [st| | |] eqn:Hst;
    try (vm_compute in Hst; discriminate Hst).
  destruct (compute_score demo_regexp demo_read_float demo_scoring_db st demo_judged_result) as [sc| | |] eqn:Hsc;
    try (vm_compute in Hst; injection Hst as <-; vm_compute in Hsc; discriminate Hsc).
  destruct (score_modes_ordered demo_regexp demo_read_float GroupMin demo_parameters demo_publics st
    [(Some (score sc), Some (score_details sc), true); (Some f0, Some (JList []), false); (None, None, true)])
    as (a & b & m & Ha & Hb & Hm & _ & H1 & H2).
  - discriminate.
  - apply demo_sound.
  - exact Hst.
  - intros o d t [[= -> -> ->]|[[= -> -> ->]|[[= -> -> ->]|[]%elem_of_nil]%elem_of_cons]%elem_of_cons]%elem_of_cons.
    + right. eexists _, _. split; [reflexivity|]. split; [reflexivity|].
      exists demo_scoring_db, demo_judged_result, sc. split_and!; [exact Hsc|done|done|].
      intros _. exists demo_evaluations. split; [vm_compute; reflexivity|apply demo_judged].
    + right. eexists _, _. split; [reflexivity|]. split; [reflexivity|].
      exists demo_scoring_db, (SR.new 11 1), (mkScores f0 (JList []) f0 (JList []) ["0"; "0"]).
      split_and!; [|done|done|discriminate]. vm_compute in Hst. injection Hst as <-. vm_compute. reflexivity.
    + by left.
  - exists st, sc, a, b, m. split; [done|]. split; [exact Hsc|]. split_and!; try assumption.
    vm_compute in Hst. injection Hst as <-. vm_compute in Hsc. injection Hsc as <-.
    vm_compute in Hm. by injection Hm as <-.
Defined.
