(* ===== verification/ScoringService.v ===== *)
(** * The scoring service (cms/service/ScoringService.py, scoringoperations.py)

    A [TriggeredService] with one [ScoringExecutor]: an operation names a
    result; executing it computes the score with the score type of the data
    set, writes it, and tells ProxyService if the data set is the active one.
    The first submission with the full score of a task that is not PvP is
    announced. The sweep finds the results that wait for a score. Calls of
    ProxyService are asynchronous and kept in [ss_calls]; logging is left out. *)

From S2P Require Import Prelude PriorityQueue Executor PyFloat FloatOrder.
From S2P Require Import Database DbUtil Session ScoreTypes.
From stdpp Require Import fin_sets.

Local Open Scope string_scope.
Local Open Scope list_scope.

(** ** Operations *)

Record ScoringOperation : Type := mkScoringOperation {
  so_submission_id : Z;
  so_dataset_id : Z;
}.

#[export] Instance ScoringOperation_eq_dec : EqDecision ScoringOperation.
Proof. solve_decision. Defined.
#[export] Instance ScoringOperation_countable : Countable ScoringOperation.
Proof.
  apply (inj_countable' (λ o, (so_submission_id o, so_dataset_id o))
           (λ p, mkScoringOperation p.1 p.2)). by intros [].
Defined.

Definition op_of (r : SubmissionResult) : ScoringOperation :=
  mkScoringOperation (sr_submission_id r) (sr_dataset_id r).

Definition filter_datasets_to_judge (t : Task) (d : Dataset) : sql :=
  sql_or (sql_eq (task_active_dataset_id t) (ds_id d)) (Some (ds_autojudge d)).

Definition filter_submission_results_to_score (r : SubmissionResult) : sql :=
  sql_and (sql_not (SR.filter_scored r))
    (sql_or (SR.filter_compilation_failed r) (SR.filter_evaluated r)).

(** The rows of the join, with the timestamp of the submission. *)
Definition get_operations (db : Db) : list (ScoringOperation * Z) :=
  s ← db_submissions db;
  t ← filter (λ t, task_id t = sub_task_id s) (db_tasks db);
  r ← filter (λ r, sr_submission_id r = sub_id s) (db_submission_results db);
  d ← filter (λ d, ds_id d = sr_dataset_id r) (db_datasets db);
  if holds (sql_and (filter_datasets_to_judge t d) (filter_submission_results_to_score r))
  then [(mkScoringOperation (sub_id s) (ds_id d), sub_timestamp s)] else [].

(** ** execute *)

Definition set_scores (sc : Scores) (r : SubmissionResult) : SubmissionResult :=
  mkSubmissionResult (sr_submission_id r) (sr_dataset_id r)
    (sr_compilation_outcome r) (sr_compilation_text r) (sr_compilation_tries r)
    (sr_compilation_stdout r) (sr_compilation_stderr r)
    (sr_compilation_time r) (sr_compilation_wall_clock_time r) (sr_compilation_memory r)
    (sr_compilation_shard r) (sr_compilation_sandbox r) (sr_evaluation_outcome r)
    (sr_submission_discarded r) (sr_evaluation_tries r)
    (Some (score sc)) (Some (score_details sc)) (Some (public_score sc)) (Some (public_score_details sc))
    (Some (ranking_score_details sc)) (sr_executables r) (sr_evaluations r).

Definition set_solved (t : Task) : Task :=
  mkTask (task_id t) (task_contest_id t) (task_active_dataset_id t) (task_pvp_batch t) (task_title t)
    (task_score_mode t) (task_score_precision t) true
    (task_name t) (task_num t) (task_submission_format t) (task_limits t).

(** Change the result that an operation names. *)
Definition change_result (op : ScoringOperation) (f : SubmissionResult → SubmissionResult)
    (l : list SubmissionResult) : list SubmissionResult :=
  (λ r, if decide (op_of r = op) then f r else r) <$> l.

Definition first_blood (now : Z) (p : Participation) (u : User) (t : Task) : Announcement :=
  mkAnnouncement now (task_title t +:+ " 的第一滴血！")
    ("选手 " +:+ (us_first_name u +:+ " " +:+ us_last_name u) +:+ " 第一个通过了 " +:+ task_title t +:+ "！")
    (pa_contest_id p) true.

Section ScoringService.
Context (re_match : string → option (string → bool)) (float_of_string : string → option float).

(** The announcement of the first full score. *)
Definition announce (now : Z) (submission : Submission) (t : Task) : M Session unit :=
  p ← db_query_res (λ db, or_raise AttributeError
        (head (filter (λ p, pa_id p = sub_participation_id submission) (db_participations db))));
  u ← db_query_res (λ db, or_raise AttributeError
        (head (filter (λ u, us_id u = pa_user_id p) (db_users db))));
  _ ← db_update (with_tasks (replace_row task_id (task_id t) set_solved));
  db_update (with_announcements (λ l, l ++ [first_blood now p u t])).

(** Whether ProxyService is to be told. *)
Definition score_result (now : Z) (op : ScoringOperation) : M Session bool :=
  submission ← db_query_res (λ db, or_raise ValueError (get_submission db (so_submission_id op)));
  dataset ← db_query_res (λ db, or_raise ValueError (get_dataset db (so_dataset_id op)));
  submission_result ← db_query_res (λ db, submission_get_result db submission (Some dataset));
  submission_result ← lift (or_raise ValueError submission_result);
  if negb (SR.needs_scoring submission_result) then
    if SR.scored submission_result then mret false else raise ValueError
  else
    score_type ← db_query_res (λ db, score_type_object re_match db dataset);
    sc ← db_query_res (λ db, compute_score re_match float_of_string db score_type submission_result);
    _ ← db_update (with_results (change_result op (set_scores sc)));
    task ← db_query_res (λ db, or_raise AttributeError (get_task db (sub_task_id submission)));
    _ ← (if bool_decide (ds_task_type dataset ≠ "PvP") && feqb (score sc) (max_score score_type)
            && negb (task_solved task)
         then announce now submission task else mret tt);
    _ ← db_commit;
    mret (bool_decide (task_active_dataset_id task = Some (ds_id dataset))).

Context {Q : Type} `{!PQueue ScoringOperation Q}.

Record World : Type := mkWorld {
  ss_db : Db;
  ss_service : TriggeredService (Q := Q);
  ss_calls : list Z;
}.

Definition set_db (db : Db) (w : World) : World := mkWorld db (ss_service w) (ss_calls w).
Definition set_service (s : TriggeredService (Q := Q)) (w : World) : World :=
  mkWorld (ss_db w) s (ss_calls w).

Definition execute (now : Z) (op : ScoringOperation) : M World unit :=
  notify ← in_session ss_db set_db (score_result now op);
  if notify : bool then modify (λ w, mkWorld (ss_db w) (ss_service w) (ss_calls w ++ [so_submission_id op]))
  else mret tt.

(** One turn of the loop of the executor, the first one of the service; an
    error is logged. *)
Definition run_once (now : Z) : M World unit :=
  w ← get;
  ex ← lift (get_executor (ss_service w));
  '(es, ex') ← lift (run_iteration ex);
  e ← lift (or_raise IndexError (head es));
  _ ← modify (λ w, set_service (mkService (ex' :: tail (_executors (ss_service w)))
                     (_sweeper_started (ss_service w)) (_sweeper_timeout (ss_service w))) w);
  try_except (λ _, true) (execute now (item e)) (mret tt).

(** The loop, until it would wait for an operation. *)
Fixpoint run_until_idle (fuel : nat) (now : Z) : M World unit :=
  w ← get;
  ex ← lift (get_executor (ss_service w));
  if (q_length (_operation_queue ex) =? 0)%nat then mret tt
  else match fuel with
       | O => lift NoFuel
       | S fuel => _ ← run_once now; run_until_idle fuel now
       end.

(** ** The service *)

Definition scoring_init : TriggeredService (Q := Q) :=
  start_sweeper 177 (add_executor (executor_init false) service_init).

(** The timestamp is [None] for now. *)
Definition enqueue_scoring (now : Z) (op : ScoringOperation) (timestamp : option Z) : M World unit :=
  w ← get;
  '(_, s) ← lift (service_enqueue op None timestamp (λ _, now) (ss_service w));
  modify (set_service s).

Definition _missing_operations (now : Z) : M World Z :=
  w ← get;
  for_acc (λ counter e, _ ← enqueue_scoring now e.1 (Some e.2); mret (counter + 1)%Z)
    0%Z (get_operations (ss_db w)).

Definition new_evaluation (now submission_id dataset_id : Z) : M World unit :=
  enqueue_scoring now (mkScoringOperation submission_id dataset_id) None.

(** One result of [invalidate_submission]. *)
Definition invalidate_one (temp_queue : list (ScoringOperation * Z)) (sr : SubmissionResult)
    : M Session (list (ScoringOperation * Z)) :=
  if SR.scored sr then
    _ ← db_update (with_results (change_result (op_of sr) SR.invalidate_score));
    s ← db_query_res (λ db, or_raise AttributeError (get_submission db (sr_submission_id sr)));
    mret (temp_queue ++ [(op_of sr, sub_timestamp s)])
  else mret temp_queue.

Definition invalidate_submission (now : Z)
    (submission_id dataset_id participation_id task_id contest_id : option Z) : M World unit :=
  temp_queue ← in_session ss_db set_db (
    submission_results ← db_query_res (λ db,
      get_submission_results db contest_id participation_id task_id submission_id dataset_id);
    temp_queue ← for_acc invalidate_one [] submission_results;
    _ ← db_commit;
    mret temp_queue);
  for_each (λ e, enqueue_scoring now e.1 (Some e.2)) temp_queue.
End ScoringService.

(** ** What executing an operation writes *)

(** The data that the score of a result depends on, and the tasks up to their
    flag. *)
Definition unsolve (t : Task) : Task :=
  mkTask (task_id t) (task_contest_id t) (task_active_dataset_id t) (task_pvp_batch t) (task_title t)
    (task_score_mode t) (task_score_precision t) false
    (task_name t) (task_num t) (task_submission_format t) (task_limits t).

Record frame (db db' : Db) : Prop := {
  frame_submissions : db_submissions db' = db_submissions db;
  frame_datasets : db_datasets db' = db_datasets db;
  frame_testcases : db_testcases db' = db_testcases db;
  frame_participations : db_participations db' = db_participations db;
  frame_users : db_users db' = db_users db;
  frame_tasks : unsolve <$> db_tasks db' = unsolve <$> db_tasks db;
}.

Lemma frame_refl db : frame db db.
Proof. done. Qed.

Lemma frame_trans db1 db2 db3 : frame db1 db2 → frame db2 db3 → frame db1 db3.
Proof. intros [] []. split; congruence. Qed.

Lemma frame_results f db : frame db (with_results f db).
Proof. done. Qed.

Lemma frame_announcements f db : frame db (with_announcements f db).
Proof. done. Qed.

Lemma unsolve_solved i l : unsolve <$> replace_row task_id i set_solved l = unsolve <$> l.
Proof.
  unfold replace_row. rewrite <- list_fmap_compose. apply list_fmap_ext. intros j t _. cbn. by case_decide.
Qed.

Lemma frame_solved i db : frame db (with_tasks (replace_row task_id i set_solved) db).
Proof. split; [done..|apply unsolve_solved]. Qed.

(** The submissions have their task and their user. *)
Definition refs_ok (db : Db) : Prop :=
  ∀ s, s ∈ db_submissions db →
    sub_task_id s ∈ task_id <$> db_tasks db ∧
    ∃ p u, head (filter (λ p, pa_id p = sub_participation_id s) (db_participations db)) = Some p ∧
           head (filter (λ u, us_id u = pa_user_id p) (db_users db)) = Some u.

Lemma frame_task_ids db db' : frame db db' → task_id <$> db_tasks db' = task_id <$> db_tasks db.
Proof.
  intros Hf. pose proof (f_equal (fmap task_id) (frame_tasks _ _ Hf)) as H.
  rewrite <- !list_fmap_compose in H. exact H.
Qed.

Lemma frame_refs db db' : frame db db' → refs_ok db → refs_ok db'.
Proof.
  intros Hf Hr s. rewrite (frame_submissions _ _ Hf). intros Hs. destruct (Hr s Hs) as (Ht & p & u & Hp & Hu).
  rewrite (frame_task_ids _ _ Hf), (frame_participations _ _ Hf), (frame_users _ _ Hf). eauto.
Qed.

Definition unsolved (db : Db) : nat := List.length (filter (λ t, task_solved t = false) (db_tasks db)).

(** Solving one unsolved task. *)
Lemma unsolved_solve db t :
  NoDup (task_id <$> db_tasks db) → t ∈ db_tasks db → task_solved t = false →
  S (unsolved (with_tasks (replace_row task_id (task_id t) set_solved) db)) = unsolved db.
Proof.
  unfold unsolved, replace_row. simpl. intros Hn Ht Hs. induction (db_tasks db) as [|x l IH].
  { by apply elem_of_nil in Ht. }
  csimpl in *. apply NoDup_cons in Hn as [Hx Hn]. apply elem_of_cons in Ht as [<-|Ht].
  - rewrite decide_True by done. rewrite filter_cons_False by done. rewrite filter_cons_True by done.
    simpl. f_equal. f_equal. f_equal. rewrite <- (list_fmap_id l) at 2. apply list_fmap_ext. intros i y Hy.
    rewrite decide_False; [done|]. intros E. apply Hx, list_elem_of_fmap. exists y.
    split; [done|by eapply list_elem_of_lookup_2].
  - rewrite decide_False.
    + rewrite !filter_cons. case_decide; simpl; by rewrite <- (IH Hn Ht).
    + intros E. apply Hx, list_elem_of_fmap. by exists t.
Qed.

Section spec.
Context (re_match : string → option (string → bool)) (float_of_string : string → option float).

(** The scores that executing an operation writes, if it writes any. *)
Definition scores_for (db : Db) (op : ScoringOperation) : option Scores :=
  match
    (s ← or_raise ValueError (get_submission db (so_submission_id op));
     d ← or_raise ValueError (get_dataset db (so_dataset_id op));
     r ← submission_get_result db s (Some d);
     r ← or_raise ValueError r;
     if SR.needs_scoring r then
       st ← score_type_object re_match db d; compute_score re_match float_of_string db st r
     else Raise ValueError)
  with
  | Ok sc => Some sc
  | _ => None
  end.

Definition rescored (db : Db) (r : SubmissionResult) : SubmissionResult :=
  match scores_for db (op_of r) with Some sc => set_scores sc r | None => r end.

Lemma get_submission_id db i s : get_submission db i = Some s → s ∈ db_submissions db ∧ sub_id s = i.
Proof. apply (head_filter_in (λ s, sub_id s = i)). Qed.

Lemma get_dataset_id db i d : get_dataset db i = Some d → d ∈ db_datasets db ∧ ds_id d = i.
Proof. apply (head_filter_in (λ d, ds_id d = i)). Qed.

Lemma evaluations_frame db db' r :
  db_testcases db' = db_testcases db → evaluations_by_codename db' r = evaluations_by_codename db r.
Proof. intros E. unfold evaluations_by_codename. by rewrite E. Qed.

Lemma compute_score_frame db db' st r :
  db_testcases db' = db_testcases db →
  compute_score re_match float_of_string db' st r = compute_score re_match float_of_string db st r.
Proof. intros E. unfold compute_score. by rewrite (evaluations_frame _ _ _ E). Qed.

(** Only the result that the operation names matters among the results. *)
Lemma scores_for_frame db db' op :
  frame db db' →
  find_submission_result db' (so_submission_id op) (Some (so_dataset_id op)) =
    find_submission_result db (so_submission_id op) (Some (so_dataset_id op)) →
  scores_for db' op = scores_for db op.
Proof.
  intros Hf Hr. unfold scores_for, get_submission at 1, get_dataset at 1.
  rewrite (frame_submissions _ _ Hf), (frame_datasets _ _ Hf). fold (get_submission db (so_submission_id op)).
  fold (get_dataset db (so_dataset_id op)).
  destruct (get_submission db (so_submission_id op)) as [s|] eqn:Es; [|done].
  destruct (get_dataset db (so_dataset_id op)) as [d|] eqn:Ed; [|done].
  apply get_submission_id in Es as [_ Es]. apply get_dataset_id in Ed as [_ Ed].
  cbn [or_raise mbind res_bind]. unfold submission_get_result, result_dataset_id.
  destruct (bool_decide (sub_task_id s = ds_task_id d)); [|done]. cbn [assert mbind res_bind].
  rewrite Es, Ed, Hr. destruct (find_submission_result db _ _) as [r|]; [|done]. cbn [or_raise mbind res_bind].
  destruct (SR.needs_scoring r); [|done].
  assert (score_type_object re_match db' d = score_type_object re_match db d) as ->.
  { unfold score_type_object, dataset_publics, testcases. by rewrite (frame_testcases _ _ Hf). }
  destruct (score_type_object re_match db d) as [st| | |]; try done. cbn [mbind res_bind].
  by rewrite (compute_score_frame db db') by apply Hf.
Qed.

Lemma db_query_res_run {A} (f : Db → res A) s : db_query_res f s = (f (ses_view s), s).
Proof. done. Qed.

Definition announced (db : Db) : nat := (List.length (db_announcements db) + unsolved db)%nat.

Lemma announce_run now s t db c :
  refs_ok db → NoDup (task_id <$> db_tasks db) → s ∈ db_submissions db → t ∈ db_tasks db →
  task_solved t = false →
  ∃ db', announce now s t (mkSession c db) = (Ok tt, mkSession c db') ∧ frame db db' ∧
    db_submission_results db' = db_submission_results db ∧ announced db' = announced db.
Proof.
  intros Hr Hn Hs Ht Hsol. destruct (Hr s Hs) as (_ & p & u & Hp & Hu). unfold announce.
  rewrite (M_run_Ok _ _ _ p (mkSession c db)) by (by rewrite db_query_res_run; simpl; rewrite Hp).
  rewrite (M_run_Ok _ _ _ u (mkSession c db)) by (by rewrite db_query_res_run; simpl; rewrite Hu).
  eexists. split; [done|]. split; [|split; [done|]].
  - eapply frame_trans; [apply (frame_solved (task_id t))|apply frame_announcements].
  - pose proof (unsolved_solve db t Hn Ht Hsol) as Hu'. unfold announced, unsolved in *. cbn in *.
    rewrite length_app. cbn. lia.
Qed.

Lemma ror_get_result db s d : returns_or_raises (submission_get_result db s (Some d)).
Proof. unfold submission_get_result, result_dataset_id, assert. ror_solve. Qed.

(** Executing an operation: the scores, the announcement, the notification. *)
Lemma score_result_spec now op db :
  refs_ok db → NoDup (task_id <$> db_tasks db) →
  let '(out, s') := score_result re_match float_of_string now op (mkSession db db) in
  match scores_for db op with
  | None => ses_committed s' = db ∧ out ≠ Ok true ∧ returns_or_raises out
  | Some sc => frame db (ses_committed s') ∧ announced (ses_committed s') = announced db ∧
      db_submission_results (ses_committed s') =
        change_result op (set_scores sc) (db_submission_results db) ∧
      ∃ s t, get_submission db (so_submission_id op) = Some s ∧ get_task db (sub_task_id s) = Some t ∧
        out = Ok (bool_decide (task_active_dataset_id t = Some (so_dataset_id op)))
  end.
Proof.
  intros Hr Hn. unfold score_result, scores_for.
  destruct (get_submission db (so_submission_id op)) as [s|] eqn:Es;
    [|rewrite (M_run_Raise _ _ _ ValueError (mkSession db db)) by (by rewrite db_query_res_run; simpl; rewrite Es); done].
  rewrite (M_run_Ok _ _ _ s (mkSession db db)) by (by rewrite db_query_res_run; simpl; rewrite Es).
  destruct (get_dataset db (so_dataset_id op)) as [d|] eqn:Ed;
    [|rewrite (M_run_Raise _ _ _ ValueError (mkSession db db)) by (by rewrite db_query_res_run; simpl; rewrite Ed); done].
  rewrite (M_run_Ok _ _ _ d (mkSession db db)) by (by rewrite db_query_res_run; simpl; rewrite Ed).
  cbn [or_raise mbind res_bind]. unfold mbind at 1, M_bind at 1. rewrite db_query_res_run. cbn [ses_view].
  pose proof (ror_get_result db s d) as Hror.
  destruct (submission_get_result db s (Some d)) as [[r|]| | |]; try done. clear Hror.
  cbn [or_raise mbind res_bind].
  rewrite (M_run_Ok (lift (Ok r)) _ _ r (mkSession db db)) by done.
  destruct (SR.needs_scoring r) eqn:Hneeds; cbn [negb]; [|by destruct (SR.scored r)].
  unfold mbind at 1, M_bind at 1. rewrite db_query_res_run. cbn [ses_view].
  pose proof (ror_score_type_object re_match db d) as Hror.
  destruct (score_type_object re_match db d) as [st| | |]; try done. cbn [mbind res_bind]. clear Hror.
  unfold mbind at 1, M_bind at 1. rewrite db_query_res_run. cbn [ses_view].
  pose proof (ror_compute_score re_match float_of_string db st r) as Hror.
  destruct (compute_score re_match float_of_string db st r) as [sc| | |]; try done.
  set (db1 := with_results (change_result op (set_scores sc)) db).
  rewrite (M_run_Ok _ _ _ tt (mkSession db db1)) by done.
  apply get_submission_id in Es as [Hs Es']. destruct (Hr s Hs) as (Ht & _).
  apply list_elem_of_fmap in Ht as (t & Et & Ht).
  assert (get_task db (sub_task_id s) = Some t) as Hget.
  { apply head_filter_unique; [done|done|]. intros y Hy Hyt. eapply (key_unique task_id); [exact Hn|done|done|congruence]. }
  rewrite (M_run_Ok _ _ _ t (mkSession db db1)) 
    by (rewrite db_query_res_run; change (get_task (ses_view _) _) with (get_task db (sub_task_id s));
        by rewrite Hget).
  apply get_dataset_id in Ed as [_ Ed].
  assert (∃ db2, (if bool_decide (ds_task_type d ≠ "PvP") && feqb (score sc) (max_score st)
            && negb (task_solved t) then announce now s t else mret tt) (mkSession db db1) =
            (Ok tt, mkSession db db2) ∧ frame db1 db2 ∧
            db_submission_results db2 = db_submission_results db1 ∧ announced db2 = announced db1)
    as (db2 & Hrun & Hf & Hres & Hann).
  { destruct (bool_decide (ds_task_type d ≠ "PvP") && feqb (score sc) (max_score st)); cbn [andb];
      [destruct (task_solved t) eqn:Hsol; cbn [negb]|]; try (exists db1; split; done).
    by apply announce_run. }
  rewrite (M_run_Ok _ _ _ _ _ Hrun). cbn -[announced change_result].
  split; [by eapply frame_trans; [apply frame_results|exact Hf]|].
  split; [by etransitivity; [exact Hann|]|]. split; [by etransitivity; [exact Hres|]|]. exists s, t. by rewrite Ed.
Qed.

(** ** The loop of the executor *)

(** Keys of the results are unique. *)
Definition keys_ok (db : Db) : Prop :=
  NoDup (op_of <$> db_submission_results db) ∧ NoDup (task_id <$> db_tasks db).

(** Where the operations in [D] have been executed on [db0]. *)
Record progress (db0 : Db) (D : gset ScoringOperation) (db : Db) : Prop := {
  progress_frame : frame db0 db;
  progress_announced : announced db = announced db0;
  progress_results : db_submission_results db =
    (λ r, if decide (op_of r ∈ D) then rescored db0 r else r) <$> db_submission_results db0;
}.

Lemma progress_start db : progress db ∅ db.
Proof.
  split; [done|done|]. rewrite <- (list_fmap_id (db_submission_results db)) at 1.
  apply list_fmap_ext. intros i r _. by rewrite decide_False by set_solver.
Qed.

Lemma sub_of_op r : sr_submission_id r = so_submission_id (op_of r).
Proof. done. Qed.

Lemma ds_of_op r : sr_dataset_id r = so_dataset_id (op_of r).
Proof. done. Qed.

Lemma op_of_rescored db r : op_of (rescored db r) = op_of r.
Proof. unfold rescored. by destruct (scores_for db (op_of r)). Qed.

Lemma op_of_progress db0 (D : gset ScoringOperation) r :
  op_of (if decide (op_of r ∈ D) then rescored db0 r else r) = op_of r.
Proof. case_decide; [apply op_of_rescored|done]. Qed.

(** The result of an operation that was not executed is as it was. *)
Lemma progress_find db0 D db op :
  progress db0 D db → op ∉ D →
  find_submission_result db (so_submission_id op) (Some (so_dataset_id op)) =
    find_submission_result db0 (so_submission_id op) (Some (so_dataset_id op)).
Proof.
  intros Hp Hop. unfold find_submission_result. rewrite (progress_results _ _ _ Hp).
  rewrite head_filter_fmap.
  - destruct (head _) as [r|] eqn:Hr; [|done]. cbn. f_equal.
    apply (head_filter_in (λ r, sr_submission_id r = so_submission_id op ∧
                                Some (sr_dataset_id r) = Some (so_dataset_id op))) in Hr as (_ & H1 & [= H2]).
    rewrite decide_False; [done|]. unfold op_of. rewrite H1, H2. by destruct op.
  - intros r _. cbv beta. by rewrite !sub_of_op, !ds_of_op, op_of_progress.
Qed.

Lemma progress_keys db0 D db : progress db0 D db → keys_ok db0 → keys_ok db.
Proof.
  intros Hp [H1 H2]. split.
  - rewrite (progress_results _ _ _ Hp), <- list_fmap_compose.
    erewrite list_fmap_ext; [exact H1|]. intros i r _. apply op_of_progress.
  - by rewrite (frame_task_ids _ _ (progress_frame _ _ _ Hp)).
Qed.

Lemma progress_step now db0 D db op :
  refs_ok db0 → keys_ok db0 → progress db0 D db → op ∉ D →
  progress db0 ({[op]} ∪ D)
    (ses_committed (score_result re_match float_of_string now op (mkSession db db)).2).
Proof.
  intros Hr Hk Hp Hop. pose proof (progress_keys _ _ _ Hp Hk) as [_ Hn].
  pose proof (frame_refs _ _ (progress_frame _ _ _ Hp) Hr) as Hr'.
  pose proof (score_result_spec now op db Hr' Hn) as Hs.
  destruct (score_result _ _ _ _ _) as [out s']. cbn [snd].
  rewrite (scores_for_frame db0 db op (progress_frame _ _ _ Hp) (progress_find _ _ _ _ Hp Hop)) in Hs.
  destruct (scores_for db0 op) as [sc|] eqn:Hsc.
  - destruct Hs as (Hf & Ha & Hres & _). split.
    + eapply frame_trans; [apply (progress_frame _ _ _ Hp)|done].
    + by rewrite Ha, (progress_announced _ _ _ Hp).
    + rewrite Hres, (progress_results _ _ _ Hp). unfold change_result. rewrite <- list_fmap_compose.
      apply list_fmap_ext. intros i r _. cbn -[rescored]. rewrite op_of_progress.
      destruct (decide (op_of r = op)) as [E|E].
      * rewrite E, decide_False, decide_True by set_solver. unfold rescored. by rewrite E, Hsc.
      * destruct (decide (op_of r ∈ D)); [rewrite decide_True by set_solver|rewrite decide_False by set_solver]; done.
  - destruct Hs as (-> & _). split; [apply Hp|apply Hp|]. rewrite (progress_results _ _ _ Hp).
    apply list_fmap_ext. intros i r _. destruct (decide (op_of r = op)) as [E|E].
    + rewrite E, decide_False, decide_True by set_solver. unfold rescored. by rewrite E, Hsc.
    + destruct (decide (op_of r ∈ D)); [rewrite decide_True by set_solver|rewrite decide_False by set_solver]; done.
Qed.

(** ProxyService is told about the submission of an operation. *)
Definition notifies (db : Db) (op : ScoringOperation) : Prop :=
  is_Some (scores_for db op) ∧
  ∃ s t, get_submission db (so_submission_id op) = Some s ∧ get_task db (sub_task_id s) = Some t ∧
    task_active_dataset_id t = Some (so_dataset_id op).

Lemma get_task_frame db db' i : frame db db' → unsolve <$> get_task db' i = unsolve <$> get_task db i.
Proof.
  intros Hf. unfold get_task.
  rewrite <- !(head_filter_fmap (λ t, task_id t = i) unsolve) by done. by rewrite (frame_tasks _ _ Hf).
Qed.

Lemma notifies_frame db db' op :
  frame db db' → scores_for db' op = scores_for db op → notifies db' op ↔ notifies db op.
Proof.
  intros Hf Hs. unfold notifies, get_submission. rewrite Hs, (frame_submissions _ _ Hf).
  apply and_iff_compat_l. split; intros (s & t & Hsub & Ht & Ha); pose proof (get_task_frame _ _ (sub_task_id s) Hf) as E.
  - rewrite Ht in E. destruct (get_task db (sub_task_id s)) as [t'|] eqn:Ht'; [|done].
    exists s, t'. injection E. intros. split_and!; [done|done|congruence].
  - rewrite Ht in E. destruct (get_task db' (sub_task_id s)) as [t'|] eqn:Ht'; [|done].
    exists s, t'. injection E. intros. split_and!; [done|done|congruence].
Qed.

Context {Q : Type} `{!PQueue ScoringOperation Q}.

(** The service has the one executor that [__init__] adds. *)
Record serving (w : World (Q := Q)) (ex : Executor Q) : Prop := {
  serving_executors : _executors (ss_service w) = [ex];
  serving_wf : q_wf (Item := ScoringOperation) (_operation_queue ex);
  serving_single : _batch_executions ex = false;
}.

Definition queued (ex : Executor Q) : gset ScoringOperation := dom (q_abs (_operation_queue ex)).

(** Where the operations in [D] have been executed since [db0] and [calls0]. *)
Record reached (db0 : Db) (calls0 : list Z) (D : gset ScoringOperation) (w : World (Q := Q)) : Prop := {
  reached_db : progress db0 D (ss_db w);
  reached_calls i : i ∈ ss_calls w ↔ i ∈ calls0 ∨ ∃ op, op ∈ D ∧ notifies db0 op ∧ i = so_submission_id op;
}.

Lemma reached_start w : reached (ss_db w) (ss_calls w) ∅ w.
Proof. split; [apply progress_start|]. intros i. set_solver. Qed.

Lemma execute_spec now op db0 calls0 D w :
  refs_ok db0 → keys_ok db0 → reached db0 calls0 D w → op ∉ D →
  let '(out, w') := execute re_match float_of_string now op w in
  returns_or_raises out ∧ ss_service w' = ss_service w ∧ reached db0 calls0 ({[op]} ∪ D) w'.
Proof.
  intros Hr Hk [Hp Hc] Hop. pose proof (progress_step now db0 D (ss_db w) op Hr Hk Hp Hop) as Hstep.
  pose proof (progress_keys _ _ _ Hp Hk) as [_ Hn].
  pose proof (frame_refs _ _ (progress_frame _ _ _ Hp) Hr) as Hr'.
  pose proof (score_result_spec now op (ss_db w) Hr' Hn) as Hs.
  pose proof (scores_for_frame db0 _ op (progress_frame _ _ _ Hp) (progress_find _ _ _ _ Hp Hop)) as Esc.
  pose proof (notifies_frame db0 (ss_db w) op (progress_frame _ _ _ Hp) Esc) as Hnot.
  unfold execute, in_session, mbind, M_bind. destruct (score_result _ _ _ _ _) as [out s']. cbn [snd] in *.
  assert (out = Ok true ↔ notifies (ss_db w) op) as Hiff.
  { unfold notifies. destruct (scores_for (ss_db w) op) as [sc|].
    - destruct Hs as (_ & _ & _ & s & t & Hsub & Ht & ->). rewrite Hsub. split.
      + intros [= E%bool_decide_eq_true]. split; [by eexists|]. by exists s, t.
      + intros (_ & s1 & t1 & [= <-] & Ht1 & Ha). rewrite Ht in Ht1. injection Ht1 as <-.
        by rewrite bool_decide_eq_true_2.
    - destruct Hs as (_ & Hne & _). split; [done|]. by intros [[? ?] _]. }
  assert (returns_or_raises out) as Hror.
  { destruct (scores_for (ss_db w) op); [by destruct Hs as (_ & _ & _ & ? & ? & _ & _ & ->)|apply Hs]. }
  rewrite Hnot in Hiff. clear Hs Hnot.
  assert (out ≠ Ok true → reached db0 calls0 ({[op]} ∪ D) (set_db (ses_committed s') w)) as Hquiet.
  { intros Hne. split; [exact Hstep|]. intros i. cbn [set_db ss_calls]. rewrite Hc. split.
    - intros [?|(o & Ho & Hno & ->)]; [by left|]. right. exists o. set_solver.
    - intros [?|(o & Ho & Hno & ->)]; [by left|]. right. exists o. apply elem_of_union in Ho as [Ho|Ho]; [|done].
      apply elem_of_singleton in Ho as ->. tauto. }
  destruct out as [[]|e| |]; try done; (split; [done|]); (split; [done|]); [|by apply Hquiet..].
  split; [exact Hstep|]. intros i. cbn. rewrite elem_of_app, list_elem_of_singleton, Hc. split.
  - intros [[?|(o & Ho & Hno & ->)]| ->]; [by left|right; exists o; set_solver|].
    right. exists op. split; [set_solver|]. split; [by apply Hiff|done].
  - intros [?|(o & Ho & Hno & ->)]; [by do 2 left|]. apply elem_of_union in Ho as [Ho|Ho].
    + apply elem_of_singleton in Ho as ->. by right.
    + left. right. by exists o.
Qed.

Lemma run_once_spec now db0 calls0 D w ex :
  refs_ok db0 → keys_ok db0 → reached db0 calls0 D w → serving w ex → queued ex ≠ ∅ → queued ex ## D →
  ∃ w' ex' op, run_once re_match float_of_string now w = (Ok tt, w') ∧ serving w' ex' ∧
    op ∈ queued ex ∧ queued ex' = queued ex ∖ {[op]} ∧ reached db0 calls0 ({[op]} ∪ D) w'.
Proof.
  intros Hr Hk Hreach [Hex Hwf Hsingle] Hne Hdisj.
  assert (q_abs (_operation_queue ex) ≠ ∅) as Hq by (intros E; apply Hne; unfold queued; by rewrite E, dom_empty_L).
  destruct (q_pop_nonempty true _ Hwf Hq) as (e & q' & Hpop & Hwf' & Hkey & _ & Habs & _).
  set (ex' := mkExecutor false q').
  assert (item e ∈ queued ex) as Hin by (apply elem_of_dom; by eexists).
  assert (run_iteration (Item := ScoringOperation) ex = Ok ([e], ex')) as Hit.
  { unfold run_iteration, run_collect, _pop. rewrite Hpop. cbn [mbind res_bind]. by rewrite Hsingle. }
  set (w1 := set_service (mkService [ex'] (_sweeper_started (ss_service w)) (_sweeper_timeout (ss_service w))) w).
  assert (reached db0 calls0 D w1) as Hreach1 by (by destruct Hreach).
  pose proof (execute_spec now (item e) db0 calls0 D w1 Hr Hk Hreach1 ltac:(set_solver)) as Hex1.
  assert (run_once re_match float_of_string now w =
    try_except (λ _, true) (execute re_match float_of_string now (item e)) (mret tt) w1) as ->.
  { unfold run_once. rewrite (M_run_Ok _ _ _ w w) by done.
    rewrite (M_run_Ok _ _ _ ex w) by (unfold lift, get_executor; by rewrite Hex).
    rewrite (M_run_Ok _ _ _ ([e], ex') w) by (unfold lift; by rewrite Hit).
    rewrite (M_run_Ok _ _ _ e w) by done. rewrite (M_run_Ok _ _ _ tt w1); [done|].
    unfold modify, w1. by rewrite Hex. }
  unfold try_except. destruct (execute _ _ _ _ _) as [out w2]. destruct Hex1 as (Hror & Hserv & Hreach2).
  exists w2, ex', (item e). split; [by destruct out as [[]| | |]|].
  split; [split; [by rewrite Hserv|done|by cbn]|]. split; [done|]. split; [|done].
  unfold queued. cbn. by rewrite Habs, dom_delete_L.
Qed.

(** The executor empties its queue. *)
Lemma run_until_idle_spec fuel now db0 calls0 D w ex :
  refs_ok db0 → keys_ok db0 → reached db0 calls0 D w → serving w ex → queued ex ## D →
  (size (queued ex) ≤ fuel)%nat →
  ∃ w' ex', run_until_idle re_match float_of_string fuel now w = (Ok tt, w') ∧ serving w' ex' ∧
    queued ex' = ∅ ∧ reached db0 calls0 (queued ex ∪ D) w'.
Proof.
  intros Hr Hk. revert D w ex. induction fuel as [|fuel IH]; intros D w ex Hreach Hserv Hdisj Hsize.
  all: pose proof (q_length_law _ (serving_wf _ _ Hserv)) as Hlen.
  all: assert (size (q_abs (_operation_queue ex)) = size (queued ex)) as Hdom
    by (unfold queued; by rewrite size_dom).
  all: cbn [run_until_idle]; rewrite (M_run_Ok _ _ _ w w) by done;
    rewrite (M_run_Ok _ _ _ ex w) by (unfold lift, get_executor; by rewrite (serving_executors _ _ Hserv)).
  all: destruct (Nat.eqb_spec (q_length (_operation_queue ex)) 0) as [Hz|Hz];
    [assert (queued ex = ∅) as He by (apply leibniz_equiv, size_empty_iff; lia);
     exists w, ex; rewrite He, union_empty_l_L; by split_and!|].
  - lia.
  - assert (queued ex ≠ ∅) as Hne by (intros E; rewrite E, size_empty in Hdom; lia).
    destruct (run_once_spec now db0 calls0 D w ex Hr Hk Hreach Hserv Hne Hdisj)
      as (w1 & ex1 & op & Hrun & Hserv1 & Hop & Hq1 & Hreach1).
    rewrite (M_run_Ok _ _ _ _ _ Hrun).
    destruct (IH ({[op]} ∪ D) w1 ex1 Hreach1 Hserv1) as (w2 & ex2 & Hrun2 & Hserv2 & Hq2 & Hreach2);
      [set_solver|rewrite Hq1, size_difference, size_singleton by set_solver; lia|].
    exists w2, ex2. split_and!; try done. rewrite Hq1 in Hreach2.
    replace (queued ex ∪ D) with (queued ex ∖ {[op]} ∪ ({[op]} ∪ D)); [done|].
    apply set_eq. intros o. destruct (decide (o = op)); set_solver.
Qed.

(** ** Adding operations *)

Lemma enqueue_scoring_spec now op ts w ex :
  serving w ex →
  ∃ w' ex', enqueue_scoring now op ts w = (Ok tt, w') ∧ serving w' ex' ∧
    queued ex' = {[op]} ∪ queued ex ∧ ss_db w' = ss_db w ∧ ss_calls w' = ss_calls w.
Proof.
  intros [Hex Hwf Hsingle].
  assert (∃ b q', q_push op None ts now (_operation_queue ex) = Ok (b, q') ∧ q_wf q' ∧
    dom (q_abs q') = {[op]} ∪ queued ex) as (b & q' & Hpush & Hwf' & Hdom).
  { destruct (q_abs (_operation_queue ex) !! op) as [k|] eqn:Hop.
    - eexists _, _. split; [by apply q_push_present; [|by eexists]|]. split; [done|].
      assert (op ∈ queued ex) by (apply elem_of_dom; by eexists). unfold queued in *. set_solver.
    - destruct (q_push_absent op None ts now _ Hwf Hop) as (q' & Hpush & Hwf' & Habs & _).
      exists true, q'. by rewrite Habs, dom_insert_L. }
  unfold enqueue_scoring. rewrite (M_run_Ok _ _ _ w w) by done.
  set (ex' := mkExecutor (_batch_executions ex) q').
  set (s' := mkService [ex'] (_sweeper_started (ss_service w)) (_sweeper_timeout (ss_service w))).
  rewrite (M_run_Ok _ _ _ ((if b then 1 else 0)%nat, s') w).
  - exists (set_service s' w), ex'. split_and!; try done.
  - unfold lift, service_enqueue. rewrite Hex. cbn [enqueue_all]. unfold enqueue at 1. rewrite Hpush.
    by destruct b.
Qed.

Lemma sweep_loop now ops n w ex :
  serving w ex →
  ∃ w' ex', for_acc (λ counter e, _ ← enqueue_scoring now e.1 (Some e.2); mret (counter + 1)%Z) n ops w =
      (Ok (n + Z.of_nat (List.length ops))%Z, w') ∧
    serving w' ex' ∧ queued ex' = list_to_set ops.*1 ∪ queued ex ∧ ss_db w' = ss_db w ∧ ss_calls w' = ss_calls w.
Proof.
  revert n w ex. induction ops as [|e ops IH]; intros n w ex Hs.
  { exists w, ex. split; [cbn; unfold mret, M_ret; do 2 f_equal; lia|]. split_and!; try done. set_solver. }
  destruct (enqueue_scoring_spec now e.1 (Some e.2) w ex Hs) as (w1 & ex1 & H1 & Hs1 & Hq1 & Hd1 & Hc1).
  destruct (IH (n + 1)%Z w1 ex1 Hs1) as (w2 & ex2 & H2 & Hs2 & Hq2 & Hd2 & Hc2).
  exists w2, ex2. cbn [for_acc].
  rewrite (M_run_Ok _ _ _ (n + 1)%Z w1) by (by rewrite (M_run_Ok _ _ _ _ _ H1)).
  split; [rewrite H2; cbn; do 2 f_equal; lia|]. split; [done|].
  split; [rewrite Hq2, Hq1; csimpl; set_solver|]. split; congruence.
Qed.

(** ** The sweep *)

Lemma elem_of_get_operations db e :
  e ∈ get_operations db ↔ ∃ s t r d,
    s ∈ db_submissions db ∧ t ∈ db_tasks db ∧ task_id t = sub_task_id s ∧
    r ∈ db_submission_results db ∧ sr_submission_id r = sub_id s ∧
    d ∈ db_datasets db ∧ ds_id d = sr_dataset_id r ∧
    holds (sql_and (filter_datasets_to_judge t d) (filter_submission_results_to_score r)) = true ∧
    e = (op_of r, sub_timestamp s).
Proof.
  unfold get_operations. rewrite list_elem_of_bind. split.
  - intros (s & He & Hs). apply list_elem_of_bind in He as (t & He & Ht).
    apply list_elem_of_bind in He as (r & He & Hr). apply list_elem_of_bind in He as (d & He & Hd).
    apply list_elem_of_filter in Ht as [Ht1 Ht], Hr as [Hr1 Hr], Hd as [Hd1 Hd].
    destruct (holds _) eqn:Hh; [|by apply elem_of_nil in He]. apply list_elem_of_singleton in He as ->.
    exists s, t, r, d. unfold op_of. by rewrite Hr1, <- Hd1.
  - intros (s & t & r & d & Hs & Ht & Ht1 & Hr & Hr1 & Hd & Hd1 & Hh & ->).
    exists s. split; [|done]. apply list_elem_of_bind. exists t. split; [|by apply list_elem_of_filter].
    apply list_elem_of_bind. exists r. split; [|by apply list_elem_of_filter].
    apply list_elem_of_bind. exists d. split; [|by apply list_elem_of_filter].
    rewrite Hh. apply list_elem_of_singleton. unfold op_of. by rewrite Hr1, <- Hd1.
Qed.

(** A result with scores is not found again, unless it is discarded. *)
Lemma scored_not_found r sc :
  sr_submission_discarded r = None → holds (filter_submission_results_to_score (set_scores sc r)) = false.
Proof. intros Hd. unfold filter_submission_results_to_score, SR.filter_scored. cbn. by rewrite Hd. Qed.

(** What a sweep finds after the operations of [D] have been executed. *)
Lemma progress_operations db0 D db e :
  progress db0 D db → (∀ e, e ∈ get_operations db0 → e.1 ∈ D) → e ∈ get_operations db →
  scores_for db0 e.1 = None ∨
  ∃ r, r ∈ db_submission_results db0 ∧ op_of r = e.1 ∧ is_some (sr_submission_discarded r) = true.
Proof.
  intros Hp HD He. apply elem_of_get_operations in He
    as (s & t & r2 & d & Hs & Ht & Ht1 & Hr & Hr1 & Hd & Hd1 & Hh & ->).
  rewrite (progress_results _ _ _ Hp) in Hr. apply list_elem_of_fmap in Hr as (r & -> & Hr).
  rewrite op_of_progress. cbn [fst]. destruct (scores_for db0 (op_of r)) as [sc|] eqn:Hsc; [|by left].
  right. exists r. split_and!; [done|done|]. destruct (sr_submission_discarded r) eqn:Hdis; [done|].
  exfalso. destruct (decide (op_of r ∈ D)) as [Hin|Hout].
  - rewrite holds_and in Hh. apply andb_true_iff in Hh as [_ Hh]. unfold rescored in Hh.
    by rewrite Hsc, scored_not_found in Hh.
  - apply Hout. apply (HD (op_of r, sub_timestamp s)). apply elem_of_get_operations.
    destruct Hp as [Hf _ _]. rewrite (frame_submissions _ _ Hf) in Hs. rewrite (frame_datasets _ _ Hf) in Hd.
    assert (unsolve t ∈ unsolve <$> db_tasks db0) as (t0 & E & Ht0)%list_elem_of_fmap.
    { rewrite <- (frame_tasks _ _ Hf). by apply list_elem_of_fmap_2. }
    injection E as Ei Ec Ea _ _ _ _. exists s, t0, r, d. unfold filter_datasets_to_judge in *. rewrite <- Ea.
    split_and!; try done; congruence.
Qed.

(** C12. A sweep puts into the queue every result that waits for a score, and the
    executor then empties the queue. Afterwards the results are the ones
    before, each of them that was queued or found rewritten with the scores
    that its score type computes, if it waited for them and the
    score type did not raise; nothing else of any result has changed. ProxyService has been
    told about exactly the scored submissions on an active data set; as many tasks
    have been announced as have become solved; and a further sweep would only find
    results that cannot be scored, and discarded ones. *)
Theorem sweep_scores_everything now later w ex :
  serving w ex → refs_ok (ss_db w) → keys_ok (ss_db w) →
  let ops := get_operations (ss_db w) in
  let D := queued ex ∪ list_to_set ops.*1 in
  ∃ w1 w2 ex2,
    _missing_operations now w = (Ok (Z.of_nat (List.length ops)), w1) ∧
    run_until_idle re_match float_of_string (size D) later w1 = (Ok tt, w2) ∧
    serving w2 ex2 ∧ queued ex2 = ∅ ∧
    db_submission_results (ss_db w2) =
      (λ r, if decide (op_of r ∈ D) then rescored (ss_db w) r else r) <$> db_submission_results (ss_db w) ∧
    (∀ i, i ∈ ss_calls w2 ↔
       i ∈ ss_calls w ∨ ∃ op, op ∈ D ∧ notifies (ss_db w) op ∧ i = so_submission_id op) ∧
    (List.length (db_announcements (ss_db w2)) + unsolved (ss_db w2) =
     List.length (db_announcements (ss_db w)) + unsolved (ss_db w))%nat ∧
    (∀ e, e ∈ get_operations (ss_db w2) →
       scores_for (ss_db w) e.1 = None ∨
       ∃ r, r ∈ db_submission_results (ss_db w) ∧ op_of r = e.1 ∧
         is_some (sr_submission_discarded r) = true).
Proof.
  intros Hs Hr Hk ops D. destruct (sweep_loop now ops 0 w ex Hs) as (w1 & ex1 & H1 & Hs1 & Hq1 & Hd1 & Hc1).
  assert (queued ex1 = D) as HD by (rewrite Hq1; unfold D; set_solver).
  assert (reached (ss_db w) (ss_calls w) ∅ w1) as Hreach.
  { rewrite <- Hd1, <- Hc1. apply reached_start. }
  destruct (run_until_idle_spec (size D) later _ _ ∅ w1 ex1 Hr Hk Hreach Hs1) as (w2 & ex2 & H2 & Hs2 & Hq2 & [Hp Hc]);
    [set_solver|by rewrite HD|].
  rewrite HD, union_empty_r_L in Hp, Hc. exists w1, w2, ex2.
  split; [unfold _missing_operations; rewrite (M_run_Ok _ _ _ w w) by done; exact H1|].
  split; [done|]. split; [done|]. split; [done|]. split; [apply Hp|]. split; [done|].
  split; [apply Hp|]. intros e. apply (progress_operations _ _ _ _ Hp).
  intros e' He'. unfold D. apply elem_of_union. right. apply elem_of_list_to_set. by apply list_elem_of_fmap_2.
Qed.

(** ** New evaluations *)

Lemma size_insert (op : ScoringOperation) (X : gset ScoringOperation) : (size ({[op]} ∪ X) ≤ S (size X))%nat.
Proof.
  rewrite size_union_alt, size_singleton. cbn. apply le_n_S, subseteq_size. set_solver.
Qed.

(** A result whose testcases are judged, on a data set with a sound score type. *)
Record scorable (db : Db) (r : SubmissionResult) (s : Submission) (d : Dataset) (c : score_class) : Prop := {
  scorable_submission : get_submission db (sr_submission_id r) = Some s;
  scorable_dataset : get_dataset db (sr_dataset_id r) = Some d;
  scorable_task : sub_task_id s = ds_task_id d;
  scorable_class : get_score_type_class (ds_score_type d) = Ok c;
  scorable_parameters : sound_parameters re_match c (ds_score_type_parameters d) (dataset_publics db d);
  scorable_judged : ∃ evaluations, evaluations_by_codename db r = Ok evaluations ∧
    judged float_of_string c (dataset_publics db d) evaluations;
}.

Lemma op_of_inj_lookup db r :
  keys_ok db → r ∈ db_submission_results db →
  find_submission_result db (sr_submission_id r) (Some (sr_dataset_id r)) = Some r.
Proof.
  intros [Hn _] Hr. apply head_filter_unique; [done|done|]. intros y Hy [E1 [= E2]].
  eapply (key_unique op_of); [exact Hn|done|done|]. unfold op_of. by rewrite E1, E2.
Qed.

Lemma scores_for_scorable db r s d c :
  keys_ok db → r ∈ db_submission_results db → scorable db r s d c →
  SR.evaluated r = true → SR.scored r = false →
  ∃ st sc, score_type_object re_match db d = Ok st ∧ scores_for db (op_of r) = Some sc ∧
    fvalid (score sc) = true ∧ fleb (score sc) (max_score st) = true.
Proof.
  intros Hk Hr [Hs Hd Ht Hc Hp (evs & Hev & Hj)] He Hns.
  destruct (compute_score_spec re_match float_of_string c (ds_score_type_parameters d) (dataset_publics db d) evs
    (dataset_publics_NoDup db d) Hp Hj) as (st & Hst & Hcomp).
  destruct (Hcomp db r He Hev) as (sc & Hsc & Vs & _ & _ & _ & Hle & _).
  assert (score_type_object re_match db d = Ok st) as Hobj
    by (unfold score_type_object, get_score_type; rewrite Hc; exact Hst).
  exists st, sc. split; [done|]. split; [|done]. unfold scores_for.
  cbn [op_of so_submission_id so_dataset_id]. rewrite Hs. cbn [or_raise mbind res_bind]. rewrite Hd.
  cbn [or_raise mbind res_bind]. unfold submission_get_result, result_dataset_id.
  rewrite bool_decide_eq_true_2 by done. cbn [assert mbind res_bind].
  apply get_submission_id in Hs as [_ ->]. apply get_dataset_id in Hd as [_ ->].
  rewrite op_of_inj_lookup by done. cbn [or_raise mbind res_bind].
  unfold SR.needs_scoring. rewrite He, Hns, orb_true_r. cbn [negb andb mbind res_bind].
  rewrite Hobj. cbn [mbind res_bind]. by rewrite Hsc.
Qed.

(** When the evaluation service reports a result whose testcases are all
    judged, the scoring service scores it: once its executor is idle, the row
    has all five scores, its score lies between zero and the maximum of
    the score type, and ProxyService is told if the data set is the active
    one of the task. Whatever else is in the queue, and whether or not it
    can be scored, does not prevent it. *)
Theorem new_evaluation_scores now later w ex r s d c :
  serving w ex → refs_ok (ss_db w) → keys_ok (ss_db w) → r ∈ db_submission_results (ss_db w) →
  scorable (ss_db w) r s d c →
  SR.evaluated r = true → SR.scored r = false → sr_submission_discarded r = None →
  ∃ w1 w2 ex2 st r' x,
    new_evaluation now (sr_submission_id r) (sr_dataset_id r) w = (Ok tt, w1) ∧
    run_until_idle re_match float_of_string (S (size (queued ex))) later w1 = (Ok tt, w2) ∧
    serving w2 ex2 ∧ queued ex2 = ∅ ∧
    r' ∈ db_submission_results (ss_db w2) ∧ op_of r' = op_of r ∧ SR.scored r' = true ∧
    score_type_object re_match (ss_db w) d = Ok st ∧ sr_score r' = Some x ∧
    fleb f0 x = true ∧ fleb x (max_score st) = true ∧
    (∀ t, get_task (ss_db w) (sub_task_id s) = Some t → task_active_dataset_id t = Some (ds_id d) →
       sr_submission_id r ∈ ss_calls w2).
Proof.
  intros Hs Hr Hk Hin Hsc He Hns Hdis.
  destruct (scores_for_scorable _ r s d c Hk Hin Hsc He Hns) as (st & sc & Hst & Hfor & Vs & Hle).
  destruct (enqueue_scoring_spec now (op_of r) None w ex Hs) as (w1 & ex1 & H1 & Hs1 & Hq1 & Hd1 & Hc1).
  assert (reached (ss_db w) (ss_calls w) ∅ w1) as Hreach by (rewrite <- Hd1, <- Hc1; apply reached_start).
  destruct (run_until_idle_spec (S (size (queued ex))) later _ _ ∅ w1 ex1 Hr Hk Hreach Hs1)
    as (w2 & ex2 & H2 & Hs2 & Hq2 & [Hp Hc]);
    [set_solver|by rewrite Hq1, size_insert|].
  exists w1, w2, ex2, st, (set_scores sc r), (score sc).
  do 4 (split; [done|]). split; [|split; [done|]].
  { rewrite (progress_results _ _ _ Hp). apply list_elem_of_fmap. exists r. split; [|done].
    rewrite decide_True by set_solver. unfold rescored. by rewrite Hfor. }
  split; [unfold SR.scored, SR.discarded; cbn; by rewrite Hdis, andb_false_r|].
  split; [done|]. split; [done|]. split; [by apply fle_0|]. split; [done|].
  intros t Ht Ha. apply Hc. right. exists (op_of r). split; [set_solver|]. split; [|done].
  split; [by rewrite Hfor; eexists|]. exists s, t. split; [apply Hsc|]. split; [done|].
  rewrite Ha. f_equal. exact (proj2 (get_dataset_id _ _ _ (scorable_dataset _ _ _ _ _ Hsc))).
Qed.
End spec.

(** ** A discarded result *)

(** Scores do not take a discarded result out of the query of the sweep,
    and it still needs scoring. *)
Lemma discarded_never_settles r sc :
  sr_compilation_outcome r = Some CFail → sr_submission_discarded r = Some Discarded →
  holds (filter_submission_results_to_score (set_scores sc r)) = true ∧
  SR.needs_scoring (set_scores sc r) = true.
Proof.
  intros Hc Hd.
  unfold filter_submission_results_to_score, SR.filter_scored, SR.filter_compilation_failed, SR.needs_scoring,
    SR.scored, SR.discarded, SR.compilation_failed.
  cbn. by rewrite Hc, Hd.
Qed.

(** ** One judged submission, another that waits for its evaluation *)

Definition demo_task : Task := mkTask 1 (Some 1%Z) (Some 1%Z) 0 "Sorting" "max" 2 false "task" (Some 0%Z) ["task.%l"] no_limits.
Definition demo_dataset : Dataset :=
  mkDataset 1 1 false None None "Batch" [] [] "GroupMin" demo_parameters.
Definition demo_submission (i : Z) : Submission := mkSubmission i 5 1 (1000 + i) None true None None.

Definition demo_db : Db := mkDb [] [mkParticipation 5 1 7 false false None] [demo_task] [demo_dataset]
  (db_testcases demo_scoring_db) [demo_submission 10; demo_submission 11] []
  [demo_judged_result; SR.new 11 1] [] [] [] [] [] [mkUser 7 "Ada" "L" "user7"] [] [].

Definition demo_world : World (Q := PriorityQueue ScoringOperation) :=
  mkWorld demo_db scoring_init [].

Lemma demo_serving : serving demo_world (executor_init false).
Proof. split; [done|apply q_init_wf|done]. Qed.

Lemma demo_refs : refs_ok demo_db.
Proof.
  intros s [->|[->|[]%elem_of_nil]%elem_of_cons]%elem_of_cons;
    (split; [by apply list_elem_of_singleton|by eexists _, _]).
Qed.

Lemma demo_keys : keys_ok demo_db.
Proof. split; [by apply (bool_decide_unpack _)|apply NoDup_singleton]. Qed.

Lemma sweep_scores_everything_witness :
  ∃ w2, run_until_idle demo_regexp demo_read_float 1 30
      (_missing_operations 20 demo_world).2 = (Ok tt, w2) ∧
    (_missing_operations 20 demo_world).1 = Ok 1%Z ∧
    sr_score <$> db_submission_results (ss_db w2) = [Some (of_Z 70); None] ∧ ss_calls w2 = [10%Z] ∧
    ∀ e, e ∈ get_operations (ss_db w2) → scores_for demo_regexp demo_read_float demo_db e.1 = None ∨
       ∃ r, r ∈ db_submission_results demo_db ∧ op_of r = e.1 ∧ is_some (sr_submission_discarded r) = true.
Proof.
  destruct (sweep_scores_everything demo_regexp demo_read_float 20 30 demo_world _ demo_serving demo_refs demo_keys)
    as (w1 & w2 & ex2 & H1 & H2 & _ & _ & _ & _ & _ & H).
  exists w2. rewrite H1. split; [exact H2|]. split; [vm_compute; reflexivity|].
  assert (w2 = (run_until_idle demo_regexp demo_read_float 1 30 (_missing_operations 20 demo_world).2).2) as E
    by (rewrite H1; change w2 with (Ok (A := unit) tt, w2).2; f_equal; by symmetry).
  split; [rewrite E; vm_compute; reflexivity|]. split; [rewrite E; vm_compute; reflexivity|exact H].
Defined.

Lemma new_evaluation_scores_witness :
  ∃ w2, run_until_idle demo_regexp demo_read_float 1 30 (new_evaluation 20 10 1 demo_world).2 = (Ok tt, w2) ∧
    10%Z ∈ ss_calls w2.
Proof.
  destruct (new_evaluation_scores demo_regexp demo_read_float 20 30 demo_world _ demo_judged_result
    (demo_submission 10) demo_dataset GroupMin demo_serving demo_refs demo_keys)
    as (w1 & w2 & ex2 & st & r' & x & H1 & H2 & _ & _ & _ & _ & _ & _ & _ & _ & _ & H).
  - by apply elem_of_cons; left.
  - split; [done..| |].
    + apply demo_sound.
    + exists demo_evaluations. split; [vm_compute; reflexivity|apply demo_judged].
  - reflexivity.
  - reflexivity.
  - reflexivity.
  - exists w2. cbn [demo_judged_result sr_submission_id sr_dataset_id] in H1. rewrite H1.
    split; [exact H2|]. by apply (H demo_task).
Defined.
