(* ===== verification/EsOperations.v ===== *)
(** * Operations of the evaluation service (cms/service/esoperations.py)

    Two ways of finding the work to do: the generators
    [submission_get_operations], [match_get_operations] and
    [user_test_get_operations], run on one object when something happens to
    it, and the queries [get_submissions_operations], [get_match_operations]
    and [get_user_tests_operations], run by the sweeper on the whole
    database. A query is a comprehension over the tables with SQL's
    conditions; a row is kept when its condition is true. *)

From S2P Require Import Prelude PriorityQueue PyFloat Database.
From stdpp Require Import pretty.

(** ** ESOperation *)

Inductive op_type : Set :=
  | COMPILATION | EVALUATION | MATCH
  | USER_TEST_COMPILATION | USER_TEST_EVALUATION | USER_TEST_MATCH.

#[export] Instance op_type_eq_dec : EqDecision op_type.
Proof. solve_decision. Defined.

Definition op_type_str (t : op_type) : string :=
  match t with
  | COMPILATION => "compile"
  | EVALUATION => "evaluate"
  | MATCH => "match"
  | USER_TEST_COMPILATION => "compile_test"
  | USER_TEST_EVALUATION => "evaluate_test"
  | USER_TEST_MATCH => "match_test"
  end.

Definition op_types : list op_type :=
  [COMPILATION; EVALUATION; MATCH; USER_TEST_COMPILATION; USER_TEST_EVALUATION;
   USER_TEST_MATCH].

Definition op_type_of_str (s : string) : option op_type :=
  head (filter (λ t, op_type_str t = s) op_types).

Lemma op_type_of_to t : op_type_of_str (op_type_str t) = Some t.
Proof. by destruct t. Qed.

#[export] Instance op_type_countable : Countable op_type.
Proof. exact (inj_countable op_type_str op_type_of_str op_type_of_to). Defined.

Record ESOperation : Type := mkESOperation {
  type_ : op_type;
  object_id : Z;
  dataset_id : Z;
  testcase_codename : option string;
}.

(** [__eq__] *)
#[export] Instance ESOperation_eq_dec : EqDecision ESOperation.
Proof. solve_decision. Defined.

(** [__hash__] *)
#[export] Instance ESOperation_countable : Countable ESOperation.
Proof.
  refine (inj_countable'
    (λ o, (type_ o, object_id o, dataset_id o, testcase_codename o))
    (λ t, mkESOperation t.1.1.1 t.1.1.2 t.1.2 t.2) _). by intros [].
Defined.

Definition for_submission (o : ESOperation) : bool :=
  bool_decide (type_ o = COMPILATION) || bool_decide (type_ o = EVALUATION).

Definition for_match (o : ESOperation) : bool := bool_decide (type_ o = MATCH).

(** [to_dict], [from_dict]: a dictionary with four string keys. *)
Definition to_dict (o : ESOperation) : pydict string json :=
  [("type"%string, JString (op_type_str (type_ o)));
   ("object_id"%string, JInt (object_id o));
   ("dataset_id"%string, JInt (dataset_id o));
   ("testcase_codename"%string,
     match testcase_codename o with Some c => JString c | None => JNull end)].

(** A missing key raises [KeyError]; values of other types would build an
    operation equal to no other, which the model reports as [TypeError]. *)
Definition from_dict (d : pydict string json) : res ESOperation :=
  t ← or_raise KeyError (pd_get d "type"%string);
  i ← or_raise KeyError (pd_get d "object_id"%string);
  ds ← or_raise KeyError (pd_get d "dataset_id"%string);
  c ← or_raise KeyError (pd_get d "testcase_codename"%string);
  match t, i, ds, c with
  | JString t, JInt i, JInt ds, JString c =>
      t ← or_raise TypeError (op_type_of_str t); Ok (mkESOperation t i ds (Some c))
  | JString t, JInt i, JInt ds, JNull =>
      t ← or_raise TypeError (op_type_of_str t); Ok (mkESOperation t i ds None)
  | _, _, _, _ => Raise TypeError
  end.

Definition short_key (o : ESOperation) : string * string * string :=
  (op_type_str (type_ o), pretty (object_id o), pretty (dataset_id o)).

(** ** Conditions *)

Definition MAX_COMPILATION_TRIES : Z := 1.
Definition MAX_EVALUATION_TRIES : Z := 1.
Definition MAX_USER_TEST_COMPILATION_TRIES : Z := 3.
Definition MAX_USER_TEST_EVALUATION_TRIES : Z := 3.

(** The conditions are evaluated on a row of the joined tables. *)
Definition FILTER_DATASETS_TO_JUDGE (t : Task) (d : Dataset) : sql :=
  sql_or (sql_eq (task_active_dataset_id t) (ds_id d)) (Some (ds_autojudge d)).

Definition FILTER_SUBMISSION_RESULTS_TO_COMPILE (r : SubmissionResult) : sql :=
  sql_and (sql_not (SR.filter_compiled r))
    (Some (sr_compilation_tries r <? MAX_COMPILATION_TRIES)%Z).

Definition FILTER_SUBMISSION_RESULTS_TO_EVALUATE (r : SubmissionResult) : sql :=
  sql_and (sql_and (SR.filter_compilation_succeeded r) (sql_not (SR.filter_evaluated r)))
    (Some (sr_evaluation_tries r <? MAX_EVALUATION_TRIES)%Z).

Definition FILTER_MATCHING_RESULTS_TO_EVALUATE (r : MatchResult) : sql :=
  sql_and (sql_not (MR.filter_evaluated r))
    (Some (mr_evaluation_tries r <? MAX_EVALUATION_TRIES)%Z).

Definition FILTER_USER_TEST_RESULTS_TO_COMPILE (r : UserTestResult) : sql :=
  sql_and (sql_not (UTR.filter_compiled r))
    (Some (utr_compilation_tries r <? MAX_COMPILATION_TRIES)%Z).

Definition FILTER_USER_TEST_RESULTS_TO_EVALUATE (r : UserTestResult) : sql :=
  sql_and (sql_and (UTR.filter_compilation_succeeded r) (sql_not (UTR.filter_evaluated r)))
    (Some (utr_evaluation_tries r <? MAX_EVALUATION_TRIES)%Z).

Definition submission_to_compile (r : option SubmissionResult) : bool :=
  match r with
  | None => true
  | Some r => negb (SR.compiled r) && (sr_compilation_tries r <? MAX_COMPILATION_TRIES)%Z
  end.

Definition submission_to_evaluate (r : option SubmissionResult) : bool :=
  match r with
  | None => false
  | Some r => SR.compilation_succeeded r && negb (SR.evaluated r)
              && (sr_evaluation_tries r <? MAX_EVALUATION_TRIES)%Z
  end.

(** [evaluation.testcase.codename] *)
Definition codename_of (db : Db) (i : Z) : option string :=
  tc_codename <$> head (filter (λ t, tc_id t = i) (db_testcases db)).

Definition submission_to_evaluate_on_testcase (db : Db) (r : option SubmissionResult)
    (codename : string) : bool :=
  submission_to_evaluate r &&
  match r with
  | None => false
  | Some r => negb (existsb (λ e, bool_decide
                (codename_of db (ev_testcase_id e) = Some codename)) (sr_evaluations r))
  end.

Definition user_test_to_compile (r : option UserTestResult) : bool :=
  match r with
  | None => true
  | Some r => negb (UTR.compiled r)
              && (utr_compilation_tries r <? MAX_USER_TEST_COMPILATION_TRIES)%Z
  end.

Definition user_test_to_evaluate (r : option UserTestResult) : bool :=
  match r with
  | None => false
  | Some r => bool_decide (utr_compilation_outcome r = Some COk) && negb (UTR.evaluated r)
              && (utr_evaluation_tries r <? MAX_USER_TEST_EVALUATION_TRIES)%Z
  end.

Definition match_to_evaluate (r : option MatchResult) : bool :=
  match r with
  | None => false
  | Some r => negb (MR.evaluated r) && (mr_evaluation_tries r <? MAX_EVALUATION_TRIES)%Z
  end.

(** ** Generators *)

(** An operation with its priority and its timestamp. *)
Definition entry : Type := ESOperation * Z * Z.

Section generators.
Context (db : Db).

Definition match_get_operations (r : option MatchResult) (m : Match) (d : Dataset)
    : res (list entry) :=
  let priority := if negb (active db d) then PRIORITY_EXTRA_LOW
                  else match r with None => PRIORITY_HIGH | Some _ => PRIORITY_MEDIUM end in
  r ← or_raise AttributeError r;
  let evaluated_testcase_ids := mg_testcase_id <$> mr_matchings r in
  Ok (t ← testcases db d;
      match m_testcase_id m with
      | Some i => if decide (i ≠ tc_id t) then [] else
                  if decide (tc_id t ∉ evaluated_testcase_ids) then
                    [(mkESOperation MATCH (m_id m) (ds_id d) (Some (tc_codename t)),
                      priority, m_timestamp m)]
                  else []
      | None => if decide (tc_id t ∉ evaluated_testcase_ids) then
                  [(mkESOperation MATCH (m_id m) (ds_id d) (Some (tc_codename t)),
                    priority, m_timestamp m)]
                else []
      end).

Definition submission_get_operations (r : option SubmissionResult) (s : Submission)
    (d : Dataset) : list entry :=
  if submission_to_compile r then
    let priority :=
      if negb (active db d) then PRIORITY_EXTRA_LOW
      else match r with
           | None => PRIORITY_HIGH
           | Some r => if (sr_compilation_tries r =? 0)%Z then PRIORITY_HIGH
                       else PRIORITY_MEDIUM
           end in
    [(mkESOperation COMPILATION (sub_id s) (ds_id d) None, priority, sub_timestamp s)]
  else if submission_to_evaluate r then
    match r with
    | None => []
    | Some r =>
        let priority :=
          if negb (active db d) then PRIORITY_EXTRA_LOW
          else if (sr_evaluation_tries r =? 0)%Z then PRIORITY_MEDIUM
          else PRIORITY_LOW in
        let evaluated_testcase_ids := ev_testcase_id <$> sr_evaluations r in
        t ← testcases db d;
        if decide (tc_id t ∉ evaluated_testcase_ids) then
          [(mkESOperation EVALUATION (sub_id s) (ds_id d) (Some (tc_codename t)),
            priority, sub_timestamp s)]
        else []
    end
  else [].

Definition user_test_operations_of (r : option UserTestResult) (u : UserTest) (d : Dataset)
    : list entry :=
  if user_test_to_compile r then
    let priority :=
      if negb (active db d) then PRIORITY_EXTRA_LOW
      else match r with
           | None => PRIORITY_HIGH
           | Some r => if (utr_compilation_tries r =? 0)%Z then PRIORITY_HIGH
                       else PRIORITY_MEDIUM
           end in
    [(mkESOperation USER_TEST_COMPILATION (ut_id u) (ds_id d) None, priority, ut_timestamp u)]
  else if user_test_to_evaluate r then
    let priority :=
      if negb (active db d) then PRIORITY_EXTRA_LOW
      else match r with
           | None => PRIORITY_LOW
           | Some r => if (utr_evaluation_tries r =? 0)%Z then PRIORITY_MEDIUM
                       else PRIORITY_LOW
           end in
    [(mkESOperation USER_TEST_EVALUATION (ut_id u) (ds_id d) None, priority, ut_timestamp u)]
  else [].

Definition user_test_get_operations (u : UserTest) (d : Dataset) : res (list entry) :=
  r ← user_test_get_result db u (Some d);
  Ok (user_test_operations_of r u d).

Inductive level : Set := LCompilation | LEvaluation.

(** The datasets that [get_relevant_operations] considers. *)
Definition relevant_datasets (s : Submission) (dataset_id : option Z) : list Dataset :=
  let datasets := task_datasets db (sub_task_id s) in
  match dataset_id with
  | None => datasets
  | Some i =>
      match head (filter (λ d, ds_id d = i) datasets) with
      | Some d => [d]
      | None => datasets
      end
  end.

Definition get_relevant_operations (l : level) (submissions : list Submission)
    (dataset_id : option Z) : list ESOperation :=
  s ← submissions;
  d ← relevant_datasets s dataset_id;
  (match l with
   | LCompilation => [mkESOperation COMPILATION (sub_id s) (ds_id d) None]
   | LEvaluation => []
   end) ++
  ((λ t, mkESOperation EVALUATION (sub_id s) (ds_id d) (Some (tc_codename t)))
     <$> testcases db d).

(** ** Queries *)

Definition contest_filter (contest_id : option Z) (t : Task) : sql :=
  match contest_id with
  | None => Some true
  | Some c => sql_eq (task_contest_id t) c
  end.

(** [case([(Dataset.id != Task.active_dataset_id, EXTRA_LOW), (b, p1)], else_=p2)] *)
Definition case_priority (t : Task) (d : Dataset) (b : bool) (p1 p2 : Z) : Z :=
  if holds (sql_ne (task_active_dataset_id t) (ds_id d)) then PRIORITY_EXTRA_LOW
  else if b then p1 else p2.

Definition join {A} (P : A → bool) (l : list A) : list A := filter P l.

Definition submissions_without_result (contest_id : option Z) : list (Z * Z * Z * Z) :=
  s ← db_submissions db;
  t ← join (λ t, bool_decide (task_id t = sub_task_id s)) (db_tasks db);
  d ← join (λ d, bool_decide (ds_task_id d = task_id t)) (db_datasets db);
  r ← outer_join (λ r, bool_decide (ds_id d = sr_dataset_id r)
                       && bool_decide (sub_id s = sr_submission_id r))
        (db_submission_results db);
  if holds (sql_and (sql_and (contest_filter contest_id t) (FILTER_DATASETS_TO_JUDGE t d))
              (sql_is_none (sr_dataset_id <$> r)))
  then [(sub_id s, ds_id d, case_priority t d false PRIORITY_HIGH PRIORITY_HIGH,
         sub_timestamp s)]
  else [].

Definition submissions_to_compile (contest_id : option Z) : list (Z * Z * Z * Z) :=
  s ← db_submissions db;
  t ← join (λ t, bool_decide (task_id t = sub_task_id s)) (db_tasks db);
  r ← join (λ r, bool_decide (sr_submission_id r = sub_id s)) (db_submission_results db);
  d ← join (λ d, bool_decide (ds_id d = sr_dataset_id r)) (db_datasets db);
  if holds (sql_and (sql_and (contest_filter contest_id t) (FILTER_DATASETS_TO_JUDGE t d))
              (FILTER_SUBMISSION_RESULTS_TO_COMPILE r))
  then [(sub_id s, ds_id d,
         case_priority t d (sr_compilation_tries r =? 0)%Z PRIORITY_HIGH PRIORITY_MEDIUM,
         sub_timestamp s)]
  else [].

Definition submissions_to_evaluate (contest_id : option Z) : list (Z * Z * Z * Z * string) :=
  r ← db_submission_results db;
  d ← join (λ d, bool_decide (ds_id d = sr_dataset_id r)) (db_datasets db);
  s ← join (λ s, bool_decide (sub_id s = sr_submission_id r)) (db_submissions db);
  t ← join (λ t, bool_decide (task_id t = sub_task_id s)) (db_tasks db);
  tc ← join (λ tc, bool_decide (tc_dataset_id tc = ds_id d)) (db_testcases db);
  e ← outer_join (λ e, bool_decide (ev_submission_id e = sub_id s)
                       && bool_decide (ev_dataset_id e = ds_id d)
                       && bool_decide (ev_testcase_id e = tc_id tc))
        (r' ← db_submission_results db; sr_evaluations r');
  if holds (sql_and (sql_and (sql_and (contest_filter contest_id t)
              (FILTER_DATASETS_TO_JUDGE t d)) (FILTER_SUBMISSION_RESULTS_TO_EVALUATE r))
              (sql_is_none e))
  then [(sub_id s, ds_id d,
         case_priority t d (sr_evaluation_tries r =? 0)%Z PRIORITY_MEDIUM PRIORITY_LOW,
         sub_timestamp s, tc_codename tc)]
  else [].

Definition get_submissions_operations (contest_id : option Z) : list entry :=
  ((λ '(s, d, p, ts), (mkESOperation COMPILATION s d None, p, ts)) <$>
     (submissions_without_result contest_id ++ submissions_to_compile contest_id)) ++
  ((λ '(s, d, p, ts, c), (mkESOperation EVALUATION s d (Some c), p, ts)) <$>
     submissions_to_evaluate contest_id).

Definition get_match_operations (contest_id : option Z) : list entry :=
  r ← db_match_results db;
  d ← join (λ d, bool_decide (ds_id d = mr_dataset_id r)) (db_datasets db);
  m ← join (λ m, bool_decide (m_id m = mr_match_id r)) (db_matches db);
  t ← join (λ t, bool_decide (task_id t = m_task_id m)) (db_tasks db);
  tc ← join (λ tc, bool_decide (tc_dataset_id tc = ds_id d)) (db_testcases db);
  g ← outer_join (λ g, bool_decide (mg_match_id g = m_id m)
                       && bool_decide (mg_dataset_id g = ds_id d)
                       && bool_decide (mg_testcase_id g = tc_id tc))
        (r' ← db_match_results db; mr_matchings r');
  if holds (sql_and (sql_and (sql_and (sql_and (contest_filter contest_id t)
              (FILTER_DATASETS_TO_JUDGE t d)) (FILTER_MATCHING_RESULTS_TO_EVALUATE r))
              (sql_is_none g))
              (sql_or (sql_is_none (m_testcase_id m)) (sql_eq (m_testcase_id m) (tc_id tc))))
  then [(mkESOperation MATCH (m_id m) (ds_id d) (Some (tc_codename tc)),
         case_priority t d (mr_evaluation_tries r =? 0)%Z PRIORITY_MEDIUM PRIORITY_LOW,
         m_timestamp m)]
  else [].

Definition user_tests_without_result (contest_id : option Z) : list (Z * Z * Z * Z) :=
  u ← db_user_tests db;
  t ← join (λ t, bool_decide (task_id t = ut_task_id u)) (db_tasks db);
  d ← join (λ d, bool_decide (ds_task_id d = task_id t)) (db_datasets db);
  r ← outer_join (λ r, bool_decide (ds_id d = utr_dataset_id r)
                       && bool_decide (ut_id u = utr_user_test_id r))
        (db_user_test_results db);
  if holds (sql_and (sql_and (contest_filter contest_id t) (FILTER_DATASETS_TO_JUDGE t d))
              (sql_is_none (utr_dataset_id <$> r)))
  then [(ut_id u, ds_id d, case_priority t d false PRIORITY_HIGH PRIORITY_HIGH,
         ut_timestamp u)]
  else [].

Definition user_tests_to_compile (contest_id : option Z) : list (Z * Z * Z * Z) :=
  u ← db_user_tests db;
  t ← join (λ t, bool_decide (task_id t = ut_task_id u)) (db_tasks db);
  r ← join (λ r, bool_decide (utr_user_test_id r = ut_id u)) (db_user_test_results db);
  d ← join (λ d, bool_decide (ds_id d = utr_dataset_id r)) (db_datasets db);
  if holds (sql_and (sql_and (contest_filter contest_id t) (FILTER_DATASETS_TO_JUDGE t d))
              (FILTER_USER_TEST_RESULTS_TO_COMPILE r))
  then [(ut_id u, ds_id d,
         case_priority t d (utr_compilation_tries r =? 0)%Z PRIORITY_HIGH PRIORITY_MEDIUM,
         ut_timestamp u)]
  else [].

Definition user_tests_to_evaluate (contest_id : option Z) : list (Z * Z * Z * Z) :=
  u ← db_user_tests db;
  t ← join (λ t, bool_decide (task_id t = ut_task_id u)) (db_tasks db);
  r ← join (λ r, bool_decide (utr_user_test_id r = ut_id u)) (db_user_test_results db);
  d ← join (λ d, bool_decide (ds_id d = utr_dataset_id r)) (db_datasets db);
  if holds (sql_and (sql_and (contest_filter contest_id t) (FILTER_DATASETS_TO_JUDGE t d))
              (FILTER_USER_TEST_RESULTS_TO_EVALUATE r))
  then [(ut_id u, ds_id d,
         case_priority t d (utr_evaluation_tries r =? 0)%Z PRIORITY_MEDIUM PRIORITY_LOW,
         ut_timestamp u)]
  else [].

Definition get_user_tests_operations (contest_id : option Z) : list entry :=
  ((λ '(u, d, p, ts), (mkESOperation USER_TEST_COMPILATION u d None, p, ts)) <$>
     (user_tests_without_result contest_id ++ user_tests_to_compile contest_id)) ++
  ((λ '(u, d, p, ts), (mkESOperation USER_TEST_EVALUATION u d None, p, ts)) <$>
     user_tests_to_evaluate contest_id).

(** ** Rows of a query *)

Lemma elem_of_join {A} (P : A → bool) (l : list A) x : x ∈ join P l ↔ x ∈ l ∧ P x = true.
Proof.
  unfold join. rewrite list_elem_of_filter. rewrite Is_true_true. tauto.
Qed.

Lemma elem_of_join_dec {A} (P : A → Prop) `{∀ x, Decision (P x)} (l : list A) x :
  x ∈ join (λ x, bool_decide (P x)) l ↔ x ∈ l ∧ P x.
Proof. by rewrite elem_of_join, bool_decide_eq_true. Qed.

Lemma elem_of_outer_join {A} (P : A → bool) (l : list A) o :
  o ∈ outer_join P l ↔
  match o with
  | Some x => x ∈ l ∧ P x = true
  | None => ∀ x, x ∈ l → P x = false
  end.
Proof.
  unfold outer_join. destruct (filter P l) as [|y l'] eqn:Hf.
  - assert (∀ x, x ∈ l → P x = false) as Hn.
    { intros x Hx. destruct (P x) eqn:HP; [|done].
      assert (x ∈ filter P l) as Hin by (apply list_elem_of_filter; by rewrite HP).
      rewrite Hf in Hin. by apply elem_of_nil in Hin. }
    rewrite list_elem_of_singleton. destruct o as [x|]; [|done].
    split; [done|]. intros [Hx HP]. rewrite Hn in HP; done.
  - rewrite <- Hf. rewrite list_elem_of_fmap. destruct o as [x|].
    + rewrite <- (Is_true_true (P x)). split.
      * intros (x' & [= <-] & Hin%list_elem_of_filter). tauto.
      * intros [? ?]. exists x. split; [done|]. by apply list_elem_of_filter.
    + split; [by intros (? & ? & _)|]. intros Hn.
      assert (y ∈ filter P l) as [HP Hy]%list_elem_of_filter by (rewrite Hf; by left).
      by rewrite Hn in HP.
Qed.

Lemma elem_of_if {A} (b : bool) (x y : A) :
  x ∈ (if b then [y] else []) ↔ b = true ∧ x = y.
Proof.
  destruct b; [rewrite list_elem_of_singleton; tauto|].
  rewrite elem_of_nil. naive_solver.
Qed.

Lemma elem_of_if_dec {A} (P : Prop) `{Decision P} (x y : A) :
  x ∈ (if decide P then [y] else []) ↔ P ∧ x = y.
Proof.
  case_decide; [rewrite list_elem_of_singleton; tauto|].
  rewrite elem_of_nil. tauto.
Qed.

(** [d] is a dataset to judge of the task [t], of id [own], in the contest. *)
Record judged (contest_id : option Z) (own : Z) (t : Task) (d : Dataset) : Prop := {
  judged_task : t ∈ db_tasks db;
  judged_task_id : task_id t = own;
  judged_dataset : d ∈ db_datasets db;
  judged_dataset_task : ds_task_id d = own;
  judged_contest : holds (contest_filter contest_id t) = true;
  judged_judge : holds (FILTER_DATASETS_TO_JUDGE t d) = true;
}.

Hypothesis wf : db_wf db.

Lemma get_task_row t : t ∈ db_tasks db → get_task db (task_id t) = Some t.
Proof.
  intros Ht. apply head_filter_unique; [done|done|].
  intros y Hy Hk. eapply (key_unique task_id); [apply (wf_tasks db wf)|done..].
Qed.

Lemma active_row cid own t d :
  judged cid own t d → active db d = bool_decide (task_active_dataset_id t = Some (ds_id d)).
Proof.
  intros [Ht Hi Hd Hdt _ _]. unfold active. rewrite Hdt, <- Hi.
  by rewrite get_task_row.
Qed.

Lemma case_priority_row cid own t d b p1 p2 :
  judged cid own t d → is_some (task_active_dataset_id t) = true →
  case_priority t d b p1 p2 =
  if negb (active db d) then PRIORITY_EXTRA_LOW else if b then p1 else p2.
Proof.
  intros Hj Ha. rewrite (active_row cid own t d Hj). unfold case_priority, sql_ne, sql_eq.
  destruct (task_active_dataset_id t) as [i|]; [|done]. simpl.
  repeat case_bool_decide; try done; congruence.
Qed.

Lemma find_submission_result_Some i j r :
  find_submission_result db i (Some j) = Some r ↔
  r ∈ db_submission_results db ∧ sr_submission_id r = i ∧ sr_dataset_id r = j.
Proof.
  split.
  - intros [Hr [H1 [= H2]]]%head_filter_in. done.
  - intros (Hr & <- & <-). apply head_filter_unique; [done|done|].
    intros y Hy [H1 [= H2]].
    eapply (key_unique (λ r, (sr_submission_id r, sr_dataset_id r)));
      [apply (wf_submission_results db wf)|done..|congruence].
Qed.

Lemma find_submission_result_None i j :
  find_submission_result db i (Some j) = None ↔
  ∀ r, r ∈ db_submission_results db → sr_dataset_id r = j → sr_submission_id r ≠ i.
Proof.
  split.
  - intros Hn r Hr Hd Hs. eapply head_filter_notin in Hn; [|exact Hr]. apply Hn. by rewrite Hd.
  - intros Hn. destruct (find_submission_result db i (Some j)) as [r|] eqn:Hr; [|done].
    apply find_submission_result_Some in Hr as (Hr & H1 & H2). by destruct (Hn r Hr H2).
Qed.

(** The dataset of a submission result is a dataset of the submission's
    task. *)
Lemma result_dataset_task r s d :
  r ∈ db_submission_results db → s ∈ db_submissions db → sr_submission_id r = sub_id s →
  d ∈ db_datasets db → ds_id d = sr_dataset_id r → ds_task_id d = sub_task_id s.
Proof.
  intros Hr Hs Hrs Hd Hrd.
  destruct (wf_submission_result db wf r s Hr Hs Hrs) as (d' & Hd' & Hi & <-).
  f_equal. eapply (key_unique ds_id); [apply (wf_datasets db wf)|done..|congruence].
Qed.

Lemma to_compile_filter r :
  holds (FILTER_SUBMISSION_RESULTS_TO_COMPILE r) = submission_to_compile (Some r).
Proof.
  unfold FILTER_SUBMISSION_RESULTS_TO_COMPILE, submission_to_compile, SR.filter_compiled,
    SR.compiled.
  rewrite holds_and, holds_bool. by destruct (sr_compilation_outcome r).
Qed.

Lemma to_evaluate_filter r :
  discard_sound r →
  holds (FILTER_SUBMISSION_RESULTS_TO_EVALUATE r) = submission_to_evaluate (Some r).
Proof.
  unfold discard_sound, FILTER_SUBMISSION_RESULTS_TO_EVALUATE, submission_to_evaluate,
    SR.filter_compilation_succeeded, SR.filter_evaluated, SR.compilation_succeeded, SR.evaluated.
  rewrite !holds_and, holds_bool. intros Hd. f_equal.
  destruct (sr_compilation_outcome r) as [[]|], (sr_submission_discarded r) as [[]|],
    (sr_evaluation_outcome r); try done; by specialize (Hd eq_refl).
Qed.

Lemma without_result_rows cid x :
  x ∈ submissions_without_result cid ↔
  ∃ s t d, s ∈ db_submissions db ∧ judged cid (sub_task_id s) t d ∧
    find_submission_result db (sub_id s) (Some (ds_id d)) = None ∧
    x = (sub_id s, ds_id d, case_priority t d false PRIORITY_HIGH PRIORITY_HIGH,
         sub_timestamp s).
Proof.
  unfold submissions_without_result. rewrite list_elem_of_bind. split.
  - intros (s & Hx & Hs). apply list_elem_of_bind in Hx as (t & Hx & Ht).
    apply list_elem_of_bind in Hx as (d & Hx & Hd). apply list_elem_of_bind in Hx as (r & Hx & Hr).
    apply elem_of_join_dec in Ht as [Ht Htk], Hd as [Hd Hdk].
    apply elem_of_outer_join in Hr. apply elem_of_if in Hx as [Hc ->].
    rewrite !holds_and in Hc. apply andb_true_iff in Hc as [[Hc Hj]%andb_true_iff Hn].
    destruct r as [r|]; [done|]. exists s, t, d. split_and!; [done|split; congruence| |done].
    apply find_submission_result_None. intros r Hr' Hrd Hrs. specialize (Hr r Hr').
    rewrite !bool_decide_true in Hr by congruence. done.
  - intros (s & t & d & Hs & [Ht Htk Hd Hdk Hc Hj] & Hn & ->). exists s. split; [|done].
    apply list_elem_of_bind. exists t. split; [|by apply elem_of_join_dec].
    apply list_elem_of_bind. exists d.
    split; [|apply elem_of_join_dec; split; congruence].
    apply list_elem_of_bind. exists None. split; [by rewrite !holds_and, Hc, Hj; left|].
    apply elem_of_outer_join. intros r Hr.
    rewrite find_submission_result_None in Hn. specialize (Hn r Hr).
    rewrite andb_false_iff, !bool_decide_eq_false.
    destruct (decide (ds_id d = sr_dataset_id r)); [right|by left]. intros ?. by apply Hn.
Qed.

Lemma to_compile_rows cid x :
  x ∈ submissions_to_compile cid ↔
  ∃ s t d r, s ∈ db_submissions db ∧ judged cid (sub_task_id s) t d ∧
    find_submission_result db (sub_id s) (Some (ds_id d)) = Some r ∧
    submission_to_compile (Some r) = true ∧
    x = (sub_id s, ds_id d,
         case_priority t d (sr_compilation_tries r =? 0)%Z PRIORITY_HIGH PRIORITY_MEDIUM,
         sub_timestamp s).
Proof.
  unfold submissions_to_compile. rewrite list_elem_of_bind. split.
  - intros (s & Hx & Hs). apply list_elem_of_bind in Hx as (t & Hx & Ht).
    apply list_elem_of_bind in Hx as (r & Hx & Hr). apply list_elem_of_bind in Hx as (d & Hx & Hd).
    apply elem_of_join_dec in Ht as [Ht Htk], Hr as [Hr Hrk], Hd as [Hd Hdk].
    apply elem_of_if in Hx as [Hc ->]. rewrite !holds_and, to_compile_filter in Hc.
    apply andb_true_iff in Hc as [[Hc Hj]%andb_true_iff Hf].
    exists s, t, d, r. split_and!; try done.
    + split; try done. by eapply result_dataset_task.
    + by apply find_submission_result_Some.
  - intros (s & t & d & r & Hs & [Ht Htk Hd Hdk Hc Hj] & Hf & Hcomp & ->). exists s.
    split; [|done]. apply find_submission_result_Some in Hf as (Hr & Hrs & Hrd).
    apply list_elem_of_bind. exists t. split; [|by apply elem_of_join_dec].
    apply list_elem_of_bind. exists r. split; [|by apply elem_of_join_dec].
    apply list_elem_of_bind. exists d. split; [|by apply elem_of_join_dec].
    apply elem_of_if. by rewrite !holds_and, to_compile_filter, Hc, Hj, Hcomp.
Qed.

Lemma evaluation_missing r s d tc :
  r ∈ db_submission_results db → sr_submission_id r = sub_id s → sr_dataset_id r = ds_id d →
  None ∈ outer_join (λ e, bool_decide (ev_submission_id e = sub_id s)
                          && bool_decide (ev_dataset_id e = ds_id d)
                          && bool_decide (ev_testcase_id e = tc_id tc))
           (db_submission_results db ≫= sr_evaluations) ↔
  tc_id tc ∉ ev_testcase_id <$> sr_evaluations r.
Proof.
  intros Hr Hs Hd. rewrite elem_of_outer_join, list_elem_of_fmap. split.
  - intros Hn (e & He & Hin). destruct (wf_evaluations db wf r e Hr Hin) as [H1 H2].
    assert (e ∈ db_submission_results db ≫= sr_evaluations) as Hall
      by (apply list_elem_of_bind; eauto).
    specialize (Hn e Hall). rewrite !bool_decide_true in Hn by congruence. done.
  - intros Hn e (r' & He & Hr')%list_elem_of_bind.
    destruct (wf_evaluations db wf r' e Hr' He) as [H1 H2].
    rewrite !andb_false_iff, !bool_decide_eq_false.
    destruct (decide (ev_submission_id e = sub_id s)) as [E1|]; [|by auto].
    destruct (decide (ev_dataset_id e = ds_id d)) as [E2|]; [|by auto].
    right. intros E3. apply Hn. exists e. split; [done|].
    assert (r = r') as ->; [|done].
    eapply (key_unique (λ r, (sr_submission_id r, sr_dataset_id r)));
      [apply (wf_submission_results db wf)|done..|congruence].
Qed.

Lemma to_evaluate_rows cid x :
  x ∈ submissions_to_evaluate cid ↔
  ∃ s t d r tc, s ∈ db_submissions db ∧ judged cid (sub_task_id s) t d ∧
    find_submission_result db (sub_id s) (Some (ds_id d)) = Some r ∧
    submission_to_evaluate (Some r) = true ∧
    tc ∈ testcases db d ∧ (tc_id tc ∉ ev_testcase_id <$> sr_evaluations r) ∧
    x = (sub_id s, ds_id d,
         case_priority t d (sr_evaluation_tries r =? 0)%Z PRIORITY_MEDIUM PRIORITY_LOW,
         sub_timestamp s, tc_codename tc).
Proof.
  unfold submissions_to_evaluate. rewrite list_elem_of_bind. split.
  - intros (r & Hx & Hr). apply list_elem_of_bind in Hx as (d & Hx & Hd).
    apply list_elem_of_bind in Hx as (s & Hx & Hs). apply list_elem_of_bind in Hx as (t & Hx & Ht).
    apply list_elem_of_bind in Hx as (tc & Hx & Htc).
    apply list_elem_of_bind in Hx as (e & Hx & He).
    apply elem_of_join_dec in Ht as [Ht Htk], Hs as [Hs Hsk], Hd as [Hd Hdk], Htc as [Htc Htck].
    apply elem_of_if in Hx as [Hc ->].
    rewrite !holds_and, to_evaluate_filter in Hc by (by apply (wf_discard db wf)).
    apply andb_true_iff in Hc as [[[Hc Hj]%andb_true_iff Hf]%andb_true_iff Hn].
    destruct e as [e|]; [done|].
    apply (evaluation_missing r) in He; [|done..].
    exists s, t, d, r, tc. split_and!; try done.
    + split; try done. by eapply result_dataset_task.
    + by apply find_submission_result_Some.
    + by apply list_elem_of_filter.
  - intros (s & t & d & r & tc & Hs & [Ht Htk Hd Hdk Hc Hj] & Hf & Hev & Htc & Hn & ->).
    apply find_submission_result_Some in Hf as (Hr & Hrs & Hrd).
    apply list_elem_of_filter in Htc as [Htck Htc].
    exists r. split; [|done].
    apply list_elem_of_bind. exists d. split; [|by apply elem_of_join_dec].
    apply list_elem_of_bind. exists s. split; [|by apply elem_of_join_dec].
    apply list_elem_of_bind. exists t. split; [|by apply elem_of_join_dec].
    apply list_elem_of_bind. exists tc. split; [|by apply elem_of_join_dec].
    apply list_elem_of_bind. exists None. split; [|by eapply evaluation_missing].
    apply elem_of_if.
    rewrite !holds_and, to_evaluate_filter by (by apply (wf_discard db wf)).
    by rewrite Hc, Hj, Hev.
Qed.

(** The object and the data set of an operation that the queries find. *)
Lemma submissions_sweep_rows (contest_id : option Z) (e : entry) :
  e ∈ get_submissions_operations contest_id →
  ∃ s t d, s ∈ db_submissions db ∧ judged contest_id (sub_task_id s) t d ∧
    object_id e.1.1 = sub_id s ∧ dataset_id e.1.1 = ds_id d ∧
    (type_ e.1.1 = COMPILATION ∨ type_ e.1.1 = EVALUATION).
Proof.
  unfold get_submissions_operations.
  rewrite elem_of_app, !list_elem_of_fmap. setoid_rewrite elem_of_app.
  setoid_rewrite without_result_rows. setoid_rewrite to_compile_rows.
  setoid_rewrite to_evaluate_rows.
  intros [(x & -> & [(s & t & d & Hs & Hj & _ & ->)|(s & t & d & r & Hs & Hj & _ & _ & ->)])
    |(x & -> & (s & t & d & r & tc & Hs & Hj & _ & _ & _ & _ & ->))]; exists s, t, d; cbn; auto 8.
Qed.

(** What is generated is found by the queries. *)
Lemma submissions_sweep_all (contest_id : option Z) (e : entry) :
  (∀ t, t ∈ db_tasks db → is_some (task_active_dataset_id t) = true) →
  (∃ s t d, s ∈ db_submissions db ∧ judged contest_id (sub_task_id s) t d ∧
    e ∈ submission_get_operations (find_submission_result db (sub_id s) (Some (ds_id d))) s d) →
  e ∈ get_submissions_operations contest_id.
Proof.
  intros Ha (s & t & d & Hs & Hj & He). unfold get_submissions_operations.
  rewrite elem_of_app, !list_elem_of_fmap. setoid_rewrite elem_of_app.
  setoid_rewrite without_result_rows. setoid_rewrite to_compile_rows.
  setoid_rewrite to_evaluate_rows. unfold submission_get_operations in He.
  destruct (find_submission_result db (sub_id s) (Some (ds_id d))) as [r|] eqn:Hf.
  - destruct (submission_to_compile (Some r)) eqn:Hc.
    + apply list_elem_of_singleton in He as ->. left. eexists (_, _, _, _).
      split; [|right; exists s, t, d, r; split_and!; done]. simpl.
      by erewrite case_priority_row by (done || apply Ha, Hj).
    + destruct (submission_to_evaluate (Some r)) eqn:Hev; [|by apply elem_of_nil in He].
      apply list_elem_of_bind in He as (tc & He & Htc). apply elem_of_if_dec in He as [Hn ->].
      right. eexists (_, _, _, _, _). split; [|exists s, t, d, r, tc; split_and!; done]. simpl.
      by erewrite case_priority_row by (done || apply Ha, Hj).
  - simpl in He. apply list_elem_of_singleton in He as ->. left. eexists (_, _, _, _).
    split; [|left; exists s, t, d; split_and!; done]. simpl.
    erewrite case_priority_row by (done || apply Ha, Hj). by destruct (negb (active db d)).
Qed.

(** The priority that the generator gives, on an active data set, to an
    operation of a type for a submission with result [r]. *)
Definition active_priority (r : option SubmissionResult) (ty : op_type) : Z :=
  match ty, r with
  | COMPILATION, None => PRIORITY_HIGH
  | COMPILATION, Some r => if (sr_compilation_tries r =? 0)%Z then PRIORITY_HIGH else PRIORITY_MEDIUM
  | _, Some r => if (sr_evaluation_tries r =? 0)%Z then PRIORITY_MEDIUM else PRIORITY_LOW
  | _, None => PRIORITY_MEDIUM
  end.

(** The priority of the queries: on a task without an active data set, the
    comparison with it is unknown, and every data set gets the priority of an
    active one. *)
Definition swept_priority (t : Task) (r : option SubmissionResult) (ty : op_type) (prio : Z) : Z :=
  if is_some (task_active_dataset_id t) then prio else active_priority r ty.

Lemma case_priority_swept cid own t d (b : bool) (p1 p2 : Z) r ty :
  judged cid own t d → active_priority r ty = (if b then p1 else p2) →
  case_priority t d b p1 p2 =
    swept_priority t r ty (if negb (active db d) then PRIORITY_EXTRA_LOW else if b : bool then p1 else p2).
Proof.
  intros Hj Hp. unfold swept_priority. destruct (task_active_dataset_id t) as [i|] eqn:Ha.
  - eapply case_priority_row; [exact Hj|by rewrite Ha].
  - unfold case_priority. by rewrite Ha.
Qed.

(** C20. The operations that the sweeper's queries find for the submissions
    of a contest (or of all of them) are exactly those, timestamps included,
    that [submission_get_operations] generates for the submissions of the
    contest and the datasets to judge of their tasks; with the same
    priorities when the task has an active dataset. When it has none (the
    column may be null), the generator gives its lowest priority, and the
    queries give the one of an active dataset. *)
Theorem submissions_sweep_complete (contest_id : option Z) (op : ESOperation) (prio ts : Z) :
  (op, prio, ts) ∈ get_submissions_operations contest_id ↔
  ∃ s t d q, s ∈ db_submissions db ∧ judged contest_id (sub_task_id s) t d ∧
    (op, q, ts) ∈ submission_get_operations
                    (find_submission_result db (sub_id s) (Some (ds_id d))) s d ∧
    prio = swept_priority t (find_submission_result db (sub_id s) (Some (ds_id d))) (type_ op) q.
Proof.
  unfold get_submissions_operations.
  rewrite elem_of_app, !list_elem_of_fmap. setoid_rewrite elem_of_app.
  setoid_rewrite without_result_rows. setoid_rewrite to_compile_rows.
  setoid_rewrite to_evaluate_rows. split.
  - intros [(x & Hx & [(s & t & d & Hs & Hj & Hf & ->)|(s & t & d & r & Hs & Hj & Hf & Hc & ->)])
           |(x & Hx & (s & t & d & r & tc & Hs & Hj & Hf & Hev & Htc & Hn & ->))];
      injection Hx as -> -> ->; exists s, t, d; unfold submission_get_operations; rewrite Hf; eexists;
      (split_and!; [done|done| |by eapply case_priority_swept]).
    + by apply list_elem_of_singleton.
    + rewrite Hc. by apply list_elem_of_singleton.
    + assert (submission_to_compile (Some r) = false) as ->.
      { unfold submission_to_evaluate, SR.compilation_succeeded in Hev.
        unfold submission_to_compile, SR.compiled. by destruct (sr_compilation_outcome r). }
      rewrite Hev. apply list_elem_of_bind. exists tc. split; [|done]. by apply elem_of_if_dec.
  - intros (s & t & d & q & Hs & Hj & He & ->). unfold submission_get_operations in He.
    destruct (find_submission_result db (sub_id s) (Some (ds_id d))) as [r|] eqn:Hf.
    + destruct (submission_to_compile (Some r)) eqn:Hc.
      * apply list_elem_of_singleton in He as [= -> -> ->]. left. eexists (_, _, _, _).
        split; [|right; exists s, t, d, r; split_and!; done]. simpl.
        by erewrite <- case_priority_swept by done.
      * destruct (submission_to_evaluate (Some r)) eqn:Hev; [|by apply elem_of_nil in He].
        apply list_elem_of_bind in He as (tc & He & Htc). apply elem_of_if_dec in He as [Hn [= -> -> ->]].
        right. eexists (_, _, _, _, _). split; [|exists s, t, d, r, tc; split_and!; done]. simpl.
        by erewrite <- case_priority_swept by done.
    + simpl in He. apply list_elem_of_singleton in He as [= -> -> ->]. left. eexists (_, _, _, _).
      split; [|left; exists s, t, d; split_and!; done]. cbn [type_].
      erewrite (case_priority_swept _ _ _ _ false PRIORITY_HIGH PRIORITY_HIGH None COMPILATION) by done.
      done.
Qed.

(** ** Matches *)

Lemma find_match_result_Some i j r :
  find_match_result db i (Some j) = Some r ↔
  r ∈ db_match_results db ∧ mr_match_id r = i ∧ mr_dataset_id r = j.
Proof.
  split.
  - intros [Hr [H1 [= H2]]]%head_filter_in. done.
  - intros (Hr & <- & <-). apply head_filter_unique; [done|done|].
    intros y Hy [H1 [= H2]].
    eapply (key_unique (λ r, (mr_match_id r, mr_dataset_id r)));
      [apply (wf_match_results db wf)|done..|congruence].
Qed.

Lemma match_dataset_task r m d :
  r ∈ db_match_results db → m ∈ db_matches db → mr_match_id r = m_id m →
  d ∈ db_datasets db → ds_id d = mr_dataset_id r → ds_task_id d = m_task_id m.
Proof.
  intros Hr Hm Hrm Hd Hrd.
  destruct (wf_match_result db wf r m Hr Hm Hrm) as (d' & Hd' & Hi & <-).
  f_equal. eapply (key_unique ds_id); [apply (wf_datasets db wf)|done..|congruence].
Qed.

Lemma to_match_filter r :
  holds (FILTER_MATCHING_RESULTS_TO_EVALUATE r) = match_to_evaluate (Some r).
Proof.
  unfold FILTER_MATCHING_RESULTS_TO_EVALUATE, match_to_evaluate, MR.filter_evaluated,
    MR.evaluated.
  rewrite holds_and, holds_bool. by destruct (mr_evaluation_outcome r).
Qed.

Lemma matching_missing r m d tc :
  r ∈ db_match_results db → mr_match_id r = m_id m → mr_dataset_id r = ds_id d →
  None ∈ outer_join (λ g, bool_decide (mg_match_id g = m_id m)
                          && bool_decide (mg_dataset_id g = ds_id d)
                          && bool_decide (mg_testcase_id g = tc_id tc))
           (db_match_results db ≫= mr_matchings) ↔
  (tc_id tc ∉ mg_testcase_id <$> mr_matchings r).
Proof.
  intros Hr Hm Hd. rewrite elem_of_outer_join, list_elem_of_fmap. split.
  - intros Hn (g & Hg & Hin). destruct (wf_matchings db wf r g Hr Hin) as [H1 H2].
    assert (g ∈ db_match_results db ≫= mr_matchings) as Hall
      by (apply list_elem_of_bind; eauto).
    specialize (Hn g Hall). rewrite !bool_decide_true in Hn by congruence. done.
  - intros Hn g (r' & Hg & Hr')%list_elem_of_bind.
    destruct (wf_matchings db wf r' g Hr' Hg) as [H1 H2].
    rewrite !andb_false_iff, !bool_decide_eq_false.
    destruct (decide (mg_match_id g = m_id m)) as [E1|]; [|by auto].
    destruct (decide (mg_dataset_id g = ds_id d)) as [E2|]; [|by auto].
    right. intros E3. apply Hn. exists g. split; [done|].
    assert (r = r') as ->; [|done].
    eapply (key_unique (λ r, (mr_match_id r, mr_dataset_id r)));
      [apply (wf_match_results db wf)|done..|congruence].
Qed.

(** The operation on one testcase of a match, when it is wanted. *)
Definition match_wants (r : MatchResult) (m : Match) (tc : Testcase) : Prop :=
  (m_testcase_id m = None ∨ m_testcase_id m = Some (tc_id tc)) ∧
  (tc_id tc ∉ mg_testcase_id <$> mr_matchings r).

Lemma match_testcase_filter m tc :
  holds (sql_or (sql_is_none (m_testcase_id m)) (sql_eq (m_testcase_id m) (tc_id tc))) = true ↔
  m_testcase_id m = None ∨ m_testcase_id m = Some (tc_id tc).
Proof.
  rewrite holds_or. destruct (m_testcase_id m) as [i|]; simpl; [|naive_solver].
  destruct (bool_decide_reflect (i = tc_id tc)); naive_solver.
Qed.

Lemma match_get_operations_wants r m d op q ts :
  ∃ ops, match_get_operations (Some r) m d = Ok ops ∧
  ((op, q, ts) ∈ ops ↔
   ∃ tc, tc ∈ testcases db d ∧ match_wants r m tc ∧
     op = mkESOperation MATCH (m_id m) (ds_id d) (Some (tc_codename tc)) ∧ ts = m_timestamp m ∧
     q = if negb (active db d) then PRIORITY_EXTRA_LOW else PRIORITY_MEDIUM).
Proof.
  eexists. split; [done|]. rewrite list_elem_of_bind. unfold match_wants. split.
  - intros (tc & He & Htc). exists tc. destruct (m_testcase_id m) as [i|].
    + case_decide as Hi; [by apply elem_of_nil in He|]. apply elem_of_if_dec in He as [Hn [= -> -> ->]].
      subst i. auto.
    + apply elem_of_if_dec in He as [Hn [= -> -> ->]]. auto.
  - intros (tc & Htc & [Hi Hn] & -> & -> & ->). exists tc. split; [|done].
    destruct Hi as [-> | ->]; [by apply elem_of_if_dec|].
    rewrite decide_False by tauto. by apply elem_of_if_dec.
Qed.

(** What is generated for the matches is found by the query. *)
Lemma matches_sweep_all (contest_id : option Z) (op : ESOperation) (p ts : Z) :
  (∀ t, t ∈ db_tasks db → is_some (task_active_dataset_id t) = true) →
  (∃ m t d r ops q, m ∈ db_matches db ∧ judged contest_id (m_task_id m) t d ∧
     find_match_result db (m_id m) (Some (ds_id d)) = Some r ∧
     match_to_evaluate (Some r) = true ∧
     match_get_operations (Some r) m d = Ok ops ∧ (op, q, ts) ∈ ops ∧
     p = if (active db d && negb (mr_evaluation_tries r =? 0)%Z)%bool then PRIORITY_LOW else q) →
  (op, p, ts) ∈ get_match_operations contest_id.
Proof.
  intros Ha (m & t & d & r & ops & q & Hm & Hjd & Hf & Hev & Hops & He & ->).
  unfold get_match_operations. rewrite list_elem_of_bind.
  edestruct (match_get_operations_wants r m d) as (ops' & Hops' & Hin).
  rewrite Hops in Hops'. injection Hops' as <-. apply Hin in He as (tc & Htc & Hw & -> & -> & ->).
  pose proof Hjd as [Ht Htk Hd Hdk Hc Hj]. destruct Hw as [Hi Hn].
  apply find_match_result_Some in Hf as (Hr & Hrm & Hrd).
  apply list_elem_of_filter in Htc as [Htck Htc].
  exists r. split; [|done].
  apply list_elem_of_bind. exists d. split; [|by apply elem_of_join_dec].
  apply list_elem_of_bind. exists m. split; [|by apply elem_of_join_dec].
  apply list_elem_of_bind. exists t. split; [|by apply elem_of_join_dec].
  apply list_elem_of_bind. exists tc. split; [|by apply elem_of_join_dec].
  apply list_elem_of_bind. exists None. split; [|by eapply matching_missing].
  apply elem_of_if. split.
  - rewrite !(holds_and _ (sql_or _ _)), !holds_and, to_match_filter, Hc, Hj, Hev.
    by apply match_testcase_filter.
  - f_equal. f_equal. erewrite case_priority_row by (done || apply Ha, Hjd).
    by destruct (active db d), (mr_evaluation_tries r =? 0)%Z.
Qed.

(** Provided that every task has an active dataset, the match operations
    that the sweeper finds are exactly those that [match_get_operations]
    generates for the matches of the contest that have a result still to be
    evaluated ([match_to_evaluate]) against a dataset to judge of their task.
    The two disagree on priorities: on the active dataset the sweeper gives
    [PRIORITY_MEDIUM] to results never tried and [PRIORITY_LOW] to others,
    the generator always [PRIORITY_MEDIUM]. *)
Theorem matches_sweep_complete (contest_id : option Z) (op : ESOperation) (p ts : Z) :
  (∀ t, t ∈ db_tasks db → is_some (task_active_dataset_id t) = true) →
  (op, p, ts) ∈ get_match_operations contest_id ↔
  ∃ m t d r ops q, m ∈ db_matches db ∧ judged contest_id (m_task_id m) t d ∧
    find_match_result db (m_id m) (Some (ds_id d)) = Some r ∧
    match_to_evaluate (Some r) = true ∧
    match_get_operations (Some r) m d = Ok ops ∧ (op, q, ts) ∈ ops ∧
    p = if (active db d && negb (mr_evaluation_tries r =? 0)%Z)%bool then PRIORITY_LOW else q.
Proof.
  intros Ha. split; [|by apply matches_sweep_all]. unfold get_match_operations. rewrite list_elem_of_bind.
  intros (r & Hx & Hr). apply list_elem_of_bind in Hx as (d & Hx & Hd).
  apply list_elem_of_bind in Hx as (m & Hx & Hm). apply list_elem_of_bind in Hx as (t & Hx & Ht).
  apply list_elem_of_bind in Hx as (tc & Hx & Htc).
  apply list_elem_of_bind in Hx as (g & Hx & Hg).
  apply elem_of_join_dec in Ht as [Ht Htk], Hm as [Hm Hmk], Hd as [Hd Hdk], Htc as [Htc Htck].
  apply elem_of_if in Hx as [Hc [= -> -> ->]].
  rewrite !(holds_and _ (sql_or _ _)), !holds_and, to_match_filter in Hc.
  apply andb_true_iff in Hc as [[[[Hc Hj]%andb_true_iff Hf]%andb_true_iff Hn]%andb_true_iff Hi].
  apply match_testcase_filter in Hi.
  destruct g as [g|]; [done|]. apply (matching_missing r) in Hg; [|done..].
  assert (judged contest_id (m_task_id m) t d) as Hjd
    by (split; try done; by eapply match_dataset_task).
  edestruct (match_get_operations_wants r m d) as (ops & Hops & Hin).
  exists m, t, d, r, ops, (if negb (active db d) then PRIORITY_EXTRA_LOW else PRIORITY_MEDIUM).
  split_and!; try done.
  - by apply find_match_result_Some.
  - apply Hin. exists tc. split_and!; try done. by apply list_elem_of_filter.
  - erewrite case_priority_row by (done || apply Ha, Hjd).
    by destruct (active db d), (mr_evaluation_tries r =? 0)%Z.
Qed.

(** ** User tests *)

Lemma find_user_test_result_Some i j r :
  find_user_test_result db i (Some j) = Some r ↔
  r ∈ db_user_test_results db ∧ utr_user_test_id r = i ∧ utr_dataset_id r = j.
Proof.
  split.
  - intros [Hr [H1 [= H2]]]%head_filter_in. done.
  - intros (Hr & <- & <-). apply head_filter_unique; [done|done|].
    intros y Hy [H1 [= H2]].
    eapply (key_unique (λ r, (utr_user_test_id r, utr_dataset_id r)));
      [apply (wf_user_test_results db wf)|done..|congruence].
Qed.

Lemma user_test_missing u d :
  None ∈ outer_join (λ r, bool_decide (ds_id d = utr_dataset_id r)
                          && bool_decide (ut_id u = utr_user_test_id r))
           (db_user_test_results db) ↔
  find_user_test_result db (ut_id u) (Some (ds_id d)) = None.
Proof.
  rewrite elem_of_outer_join. split.
  - intros Hn. destruct (find_user_test_result db (ut_id u) (Some (ds_id d))) as [r|] eqn:Hr;
      [|done]. apply find_user_test_result_Some in Hr as (Hr & H1 & H2).
    specialize (Hn r Hr). by rewrite !bool_decide_true in Hn by congruence.
  - intros Hn r Hr. eapply head_filter_notin in Hn; [|exact Hr].
    rewrite andb_false_iff, !bool_decide_eq_false.
    destruct (decide (ds_id d = utr_dataset_id r)) as [E|]; [right|by left].
    intros ?. apply Hn. split; [done|by rewrite E].
Qed.

Lemma user_test_dataset_task r u d :
  r ∈ db_user_test_results db → u ∈ db_user_tests db → utr_user_test_id r = ut_id u →
  d ∈ db_datasets db → ds_id d = utr_dataset_id r → ds_task_id d = ut_task_id u.
Proof.
  intros Hr Hu Hru Hd Hrd.
  destruct (wf_user_test_result db wf r u Hr Hu Hru) as (d' & Hd' & Hi & <-).
  f_equal. eapply (key_unique ds_id); [apply (wf_datasets db wf)|done..|congruence].
Qed.

(** The tries of the stage that the result has reached are below the limits
    that the queries use. *)
Definition below_query_limits (r : option UserTestResult) : bool :=
  match r with
  | None => true
  | Some r => if UTR.compiled r then (utr_evaluation_tries r <? MAX_EVALUATION_TRIES)%Z
              else (utr_compilation_tries r <? MAX_COMPILATION_TRIES)%Z
  end.

Lemma user_test_compile_filter r :
  holds (FILTER_USER_TEST_RESULTS_TO_COMPILE r) =
  user_test_to_compile (Some r) && below_query_limits (Some r).
Proof.
  unfold FILTER_USER_TEST_RESULTS_TO_COMPILE, user_test_to_compile, below_query_limits,
    UTR.filter_compiled, UTR.compiled, MAX_COMPILATION_TRIES, MAX_USER_TEST_COMPILATION_TRIES.
  rewrite holds_and, holds_bool. destruct (utr_compilation_outcome r); [done|]. simpl.
  destruct (Z.ltb_spec (utr_compilation_tries r) 1), (Z.ltb_spec (utr_compilation_tries r) 3);
    done || lia.
Qed.

Lemma user_test_evaluate_filter r :
  holds (FILTER_USER_TEST_RESULTS_TO_EVALUATE r) =
  user_test_to_evaluate (Some r) && below_query_limits (Some r).
Proof.
  unfold FILTER_USER_TEST_RESULTS_TO_EVALUATE, user_test_to_evaluate, below_query_limits,
    UTR.filter_compilation_succeeded, UTR.filter_evaluated, UTR.compiled, UTR.evaluated,
    MAX_EVALUATION_TRIES, MAX_USER_TEST_EVALUATION_TRIES.
  rewrite !holds_and, holds_bool.
  destruct (utr_compilation_outcome r) as [[]|], (utr_evaluation_outcome r); try done; simpl.
  destruct (Z.ltb_spec (utr_evaluation_tries r) 1), (Z.ltb_spec (utr_evaluation_tries r) 3);
    done || lia.
Qed.

Lemma evaluate_not_compile r :
  user_test_to_evaluate (Some r) = true → user_test_to_compile (Some r) = false.
Proof.
  unfold user_test_to_evaluate, user_test_to_compile, UTR.compiled.
  by destruct (utr_compilation_outcome r).
Qed.

Lemma user_test_row cid u t f (x : Z * Z * Z * Z) :
  x ∈ (r ← join (λ r, bool_decide (utr_user_test_id r = ut_id u)) (db_user_test_results db);
       d ← join (λ d, bool_decide (ds_id d = utr_dataset_id r)) (db_datasets db); f r d) →
  u ∈ db_user_tests db → t ∈ db_tasks db → task_id t = ut_task_id u →
  (∀ r d, x ∈ f r d → holds (contest_filter cid t) = true ∧
                      holds (FILTER_DATASETS_TO_JUDGE t d) = true) →
  ∃ r d, x ∈ f r d ∧ judged cid (ut_task_id u) t d ∧
    find_user_test_result db (ut_id u) (Some (ds_id d)) = Some r.
Proof.
  intros Hx Hu Ht Htk Hf. apply list_elem_of_bind in Hx as (r & Hx & Hr).
  apply list_elem_of_bind in Hx as (d & Hx & Hd).
  apply elem_of_join_dec in Hr as [Hr Hrk], Hd as [Hd Hdk].
  exists r, d. destruct (Hf r d Hx). split_and!; [done| |by apply find_user_test_result_Some].
  split; try done. by eapply user_test_dataset_task.
Qed.

Lemma user_test_row_intro cid u t d r f (x : Z * Z * Z * Z) :
  x ∈ f t r d → judged cid (ut_task_id u) t d →
  find_user_test_result db (ut_id u) (Some (ds_id d)) = Some r →
  x ∈ (t ← join (λ t, bool_decide (task_id t = ut_task_id u)) (db_tasks db);
       r ← join (λ r, bool_decide (utr_user_test_id r = ut_id u)) (db_user_test_results db);
       d ← join (λ d, bool_decide (ds_id d = utr_dataset_id r)) (db_datasets db); f t r d).
Proof.
  intros Hx [Ht Htk Hd Hdk _ _] (Hr & Hru & Hrd)%find_user_test_result_Some.
  apply list_elem_of_bind. exists t. split; [|by apply elem_of_join_dec].
  apply list_elem_of_bind. exists r. split; [|by apply elem_of_join_dec].
  apply list_elem_of_bind. exists d. split; [done|by apply elem_of_join_dec].
Qed.

Lemma user_tests_sweep_only (contest_id : option Z) (e : entry) :
  (∀ t, t ∈ db_tasks db → is_some (task_active_dataset_id t) = true) →
  e ∈ get_user_tests_operations contest_id →
  ∃ u t d, let r := find_user_test_result db (ut_id u) (Some (ds_id d)) in
    u ∈ db_user_tests db ∧ judged contest_id (ut_task_id u) t d ∧
    below_query_limits r = true ∧ e ∈ user_test_operations_of r u d.
Proof.
  intros Ha. unfold get_user_tests_operations.
  rewrite elem_of_app, !list_elem_of_fmap. setoid_rewrite elem_of_app.
  unfold user_tests_without_result, user_tests_to_compile, user_tests_to_evaluate.
  intros [(x & -> & [Hx|Hx])|(x & -> & Hx)]; apply list_elem_of_bind in Hx as (u & Hx & Hu);
    apply list_elem_of_bind in Hx as (t & Hx & Ht); apply elem_of_join_dec in Ht as [Ht Htk].
  - apply list_elem_of_bind in Hx as (d & Hx & Hd). apply list_elem_of_bind in Hx as (r & Hx & Hr).
    apply elem_of_join_dec in Hd as [Hd Hdk]. apply elem_of_if in Hx as [Hc ->].
    rewrite !holds_and in Hc. apply andb_true_iff in Hc as [[Hc Hj]%andb_true_iff Hn].
    destruct r as [r|]; [done|]. apply user_test_missing in Hr.
    assert (judged contest_id (ut_task_id u) t d) as Hjd by (split; congruence).
    exists u, t, d. rewrite Hr. split_and!; [done|done|done|].
    erewrite case_priority_row by (done || apply Ha, Hjd). simpl. by apply list_elem_of_singleton.
  - apply (user_test_row contest_id u t) in Hx as (r & d & Hx & Hjd & Hf); [|done..|].
    2: { intros r d [Hc _]%elem_of_if. rewrite !holds_and in Hc.
         apply andb_true_iff in Hc as [[? ?]%andb_true_iff _]. done. }
    apply elem_of_if in Hx as [Hc ->]. rewrite !holds_and, user_test_compile_filter in Hc.
    apply andb_true_iff in Hc as [_ [Hc Hb]%andb_true_iff].
    exists u, t, d. rewrite Hf. split_and!; [done|done|done|].
    erewrite case_priority_row by (done || apply Ha, Hjd).
    unfold user_test_operations_of. rewrite Hc. by apply list_elem_of_singleton.
  - apply (user_test_row contest_id u t) in Hx as (r & d & Hx & Hjd & Hf); [|done..|].
    2: { intros r d [Hc _]%elem_of_if. rewrite !(holds_and (sql_and _ _)), !holds_and in Hc.
         apply andb_true_iff in Hc as [[? ?]%andb_true_iff _]. done. }
    apply elem_of_if in Hx as [Hc ->].
    rewrite (holds_and (sql_and _ _)), user_test_evaluate_filter in Hc.
    apply andb_true_iff in Hc as [_ [Hc Hb]%andb_true_iff].
    exists u, t, d. rewrite Hf. split_and!; [done|done|done|].
    erewrite case_priority_row by (done || apply Ha, Hjd).
    unfold user_test_operations_of. rewrite evaluate_not_compile, Hc by done.
    by apply list_elem_of_singleton.
Qed.

Lemma user_tests_sweep_all (contest_id : option Z) (e : entry) :
  (∀ t, t ∈ db_tasks db → is_some (task_active_dataset_id t) = true) →
  (∃ u t d, let r := find_user_test_result db (ut_id u) (Some (ds_id d)) in
    u ∈ db_user_tests db ∧ judged contest_id (ut_task_id u) t d ∧
    below_query_limits r = true ∧ e ∈ user_test_operations_of r u d) →
  e ∈ get_user_tests_operations contest_id.
Proof.
  intros Ha. unfold get_user_tests_operations.
  rewrite elem_of_app, !list_elem_of_fmap. setoid_rewrite elem_of_app.
  unfold user_tests_without_result, user_tests_to_compile, user_tests_to_evaluate.
  intros (u & t & d & Hu & Hjd & Hb & He).
  pose proof Hjd as [Ht Htk Hd Hdk Hc Hj]. unfold user_test_operations_of in He.
  destruct (find_user_test_result db (ut_id u) (Some (ds_id d))) as [r|] eqn:Hf.
  - destruct (user_test_to_compile (Some r)) eqn:Hcomp.
    + apply list_elem_of_singleton in He as ->. left. eexists (_, _, _, _). split.
      2: { right. apply list_elem_of_bind. exists u. split; [|done].
           eapply (user_test_row_intro contest_id u t d r); [|done..].
           apply elem_of_if.
           by rewrite !holds_and, user_test_compile_filter, Hc, Hj, Hcomp, Hb. }
      simpl. by erewrite case_priority_row by (done || apply Ha, Hjd).
    + destruct (user_test_to_evaluate (Some r)) eqn:Hev; [|by apply elem_of_nil in He].
      apply list_elem_of_singleton in He as ->. right. eexists (_, _, _, _). split.
      2: { apply list_elem_of_bind. exists u. split; [|done].
           eapply (user_test_row_intro contest_id u t d r); [|done..].
           apply elem_of_if. rewrite (holds_and (sql_and _ _)), user_test_evaluate_filter.
           by rewrite holds_and, Hc, Hj, Hev, Hb. }
      simpl. by erewrite case_priority_row by (done || apply Ha, Hjd).
  - simpl in He. apply list_elem_of_singleton in He as ->. left. eexists (_, _, _, _). split.
    2: { left. apply list_elem_of_bind. exists u. split; [|done].
         apply list_elem_of_bind. exists t. split; [|by apply elem_of_join_dec].
         apply list_elem_of_bind. exists d.
         split; [|apply elem_of_join_dec; split; congruence].
         apply list_elem_of_bind. exists None. split; [|by apply user_test_missing].
         apply elem_of_if. by rewrite !holds_and, Hc, Hj. }
    simpl. by erewrite case_priority_row by (done || apply Ha, Hjd).
Qed.

(** The queries for user tests use the limits on tries meant for
    submissions (1) and not those of the generator (3): provided that every
    task has an active dataset, they find exactly those operations of
    [user_test_get_operations], on the user tests of the contest and the
    datasets to judge of their tasks, for which the stage to do has not been
    tried yet. *)
Theorem user_tests_sweep_untried (contest_id : option Z) (e : entry) :
  (∀ t, t ∈ db_tasks db → is_some (task_active_dataset_id t) = true) →
  e ∈ get_user_tests_operations contest_id ↔
  ∃ u t d, let r := find_user_test_result db (ut_id u) (Some (ds_id d)) in
    u ∈ db_user_tests db ∧ judged contest_id (ut_task_id u) t d ∧
    below_query_limits r = true ∧ e ∈ user_test_operations_of r u d.
Proof. split; [by apply user_tests_sweep_only|by apply user_tests_sweep_all]. Qed.

(** ** Relevant operations *)

(** [get_relevant_operations] returns exactly the operations that
    [submission_get_operations] can generate for the submissions, on the
    datasets selected, whatever the state of their results: all of them from
    level [compilation], the evaluations only from level [evaluation]. *)
Theorem relevant_operations_exact (l : level) (submissions : list Submission)
    (did : option Z) (op : ESOperation) :
  op ∈ get_relevant_operations l submissions did ↔
  ∃ s d r p ts, s ∈ submissions ∧ d ∈ relevant_datasets s did ∧
    (op, p, ts) ∈ submission_get_operations r s d ∧ (l = LCompilation ∨ type_ op = EVALUATION).
Proof.
  clear wf. unfold get_relevant_operations. rewrite list_elem_of_bind. split.
  - intros (s & Hx & Hs). apply list_elem_of_bind in Hx as (d & Hx & Hd).
    apply elem_of_app in Hx as [Hx|Hx].
    + destruct l; [|by apply elem_of_nil in Hx]. apply list_elem_of_singleton in Hx as ->.
      eexists s, d, None, _, _. split_and!; [done|done| |by left]. by apply list_elem_of_singleton.
    + apply list_elem_of_fmap in Hx as (tc & -> & Htc).
      eexists s, d, (Some (SR.set_compilation_outcome true (SR.new (sub_id s) (ds_id d)))), _, _.
      split_and!; [done|done| |by right]. simpl. apply list_elem_of_bind. exists tc.
      split; [|done]. apply elem_of_if_dec. split; [by intros ?%elem_of_nil|done].
  - intros (s & d & r & p & ts & Hs & Hd & He & Hl). exists s. split; [|done].
    apply list_elem_of_bind. exists d. split; [|done]. apply elem_of_app.
    unfold submission_get_operations in He. destruct (submission_to_compile r).
    + apply list_elem_of_singleton in He as [= -> _ _]. left.
      destruct Hl as [-> |?]; [by apply list_elem_of_singleton|done].
    + destruct (submission_to_evaluate r); [|by apply elem_of_nil in He].
      destruct r as [r|]; [|by apply elem_of_nil in He]. right.
      apply list_elem_of_bind in He as (tc & He & Htc). apply elem_of_if_dec in He as [_ [= -> _ _]].
      apply list_elem_of_fmap. by exists tc.
Qed.
End generators.

(** ** Dictionaries and keys of operations *)

(** An operation survives the trip through its dictionary, and two
    operations have the same short key exactly when they differ at most in
    the testcase. *)
Theorem operation_roundtrip (o o' : ESOperation) :
  from_dict (to_dict o) = Ok o ∧
  (short_key o = short_key o' ↔
   type_ o = type_ o' ∧ object_id o = object_id o' ∧ dataset_id o = dataset_id o').
Proof.
  split.
  - by destruct o as [[] i d [c|]].
  - unfold short_key. split; [|by intros (-> & -> & ->)].
    intros [= Ht Hi Hd]. split_and!; [|by apply (inj pretty)..].
    apply (f_equal op_type_of_str) in Ht. rewrite !op_type_of_to in Ht. congruence.
Qed.

(** ** A concrete database

    One task whose active dataset (1) has two testcases, and another dataset
    (2) judged in the background; submission 10 compiled and evaluated on one
    testcase, 11 new; match 20 between them, not evaluated; user test 30
    failed to compile twice, 31 is new. *)
Definition demo_db : Db := mkDb
  [mkContest 5 0 9000 [] "contest" "A contest" 0 no_limits] [mkParticipation 1 5 1 false false None; mkParticipation 2 5 2 false false None]
  [mkTask 1 (Some 5%Z) (Some 1%Z) 1 "A task" "max_tokened_last" 0 false "task" (Some 0%Z) ["task.%l"] no_limits]
  [mkDataset 1 1 false None None "PvP" [] [] "Sum" (JInt 50); mkDataset 2 1 true None None "PvP" [] [] "Sum" (JInt 50)]
  [mkTestcase 1 1 "a" "in" "out" true; mkTestcase 2 1 "b" "in" "out" true; mkTestcase 3 2 "a" "in" "out" true]
  [mkSubmission 10 1 1 1000 None true (Some 1%Z) None; mkSubmission 11 2 1 2000 None true None None]
  []
  [mkSubmissionResult 10 1 (Some COk) [] 1 None None None None None None None None None 0
     None None None None None [] [mkEvaluation 10 1 1 None [] None None None None None]]
  [mkMatch 20 10 11 1 3000 None None None]
  [mkMatchResult 20 1 0 [mkMatching 20 1 2 (Some "1.0 0.0"%string) []] None]
  []
  [mkUserTest 30 1 4000 None "in" [] [] 1; mkUserTest 31 1 5000 None "in" [] [] 1]
  [mkUserTestResult 30 1 None None [] 2 None None None None None None None None [] 0
     None None None None None []] [mkUser 1 "A" "B" "user1"; mkUser 2 "C" "D" "user2"] [] [].

(** Enumerate the members of a concrete list. *)
Ltac elem_cases :=
  repeat match goal with
  | H : _ ∈ [] |- _ => by apply elem_of_nil in H
  | H : _ ∈ _ :: _ |- _ => apply elem_of_cons in H as [-> |H]
  | H : _ ∈ _ |- _ => progress simpl in H
  end.

Ltac nodup_compute := apply (bool_decide_eq_true_1 (NoDup _)); vm_compute; reflexivity.

Lemma demo_db_wf : db_wf demo_db.
Proof.
  split; try nodup_compute.
  - intros t1 t2 H1 H2 E1 E2. elem_cases; done.
  - intros r e Hr He. elem_cases; done.
  - intros r g Hr Hg. elem_cases; done.
  - intros d Hd. exists (mkTask 1 (Some 5%Z) (Some 1%Z) 1 "A task" "max_tokened_last" 0 false "task" (Some 0%Z) ["task.%l"] no_limits). split; [by left|]. elem_cases; done.
  - intros r Hr. elem_cases; done.
  - intros r s Hr Hs E. exists (mkDataset 1 1 false None None "PvP" [] [] "Sum" (JInt 50)). split; [by left|]. elem_cases; done.
  - intros r s Hr Hs E. exists (mkDataset 1 1 false None None "PvP" [] [] "Sum" (JInt 50)). split; [by left|]. elem_cases; done.
  - intros r s Hr Hs E. exists (mkDataset 1 1 false None None "PvP" [] [] "Sum" (JInt 50)). split; [by left|]. elem_cases; done.
Qed.

Lemma demo_db_active t : t ∈ db_tasks demo_db → is_some (task_active_dataset_id t) = true.
Proof. intros Ht. elem_cases; done. Qed.

Lemma submissions_sweep_complete_witness :
  db_wf demo_db ∧
  (mkESOperation EVALUATION 10 1 (Some "b"%string), PRIORITY_MEDIUM, 1000%Z)
    ∈ get_submissions_operations demo_db (Some 5%Z) ∧
  ∃ s t d q, s ∈ db_submissions demo_db ∧ judged demo_db (Some 5%Z) (sub_task_id s) t d ∧
    (mkESOperation EVALUATION 10 1 (Some "b"%string), q, 1000%Z)
      ∈ submission_get_operations demo_db
          (find_submission_result demo_db (sub_id s) (Some (ds_id d))) s d.
Proof.
  assert ((mkESOperation EVALUATION 10 1 (Some "b"%string), PRIORITY_MEDIUM, 1000%Z)
    ∈ get_submissions_operations demo_db (Some 5%Z)) as He.
  { apply (bool_decide_eq_true_1 (_ ∈ _)). vm_compute. reflexivity. }
  split; [exact demo_db_wf|]. split; [exact He|].
  destruct (proj1 (submissions_sweep_complete demo_db demo_db_wf (Some 5%Z)
    (mkESOperation EVALUATION 10 1 (Some "b"%string)) PRIORITY_MEDIUM 1000%Z) He)
    as (s & t & d & q & Hs & Hj & Hq & _).
  exists s, t, d, q. exact (conj Hs (conj Hj Hq)).
Defined.

Lemma matches_sweep_complete_witness :
  let e := (mkESOperation MATCH 20 1 (Some "a"%string), PRIORITY_MEDIUM, 3000%Z) in
  e ∈ get_match_operations demo_db None ∧
  ∃ m t d r ops q, m ∈ db_matches demo_db ∧ judged demo_db None (m_task_id m) t d ∧
    find_match_result demo_db (m_id m) (Some (ds_id d)) = Some r ∧
    match_to_evaluate (Some r) = true ∧
    match_get_operations demo_db (Some r) m d = Ok ops ∧ (e.1.1, q, e.2) ∈ ops ∧
    e.1.2 = if (active demo_db d && negb (mr_evaluation_tries r =? 0)%Z)%bool
            then PRIORITY_LOW else q.
Proof.
  assert ((mkESOperation MATCH 20 1 (Some "a"%string), PRIORITY_MEDIUM, 3000%Z)
    ∈ get_match_operations demo_db None) as He.
  { apply (bool_decide_eq_true_1 (_ ∈ _)). vm_compute. reflexivity. }
  split; [exact He|].
  exact (proj1 (matches_sweep_complete demo_db demo_db_wf None _ _ _ demo_db_active) He).
Defined.

(** The query misses the retry of user test 30, which the generator wants. *)
Lemma user_tests_sweep_untried_witness :
  let r := find_user_test_result demo_db 30 (Some 1%Z) in
  let e := (mkESOperation USER_TEST_COMPILATION 30 1 None, PRIORITY_MEDIUM, 4000%Z) in
  e ∈ user_test_operations_of demo_db r (mkUserTest 30 1 4000 None "in" [] [] 1) (mkDataset 1 1 false None None "PvP" [] [] "Sum" (JInt 50)) ∧
  e ∉ get_user_tests_operations demo_db None.
Proof.
  split; [apply (bool_decide_eq_true_1 (_ ∈ _)); vm_compute; reflexivity|].
  intros He. apply (user_tests_sweep_untried demo_db demo_db_wf None _ demo_db_active) in He
    as (u & t & d & Hu & Hj & Hb & He).
  destruct Hj as [_ _ Hd _ _ _]. revert Hb He. elem_cases; intros Hb He;
    first [vm_compute in Hb; discriminate Hb
          |apply (proj2 (bool_decide_eq_true (_ ∈ _))) in He; vm_compute in He; discriminate He].
Defined.
