(* ===== verification/Pvp.v ===== *)
(** * The PvP service (cms/service/PvPService.py, cms/service/pvpoperations.py)

    A batch of a PvP task is evaluated in rounds: [start_round] pairs the
    participants testcase by testcase and asks the evaluation service to play
    the matches; each [match_ended] updates the ratings, and the last one of
    a round starts the next round or, after the last round, turns the ratings
    into scores.

    The state holds the tables (the session's working copy [db] and the
    committed copy [saved]: leaving a session without committing drops the
    changes), the id sequences, the dictionaries shared by the service and its
    executor, the operations waiting in the executor's queue, and the calls
    made to the other services. Arguments of the environment: [now] is the
    clock, [shuffle] and [rnd] what [random] returns. Handlers run without
    interleaving (the service holds a lock in [match_ended]; the model does
    not cover a greenlet switch inside a database call). Log messages and the
    text of the notification are left out. *)

From S2P Require Import Prelude PyFloat FloatOrder FloatInt Elo Database.
From Stdlib Require Import SpecFloat.

(** ** Parameters of the task type (cms/grading/tasktypes/PvP.py) *)

Record PvpParams : Type := mkParams {
  auto_eval : string;
  interval : Z;
  rounds : Z;
  notification_time : Z;
}.

Definition seconds (n : Z) : Z := n * 1000000.

(** Every parameter is validated; times become timedeltas. *)
Definition task_type_object (d : Dataset) : res PvpParams :=
  match ds_task_type_parameters d with
  | [JString compilation; JString io; JString auto; JInt i; JInt r; JInt n] =>
      if bool_decide (compilation ∈ ["alone"; "stub"]%string)
         && bool_decide (io ∈ ["std_io"; "fifo_io"]%string)
         && bool_decide (auto ∈ ["enabled"; "disabled"]%string)
      then Ok (mkParams auto (seconds i) r (seconds n))
      else Raise ValueError
  | _ => Raise ValueError
  end.

(** ** Pairing the players of a testcase *)

Definition fabs : float → float := SFabs.

(** [abs(p[1] - rating) <= window] *)
Definition in_window (window : Z) (rating : float) (p : Z * float) : bool :=
  fleb (fabs (fsub p.2 rating)) (of_Z window).

Definition candidates_in (window : Z) (rating : float) (matched : list Z)
    (players : list (Z * float)) : list (Z * float) :=
  filter (λ p, in_window window rating p ∧ p.1 ∉ matched) players.

Definition initial_window : Z := 100.
Definition max_window : Z := 600.

(** [while window <= max_window and not candidates: ...] *)
Fixpoint window_loop (fuel : nat) (window : Z) (rating : float) (matched : list Z)
    (players candidates : list (Z * float)) : res (list (Z * float)) :=
  if (window <=? max_window)%Z && bool_decide (candidates = []) then
    match fuel with
    | O => NoFuel
    | S fuel =>
        window_loop fuel (window + 50) rating matched players
          (candidates_in window rating matched players)
    end
  else Ok candidates.

(** The loop over the shuffled players: the pairs in the order in which they
    are made, and the players left out. [rnd i] is behind the [i]-th call of
    [random.choice]. *)
Fixpoint pair_loop (players todo : list (Z * float)) (rnd : nat → nat) (matched : list Z)
    (pairs : list (Z * Z)) (bye_p : list Z) : res (list (Z * Z) * list Z) :=
  match todo with
  | [] => Ok (pairs, bye_p)
  | (p_id, rating) :: todo =>
      if decide (p_id ∈ matched) then pair_loop players todo rnd matched pairs bye_p
      else
        let matched := p_id :: matched in
        candidates ← window_loop 12 initial_window rating matched players [];
        match candidates with
        | [] => pair_loop players todo rnd matched pairs (bye_p ++ [p_id])
        | _ =>
            o ← or_raise IndexError
                  (candidates !! (rnd (List.length pairs) `mod` List.length candidates)%nat);
            pair_loop players todo rnd (o.1 :: matched) (pairs ++ [(p_id, o.1)]) bye_p
        end
  end.

Definition pair_players (players : list (Z * float)) (rnd : nat → nat)
    : res (list (Z * Z) * list Z) :=
  pair_loop players players rnd [] [] [].

(** ** State *)

Inductive call : Type :=
  | NewMatch (match_id : Z)
  | NewEvaluation (submission_id dataset_id : Z)
  | Announcement (contest_id task_id : Z).

Record PvpState : Type := mkState {
  db : Db;
  saved : Db;
  match_seq : Z;
  submission_seq : Z;
  batch_seq : Z;
  participations : gmap Z (pydict Z Z);
  competition_sys : gmap Z (pydict Z elo);
  queue : list Z;
  calls : list call;
  sended : gset (Z * Z);
}.

Definition Pvp (A : Type) : Type := M PvpState A.

Definition set_db d (s : PvpState) := mkState d (saved s) (match_seq s) (submission_seq s)
  (batch_seq s) (participations s) (competition_sys s) (queue s) (calls s) (sended s).
Definition set_saved d (s : PvpState) := mkState (db s) d (match_seq s) (submission_seq s)
  (batch_seq s) (participations s) (competition_sys s) (queue s) (calls s) (sended s).
Definition set_match_seq n (s : PvpState) := mkState (db s) (saved s) n (submission_seq s)
  (batch_seq s) (participations s) (competition_sys s) (queue s) (calls s) (sended s).
Definition set_submission_seq n (s : PvpState) := mkState (db s) (saved s) (match_seq s) n
  (batch_seq s) (participations s) (competition_sys s) (queue s) (calls s) (sended s).
Definition set_batch_seq n (s : PvpState) := mkState (db s) (saved s) (match_seq s)
  (submission_seq s) n (participations s) (competition_sys s) (queue s) (calls s) (sended s).
Definition set_participations p (s : PvpState) := mkState (db s) (saved s) (match_seq s)
  (submission_seq s) (batch_seq s) p (competition_sys s) (queue s) (calls s) (sended s).
Definition set_competition_sys c (s : PvpState) := mkState (db s) (saved s) (match_seq s)
  (submission_seq s) (batch_seq s) (participations s) c (queue s) (calls s) (sended s).
Definition set_queue q (s : PvpState) := mkState (db s) (saved s) (match_seq s)
  (submission_seq s) (batch_seq s) (participations s) (competition_sys s) q (calls s) (sended s).
Definition set_calls c (s : PvpState) := mkState (db s) (saved s) (match_seq s)
  (submission_seq s) (batch_seq s) (participations s) (competition_sys s) (queue s) c (sended s).
Definition set_sended x (s : PvpState) := mkState (db s) (saved s) (match_seq s)
  (submission_seq s) (batch_seq s) (participations s) (competition_sys s) (queue s) (calls s) x.

(** [session.commit()] *)
Definition commit : Pvp unit := modify (λ s, set_saved (db s) s).

(** [with SessionGen() as session: m] *)
Definition with_session {A} (m : Pvp A) : Pvp A := λ s,
  let '(r, s) := m (set_db (saved s) s) in (r, set_db (saved s) s).

Definition call_service (c : call) : Pvp unit := modify (λ s, set_calls (calls s ++ [c]) s).

Definition update_db (f : Db → Db) : Pvp unit := modify (λ s, set_db (f (db s)) s).

(** [X.get_from_id(i, session)] *)
Definition row {A} (key : A → Z) (table : Db → list A) (i : Z) : Pvp (option A) :=
  gets (λ s, head (filter (λ x, key x = i) (table (db s)))).

(** A relationship: the row exists, or the attribute of [None] is read. *)
Definition related {A} (key : A → Z) (table : Db → list A) (i : Z) : Pvp A :=
  o ← row key table i; lift (or_raise AttributeError o).

Definition update_batch (i : Z) (f : Batch → Batch) : Pvp unit :=
  update_db (with_batches (replace_row ba_id i f)).

Definition set_rounds_id n (b : Batch) := mkBatch (ba_id b) (ba_task_id b) (ba_task_pvp_batch b) n
  (Database.ba_rounds b) (ba_rest_matches b) (ba_status b) (ba_timestamp b).
Definition set_rest_matches n (b : Batch) := mkBatch (ba_id b) (ba_task_id b)
  (ba_task_pvp_batch b) (ba_rounds_id b) (ba_rounds b) n (ba_status b) (ba_timestamp b).

(** [task.active_dataset] *)
Definition active_dataset (t : Task) : Pvp Dataset :=
  i ← lift (or_raise AttributeError (task_active_dataset_id t));
  related ds_id db_datasets i.

(** [task.contest.participations] *)
Definition contest_participations (t : Task) : Pvp (list Participation) :=
  c ← lift (or_raise AttributeError (task_contest_id t));
  gets (λ s, filter (λ p, pa_contest_id p = c) (db_participations (db s))).

(** [dataset.testcases.values()] *)
Definition dataset_testcases (d : Dataset) : Pvp (list Testcase) :=
  gets (λ s, testcases (db s) d).

(** *** Queries of pvpoperations *)

(** [order_by(timestamp.desc()).first()] *)
Definition latest (l : list Submission) : option Submission :=
  foldl (λ acc s, match acc with
                  | None => Some s
                  | Some a => if (sub_timestamp a <? sub_timestamp s)%Z then Some s else acc
                  end) None l.

Definition get_last_submission (participation_id tid : Z) : Pvp (option Submission) :=
  gets (λ s, latest (filter (λ sub,
    sub_participation_id sub = participation_id ∧ sub_task_id sub = tid ∧
    existsb (λ r, bool_decide (sr_submission_id r = sub_id sub)
                  && holds (SR.filter_compilation_succeeded r))
      (db_submission_results (db s)) = true) (db_submissions (db s)))).

Definition get_match_submission (participation_id tid batch : Z) : Pvp (option Submission) :=
  gets (λ s, head (filter (λ sub,
    sub_participation_id sub = participation_id ∧ sub_task_id sub = tid ∧
    sub_pvp_batch sub = Some batch) (db_submissions (db s)))).

(** ** PvPExecutor *)

(** A missing task is reported with the name of [None]. *)
Definition next_batch (tid : Z) : Pvp bool :=
  task ← row task_id db_tasks tid;
  match task with
  | None => raise AttributeError
  | Some _ =>
      _ ← update_db (with_tasks (replace_row task_id tid (λ t,
            mkTask (task_id t) (task_contest_id t) (task_active_dataset_id t)
              (task_pvp_batch t + 1) (task_title t) (task_score_mode t) (task_score_precision t)
              (task_solved t) (task_name t) (task_num t) (task_submission_format t) (task_limits t))));
      _ ← commit;
      mret true
  end.

(** [SubmissionResult] of a submission on the active dataset, updated with
    [f] or created by it. *)
Definition update_result_or_create (sid did : Z) (f : SubmissionResult → SubmissionResult)
    : Pvp unit :=
  update_db (with_results (λ l,
    if existsb (λ r, bool_decide (sr_submission_id r = sid) && bool_decide (sr_dataset_id r = did)) l
    then (λ r, if decide (sr_submission_id r = sid ∧ sr_dataset_id r = did) then f r else r) <$> l
    else l ++ [f (SR.new sid did)])).

Definition set_pvp_batch (b : option Z) (s : Submission) := mkSubmission (sub_id s)
  (sub_participation_id s) (sub_task_id s) (sub_timestamp s) (sub_language s) (sub_official s) b (sub_token s).

Definition mark_match_submissions (tid : Z) : Pvp bool :=
  task ← related task_id db_tasks tid;
  ps ← contest_participations task;
  cnt ← for_acc (λ cnt p, sub ← get_last_submission (pa_id p) tid;
                          mret (if is_some sub then (cnt + 1)%Z else cnt)) 0%Z ps;
  if (cnt <? 2)%Z then mret false
  else
    _ ← for_each (λ p,
      sub ← get_last_submission (pa_id p) tid;
      match sub with
      | None => mret tt
      | Some sub =>
          _ ← update_db (with_submissions (replace_row sub_id (sub_id sub)
                (set_pvp_batch (Some (task_pvp_batch task)))));
          ds ← active_dataset task;
          update_result_or_create (sub_id sub) (ds_id ds) SR.invalidate_evaluation
      end) ps;
    _ ← commit;
    mret true.

Definition copy_submissions (tid now : Z) : Pvp bool :=
  task ← row task_id db_tasks tid;
  match task with
  | None => raise AttributeError
  | Some task =>
      ps ← contest_participations task;
      _ ← for_each (λ p,
        sub ← get_last_submission (pa_id p) tid;
        match sub with
        | None => mret tt
        | Some sub =>
            result ← gets (λ s, find_submission_result (db s) (sub_id sub)
                                  (task_active_dataset_id task));
            match result with
            | None => mret tt
            | Some _ =>
                i ← gets submission_seq;
                _ ← modify (set_submission_seq (i + 1));
                _ ← update_db (with_submissions (λ l, l ++
                      [mkSubmission i (pa_id p) tid now (sub_language sub) true None None]));
                update_db (with_files (λ l, l ++
                  ((λ f, mkFile i (fi_filename f) (fi_digest f)) <$>
                     filter (λ f, fi_submission_id f = sub_id sub) l)))
            end
        end) ps;
      _ ← commit;
      mret true
  end.

(** [Testcase.get_from_id(None)] is [None]. *)
Definition create_match (now s1_id s2_id batch_id : Z) (testcase_id : option Z)
    : Pvp (option Match) :=
  s1 ← row sub_id db_submissions s1_id;
  s2 ← row sub_id db_submissions s2_id;
  match s1, s2 with
  | Some s1, Some s2 =>
      if decide (sub_task_id s1 ≠ sub_task_id s2) then mret None
      else
        task ← row task_id db_tasks (sub_task_id s1);
        match task with
        | None => mret None
        | Some task =>
            ds ← active_dataset task;
            if decide (ds_task_type ds ≠ "PvP"%string) then mret None
            else
              batch ← row ba_id db_batches batch_id;
              tc ← match testcase_id with
                   | Some i => row tc_id db_testcases i
                   | None => mret None
                   end;
              i ← gets match_seq;
              _ ← modify (set_match_seq (i + 1));
              let m := mkMatch i (sub_id s1) (sub_id s2) (task_id task) now
                         (Some (task_pvp_batch task)) (ba_id <$> batch) (tc_id <$> tc) in
              _ ← update_db (with_matches (λ l, l ++ [m]));
              mret (Some m)
        end
  | _, _ => mret None
  end.

(** [for p_id in participations.keys()] the rating of the player. *)
Fixpoint players_of (ps : pydict Z Z) (ratings : elo) : res (list (Z * float)) :=
  match ps with
  | [] => Ok []
  | (p_id, _) :: ps =>
      r ← or_raise KeyError (pd_get ratings p_id);
      rest ← players_of ps ratings;
      Ok ((p_id, r) :: rest)
  end.

Section start_round.
Context (now : Z) (shuffle : Z → list (Z * float) → list (Z * float)) (rnd : Z → nat → nat).

(** The matches of one pair of players on a testcase. *)
Definition match_pair (batch_id tcid : Z) (ps : pydict Z Z) (matches : list Match)
    (pair : Z * Z) : Pvp (list Match) :=
  s1 ← lift (or_raise KeyError (pd_get ps pair.1));
  s2 ← lift (or_raise KeyError (pd_get ps pair.2));
  m ← create_match now s1 s2 batch_id (Some tcid);
  mret (matches ++ option_list m).

Definition testcase_round (batch_id : Z) (ps : pydict Z Z) (sys : pydict Z elo)
    (matches : list Match) (tc : Testcase) : Pvp (list Match) :=
  ratings ← lift (or_raise KeyError (pd_get sys (tc_id tc)));
  players ← lift (players_of ps ratings);
  pairs ← lift (pair_players (shuffle (tc_id tc) players) (rnd (tc_id tc)));
  for_acc (match_pair batch_id (tc_id tc) ps) matches pairs.1.

(** The first round of a batch: [Some r] when the method returns [r]. *)
Definition init_batch (batch : Batch) (task : Task) (ds : Dataset) : Pvp (option (option bool)) :=
  ok ← next_batch (task_id task);
  if negb ok then mret (Some (Some false)) else
  ok ← mark_match_submissions (task_id task);
  if negb ok then mret (Some (Some false)) else
  ok ← copy_submissions (task_id task) now;
  if negb ok then mret (Some (Some false)) else
  if decide (ba_rounds batch = 0%Z) then mret (Some (Some false)) else
  task ← related task_id db_tasks (task_id task);
  all ← contest_participations task;
  tcs ← dataset_testcases ds;
  let sys := foldl (λ d tc, pd_set d (tc_id tc) (elo_init (pa_id <$> all))) [] tcs in
  _ ← modify (λ s, set_participations (<[ba_id batch := []]> (participations s)) s);
  _ ← modify (λ s, set_competition_sys (<[ba_id batch := sys]> (competition_sys s)) s);
  _ ← for_each (λ p,
    sub ← get_match_submission (pa_id p) (task_id task) (task_pvp_batch task);
    match sub with
    | Some sub =>
        modify (λ s, set_participations
          (alter (λ d, pd_set d (pa_id p) (sub_id sub)) (ba_id batch) (participations s)) s)
    | None =>
        modify (λ s, set_competition_sys
          (alter (λ d, (λ kv, (kv.1, pd_set kv.2 (pa_id p) f0)) <$> d) (ba_id batch)
             (competition_sys s)) s)
    end) all;
  _ ← update_batch (ba_id batch) start_evaluate;
  mret None.

(** [Some true] when matches were sent, [Some false] on the early returns,
    [None] when the round has no match. *)
Definition start_round (batch_id : Z) : Pvp (option bool) :=
  batch ← row ba_id db_batches batch_id;
  match batch with
  | None => mret (Some false)
  | Some batch =>
      task ← related task_id db_tasks (ba_task_id batch);
      ds ← active_dataset task;
      if decide (ds_task_type ds ≠ "PvP"%string) then mret (Some false)
      else
        early ← (if decide (ba_rounds_id batch = 0%Z) then init_batch batch task ds
                 else if (ba_rounds batch <=? ba_rounds_id batch)%Z then mret (Some (Some false))
                 else mret None);
        match early with
        | Some r => mret r
        | None =>
            ps ← gets participations;
            ps ← lift (or_raise KeyError (ps !! batch_id));
            sys ← gets competition_sys;
            sys ← lift (or_raise KeyError (sys !! batch_id));
            _ ← update_batch batch_id (set_rounds_id (ba_rounds_id batch + 1));
            _ ← lift (assert (bool_decide (ba_rest_matches batch = 0%Z)));
            tcs ← dataset_testcases ds;
            matches ← for_acc (testcase_round batch_id ps sys) [] tcs;
            _ ← commit;
            _ ← update_batch batch_id (set_rest_matches (Z.of_nat (List.length matches)));
            if decide (matches = []) then mret None
            else
              _ ← commit;
              _ ← for_each (λ m,
                    ds ← (t ← related task_id db_tasks (m_task_id m); active_dataset t);
                    update_db (with_match_results (λ l,
                      if existsb (λ r, bool_decide (mr_match_id r = m_id m)
                                       && bool_decide (mr_dataset_id r = ds_id ds)) l
                      then l else l ++ [MR.new (m_id m) (ds_id ds)]))) matches;
              _ ← commit;
              _ ← for_each (λ m, call_service (NewMatch (m_id m))) matches;
              mret (Some true)
        end
  end.

(** [execute]: the batch exists (its id comes from a committed row). *)
Definition execute (batch_id : Z) : Pvp unit :=
  with_session (
    batch ← related ba_id db_batches batch_id;
    task ← row task_id db_tasks (ba_task_id batch);
    match task with
    | None => mret tt
    | Some task =>
        ds ← active_dataset task;
        if decide (ds_task_type ds ≠ "PvP"%string) then mret tt
        else _ ← start_round batch_id; mret tt
    end).
End start_round.

(** ** PvPService *)

(** [new_batch]: the executor's queue holds an operation at most once. *)
Definition new_batch (batch_id : Z) : Pvp unit :=
  modify (λ s, if decide (batch_id ∈ queue s) then s else set_queue (queue s ++ [batch_id]) s).

Section PvPService.
(** The C library's [pow], [float(s)] and the text of a float column. *)
Context (fpow : float → float → res float).
Context (float_of_string : string → option float) (frepr : float → string).

Definition set_outcome (o : option string) (e : Evaluation) := mkEvaluation (ev_submission_id e)
  (ev_dataset_id e) (ev_testcase_id e) o (ev_text e)
  (ev_execution_time e) (ev_execution_wall_clock_time e) (ev_execution_memory e)
  (ev_evaluation_shard e) (ev_evaluation_sandbox e).

(** The evaluation of a result on a testcase is rewritten in place. *)
Definition set_evaluation (tcid : Z) (o : option string) (r : SubmissionResult) :=
  mkSubmissionResult (sr_submission_id r) (sr_dataset_id r)
    (sr_compilation_outcome r) (sr_compilation_text r) (sr_compilation_tries r)
    (sr_compilation_stdout r) (sr_compilation_stderr r)
    (sr_compilation_time r) (sr_compilation_wall_clock_time r) (sr_compilation_memory r)
    (sr_compilation_shard r) (sr_compilation_sandbox r) (sr_evaluation_outcome r)
    (sr_submission_discarded r) (sr_evaluation_tries r)
    (sr_score r) (sr_score_details r) (sr_public_score r) (sr_public_score_details r)
    (sr_ranking_score_details r) (sr_executables r)
    ((λ e, if decide (ev_testcase_id e = tcid) then set_outcome o e else e)
       <$> sr_evaluations r).

Definition update_result (sid did : Z) (f : SubmissionResult → SubmissionResult) : Pvp unit :=
  update_db (with_results (λ l,
    (λ r, if decide (sr_submission_id r = sid ∧ sr_dataset_id r = did) then f r else r) <$> l)).

(** [submission.get_result()] *)
Definition active_result (sub : Submission) : Pvp (option SubmissionResult) :=
  s ← get; lift (submission_get_result (db s) sub None).

Definition update_single_score (submission_id : Z) (tc : Testcase) (score : float)
    : Pvp bool :=
  sub ← row sub_id db_submissions submission_id;
  match sub with
  | None => mret false
  | Some sub =>
      result ← active_result sub;
      match result with
      | None => mret false
      | Some r =>
          e ← lift (SR.get_evaluation tc r);
          _ ← lift (or_raise AttributeError e);
          _ ← update_result (sr_submission_id r) (sr_dataset_id r)
                (set_evaluation (tc_id tc) (Some (frepr score)));
          mret true
      end
  end.

Definition update_score (tid : Z) (ps : pydict Z Z) (sys : pydict Z elo) : Pvp bool :=
  task ← related task_id db_tasks tid;
  ds ← active_dataset task;
  tcs ← dataset_testcases ds;
  _ ← for_each (λ tc,
    ratings ← lift (or_raise KeyError (pd_get sys (tc_id tc)));
    scores ← lift (to_scores ratings);
    _ ← for_each (λ ps', sid ← lift (or_raise KeyError (pd_get ps ps'.1));
                         _ ← lift (or_raise KeyError (pd_get ratings ps'.1));
                         _ ← update_single_score sid tc ps'.2; mret tt) scores;
    commit) tcs;
  _ ← for_each (λ sid,
    sub ← row sub_id db_submissions sid;
    match sub with
    | None => mret tt
    | Some sub =>
        result ← active_result sub;
        match result with
        | None => mret tt
        | Some r => update_result (sr_submission_id r) (sr_dataset_id r)
                      (λ r, SR.set_evaluation_outcome (SR.invalidate_score r))
        end
    end) (pd_values ps);
  _ ← commit;
  _ ← for_each (λ sid, call_service (NewEvaluation sid (ds_id ds))) (pd_values ps);
  mret true.

Definition batch_ended (batch_id : Z) : Pvp unit :=
  with_session (
    batch ← related ba_id db_batches batch_id;
    ps ← gets participations;
    sys ← gets competition_sys;
    ps ← lift (or_raise KeyError (ps !! batch_id));
    sys ← lift (or_raise KeyError (sys !! batch_id));
    _ ← update_score (ba_task_id batch) ps sys;
    _ ← update_batch batch_id end_evaluate;
    commit).

(** [40 * 4 ** -(batch.rounds_id / batch.rounds)] *)
Definition k_factor (rounds_id rounds : Z) : res float :=
  q ← fdiv_py (of_Z rounds_id) (of_Z rounds);
  p ← fpow (of_Z 4) (fopp q);
  Ok (fmul (of_Z 40) p).

(** The two numbers of the outcome of a match. *)
Definition parse_outcomes (outcome : option string) : res (float * float) :=
  o ← or_raise AttributeError outcome;
  let outcomes := String.words o in
  a ← or_raise IndexError (outcomes !! 0%nat);
  a ← or_raise ValueError (float_of_string a);
  b ← or_raise IndexError (outcomes !! 1%nat);
  b ← or_raise ValueError (float_of_string b);
  Ok (a, b).

Definition match_ended (match_id : Z) : Pvp bool :=
  with_session (
    m ← row m_id db_matches match_id;
    match m with
    | None => mret false
    | Some m =>
        match m_batch_eval_id m with
        | None => mret false
        | Some bid =>
            batch ← related ba_id db_batches bid;
            let rest := (ba_rest_matches batch - 1)%Z in
            _ ← update_batch bid (set_rest_matches rest);
            _ ← commit;
            tcid ← lift (or_raise AssertionError (m_testcase_id m));
            result ← related mr_match_id db_match_results match_id;
            _ ← lift (assert (Nat.eqb (List.length (mr_matchings result)) 1));
            g ← lift (or_raise IndexError (mr_matchings result !! 0%nat));
            o ← lift (or_raise AttributeError (mg_outcome g));
            sys ← gets competition_sys;
            sys ← lift (or_raise KeyError (sys !! bid));
            ratings ← lift (or_raise KeyError (pd_get sys tcid));
            s1 ← related sub_id db_submissions (m_submission1_id m);
            s2 ← related sub_id db_submissions (m_submission2_id m);
            ab ← lift (parse_outcomes (Some o));
            k ← lift (k_factor (ba_rounds_id batch) (ba_rounds batch));
            ratings ← lift (update_scores fpow (sub_participation_id s1)
                              (sub_participation_id s2) ab.1 ab.2 k ratings);
            _ ← modify (λ s, set_competition_sys
                  (<[bid := pd_set sys tcid ratings]> (competition_sys s)) s);
            if decide (rest = 0%Z) then
              if decide (ba_rounds_id batch = ba_rounds batch) then
                _ ← batch_ended bid; mret true
              else
                _ ← new_batch bid; mret false
            else mret false
        end
    end).
End PvPService.

Definition new_batch_row (i : Z) (t : Task) (now rounds : Z) : Batch :=
  mkBatch i (task_id t) (task_pvp_batch t + 1) 0 rounds 0 BATCH_PENDING now.

(** [Batch(...)]; [session.add]; [session.commit]. *)
Definition add_batch (t : Task) (now rounds : Z) : Pvp Z :=
  i ← gets batch_seq;
  _ ← modify (set_batch_seq (i + 1));
  _ ← update_db (with_batches (λ l, l ++ [new_batch_row i t now rounds]));
  _ ← commit;
  mret i.

(** [rounds] is [None] for the empty string. *)
Definition manually_start_match (tid : Z) (rounds_arg : option Z) (now : Z) : Pvp bool :=
  with_session (
    task ← row task_id db_tasks tid;
    match task with
    | None => mret false
    | Some task =>
        ds ← active_dataset task;
        if decide (ds_task_type ds ≠ "PvP"%string) then mret false
        else
          params ← lift (task_type_object ds);
          i ← add_batch task now (default (rounds params) rounds_arg);
          _ ← new_batch i;
          mret true
    end).

(** ** Scheduled batches (pvpoperations) *)

(** [task.contest] is the contest whose tasks are being visited. *)
Definition add_notification (contest : Contest) (t : Task) : Pvp unit :=
  sent ← gets sended;
  ds ← active_dataset t;
  _ ← lift (task_type_object ds);
  let key := (task_id t, (task_pvp_batch t + 1)%Z) in
  if decide (key ∈ sent) then mret tt
  else
    _ ← modify (λ s, set_sended ({[key]} ∪ sended s) s);
    _ ← call_service (Announcement (co_id contest) (task_id t));
    commit.

(** The row with the greatest timestamp. *)
Definition latest_batch (l : list Batch) : option Batch :=
  foldl (λ acc b, match acc with
                  | None => Some b
                  | Some a => if (ba_timestamp a <? ba_timestamp b)%Z then Some b else acc
                  end) None l.

(** What a task contributes to [get_operations], a generator: its consumer
    [emit] runs at each [yield]. *)
Definition task_operations (emit : Z * Z → Pvp unit) (now : Z) (contest : Contest)
    (acc : list (Z * Z)) (t : Task) : Pvp (list (Z * Z)) :=
  ds ← active_dataset t;
  if decide (ds_task_type ds ≠ "PvP"%string) then mret acc
  else
    params ← lift (task_type_object ds);
    if decide (auto_eval params ≠ "enabled"%string) then mret acc
    else
      last ← (if decide (task_pvp_batch t = 0%Z) then mret (co_start contest, BATCH_EVALUATED)
              else
                b ← gets (λ s, latest_batch (filter (λ b, ba_task_id b = task_id t)
                                                (db_batches (db s))));
                b ← lift (or_raise TypeError b);
                mret (ba_timestamp b, ba_status b));
      if decide (last.2 = BATCH_EVALUATING) then mret acc
      else if (interval params <=? now - last.1)%Z then
        i ← add_batch t now (rounds params);
        _ ← emit (i, now);
        mret (acc ++ [(i, now)])
      else if (interval params - notification_time params <=? now - last.1)%Z then
        _ ← add_notification contest t;
        mret acc
      else mret acc.

Definition get_operations (emit : Z * Z → Pvp unit) (now : Z) : Pvp (list (Z * Z)) :=
  contests ← gets (λ s, filter (λ c, (co_start c <= now)%Z ∧ (now <= co_stop c)%Z)
                          (db_contests (db s)));
  ops ← for_acc (λ acc c,
    tasks ← gets (λ s, filter (λ t, task_contest_id t = Some (co_id c)) (db_tasks (db s)));
    for_acc (task_operations emit now c) acc tasks) [] contests;
  _ ← commit;
  mret ops.

(** The generator's operations are enqueued and counted. *)
Definition _missing_operations (now : Z) : Pvp nat :=
  with_session (ops ← get_operations (λ op, new_batch op.1) now; mret (List.length ops)).

(** ** Pairing *)

Lemma fleb_not_nan x y : fleb x y = true → is_nan x = false ∧ is_nan y = false.
Proof. by destruct x as [?|[]| |[]], y as [?|[]| |[]]. Qed.

(** The windows tried, from the widest. *)
Lemma windows_le k : (k < 11)%nat → fleb (of_Z (600 - 50 * Z.of_nat k)) (of_Z 600) = true.
Proof. intros Hk. do 11 (destruct k as [|k]; [by vm_compute|]). lia. Qed.

Definition close (rating : float) (p : Z * float) : Prop := in_window max_window rating p = true.

Lemma candidates_close k rating matched players c :
  (k < 11)%nat → c ∈ candidates_in (600 - 50 * Z.of_nat k) rating matched players →
  c ∈ players ∧ (c.1 ∉ matched) ∧ close rating c.
Proof.
  intros Hk [[Hw Hm] Hc]%list_elem_of_filter. split_and!; [done|done|].
  unfold close, in_window in *. apply Is_true_true in Hw.
  pose proof (windows_le k Hk) as H600.
  destruct (fleb_not_nan _ _ Hw), (fleb_not_nan _ _ H600).
  by apply (fleb_trans _ (of_Z (600 - 50 * Z.of_nat k))).
Qed.

(** What the search for candidates returns. *)
Definition found (rating : float) (matched : list Z) (players cs : list (Z * float)) : Prop :=
  (∀ c, c ∈ cs → c ∈ players ∧ (c.1 ∉ matched) ∧ close rating c) ∧
  (cs = [] → ∀ x, x ∈ players → x.1 ∉ matched → ¬ close rating x).

Lemma window_loop_found j rating matched players cs fuel :
  (j ≤ 11)%nat → (j ≤ fuel)%nat →
  (∀ c, c ∈ cs → c ∈ players ∧ (c.1 ∉ matched) ∧ close rating c) →
  (cs = [] → j = 0 → candidates_in 600 rating matched players = []) →
  ∃ cs', window_loop fuel (650 - 50 * Z.of_nat j) rating matched players cs = Ok cs' ∧
         found rating matched players cs'.
Proof.
  revert fuel cs. induction j as [|j IH]; intros fuel cs Hj Hf Hcs H0.
  - exists cs. split; [by destruct fuel|]. split; [done|]. intros -> x Hx Hm Hc.
    specialize (H0 eq_refl eq_refl).
    assert (x ∈ candidates_in 600 rating matched players) as Hin.
    { apply list_elem_of_filter. split; [split|]; [|done|done].
      by apply Is_true_true. }
    rewrite H0 in Hin. by apply elem_of_nil in Hin.
  - destruct fuel as [|fuel]; [lia|]. cbn [window_loop].
    destruct (Z.leb_spec (650 - 50 * Z.of_nat (S j)) max_window) as [_|Hw];
      [|unfold max_window in Hw; lia]. simpl andb.
    case_bool_decide as Hnil.
    + replace (650 - 50 * Z.of_nat (S j) + 50)%Z with (650 - 50 * Z.of_nat j)%Z by lia.
      replace (650 - 50 * Z.of_nat (S j))%Z with (600 - 50 * Z.of_nat j)%Z by lia.
      apply IH; [lia|lia|by intros c; apply candidates_close; lia|].
      intros Hc ->. by rewrite <- Hc.
    + exists cs. split; [done|]. split; done.
Qed.

Lemma window_search rating matched players :
  ∃ cs, window_loop 12 initial_window rating matched players [] = Ok cs ∧
        found rating matched players cs.
Proof.
  apply (window_loop_found 11); [lia|lia|by intros c ?%elem_of_nil|done].
Qed.

(** The ids that appear in the pairs. *)
Definition paired (pairs : list (Z * Z)) : list Z := pairs ≫= λ p, [p.1; p.2].

(** Two ratings further apart than the widest window. *)
Definition far (players : list (Z * float)) (a b : Z) : Prop :=
  ∀ ra rb, (a, ra) ∈ players → (b, rb) ∈ players → ¬ close ra (b, rb).

Record pairing (players : list (Z * float)) (pairs : list (Z * Z)) (bye : list Z) : Prop := {
  pairing_ids : paired pairs ++ bye ≡ₚ players.*1;
  pairing_close a b : (a, b) ∈ pairs →
    ∃ ra rb, (a, ra) ∈ players ∧ (b, rb) ∈ players ∧ close ra (b, rb);
  pairing_bye : StronglySorted (far players) bye;
}.

(** The state of the loop after some of the players. *)
Record pairing_inv (players done : list (Z * float)) (matched : list Z)
    (pairs : list (Z * Z)) (bye : list Z) : Prop := {
  inv_matched : paired pairs ++ bye ≡ₚ matched;
  inv_nodup : NoDup matched;
  inv_players a : a ∈ matched → a ∈ players.*1;
  inv_done x : x ∈ done → x.1 ∈ matched;
  inv_close a b : (a, b) ∈ pairs →
    ∃ ra rb, (a, ra) ∈ players ∧ (b, rb) ∈ players ∧ close ra (b, rb);
  inv_bye : StronglySorted (far players) bye;
  inv_far a x : a ∈ bye → x ∈ players → x.1 ∉ matched → far players a x.1;
}.

Lemma player_unique (players : list (Z * float)) (a : Z) (ra ra' : float) :
  NoDup (players.*1) → (a, ra) ∈ players → (a, ra') ∈ players → ra = ra'.
Proof.
  intros Hnd H1 H2. assert ((a, ra) = (a, ra')) as [= ?]; [|done].
  by eapply (key_unique fst players).
Qed.

Lemma pair_loop_inv players dn todo rnd matched pairs bye :
  NoDup (players.*1) → players = dn ++ todo → pairing_inv players dn matched pairs bye →
  ∃ pairs' bye', pair_loop players todo rnd matched pairs bye = Ok (pairs', bye') ∧
                 pairing players pairs' bye'.
Proof.
  intros Hnd. revert dn matched pairs bye.
  induction todo as [|[a ra] todo IH]; intros dn matched pairs bye Hsplit Hinv.
  - exists pairs, bye. split; [done|]. destruct Hinv as [H1 H2 H3 H4 H5 H6 H7].
    split; [|done|done]. rewrite H1. apply NoDup_Permutation; [done|done|].
    intros i. split; [apply H3|]. rewrite app_nil_r in Hsplit. subst dn.
    intros (x & -> & Hx)%list_elem_of_fmap. by apply H4.
  - cbn [pair_loop]. destruct Hinv as [H1 H2 H3 H4 H5 H6 H7].
    assert ((a, ra) ∈ players) as Ha by (rewrite Hsplit; set_solver).
    assert (a ∈ players.*1) as Hai by (apply list_elem_of_fmap; by exists (a, ra)).
    assert (players = (dn ++ [(a, ra)]) ++ todo) as Hsplit' by (by rewrite <- app_assoc).
    case_decide as Hm.
    { apply (IH _ _ _ _ Hsplit'). split; try done.
      intros x [Hx| ->%list_elem_of_singleton]%elem_of_app; [by apply H4|done]. }
    destruct (window_search ra (a :: matched) players) as (cs & -> & Hcs & Hno).
    cbn [mbind res_bind]. destruct cs as [|c cs].
    + apply (IH _ _ _ _ Hsplit'). split.
      * rewrite app_assoc, H1. apply Permutation_app_comm.
      * by apply NoDup_cons.
      * intros i [-> |Hi]%elem_of_cons; [done|by apply H3].
      * intros x [Hx| ->%list_elem_of_singleton]%elem_of_app; [right; by apply H4|by left].
      * done.
      * assert (∀ b, b ∈ bye → far players b a) as Hfar by (intros b Hb; by apply (H7 b (a, ra))).
        clear -H6 Hfar. induction H6 as [|b bye Hs IHs Hb]; simpl; [by repeat constructor|].
        constructor; [apply IHs; intros ??; apply Hfar; by right|].
        apply Forall_app. split; [done|]. repeat constructor. apply Hfar. by left.
      * intros b x [Hb| ->%list_elem_of_singleton]%elem_of_app Hx Hxm.
        -- apply H7; [done|done|]. intros ?. apply Hxm. by right.
        -- intros ra' rx Ha' Hx'. rewrite (player_unique players a ra' ra) by done.
           apply (Hno eq_refl); [done|done].
    + set (l := c :: cs) in *.
      assert (∃ o, l !! (rnd (List.length pairs) `mod` List.length l)%nat = Some o) as [o Ho].
      { apply lookup_lt_is_Some_2, Nat.mod_upper_bound. done. }
      rewrite Ho. cbn [or_raise]. apply list_elem_of_lookup_2 in Ho.
      destruct (Hcs o Ho) as (Hop & Hom & Hoc). apply not_elem_of_cons in Hom as [Hoa Hom].
      assert (o.1 ∈ players.*1) as Hoi by (by apply list_elem_of_fmap_2).
      apply (IH _ _ _ _ Hsplit'). split.
      * unfold paired. rewrite bind_app. cbn. fold (paired pairs).
        rewrite <- H1. solve_Permutation.
      * apply NoDup_cons. split; [apply not_elem_of_cons; done|by apply NoDup_cons].
      * intros i [-> |[-> |Hi]%elem_of_cons]%elem_of_cons; [done|done|by apply H3].
      * intros x [Hx| ->%list_elem_of_singleton]%elem_of_app; [|right; by left].
        do 2 right. by apply H4.
      * intros a' b' [Hab|[= -> ->]%list_elem_of_singleton]%elem_of_app; [by apply H5|].
        exists ra, o.2. by destruct o.
      * done.
      * intros b x Hb Hx Hxm. apply H7; [done|done|]. intros ?. apply Hxm. by do 2 right.
Qed.

(** C24. On players with distinct ids the pairing of a testcase always ends;
    every player is either in exactly one pair or left out; the ratings of
    the two players of a pair differ by at most the widest window (600), and
    those of any two players left out by more. *)
Theorem pairing_complete (players : list (Z * float)) (rnd : nat → nat) :
  NoDup (players.*1) →
  ∃ pairs bye, pair_players players rnd = Ok (pairs, bye) ∧ pairing players pairs bye.
Proof.
  intros Hnd. apply (pair_loop_inv players []); [done|done|]. split; try done.
  - apply NoDup_nil_2.
  - by intros a ?%elem_of_nil.
  - by intros x ?%elem_of_nil.
  - by intros a b ?%elem_of_nil.
  - constructor.
  - by intros a x ?%elem_of_nil.
Qed.

(** ** The end of a match *)

Definition find_row {A} (key : A → Z) (i : Z) (l : list A) : option A :=
  head (filter (λ x, key x = i) l).

Lemma row_run {A} (key : A → Z) table i (s : PvpState) :
  row key table i s = (Ok (find_row key i (table (db s))), s).
Proof. done. Qed.

Lemma related_pure {A} (key : A → Z) table i (s : PvpState) :
  related key table i s = (or_raise AttributeError (find_row key i (table (db s))), s).
Proof. done. Qed.

Lemma related_run {A} (key : A → Z) table i (s : PvpState) x :
  find_row key i (table (db s)) = Some x → related key table i s = (Ok x, s).
Proof. intros H. rewrite related_pure. by rewrite H. Qed.

Lemma find_replace {A} (key : A → Z) i f (l : list A) x :
  (∀ y, key (f y) = key y) → find_row key i l = Some x →
  find_row key i (replace_row key i f l) = Some (f x).
Proof.
  intros Hk. unfold find_row, replace_row. induction l as [|y l IH]; [done|].
  cbn [fmap list_fmap]. rewrite !filter_cons. destruct (decide (key y = i)) as [Hy|Hy].
  - rewrite decide_True by (by rewrite Hk). by intros [= ->].
  - rewrite decide_False by done. done.
Qed.

(** *** Ratings and the power operator *)

Lemma fabs_fopp x : fabs (fopp x) = fabs x.
Proof. by destruct x. Qed.

(** The two players of a match see the same distance. *)
Lemma fabs_fsub x y : fabs (fsub x y) = fabs (fsub y x).
Proof.
  destruct x as [[]|[]| |sx mx ex], y as [[]|[]| |sy my ey]; try done.
  unfold fsub, SFsub. rewrite (Z.min_comm ey ex). set (ez := Z.min ex ey).
  set (a := cond_Zopp sx _). set (b := cond_Zopp sy _).
  replace (b - a)%Z with (- (a - b))%Z by lia. unfold binary_normalize.
  destruct (a - b)%Z as [|p|p]; simpl; [done|by rewrite round_opp, fabs_fopp..].
Qed.

Lemma one_plus_not_zero p : fvalid p = true → feqb (fadd (of_Z 1) p) f0 = false.
Proof.
  intros Hp. destruct (feqb (fadd (of_Z 1) p) f0) eqn:He; [|done].
  pose proof (fadd_ge_l f1 p fvalid_1 Hp) as Hle. change (of_Z 1) with f1 in He.
  apply feqb_nonneg in He; [|apply fvalid_nonneg, fadd_valid; [apply fvalid_1|done]|done].
  rewrite He in Hle. by vm_compute in Hle.
Qed.

Section match_ended.
Context (fpow : float → float → res float).
Context (float_of_string : string → option float) (frepr : float → string).

(** What Python promises of [**] for the powers that a match needs: a result
    that is representable, of a positive base, is computed (no OverflowError,
    no ZeroDivisionError) and is not negative. The exponents are those of
    ratings at most a window apart and of a round of its batch. *)
Record pow_ok : Prop := {
  pow_ten d : fleb (fabs d) (of_Z max_window) = true →
    ∃ p, fpow (of_Z 10) (fdiv d (of_Z 400)) = Ok p ∧ fvalid p = true;
  pow_four i n : (0 < i <= n)%Z → is_Ok (fpow (of_Z 4) (fopp (fdiv (of_Z i) (of_Z n))));
}.

Lemma expected_score_ok ra rb :
  pow_ok → fleb (fabs (fsub rb ra)) (of_Z max_window) = true →
  is_Ok (expected_score fpow ra rb).
Proof.
  intros Hp Hd. unfold expected_score, fdiv_py. destruct (pow_ten Hp _ Hd) as (p & -> & Hv).
  cbn [mbind res_bind]. rewrite one_plus_not_zero by done. eexists. done.
Qed.

Lemma update_scores_ok a b ra rb x y k d :
  pow_ok → pd_get d a = Some ra → pd_get d b = Some rb →
  fleb (fabs (fsub rb ra)) (of_Z max_window) = true → feqb (fadd x y) f0 = false →
  is_Ok (update_scores fpow a b x y k d).
Proof.
  intros Hp Ha Hb Hd Hs. unfold update_scores. rewrite Ha, Hb. cbn [or_raise mbind res_bind].
  destruct (expected_score_ok ra rb Hp Hd) as [ea ->]. rewrite fabs_fsub in Hd.
  destruct (expected_score_ok rb ra Hp Hd) as [eb ->]. cbn [mbind res_bind].
  unfold fdiv_py. rewrite Hs. cbn [mbind res_bind].
  rewrite pd_get_set. case_decide; cbn [or_raise mbind res_bind]; [by eexists|].
  rewrite Hb. cbn [or_raise mbind res_bind]. by eexists.
Qed.

Lemma k_factor_ok i n : pow_ok → (0 < i <= n)%Z → (n <= 2 ^ 53)%Z → is_Ok (k_factor fpow i n).
Proof.
  intros Hp Hi Hn. unfold k_factor, fdiv_py. change f0 with (of_Z 0).
  rewrite feqb_of_Z by (unfold exact_int; lia). rewrite (proj2 (Z.eqb_neq n 0)) by lia.
  cbn [mbind res_bind]. destruct (pow_four Hp i n Hi) as [p ->]. by eexists.
Qed.

(** *** What one report does *)

(** One match less to wait for, committed before anything else. *)
Definition counted (rest bid : Z) (s : PvpState) : PvpState :=
  let d := with_batches (replace_row ba_id bid (set_rest_matches rest)) (saved s) in
  set_saved d (set_db d s).

(** The ratings of the batch on every testcase after match [m], or the
    exception that its report raises. *)
Definition new_ratings (s : PvpState) (bid rounds_id rounds : Z) (m : Match) : res (pydict Z elo) :=
  tcid ← or_raise AssertionError (m_testcase_id m);
  r ← or_raise AttributeError (find_row mr_match_id (m_id m) (db_match_results (saved s)));
  _ ← assert (Nat.eqb (List.length (mr_matchings r)) 1);
  g ← or_raise IndexError (mr_matchings r !! 0%nat);
  o ← or_raise AttributeError (mg_outcome g);
  sys ← or_raise KeyError (competition_sys s !! bid);
  ratings ← or_raise KeyError (pd_get sys tcid);
  s1 ← or_raise AttributeError (find_row sub_id (m_submission1_id m) (db_submissions (saved s)));
  s2 ← or_raise AttributeError (find_row sub_id (m_submission2_id m) (db_submissions (saved s)));
  ab ← parse_outcomes float_of_string (Some o);
  k ← k_factor fpow rounds_id rounds;
  ratings ← update_scores fpow (sub_participation_id s1) (sub_participation_id s2) ab.1 ab.2 k ratings;
  Ok (pd_set sys tcid ratings).

(** The executor's queue after asking for the next round of [bid]. *)
Definition enqueued (bid : Z) (q : list Z) : list Z :=
  if decide (bid ∈ q) then q else q ++ [bid].

Definition rated (bid : Z) (sys : pydict Z elo) (s : PvpState) : PvpState :=
  set_competition_sys (<[bid := sys]> (competition_sys s)) s.

(** The end of a report, when the ratings have been updated. *)
Definition conclude (rest bid rounds_id rounds : Z) : Pvp bool := λ s,
  if decide (rest = 0%Z) then
    if decide (rounds_id = rounds) then with_session (_ ← batch_ended frepr bid; mret true) s
    else (Ok false, set_queue (enqueued bid (queue s)) s)
  else (Ok false, s).

(** Running a step that only reads the state. *)
Lemma M_run_pure {S A B} (c : M S A) (f : A → M S B) s r :
  c s = (r, s) → (c ≫= f) s = (lift r ≫= f) s.
Proof. unfold mbind, M_bind, lift. by intros ->. Qed.

Lemma res_bind_Ok_l {A B} (a : A) (f : A → res B) : (Ok a ≫= f) = f a.
Proof. done. Qed.

(** A step of the handler and of the specification that gives [r]. *)
Ltac both s r :=
  rewrite (M_run_pure _ _ s r) by done; destruct r as [?| | |]; [|done..];
  rewrite res_bind_Ok_l; erewrite (M_run_Ok (lift (Ok _)) _ s) by done.

Lemma match_ended_eq s bid m b :
  find_row m_id (m_id m) (db_matches (saved s)) = Some m → m_batch_eval_id m = Some bid →
  find_row ba_id bid (db_batches (saved s)) = Some b →
  let rest := (ba_rest_matches b - 1)%Z in
  match_ended fpow float_of_string frepr (m_id m) s =
    (sys ← lift (new_ratings s bid (ba_rounds_id b) (ba_rounds b) m);
     _ ← modify (rated bid sys);
     conclude rest bid (ba_rounds_id b) (ba_rounds b)) (counted rest bid s).
Proof.
  intros Hm Hmb Hb rest. unfold match_ended, new_ratings.
  set (s0 := set_db (saved s) s). set (s' := counted rest bid s).
  unfold with_session at 1. fold s0.
  rewrite (M_run_Ok _ _ s0 (Some m) s0) by (rewrite row_run; by rewrite <- Hm).
  rewrite Hmb. rewrite (M_run_Ok _ _ s0 b s0) by (by apply related_run). fold rest.
  rewrite (M_run_Ok _ _ s0 tt (set_db (saved s') s0)) by done.
  rewrite (M_run_Ok _ _ (set_db (saved s') s0) tt s') by done.
  both s' (or_raise AssertionError (m_testcase_id m)).
  both s' (or_raise AttributeError (find_row mr_match_id (m_id m) (db_match_results (saved s)))).
  match goal with |- context [assert ?x] => both s' (assert x) end.
  match goal with |- context [mr_matchings ?x !! 0] => both s' (or_raise IndexError (mr_matchings x !! 0)) end.
  match goal with |- context [mg_outcome ?x] => both s' (or_raise AttributeError (mg_outcome x)) end.
  rewrite (M_run_Ok _ _ s' (competition_sys s) s') by done.
  both s' (or_raise KeyError (competition_sys s !! bid)).
  match goal with |- context [pd_get ?x ?y] => both s' (or_raise KeyError (pd_get x y)) end.
  both s' (or_raise AttributeError (find_row sub_id (m_submission1_id m) (db_submissions (saved s)))).
  both s' (or_raise AttributeError (find_row sub_id (m_submission2_id m) (db_submissions (saved s)))).
  match goal with |- context [parse_outcomes ?x ?y] => both s' (parse_outcomes x y) end.
  both s' (k_factor fpow (ba_rounds_id b) (ba_rounds b)).
  match goal with |- context [lift ?x] => both s' x end.
  erewrite (M_run_Ok (lift (Ok _)) _ s') by done.
  rewrite !(M_run_Ok (modify _) _ s' tt _ eq_refl). fold (rated bid (pd_set a4 a a10)).
  set (s2 := rated bid (pd_set a4 a a10) s'). unfold conclude.
  destruct (decide (rest = 0%Z)); [|done]. destruct (decide (ba_rounds_id b = ba_rounds b)); [done|].
  rewrite (M_run_Ok _ _ s2 tt (set_queue (enqueued bid (queue s2)) s2)); [done|].
  unfold new_batch, modify, enqueued. by destruct (decide (bid ∈ queue s2)).
Qed.

(** A report with what follows it: the exception comes after the count. *)
Lemma report_fails s bid m b e :
  find_row m_id (m_id m) (db_matches (saved s)) = Some m → m_batch_eval_id m = Some bid →
  find_row ba_id bid (db_batches (saved s)) = Some b →
  new_ratings s bid (ba_rounds_id b) (ba_rounds b) m = Raise e →
  match_ended fpow float_of_string frepr (m_id m) s = (Raise e, counted (ba_rest_matches b - 1) bid s).
Proof. intros Hm Hmb Hb He. rewrite (match_ended_eq s bid m b) by done. by rewrite He. Qed.

Lemma report_succeeds s bid m b sys :
  find_row m_id (m_id m) (db_matches (saved s)) = Some m → m_batch_eval_id m = Some bid →
  find_row ba_id bid (db_batches (saved s)) = Some b →
  new_ratings s bid (ba_rounds_id b) (ba_rounds b) m = Ok sys →
  match_ended fpow float_of_string frepr (m_id m) s =
    conclude (ba_rest_matches b - 1) bid (ba_rounds_id b) (ba_rounds b)
      (rated bid sys (counted (ba_rest_matches b - 1) bid s)).
Proof. intros Hm Hmb Hb He. rewrite (match_ended_eq s bid m b) by done. by rewrite He. Qed.

(** *** The reports of a round *)

(** The rating of player [p] on a testcase. *)
Definition rating_in (sys : pydict Z elo) (tcid p : Z) : option float :=
  match pd_get sys tcid with Some ratings => pd_get ratings p | None => None end.
Definition rating_of (s : PvpState) (bid tcid p : Z) : option float :=
  match competition_sys s !! bid with Some sys => rating_in sys tcid p | None => None end.

(** [p] is one of the two players of match [m]. *)
Definition plays (s : PvpState) (m : Match) (p : Z) : Prop :=
  ∃ sid sub, sid ∈ [m_submission1_id m; m_submission2_id m] ∧
    find_row sub_id sid (db_submissions (saved s)) = Some sub ∧ sub_participation_id sub = p.

(** Match [m] has been played, on one of the batch's testcases: its outcome is
    two numbers whose sum is not zero, and its players' ratings are at most a
    window apart. *)
Record played (s : PvpState) (bid : Z) (m : Match) (tcid p1 p2 : Z) : Prop := {
  played_testcase : m_testcase_id m = Some tcid;
  played_result : ∃ r g o x y,
    find_row mr_match_id (m_id m) (db_match_results (saved s)) = Some r ∧
    mr_matchings r = [g] ∧ mg_outcome g = Some o ∧
    parse_outcomes float_of_string (Some o) = Ok (x, y) ∧ feqb (fadd x y) f0 = false;
  played_s1 : ∃ s1, find_row sub_id (m_submission1_id m) (db_submissions (saved s)) = Some s1 ∧
    sub_participation_id s1 = p1;
  played_s2 : ∃ s2, find_row sub_id (m_submission2_id m) (db_submissions (saved s)) = Some s2 ∧
    sub_participation_id s2 = p2;
  played_close : ∃ r1 r2, rating_of s bid tcid p1 = Some r1 ∧ rating_of s bid tcid p2 = Some r2 ∧
    fleb (fabs (fsub r2 r1)) (of_Z max_window) = true;
}.

Lemma new_ratings_ok s bid i n m tcid p1 p2 :
  pow_ok → (0 < i <= n)%Z → (n <= 2 ^ 53)%Z → played s bid m tcid p1 p2 →
  is_Ok (new_ratings s bid i n m).
Proof.
  intros Hpow Hi Hn [Ht (r & g & o & x & y & Hr & Hg & Ho & Hxy & Hsum) (s1 & Hs1 & H1) (s2 & Hs2 & H2)
    (r1 & r2 & Hr1 & Hr2 & Hd)].
  unfold rating_of, rating_in in Hr1, Hr2. destruct (competition_sys s !! bid) as [sys|] eqn:Hsys; [|done].
  destruct (pd_get sys tcid) as [ratings|] eqn:Hrt; [|done].
  destruct (k_factor_ok i n Hpow Hi Hn) as [k Hk].
  destruct (update_scores_ok p1 p2 r1 r2 x y k ratings Hpow Hr1 Hr2 Hd Hsum) as [rt Hu].
  exists (pd_set sys tcid rt). unfold new_ratings. rewrite Ht. cbn [or_raise].
  rewrite res_bind_Ok_l, Hr. cbn [or_raise]. rewrite res_bind_Ok_l, Hg. cbn [List.length Nat.eqb assert].
  rewrite res_bind_Ok_l. cbn [lookup list_lookup or_raise]. rewrite res_bind_Ok_l, Ho. cbn [or_raise].
  rewrite res_bind_Ok_l, Hsys. cbn [or_raise]. rewrite res_bind_Ok_l, Hrt. cbn [or_raise].
  rewrite res_bind_Ok_l, Hs1. cbn [or_raise]. rewrite res_bind_Ok_l, Hs2. cbn [or_raise].
  rewrite res_bind_Ok_l, Hxy, res_bind_Ok_l, Hk, res_bind_Ok_l, H1, H2. cbn [fst snd]. by rewrite Hu.
Qed.

(** Only the ratings of the two players change, on the testcase of the match. *)
Lemma new_ratings_frame s bid i n m sys tc p :
  new_ratings s bid i n m = Ok sys → (m_testcase_id m = Some tc → ¬ plays s m p) →
  rating_in sys tc p = rating_of s bid tc p.
Proof.
  unfold new_ratings. intros H Hno.
  apply res_bind_Ok in H as (tcid & Ht & H). apply res_bind_Ok in H as (r & _ & H).
  apply res_bind_Ok in H as (? & _ & H). apply res_bind_Ok in H as (g & _ & H).
  apply res_bind_Ok in H as (o & _ & H). apply res_bind_Ok in H as (sys0 & Hsys & H).
  apply res_bind_Ok in H as (ratings & Hrt & H). apply res_bind_Ok in H as (s1 & Hs1 & H).
  apply res_bind_Ok in H as (s2 & Hs2 & H). apply res_bind_Ok in H as (ab & _ & H).
  apply res_bind_Ok in H as (k & _ & H). apply res_bind_Ok in H as (rt & Hu & [= <-]).
  unfold rating_of. destruct (m_testcase_id m) as [t|] eqn:Hmt; [|done]. cbn in Ht. injection Ht as Ht. subst t.
  destruct (competition_sys s !! bid) as [sys1|] eqn:Hx; [|done]. cbn in Hsys. injection Hsys as Hsys. subst sys1.
  destruct (pd_get sys0 tcid) as [rt1|] eqn:Hy; [|done]. cbn in Hrt. injection Hrt as Hrt. subst rt1.
  destruct (find_row sub_id (m_submission1_id m) _) as [x1|] eqn:Hf1; [|done]. cbn in Hs1. injection Hs1 as Hs1. subst x1.
  destruct (find_row sub_id (m_submission2_id m) _) as [x2|] eqn:Hf2; [|done]. cbn in Hs2. injection Hs2 as Hs2. subst x2.
  unfold rating_in. rewrite pd_get_set. case_decide as He; [|done]. subst tc.
  rewrite Hy. destruct (update_scores_frame _ _ _ _ _ _ _ _ Hu) as [_ Hf].
  apply Hf; intros ->; apply Hno; [done| |done|].
  - exists (m_submission1_id m), s1. split; [by left|done].
  - exists (m_submission2_id m), s2. split; [by right; left|done].
Qed.

(** [match_ended] called for each of [ms], in order, each call on its own: an
    exception goes to the caller of that call. *)
Definition after_reports (ms : list Match) (s : PvpState) : PvpState :=
  foldl (λ s m, (match_ended fpow float_of_string frepr (m_id m) s).2) s ms.

(** What the reports of [ms], not the last of the round, leave of [s]. *)
Record reported (ms : list Match) (bid : Z) (b : Batch) (s s' : PvpState) : Prop := {
  rp_matches : db_matches (saved s') = db_matches (saved s);
  rp_results : db_match_results (saved s') = db_match_results (saved s);
  rp_submissions : db_submissions (saved s') = db_submissions (saved s);
  rp_batch : find_row ba_id bid (db_batches (saved s')) =
    Some (set_rest_matches (ba_rest_matches b - Z.of_nat (List.length ms)) b);
  rp_queue : queue s' = queue s;
  rp_calls : calls s' = calls s;
  rp_ratings tc p : (∀ m, m ∈ ms → m_testcase_id m = Some tc → ¬ plays s m p) →
    rating_of s' bid tc p = rating_of s bid tc p;
}.

Definition of_batch (s : PvpState) (bid : Z) (m : Match) : Prop :=
  find_row m_id (m_id m) (db_matches (saved s)) = Some m ∧ m_batch_eval_id m = Some bid.

Lemma reported_refl bid b s :
  find_row ba_id bid (db_batches (saved s)) = Some b → reported [] bid b s s.
Proof. intros Hb. split; try done. rewrite Hb. f_equal. destruct b. unfold set_rest_matches. cbn. f_equal. lia. Qed.

Lemma plays_same s s' m p : db_submissions (saved s') = db_submissions (saved s) → plays s' m p ↔ plays s m p.
Proof. intros Hs. unfold plays. by rewrite Hs. Qed.

Lemma reported_snoc ms bid b s s1 m :
  reported ms bid b s s1 → of_batch s bid m → (Z.of_nat (List.length ms) + 1 < ba_rest_matches b)%Z →
  reported (ms ++ [m]) bid b s (match_ended fpow float_of_string frepr (m_id m) s1).2.
Proof.
  intros [H1 H2 H3 H4 H5 H6 H7] [Hm Hmb] Hlt. rewrite <- H1 in Hm.
  set (b1 := set_rest_matches _ b) in H4. pose proof (match_ended_eq s1 bid m b1 Hm Hmb H4) as He.
  cbv zeta in He. replace (ba_rest_matches b1 - 1)%Z
    with (ba_rest_matches b - Z.of_nat (List.length (ms ++ [m])))%Z in He
    by (rewrite length_app; cbn; lia).
  set (rest := (ba_rest_matches b - Z.of_nat (List.length (ms ++ [m])))%Z) in *.
  assert (rest ≠ 0%Z) as Hr by (subst rest; rewrite length_app; cbn; lia).
  change (ba_rounds_id b1) with (ba_rounds_id b) in He. change (ba_rounds b1) with (ba_rounds b) in He.
  set (s2 := counted rest bid s1).
  assert (find_row ba_id bid (db_batches (saved s2)) = Some (set_rest_matches rest b)) as Hb.
  { subst s2. cbn [counted saved set_saved set_db with_batches db_batches].
    by rewrite (find_replace ba_id bid (set_rest_matches rest) _ b1) by done. }
  assert (∀ tc p, (∀ m', m' ∈ ms ++ [m] → m_testcase_id m' = Some tc → ¬ plays s m' p) →
    rating_of s1 bid tc p = rating_of s bid tc p ∧ (m_testcase_id m = Some tc → ¬ plays s1 m p)) as Hno.
  { intros tc p Hp. split.
    - apply H7. intros m' Hm'. apply Hp. set_solver.
    - intros Ht. rewrite (plays_same s) by done. apply Hp; [set_solver|done]. }
  rewrite He. destruct (new_ratings s1 bid (ba_rounds_id b) (ba_rounds b) m) as [sys| | |] eqn:Hn.
  2-4: cbn; split; try done; intros tc p Hp; by apply Hno.
  erewrite (M_run_Ok (lift (Ok _)) _ s2) by done.
  rewrite (M_run_Ok (modify _) _ s2 tt _ eq_refl). unfold conclude. rewrite decide_False by done.
  cbn [snd]. split; try done. intros tc p Hp. destruct (Hno tc p Hp) as [H8 H9]. rewrite <- H8.
  unfold rating_of at 1. cbn [rated competition_sys set_competition_sys]. rewrite lookup_insert_eq.
  by apply (new_ratings_frame s1 bid (ba_rounds_id b) (ba_rounds b) m).
Qed.

Lemma after_reports_reported ms n bid b s :
  Forall (of_batch s bid) ms → find_row ba_id bid (db_batches (saved s)) = Some b →
  ba_rest_matches b = Z.of_nat (List.length ms + S n) → reported ms bid b s (after_reports ms s).
Proof.
  intros Hms Hb Hr. assert (∀ k, k ≤ List.length ms → reported (take k ms) bid b s (after_reports (take k ms) s)) as H.
  { induction k as [|k IH]; intros Hk; [by apply reported_refl|].
    destruct (lookup_lt_is_Some_2 ms k ltac:(lia)) as [m Hm]. rewrite (take_S_r _ _ _ Hm).
    unfold after_reports. rewrite foldl_app. cbn. apply reported_snoc; [apply IH; lia| |].
    - by eapply Forall_lookup_1.
    - rewrite length_take. lia. }
  specialize (H (List.length ms) ltac:(lia)). by rewrite firstn_all in H.
Qed.

Lemma played_reported ms bid b s s' m tcid p1 p2 :
  reported ms bid b s s' → played s bid m tcid p1 p2 →
  (∀ m', m' ∈ ms → m_testcase_id m' = Some tcid → ∀ p, plays s m' p → p ≠ p1 ∧ p ≠ p2) →
  played s' bid m tcid p1 p2.
Proof.
  intros [H1 H2 H3 _ _ _ H7] [Ht Hr Hs1 Hs2 Hc] Hno. split; [done| | | |].
  - by rewrite H2.
  - by rewrite H3.
  - by rewrite H3.
  - rewrite !H7; [done| |]; intros m' Hm' Ht' Hp; destruct (Hno m' Hm' Ht' _ Hp); done.
Qed.

(** Two matches on one testcase share no player. *)
Definition apart (s : PvpState) (m m' : Match) : Prop :=
  m_testcase_id m = m_testcase_id m' → ∀ p, plays s m p → ¬ plays s m' p.

(** C23. When the matches of a round are reported one by one, in any order,
    and whatever their results are:
    - before each report the number of matches to wait for, in the database,
      is that of the matches not yet reported, nothing has been asked of the
      other services and no next round has been requested;
    - the report of a match whose result cannot be used (it is missing, it is
      not two numbers, their sum is zero, a power overflows) raises that
      exception; it counts all the same, so that when it is the last of the
      round nothing requests the next round or ends the batch;
    - any other report changes the ratings, and when it is the last of the
      round it requests the next round (once) or, in the last round, ends the
      batch;
    - when the matches of a testcase share no player, as those of a round do,
      no report fails of a match with an outcome of two numbers whose sum is
      not zero and players whose ratings were at most a window apart. *)
Theorem round_accounting (s : PvpState) (bid : Z) (b : Batch) (ms1 : list Match) (m : Match) (ms2 : list Match) :
  Forall (of_batch s bid) (ms1 ++ m :: ms2) →
  find_row ba_id bid (db_batches (saved s)) = Some b →
  ba_rest_matches b = Z.of_nat (List.length (ms1 ++ m :: ms2)) →
  let s1 := after_reports ms1 s in
  let s2 := counted (Z.of_nat (List.length ms2)) bid s1 in
  let result := new_ratings s1 bid (ba_rounds_id b) (ba_rounds b) m in
  let report := match_ended fpow float_of_string frepr (m_id m) s1 in
  find_row ba_id bid (db_batches (saved s1)) =
    Some (set_rest_matches (Z.of_nat (List.length (m :: ms2))) b) ∧
  queue s1 = queue s ∧ calls s1 = calls s ∧
  find_row ba_id bid (db_batches (saved s2)) =
    Some (set_rest_matches (Z.of_nat (List.length ms2)) b) ∧
  (∀ e, result = Raise e → report = (Raise e, s2)) ∧
  (∀ sys, result = Ok sys →
    let s3 := set_competition_sys (<[bid := sys]> (competition_sys s1)) s2 in
    report =
      if decide (ms2 ≠ []) then (Ok false, s3)
      else if decide (ba_rounds_id b = ba_rounds b)
        then with_session (_ ← batch_ended frepr bid; mret true) s3
        else (Ok false, set_queue (enqueued bid (queue s)) s3)) ∧
  (pow_ok → (0 < ba_rounds_id b <= ba_rounds b)%Z → (ba_rounds b <= 2 ^ 53)%Z →
    Forall (λ m', apart s m' m) ms1 → (∃ tcid p1 p2, played s bid m tcid p1 p2) → is_Ok result).
Proof.
  intros Hms Hb Hrest s1 s2 result report. apply Forall_app in Hms as [Hms1 [Hm _]%Forall_cons].
  assert (reported ms1 bid b s s1) as Hrp.
  { apply (after_reports_reported ms1 (List.length ms2)); [done|done|]. rewrite Hrest, length_app. cbn. lia. }
  pose proof (rp_batch _ _ _ _ _ Hrp) as Hb1.
  replace (ba_rest_matches b - Z.of_nat (List.length ms1))%Z
    with (Z.of_nat (List.length (m :: ms2))) in Hb1 by (rewrite Hrest, length_app; lia).
  set (b1 := set_rest_matches _ b) in Hb1. destruct Hm as [Hm Hmb].
  assert (find_row m_id (m_id m) (db_matches (saved s1)) = Some m) as Hm1 by (by rewrite (rp_matches _ _ _ _ _ Hrp)).
  assert (ba_rest_matches b1 - 1 = Z.of_nat (List.length ms2))%Z as Hr1 by (cbn; lia).
  split_and!; [exact Hb1|apply Hrp|apply Hrp| | | |].
  - cbn [s2 counted saved set_saved set_db with_batches db_batches].
    by rewrite (find_replace ba_id bid (set_rest_matches _) _ b1) by done.
  - intros e He. subst report s2. rewrite <- Hr1. by apply (report_fails s1 bid m b1).
  - intros sys He. unfold report. rewrite (report_succeeds s1 bid m b1 sys) by done. rewrite Hr1. fold s2.
    unfold conclude, rated. change (ba_rounds_id b1) with (ba_rounds_id b). change (ba_rounds b1) with (ba_rounds b).
    change (competition_sys s2) with (competition_sys s1).
    change (queue (set_competition_sys (<[bid:=sys]> (competition_sys s1)) s2)) with (queue s1).
    rewrite (rp_queue _ _ _ _ _ Hrp). destruct ms2 as [|m2 ms2].
    + rewrite (decide_True (P := Z.of_nat (List.length (@nil Match)) = 0%Z)) by done.
      by rewrite (decide_False (P := @nil Match ≠ [])) by (intros H; by apply H).
    + rewrite (decide_False (P := Z.of_nat (List.length (m2 :: ms2)) = 0%Z)) by (cbn; lia).
      by rewrite (decide_True (P := m2 :: ms2 ≠ [])) by done.
  - intros Hpow Hi Hn Hap (tcid & p1 & p2 & Hpl). apply (new_ratings_ok s1 bid _ _ m tcid p1 p2); [done|done|done|].
    eapply played_reported; [done|done|]. intros m' Hm' Ht p Hp.
    eapply Forall_forall in Hap; [|done]. pose proof Hpl as [Htm _ (x1 & Hx1 & <-) (x2 & Hx2 & <-) _].
    assert (¬ plays s m p) as Hnp by (apply Hap; [congruence|done]).
    split; intros ->; apply Hnp.
    + exists (m_submission1_id m), x1. split; [by left|done].
    + exists (m_submission2_id m), x2. split; [by right; left|done].
Qed.
End match_ended.

(** ** A round *)

Section round.
Context (now : Z) (shuffle : Z → list (Z * float) → list (Z * float)) (rnd : Z → nat → nat).
Hypothesis shuffle_perm : ∀ i l, shuffle i l ≡ₚ l.

(** The tables and dictionaries that [start_round] reads during a round other
    than the first: batch [bid] of task [t], whose active dataset is [ds], is
    in progress; [ps] are its participants with their submissions and [sys]
    the ratings on each testcase. *)
Record arena (s : PvpState) (bid : Z) (t : Task) (ds : Dataset) (ps : pydict Z Z)
    (sys : pydict Z elo) : Prop := {
  arena_batch : is_Some (find_row ba_id bid (db_batches (db s)));
  arena_task : find_row task_id (task_id t) (db_tasks (db s)) = Some t;
  arena_active : task_active_dataset_id t = Some (ds_id ds);
  arena_dataset : find_row ds_id (ds_id ds) (db_datasets (db s)) = Some ds;
  arena_type : ds_task_type ds = "PvP"%string;
  arena_testcases tc : tc ∈ testcases (db s) ds →
    find_row tc_id (tc_id tc) (db_testcases (db s)) = Some tc;
  arena_testcases_nodup : NoDup (tc_id <$> testcases (db s) ds);
  arena_players : NoDup (pd_keys ps);
  arena_submissions p sid : pd_get ps p = Some sid → ∃ sub,
    find_row sub_id sid (db_submissions (db s)) = Some sub ∧ sub_task_id sub = task_id t;
  arena_ratings tc : tc ∈ testcases (db s) ds → ∃ ratings,
    pd_get sys (tc_id tc) = Some ratings ∧ ∀ p, p ∈ pd_keys ps → is_Some (pd_get ratings p);
}.

(** [s] after the creation of [ms]. *)
Definition grow (ms : list Match) (s : PvpState) : PvpState :=
  set_match_seq (match_seq s + Z.of_nat (List.length ms))
    (set_db (with_matches (λ l, l ++ ms) (db s)) s).

Lemma grow_nil s : grow [] s = s.
Proof.
  destruct s as [[]]. unfold grow, set_match_seq, set_db, with_matches. simpl.
  f_equal; [by rewrite app_nil_r|lia].
Qed.

Definition the_match (i bid tcid : Z) (t : Task) (sid1 sid2 : Z) : Match :=
  mkMatch i sid1 sid2 (task_id t) now (Some (task_pvp_batch t)) (Some bid) (Some tcid).

Lemma find_row_key {A} (key : A → Z) i l x : find_row key i l = Some x → key x = i.
Proof. intros [_ H]%head_filter_in. done. Qed.

Lemma create_match_run s bid t ds ps sys ms tc sid1 sid2 sub1 sub2 :
  arena s bid t ds ps sys → tc ∈ testcases (db s) ds →
  find_row sub_id sid1 (db_submissions (db s)) = Some sub1 → sub_task_id sub1 = task_id t →
  find_row sub_id sid2 (db_submissions (db s)) = Some sub2 → sub_task_id sub2 = task_id t →
  let m := the_match (match_seq s + Z.of_nat (List.length ms)) bid (tc_id tc) t sid1 sid2 in
  create_match now sid1 sid2 bid (Some (tc_id tc)) (grow ms s) =
    (Ok (Some m), grow (ms ++ [m]) s).
Proof.
  intros [[b Hb] Ht Ha Hd Hty Htc _ _ _ _] Hin H1 Ht1 H2 Ht2 m. unfold create_match.
  set (g := grow ms s).
  rewrite (M_run_Ok _ _ g (Some sub1) g) by (unfold row; run_goal; by rewrite <- H1).
  rewrite (M_run_Ok _ _ g (Some sub2) g) by (unfold row; run_goal; by rewrite <- H2).
  rewrite decide_False by (rewrite Ht1, Ht2; tauto).
  rewrite (M_run_Ok _ _ g (Some t) g) by (unfold row; run_goal; by rewrite Ht1, <- Ht).
  rewrite (M_run_Ok _ _ g ds g).
  2: { unfold active_dataset. rewrite Ha. rewrite (M_run_Ok _ _ g (ds_id ds) g) by done.
       by apply related_run. }
  rewrite decide_False by (rewrite Hty; tauto).
  rewrite (M_run_Ok _ _ g (Some b) g) by (unfold row; run_goal; by rewrite <- Hb).
  rewrite (M_run_Ok _ _ g (Some tc) g) by (unfold row; run_goal; by rewrite <- (Htc tc Hin)).
  rewrite (M_run_Ok _ _ g (match_seq g) g) by done. cbn [fmap option_fmap option_map].
  rewrite (find_row_key _ _ _ _ Hb), (find_row_key _ _ _ _ H1), (find_row_key _ _ _ _ H2).
  unfold mbind, M_bind, modify, update_db, mret, M_ret. cbn [match_seq g grow set_match_seq].
  fold (the_match (match_seq s + Z.of_nat (List.length ms)) bid (tc_id tc) t sid1 sid2). fold m.
  f_equal. unfold grow. rewrite length_app. simpl List.length.
  unfold g, grow, set_match_seq, set_db, with_matches. simpl. f_equal; [|lia].
  f_equal. by rewrite <- app_assoc.
Qed.

(** The matches of the pairs of a testcase, with consecutive ids. *)
Fixpoint pair_matches (i bid tcid : Z) (t : Task) (ps : pydict Z Z) (pairs : list (Z * Z))
    : list Match :=
  match pairs with
  | [] => []
  | p :: pairs =>
      the_match i bid tcid t (default 0%Z (pd_get ps p.1)) (default 0%Z (pd_get ps p.2))
      :: pair_matches (i + 1) bid tcid t ps pairs
  end.

Lemma pair_matches_run s bid t ds ps sys ms tc pairs :
  arena s bid t ds ps sys → tc ∈ testcases (db s) ds →
  (∀ p, p ∈ pairs → is_Some (pd_get ps p.1) ∧ is_Some (pd_get ps p.2)) →
  let new := pair_matches (match_seq s + Z.of_nat (List.length ms)) bid (tc_id tc) t ps pairs in
  for_acc (match_pair now bid (tc_id tc) ps) ms pairs (grow ms s) =
    (Ok (ms ++ new), grow (ms ++ new) s).
Proof.
  intros Har Htc. revert ms. induction pairs as [|p pairs IH]; intros ms Hp; cbv zeta.
  - cbn. by rewrite app_nil_r.
  - cbn [for_acc pair_matches].
    destruct (Hp p ltac:(by left)) as [[sid1 Hs1] [sid2 Hs2]].
    destruct (arena_submissions _ _ _ _ _ _ Har _ _ Hs1) as (sub1 & H1 & Ht1).
    destruct (arena_submissions _ _ _ _ _ _ Har _ _ Hs2) as (sub2 & H2 & Ht2).
    pose proof (create_match_run s bid t ds ps sys ms tc sid1 sid2 sub1 sub2 Har Htc H1 Ht1 H2 Ht2)
      as Hcr. cbv zeta in Hcr. rewrite Hs1, Hs2. cbn [default].
    set (m := the_match _ _ _ _ sid1 sid2) in *.
    rewrite (M_run_Ok _ _ (grow ms s) (ms ++ [m]) (grow (ms ++ [m]) s)).
    2: { unfold match_pair. rewrite Hs1, Hs2.
         rewrite (M_run_Ok _ _ (grow ms s) sid1 (grow ms s)) by done.
         rewrite (M_run_Ok _ _ (grow ms s) sid2 (grow ms s)) by done.
         by rewrite (M_run_Ok _ _ _ _ _ Hcr). }
    rewrite IH by (intros q Hq; apply Hp; by right). cbv zeta.
    rewrite length_app. simpl List.length.
    replace (match_seq s + Z.of_nat (List.length ms + 1))%Z
      with (match_seq s + Z.of_nat (List.length ms) + 1)%Z by lia.
    by rewrite <- app_assoc.
Qed.

Lemma players_of_ok ps ratings :
  (∀ p, p ∈ pd_keys ps → is_Some (pd_get ratings p)) →
  ∃ players, players_of ps ratings = Ok players ∧ players.*1 = pd_keys ps ∧
    ∀ p r, (p, r) ∈ players → pd_get ratings p = Some r.
Proof.
  unfold pd_keys. induction ps as [|[p sid] ps IH]; intros Hr.
  - exists []. split_and!; [done|done|]. by intros ?? ?%elem_of_nil.
  - destruct (Hr p) as [r Hp]; [by left|].
    destruct IH as (players & Hpl & Hk & Hx); [intros q Hq; apply Hr; by right|].
    exists ((p, r) :: players). cbn [players_of]. rewrite Hp, Hpl. split_and!; [done| |].
    + csimpl. by rewrite Hk.
    + intros q r' [[= -> ->]|Hq]%elem_of_cons; [done|by apply Hx].
Qed.

(** What a round is made of: [ms] are its matches, with consecutive new ids,
    when the testcases [done] have been treated. *)
Record round_of (s : PvpState) (bid : Z) (t : Task) (ps : pydict Z Z) (sys : pydict Z elo)
    (done : list Testcase) (ms : list Match) : Prop := {
  round_ids : m_id <$> ms = (λ i, match_seq s + Z.of_nat i)%Z <$> seq 0 (List.length ms);
  round_match m : m ∈ ms → m_batch_eval_id m = Some bid ∧ m_task_id m = task_id t ∧
    ∃ tc, tc ∈ done ∧ m_testcase_id m = Some (tc_id tc);
  round_pairs tc : tc ∈ done → ∃ ratings players pairs bye,
    pd_get sys (tc_id tc) = Some ratings ∧ players.*1 ≡ₚ pd_keys ps ∧
    (∀ p r, (p, r) ∈ players → pd_get ratings p = Some r) ∧ pairing players pairs bye ∧
    (λ m, (Some (m_submission1_id m), Some (m_submission2_id m))) <$>
      filter (λ m, m_testcase_id m = Some (tc_id tc)) ms =
    (λ p, (pd_get ps p.1, pd_get ps p.2)) <$> pairs;
}.

Lemma pair_matches_facts i bid tcid t ps pairs :
  (∀ p, p ∈ pairs → is_Some (pd_get ps p.1) ∧ is_Some (pd_get ps p.2)) →
  let ms := pair_matches i bid tcid t ps pairs in
  m_id <$> ms = (λ j, i + Z.of_nat j)%Z <$> seq 0 (List.length ms) ∧
  (∀ m, m ∈ ms → m_batch_eval_id m = Some bid ∧ m_task_id m = task_id t ∧
                 m_testcase_id m = Some tcid) ∧
  (λ m, (Some (m_submission1_id m), Some (m_submission2_id m))) <$> ms =
    (λ p, (pd_get ps p.1, pd_get ps p.2)) <$> pairs.
Proof.
  revert i. induction pairs as [|p pairs IH]; intros i Hp; cbv zeta.
  - split_and!; [done| |done]. by intros m ?%elem_of_nil.
  - cbn [pair_matches]. destruct (IH (i + 1)%Z) as (H1 & H2 & H3);
      [intros q Hq; apply Hp; by right|]. cbv zeta in H1, H2, H3.
    destruct (Hp p ltac:(by left)) as [[a Ha] [b Hb]]. split_and!.
    + csimpl. rewrite H1. f_equal; [simpl; lia|].
      rewrite <- fmap_S_seq, <- list_fmap_compose. apply list_fmap_ext. intros j x _. simpl. lia.
    + intros m [-> |Hm]%elem_of_cons; [done|by apply H2].
    + csimpl. rewrite H3, Ha, Hb. done.
Qed.

Lemma testcase_round_run s bid t ds ps sys dn ms tc :
  arena s bid t ds ps sys → tc ∈ testcases (db s) ds → tc_id tc ∉ tc_id <$> dn →
  round_of s bid t ps sys dn ms →
  ∃ ms', testcase_round now shuffle rnd bid ps sys ms tc (grow ms s) = (Ok ms', grow ms' s) ∧
         round_of s bid t ps sys (dn ++ [tc]) ms'.
Proof.
  intros Har Htc Hnew [Hids Hms Hpairs].
  destruct (arena_ratings _ _ _ _ _ _ Har tc Htc) as (ratings & Hrt & Hkeys).
  destruct (players_of_ok ps ratings Hkeys) as (players & Hpl & Hpk & Hpr).
  set (shuffled := shuffle (tc_id tc) players).
  assert (shuffled ≡ₚ players) as Hsh by apply shuffle_perm.
  assert (NoDup (shuffled.*1)) as Hnd by (rewrite Hsh, Hpk; apply (arena_players _ _ _ _ _ _ Har)).
  destruct (pair_loop_inv shuffled [] shuffled (rnd (tc_id tc)) [] [] []) as
    (pairs & bye & Hpp & Hpairing); [done|done| |].
  { split; try done; try (by intros ? ?%elem_of_nil); try (by intros ?? ?%elem_of_nil).
    - apply NoDup_nil_2. - constructor. }
  assert (∀ p, p ∈ pairs → is_Some (pd_get ps p.1) ∧ is_Some (pd_get ps p.2)) as Hpp2.
  { intros [a b] Hab. destruct (pairing_close _ _ _ Hpairing a b Hab) as (ra & rb & H1 & H2 & _).
    assert (∀ q r, (q, r) ∈ shuffled → is_Some (pd_get ps q)) as Hq; [|eauto].
    intros q r Hq. apply pd_get_in. rewrite <- Hpk, <- Hsh. apply list_elem_of_fmap.
    by exists (q, r). }
  set (new := pair_matches (match_seq s + Z.of_nat (List.length ms)) bid (tc_id tc) t ps pairs).
  destruct (pair_matches_facts (match_seq s + Z.of_nat (List.length ms)) bid (tc_id tc) t ps pairs
    Hpp2) as (F1 & F2 & F3). fold new in F1, F2, F3.
  exists (ms ++ new). split.
  - unfold testcase_round. set (g := grow ms s).
    rewrite (M_run_Ok _ _ g ratings g) by (by rewrite Hrt).
    rewrite (M_run_Ok _ _ g players g) by (by rewrite Hpl). fold shuffled.
    rewrite (M_run_Ok _ _ g (pairs, bye) g) by (unfold lift, pair_players; by rewrite Hpp).
    by eapply pair_matches_run.
  - split.
    + rewrite fmap_app, Hids, F1, length_app, seq_app, fmap_app. f_equal.
      rewrite (Nat.add_comm 0), <- fmap_add_seq, <- list_fmap_compose.
      apply list_fmap_ext. intros j x _. simpl. lia.
    + intros m [Hm|Hm]%elem_of_app.
      * destruct (Hms m Hm) as (H1 & H2 & tc' & H3 & H4). split_and!; [done|done|].
        exists tc'. split; [apply elem_of_app; by left|done].
      * destruct (F2 m Hm) as (H1 & H2 & H3). split_and!; [done|done|].
        exists tc. split; [apply elem_of_app; right; by left|done].
    + intros tc' [Htc'| ->%list_elem_of_singleton]%elem_of_app; rewrite filter_app.
      * destruct (Hpairs tc' Htc') as (rt & pl & prs & by' & H1 & H2 & H3 & H4 & H5).
        exists rt, pl, prs, by'. split_and!; try done.
        rewrite (filter_none _ new), app_nil_r; [done|]. intros m Hm.
        destruct (F2 m Hm) as (_ & _ & ->). intros [= Heq]. apply Hnew. rewrite Heq.
        apply list_elem_of_fmap. by exists tc'.
      * exists ratings, shuffled, pairs, bye. split_and!; [done|by rewrite Hsh, Hpk| |done|].
        -- intros p r. rewrite Hsh. apply Hpr.
        -- rewrite (filter_none _ ms), (filter_all _ new); [done|..].
           ++ intros m Hm. by apply F2.
           ++ intros m Hm Heq. destruct (Hms m Hm) as (_ & _ & tc' & Htc' & Ht').
              apply Hnew. rewrite Ht' in Heq. injection Heq as Heq. rewrite <- Heq.
              apply list_elem_of_fmap. by exists tc'.
Qed.

Lemma round_run s bid t ds ps sys :
  arena s bid t ds ps sys →
  ∃ ms, for_acc (testcase_round now shuffle rnd bid ps sys) [] (testcases (db s) ds) s =
          (Ok ms, grow ms s) ∧
        round_of s bid t ps sys (testcases (db s) ds) ms.
Proof.
  intros Har.
  destruct (for_acc_total (testcase_round now shuffle rnd bid ps sys)
    (λ dn ms s', s' = grow ms s ∧ round_of s bid t ps sys dn ms)
    (testcases (db s) ds) [] s) as (ms & s' & Hr & -> & Hro).
  - intros pre tc post ms s' Hsplit [-> Hro].
    assert (tc ∈ testcases (db s) ds) as Htc by (rewrite Hsplit; set_solver).
    destruct (testcase_round_run s bid t ds ps sys pre ms tc) as (ms' & Hr & Hro'); try done.
    + pose proof (arena_testcases_nodup _ _ _ _ _ _ Har) as Hnd. rewrite Hsplit in Hnd.
      rewrite fmap_app, fmap_cons in Hnd. apply NoDup_app in Hnd as (_ & Hd & _).
      intros Hin. apply (Hd _ Hin). by left.
    + by exists ms', (grow ms' s).
  - split; [by rewrite grow_nil|]. split; [done|by intros m ?%elem_of_nil|].
    by intros tc ?%elem_of_nil.
  - by exists ms.
Qed.

(** *** Results and messages of the new matches *)

Definition add_results (ds : Dataset) (ms : list Match) (s : PvpState) : PvpState :=
  set_db (with_match_results (λ l, l ++ ((λ m, MR.new (m_id m) (ds_id ds)) <$> ms)) (db s)) s.

Definition get_or_create_result (m : Match) : Pvp unit :=
  ds ← (t ← related task_id db_tasks (m_task_id m); active_dataset t);
  update_db (with_match_results (λ l,
    if existsb (λ r, bool_decide (mr_match_id r = m_id m)
                     && bool_decide (mr_dataset_id r = ds_id ds)) l
    then l else l ++ [MR.new (m_id m) (ds_id ds)])).

Lemma results_loop s t ds ms :
  find_row task_id (task_id t) (db_tasks (db s)) = Some t →
  task_active_dataset_id t = Some (ds_id ds) →
  find_row ds_id (ds_id ds) (db_datasets (db s)) = Some ds →
  (∀ m, m ∈ ms → m_task_id m = task_id t) → NoDup (m_id <$> ms) →
  (∀ m r, m ∈ ms → r ∈ db_match_results (db s) → mr_match_id r ≠ m_id m) →
  for_each get_or_create_result ms s = (Ok tt, add_results ds ms s).
Proof.
  revert s. induction ms as [|m ms IH]; intros s Ht Ha Hd Hms Hnd Hfr.
  - cbn. unfold add_results. destruct s as [[]]. unfold set_db, with_match_results. simpl.
    by rewrite app_nil_r.
  - cbn [for_each]. apply NoDup_cons in Hnd as [Hm Hnd].
    rewrite (M_run_Ok _ _ s tt (add_results ds [m] s)).
    2: { unfold get_or_create_result. rewrite (M_run_Ok _ _ s ds s).
         2: { rewrite (M_run_Ok _ _ s t s)
                by (apply related_run; rewrite (Hms m) by (by left); done).
              unfold active_dataset. rewrite Ha. rewrite (M_run_Ok _ _ s (ds_id ds) s) by done.
              by apply related_run. }
         unfold update_db, modify, add_results. f_equal. f_equal. unfold with_match_results.
         f_equal. destruct (existsb _ _) eqn:He; [|done].
         apply existsb_exists in He as (r & Hr & Hk). apply list_elem_of_In in Hr.
         apply andb_true_iff in Hk as [Hk%bool_decide_eq_true _].
         destruct (Hfr m r); [by left|done|done]. }
    rewrite IH; try done.
    + unfold add_results, set_db, with_match_results. simpl. by rewrite <- app_assoc.
    + intros x Hx. apply Hms. by right.
    + intros x r Hx [Hr| ->%list_elem_of_singleton]%elem_of_app; [apply Hfr; [by right|done]|].
      simpl. intros Heq. apply Hm. rewrite Heq. by apply list_elem_of_fmap_2.
Qed.

Lemma calls_loop ms s :
  for_each (λ m, call_service (NewMatch (m_id m))) ms s =
    (Ok tt, set_calls (calls s ++ ((λ m, NewMatch (m_id m)) <$> ms)) s).
Proof.
  revert s. induction ms as [|m ms IH]; intros s; cbn [for_each].
  - destruct s. unfold set_calls. simpl. by rewrite app_nil_r.
  - rewrite (M_run_Ok _ _ s tt (set_calls (calls s ++ [NewMatch (m_id m)]) s)) by done.
    rewrite IH. unfold set_calls. simpl. by rewrite <- app_assoc.
Qed.

Lemma round_of_ids s bid t ps sys dn ms :
  round_of s bid t ps sys dn ms →
  NoDup (m_id <$> ms) ∧ ∀ m, m ∈ ms → (match_seq s <= m_id m)%Z.
Proof.
  intros [Hids _ _]. split.
  - rewrite Hids. apply NoDup_fmap_2; [intros i j; lia|apply NoDup_seq].
  - intros m Hm. assert (m_id m ∈ m_id <$> ms) as Hi by (by apply list_elem_of_fmap_2).
    rewrite Hids in Hi. apply list_elem_of_fmap in Hi as (i & -> & _). lia.
Qed.

Lemma arena_batches s bid t ds ps sys f :
  (∀ b, ba_id (f b) = ba_id b) → arena s bid t ds ps sys →
  arena (set_db (with_batches (replace_row ba_id bid f) (db s)) s) bid t ds ps sys.
Proof.
  intros Hf [[b Hb] ? ? ? ? ? ? ? ? ?]. split; try done.
  exists (f b). by apply find_replace.
Qed.

(** The state committed by a round that creates [ms]. *)
Definition round_done (s : PvpState) (bid : Z) (b : Batch) (ds : Dataset) (ms : list Match)
    : PvpState :=
  let d := with_batches (replace_row ba_id bid (set_rounds_id (ba_rounds_id b + 1))) (saved s) in
  let s1 := grow ms (set_db d s) in
  let d2 := if decide (ms = []) then db s1
            else with_match_results (λ l, l ++ ((λ m, MR.new (m_id m) (ds_id ds)) <$> ms))
                   (with_batches (replace_row ba_id bid
                      (set_rest_matches (Z.of_nat (List.length ms)))) (db s1)) in
  set_calls (calls s ++ ((λ m, NewMatch (m_id m)) <$> ms)) (set_saved d2 (set_db d2 s1)).

Lemma execute_round s bid b t ds ps sys :
  let s0 := set_db (saved s) s in
  find_row ba_id bid (db_batches (saved s)) = Some b → ba_task_id b = task_id t →
  arena s0 bid t ds ps sys →
  participations s !! bid = Some ps → competition_sys s !! bid = Some sys →
  ba_rounds_id b ≠ 0%Z → (ba_rounds_id b < ba_rounds b)%Z → ba_rest_matches b = 0%Z →
  (∀ r, r ∈ db_match_results (saved s) → (mr_match_id r < match_seq s)%Z) →
  ∃ ms, round_of s0 bid t ps sys (testcases (saved s) ds) ms ∧
        execute now shuffle rnd bid s = (Ok tt, round_done s bid b ds ms).
Proof.
  intros s0 Hb Hbt Har Hps Hsys Hr0 Hr1 Hrest Hfresh.
  set (d := with_batches (replace_row ba_id bid (set_rounds_id (ba_rounds_id b + 1))) (saved s)).
  set (s1 := set_db d s).
  destruct (round_run s1 bid t ds ps sys) as (ms & Hrun & Hro).
  { by apply (arena_batches s0). }
  exists ms. split; [by destruct Hro; split|].
  destruct (round_of_ids _ _ _ _ _ _ _ Hro) as [Hnd Hge].
  pose proof Har as [_ Ht Ha Hd Hty _ _ _ _ _].
  assert (∀ s', db_tasks (db s') = db_tasks (saved s) → db_datasets (db s') = db_datasets (saved s) →
    active_dataset t s' = (Ok ds, s')) as Hact.
  { intros s' E1 E2. unfold active_dataset. rewrite Ha.
    rewrite (M_run_Ok _ _ s' (ds_id ds) s') by done. apply related_run. by rewrite E2. }
  unfold execute, with_session. fold s0.
  rewrite (M_run_Ok _ _ s0 b s0) by (by apply related_run).
  rewrite (M_run_Ok _ _ s0 (Some t) s0) by (unfold row; run_goal; by rewrite Hbt, <- Ht).
  rewrite (M_run_Ok _ _ s0 ds s0) by (by apply Hact).
  rewrite decide_False by (rewrite Hty; tauto).
  assert (∃ r s2, start_round now shuffle rnd bid s0 = (Ok r, s2) ∧
    set_db (saved s2) s2 = round_done s bid b ds ms) as (r & s2 & Hsr & Hfin).
  2: { rewrite (M_run_Ok _ _ s0 r s2 Hsr). unfold mret, M_ret. by rewrite Hfin. }
  unfold start_round.
  rewrite (M_run_Ok _ _ s0 (Some b) s0) by (unfold row; run_goal; by rewrite <- Hb).
  rewrite (M_run_Ok _ _ s0 t s0) by (apply related_run; by rewrite Hbt).
  rewrite (M_run_Ok _ _ s0 ds s0) by (by apply Hact).
  rewrite decide_False by (rewrite Hty; tauto).
  rewrite (M_run_Ok _ _ s0 None s0).
  2: { rewrite decide_False by done. by rewrite (proj2 (Z.leb_gt _ _) Hr1). }
  rewrite (M_run_Ok _ _ s0 (participations s) s0) by done.
  rewrite (M_run_Ok _ _ s0 ps s0) by (by rewrite Hps).
  rewrite (M_run_Ok _ _ s0 (competition_sys s) s0) by done.
  rewrite (M_run_Ok _ _ s0 sys s0) by (by rewrite Hsys).
  rewrite (M_run_Ok _ _ s0 tt s1) by done.
  rewrite (M_run_Ok _ _ s1 tt s1) by (by rewrite Hrest).
  rewrite (M_run_Ok _ _ s1 (testcases (db s1) ds) s1) by done.
  rewrite (M_run_Ok _ _ s1 ms (grow ms s1) Hrun).
  set (g := grow ms s1). rewrite (M_run_Ok _ _ g tt (set_saved (db g) g)) by done.
  set (g1 := set_saved (db g) g).
  set (d1 := with_batches (replace_row ba_id bid (set_rest_matches (Z.of_nat (List.length ms))))
               (db g)).
  rewrite (M_run_Ok _ _ g1 tt (set_db d1 g1)) by done.
  unfold round_done. fold d. fold s1. fold g. fold d1. destruct (decide (ms = [])) as [->|Hne].
  { exists None, (set_db d1 g1). split; [done|]. unfold set_calls. simpl. by rewrite app_nil_r. }
  set (g2 := set_saved d1 (set_db d1 g1)). rewrite (M_run_Ok _ _ _ tt g2) by done.
  rewrite (M_run_Ok _ _ g2 tt (add_results ds ms g2)).
  2: { apply (results_loop g2 t ds ms); try done.
       - intros m Hm. by apply (round_match _ _ _ _ _ _ _ Hro).
       - intros m r Hm Hr Heq. specialize (Hge m Hm). specialize (Hfresh r Hr).
         simpl in Hge. lia. }
  set (g3 := add_results ds ms g2).
  rewrite (M_run_Ok _ _ g3 tt (set_saved (db g3) g3)) by done.
  rewrite (M_run_Ok _ _ _ _ _ (calls_loop ms _)). by eexists _, _.
Qed.

(** C22. In a batch already in progress, [execute] carries out the next round:
    the round counter grows by one; on every testcase the participants are
    paired ([pairing]) and exactly one match per pair, between the
    submissions of the two players, is created with a new id and an empty
    result on the active dataset; the number of matches to wait for is the
    number of matches created; and the evaluation service is told of each of
    them once. In particular a round in which nobody could be paired sends
    nothing and asks for no other round. *)
Theorem round_starts (s : PvpState) (bid : Z) (b : Batch) (t : Task) (ds : Dataset)
    (ps : pydict Z Z) (sys : pydict Z elo) :
  let s0 := set_db (saved s) s in
  find_row ba_id bid (db_batches (saved s)) = Some b → ba_task_id b = task_id t →
  arena s0 bid t ds ps sys →
  participations s !! bid = Some ps → competition_sys s !! bid = Some sys →
  ba_rounds_id b ≠ 0%Z → (ba_rounds_id b < ba_rounds b)%Z → ba_rest_matches b = 0%Z →
  (∀ r, r ∈ db_match_results (saved s) → (mr_match_id r < match_seq s)%Z) →
  ∃ ms s', execute now shuffle rnd bid s = (Ok tt, s') ∧
    round_of s0 bid t ps sys (testcases (saved s) ds) ms ∧
    db_matches (saved s') = db_matches (saved s) ++ ms ∧
    db_match_results (saved s') =
      db_match_results (saved s) ++ ((λ m, MR.new (m_id m) (ds_id ds)) <$> ms) ∧
    find_row ba_id bid (db_batches (saved s')) =
      Some (set_rest_matches (Z.of_nat (List.length ms)) (set_rounds_id (ba_rounds_id b + 1) b)) ∧
    calls s' = calls s ++ ((λ m, NewMatch (m_id m)) <$> ms) ∧ queue s' = queue s.
Proof.
  intros s0 Hb Hbt Har Hps Hsys Hr0 Hr1 Hrest Hfresh.
  destruct (execute_round s bid b t ds ps sys) as (ms & Hro & Hex); try done.
  exists ms, (round_done s bid b ds ms). split_and!; [done|done|..]; unfold round_done.
  - by case_decide.
  - case_decide; [subst; simpl; by rewrite app_nil_r|done].
  - pose proof (find_replace ba_id bid (set_rounds_id (ba_rounds_id b + 1)) _ b
      (λ _, eq_refl) Hb) as Hb1.
    case_decide; [|by apply (find_replace ba_id bid (set_rest_matches _))].
    subst ms. simpl. rewrite Hb1. clear -Hrest. destruct b. simpl in *. by subst.
  - done.
  - done.
Qed.
End round.

(** ** A concrete batch

    Batch 7 of task 1, in its first of three rounds, with matches 20 and 21
    already played. *)

(** A power of a base that is not zero; zero has no negative power. *)
Definition demo_pow (x y : float) : res float :=
  if feqb x f0 && fltb y f0 then Raise ZeroDivisionError else Ok (of_Z 1).
Definition demo_float (s : string) : option float :=
  if bool_decide (s = "1.0"%string) then Some (of_Z 1)
  else if bool_decide (s = "0.0"%string) then Some f0 else None.
Definition demo_repr (x : float) : string := "x".

Definition demo_task : Task := mkTask 1 (Some 5%Z) (Some 1%Z) 1 "A task" "max_tokened_last" 0 false "task" (Some 0%Z) ["task.%l"] no_limits.
Definition demo_dataset : Dataset := mkDataset 1 1 false None None "PvP"
  [JString "alone"; JString "std_io"; JString "enabled"; JInt 600; JInt 3; JInt 60] [] "Sum" (JInt 50).

Definition demo_pvp_db (rest : Z) : Db := mkDb
  [mkContest 5 0 9000 [] "contest" "A contest" 0 no_limits] [mkParticipation 1 5 1 false false None; mkParticipation 2 5 2 false false None]
  [demo_task] [demo_dataset] [mkTestcase 1 1 "a" "in" "out" true; mkTestcase 2 1 "b" "in" "out" true]
  [mkSubmission 10 1 1 1000 None true (Some 1%Z) None; mkSubmission 11 2 1 2000 None true (Some 1%Z) None]
  [] []
  [mkMatch 20 10 11 1 3000 (Some 1%Z) (Some 7%Z) (Some 1%Z);
   mkMatch 21 11 10 1 3000 (Some 1%Z) (Some 7%Z) (Some 2%Z)]
  [mkMatchResult 20 1 1 [mkMatching 20 1 1 (Some "1.0 0.0"%string) []] None;
   mkMatchResult 21 1 1 [mkMatching 21 1 2 (Some "0.0 1.0"%string) []] None]
  [mkBatch 7 1 1 1 3 rest BATCH_EVALUATING 2500] [] [] [mkUser 1 "A" "B" "user1"; mkUser 2 "C" "D" "user2"] [] [].

Definition demo_players : elo := [(1%Z, of_Z 1500); (2%Z, of_Z 1520)].

Definition demo_state (rest : Z) : PvpState :=
  mkState (demo_pvp_db rest) (demo_pvp_db rest) 22 12 8
    {[7%Z := [(1%Z, 10%Z); (2%Z, 11%Z)]]}
    {[7%Z := [(1%Z, demo_players); (2%Z, demo_players)]]} [] [] ∅.

Lemma pairing_complete_witness :
  NoDup (demo_players.*1) ∧ pair_players demo_players (λ _, 0) = Ok ([(1, 2)], [])%Z ∧
  ∃ pairs bye, pair_players demo_players (λ _, 0) = Ok (pairs, bye) ∧
               pairing demo_players pairs bye.
Proof.
  assert (NoDup (demo_players.*1)) as Hnd
    by (apply (bool_decide_eq_true_1 (NoDup _)); vm_compute; reflexivity).
  split; [exact Hnd|]. split; [vm_compute; reflexivity|].
  exact (pairing_complete demo_players (λ _, 0) Hnd).
Defined.

Lemma demo_pow_ok : pow_ok demo_pow.
Proof.
  split.
  - intros d _. exists (of_Z 1). split; [|vm_compute; reflexivity]. unfold demo_pow.
    by replace (feqb (of_Z 10) f0) with false by (vm_compute; reflexivity).
  - intros i n _. exists (of_Z 1). unfold demo_pow.
    by replace (feqb (of_Z 4) f0) with false by (vm_compute; reflexivity).
Qed.

Definition demo_match_20 : Match := mkMatch 20 10 11 1 3000 (Some 1%Z) (Some 7%Z) (Some 1%Z).
Definition demo_match_21 : Match := mkMatch 21 11 10 1 3000 (Some 1%Z) (Some 7%Z) (Some 2%Z).

Lemma demo_played_21 : played demo_float (demo_state 2) 7 demo_match_21 2 2 1.
Proof.
  split.
  - reflexivity.
  - eexists _, _, _, _, _. split_and!; vm_compute; reflexivity.
  - eexists. split; vm_compute; reflexivity.
  - eexists. split; vm_compute; reflexivity.
  - exists (of_Z 1520), (of_Z 1500). split_and!; vm_compute; reflexivity.
Qed.

(** The second report is the last: it succeeds and asks for the next round. *)
Lemma round_accounting_witness :
  let s1 := after_reports demo_pow demo_float demo_repr [demo_match_20] (demo_state 2) in
  let report := match_ended demo_pow demo_float demo_repr 21 s1 in
  find_row ba_id 7 (db_batches (saved s1)) = Some (mkBatch 7 1 1 1 3 1 BATCH_EVALUATING 2500) ∧
  report.1 = Ok false ∧ queue report.2 = [7%Z].
Proof.
  destruct (round_accounting demo_pow demo_float demo_repr (demo_state 2) 7
    (mkBatch 7 1 1 1 3 2 BATCH_EVALUATING 2500) [demo_match_20] demo_match_21 [])
    as (Hb & _ & _ & _ & _ & Hok & Hplayed).
  - repeat constructor.
  - reflexivity.
  - reflexivity.
  - destruct (Hplayed demo_pow_ok ltac:(vm_compute; done) ltac:(vm_compute; done)) as [sys Hsys].
    + repeat constructor. intros Ht. by vm_compute in Ht.
    + eexists _, _, _. exact demo_played_21.
    + intros s1 report. split; [exact Hb|]. pose proof (Hok sys Hsys) as Hr. cbv zeta in Hr.
      change report with (match_ended demo_pow demo_float demo_repr (m_id demo_match_21) s1).
      unfold s1. rewrite Hr. split; reflexivity.
Defined.

(** The same round when nobody got anything in the second match: the report
    divides by zero, and nothing asks for the next round any more. *)
Example last_report_fails :
  let no_points d := with_match_results (fmap (λ r,
    if decide (mr_match_id r = 21%Z) then
      mkMatchResult 21 1 1 [mkMatching 21 1 2 (Some "0.0 0.0"%string) []] None else r)) d in
  let s := set_saved (no_points (saved (demo_state 2))) (demo_state 2) in
  let s1 := after_reports demo_pow demo_float demo_repr [demo_match_20] s in
  let report := match_ended demo_pow demo_float demo_repr 21 s1 in
  report.1 = Raise ZeroDivisionError ∧ queue report.2 = [] ∧
  find_row ba_id 7 (db_batches (saved report.2)) = Some (mkBatch 7 1 1 1 3 0 BATCH_EVALUATING 2500).
Proof. split_and!; vm_compute; reflexivity. Qed.

Lemma demo_arena :
  arena (set_db (saved (demo_state 0)) (demo_state 0)) 7 demo_task demo_dataset
    [(1%Z, 10%Z); (2%Z, 11%Z)] [(1%Z, demo_players); (2%Z, demo_players)].
Proof.
  split; try reflexivity.
  - eexists. vm_compute. reflexivity.
  - intros tc Htc. repeat (apply elem_of_cons in Htc as [-> |Htc]; [reflexivity|]).
    by apply elem_of_nil in Htc.
  - apply (bool_decide_eq_true_1 (NoDup _)). vm_compute. reflexivity.
  - apply (bool_decide_eq_true_1 (NoDup _)). vm_compute. reflexivity.
  - intros p sid Hp. apply pd_get_Some_in in Hp.
    repeat (apply elem_of_cons in Hp as [[= -> ->] |Hp]; [by eexists|]).
    by apply elem_of_nil in Hp.
  - intros tc Htc. exists demo_players. split.
    + repeat (apply elem_of_cons in Htc as [-> |Htc]; [reflexivity|]).
      by apply elem_of_nil in Htc.
    + intros p Hp. repeat (apply elem_of_cons in Hp as [-> |Hp]; [by eexists|]).
      by apply elem_of_nil in Hp.
Qed.

Lemma round_starts_witness :
  ∃ ms s', execute 4000 (λ _ l, l) (λ _ _, 0) 7 (demo_state 0) = (Ok tt, s') ∧
    db_matches (saved s') = db_matches (saved (demo_state 0)) ++ ms ∧
    calls s' = calls (demo_state 0) ++ ((λ m, NewMatch (m_id m)) <$> ms).
Proof.
  destruct (round_starts 4000 (λ _ l, l) (λ _ _, 0) (λ _ l, Permutation_refl l) (demo_state 0) 7
    (mkBatch 7 1 1 1 3 0 BATCH_EVALUATING 2500) demo_task demo_dataset
    [(1%Z, 10%Z); (2%Z, 11%Z)] [(1%Z, demo_players); (2%Z, demo_players)])
    as (ms & s' & Hr & _ & Hm & _ & _ & Hc & _).
  - reflexivity.
  - reflexivity.
  - exact demo_arena.
  - reflexivity.
  - reflexivity.
  - done.
  - reflexivity.
  - reflexivity.
  - intros r Hr. repeat (apply elem_of_cons in Hr as [-> |Hr]; [reflexivity|]).
    by apply elem_of_nil in Hr.
  - exists ms, s'. exact (conj Hr (conj Hm Hc)).
Defined.
