(* ===== verification/Phase.v ===== *)
(** * Contest phases (cms/server/contest/phase_management.py,
    Contest.phase of cms/db/contest.py)

    Datetimes and timedeltas are numbers of microseconds. *)

From S2P Require Import Prelude.
Local Open Scope Z_scope.

Record phase_info : Type := mkPhase {
  actual_phase : Z;
  current_phase_begin : option Z;
  current_phase_end : option Z;
  actual_start : option Z;
  actual_stop : option Z;
}.

Section phase.
Context (contest_start contest_stop : Z) (analysis_start analysis_stop : option Z).
Context (per_user_time starting_time : option Z) (delay_time extra_time : Z).

(** The contest is USACO-like and the user has not started. *)
Definition waiting_phase (timestamp : Z) : res phase_info :=
  if (contest_start <=? timestamp) && (timestamp <=? contest_stop) then
    Ok (mkPhase (-1) (Some contest_start) (Some contest_stop) None None)
  else if timestamp <? contest_start then
    Ok (mkPhase (-2) None (Some contest_start) None None)
  else if contest_stop <? timestamp then
    Ok (mkPhase 2 (Some contest_stop) None None None)
  else Raise RuntimeError.

(** The user's own start and stop, before delay and extra time. *)
Definition intended (u : option (Z * Z)) : Z * Z :=
  match u with
  | None => (contest_start, contest_stop)
  | Some (per_user, starting) =>
      (Z.min (Z.max starting contest_start) contest_stop,
       Z.min (Z.max (starting + per_user) contest_start) contest_stop)
  end.

Definition competing_phase (u : option (Z * Z)) (timestamp : Z) : res phase_info :=
  let actual_start := (intended u).1 + delay_time in
  let actual_stop := (intended u).2 + delay_time + extra_time in
  _ ← assert ((contest_start <=? actual_start) && (actual_start <=? actual_stop));
  let mk p b e := Ok (mkPhase p b e (Some actual_start) (Some actual_stop)) in
  if (actual_start <=? timestamp) && (timestamp <=? actual_stop) then
    mk 0 (Some actual_start) (Some actual_stop)
  else if (contest_start <=? timestamp) && (timestamp <? actual_start) then
    mk (-1) (Some contest_start) (Some actual_start)
  else if timestamp <? contest_start then
    mk (-2) None (Some contest_start)
  else if (actual_stop <? timestamp) && (timestamp <=? contest_stop) then
    mk 1 (Some actual_stop) (Some contest_stop)
  else if contest_stop <? timestamp then
    mk 2 (Some (Z.max contest_stop actual_stop)) None
  else Raise RuntimeError.

Definition max_stop (a : Z) (stop : option Z) : Z :=
  match stop with None => a | Some b => Z.max a b end.

(** What becomes of phase +2 when there is an analysis mode. *)
Definition analysis_phase (timestamp : Z) (i : phase_info) : res phase_info :=
  match analysis_start with
  | None => Ok (mkPhase 4 (current_phase_begin i) (current_phase_end i)
                  (actual_start i) (actual_stop i))
  | Some a =>
      _ ← assert (contest_stop <=? a);
      match analysis_stop with
      | None => Raise AssertionError
      | Some z =>
          _ ← assert (a <=? z);
          if timestamp <? a then
            Ok (mkPhase 2 (current_phase_begin i) (Some a) (actual_start i) (actual_stop i))
          else if (a <=? timestamp) && (timestamp <=? z) then
            Ok (mkPhase 3 (Some (max_stop a (actual_stop i))) (Some z)
                  (actual_start i) (actual_stop i))
          else if z <? timestamp then
            Ok (mkPhase 4 (Some (max_stop z (actual_stop i))) None
                  (actual_start i) (actual_stop i))
          else Raise RuntimeError
      end
  end.

Definition compute_actual_phase (timestamp : Z) : res phase_info :=
  _ ← assert (contest_start <=? contest_stop);
  _ ← assert (match per_user_time with None => true | Some p => 0 <=? p end);
  _ ← assert (0 <=? delay_time);
  _ ← assert (0 <=? extra_time);
  i ← match per_user_time, starting_time with
      | Some _, None => waiting_phase timestamp
      | None, _ => competing_phase None timestamp
      | Some p, Some s => competing_phase (Some (p, s)) timestamp
      end;
  if actual_phase i =? 2 then analysis_phase timestamp i else Ok i.

(** What the administration pages enforce on a contest and a participation. *)
Record contest_ok : Prop := {
  ok_contest : contest_start <= contest_stop;
  ok_per_user p : per_user_time = Some p → 0 <= p;
  ok_delay : 0 <= delay_time;
  ok_extra : 0 <= extra_time;
  ok_analysis a : analysis_start = Some a →
    contest_stop <= a ∧ ∃ z, analysis_stop = Some z ∧ a <= z;
}.

Definition after (b : option Z) (t : Z) : Prop := match b with None => True | Some b => b <= t end.
Definition before (t : Z) (e : option Z) : Prop := match e with None => True | Some e => t <= e end.
Definition strictly_after (b : option Z) (t : Z) : Prop :=
  match b with None => True | Some b => b < t end.
Definition strictly_before (t : Z) (e : option Z) : Prop :=
  match e with None => True | Some e => t < e end.

(** The result for each of the three kinds of users, as one case analysis. *)
Ltac phase_cases :=
  repeat (match goal with
  | |- context [?a <=? ?b] => destruct (Z.leb_spec a b)
  | |- context [?a <? ?b] => destruct (Z.ltb_spec a b)
  end; try (exfalso; lia);
  cbn [assert andb mbind res_bind Z.eqb Pos.eqb actual_phase]).

(** The user's window, when it is known. *)
Definition window : option (Z * Z) :=
  match per_user_time, starting_time with
  | Some _, None => None
  | None, _ => Some (intended None)
  | Some p, Some s => Some (intended (Some (p, s)))
  end.

Lemma window_ok a b :
  contest_ok → window = Some (a, b) → contest_start <= a ∧ a <= b ∧ b <= contest_stop.
Proof.
  intros [H1 H2 _ _ _]. unfold window, intended.
  destruct per_user_time as [p|], starting_time as [s|]; try discriminate; intros [= <- <-];
    try lia. specialize (H2 p eq_refl). lia.
Qed.

(** An equivalent description of the phases, by the window and the bounds of
    the analysis mode. *)
Definition competing_spec (u : Z * Z) (timestamp : Z) : phase_info :=
  let a := u.1 + delay_time in
  let b := u.2 + delay_time + extra_time in
  let mk p l r := mkPhase p l r (Some a) (Some b) in
  if timestamp <? contest_start then mk (-2) None (Some contest_start)
  else if timestamp <? a then mk (-1) (Some contest_start) (Some a)
  else if timestamp <=? b then mk 0 (Some a) (Some b)
  else if timestamp <=? contest_stop then mk 1 (Some b) (Some contest_stop)
  else match analysis_start, analysis_stop with
       | Some x, Some z =>
           if timestamp <? x then mk 2 (Some (Z.max contest_stop b)) (Some x)
           else if timestamp <=? z then mk 3 (Some (Z.max x b)) (Some z)
           else mk 4 (Some (Z.max z b)) None
       | _, _ => mk 4 (Some (Z.max contest_stop b)) None
       end.

Definition waiting_spec (timestamp : Z) : phase_info :=
  let mk p l r := mkPhase p l r None None in
  if timestamp <? contest_start then mk (-2) None (Some contest_start)
  else if timestamp <=? contest_stop then mk (-1) (Some contest_start) (Some contest_stop)
  else match analysis_start, analysis_stop with
       | Some x, Some z =>
           if timestamp <? x then mk 2 (Some contest_stop) (Some x)
           else if timestamp <=? z then mk 3 (Some x) (Some z)
           else mk 4 (Some z) None
       | _, _ => mk 4 (Some contest_stop) None
       end.

Definition phase_spec (timestamp : Z) : phase_info :=
  match window with
  | Some u => competing_spec u timestamp
  | None => waiting_spec timestamp
  end.

Lemma competing_phase_spec u timestamp :
  contest_ok → contest_start <= (intended u).1 → (intended u).1 <= (intended u).2 →
  (i ← competing_phase u timestamp;
   if actual_phase i =? 2 then analysis_phase timestamp i else Ok i) =
  Ok (competing_spec (intended u) timestamp).
Proof.
  intros [H1 H2 H3 H4 H5] Ha Hb. unfold competing_phase, competing_spec, analysis_phase.
  destruct (intended u) as [a b]. simpl in Ha, Hb. cbn [fst snd].
  destruct analysis_start as [x|].
  - destruct (H5 x eq_refl) as (Hx & z & -> & Hz). phase_cases; try reflexivity; lia.
  - phase_cases; try reflexivity; lia.
Qed.

Lemma compute_actual_phase_spec timestamp :
  contest_ok → compute_actual_phase timestamp = Ok (phase_spec timestamp).
Proof.
  intros Hok. pose proof Hok as [H1 H2 H3 H4 H5].
  unfold compute_actual_phase, phase_spec.
  rewrite (proj2 (Z.leb_le _ _) H1), (proj2 (Z.leb_le _ _) H3), (proj2 (Z.leb_le _ _) H4).
  pose proof (window_ok) as Hw. unfold window in *.
  destruct per_user_time as [p|].
  - rewrite (proj2 (Z.leb_le _ _) (H2 p eq_refl)). cbn [assert mbind res_bind].
    destruct starting_time as [s|].
    + destruct (Hw _ _ Hok eq_refl) as (? & ? & ?). by apply competing_phase_spec.
    + unfold waiting_phase, waiting_spec, analysis_phase.
      destruct analysis_start as [x|].
      * destruct (H5 x eq_refl) as (Hx & z & -> & Hz). phase_cases; try reflexivity; lia.
      * phase_cases; try reflexivity; lia.
  - cbn [assert mbind res_bind]. destruct (Hw _ _ Hok eq_refl) as (? & ? & ?).
    by apply competing_phase_spec.
Qed.

(** C25. For every contest configuration that the administration accepts,
    [compute_actual_phase] returns at every moment (no assertion fails and the
    "logic doesn't seem to be working" branches are unreachable), with a phase
    between -2 and +4 whose boundaries enclose the moment; the phase at a later
    moment is never smaller; and at every other moment strictly between the
    boundaries the answer is the same. *)
Theorem phases_partition_time (timestamp later : Z) :
  contest_ok →
  ∃ i, compute_actual_phase timestamp = Ok i ∧
    (-2 <= actual_phase i <= 4) ∧
    after (current_phase_begin i) timestamp ∧ before timestamp (current_phase_end i) ∧
    (timestamp <= later → ∃ j, compute_actual_phase later = Ok j ∧
       actual_phase i <= actual_phase j) ∧
    (strictly_after (current_phase_begin i) later → strictly_before later (current_phase_end i) →
       compute_actual_phase later = Ok i).
Proof.
  intros Hok. exists (phase_spec timestamp).
  rewrite !compute_actual_phase_spec by done. split; [done|].
  assert ((-2 <= actual_phase (phase_spec timestamp) <= 4) ∧
    after (current_phase_begin (phase_spec timestamp)) timestamp ∧
    before timestamp (current_phase_end (phase_spec timestamp)) ∧
    (timestamp <= later → actual_phase (phase_spec timestamp) <= actual_phase (phase_spec later)) ∧
    (strictly_after (current_phase_begin (phase_spec timestamp)) later →
     strictly_before later (current_phase_end (phase_spec timestamp)) →
     phase_spec later = phase_spec timestamp)) as (Hp1 & Hp2 & Hp3 & Hp4 & Hp5);
    [|split_and!; [lia|lia|done|done|intros ?; eexists; split; [done|auto]|
        intros ??; f_equal; auto]].
  pose proof Hok as [H1 H2 H3 H4 H5]. pose proof window_ok as Hw. unfold phase_spec.
  destruct window as [[a b]|].
  - destruct (Hw a b Hok eq_refl) as (Ha & Hb & Hc). unfold competing_spec.
    destruct analysis_start as [x|]; [destruct (H5 x eq_refl) as (Hx & z & -> & Hz)|];
      cbn [fst snd]; phase_cases;
      cbn [after before strictly_after strictly_before current_phase_begin current_phase_end];
      split_and!; try lia; intros; try reflexivity; exfalso; lia.
  - unfold waiting_spec.
    destruct analysis_start as [x|]; [destruct (H5 x eq_refl) as (Hx & z & -> & Hz)|];
      phase_cases;
      cbn [after before strictly_after strictly_before current_phase_begin current_phase_end];
      split_and!; try lia; intros; try reflexivity; exfalso; lia.
Qed.
End phase.

Lemma phases_partition_time_witness :
  contest_ok 100 500 (Some 600) (Some 700) (Some 60) 10 20 ∧
  compute_actual_phase 100 500 (Some 600) (Some 700) (Some 60) (Some 480) 10 20 505 =
    Ok (mkPhase 0 (Some 490) (Some 530) (Some 490) (Some 530)) ∧
  ∃ i, compute_actual_phase 100 500 (Some 600) (Some 700) (Some 60) (Some 480) 10 20 505 = Ok i ∧
       -2 <= actual_phase i <= 4.
Proof.
  assert (contest_ok 100 500 (Some 600) (Some 700) (Some 60) 10 20) as Hok.
  { split; try lia; [intros p [= <-]; lia|]. intros a [= <-]. split; [lia|].
    exists 700. split; [reflexivity|lia]. }
  split; [exact Hok|]. split; [vm_compute; reflexivity|].
  destruct (phases_partition_time 100 500 (Some 600) (Some 700) (Some 60) (Some 480) 10 20 505 505
    Hok) as (i & Hi & Hp & _).
  exists i. exact (conj Hi Hp).
Defined.
