(* ===== verification/Tokening.v ===== *)
(** * Tokens (cms/server/contest/tokening.py)

    Datetimes and timedeltas are numbers of microseconds. The number of
    generation periods is what the source computes: a floor division of two
    floats, the seconds passed and the seconds of an interval; the numbers of
    tokens that are computed from it are floats. The integer columns of the
    database have 32 bits, so that they are floats too: an integer is not told
    apart from the float with its value. Not modelled: datetimes after the
    year 9999.

    The theorems are about generation intervals of a whole number of seconds,
    up to 136 years after the start; then the floats are exact
    ([num_periods_eq]). With other intervals they are not:
    [fractional_interval]. *)

From S2P Require Import Prelude PyFloat FloatOrder FloatInt Database.
Local Open Scope Z_scope.

Inductive token_mode : Set := TOKEN_MODE_DISABLED | TOKEN_MODE_FINITE | TOKEN_MODE_INFINITE.

(** The token settings of a contest or of a task. *)
Record TokenParams : Type := mkTokenParams {
  mode : token_mode;
  gen_initial : Z;
  gen_number : Z;
  gen_interval : Z;
  gen_max : option Z;
  max_number : option Z;
  min_interval : Z;
}.

(** Number of tokens, next generation, expiration. *)
Definition availability : Type := float * option Z * option Z.

Section tokens.
Context (p : TokenParams) (start : Z).

(** [(t - start).total_seconds() // gen_interval.total_seconds()] *)
Definition num_periods (t : Z) : res float :=
  floordiv (total_seconds (t - start)) (total_seconds (gen_interval p)).

Definition generate_tokens (begin_timestamp end_timestamp : Z) : res float :=
  num_periods_before_begin ← num_periods begin_timestamp;
  num_periods_before_end ← num_periods end_timestamp;
  Ok (fmul (of_Z (gen_number p)) (fsub num_periods_before_end num_periods_before_begin)).

Definition cap (m : option Z) (avail : float) : float :=
  match m with None => avail | Some m => fmin avail (of_Z m) end.

(** The simulation of the history: the tokens left and the time of the last
    one played. *)
Fixpoint simulate (avail : float) (prev_token_timestamp : Z) (history : list Z) : res (float * Z) :=
  match history with
  | [] => Ok (avail, prev_token_timestamp)
  | next_token_timestamp :: history =>
      _ ← assert (prev_token_timestamp <=? next_token_timestamp);
      n ← generate_tokens prev_token_timestamp next_token_timestamp;
      simulate (fsub (cap (gen_max p) (fadd avail n)) f1) next_token_timestamp history
  end.

Definition _tokens_available (history : list Z) (timestamp : Z) : res availability :=
  match mode p with
  | TOKEN_MODE_DISABLED => Ok (of_Z 0, None, None)
  | TOKEN_MODE_INFINITE => Ok (of_Z (-1), None, None)
  | TOKEN_MODE_FINITE =>
      '(avail, prev) ← simulate (of_Z (gen_initial p)) start history;
      _ ← assert (prev <=? timestamp);
      n ← generate_tokens prev timestamp;
      let avail := cap (gen_max p) (fadd avail n) in
      next_gen_time ←
        (if (0 <? gen_number p)
            && match gen_max p with None => true | Some m => fltb avail (of_Z m) end
         then
           num_periods_so_far ← num_periods timestamp;
           passed ← timedelta_mul (gen_interval p) (fadd num_periods_so_far f1);
           Ok (Some (start + passed))
         else Ok None);
      let remaining := (λ m, m - Z.of_nat (List.length history)) <$> max_number p in
      let '(avail, next_gen_time) :=
        match remaining with
        | Some r => if fleb (of_Z r) avail then (of_Z r, None) else (avail, next_gen_time)
        | None => (avail, next_gen_time)
        end in
      let expiration := match last history with
                        | Some t => t + min_interval p
                        | None => start
                        end in
      let expiration :=
        if (expiration <=? timestamp)
           || (feqb avail f0 && match next_gen_time with None => true | Some _ => false end)
        then None else Some expiration in
      Ok (avail, next_gen_time, expiration)
  end.
End tokens.

(** The combination of the answers for the contest and for the task. *)
Definition combine (c t : availability) : availability :=
  let expiration :=
    match c.2, t.2 with
    | None, e => e
    | e, None => e
    | Some e1, Some e2 => Some (Z.max e2 e1)
    end in
  if feqb c.1.1 (of_Z (-1)) && feqb t.1.1 (of_Z (-1)) then (of_Z (-1), None, expiration)
  else
    let c := if feqb c.1.1 (of_Z (-1)) then (fadd t.1.1 f1, c.1.2, c.2) else c in
    let t := if feqb t.1.1 (of_Z (-1)) then (fadd c.1.1 f1, t.1.2, t.2) else t in
    if fltb c.1.1 t.1.1 then (c.1.1, c.1.2, expiration)
    else if fltb t.1.1 c.1.1 then (t.1.1, t.1.2, expiration)
    else match c.1.2, t.1.2 with
         | Some n1, Some n2 => (t.1.1, Some (Z.max n1 n2), expiration)
         | _, _ => (t.1.1, None, expiration)
         end.

(** A played token: its time, and the id and task of its submission. *)
Record token : Type := mkToken {
  tk_timestamp : Z;
  tk_submission_id : Z;
  tk_task_id : Z;
}.

(** [tokens] are the tokens of the participation by time; [tid] is the task;
    [start] is the start of the contest or of the user. *)
Definition tokens_available (cp tp : TokenParams) (start : Z) (tokens : list token)
    (tid timestamp : Z) : res availability :=
  let token_timestamps := filter (λ k, tk_timestamp k <= timestamp) tokens in
  let contest_history := tk_timestamp <$> token_timestamps in
  let task_history := tk_timestamp <$> filter (λ k, tk_task_id k = tid) token_timestamps in
  res_contest ← _tokens_available cp start contest_history timestamp;
  res_task ← _tokens_available tp start task_history timestamp;
  Ok (combine res_contest res_task).

Definition accept_token (cp tp : TokenParams) (start : Z) (tokens : list token)
    (sid tid timestamp : Z) : res token :=
  a ← tokens_available cp tp start tokens tid timestamp;
  if feqb a.1.1 f0 || is_some a.2 then Raise (UserError "UnacceptableToken")
  else if existsb (λ k, tk_submission_id k =? sid) tokens
  then Raise (UserError "TokenAlreadyPlayed")
  else Ok (mkToken timestamp sid tid).

(** ** One set of parameters *)

(** What the database enforces. *)
Record params_ok (p : TokenParams) : Prop := {
  ok_interval : 0 < gen_interval p;
  ok_number : 0 <= gen_number p;
  ok_initial : 0 <= gen_initial p;
  ok_gen_max m : gen_max p = Some m → gen_initial p <= m;
  ok_max m : max_number p = Some m → 0 < m;
  ok_min_interval : 0 <= min_interval p;
}.

(** A whole number of seconds between generations, and numbers that the
    columns can hold; at most a million tokens at each generation. *)
Record whole_seconds (p : TokenParams) : Prop := {
  whole_interval : ∃ b, gen_interval p = b * 1000000 ∧ b < 2 ^ 52;
  small_number : gen_number p <= 2 ^ 20;
  int_initial : gen_initial p < 2 ^ 31;
  int_gen_max m : gen_max p = Some m → 0 <= m < 2 ^ 31;
  int_max_number m : max_number p = Some m → m < 2 ^ 31;
}.

(** 136 years. *)
Definition HORIZON : Z := 2 ^ 32 * 1000000.

(** No more tokens than this are ever played. *)
Definition MANY : Z := 2 ^ 40.

Section finite.
Context (p : TokenParams) (start : Z) (Hok : params_ok p).

(** The number of whole periods at time [t]. *)
Definition periods (t : Z) : Z := (t - start) / gen_interval p.

Definition capped (m : option Z) (avail : Z) : Z :=
  match m with None => avail | Some m => Z.min avail m end.

(** Tokens at time [t], when [avail] were left at time [prev] and none is
    played in between. *)
Definition later (avail prev t : Z) : Z :=
  capped (gen_max p) (avail + gen_number p * (periods t - periods prev)).

(** Tokens left after a history. *)
Fixpoint left_after (avail prev : Z) (history : list Z) : Z * Z :=
  match history with
  | [] => (avail, prev)
  | t :: history => left_after (later avail prev t - 1) t history
  end.

Fixpoint chronological (prev : Z) (history : list Z) (timestamp : Z) : Prop :=
  match history with
  | [] => prev <= timestamp
  | t :: history => prev <= t ∧ chronological t history timestamp
  end.

Definition limit (history : list Z) (avail : Z) : Z :=
  match max_number p with
  | None => avail
  | Some m => Z.min avail (m - Z.of_nat (List.length history))
  end.

(** Number of tokens available after [history] at time [t]. *)
Definition available (history : list Z) (t : Z) : Z :=
  let '(avail, prev) := left_after (gen_initial p) start history in
  limit history (later avail prev t).

(** The next generation and the expiration that are reported. *)
Definition next_generation (history : list Z) (t : Z) : option Z :=
  let '(avail, prev) := left_after (gen_initial p) start history in
  if (0 <? gen_number p)
     && match gen_max p with None => true | Some m => later avail prev t <? m end
     && match max_number p with
        | None => true
        | Some m => later avail prev t <? m - Z.of_nat (List.length history)
        end
  then Some (start + gen_interval p * (periods t + 1)) else None.

Definition cooldown (history : list Z) : Z :=
  match last history with Some t => t + min_interval p | None => start end.

Definition expiration_of (history : list Z) (t : Z) : option Z :=
  if (cooldown history <=? t)
     || ((available history t =? 0) && negb (is_some (next_generation history t)))
  then None else Some (cooldown history).

Lemma periods_mono t t' : t <= t' → periods t <= periods t'.
Proof.
  intros Ht. unfold periods. pose proof (ok_interval p Hok). apply Z.div_le_mono; lia.
Qed.

(** Until the next multiple of the interval the number of periods is the
    same, and there it grows by one. *)
Lemma periods_next t t' :
  t <= t' → t' < start + gen_interval p * (periods t + 1) →
  periods t' = periods t.
Proof.
  intros Ht Hlt. pose proof (periods_mono t t' Ht) as Hm. unfold periods in *.
  pose proof (ok_interval p Hok).
  assert ((t' - start) / gen_interval p < (t - start) / gen_interval p + 1); [|lia].
  apply Z.div_lt_upper_bound; lia.
Qed.

Lemma periods_at n : periods (start + gen_interval p * n) = n.
Proof.
  unfold periods. pose proof (ok_interval p Hok).
  replace (start + gen_interval p * n - start) with (n * gen_interval p) by lia.
  by rewrite Z.div_mul by lia.
Qed.

Lemma chronological_start q history t : chronological q history t → q <= t.
Proof. revert q. induction history as [|y l IH]; simpl; [done|]. intros q [? ?%IH]. lia. Qed.

Lemma chronological_later q history t t' :
  chronological q history t → t <= t' → chronological q history t'.
Proof.
  intros Hc Ht. revert q Hc. induction history as [|x h IH]; simpl; intros q; [lia|].
  intros [? ?]. split; [done|by apply IH].
Qed.

(** *** The floats are exact *)

Section exact.
Context (Hw : whole_seconds p).

Lemma periods_bound t : start <= t → t < start + HORIZON → 0 <= periods t < 2 ^ 32.
Proof.
  intros Ht Hh. unfold HORIZON in Hh. destruct (whole_interval p Hw) as (b & Hb & _).
  pose proof (ok_interval p Hok). unfold periods. split; [apply Z.div_pos; lia|].
  apply Z.div_lt_upper_bound; lia.
Qed.

Lemma num_periods_eq t :
  start <= t → t < start + HORIZON → num_periods p start t = Ok (of_Z (periods t)).
Proof.
  intros Ht Hh. destruct (whole_interval p Hw) as (b & Hb & Hb'). pose proof (ok_interval p Hok).
  unfold num_periods, periods. rewrite Hb. apply periods_whole; unfold HORIZON in Hh; lia.
Qed.

Lemma generate_eq a b :
  start <= a → a <= b → b < start + HORIZON →
  generate_tokens p start a b = Ok (of_Z (gen_number p * (periods b - periods a))) ∧
  0 <= gen_number p * (periods b - periods a) <= 2 ^ 52.
Proof.
  intros Ha Hab Hb. pose proof (periods_bound a Ha ltac:(lia)). pose proof (periods_bound b ltac:(lia) Hb).
  pose proof (periods_mono a b Hab). pose proof (ok_number p Hok). pose proof (small_number p Hw).
  split; [|nia]. unfold generate_tokens. rewrite !num_periods_eq by lia. cbn [mbind res_bind].
  rewrite fsub_of_Z by (unfold exact_int; lia). by rewrite fmul_of_Z by lia.
Qed.

Lemma cap_eq avail : exact_int avail → cap (gen_max p) (of_Z avail) = of_Z (capped (gen_max p) avail).
Proof.
  intros Ha. unfold cap, capped. destruct (gen_max p) as [m|] eqn:Hm; [|done].
  pose proof (int_gen_max p Hw m Hm). apply fmin_of_Z; [done|]. unfold exact_int. lia.
Qed.

(** What the number of tokens stays within: [k] have been played. *)
Definition within (k avail prev : Z) : Prop :=
  - k <= avail <= gen_initial p + gen_number p * periods prev.

Lemma within_later k avail prev t :
  0 <= k → start <= prev → prev <= t → t < start + HORIZON →
  within k avail prev → within k (later avail prev t) t.
Proof.
  intros Hk Hs Hp Ht [H1 H2]. destruct (generate_eq prev t Hs Hp Ht) as [_ Hg].
  unfold within, later, capped. destruct (gen_max p) as [m|] eqn:Hm; [|lia].
  pose proof (int_gen_max p Hw m Hm). lia.
Qed.

Lemma within_exact k avail t :
  k <= 2 ^ 52 → start <= t → t < start + HORIZON → within k avail t → - 2 ^ 52 <= avail < 2 ^ 53 - 2 ^ 51.
Proof.
  intros Hk Hs Ht [H1 H2]. pose proof (periods_bound t Hs Ht). pose proof (ok_number p Hok).
  pose proof (small_number p Hw). pose proof (int_initial p Hw). nia.
Qed.

Lemma later_eq k avail prev t :
  0 <= k <= 2 ^ 51 → start <= prev → prev <= t → t < start + HORIZON → within k avail prev →
  ∃ n, generate_tokens p start prev t = Ok n ∧
    cap (gen_max p) (fadd (of_Z avail) n) = of_Z (later avail prev t).
Proof.
  intros Hk Hs Hp Ht Hin. destruct (generate_eq prev t Hs Hp Ht) as [Hg Hb].
  pose proof (within_exact k avail prev ltac:(lia) Hs ltac:(lia) Hin) as He.
  eexists. split; [exact Hg|]. rewrite fadd_of_Z by (unfold exact_int; lia).
  rewrite cap_eq; [done|]. destruct Hin as [H1 H2]. unfold exact_int.
  pose proof (periods_bound t ltac:(lia) Ht). pose proof (periods_mono prev t Hp).
  pose proof (periods_bound prev Hs ltac:(lia)).
  pose proof (ok_number p Hok). pose proof (small_number p Hw). pose proof (int_initial p Hw). nia.
Qed.

Lemma simulate_eq k avail prev history timestamp :
  0 <= k → k + Z.of_nat (List.length history) <= 2 ^ 51 → start <= prev →
  timestamp < start + HORIZON → chronological prev history timestamp → within k avail prev →
  let l := left_after avail prev history in
  simulate p start (of_Z avail) prev history = Ok (of_Z l.1, l.2) ∧
  start <= l.2 <= timestamp ∧ within (k + Z.of_nat (List.length history)) l.1 l.2.
Proof.
  revert k avail prev. induction history as [|t history IH]; intros k avail prev Hk Hlen Hs Ht Hc Hin.
  - simpl. rewrite Z.add_0_r. split_and!; done.
  - destruct Hc as [Hpt Hc]. cbn [simulate left_after].
    pose proof (chronological_start _ _ _ Hc) as Htt. rewrite (proj2 (Z.leb_le _ _) Hpt).
    cbn [assert mbind res_bind]. rewrite length_cons in *.
    destruct (later_eq k avail prev t) as (n & Hg & Hl); [lia|done|done|lia|done|].
    rewrite Hg. cbn [mbind res_bind]. rewrite Hl.
    pose proof (within_later k avail prev t Hk Hs Hpt ltac:(lia) Hin) as Hin'.
    pose proof (within_exact k _ t ltac:(lia) ltac:(lia) ltac:(lia) Hin') as He.
    change f1 with (of_Z 1). rewrite fsub_of_Z by (unfold exact_int; lia).
    destruct (IH (k + 1) (later avail prev t - 1) t) as (H1 & H2 & H3); [lia|lia|lia|done|done| |].
    { unfold within in *. lia. }
    split_and!; [exact H1|lia|lia|]. by replace (k + Z.of_nat (S (List.length history)))
      with (k + 1 + Z.of_nat (List.length history)) by lia.
Qed.

Lemma tokens_available_finite history timestamp :
  mode p = TOKEN_MODE_FINITE → chronological start history timestamp →
  Z.of_nat (List.length history) <= MANY → timestamp < start + HORIZON →
  _tokens_available p start history timestamp =
    Ok (of_Z (available history timestamp), next_generation history timestamp,
        expiration_of history timestamp) ∧
  exact_int (available history timestamp).
Proof.
  intros Hm Hc Hlen Ht. unfold MANY in Hlen. unfold _tokens_available. rewrite Hm.
  pose proof (chronological_start _ _ _ Hc) as Hst.
  destruct (simulate_eq 0 (gen_initial p) start history timestamp) as (-> & Hle & Hin);
    [lia|lia|lia|done|done| |].
  { unfold within, periods. rewrite Z.sub_diag, Z.div_0_l by (pose proof (ok_interval p Hok); lia).
    pose proof (ok_initial p Hok). lia. }
  unfold expiration_of, available, next_generation.
  destruct (left_after (gen_initial p) start history) as [avail prev]. cbn [fst snd] in *.
  cbn [mbind res_bind]. rewrite (proj2 (Z.leb_le _ _) (proj2 Hle)). cbn [assert mbind res_bind].
  set (k := 0 + Z.of_nat (List.length history)) in *.
  destruct (later_eq k avail prev timestamp) as (n & Hg & Hl); [lia..|done|done|].
  rewrite Hg. cbn [mbind res_bind]. rewrite Hl.
  pose proof (within_later k avail prev timestamp ltac:(lia) ltac:(lia) ltac:(lia) Ht Hin) as Hin'.
  pose proof (within_exact k _ timestamp ltac:(lia) Hst Ht Hin') as He.
  set (a := later avail prev timestamp) in *. assert (exact_int a) as Ha by (unfold exact_int; lia).
  assert (match gen_max p with None => true | Some m => fltb (of_Z a) (of_Z m) end =
          match gen_max p with None => true | Some m => a <? m end) as ->.
  { destruct (gen_max p) as [m|] eqn:Hgm; [|done]. pose proof (int_gen_max p Hw m Hgm).
    apply fltb_of_Z; [done|]. unfold exact_int. lia. }
  pose proof (periods_bound timestamp Hst Ht) as Hpb.
  rewrite num_periods_eq by done. cbn [mbind res_bind]. change f1 with (of_Z 1).
  rewrite fadd_of_Z by (unfold exact_int; lia).
  rewrite timedelta_mul_of_Z by (unfold exact_int; lia). cbn [mbind res_bind].
  set (next := if (0 <? gen_number p) && _ then Ok _ else Ok None).
  assert (next = Ok (if (0 <? gen_number p) && match gen_max p with None => true | Some m => a <? m end
                     then Some (start + gen_interval p * (periods timestamp + 1)) else None)) as ->
    by (unfold next; by destruct (_ && _)).
  cbn [mbind res_bind]. unfold limit, cooldown. change f0 with (of_Z 0).
  destruct (max_number p) as [m|] eqn:Hmax; cbn [fmap option_fmap option_map].
  - pose proof (int_max_number p Hw m Hmax). pose proof (ok_max p Hok m Hmax).
    rewrite fleb_of_Z by (done || unfold exact_int; lia).
    destruct (Z.leb_spec (m - Z.of_nat (List.length history)) a) as [Hl'|Hl'].
    + rewrite (proj2 (Z.ltb_ge _ _) Hl'), andb_false_r, (Z.min_r a) by lia.
      rewrite feqb_of_Z by (unfold exact_int; lia). split; [done|unfold exact_int; lia].
    + rewrite (proj2 (Z.ltb_lt _ _) Hl'), andb_true_r, (Z.min_l a) by lia.
      rewrite feqb_of_Z by (done || unfold exact_int; lia). split; [|done].
      by destruct ((0 <? gen_number p) && _).
  - rewrite andb_true_r, feqb_of_Z by (done || unfold exact_int; lia). split; [|done].
    by destruct ((0 <? gen_number p) && _).
Qed.

(** When the number of available tokens grows, if nothing is played. *)
Lemma next_generation_grows history timestamp t :
  chronological start history timestamp → timestamp <= t →
  match next_generation history timestamp with
  | None => available history t = available history timestamp
  | Some n => timestamp < n ∧ (t < n → available history t = available history timestamp) ∧
      (t = n → available history timestamp < available history t)
  end.
Proof.
  intros Hc Ht. unfold available, next_generation.
  destruct (left_after (gen_initial p) start history) as [avail prev].
  pose proof (periods_mono timestamp t Ht) as Hmono.
  pose proof (ok_number p Hok) as Hn. pose proof (ok_interval p Hok) as Hi.
  unfold limit, later, capped.
  set (x := avail + gen_number p * (periods timestamp - periods prev)).
  assert (avail + gen_number p * (periods t - periods prev) =
          x + gen_number p * (periods t - periods timestamp)) as Hx
    by (subst x; lia).
  rewrite Hx. set (d := periods t - periods timestamp) in *.
  assert (0 <= gen_number p * d) as Hd by (subst d; nia).
  destruct (Z.ltb_spec 0 (gen_number p)) as [Hpos|Hzero]; cbn [andb].
  2: { assert (gen_number p * d = 0) as -> by (assert (gen_number p = 0) as -> by lia; lia).
       by rewrite Z.add_0_r. }
  assert (timestamp < start + gen_interval p * (periods timestamp + 1)) as Hlt.
  { unfold periods. pose proof (Z.mul_succ_div_gt (timestamp - start) (gen_interval p) Hi). lia. }
  assert (t < start + gen_interval p * (periods timestamp + 1) → d = 0) as Hsame.
  { intros ?. subst d. rewrite (periods_next timestamp t); lia. }
  assert (t = start + gen_interval p * (periods timestamp + 1) → d = 1) as Hone.
  { intros ->. subst d. rewrite periods_at. lia. }
  destruct (gen_max p) as [g|], (max_number p) as [m|];
    repeat match goal with
    | |- context [?a <? ?b] => destruct (Z.ltb_spec a b)
    end; cbn [andb];
    try (split_and!; [done|intros E; rewrite (Hsame E); lia|
                      intros E; rewrite (Hone E); lia]);
    lia.
Qed.


(** C26. In finite mode, with a whole number of seconds between generations,
    a chronological history and up to 136 years after the start,
    [_tokens_available] succeeds, and its "next generation" is exactly the
    first moment at which, if nothing is played, the number of available
    tokens grows: before it the number stays the same, at it the number is
    greater; and when there is no next generation the number never grows.
    (With a fraction of a second it is not: [fractional_interval].) *)
Theorem next_generation_exact (history : list Z) (timestamp : Z) :
  mode p = TOKEN_MODE_FINITE → chronological start history timestamp →
  Z.of_nat (List.length history) <= MANY → timestamp < start + HORIZON →
  ∃ avail next expiration,
    _tokens_available p start history timestamp = Ok (avail, next, expiration) ∧
    ∀ t, timestamp <= t < start + HORIZON → ∃ avail' next' expiration',
      _tokens_available p start history t = Ok (avail', next', expiration') ∧
      match next with
      | None => avail' = avail
      | Some n => timestamp < n ∧ (t < n → avail' = avail) ∧ (t = n → fltb avail avail' = true)
      end.
Proof.
  intros Hm Hc Hlen Ht. destruct (tokens_available_finite history timestamp Hm Hc Hlen Ht) as [Hr He].
  eexists _, _, _. split; [exact Hr|]. intros t [Ht1 Ht2].
  pose proof (chronological_later _ _ _ _ Hc Ht1) as Hc'.
  destruct (tokens_available_finite history t Hm Hc' Hlen Ht2) as [Hr' He'].
  eexists _, _, _. split; [exact Hr'|]. pose proof (next_generation_grows history timestamp t Hc Ht1) as Hg.
  destruct (next_generation history timestamp) as [n|]; [|by rewrite Hg].
  destruct Hg as (H1 & H2 & H3). split_and!; [done|by intros ?%H2; f_equal|].
  intros Hn%H3. rewrite fltb_of_Z by done. by apply Z.ltb_lt.
Qed.
End exact.

(** ** Regular histories *)

(** Every token was played when one was available and the previous one had
    cooled down. *)
Definition regular (history : list Z) : Prop :=
  ∀ pre t post, history = pre ++ t :: post →
    chronological start pre t ∧ 0 < available pre t ∧ cooldown pre <= t.

Lemma left_after_snoc a prev h t :
  left_after a prev (h ++ [t]) =
    (later (left_after a prev h).1 (left_after a prev h).2 t - 1, t).
Proof. revert a prev. induction h as [|x h IH]; intros a prev; simpl; [done|]. apply IH. Qed.

Lemma regular_snoc h t :
  regular h → chronological start h t → 0 < available h t → cooldown h <= t →
  regular (h ++ [t]).
Proof.
  intros Hr Hc Ha Hk pre x post Hsplit.
  destruct post as [|y post' _] using rev_ind.
  - apply app_inj_tail in Hsplit as [-> ->]. done.
  - rewrite app_comm_cons, app_assoc in Hsplit. apply app_inj_tail in Hsplit as [-> _].
    by eapply Hr.
Qed.

Lemma regular_prefix h t : regular (h ++ [t]) → regular h.
Proof.
  intros Hr pre x post ->. apply (Hr pre x (post ++ [t])). by rewrite <- app_assoc.
Qed.

Lemma chronological_last prev h t x :
  chronological prev (h ++ [t]) x ↔ chronological prev h t ∧ t <= x.
Proof.
  revert prev. induction h as [|y h IH]; intros prev; simpl; [done|]. rewrite IH. tauto.
Qed.

Lemma later_ge a prev t : prev <= t → 0 <= a → 0 <= later a prev t.
Proof.
  intros Ht Ha. unfold later. pose proof (periods_mono prev t Ht).
  pose proof (ok_number p Hok). pose proof (ok_initial p Hok).
  unfold capped. destruct (gen_max p) as [m|] eqn:Hm; [|nia].
  pose proof (ok_gen_max p Hok m Hm). nia.
Qed.

Lemma regular_left h t :
  regular h → chronological start h t →
  0 <= (left_after (gen_initial p) start h).1 ∧ (left_after (gen_initial p) start h).2 <= t ∧
  (∀ m, max_number p = Some m → Z.of_nat (List.length h) <= m).
Proof.
  revert t. induction h as [|x h IH] using rev_ind; intros t Hr Hc.
  - split_and!; [apply (ok_initial p Hok)|done|]. intros m Hm.
    pose proof (ok_max p Hok m Hm). simpl. lia.
  - apply chronological_last in Hc as [Hc Hx].
    destruct (IH x (regular_prefix h x Hr) Hc) as (Ha & Hp & Hl).
    destruct (Hr h x [] eq_refl) as (_ & Hav & _). rewrite left_after_snoc.
    unfold available in Hav. destruct (left_after (gen_initial p) start h) as [a prev].
    cbn [fst snd] in *. unfold limit in Hav.
    rewrite length_app. simpl List.length. split_and!.
    + destruct (max_number p); lia.
    + done.
    + intros m Hm. rewrite Hm in Hav. lia.
Qed.

(** After a history in which every token was played when one was
    available, the number of available tokens is never negative, never above
    the cap on generation, and never above what is left of the total number
    of tokens; in particular no more than the total number have been played. *)
Theorem regular_bounds (history : list Z) (timestamp : Z) :
  whole_seconds p → Z.of_nat (List.length history) <= MANY → timestamp < start + HORIZON →
  mode p = TOKEN_MODE_FINITE → regular history → chronological start history timestamp →
  ∃ avail next expiration,
    _tokens_available p start history timestamp = Ok (of_Z avail, next, expiration) ∧
    0 <= avail ∧
    (∀ m, gen_max p = Some m → avail <= m) ∧
    (∀ m, max_number p = Some m → avail + Z.of_nat (List.length history) <= m).
Proof.
  intros Hw Hlen Ht Hm Hr Hc. eexists _, _, _. split; [by apply tokens_available_finite|].
  destruct (regular_left history timestamp Hr Hc) as (Ha & Hp & Hl). unfold available.
  destruct (left_after (gen_initial p) start history) as [a prev]. cbn [fst snd] in *.
  pose proof (later_ge a prev timestamp Hp Ha) as Hge.
  assert (∀ m, gen_max p = Some m → later a prev timestamp <= m) as Hg.
  { intros m Hgm. unfold later, capped. rewrite Hgm. lia. }
  unfold limit. destruct (max_number p) as [m|].
  - specialize (Hl m eq_refl). split_and!; [lia|intros g Hgm; specialize (Hg g Hgm); lia|].
    intros m' [= <-]. lia.
  - split_and!; [done|done|done].
Qed.
End finite.

(** ** Playing a token *)

(** [combine] on integers. *)
Definition zavailability : Type := Z * option Z * option Z.

Definition as_floats (a : zavailability) : availability := (of_Z a.1.1, a.1.2, a.2).

Definition zcombine (c t : zavailability) : zavailability :=
  let expiration :=
    match c.2, t.2 with
    | None, e => e
    | e, None => e
    | Some e1, Some e2 => Some (Z.max e2 e1)
    end in
  if (c.1.1 =? -1) && (t.1.1 =? -1) then (-1, None, expiration)
  else
    let c := if c.1.1 =? -1 then (t.1.1 + 1, c.1.2, c.2) else c in
    let t := if t.1.1 =? -1 then (c.1.1 + 1, t.1.2, t.2) else t in
    if c.1.1 <? t.1.1 then (c.1.1, c.1.2, expiration)
    else if t.1.1 <? c.1.1 then (t.1.1, t.1.2, expiration)
    else match c.1.2, t.1.2 with
         | Some n1, Some n2 => (t.1.1, Some (Z.max n1 n2), expiration)
         | _, _ => (t.1.1, None, expiration)
         end.

Lemma combine_eq c t :
  - 2 ^ 52 <= c.1.1 < 2 ^ 53 → - 2 ^ 52 <= t.1.1 < 2 ^ 53 →
  combine (as_floats c) (as_floats t) = as_floats (zcombine c t).
Proof.
  intros Hc Ht. destruct c as [[c1 c2] c3], t as [[t1 t2] t3]. unfold combine, zcombine, as_floats.
  cbn [fst snd] in *. rewrite !feqb_of_Z by (unfold exact_int; lia). change f1 with (of_Z 1).
  rewrite !fadd_of_Z by (unfold exact_int; lia).
  destruct (Z.eqb_spec c1 (-1)), (Z.eqb_spec t1 (-1)); cbn [andb fst snd]; [done|..];
    rewrite ?fadd_of_Z by (unfold exact_int; lia);
    rewrite !fltb_of_Z by (unfold exact_int; lia);
    repeat match goal with |- context [?a <? ?b] => destruct (Z.ltb_spec a b) end; try done;
    by destruct c2, t2.
Qed.

Lemma zcombine_exact c t :
  - 2 ^ 52 <= c.1.1 < 2 ^ 53 → - 2 ^ 52 <= t.1.1 < 2 ^ 53 → exact_int (zcombine c t).1.1.
Proof.
  intros Hc Ht. unfold zcombine, exact_int.
  destruct c as [[c1 c2] c3], t as [[t1 t2] t3]. cbn [fst snd] in *.
  destruct (Z.eqb_spec c1 (-1)), (Z.eqb_spec t1 (-1)); cbn [andb fst snd]; [simpl; lia|..];
    repeat match goal with |- context [?a <? ?b] => destruct (Z.ltb_spec a b) end; cbn [fst snd];
    try lia; destruct c2, t2; simpl; lia.
Qed.

Lemma zcombine_nonzero c t :
  -1 <= c.1.1 → -1 <= t.1.1 → (zcombine c t).1.1 ≠ 0 → c.1.1 ≠ 0 ∧ t.1.1 ≠ 0.
Proof.
  intros Hc Ht. unfold zcombine.
  destruct c as [[c1 c2] c3], t as [[t1 t2] t3]. cbn [fst snd] in *.
  destruct (Z.eqb_spec c1 (-1)), (Z.eqb_spec t1 (-1)); cbn [andb fst snd]; try (simpl; lia);
    repeat match goal with |- context [?a <? ?b] => destruct (Z.ltb_spec a b) end;
    cbn [fst snd]; try lia; destruct c2, t2; simpl; lia.
Qed.

Lemma zcombine_expiration c t : (zcombine c t).2 = None → c.2 = None ∧ t.2 = None.
Proof.
  destruct c as [[c1 c2] c3], t as [[t1 t2] t3]. unfold zcombine. cbn [fst snd].
  destruct c3, t3; cbn [fst snd]; try done;
    destruct (_ && _); try done;
    destruct (c1 =? -1), (t1 =? -1); cbn [fst snd];
    repeat match goal with |- context [?a <? ?b] => destruct (a <? b) end;
    try done; by destruct c2, t2.
Qed.

(** The tokens of a participation are in order of time, on different
    submissions, and were regularly played for the contest and for each task. *)
Record tokens_ok (cp : TokenParams) (tp : Z → TokenParams) (start : Z) (tokens : list token)
    : Prop := {
  ok_submissions : NoDup (tk_submission_id <$> tokens);
  ok_sorted prev : (∀ k, k ∈ tokens → prev <= tk_timestamp k) → ∀ t,
    (∀ k, k ∈ tokens → tk_timestamp k <= t) → prev <= t →
    chronological prev (tk_timestamp <$> tokens) t;
  ok_contest : mode cp = TOKEN_MODE_FINITE → regular cp start (tk_timestamp <$> tokens);
  ok_task tid : mode (tp tid) = TOKEN_MODE_FINITE →
    regular (tp tid) start (tk_timestamp <$> filter (λ k, tk_task_id k = tid) tokens);
}.

(** One of the two sets of parameters lets a token be played. *)
Definition playable (p : TokenParams) (start : Z) (history : list Z) (t : Z) : Prop :=
  match mode p with
  | TOKEN_MODE_DISABLED => False
  | TOKEN_MODE_INFINITE => True
  | TOKEN_MODE_FINITE => 0 < available p start history t ∧ cooldown p start history <= t
  end.

(** The answer for one set of parameters, as integers. *)
Lemma tokens_available_playable p start history t :
  params_ok p → whole_seconds p → start <= t → t < start + HORIZON →
  Z.of_nat (List.length history) <= MANY →
  (mode p = TOKEN_MODE_FINITE → regular p start history ∧ chronological start history t) →
  ∃ a, _tokens_available p start history t = Ok (as_floats a) ∧
    -1 <= a.1.1 < 2 ^ 53 ∧ (a.1.1 ≠ 0 → a.2 = None → playable p start history t).
Proof.
  intros Hok Hw Hst Ht Hlen Hfin. unfold playable. destruct (mode p) eqn:Hm.
  - exists (0, None, None). unfold _tokens_available. rewrite Hm. split; [done|]. simpl. split; [lia|done].
  - destruct (Hfin eq_refl) as [Hr Hc].
    destruct (tokens_available_finite p start Hok Hw history t Hm Hc Hlen Ht) as [Hav He].
    destruct (regular_left p start Hok history t Hr Hc) as (H0 & Hp & Hl).
    assert (0 <= available p start history t < 2 ^ 53) as Hge.
    { split.
      - unfold available. destruct (left_after p start (gen_initial p) start history) as [a prev].
        simpl in *. pose proof (later_ge p start Hok a prev t Hp H0). unfold limit.
        destruct (max_number p) as [m|]; [specialize (Hl m eq_refl); lia|done].
      - destruct (simulate_eq p start Hok Hw 0 (gen_initial p) start history t) as (_ & Hle & Hin);
          [lia|unfold MANY in Hlen; lia|lia|done|done| |].
        { unfold within, periods. rewrite Z.sub_diag, Z.div_0_l by (pose proof (ok_interval p Hok); lia).
          pose proof (ok_initial p Hok). lia. }
        unfold available. destruct (left_after p start (gen_initial p) start history) as [a prev].
        cbn [fst snd] in *. unfold MANY in Hlen.
        pose proof (within_later p start Hok Hw (0 + Z.of_nat (List.length history)) a prev t ltac:(lia) ltac:(lia) ltac:(lia) Ht Hin) as Hin'.
        pose proof (within_exact p start Hok Hw (0 + Z.of_nat (List.length history)) _ t ltac:(lia) Hst Ht Hin').
        unfold limit. destruct (max_number p); lia. }
    exists (available p start history t, next_generation p start history t, expiration_of p start history t).
    split; [exact Hav|]. cbn [fst snd]. split; [lia|]. intros Hne. unfold expiration_of.
    destruct (Z.leb_spec (cooldown p start history) t); [intros _; split; lia|].
    rewrite (proj2 (Z.eqb_neq _ _)) by done. done.
  - exists (-1, None, None). unfold _tokens_available. rewrite Hm. split; [done|]. simpl. split; [lia|done].
Qed.

Lemma filter_past (tokens : list token) timestamp :
  (∀ k, k ∈ tokens → tk_timestamp k <= timestamp) →
  filter (λ k, tk_timestamp k <= timestamp) tokens = tokens.
Proof.
  induction tokens as [|x l IH]; intros Hts; [done|].
  rewrite filter_cons_True by (apply Hts; by left). f_equal. apply IH. intros ??; apply Hts; by right.
Qed.

(** Dropping tokens keeps the order. *)
Lemma chronological_filter (P : token → Prop) `{∀ k, Decision (P k)} q (l : list token) t :
  chronological q (tk_timestamp <$> l) t → chronological q (tk_timestamp <$> filter P l) t.
Proof.
  revert q. induction l as [|x l IH]; intros q Hc; [done|]. destruct Hc as [H1 H2].
  rewrite filter_cons. case_decide; [split; [done|by apply IH]|]. apply IH.
  destruct l as [|y l]; simpl in *; [lia|]. split; [lia|tauto].
Qed.

(** A token that could be played keeps the tokens regular. *)
Lemma tokens_ok_snoc cp tp start tokens sid tid timestamp :
  tokens_ok cp tp start tokens →
  (∀ k, k ∈ tokens → tk_timestamp k <= timestamp) → start <= timestamp →
  chronological start (tk_timestamp <$> tokens) timestamp →
  existsb (λ k, tk_submission_id k =? sid) tokens = false →
  playable cp start (tk_timestamp <$> tokens) timestamp →
  playable (tp tid) start (tk_timestamp <$> filter (λ k, tk_task_id k = tid) tokens) timestamp →
  tokens_ok cp tp start (tokens ++ [mkToken timestamp sid tid]).
Proof.
  intros Hok Hts Hst Hch Hex Hpc Hpt. set (k0 := mkToken timestamp sid tid).
  assert (k0 ∈ tokens ++ [k0]) as Hk0 by (apply elem_of_app; right; by left).
  split.
  - rewrite fmap_app. apply NoDup_app. split_and!; [apply (ok_submissions _ _ _ _ Hok)| |].
    + intros i (x & -> & Hx)%list_elem_of_fmap [= Heq]%list_elem_of_singleton.
      assert (existsb (λ k, tk_submission_id k =? sid) tokens = true) as Htrue; [|congruence].
      apply existsb_exists. exists x. split; [by apply list_elem_of_In|by apply Z.eqb_eq].
    + apply NoDup_singleton.
  - intros prev Hprev t Ht Hpt'. rewrite fmap_app. cbn [fmap list_fmap tk_timestamp].
    apply chronological_last. split; [|by apply (Ht k0)].
    apply (ok_sorted _ _ _ _ Hok); [intros x Hx; apply Hprev, elem_of_app; by left|done|].
    by apply (Hprev k0).
  - intros Hm. rewrite fmap_app. unfold playable in Hpc. rewrite Hm in Hpc.
    apply regular_snoc; [by apply (ok_contest _ _ _ _ Hok)|done|apply Hpc|apply Hpc].
  - intros i Hm. rewrite filter_app, filter_cons. simpl. case_decide as Hi.
    + subst i. unfold playable in Hpt. rewrite Hm in Hpt. rewrite filter_nil, fmap_app.
      apply regular_snoc; [by apply (ok_task _ _ _ _ Hok)|by apply chronological_filter
        |apply Hpt|apply Hpt].
    + rewrite filter_nil, app_nil_r. by apply (ok_task _ _ _ _ Hok).
Qed.

(** C27. [accept_token] keeps the tokens of a participation regular, when the
    contest and the task generate tokens after whole numbers of seconds, up to
    136 years after the start: whatever it accepts, at a time not before the
    previous tokens, was available both by the rules of the contest and by
    those of the task, with both cool-down periods over, on a submission
    without a token; so the bounds of [regular_bounds] hold for every history
    made through [accept_token]. *)
Theorem accept_token_regular (cp : TokenParams) (tp : Z → TokenParams) (start : Z)
    (tokens : list token) (sid tid timestamp : Z) (k : token) :
  params_ok cp → params_ok (tp tid) → whole_seconds cp → whole_seconds (tp tid) →
  Z.of_nat (List.length tokens) <= MANY → start <= timestamp < start + HORIZON →
  tokens_ok cp tp start tokens →
  (∀ k, k ∈ tokens → start <= tk_timestamp k <= timestamp) →
  accept_token cp (tp tid) start tokens sid tid timestamp = Ok k →
  k = mkToken timestamp sid tid ∧ tokens_ok cp tp start (tokens ++ [k]) ∧
  playable cp start (tk_timestamp <$> tokens) timestamp ∧
  playable (tp tid) start (tk_timestamp <$> filter (λ k, tk_task_id k = tid) tokens) timestamp.
Proof.
  intros Hcp Htp Hcw Htw Hlen [Hst Hh] Hok Hts. unfold accept_token, tokens_available.
  rewrite filter_past by (intros ??; by apply Hts).
  set (ch := tk_timestamp <$> tokens).
  set (th := tk_timestamp <$> filter (λ k, tk_task_id k = tid) tokens).
  assert (chronological start ch timestamp) as Hch
    by (apply (ok_sorted _ _ _ _ Hok); [intros ??; by apply Hts..|done]).
  assert (chronological start th timestamp) as Hth by by apply chronological_filter.
  assert (Z.of_nat (List.length th) <= MANY) as Hlt.
  { unfold th. rewrite length_fmap. pose proof (length_filter (λ k, tk_task_id k = tid) tokens). lia. }
  destruct (tokens_available_playable cp start ch timestamp Hcp Hcw Hst Hh) as (rc & Hrc & H1 & Hpc);
    [by unfold ch; rewrite length_fmap|intros Hm; split; [by apply (ok_contest _ _ _ _ Hok)|done]|].
  destruct (tokens_available_playable (tp tid) start th timestamp Htp Htw Hst Hh) as (rt & Hrt & H2 & Hpt);
    [done|intros Hm; split; [by apply (ok_task _ _ _ _ Hok)|done]|].
  rewrite Hrc, Hrt. cbn [mbind res_bind]. rewrite combine_eq by lia. cbn [as_floats fst snd].
  change f0 with (of_Z 0). rewrite feqb_of_Z by (unfold exact_int; lia || (apply zcombine_exact; lia)).
  intros H. destruct ((zcombine rc rt).1.1 =? 0) eqn:Hz; [done|]. apply Z.eqb_neq in Hz. cbn [orb] in H.
  destruct ((zcombine rc rt).2) eqn:He; [done|]. cbn [is_some] in H.
  destruct (existsb _ tokens) eqn:Hex; [done|]. injection H as <-.
  destruct (zcombine_nonzero rc rt (proj1 H1) (proj1 H2) Hz) as [Hz1 Hz2].
  destruct (zcombine_expiration rc rt He) as [He1 He2].
  split_and!; [done| |by apply Hpc|by apply Hpt].
  apply tokens_ok_snoc; [done|intros ??; by apply Hts|done|done|done|by apply Hpc|by apply Hpt].
Qed.


(** ** A concrete configuration: two tokens at the start, one more every half
    an hour, never more than three at once, ten in total, a minute between
    two tokens. *)
Definition demo_params : TokenParams :=
  mkTokenParams TOKEN_MODE_FINITE 2 1 1800000000 (Some 3) (Some 10) 60000000.

Lemma demo_params_ok : params_ok demo_params.
Proof. split; simpl; try lia; intros m [= <-]; lia. Qed.

Lemma demo_whole : whole_seconds demo_params.
Proof. split; simpl; try lia; [exists 1800; lia|..]; intros m [= <-]; lia. Qed.

Lemma demo_regular : regular demo_params 0 [100000000; 200000000].
Proof.
  intros pre t post H. destruct pre as [|a [|b [|c pre]]]; simplify_eq/=;
    vm_compute; repeat split; discriminate.
Qed.

(** With a token every 0.6 seconds, at 6.6 seconds ten periods have passed by
    the floats, not eleven, and the eleventh token, which should be available,
    is announced for that very moment. *)
Example fractional_interval :
  let p := mkTokenParams TOKEN_MODE_FINITE 0 1 600000 None None 0 in
  _tokens_available p 0 [] 6600000 = Ok (of_Z 10, Some 6600000, None) ∧
  periods p 0 6600000 = 11.
Proof. split; vm_compute; reflexivity. Qed.

Lemma next_generation_exact_witness :
  _tokens_available demo_params 0 [100000000; 200000000] 300000000 = Ok (of_Z 0, Some 1800000000, None) ∧
  _tokens_available demo_params 0 [100000000; 200000000] 1799999999 = Ok (of_Z 0, Some 1800000000, None) ∧
  _tokens_available demo_params 0 [100000000; 200000000] 1800000000 = Ok (of_Z 1, Some 3600000000, None) ∧
  ∃ avail next expiration,
    _tokens_available demo_params 0 [100000000; 200000000] 300000000 = Ok (avail, next, expiration).
Proof.
  repeat (split; [vm_compute; reflexivity|]).
  destruct (next_generation_exact demo_params 0 demo_params_ok demo_whole [100000000; 200000000] 300000000 eq_refl)
    as (a & n & e & H & _); [simpl; lia|vm_compute; discriminate|vm_compute; reflexivity|].
  exists a, n, e. exact H.
Defined.

Lemma regular_bounds_witness :
  regular demo_params 0 [100000000; 200000000] ∧
  ∃ avail next expiration,
    _tokens_available demo_params 0 [100000000; 200000000] 230000000 = Ok (of_Z avail, next, expiration) ∧
    0 <= avail.
Proof.
  split; [exact demo_regular|].
  destruct (regular_bounds demo_params 0 demo_params_ok [100000000; 200000000] 230000000 demo_whole)
    as (a & n & e & H & H0 & _);
    [vm_compute; discriminate|vm_compute; reflexivity|reflexivity|exact demo_regular|simpl; lia|].
  exists a, n, e. exact (conj H H0).
Defined.

Lemma demo_tokens_ok :
  tokens_ok demo_params (λ _, demo_params) 0 [mkToken 100000000 1 7].
Proof.
  assert (regular demo_params 0 [100000000]) as Hr.
  { apply (regular_prefix demo_params 0 [100000000] 200000000). apply demo_regular. }
  split.
  - apply NoDup_singleton.
  - intros prev H t H' _. simpl.
    split; [apply (H (mkToken 100000000 1 7)) | apply (H' (mkToken 100000000 1 7))]; by left.
  - intros _. exact Hr.
  - intros tid _. rewrite filter_cons. case_decide; [exact Hr|]. intros pre t post H'.
    by destruct pre.
Qed.

Lemma accept_token_regular_witness :
  accept_token demo_params demo_params 0 [mkToken 100000000 1 7] 1 7 200000000 =
    Raise (UserError "TokenAlreadyPlayed") ∧
  accept_token demo_params demo_params 0 [mkToken 100000000 1 7] 2 7 120000000 =
    Raise (UserError "UnacceptableToken") ∧
  accept_token demo_params demo_params 0 [mkToken 100000000 1 7] 2 7 200000000 =
    Ok (mkToken 200000000 2 7) ∧
  tokens_ok demo_params (λ _, demo_params) 0 ([mkToken 100000000 1 7] ++ [mkToken 200000000 2 7]).
Proof.
  repeat (split; [vm_compute; reflexivity|]).
  apply (accept_token_regular demo_params (λ _, demo_params) 0 [mkToken 100000000 1 7] 2 7 200000000
    (mkToken 200000000 2 7) demo_params_ok demo_params_ok demo_whole demo_whole).
  - vm_compute. discriminate.
  - split; [lia|vm_compute; reflexivity].
  - exact demo_tokens_ok.
  - intros k ->%list_elem_of_singleton. simpl. lia.
  - vm_compute. reflexivity.
Defined.
