(* ===== verification/FlushingDict.v ===== *)
(** * A dictionary that flushes to a callback (cms/service/flushingdict.py)

    [flush] moves the entries aside, calls the callback on them and forgets
    them. The dictionary is part of a larger state that the callback may
    change (it may even add entries), so [flush] is written over any state
    with a field holding the dictionary. When the callback raises, the entries
    stay aside. Times are numbers of microseconds. Not modelled: the greenlet
    that calls [_check_flush] every 50 ms, and the lock, which only covers
    sections that do not yield. *)

From S2P Require Import Prelude.

Section FlushingDict.
Context {K V : Type} `{EqDecision K}.

Record FlushingDict : Type := mkFD {
  fd_size : nat;
  flush_latency : Z;
  d : pydict K V;
  fd : pydict K V;
  last_insert : Z;
}.

Definition fd_init (size : nat) (latency now : Z) : FlushingDict := mkFD size latency [] [] now.

Definition add (key : K) (value : V) (now : Z) (c : FlushingDict) : FlushingDict :=
  mkFD (fd_size c) (flush_latency c) (pd_set (d c) key value) (fd c) now.

Definition fd_contains (key : K) (c : FlushingDict) : bool := pd_mem (d c) key || pd_mem (fd c) key.

(** [self.fd = self.d; self.d = dict()] *)
Definition flush_begin (c : FlushingDict) : FlushingDict :=
  mkFD (fd_size c) (flush_latency c) [] (d c) (last_insert c).

(** [self.fd = dict()] *)
Definition flush_end (c : FlushingDict) : FlushingDict :=
  mkFD (fd_size c) (flush_latency c) (d c) [] (last_insert c).

(** The condition that [_check_flush] waits for. *)
Definition must_flush (now : Z) (c : FlushingDict) : bool :=
  negb (List.length (d c) =? 0)%nat
  && ((fd_size c <=? List.length (d c))%nat || (flush_latency c <? now - last_insert c)%Z).

Section flush.
Context {S : Type} (cache : S → FlushingDict) (set_cache : FlushingDict → S → S).
Context (callback : pydict K V → M S unit).

Definition flush : M S unit :=
  _ ← modify (λ s, set_cache (flush_begin (cache s)) s);
  items ← gets (λ s, fd (cache s));
  _ ← callback items;
  modify (λ s, set_cache (flush_end (cache s)) s).

(** One round of the loop of [_check_flush]: whether it flushed. *)
Definition _check_flush (now : Z) : M S bool :=
  must ← gets (λ s, must_flush now (cache s));
  if must : bool then _ ← flush; mret true else mret false.

Hypothesis cache_set : ∀ c s, cache (set_cache c s) = c.

(** What the callback sees and what remains, in both outcomes. *)
Lemma flush_spec s :
  let s1 := set_cache (flush_begin (cache s)) s in
  flush s = match callback (d (cache s)) s1 with
            | (Ok _, s2) => (Ok tt, set_cache (flush_end (cache s2)) s2)
            | (Raise e, s2) => (Raise e, s2)
            | (Blocks, s2) => (Blocks, s2)
            | (NoFuel, s2) => (NoFuel, s2)
            end.
Proof.
  intros s1. unfold flush. run_goal. fold s1.
  assert (fd (cache s1) = d (cache s)) as -> by (unfold s1; by rewrite cache_set).
  by destruct (callback (d (cache s)) s1) as [[[]| | |] s2].
Qed.
End flush.

(** ** Entries *)

Lemma fd_contains_in key c : fd_contains key c = true ↔ key ∈ pd_keys (d c) ∨ key ∈ pd_keys (fd c).
Proof.
  unfold fd_contains, pd_mem. by rewrite orb_true_iff, !bool_decide_eq_true, !pd_get_in.
Qed.

(** Adding in sequence. *)
Definition add_all (l : list (K * V * Z)) (c : FlushingDict) : FlushingDict :=
  foldl (λ c '(k, v, now), add k v now c) c l.

(** The last value added for a key. *)
Definition last_value (k : K) (l : list (K * V * Z)) : option V :=
  foldl (λ acc '(k', v, _), if decide (k' = k) then Some v else acc) None l.

Lemma add_all_get l c k :
  pd_get (d (add_all l c)) k =
    match last_value k l with Some v => Some v | None => pd_get (d c) k end.
Proof.
  unfold last_value. revert c. induction l as [|[[k' v] t] l IH] using rev_ind; intros c; [done|].
  unfold add_all. rewrite !foldl_app. cbn [foldl add d]. rewrite pd_get_set.
  case_decide; [done|]. apply IH.
Qed.

Lemma add_all_fd l c : fd (add_all l c) = fd c.
Proof. revert c. induction l as [|[[k v] t] l IH]; intros c; [done|]. apply (IH (add k v t c)). Qed.

Lemma add_all_nodup l c : NoDup (pd_keys (d c)) → NoDup (pd_keys (d (add_all l c))).
Proof.
  revert c. induction l as [|[[k v] t] l IH]; intros c Hnd; [done|].
  apply (IH (add k v t c)). by apply pd_keys_set_NoDup.
Qed.

End FlushingDict.

Arguments FlushingDict K V : clear implicits.

(** Nothing is lost between [add] and the callback, and nothing comes
    twice: after any additions to an empty dictionary, [flush] calls the
    callback once, on a list that pairs each added key, once, with the last
    value added for it; when the callback returns without adding entries the
    dictionary is empty; when it raises, the entries are still reported as
    contained. *)
Theorem flush_delivers {K V S : Type} `{EqDecision K}
    (cache : S → FlushingDict K V) (set_cache : FlushingDict K V → S → S)
    (callback : pydict K V → M S unit) (adds : list (K * V * Z)) (s : S) :
  (∀ c s, cache (set_cache c s) = c) →
  d (cache s) = [] →
  (∀ items s r s', callback items s = (r, s') → cache s' = cache s) →
  let s0 := set_cache (add_all adds (cache s)) s in
  ∃ items s1,
    NoDup (pd_keys items) ∧ (∀ k, pd_get items k = last_value k adds) ∧
    (∀ k, fd_contains k (cache s1) = bool_decide (is_Some (last_value k adds))) ∧
    match callback items s1 with
    | (Ok _, _) => ∃ s3, flush cache set_cache callback s0 = (Ok tt, s3) ∧
                         ∀ k, fd_contains k (cache s3) = false
    | (Raise e, _) => ∃ s3, flush cache set_cache callback s0 = (Raise e, s3) ∧
                            cache s3 = cache s1
    | _ => True
    end.
Proof.
  intros Hset Hd Hcb s0. set (c := add_all adds (cache s)).
  assert (∀ k, pd_get (d c) k = last_value k adds) as Hget.
  { intros k. unfold c. rewrite add_all_get, Hd. by destruct (last_value k adds). }
  set (s1 := set_cache (flush_begin (cache s0)) s0).
  assert (cache s0 = c) as Hs0 by (unfold s0; by rewrite Hset).
  assert (cache s1 = flush_begin c) as Hs1 by (unfold s1; by rewrite Hset, Hs0).
  exists (d c), s1. split_and!; [|done|..].
  - unfold c. apply add_all_nodup. by rewrite Hd; apply NoDup_nil_2.
  - intros k. rewrite Hs1. unfold fd_contains, pd_mem. simpl. by rewrite Hget.
  - rewrite (flush_spec cache set_cache callback Hset s0), Hs0. rewrite <- Hs0. fold s1.
    destruct (callback (d (cache s0)) s1) as [[a|e| |] s2] eqn:Hc; try done.
    + eexists. split; [done|]. intros k. rewrite Hset. unfold flush_end.
      rewrite (Hcb _ _ _ _ Hc), Hs1. done.
    + eexists. split; [done|]. by apply (Hcb _ _ _ _ Hc).
Qed.

(** A state made of the dictionary and of the log of the callback. *)
Definition demo_log : Type := FlushingDict nat nat * list (nat * nat).
Definition demo_set (c : FlushingDict nat nat) (s : demo_log) : demo_log := (c, s.2).
Definition demo_callback (items : pydict nat nat) : M demo_log unit :=
  modify (λ s, (s.1, s.2 ++ items)).
Definition demo_adds : list (nat * nat * Z) := [(1, 10, 5%Z); (2, 20, 6%Z); (1, 11, 7%Z)].
Definition demo_fd : FlushingDict nat nat := fd_init 100 2000000 0.

Lemma flush_delivers_witness :
  (flush fst demo_set demo_callback (add_all demo_adds demo_fd, [])).2.2 = [(1, 11); (2, 20)] ∧
  ∃ items s1, NoDup (pd_keys items) ∧ pd_get items 1 = Some 11 ∧
    fd_contains 1 (demo_callback items s1).2.1 = true.
Proof.
  split; [vm_compute; reflexivity|].
  destruct (flush_delivers fst demo_set demo_callback demo_adds (demo_fd, []))
    as (items & s1 & H1 & H2 & H3 & _); [reflexivity|reflexivity| |].
  { intros it s2 r s3 H. injection H as <- <-. reflexivity. }
  exists items, s1. split; [exact H1|]. split; [rewrite H2; vm_compute; reflexivity|].
  simpl. rewrite H3. vm_compute. reflexivity.
Defined.
