(* ===== verification/EvalExecutor.v ===== *)
(** * Dispatching of operations (cms/service/EvaluationService.py:
    EvaluationExecutor, and the handlers of EvaluationService that do not
    touch the database)

    An operation enters the queue with [enqueue], is extracted in a batch by
    the greenlet of the executor, waits in [_currently_executing] for a
    worker, is executed by a worker of the pool, and its result stays in the
    result cache until it is written. The state [Dispatcher] puts these places
    together; [place_of] tells where an operation is.

    The attribute [side_data] of an operation, set when it leaves the queue, is
    the map [side_data]: there is never more than one object for an operation
    among the executing ones and the pool's. A method runs without
    interleaving, except [execute], which waits for workers: its loop is the
    repetition of [execute_iteration].

    Building the job group of a batch may raise, after the worker has been
    given the operations: [acquire_worker] and [execute] are left,
    [Executor.run] logs the exception, and the batch is given up.
    [_currently_executing] keeps it until the next batch, and is then the very
    list that the pool stores for the worker: [shared_with] is that worker.
    The first theorems are about runs in which the job groups of all the
    batches could be built ([built]); [given_up_batch_lost] is about the
    batches that are given up. *)

From S2P Require Import Prelude PriorityQueue Executor WorkerPool.
From S2P Require Import PyFloat Database EsOperations FlushingDict.

Definition Pool : Type := WorkerPool ESOperation.

(** (type, object, dataset), priority *)
Definition cum_key : Type := string * string * string * Z.

(** An entry of the cumulative status; [multiplicity] is a key of the item. *)
Record cum_entry : Type := mkCum {
  ce_item : pydict string json;
  multiplicity : Z;
  ce_priority : Z;
  ce_timestamp : Z;
}.

Section EvaluationExecutor.
Context {Q : Type} `{!PQueue ESOperation Q}.

Definition MAX_OPERATIONS_PER_BATCH : nat := 25.

Record EvaluationExecutor : Type := mkEE {
  base : Executor Q;
  _currently_executing : list ESOperation;
  side_data : gmap ESOperation (Z * Z);
  pool : Pool;
  queue_status_cumulative : pydict cum_key cum_entry;
  (** The worker whose entry of the pool is the list [_currently_executing]. *)
  shared_with : option Z;
}.

Definition set_base b ee := mkEE b (_currently_executing ee) (side_data ee) (pool ee)
  (queue_status_cumulative ee) (shared_with ee).
(** [self._currently_executing = l]: another list. *)
Definition set_executing l ee := mkEE (base ee) l (side_data ee) (pool ee)
  (queue_status_cumulative ee) None.
Definition set_side_data m ee := mkEE (base ee) (_currently_executing ee) m (pool ee)
  (queue_status_cumulative ee) (shared_with ee).
Definition set_pool p ee := mkEE (base ee) (_currently_executing ee) (side_data ee) p
  (queue_status_cumulative ee) (shared_with ee).
Definition set_cumulative c ee := mkEE (base ee) (_currently_executing ee) (side_data ee) (pool ee) c
  (shared_with ee).
Definition set_shared_with o ee := mkEE (base ee) (_currently_executing ee) (side_data ee) (pool ee)
  (queue_status_cumulative ee) o.

(** [del self._currently_executing[i]], when [l] is left: the list is
    changed in place, also where the pool has it. *)
Definition shrink_executing (l : list ESOperation) ee :=
  let p := match shared_with ee with
           | Some s => match pd_get (_operations (pool ee)) s with
                       | Some (Ops _) => set_operations s (Ops l) (pool ee)
                       | _ => pool ee
                       end
           | None => pool ee
           end in
  mkEE (base ee) l (side_data ee) p (queue_status_cumulative ee) (shared_with ee).

(** The queue of the executor. *)
Definition eq_of (ee : EvaluationExecutor) : Q := _operation_queue (base ee).

Definition in_pool {A} : M Pool A → M EvaluationExecutor A := zoom pool set_pool.

(** [connected]: the state of the RPC client of each worker. *)
Fixpoint add_workers (shard : Z) (connected : list bool) : M Pool unit :=
  match connected with
  | [] => mret tt
  | c :: connected => _ ← add_worker shard c; add_workers (shard + 1) connected
  end.

Definition ee_init (connected : list bool) : EvaluationExecutor :=
  mkEE (executor_init true) [] ∅ (add_workers 0 connected pool_init).2 [] None.

Definition ee_contains (item : ESOperation) (ee : EvaluationExecutor) : bool :=
  executor_contains item (base ee) || bool_decide (item ∈ _currently_executing ee)
  || pool_contains item (pool ee).

Definition ee_max_operations_per_batch (ee : EvaluationExecutor) : res nat :=
  if (pool_length (pool ee) =? 0)%nat then Raise ZeroDivisionError
  else
    let ratio := (q_length (eq_of ee) / pool_length (pool ee) + 1)%nat in
    Ok (Nat.min (Nat.max ratio 1) MAX_OPERATIONS_PER_BATCH).

Definition cum_key_of (op : ESOperation) (priority : Z) : cum_key := (short_key op, priority).

Definition _remove_from_cumulative_status (e : QueueEntry ESOperation)
    (cum : pydict cum_key cum_entry) : res (pydict cum_key cum_entry) :=
  let key := cum_key_of (item e) (priority e) in
  c ← or_raise KeyError (pd_get cum key);
  let n := (multiplicity c - 1)%Z in
  Ok (if (n =? 0)%Z then pd_del cum key
      else pd_set cum key (mkCum (ce_item c) n (ce_priority c) (ce_timestamp c))).

Definition ee_enqueue (op : ESOperation) (prio ts : Z) (ee : EvaluationExecutor)
    : res (bool * EvaluationExecutor) :=
  '(success, b) ← enqueue op (Some prio) (Some ts) ts (base ee);
  let ee := set_base b ee in
  if success : bool then
    let key := cum_key_of op prio in
    let cum := queue_status_cumulative ee in
    let c := match pd_get cum key with
             | Some c => mkCum (ce_item c) (multiplicity c + 1) (ce_priority c) (ce_timestamp c)
             | None => mkCum (pd_del (to_dict op) "testcase_codename"%string) 1 prio ts
             end in
    Ok (true, set_cumulative (pd_set cum key c) ee)
  else Ok (false, ee).

Definition ee_pop (wait : bool) (ee : EvaluationExecutor)
    : res (QueueEntry ESOperation * EvaluationExecutor) :=
  '(e, b) ← _pop wait (base ee);
  cum ← _remove_from_cumulative_status e (queue_status_cumulative ee);
  Ok (e, set_cumulative cum (set_base b ee)).

(** [del l[i]] for the first [i] with [l[i] == op]. *)
Fixpoint remove_first (op : ESOperation) (l : list ESOperation) : option (list ESOperation) :=
  match l with
  | [] => None
  | x :: l => if decide (x = op) then Some l else (x ::.) <$> remove_first op l
  end.

Definition is_key_error (e : exn) : bool := bool_decide (e = KeyError).

Definition ee_dequeue (op : ESOperation) : M EvaluationExecutor unit :=
  try_except is_key_error
    (e ← zoom base set_base (run_res (dequeue op));
     cum ← gets queue_status_cumulative;
     cum ← lift (_remove_from_cumulative_status e cum);
     modify (set_cumulative cum))
    (l ← gets _currently_executing;
     match remove_first op l with
     | Some l => modify (shrink_executing l)
     | None => raise KeyError
     end).

(** One iteration of [Executor.run] up to the call of [execute]. *)
Definition ee_collect (ee : EvaluationExecutor)
    : res (list (QueueEntry ESOperation) * EvaluationExecutor) :=
  run_collect eq_of ee_pop (_batch_executions (base ee)) ee_max_operations_per_batch ee.

(** The first part of [execute]. *)
Definition start_execute (entries : list (QueueEntry ESOperation)) : M EvaluationExecutor unit :=
  _ ← modify (set_executing []);
  for_each (λ e,
    _ ← modify (λ ee, set_side_data (<[item e := (priority e, timestamp e)]> (side_data ee)) ee);
    modify (λ ee, set_executing (_currently_executing ee ++ [item e]) ee)) entries.

Definition take_batch : M EvaluationExecutor unit :=
  entries ← run_res ee_collect; start_execute entries.

(** The worker that [acquire_worker] has given the list [l] to. *)
Definition taker (l : list ESOperation) (p : Pool) : option Z :=
  op ← head l; _operations_reverse p !! op.

(** The pool keeps the list [self._currently_executing] that it is passed:
    an exception leaves it shared. *)
Definition acquire_for (l : list ESOperation) (now : Z) (rnd : nat) (jg : res unit)
    : M EvaluationExecutor (option Z) := λ ee,
  match in_pool (acquire_worker l now rnd jg) ee with
  | (Raise e, ee) => (Raise e, set_shared_with (taker l (pool ee)) ee)
  | r => r
  end.

(** The loop of [execute]: one iteration, and whether it was the last. [jg]
    is the outcome of building the job group of the batch; [execute] is left
    when it is an exception. *)
Definition execute_iteration (now : Z) (rnd : nat) (jg : res unit) : M EvaluationExecutor bool :=
  l ← gets _currently_executing;
  if decide (l = []) then mret true
  else
    _ ← in_pool wait_for_workers;
    r ← acquire_for l now rnd jg;
    match r with
    | Some _ => _ ← modify (set_executing []); mret true
    | None => mret false
    end.

(** ** The service, without the database *)

(** [R] is the type of the results. *)
Context {R : Type}.

Record Dispatcher : Type := mkDispatcher {
  executor : EvaluationExecutor;
  result_cache : FlushingDict ESOperation R;
}.

Definition set_executor ee ds := mkDispatcher ee (result_cache ds).
Definition set_result_cache c ds := mkDispatcher (executor ds) c.

Definition in_executor {A} : M EvaluationExecutor A → M Dispatcher A := zoom executor set_executor.

(** 100 results, 2 seconds. *)
Definition ds_init (connected : list bool) (now : Z) : Dispatcher :=
  mkDispatcher (ee_init connected) (fd_init 100 2000000 now).

Definition ds_enqueue (op : ESOperation) (prio ts : Z) : M Dispatcher bool :=
  ds ← get;
  if ee_contains op (executor ds) || fd_contains op (result_cache ds) then mret false
  else in_executor (run_res (ee_enqueue op prio ts)).

Definition requeue (op : ESOperation) : M Dispatcher unit :=
  sd ← gets (λ ds, side_data (executor ds));
  pt ← lift (or_raise AttributeError (sd !! op));
  _ ← ds_enqueue op pt.1 pt.2;
  mret tt.

Definition check_workers_timeout (now : Z) : M Dispatcher bool :=
  lost ← in_executor (in_pool (check_timeouts now));
  _ ← for_each requeue lost;
  mret true.

Definition check_workers_connection : M Dispatcher bool :=
  lost ← in_executor (in_pool check_connections);
  _ ← for_each requeue lost;
  mret true.

Definition is_value_error (e : exn) : bool := bool_decide (e = ValueError).

Definition ds_disable_worker (shard : Z) : M Dispatcher bool :=
  lost ← try_except is_value_error
    (lost ← in_executor (in_pool (disable_worker shard)); mret (Some lost))
    (mret None);
  match lost with
  | None => mret false
  | Some lost => _ ← for_each requeue lost; mret true
  end.

Definition ds_enable_worker (shard : Z) : M Dispatcher bool :=
  try_except is_value_error
    (_ ← in_executor (in_pool (enable_worker shard)); mret true)
    (mret false).

(** [data] is the job group of the worker's answer as (operation, result)
    pairs, or [None] when the worker reports an error or the group cannot be
    read. *)
Definition action_finished (data : option (list (ESOperation * R))) (shard now : Z)
    : M Dispatcher unit :=
  to_ignore ← in_executor (in_pool (release_worker shard));
  match to_ignore, data with
  | IgnoreAll true, _ | _, None => mret tt
  | _, Some jobs =>
      for_each (λ job,
        if match to_ignore with IgnoreOps l => bool_decide (job.1 ∈ l) | _ => false end
        then mret tt
        else modify (λ ds, set_result_cache (add job.1 job.2 now (result_cache ds)) ds)) jobs
  end.

(** What [invalidate_submission] does with an operation. *)
Definition forget_operation (op : ESOperation) : M Dispatcher unit :=
  _ ← try_except is_key_error (in_executor (ee_dequeue op)) (mret tt);
  try_except is_lookup_error (in_executor (in_pool (ignore_operation op))) (mret tt).

(** [sorted(values, key=lambda x: (x["priority"], x["timestamp"]))]: stable. *)
Fixpoint insert_cum (c : cum_entry) (l : list cum_entry) : list cum_entry :=
  match l with
  | [] => [c]
  | x :: l' =>
      if (ce_priority c <? ce_priority x)%Z
         || ((ce_priority c =? ce_priority x)%Z && (ce_timestamp c <? ce_timestamp x)%Z)
      then c :: l else x :: insert_cum c l'
  end.

Definition queue_status (ds : Dispatcher) : list cum_entry :=
  foldl (λ acc c, insert_cum c acc) [] (pd_values (queue_status_cumulative (executor ds))).
End EvaluationExecutor.

Arguments EvaluationExecutor Q : clear implicits.
Arguments Dispatcher Q R : clear implicits.

(** ** The cumulative status of the queue *)

(** Number of operations of the queue with a key. *)
Definition count (key : cum_key) (m : gmap ESOperation PriorityQueue.key) : nat :=
  size (filter (λ ok, cum_key_of ok.1 ok.2.1.1 = key) m).

Definition cum_ok (m : gmap ESOperation PriorityQueue.key) (cum : pydict cum_key cum_entry) : Prop :=
  NoDup (pd_keys cum) ∧
  ∀ key, match pd_get cum key with
         | None => count key m = 0
         | Some c => count key m ≠ 0 ∧ multiplicity c = Z.of_nat (count key m)
         end.

Lemma count_insert key op k m :
  m !! op = None →
  count key (<[op := k]> m) =
    if decide (cum_key_of op k.1.1 = key) then S (count key m) else count key m.
Proof.
  intros Hop. unfold count. case_decide as Hk.
  - rewrite map_filter_insert_True by done. apply map_size_insert_None.
    apply map_lookup_filter_None. by left.
  - rewrite map_filter_insert_False by done. by rewrite delete_id.
Qed.

Lemma count_delete key op k m :
  m !! op = Some k →
  count key m =
    if decide (cum_key_of op k.1.1 = key) then S (count key (delete op m))
    else count key (delete op m).
Proof.
  intros Hop. rewrite <- (insert_delete_id m op k Hop) at 1.
  apply count_insert, lookup_delete_eq.
Qed.

Lemma cum_ok_init : cum_ok ∅ [].
Proof. split; [apply NoDup_nil_2|]. intros key. unfold count. by rewrite map_filter_empty, map_size_empty. Qed.

Lemma cum_ok_enqueue m cum op k c :
  cum_ok m cum → m !! op = None →
  multiplicity c = (match pd_get cum (cum_key_of op k.1.1) with
                    | Some c => multiplicity c | None => 0 end + 1)%Z →
  cum_ok (<[op := k]> m) (pd_set cum (cum_key_of op k.1.1) c).
Proof.
  intros [Hnd Hc] Hop Hmul. split; [by apply pd_keys_set_NoDup|]. intros key.
  rewrite pd_get_set, count_insert by done. specialize (Hc key). case_decide as Hk.
  - subst key. split; [lia|]. destruct (pd_get cum _); lia.
  - done.
Qed.

Lemma remove_from_cum m cum e :
  cum_ok m cum → m !! item e = Some (ekey e) →
  ∃ cum', _remove_from_cumulative_status e cum = Ok cum' ∧ cum_ok (delete (item e) m) cum'.
Proof.
  intros [Hnd Hc] He. unfold _remove_from_cumulative_status.
  pose proof (λ key, count_delete key (item e) (ekey e) m He) as Hcount. cbn [ekey fst] in Hcount.
  set (k0 := cum_key_of (item e) (priority e)) in *.
  assert (is_Some (pd_get cum k0)) as [c Hk0].
  { specialize (Hc k0). rewrite Hcount, decide_True in Hc by done.
    destruct (pd_get cum k0); [eauto|lia]. }
  rewrite Hk0. cbn [or_raise mbind res_bind]. eexists. split; [done|].
  pose proof (Hc k0) as Hc0. rewrite Hk0, Hcount, decide_True in Hc0 by done.
  destruct (Z.eqb_spec (multiplicity c - 1) 0) as [Hz|Hz].
  - split; [by apply pd_keys_del_NoDup|]. intros key. rewrite pd_get_del.
    case_decide as Hk; [subst key; lia|]. specialize (Hc key).
    by rewrite Hcount, decide_False in Hc.
  - split; [by apply pd_keys_set_NoDup|]. intros key. rewrite pd_get_set.
    case_decide as Hk; [subst key; cbn [multiplicity]; lia|]. specialize (Hc key).
    by rewrite Hcount, decide_False in Hc.
Qed.

(** ** Where an operation is *)

Inductive place (R : Type) : Type :=
  | Queued (prio ts : Z)
  | Executing (prio ts : Z)
  | Running (shard prio ts : Z)
  | Cached (r : R)
  | Writing (r : R).
Arguments Queued {R} prio ts.
Arguments Executing {R} prio ts.
Arguments Running {R} shard prio ts.
Arguments Cached {R} r.
Arguments Writing {R} r.

Section invariant.
Context {Q : Type} `{!PQueue ESOperation Q} {R : Type}.
Implicit Types (ee : EvaluationExecutor Q) (ds : Dispatcher Q R) (op : ESOperation).


Definition queue_of ds : gmap ESOperation PriorityQueue.key := q_abs (eq_of (executor ds)).
Definition executing ds : list ESOperation := _currently_executing (executor ds).
Definition side ds : gmap ESOperation (Z * Z) := side_data (executor ds).
Definition pool_of ds : Pool := pool (executor ds).
Definition running ds : gmap ESOperation Z := _operations_reverse (pool_of ds).

Definition queued (k : PriorityQueue.key) : place R := Queued k.1.1 k.1.2.

Definition place_of ds op : option (place R) :=
  match queue_of ds !! op with
  | Some k => Some (queued k)
  | None =>
      if decide (op ∈ executing ds) then (λ pt, Executing pt.1 pt.2) <$> side ds !! op
      else
        match running ds !! op with
        | Some s => (λ pt, Running s pt.1 pt.2) <$> side ds !! op
        | None =>
            match pd_get (d (result_cache ds)) op with
            | Some r => Some (Cached r)
            | None => Writing <$> pd_get (fd (result_cache ds)) op
            end
        end
  end.

(** No operation is in two places, and the parts are well-formed. *)
Record ds_inv ds : Prop := {
  inv_queue : q_wf (eq_of (executor ds));
  inv_batch : _batch_executions (base (executor ds)) = true;
  inv_pool : pool_inv (pool_of ds);
  inv_workers : pool_length (pool_of ds) ≠ 0;
  inv_executing : NoDup (executing ds);
  inv_side op : op ∈ executing ds ∨ is_Some (running ds !! op) → is_Some (side ds !! op);
  inv_cum : cum_ok (queue_of ds) (queue_status_cumulative (executor ds));
  inv_exec_fresh op : op ∈ executing ds → queue_of ds !! op = None;
  inv_pool_fresh op :
    is_Some (running ds !! op) → queue_of ds !! op = None ∧ (op ∉ executing ds);
  inv_cache_fresh op :
    is_Some (pd_get (d (result_cache ds)) op) →
    queue_of ds !! op = None ∧ (op ∉ executing ds) ∧ running ds !! op = None;
  inv_flush_fresh op :
    is_Some (pd_get (fd (result_cache ds)) op) →
    queue_of ds !! op = None ∧ (op ∉ executing ds) ∧ running ds !! op = None ∧
    pd_get (d (result_cache ds)) op = None;
  inv_shared : shared_with (executor ds) = None;
}.

Lemma place_None ds op :
  ds_inv ds →
  place_of ds op = None ↔
  queue_of ds !! op = None ∧ (op ∉ executing ds) ∧ running ds !! op = None ∧
  pd_get (d (result_cache ds)) op = None ∧ pd_get (fd (result_cache ds)) op = None.
Proof.
  intros Hi. unfold place_of. pose proof (inv_side ds Hi op) as Hs.
  destruct (queue_of ds !! op) eqn:Hq; [naive_solver|].
  case_decide as He; [destruct Hs as [x ->]; [by left|naive_solver]|].
  destruct (running ds !! op) as [s|] eqn:Hr; [destruct Hs as [x ->]; [eauto|naive_solver]|].
  destruct (pd_get (d _) op); [naive_solver|].
  destruct (pd_get (fd _) op); naive_solver.
Qed.

Lemma contains_place ds op :
  ds_inv ds →
  ee_contains op (executor ds) || fd_contains op (result_cache ds) =
    bool_decide (is_Some (place_of ds op)).
Proof.
  intros Hi. apply eq_true_iff_eq. rewrite bool_decide_eq_true.
  rewrite <- not_eq_None_Some, place_None by done.
  unfold ee_contains, executor_contains, pool_contains, fd_contains, pd_mem.
  rewrite !orb_true_iff, !bool_decide_eq_true.
  fold (eq_of (executor ds)). rewrite (q_contains_law _ _ (inv_queue ds Hi)).
  unfold queue_of, running, executing, pool_of.
  destruct (q_abs _ !! op), (decide (op ∈ _currently_executing (executor ds))),
    (_operations_reverse _ !! op), (pd_get (d _) op), (pd_get (fd _) op); split; intros;
    repeat match goal with H : _ ∨ _ |- _ => destruct H end;
    try (by eauto); try (by match goal with H : is_Some None |- _ => destruct H end);
    try (intros (? & ? & ? & ? & ?); congruence); try tauto;
    try (by left; left; left; eauto); try (by left; right; eauto); try (by right; eauto).
Qed.

(** *** Enqueuing *)

Lemma ee_enqueue_spec op p t ee :
  q_wf (eq_of ee) → q_abs (eq_of ee) !! op = None →
  cum_ok (q_abs (eq_of ee)) (queue_status_cumulative ee) →
  ∃ ee' n, ee_enqueue op p t ee = Ok (true, ee') ∧ q_wf (eq_of ee') ∧
    q_abs (eq_of ee') = <[op := (p, t, n)]> (q_abs (eq_of ee)) ∧
    cum_ok (q_abs (eq_of ee')) (queue_status_cumulative ee') ∧
    _batch_executions (base ee') = _batch_executions (base ee) ∧
    _currently_executing ee' = _currently_executing ee ∧ side_data ee' = side_data ee ∧
    pool ee' = pool ee ∧ shared_with ee' = shared_with ee.
Proof.
  intros Hw Hop Hcum. unfold ee_enqueue, enqueue, eq_of in *.
  destruct (q_push_absent op (Some p) (Some t) t _ Hw Hop) as (q' & -> & Hw' & Habs & _).
  cbn [mbind res_bind]. eexists _, _. split; [done|]. simpl. rewrite Habs.
  split_and!; try done. apply (cum_ok_enqueue _ _ op (p, t, q_next _)); [done|done|].
  simpl. by destruct (pd_get _ _).
Qed.

Lemma ds_enqueue_spec op p t ds :
  ds_inv ds →
  ∃ ds', ds_enqueue op p t ds = (Ok (bool_decide (place_of ds op = None)), ds') ∧ ds_inv ds' ∧
    side ds' = side ds ∧ pool_of ds' = pool_of ds ∧ executing ds' = executing ds ∧
    result_cache ds' = result_cache ds ∧
    ∀ op', place_of ds' op' =
      if decide (op' = op ∧ place_of ds op = None) then Some (Queued p t) else place_of ds op'.
Proof.
  intros Hi. unfold ds_enqueue. run_goal. rewrite (contains_place ds op Hi).
  destruct (decide (place_of ds op = None)) as [Hn|Hn].
  2: { rewrite bool_decide_eq_true_2 by (by apply not_eq_None_Some).
       rewrite bool_decide_eq_false_2 by done. exists ds. split_and!; try done.
       intros op'. by rewrite decide_False by tauto. }
  rewrite bool_decide_eq_false_2 by (rewrite Hn; by intros []).
  rewrite bool_decide_eq_true_2 by done.
  pose proof (proj1 (place_None ds op Hi) Hn) as (Hq & He & Hr & Hd & Hf).
  destruct (ee_enqueue_spec op p t (executor ds)) as
    (ee' & n & Henq & Hw & Habs & Hcum & Hb & Hex & Hsd & Hp & Hsh);
    [by apply Hi|exact Hq|by apply Hi|].
  unfold in_executor, zoom, run_res. rewrite Henq. eexists. split; [done|].
  destruct Hi as [I1 I2 I3 I4 I5 I6 I7 I8 I9 I10 I11 I12].
  unfold place_of, queue_of, executing, side, running, pool_of in *.
  cbn [executor set_executor result_cache] in *. fold (eq_of ee') in *.
  split_and!; try done.
  - split; unfold queue_of, executing, side, running, pool_of in *;
      cbn [executor set_executor result_cache] in *; rewrite ?Hb, ?Hp, ?Hex, ?Hsd, ?Hsh; try done.
    + intros op' Hop'. rewrite Habs, lookup_insert_ne; [by apply I8|]. intros <-. done.
    + intros op' Hop'. rewrite Habs, lookup_insert_ne; [by apply I9|]. intros <-.
      rewrite Hr in Hop'. by destruct Hop'.
    + intros op' Hop'. rewrite Habs, lookup_insert_ne; [by apply I10|]. intros <-.
      rewrite Hd in Hop'. by destruct Hop'.
    + intros op' Hop'. rewrite Habs, lookup_insert_ne; [by apply I11|]. intros <-.
      rewrite Hf in Hop'. by destruct Hop'.
  - intros op'. rewrite Habs, Hex, Hsd, Hp, lookup_insert.
    destruct (decide (op = op')) as [<-|Hne]; [by rewrite decide_True|].
    destruct (decide (op' = op ∧ _)) as [[-> _]|_]; done.
Qed.

(** *** When the pool loses operations *)

Definition with_pool (p : Pool) ds : Dispatcher Q R :=
  set_executor (set_pool p (executor ds)) ds.

(** What becomes of a running operation that is, or not, still in the pool. *)
Definition left_pool (gone : bool) (x : option (place R)) : option (place R) :=
  match x with
  | Some (Running s p t) => if gone then None else x
  | _ => x
  end.

Lemma pool_shrinks ds p' :
  ds_inv ds → pool_inv p' → pool_length p' = pool_length (pool_of ds) →
  (∀ op s, _operations_reverse p' !! op = Some s → running ds !! op = Some s) →
  ds_inv (with_pool p' ds) ∧
  ∀ op, place_of (with_pool p' ds) op =
    left_pool (negb (is_some (_operations_reverse p' !! op))) (place_of ds op).
Proof.
  intros Hi Hp Hlen Hsub. split.
  - destruct Hi as [I1 I2 I3 I4 I5 I6 I7 I8 I9 I10 I11 I12]. split; try done.
    + unfold pool_of. simpl. congruence.
    + intros op [Hx|[s Hx]]; apply I6; [by left|right; exists s; by apply Hsub].
    + intros op [s Hx]. apply I9. exists s. by apply Hsub.
    + intros op Hop. destruct (I10 op Hop) as (? & ? & Hr). split_and!; try done.
      apply eq_None_not_Some. intros [s Hx%Hsub]. congruence.
    + intros op Hop. destruct (I11 op Hop) as (? & ? & Hr & ?). split_and!; try done.
      apply eq_None_not_Some. intros [s Hx%Hsub]. congruence.
  - intros op. unfold place_of, queue_of, executing, side, running, pool_of in *.
    cbn [executor set_executor with_pool result_cache pool set_pool side_data
         _currently_executing].
    change (eq_of (set_pool p' (executor ds))) with (eq_of (executor ds)).
    destruct (q_abs _ !! op) eqn:Hq; [done|].
    case_decide as He; [by destruct (side_data _ !! op)|].
    destruct (_operations_reverse p' !! op) as [s|] eqn:Hr.
    + rewrite (Hsub op s Hr). by destruct (side_data _ !! op).
    + destruct (_operations_reverse (pool (executor ds)) !! op) as [s|] eqn:Hr'.
      * destruct Hi as [_ _ _ _ _ I6 _ _ _ I10 I11 I12].
        destruct (I6 op) as [x Hx]; [right; unfold running, pool_of; by rewrite Hr'|].
        unfold side in Hx. rewrite Hx. simpl.
        destruct (pd_get (d (result_cache ds)) op) eqn:Hd.
        { destruct (I10 op) as (_ & _ & Hn); [by rewrite Hd|]. unfold running, pool_of in Hn.
          congruence. }
        destruct (pd_get (fd (result_cache ds)) op) eqn:Hf; [|done].
        destruct (I11 op) as (_ & _ & Hn & _); [by rewrite Hf|]. unfold running, pool_of in Hn.
        congruence.
      * destruct (pd_get (d (result_cache ds)) op); [done|].
        by destruct (pd_get (fd (result_cache ds)) op).
Qed.

Lemma requeue_all l ds :
  ds_inv ds → NoDup l →
  (∀ op, op ∈ l → place_of ds op = None ∧ is_Some (side ds !! op)) →
  ∃ ds', for_each requeue l ds = (Ok tt, ds') ∧ ds_inv ds' ∧ side ds' = side ds ∧
    pool_of ds' = pool_of ds ∧ executing ds' = executing ds ∧
    ∀ op, place_of ds' op =
      if decide (op ∈ l) then (λ pt, Queued pt.1 pt.2) <$> side ds !! op else place_of ds op.
Proof.
  revert ds. induction l as [|x l IH]; intros ds Hi Hnd Hl.
  - by exists ds.
  - apply NoDup_cons in Hnd as [Hx Hnd]. destruct (Hl x) as [Hpx [pt Hsx]]; [by left|].
    destruct (ds_enqueue_spec x pt.1 pt.2 ds Hi) as (ds1 & He & Hi1 & Hs1 & Hp1 & He1 & _ & Hpl1).
    assert (requeue x ds = (Ok tt, ds1)) as Hreq.
    { unfold requeue. run_goal. fold (side ds). rewrite Hsx. cbn [or_raise]. by rewrite He. }
    destruct (IH ds1) as (ds' & Hr & Hi' & Hs' & Hp' & He' & Hpl'); [done|done| |].
    { intros op Hop. rewrite Hpl1, Hs1. destruct (Hl op) as [? ?]; [by right|].
      destruct (decide (op = x ∧ _)) as [[-> _]|_]; done. }
    exists ds'. cbn [for_each]. rewrite (M_run_Ok _ _ _ _ _ Hreq). rewrite Hs', Hs1, Hp', Hp1, He', He1.
    split_and!; try done. intros op. rewrite Hpl', Hpl1, Hs1.
    destruct (decide (op ∈ l)) as [Hop|Hop].
    + by rewrite decide_True by by right.
    + destruct (decide (op ∈ x :: l)) as [Hop'|Hop'].
      * apply elem_of_cons in Hop' as [->|]; [|done]. rewrite Hsx. by rewrite decide_True by done.
      * rewrite decide_False; [done|]. intros [-> _]. apply Hop'. by left.
Qed.

(** The pool loses operations and those of [lost] are enqueued again. *)
Definition recovered (lost : list ESOperation) (p' : Pool) op (x : option (place R))
    : option (place R) :=
  match x with
  | Some (Running s p t) =>
      if decide (op ∈ lost) then Some (Queued p t)
      else if is_some (_operations_reverse p' !! op) then x else None
  | _ => x
  end.

Lemma recover ds lost p' :
  ds_inv ds → pool_inv p' → pool_length p' = pool_length (pool_of ds) →
  (∀ op s, _operations_reverse p' !! op = Some s → running ds !! op = Some s) →
  NoDup lost →
  (∀ op, op ∈ lost → is_Some (running ds !! op) ∧ _operations_reverse p' !! op = None) →
  ∃ ds', for_each requeue lost (with_pool p' ds) = (Ok tt, ds') ∧ ds_inv ds' ∧ pool_of ds' = p' ∧
    executing ds' = executing ds ∧
    ∀ op, place_of ds' op = recovered lost p' op (place_of ds op).
Proof.
  intros Hi Hp Hlen Hsub Hnd Hlost.
  destruct (pool_shrinks ds p' Hi Hp Hlen Hsub) as [Hi1 Hpl].
  assert (∀ op s, running ds !! op = Some s →
    ∃ pt, side ds !! op = Some pt ∧ place_of ds op = Some (Running s pt.1 pt.2)) as Hrun.
  { intros op s Hr. destruct (inv_side ds Hi op) as [pt Hs]; [right; by rewrite Hr|].
    destruct (inv_pool_fresh ds Hi op) as [Hq He]; [by rewrite Hr|].
    exists pt. split; [done|]. unfold place_of. by rewrite Hq, decide_False, Hr, Hs. }
  destruct (requeue_all lost (with_pool p' ds) Hi1 Hnd) as (ds' & Hr & Hi' & _ & Hp' & He' & Hpl').
  { intros op Hop. destruct (Hlost op Hop) as [[s Hs] Hn]. destruct (Hrun op s Hs) as (pt & Hsd & Hx).
    rewrite Hpl, Hn, Hx. split; [done|]. unfold side in *. simpl. eauto. }
  exists ds'. split_and!; try done. intros op. rewrite Hpl', Hpl. unfold recovered, left_pool.
  change (side (with_pool p' ds)) with (side ds).
  destruct (decide (op ∈ lost)) as [Hop|Hop].
  - destruct (Hlost op Hop) as [[s Hs] Hn]. destruct (Hrun op s Hs) as (pt & Hsd & ->).
    by rewrite Hsd.
  - destruct (place_of ds op) as [[]|]; try done.
    by destruct (_operations_reverse p' !! op).
Qed.

(** *** Recovering what workers lose *)

(** What becomes of an operation when its worker is taken away from it: it
    goes back to the queue with the priority and the timestamp it had there,
    unless its result was to be ignored. *)
Definition taken_back (hit : Z → bool) (keep : Prop) (x x' : option (place R)) : Prop :=
  match x with
  | Some (Running s p t) =>
      if hit s then (keep → x' = Some (Queued p t)) ∧ (¬ keep → x' = None) else x' = x
  | _ => x' = x
  end.

(** The pool loses the operations of the workers in [hit], and gives back
    those in [lost]. *)
Lemma recover_hit ds lost p' (hit : Z → bool) (keep : ESOperation → Prop) :
  ds_inv ds → pool_inv p' → _worker p' = _worker (pool_of ds) → NoDup lost →
  (∀ op, _operations_reverse p' !! op =
           s ← running ds !! op; if hit s : bool then None else Some s) →
  (∀ op, op ∈ lost ↔ (∃ s, running ds !! op = Some s ∧ hit s = true) ∧ keep op) →
  ∃ ds', for_each requeue lost (with_pool p' ds) = (Ok tt, ds') ∧ ds_inv ds' ∧
    ∀ op, taken_back hit (keep op) (place_of ds op) (place_of ds' op).
Proof.
  intros Hi Hp Hw Hnd Hrev Hlost.
  destruct (recover ds lost p' Hi Hp) as (ds' & Hr & Hi' & Hp' & _ & Hpl); [|..|done| |].
  - unfold pool_length. by rewrite Hw.
  - intros op s. rewrite Hrev. destruct (running ds !! op) as [s'|]; [|done]. simpl.
    by destruct (hit s').
  - intros op ((s & Hs & Hh) & _)%Hlost. rewrite Hrev, Hs. simpl. rewrite Hh. eauto.
  - exists ds'. split_and!; [done|done|]. intros op. rewrite Hpl. unfold recovered, taken_back.
    destruct (place_of ds op) as [[]|] eqn:Hx; try done.
    assert (running ds !! op = Some shard) as Hrun.
    { unfold place_of in Hx. destruct (queue_of ds !! op); [done|].
      case_decide; [by destruct (side ds !! op)|].
      destruct (running ds !! op) as [s'|].
      - destruct (side ds !! op); [|done]. by injection Hx as -> _ _.
      - destruct (pd_get (d _) op); [done|]. by destruct (pd_get (fd _) op). }
    rewrite Hrev, Hrun. simpl.
    assert (op ∈ lost ↔ hit shard = true ∧ keep op) as Hin.
    { rewrite Hlost, Hrun. split; [|by intros []; eauto]. by intros ((? & [= <-] & ?) & ?). }
    destruct (hit shard).
    + split; intros Hk; [by rewrite decide_True by by apply Hin|].
      by rewrite decide_False by by intros [_ ?]%Hin.
    + rewrite decide_False; [done|]. by intros [? _]%Hin.
Qed.

Lemma zoom_pool {A} (m : M Pool A) ds r p' :
  m (pool_of ds) = (r, p') →
  in_executor (in_pool m) ds = (r, with_pool p' ds).
Proof. intros Hm. unfold in_executor, in_pool, zoom. fold (pool_of ds). by rewrite Hm. Qed.

Lemma check_workers_timeout_spec now ds :
  ds_inv ds →
  ∃ ds', check_workers_timeout now ds = (Ok true, ds') ∧ ds_inv ds' ∧
    ∀ op, taken_back (expired now (pool_of ds)) (¬ ignored (pool_of ds) op)
            (place_of ds op) (place_of ds' op).
Proof.
  intros Hi.
  destruct (check_timeouts_spec now (pool_of ds) (inv_pool ds Hi))
    as (lost & p' & Hc & Hp & Hw & Hnd & Hrev & Hlost).
  destruct (recover_hit ds lost p' (expired now (pool_of ds)) (λ op, ¬ ignored (pool_of ds) op) Hi
    Hp Hw Hnd Hrev Hlost) as (ds' & Hr & Hi' & Hpl).
  exists ds'. split_and!; [|done|done]. unfold check_workers_timeout.
  rewrite (M_run_Ok _ _ _ _ _ (zoom_pool _ ds _ _ Hc)). by rewrite (M_run_Ok _ _ _ _ _ Hr).
Qed.

Lemma check_workers_connection_spec ds :
  ds_inv ds →
  ∃ ds', check_workers_connection ds = (Ok true, ds') ∧ ds_inv ds' ∧
    ∀ op, taken_back (disconnected (pool_of ds)) True (place_of ds op) (place_of ds' op).
Proof.
  intros Hi.
  destruct (check_connections_spec (pool_of ds) (inv_pool ds Hi))
    as (lost & p' & Hc & Hp & Hw & Hnd & Hrev & Hlost).
  destruct (recover_hit ds lost p' (disconnected (pool_of ds)) (λ _, True) Hi Hp Hw Hnd Hrev)
    as (ds' & Hr & Hi' & Hpl); [intros op; rewrite Hlost; unfold running; naive_solver|].
  exists ds'. split_and!; [|done|done]. unfold check_workers_connection.
  rewrite (M_run_Ok _ _ _ _ _ (zoom_pool _ ds _ _ Hc)). by rewrite (M_run_Ok _ _ _ _ _ Hr).
Qed.

Lemma disable_worker_lost shard ds :
  ds_inv ds → known (pool_of ds) shard →
  ∃ ds', ds_disable_worker shard ds =
      (Ok (bool_decide (pd_get (_operations (pool_of ds)) shard ≠ Some WORKER_DISABLED)), ds') ∧
    ds_inv ds' ∧
    (pd_get (_operations (pool_of ds)) shard = Some WORKER_DISABLED →
       ∀ op, place_of ds' op = place_of ds op) ∧
    (pd_get (_operations (pool_of ds)) shard ≠ Some WORKER_DISABLED →
       ∀ op, taken_back (λ s, bool_decide (shard = s)) (¬ ignored (pool_of ds) op)
               (place_of ds op) (place_of ds' op)).
Proof.
  intros Hi Hk. pose proof (disable_worker_spec shard _ (inv_pool ds Hi) Hk) as Hd.
  unfold ds_disable_worker. destruct (decide (pd_get (_operations (pool_of ds)) shard =
    Some WORKER_DISABLED)) as [Ho|Ho].
  - rewrite bool_decide_eq_false_2 by tauto. rewrite Ho in Hd.
    assert (with_pool (pool_of ds) ds = ds) as Hsame
      by (by destruct ds as [[[] ? ? ? ? ?] ?]).
    exists ds. split_and!; [|done|done|done].
    unfold mbind at 1, M_bind, try_except.
    rewrite (M_run_Raise _ _ _ _ _ (zoom_pool _ ds _ _ Hd)), Hsame. done.
  - rewrite bool_decide_eq_true_2 by done.
    assert (∃ lost p', disable_worker shard (pool_of ds) = (Ok lost, p') ∧ pool_inv p' ∧
      _worker p' = _worker (pool_of ds) ∧ NoDup lost ∧
      (∀ op, _operations_reverse p' !! op =
         s' ← running ds !! op; if decide (shard = s') then None else Some s') ∧
      (∀ op, op ∈ lost ↔ running ds !! op = Some shard ∧ ¬ ignored (pool_of ds) op))
      as (lost & p' & Hc & Hp & Hw & Hnd & Hrev & Hlost).
    { by destruct (pd_get (_operations (pool_of ds)) shard) as [[]|]. }
    destruct (recover_hit ds lost p' (λ s, bool_decide (shard = s))
      (λ op, ¬ ignored (pool_of ds) op) Hi Hp Hw Hnd) as (ds' & Hr & Hi' & Hpl).
    + intros op. rewrite Hrev. destruct (running ds !! op) as [s|]; [|done]. simpl.
      destruct (decide (shard = s)); [by rewrite bool_decide_eq_true_2|
        by rewrite bool_decide_eq_false_2].
    + intros op. rewrite Hlost. split; [|by intros [(s & Hs & <-%bool_decide_eq_true_1) ?]].
      intros [? ?]. split; [|done]. exists shard. by rewrite bool_decide_eq_true_2.
    + exists ds'. split_and!; [|done|done|done]. unfold mbind at 1, M_bind, try_except.
      rewrite (M_run_Ok _ _ _ _ _ (zoom_pool _ ds _ _ Hc)). cbn.
      by rewrite (M_run_Ok _ _ _ _ _ Hr).
Qed.

(** *** From the queue to the executor *)

(** What a run of [ee_pop] keeps. *)
Definition popping (ee0 ee : EvaluationExecutor Q) : Prop :=
  cum_ok (q_abs (eq_of ee)) (queue_status_cumulative ee) ∧
  _batch_executions (base ee) = _batch_executions (base ee0) ∧
  _currently_executing ee = _currently_executing ee0 ∧ side_data ee = side_data ee0 ∧
  pool ee = pool ee0.

Lemma ee_pop_ok ee0 w ee e q' :
  popping ee0 ee → q_wf (eq_of ee) → q_pop w (eq_of ee) = Ok (e, q') →
  ∃ ee', ee_pop w ee = Ok (e, ee') ∧ eq_of ee' = q' ∧ popping ee0 ee'.
Proof.
  intros (Hc & Hb & He & Hs & Hp) Hw Hpop.
  assert (q_abs (eq_of ee) ≠ ∅) as Hne.
  { intros Hem. rewrite q_pop_empty in Hpop by done. by destruct w. }
  destruct (q_pop_nonempty w (eq_of ee) Hw Hne) as (e' & q1 & Hpop' & _ & Hk & _ & Habs & _).
  rewrite Hpop in Hpop'. injection Hpop' as <- <-.
  destruct (remove_from_cum _ _ e Hc Hk) as (cum' & Hcum & Hok).
  unfold ee_pop, _pop. unfold eq_of in Hpop. rewrite Hpop. cbn [mbind res_bind].
  rewrite Hcum. cbn [mbind res_bind]. eexists. split_and!; [done|done|].
  unfold popping, eq_of in *. simpl in *. rewrite Habs. done.
Qed.

Lemma ee_pop_empty ee0 w ee :
  popping ee0 ee → q_wf (eq_of ee) → q_abs (eq_of ee) = ∅ →
  ee_pop w ee = if w then Blocks else Raise LookupError.
Proof.
  intros _ Hw He. unfold ee_pop, _pop. pose proof (q_pop_empty w _ Hw He) as Hp.
  unfold eq_of in Hp. rewrite Hp. by destruct w.
Qed.

(** The side data of a batch. *)
Definition give_side (es : list (QueueEntry ESOperation)) (m : gmap ESOperation (Z * Z)) :=
  foldl (λ m e, <[item e := (priority e, timestamp e)]> m) m es.

Lemma give_side_notin es m op : op ∉ item <$> es → give_side es m !! op = m !! op.
Proof.
  unfold give_side. revert m. induction es as [|e es IH]; intros m; csimpl; [done|].
  rewrite not_elem_of_cons. intros [Hne Hop]. rewrite IH by done.
  by rewrite lookup_insert_ne.
Qed.

Lemma give_side_in es m e :
  NoDup (item <$> es) → e ∈ es → give_side es m !! item e = Some (priority e, timestamp e).
Proof.
  revert m. induction es as [|x es IH]; intros m; csimpl; [by intros _ ?%elem_of_nil|].
  intros [Hx Hnd]%NoDup_cons [<-|He]%elem_of_cons; [|by apply IH].
  change (give_side es (<[item e:=(priority e, timestamp e)]> m) !! item e =
          Some (priority e, timestamp e)).
  rewrite give_side_notin by done. apply lookup_insert_eq.
Qed.

Lemma start_execute_eq es ee :
  start_execute es ee =
    (Ok tt, set_executing (item <$> es) (set_side_data (give_side es (side_data ee)) ee)).
Proof.
  unfold start_execute. unfold mbind at 1, M_bind, modify at 1.
  assert (∀ es l ee, _currently_executing ee = l → shared_with ee = None →
    for_each (λ e,
      _ ← modify (λ ee, set_side_data (<[item e := (priority e, timestamp e)]> (side_data ee)) ee);
      modify (λ ee, set_executing (_currently_executing ee ++ [item e]) ee)) es ee =
    (Ok tt, set_executing (l ++ (item <$> es))
              (set_side_data (give_side es (side_data ee)) ee))) as Hloop.
  { clear. induction es as [|e es IH]; intros l ee Hl Hs; csimpl.
    - rewrite app_nil_r, <- Hl. destruct ee. simpl in Hs. by rewrite Hs.
    - unfold mbind at 1 2, M_bind, modify at 1 2.
      refine (eq_trans (IH (l ++ [item e]) _ _ _) _); [simpl; by rewrite Hl|done|].
      by rewrite <- app_assoc. }
  exact (Hloop es [] (set_executing [] ee) eq_refl eq_refl).
Qed.

(** The batch that is moved from the queue. *)
Definition moved (items : list ESOperation) op (x : option (place R)) : option (place R) :=
  match x with
  | Some (Queued p t) => if decide (op ∈ items) then Some (Executing p t) else x
  | _ => x
  end.

(** The size of a batch: the length of the rest of the queue over the number
    of workers, plus one, at most 25. *)
Definition batch_size_of (n workers : nat) : nat :=
  Nat.min n (Nat.min (S ((n - 1) / workers)) 25).

Lemma take_batch_inv ds es ee' :
  ds_inv ds → executing ds = [] → popping (executor ds) ee' → q_wf (eq_of ee') →
  batch_of (eq_of (executor ds)) es (eq_of ee') →
  let ds' := set_executor (set_executing (item <$> es)
               (set_side_data (give_side es (side_data ee')) ee')) ds in
  ds_inv ds' ∧ ∀ op, place_of ds' op = moved (item <$> es) op (place_of ds op).
Proof.
  intros Hi Hex (Hc & Hb & He & Hs & Hp) Hw Hbatch ds'.
  pose proof (batch_NoDup _ _ _ Hbatch) as Hnd.
  assert (∀ op, op ∈ item <$> es →
    ∃ k : PriorityQueue.key, queue_of ds !! op = Some k ∧ q_abs (eq_of ee') !! op = None ∧
         give_side es (side_data ee') !! op = Some (k.1.1, k.1.2)) as Hin.
  { intros op (e & -> & He')%list_elem_of_fmap. exists (ekey e). split_and!.
    - by apply (batch_in _ _ _ e Hbatch).
    - by apply (batch_disjoint _ _ _ Hbatch).
    - by apply give_side_in. }
  assert (∀ op, op ∉ item <$> es → q_abs (eq_of ee') !! op = queue_of ds !! op) as Hout.
  { intros op Hop. apply option_eq. intros k. unfold queue_of.
    rewrite (batch_split _ _ _ Hbatch op k). split; [by right|].
    intros [(e & He' & <- & _)|?]; [|done]. destruct Hop. apply list_elem_of_fmap. eauto. }
  assert (∀ op, queue_of ds !! op = None → (op ∉ item <$> es) ∧ q_abs (eq_of ee') !! op = None)
    as Hnone.
  { intros op Hop. assert (op ∉ item <$> es) as Hn; [|by rewrite Hout].
    intros Hop'. destruct (Hin op Hop') as (k & ? & _). congruence. }
  destruct Hi as [I1 I2 I3 I4 I5 I6 I7 I8 I9 I10 I11 I12]. split.
  - split; unfold ds', queue_of, executing, side, running, pool_of in *;
      cbn [executor set_executor result_cache pool side_data _currently_executing
           set_executing set_side_data base queue_status_cumulative] in *; try done.
    + congruence.
    + by rewrite Hp.
    + by rewrite Hp.
    + intros op [Hop|Hop].
      * destruct (Hin op Hop) as (k & _ & _ & ->). eauto.
      * rewrite Hp in Hop. destruct (I9 op Hop) as [Hq _]. destruct (Hnone op Hq) as [Hn _].
        rewrite give_side_notin, Hs by done. apply I6. by right.
    + intros op Hop. by destruct (Hin op Hop) as (k & _ & ? & _).
    + intros op Hop. rewrite Hp in Hop. destruct (I9 op Hop) as [Hq _].
      destruct (Hnone op Hq) as [? ?]. by split.
    + intros op Hop. destruct (I10 op Hop) as (Hq & _ & Hr). destruct (Hnone op Hq) as [? ?].
      rewrite Hp. by split_and!.
    + intros op Hop. destruct (I11 op Hop) as (Hq & _ & Hr & ?). destruct (Hnone op Hq) as [? ?].
      rewrite Hp. by split_and!.
  - intros op. unfold place_of, moved.
    change (queue_of ds') with (q_abs (eq_of ee')). change (executing ds') with (item <$> es).
    change (side ds') with (give_side es (side_data ee')). change (running ds') with
      (_operations_reverse (pool ee')). rewrite Hp. change (result_cache ds') with (result_cache ds).
    destruct (decide (op ∈ item <$> es)) as [Hop|Hop].
    + destruct (Hin op Hop) as (k & -> & -> & ->). done.
    + rewrite Hout, give_side_notin, Hs, Hex by done.
      destruct (queue_of ds !! op) as [k|]; [done|].
      rewrite decide_False by apply not_elem_of_nil.
      fold (running ds). fold (side ds). unfold running, pool_of, side.
      destruct (_operations_reverse (pool (executor ds)) !! op);
        [by destruct (side_data (executor ds) !! op)|].
      destruct (pd_get (d _) op); [done|]. by destruct (pd_get (fd _) op).
Qed.

Lemma ee_pop_size w ee e ee1 :
  q_wf (eq_of ee) → ee_pop w ee = Ok (e, ee1) →
  q_length (eq_of ee1) = size (q_abs (eq_of ee)) - 1 ∧ pool ee1 = pool ee.
Proof.
  intros Hw Hpop. unfold ee_pop, _pop in Hpop. fold (eq_of ee) in Hpop.
  assert (q_abs (eq_of ee) ≠ ∅) as Hne.
  { intros Hem. rewrite q_pop_empty in Hpop by done. by destruct w. }
  destruct (q_pop_nonempty w (eq_of ee) Hw Hne) as (e' & q1 & Hq & Hw1 & Hk & _ & Habs & _).
  rewrite Hq in Hpop. cbn [mbind res_bind] in Hpop.
  apply res_bind_Ok in Hpop as (cum & _ & [= <- <-]). split; [|done].
  unfold eq_of at 1. simpl. rewrite q_length_law, Habs, map_size_delete, Hk by done. simpl. lia.
Qed.

Lemma take_batch_spec ds :
  ds_inv ds → executing ds = [] →
  (queue_of ds = ∅ ∧ in_executor take_batch ds = (Blocks, ds)) ∨
  ∃ es ds', in_executor take_batch ds = (Ok tt, ds') ∧ ds_inv ds' ∧
    batch_of (eq_of (executor ds)) es (eq_of (executor ds')) ∧ executing ds' = item <$> es ∧
    List.length es = batch_size_of (size (queue_of ds)) (pool_length (pool_of ds)) ∧
    pool_of ds' = pool_of ds ∧
    ∀ op, place_of ds' op = moved (item <$> es) op (place_of ds op).
Proof.
  intros Hi Hex. set (ee := executor ds).
  assert (popping ee ee) as Hpop by (split_and!; [apply Hi|done..]).
  destruct (run_collect_spec eq_of ee_pop (popping ee)) with
    (batch := _batch_executions (base ee)) (max_ops := ee_max_operations_per_batch (Q:=Q)) (s := ee)
    as [[He Hb]|(es & ee1 & m & ee' & Hr & Hpop' & Hw' & [e He1] & Hm & Hbatch & Hlen)].
  - intros w s e q'. apply ee_pop_ok.
  - intros w s. apply ee_pop_empty.
  - done.
  - apply Hi.
  - intros s (_ & _ & _ & _ & Hp). unfold ee_max_operations_per_batch.
    rewrite Hp. unfold ee. fold (pool_of ds). rewrite (proj2 (Nat.eqb_neq _ _) (inv_workers ds Hi)). eauto.
  - left. split; [done|]. unfold in_executor, zoom, take_batch. fold ee.
    unfold mbind, M_bind, run_res, ee_collect. rewrite Hb. by destruct ds.
  - right. destruct (take_batch_inv ds es ee' Hi Hex Hpop' Hw' Hbatch) as [Hi' Hpl].
    eexists es, _. split; [|split; [exact Hi'|split; [exact Hbatch|split; [done|split; [|split; [apply Hpop'|exact Hpl]]]]]].
    + unfold in_executor, zoom, take_batch. fold ee.
      unfold mbind, M_bind, run_res, ee_collect. rewrite Hr. by rewrite start_execute_eq.
    + rewrite Hlen. unfold ee. rewrite (inv_batch ds Hi).
      destruct (ee_pop_size true ee e ee1 (inv_queue ds Hi) He1) as [Hl Hp].
      unfold ee_max_operations_per_batch in Hm. rewrite Hl, Hp in Hm. unfold ee in Hm.
      fold (pool_of ds) in Hm. fold (queue_of ds) in Hm |- *.
      rewrite (proj2 (Nat.eqb_neq _ _) (inv_workers ds Hi)) in Hm. injection Hm as <-.
      unfold batch_len, batch_size_of, MAX_OPERATIONS_PER_BATCH.
      destruct (Nat.eqb_spec (Nat.min (Nat.max ((size (queue_of ds) - 1) /
        pool_length (pool_of ds) + 1) 1) 25) 0); lia.
Qed.

Lemma place_Running ds op s p t :
  place_of ds op = Some (Running s p t) → running ds !! op = Some s.
Proof.
  unfold place_of. destruct (queue_of ds !! op); [done|].
  case_decide; [by destruct (side ds !! op)|].
  destruct (running ds !! op) as [s'|].
  - destruct (side ds !! op); [|done]. by intros [= -> _ _].
  - destruct (pd_get (d _) op); [done|]. by destruct (pd_get (fd _) op).
Qed.

Lemma place_pool_same ds p' :
  ds_inv ds → pool_inv p' → pool_length p' = pool_length (pool_of ds) →
  _operations_reverse p' = running ds →
  ds_inv (with_pool p' ds) ∧ ∀ op, place_of (with_pool p' ds) op = place_of ds op.
Proof.
  intros Hi Hp Hw Hrev. destruct (pool_shrinks ds p' Hi Hp) as [Hi' Hpl]; [done|..].
  - intros op s. by rewrite Hrev.
  - split; [done|]. intros op. rewrite Hpl, Hrev. unfold left_pool.
    destruct (place_of ds op) as [[]|] eqn:Hx; try done.
    by rewrite (place_Running _ _ _ _ _ Hx).
Qed.

(** *** From the executor to a worker *)

(** The executing operations when worker [s] gets them. *)
Definition given (s : Z) (x : option (place R)) : option (place R) :=
  match x with
  | Some (Executing p t) => Some (Running s p t)
  | _ => x
  end.

Lemma execute_iteration_run now rnd jg ee :
  _currently_executing ee ≠ [] →
  execute_iteration now rnd jg ee =
    if _workers_available_event (pool ee) then
      match acquire_worker (_currently_executing ee) now rnd jg (pool ee) with
      | (Ok (Some _), p') => (Ok true, set_executing [] (set_pool p' ee))
      | (Ok None, p') => (Ok false, set_pool p' ee)
      | (Raise e, p') =>
          (Raise e, set_shared_with (taker (_currently_executing ee) p') (set_pool p' ee))
      | (Blocks, p') => (Blocks, set_pool p' ee)
      | (NoFuel, p') => (NoFuel, set_pool p' ee)
      end
    else (Blocks, ee).
Proof.
  intros Hex. unfold execute_iteration, acquire_for, in_pool, zoom, wait_for_workers. run_goal.
  rewrite decide_False by done. destruct (_workers_available_event (pool ee)) eqn:Hev.
  - replace (set_pool (pool ee) ee) with ee by by destruct ee.
    by destruct (acquire_worker _ now rnd jg (pool ee)) as [[[]| | |] p'].
  - by destruct ee.
Qed.

(** The state once a worker of the pool [p'] has the batch. *)
Definition handed (p' : Pool) ds : Dispatcher Q R :=
  set_executor (set_executing [] (set_pool p' (executor ds))) ds.

Lemma given_inv ds s p' :
  ds_inv ds → pool_inv p' → _worker p' = _worker (pool_of ds) →
  (∀ op, _operations_reverse p' !! op = if decide (op ∈ executing ds) then Some s else running ds !! op) →
  ds_inv (handed p' ds) ∧ ∀ op, place_of (handed p' ds) op = given s (place_of ds op).
Proof.
  intros Hi Hp' Hw Hrev. set (l := executing ds) in *. split.
  - destruct Hi as [I1 I2 I3 I4 I5 I6 I7 I8 I9 I10 I11 I12].
    split; unfold handed, queue_of, side, running, pool_of in *;
      cbn [executor set_executor result_cache pool side_data set_executing set_pool] in *; try done.
    + unfold pool_length in *. by rewrite Hw.
    + apply NoDup_nil_2.
    + intros op [Hop|Hop]; [by apply elem_of_nil in Hop|]. rewrite Hrev in Hop.
      apply I6. case_decide; auto.
    + intros op Hop. by apply elem_of_nil in Hop.
    + intros op Hop. rewrite Hrev in Hop. split; [|apply not_elem_of_nil].
      case_decide; [by apply I8|by apply I9].
    + intros op Hop. destruct (I10 op Hop) as (? & Hn & ?).
      rewrite Hrev, decide_False by done. split_and!; [done|apply not_elem_of_nil|done].
    + intros op Hop. destruct (I11 op Hop) as (? & Hn & ? & ?).
      rewrite Hrev, decide_False by done. split_and!; [done|apply not_elem_of_nil|done|done].
  - intros op. unfold place_of, given. unfold queue_of, side, handed.
    cbn [executor set_executor result_cache].
    change (eq_of (set_executing [] (set_pool p' (executor ds)))) with (eq_of (executor ds)).
    destruct (q_abs _ !! op); [done|].
    change (executing (set_executor _ ds)) with (@nil ESOperation).
    rewrite decide_False by apply not_elem_of_nil.
    change (running (set_executor _ ds)) with (_operations_reverse p'). rewrite Hrev.
    change (side_data (set_executing [] (set_pool p' (executor ds)))) with (side_data (executor ds)).
    fold l. destruct (decide (op ∈ l)); [by destruct (side_data (executor ds) !! op)|].
    destruct (running ds !! op); [by destruct (side_data (executor ds) !! op)|].
    destruct (pd_get (d _) op); [done|]. by destruct (pd_get (fd _) op).
Qed.

Lemma executing_fresh ds : ds_inv ds → fresh (pool_of ds) (executing ds).
Proof.
  intros Hi. split; [apply Hi|]. intros op Hop Hr. by destruct (inv_pool_fresh ds Hi op Hr).
Qed.

(** A dispatcher whose executor still has the batch [l] that it gave up;
    worker [s] of [sh = Some s] has the same list. *)
Definition leave (l : list ESOperation) (sh : option Z) ds : Dispatcher Q R :=
  set_executor (set_shared_with sh (set_executing l (executor ds))) ds.

(** The answers of an iteration: no worker may be free, none is, or one is
    found, and it gets the batch if the job group [jg] can be built. *)
Lemma execute_iteration_spec now rnd jg ds :
  ds_inv ds → executing ds ≠ [] →
  (in_executor (execute_iteration now rnd jg) ds = (Blocks, ds) ∧
     _workers_available_event (pool_of ds) = false) ∨
  (∃ ds', in_executor (execute_iteration now rnd jg) ds = (Ok false, ds') ∧ ds_inv ds' ∧
     (∀ s, ¬ idle (pool_of ds) s) ∧ (∀ op, place_of ds' op = place_of ds op)) ∨
  (∃ s p', idle (pool_of ds) s ∧ ds_inv (handed p' ds) ∧
     (∀ op, place_of (handed p' ds) op = given s (place_of ds op)) ∧
     match jg with
     | Ok _ => in_executor (execute_iteration now rnd jg) ds = (Ok true, handed p' ds) ∧
         p' = send (ExecuteJobGroup s (executing ds)) (give s (executing ds) now (pool_of ds))
     | Raise e =>
         in_executor (execute_iteration now rnd jg) ds =
           (Raise e, leave (executing ds) (Some s) (handed p' ds)) ∧
         p' = give s (executing ds) now (pool_of ds)
     | _ => True
     end).
Proof.
  intros Hi Hex. set (l := executing ds).
  pose proof (executing_fresh ds Hi) as Hfr. fold l in Hfr.
  assert (∀ r ee', execute_iteration now rnd jg (executor ds) = (r, ee') →
    in_executor (execute_iteration now rnd jg) ds = (r, set_executor ee' ds)) as Hzoom.
  { intros r ee' Hr. unfold in_executor, zoom. by rewrite Hr. }
  pose proof (execute_iteration_run now rnd jg (executor ds) Hex) as Hrun.
  fold (pool_of ds) in Hrun. fold (executing ds) in Hrun. fold l in Hrun.
  destruct (_workers_available_event (pool_of ds)) eqn:Hev.
  2: { left. split; [|done]. rewrite (Hzoom Blocks (executor ds)) by done. by destruct ds. }
  right. pose proof (proj1 (inv_pool ds Hi)) as Hok.
  destruct (acquire_worker_ok l now rnd jg (pool_of ds) Hok Hfr) as [[Hn Ha]|(s & Hs & _ & Ha)].
  - left. set (p' := set_event false (pool_of ds)) in *.
    assert (pool_inv p') as Hp'
      by (by eapply pool_step_inv; [eapply step_acquire; [exact Hfr|exact Ha]|apply Hi]).
    destruct (place_pool_same ds p' Hi Hp') as [Hi' Hpl]; [done|done|].
    exists (with_pool p' ds). split_and!; [|done|done|done]. apply Hzoom. by rewrite Hrun, Ha.
  - right. set (g := give s l now (pool_of ds)) in *.
    set (p' := match jg with Ok _ => send (ExecuteJobGroup s l) g | _ => g end).
    assert (pool_inv p') as Hp'.
    { unfold p'. eapply pool_step_inv; [|apply (inv_pool ds Hi)].
      destruct jg; (eapply step_acquire; [exact Hfr|exact Ha]). }
    assert (∀ op, _operations_reverse p' !! op =
      if decide (op ∈ l) then Some s else running ds !! op) as Hrev.
    { intros op. rewrite <- (lookup_give l s). unfold p'. by destruct jg. }
    destruct (given_inv ds s p' Hi Hp') as [Hi' Hpl]; [unfold p'; by destruct jg|exact Hrev|].
    exists s, p'. split_and!; [done|done|done|].
    destruct jg; [..|done|done]; (split; [|done]).
    + apply Hzoom. by rewrite Hrun, Ha.
    + assert (taker l g = Some s) as Ht.
      { unfold taker. destruct l as [|x l'] eqn:Hl; [done|]. cbn [head mbind option_bind].
        change g with p'. rewrite Hrev. by rewrite decide_True by by left. }
      unfold in_executor, zoom. rewrite Hrun, Ha, Ht. done.
Qed.

(** *** Dequeuing *)

Lemma remove_first_spec op l :
  NoDup l →
  match remove_first op l with
  | Some l' => op ∈ l ∧ NoDup l' ∧ ∀ x, x ∈ l' ↔ x ∈ l ∧ x ≠ op
  | None => op ∉ l
  end.
Proof.
  induction l as [|y l IH]; intros Hnd; [by apply not_elem_of_nil|].
  apply NoDup_cons in Hnd as [Hy Hnd]. specialize (IH Hnd). cbn [remove_first].
  case_decide as Hyo.
  - subst y. split_and!; [by left|done|]. intros x. rewrite elem_of_cons.
    split; [|by intros [[->|?] ?]]. intros Hx. split; [by right|]. by intros ->.
  - destruct (remove_first op l) as [l'|]; simpl.
    + destruct IH as (Hop & Hnd' & Hl'). split_and!; [by right| |].
      * apply NoDup_cons. split; [|done]. by intros [? _]%Hl'.
      * intros x. rewrite !elem_of_cons, Hl'. naive_solver.
    + rewrite not_elem_of_cons. split; [congruence|done].
Qed.

(** An operation that waits is forgotten. *)
Definition dropped (x : option (place R)) : option (place R) :=
  match x with
  | Some (Queued _ _) | Some (Executing _ _) => None
  | _ => x
  end.

Definition waits (x : option (place R)) : bool :=
  match x with
  | Some (Queued _ _) | Some (Executing _ _) => true
  | _ => false
  end.

(** The state with an operation less in the queue or among the executing. *)
Lemma drop_inv ds op q cum l :
  ds_inv ds → q_wf q →
  q_abs q = delete op (queue_of ds) → cum_ok (q_abs q) cum →
  NoDup l → (∀ x, x ∈ l ↔ x ∈ executing ds ∧ x ≠ op) →
  op ∈ executing ds ∨ is_Some (queue_of ds !! op) →
  let ds' := set_executor (mkEE (mkExecutor true q) l (side ds) (pool_of ds) cum None) ds in
  ds_inv ds' ∧ ∀ op', place_of ds' op' = if decide (op' = op) then dropped (place_of ds op')
                                         else place_of ds op'.
Proof.
  intros Hi Hw Habs Hcum Hnd Hl Hop ds'.
  assert (∀ x, queue_of ds !! x = None → q_abs q !! x = None) as Hnone.
  { intros x Hx. rewrite Habs, lookup_delete_None. by right. }
  assert (∀ x, x ∉ executing ds → x ∉ l) as Hnl by (intros x Hx [? _]%Hl; done).
  split.
  - destruct Hi as [I1 I2 I3 I4 I5 I6 I7 I8 I9 I10 I11 I12].
    split; unfold ds', queue_of, executing, side, running, pool_of, eq_of in *;
      cbn [executor set_executor result_cache pool side_data _currently_executing base
           _operation_queue _batch_executions queue_status_cumulative] in *; try done.
    + intros x [[Hx _]%Hl|Hx]; apply I6; auto.
    + intros x [Hx _]%Hl. by apply Hnone, I8.
    + intros x Hx. destruct (I9 x Hx). auto.
    + intros x Hx. destruct (I10 x Hx) as (? & ? & ?). auto.
    + intros x Hx. destruct (I11 x Hx) as (? & ? & ? & ?). auto.
  - intros x. unfold place_of. change (queue_of ds') with (q_abs q).
    change (executing ds') with l. change (side ds') with (side ds).
    change (running ds') with (running ds). change (result_cache ds') with (result_cache ds).
    rewrite Habs. destruct (decide (x = op)) as [->|Hne].
    + rewrite lookup_delete_eq. rewrite decide_False by (intros [_ ?]%Hl; done).
      assert (running ds !! op = None ∧ pd_get (d (result_cache ds)) op = None ∧
        pd_get (fd (result_cache ds)) op = None) as (-> & -> & ->).
      { destruct Hi as [_ _ _ _ _ _ _ I8 I9 I10 I11 I12].
        split_and!; apply eq_None_not_Some; intros Hx.
        - destruct (I9 op Hx) as [Hq ?]. rewrite Hq in Hop. destruct Hop as [?|[]]; done.
        - destruct (I10 op Hx) as (Hq & ? & _). rewrite Hq in Hop. destruct Hop as [?|[]]; done.
        - destruct (I11 op Hx) as (Hq & ? & _). rewrite Hq in Hop. destruct Hop as [?|[]]; done. }
      destruct (queue_of ds !! op); [done|].
      case_decide; [by destruct (side ds !! op)|done].
    + rewrite lookup_delete_ne by done. destruct (queue_of ds !! x); [done|].
      destruct (decide (x ∈ executing ds)) as [Hx|Hx].
      * by rewrite decide_True by by apply Hl.
      * by rewrite decide_False by by apply Hnl.
Qed.

Lemma ee_dequeue_queued op ee e q' cum' :
  q_remove op (eq_of ee) = Ok (e, q') →
  _remove_from_cumulative_status e (queue_status_cumulative ee) = Ok cum' →
  ee_dequeue op ee =
    (Ok tt, set_cumulative cum' (set_base (mkExecutor (_batch_executions (base ee)) q') ee)).
Proof.
  intros Hrem Hcum. unfold ee_dequeue, try_except, mbind, M_bind, zoom, run_res, dequeue,
    gets, lift, modify.
  unfold eq_of in Hrem. rewrite Hrem. cbn [mbind res_bind].
  cbn [queue_status_cumulative set_base]. by rewrite Hcum.
Qed.

Lemma ee_dequeue_other op ee :
  q_remove op (eq_of ee) = Raise KeyError →
  ee_dequeue op ee =
    match remove_first op (_currently_executing ee) with
    | Some l => (Ok tt, shrink_executing l ee)
    | None => (Raise KeyError, ee)
    end.
Proof.
  intros Hrem. unfold ee_dequeue, try_except, mbind, M_bind, zoom, run_res, dequeue, gets.
  unfold eq_of in Hrem. rewrite Hrem. cbn [mbind res_bind].
  unfold is_key_error. rewrite bool_decide_eq_true_2 by done.
  replace (set_base (base ee) ee) with ee by by destruct ee.
  by destruct (remove_first op (_currently_executing ee)).
Qed.

Lemma ds_dequeue_spec op ds :
  ds_inv ds →
  ∃ ds', in_executor (ee_dequeue op) ds =
      (if waits (place_of ds op) then Ok tt else Raise KeyError, ds') ∧
    ds_inv ds' ∧ pool_of ds' = pool_of ds ∧
    ∀ op', place_of ds' op' = if decide (op' = op) then dropped (place_of ds op')
                              else place_of ds op'.
Proof.
  intros Hi. pose proof (inv_queue ds Hi) as Hw.
  assert (∀ r ee', ee_dequeue op (executor ds) = (r, ee') →
    in_executor (ee_dequeue op) ds = (r, set_executor ee' ds)) as Hzoom.
  { intros r ee' Hr. unfold in_executor, zoom. by rewrite Hr. }
  destruct (queue_of ds !! op) as [k|] eqn:Hq.
  - destruct (q_remove_present op _ k Hw Hq) as (e & q' & Hrem & Hw' & <- & Hk & Habs & _).
    destruct (remove_from_cum _ _ e (inv_cum ds Hi)) as (cum' & Hcum & Hok); [congruence|].
    fold (queue_of ds) in Habs.
    destruct (drop_inv ds (item e) q' cum' (executing ds) Hi Hw' Habs) as [Hi' Hpl].
    + by rewrite Habs.
    + apply Hi.
    + intros x. split; [|by intros []]. intros Hx. split; [done|]. intros ->.
      rewrite (inv_exec_fresh ds Hi) in Hq by done. done.
    + right. eauto.
    + eexists. split; [|split; [exact Hi'|split; [done|exact Hpl]]].
      unfold place_of. rewrite Hq. apply Hzoom.
      rewrite (ee_dequeue_queued _ _ _ _ _ Hrem Hcum).
      rewrite <- (inv_shared ds Hi). by rewrite (inv_batch ds Hi).
  - pose proof (ee_dequeue_other op (executor ds) (q_remove_absent op _ Hw Hq)) as Hrun.
    pose proof (remove_first_spec op (executing ds) (inv_executing ds Hi)) as Hrf.
    fold (executing ds) in Hrun. destruct (remove_first op (executing ds)) as [l'|].
    + destruct Hrf as (Hop & Hnd & Hl).
      destruct (drop_inv ds op (eq_of (executor ds)) (queue_status_cumulative (executor ds)) l' Hi Hw)
        as [Hi' Hpl]; [|apply Hi|done|done|by left|].
      { symmetry. by apply delete_id. }
      eexists. split; [|split; [exact Hi'|split; [done|exact Hpl]]].
      assert (waits (place_of ds op) = true) as ->.
      { unfold place_of. rewrite Hq, decide_True by done.
        destruct (inv_side ds Hi op) as [pt ->]; [by left|done]. }
      rewrite (Hzoom _ _ Hrun). unfold shrink_executing, side, pool_of.
      rewrite (inv_shared ds Hi), <- (inv_batch ds Hi). unfold eq_of. by destruct (base (executor ds)).
    + exists ds. assert (waits (place_of ds op) = false) as Hwt.
      { unfold place_of. rewrite Hq, decide_False by done.
        destruct (running ds !! op); [by destruct (side ds !! op)|].
        destruct (pd_get (d _) op); [done|]. by destruct (pd_get (fd _) op). }
      rewrite Hwt. split_and!; [rewrite (Hzoom _ _ Hrun); by destruct ds|done|done|].
      intros op'. case_decide; [subst op'|done]. by destruct (place_of ds op) as [[]|].
Qed.

(** *** Forgetting *)

Lemma ignore_operation_spec op (p : Pool) :
  pool_inv p →
  ∃ r p', ignore_operation op p = (r, p') ∧ pool_inv p' ∧ _worker p' = _worker p ∧
    _operations_reverse p' = _operations_reverse p ∧
    r = (if is_some (_operations_reverse p !! op) then Ok tt else Raise KeyError) ∧
    (is_Some (_operations_reverse p !! op) → ignored p' op).
Proof.
  intros Hi. pose proof (proj1 (proj1 Hi)) as Hb.
  destruct (ignore_operation op p) as [r p'] eqn:Hr. exists r, p'.
  assert (pool_inv p') as Hi' by by eapply pool_step_inv; [eapply step_ignore|].
  unfold ignore_operation in Hr.
  rewrite (M_run_Ok _ _ p (_operations_reverse p) p) in Hr by done.
  destruct (_operations_reverse p !! op) as [s|] eqn:Hop.
  - rewrite (M_run_Ok _ _ p s p) in Hr by done.
    destruct (proj1 (base_reverse p Hb op s) Hop) as (l & Hl & _).
    destruct (local_known p s (base_keys _ Hb) (busy_known p s l (base_keys _ Hb) Hl))
      as (o & ti & st & sd & ig & _ & Hti & _).
    rewrite (M_run_Ok _ _ p ti p) in Hr by (unfold item_of; by rewrite Hti).
    injection Hr as <- <-. split_and!; try done. intros _. exists s, (ti ++ [op]).
    split; [simpl; by rewrite pd_get_set_eq|]. apply elem_of_app. right. by left.
  - injection Hr as <- <-. split_and!; try done.
Qed.

Lemma forget_operation_spec op ds :
  ds_inv ds →
  ∃ ds', forget_operation op ds = (Ok tt, ds') ∧ ds_inv ds' ∧
    (is_Some (running ds !! op) → ignored (pool_of ds') op) ∧
    ∀ op', place_of ds' op' = if decide (op' = op) then dropped (place_of ds op')
                              else place_of ds op'.
Proof.
  intros Hi. destruct (ds_dequeue_spec op ds Hi) as (ds1 & Hd & Hi1 & Hp1 & Hpl1).
  destruct (ignore_operation_spec op (pool_of ds1) (inv_pool ds1 Hi1))
    as (r & p' & Hr & Hp' & Hw & Hrev & -> & Hig).
  destruct (place_pool_same ds1 p' Hi1 Hp' (f_equal List.length Hw) Hrev) as [Hi2 Hpl2].
  exists (with_pool p' ds1). split_and!; [|done| |].
  - unfold forget_operation.
    rewrite (M_run_Ok _ _ ds tt ds1) by (unfold try_except; rewrite Hd; by destruct (waits _)).
    unfold try_except. rewrite (zoom_pool _ ds1 _ _ Hr). by destruct (is_some _).
  - unfold running. rewrite <- Hp1. exact Hig.
  - intros op'. by rewrite Hpl2, Hpl1.
Qed.

Lemma ds_enable_worker_spec shard ds :
  ds_inv ds →
  ∃ r ds', ds_enable_worker shard ds = (r, ds') ∧ ds_inv ds' ∧
    ∀ op, place_of ds' op = place_of ds op.
Proof.
  intros Hi. destruct (enable_worker shard (pool_of ds)) as [r p'] eqn:Hr.
  assert (pool_inv p') as Hp'
    by by eapply pool_step_inv; [eapply step_enable|apply (inv_pool ds Hi)].
  assert (_worker p' = _worker (pool_of ds) ∧ _operations_reverse p' = running ds) as [Hw Hrev].
  { unfold running, enable_worker, item_of in *. unfold mbind at 1, M_bind in Hr.
    destruct (or_raise KeyError (pd_get _ shard)) as [o| | |]; try by injection Hr as _ <-.
    case_decide; by injection Hr as _ <-. }
  destruct (place_pool_same ds p' Hi Hp' (f_equal List.length Hw) Hrev) as [Hi' Hpl].
  unfold ds_enable_worker, try_except. destruct r as [[]|e| |].
  - eexists _, _. rewrite (M_run_Ok _ _ _ _ _ (zoom_pool _ ds _ _ Hr)). done.
  - rewrite (M_run_Raise _ _ _ _ _ (zoom_pool _ ds _ _ Hr)).
    destruct (is_value_error e); eexists _, _; done.
  - eexists _, _. unfold mbind, M_bind. rewrite (zoom_pool _ ds _ _ Hr). done.
  - eexists _, _. unfold mbind, M_bind. rewrite (zoom_pool _ ds _ _ Hr). done.
Qed.

(** *** Results *)

Lemma cache_add_spec adds ds :
  ds_inv ds → (∀ op r now, (op, r, now) ∈ adds → place_of ds op = None) →
  let ds' := set_result_cache (add_all adds (result_cache ds)) ds in
  ds_inv ds' ∧
  ∀ op, place_of ds' op = match last_value op adds with
                          | Some r => Some (Cached r)
                          | None => place_of ds op
                          end.
Proof.
  intros Hi Hnew ds'.
  assert (∀ op, is_Some (last_value op adds) → place_of ds op = None) as Hlast.
  { intros op. unfold last_value. clear ds'. revert Hnew.
    induction adds as [|[[k r] t] adds IH] using rev_ind; intros Hnew; [by intros []|].
    rewrite foldl_app. cbn [foldl]. case_decide as Hk.
    - subst k. intros _. apply (Hnew op r t). apply elem_of_app. right. by left.
    - apply IH. intros op' r' t' Hin. apply (Hnew op' r' t'). apply elem_of_app. by left. }
  assert (d (result_cache ds') = d (add_all adds (result_cache ds))) as Hd by done.
  split.
  - pose proof (λ op, place_None ds op Hi) as Hnone.
    destruct Hi as [I1 I2 I3 I4 I5 I6 I7 I8 I9 I10 I11 I12]. split; try done.
    + intros op. rewrite Hd, add_all_get. destruct (last_value op adds) eqn:Hl; [|apply I10].
      intros _. destruct (proj1 (Hnone op)) as (? & ? & ? & _); [apply Hlast; eauto|done].
    + intros op. rewrite Hd, add_all_get. change (fd (result_cache ds')) with
        (fd (add_all adds (result_cache ds))). rewrite add_all_fd. intros Hop.
      destruct (I11 op Hop) as (? & ? & ? & ->). split_and!; try done.
      destruct (last_value op adds) eqn:Hl; [|done].
      destruct (proj1 (Hnone op)) as (_ & _ & _ & _ & Hf); [apply Hlast; eauto|].
      rewrite Hf in Hop. by destruct Hop.
  - intros op. pose proof (place_None ds op Hi) as Hnone. unfold place_of in *.
    change (queue_of ds') with (queue_of ds). change (executing ds') with (executing ds).
    change (side ds') with (side ds). change (running ds') with (running ds).
    rewrite Hd, add_all_get. change (fd (result_cache ds')) with
        (fd (add_all adds (result_cache ds))). rewrite add_all_fd.
    destruct (last_value op adds) as [r|] eqn:Hl; [|done].
    destruct (proj1 Hnone) as (-> & He & -> & _); [apply Hlast; eauto|].
    by rewrite decide_False.
Qed.

(** The results that a worker's answer leaves in the cache. *)
Definition kept_jobs (l : list ESOperation) (now : Z) (jobs : list (ESOperation * R))
    : list (ESOperation * R * Z) :=
  (λ job, (job, now)) <$> filter (λ job, job.1 ∉ l) jobs.

Lemma add_jobs_eq (skip : ESOperation → bool) l now jobs ds :
  (∀ op, skip op = bool_decide (op ∈ l)) →
  for_each (λ job : ESOperation * R,
    if skip job.1 then mret tt
    else modify (λ ds, set_result_cache (add job.1 job.2 now (result_cache ds)) ds)) jobs ds =
  (Ok tt, set_result_cache (add_all (kept_jobs l now jobs) (result_cache ds)) ds).
Proof.
  intros Hskip. revert ds. induction jobs as [|[op r] jobs IH]; intros ds; cbn [for_each].
  - by destruct ds.
  - unfold mbind, M_bind in *. unfold kept_jobs. rewrite filter_cons. cbn [fst snd].
    rewrite (Hskip op). destruct (decide (op ∈ l)) as [Hop|Hop].
    + rewrite bool_decide_eq_true_2 by done. rewrite decide_False by tauto. apply IH.
    + rewrite bool_decide_eq_false_2 by done. rewrite decide_True by done.
      exact (IH (set_result_cache (add op r now (result_cache ds)) ds)).
Qed.

(** Where an operation is after the answer of worker [shard]: [x] before it,
    [ig] whether its result was to be ignored. *)
Definition answered (shard : Z) (data : option (list (ESOperation * R))) (ig : Prop) op
    (x x' : option (place R)) : Prop :=
  match x with
  | Some (Running s _ _) =>
      if decide (s = shard) then
        (ig → x' = None) ∧
        (¬ ig → x' = (jobs ← data; Cached <$> last_value op ((λ job, (job, 0%Z)) <$> jobs)))
      else x' = x
  | _ => x' = x
  end.

Lemma last_value_kept op l now jobs :
  op ∉ l → last_value op (kept_jobs l now jobs) = last_value op ((λ job, (job, 0%Z)) <$> jobs).
Proof.
  intros Hop. unfold last_value, kept_jobs. generalize (@None R).
  induction jobs as [|[k r] jobs IH]; intros acc; [done|]. rewrite filter_cons. cbn [fst].
  case_decide as Hk; csimpl; [apply IH|]. rewrite decide_False by by intros ->.
  apply IH.
Qed.

(** The operations of worker [shard] leave the pool. *)
Definition released_by (shard : Z) (x : option (place R)) : option (place R) :=
  match x with
  | Some (Running s _ _) => if decide (s = shard) then None else x
  | _ => x
  end.

Lemma worker_released shard lo ds :
  ds_inv ds → known (pool_of ds) shard →
  pd_get (_operations (pool_of ds)) shard = Some (Ops lo) →
  ∃ l p', release_worker shard (pool_of ds) =
      (Ok (if bool_decide (l = []) then IgnoreAll false else IgnoreOps l), p') ∧
    ds_inv (with_pool p' ds) ∧
    (∀ op, running ds !! op = Some shard → op ∈ l ↔ ignored (pool_of ds) op) ∧
    ∀ op, place_of (with_pool p' ds) op = released_by shard (place_of ds op).
Proof.
  intros Hi Hk Ho. pose proof (release_worker_spec shard _ (inv_pool ds Hi) Hk) as Hr.
  rewrite Ho in Hr. destruct Hr as (l & p' & Hr & Hp' & Hw & Hrev & Hig). fold (running ds) in Hrev.
  destruct (pool_shrinks ds p' Hi Hp') as [Hi1 Hpl1].
  { unfold pool_length. by rewrite Hw. }
  { intros op s. rewrite Hrev. destruct (running ds !! op) as [s'|]; [|done]. simpl.
    by case_decide. }
  exists l, p'. split_and!; [done|done|done|]. intros op. rewrite Hpl1, Hrev.
  unfold left_pool, released_by. destruct (place_of ds op) as [[]|] eqn:Hx; try done.
  rewrite (place_Running _ _ _ _ _ Hx). cbn [mbind option_bind].
  destruct (decide (shard0 = shard)) as [->|Hne]; [by rewrite decide_True|].
  by rewrite decide_False by congruence.
Qed.

Lemma place_of_running ds op s :
  ds_inv ds → running ds !! op = Some s → ∃ p t, place_of ds op = Some (Running s p t).
Proof.
  intros Hi Hr. destruct (inv_side ds Hi op) as [pt Hs]; [right; by rewrite Hr|].
  destruct (inv_pool_fresh ds Hi op) as [Hq He]; [by rewrite Hr|].
  exists pt.1, pt.2. unfold place_of. by rewrite Hq, decide_False, Hr, Hs.
Qed.

Lemma last_value_in (op : ESOperation) (adds : list (ESOperation * R * Z)) r :
  last_value op adds = Some r → ∃ t, (op, r, t) ∈ adds.
Proof.
  unfold last_value. revert r. induction adds as [|[[k v] t] adds IH] using rev_ind; [done|].
  intros r. rewrite foldl_app. cbn [foldl]. setoid_rewrite elem_of_app. case_decide as Hk.
  - intros [= <-]. subst k. exists t. right. by left.
  - intros [t' Ht]%IH. eauto.
Qed.

Lemma elem_of_kept op r t l now jobs :
  (op, r, t) ∈ kept_jobs l now jobs ↔ t = now ∧ (op ∉ l) ∧ (op, r) ∈ jobs.
Proof.
  unfold kept_jobs. rewrite list_elem_of_fmap. setoid_rewrite list_elem_of_filter. split.
  - by intros ([op' r'] & [= -> -> ->] & ? & ?).
  - intros (-> & ? & ?). by exists (op, r).
Qed.

(** The worker's answer, when it executes something. *)
Lemma action_finished_busy data shard now lo ds :
  ds_inv ds → known (pool_of ds) shard →
  pd_get (_operations (pool_of ds)) shard = Some (Ops lo) →
  (∀ jobs op r, data = Some jobs → (op, r) ∈ jobs → running ds !! op = Some shard) →
  ∃ ds', action_finished data shard now ds = (Ok tt, ds') ∧ ds_inv ds' ∧
    ∀ op, answered shard data (ignored (pool_of ds) op) op (place_of ds op) (place_of ds' op).
Proof.
  intros Hi Hk Ho Hjobs.
  destruct (worker_released shard lo ds Hi Hk Ho) as (l & p' & Hr & Hi1 & Hig & Hpl1).
  set (jobs := default [] data).
  assert (∀ op r t, (op, r, t) ∈ kept_jobs l now jobs → (op ∉ l) ∧ running ds !! op = Some shard)
    as Hkept.
  { intros op r t (_ & Hnl & Hin)%elem_of_kept. split; [done|]. unfold jobs in Hin.
    destruct data as [js|]; [by eapply Hjobs|by apply elem_of_nil in Hin]. }
  destruct (cache_add_spec (kept_jobs l now jobs) (with_pool p' ds) Hi1) as [Hi2 Hpl2].
  { intros op r t [_ Hrun]%Hkept. rewrite Hpl1.
    destruct (place_of_running ds op shard Hi Hrun) as (p & ts & ->). simpl.
    by rewrite decide_True. }
  eexists. split_and!; [|exact Hi2|].
  - unfold action_finished. rewrite (M_run_Ok _ _ _ _ _ (zoom_pool _ ds _ _ Hr)). unfold jobs.
    destruct (decide (l = [])) as [->|Hl].
    + rewrite bool_decide_eq_true_2 by done. destruct data as [js|]; [|by destruct ds].
      apply (add_jobs_eq (λ _, false) [] now js).
      intros op. symmetry. by apply bool_decide_eq_false_2, not_elem_of_nil.
    + rewrite bool_decide_eq_false_2 by done. destruct data as [js|]; [|by destruct ds].
      pose proof (add_jobs_eq (λ op : ESOperation, bool_decide (op ∈ l)) l now js (with_pool p' ds)
        (λ _, eq_refl)) as Hloop. exact Hloop.
  - intros op. rewrite Hpl2, Hpl1.
    destruct (last_value op (kept_jobs l now jobs)) as [r|] eqn:Hl.
    + destruct (last_value_in _ _ _ Hl) as [t [Hnl Hrun]%Hkept].
      destruct (place_of_running ds op shard Hi Hrun) as (p & ts & ->). simpl.
      rewrite decide_True by done. split; [by intros ?%Hig|]. intros _.
      rewrite last_value_kept in Hl by done. unfold jobs in Hl.
      destruct data as [js|]; [|done]. cbn [mbind option_bind]. cbn [default] in Hl.
      unfold id in Hl. by rewrite Hl.
    + unfold answered, released_by. destruct (place_of ds op) as [[| |s| |]|] eqn:Hx; try done.
      case_decide as Hs; [subst s|done]. split; [done|]. intros Hn.
      rewrite last_value_kept in Hl by by rewrite Hig by by eapply place_Running.
      unfold jobs in Hl. destruct data as [js|]; [|done]. cbn [mbind option_bind].
      cbn [default] in Hl. unfold id in Hl. by rewrite Hl.
Qed.

Lemma action_finished_spec data shard now ds :
  ds_inv ds → known (pool_of ds) shard →
  (∀ jobs op r, data = Some jobs → (op, r) ∈ jobs → running ds !! op = Some shard) →
  match pd_get (_operations (pool_of ds)) shard with
  | Some WORKER_INACTIVE => action_finished data shard now ds = (Raise ValueError, ds)
  | Some WORKER_DISABLED => action_finished data shard now ds = (Ok tt, ds)
  | Some (Ops _) => ∃ ds', action_finished data shard now ds = (Ok tt, ds') ∧ ds_inv ds' ∧
      ∀ op, answered shard data (ignored (pool_of ds) op) op (place_of ds op) (place_of ds' op)
  | None => False
  end.
Proof.
  intros Hi Hk Hjobs. pose proof (release_worker_spec shard _ (inv_pool ds Hi) Hk) as Hr.
  assert (with_pool (pool_of ds) ds = ds) as Hsame by (by destruct ds as [[[] ? ? ? ? ?] ?]).
  destruct (local_known _ shard (base_keys _ (proj1 (proj1 (inv_pool ds Hi)))) Hk)
    as (o & _ & _ & _ & _ & Ho & _). rewrite Ho in Hr |- *. destruct o as [| |lo].
  - unfold action_finished.
    by rewrite (M_run_Raise _ _ _ _ _ (zoom_pool _ ds _ _ Hr)), Hsame.
  - unfold action_finished. rewrite (M_run_Ok _ _ _ _ _ (zoom_pool _ ds _ _ Hr)), Hsame.
    by destruct data.
  - by eapply action_finished_busy.
Qed.

(** *** Writing the results *)

Definition flushing (x : option (place R)) : option (place R) :=
  match x with Some (Cached r) => Some (Writing r) | _ => x end.

Definition written (x : option (place R)) : option (place R) :=
  match x with Some (Writing r) => None | _ => x end.

Definition begin_flush : M (Dispatcher Q R) unit :=
  modify (λ ds, set_result_cache (flush_begin (result_cache ds)) ds).

Definition end_flush : M (Dispatcher Q R) unit :=
  modify (λ ds, set_result_cache (flush_end (result_cache ds)) ds).

Lemma begin_flush_spec ds :
  ds_inv ds → fd (result_cache ds) = [] →
  let ds' := set_result_cache (flush_begin (result_cache ds)) ds in
  ds_inv ds' ∧ ∀ op, place_of ds' op = flushing (place_of ds op).
Proof.
  intros Hi Hfd ds'. split.
  - destruct Hi as [I1 I2 I3 I4 I5 I6 I7 I8 I9 I10 I11 I12]. split; try done.
    + by intros op [].
    + intros op Hop. destruct (I10 op Hop) as (? & ? & ?). by split_and!.
  - intros op. unfold place_of. change (queue_of ds') with (queue_of ds).
    change (executing ds') with (executing ds). change (side ds') with (side ds).
    change (running ds') with (running ds). simpl. rewrite Hfd.
    destruct (queue_of ds !! op); [done|]. case_decide; [by destruct (side ds !! op)|].
    destruct (running ds !! op); [by destruct (side ds !! op)|].
    by destruct (pd_get (d (result_cache ds)) op).
Qed.

Lemma end_flush_spec ds :
  ds_inv ds →
  let ds' := set_result_cache (flush_end (result_cache ds)) ds in
  ds_inv ds' ∧ ∀ op, place_of ds' op = written (place_of ds op).
Proof.
  intros Hi ds'. split.
  - destruct Hi as [I1 I2 I3 I4 I5 I6 I7 I8 I9 I10 I11 I12]. split; try done. by intros op [].
  - intros op. unfold place_of. change (queue_of ds') with (queue_of ds).
    change (executing ds') with (executing ds). change (side ds') with (side ds).
    change (running ds') with (running ds). simpl.
    destruct (queue_of ds !! op); [done|]. case_decide; [by destruct (side ds !! op)|].
    destruct (running ds !! op); [by destruct (side ds !! op)|].
    destruct (pd_get (d (result_cache ds)) op); [done|].
    by destruct (pd_get (fd (result_cache ds)) op).
Qed.

(** *** The RPC layer *)

Definition connected (shard : Z) (contest_id : option Z) : M (Dispatcher Q R) unit :=
  in_executor (in_pool (_ ← modify (set_worker shard true); on_worker_connected shard contest_id)).

Definition disconnected_worker (shard : Z) : M (Dispatcher Q R) unit :=
  in_executor (in_pool (modify (set_worker shard false))).

Lemma length_set_worker s c (p : Pool) :
  known p s → pool_length (set_worker s c p) = pool_length p.
Proof.
  intros Hk. unfold pool_length. simpl. rewrite <- !(length_fmap fst).
  f_equal. by apply pd_keys_set_in.
Qed.

Lemma connected_spec shard cid ds :
  ds_inv ds → known (pool_of ds) shard →
  ∃ r ds', connected shard cid ds = (r, ds') ∧ ds_inv ds' ∧
    ∀ op, place_of ds' op = place_of ds op.
Proof.
  intros Hi Hk.
  destruct (on_worker_connected shard cid (set_worker shard true (pool_of ds))) as [r p'] eqn:Hr.
  assert (pool_inv p') as Hp' by (by eapply pool_step_inv; [by eapply step_connect|apply (inv_pool ds Hi)]).
  assert (_worker p' = _worker (set_worker shard true (pool_of ds)) ∧
          _operations_reverse p' = running ds) as [Hw Hrev].
  { unfold on_worker_connected, item_of in Hr. unfold mbind, M_bind, modify in Hr.
    destruct cid; [|by injection Hr as _ <-].
    destruct (or_raise KeyError _); by injection Hr as _ <-. }
  destruct (place_pool_same ds p' Hi Hp') as [Hi' Hpl]; [|exact Hrev|].
  { rewrite <- (length_set_worker shard true (pool_of ds)) by done. unfold pool_length. by rewrite Hw. }
  eexists r, _. split_and!; [|exact Hi'|exact Hpl]. by apply zoom_pool.
Qed.

Lemma disconnected_spec shard ds :
  ds_inv ds → known (pool_of ds) shard →
  ∃ ds', disconnected_worker shard ds = (Ok tt, ds') ∧ ds_inv ds' ∧
    ∀ op, place_of ds' op = place_of ds op.
Proof.
  intros Hi Hk. set (p' := set_worker shard false (pool_of ds)).
  assert (pool_inv p') as Hp'
    by (by eapply pool_step_inv; [by apply step_disconnect|apply (inv_pool ds Hi)]).
  destruct (place_pool_same ds p' Hi Hp') as [Hi' Hpl]; [by apply length_set_worker|done|].
  eexists. split_and!; [by apply zoom_pool|exact Hi'|exact Hpl].
Qed.

(** ** Runs of the dispatcher *)

(** What happens to the dispatcher: calls of its handlers, the greenlet of
    the executor taking a batch and looking for a worker, workers that connect
    and disconnect, the results leaving the cache. [failure] is the exception
    that building the job group of the batch raises, if it does. *)
Inductive event : Type :=
  | EEnqueue (op : ESOperation) (prio ts : Z)
  | EForget (op : ESOperation)
  | ETakeBatch
  | EExecute (now : Z) (rnd : nat) (failure : option exn)
  | ETimeouts (now : Z)
  | EConnections
  | EDisable (shard : Z)
  | EEnable (shard : Z)
  | EFinished (data : option (list (ESOperation * R))) (shard now : Z)
  | EConnected (shard : Z) (contest_id : option Z)
  | EDisconnected (shard : Z)
  | EBeginFlush
  | EEndFlush.

(** [JobGroup.from_operations(operations, session).export_to_dict()] *)
Definition job_group (failure : option exn) : res unit :=
  match failure with None => Ok tt | Some e => Raise e end.

(** [Executor.run] suppresses what [execute] raises: the result of an event
    is what its call returned or raised. *)
Definition handle (e : event) : M (Dispatcher Q R) unit :=
  match e with
  | EEnqueue op prio ts => _ ← ds_enqueue op prio ts; mret tt
  | EForget op => forget_operation op
  | ETakeBatch => in_executor take_batch
  | EExecute now rnd failure =>
      _ ← in_executor (execute_iteration now rnd (job_group failure)); mret tt
  | ETimeouts now => _ ← check_workers_timeout now; mret tt
  | EConnections => _ ← check_workers_connection; mret tt
  | EDisable shard => _ ← ds_disable_worker shard; mret tt
  | EEnable shard => _ ← ds_enable_worker shard; mret tt
  | EFinished data shard now => action_finished data shard now
  | EConnected shard cid => connected shard cid
  | EDisconnected shard => disconnected_worker shard
  | EBeginFlush => begin_flush
  | EEndFlush => end_flush
  end.

(** The last batch was given up: its job group could not be built. *)
Definition given_up ds : Prop := is_Some (shared_with (executor ds)).

(** The greenlet of the executor takes a batch when it has none, or gave up
    the one it had, and looks for a worker while it has one; the callers name workers that exist; a worker answers for operations it was given
    and that are still assigned to it; the entries of a flush are written
    before the next one. *)
Definition enabled (e : event) ds : Prop :=
  match e with
  | ETakeBatch => executing ds = [] ∨ given_up ds
  | EExecute _ _ _ => executing ds ≠ [] ∧ ¬ given_up ds
  | EDisable shard | EConnected shard _ | EDisconnected shard => known (pool_of ds) shard
  | EFinished data shard _ => known (pool_of ds) shard ∧
      ∀ jobs op r, data = Some jobs → (op, r) ∈ jobs → running ds !! op = Some shard
  | EBeginFlush => fd (result_cache ds) = []
  | _ => True
  end.

(** The job group of the batch, if the event is about one, could be built. *)
Definition built (e : event) : Prop :=
  match e with EExecute _ _ failure => failure = None | _ => True end.

Definition pointwise (f : ESOperation → option (place R) → option (place R))
    (m m' : ESOperation → option (place R)) : Prop := ∀ op, m' op = f op (m op).

Definition unchanged (m m' : ESOperation → option (place R)) : Prop := ∀ op, m' op = m op.

(** The abstract transition of an event, on the places of the operations. *)
Definition place_step (e : event) ds (m m' : ESOperation → option (place R)) : Prop :=
  match e with
  | EEnqueue op prio ts =>
      pointwise (λ op' x, if decide (op' = op)
                          then Some (default (Queued prio ts) x) else x) m m'
  | EForget op => pointwise (λ op' x, if decide (op' = op) then dropped x else x) m m'
  | ETakeBatch =>
      ∃ items, List.length items = batch_size_of (size (queue_of ds)) (pool_length (pool_of ds)) ∧
        NoDup items ∧
        (∀ op op' k k', op ∈ items → op' ∉ items → queue_of ds !! op = Some k →
           queue_of ds !! op' = Some k' → key_lt k k') ∧
        (∀ op, op ∈ items → is_Some (queue_of ds !! op)) ∧
        pointwise (moved items) m m'
  | EExecute _ _ failure =>
      unchanged m m' ∨
      (failure = None ∧ ∃ s, idle (pool_of ds) s ∧ pointwise (λ _, given s) m m')
  | ETimeouts now =>
      ∀ op, taken_back (expired now (pool_of ds)) (¬ ignored (pool_of ds) op) (m op) (m' op)
  | EConnections => ∀ op, taken_back (disconnected (pool_of ds)) True (m op) (m' op)
  | EDisable shard =>
      (pd_get (_operations (pool_of ds)) shard = Some WORKER_DISABLED ∧ unchanged m m') ∨
      ∀ op, taken_back (λ s, bool_decide (shard = s)) (¬ ignored (pool_of ds) op) (m op) (m' op)
  | EFinished data shard _ =>
      unchanged m m' ∨ ∀ op, answered shard data (ignored (pool_of ds) op) op (m op) (m' op)
  | EBeginFlush => pointwise (λ _, flushing) m m'
  | EEndFlush => pointwise (λ _, written) m m'
  | EEnable _ | EConnected _ _ | EDisconnected _ => unchanged m m'
  end.

Lemma take_batch_step ds :
  ds_inv ds → executing ds = [] →
  ∃ r ds', in_executor take_batch ds = (r, ds') ∧ ds_inv ds' ∧
    place_step ETakeBatch ds (place_of ds) (place_of ds').
Proof.
  intros Hi Hex.
  destruct (take_batch_spec ds Hi Hex) as [[He Hb]|(es & ds' & Ht & Hi' & Hb & Hx & Hl & _ & Hpl)].
  - exists Blocks, ds. split_and!; [done|done|]. exists []. split_and!.
    + rewrite He, map_size_empty. done.
    + apply NoDup_nil_2.
    + by intros op ??? ?%elem_of_nil.
    + by intros op ?%elem_of_nil.
    + intros op. by destruct (place_of ds op) as [[]|].
  - exists (Ok tt), ds'. split_and!; [done|done|]. exists (item <$> es). split_and!.
    + by rewrite length_fmap.
    + by eapply batch_NoDup.
    + intros op op' k k' (e & -> & He)%list_elem_of_fmap Hn Hk Hk'.
      rewrite (batch_in _ _ _ e Hb He : queue_of ds !! item e = Some (ekey e)) in Hk.
      injection Hk as <-. apply (batch_least _ _ _ Hb e op' k' He).
      apply (batch_split _ _ _ Hb) in Hk' as [(e' & He' & <- & _)|]; [|done].
      destruct Hn. apply list_elem_of_fmap. eauto.
    + intros op (e & -> & He)%list_elem_of_fmap. exists (ekey e).
      by apply (batch_in _ _ _ e Hb).
    + exact Hpl.
Qed.

(** The batch that is given up stays where it was: the pool has it too. *)
Lemma leave_place s p' ds op :
  (∀ op, place_of (handed p' ds) op = given s (place_of ds op)) →
  place_of (leave (executing ds) (Some s) (handed p' ds)) op = place_of ds op.
Proof.
  intros Hpl. specialize (Hpl op). unfold place_of in *.
  change (queue_of (leave _ _ _)) with (queue_of ds). change (queue_of (handed _ _)) with (queue_of ds) in *.
  change (executing (leave (executing ds) _ _)) with (executing ds).
  change (executing (handed _ _)) with (@nil ESOperation) in *.
  change (side (leave _ _ _)) with (side ds). change (side (handed _ _)) with (side ds) in *.
  change (running (leave _ _ _)) with (running (handed p' ds)).
  change (result_cache (leave _ _ _)) with (result_cache ds).
  change (result_cache (handed _ _)) with (result_cache ds) in *.
  rewrite decide_False in Hpl by apply not_elem_of_nil.
  destruct (queue_of ds !! op); [done|]. case_decide; [done|]. rewrite Hpl.
  destruct (running ds !! op); [by destruct (side ds !! op)|].
  destruct (pd_get (d _) op); [done|]. by destruct (pd_get (fd _) op).
Qed.

Lemma execute_step now rnd failure ds :
  ds_inv ds → executing ds ≠ [] →
  ∃ r ds', in_executor (execute_iteration now rnd (job_group failure)) ds = (r, ds') ∧
    (failure = None → ds_inv ds') ∧
    place_step (EExecute now rnd failure) ds (place_of ds) (place_of ds').
Proof.
  intros Hi Hex. destruct (execute_iteration_spec now rnd (job_group failure) ds Hi Hex)
    as [[Hb _]|[(ds' & Hr & Hi' & _ & Hpl)|(s & p' & Hs & Hi' & Hpl & Hr)]].
  - exists Blocks, ds. split_and!; [done|done|by left].
  - exists (Ok false), ds'. split_and!; [done|done|by left].
  - destruct failure as [e|]; cbn [job_group] in Hr; destruct Hr as [Hr Hp].
    + eexists _, _. split_and!; [exact Hr|done|]. left. intros op. by apply leave_place.
    + eexists _, _. split_and!; [exact Hr|done|]. right. split; [done|]. by exists s.
Qed.

(** A handler whose result is dropped. *)
Lemma drop_result {A} (m : M (Dispatcher Q R) A) ds r ds' :
  m ds = (r, ds') → ∃ r', (_ ← m; mret tt) ds = (r', ds').
Proof.
  intros Hm. unfold mbind, M_bind. rewrite Hm. destruct r; eexists; done.
Qed.

Lemma handle_spec e ds :
  ds_inv ds → enabled e ds →
  ∃ r ds', handle e ds = (r, ds') ∧ (built e → ds_inv ds') ∧
    place_step e ds (place_of ds) (place_of ds').
Proof.
  intros Hi He. destruct e as [op p t|op| |now rnd failure|now| |shard|shard|data shard now|shard cid
    |shard| |]; cbn [handle enabled] in *.
  - destruct (ds_enqueue_spec op p t ds Hi) as (ds' & Hr & Hi' & _ & _ & _ & _ & Hpl).
    destruct (drop_result _ _ _ _ Hr) as [r' Hr']. exists r', ds'. split_and!; [done|done|].
    intros op'. rewrite Hpl. destruct (decide (op' = op)) as [->|Hne].
    + destruct (place_of ds op) eqn:Hx; [by rewrite decide_False by naive_solver|].
      by rewrite decide_True.
    + by rewrite decide_False by naive_solver.
  - destruct (forget_operation_spec op ds Hi) as (ds' & Hr & Hi' & _ & Hpl). by exists (Ok tt), ds'.
  - destruct (take_batch_step ds Hi) as (r & ds' & Hr & Hi' & Hpl); [|by exists r, ds'].
    destruct He as [He|[s He]]; [done|]. by rewrite (inv_shared ds Hi) in He.
  - destruct (execute_step now rnd failure ds Hi (proj1 He)) as (r & ds' & Hr & Hi' & Hpl).
    destruct (drop_result _ _ _ _ Hr) as [r' Hr']. by exists r', ds'.
  - destruct (check_workers_timeout_spec now ds Hi) as (ds' & Hr & Hi' & Hpl).
    destruct (drop_result _ _ _ _ Hr) as [r' Hr']. by exists r', ds'.
  - destruct (check_workers_connection_spec ds Hi) as (ds' & Hr & Hi' & Hpl).
    destruct (drop_result _ _ _ _ Hr) as [r' Hr']. by exists r', ds'.
  - destruct (disable_worker_lost shard ds Hi He) as (ds' & Hr & Hi' & H1 & H2).
    destruct (drop_result _ _ _ _ Hr) as [r' Hr']. exists r', ds'. split_and!; [done|done|].
    destruct (decide (pd_get (_operations (pool_of ds)) shard = Some WORKER_DISABLED)) as [Ho|Ho];
      [left; split; [done|exact (H1 Ho)]|right; exact (H2 Ho)].
  - destruct (ds_enable_worker_spec shard ds Hi) as (r & ds' & Hr & Hi' & Hpl).
    destruct (drop_result _ _ _ _ Hr) as [r' Hr']. by exists r', ds'.
  - destruct He as [Hk Hjobs]. pose proof (action_finished_spec data shard now ds Hi Hk Hjobs) as Hf.
    destruct (pd_get (_operations (pool_of ds)) shard) as [[| |lo]|]; [..|done].
    + exists (Raise ValueError), ds. split_and!; [done|done|by left].
    + exists (Ok tt), ds. split_and!; [done|done|by left].
    + destruct Hf as (ds' & Hr & Hi' & Hpl). exists (Ok tt), ds'. split_and!; [done|done|by right].
  - destruct (connected_spec shard cid ds Hi He) as (r & ds' & Hr & Hi' & Hpl). by exists r, ds'.
  - destruct (disconnected_spec shard ds Hi He) as (ds' & Hr & Hi' & Hpl). by exists (Ok tt), ds'.
  - destruct (begin_flush_spec ds Hi He) as [Hi' Hpl]. by eexists (Ok tt), _.
  - destruct (end_flush_spec ds Hi) as [Hi' Hpl]. by eexists (Ok tt), _.
Qed.

(** A step in which no batch is given up. *)
Definition step ds ds' : Prop := ∃ e, enabled e ds ∧ built e ∧ (handle e ds).2 = ds'.

Lemma add_workers_inv conn shard (p : Pool) :
  pool_inv p → (∀ s, known p s → (s < shard)%Z) →
  pool_inv (add_workers shard conn p).2 ∧
  pool_length (add_workers shard conn p).2 = pool_length p + List.length conn ∧
  _operations_reverse (add_workers shard conn p).2 = _operations_reverse p.
Proof.
  revert shard p. induction conn as [|c conn IH]; intros shard p Hi Hs.
  - simpl. split_and!; [done|lia|done].
  - assert (¬ known p shard) as Hk by (intros ?%Hs; lia).
    destruct (add_worker shard c p) as [r p1] eqn:Ha.
    assert (pool_inv p1) as Hi1 by (eapply pool_step_inv; [by eapply step_add|done]).
    cbn [add_workers]. unfold mbind, M_bind. rewrite Ha.
    unfold add_worker in Ha. injection Ha as <- <-.
    assert (pd_keys (pd_set (_worker p) shard c) = pd_keys (_worker p) ++ [shard]) as Hkeys
      by by apply pd_keys_set_new.
    destruct (IH (shard + 1)%Z _ Hi1) as (H1 & H2 & H3).
    { intros s Hs'. unfold known in Hs'. simpl in Hs'. rewrite Hkeys in Hs'.
      apply elem_of_app in Hs' as [Hs'%Hs| ->%list_elem_of_singleton]; lia. }
    split_and!; [done| |exact H3]. rewrite H2. unfold pool_length. simpl.
    rewrite <- !(length_fmap fst). unfold pd_keys in Hkeys. rewrite Hkeys, length_app. simpl. lia.
Qed.

Lemma ds_init_inv conn now : conn ≠ [] → ds_inv (ds_init conn now).
Proof.
  intros Hc. destruct (add_workers_inv conn 0 pool_init pool_init_inv) as (H1 & H2 & H3).
  { by intros s ?%elem_of_nil. }
  destruct q_init_wf as [Hw He].
  split; unfold queue_of, executing, side, running, pool_of, eq_of in *;
    cbn [ds_init executor ee_init base pool side_data _currently_executing executor_init
         _operation_queue result_cache fd_init d fd _batch_executions
         queue_status_cumulative] in *; try done.
  - rewrite H2. simpl. by destruct conn.
  - apply NoDup_nil_2.
  - intros op [?%elem_of_nil|Hop]; [done|]. rewrite H3 in Hop. by destruct Hop.
  - rewrite He. apply cum_ok_init.
  - by intros op ?%elem_of_nil.
  - intros op Hop. rewrite H3 in Hop. by destruct Hop.
  - by intros op [].
  - by intros op [].
Qed.

Lemma step_inv ds ds' : rtc step ds ds' → ds_inv ds → ds_inv ds'.
Proof.
  induction 1 as [|ds ds1 ds' (e & He & Hb & <-) _ IH]; [done|]. intros Hi. apply IH.
  destruct (handle_spec e ds Hi He) as (r & ds1 & Hr & Hi1 & _). rewrite Hr. by apply Hi1.
Qed.

(** ** Main theorems *)

(** Reached in a run of the service in which the job group of every batch
    could be built. *)
Definition reachable ds : Prop := ∃ conn now, conn ≠ [] ∧ rtc step (ds_init conn now) ds.

Lemma reachable_inv ds : reachable ds → ds_inv ds.
Proof. intros (conn & now & Hc & Hr). by eapply step_inv, ds_init_inv. Qed.

Lemma bool_is_some {A} (o : option A) : bool_decide (is_Some o) = is_some o.
Proof. by destruct o; [apply bool_decide_eq_true_2|apply bool_decide_eq_false_2; intros []]. Qed.

(** Number of places that hold an operation. *)
Definition holders ds op : nat :=
  Nat.b2n (executor_contains op (base (executor ds)))
  + Nat.b2n (bool_decide (op ∈ executing ds))
  + Nat.b2n (pool_contains op (pool_of ds))
  + Nat.b2n (pd_mem (d (result_cache ds)) op)
  + Nat.b2n (pd_mem (fd (result_cache ds)) op).

Lemma holders_place ds op :
  ds_inv ds → holders ds op = Nat.b2n (is_some (place_of ds op)).
Proof.
  intros Hi. pose proof (inv_queue ds Hi) as Hw. unfold place_of.
  pose proof (inv_side ds Hi op) as Hs.
  destruct Hi as [_ _ _ _ _ _ _ I8 I9 I10 I11 I12].
  specialize (I8 op). specialize (I9 op). specialize (I10 op). specialize (I11 op).
  assert (executor_contains op (base (executor ds)) = is_some (queue_of ds !! op)) as Hq.
  { apply eq_true_iff_eq. unfold executor_contains. rewrite (q_contains_law op _ Hw).
    fold (eq_of (executor ds)). fold (queue_of ds). rewrite <- bool_is_some.
    by rewrite bool_decide_eq_true. }
  unfold holders, pool_contains, pd_mem. rewrite Hq, !bool_is_some. fold (running ds).
  destruct (decide (op ∈ executing ds)) as [He|He].
  - rewrite (bool_decide_eq_true_2 _ He), (I8 He). destruct Hs as [pt ->]; [by left|].
    destruct (running ds !! op); [destruct I9; [eauto|done]|].
    destruct (pd_get (d _) op); [destruct I10 as (_ & ? & _); [eauto|done]|].
    by destruct (pd_get (fd _) op); [destruct I11 as (_ & ? & _); [eauto|done]|].
  - rewrite (bool_decide_eq_false_2 _ He).
    destruct (running ds !! op) as [s|].
    + destruct I9 as [-> _]; [eauto|]. destruct Hs as [pt ->]; [eauto|].
      destruct (pd_get (d _) op); [destruct I10 as (_ & _ & ?); [eauto|done]|].
      by destruct (pd_get (fd _) op); [destruct I11 as (_ & _ & ? & _); [eauto|done]|].
    + destruct (pd_get (d _) op).
      * destruct I10 as (-> & _ & _); [eauto|].
        by destruct (pd_get (fd _) op); [destruct I11 as (_ & _ & _ & ?); [eauto|done]|].
      * destruct (pd_get (fd _) op); [destruct I11 as (-> & _); [eauto|done]|].
        by destruct (queue_of ds !! op).
Qed.






Lemma ignored_Exists (p : Pool) op :
  ignored p op ↔ Exists (λ sti : Z * list ESOperation, op ∈ sti.2 ∧
    pd_get (_operations_to_ignore p) sti.1 = Some sti.2) (_operations_to_ignore p).
Proof.
  rewrite Exists_exists. split.
  - intros (s & ti & Hti & Hop). exists (s, ti). split; [by apply pd_get_Some_in|done].
  - intros ([s ti] & _ & Hop & Hti). by exists s, ti.
Qed.

#[local] Instance ignored_dec (p : Pool) op : Decision (ignored p op).
Proof.
  destruct (decide (Exists (λ sti : Z * list ESOperation, op ∈ sti.2 ∧
    pd_get (_operations_to_ignore p) sti.1 = Some sti.2) (_operations_to_ignore p)));
    [left|right]; by rewrite ignored_Exists.
Defined.



(** *** Batches that are given up *)

Lemma leave_holders l sh ds op :
  ds_inv ds → executing ds = [] →
  holders (leave l sh ds) op = Nat.b2n (bool_decide (op ∈ l)) + Nat.b2n (is_some (place_of ds op)).
Proof.
  intros Hi He. rewrite <- (holders_place ds op Hi). unfold holders at 2. rewrite He.
  rewrite (bool_decide_eq_false_2 _ (not_elem_of_nil op)). unfold holders.
  change (base (executor (leave l sh ds))) with (base (executor ds)).
  change (executing (leave l sh ds)) with l. change (pool_of (leave l sh ds)) with (pool_of ds).
  change (result_cache (leave l sh ds)) with (result_cache ds).
  change (Nat.b2n false) with 0. lia.
Qed.

(** What the executor kept is not enqueued; the rest is as if it had not. *)
Lemma leave_enqueue l sh op p t ds :
  executing ds = [] →
  ds_enqueue op p t (leave l sh ds) =
    if decide (op ∈ l) then (Ok false, leave l sh ds)
    else let '(r, ds') := ds_enqueue op p t ds in (r, leave l sh ds').
Proof.
  intros He. unfold ds_enqueue. unfold mbind, M_bind, get.
  unfold ee_contains. change (_currently_executing (executor (leave l sh ds))) with l.
  change (base (executor (leave l sh ds))) with (base (executor ds)).
  change (pool (executor (leave l sh ds))) with (pool (executor ds)).
  change (result_cache (leave l sh ds)) with (result_cache ds).
  unfold executing in He. rewrite He. rewrite (bool_decide_eq_false_2 _ (not_elem_of_nil op)).
  destruct (decide (op ∈ l)) as [Hop|Hop].
  - rewrite (bool_decide_eq_true_2 _ Hop). by rewrite orb_true_r.
  - rewrite (bool_decide_eq_false_2 _ Hop). destruct (_ || _); [done|].
    unfold in_executor, zoom, run_res, ee_enqueue.
    change (base (executor (leave l sh ds))) with (base (executor ds)).
    destruct (enqueue op (Some p) (Some t) t (base (executor ds))) as [[[] b]| | |]; done.
Qed.

Lemma leave_requeue_all l sh lost ds ds' :
  ds_inv ds → executing ds = [] → NoDup lost →
  (∀ op, op ∈ lost → is_Some (side ds !! op)) →
  for_each requeue (filter (λ op, op ∉ l) lost) ds = (Ok tt, ds') →
  for_each requeue lost (leave l sh ds) = (Ok tt, leave l sh ds').
Proof.
  revert ds. induction lost as [|x lost IH]; intros ds Hi He Hnd Hs Hr.
  - by injection Hr as <-.
  - apply NoDup_cons in Hnd as [Hx Hnd]. rewrite filter_cons in Hr. cbn [for_each].
    destruct (Hs x) as [pt Hsx]; [by left|].
    assert (requeue x (leave l sh ds) =
      let '(r, ds1) := ds_enqueue x pt.1 pt.2 (leave l sh ds) in
      (match r with Ok _ => Ok tt | Raise e => Raise e | Blocks => Blocks | NoFuel => NoFuel end, ds1))
      as Hreq.
    { unfold requeue. run_goal. change (side_data (executor (leave l sh ds))) with (side ds).
      rewrite Hsx. cbn [or_raise]. by destruct (ds_enqueue x pt.1 pt.2 (leave l sh ds)) as [[] ?]. }
    rewrite leave_enqueue in Hreq by done. destruct (decide (x ∈ l)) as [Hxl|Hxl].
    + rewrite decide_False in Hr by tauto. rewrite (M_run_Ok _ _ _ _ _ Hreq).
      apply IH; [done|done|done| |done]. intros op Hop. apply Hs. by right.
    + rewrite decide_True in Hr by done.
      destruct (ds_enqueue_spec x pt.1 pt.2 ds Hi) as (ds1 & Hq & Hi1 & Hs1 & _ & He1 & _ & _).
      rewrite Hq in Hreq. rewrite (M_run_Ok _ _ _ _ _ Hreq). cbn [for_each] in Hr.
      assert (requeue x ds = (Ok tt, ds1)) as Hreq1.
      { unfold requeue. run_goal. fold (side ds). rewrite Hsx. cbn [or_raise]. by rewrite Hq. }
      rewrite (M_run_Ok _ _ _ _ _ Hreq1) in Hr. apply IH; [done|congruence|done| |done].
      intros op Hop. rewrite Hs1. apply Hs. by right.
Qed.

Definition keep_batch l sh (ee : EvaluationExecutor Q) : EvaluationExecutor Q :=
  set_shared_with sh (set_executing l ee).

Lemma keep_pop l sh w ee e ee' :
  ee_pop w ee = Ok (e, ee') → ee_pop w (keep_batch l sh ee) = Ok (e, keep_batch l sh ee').
Proof.
  unfold ee_pop. intros ([e1 b] & Hp & (cum & Hc & [= <- <-])%res_bind_Ok)%res_bind_Ok.
  change (base (keep_batch l sh ee)) with (base ee). rewrite Hp. cbn [mbind res_bind].
  change (queue_status_cumulative (keep_batch l sh ee)) with (queue_status_cumulative ee).
  by rewrite Hc.
Qed.

Lemma keep_fill l sh fuel m es ee es' ee' :
  fill_batch eq_of ee_pop fuel m es ee = Ok (es', ee') →
  fill_batch eq_of ee_pop fuel m es (keep_batch l sh ee) = Ok (es', keep_batch l sh ee').
Proof.
  revert es ee. induction fuel as [|fuel IH]; intros es ee; cbn [fill_batch];
    change (eq_of (keep_batch l sh ee)) with (eq_of ee);
    (destruct (_ && _); [|by intros [= <- <-]]); [done|].
  intros ([e ee1] & Hp & Hf)%res_bind_Ok. rewrite (keep_pop _ _ _ _ _ _ Hp).
  cbn [mbind res_bind]. by apply IH.
Qed.

Lemma keep_collect l sh ee es ee' :
  ee_collect ee = Ok (es, ee') → ee_collect (keep_batch l sh ee) = Ok (es, keep_batch l sh ee').
Proof.
  unfold ee_collect, run_collect. intros ([e ee1] & Hp & Hf)%res_bind_Ok.
  rewrite (keep_pop _ _ _ _ _ _ Hp). cbn [mbind res_bind].
  change (base (keep_batch l sh ee)) with (base ee).
  destruct (_batch_executions (base ee)); [|by injection Hf as <- <-].
  apply res_bind_Ok in Hf as (m & Hm & Hf). unfold ee_max_operations_per_batch in *.
  change (pool (keep_batch l sh ee1)) with (pool ee1).
  change (eq_of (keep_batch l sh ee1)) with (eq_of ee1).
  rewrite Hm. cbn [mbind res_bind]. by apply keep_fill.
Qed.

(** Taking a batch forgets the one that was given up. *)
Lemma leave_take_batch l sh ds ds' :
  in_executor take_batch ds = (Ok tt, ds') → in_executor take_batch (leave l sh ds) = (Ok tt, ds').
Proof.
  unfold in_executor, zoom, take_batch, mbind, M_bind, run_res.
  destruct (ee_collect (executor ds)) as [[es ee']| | |] eqn:Hc; try done.
  change (executor (leave l sh ds)) with (keep_batch l sh (executor ds)).
  rewrite (keep_collect _ _ _ _ _ Hc). rewrite !start_execute_eq. done.
Qed.

Lemma leave_timeouts l sh now ds p' lost ds' :
  ds_inv ds → executing ds = [] → NoDup lost →
  check_timeouts now (pool_of ds) = (Ok lost, p') →
  ds_inv (with_pool p' ds) → (∀ op, op ∈ lost → is_Some (side ds !! op)) →
  for_each requeue (filter (λ op, op ∉ l) lost) (with_pool p' ds) = (Ok tt, ds') →
  check_workers_timeout now (leave l sh ds) = (Ok true, leave l sh ds').
Proof.
  intros Hi He Hnd Hc Hi' Hs Hr. unfold check_workers_timeout.
  rewrite (M_run_Ok _ _ _ _ _ (zoom_pool _ (leave l sh ds) _ _ Hc)).
  rewrite (M_run_Ok _ _ _ tt (leave l sh ds')); [done|].
  change (with_pool p' (leave l sh ds)) with (leave l sh (with_pool p' ds)).
  by apply leave_requeue_all.
Qed.

Lemma place_executing ds op :
  ds_inv ds → op ∈ executing ds → ∃ p t, place_of ds op = Some (Executing p t).
Proof.
  intros Hi Hop. destruct (inv_side ds Hi op) as [[p t] Hs]; [by left|]. exists p, t.
  unfold place_of. by rewrite (inv_exec_fresh ds Hi op Hop), decide_True, Hs.
Qed.

Lemma not_ignored_unassigned (p : Pool) op : pool_inv p → ¬ assigned p op → ¬ ignored p op.
Proof.
  intros Hp Hn (s & ti & Hti & Hop). pose proof (proj1 (proj1 Hp)) as Hb. apply Hn.
  apply (assigned_busy _ _ Hb). destruct (base_to_ignore p Hb s ti op Hti Hop) as (l & ? & ?). eauto.
Qed.

(** A batch that gets a worker but no job group. *)
Lemma given_up_spec now rnd e ds :
  ds_inv ds → executing ds ≠ [] → (∃ s, idle (pool_of ds) s) →
  ∃ s, let c := handed (give s (executing ds) now (pool_of ds)) ds in
    ds_inv c ∧ (∀ op, place_of c op = given s (place_of ds op)) ∧ idle (pool_of ds) s ∧
    handle (EExecute now rnd (Some e)) ds = (Raise e, leave (executing ds) (Some s) c).
Proof.
  intros Hi Hex [s0 Hs0]. pose proof (proj2 (inv_pool ds Hi) s0 Hs0) as Hev.
  destruct (execute_iteration_spec now rnd (Raise e) ds Hi Hex)
    as [[_ Hf]|[(ds' & _ & _ & Hn & _)|(s & p' & Hs & Hi' & Hpl & Hr & ->)]];
    [congruence|by destruct (Hn s0)|].
  exists s. split_and!; [done|done|done|]. unfold handle, job_group.
  by rewrite (M_run_Raise _ _ _ _ _ Hr).
Qed.

Lemma expired_give now now2 s l (p : Pool) :
  idle p s → (WORKER_TIMEOUT < now2 - now)%Z → expired now2 (give s l now p) s = true.
Proof.
  intros _ Ht. unfold expired, give. simpl. rewrite pd_get_set_eq. by apply Z.ltb_lt.
Qed.

(** The workers time out while the executor has the batch that it gave up. *)
Lemma given_up_timeouts now2 l sh ds :
  ds_inv ds → executing ds = [] →
  ∃ ds', handle (ETimeouts now2) (leave l sh ds) = (Ok tt, leave l sh ds') ∧ ds_inv ds' ∧
    executing ds' = [] ∧
    ∀ op s p t, op ∈ l → place_of ds op = Some (Running s p t) →
      expired now2 (pool_of ds) s = true → place_of ds' op = None.
Proof.
  intros Hi He.
  destruct (check_timeouts_spec now2 (pool_of ds) (inv_pool ds Hi))
    as (lost & p' & Hc & Hp & Hw & Hnd & Hrev & Hlost).
  assert (∀ op s, _operations_reverse p' !! op = Some s → running ds !! op = Some s) as Hsub.
  { intros op s. rewrite Hrev. unfold running. destruct (_ !! op) as [s'|]; [|done]. simpl.
    by destruct (expired _ _ s'). }
  assert (pool_length p' = pool_length (pool_of ds)) as Hlen by (unfold pool_length; by rewrite Hw).
  destruct (recover ds (filter (λ op, op ∉ l) lost) p' Hi Hp Hlen Hsub)
    as (ds' & Hr & Hi' & Hp' & He' & Hpl); [by apply NoDup_filter| |].
  { intros op [_ ((s & Hs & Hx) & _)%Hlost]%list_elem_of_filter. rewrite Hrev, Hs. simpl. rewrite Hx.
    split; [unfold running; by eauto|done]. }
  exists ds'. split_and!; [|done|congruence|].
  - unfold handle. unfold mbind, M_bind. erewrite leave_timeouts; [done|done|done|done|exact Hc| | |exact Hr].
    + by eapply pool_shrinks.
    + intros op ((s & Hs & _) & _)%Hlost. apply (inv_side ds Hi). right. unfold running. eauto.
  - intros op s p t Hop Hx Hs. rewrite Hpl, Hx. cbn [recovered].
    rewrite decide_False by by intros [? _]%list_elem_of_filter.
    rewrite Hrev. pose proof (place_Running _ _ _ _ _ Hx) as Hrun. unfold running in Hrun.
    rewrite Hrun. simpl. by rewrite Hs.
Qed.

(** A batch whose job group cannot be built is not handled: the worker
    that was found keeps the operations, to which it will never answer, and
    so does the executor, so each is in two places. If the worker times out
    before the executor takes another batch, the service takes the operations
    back from it but refuses to queue them again, because the executor still
    has them: then nothing can queue them, and the next batch forgets them.
    If another batch is taken first, they stay with the worker until it times
    out, and are queued again. *)
Theorem given_up_batch_lost now rnd e now2 ds op :
  reachable ds → op ∈ executing ds → (∃ s, idle (pool_of ds) s) →
  (WORKER_TIMEOUT < now2 - now)%Z →
  let ds1 := (handle (EExecute now rnd (Some e)) ds).2 in
  let ds2 := (handle (ETimeouts now2) ds1).2 in
  let ds3 := (handle ETakeBatch ds1).2 in
  given_up ds1 ∧ holders ds1 op = 2 ∧
  (holders ds2 op = 1 ∧ op ∈ executing ds2 ∧ given_up ds2 ∧
   (∀ prio ts, ds_enqueue op prio ts ds2 = (Ok false, ds2)) ∧
   (queue_of ds2 ≠ ∅ → holders (handle ETakeBatch ds2).2 op = 0)) ∧
  (queue_of ds ≠ ∅ → holders ds3 op = 1 ∧
   ∃ s p t, place_of ds op = Some (Executing p t) ∧ place_of ds3 op = Some (Running s p t) ∧
     place_of (handle (ETimeouts now2) ds3).2 op = Some (Queued p t)).
Proof.
  intros Hi%reachable_inv Hop Hidle Ht. set (l := executing ds) in *.
  assert (l ≠ []) as Hl by (intros Hl; rewrite Hl in Hop; by apply elem_of_nil in Hop).
  destruct (given_up_spec now rnd e ds Hi Hl Hidle) as (s & Hc & Hpl & Hs & ->).
  set (c := handed _ ds) in *. cbn [snd]. fold l.
  destruct (place_executing ds op Hi Hop) as (p & t & Hx).
  assert (place_of c op = Some (Running s p t)) as Hxc by (by rewrite Hpl, Hx).
  assert (expired now2 (pool_of c) s = true) as Hexp by by apply expired_give.
  destruct (given_up_timeouts now2 l (Some s) c Hc eq_refl) as (c2 & -> & Hi2 & He2 & Hgone).
  specialize (Hgone op s p t Hop Hxc Hexp). cbn [snd].
  rewrite !leave_holders by done. rewrite (bool_decide_eq_true_2 _ Hop), Hxc, Hgone.
  split_and!; [by exists s|done|done|exact Hop|by exists s| | |].
  - intros prio ts. rewrite leave_enqueue by done. by rewrite decide_True.
  - intros Hq. destruct (take_batch_spec c2 Hi2 He2) as [[Hq' _]|(es & c3 & Hr & Hi3 & _ & _ & _ & _ & Hp3)];
      [by destruct Hq|].
    unfold handle. rewrite (leave_take_batch _ _ _ _ Hr). cbn [snd].
    rewrite holders_place by done. by rewrite Hp3, Hgone.
  - intros Hq. destruct (take_batch_spec c Hc eq_refl)
      as [[Hq' _]|(es & c3 & Hr & Hi3 & _ & _ & _ & Hpo & Hp3)]; [by destruct Hq|].
    unfold handle at 1 2 4. rewrite (leave_take_batch _ _ _ _ Hr). cbn [snd].
    specialize (Hp3 op). rewrite Hxc in Hp3. cbn [moved] in Hp3.
    rewrite holders_place, Hp3 by done. split; [done|]. exists s, p, t. split_and!; [done|done|].
    destruct (check_workers_timeout_spec now2 c3 Hi3) as (c4 & Hr4 & _ & Hp4).
    unfold handle, mbind, M_bind. rewrite Hr4. cbn [snd]. specialize (Hp4 op).
    rewrite Hp3, Hpo in Hp4. cbn [taken_back] in Hp4. rewrite Hexp in Hp4. apply Hp4.
    apply (not_ignored_unassigned (pool_of ds)); [apply Hi|].
    by apply (executing_fresh ds Hi).
Qed.

(** *** The status of the queue *)

Definition cum_le (c1 c2 : cum_entry) : Prop :=
  (ce_priority c1 < ce_priority c2)%Z ∨
  (ce_priority c1 = ce_priority c2 ∧ (ce_timestamp c1 <= ce_timestamp c2)%Z).

Lemma insert_cum_perm c l : insert_cum c l ≡ₚ c :: l.
Proof.
  induction l as [|x l IH]; [done|]. simpl. destruct (_ || _); [done|].
  rewrite IH. apply Permutation_swap.
Qed.

Lemma insert_cum_sorted c l : StronglySorted cum_le l → StronglySorted cum_le (insert_cum c l).
Proof.
  induction 1 as [|x l Hs IH Hx]; simpl; [repeat constructor|].
  destruct (_ || _) eqn:Hc.
  - assert (cum_le c x) as Hcx.
    { unfold cum_le. apply orb_true_iff in Hc as [Hc%Z.ltb_lt|Hc]; [by left|].
      apply andb_true_iff in Hc as [?%Z.eqb_eq ?%Z.ltb_lt]. right. lia. }
    constructor; [by constructor|]. constructor; [done|]. eapply Forall_impl; [exact Hx|].
    intros y. unfold cum_le in *. lia.
  - constructor; [done|]. rewrite insert_cum_perm. constructor; [|done].
    unfold cum_le. apply orb_false_iff in Hc as [Hp%Z.ltb_ge Hc].
    apply andb_false_iff in Hc as [Ht%Z.eqb_neq|Ht%Z.ltb_ge]; lia.
Qed.

(** What [queue_status] shows is exact in every reachable state: sorted
    by priority and timestamp, it has one entry for each (type, object,
    dataset, priority) of the queue, whose multiplicity is the number of
    operations of the queue with that key. *)
Theorem queue_status_exact ds :
  reachable ds →
  StronglySorted cum_le (queue_status ds) ∧
  queue_status ds ≡ₚ (queue_status_cumulative (executor ds)).*2 ∧
  NoDup (queue_status_cumulative (executor ds)).*1 ∧
  ∀ key, (multiplicity <$> pd_get (queue_status_cumulative (executor ds)) key) =
           match count key (queue_of ds) with O => None | n => Some (Z.of_nat n) end.
Proof.
  intros Hi%reachable_inv. destruct (inv_cum ds Hi) as [Hnd Hc].
  set (cum := queue_status_cumulative (executor ds)) in *.
  assert (∀ l acc, StronglySorted cum_le acc →
    StronglySorted cum_le (foldl (λ acc c, insert_cum c acc) acc l) ∧
    foldl (λ acc c, insert_cum c acc) acc l ≡ₚ l ++ acc) as Hfold.
  { induction l as [|c l IH]; intros acc Ha; [done|].
    destruct (IH (insert_cum c acc)) as [H1 H2]; [by apply insert_cum_sorted|].
    split; [done|]. simpl. rewrite H2, insert_cum_perm. by rewrite Permutation_middle. }
  destruct (Hfold cum.*2 []) as [H1 H2]; [constructor|]. rewrite app_nil_r in H2.
  split_and!; [done|done|done|]. intros key. specialize (Hc key).
  destruct (pd_get cum key) as [c|]; simpl.
  - destruct Hc as [Hz ->]. by destruct (count key (queue_of ds)).
  - by rewrite Hc.
Qed.
End invariant.

(** ** A concrete run *)

Fixpoint run_events {Q} `{!PQueue ESOperation Q} {R} (es : list (event (R:=R)))
    (ds : Dispatcher Q R) : Dispatcher Q R :=
  match es with
  | [] => ds
  | e :: es => run_events es (handle e ds).2
  end.

Fixpoint enabled_run {Q} `{!PQueue ESOperation Q} {R} (es : list (event (R:=R)))
    (ds : Dispatcher Q R) : Prop :=
  match es with
  | [] => True
  | e :: es => (enabled e ds ∧ built e) ∧ enabled_run es (handle e ds).2
  end.

Lemma run_reachable {Q} `{!PQueue ESOperation Q} {R} (es : list (event (R:=R)))
    (ds : Dispatcher Q R) :
  reachable ds → enabled_run es ds → reachable (run_events es ds).
Proof.
  revert ds. induction es as [|e es IH]; intros ds Hr; [done|]. intros [[He Hb] Hes]. apply IH; [|done].
  destruct Hr as (conn & now & Hc & Hr). exists conn, now. split; [done|].
  eapply rtc_r; [exact Hr|]. by exists e.
Qed.

Definition compile1 : ESOperation := mkESOperation COMPILATION 1 1 None.
Definition evaluate2a : ESOperation := mkESOperation EVALUATION 2 1 (Some "a"%string).
Definition evaluate2b : ESOperation := mkESOperation EVALUATION 2 1 (Some "b"%string).

(** Two workers. The first batch has the compilation and one evaluation,
    which is invalidated while it runs. *)
Definition demo_start : Dispatcher (PriorityQueue ESOperation) nat := ds_init [true; true] 0.
Definition demo_events : list (event (R:=nat)) :=
  [EEnqueue compile1 1 10; EEnqueue evaluate2a 2 5; EEnqueue evaluate2b 2 5; ETakeBatch;
   EExecute 0 0 None; EForget evaluate2a].
Definition demo_dispatcher : Dispatcher (PriorityQueue ESOperation) nat :=
  run_events demo_events demo_start.

Lemma demo_dispatcher_reachable : reachable demo_dispatcher.
Proof.
  apply run_reachable.
  - exists [true; true], 0%Z. split; [done|]. apply rtc_refl.
  - cbn [enabled_run demo_events enabled built]. split_and!; try exact I.
    + left. vm_compute. reflexivity.
    + vm_compute. discriminate.
    + intros [s Hs]. revert Hs. vm_compute. discriminate.
    + reflexivity.
Qed.




(** Before the first batch gets its worker. *)
Definition demo_waiting : Dispatcher (PriorityQueue ESOperation) nat :=
  run_events (take 4 demo_events) demo_start.

Lemma demo_waiting_reachable : reachable demo_waiting.
Proof.
  apply run_reachable.
  - exists [true; true], 0%Z. split; [done|]. apply rtc_refl.
  - cbn [enabled_run demo_events take enabled built]. split_and!; try exact I.
    left. vm_compute. reflexivity.
Qed.

Lemma given_up_batch_lost_witness :
  let ds1 := (handle (EExecute 0 0 (Some AttributeError)) demo_waiting).2 in
  let ds2 := (handle (ETimeouts 700000000) ds1).2 in
  holders ds1 compile1 = 2 ∧ holders ds2 compile1 = 1 ∧
  holders (handle ETakeBatch ds2).2 compile1 = 0.
Proof.
  assert (compile1 ∈ executing demo_waiting) as Hop by (apply (bool_decide_eq_true_1 _); vm_compute; reflexivity).
  assert (idle (pool_of demo_waiting) 0) as Hs by (split; vm_compute; reflexivity).
  destruct (given_up_batch_lost 0 0 AttributeError 700000000 demo_waiting compile1
    demo_waiting_reachable Hop (ex_intro _ 0%Z Hs) eq_refl) as (_ & H1 & (H2 & _ & _ & _ & H3) & _).
  split; [exact H1|]. split; [exact H2|]. apply H3. intros Hq.
  assert (is_some (queue_of (handle (ETimeouts 700000000)
    (handle (EExecute 0 0 (Some AttributeError)) demo_waiting).2).2 !! evaluate2b) = true) as He
    by (vm_compute; reflexivity).
  rewrite Hq, lookup_empty in He. discriminate.
Defined.

Lemma queue_status_exact_witness :
  (λ c, (ce_priority c, multiplicity c)) <$>
    queue_status (run_events [EEnqueue evaluate2a 2 5; EEnqueue evaluate2b 2 5; EEnqueue compile1 1 10]
      demo_start) = [(1, 1); (2, 2)]%Z ∧
  reachable demo_dispatcher ∧ StronglySorted cum_le (queue_status demo_dispatcher).
Proof.
  split; [vm_compute; reflexivity|]. split; [exact demo_dispatcher_reachable|].
  apply (queue_status_exact demo_dispatcher demo_dispatcher_reachable).
Defined.
