(* ===== verification/WhiteDiff.v ===== *)
(** * Comparison of outputs up to whitespace (cms/grading/steps/whitediff.py)

    A file is the list of the bytes that remain to be read; [readline] reads
    up to a newline. Methods of Python's [bytes] ([replace] of one byte by
    another, [split] on one byte, [join], [strip]) are defined as the language
    documents them. *)

From S2P Require Import Prelude PyFloat.
From Stdlib Require Import Strings.Byte.

#[export] Instance byte_eq_dec' : EqDecision byte := Byte.byte_eq_dec.

Abbreviation bytes := (list byte).

(** [b' ', b'\t', b'\n', b'\x0b', b'\x0c', b'\r'] *)
Definition _WHITES : bytes := [x20; x09; x0a; x0b; x0c; x0d]%byte.

Definition space : byte := x20%byte.
Definition newline : byte := x0a%byte.

(** ** Methods of bytes *)

(** [s.replace(c, c')] *)
Definition replace (c c' : byte) (s : bytes) : bytes := (λ x, if decide (x = c) then c' else x) <$> s.

(** [s.split(c)]: never empty. *)
Fixpoint split (c : byte) (s : bytes) : list bytes :=
  match s with
  | [] => [[]]
  | x :: s =>
      if decide (x = c) then [] :: split c s
      else match split c s with
           | [] => [[x]]
           | w :: ws => (x :: w) :: ws
           end
  end.

(** [c.join(l)] *)
Fixpoint join (c : byte) (l : list bytes) : bytes :=
  match l with
  | [] => []
  | [w] => w
  | w :: l => w ++ c :: join c l
  end.

Fixpoint lstrip (chars s : bytes) : bytes :=
  match s with
  | [] => []
  | x :: s' => if decide (x ∈ chars) then lstrip chars s' else s
  end.

(** [s.strip(chars)] *)
Definition strip (chars s : bytes) : bytes := reverse (lstrip chars (reverse (lstrip chars s))).

(** [f.readline()]: the line and the rest of the file. *)
Fixpoint readline (f : bytes) : bytes * bytes :=
  match f with
  | [] => ([], [])
  | x :: f =>
      if decide (x = newline) then ([x], f)
      else let '(l, r) := readline f in (x :: l, r)
  end.

(** ** The comparison *)

Definition _white_diff_canonicalize (string : bytes) : bytes :=
  let string := foldl (λ s char, replace char space s) string (tail _WHITES) in
  join space (filter (λ x : bytes, 0 < List.length x) (split space string)).

Fixpoint white_diff_loop (fuel : nat) (output res : bytes) : Prelude.res bool :=
  match fuel with
  | O => NoFuel
  | S fuel =>
      let '(lout, output) := readline output in
      let '(lres, res) := readline res in
      if (List.length lres =? 0)%nat && (List.length lout =? 0)%nat then Ok true
      else if (List.length lres =? 0)%nat || (List.length lout =? 0)%nat then
        if (0 <? List.length (strip _WHITES lout))%nat || (0 <? List.length (strip _WHITES lres))%nat
        then Ok false
        else white_diff_loop fuel output res
      else
        if decide (_white_diff_canonicalize lout = _white_diff_canonicalize lres)
        then white_diff_loop fuel output res
        else Ok false
  end.

(** Every iteration but the last reads something. *)
Definition _white_diff (output res : bytes) : Prelude.res bool :=
  white_diff_loop (S (List.length output + List.length res)) output res.

Definition white_diff_fobj_step (output_fobj correct_output_fobj : bytes)
    : Prelude.res (float * list string) :=
  b ← _white_diff output_fobj correct_output_fobj;
  Ok (if b : bool then (f1, ["Output is correct"%string])
      else (f0, ["Output isn't correct"%string])).

(** ** Words *)

(** The maximal runs of bytes outside [P], [cur] being the run in progress. *)
Fixpoint words_from (P : byte → bool) (cur s : bytes) : list bytes :=
  match s with
  | [] => if decide (cur = []) then [] else [cur]
  | x :: s =>
      if P x then (if decide (cur = []) then [] else [cur]) ++ words_from P [] s
      else words_from P (cur ++ [x]) s
  end.

Definition words (P : byte → bool) (s : bytes) : list bytes := words_from P [] s.

Definition white (x : byte) : bool := bool_decide (x ∈ _WHITES).
Definition is_space (x : byte) : bool := bool_decide (x = space).

(** The words of a string are the non-empty pieces of its split. *)
Lemma split_words s cur :
  ∃ w ws, split space s = w :: ws ∧
    filter (λ x : bytes, 0 < List.length x) ((cur ++ w) :: ws) = words_from is_space cur s.
Proof.
  revert cur. induction s as [|x s IH]; intros cur.
  - exists [], []. split; [done|]. simpl. rewrite app_nil_r, filter_cons, filter_nil.
    destruct cur; [done|]. by rewrite decide_True by (simpl; lia).
  - cbn [split words_from]. unfold is_space at 1. case_decide as Hx.
    + rewrite bool_decide_eq_true_2 by done. destruct (IH []) as (w & ws & Hs & Hw).
      rewrite Hs. exists [], (w :: ws). split; [done|]. rewrite filter_cons, app_nil_r.
      destruct cur as [|y cur]; [exact Hw|]. rewrite decide_True by (simpl; lia).
      cbn [app]. f_equal. exact Hw.
    + rewrite bool_decide_eq_false_2 by done. destruct (IH (cur ++ [x])) as (w & ws & Hs & Hw).
      rewrite Hs. exists (x :: w), ws. split; [done|]. by rewrite <- Hw, <- app_assoc.
Qed.

Lemma filter_split s :
  filter (λ x : bytes, 0 < List.length x) (split space s) = words is_space s.
Proof. destruct (split_words s []) as (w & ws & -> & Hw). exact Hw. Qed.

(** Replacing the white bytes by spaces. *)
Definition blank (x : byte) : byte := if white x then space else x.

Lemma replace_all s : foldl (λ s char, replace char space s) s (tail _WHITES) = blank <$> s.
Proof.
  unfold replace. cbn [foldl tail _WHITES]. rewrite <- !list_fmap_compose.
  apply list_fmap_ext. intros _ x _. by destruct x.
Qed.

Lemma words_blank cur s : words_from is_space cur (blank <$> s) = words_from white cur s.
Proof.
  revert cur. induction s as [|x s IH]; intros cur; [done|]. csimpl. rewrite !IH.
  unfold blank. destruct (white x) eqn:Hx; [done|]. unfold is_space.
  rewrite bool_decide_eq_false_2; [done|]. by intros ->.
Qed.

Lemma canonicalize_words s : _white_diff_canonicalize s = join space (words white s).
Proof.
  unfold _white_diff_canonicalize. rewrite replace_all, filter_split. f_equal. apply words_blank.
Qed.

(** A word is not empty and holds no separator. *)
Definition word (P : byte → bool) (w : bytes) : Prop := w ≠ [] ∧ Forall (λ x, P x = false) w.

Lemma words_word P cur s :
  Forall (λ x, P x = false) cur → Forall (word P) (words_from P cur s).
Proof.
  revert cur. induction s as [|x s IH]; intros cur Hc; cbn [words_from].
  - case_decide; [constructor|]. by repeat constructor.
  - destruct (P x) eqn:Hx.
    + apply Forall_app. split; [|apply IH; constructor].
      case_decide; [constructor|]. by repeat constructor.
    + apply IH. apply Forall_app. by repeat constructor.
Qed.

Lemma words_prefix P cur w s :
  Forall (λ x, P x = false) w → words_from P cur (w ++ s) = words_from P (cur ++ w) s.
Proof.
  revert cur. induction w as [|x w IH]; intros cur Hw; [by rewrite app_nil_r|].
  apply Forall_cons in Hw as [Hx Hw]. cbn [app words_from]. rewrite Hx, IH by done.
  by rewrite <- app_assoc.
Qed.

Lemma words_join ws : Forall (word is_space) ws → words is_space (join space ws) = ws.
Proof.
  unfold words. induction 1 as [|w ws [Hne Hw] Hall IH]; [done|].
  destruct ws as [|w' ws]; cbn [join].
  - rewrite <- (app_nil_r w) at 1. rewrite words_prefix by done. simpl. by rewrite decide_False.
  - rewrite words_prefix by done. cbn [app words_from].
    unfold is_space at 1. rewrite bool_decide_eq_true_2 by done.
    rewrite decide_False by done. cbn [app]. f_equal. exact IH.
Qed.

Lemma white_space x : white x = false → is_space x = false.
Proof. unfold is_space. intros Hx. apply bool_decide_eq_false_2. by intros ->. Qed.

Lemma words_white_space s : Forall (word is_space) (words white s).
Proof.
  eapply Forall_impl; [apply words_word; constructor|]. intros w [Hne Hw]. split; [done|].
  eapply Forall_impl; [exact Hw|]. apply white_space.
Qed.

Lemma canonicalize_eq a b :
  _white_diff_canonicalize a = _white_diff_canonicalize b ↔ words white a = words white b.
Proof.
  rewrite !canonicalize_words. split; [|by intros ->]. intros Hj.
  rewrite <- (words_join (words white a)), <- (words_join (words white b))
    by apply words_white_space. by rewrite Hj.
Qed.

Lemma blank_word w : Forall (λ x, white x = false) w → blank <$> w = w.
Proof.
  induction 1 as [|x w Hx _ IH]; [done|]. csimpl. rewrite IH. unfold blank. by rewrite Hx.
Qed.

Lemma join_cons c w w' ws : join c (w :: w' :: ws) = w ++ c :: join c (w' :: ws).
Proof. done. Qed.

Lemma blank_join ws : Forall (word white) ws → blank <$> join space ws = join space ws.
Proof.
  induction 1 as [|w ws [_ Hw] _ IH]; [done|].
  destruct ws as [|w' ws]; [by apply blank_word|].
  rewrite join_cons, fmap_app, fmap_cons, blank_word by done. f_equal. f_equal. exact IH.
Qed.

(** [_white_diff_canonicalize] maps two strings to the same string if and
    only if they have the same words, that is the same sequence of maximal
    runs of non-white bytes, and canonicalizing again changes nothing. *)
Theorem canonicalize_iff (a b : bytes) :
  (_white_diff_canonicalize a = _white_diff_canonicalize b ↔ words white a = words white b) ∧
  _white_diff_canonicalize (_white_diff_canonicalize a) = _white_diff_canonicalize a.
Proof.
  split; [apply canonicalize_eq|]. rewrite !canonicalize_words. f_equal.
  unfold words at 1. rewrite <- words_blank.
  rewrite blank_join by (apply words_word; constructor).
  apply words_join, words_white_space.
Qed.

(** ** Blank lines *)

Lemma lstrip_nil chars s : lstrip chars s = [] ↔ Forall (λ x, x ∈ chars) s.
Proof.
  induction s as [|x s IH]; simpl; [split; [constructor|done]|]. rewrite Forall_cons.
  case_decide; [rewrite IH; tauto|]. split; [done|tauto].
Qed.

Lemma lstrip_Forall chars s :
  Forall (λ x, x ∈ chars) (lstrip chars s) → Forall (λ x, x ∈ chars) s.
Proof.
  induction s as [|x s IH]; simpl; [done|]. case_decide; [|done]. intros ?%IH. by constructor.
Qed.

Lemma words_nil cur s : words_from white cur s = [] ↔ cur = [] ∧ Forall (λ x, x ∈ _WHITES) s.
Proof.
  revert cur. induction s as [|x s IH]; intros cur; cbn [words_from].
  - case_decide; [split; [by split|done]|]. split; [done|tauto].
  - rewrite Forall_cons. unfold white at 1. case_bool_decide as Hx.
    + destruct (decide (cur = [])) as [->|Hc]; [rewrite app_nil_l, IH; tauto|].
      split; [done|tauto].
    + rewrite IH. split; [intros [[]%app_nil _]; done|tauto].
Qed.

Lemma strip_blank s : strip _WHITES s = [] ↔ words white s = [].
Proof.
  unfold strip, words. rewrite words_nil. rewrite <- (reverse_nil (A:=byte)) at 1.
  split.
  - intros Hs%(inj reverse)%lstrip_nil. split; [done|]. apply lstrip_Forall.
    rewrite <- (reverse_involutive (lstrip _WHITES s)). by apply Forall_reverse.
  - intros [_ Hs%lstrip_nil]. by rewrite Hs.
Qed.

(** ** Lines *)

(** Line [i] of a file; empty after its end. *)
Fixpoint line (i : nat) (f : bytes) : bytes :=
  match i with
  | O => (readline f).1
  | S i => line i (readline f).2
  end.

Lemma line_nil i : line i [] = [].
Proof. induction i; done. Qed.

Lemma readline_length f : List.length (readline f).1 + List.length (readline f).2 = List.length f.
Proof.
  induction f as [|x f IH]; simpl; [done|]. case_decide; [done|].
  destruct (readline f). simpl in *. lia.
Qed.

Lemma readline_nonempty f : (readline f).1 = [] ↔ f = [].
Proof.
  destruct f as [|x f]; simpl; [done|]. case_decide; [done|]. by destruct (readline f).
Qed.

(** What a file must be for the rest of the comparison. *)
Definition same_lines (a b : bytes) : Prop := ∀ i, words white (line i a) = words white (line i b).

Lemma same_lines_step a b :
  same_lines a b ↔
  words white (readline a).1 = words white (readline b).1 ∧
  same_lines (readline a).2 (readline b).2.
Proof.
  unfold same_lines. split.
  - intros Hs. split; [apply (Hs 0)|]. intros i. apply (Hs (S i)).
  - intros [H0 Hs] [|i]; [done|]. apply Hs.
Qed.

Lemma not_blank l : (0 <? List.length (strip _WHITES l))%nat = negb (bool_decide (words white l = [])).
Proof.
  case_bool_decide as Hw.
  - apply strip_blank in Hw. by rewrite Hw.
  - rewrite <- strip_blank in Hw. destruct (strip _WHITES l); done.
Qed.

Lemma white_diff_loop_spec fuel a b :
  List.length a + List.length b < fuel →
  ∃ r, white_diff_loop fuel a b = Ok r ∧ (r = true ↔ same_lines a b).
Proof.
  revert a b. induction fuel as [|fuel IH]; intros a b Hf; [lia|]. cbn [white_diff_loop].
  pose proof (same_lines_step a b) as Hst.
  pose proof (readline_length a) as Ha. pose proof (readline_length b) as Hb.
  pose proof (readline_nonempty a) as Ha0. pose proof (readline_nonempty b) as Hb0.
  destruct (readline a) as [la ra], (readline b) as [lb rb]. cbn [fst snd] in *.
  destruct (decide (la = [] ∧ lb = [])) as [[-> ->]|Hne].
  { exists true. rewrite (proj1 Ha0), (proj1 Hb0) in * by done. done. }
  assert (List.length ra + List.length rb < fuel) as Hfuel.
  { destruct la, lb; simpl in *; try lia. by destruct Hne. }
  destruct (IH ra rb Hfuel) as (r & Hr & Hs). rewrite !not_blank.
  destruct (Nat.eqb_spec (List.length lb) 0) as [Hlb%nil_length_inv|Hlb];
    destruct (Nat.eqb_spec (List.length la) 0) as [Hla%nil_length_inv|Hla]; cbn [andb orb].
  - by destruct Hne.
  - subst lb. change (words white []) with (@nil bytes).
    destruct (decide (words white la = [])) as [Hw|Hw]; case_bool_decide; try done; simpl.
    + exists r. split; [done|]. rewrite Hst. rewrite Hs. tauto.
    + exists false. split; [done|]. rewrite Hst. split; [done|tauto].
  - subst la. change (words white []) with (@nil bytes). cbn [bool_decide decide].
    destruct (decide (words white lb = [])) as [Hw|Hw].
    + rewrite (bool_decide_eq_true_2 _ Hw). simpl. exists r. split; [done|]. rewrite Hst. rewrite Hs, Hw. tauto.
    + rewrite (bool_decide_eq_false_2 _ Hw). simpl. exists false. split; [done|].
      split; [done|]. rewrite Hst. intros [? _]. by destruct Hw.
  - case_decide as Hc; rewrite canonicalize_eq in Hc.
    + exists r. split; [done|]. rewrite Hst. rewrite Hs. tauto.
    + exists false. split; [done|]. rewrite Hst. split; [done|tauto].
Qed.

(** C40. [_white_diff] always ends, and accepts two files exactly when every
    line of one has the same words as the same line of the other, a line after
    the end of a file counting as empty. So the comparison is an equivalence,
    and white lines at the end of a file do not matter. *)
Theorem white_diff_lines (output res : bytes) :
  ∃ r, _white_diff output res = Ok r ∧
    (r = true ↔ ∀ i, words white (line i output) = words white (line i res)) ∧
    white_diff_fobj_step output res =
      Ok (if r then (f1, ["Output is correct"%string]) else (f0, ["Output isn't correct"%string])).
Proof.
  destruct (white_diff_loop_spec (S (List.length output + List.length res)) output res)
    as (r & Hr & Hs); [lia|].
  exists r. unfold white_diff_fobj_step. fold (_white_diff output res) in Hr. by rewrite Hr.
Qed.

Example white_diff_accepts :
  _white_diff [x61; x20; x0d; x0a; x0a; x20] [x20; x61; x0a] = Ok true ∧
  _white_diff [x61; x0a; x62] [x61; x20; x62] = Ok false.
Proof. split; vm_compute; reflexivity. Qed.
