(* ===== verification/Ranking.v ===== *)
(** * Scores of the ranking (class Score, cmsranking/Scoring.py)

    A [Score] is what the ranking web server knows of one user on one task:
    the submissions in their current status, the changes received so far and
    the history of scores computed from them. The objects of [_submissions]
    are referred to by their key, so that [_last] is the key of the last
    submission, whose score is read when it is needed, as through the
    reference that the code keeps. A string of [extra] is given by the number
    that [float] reads in it, or [None] when it raises. *)

From S2P Require Import Prelude PyFloat.
From Stdlib Require Import SpecFloat OrderedTypeEx.

(** Submission (cmsranking/Submission.py) *)
Record Submission := mk_submission {
  user : string;
  task : string;
  time : Z;
  score : float;
  token : bool;
  extra : list (option float);
}.

(** Subchange (cmsranking/Subchange.py) *)
Record Subchange := mk_subchange {
  sc_key : string;
  sc_submission : string;
  sc_time : Z;
  sc_score : option float;
  sc_token : option bool;
  sc_extra : option (list (option float));
}.

Definition SCORE_MODE_MAX : string := "max".
Definition SCORE_MODE_MAX_SUBTASK : string := "max_subtask".
Definition SCORE_MODE_MAX_TOKENED_LAST : string := "max_tokened_last".

(** ** NumberSet *)

Definition NumberSet : Type := list float.

Definition ns_insert (val : float) (s : NumberSet) : NumberSet := s ++ [val].

(** [list.remove]: the first element that is equal to [val]. *)
Fixpoint ns_remove (val : float) (s : NumberSet) : res NumberSet :=
  match s with
  | [] => Raise ValueError
  | x :: s => if feqb x val then Ok s else s ← ns_remove val s; Ok (x :: s)
  end.

(** [max(l)] on a non-empty list; the first of the greatest. *)
Definition max_of (x : float) (l : list float) : float := foldl fmax x l.

(** [max(l, default=d)] *)
Definition max_default (d : float) (l : list float) : float :=
  match l with
  | [] => d
  | x :: l => max_of x l
  end.

Definition ns_query (s : NumberSet) : float := max_default f0 (s ++ [f0]).

(** ** Score *)

Record Score := mk_score {
  _submissions : pydict string Submission;
  _changes : list Subchange;
  _released : NumberSet;
  _last : option string;
  _history : list (Z * float);
  _score_mode : string;
}.

Definition score_init (score_mode : string) : Score :=
  mk_score [] [] [] None [] score_mode.

Definition set_submissions (v : pydict string Submission) (s : Score) : Score :=
  mk_score v (_changes s) (_released s) (_last s) (_history s) (_score_mode s).
Definition set_changes (v : list Subchange) (s : Score) : Score :=
  mk_score (_submissions s) v (_released s) (_last s) (_history s) (_score_mode s).
Definition set_released (v : NumberSet) (s : Score) : Score :=
  mk_score (_submissions s) (_changes s) v (_last s) (_history s) (_score_mode s).
Definition set_last (v : option string) (s : Score) : Score :=
  mk_score (_submissions s) (_changes s) (_released s) v (_history s) (_score_mode s).
Definition set_history (v : list (Z * float)) (s : Score) : Score :=
  mk_score (_submissions s) (_changes s) (_released s) (_last s) v (_score_mode s).

Definition get_score (s : Score) : float :=
  match last (_history s) with
  | Some (_, score) => score
  | None => f0
  end.

(** [self._submissions[s_id]] *)
Definition submission_at (s_id : string) : M Score Submission :=
  s ← get; lift (or_raise KeyError (pd_get (_submissions s) s_id)).

(** The assignments of [append_change] to the submission. *)
Definition apply_change (change : Subchange) (sub : Submission) : Submission :=
  mk_submission (user sub) (task sub) (time sub)
    (default (score sub) (sc_score change))
    (default (token sub) (sc_token change))
    (default (extra sub) (sc_extra change)).

(** [map(float, s.extra or [s.score])], once it is consumed. *)
Definition subtask_scores (s : Submission) : res (list float) :=
  match extra s with
  | [] => Ok [score s]
  | l => or_raise ValueError (mapM id l)
  end.

Fixpoint all_subtask_scores (l : list Submission) : res (list (list float)) :=
  match l with
  | [] => Ok []
  | s :: l => r ← subtask_scores s; rs ← all_subtask_scores l; Ok (r :: rs)
  end.

(** [zip_longest( *rows, fillvalue=0.0)] *)
Definition zip_longest (rows : list (list float)) : list (list float) :=
  (λ i, (λ r : list float, default f0 (r !! i)) <$> rows)
    <$> seq 0 (max_list (length <$> rows)).

(** The score computed at the end of [append_change]. *)
Definition computed_score (s : Score) : res float :=
  let submissions := pd_values (_submissions s) in
  if decide (_score_mode s = SCORE_MODE_MAX) then
    Ok (max_default f0 (score <$> submissions))
  else if decide (_score_mode s = SCORE_MODE_MAX_SUBTASK) then
    scores_by_submission ← all_subtask_scores submissions;
    Ok (foldl fadd f0 (max_default f0 <$> zip_longest scores_by_submission))
  else if decide (_score_mode s = SCORE_MODE_MAX_TOKENED_LAST) then
    last_score ← (match _last s with
                  | Some k => sub ← or_raise KeyError (pd_get (_submissions s) k); Ok (score sub)
                  | None => Ok f0
                  end);
    Ok (fmax (ns_query (_released s)) last_score)
  else Raise ValueError.

(** The submission [s_id] is submitted after the last one. *)
Definition after_last (s_id : string) : M Score bool :=
  s ← get;
  match _last s with
  | None => mret true
  | Some k =>
      last ← submission_at k; sub ← submission_at s_id;
      mret (bool_decide (time last < time sub)%Z)
  end.

Definition append_change (change : Subchange) : M Score unit :=
  let s_id := sc_submission change in
  sub ← submission_at s_id;
  _ ← (if token sub then
         s ← get; released ← lift (ns_remove (score sub) (_released s));
         modify (set_released released)
       else mret tt);
  _ ← modify (λ s, set_submissions (pd_set (_submissions s) s_id (apply_change change sub)) s);
  sub ← submission_at s_id;
  _ ← (if token sub then modify (λ s, set_released (ns_insert (score sub) (_released s)) s)
       else mret tt);
  _ ← (match sc_score change with
       | Some _ => b ← after_last s_id;
                   if b : bool then modify (set_last (Some s_id)) else mret tt
       | None => mret tt
       end);
  s ← get;
  score ← lift (computed_score s);
  if feqb score (get_score s) then mret tt
  else modify (λ s, set_history (_history s ++ [(sc_time change, score)]) s).

(** [sub.score = 0.0; sub.token = False; sub.extra = list()] *)
Definition default_sub (sub : Submission) : Submission :=
  mk_submission (user sub) (task sub) (time sub) f0 false [].

Definition cleared (s : Score) : Score :=
  mk_score (prod_map id default_sub <$> _submissions s) (_changes s) [] None [] (_score_mode s).

Definition reset_history : M Score unit :=
  _ ← modify cleared;
  s ← get;
  for_each append_change (_changes s).

(** [a] goes before [b] in the list of changes. *)
Definition change_lt (a b : Subchange) : bool :=
  bool_decide (sc_time a < sc_time b)%Z
  || bool_decide (sc_time a = sc_time b) && String.ltb (sc_key a) (sc_key b).

(** The loop of [create_subchange]; nothing is inserted when no change of the
    list goes after the new one. *)
Fixpoint insert_change (subchange : Subchange) (l : list Subchange) : list Subchange :=
  match l with
  | [] => []
  | val :: l =>
      if change_lt subchange val then subchange :: val :: l
      else val :: insert_change subchange l
  end.

Definition create_subchange (key : string) (subchange : Subchange) : M Score unit :=
  s ← get;
  if (match last (_changes s) with
      | None => true
      | Some c => change_lt c subchange
      end)
  then
    _ ← modify (λ s, set_changes (_changes s ++ [subchange]) s);
    append_change subchange
  else
    _ ← modify (λ s, set_changes (insert_change subchange (_changes s)) s);
    _ ← reset_history;
    _ ← submission_at (sc_submission subchange);
    mret tt.

Definition update_subchange (key : string) (subchange : Subchange) : M Score unit :=
  _ ← modify (λ s, set_changes
         ((λ c, if decide (sc_key c = key) then subchange else c) <$> _changes s) s);
  _ ← reset_history;
  _ ← submission_at (sc_submission subchange);
  mret tt.

Definition delete_subchange (key : string) : M Score unit :=
  _ ← modify (λ s, set_changes (filter (λ c, sc_key c ≠ key) (_changes s)) s);
  reset_history.

Definition create_submission (key : string) (submission : Submission) : M Score unit :=
  modify (λ s, set_submissions (pd_set (_submissions s) key (default_sub submission)) s).

Definition update_submission (key : string) (submission : Submission) : M Score unit :=
  _ ← modify (λ s, set_submissions (pd_set (_submissions s) key submission) s);
  reset_history.

Definition delete_submission (key : string) : M Score unit :=
  s ← get;
  if pd_mem (_submissions s) key then
    _ ← modify (λ s, set_submissions (pd_del (_submissions s) key) s);
    _ ← modify (λ s, set_changes (filter (λ c, sc_submission c ≠ key) (_changes s)) s);
    reset_history
  else mret tt.

Definition update_score_mode (score_mode : string) : M Score unit :=
  modify (λ s, mk_score (_submissions s) (_changes s) (_released s) (_last s) (_history s) score_mode).

Definition demo_submission (t : Z) : Submission := mk_submission "u" "t" t f0 false [].

Example replay_demo :
  let m := _ ← create_submission "a" (demo_submission 10);
           _ ← create_submission "b" (demo_submission 20);
           _ ← create_subchange "y" (mk_subchange "y" "b" 20 (Some (of_Z 30)) None None);
           create_subchange "x" (mk_subchange "x" "a" 10 (Some (of_Z 50)) (Some true) None) in
  _history (m (score_init SCORE_MODE_MAX_TOKENED_LAST)).2 = [(10, of_Z 50)]%Z.
Proof. vm_compute. reflexivity. Qed.

(** ** Regular states

    Scores are not negative, and the details are numbers that are not
    negative either. *)

Definition regular_extra (l : list (option float)) : bool :=
  forallb (λ o, match o with Some x => nonneg x | None => false end) l.

Definition regular (s : Submission) : bool := nonneg (score s) && regular_extra (extra s).

Definition regular_change (c : Subchange) : bool :=
  nonneg (default f0 (sc_score c)) && regular_extra (default [] (sc_extra c)).

(** The scores of the submissions with a token. *)
Definition tokened (l : list Submission) : list float := score <$> filter (λ s, token s = true) l.

Record good (st : Score) : Prop := {
  good_keys : NoDup (pd_keys (_submissions st));
  good_regular : Forall (λ s, regular s = true) (pd_values (_submissions st));
  good_released : _released st ≡ₚ tokened (pd_values (_submissions st));
  good_last k : _last st = Some k → k ∈ pd_keys (_submissions st);
  good_mode : _score_mode st ∈ [SCORE_MODE_MAX; SCORE_MODE_MAX_SUBTASK; SCORE_MODE_MAX_TOKENED_LAST];
}.

(** The change is regular and the submission is known. *)
Definition known_change (st : Score) (c : Subchange) : Prop :=
  sc_submission c ∈ pd_keys (_submissions st) ∧ regular_change c = true.

Lemma regular_apply c s :
  regular s = true → regular_change c = true → regular (apply_change c s) = true.
Proof.
  unfold regular, regular_change. rewrite !andb_true_iff. intros [Hs He] [Hcs Hce]. simpl.
  split; [by destruct (sc_score c)|by destruct (sc_extra c)].
Qed.

Lemma ns_remove_perm x s l :
  nonneg x = true → Forall (λ y, nonneg y = true) s → s ≡ₚ x :: l →
  ∃ s', ns_remove x s = Ok s' ∧ s' ≡ₚ l.
Proof.
  intros Hx Hs. revert l. induction Hs as [|y s Hy Hs IH]; intros l Hp.
  { by apply Permutation_nil_cons in Hp. }
  simpl. destruct (feqb y x) eqn:Hyx.
  - apply feqb_nonneg in Hyx as ->; [|done..]. exists s. split; [done|]. by apply (inj (x ::.)) in Hp.
  - assert (x ∈ s) as Hin.
    { assert (x ∈ y :: s) as [->|?]%elem_of_cons; [rewrite Hp; by left| |done].
      by rewrite feqb_refl in Hyx. }
    apply elem_of_Permutation in Hin as [s0 Hs0].
    destruct (IH s0 Hs0) as (s' & -> & Hs'). exists (y :: s'). split; [done|].
    rewrite Hs'. apply (inj (x ::.)). by rewrite <- Hp, Hs0, Permutation_swap.
Qed.

(** ** One change *)

Definition time_of (d : pydict string Submission) (k : string) : Z :=
  match pd_get d k with Some s => time s | None => 0 end.

(** The last submission after a change. *)
Definition new_last (c : Subchange) (st : Score) : option string :=
  match sc_score c, _last st with
  | None, l => l
  | Some _, None => Some (sc_submission c)
  | Some _, Some k =>
      if bool_decide (time_of (_submissions st) k < time_of (_submissions st) (sc_submission c))%Z
      then Some (sc_submission c) else Some k
  end.

(** The state after a change, but for the history. *)
Definition changed (c : Subchange) (sub : Submission) (released : NumberSet) (st : Score) : Score :=
  let sub' := apply_change c sub in
  mk_score (pd_set (_submissions st) (sc_submission c) sub') (_changes st)
    (if token sub' then ns_insert (score sub') released else released)
    (new_last c st) (_history st) (_score_mode st).

(** The history after a change. *)
Definition extend_history (t : Z) (sc : float) (st : Score) : Score :=
  if feqb sc (get_score st) then st else set_history (_history st ++ [(t, sc)]) st.

Lemma after_last_run c sub st :
  pd_get (_submissions st) (sc_submission c) = Some sub →
  (∀ k, _last st = Some k → k ∈ pd_keys (_submissions st)) →
  after_last (sc_submission c) st =
  (Ok (match _last st with
       | None => true
       | Some k => bool_decide (time_of (_submissions st) k
                                < time_of (_submissions st) (sc_submission c))%Z
       end), st).
Proof.
  intros Hs Hl. unfold after_last, submission_at. run_goal.
  destruct (_last st) as [k|] eqn:Hk; [|done].
  destruct (proj2 (pd_get_in _ _) (Hl k eq_refl)) as [l Hg]. unfold time_of.
  by rewrite Hs, Hg.
Qed.

Lemma append_run c sub r sc st :
  pd_get (_submissions st) (sc_submission c) = Some sub →
  (∀ k, _last st = Some k → k ∈ pd_keys (_submissions st)) →
  (if token sub then ns_remove (score sub) (_released st) = Ok r else r = _released st) →
  computed_score (changed c sub r st) = Ok sc →
  append_change c st = (Ok tt, extend_history (sc_time c) sc (changed c sub r st)).
Proof.
  intros Hs Hl Hr Hc. unfold append_change.
  rewrite (M_run_Ok _ _ _ sub st) by (unfold submission_at; run_goal; by rewrite Hs).
  rewrite (M_run_Ok _ _ _ tt (set_released r st)).
  2: { destruct (token sub); [|by subst r; destruct st]. run_goal. by rewrite Hr. }
  rewrite (M_run_Ok _ _ _ tt
    (set_released r (set_submissions (pd_set (_submissions st) (sc_submission c) (apply_change c sub)) st)))
    by done.
  set (sub' := apply_change c sub).
  rewrite (M_run_Ok _ _ _ sub'
    (set_released r (set_submissions (pd_set (_submissions st) (sc_submission c) sub') st)))
    by (unfold submission_at; run_goal; cbn; by rewrite pd_get_set_eq).
  set (r' := if token sub' then ns_insert (score sub') r else r).
  rewrite (M_run_Ok _ _ _ tt
    (set_released r' (set_submissions (pd_set (_submissions st) (sc_submission c) sub') st)))
    by (subst r'; destruct (token sub'); reflexivity).
  rewrite (M_run_Ok _ _ _ tt (changed c sub r st)).
  - run_goal. rewrite Hc. unfold extend_history. by destruct (feqb sc _).
  - unfold changed, new_last. fold sub'. fold r'. destruct (sc_score c); [|done].
    erewrite M_run_Ok; [|apply (after_last_run _ sub')].
    + cbn. assert (∀ k, time_of (pd_set (_submissions st) (sc_submission c) sub') k
                        = time_of (_submissions st) k) as Ht.
      { intros k. unfold time_of. rewrite pd_get_set. case_decide; [|done]. subst k. by rewrite Hs. }
      destruct (_last st) as [k|] eqn:Hk; cbn; [|done]. rewrite !Ht.
      case_bool_decide; [done|]. unfold set_released, set_submissions, mret, M_ret. cbn.
      by rewrite Hk.
    + cbn. by rewrite pd_get_set_eq.
    + cbn. intros k Hk%Hl. apply pd_keys_set_elem. by right.
Qed.

(** ** The score of a state

    What the score is meant to be, from the current submissions. *)

(** The scores of the subtasks of a submission. *)
Definition row (s : Submission) : list float :=
  match extra s with
  | [] => [score s]
  | l => default f0 <$> l
  end.

(** The greatest score of subtask [i]. *)
Definition subtask_max (rows : list (list float)) (i : nat) : float :=
  fmaxs ((λ r : list float, default f0 (r !! i)) <$> rows).

Definition last_score (d : pydict string Submission) (l : option string) : float :=
  match l ≫= pd_get d with Some s => score s | None => f0 end.

Definition spec_score (st : Score) : float :=
  let subs := pd_values (_submissions st) in
  if decide (_score_mode st = SCORE_MODE_MAX) then fmaxs (score <$> subs)
  else if decide (_score_mode st = SCORE_MODE_MAX_SUBTASK) then
    foldl fadd f0 (subtask_max (row <$> subs) <$> seq 0 (max_list (length <$> (row <$> subs))))
  else fmax (fmaxs (tokened subs)) (last_score (_submissions st) (_last st)).

Lemma max_default_fmaxs l : Forall (λ x, nonneg x = true) l → max_default f0 l = fmaxs l.
Proof. intros [|x l' Hx Hl]; [done|]. by apply foldl_fmax. Qed.

Lemma regular_scores l : Forall (λ s, regular s = true) l → Forall (λ x, nonneg x = true) (score <$> l).
Proof.
  intros Hl. apply Forall_fmap. eapply Forall_impl; [exact Hl|]. by intros s [? _]%andb_true_iff.
Qed.

Lemma regular_extra_row l :
  regular_extra l = true →
  mapM id l = Some (default f0 <$> l) ∧ Forall (λ x, nonneg x = true) (default f0 <$> l).
Proof.
  induction l as [|[x|] l IH]; simpl; [by repeat constructor| |done].
  intros [Hx Hl]%andb_true_iff. destruct (IH Hl) as [-> Hr]. simpl. by repeat constructor.
Qed.

Lemma row_nonneg s : regular s = true → Forall (λ x, nonneg x = true) (row s).
Proof.
  intros [Hs He]%andb_true_iff. unfold row. destruct (extra s) as [|o l] eqn:Hx.
  - by repeat constructor.
  - by apply regular_extra_row.
Qed.

Lemma subtask_scores_row s : regular s = true → subtask_scores s = Ok (row s).
Proof.
  intros [_ He]%andb_true_iff. unfold subtask_scores, row.
  destruct (extra s) as [|o l]; [done|]. by rewrite (proj1 (regular_extra_row _ He)).
Qed.

Lemma all_subtask_scores_rows l :
  Forall (λ s, regular s = true) l → all_subtask_scores l = Ok (row <$> l).
Proof.
  induction 1 as [|s l Hs _ IH]; [done|]. cbn. by rewrite subtask_scores_row, IH.
Qed.

Lemma column_nonneg l i :
  Forall (λ s, regular s = true) l →
  Forall (λ x, nonneg x = true) ((λ r : list float, default f0 (r !! i)) <$> (row <$> l)).
Proof.
  intros Hl. rewrite !Forall_fmap. eapply Forall_impl; [exact Hl|]. intros s Hs%row_nonneg.
  simpl. destruct (row s !! i) eqn:Hi; [|done]. exact (Forall_lookup_1 _ _ _ _ Hs Hi).
Qed.

Lemma regular_tokened l :
  Forall (λ s, regular s = true) l → Forall (λ x, nonneg x = true) (tokened l).
Proof.
  intros Hl. apply regular_scores, Forall_forall. intros s [_ Hs]%list_elem_of_filter.
  by eapply Forall_forall in Hl.
Qed.

(** What the code computes is the score of the state. *)
Lemma computed_score_spec st : good st → computed_score st = Ok (spec_score st).
Proof.
  intros [Hn Hr Hrel Hlast Hm]. unfold computed_score, spec_score.
  destruct (decide _); [by rewrite max_default_fmaxs by by apply regular_scores|].
  destruct (decide (_ = SCORE_MODE_MAX_SUBTASK)).
  - rewrite all_subtask_scores_rows by done. cbn. do 2 f_equal. unfold zip_longest.
    rewrite <- list_fmap_compose. apply list_fmap_ext. intros _ i _. cbn.
    by rewrite max_default_fmaxs by by apply column_nonneg.
  - rewrite decide_True by set_solver.
    assert (ns_query (_released st) = fmaxs (tokened (pd_values (_submissions st)))) as ->.
    { apply regular_tokened in Hr. unfold ns_query. rewrite max_default_fmaxs.
      - rewrite fmaxs_zeros; [by symmetry; apply fmaxs_Permutation|by rewrite Hrel|by repeat constructor].
      - rewrite Hrel. apply Forall_app. by repeat constructor. }
    unfold last_score. destruct (_last st) as [k|] eqn:Hk; [|done]. cbn.
    destruct (proj2 (pd_get_in _ _) (Hlast k eq_refl)) as [s ->]. done.
Qed.

(** ** One change on a good state *)

Lemma values_regular st k s :
  good st → pd_get (_submissions st) k = Some s → regular s = true.
Proof.
  intros Hg Hs%pd_get_Some_in. pose proof (good_regular _ Hg) as Hr.
  rewrite Forall_forall in Hr. apply Hr, list_elem_of_fmap. by exists (k, s).
Qed.

Lemma tokened_split a b s :
  tokened (a ++ s :: b) ≡ₚ (if token s then [score s] else []) ++ tokened (a ++ b).
Proof.
  unfold tokened. rewrite <- (Permutation_middle a b s), filter_cons.
  destruct (token s); [by rewrite decide_True|by rewrite decide_False].
Qed.

(** Removing the score of the submission, if it has a token, succeeds. *)
Lemma released_remove st k s :
  good st → pd_get (_submissions st) k = Some s →
  ∃ r, (if token s then ns_remove (score s) (_released st) = Ok r else r = _released st) ∧
    ∀ v, (if token v then ns_insert (score v) r else r)
         ≡ₚ tokened (pd_values (pd_set (_submissions st) k v)).
Proof.
  intros Hg Hs. destruct (pd_split _ _ _ Hs) as (d1 & d2 & Hd & Hset).
  pose proof (good_released _ Hg) as Hr. rewrite Hd in Hr. unfold pd_values in *.
  rewrite fmap_app, fmap_cons, tokened_split in Hr. cbn in Hr.
  assert (∃ r, (if token s then ns_remove (score s) (_released st) = Ok r else r = _released st) ∧
               r ≡ₚ tokened (d1.*2 ++ d2.*2)) as (r & H1 & H2).
  { destruct (token s); [|by eexists; split]. apply ns_remove_perm.
    - apply (values_regular _ _ _ Hg), andb_true_iff in Hs. apply Hs.
    - rewrite (good_released _ Hg). apply regular_tokened, Hg.
    - exact Hr. }
  exists r. split; [done|]. intros v. rewrite Hset, fmap_app, fmap_cons, tokened_split. cbn.
  rewrite <- H2. destruct (token v); [|done]. unfold ns_insert. by rewrite (comm (++)).
Qed.

Lemma new_last_known c st k :
  good st → sc_submission c ∈ pd_keys (_submissions st) →
  new_last c st = Some k → k ∈ pd_keys (_submissions st).
Proof.
  intros Hg Hc. unfold new_last. pose proof (good_last _ Hg) as Hl.
  destruct (sc_score c); [|apply Hl]. destruct (_last st) as [l|]; [|by intros [= <-]].
  case_bool_decide; intros [= <-]; [done|by apply Hl].
Qed.

Lemma good_extend_history t sc st : good st → good (extend_history t sc st).
Proof. intros Hg. unfold extend_history. case_match; [done|]. by destruct Hg; split. Qed.

(** Appending a known regular change succeeds, and its result is given by
    [changed] and [extend_history]. *)
Lemma append_ok c st :
  good st → known_change st c →
  ∃ sub r, pd_get (_submissions st) (sc_submission c) = Some sub ∧
    (if token sub then ns_remove (score sub) (_released st) = Ok r else r = _released st) ∧
    good (changed c sub r st) ∧
    append_change c st =
      (Ok tt, extend_history (sc_time c) (spec_score (changed c sub r st)) (changed c sub r st)).
Proof.
  intros Hg [Hk Hc]. destruct (proj2 (pd_get_in _ _) Hk) as [sub Hs].
  destruct (released_remove _ _ _ Hg Hs) as (r & Hr & Hrel).
  assert (good (changed c sub r st)) as Hg'.
  { split; cbn.
    - apply pd_keys_set_NoDup, Hg.
    - destruct (pd_split _ _ _ Hs) as (d1 & d2 & Hd & ->). pose proof (good_regular _ Hg) as Hall.
      rewrite Hd in Hall. unfold pd_values in *. rewrite fmap_app, fmap_cons in *. cbn in *.
      rewrite Forall_app, Forall_cons in *. destruct Hall as (? & ? & ?).
      split_and!; try done. by apply regular_apply.
    - exact (Hrel (apply_change c sub)).
    - intros k Hl. apply pd_keys_set_elem. right. by eapply new_last_known.
    - apply Hg. }
  exists sub, r. split_and!; try done.
  apply append_run; try done; [apply Hg|]. by apply computed_score_spec.
Qed.

(** ** States with the same submissions

    [sim st1 st2]: [st2] holds the submissions of [st1], in any order, and
    possibly others in their initial status. *)

Definition sim (st1 st2 : Score) : Prop :=
  NoDup (pd_keys (_submissions st2)) ∧
  (∃ ds, _submissions st2 ≡ₚ _submissions st1 ++ ds ∧ Forall (λ kv, default_sub kv.2 = kv.2) ds) ∧
  _released st2 = _released st1 ∧ _last st2 = _last st1 ∧
  _history st2 = _history st1 ∧ _score_mode st2 = _score_mode st1.

Lemma sim_get st1 st2 k s :
  sim st1 st2 → pd_get (_submissions st1) k = Some s → pd_get (_submissions st2) k = Some s.
Proof.
  intros (Hn & (ds & Hp & _) & _) Hs%pd_get_Some_in. apply pd_in_get; [done|].
  rewrite Hp. apply elem_of_app. by left.
Qed.

Lemma sim_key st1 st2 k : sim st1 st2 → k ∈ pd_keys (_submissions st1) → k ∈ pd_keys (_submissions st2).
Proof. rewrite <- !pd_get_in. intros Hs [s Hk]. exists s. by eapply sim_get. Qed.

Lemma default_row s : default_sub s = s → regular s = true ∧ score s = f0 ∧ row s = [f0] ∧ token s = false.
Proof. by intros <-. Qed.

Lemma sim_values st1 st2 :
  sim st1 st2 →
  ∃ ds, pd_values (_submissions st2) ≡ₚ pd_values (_submissions st1) ++ ds ∧
    Forall (λ s, regular s = true ∧ score s = f0 ∧ row s = [f0] ∧ token s = false) ds.
Proof.
  intros (_ & (ds & Hp & Hd) & _). exists ds.*2. split.
  - unfold pd_values. by rewrite Hp, fmap_app.
  - apply Forall_fmap. eapply Forall_impl; [exact Hd|]. intros [k s] Hs. by apply default_row.
Qed.

Lemma tokened_Permutation l1 l2 : l1 ≡ₚ l2 → tokened l1 ≡ₚ tokened l2.
Proof. intros Hp. unfold tokened. by rewrite Hp. Qed.

Lemma tokened_app l ds : Forall (λ s, token s = false) ds → tokened (l ++ ds) = tokened l.
Proof.
  intros Hd. unfold tokened. rewrite filter_app.
  assert (filter (λ s, token s = true) ds = []) as ->; [|by rewrite app_nil_r].
  induction Hd as [|s ds Hs _ IH]; [done|]. rewrite filter_cons, decide_False; [done|]. by rewrite Hs.
Qed.

Lemma sim_good st1 st2 : good st1 → sim st1 st2 → good st2.
Proof.
  intros Hg Hs. destruct (sim_values _ _ Hs) as (ds & Hp & Hd).
  pose proof Hs as (Hn & _ & Hr & Hl & _ & Hm). split.
  - done.
  - rewrite Hp. apply Forall_app. split; [apply Hg|]. eapply Forall_impl; [exact Hd|]. by intros ? (?&?&?&?).
  - rewrite Hr, (good_released _ Hg), (tokened_Permutation _ _ Hp), tokened_app; [done|].
    eapply Forall_impl; [exact Hd|]. by intros ? (?&?&?&?).
  - intros k. rewrite Hl. intros Hk%(good_last _ Hg). by eapply sim_key.
  - rewrite Hm. apply Hg.
Qed.

Lemma Forall_replicate_f0 (ds : list Submission) :
  Forall (λ s, row s = [f0]) ds → row <$> ds = replicate (length ds) [f0].
Proof. induction 1 as [|s ds Hs _ IH]; [done|]. csimpl. by rewrite Hs, IH. Qed.

Lemma max_list_app l1 l2 : max_list (l1 ++ l2) = max (max_list l1) (max_list l2).
Proof. induction l1 as [|x l1 IH]; simpl; [done|]. rewrite IH. lia. Qed.

Lemma max_list_ones n : max_list (length <$> replicate n [f0]) ≤ 1.
Proof. induction n; csimpl; lia. Qed.

Lemma row_length s : 1 ≤ length (row s).
Proof. unfold row. destruct (extra s); simpl; lia. Qed.

Lemma max_list_Permutation l1 l2 : l1 ≡ₚ l2 → max_list l1 = max_list l2.
Proof. induction 1; simpl; lia. Qed.

(** The submissions in their initial status do not change the number of
    subtasks, nor the greatest score of any. *)
Lemma rows_sim l1 l2 ds :
  l1 ≠ [] → Forall (λ s, regular s = true) l1 → Forall (λ s, row s = [f0]) ds → l2 ≡ₚ l1 ++ ds →
  max_list (length <$> (row <$> l2)) = max_list (length <$> (row <$> l1)) ∧
  ∀ i, subtask_max (row <$> l2) i = subtask_max (row <$> l1) i.
Proof.
  intros Hne Hl Hd Hp. apply Forall_replicate_f0 in Hd. split.
  - rewrite (max_list_Permutation _ (length <$> (row <$> (l1 ++ ds)))) by by rewrite Hp.
    rewrite !fmap_app, max_list_app, Hd. pose proof (max_list_ones (length ds)).
    destruct l1 as [|s l1]; [done|]. pose proof (row_length s). csimpl. lia.
  - intros i. unfold subtask_max.
    set (col := λ r : list float, default f0 (r !! i)).
    assert (Forall (λ x, x = f0) (col <$> (row <$> ds))) as Hz.
    { rewrite Hd, fmap_replicate. apply Forall_replicate. by destruct i. }
    assert (Forall (λ x, nonneg x = true) (col <$> (row <$> l1))) as Hn by by apply column_nonneg.
    rewrite <- (fmaxs_zeros _ _ Hn Hz). symmetry. rewrite <- !fmap_app.
    apply fmaxs_Permutation; [|by rewrite Hp].
    rewrite !fmap_app. apply Forall_app. split; [done|].
    eapply Forall_impl; [exact Hz|]. by intros ? ->.
Qed.

Lemma spec_score_sim st1 st2 :
  good st1 → sim st1 st2 → _submissions st1 ≠ [] → spec_score st2 = spec_score st1.
Proof.
  intros Hg Hs Hne. pose proof (sim_good _ _ Hg Hs) as Hg2.
  destruct (sim_values _ _ Hs) as (ds & Hp & Hd).
  pose proof (good_regular _ Hg) as Hr. pose proof (good_regular _ Hg2) as Hr2.
  pose proof Hs as (_ & _ & _ & Hl & _ & Hm). unfold spec_score. rewrite Hm.
  destruct (decide _); [|destruct (decide _)].
  - rewrite (fmaxs_Permutation _ (score <$> (pd_values (_submissions st1) ++ ds)));
      [|by apply regular_scores|by rewrite Hp].
    rewrite fmap_app. apply fmaxs_zeros; [by apply regular_scores|].
    apply Forall_fmap. eapply Forall_impl; [exact Hd|]. by intros ? (?&?&?&?).
  - destruct (rows_sim (pd_values (_submissions st1)) (pd_values (_submissions st2)) ds)
      as [-> Hi]; try done.
    + unfold pd_values. by intros ?%fmap_nil_inv.
    + eapply Forall_impl; [exact Hd|]. by intros ? (?&?&?&?).
    + f_equal. apply list_fmap_ext. intros _ i _. apply Hi.
  - f_equal.
    + rewrite (fmaxs_Permutation _ (tokened (pd_values (_submissions st1) ++ ds)));
        [|by apply regular_tokened|by apply tokened_Permutation].
      rewrite tokened_app; [done|]. eapply Forall_impl; [exact Hd|]. by intros ? (?&?&?&?).
    + unfold last_score. rewrite Hl. destruct (_last st1) as [k|] eqn:Hk; [|done]. cbn.
      destruct (proj2 (pd_get_in _ _) (good_last _ Hg k Hk)) as [s Hg1].
      by rewrite Hg1, (sim_get _ _ _ _ Hs Hg1).
Qed.

Lemma sim_time st1 st2 k :
  sim st1 st2 → k ∈ pd_keys (_submissions st1) →
  time_of (_submissions st2) k = time_of (_submissions st1) k.
Proof.
  intros Hs [s Hk]%pd_get_in. unfold time_of. by rewrite Hk, (sim_get _ _ _ _ Hs Hk).
Qed.

Lemma changed_sim c sub r st1 st2 :
  good st1 → sim st1 st2 → pd_get (_submissions st1) (sc_submission c) = Some sub →
  sim (changed c sub r st1) (changed c sub r st2).
Proof.
  intros Hg Hs Hk. pose proof (sim_get _ _ _ _ Hs Hk) as Hk2.
  pose proof Hs as (Hn & (ds & Hp & Hd) & Hr & Hl & Hh & Hm).
  unfold sim, changed. cbn. split_and!; try done.
  - by apply pd_keys_set_NoDup.
  - exists ds. split; [|done].
    destruct (pd_split _ _ _ Hk) as (a & b & Ha & ->), (pd_split _ _ _ Hk2) as (a2 & b2 & Ha2 & ->).
    rewrite Ha, Ha2, <- app_assoc in Hp. cbn in Hp. rewrite <- !Permutation_middle in Hp.
    apply (inj (_ ::.)) in Hp. rewrite <- app_assoc. cbn. by rewrite <- !Permutation_middle, Hp.
  - unfold new_last. rewrite Hl. destruct (sc_score c); [|done].
    destruct (_last st1) as [k|] eqn:Hkl; [|done].
    assert (sc_submission c ∈ pd_keys (_submissions st1)) as Hin by (apply pd_get_in; eauto).
    by rewrite !(sim_time st1 st2) by eauto using good_last.
Qed.

Lemma extend_history_sim t sc st1 st2 :
  sim st1 st2 → sim (extend_history t sc st1) (extend_history t sc st2).
Proof.
  intros Hs. pose proof Hs as (Hn & Hp & Hr & Hl & Hh & Hm). unfold extend_history, get_score.
  rewrite Hh. case_match; [done|]. unfold sim, set_history. cbn. by split_and!.
Qed.

Lemma known_sim st1 st2 c : sim st1 st2 → known_change st1 c → known_change st2 c.
Proof. intros Hs [Hk Hc]. split; [by eapply sim_key|done]. Qed.

Lemma append_sim c st1 st2 :
  good st1 → known_change st1 c → sim st1 st2 →
  ∃ st1' st2', append_change c st1 = (Ok tt, st1') ∧ append_change c st2 = (Ok tt, st2') ∧
    good st1' ∧ sim st1' st2'.
Proof.
  intros Hg Hk Hs. pose proof (sim_good _ _ Hg Hs) as Hg2.
  destruct (append_ok c st1 Hg Hk) as (sub & r & Hsub & Hr & Hg' & Hrun).
  destruct (append_ok c st2 Hg2 (known_sim _ _ _ Hs Hk)) as (sub2 & r2 & Hsub2 & Hr2 & _ & Hrun2).
  pose proof (sim_get _ _ _ _ Hs Hsub) as Hsub'. rewrite Hsub2 in Hsub'. injection Hsub' as ->.
  assert (r2 = r) as ->.
  { destruct Hs as (_ & _ & Hrel & _). rewrite Hrel in Hr2. destruct (token sub); congruence. }
  pose proof (changed_sim c sub r _ _ Hg Hs Hsub) as Hcs.
  rewrite (spec_score_sim _ _ Hg' Hcs) in Hrun2.
  2: { cbn. destruct (pd_split _ _ _ Hsub) as (a & b & _ & ->). by destruct a. }
  eexists _, _. split_and!; [exact Hrun|exact Hrun2|by apply good_extend_history|].
  by apply extend_history_sim.
Qed.

(** ** Replaying the changes *)

(** What a change does not touch. *)
Definition skeleton (st : Score) : pydict string Submission * list Subchange * string :=
  (prod_map id default_sub <$> _submissions st, _changes st, _score_mode st).

Lemma skeleton_keys st st' : skeleton st' = skeleton st → pd_keys (_submissions st') = pd_keys (_submissions st).
Proof.
  intros [= Hs _ _]. unfold pd_keys.
  assert (∀ d : pydict string Submission, d.*1 = (prod_map id default_sub <$> d).*1) as Hd.
  { intros d. by rewrite <- list_fmap_compose. }
  by rewrite (Hd (_submissions st')), Hs, <- Hd.
Qed.

Lemma skeleton_cleared st st' : skeleton st' = skeleton st → cleared st' = cleared st.
Proof. intros [= H1 H2 H3]. unfold cleared. by rewrite H1, H2, H3. Qed.

Lemma skeleton_of_cleared st : skeleton (cleared st) = skeleton st.
Proof. unfold skeleton. cbn. by rewrite <- list_fmap_compose. Qed.

Lemma known_skeleton st st' c : skeleton st' = skeleton st → known_change st c → known_change st' c.
Proof. intros Hs [Hk Hc]. split; [by rewrite (skeleton_keys _ _ Hs)|done]. Qed.

Lemma append_skeleton c st :
  good st → known_change st c →
  ∃ st', append_change c st = (Ok tt, st') ∧ good st' ∧ skeleton st' = skeleton st.
Proof.
  intros Hg Hk. destruct (append_ok c st Hg Hk) as (sub & r & Hsub & _ & Hg' & Hrun).
  eexists. split_and!; [exact Hrun|by apply good_extend_history|].
  unfold extend_history. destruct (pd_split _ _ _ Hsub) as (a & b & Ha & Hset).
  case_match; unfold skeleton; cbn; by rewrite Hset, Ha, !fmap_app.
Qed.

Lemma replay_ok cs st :
  good st → Forall (known_change st) cs →
  ∃ st', for_each append_change cs st = (Ok tt, st') ∧ good st' ∧ skeleton st' = skeleton st.
Proof.
  revert st. induction cs as [|c cs IH]; intros st Hg Hk; [by exists st|].
  apply Forall_cons in Hk as [Hc Hk]. destruct (append_skeleton c st Hg Hc) as (st1 & Hr & Hg1 & Hs).
  destruct (IH st1 Hg1) as (st' & Hr' & Hg' & Hs').
  { eapply Forall_impl; [exact Hk|]. intros ?. by apply known_skeleton. }
  exists st'. cbn [for_each]. rewrite (M_run_Ok _ _ _ _ _ Hr). split_and!; [done..|congruence].
Qed.

Lemma replay_sim cs st1 st2 st1' :
  good st1 → Forall (known_change st1) cs → sim st1 st2 →
  for_each append_change cs st1 = (Ok tt, st1') →
  ∃ st2', for_each append_change cs st2 = (Ok tt, st2') ∧ sim st1' st2'.
Proof.
  revert st1 st2. induction cs as [|c cs IH]; intros st1 st2 Hg Hk Hs Hrun.
  - injection Hrun as <-. by exists st2.
  - apply Forall_cons in Hk as [Hc Hk].
    destruct (append_sim c st1 st2 Hg Hc Hs) as (s1 & s2 & H1 & H2 & Hg1 & Hs1).
    destruct (append_skeleton c st1 Hg Hc) as (s1' & H1' & _ & Hsk).
    rewrite H1 in H1'. injection H1' as <-.
    cbn [for_each] in *. rewrite (M_run_Ok _ _ _ _ _ H1) in Hrun. rewrite (M_run_Ok _ _ _ _ _ H2).
    eapply (IH s1 s2); try done. eapply Forall_impl; [exact Hk|]. intros ?. by apply known_skeleton.
Qed.

Lemma good_cleared st :
  NoDup (pd_keys (_submissions st)) →
  _score_mode st ∈ [SCORE_MODE_MAX; SCORE_MODE_MAX_SUBTASK; SCORE_MODE_MAX_TOKENED_LAST] →
  good (cleared st).
Proof.
  intros Hn Hm. assert (∀ s, s ∈ pd_values (_submissions (cleared st)) → default_sub s = s) as Hd.
  { cbn. intros s ((k & x) & -> & Hin)%list_elem_of_fmap.
    apply list_elem_of_fmap in Hin as ([k' s'] & [= -> ->] & _). done. }
  split.
  - by rewrite (skeleton_keys _ _ (skeleton_of_cleared st)).
  - apply Forall_forall. intros s Hs%Hd. by apply default_row.
  - rewrite <- (app_nil_l (pd_values _)), tokened_app; [done|].
    apply Forall_forall. intros s Hs%Hd. by apply default_row.
  - done.
  - done.
Qed.

Lemma reset_run st : reset_history st = for_each append_change (_changes st) (cleared st).
Proof. done. Qed.

Lemma sim_unique a b c :
  NoDup (pd_keys (_submissions a)) → sim a b → sim a c → skeleton b = skeleton c → b = c.
Proof.
  intros Hn Hb Hc Hs. pose proof Hb as (Hnb & (ds & Hp & Hd) & E1 & E2 & E3 & E4).
  pose proof Hc as (Hnc & (ds' & Hp' & Hd') & F1 & F2 & F3 & F4).
  assert (∀ x ds k v, sim a x → k ∉ pd_keys (_submissions a) → _submissions x ≡ₚ _submissions a ++ ds →
            Forall (λ kv, default_sub kv.2 = kv.2) ds → pd_get (_submissions x) k = Some v →
            default_sub v = v) as Hdef.
  { intros x l k v _ Hk Hx Hl Hg%pd_get_Some_in. rewrite Hx in Hg. apply elem_of_app in Hg as [Hg|Hg].
    - destruct Hk. apply list_elem_of_fmap. by exists (k, v).
    - rewrite Forall_forall in Hl. exact (Hl _ Hg). }
  assert (_submissions b = _submissions c) as Hbc.
  { apply pd_ext; [done|by apply skeleton_keys|]. intros k.
    destruct (pd_get (_submissions a) k) as [v|] eqn:Ha.
    - by rewrite (sim_get _ _ _ _ Hb Ha), (sim_get _ _ _ _ Hc Ha).
    - assert (default_sub <$> pd_get (_submissions b) k = default_sub <$> pd_get (_submissions c) k) as Hg.
      { injection Hs as Hs _ _. by rewrite <- !pd_get_fmap, Hs. }
      apply pd_get_None in Ha.
      destruct (pd_get (_submissions b) k) as [v|] eqn:H1, (pd_get (_submissions c) k) as [v'|] eqn:H2;
        try done. apply (inj Some) in Hg.
      rewrite (Hdef b ds k v Hb Ha Hp Hd H1), (Hdef c ds' k v' Hc Ha Hp' Hd' H2) in Hg. by f_equal. }
  injection Hs as _ Hch _. destruct b, c; cbn in *. by simplify_eq.
Qed.

(** ** The order of the changes *)

Definition change_before (a b : Subchange) : Prop := change_lt a b = true.

Lemma ltb_compare s1 s2 : String.ltb s1 s2 = true ↔ String.compare s1 s2 = Lt.
Proof. unfold String.ltb. by destruct (String.compare s1 s2). Qed.

Lemma ltb_trans s1 s2 s3 : String.ltb s1 s2 = true → String.ltb s2 s3 = true → String.ltb s1 s3 = true.
Proof.
  rewrite !ltb_compare. change String.compare with String_as_OT.cmp.
  rewrite !String_as_OT.cmp_lt. apply String_as_OT.lt_trans.
Qed.

Lemma ltb_irrefl s : String.ltb s s = false.
Proof.
  unfold String.ltb. replace (String.compare s s) with Eq; [done|]. symmetry.
  by apply String_as_OT.cmp_eq.
Qed.

Lemma ltb_total s1 s2 : s1 ≠ s2 → String.ltb s1 s2 = true ∨ String.ltb s2 s1 = true.
Proof.
  intros Hne. rewrite !ltb_compare. rewrite (String.compare_antisym s2 s1).
  destruct (String.compare s1 s2) eqn:Hc; simpl; [|tauto..].
  by apply String.compare_eq_iff in Hc.
Qed.

Lemma change_before_spec a b :
  change_before a b ↔
  (sc_time a < sc_time b)%Z ∨ sc_time a = sc_time b ∧ String.ltb (sc_key a) (sc_key b) = true.
Proof.
  unfold change_before, change_lt. by rewrite orb_true_iff, andb_true_iff, !bool_decide_eq_true.
Qed.

Lemma change_before_trans a b c : change_before a b → change_before b c → change_before a c.
Proof.
  rewrite !change_before_spec. intros [?|[??]] [?|[??]]; [left; lia..|right].
  split; [lia|by eapply ltb_trans].
Qed.

Lemma change_before_irrefl a : ¬ change_before a a.
Proof. rewrite change_before_spec, ltb_irrefl. by intros [?|[_ ?]]; [lia|]. Qed.

Lemma change_before_total a b : sc_key a ≠ sc_key b → change_before a b ∨ change_before b a.
Proof.
  intros Hk%ltb_total. rewrite !change_before_spec.
  destruct (Z.lt_trichotomy (sc_time a) (sc_time b)) as [?|[?|?]]; [tauto| |tauto].
  destruct Hk; [left|right]; by right.
Qed.

Lemma sorted_last l c x :
  StronglySorted change_before l → last l = Some c → x ∈ l → x = c ∨ change_before x c.
Proof.
  induction 1 as [|y l Hs IH Hy]; [done|]. intros Hl [->|Hx]%elem_of_cons.
  - destruct l as [|z l]; [injection Hl as ->; by left|]. right. rewrite Forall_forall in Hy.
    apply Hy. rewrite last_cons_cons in Hl. by eapply last_Some_elem_of.
  - destruct l as [|z l]; [by apply not_elem_of_nil in Hx|]. rewrite last_cons_cons in Hl. by apply IH.
Qed.

Lemma sorted_snoc l c :
  StronglySorted change_before l → (∀ x, x ∈ l → change_before x c) →
  StronglySorted change_before (l ++ [c]).
Proof.
  induction 1 as [|y l Hs IH Hy]; intros Hc; simpl; [by repeat constructor|].
  constructor; [apply IH; intros x Hx; apply Hc; by right|].
  apply Forall_app. split; [done|]. repeat constructor. apply Hc. by left.
Qed.

(** Inserting before a greater change keeps the order. *)
Lemma insert_change_spec c l :
  StronglySorted change_before l → sc_key c ∉ sc_key <$> l → (∃ x, x ∈ l ∧ change_before c x) →
  StronglySorted change_before (insert_change c l) ∧ insert_change c l ≡ₚ c :: l.
Proof.
  induction 1 as [|y l Hs IH Hy]; intros Hk (x & Hx & Hcx); [by apply not_elem_of_nil in Hx|].
  simpl. destruct (change_lt c y) eqn:Hcy.
  - split; [|done]. constructor; [by constructor|]. constructor; [done|].
    eapply Forall_impl; [exact Hy|]. intros z. by apply change_before_trans.
  - csimpl in Hk. apply not_elem_of_cons in Hk as [Hky Hk].
    apply elem_of_cons in Hx as [->|Hx]; [by unfold change_before in Hcx; rewrite Hcy in Hcx|].
    destruct IH as [Hsi Hp]; [done|by exists x|]. split.
    + constructor; [done|]. rewrite Hp. constructor; [|done].
      destruct (change_before_total c y Hky) as [Hc|Hc]; [|done].
      unfold change_before in Hc. by rewrite Hcy in Hc.
    + by rewrite Hp, Permutation_swap.
Qed.

(** ** Operations *)

(** What the stores tell a [Score]. *)
Inductive event :=
  | CreateSubmission (key : string) (submission : Submission)
  | UpdateSubmission (key : string) (submission : Submission)
  | DeleteSubmission (key : string)
  | CreateSubchange (key : string) (subchange : Subchange)
  | UpdateSubchange (key : string) (subchange : Subchange)
  | DeleteSubchange (key : string).

Definition perform (e : event) : M Score unit :=
  match e with
  | CreateSubmission key submission => create_submission key submission
  | UpdateSubmission key submission => update_submission key submission
  | DeleteSubmission key => delete_submission key
  | CreateSubchange key subchange => create_subchange key subchange
  | UpdateSubchange key subchange => update_subchange key subchange
  | DeleteSubchange key => delete_subchange key
  end.

(** A new entity has a new key; an update is of a known entity and keeps the
    time of a change; a change is regular, has its key as an attribute and is
    about a known submission. *)
Definition allowed (st : Score) (e : event) : Prop :=
  match e with
  | CreateSubmission key _ => key ∉ pd_keys (_submissions st)
  | UpdateSubmission key _ => key ∈ pd_keys (_submissions st)
  | DeleteSubmission _ | DeleteSubchange _ => True
  | CreateSubchange key c =>
      sc_key c = key ∧ (key ∉ sc_key <$> _changes st) ∧ known_change st c
  | UpdateSubchange key c =>
      sc_key c = key ∧ known_change st c ∧
      Exists (λ old, sc_key old = key ∧ sc_time old = sc_time c) (_changes st)
  end.

#[export] Instance known_change_dec st c : Decision (known_change st c).
Proof. unfold known_change. apply _. Defined.

#[export] Instance allowed_dec st e : Decision (allowed st e).
Proof. destruct e; cbn; apply _. Defined.

Record score_inv (st : Score) : Prop := {
  inv_good : good st;
  inv_known : Forall (known_change st) (_changes st);
  inv_sorted : StronglySorted change_before (_changes st);
  inv_keys : NoDup (sc_key <$> _changes st);
  inv_replay : reset_history st = (Ok tt, st);
}.

Lemma reset_inv st :
  NoDup (pd_keys (_submissions st)) →
  _score_mode st ∈ [SCORE_MODE_MAX; SCORE_MODE_MAX_SUBTASK; SCORE_MODE_MAX_TOKENED_LAST] →
  Forall (known_change st) (_changes st) → StronglySorted change_before (_changes st) →
  NoDup (sc_key <$> _changes st) →
  ∃ st', reset_history st = (Ok tt, st') ∧ score_inv st' ∧ skeleton st' = skeleton st.
Proof.
  intros Hn Hm Hk Hs Hd. pose proof (skeleton_of_cleared st) as Hsc.
  destruct (replay_ok (_changes st) (cleared st)) as (st' & Hr & Hg & Hsk).
  - by apply good_cleared.
  - eapply Forall_impl; [exact Hk|]. intros c. by apply known_skeleton.
  - rewrite Hsc in Hsk. exists st'. split_and!; [done| |done].
    pose proof Hsk as Hsk'. injection Hsk' as _ Hch _. split.
    + done.
    + rewrite Hch. eapply Forall_impl; [exact Hk|]. intros c. by apply known_skeleton.
    + by rewrite Hch.
    + by rewrite Hch.
    + rewrite reset_run, Hch. by rewrite (skeleton_cleared _ _ Hsk).
Qed.

(** A state that only adds untouched submissions to one whose history is the
    replay of its changes has the same property. *)
Lemma replay_extended st st1 :
  score_inv st → sim st st1 →
  ∃ st2, for_each append_change (_changes st) (cleared st1) = (Ok tt, st2) ∧ sim st st2 ∧
    skeleton st2 = skeleton st1.
Proof.
  intros Hi Hs. pose proof (inv_good _ Hi) as Hg. pose proof Hs as (Hn & (ds & Hp & Hd) & _ & _ & _ & Hm).
  assert (good (cleared st)) as Hgc by (apply good_cleared; apply Hg).
  assert (sim (cleared st) (cleared st1)) as Hsc.
  { unfold sim. cbn. split_and!; try done.
    - change (NoDup (pd_keys (_submissions (cleared st1)))).
      by rewrite (skeleton_keys _ _ (skeleton_of_cleared st1)).
    - exists (prod_map id default_sub <$> ds). rewrite Hp, fmap_app. split; [done|].
      apply Forall_fmap, Forall_forall. by intros [? ?] _. }
  assert (Forall (known_change (cleared st)) (_changes st)) as Hk.
  { eapply Forall_impl; [apply Hi|]. intros c. apply known_skeleton, skeleton_of_cleared. }
  destruct (replay_sim _ _ _ st Hgc Hk Hsc) as (st2 & Hr & Hs2); [apply Hi|].
  exists st2. split_and!; [done..|].
  destruct (replay_ok (_changes st) (cleared st1)) as (st2' & Hr' & _ & Hsk).
  - by eapply sim_good.
  - eapply Forall_impl; [exact Hk|]. intros c. by apply known_sim.
  - rewrite Hr in Hr'. injection Hr' as <-. by rewrite Hsk, skeleton_of_cleared.
Qed.

Lemma for_each_app {S A} (f : A → M S unit) l1 l2 s s' :
  for_each f l1 s = (Ok tt, s') → for_each f (l1 ++ l2) s = for_each f l2 s'.
Proof.
  revert s. induction l1 as [|x l1 IH]; intros s Hr; [by injection Hr as ->|].
  cbn [app for_each] in *. apply M_bind_Ok in Hr as ([] & s1 & H1 & H2).
  rewrite (M_run_Ok _ _ _ _ _ H1). by apply IH.
Qed.

Lemma sim_set_changes st l : NoDup (pd_keys (_submissions st)) → sim st (set_changes l st).
Proof. intros Hn. unfold sim. cbn. split_and!; try done. exists []. by rewrite app_nil_r. Qed.

(** A change that goes after all the others is appended. *)
Lemma create_subchange_last st c :
  score_inv st → known_change st c → sc_key c ∉ sc_key <$> _changes st →
  (∀ x, x ∈ _changes st → change_before x c) →
  ∃ st', append_change c (set_changes (_changes st ++ [c]) st) = (Ok tt, st') ∧ score_inv st' ∧
    skeleton st' = skeleton (set_changes (_changes st ++ [c]) st).
Proof.
  intros Hi Hk Hc Hlast. pose proof (inv_good _ Hi) as Hg.
  set (st1 := set_changes (_changes st ++ [c]) st).
  assert (sim st st1) as Hs by apply sim_set_changes, Hg.
  destruct (append_skeleton c st1 (sim_good _ _ Hg Hs) (known_sim _ _ _ Hs Hk)) as (st' & Hr & Hg' & Hsk).
  exists st'. split_and!; [done| |done]. pose proof Hsk as Hsk'. injection Hsk' as _ Hch _.
  cbn in Hch. split; rewrite ?Hch.
  - done.
  - assert (∀ x, known_change st x → known_change st' x) as Hx.
    { intros x Hx. eapply known_skeleton; [exact Hsk|]. by eapply known_sim. }
    apply Forall_app. split; [|by repeat constructor; apply Hx].
    eapply Forall_impl; [apply Hi|]. exact Hx.
  - apply sorted_snoc; [apply Hi|done].
  - rewrite fmap_app, (comm (++)). cbn. constructor; [done|apply Hi].
  - rewrite reset_run, Hch. rewrite (skeleton_cleared _ _ Hsk).
    destruct (replay_extended st st1 Hi Hs) as (st2 & Hr2 & Hs2 & Hsk2).
    rewrite (for_each_app _ _ _ _ _ Hr2). cbn [for_each].
    rewrite (sim_unique st st2 st1) by (done || apply Hg).
    by rewrite (M_run_Ok _ _ _ _ _ Hr).
Qed.

Lemma create_submission_inv st key submission :
  score_inv st → key ∉ pd_keys (_submissions st) →
  ∃ st', create_submission key submission st = (Ok tt, st') ∧ score_inv st' ∧
    skeleton st' = skeleton (set_submissions (pd_set (_submissions st) key (default_sub submission)) st).
Proof.
  intros Hi Hk. pose proof (inv_good _ Hi) as Hg. eexists. split_and!; [done| |done].
  set (st1 := set_submissions _ st).
  assert (pd_set (_submissions st) key (default_sub submission)
          = _submissions st ++ [(key, default_sub submission)]) as Hset by by apply pd_set_fresh.
  assert (sim st st1) as Hs.
  { unfold sim, st1. cbn. split_and!; try done; [by apply pd_keys_set_NoDup, Hg|].
    eexists. rewrite Hset. split; [done|]. by repeat constructor. }
  destruct (replay_extended st st1 Hi Hs) as (st2 & Hr2 & Hs2 & Hsk2). split.
  - by eapply sim_good.
  - eapply Forall_impl; [apply Hi|]. intros c. by apply known_sim.
  - apply Hi.
  - apply Hi.
  - rewrite reset_run. change (_changes st1) with (_changes st). rewrite Hr2.
    by rewrite (sim_unique st st2 st1) by (done || apply Hg).
Qed.

(** The list of changes after [create_subchange]. *)
Definition with_change (c : Subchange) (l : list Subchange) : list Subchange :=
  if (match last l with None => true | Some c0 => change_lt c0 c end)
  then l ++ [c] else insert_change c l.

Lemma with_change_perm c l :
  StronglySorted change_before l → sc_key c ∉ sc_key <$> l → with_change c l ≡ₚ c :: l.
Proof.
  intros Hs Hc. unfold with_change. destruct (last l) as [y|] eqn:Hl.
  - destruct (change_lt y c) eqn:Hy; [by rewrite (comm (++))|].
    apply last_Some_elem_of in Hl. apply insert_change_spec; [done..|]. exists y. split; [done|].
    destruct (change_before_total c y) as [?|Hb]; [|done|by unfold change_before in Hb; rewrite Hy in Hb].
    intros Heq. apply Hc. rewrite Heq. by apply list_elem_of_fmap_2.
  - apply last_None in Hl as ->. done.
Qed.

Lemma create_subchange_inv st c :
  score_inv st → known_change st c → sc_key c ∉ sc_key <$> _changes st →
  ∃ st', create_subchange (sc_key c) c st = (Ok tt, st') ∧ score_inv st' ∧
    skeleton st' = skeleton (set_changes (with_change c (_changes st)) st).
Proof.
  intros Hi Hk Hc. pose proof (inv_sorted _ Hi) as Hs. unfold create_subchange, with_change.
  rewrite (M_run_Ok _ _ _ st st) by done.
  destruct (match last (_changes st) with Some c0 => change_lt c0 c | None => true end) eqn:Hl.
  - rewrite (M_run_Ok _ _ _ tt (set_changes (_changes st ++ [c]) st)) by done.
    apply create_subchange_last; try done. intros x Hx. destruct (last (_changes st)) as [y|] eqn:Hy.
    + destruct (sorted_last _ _ _ Hs Hy Hx) as [->|Hxy]; [done|]. by eapply change_before_trans.
    + apply last_None in Hy. rewrite Hy in Hx. by apply not_elem_of_nil in Hx.
  - destruct (last (_changes st)) as [y|] eqn:Hy; [|done].
    assert (y ∈ _changes st) as Hyin by by apply last_Some_elem_of.
    assert (change_before c y) as Hcy.
    { destruct (change_before_total c y) as [?|Hb]; [|done|by unfold change_before in Hb; rewrite Hl in Hb].
      intros Heq. apply Hc. rewrite Heq. by apply list_elem_of_fmap_2. }
    destruct (insert_change_spec c (_changes st) Hs Hc) as [Hs' Hp]; [by exists y|].
    set (st1 := set_changes (insert_change c (_changes st)) st).
    destruct (reset_inv st1) as (st' & Hr & Hi' & Hsk); cbn.
    + apply Hi.
    + apply Hi.
    + rewrite Hp. constructor; [done|]. apply Hi.
    + done.
    + rewrite Hp. constructor; [done|apply Hi].
    + exists st'. split_and!; [|done..].
      rewrite (M_run_Ok _ _ _ tt st1) by done. rewrite (M_run_Ok _ _ _ _ _ Hr).
      unfold submission_at. run_goal.
      assert (sc_submission c ∈ pd_keys (_submissions st')) as [s ->]%pd_get_in; [|done].
      rewrite (skeleton_keys _ _ Hsk). apply Hk.
Qed.

(** Rewriting a change in place keeps the order when its time and its key are
    the same. *)
Lemma replace_sorted c old l :
  StronglySorted change_before l → NoDup (sc_key <$> l) → old ∈ l →
  sc_key old = sc_key c → sc_time old = sc_time c →
  let l' := (λ x, if decide (sc_key x = sc_key c) then c else x) <$> l in
  StronglySorted change_before l' ∧ sc_key <$> l' = sc_key <$> l ∧
  (∀ x, x ∈ l' → x = c ∨ x ∈ l).
Proof.
  intros Hs Hn Hold Hk Ht l'.
  set (f := λ x, if decide (sc_key x = sc_key c) then c else x).
  assert (∀ x, x ∈ l → sc_key (f x) = sc_key x ∧ sc_time (f x) = sc_time x) as Hf.
  { intros x Hx. unfold f. case_decide as Hkx; [|done]. split; [done|].
    apply list_elem_of_lookup in Hx as [i Hi], Hold as [j Hj]. rewrite <- Ht.
    assert (i = j) as ->; [|by simplify_eq].
    eapply NoDup_lookup; [exact Hn|rewrite list_lookup_fmap, Hi; done|].
    rewrite list_lookup_fmap, Hj. cbn. congruence. }
  clear Hn Hold. unfold l'. clear l'. fold f. split_and!.
  - induction Hs as [|x l Hs IH Hx]; csimpl; [constructor|]. constructor.
    + apply IH. intros y Hy. apply Hf. by right.
    + apply Forall_fmap, Forall_forall. intros y Hy. rewrite Forall_forall in Hx.
      specialize (Hx y Hy). change (change_before (f x) (f y)). rewrite change_before_spec in *.
      destruct (Hf x (list_elem_of_here _ _)) as [E1 E2].
      destruct (Hf y (list_elem_of_further _ _ _ Hy)) as [E3 E4]. by rewrite E1, E2, E3, E4.
  - rewrite <- list_fmap_compose. apply list_fmap_ext. intros i x Hi. cbn. apply Hf.
    by eapply list_elem_of_lookup_2.
  - intros x (y & -> & Hy)%list_elem_of_fmap. unfold f. case_decide; [by left|by right].
Qed.

Lemma update_subchange_inv st c old :
  score_inv st → known_change st c → old ∈ _changes st →
  sc_key old = sc_key c → sc_time old = sc_time c →
  ∃ st', update_subchange (sc_key c) c st = (Ok tt, st') ∧ score_inv st' ∧
    skeleton st' = skeleton (set_changes
      ((λ x, if decide (sc_key x = sc_key c) then c else x) <$> _changes st) st).
Proof.
  intros Hi Hk Hold Hkey Ht. unfold update_subchange.
  destruct (replace_sorted c old _ (inv_sorted _ Hi) (inv_keys _ Hi) Hold Hkey Ht) as (Hs & Hks & Hin).
  destruct (reset_inv (set_changes
    ((λ x, if decide (sc_key x = sc_key c) then c else x) <$> _changes st) st)) as (st' & Hr & Hi' & Hsk).
  - apply Hi.
  - apply Hi.
  - apply Forall_forall. intros x [->|Hx]%Hin; [done|].
    pose proof (inv_known _ Hi) as Hall. rewrite Forall_forall in Hall. by apply Hall.
  - done.
  - cbn. rewrite Hks. apply Hi.
  - exists st'. split_and!; [|done..]. erewrite M_run_Ok; [|reflexivity].
    rewrite (M_run_Ok _ _ _ _ _ Hr). unfold submission_at. run_goal.
    assert (sc_submission c ∈ pd_keys (_submissions st')) as [s ->]%pd_get_in; [|done].
    rewrite (skeleton_keys _ _ Hsk). apply Hk.
Qed.

(** Dropping changes, then resetting. *)
Lemma filtered_inv st st1 (P : Subchange → Prop) `{!∀ c, Decision (P c)} :
  score_inv st → NoDup (pd_keys (_submissions st1)) → _score_mode st1 = _score_mode st →
  _changes st1 = filter P (_changes st) →
  (∀ k c, c ∈ _changes st → P c → sc_submission c = k →
     k ∈ pd_keys (_submissions st) → k ∈ pd_keys (_submissions st1)) →
  ∃ st', reset_history st1 = (Ok tt, st') ∧ score_inv st' ∧ skeleton st' = skeleton st1.
Proof.
  intros Hi Hn Hm Hc Hk. destruct (reset_inv st1) as (st' & Hr & Hi' & Hsk).
  - done.
  - rewrite Hm. apply Hi.
  - rewrite Hc. apply Forall_forall. intros c [HP Hin]%list_elem_of_filter.
    pose proof (inv_known _ Hi) as Hall. rewrite Forall_forall in Hall.
    destruct (Hall c Hin) as [Hkey Hreg]. split; [by eapply Hk|done].
  - rewrite Hc. eapply StronglySorted_sublist; [apply sublist_filter|apply Hi].
  - rewrite Hc. eapply sublist_NoDup; [exact (inv_keys _ Hi)|]. apply fmap_sublist, sublist_filter.
  - by exists st'.
Qed.

(** The entities after an operation, before anything is computed from them. *)
Definition updated (e : event) (st : Score) : Score :=
  match e with
  | CreateSubmission key s => set_submissions (pd_set (_submissions st) key (default_sub s)) st
  | UpdateSubmission key s => set_submissions (pd_set (_submissions st) key s) st
  | DeleteSubmission key =>
      if pd_mem (_submissions st) key then
        set_changes (filter (λ c, sc_submission c ≠ key) (_changes st))
          (set_submissions (pd_del (_submissions st) key) st)
      else st
  | CreateSubchange key c => set_changes (with_change c (_changes st)) st
  | UpdateSubchange key c =>
      set_changes ((λ x, if decide (sc_key x = key) then c else x) <$> _changes st) st
  | DeleteSubchange key => set_changes (filter (λ c, sc_key c ≠ key) (_changes st)) st
  end.

(** No operation raises, and every one keeps the invariant. *)
Lemma perform_inv e st :
  score_inv st → allowed st e →
  ∃ st', perform e st = (Ok tt, st') ∧ score_inv st' ∧ skeleton st' = skeleton (updated e st).
Proof.
  intros Hi Ha. destruct e as [key s|key s|key|key c|key c|key]; cbn in *.
  - by apply create_submission_inv.
  - unfold update_submission. erewrite M_run_Ok; [|reflexivity]. apply reset_inv.
    + apply pd_keys_set_NoDup, Hi.
    + apply Hi.
    + eapply Forall_impl; [apply Hi|]. intros c [Hk Hc]. split; [|done]. cbn.
      apply pd_keys_set_elem. by right.
    + apply Hi.
    + apply Hi.
  - unfold delete_submission. rewrite (M_run_Ok _ _ _ st st) by done.
    unfold pd_mem. case_bool_decide; [|by exists st].
    do 2 (erewrite M_run_Ok; [|reflexivity]).
    apply (filtered_inv st _ (λ c, sc_submission c ≠ key)); try done.
    + apply pd_keys_del_NoDup, Hi.
    + intros k c _ Hne Hk Hin. apply pd_get_in in Hin. apply pd_get_in.
      change (is_Some (pd_get (pd_del (_submissions st) key) k)). rewrite pd_get_del.
      case_decide; [congruence|done].
  - destruct Ha as (<- & Hc & Hk). by apply create_subchange_inv.
  - destruct Ha as (<- & Hk & (old & Hold & Hkey & Ht)%Exists_exists). by eapply update_subchange_inv.
  - unfold delete_subchange. erewrite M_run_Ok; [|reflexivity].
    apply (filtered_inv st _ (λ c, sc_key c ≠ key)); try done. apply Hi.
Qed.

(** ** The current score and the history *)

Lemma spec_score_nonneg st : good st → nonneg (spec_score st) = true.
Proof.
  intros Hg. pose proof (good_regular _ Hg) as Hr. unfold spec_score.
  destruct (decide _); [|destruct (decide _)].
  - by apply fmaxs_nonneg, regular_scores.
  - apply foldl_fadd_nonneg; [done|]. apply Forall_fmap, Forall_forall. intros i _.
    by apply fmaxs_nonneg, column_nonneg.
  - apply fmax_nonneg; [by apply fmaxs_nonneg, regular_tokened|]. unfold last_score.
    destruct (_last st) as [k|]; [|done]. cbn. destruct (pd_get _ k) as [s|] eqn:Hs; [|done].
    by apply (values_regular _ _ _ Hg), andb_true_iff in Hs as [? _].
Qed.

Definition history_nonneg (st : Score) : Prop := Forall (λ h : Z * float, nonneg h.2 = true) (_history st).

Lemma get_score_nonneg st : history_nonneg st → nonneg (get_score st) = true.
Proof.
  intros Hh. unfold get_score. destruct (last (_history st)) as [[t x]|] eqn:Hl; [|done].
  apply last_Some_elem_of in Hl. unfold history_nonneg in Hh. rewrite Forall_forall in Hh.
  exact (Hh _ Hl).
Qed.

Lemma extend_history_spec t sc st :
  history_nonneg st → nonneg sc = true →
  history_nonneg (extend_history t sc st) ∧ get_score (extend_history t sc st) = sc ∧
  ∃ l, (_history (extend_history t sc st)).*1 = (_history st).*1 ++ l ∧ l `sublist_of` [t].
Proof.
  intros Hh Hsc. unfold extend_history. destruct (feqb sc (get_score st)) eqn:He.
  - apply feqb_nonneg in He; [|done|by apply get_score_nonneg]. split_and!; [done..|].
    exists []. by rewrite app_nil_r; split; [|apply sublist_nil_l].
  - split_and!.
    + apply Forall_app. split; [done|by repeat constructor].
    + unfold get_score. cbn. by rewrite last_snoc.
    + exists [t]. cbn. by rewrite fmap_app.
Qed.

(** After a replay the current score is that of the state, and the times of
    the history are those of some of the changes. *)
Lemma replay_history cs st st' :
  good st → Forall (known_change st) cs → history_nonneg st → get_score st = spec_score st →
  for_each append_change cs st = (Ok tt, st') →
  history_nonneg st' ∧ get_score st' = spec_score st' ∧
  ∃ l, (_history st').*1 = (_history st).*1 ++ l ∧ l `sublist_of` (sc_time <$> cs).
Proof.
  revert st. induction cs as [|c cs IH]; intros st Hg Hk Hh He Hr.
  - injection Hr as <-. split_and!; [done..|]. exists []. by rewrite app_nil_r.
  - apply Forall_cons in Hk as [Hc Hk].
    destruct (append_ok c st Hg Hc) as (sub & r & _ & _ & Hg1 & Hrun).
    destruct (append_skeleton c st Hg Hc) as (st1 & Hr1 & Hgs & Hsk). rewrite Hrun in Hr1.
    injection Hr1 as Hst1. cbn [for_each] in Hr. rewrite (M_run_Ok _ _ _ _ _ Hrun), Hst1 in Hr.
    destruct (extend_history_spec (sc_time c) (spec_score (changed c sub r st)) (changed c sub r st))
      as (Hh1 & He1 & l1 & Hl1 & Hs1); [done|by apply spec_score_nonneg|].
    rewrite Hst1 in *.
    assert (spec_score st1 = spec_score (changed c sub r st)) as Hsp.
    { rewrite <- Hst1. unfold extend_history. by case_match. }
    destruct (IH st1) as (Hh' & He' & l & Hl & Hs); try done.
    + eapply Forall_impl; [exact Hk|]. intros x. by apply known_skeleton.
    + by rewrite He1, Hsp.
    + split_and!; [done..|]. exists (l1 ++ l). rewrite Hl, Hl1, <- app_assoc. split; [done|].
      change (sc_time <$> c :: cs) with ([sc_time c] ++ (sc_time <$> cs)). by apply sublist_app.
Qed.

Lemma foldl_fadd_zeros l : Forall (λ x, x = f0) l → foldl fadd f0 l = f0.
Proof. induction 1 as [|x l -> _ IH]; [done|]. exact IH. Qed.

Lemma spec_score_cleared st : spec_score (cleared st) = f0.
Proof.
  assert (Forall (λ s, regular s = true ∧ score s = f0 ∧ row s = [f0] ∧ token s = false)
            (pd_values (_submissions (cleared st)))) as Hd.
  { apply Forall_forall. intros s ((k & x) & -> & Hin)%list_elem_of_fmap.
    apply list_elem_of_fmap in Hin as ([k' s'] & [= -> ->] & _). by apply default_row. }
  unfold spec_score. destruct (decide _); [|destruct (decide _)].
  - apply (fmaxs_zeros []); [constructor|]. apply Forall_fmap.
    eapply Forall_impl; [exact Hd|]. by intros ? (?&?&?&?).
  - apply foldl_fadd_zeros, Forall_fmap, Forall_forall. intros i _. apply (fmaxs_zeros []); [constructor|].
    apply Forall_fmap, Forall_fmap. eapply Forall_impl; [exact Hd|]. intros s (_ & _ & Hrow & _).
    cbn. rewrite Hrow. by destruct i.
  - rewrite <- (app_nil_l (pd_values _)), tokened_app; [done|].
    eapply Forall_impl; [exact Hd|]. by intros ? (?&?&?&?).
Qed.

Lemma inv_history st :
  score_inv st → get_score st = spec_score st ∧ (_history st).*1 `sublist_of` (sc_time <$> _changes st).
Proof.
  intros Hi. destruct (replay_history (_changes st) (cleared st) st) as (_ & He & l & Hl & Hs).
  - apply good_cleared; apply Hi.
  - eapply Forall_impl; [apply Hi|]. intros c. apply known_skeleton, skeleton_of_cleared.
  - constructor.
  - by rewrite spec_score_cleared.
  - apply Hi.
  - split; [done|]. by rewrite Hl.
Qed.

(** The score of submission [k] after some changes, from [x]. *)
Definition score_after (k : string) (x : float) (cs : list Subchange) : float :=
  foldl (λ x c, if decide (sc_submission c = k) then default x (sc_score c) else x) x cs.

Lemma replay_scores cs st st' k s :
  good st → Forall (known_change st) cs → for_each append_change cs st = (Ok tt, st') →
  pd_get (_submissions st) k = Some s →
  ∃ s', pd_get (_submissions st') k = Some s' ∧ score s' = score_after k (score s) cs.
Proof.
  revert st s. induction cs as [|c cs IH]; intros st s Hg Hk Hr Hs.
  - injection Hr as <-. by exists s.
  - apply Forall_cons in Hk as [Hc Hk].
    destruct (append_ok c st Hg Hc) as (sub & r & Hsub & _ & Hg1 & Hrun).
    destruct (append_skeleton c st Hg Hc) as (st1 & Hr1 & Hgs & Hsk). rewrite Hrun in Hr1.
    injection Hr1 as Hst1. cbn [for_each] in Hr. rewrite (M_run_Ok _ _ _ _ _ Hrun), Hst1 in Hr.
    assert (Forall (known_change st1) cs) as Hk1.
    { eapply Forall_impl; [exact Hk|]. intros x. by apply known_skeleton. }
    assert (pd_get (_submissions st1) k =
      Some (if decide (sc_submission c = k) then apply_change c s else s)) as H1.
    { rewrite <- Hst1. unfold extend_history. case_match; cbn; rewrite pd_get_set; case_decide; try done; subst k;
        rewrite Hsub in Hs; by injection Hs as ->. }
    destruct (IH st1 _ Hgs Hk1 Hr H1) as (s' & Hs' & Hsc). exists s'. split; [done|].
    rewrite Hsc. unfold score_after. cbn [foldl]. f_equal. by case_decide.
Qed.

(** The score of a submission is that of its last change with one. *)
Lemma inv_submission_score st k s :
  score_inv st → pd_get (_submissions st) k = Some s → score s = score_after k f0 (_changes st).
Proof.
  intros Hi Hs. assert (pd_get (_submissions (cleared st)) k = Some (default_sub s)) as Hc.
  { cbn. by rewrite pd_get_fmap, Hs. }
  destruct (replay_scores (_changes st) (cleared st) st k (default_sub s)) as (s' & Hs' & Hsc); try done.
  - apply good_cleared; apply Hi.
  - eapply Forall_impl; [apply Hi|]. intros c. apply known_skeleton, skeleton_of_cleared.
  - apply Hi.
  - rewrite Hs in Hs'. by injection Hs' as <-.
Qed.

Lemma score_after_cons k x c cs :
  score_after k x (c :: cs) = score_after k (if decide (sc_submission c = k) then default x (sc_score c) else x) cs.
Proof. done. Qed.

Lemma score_after_in k x cs :
  score_after k x cs = x ∨ ∃ c, c ∈ cs ∧ sc_submission c = k ∧ sc_score c = Some (score_after k x cs).
Proof.
  revert x. induction cs as [|c cs IH]; intros x; [by left|]. rewrite score_after_cons.
  destruct (IH (if decide (sc_submission c = k) then default x (sc_score c) else x)) as [->|(c' & Hc' & H)].
  - case_decide as Hk; [|by left]. destruct (sc_score c) eqn:Hs; [|by left]. right. exists c. by split; [left|].
  - right. exists c'. by split; [right|].
Qed.

(** All the changes of a submission that give a score give the same. *)
Lemma score_after_unique k x cs c v :
  c ∈ cs → sc_submission c = k → sc_score c = Some v →
  (∀ c', c' ∈ cs → sc_submission c' = k → default v (sc_score c') = v) → score_after k x cs = v.
Proof.
  intros Hc Hk Hv Hu. assert (∀ cs x, (∀ c', c' ∈ cs → sc_submission c' = k → default v (sc_score c') = v) →
    (x = v ∨ c ∈ cs) → score_after k x cs = v) as H; [|by apply H; [|right]].
  clear x Hc Hu. intros l. induction l as [|d l IH]; intros x Hu Hx.
  { by destruct Hx as [->|?%elem_of_nil]. }
  rewrite score_after_cons. apply IH; [intros ??; apply Hu; by right|].
  destruct Hx as [->|[->|Hx]%elem_of_cons]; [left|left|by right].
  - case_decide as Hd; [|done]. apply Hu; [by left|done].
  - by rewrite decide_True, Hv.
Qed.

Lemma inv_times st : score_inv st → StronglySorted Z.le (_history st).*1.
Proof.
  intros Hi. eapply StronglySorted_sublist; [by apply inv_history|].
  eapply StronglySorted_fmap; [|by apply Hi]. intros a b. rewrite change_before_spec. lia.
Qed.

Lemma init_inv mode :
  mode ∈ [SCORE_MODE_MAX; SCORE_MODE_MAX_SUBTASK; SCORE_MODE_MAX_TOKENED_LAST] →
  score_inv (score_init mode).
Proof.
  intros Hm. split; [split|..]; cbn; try done; repeat constructor; done.
Qed.

(** One operation that the stores can ask for. *)
Inductive score_step (st st' : Score) : Prop :=
  | score_step_intro e : allowed st e → perform e st = (Ok tt, st') → score_step st st'.

Lemma score_step_inv st st' : score_inv st → score_step st st' → score_inv st'.
Proof.
  intros Hi [e Ha Hr]. destruct (perform_inv e st Hi Ha) as (st2 & Hr2 & Hi2 & _).
  rewrite Hr in Hr2. by injection Hr2 as <-.
Qed.

Lemma score_reachable_inv mode st :
  mode ∈ [SCORE_MODE_MAX; SCORE_MODE_MAX_SUBTASK; SCORE_MODE_MAX_TOKENED_LAST] →
  rtc score_step (score_init mode) st → score_inv st.
Proof.
  intros Hm Hr. assert (∀ a, rtc score_step a st → score_inv a → score_inv st) as H.
  { induction 1; eauto using score_step_inv. }
  by apply (H _ Hr), init_inv.
Qed.

(** ** What a Score promises *)

(** C31. In every state reached from an empty [Score] by operations of the
    stores, no allowed operation raises; [reset_history], which computes
    everything again from the list of changes, changes nothing, so that the
    history kept step by step is the one computed from scratch; the current
    score is the score of the current submissions for the score mode; and the
    times of the history do not decrease. *)
Theorem history_is_replay (mode : string) (st : Score) :
  mode ∈ [SCORE_MODE_MAX; SCORE_MODE_MAX_SUBTASK; SCORE_MODE_MAX_TOKENED_LAST] →
  rtc score_step (score_init mode) st →
  (∀ e, allowed st e → ∃ st', perform e st = (Ok tt, st')) ∧
  reset_history st = (Ok tt, st) ∧
  get_score st = spec_score st ∧
  StronglySorted Z.le (_history st).*1.
Proof.
  intros Hm Hr%score_reachable_inv; [|done]. split_and!.
  - intros e Ha. destruct (perform_inv e st Hr Ha) as (st' & ? & _ & _). by exists st'.
  - apply Hr.
  - by apply inv_history.
  - by apply inv_times.
Qed.

Lemma sorted_changes_unique l1 l2 :
  StronglySorted change_before l1 → StronglySorted change_before l2 → l1 ≡ₚ l2 → l1 = l2.
Proof.
  apply StronglySorted_unique_strong. intros a b _ _ Hab Hba.
  by destruct (change_before_irrefl a (change_before_trans _ _ _ Hab Hba)).
Qed.

(** The history is a function of the entities. *)
Lemma history_unique st1 st2 :
  score_inv st1 → score_inv st2 → _score_mode st1 = _score_mode st2 →
  prod_map id default_sub <$> _submissions st1 ≡ₚ prod_map id default_sub <$> _submissions st2 →
  _changes st1 ≡ₚ _changes st2 →
  _history st1 = _history st2.
Proof.
  intros Hr1 Hr2 Hmode Hp Hc.
  assert (_changes st1 = _changes st2) as Hch by (by apply sorted_changes_unique; [apply Hr1|apply Hr2|]).
  assert (good (cleared st1)) as Hg1 by (apply good_cleared; apply Hr1).
  assert (sim (cleared st1) (cleared st2)) as Hs.
  { assert (good (cleared st2)) as Hg2 by (apply good_cleared; apply Hr2).
    unfold sim. split_and!; try done; [apply Hg2|]. exists []. by rewrite app_nil_r. }
  destruct (replay_sim (_changes st1) (cleared st1) (cleared st2) st1) as (st2' & Hrun & Hsim).
  - done.
  - eapply Forall_impl; [apply Hr1|]. intros c. apply known_skeleton, skeleton_of_cleared.
  - done.
  - apply Hr1.
  - rewrite Hch in Hrun. pose proof (inv_replay _ Hr2) as Hrep. rewrite reset_run, Hrun in Hrep.
    injection Hrep as ->. symmetry. apply Hsim.
Qed.

(** C32. The history depends only on the entities: two [Score] objects with
    the same score mode that were told, in any order and through any
    sequence of creations, updates and deletions, the same submissions and
    the same changes have the same history. *)
Theorem history_order_irrelevant (mode : string) (st1 st2 : Score) :
  mode ∈ [SCORE_MODE_MAX; SCORE_MODE_MAX_SUBTASK; SCORE_MODE_MAX_TOKENED_LAST] →
  rtc score_step (score_init mode) st1 → rtc score_step (score_init mode) st2 →
  _score_mode st1 = _score_mode st2 →
  prod_map id default_sub <$> _submissions st1 ≡ₚ prod_map id default_sub <$> _submissions st2 →
  _changes st1 ≡ₚ _changes st2 →
  _history st1 = _history st2.
Proof.
  intros Hm Hr1%score_reachable_inv Hr2%score_reachable_inv; [|done..]. by apply history_unique.
Qed.

(** ** Witnesses *)

Definition demo_sc (k s : string) (t : Z) (x : Z) (tok : option bool) : Subchange :=
  mk_subchange k s t (Some (of_Z x)) tok None.

(** The entities of [demo_1] in one order and of [demo_2] in another, with an
    update and a deletion. *)
Definition demo_events_1 : list event :=
  [CreateSubmission "a" (demo_submission 10); CreateSubmission "b" (demo_submission 20);
   CreateSubchange "x" (demo_sc "x" "a" 10 50 (Some true));
   CreateSubchange "y" (demo_sc "y" "b" 20 30 None)].

Definition demo_events_2 : list event :=
  [CreateSubmission "b" (demo_submission 20); CreateSubmission "a" (demo_submission 10);
   CreateSubmission "c" (demo_submission 15);
   CreateSubchange "y" (demo_sc "y" "b" 20 70 None);
   CreateSubchange "z" (demo_sc "z" "c" 15 80 None);
   CreateSubchange "x" (demo_sc "x" "a" 10 50 (Some true));
   UpdateSubchange "y" (demo_sc "y" "b" 20 30 None); DeleteSubmission "c"].

(** Perform the events, as long as they are allowed. *)
Fixpoint run_events (l : list event) (st : Score) : option Score :=
  match l with
  | [] => Some st
  | e :: l =>
      if decide (allowed st e) then
        match perform e st with
        | (Ok _, st) => run_events l st
        | _ => None
        end
      else None
  end.

Lemma run_events_reachable l st st' : run_events l st = Some st' → rtc score_step st st'.
Proof.
  revert st. induction l as [|e l IH]; intros st; cbn [run_events]; [by intros [= ->]|].
  case_decide as Ha; [|done]. destruct (perform e st) as [[[]| | |] st1] eqn:Hp; try done.
  intros Hr. eapply rtc_l; [by eapply score_step_intro|]. by apply IH.
Qed.

Definition demo_1 : Score := default (score_init "") (run_events demo_events_1 (score_init SCORE_MODE_MAX_TOKENED_LAST)).
Definition demo_2 : Score := default (score_init "") (run_events demo_events_2 (score_init SCORE_MODE_MAX_TOKENED_LAST)).

Lemma demo_1_reachable : rtc score_step (score_init SCORE_MODE_MAX_TOKENED_LAST) demo_1.
Proof. apply (run_events_reachable demo_events_1). vm_compute. reflexivity. Qed.

Lemma demo_2_reachable : rtc score_step (score_init SCORE_MODE_MAX_TOKENED_LAST) demo_2.
Proof. apply (run_events_reachable demo_events_2). vm_compute. reflexivity. Qed.

Lemma tokened_last_known :
  SCORE_MODE_MAX_TOKENED_LAST ∈ [SCORE_MODE_MAX; SCORE_MODE_MAX_SUBTASK; SCORE_MODE_MAX_TOKENED_LAST].
Proof. right. right. left. Qed.

Lemma history_is_replay_witness :
  _history demo_2 = [(10, of_Z 50)]%Z ∧
  reset_history demo_2 = (Ok tt, demo_2) ∧ get_score demo_2 = spec_score demo_2.
Proof.
  split; [vm_compute; reflexivity|].
  destruct (history_is_replay _ demo_2 tokened_last_known demo_2_reachable) as (_ & H1 & H2 & _).
  exact (conj H1 H2).
Defined.

Lemma history_order_irrelevant_witness :
  _submissions demo_1 ≠ _submissions demo_2 ∧ _history demo_1 = _history demo_2.
Proof.
  split; [vm_compute; discriminate|].
  apply (history_order_irrelevant _ _ _ tokened_last_known demo_1_reachable demo_2_reachable).
  - vm_compute. reflexivity.
  - vm_compute. apply perm_swap.
  - vm_compute. reflexivity.
Defined.

(** A new score mode does not compute the history again: the score stays that
    of the previous mode until the next reset. *)
Example stale_score_mode :
  let st := default (score_init "") (run_events
    [CreateSubmission "a" (demo_submission 10); CreateSubmission "b" (demo_submission 20);
     CreateSubchange "x" (demo_sc "x" "a" 10 80 None);
     CreateSubchange "y" (demo_sc "y" "b" 20 30 None)] (score_init SCORE_MODE_MAX)) in
  let st := (update_score_mode SCORE_MODE_MAX_TOKENED_LAST st).2 in
  get_score st = of_Z 80 ∧ get_score (reset_history st).2 = of_Z 30.
Proof. vm_compute. done. Qed.

(** An update that changes the time of a change leaves the list of changes,
    and then the times of the history, out of order. *)
Example update_breaks_order :
  let st := (update_subchange "x" (demo_sc "x" "a" 90 50 (Some true)) demo_1).2 in
  _history st = [(90, of_Z 50)]%Z ∧
  (create_subchange "w" (demo_sc "w" "b" 30 60 (Some true)) st).1 = Ok tt ∧
  (_history (create_subchange "w" (demo_sc "w" "b" 30 60 (Some true)) st).2).*1 = [90; 30]%Z.
Proof. vm_compute. done. Qed.
