(* ===== verification/ScoringStore.v ===== *)
(** * The ranking web server's stores and scores

    The stores of submissions and of changes (class Store, cmsranking/Store.py)
    call the methods of [ScoringStore] (cmsranking/Scoring.py) as callbacks
    when an entity is created, updated or deleted. The object of a submission
    that both share is written by the [Score] only in the fields the stores do
    not read, so that each side holds its own copy here. The files in which a
    store keeps its entities, and the HTTP handlers in front of it, are left
    out; entities arrive parsed. *)

From S2P Require Import Prelude PyFloat Ranking.

Record World := mk_world {
  task_store : gmap string string;                 (* the score mode of each task *)
  user_store : gset string;
  submission_store : pydict string Submission;
  subchange_store : pydict string Subchange;
  _scores : pydict string (pydict string Score);
  _notified : list (string * string * float);      (* what the callbacks were told *)
}.

Definition set_submission_store (v : pydict string Submission) (w : World) : World :=
  mk_world (task_store w) (user_store w) v (subchange_store w) (_scores w) (_notified w).
Definition set_subchange_store (v : pydict string Subchange) (w : World) : World :=
  mk_world (task_store w) (user_store w) (submission_store w) v (_scores w) (_notified w).
Definition set_scores (v : pydict string (pydict string Score)) (w : World) : World :=
  mk_world (task_store w) (user_store w) (submission_store w) (subchange_store w) v (_notified w).
Definition set_notified (v : list (string * string * float)) (w : World) : World :=
  mk_world (task_store w) (user_store w) (submission_store w) (subchange_store w) (_scores w) v.

Definition InvalidKey : exn := UserError "InvalidKey".
Definition InvalidData : exn := UserError "InvalidData".

(** ** ScoringStore *)

(** [self._scores[user][task]] *)
Definition score_at (d : pydict string (pydict string Score)) (user task : string) : option Score :=
  pd_get d user ≫= λ m, pd_get m task.

(** [self._scores[user][task] = score] *)
Definition set_score_at (d : pydict string (pydict string Score)) (user task : string) (score : Score) :
    pydict string (pydict string Score) :=
  pd_set d user (pd_set (default [] (pd_get d user)) task score).

Definition score_obj (user task : string) : M World Score :=
  w ← get; lift (or_raise KeyError (score_at (_scores w) user task)).

Definition notify_callbacks (user task : string) (score : float) : M World unit :=
  modify (λ w, set_notified (_notified w ++ [(user, task, score)]) w).

(** [op] on the object [self._scores[user][task]], followed by a
    notification if the score is not the same. *)
Definition on_score (user task : string) (op : M Score unit) : M World unit :=
  s ← score_obj user task;
  let '(r, s') := op s in
  _ ← modify (λ w, set_scores (set_score_at (_scores w) user task s') w);
  _ ← lift r;
  if feqb (Ranking.get_score s) (Ranking.get_score s') then mret tt
  else notify_callbacks user task (Ranking.get_score s').

Definition on_create_submission (key : string) (submission : Submission) : M World unit :=
  let u := user submission in
  let t := task submission in
  w ← get;
  _ ← (if pd_mem (_scores w) u then mret tt
       else modify (λ w, set_scores (pd_set (_scores w) u []) w));
  w ← get;
  _ ← (if decide (is_Some (score_at (_scores w) u t)) then mret tt
       else
         mode ← lift (or_raise InvalidKey (task_store w !! t));
         modify (λ w, set_scores (set_score_at (_scores w) u t (score_init mode)) w));
  on_score u t (create_submission key submission).

Definition on_delete_submission (key : string) (submission : Submission) : M World unit :=
  let u := user submission in
  let t := task submission in
  _ ← on_score u t (delete_submission key);
  w ← get;
  s ← lift (or_raise KeyError (score_at (_scores w) u t));
  _ ← (if decide (_submissions s = []) then
         modify (λ w, set_scores (pd_set (_scores w) u (pd_del (default [] (pd_get (_scores w) u)) t)) w)
       else mret tt);
  w ← get;
  m ← lift (or_raise KeyError (pd_get (_scores w) u));
  if decide (m = []) then modify (λ w, set_scores (pd_del (_scores w) u) w) else mret tt.

Definition on_update_submission (key : string) (old_submission submission : Submission) : M World unit :=
  if decide (user old_submission ≠ user submission ∨ task old_submission ≠ task submission) then
    _ ← on_delete_submission key old_submission;
    on_create_submission key submission
  else
    w ← get;
    mode ← lift (or_raise InvalidKey (task_store w !! task submission));
    on_score (user submission) (task submission)
      (_ ← update_submission key submission; update_score_mode mode).

(** [self.submission_store._store[key]] *)
Definition stored_submission (key : string) : M World Submission :=
  w ← get; lift (or_raise KeyError (pd_get (submission_store w) key)).

Definition on_create_subchange (key : string) (subchange : Subchange) : M World unit :=
  submission ← stored_submission (sc_submission subchange);
  on_score (user submission) (task submission) (create_subchange key subchange).

Definition on_delete_subchange (key : string) (subchange : Subchange) : M World unit :=
  w ← get;
  if pd_mem (submission_store w) (sc_submission subchange) then
    submission ← stored_submission (sc_submission subchange);
    on_score (user submission) (task submission) (delete_subchange key)
  else mret tt.

Definition on_update_subchange (key : string) (old_subchange subchange : Subchange) : M World unit :=
  if decide (sc_submission old_subchange ≠ sc_submission subchange) then
    _ ← on_delete_subchange key old_subchange;
    on_create_subchange key subchange
  else
    submission ← stored_submission (sc_submission subchange);
    on_score (user submission) (task submission) (update_subchange key subchange).

(** [get_score] of ScoringStore *)
Definition current_score (w : World) (user task : string) : float :=
  match score_at (_scores w) user task with
  | Some s => Ranking.get_score s
  | None => f0
  end.

(** [sorted(d.items())], for a dictionary with different keys. *)
Definition sorted_items {V} (d : pydict string V) : list (string * V) :=
  merge_sort (λ a b, Is_true (String.leb a.1 b.1)) d.

Definition init_store : M World unit :=
  w ← get;
  _ ← for_each (λ kv, on_create_submission kv.1 kv.2) (submission_store w);
  for_each (λ kv, on_create_subchange kv.1 kv.2) (sorted_items (subchange_store w)).

(** ** Store *)

(** [Submission.consistent] and [Subchange.consistent] *)
Definition submission_consistent (w : World) (s : Submission) : bool :=
  bool_decide (is_Some (task_store w !! task s)) && bool_decide (user s ∈ user_store w).
Definition subchange_consistent (w : World) (c : Subchange) : bool :=
  pd_mem (submission_store w) (sc_submission c).

Section Store.
Context {E : Type} (store : World → pydict string E) (set_store : pydict string E → World → World).
(* [item.key = key] *)
Context (with_key : string → E → E) (consistent : World → E → bool).
Context (on_create : string → E → M World unit) (on_update : string → E → E → M World unit)
  (on_delete : string → E → M World unit).
(* [for depend in self._depends: ...] *)
Context (enforce : M World unit).

Definition store_create (key : string) (item : E) : M World unit :=
  w ← get;
  if pd_mem (store w) key then raise InvalidKey
  else if negb (consistent w item) then raise InvalidData
  else
    let item := with_key key item in
    _ ← modify (λ w, set_store (pd_set (store w) key item) w);
    on_create key item.

Definition store_update (key : string) (item : E) : M World unit :=
  w ← get;
  match pd_get (store w) key with
  | None => raise InvalidKey
  | Some old_item =>
      if negb (consistent w item) then raise InvalidData
      else
        let item := with_key key item in
        _ ← modify (λ w, set_store (pd_set (store w) key item) w);
        on_update key old_item item
  end.

(** The loop of [merge_list], once every entity has been checked. *)
Definition store_merge (key : string) (value : E) : M World unit :=
  let value := with_key key value in
  w ← get;
  _ ← modify (λ w, set_store (pd_set (store w) key value) w);
  match pd_get (store w) key with
  | None => on_create key value
  | Some old_value => on_update key old_value value
  end.

Definition store_merge_list (items : pydict string E) : M World unit :=
  w ← get;
  if forallb (λ kv, consistent w kv.2) items
  then for_each (λ kv, store_merge kv.1 kv.2) items
  else raise InvalidData.

Definition store_delete (key : string) : M World unit :=
  w ← get;
  match pd_get (store w) key with
  | None => raise InvalidKey
  | Some old_value =>
      _ ← modify (λ w, set_store (pd_del (store w) key) w);
      _ ← enforce;
      on_delete key old_value
  end.

Definition store_delete_list : M World unit :=
  w ← get; for_each store_delete (pd_keys (store w)).
End Store.

Definition with_sc_key (key : string) (c : Subchange) : Subchange :=
  mk_subchange key (sc_submission c) (sc_time c) (sc_score c) (sc_token c) (sc_extra c).

Module Subchanges.
Definition create := store_create subchange_store set_subchange_store with_sc_key subchange_consistent on_create_subchange.
Definition update := store_update subchange_store set_subchange_store with_sc_key subchange_consistent on_update_subchange.
Definition merge_list :=
  store_merge_list subchange_store set_subchange_store with_sc_key subchange_consistent on_create_subchange on_update_subchange.
Definition delete := store_delete subchange_store set_subchange_store on_delete_subchange (mret tt).
Definition delete_list := store_delete_list subchange_store set_subchange_store on_delete_subchange (mret tt).

(** [for o_key, o_value in list(depend._store.items()): ...] *)
Definition enforce : M World unit :=
  w ← get;
  for_each (λ kv, w ← get; if subchange_consistent w kv.2 then mret tt else delete kv.1)
    (subchange_store w).
End Subchanges.

Module Submissions.
Definition create := store_create submission_store set_submission_store (λ _ s, s) submission_consistent on_create_submission.
Definition update := store_update submission_store set_submission_store (λ _ s, s) submission_consistent on_update_submission.
Definition merge_list :=
  store_merge_list submission_store set_submission_store (λ _ s, s) submission_consistent
    on_create_submission on_update_submission.
Definition delete :=
  store_delete submission_store set_submission_store on_delete_submission Subchanges.enforce.
Definition delete_list :=
  store_delete_list submission_store set_submission_store on_delete_submission Subchanges.enforce.
End Submissions.

(** ** The global history

    A heap is the list of its entries; [heappop] takes the least, as
    documented. An entry is [((time, score), user, task, scoring, index)], and
    the pair of user and task of two entries are different. *)

Record entry := mk_entry {
  e_change : Z * float;
  e_user : string;
  e_task : string;
  e_rest : list (Z * float);      (* scoring._history[index + 1:] *)
}.

(** Comparison of the tuples, which never reaches [scoring]. *)
Definition entry_ltb (a b : entry) : bool :=
  let '(ta, sa) := e_change a in
  let '(tb, sb) := e_change b in
  if decide (ta ≠ tb) then bool_decide (ta < tb)%Z
  else if negb (feqb sa sb) then fltb sa sb
  else if decide (e_user a ≠ e_user b) then String.ltb (e_user a) (e_user b)
  else String.ltb (e_task a) (e_task b).

(** The least entry and the others. *)
Fixpoint heappop (e : entry) (queue : list entry) : entry * list entry :=
  match queue with
  | [] => (e, [])
  | e' :: queue =>
      if entry_ltb e' e
      then let '(m, q) := heappop e' queue in (m, e :: q)
      else let '(m, q) := heappop e queue in (m, e' :: q)
  end.

(** The queue at the start. *)
Definition initial_queue (d : pydict string (pydict string Score)) : list entry :=
  d ≫= λ um, um.2 ≫= λ ts,
    match _history ts.2 with
    | [] => []
    | h :: rest => [mk_entry h um.1 ts.1 rest]
    end.

Fixpoint history_loop (fuel : nat) (queue : list entry) : Prelude.res (list (string * string * Z * float)) :=
  match queue with
  | [] => Ok []
  | e :: queue =>
      match fuel with
      | O => NoFuel
      | S fuel =>
          let '(m, queue) := heappop e queue in
          l ← history_loop fuel
                (match e_rest m with
                 | [] => queue
                 | h :: rest => queue ++ [mk_entry h (e_user m) (e_task m) rest]
                 end);
          Ok ((e_user m, e_task m, (e_change m).1, (e_change m).2) :: l)
      end
  end.

(** Every iteration yields one change of score. *)
Definition get_global_history (w : World) : Prelude.res (list (string * string * Z * float)) :=
  history_loop (sum_list_with (λ um, sum_list_with (λ ts, length (_history ts.2)) um.2) (_scores w))
    (initial_queue (_scores w)).

(** ** What an operation does to the entities of a Score *)

Definition sub_at (st : Score) (k : string) : option Submission :=
  default_sub <$> pd_get (_submissions st) k.

Definition subs_after (e : event) (f : string → option Submission) (k : string) : option Submission :=
  match e with
  | CreateSubmission key s | UpdateSubmission key s => if decide (key = k) then Some (default_sub s) else f k
  | DeleteSubmission key => if decide (key = k) then None else f k
  | _ => f k
  end.

Definition changes_after (e : event) (P : Subchange → Prop) (c : Subchange) : Prop :=
  match e with
  | CreateSubchange _ c' => c = c' ∨ P c
  | UpdateSubchange key c' => c = c' ∨ P c ∧ sc_key c ≠ key
  | DeleteSubchange key => P c ∧ sc_key c ≠ key
  | DeleteSubmission key => P c ∧ sc_submission c ≠ key
  | _ => P c
  end.

Lemma updated_sub_at e st k : sub_at (updated e st) k = subs_after e (sub_at st) k.
Proof.
  unfold sub_at. destruct e; cbn; try done.
  - rewrite pd_get_set. by case_decide.
  - rewrite pd_get_set. by case_decide.
  - unfold pd_mem. case_bool_decide as Hk; cbn.
    + change (default_sub <$> pd_get (pd_del (_submissions st) key) k = if decide (key = k) then None else
        default_sub <$> pd_get (_submissions st) k). rewrite pd_get_del. by case_decide.
    + case_decide; [|done]. subst k. apply eq_None_not_Some in Hk. by rewrite Hk.
Qed.

Lemma updated_changes e st c :
  score_inv st → allowed st e →
  c ∈ _changes (updated e st) ↔ changes_after e (.∈ _changes st) c.
Proof.
  intros Hi Ha. destruct e as [key s|key s|key|key c'|key c'|key]; cbn in *; try done.
  - unfold pd_mem. case_bool_decide as Hk; cbn; [rewrite list_elem_of_filter; tauto|].
    split; [|by intros [? _]]. intros Hc. split; [done|]. intros <-. apply Hk, pd_get_in.
    pose proof (inv_known _ Hi) as Hall. rewrite Forall_forall in Hall. by apply Hall.
  - destruct Ha as (<- & Hc & _). rewrite (with_change_perm _ _ (inv_sorted _ Hi) Hc).
    apply elem_of_cons.
  - destruct Ha as (<- & _ & (old & Hold & Hkey & _)%Exists_exists).
    rewrite list_elem_of_fmap. split.
    + intros (x & -> & Hx). case_decide; [by left|by right].
    + intros [->|[Hc Hne]]; [exists old; by rewrite decide_True|].
      exists c. by rewrite decide_False.
  - rewrite list_elem_of_filter. tauto.
Qed.

Lemma skeleton_sub_at st st' k : skeleton st' = skeleton st → sub_at st' k = sub_at st k.
Proof. intros [= Hs _ _]. unfold sub_at. by rewrite <- !pd_get_fmap, Hs. Qed.

Lemma perform_entities e st :
  score_inv st → allowed st e →
  ∃ st', perform e st = (Ok tt, st') ∧ score_inv st' ∧ _score_mode st' = _score_mode st ∧
    (∀ k, sub_at st' k = subs_after e (sub_at st) k) ∧
    (∀ c, c ∈ _changes st' ↔ changes_after e (.∈ _changes st) c).
Proof.
  intros Hi Ha. destruct (perform_inv e st Hi Ha) as (st' & Hr & Hi' & Hs).
  exists st'. split_and!; [done|done| | |].
  - injection Hs as _ _ ->. destruct e; cbn; try done. by case_match.
  - intros k. by rewrite (skeleton_sub_at _ _ _ Hs), updated_sub_at.
  - intros c. injection Hs as _ -> _. by apply updated_changes.
Qed.

(** ** The scores track the entities *)

Definition belongs (u t : string) (s : Submission) : Prop := user s = u ∧ task s = t.

#[export] Instance belongs_dec u t s : Decision (belongs u t s).
Proof. unfold belongs. apply _. Defined.

(** The submission [k], if it is of [u] on [t]. *)
Definition sub_of (subs : pydict string Submission) (u t k : string) : option Submission :=
  s ← pd_get subs k; if decide (belongs u t s) then Some s else None.

(** [c] is a change of a submission of [u] on [t]. *)
Definition change_of (subs : pydict string Submission) (chs : pydict string Subchange)
    (u t : string) (c : Subchange) : Prop :=
  pd_get chs (sc_key c) = Some c ∧ is_Some (sub_of subs u t (sc_submission c)).

Definition score_modes : list string := [SCORE_MODE_MAX; SCORE_MODE_MAX_SUBTASK; SCORE_MODE_MAX_TOKENED_LAST].

(** The entities are consistent and regular. *)
Record wf (modes : gmap string string) (subs : pydict string Submission) (chs : pydict string Subchange) : Prop := {
  wf_subs : NoDup (pd_keys subs);
  wf_chs : NoDup (pd_keys chs);
  wf_change k c : pd_get chs k = Some c →
    sc_key c = k ∧ regular_change c = true ∧ is_Some (pd_get subs (sc_submission c));
  wf_modes k s : pd_get subs k = Some s → ∃ m, modes !! task s = Some m ∧ m ∈ score_modes;
}.

Definition entities_ok subs chs (u t : string) (s : Score) : Prop :=
  (∀ k, sub_at s k = default_sub <$> sub_of subs u t k) ∧
  (∀ c, c ∈ _changes s ↔ change_of subs chs u t c).

Definition score_ok (modes : gmap string string) subs chs (u t : string) (s : Score) : Prop :=
  score_inv s ∧ modes !! t = Some (_score_mode s) ∧ _submissions s ≠ [] ∧ entities_ok subs chs u t s.

Definition tracked (modes : gmap string string) subs chs (u t : string) (o : option Score) : Prop :=
  match o with
  | Some s => score_ok modes subs chs u t s
  | None => ∀ k, sub_of subs u t k = None
  end.

Definition tracks (modes : gmap string string) subs chs (d : pydict string (pydict string Score)) : Prop :=
  ∀ u t, tracked modes subs chs u t (score_at d u t).

(** The last score the callbacks were told for [u] and [t]. *)
Definition told (l : list (string * string * float)) (u t : string) : float :=
  foldl (λ x n, if decide (n.1 = (u, t)) then n.2 else x) f0 l.

Definition told_ok (w : World) : Prop := ∀ u t, told (_notified w) u t = current_score w u t.

Lemma score_at_set d u t s u' t' :
  score_at (set_score_at d u t s) u' t' = if decide ((u, t) = (u', t')) then Some s else score_at d u' t'.
Proof.
  unfold score_at, set_score_at. rewrite pd_get_set. destruct (decide (u = u')) as [->|Hu]; cbn.
  - rewrite pd_get_set. destruct (decide (t = t')) as [->|Ht]; [by rewrite decide_True|].
    rewrite decide_False by congruence. by destruct (pd_get d u').
  - by rewrite decide_False by congruence.
Qed.

(** Only the score of one user on one task changes. *)
Lemma tracks_update modes subs chs subs' chs' d d' u t :
  tracks modes subs chs d →
  (∀ u' t', (u, t) ≠ (u', t') → score_at d' u' t' = score_at d u' t' ∧
     (∀ k, sub_of subs' u' t' k = sub_of subs u' t' k) ∧
     (∀ c, change_of subs' chs' u' t' c ↔ change_of subs chs u' t' c)) →
  tracked modes subs' chs' u t (score_at d' u t) →
  tracks modes subs' chs' d'.
Proof.
  intros Ht Hother Hut u' t'. destruct (decide ((u, t) = (u', t'))) as [[= -> ->]|Hne]; [done|].
  destruct (Hother u' t' Hne) as (-> & Hs & Hc). specialize (Ht u' t').
  destruct (score_at d u' t') as [s|]; cbn in *.
  - destruct Ht as (? & ? & ? & Hsub & Hch). split_and!; try done.
    split; [intros k; by rewrite Hs|intros c; by rewrite Hch].
  - intros k. by rewrite Hs.
Qed.

Lemma inv_score_nonneg st : score_inv st → nonneg (Ranking.get_score st) = true.
Proof.
  intros Hi. rewrite (proj1 (inv_history _ Hi)). apply spec_score_nonneg, Hi.
Qed.

Definition same_stores (w w' : World) : Prop :=
  task_store w' = task_store w ∧ user_store w' = user_store w ∧
  submission_store w' = submission_store w ∧ subchange_store w' = subchange_store w.

(** Running an operation on one Score. *)
Lemma on_score_ok u t op s s' w :
  told_ok w → score_at (_scores w) u t = Some s → op s = (Ok tt, s') →
  nonneg (Ranking.get_score s) = true → nonneg (Ranking.get_score s') = true →
  ∃ w', on_score u t op w = (Ok tt, w') ∧ same_stores w w' ∧
    _scores w' = set_score_at (_scores w) u t s' ∧ told_ok w'.
Proof.
  intros Hn Hs Hop Hs0 Hs1. unfold on_score, score_obj.
  erewrite M_run_Ok; [|run_goal; by rewrite Hs]. rewrite Hop.
  erewrite M_run_Ok; [|reflexivity]. erewrite M_run_Ok; [|reflexivity].
  assert (∀ u' t' d n, current_score (set_notified n (set_scores (set_score_at d u t s') w)) u' t' =
    if decide ((u, t) = (u', t')) then Ranking.get_score s' else current_score (set_scores d w) u' t') as Hc.
  { intros u' t' d n. unfold current_score. cbn [_scores set_notified set_scores].
    rewrite score_at_set. by case_decide. }
  destruct (feqb _ _) eqn:He.
  - apply feqb_nonneg in He; [|done..]. eexists. split_and!; [done|done|done|]. intros u' t'.
    etransitivity; [exact (Hn u' t')|].
    etransitivity; [|symmetry; exact (Hc u' t' (_scores w) (_notified w))].
    case_decide as Hu; [|done]. injection Hu as <- <-. unfold current_score. by rewrite Hs.
  - eexists. split_and!; [done|done|done|]. intros u' t'.
    etransitivity; [|symmetry; exact (Hc u' t' (_scores w) (_notified w ++ [(u, t, Ranking.get_score s')]))].
    unfold told. cbn [_notified set_notified]. rewrite foldl_app. cbn. case_decide; [done|].
    exact (Hn u' t').
Qed.

(** ** The callbacks *)

Lemma subs_after_ext e f g k : (∀ k, f k = g k) → subs_after e f k = subs_after e g k.
Proof. intros Hfg. destruct e; cbn; by rewrite ?Hfg. Qed.

Lemma changes_after_ext e (P Q : Subchange → Prop) c :
  (∀ c, P c ↔ Q c) → changes_after e P c ↔ changes_after e Q c.
Proof. intros HPQ. destruct e; cbn; rewrite ?HPQ; done. Qed.

(** An operation on one Score, seen from the entities. *)
Lemma on_event subs chs subs' chs' u t e op s w :
  told_ok w → score_at (_scores w) u t = Some s → score_inv s → entities_ok subs chs u t s →
  allowed s e → op s = perform e s →
  (∀ k, subs_after e (λ k, default_sub <$> sub_of subs u t k) k = default_sub <$> sub_of subs' u t k) →
  (∀ c, changes_after e (change_of subs chs u t) c ↔ change_of subs' chs' u t c) →
  ∃ w' s', on_score u t op w = (Ok tt, w') ∧ same_stores w w' ∧
    _scores w' = set_score_at (_scores w) u t s' ∧ told_ok w' ∧
    score_inv s' ∧ _score_mode s' = _score_mode s ∧ entities_ok subs' chs' u t s'.
Proof.
  intros Hn Hs Hi [He1 He2] Ha Hop Hsub Hch.
  destruct (perform_entities e s Hi Ha) as (s' & Hr & Hi' & Hm & Hs' & Hc').
  rewrite <- Hop in Hr.
  destruct (on_score_ok u t op s s' w Hn Hs Hr) as (w' & Hrun & Hst & Hsc & Hn');
    [by apply inv_score_nonneg..|].
  exists w', s'. split_and!; try done. split.
  - intros k. rewrite Hs', <- Hsub. by apply subs_after_ext.
  - intros c. rewrite Hc', <- Hch. by apply changes_after_ext.
Qed.

(** The state of the ScoringStore when the entities are [subs] and [chs]. *)
Record winv (subs : pydict string Submission) (chs : pydict string Subchange) (w : World) : Prop := {
  winv_wf : wf (task_store w) subs chs;
  winv_tracks : tracks (task_store w) subs chs (_scores w);
  winv_told : told_ok w;
}.

Lemma score_nonempty subs chs u t s k x :
  entities_ok subs chs u t s → sub_of subs u t k = Some x → _submissions s ≠ [].
Proof. intros [Hs _] Hk. specialize (Hs k). rewrite Hk in Hs. unfold sub_at in Hs. by destruct (_submissions s). Qed.

(** Where the scores are updated in place. *)
Lemma winv_update subs chs subs' chs' u t w w' s' k x :
  winv subs chs w → wf (task_store w) subs' chs' → same_stores w w' →
  _scores w' = set_score_at (_scores w) u t s' → told_ok w' →
  score_inv s' → task_store w !! t = Some (_score_mode s') → entities_ok subs' chs' u t s' →
  sub_of subs' u t k = Some x →
  (∀ u' t', (u, t) ≠ (u', t') →
     (∀ k, sub_of subs' u' t' k = sub_of subs u' t' k) ∧
     (∀ c, change_of subs' chs' u' t' c ↔ change_of subs chs u' t' c)) →
  winv subs' chs' w'.
Proof.
  intros [_ Ht _] Hwf (Htask & _) Hsc Htold Hi Hm He Hx Hother. split; [by rewrite Htask| |done].
  rewrite Htask, Hsc. eapply (tracks_update _ subs chs _ _ (_scores w) _ u t); [done| |].
  - intros u' t' Hne. rewrite score_at_set, decide_False by done. split; [done|by apply Hother].
  - rewrite score_at_set, decide_True by done. split_and!; try done. by eapply score_nonempty.
Qed.

Lemma sub_of_Some subs u t k x :
  sub_of subs u t k = Some x ↔ pd_get subs k = Some x ∧ belongs u t x.
Proof.
  unfold sub_of. destruct (pd_get subs k) as [y|]; cbn; [|by split; [|intros []]].
  case_decide; split; [by intros [= ->]|by intros [[= ->] _]|done|by intros [[= ->] ?]].
Qed.

Lemma tracked_Some subs chs w u t k x :
  winv subs chs w → sub_of subs u t k = Some x →
  ∃ s, score_at (_scores w) u t = Some s ∧ score_ok (task_store w) subs chs u t s.
Proof.
  intros [_ Ht _] Hx. specialize (Ht u t). destruct (score_at (_scores w) u t) as [s|]; [by exists s|].
  cbn in Ht. by rewrite Ht in Hx.
Qed.

Lemma sub_of_owner subs c sub :
  pd_get subs (sc_submission c) = Some sub →
  sub_of subs (user sub) (task sub) (sc_submission c) = Some sub.
Proof. intros Hsub. by apply sub_of_Some. Qed.

Lemma sub_of_other subs c sub u' t' :
  pd_get subs (sc_submission c) = Some sub → (user sub, task sub) ≠ (u', t') →
  sub_of subs u' t' (sc_submission c) = None.
Proof.
  intros Hsub Hne. apply eq_None_not_Some. intros [x [Hx [Hu Ht]]%sub_of_Some].
  apply Hne. congruence.
Qed.

Section subchange_callbacks.
Context (subs : pydict string Submission) (chs : pydict string Subchange) (w : World).
Context (key : string) (c : Subchange) (sub : Submission).
Hypothesis Hw : winv subs chs w.
Hypothesis Hkey : sc_key c = key.
Hypothesis Hreg : regular_change c = true.
Hypothesis Hsub : pd_get subs (sc_submission c) = Some sub.
Hypothesis Hstore : pd_get (submission_store w) (sc_submission c) = Some sub.

Lemma wf_set_change : wf (task_store w) subs (pd_set chs key c).
Proof.
  destruct (winv_wf _ _ _ Hw) as [H1 H2 H3 H4]. split; [done|by apply pd_keys_set_NoDup| |done].
  intros k c'. rewrite pd_get_set. case_decide as Hk; [|by apply H3].
  intros [= <-]. split_and!; [congruence|done|by eexists].
Qed.

Lemma known_in_score s :
  entities_ok subs chs (user sub) (task sub) s → known_change s c.
Proof.
  intros [Hs _]. split; [|done]. apply pd_get_in. specialize (Hs (sc_submission c)).
  rewrite (sub_of_owner _ _ _ Hsub) in Hs. unfold sub_at in Hs. by destruct (pd_get (_submissions s) _).
Qed.

Lemma change_of_set u' t' c' :
  change_of subs (pd_set chs key c) u' t' c' ↔
  c' = c ∧ (user sub, task sub) = (u', t') ∨ (change_of subs chs u' t' c' ∧ sc_key c' ≠ key).
Proof.
  unfold change_of. rewrite pd_get_set. split.
  - intros [Hc' Ho]. case_decide as Hk.
    + injection Hc' as <-. left. split; [done|]. destruct (decide ((user sub, task sub) = (u', t'))); [done|].
      rewrite (sub_of_other _ _ _ _ _ Hsub) in Ho by done. by destruct Ho.
    + right. by split.
  - intros [[-> [= <- <-]]|[[Hc' Ho] Hk]].
    + rewrite decide_True by done. split; [done|]. rewrite (sub_of_owner _ _ _ Hsub). by eexists.
    + by rewrite decide_False.
Qed.

Lemma on_create_subchange_ok :
  pd_get chs key = None →
  ∃ w', on_create_subchange key c w = (Ok tt, w') ∧ same_stores w w' ∧ winv subs (pd_set chs key c) w'.
Proof.
  intros Hnew. unfold on_create_subchange, stored_submission.
  erewrite M_run_Ok; [|run_goal; by rewrite Hstore].
  destruct (tracked_Some _ _ _ _ _ _ _ Hw (sub_of_owner _ _ _ Hsub)) as (s & Hs & Hi & Hm & Hne & He).
  destruct (on_event subs chs subs (pd_set chs key c) (user sub) (task sub) (CreateSubchange key c)
              (create_subchange key c) s w)
    as (w' & s' & Hr & Hst & Hsc & Htold & Hi' & Hm' & He'); try done.
  - apply Hw.
  - cbn. split_and!; [done| |by apply known_in_score]. rewrite list_elem_of_fmap.
    intros (c' & Hk & [Hc' _]%(proj2 He)). rewrite Hk in Hnew. congruence.
  - intros c'. cbn. rewrite change_of_set. split.
    + intros [->|Hc']; [by left|right]. split; [done|]. intros Hk. destruct Hc' as [Hc' _].
      rewrite Hk in Hc'. congruence.
    + intros [[-> _]|[Hc' _]]; [by left|by right].
  - exists w'. split_and!; [done..|].
    eapply (winv_update subs chs _ _ _ _ w w' s'); try done.
    + apply wf_set_change.
    + by rewrite Hm'.
    + by apply sub_of_owner.
    + intros u' t' Hne'. split; [done|]. intros c'. rewrite change_of_set. split.
      * by intros [[_ ?]|[? _]].
      * intros Hc'. right. split; [done|]. intros Hk. destruct Hc' as [Hc' _].
        rewrite Hk in Hc'. congruence.
Qed.

(** The old change is of the same submission and has the same time. *)
Lemma on_update_subchange_ok old :
  pd_get chs key = Some old → sc_submission old = sc_submission c → sc_time old = sc_time c →
  ∃ w', on_update_subchange key old c w = (Ok tt, w') ∧ same_stores w w' ∧
    winv subs (pd_set chs key c) w'.
Proof.
  intros Hold Hsame Htime. unfold on_update_subchange. rewrite decide_False by tauto.
  unfold stored_submission. erewrite M_run_Ok; [|run_goal; by rewrite Hstore].
  destruct (tracked_Some _ _ _ _ _ _ _ Hw (sub_of_owner _ _ _ Hsub)) as (s & Hs & Hi & Hm & Hne & He).
  destruct (wf_change _ _ _ (winv_wf _ _ _ Hw) _ _ Hold) as (Hkold & _ & _).
  destruct (on_event subs chs subs (pd_set chs key c) (user sub) (task sub) (UpdateSubchange key c)
              (update_subchange key c) s w)
    as (w' & s' & Hr & Hst & Hsc & Htold & Hi' & Hm' & He'); try done.
  - apply Hw.
  - cbn. split_and!; [done|by apply known_in_score|]. apply Exists_exists. exists old.
    split; [|done]. apply He. split; [by rewrite Hkold|]. rewrite Hsame, (sub_of_owner _ _ _ Hsub). by eexists.
  - intros c'. cbn. rewrite change_of_set. split.
    + intros [->|?]; [by left|by right].
    + intros [[-> _]|?]; [by left|by right].
  - exists w'. split_and!; [done..|].
    eapply (winv_update subs chs _ _ _ _ w w' s'); try done.
    + apply wf_set_change.
    + by rewrite Hm'.
    + by apply sub_of_owner.
    + intros u' t' Hne'. split; [done|]. intros c'. rewrite change_of_set. split.
      * by intros [[_ ?]|[? _]].
      * intros Hc'. right. split; [done|]. intros Hk. destruct Hc' as [Hc' [x Hx]].
        rewrite Hk, Hold in Hc'. injection Hc' as <-. by rewrite Hsame, (sub_of_other _ _ _ _ _ Hsub) in Hx.
Qed.
End subchange_callbacks.

Lemma pd_get_del_Some {V} (d : pydict string V) k k' v :
  pd_get (pd_del d k) k' = Some v ↔ k ≠ k' ∧ pd_get d k' = Some v.
Proof. rewrite pd_get_del. case_decide; [split; [done|tauto]|tauto]. Qed.

Lemma on_delete_subchange_ok subs chs w key c sub :
  winv subs chs w → pd_get chs key = Some c → pd_get subs (sc_submission c) = Some sub →
  pd_get (submission_store w) (sc_submission c) = Some sub →
  ∃ w', on_delete_subchange key c w = (Ok tt, w') ∧ same_stores w w' ∧ winv subs (pd_del chs key) w'.
Proof.
  intros Hw Hc Hsub Hstore. destruct (winv_wf _ _ _ Hw) as [H1 H2 H3 H4].
  destruct (H3 _ _ Hc) as (Hkey & Hreg & _). unfold on_delete_subchange.
  rewrite (M_run_Ok _ _ _ w w) by done. unfold pd_mem. rewrite bool_decide_eq_true_2 by (by rewrite Hstore).
  unfold stored_submission. erewrite M_run_Ok; [|run_goal; by rewrite Hstore].
  pose proof (sub_of_owner _ _ _ Hsub) as Hown.
  destruct (tracked_Some _ _ _ _ _ _ _ Hw Hown) as (s & Hs & Hi & Hm & Hne & He).
  assert (∀ u' t' c', change_of subs (pd_del chs key) u' t' c' ↔ change_of subs chs u' t' c' ∧ sc_key c' ≠ key)
    as Hch.
  { intros u' t' c'. unfold change_of. rewrite pd_get_del_Some. split.
    - intros [[Hk Hg] Ho]. split_and!; [done|done|congruence].
    - intros [[Hg Ho] Hk]. split_and!; [congruence|done|done]. }
  destruct (on_event subs chs subs (pd_del chs key) (user sub) (task sub) (DeleteSubchange key)
              (delete_subchange key) s w)
    as (w' & s' & Hr & Hst & Hsc & Htold & Hi' & Hm' & He'); try done.
  - apply Hw.
  - exists w'. split_and!; [done..|].
    eapply (winv_update subs chs _ _ _ _ w w' s'); try done.
    + split; [done|by apply pd_keys_del_NoDup| |done]. intros k c' [_ Hg]%pd_get_del_Some. by apply H3.
    + by rewrite Hm'.
    + intros u' t' Hne'. split; [done|]. intros c'. rewrite Hch. split; [by intros [? _]|].
      intros Hc'. split; [done|]. intros Hk. destruct Hc' as [Hc' [x Hx]]. rewrite Hk, Hc in Hc'.
      injection Hc' as <-. by rewrite (sub_of_other _ _ _ _ _ Hsub) in Hx.
Qed.

(** The submissions of one user on one task after an assignment. *)
Lemma sub_of_set subs key sub u t k :
  sub_of (pd_set subs key sub) u t k =
  if decide (key = k) then (if decide (belongs u t sub) then Some sub else None) else sub_of subs u t k.
Proof. unfold sub_of. rewrite pd_get_set. by case_decide. Qed.

(** Making sure that there is a Score. *)
Lemma ensure_score subs chs w key sub mode :
  winv subs chs w → task_store w !! task sub = Some mode → mode ∈ score_modes →
  ∃ w2 s, on_create_submission key sub w = on_score (user sub) (task sub) (create_submission key sub) w2 ∧
    same_stores w w2 ∧ told_ok w2 ∧ score_at (_scores w2) (user sub) (task sub) = Some s ∧
    score_inv s ∧ _score_mode s = mode ∧ entities_ok subs chs (user sub) (task sub) s ∧
    (∀ u' t', (user sub, task sub) ≠ (u', t') → score_at (_scores w2) u' t' = score_at (_scores w) u' t').
Proof.
  intros [Hwf Ht Htold] Hmode Hknown. unfold on_create_submission.
  rewrite (M_run_Ok _ _ _ w w) by done.
  set (w1 := if pd_mem (_scores w) (user sub) then w else set_scores (pd_set (_scores w) (user sub) []) w).
  assert (∀ u' t', score_at (_scores w1) u' t' = score_at (_scores w) u' t') as Hw1.
  { intros u' t'. unfold w1, pd_mem. case_bool_decide as Hu; [done|]. unfold score_at. cbn.
    rewrite pd_get_set. case_decide; [|done]. subst u'. apply eq_None_not_Some in Hu. by rewrite Hu. }
  assert (same_stores w w1 ∧ _notified w1 = _notified w) as [Hst1 Hn1].
  { unfold w1. by destruct (pd_mem _ _). }
  rewrite (M_run_Ok _ _ _ tt w1) by (unfold w1; by destruct (pd_mem _ _)).
  rewrite (M_run_Ok _ _ _ w1 w1) by done.
  assert (told_ok w1) as Htold1.
  { intros u' t'. unfold current_score. rewrite Hw1, Hn1. apply Htold. }
  pose proof (Ht (user sub) (task sub)) as Hut. rewrite <- Hw1 in Hut.
  destruct (score_at (_scores w1) (user sub) (task sub)) as [s|] eqn:Hs.
  - rewrite (M_run_Ok _ _ _ tt w1) by (by rewrite decide_True).
    destruct Hut as (Hi & Hm & _ & He). exists w1, s. split_and!; try done. congruence.
  - set (w2 := set_scores (set_score_at (_scores w1) (user sub) (task sub) (score_init mode)) w1).
    rewrite (M_run_Ok _ _ _ tt w2).
    2: { rewrite decide_False by (by intros []). erewrite M_run_Ok; [reflexivity|].
         run_goal. destruct Hst1 as (-> & _). by rewrite Hmode. }
    assert (∀ u' t', score_at (_scores w2) u' t' =
      if decide ((user sub, task sub) = (u', t')) then Some (score_init mode) else score_at (_scores w1) u' t')
      as Hw2 by (intros u' t'; apply score_at_set).
    exists w2, (score_init mode). split_and!; try done.
    + intros u' t'. unfold current_score. rewrite Hw2. change (_notified w2) with (_notified w1).
      rewrite Htold1. unfold current_score. case_decide as Hu; [|done]. injection Hu as <- <-.
      by rewrite Hs.
    + by rewrite Hw2, decide_True.
    + by apply init_inv.
    + split; [intros k; by rewrite Hut|]. intros c. split; [by intros ?%elem_of_nil|].
      intros [_ Ho]. rewrite Hut in Ho. by destruct Ho.
    + intros u' t' Hne. by rewrite Hw2, decide_False.
Qed.

Lemma on_create_submission_ok subs chs w key sub mode :
  winv subs chs w → pd_get subs key = None → task_store w !! task sub = Some mode → mode ∈ score_modes →
  ∃ w', on_create_submission key sub w = (Ok tt, w') ∧ same_stores w w' ∧ winv (pd_set subs key sub) chs w'.
Proof.
  intros Hw Hnew Hmode Hknown.
  destruct (ensure_score subs chs w key sub mode Hw Hmode Hknown)
    as (w2 & s & -> & Hst2 & Htold2 & Hs & Hi & Hm & He & Hother).
  assert (∀ u t k, sub_of subs u t key = None) as Hnone by (intros; unfold sub_of; by rewrite Hnew).
  assert (∀ u t c, change_of (pd_set subs key sub) chs u t c ↔ change_of subs chs u t c) as Hch.
  { intros u t c. unfold change_of. rewrite sub_of_set. case_decide as Hk; [|done].
    split; intros [Hc Ho]; exfalso; destruct (wf_change _ _ _ (winv_wf _ _ _ Hw) _ _ Hc) as (_ & _ & [x Hx]);
      congruence. }
  destruct (on_event subs chs (pd_set subs key sub) chs (user sub) (task sub) (CreateSubmission key sub)
              (create_submission key sub) s w2)
    as (w' & s' & Hr & Hst & Hsc & Htold & Hi' & Hm' & He'); try done.
  - cbn. rewrite <- pd_get_in. intros [x Hx]. destruct He as [He _]. specialize (He key).
    rewrite Hnone in He by done. unfold sub_at in He. by rewrite Hx in He.
  - intros k. cbn. rewrite sub_of_set. case_decide; [|done]. by rewrite decide_True.
  - exists w'. destruct Hst2 as (T1 & T2 & T3 & T4), Hst as (S1 & S2 & S3 & S4).
    split_and!; [done|unfold same_stores; split_and!; congruence|].
    destruct (winv_wf _ _ _ Hw) as [H1 H2 H3 H4]. split; [| |done]; rewrite S1, T1.
    + split; [by apply pd_keys_set_NoDup|done| |].
      * intros k c (? & ? & [x Hx])%H3. split_and!; [done|done|]. rewrite pd_get_set.
        case_decide; [by eexists|by exists x].
      * intros k x. rewrite pd_get_set. case_decide; [|by apply H4]. intros [= <-]. by exists mode.
    + rewrite Hsc. eapply (tracks_update _ subs chs _ _ (_scores w) _ (user sub) (task sub)); [apply Hw| |].
      * intros u' t' Hne. rewrite score_at_set, decide_False by done. split_and!; [by apply Hother| |done].
        intros k. rewrite sub_of_set. case_decide; [|done]. subst k. rewrite Hnone by done.
        rewrite decide_False; [done|]. intros [<- <-]. done.
      * rewrite score_at_set, decide_True by done. split_and!; try done; [congruence|].
        apply (score_nonempty _ _ _ _ _ key sub He'). rewrite sub_of_set.
        by rewrite !decide_True.
Qed.

(** [del self._scores[user][task]], and of the user when that was the last. *)
Definition drop_score (d : pydict string (pydict string Score)) (u t : string) :
    pydict string (pydict string Score) :=
  let m := pd_del (default [] (pd_get d u)) t in
  if decide (m = []) then pd_del (pd_set d u m) u else pd_set d u m.

Lemma score_at_drop d u t u' t' :
  score_at (drop_score d u t) u' t' = if decide ((u, t) = (u', t')) then None else score_at d u' t'.
Proof.
  unfold drop_score, score_at. set (m := pd_del (default [] (pd_get d u)) t).
  assert (∀ t', pd_get m t' = if decide (t = t') then None else (pd_get d u ≫= λ m, pd_get m t')) as Hm.
  { intros t2. unfold m. rewrite pd_get_del. case_decide; [done|]. by destruct (pd_get d u). }
  assert ((pd_get (if decide (m = []) then pd_del (pd_set d u m) u else pd_set d u m) u'
           ≫= λ m, pd_get m t') = if decide (u = u') then pd_get m t' else (pd_get d u' ≫= λ m, pd_get m t'))
    as ->.
  { destruct (decide (m = [])) as [Hnil|_]; rewrite ?pd_get_del, !pd_get_set.
    - destruct (decide (u = u')); [by rewrite Hnil|done].
    - by destruct (decide (u = u')). }
  destruct (decide (u = u')) as [<-|Hu]; [|by rewrite decide_False by congruence].
  rewrite Hm. destruct (decide (t = t')) as [<-|Ht]; [by rewrite decide_True|].
  by rewrite decide_False by congruence.
Qed.

(** The end of [delete_submission]. *)
Lemma delete_tail u t s w :
  score_at (_scores w) u t = Some s →
  (w ← get;
   s ← lift (or_raise KeyError (score_at (_scores w) u t));
   _ ← (if decide (_submissions s = []) then
          modify (λ w, set_scores (pd_set (_scores w) u (pd_del (default [] (pd_get (_scores w) u)) t)) w)
        else mret tt);
   w ← get;
   m ← lift (or_raise KeyError (pd_get (_scores w) u));
   if decide (m = []) then modify (λ w, set_scores (pd_del (_scores w) u) w) else mret tt) w =
  (Ok tt, if decide (_submissions s = []) then set_scores (drop_score (_scores w) u t) w else w).
Proof.
  intros Hs. rewrite (M_run_Ok _ _ _ w w) by done.
  rewrite (M_run_Ok _ _ _ s w) by (run_goal; by rewrite Hs).
  unfold score_at in Hs. destruct (pd_get (_scores w) u) as [m|] eqn:Hm; [|done]. cbn in Hs.
  destruct (decide (_submissions s = [])) as [Hnil|Hnil].
  - erewrite M_run_Ok; [|reflexivity]. erewrite M_run_Ok; [|reflexivity].
    erewrite M_run_Ok; [|run_goal; cbn [_scores set_scores]; by rewrite pd_get_set_eq].
    unfold drop_score. rewrite Hm. change (default [] (Some m)) with m. repeat case_decide; done.
  - erewrite M_run_Ok; [|reflexivity]. rewrite (M_run_Ok _ _ _ w w) by done.
    rewrite (M_run_Ok _ _ _ m w) by (run_goal; by rewrite Hm).
    rewrite decide_False; [done|]. by intros ->.
Qed.

Lemma sub_of_del subs key u t k :
  sub_of (pd_del subs key) u t k = if decide (key = k) then None else sub_of subs u t k.
Proof. unfold sub_of. rewrite pd_get_del. by case_decide. Qed.

(** The changes that are left when a submission is deleted. *)
Definition without (key : string) (chs : pydict string Subchange) : pydict string Subchange :=
  filter (λ kc : string * Subchange, sc_submission kc.2 ≠ key) chs.

Lemma pd_get_without key chs k c :
  NoDup (pd_keys chs) →
  pd_get (without key chs) k = Some c ↔ pd_get chs k = Some c ∧ sc_submission c ≠ key.
Proof.
  intros Hn. assert (pd_get (without key chs) k = (pd_get chs k ≫= λ c,
    if decide (sc_submission c ≠ key) then Some c else None)) as ->
    by exact (pd_get_filter (λ c, sc_submission c ≠ key) chs k Hn).
  destruct (pd_get chs k) as [x|]; cbn; [|by split; [|intros [? _]]].
  case_decide; split; [intros [= ->]; by split|by intros [[= ->] _]|done|by intros [[= ->] ?]].
Qed.

Lemma wf_delete modes subs chs key :
  wf modes subs chs → wf modes (pd_del subs key) (without key chs).
Proof.
  intros [H1 H2 H3 H4]. split.
  - by apply pd_keys_del_NoDup.
  - eapply sublist_NoDup; [exact H2|]. apply fmap_sublist, sublist_filter.
  - intros k c [Hc Hne]%pd_get_without; [|done]. destruct (H3 _ _ Hc) as (? & ? & [x Hx]).
    split_and!; [done|done|]. exists x. apply pd_get_del_Some. split; [congruence|done].
  - intros k x [_ Hx]%pd_get_del_Some. by apply (H4 k).
Qed.

Lemma change_of_delete subs chs key u t c :
  NoDup (pd_keys chs) →
  change_of (pd_del subs key) (without key chs) u t c ↔ change_of subs chs u t c ∧ sc_submission c ≠ key.
Proof.
  intros Hn. unfold change_of. rewrite pd_get_without by done. rewrite sub_of_del. split.
  - intros [[Hc Hne] Ho]. rewrite decide_False in Ho by congruence. done.
  - intros [[Hc Ho] Hne]. by rewrite decide_False by congruence.
Qed.

Lemma on_delete_submission_ok subs chs w key sub :
  winv subs chs w → pd_get subs key = Some sub →
  ∃ w', on_delete_submission key sub w = (Ok tt, w') ∧ same_stores w w' ∧
    winv (pd_del subs key) (without key chs) w'.
Proof.
  intros Hw Hkey. pose proof (wf_chs _ _ _ (winv_wf _ _ _ Hw)) as Hn.
  assert (sub_of subs (user sub) (task sub) key = Some sub) as Hown by by apply sub_of_Some.
  destruct (tracked_Some _ _ _ _ _ _ _ Hw Hown) as (s & Hs & Hi & Hm & Hne & He).
  destruct (on_event subs chs (pd_del subs key) (without key chs) (user sub) (task sub) (DeleteSubmission key)
              (delete_submission key) s w)
    as (w1 & s' & Hr & Hst & Hsc & Htold & Hi' & Hm' & He'); try done.
  - apply Hw.
  - intros k. cbn. rewrite sub_of_del. by case_decide.
  - intros c. cbn. by rewrite change_of_delete.
  - assert (score_at (_scores w1) (user sub) (task sub) = Some s') as Hs1
      by (by rewrite Hsc, score_at_set, decide_True).
    eexists. split_and!; [unfold on_delete_submission; rewrite (M_run_Ok _ _ _ _ _ Hr); by apply delete_tail| |].
    { by case_decide. }
    assert (∀ w' : World, task_store w' = task_store w → told_ok w' →
      (∀ u' t', (user sub, task sub) ≠ (u', t') → score_at (_scores w') u' t' = score_at (_scores w) u' t') →
      tracked (task_store w) (pd_del subs key) (without key chs) (user sub) (task sub)
        (score_at (_scores w') (user sub) (task sub)) →
      winv (pd_del subs key) (without key chs) w') as Hfin.
    { intros w' Htask Ht' Hother Hut. split; [rewrite Htask; apply wf_delete, Hw| |done].
      rewrite Htask. eapply (tracks_update _ subs chs _ _ (_scores w)); [apply Hw| |exact Hut].
      intros u' t' Hne'. split_and!; [by apply Hother| |].
      - intros k. rewrite sub_of_del. case_decide; [|done]. subst k. symmetry.
        apply eq_None_not_Some. intros [x [Hx [Hu Ht]]%sub_of_Some]. congruence.
      - intros c. rewrite change_of_delete by done. split; [by intros [? _]|]. intros Hc. split; [done|].
        intros Hk. destruct Hc as [_ [x [Hx [Hu Ht]]%sub_of_Some]]. congruence. }
    destruct Hst as (S1 & _). case_decide as Hnil; apply Hfin.
    + done.
    + intros u' t'. unfold current_score. cbn [_scores set_scores _notified]. rewrite score_at_drop.
      rewrite Htold. case_decide as Hu; [|done]. injection Hu as <- <-. unfold current_score. rewrite Hs1.
      rewrite (proj1 (inv_history _ Hi')).
      assert (_changes s' = []) as Hch.
      { pose proof (inv_known _ Hi') as Hall. destruct (_changes s') as [|c l]; [done|].
        apply Forall_cons in Hall as [[Hin _] _]. rewrite Hnil in Hin. by apply elem_of_nil in Hin. }
      pose proof (inv_replay _ Hi') as Hrep. rewrite reset_run, Hch in Hrep. cbn in Hrep.
      injection Hrep as <-. apply spec_score_cleared.
    + intros u' t' Hne'. cbn [_scores set_scores].
      by rewrite score_at_drop, decide_False, Hsc, score_at_set, decide_False.
    + cbn [_scores set_scores]. rewrite score_at_drop, decide_True by done.
      intros k. destruct He' as [He' _]. specialize (He' k). unfold sub_at in He'. rewrite Hnil in He'.
      by destruct (sub_of _ _ _ k).
    + done.
    + done.
    + intros u' t' Hne'. by rewrite Hsc, score_at_set, decide_False.
    + rewrite Hs1. split_and!; try done. congruence.
Qed.

(** The new version is of the same user on the same task. *)
Lemma on_update_submission_ok subs chs w key old sub :
  winv subs chs w → pd_get subs key = Some old → user old = user sub → task old = task sub →
  ∃ w', on_update_submission key old sub w = (Ok tt, w') ∧ same_stores w w' ∧
    winv (pd_set subs key sub) chs w'.
Proof.
  intros Hw Hkey Hu Ht. unfold on_update_submission. rewrite decide_False by (intros []; congruence).
  assert (sub_of subs (user sub) (task sub) key = Some old) as Hown by by apply sub_of_Some.
  destruct (tracked_Some _ _ _ _ _ _ _ Hw Hown) as (s & Hs & Hi & Hm & Hne & He).
  rewrite (M_run_Ok _ _ _ w w) by done.
  rewrite (M_run_Ok _ _ _ (_score_mode s) w) by (run_goal; by rewrite Hm).
  assert (∀ u t k, is_Some (sub_of (pd_set subs key sub) u t k) ↔ is_Some (sub_of subs u t k)) as Hsome.
  { intros u t k. rewrite sub_of_set. case_decide; [|done]. subst k. unfold sub_of. rewrite Hkey. cbn.
    assert (belongs u t sub ↔ belongs u t old) as Hb by (unfold belongs; by rewrite Hu, Ht).
    repeat case_decide; try tauto; split; intros _; by eexists. }
  assert (∀ u t c, change_of (pd_set subs key sub) chs u t c ↔ change_of subs chs u t c) as Hch
    by (intros u t c; unfold change_of; by rewrite Hsome).
  assert ((_ ← update_submission key sub; update_score_mode (_score_mode s)) s
          = perform (UpdateSubmission key sub) s) as Hop.
  { destruct (perform_inv (UpdateSubmission key sub) s Hi) as (s' & Hr & _ & [= _ _ Hmode]).
    - cbn. apply pd_get_in. destruct He as [He _]. specialize (He key). rewrite Hown in He.
      unfold sub_at in He. by destruct (pd_get (_submissions s) key).
    - cbn [perform] in *. rewrite (M_run_Ok _ _ _ _ _ Hr), Hr.
      unfold update_score_mode, modify. rewrite <- Hmode. by destruct s'. }
  destruct (on_event subs chs (pd_set subs key sub) chs (user sub) (task sub) (UpdateSubmission key sub)
              (_ ← update_submission key sub; update_score_mode (_score_mode s)) s w)
    as (w' & s' & Hr & Hst & Hsc & Htold & Hi' & Hm' & He'); try done.
  - apply Hw.
  - cbn. apply pd_get_in. destruct He as [He _]. specialize (He key). rewrite Hown in He.
    unfold sub_at in He. by destruct (pd_get (_submissions s) key).
  - intros k. cbn. rewrite sub_of_set. case_decide; [|done]. by rewrite decide_True.
  - exists w'. split_and!; [done..|].
    eapply (winv_update subs chs _ _ _ _ w w' s' key sub); try done.
    + destruct (winv_wf _ _ _ Hw) as [H1 H2 H3 H4]. split; [by apply pd_keys_set_NoDup|done| |].
      * intros k c (? & ? & [x Hx])%H3. split_and!; [done|done|]. rewrite pd_get_set.
        case_decide; [by eexists|by exists x].
      * intros k x. rewrite pd_get_set. case_decide; [|by apply H4]. intros [= <-].
        rewrite <- Ht. by eapply H4.
    + by rewrite Hm'.
    + rewrite sub_of_set. by rewrite !decide_True.
    + intros u' t' Hne'. split; [|by intros c; rewrite Hch]. intros k. rewrite sub_of_set.
      case_decide; [|done]. subst k. unfold sub_of. rewrite Hkey. cbn.
      rewrite !decide_False; [done|..]; intros [? ?]; congruence.
Qed.

(** ** Requests to the stores *)

Section StoreFacts.
Context {E : Type} (store : World → pydict string E) (set_store : pydict string E → World → World).
Context (with_key : string → E → E) (consistent : World → E → bool).
Context (on_create : string → E → M World unit) (on_update : string → E → E → M World unit).

Lemma store_create_eq key item w :
  store_create store set_store with_key consistent on_create key item w =
  if pd_mem (store w) key then (Raise InvalidKey, w)
  else if consistent w item
  then store_merge store set_store with_key on_create on_update key item w
  else (Raise InvalidData, w).
Proof.
  unfold store_create, store_merge. run_goal. unfold pd_mem. case_bool_decide as Hk; [done|].
  apply eq_None_not_Some in Hk. by destruct (consistent w item); cbn; rewrite ?Hk.
Qed.

Lemma store_update_eq key item w :
  store_update store set_store with_key consistent on_update key item w =
  if negb (pd_mem (store w) key) then (Raise InvalidKey, w)
  else if consistent w item
  then store_merge store set_store with_key on_create on_update key item w
  else (Raise InvalidData, w).
Proof.
  unfold store_update, store_merge. run_goal. unfold pd_mem.
  destruct (pd_get (store w) key) as [old|] eqn:Hk.
  - rewrite bool_decide_eq_true_2 by done. by destruct (consistent w item); cbn; rewrite ?Hk.
  - by rewrite bool_decide_eq_false_2 by (by intros []).
Qed.
End StoreFacts.

Definition put_submission : string → Submission → M World unit :=
  store_merge submission_store set_submission_store (λ _ s, s) on_create_submission on_update_submission.
Definition put_subchange : string → Subchange → M World unit :=
  store_merge subchange_store set_subchange_store with_sc_key on_create_subchange on_update_subchange.

(** What the ranking holds is what its stores hold. *)
Record store_inv (w : World) : Prop := {
  si_winv : winv (submission_store w) (subchange_store w) w;
  si_modes t m : task_store w !! t = Some m → m ∈ score_modes;
}.

(** An update keeps the user and the task of a submission, and the time of a
    change unless the change moves to another submission. *)
Definition valid_submission (w : World) (key : string) (item : Submission) : Prop :=
  ∀ old, pd_get (submission_store w) key = Some old → user old = user item ∧ task old = task item.
Definition valid_subchange (w : World) (key : string) (item : Subchange) : Prop :=
  regular_change item = true ∧
  ∀ old, pd_get (subchange_store w) key = Some old → sc_submission old = sc_submission item →
    sc_time old = sc_time item.

Lemma winv_frame subs chs w w' :
  task_store w' = task_store w → _scores w' = _scores w → _notified w' = _notified w →
  winv subs chs w → winv subs chs w'.
Proof.
  intros Ht Hs Hn [Hwf Htr Htold]. split; rewrite ?Ht, ?Hs; try done.
  intros u t. unfold current_score. rewrite Hs, Hn. apply Htold.
Qed.

(** Only the contents of the dictionaries matter. *)
Lemma winv_ext subs chs chs' w :
  NoDup (pd_keys chs') → (∀ k, pd_get chs' k = pd_get chs k) → winv subs chs w → winv subs chs' w.
Proof.
  intros Hn He [[H1 H2 H3 H4] Ht Htold]. split; [split; try done| |done].
  - intros k c. rewrite He. apply H3.
  - intros u t. specialize (Ht u t). destruct (score_at _ u t); [|done].
    destruct Ht as (? & ? & ? & Hsub & Hch). split_and!; try done. split; [done|].
    intros c. rewrite Hch. unfold change_of. by rewrite He.
Qed.

Lemma put_submission_ok key item w :
  store_inv w → submission_consistent w item = true → valid_submission w key item →
  ∃ w', put_submission key item w = (Ok tt, w') ∧ store_inv w' ∧ task_store w' = task_store w ∧
    user_store w' = user_store w ∧ subchange_store w' = subchange_store w ∧
    submission_store w' = pd_set (submission_store w) key item.
Proof.
  intros [Hw Hm] [[mode Hmode]%bool_decide_eq_true _]%andb_true_iff Hv. unfold put_submission, store_merge.
  rewrite (M_run_Ok _ _ _ w w) by done.
  set (w1 := set_submission_store (pd_set (submission_store w) key item) w).
  rewrite (M_run_Ok _ _ _ tt w1) by done.
  assert (winv (submission_store w) (subchange_store w) w1) as Hw1 by by eapply winv_frame; [..|exact Hw].
  assert (∀ w', same_stores w1 w' → winv (pd_set (submission_store w) key item) (subchange_store w) w' →
    store_inv w' ∧ task_store w' = task_store w ∧ user_store w' = user_store w ∧
    subchange_store w' = subchange_store w ∧ submission_store w' = pd_set (submission_store w) key item)
    as Hfin.
  { intros w' (S1 & S2 & S3 & S4) Hw'. split_and!; try done. split; [by rewrite S3, S4|by rewrite S1]. }
  destruct (pd_get (submission_store w) key) as [old|] eqn:Hold.
  - destruct (Hv _ Hold) as [Hu Ht].
    destruct (on_update_submission_ok _ _ w1 key old item Hw1 Hold Hu Ht) as (w' & Hr & Hst & Hw').
    exists w'. split; [done|]. by apply Hfin.
  - destruct (on_create_submission_ok _ _ w1 key item mode Hw1 Hold Hmode (Hm _ _ Hmode))
      as (w' & Hr & Hst & Hw'). exists w'. split; [done|]. by apply Hfin.
Qed.

Lemma put_subchange_ok key item w :
  store_inv w → subchange_consistent w item = true → valid_subchange w key item →
  ∃ w', put_subchange key item w = (Ok tt, w') ∧ store_inv w' ∧ task_store w' = task_store w ∧
    user_store w' = user_store w ∧ submission_store w' = submission_store w ∧
    subchange_store w' = pd_set (subchange_store w) key (with_sc_key key item).
Proof.
  intros [Hw Hm] Hc [Hreg Hv]. unfold put_subchange, store_merge.
  set (c := with_sc_key key item). rewrite (M_run_Ok _ _ _ w w) by done.
  set (w1 := set_subchange_store (pd_set (subchange_store w) key c) w).
  rewrite (M_run_Ok _ _ _ tt w1) by done.
  unfold subchange_consistent, pd_mem in Hc. apply bool_decide_eq_true in Hc as [sub Hsub].
  change (sc_submission item) with (sc_submission c) in Hsub.
  assert (winv (submission_store w) (subchange_store w) w1) as Hw1 by by eapply winv_frame; [..|exact Hw].
  assert (∀ w', same_stores w1 w' → winv (submission_store w) (pd_set (subchange_store w) key c) w' →
    store_inv w' ∧ task_store w' = task_store w ∧ user_store w' = user_store w ∧
    submission_store w' = submission_store w ∧ subchange_store w' = pd_set (subchange_store w) key c)
    as Hfin.
  { intros w' (S1 & S2 & S3 & S4) Hw'. split_and!; try done. split; [by rewrite S3, S4|by rewrite S1]. }
  destruct (pd_get (subchange_store w) key) as [old|] eqn:Hold.
  - destruct (decide (sc_submission old = sc_submission c)) as [Hsame|Hdiff].
    + destruct (on_update_subchange_ok _ _ w1 key c sub Hw1 eq_refl Hreg Hsub Hsub old Hold Hsame)
        as (w' & Hr & Hst & Hw'); [by apply Hv|]. exists w'. split; [done|]. by apply Hfin.
    + destruct (wf_change _ _ _ (winv_wf _ _ _ Hw) _ _ Hold) as (_ & _ & [osub Hosub]).
      destruct (on_delete_subchange_ok _ _ w1 key old osub Hw1 Hold Hosub Hosub) as (w2 & Hr2 & Hst2 & Hw2).
      pose proof Hst2 as (S1 & S2 & S3 & S4).
      destruct (on_create_subchange_ok _ _ w2 key c sub Hw2 eq_refl Hreg Hsub) as (w' & Hr & Hst & Hw').
      * by rewrite S3.
      * by rewrite pd_get_del, decide_True.
      * exists w'. unfold on_update_subchange. rewrite decide_True by done.
        rewrite (M_run_Ok _ _ _ _ _ Hr2). split; [done|].
        apply Hfin; [destruct Hst as (T1 & T2 & T3 & T4); unfold same_stores; split_and!; congruence|].
        eapply winv_ext; [| |exact Hw'].
        -- apply pd_keys_set_NoDup, (winv_wf _ _ _ Hw).
        -- intros k. rewrite !pd_get_set, pd_get_del. by case_decide.
  - destruct (on_create_subchange_ok _ _ w1 key c sub Hw1 eq_refl Hreg Hsub Hsub Hold)
      as (w' & Hr & Hst & Hw'). exists w'. split; [done|]. by apply Hfin.
Qed.

Lemma delete_subchange_ok key c w :
  store_inv w → pd_get (subchange_store w) key = Some c →
  ∃ w', Subchanges.delete key w = (Ok tt, w') ∧ store_inv w' ∧ task_store w' = task_store w ∧
    submission_store w' = submission_store w ∧ subchange_store w' = pd_del (subchange_store w) key.
Proof.
  intros [Hw Hm] Hc. unfold Subchanges.delete, store_delete. rewrite (M_run_Ok _ _ _ w w) by done.
  rewrite Hc. set (w1 := set_subchange_store (pd_del (subchange_store w) key) w).
  rewrite (M_run_Ok _ _ _ tt w1) by done. rewrite (M_run_Ok _ _ _ tt w1) by done.
  assert (winv (submission_store w) (subchange_store w) w1) as Hw1 by by eapply winv_frame; [..|exact Hw].
  destruct (wf_change _ _ _ (winv_wf _ _ _ Hw) _ _ Hc) as (_ & _ & [sub Hsub]).
  destruct (on_delete_subchange_ok _ _ w1 key c sub Hw1 Hc Hsub Hsub) as (w' & Hr & (S1 & S2 & S3 & S4) & Hw').
  exists w'. split_and!; try done. split; [by rewrite S3, S4|by rewrite S1].
Qed.

Definition same_scores (w w' : World) : Prop :=
  task_store w' = task_store w ∧ user_store w' = user_store w ∧ submission_store w' = submission_store w ∧
  _scores w' = _scores w ∧ _notified w' = _notified w.

(** Deleting a change whose submission is gone leaves the scores alone. *)
Lemma delete_orphan key c w :
  pd_get (subchange_store w) key = Some c → pd_get (submission_store w) (sc_submission c) = None →
  Subchanges.delete key w = (Ok tt, set_subchange_store (pd_del (subchange_store w) key) w).
Proof.
  intros Hc Hs. unfold Subchanges.delete, store_delete. rewrite (M_run_Ok _ _ _ w w) by done.
  rewrite Hc. do 2 (erewrite M_run_Ok; [|reflexivity]). unfold on_delete_subchange.
  erewrite M_run_Ok; [|reflexivity]. unfold pd_mem. cbn [submission_store set_subchange_store].
  by rewrite Hs, bool_decide_eq_false_2 by (by intros []).
Qed.

(** The cascade deletes exactly the changes of the submission. *)
Lemma enforce_ok key w :
  NoDup (pd_keys (subchange_store w)) →
  (∀ k c, pd_get (subchange_store w) k = Some c →
     pd_get (submission_store w) (sc_submission c) = None ↔ sc_submission c = key) →
  ∃ w', Subchanges.enforce w = (Ok tt, w') ∧ same_scores w w' ∧ NoDup (pd_keys (subchange_store w')) ∧
    ∀ k, pd_get (subchange_store w') k = pd_get (without key (subchange_store w)) k.
Proof.
  intros Hn Hs. unfold Subchanges.enforce. rewrite (M_run_Ok _ _ _ w w) by done.
  set (chs := subchange_store w) in *.
  set (I (pre : list (string * Subchange)) w' := same_scores w w' ∧ NoDup (pd_keys (subchange_store w')) ∧
    ∀ k, pd_get (subchange_store w') k =
         (pd_get chs k ≫= λ c, if decide (k ∈ pre.*1 ∧ sc_submission c = key) then None else Some c)).
  edestruct (for_each_total (λ kv : string * Subchange, w ← get;
    if subchange_consistent w kv.2 then mret tt else Subchanges.delete kv.1) I chs w)
    as (w' & Hr & Hsame & Hn' & Hget).
  - intros pre [k c] post s Hl (Hsame & Hns & Hget).
    pose proof Hsame as (S1 & S2 & S3 & S4 & S5).
    assert (pd_get chs k = Some c) as Hk.
    { apply pd_in_get; [done|]. rewrite Hl. apply elem_of_app. right. left. }
    assert (k ∉ pre.*1) as Hpre.
    { unfold pd_keys in Hn. rewrite Hl, fmap_app in Hn. apply NoDup_app in Hn as (_ & Hd & _).
      intros Hin. apply (Hd k Hin). left. }
    assert (∀ k' : string, k' ∈ (pre ++ [(k, c)]).*1 ↔ k' = k ∨ k' ∈ pre.*1) as Hpk.
    { intros k'. rewrite fmap_app, elem_of_app. cbn. rewrite list_elem_of_singleton. tauto. }
    rewrite (M_run_Ok _ _ _ s s) by done. cbn [fst snd]. unfold subchange_consistent, pd_mem. rewrite S3.
    case_bool_decide as Hcons.
    + exists s. split; [done|]. split_and!; [done|done|]. intros k'. rewrite Hget.
      destruct (pd_get chs k') as [c'|] eqn:Hc'; [|done]. cbn.
      assert ((k' ∈ (pre ++ [(k, c)]).*1 ∧ sc_submission c' = key) ↔ (k' ∈ pre.*1 ∧ sc_submission c' = key))
        as Hiff; [|repeat case_decide; tauto].
      rewrite Hpk. split; [|tauto]. intros [[->|?] Hkey]; [|tauto]. exfalso.
      rewrite Hk in Hc'. injection Hc' as <-. rewrite <- (Hs _ _ Hk) in Hkey. rewrite Hkey in Hcons. by destruct Hcons.
    + apply eq_None_not_Some in Hcons. pose proof (proj1 (Hs _ _ Hk) Hcons) as Hkey.
      rewrite (delete_orphan k c s).
      * eexists. split; [done|]. split_and!; [done|by apply pd_keys_del_NoDup|]. intros k'.
        cbn [subchange_store set_subchange_store]. rewrite pd_get_del, Hget.
        destruct (decide (k = k')) as [<-|Hne].
        -- rewrite Hk. cbn. rewrite decide_True; [done|]. split; [apply Hpk; by left|done].
        -- destruct (pd_get chs k') as [c'|]; [|done]. cbn.
           assert ((k' ∈ (pre ++ [(k, c)]).*1 ∧ sc_submission c' = key) ↔
                   (k' ∈ pre.*1 ∧ sc_submission c' = key)) as Hiff; [|repeat case_decide; tauto].
           rewrite Hpk. split; [|tauto]. by intros [[->|?] ?].
      * rewrite Hget, Hk. cbn. rewrite decide_False; [done|]. by intros [? _].
      * by rewrite S3.
  - split_and!; [done|done|]. intros k. fold chs. destruct (pd_get chs k); [|done]. cbn.
    rewrite decide_False; [done|]. by intros [?%elem_of_nil _].
  - exists w'. split_and!; [done..|]. intros k. rewrite Hget. apply option_eq. intros c.
    rewrite pd_get_without by done. destruct (pd_get chs k) as [c'|] eqn:Hc'; cbn; [|naive_solver].
    assert (k ∈ chs.*1) by (apply pd_get_in; eauto).
    case_decide; split; naive_solver.
Qed.

Lemma delete_submission_ok key sub w :
  store_inv w → pd_get (submission_store w) key = Some sub →
  ∃ w', Submissions.delete key w = (Ok tt, w') ∧ store_inv w' ∧ task_store w' = task_store w ∧
    submission_store w' = pd_del (submission_store w) key.
Proof.
  intros [Hw Hm] Hkey. unfold Submissions.delete, store_delete. rewrite (M_run_Ok _ _ _ w w) by done.
  rewrite Hkey. set (w1 := set_submission_store (pd_del (submission_store w) key) w).
  rewrite (M_run_Ok _ _ _ tt w1) by done. destruct (winv_wf _ _ _ Hw) as [H1 H2 H3 H4].
  destruct (enforce_ok key w1) as (w2 & Hr2 & (S1 & S2 & S3 & S4 & S5) & Hn2 & Hg2).
  { done. }
  { intros k c (_ & _ & [x Hx])%H3. cbn [submission_store set_submission_store w1]. rewrite pd_get_del.
    case_decide; [split; congruence|]. rewrite Hx. split; congruence. }
  rewrite (M_run_Ok _ _ _ _ _ Hr2).
  assert (winv (submission_store w) (subchange_store w) w2) as Hw2
    by exact (winv_frame _ _ w w2 S1 S4 S5 Hw).
  destruct (on_delete_submission_ok _ _ w2 key sub Hw2 Hkey) as (w' & Hr & (T1 & T2 & T3 & T4) & Hw').
  exists w'. assert (submission_store w' = pd_del (submission_store w) key) as Hss by (by rewrite T3, S3).
  split_and!; [done| |by rewrite T1, S1|done]. split; [|by rewrite T1, S1].
  rewrite Hss. eapply winv_ext; [by rewrite T4|intros k; rewrite T4; apply Hg2|done].
Qed.

(** ** Any request *)

Inductive request :=
  | CreateSub (key : string) (item : Submission)
  | UpdateSub (key : string) (item : Submission)
  | MergeSubs (items : pydict string Submission)
  | DeleteSub (key : string)
  | DeleteSubs
  | CreateChange (key : string) (item : Subchange)
  | UpdateChange (key : string) (item : Subchange)
  | MergeChanges (items : pydict string Subchange)
  | DeleteChange (key : string)
  | DeleteChanges.

Definition serve (r : request) : M World unit :=
  match r with
  | CreateSub key item => Submissions.create key item
  | UpdateSub key item => Submissions.update key item
  | MergeSubs items => Submissions.merge_list items
  | DeleteSub key => Submissions.delete key
  | DeleteSubs => Submissions.delete_list
  | CreateChange key item => Subchanges.create key item
  | UpdateChange key item => Subchanges.update key item
  | MergeChanges items => Subchanges.merge_list items
  | DeleteChange key => Subchanges.delete key
  | DeleteChanges => Subchanges.delete_list
  end.

Definition valid_request (w : World) (r : request) : Prop :=
  match r with
  | CreateSub key item | UpdateSub key item => valid_submission w key item
  | MergeSubs items => NoDup (pd_keys items) ∧ ∀ k s, (k, s) ∈ items → valid_submission w k s
  | CreateChange key item | UpdateChange key item => valid_subchange w key item
  | MergeChanges items => NoDup (pd_keys items) ∧ ∀ k c, (k, c) ∈ items → valid_subchange w k c
  | _ => True
  end.

(** The request is refused and nothing changes, or it is done. *)
Definition served (w : World) (o : Prelude.res unit * World) : Prop :=
  o = (Raise InvalidKey, w) ∨ o = (Raise InvalidData, w) ∨
  ∃ w', o = (Ok tt, w') ∧ store_inv w' ∧ task_store w' = task_store w.

Lemma pd_get_fresh_prefix {V} (pre post : list (string * V)) k v (d d' : pydict string V) :
  NoDup (pd_keys (pre ++ (k, v) :: post)) →
  (∀ k', k' ∉ pd_keys pre → pd_get d' k' = pd_get d k') → pd_get d' k = pd_get d k.
Proof.
  unfold pd_keys. rewrite fmap_app. cbn. intros (_ & Hd & _)%NoDup_app Hg. apply Hg.
  intros Hk. apply (Hd k Hk). left.
Qed.

Lemma merge_subs_ok items w :
  store_inv w → valid_request w (MergeSubs items) → served w (Submissions.merge_list items w).
Proof.
  intros Hi [Hn Hv]. unfold Submissions.merge_list, store_merge_list. rewrite (M_run_Ok _ _ _ w w) by done.
  destruct (forallb _ items) eqn:Hall; [|right; by left]. rewrite forallb_forall in Hall.
  right. right.
  destruct (for_each_total (λ kv : string * Submission, put_submission kv.1 kv.2)
    (λ pre w', store_inv w' ∧ task_store w' = task_store w ∧ user_store w' = user_store w ∧
       ∀ k, k ∉ pd_keys pre → pd_get (submission_store w') k = pd_get (submission_store w) k) items w)
    as (w' & Hr & Hi' & Ht & _); [|by split_and!|by exists w'].
  intros pre [k s] post s1 Hl (Hi1 & Ht1 & Hu1 & Hg1). cbn [fst snd].
  assert ((k, s) ∈ items) as Hin by (rewrite Hl; apply elem_of_app; right; left).
  destruct (put_submission_ok k s s1 Hi1) as (w' & Hr & Hi' & Ht & Hu & _ & Hs).
  - unfold submission_consistent. rewrite Ht1, Hu1. by apply (Hall (k, s)), list_elem_of_In.
  - intros old. rewrite (pd_get_fresh_prefix pre post k s (submission_store w) _) by (by rewrite <- ?Hl).
    by apply Hv.
  - exists w'. split_and!; [done|done|congruence|congruence|]. intros k' Hk'. rewrite Hs, pd_get_set.
    unfold pd_keys in *. rewrite fmap_app, not_elem_of_app in Hk'. destruct Hk' as [Hk1 Hk2].
    rewrite decide_False; [by apply Hg1|]. intros <-. apply Hk2. left.
Qed.

Lemma merge_changes_ok items w :
  store_inv w → valid_request w (MergeChanges items) → served w (Subchanges.merge_list items w).
Proof.
  intros Hi [Hn Hv]. unfold Subchanges.merge_list, store_merge_list. rewrite (M_run_Ok _ _ _ w w) by done.
  destruct (forallb _ items) eqn:Hall; [|right; by left]. rewrite forallb_forall in Hall.
  right. right.
  destruct (for_each_total (λ kv : string * Subchange, put_subchange kv.1 kv.2)
    (λ pre w', store_inv w' ∧ task_store w' = task_store w ∧ submission_store w' = submission_store w ∧
       ∀ k, k ∉ pd_keys pre → pd_get (subchange_store w') k = pd_get (subchange_store w) k) items w)
    as (w' & Hr & Hi' & Ht & _); [|by split_and!|by exists w'].
  intros pre [k c] post s1 Hl (Hi1 & Ht1 & Hu1 & Hg1). cbn [fst snd].
  assert ((k, c) ∈ items) as Hin by (rewrite Hl; apply elem_of_app; right; left).
  destruct (Hv k c Hin) as [Hreg Htime].
  destruct (put_subchange_ok k c s1 Hi1) as (w' & Hr & Hi' & Ht & _ & Hu & Hs).
  - unfold subchange_consistent. rewrite Hu1. by apply (Hall (k, c)), list_elem_of_In.
  - split; [done|]. intros old.
    rewrite (pd_get_fresh_prefix pre post k c (subchange_store w) _) by (by rewrite <- ?Hl). by apply Htime.
  - exists w'. split_and!; [done|done|congruence|congruence|]. intros k' Hk'. rewrite Hs, pd_get_set.
    unfold pd_keys in *. rewrite fmap_app, not_elem_of_app in Hk'. destruct Hk' as [Hk1 Hk2].
    rewrite decide_False; [by apply Hg1|]. intros <-. apply Hk2. left.
Qed.

Lemma key_in_rest {V} (d : pydict string V) pre k post (d' : pydict string V) :
  NoDup (pd_keys d) → pd_keys d = pre ++ k :: post →
  (∀ k', k' ∉ pre → pd_get d' k' = pd_get d k') → ∃ v, pd_get d' k = Some v.
Proof.
  intros Hn Hl Hg. assert (k ∈ pd_keys d) as [v Hv]%pd_get_in by (rewrite Hl; apply elem_of_app; right; left).
  exists v. rewrite Hg; [done|]. rewrite Hl in Hn. apply NoDup_app in Hn as (_ & Hd & _).
  intros Hk. apply (Hd k Hk). left.
Qed.

Lemma delete_subs_ok w :
  store_inv w → ∃ w', Submissions.delete_list w = (Ok tt, w') ∧ store_inv w' ∧ task_store w' = task_store w.
Proof.
  intros Hi. unfold Submissions.delete_list, store_delete_list. rewrite (M_run_Ok _ _ _ w w) by done.
  destruct (for_each_total Submissions.delete
    (λ pre w', store_inv w' ∧ task_store w' = task_store w ∧
       ∀ k, k ∉ pre → pd_get (submission_store w') k = pd_get (submission_store w) k)
    (pd_keys (submission_store w)) w) as (w' & Hr & ? & ? & _); [|by split_and!|by exists w'].
  intros pre k post s Hl (Hi1 & Ht1 & Hg1).
  destruct (key_in_rest _ _ _ _ _ (wf_subs _ _ _ (winv_wf _ _ _ (si_winv _ Hi))) Hl Hg1) as [v Hv].
  destruct (delete_submission_ok k v s Hi1 Hv) as (w' & Hr & Hi' & Ht & Hs).
  exists w'. split_and!; [done|done|congruence|]. intros k'. rewrite not_elem_of_app, Hs, pd_get_del.
  intros [Hk1 Hk2]. rewrite decide_False; [by apply Hg1|]. intros <-. apply Hk2. left.
Qed.

Lemma delete_changes_ok w :
  store_inv w → ∃ w', Subchanges.delete_list w = (Ok tt, w') ∧ store_inv w' ∧ task_store w' = task_store w.
Proof.
  intros Hi. unfold Subchanges.delete_list, store_delete_list. rewrite (M_run_Ok _ _ _ w w) by done.
  destruct (for_each_total Subchanges.delete
    (λ pre w', store_inv w' ∧ task_store w' = task_store w ∧
       ∀ k, k ∉ pre → pd_get (subchange_store w') k = pd_get (subchange_store w) k)
    (pd_keys (subchange_store w)) w) as (w' & Hr & ? & ? & _); [|by split_and!|by exists w'].
  intros pre k post s Hl (Hi1 & Ht1 & Hg1).
  destruct (key_in_rest _ _ _ _ _ (wf_chs _ _ _ (winv_wf _ _ _ (si_winv _ Hi))) Hl Hg1) as [v Hv].
  destruct (delete_subchange_ok k v s Hi1 Hv) as (w' & Hr & Hi' & Ht & _ & Hs).
  exists w'. split_and!; [done|done|congruence|]. intros k'. rewrite not_elem_of_app, Hs, pd_get_del.
  intros [Hk1 Hk2]. rewrite decide_False; [by apply Hg1|]. intros <-. apply Hk2. left.
Qed.

Lemma serve_ok r w : store_inv w → valid_request w r → served w (serve r w).
Proof.
  intros Hi Hv. unfold served. destruct r as [k s|k s|items|k| |k c|k c|items|k|]; cbn [serve].
  - unfold Submissions.create. rewrite (store_create_eq _ _ _ _ _ on_update_submission).
    case_match; [by left|]. case_match; [|right; by left]. right. right.
    destruct (put_submission_ok k s w Hi) as (w' & ? & ? & ? & _); [done|done|by exists w'].
  - unfold Submissions.update. rewrite (store_update_eq _ _ _ _ on_create_submission).
    case_match; [by left|]. case_match; [|right; by left]. right. right.
    destruct (put_submission_ok k s w Hi) as (w' & ? & ? & ? & _); [done|done|by exists w'].
  - by apply merge_subs_ok.
  - destruct (pd_get (submission_store w) k) as [s|] eqn:Hk.
    + right. right. destruct (delete_submission_ok k s w Hi Hk) as (w' & ? & ? & ? & _). by exists w'.
    + left. unfold Submissions.delete, store_delete. rewrite (M_run_Ok _ _ _ w w) by done. by rewrite Hk.
  - right. right. by apply delete_subs_ok.
  - unfold Subchanges.create. rewrite (store_create_eq _ _ _ _ _ on_update_subchange).
    case_match; [by left|]. case_match; [|right; by left]. right. right.
    destruct (put_subchange_ok k c w Hi) as (w' & ? & ? & ? & _); [done|done|by exists w'].
  - unfold Subchanges.update. rewrite (store_update_eq _ _ _ _ on_create_subchange).
    case_match; [by left|]. case_match; [|right; by left]. right. right.
    destruct (put_subchange_ok k c w Hi) as (w' & ? & ? & ? & _); [done|done|by exists w'].
  - by apply merge_changes_ok.
  - destruct (pd_get (subchange_store w) k) as [c|] eqn:Hk.
    + right. right. destruct (delete_subchange_ok k c w Hi Hk) as (w' & ? & ? & ? & _). by exists w'.
    + left. unfold Subchanges.delete, store_delete. rewrite (M_run_Ok _ _ _ w w) by done. by rewrite Hk.
  - right. right. by apply delete_changes_ok.
Qed.

(** A server whose tasks and users are given and that holds no submission. *)
Definition empty_world (tasks : gmap string string) (users : gset string) : World :=
  mk_world tasks users [] [] [] [].

Inductive serve_step (w w' : World) : Prop :=
  | serve_step_intro r res : valid_request w r → serve r w = (res, w') → serve_step w w'.

Definition modes_ok (tasks : gmap string string) : Prop := map_Forall (λ _ m, m ∈ score_modes) tasks.

Lemma empty_inv tasks users : modes_ok tasks → store_inv (empty_world tasks users).
Proof.
  intros Hm. split; [|intros t m; apply Hm]. split; [split; cbn; try constructor; done| |done].
  intros u t. done.
Qed.

Lemma reachable_store_inv tasks users w :
  modes_ok tasks → rtc serve_step (empty_world tasks users) w → store_inv w ∧ task_store w = tasks.
Proof.
  intros Hm Hr. assert (∀ a, rtc serve_step a w → store_inv a → store_inv w ∧ task_store w = task_store a) as H.
  { induction 1 as [a|a b c [r res Hv Hs] _ IH]; intros Hi; [done|].
    destruct (serve_ok r a Hi Hv) as [Ho|[Ho|(w' & Ho & Hi' & Ht)]]; rewrite Hs in Ho; injection Ho as -> ->;
      [by apply IH..|]. rewrite <- Ht. by apply IH. }
  by destruct (H _ Hr (empty_inv tasks users Hm)).
Qed.

(** C33. A valid request to the ranking server is either refused with
    [InvalidKey] or [InvalidData], and then nothing has changed, or served:
    none of the callbacks of the [ScoringStore] raises, whatever the order of
    the requests. And in every state so reached the callbacks were last told,
    for every user and task, the current score. *)
Theorem requests_served (tasks : gmap string string) (users : gset string) (w : World) :
  modes_ok tasks → rtc serve_step (empty_world tasks users) w →
  (∀ u t, told (_notified w) u t = current_score w u t) ∧
  ∀ r, valid_request w r →
    serve r w = (Raise InvalidKey, w) ∨ serve r w = (Raise InvalidData, w) ∨ (serve r w).1 = Ok tt.
Proof.
  intros Hm Hr. destruct (reachable_store_inv _ _ _ Hm Hr) as [Hi _]. split; [apply (si_winv _ Hi)|].
  intros r Hv. destruct (serve_ok r w Hi Hv) as [?|[?|(w' & -> & _)]]; auto.
Qed.

(** ** Restarting the server *)

(** The server after it has loaded its stores from disk. *)
Definition restarted (w : World) : World :=
  mk_world (task_store w) (user_store w) (submission_store w) (subchange_store w) [] [].

Lemma winv_nil tasks users ss cs : winv [] [] (mk_world tasks users ss cs [] []).
Proof. split; [split; cbn; try constructor; done|done|done]. Qed.

Lemma load_submissions w :
  store_inv w →
  ∃ w', for_each (λ kv, on_create_submission kv.1 kv.2) (submission_store w) (restarted w) = (Ok tt, w') ∧
    same_stores (restarted w) w' ∧ winv (submission_store w) [] w'.
Proof.
  intros [Hw Hm]. destruct (winv_wf _ _ _ Hw) as [H1 H2 H3 H4].
  destruct (for_each_total (λ kv : string * Submission, on_create_submission kv.1 kv.2)
    (λ pre w', same_stores (restarted w) w' ∧ winv pre [] w') (submission_store w) (restarted w))
    as (w' & Hr & ? & ?); [|split; [done|apply winv_nil]|by exists w'].
  intros pre [k s] post s1 Hl [Hst Hpre]. cbn [fst snd].
  assert (k ∉ pd_keys pre) as Hk.
  { rewrite Hl in H1. unfold pd_keys in *. rewrite fmap_app in H1. apply NoDup_app in H1 as (_ & Hd & _).
    intros Hk. apply (Hd k Hk). left. }
  destruct (H4 k s) as (m & Hmode & Hknown).
  { apply pd_in_get; [done|]. rewrite Hl. apply elem_of_app. right. left. }
  destruct Hst as (S1 & S2 & S3 & S4).
  destruct (on_create_submission_ok pre [] s1 k s m Hpre) as (w' & Hr & (T1 & T2 & T3 & T4) & Hw').
  - by apply pd_get_None.
  - by rewrite S1.
  - done.
  - exists w'. split_and!; [done|unfold same_stores; split_and!; congruence|].
    by rewrite pd_set_fresh in Hw'.
Qed.

Lemma load_subchanges w w1 :
  store_inv w → same_stores (restarted w) w1 → winv (submission_store w) [] w1 →
  ∃ w', for_each (λ kv, on_create_subchange kv.1 kv.2) (sorted_items (subchange_store w)) w1 = (Ok tt, w') ∧
    winv (submission_store w) (sorted_items (subchange_store w)) w' ∧ task_store w' = task_store w.
Proof.
  intros [Hw Hm] Hst Hw1. destruct (winv_wf _ _ _ Hw) as [H1 H2 H3 H4].
  assert (sorted_items (subchange_store w) ≡ₚ subchange_store w) as Hp by apply merge_sort_Permutation.
  assert (NoDup (pd_keys (sorted_items (subchange_store w)))) as Hn by (unfold pd_keys; by rewrite Hp).
  destruct (for_each_total (λ kv : string * Subchange, on_create_subchange kv.1 kv.2)
    (λ pre w', same_stores (restarted w) w' ∧ winv (submission_store w) pre w')
    (sorted_items (subchange_store w)) w1)
    as (w' & Hr & (S1 & _) & ?); [|by split|by exists w'].
  intros pre [k c] post s1 Hl [(S1 & S2 & S3 & S4) Hpre]. cbn [fst snd].
  assert (k ∉ pd_keys pre) as Hk.
  { rewrite Hl in Hn. unfold pd_keys in *. rewrite fmap_app in Hn. apply NoDup_app in Hn as (_ & Hd & _).
    intros Hk. apply (Hd k Hk). left. }
  destruct (H3 k c) as (Hkey & Hreg & [sub Hsub]).
  { apply pd_in_get; [done|]. rewrite <- Hp, Hl. apply elem_of_app. right. left. }
  destruct (on_create_subchange_ok _ _ s1 k c sub Hpre Hkey Hreg Hsub) as (w' & Hr & (T1 & T2 & T3 & T4) & Hw').
  - by rewrite S3.
  - by apply pd_get_None.
  - exists w'. split_and!; [done|unfold same_stores; split_and!; congruence|].
    by rewrite pd_set_fresh in Hw'.
Qed.

(** The scores are a function of the entities. *)
Lemma score_ok_unique modes subs chs u t s1 s2 :
  score_ok modes subs chs u t s1 → score_ok modes subs chs u t s2 → _history s1 = _history s2.
Proof.
  intros (Hi1 & Hm1 & _ & Hs1 & Hc1) (Hi2 & Hm2 & _ & Hs2 & Hc2). apply history_unique.
  - done.
  - done.
  - congruence.
  - assert (∀ st, score_inv st → NoDup (pd_keys (prod_map id default_sub <$> _submissions st))) as Hn.
    { intros st Hi. unfold pd_keys. rewrite <- list_fmap_compose. apply Hi. }
    apply pd_Permutation; [by apply Hn..|]. intros k. rewrite !pd_get_fmap. etransitivity; [apply Hs1|].
    symmetry. apply Hs2.
  - apply NoDup_Permutation; [by eapply NoDup_fmap_1, inv_keys..|]. intros c. by rewrite Hc1, Hc2.
Qed.

(** A tracked Score has a submission. *)
Lemma score_ok_sub modes subs chs u t s :
  score_ok modes subs chs u t s → ∃ k x, sub_of subs u t k = Some x.
Proof.
  intros (_ & _ & Hne & Hs & _). destruct (_submissions s) as [|[k x] l] eqn:Hk; [done|].
  specialize (Hs k). unfold sub_at in Hs. rewrite Hk in Hs. cbn in Hs. rewrite decide_True in Hs by done.
  exists k. destruct (sub_of subs u t k) as [y|]; [by exists y|done].
Qed.

(** In every reachable state, a server that restarts from the contents of
    the stores ([init_store]) loads them without an exception and then has,
    for every user and task, the same history of scores. *)
Theorem restart_same_history (tasks : gmap string string) (users : gset string) (w : World) :
  modes_ok tasks → rtc serve_step (empty_world tasks users) w →
  ∃ w', init_store (restarted w) = (Ok tt, w') ∧
    ∀ u t, _history <$> score_at (_scores w') u t = _history <$> score_at (_scores w) u t.
Proof.
  intros Hm Hr. destruct (reachable_store_inv _ _ _ Hm Hr) as [Hi _].
  destruct (load_submissions w Hi) as (w1 & Hr1 & Hst1 & Hw1).
  destruct (load_subchanges w w1 Hi Hst1 Hw1) as (w' & Hr' & Hw' & Ht').
  exists w'. split.
  - unfold init_store. rewrite (M_run_Ok _ _ _ (restarted w) (restarted w)) by done.
    by rewrite (M_run_Ok _ _ _ _ _ Hr1).
  - assert (sorted_items (subchange_store w) ≡ₚ subchange_store w) as Hp by apply merge_sort_Permutation.
    pose proof (wf_chs _ _ _ (winv_wf _ _ _ (si_winv _ Hi))) as Hn.
    assert (winv (submission_store w) (subchange_store w) w') as Hw2.
    { eapply winv_ext; [done| |exact Hw']. intros k. symmetry. apply pd_get_Permutation; [|done].
      unfold pd_keys. by rewrite Hp. }
    intros u t. pose proof (winv_tracks _ _ _ Hw2 u t) as H1.
    pose proof (winv_tracks _ _ _ (si_winv _ Hi) u t) as H2. rewrite Ht' in H1.
    destruct (score_at (_scores w') u t) as [s1|], (score_at (_scores w) u t) as [s2|]; cbn in *.
    + f_equal. by eapply score_ok_unique.
    + by destruct (score_ok_sub _ _ _ _ _ _ H1) as (k & x & Hx); rewrite H2 in Hx.
    + by destruct (score_ok_sub _ _ _ _ _ _ H2) as (k & x & Hx); rewrite H1 in Hx.
    + done.
Qed.

(** ** Dictionaries of scores

    The keys of the dictionaries of a [ScoringStore] are different, whatever
    is done to it. *)

Definition scores_wf (w : World) : Prop :=
  NoDup (pd_keys (_scores w)) ∧ ∀ u m, pd_get (_scores w) u = Some m → NoDup (pd_keys m).

Lemma scores_wf_set w u m :
  scores_wf w → NoDup (pd_keys m) → scores_wf (set_scores (pd_set (_scores w) u m) w).
Proof.
  intros [H1 H2] Hm. split; [by apply pd_keys_set_NoDup|]. intros u' m'. cbn. rewrite pd_get_set.
  case_decide; [by intros [= <-]|apply H2].
Qed.

Lemma scores_wf_del w u : scores_wf w → scores_wf (set_scores (pd_del (_scores w) u) w).
Proof.
  intros [H1 H2]. split; [by apply pd_keys_del_NoDup|]. intros u' m' [_ Hm]%pd_get_del_Some. by eapply H2.
Qed.

Lemma scores_wf_default w u : scores_wf w → NoDup (pd_keys (default [] (pd_get (_scores w) u))).
Proof. intros [_ H2]. destruct (pd_get (_scores w) u) as [m|] eqn:Hm; [by eapply H2|constructor]. Qed.

Lemma keeps_on_score u t op : keeps scores_wf (on_score u t op).
Proof.
  unfold on_score, score_obj, notify_callbacks. keeps_tac; try done.
  apply scores_wf_set; [done|]. by apply pd_keys_set_NoDup, scores_wf_default.
Qed.
#[local] Hint Resolve keeps_on_score : keeps.

Lemma keeps_create_submission k s : keeps scores_wf (on_create_submission k s).
Proof.
  unfold on_create_submission. keeps_tac.
  - by apply scores_wf_set; [|constructor].
  - apply scores_wf_set; [done|]. by apply pd_keys_set_NoDup, scores_wf_default.
Qed.

Lemma keeps_delete_submission k s : keeps scores_wf (on_delete_submission k s).
Proof.
  unfold on_delete_submission. keeps_tac.
  - apply scores_wf_set; [done|]. by apply pd_keys_del_NoDup, scores_wf_default.
  - by apply scores_wf_del.
Qed.
#[local] Hint Resolve keeps_create_submission keeps_delete_submission : keeps.

Lemma keeps_update_submission k old s : keeps scores_wf (on_update_submission k old s).
Proof. unfold on_update_submission. keeps_tac. Qed.

Lemma keeps_create_subchange k c : keeps scores_wf (on_create_subchange k c).
Proof. unfold on_create_subchange, stored_submission. keeps_tac. Qed.

Lemma keeps_delete_subchange k c : keeps scores_wf (on_delete_subchange k c).
Proof. unfold on_delete_subchange, stored_submission. keeps_tac. Qed.
#[local] Hint Resolve keeps_update_submission keeps_create_subchange keeps_delete_subchange : keeps.

Lemma keeps_update_subchange k old c : keeps scores_wf (on_update_subchange k old c).
Proof. unfold on_update_subchange, stored_submission. keeps_tac. Qed.
#[local] Hint Resolve keeps_update_subchange : keeps.

Lemma keeps_subchanges_delete k : keeps scores_wf (Subchanges.delete k).
Proof. unfold Subchanges.delete, store_delete. keeps_tac. done. Qed.
#[local] Hint Resolve keeps_subchanges_delete : keeps.

Lemma keeps_enforce : keeps scores_wf Subchanges.enforce.
Proof. unfold Subchanges.enforce. keeps_tac. Qed.
#[local] Hint Resolve keeps_enforce : keeps.

Lemma keeps_submissions_delete k : keeps scores_wf (Submissions.delete k).
Proof. unfold Submissions.delete, store_delete. keeps_tac. done. Qed.
#[local] Hint Resolve keeps_submissions_delete : keeps.

Lemma keeps_serve r : keeps scores_wf (serve r).
Proof.
  destruct r; cbn [serve];
    unfold Submissions.create, Submissions.update, Submissions.merge_list, Submissions.delete_list,
      Subchanges.create, Subchanges.update, Subchanges.merge_list, Subchanges.delete_list,
      store_create, store_update, store_merge_list, store_merge, store_delete_list;
    keeps_tac; done.
Qed.

Lemma reachable_scores_wf tasks users w : rtc serve_step (empty_world tasks users) w → scores_wf w.
Proof.
  intros Hr. assert (∀ a, rtc serve_step a w → scores_wf a → scores_wf w) as H.
  { clear Hr. induction 1 as [a|a b c [r res _ Hs] _ IH]; intros Hi; [done|]. apply IH.
    pose proof (keeps_serve r a Hi) as Hk. by rewrite Hs in Hk. }
  apply (H _ Hr). split; [constructor|done].
Qed.

(** ** The global history merges the histories *)

Definition item : Type := string * string * Z * float.

Definition items_of (u t : string) (l : list (Z * float)) : list item := (λ h, (u, t, h.1, h.2)) <$> l.
Definition entry_items (e : entry) : list item := items_of (e_user e) (e_task e) (e_change e :: e_rest e).
Definition queue_items (q : list entry) : list item := q ≫= entry_items.

(** All the changes of score of a dictionary of scores. *)
Definition all_items (d : pydict string (pydict string Score)) : list item :=
  d ≫= λ um, um.2 ≫= λ ts, items_of um.1 ts.1 (_history ts.2).

Definition item_time (x : item) : Z := x.1.2.
Definition item_of (u t : string) (x : item) : Prop := x.1.1 = (u, t).

#[export] Instance item_of_dec u t x : Decision (item_of u t x).
Proof. unfold item_of. apply _. Defined.

Definition entry_key (e : entry) : string * string := (e_user e, e_task e).
Definition entry_sorted (e : entry) : Prop := StronglySorted Z.le (e_change e :: e_rest e).*1.

Lemma entry_ltb_time a b :
  if entry_ltb a b then ((e_change a).1 <= (e_change b).1)%Z else ((e_change b).1 <= (e_change a).1)%Z.
Proof.
  unfold entry_ltb. destruct (e_change a) as [ta sa], (e_change b) as [tb sb]. cbn.
  destruct (decide (ta ≠ tb)) as [Hne|Heq]; [case_bool_decide; lia|]. repeat case_match; lia.
Qed.

(** [heappop] takes an entry whose time is the least. *)
Lemma heappop_spec e q m q' :
  heappop e q = (m, q') → e :: q ≡ₚ m :: q' ∧ Forall (λ x, (e_change m).1 <= (e_change x).1)%Z q'.
Proof.
  revert e m q'. induction q as [|e' q IH]; intros e m q'; cbn; [by intros [= <- <-]|].
  pose proof (entry_ltb_time e' e) as Ht. destruct (entry_ltb e' e).
  - destruct (heappop e' q) as [m1 q1] eqn:Hp. intros [= <- <-]. destruct (IH _ _ _ Hp) as [Hperm Hall].
    split; [by rewrite Hperm, Permutation_swap|]. constructor; [|done].
    assert (e' ∈ m1 :: q1) as [->|Hin]%elem_of_cons by (rewrite <- Hperm; left); [done|].
    rewrite Forall_forall in Hall. specialize (Hall e' Hin). lia.
  - destruct (heappop e q) as [m1 q1] eqn:Hp. intros [= <- <-]. destruct (IH _ _ _ Hp) as [Hperm Hall].
    split; [by rewrite Permutation_swap, Hperm, Permutation_swap|]. constructor; [|done].
    assert (e ∈ m1 :: q1) as [->|Hin]%elem_of_cons by (rewrite <- Hperm; left); [done|].
    rewrite Forall_forall in Hall. specialize (Hall e Hin). lia.
Qed.

#[export] Instance queue_items_proper : Proper ((≡ₚ) ==> (≡ₚ)) queue_items.
Proof. intros q q' Hp. unfold queue_items. by rewrite Hp. Qed.

Lemma filter_entry_items u t e :
  filter (item_of u t) (entry_items e) = if decide (entry_key e = (u, t)) then entry_items e else [].
Proof.
  unfold entry_items, items_of, entry_key. induction (e_change e :: e_rest e) as [|h l IH]; [by case_decide|].
  rewrite fmap_cons, filter_cons, IH. unfold item_of at 1. cbn. by repeat case_decide.
Qed.

Lemma queue_items_cons e q : queue_items (e :: q) = entry_items e ++ queue_items q.
Proof. done. Qed.

(** The changes of one user on one task do not depend on the order of the
    queue. *)
Lemma filter_queue_perm u t q q' :
  NoDup (entry_key <$> q) → q ≡ₚ q' →
  filter (item_of u t) (queue_items q) = filter (item_of u t) (queue_items q').
Proof.
  intros Hn Hp. induction Hp as [|e q q' Hp IH|e e' q|q1 q2 q3 Hp1 IH1 Hp2 IH2].
  - done.
  - csimpl in Hn. apply NoDup_cons in Hn as [_ Hn]. by rewrite !queue_items_cons, !filter_app, IH.
  - csimpl in Hn. apply NoDup_cons in Hn as [Hn _]. apply not_elem_of_cons in Hn as [Hn _].
    rewrite !queue_items_cons, !filter_app, !app_assoc, !filter_entry_items. f_equal.
    repeat case_decide; rewrite ?app_nil_r; congruence || done.
  - rewrite IH1 by done. apply IH2. by rewrite <- Hp1.
Qed.

(** The queue after an iteration. *)
Definition requeue (m : entry) (q : list entry) : list entry :=
  match e_rest m with
  | [] => q
  | h :: rest => q ++ [mk_entry h (e_user m) (e_task m) rest]
  end.

Definition head_item (m : entry) : item := (e_user m, e_task m, (e_change m).1, (e_change m).2).

Lemma entry_items_head m :
  entry_items m = head_item m ::
    match e_rest m with
    | [] => []
    | h :: rest => entry_items (mk_entry h (e_user m) (e_task m) rest)
    end.
Proof. unfold entry_items, items_of. rewrite fmap_cons. by destruct (e_rest m). Qed.

Lemma requeue_items m q : queue_items (m :: q) ≡ₚ head_item m :: queue_items (requeue m q).
Proof.
  rewrite queue_items_cons, entry_items_head. unfold requeue. destruct (e_rest m) as [|h rest]; [done|].
  cbn [app]. constructor. by rewrite <- queue_items_cons, (comm (++) q).
Qed.

Lemma requeue_filter u t m q :
  NoDup (entry_key <$> m :: q) →
  filter (item_of u t) (queue_items (m :: q)) =
  filter (item_of u t) (head_item m :: queue_items (requeue m q)).
Proof.
  intros Hn. rewrite queue_items_cons, entry_items_head. unfold requeue.
  destruct (e_rest m) as [|h rest]; [done|]. cbn [app]. rewrite !filter_cons.
  set (m' := mk_entry h (e_user m) (e_task m) rest). rewrite <- queue_items_cons.
  rewrite (filter_queue_perm u t (m' :: q) (q ++ [m'])); [done|exact Hn|]. by rewrite (comm (++) q).
Qed.

Lemma history_loop_spec fuel q :
  NoDup (entry_key <$> q) → Forall entry_sorted q → length (queue_items q) ≤ fuel →
  ∃ l, history_loop fuel q = Ok l ∧ l ≡ₚ queue_items q ∧ StronglySorted Z.le (item_time <$> l) ∧
    ∀ u t, filter (item_of u t) l = filter (item_of u t) (queue_items q).
Proof.
  revert q. induction fuel as [|fuel IH]; intros [|e q] Hn Hs Hf; cbn [history_loop];
    try (exists []; split_and!; [done|done|constructor|done]); [cbn in Hf; lia|].
  destruct (heappop e q) as [m q'] eqn:Hp. destruct (heappop_spec _ _ _ _ Hp) as [Hperm Hmin].
  fold (requeue m q').
  assert (NoDup (entry_key <$> m :: q')) as Hn' by by rewrite <- Hperm.
  assert (Forall entry_sorted (m :: q')) as Hs' by by rewrite <- Hperm.
  apply Forall_cons in Hs' as [Hsm Hsq].
  assert (Forall (λ e, entry_sorted e ∧ (e_change m).1 <= (e_change e).1)%Z (requeue m q')) as Hreq.
  { unfold requeue. assert (Forall (λ e, entry_sorted e ∧ (e_change m).1 <= (e_change e).1)%Z q')
      by (apply Forall_and; done).
    destruct (e_rest m) as [|h rest] eqn:Hr; [done|]. apply Forall_app. split; [done|].
    unfold entry_sorted in Hsm. rewrite Hr in Hsm. csimpl in Hsm.
    apply StronglySorted_cons in Hsm as [Hle Hsm]. apply Forall_cons in Hle as [Hle _].
    apply Forall_singleton. by split. }
  apply Forall_and in Hreq as [Hrs Hrle].
  destruct (IH (requeue m q')) as (l & Hl & Hlp & Hls & Hlf).
  - unfold requeue. csimpl in Hn'. destruct (e_rest m); [by apply NoDup_cons in Hn' as [_ ?]|].
    rewrite fmap_app, (comm (++)). done.
  - done.
  - rewrite Hperm, requeue_items in Hf. cbn in Hf. lia.
  - fold (requeue m q') in *. rewrite Hl. exists (head_item m :: l). split_and!.
    + done.
    + by rewrite Hlp, <- requeue_items, Hperm.
    + csimpl. constructor; [done|]. apply Forall_fmap, Forall_forall. intros x Hx. cbn.
      rewrite Hlp in Hx. apply list_elem_of_bind in Hx as (e2 & Hx & He2).
      rewrite Forall_forall in Hrle, Hrs. specialize (Hrle e2 He2). specialize (Hrs e2 He2).
      unfold entry_items, items_of in Hx. apply list_elem_of_fmap in Hx as (h & -> & Hh). cbn.
      unfold entry_sorted in Hrs. csimpl in Hrs. apply StronglySorted_cons in Hrs as [Hall _].
      apply elem_of_cons in Hh as [->|Hh]; [done|]. rewrite Forall_forall in Hall.
      specialize (Hall h.1 (list_elem_of_fmap_2 _ _ _ Hh)). lia.
    + intros u t. rewrite (filter_queue_perm u t _ _ Hn Hperm), requeue_filter by done.
      rewrite !filter_cons, Hlf. done.
Qed.

(** The history of one user on one task. *)
Definition history_at (d : pydict string (pydict string Score)) (u t : string) : list (Z * float) :=
  match score_at d u t with Some s => _history s | None => [] end.

(** The histories of one user. *)
Definition user_items (u : string) (m : pydict string Score) : list item :=
  m ≫= λ ts, items_of u ts.1 (_history ts.2).

Lemma filter_items_of u t u' t' l :
  filter (item_of u t) (items_of u' t' l) = if decide ((u', t') = (u, t)) then items_of u t l else [].
Proof.
  unfold items_of. induction l as [|h l IH]; [by case_decide|].
  rewrite fmap_cons, filter_cons, IH. unfold item_of at 1. cbn. repeat case_decide; try done. by simplify_eq.
Qed.

Lemma filter_user_items u t u' m :
  NoDup (pd_keys m) →
  filter (item_of u t) (user_items u' m) =
  if decide (u' = u) then items_of u t (match pd_get m t with Some s => _history s | None => [] end) else [].
Proof.
  unfold pd_keys. induction m as [|[t' s] m IH]; intros Hn; [by case_decide|].
  csimpl in Hn. apply NoDup_cons in Hn as [Ht' Hn].
  change (user_items u' ((t', s) :: m)) with (items_of u' t' (_history s) ++ user_items u' m).
  rewrite filter_app, filter_items_of, IH by done. cbn [pd_get].
  destruct (decide (u' = u)) as [->|Hu]; [|by rewrite decide_False by congruence].
  destruct (decide (t = t')) as [->|Ht].
  - rewrite decide_True by done. rewrite (proj2 (pd_get_None m t')) by done. apply app_nil_r.
  - by rewrite decide_False by congruence.
Qed.

Lemma filter_all_items u t d :
  NoDup (pd_keys d) → (∀ u m, pd_get d u = Some m → NoDup (pd_keys m)) →
  filter (item_of u t) (all_items d) = items_of u t (history_at d u t).
Proof.
  unfold history_at, score_at. induction d as [|[u' m] d IH]; intros Hn Hm; [done|].
  unfold pd_keys in Hn. csimpl in Hn. apply NoDup_cons in Hn as [Hu' Hn].
  assert (NoDup (pd_keys m)) as Hnm by (apply (Hm u'); cbn; by rewrite decide_True).
  assert (∀ u2 m2, pd_get d u2 = Some m2 → NoDup (pd_keys m2)) as Hd.
  { intros u2 m2 Hg. apply (Hm u2). cbn. rewrite decide_False; [done|]. intros ->.
    apply Hu', pd_get_in. by exists m2. }
  change (all_items ((u', m) :: d)) with (user_items u' m ++ all_items d).
  rewrite filter_app, filter_user_items, IH by done. cbn [pd_get].
  destruct (decide (u' = u)) as [->|Hu].
  - rewrite decide_True by done. rewrite (proj2 (pd_get_None d u)) by done. cbn. apply app_nil_r.
  - by rewrite decide_False by congruence.
Qed.

Definition user_queue (u : string) (m : pydict string Score) : list entry :=
  m ≫= λ ts, match _history ts.2 with [] => [] | h :: rest => [mk_entry h u ts.1 rest] end.

Lemma user_queue_items u m : queue_items (user_queue u m) = user_items u m.
Proof.
  induction m as [|[t s] m IH]; [done|].
  change (user_queue u ((t, s) :: m)) with
    ((match _history s with [] => [] | h :: rest => [mk_entry h u t rest] end) ++ user_queue u m).
  change (user_items u ((t, s) :: m)) with (items_of u t (_history s) ++ user_items u m).
  unfold queue_items in *. rewrite bind_app, IH. f_equal. destruct (_history s); [done|]. apply app_nil_r.
Qed.

Lemma initial_queue_items d : queue_items (initial_queue d) = all_items d.
Proof.
  induction d as [|[u m] d IH]; [done|].
  change (initial_queue ((u, m) :: d)) with (user_queue u m ++ initial_queue d).
  change (all_items ((u, m) :: d)) with (user_items u m ++ all_items d).
  unfold queue_items in *. rewrite bind_app, IH. f_equal. apply user_queue_items.
Qed.

Lemma user_queue_elem u m e :
  e ∈ user_queue u m → e_user e = u ∧ ∃ s, (e_task e, s) ∈ m ∧ _history s = e_change e :: e_rest e.
Proof.
  intros ([t s] & He & Hin)%list_elem_of_bind. cbn in He. destruct (_history s) as [|h rest] eqn:Hs.
  - by apply elem_of_nil in He.
  - apply list_elem_of_singleton in He as ->. split; [done|]. by exists s.
Qed.

Lemma initial_queue_elem d e :
  e ∈ initial_queue d →
  ∃ m s, (e_user e, m) ∈ d ∧ (e_task e, s) ∈ m ∧ _history s = e_change e :: e_rest e.
Proof.
  intros ([u m] & He & Hin)%list_elem_of_bind.
  apply (user_queue_elem u m) in He as (<- & s & Hs & Hh). by exists m, s.
Qed.

Lemma user_queue_NoDup u m : NoDup (pd_keys m) → NoDup (entry_key <$> user_queue u m).
Proof.
  unfold pd_keys. induction m as [|[t s] m IH]; [constructor|]. csimpl. intros [Ht Hn]%NoDup_cons.
  change (user_queue u ((t, s) :: m)) with
    ((match _history s with [] => [] | h :: rest => [mk_entry h u t rest] end) ++ user_queue u m).
  destruct (_history s) as [|h rest]; [by apply IH|]. csimpl. constructor; [|by apply IH].
  intros (e & Hk & (_ & s' & Hs' & _)%user_queue_elem)%list_elem_of_fmap. unfold entry_key in Hk. cbn in Hk.
  injection Hk as _ ->. apply Ht, list_elem_of_fmap. by eexists (_, _).
Qed.

Lemma initial_queue_NoDup d :
  NoDup (pd_keys d) → (∀ u m, pd_get d u = Some m → NoDup (pd_keys m)) →
  NoDup (entry_key <$> initial_queue d).
Proof.
  induction d as [|[u m] d IH]; [constructor|]. unfold pd_keys. csimpl. intros [Hu Hn]%NoDup_cons Hm.
  change (initial_queue ((u, m) :: d)) with (user_queue u m ++ initial_queue d).
  rewrite fmap_app. apply NoDup_app. split_and!.
  - apply user_queue_NoDup, (Hm u). cbn. by rewrite decide_True.
  - intros k (e & -> & [He _]%user_queue_elem)%list_elem_of_fmap
      (e' & Hk & (m' & s' & Hin & _)%initial_queue_elem)%list_elem_of_fmap.
    unfold entry_key in Hk. injection Hk as Hk _. apply Hu, list_elem_of_fmap. exists (e_user e', m').
    split; [cbn; congruence|done].
  - apply IH; [done|]. intros u2 m2 Hg. apply (Hm u2). cbn. rewrite decide_False; [done|]. intros ->.
    apply Hu, (pd_get_in d). by exists m2.
Qed.

Lemma all_items_length d :
  length (all_items d) = sum_list_with (λ um, sum_list_with (λ ts, length (_history ts.2)) um.2) d.
Proof.
  induction d as [|[u m] d IH]; [done|].
  change (all_items ((u, m) :: d)) with (user_items u m ++ all_items d). rewrite length_app, IH. cbn. f_equal.
  clear. induction m as [|[t s] m IH]; [done|].
  change (user_items u ((t, s) :: m)) with (items_of u t (_history s) ++ user_items u m).
  rewrite length_app, IH. cbn. f_equal. unfold items_of. by rewrite length_fmap.
Qed.

(** In every reachable state [get_global_history] ends and yields all
    the changes of score of all the histories, once each, in order of time,
    those of one user on one task in the order of their history. *)
Theorem global_history_merges (tasks : gmap string string) (users : gset string) (w : World) :
  modes_ok tasks → rtc serve_step (empty_world tasks users) w →
  ∃ l, get_global_history w = Ok l ∧ l ≡ₚ all_items (_scores w) ∧
    StronglySorted Z.le (item_time <$> l) ∧
    ∀ u t, filter (item_of u t) l = items_of u t (history_at (_scores w) u t).
Proof.
  intros Hm Hr. destruct (reachable_scores_wf _ _ _ Hr) as [Hn1 Hn2].
  destruct (reachable_store_inv _ _ _ Hm Hr) as [Hi _]. unfold get_global_history.
  destruct (history_loop_spec (sum_list_with (λ um, sum_list_with (λ ts, length (_history ts.2)) um.2) (_scores w))
    (initial_queue (_scores w))) as (l & Hl & Hp & Hs & Hf).
  - by apply initial_queue_NoDup.
  - apply Forall_forall. intros e (m & s & Hu & Ht & Hh)%initial_queue_elem.
    apply pd_in_get in Hu; [|done]. pose proof (Hn2 _ _ Hu) as Hnm. apply pd_in_get in Ht; [|done].
    pose proof (winv_tracks _ _ _ (si_winv _ Hi) (e_user e) (e_task e)) as Htr.
    unfold score_at in Htr. rewrite Hu in Htr. cbn in Htr. rewrite Ht in Htr.
    unfold entry_sorted. rewrite <- Hh. apply inv_times, Htr.
  - by rewrite initial_queue_items, all_items_length.
  - exists l. rewrite initial_queue_items in Hp. split_and!; [done..|]. intros u t.
    by rewrite Hf, initial_queue_items, filter_all_items.
Qed.

(** ** Witnesses *)

Definition demo_tasks : gmap string string := {["t1" := SCORE_MODE_MAX; "t2" := SCORE_MODE_MAX_TOKENED_LAST]}.
Definition demo_users : gset string := {["alice"; "bob"]}.

Definition demo_sub (u t : string) (time : Z) : Submission := mk_submission u t time f0 false [].
Definition demo_change (s : string) (time x : Z) : Subchange := mk_subchange "" s time (Some (of_Z x)) None None.

Definition demo_requests : list request :=
  [CreateSub "s1" (demo_sub "alice" "t1" 10); MergeSubs [("s2", demo_sub "bob" "t1" 20); ("s3", demo_sub "bob" "t2" 5)];
   CreateChange "c2" (demo_change "s2" 20 40); CreateChange "c1" (demo_change "s1" 10 30);
   CreateChange "c9" (demo_change "s9" 10 30);
   MergeChanges [("c3", demo_change "s3" 5 70); ("c1", demo_change "s1" 10 35)];
   CreateSub "s4" (demo_sub "alice" "t2" 50); CreateChange "c4" (demo_change "s4" 50 5); DeleteSub "s4"].

#[export] Instance valid_request_dec w r : Decision (valid_request w r).
Proof.
  assert (∀ key item, Decision (valid_submission w key item)) as Hs.
  { intros key item. unfold valid_submission. destruct (pd_get (submission_store w) key) as [old|].
    - destruct (decide (user old = user item ∧ task old = task item)) as [Hd|Hd]; [left|right].
      + by intros ? [= <-].
      + intros Hv. by apply Hd, Hv.
    - by left. }
  assert (∀ key item, Decision (valid_subchange w key item)) as Hc.
  { intros key item. unfold valid_subchange. apply and_dec; [apply _|].
    destruct (pd_get (subchange_store w) key) as [old|]; [|by left].
    destruct (decide (sc_submission old = sc_submission item → sc_time old = sc_time item)) as [Hd|Hd];
      [left; by intros ? [= <-]|right]. intros Hv. apply Hd. by apply Hv. }
  assert (∀ {V} (P : string → V → Prop) (items : pydict string V), (∀ k v, Decision (P k v)) →
    Decision (∀ k v, (k, v) ∈ items → P k v)) as Hall.
  { intros V P items HP. destruct (decide (Forall (λ kv, P kv.1 kv.2) items)) as [Hd|Hd]; [left|right].
    - rewrite Forall_forall in Hd. intros k v Hin. exact (Hd (k, v) Hin).
    - intros Hv. apply Hd, Forall_forall. intros [k v]. apply Hv. }
  destruct r; cbn; apply _.
Defined.

Fixpoint serve_all (l : list request) (w : World) : option World :=
  match l with
  | [] => Some w
  | r :: l => if decide (valid_request w r) then serve_all l (serve r w).2 else None
  end.

Lemma serve_all_reachable l w w' : serve_all l w = Some w' → rtc serve_step w w'.
Proof.
  revert w. induction l as [|r l IH]; intros w; cbn [serve_all]; [by intros [= ->]|].
  case_decide as Hv; [|done]. intros Hs. eapply rtc_l; [|by apply IH].
  eapply (serve_step_intro _ _ r (serve r w).1); [done|]. by destruct (serve r w).
Qed.

Definition demo_world : World :=
  default (empty_world ∅ ∅) (serve_all demo_requests (empty_world demo_tasks demo_users)).

Lemma demo_world_reachable : rtc serve_step (empty_world demo_tasks demo_users) demo_world.
Proof. apply (serve_all_reachable demo_requests). vm_compute. reflexivity. Qed.

Lemma demo_modes_ok : modes_ok demo_tasks.
Proof. unfold modes_ok. refine (bool_decide_unpack _ _). vm_compute. exact I. Qed.

Lemma requests_served_witness :
  current_score demo_world "alice" "t1" = of_Z 35 ∧ told (_notified demo_world) "alice" "t1" = of_Z 35 ∧
  serve (DeleteSub "s4") demo_world = (Raise InvalidKey, demo_world).
Proof.
  split; [vm_compute; reflexivity|].
  destruct (requests_served _ _ _ demo_modes_ok demo_world_reachable) as [Ht Hs]. split.
  - rewrite Ht. vm_compute. reflexivity.
  - destruct (Hs (DeleteSub "s4") I) as [H|[H|H]]; [exact H|exfalso..].
    + vm_compute in H. discriminate H.
    + vm_compute in H. discriminate H.
Defined.

Lemma restart_same_history_witness :
  ∃ w', init_store (restarted demo_world) = (Ok tt, w') ∧
    _history <$> score_at (_scores w') "alice" "t1" = Some [(10%Z, of_Z 35)].
Proof.
  destruct (restart_same_history _ _ _ demo_modes_ok demo_world_reachable) as (w' & Hr & Hh).
  exists w'. split; [exact Hr|]. rewrite Hh. vm_compute. reflexivity.
Defined.

Lemma global_history_merges_witness :
  ∃ l, get_global_history demo_world = Ok l ∧ item_time <$> l = [5; 10; 20]%Z ∧
    l ≡ₚ all_items (_scores demo_world).
Proof.
  destruct (global_history_merges _ _ _ demo_modes_ok demo_world_reachable) as (l & Hl & Hp & _).
  exists l. split; [exact Hl|]. split; [|exact Hp]. vm_compute in Hl. injection Hl as <-. reflexivity.
Defined.
