(* ===== verification/RankingEntities.v ===== *)
(** * Entities of the ranking server (cmsranking/Entity.py, Contest.py,
    Task.py, Team.py, User.py, Submission.py, Subchange.py)

    An entity is set from a JSON value that a client sent or that was read
    from disk, and gives back the value that is written to disk and shown to
    clients. [Entity] is the interface that the stores use. The text of the
    exceptions is left out. *)

From S2P Require Import Prelude PyFloat Ranking ScoringStore Database.

Local Open Scope string_scope.
Local Open Scope list_scope.

(** ** Checking a JSON value *)

(** [isinstance(x, int)] holds of booleans too, which stay what they are. *)
Inductive integer : Set :=
  | IntZ (n : Z)
  | IntBool (b : bool).

Definition integer_val (i : integer) : Z := match i with IntZ n => n | IntBool b => Z.b2z b end.
Definition integer_json (i : integer) : json := match i with IntZ n => JInt n | IntBool b => JBool b end.

(** [assert isinstance(data, dict)] *)
Definition as_dict (j : json) : res (pydict string json) :=
  match j with JObject d => Ok d | _ => Raise InvalidData end.
Definition as_str (j : json) : res string :=
  match j with JString s => Ok s | _ => Raise InvalidData end.
Definition as_int (j : json) : res integer :=
  match j with JInt n => Ok (IntZ n) | JBool b => Ok (IntBool b) | _ => Raise InvalidData end.
Definition as_float (j : json) : res float :=
  match j with JFloat x => Ok x | _ => Raise InvalidData end.
Definition as_bool (j : json) : res bool :=
  match j with JBool b => Ok b | _ => Raise InvalidData end.
Definition as_strs (j : json) : res (list string) :=
  match j with JList l => map_res as_str l | _ => Raise InvalidData end.
Definition as_opt_str (j : json) : res (option string) :=
  match j with JNull => Ok None | JString s => Ok (Some s) | _ => Raise InvalidData end.

(** [data[name]], checked. *)
Definition field {A} (as_type : json → res A) (data : pydict string json) (name : string) : res A :=
  x ← or_raise InvalidData (pd_get data name); as_type x.

(** [if name in data: ...] *)
Definition opt_field {A} (as_type : json → res A) (data : pydict string json) (name : string)
    : res (option A) :=
  match pd_get data name with
  | Some x => a ← as_type x; Ok (Some a)
  | None => Ok None
  end.

Definition check (b : bool) : res unit := if b then Ok tt else Raise InvalidData.

Definition strs (l : list string) : json := JList (JString <$> l).
Definition opt_str (o : option string) : json := match o with Some s => JString s | None => JNull end.

(** ** The interface *)

(** [read] is [set] on a new object; [get] forgets the key. What has been
    accepted once is accepted again. *)
Class Entity (E : Type) := {
  read : json → res E;
  write : E → json;
  read_write data e : read data = Ok e → read (write e) = Ok e;
  read_refuses data : (∃ e, read data = Ok e) ∨ read data = Raise InvalidData;
}.

(** Reading either gives a value or refuses. *)
Definition refuses {A} (r : res A) : Prop := (∃ a, r = Ok a) ∨ r = Raise InvalidData.

Lemma refuses_bind {A B} (m : res A) (f : A → res B) :
  refuses m → (∀ a, refuses (f a)) → refuses (m ≫= f).
Proof. intros [[a ->]| ->] Hf; [apply Hf|by right]. Qed.

Lemma refuses_Ok {A} (a : A) : refuses (Ok a).
Proof. left. by exists a. Qed.

Lemma refuses_raise {A} (o : option A) : refuses (or_raise InvalidData o).
Proof. destruct o; [left; by eexists|by right]. Qed.

Lemma refuses_map {A B} (f : A → res B) l : (∀ x, refuses (f x)) → refuses (map_res f l).
Proof.
  intros Hf. induction l as [|x l IH]; [apply refuses_Ok|]. apply refuses_bind; [done|]. intros y.
  apply refuses_bind; [done|]. intros ys. apply refuses_Ok.
Qed.

Lemma as_str_refuses j : refuses (as_str j).
Proof. destruct j; first [apply refuses_Ok|by right]. Qed.

Lemma as_strs_refuses j : refuses (as_strs j).
Proof. destruct j; try by right. apply refuses_map, as_str_refuses. Qed.

Ltac refuses_solve :=
  repeat lazymatch goal with
    | |- refuses (@mbind _ _ _ _ _ _) => apply refuses_bind; [|intros ?]
    | |- refuses (field _ _ _) => unfold field
    | |- refuses (opt_field _ _ _) => unfold opt_field
    | |- refuses (Raise InvalidData) => by right
    | |- refuses (Ok _) => apply refuses_Ok
    | |- refuses (or_raise _ _) => apply refuses_raise
    | |- refuses (match ?x with _ => _ end) => destruct x
    | |- refuses (as_str _) => apply as_str_refuses
    | |- refuses (as_strs _) => apply as_strs_refuses
    | |- refuses (?f ?x) => unfold f
    end.

(** What is read from a value is what is read from its own writing. *)
Lemma as_strs_strs l : as_strs (strs l) = Ok l.
Proof. unfold as_strs, strs. induction l as [|s l IH]; [done|]. csimpl. by rewrite IH. Qed.

Lemma as_int_json i : as_int (integer_json i) = Ok i.
Proof. by destruct i. Qed.

Lemma as_opt_str_json o : as_opt_str (opt_str o) = Ok o.
Proof. by destruct o. Qed.

Lemma field_get {A} (f : json → res A) d name j a : pd_get d name = Some j → f j = Ok a → field f d name = Ok a.
Proof. unfold field. by intros ->. Qed.

Lemma opt_field_some {A} (f : json → res A) d name j a :
  pd_get d name = Some j → f j = Ok a → opt_field f d name = Ok (Some a).
Proof. unfold opt_field. by intros -> ->. Qed.

Lemma opt_field_none {A} (f : json → res A) d name : pd_get d name = None → opt_field f d name = Ok None.
Proof. unfold opt_field. by intros ->. Qed.

Lemma bind_returns {A B} (m : res A) (f : A → res B) a b : m = Ok a → f a = Ok b → (m ≫= f) = Ok b.
Proof. by intros ->. Qed.

Create HintDb read_back discriminated.
#[export] Hint Resolve as_strs_strs as_int_json as_opt_str_json : read_back.

(** Reading the fields that have just been written. *)
Ltac read_field :=
  lazymatch goal with
  | |- as_dict _ = _ => reflexivity
  | |- check _ = _ => eassumption
  | |- field _ _ _ = _ =>
      eapply field_get; [reflexivity|first [solve [auto with read_back nocore]|reflexivity]]
  | |- opt_field _ _ _ = _ =>
      first [eapply opt_field_some; [reflexivity|first [solve [auto with read_back nocore]|reflexivity]]
            |apply opt_field_none; reflexivity]
  end.
Ltac read_back :=
  repeat lazymatch goal with |- @mbind _ _ _ _ _ _ = _ => eapply bind_returns; [read_field|cbv beta] end;
  reflexivity.

(** Go through a successful reading. *)
Ltac read_inv :=
  repeat match goal with
    | H : (_ ≫= _) = Ok _ |- _ => apply res_bind_Ok in H as (? & ? & H)
    | H : Ok _ = Ok _ |- _ => injection H as <-
    end.

(** ** Contest *)

Record Contest := mk_contest {
  ct_name : string;
  ct_begin : integer;
  ct_end : integer;
  ct_score_precision : integer;
}.

Definition read_contest (data : json) : res Contest :=
  data ← as_dict data;
  name ← field as_str data "name";
  begin ← field as_int data "begin";
  end_ ← field as_int data "end";
  _ ← check (integer_val begin <=? integer_val end_)%Z;
  score_precision ← field as_int data "score_precision";
  _ ← check (0 <=? integer_val score_precision)%Z;
  Ok (mk_contest name begin end_ score_precision).

Definition write_contest (c : Contest) : json :=
  JObject [("name", JString (ct_name c)); ("begin", integer_json (ct_begin c));
           ("end", integer_json (ct_end c)); ("score_precision", integer_json (ct_score_precision c))].

#[export] Instance contest_entity : Entity Contest.
Proof.
  refine {| read := read_contest; write := write_contest |}.
  - intros data e H. unfold read_contest in H. read_inv. unfold read_contest, write_contest. read_back.
  - intros data. change (refuses (read_contest data)). refuses_solve.
Defined.

(** ** Task *)

Record Task := mk_task {
  ta_name : string;
  ta_short_name : string;
  ta_contest : string;
  ta_max_score : float;
  ta_extra_headers : list string;
  ta_order : integer;
  ta_score_mode : string;
  ta_score_precision : integer;
}.

Definition read_task (data : json) : res Task :=
  data ← as_dict data;
  name ← field as_str data "name";
  short_name ← field as_str data "short_name";
  contest ← field as_str data "contest";
  max_score ← field as_float data "max_score";
  score_precision ← field as_int data "score_precision";
  _ ← check (0 <=? integer_val score_precision)%Z;
  extra_headers ← field as_strs data "extra_headers";
  score_mode ← field as_str data "score_mode";
  order ← field as_int data "order";
  Ok (mk_task name short_name contest max_score extra_headers order score_mode score_precision).

Definition write_task (t : Task) : json :=
  JObject [("name", JString (ta_name t)); ("short_name", JString (ta_short_name t));
           ("contest", JString (ta_contest t)); ("max_score", JFloat (ta_max_score t));
           ("extra_headers", strs (ta_extra_headers t)); ("order", integer_json (ta_order t));
           ("score_mode", JString (ta_score_mode t));
           ("score_precision", integer_json (ta_score_precision t))].

#[export] Instance task_entity : Entity Task.
Proof.
  refine {| read := read_task; write := write_task |}.
  - intros data e H. unfold read_task in H. read_inv. unfold read_task, write_task. read_back.
  - intros data. change (refuses (read_task data)). refuses_solve.
Defined.

(** ** Team *)

Record Team := mk_team { te_name : string }.

Definition read_team (data : json) : res Team :=
  data ← as_dict data;
  name ← field as_str data "name";
  Ok (mk_team name).

Definition write_team (t : Team) : json := JObject [("name", JString (te_name t))].

#[export] Instance team_entity : Entity Team.
Proof.
  refine {| read := read_team; write := write_team |}.
  - intros data e H. by destruct e.
  - intros data. change (refuses (read_team data)). refuses_solve.
Defined.

(** ** User *)

Record User := mk_user {
  us_f_name : string;
  us_l_name : string;
  us_team : option string;
}.

Definition read_user (data : json) : res User :=
  data ← as_dict data;
  f_name ← field as_str data "f_name";
  l_name ← field as_str data "l_name";
  team ← field as_opt_str data "team";
  Ok (mk_user f_name l_name team).

Definition write_user (u : User) : json :=
  JObject [("f_name", JString (us_f_name u)); ("l_name", JString (us_l_name u));
           ("team", opt_str (us_team u))].

#[export] Instance user_entity : Entity User.
Proof.
  refine {| read := read_user; write := write_user |}.
  - intros data e H. destruct e as [f l t]. by destruct t.
  - intros data. change (refuses (read_user data)). refuses_solve.
Defined.

(** ** Submission

    The score, token and details that [ScoringStore] keeps in the same object
    are not part of it. *)

Record SubmissionData := mk_submission_data {
  sd_user : string;
  sd_task : string;
  sd_time : integer;
}.

Definition read_submission (data : json) : res SubmissionData :=
  data ← as_dict data;
  user ← field as_str data "user";
  task ← field as_str data "task";
  time ← field as_int data "time";
  Ok (mk_submission_data user task time).

Definition write_submission (s : SubmissionData) : json :=
  JObject [("user", JString (sd_user s)); ("task", JString (sd_task s)); ("time", integer_json (sd_time s))].

#[export] Instance submission_entity : Entity SubmissionData.
Proof.
  refine {| read := read_submission; write := write_submission |}.
  - intros data [u t i] H. unfold write_submission, read_submission. read_back.
  - intros data. change (refuses (read_submission data)). refuses_solve.
Defined.

(** ** Subchange *)

Record SubchangeData := mk_subchange_data {
  cd_submission : string;
  cd_time : integer;
  cd_score : option float;
  cd_token : option bool;
  cd_extra : option (list string);
}.

Definition read_subchange (data : json) : res SubchangeData :=
  data ← as_dict data;
  submission ← field as_str data "submission";
  time ← field as_int data "time";
  score ← opt_field as_float data "score";
  token ← opt_field as_bool data "token";
  extra ← opt_field as_strs data "extra";
  Ok (mk_subchange_data submission time score token extra).

(** The optional fields that are [None] are not written. *)
Definition written {A} (name : string) (to_json : A → json) (o : option A) : pydict string json :=
  match o with Some a => [(name, to_json a)] | None => [] end.

Definition write_subchange (c : SubchangeData) : json :=
  JObject ([("submission", JString (cd_submission c)); ("time", integer_json (cd_time c))]
           ++ written "score" JFloat (cd_score c) ++ written "token" JBool (cd_token c)
           ++ written "extra" strs (cd_extra c)).

#[export] Instance subchange_entity : Entity SubchangeData.
Proof.
  refine {| read := read_subchange; write := write_subchange |}.
  - intros data [s t sc tk ex] H. unfold write_subchange, read_subchange.
    destruct sc, tk, ex; read_back.
  - intros data. change (refuses (read_subchange data)). refuses_solve.
Defined.

(** ** All of them *)

(** The stores; [ProxyExecutor] numbers them in this order. *)
Inductive kind : Set := CONTEST | TASK | TEAM | USER | SUBMISSION | SUBCHANGE.

#[export] Instance kind_eq_dec : EqDecision kind.
Proof. solve_decision. Defined.

Inductive entity : Type :=
  | EContest (c : Contest)
  | ETask (t : Task)
  | ETeam (t : Team)
  | EUser (u : User)
  | ESubmission (s : SubmissionData)
  | ESubchange (c : SubchangeData).

Definition kind_of (e : entity) : kind :=
  match e with
  | EContest _ => CONTEST | ETask _ => TASK | ETeam _ => TEAM
  | EUser _ => USER | ESubmission _ => SUBMISSION | ESubchange _ => SUBCHANGE
  end.

(** [item = self._entity(); item.set(data)] *)
Definition entity_set (k : kind) (data : json) : res entity :=
  match k with
  | CONTEST => e ← read data; Ok (EContest e)
  | TASK => e ← read data; Ok (ETask e)
  | TEAM => e ← read data; Ok (ETeam e)
  | USER => e ← read data; Ok (EUser e)
  | SUBMISSION => e ← read data; Ok (ESubmission e)
  | SUBCHANGE => e ← read data; Ok (ESubchange e)
  end.

Definition entity_get (e : entity) : json :=
  match e with
  | EContest c => write c | ETask t => write t | ETeam t => write t
  | EUser u => write u | ESubmission s => write s | ESubchange c => write c
  end.

(** What setting an entity does, for every kind. *)
Lemma entity_set_cases k (P : res entity → Prop) data :
  P (Raise InvalidData) →
  (∀ e, kind_of e = k → entity_set k (entity_get e) = Ok e → P (Ok e)) →
  P (entity_set k data).
Proof.
  intros HR HO.
  assert (∀ (E : Type) `{Entity E} (c : E → entity),
    (∀ e, entity_get (c e) = write e) → (∀ e, kind_of (c e) = k) →
    (∀ j, entity_set k j = (e ← read j; Ok (c e))) → P (entity_set k data)) as Hgen.
  { intros E He c Hg Hk Hs. rewrite Hs. destruct (read_refuses data) as [[e Hr]| ->]; [|done].
    rewrite Hr. cbn. apply HO; [apply Hk|]. by rewrite Hg, Hs, (read_write data e Hr). }
  destruct k; [apply (Hgen Contest _ EContest)|apply (Hgen Task _ ETask)|apply (Hgen Team _ ETeam)
    |apply (Hgen User _ EUser)|apply (Hgen SubmissionData _ ESubmission)
    |apply (Hgen SubchangeData _ ESubchange)]; reflexivity.
Qed.

Lemma entity_set_Ok k data e :
  entity_set k data = Ok e → kind_of e = k ∧ entity_set k (entity_get e) = Ok e.
Proof. apply (entity_set_cases k (λ r, r = Ok e → _)); [done|]. by intros e' Hk He [= <-]. Qed.

(** C37. Whatever a client sends or a file contains, setting an entity of any
    kind from it gives an entity of that kind or raises [InvalidData] and
    nothing else; and an entity that was accepted is the same after it is
    written and set again, so that restarting the server and copying
    entities between servers keep it. *)
Theorem entities_roundtrip k data :
  entity_set k data = Raise InvalidData ∨
  ∃ e, entity_set k data = Ok e ∧ kind_of e = k ∧ entity_set k (entity_get e) = Ok e.
Proof. apply entity_set_cases; [by left|]. intros e Hk He. right. by exists e. Qed.
