(* ===== verification/RankingServer.v ===== *)
(** * The ranking web server (cmsranking/Store.py, RankingWebServer.py)

    Six stores of entities, each with its directory of files and the callbacks
    registered with it: [ScoringStore] for submissions and changes, the
    [DataWatcher] that tells browsers for the others. A [StoreHandler] serves
    the requests to a store. A file is what [json.dump] wrote in it; whether a
    file can be created under a name, and what a string denotes as a float,
    are parameters. The pages, the images and the stream of events are left
    out, as are the locks: a request is served before the next one. *)

From S2P Require Import Prelude PyFloat PyString Database Ranking ScoringStore RankingEntities.

Local Open Scope string_scope.
Local Open Scope list_scope.

Record Server : Type := mk_server {
  stores : kind → pydict string entity;
  disk : kind → pydict string json;             (* the files, by name *)
  scores : pydict string (pydict string Score);
  notified : list (string * string * float);    (* the scores that were sent *)
  sent : list (kind * (string * string));       (* the events that were sent *)
}.

Definition update_fun {V} (k : kind) (f : V → V) (m : kind → V) : kind → V :=
  λ k', if decide (k' = k) then f (m k') else m k'.

Definition with_store (k : kind) (f : pydict string entity → pydict string entity) (s : Server) : Server :=
  mk_server (update_fun k f (stores s)) (disk s) (scores s) (notified s) (sent s).
Definition with_disk (k : kind) (f : pydict string json → pydict string json) (s : Server) : Server :=
  mk_server (stores s) (update_fun k f (disk s)) (scores s) (notified s) (sent s).
Definition with_sent (f : list (kind * (string * string)) → list (kind * (string * string))) (s : Server) : Server :=
  mk_server (stores s) (disk s) (scores s) (notified s) (f (sent s)).

Definition has (s : Server) (k : kind) (key : string) : bool := pd_mem (stores s k) key.

(** [e.consistent(stores)] *)
Definition consistent (s : Server) (e : entity) : bool :=
  match e with
  | EContest _ | ETeam _ => true
  | ETask t => has s CONTEST (ta_contest t)
  | EUser u => match us_team u with None => true | Some t => has s TEAM t end
  | ESubmission x => has s TASK (sd_task x) && has s USER (sd_user x)
  | ESubchange c => has s SUBMISSION (cd_submission c)
  end.

(** The stores whose entities refer to those of [k]. *)
Definition depends (k : kind) : list kind :=
  match k with
  | CONTEST => [TASK]
  | TASK | USER => [SUBMISSION]
  | TEAM => [USER]
  | SUBMISSION => [SUBCHANGE]
  | SUBCHANGE => []
  end.

Section server.
Context (float_of_string : string → option float) (can_write : string → bool).

(** ** The stores as [ScoringStore] sees them *)

Definition submission_of (x : SubmissionData) : Ranking.Submission :=
  mk_submission (sd_user x) (sd_task x) (integer_val (sd_time x)) f0 false [].

Definition subchange_of (key : string) (c : SubchangeData) : Subchange :=
  mk_subchange key (cd_submission c) (integer_val (cd_time c)) (cd_score c) (cd_token c)
    ((λ l : list string, float_of_string <$> l) <$> cd_extra c).

Definition task_modes (d : pydict string entity) : gmap string string :=
  list_to_map (omap (λ kv, match kv.2 with ETask t => Some (kv.1, ta_score_mode t) | _ => None end) d).

Definition to_world (s : Server) : ScoringStore.World :=
  ScoringStore.mk_world (task_modes (stores s TASK)) (list_to_set (pd_keys (stores s USER)))
    (omap (λ kv, match kv.2 with ESubmission x => Some (kv.1, submission_of x) | _ => None end)
       (stores s SUBMISSION))
    (omap (λ kv, match kv.2 with ESubchange c => Some (kv.1, subchange_of kv.1 c) | _ => None end)
       (stores s SUBCHANGE))
    (scores s) (notified s).

(** A callback of [ScoringStore], which changes the scores only. *)
Definition in_scoring (m : M ScoringStore.World unit) : M Server unit := λ s,
  let '(r, w) := m (to_world s) in
  (r, mk_server (stores s) (disk s) (_scores w) (_notified w) (sent s)).

(** [DataWatcher.callback] *)
Definition watch (k : kind) (event key : string) : M Server unit :=
  modify (with_sent (λ l, l ++ [(k, (event, key))])).

Definition create_callbacks (k : kind) (key : string) (item : entity) : M Server unit :=
  match item with
  | ESubmission x => in_scoring (on_create_submission key (submission_of x))
  | ESubchange c => in_scoring (on_create_subchange key (subchange_of key c))
  | _ => watch k "create" key
  end.

Definition update_callbacks (k : kind) (key : string) (old_item item : entity) : M Server unit :=
  match old_item, item with
  | ESubmission old, ESubmission x => in_scoring (on_update_submission key (submission_of old) (submission_of x))
  | ESubchange old, ESubchange c => in_scoring (on_update_subchange key (subchange_of key old) (subchange_of key c))
  | _, _ => watch k "update" key
  end.

Definition delete_callbacks (k : kind) (key : string) (old_item : entity) : M Server unit :=
  match old_item with
  | ESubmission old => in_scoring (on_delete_submission key (submission_of old))
  | ESubchange old => in_scoring (on_delete_subchange key (subchange_of key old))
  | _ => watch k "delete" key
  end.

(** ** Store *)

Definition file_name (key : string) : string := key +:+ ".json".

(** [json.dump(self._store[key].get(), rec)]; an [OSError] is logged. *)
Definition save (k : kind) (key : string) : M Server unit :=
  if can_write key then
    s ← get;
    e ← lift (or_raise KeyError (pd_get (stores s k) key));
    modify (with_disk k (λ d, pd_set d (file_name key) (entity_get e)))
  else mret tt.

Definition create (k : kind) (key : string) (data : json) : M Server unit :=
  s ← get;
  if has s k key then raise InvalidKey
  else
    item ← lift (entity_set k data);
    if negb (consistent s item) then raise InvalidData
    else
      _ ← modify (with_store k (λ d, pd_set d key item));
      _ ← create_callbacks k key item;
      save k key.

Definition update (k : kind) (key : string) (data : json) : M Server unit :=
  s ← get;
  match pd_get (stores s k) key with
  | None => raise InvalidKey
  | Some old_item =>
      item ← lift (entity_set k data);
      if negb (consistent s item) then raise InvalidData
      else
        _ ← modify (with_store k (λ d, pd_set d key item));
        _ ← update_callbacks k key old_item item;
        save k key
  end.

Definition word_char (c : Ascii.ascii) : bool :=
  let n := Ascii.nat_of_ascii c in
  (48 <=? n)%nat && (n <=? 57)%nat || (65 <=? n)%nat && (n <=? 90)%nat
  || (97 <=? n)%nat && (n <=? 122)%nat || (n =? 95)%nat.

(** [re.match('[A-Za-z0-9_]+', key)], which looks at the start only. *)
Definition starts_as_key (key : string) : bool :=
  match key with String c _ => word_char c | EmptyString => false end.

(** One entity of [merge_list], before anything is stored. *)
Definition check_item (s : Server) (k : kind) (item_dict : pydict string entity) (kv : string * json)
    : res (pydict string entity) :=
  if negb (starts_as_key kv.1) then Raise InvalidData
  else
    item ← entity_set k kv.2;
    if negb (consistent s item) then Raise InvalidData
    else Ok (pd_set item_dict kv.1 item).

(** The second loop of [merge_list]. *)
Definition merge (k : kind) (key : string) (value : entity) : M Server unit :=
  s ← get;
  let old_value := pd_get (stores s k) key in
  _ ← modify (with_store k (λ d, pd_set d key value));
  _ ← (match old_value with
       | None => create_callbacks k key value
       | Some old_value => update_callbacks k key old_value value
       end);
  save k key.

Definition merge_list (k : kind) (data : json) : M Server unit :=
  match data with
  | JObject data_dict =>
      s ← get;
      item_dict ← lift (fold_res (check_item s k) [] data_dict);
      for_each (λ kv, merge k kv.1 kv.2) item_dict
  | _ => raise InvalidData
  end.

(** The stores depend on each other to a depth of four. *)
Fixpoint delete (fuel : nat) (k : kind) (key : string) : M Server unit :=
  match fuel with
  | O => lift NoFuel
  | S fuel =>
      s ← get;
      match pd_get (stores s k) key with
      | None => raise InvalidKey
      | Some old_value =>
          _ ← modify (with_store k (λ d, pd_del d key));
          _ ← for_each (λ depend,
                 s ← get;
                 for_each (λ o, s ← get;
                             if consistent s o.2 then mret tt else delete fuel depend o.1)
                   (stores s depend)) (depends k);
          _ ← delete_callbacks k key old_value;
          modify (with_disk k (λ d, pd_del d (file_name key)))
      end
  end.

Definition depth : nat := 4.

Definition delete_list (k : kind) : M Server unit :=
  s ← get; for_each (delete depth k) (pd_keys (stores s k)).

Definition retrieve (s : Server) (k : kind) (key : string) : res json :=
  e ← or_raise InvalidKey (pd_get (stores s k) key); Ok (entity_get e).

Definition retrieve_list (s : Server) (k : kind) : json :=
  JObject (prod_map id entity_get <$> stores s k).

(** [name[:-5]], if [name] ends in [.json] and is longer. *)
Definition key_of_name (name : string) : option string :=
  if endswith ".json" name && negb (String.eqb name ".json")
  then Some (take_string (String.length name - 5) name) else None.

(** [os.listdir] gives the files in any order; [None] is a file that is not
    JSON. The first file that is refused ends the loading. *)
Fixpoint load_from_disk (k : kind) (files : list (string * option json)) (store : pydict string entity)
    : pydict string entity :=
  match files with
  | [] => store
  | (name, content) :: files =>
      match key_of_name name with
      | None => load_from_disk k files store
      | Some key =>
          match content with
          | Some data =>
              match entity_set k data with
              | Ok item => load_from_disk k files (pd_set store key item)
              | _ => store
              end
          | None => store
          end
      end
  end.

(** ** StoreHandler *)

Record Request : Type := mk_request {
  authorized : bool;
  is_json : bool;                  (* the MIME type *)
  payload : option json;           (* [None]: not JSON *)
}.

Record Response : Type := mk_response {
  status : Z;
  body : option json;
}.

(** A page of an HTTP error, or an empty answer. *)
Definition reply (status : Z) : M Server Response := mret (mk_response status None).

(** [re.match("^[A-Za-z0-9_]+$", key)]: [$] matches before a last newline. *)
Definition newline : string := String (Ascii.ascii_of_nat 10) EmptyString.
Definition is_key (key : string) : bool :=
  let key := if endswith newline key then take_string (String.length key - 1) key else key in
  negb (String.eqb key "") && string_forall word_char key.

(** The error pages that are returned where they should be raised are lost,
    and the answer stays the empty one with status 200. *)
Definition handle_get (k : kind) (key : string) : M Server Response :=
  if negb (is_key key) then reply 200
  else
    s ← get;
    if negb (has s k key) then reply 404
    else j ← lift (retrieve s k key); mret (mk_response 200 (Some j)).

Definition handle_get_list (k : kind) : M Server Response :=
  s ← get; mret (mk_response 200 (Some (retrieve_list s k))).

Definition invalid_data (e : exn) : bool := bool_decide (e = InvalidData).

(** The checks that [put] and [put_list] share. *)
Definition with_payload (request : Request) (f : json → M Server unit) : M Server Response :=
  if negb (authorized request) then reply 401
  else if negb (is_json request) then reply 415
  else
    match payload request with
    | None => reply 400
    | Some data => try_except invalid_data (_ ← f data; reply 204) (reply 400)
    end.

Definition handle_put (k : kind) (key : string) (request : Request) : M Server Response :=
  if negb (is_key key) then reply 200
  else with_payload request (λ data,
         s ← get; if negb (has s k key) then create k key data else update k key data).

Definition handle_put_list (k : kind) (request : Request) : M Server Response :=
  with_payload request (merge_list k).

Definition handle_delete (k : kind) (key : string) (request : Request) : M Server Response :=
  if negb (is_key key) then reply 200
  else
    s ← get;
    if negb (has s k key) then reply 404
    else if negb (authorized request) then reply 401
    else _ ← delete depth k key; reply 204.

Definition handle_delete_list (k : kind) (request : Request) : M Server Response :=
  if negb (authorized request) then reply 401 else _ ← delete_list k; reply 204.

Inductive endpoint : Type :=
  | Get (key : string)
  | GetList
  | Put (key : string) (request : Request)
  | PutList (request : Request)
  | Delete (key : string) (request : Request)
  | DeleteList (request : Request).

Definition wsgi_app (k : kind) (e : endpoint) : M Server Response :=
  match e with
  | Get key => handle_get k key
  | GetList => handle_get_list k
  | Put key request => handle_put k key request
  | PutList request => handle_put_list k request
  | Delete key request => handle_delete k key request
  | DeleteList request => handle_delete_list k request
  end.

(** ** ScoreHandler and HistoryHandler *)

(** The positive scores, by user and task. *)
Definition positive_scores (s : Server) : pydict string (pydict string float) :=
  foldl (λ result um,
    foldl (λ result ts,
      if fltb f0 (Ranking.get_score ts.2)
      then pd_set result um.1 (pd_set (default [] (pd_get result um.1)) ts.1 (Ranking.get_score ts.2))
      else result) result um.2) [] (scores s).

Definition handle_scores : M Server Response :=
  s ← get;
  mret (mk_response 200 (Some (JObject ((λ um, (um.1, JObject (prod_map id JFloat <$> um.2))) <$> positive_scores s)))).

Definition handle_history : M Server Response :=
  s ← get;
  l ← lift (get_global_history (to_world s));
  mret (mk_response 200 (Some (JList
    ((λ h : string * string * Z * float, let '(user, task, time, score) := h in
        JList [JString user; JString task; JInt time; JFloat score]) <$> l)))).
End server.

(** ** The callbacks return or raise something else than [InvalidData] *)

Definition tame_res {A} (r : res A) : Prop :=
  match r with Ok _ => True | Raise e => e ≠ InvalidData | _ => False end.

Definition tame {S A} (m : M S A) : Prop := ∀ s, tame_res (m s).1.

Section tame.
Context {S : Type}.

Lemma tame_bind {A B} (m : M S A) (f : A → M S B) : tame m → (∀ a, tame (f a)) → tame (m ≫= f).
Proof.
  intros Hm Hf s. specialize (Hm s). unfold mbind, M_bind. destruct (m s) as [[a| | |] s']; try done. apply Hf.
Qed.

Lemma tame_lift {A} (r : res A) : tame_res r → tame (lift (S := S) r).
Proof. intros Hr s. exact Hr. Qed.

Lemma tame_for_each {A} (f : A → M S unit) l : (∀ x, tame (f x)) → tame (for_each f l).
Proof. intros Hf. induction l as [|x l IH]; [intros s; exact I|]. by apply tame_bind. Qed.

Lemma tame_res_bind {A B} (m : res A) (f : A → res B) :
  tame_res m → (∀ a, tame_res (f a)) → tame_res (m ≫= f).
Proof. destruct m; cbn; auto. Qed.
End tame.

(** Walk through the code of a method. *)
Ltac tame_step :=
  lazymatch goal with
  | |- tame (@mbind _ _ _ _ _ _) => apply tame_bind; [|intros ?]
  | |- tame (mret _) => intros ?; exact I
  | |- tame get => intros ?; exact I
  | |- tame (modify _) => intros ?; exact I
  | |- tame (lift _) => apply tame_lift
  | |- tame (raise _) => intros ?; done
  | |- tame (for_each _ _) => apply tame_for_each; intros ?
  | |- tame (match ?x with _ => _ end) => destruct x
  | |- tame_res (@mbind _ _ _ _ _ _) => apply tame_res_bind; [|intros ?]
  | |- tame_res (or_raise _ ?o) => destruct o; [exact I|done]
  | |- tame_res (Ok _) => exact I
  | |- tame_res (Raise _) => done
  | |- tame_res (match ?x with _ => _ end) => destruct x
  end.
Ltac tame_tac := repeat first [tame_step | solve [auto with tame]].

Create HintDb tame.

Lemma tame_ns_remove x s : tame_res (ns_remove x s).
Proof. induction s; cbn [ns_remove]; tame_tac. Qed.

Lemma tame_all_subtask_scores l : tame_res (all_subtask_scores l).
Proof. induction l; cbn [all_subtask_scores]; unfold subtask_scores; tame_tac. Qed.
#[export] Hint Resolve tame_ns_remove tame_all_subtask_scores : tame.

Lemma tame_append_change c : tame (append_change c).
Proof. unfold append_change, submission_at, after_last, computed_score, submission_at. tame_tac. Qed.
#[export] Hint Resolve tame_append_change : tame.

Lemma tame_reset_history : tame reset_history.
Proof. unfold reset_history. tame_tac. Qed.
#[export] Hint Resolve tame_reset_history : tame.

Lemma tame_on_score u t op : tame op → tame (on_score u t op).
Proof.
  intros Hop. unfold on_score, score_obj, notify_callbacks. apply tame_bind; [tame_tac|]. intros st.
  specialize (Hop st). destruct (op st) as [r st']. tame_tac.
Qed.

Lemma tame_on_create_submission k x : tame (on_create_submission k x).
Proof. unfold on_create_submission. tame_tac; apply tame_on_score; unfold create_submission; tame_tac. Qed.

Lemma tame_on_delete_submission k x : tame (on_delete_submission k x).
Proof. unfold on_delete_submission. tame_tac; apply tame_on_score; unfold delete_submission; tame_tac. Qed.
#[export] Hint Resolve tame_on_create_submission tame_on_delete_submission : tame.

Lemma tame_on_update_submission k o x : tame (on_update_submission k o x).
Proof.
  unfold on_update_submission. tame_tac; apply tame_on_score; unfold update_submission, update_score_mode; tame_tac.
Qed.

Lemma tame_on_create_subchange k x : tame (on_create_subchange k x).
Proof.
  unfold on_create_subchange, stored_submission. tame_tac; apply tame_on_score;
    unfold create_subchange, submission_at; tame_tac.
Qed.

Lemma tame_on_delete_subchange k x : tame (on_delete_subchange k x).
Proof.
  unfold on_delete_subchange, stored_submission. tame_tac; apply tame_on_score; unfold delete_subchange; tame_tac.
Qed.
#[export] Hint Resolve tame_on_update_submission tame_on_create_subchange tame_on_delete_subchange : tame.

Lemma tame_on_update_subchange k o x : tame (on_update_subchange k o x).
Proof.
  unfold on_update_subchange, stored_submission. tame_tac; apply tame_on_score;
    unfold update_subchange, submission_at; tame_tac.
Qed.
#[export] Hint Resolve tame_on_update_subchange : tame.

(** ** References *)

(** The stores that the entities of [k] refer to. *)
Definition refers (k : kind) : list kind :=
  match k with
  | CONTEST | TEAM => []
  | TASK => [CONTEST]
  | USER => [TEAM]
  | SUBMISSION => [TASK; USER]
  | SUBCHANGE => [SUBMISSION]
  end.

(** The stores whose entities refer to those of [k], directly or not. *)
Definition below (k : kind) : list kind :=
  match k with
  | CONTEST => [TASK; SUBMISSION; SUBCHANGE]
  | TASK | USER => [SUBMISSION; SUBCHANGE]
  | TEAM => [USER; SUBMISSION; SUBCHANGE]
  | SUBMISSION => [SUBCHANGE]
  | SUBCHANGE => []
  end.

Lemma depends_below k :
  (depends k = [] ∧ below k = []) ∨ ∃ d, depends k = [d] ∧ below k = d :: below d ∧ k ∉ d :: below d.
Proof.
  destruct k; [right; exists TASK|right; exists SUBMISSION|right; exists USER|right; exists SUBMISSION
    |right; exists SUBCHANGE|by left]; (split; [done|]; split; [done|]; set_solver).
Qed.

Lemma refers_below k k' k'' : k'' ∈ k :: below k → k'' ∈ refers k' → k' ∈ below k.
Proof. destruct k, k'; cbn; set_solver. Qed.

Lemma depends_refers k d k' : d ∈ depends k → k' ∈ below d → k ∉ refers k'.
Proof. destruct k, d, k'; cbn; set_solver. Qed.

Lemma not_below k : k ∉ below k.
Proof. destruct k; cbn; set_solver. Qed.

Lemma refers_irrefl k k' : k' ∈ refers k → k' ∉ k :: below k.
Proof. destruct k; cbn; set_solver. Qed.

Lemma consistent_ext s s' e :
  (∀ k, k ∈ refers (kind_of e) → stores s' k = stores s k) → consistent s' e = consistent s e.
Proof.
  destruct e as [c|t|t|u|x|c]; cbn; intros H; unfold has; [done| |done| | |];
    rewrite !H by set_solver; done.
Qed.

Lemma consistent_mono s s' e :
  (∀ k key, has s k key = true → has s' k key = true) → consistent s e = true → consistent s' e = true.
Proof.
  intros Hm. destruct e as [c|t|t|u|x|c]; cbn; try done; try apply Hm.
  - destruct (us_team u); [apply Hm|done].
  - rewrite !andb_true_iff. intros []. split; by apply Hm.
Qed.

Lemma has_elem s k key : has s k key = true ↔ is_Some (pd_get (stores s k) key).
Proof. unfold has, pd_mem. by rewrite bool_decide_eq_true. Qed.

Lemma update_fun_eq {V} k f (m : kind → V) : update_fun k f m k = f (m k).
Proof. unfold update_fun. by rewrite decide_True. Qed.

Lemma update_fun_ne {V} k k' f (m : kind → V) : k' ≠ k → update_fun k f m k' = m k'.
Proof. unfold update_fun. intros. by rewrite decide_False. Qed.

Lemma stores_with_store k f s k' :
  stores (with_store k f s) k' = if decide (k' = k) then f (stores s k') else stores s k'.
Proof. done. Qed.

Lemma disk_with_disk k f s k' : disk (with_disk k f s) k' = if decide (k' = k) then f (disk s k') else disk s k'.
Proof. done. Qed.

(** ** File names *)

Lemma substring_prefix a b : String.substring 0 (String.length a) (a +:+ b) = a.
Proof. induction a as [|c a IH]; simpl; [by destruct b|by rewrite IH]. Qed.

Lemma substring_suffix a b : String.substring (String.length a) (String.length b) (a +:+ b) = b.
Proof.
  induction a as [|c a IH]; simpl; [apply substring_all|done].
Qed.

Lemma key_of_file_name key : key ≠ "" → key_of_name (file_name key) = Some key.
Proof.
  intros Hk. unfold key_of_name, file_name, endswith, take_string.
  rewrite !length_append. change (String.length ".json") with 5%nat.
  replace (String.length key + 5 - 5)%nat with (String.length key) by lia.
  replace (5 <=? String.length key + 5)%nat with true by (symmetry; apply Nat.leb_le; lia).
  rewrite substring_prefix. change 5%nat with (String.length ".json"). rewrite substring_suffix, String.eqb_refl.
  destruct (String.eqb_spec (key +:+ ".json") ".json") as [E|E]; [|done]. by apply append_nil in E.
Qed.

Lemma file_name_inj a b : file_name a = file_name b → a = b.
Proof.
  unfold file_name. intros H. assert (String.length a = String.length b) as Hl.
  { apply (f_equal String.length) in H. rewrite !length_append in H. lia. }
  rewrite <- (substring_prefix a ".json"), H, Hl. apply substring_prefix.
Qed.

(** ** The invariant *)

Section invariant.
Context (float_of_string : string → option float) (can_write : string → bool).

(** Entities are of the kind of their store and can be read back; keys are
    unique and not empty. *)
Record typed (s : Server) : Prop := {
  typed_keys k : NoDup (pd_keys (stores s k));
  typed_files k : NoDup (pd_keys (disk s k));
  typed_entity k key e : pd_get (stores s k) key = Some e →
    kind_of e = k ∧ entity_set k (entity_get e) = Ok e ∧ key ≠ "";
}.

Definition all_consistent (s : Server) (k : kind) : Prop :=
  ∀ key e, pd_get (stores s k) key = Some e → consistent s e = true.

(** The files of a store are those of its entities, but for the ones that
    could not be written. *)
Definition mirrored (s : Server) (k : kind) : Prop :=
  (∀ name j, pd_get (disk s k) name = Some j →
     ∃ key e, name = file_name key ∧ can_write key = true ∧ pd_get (stores s k) key = Some e ∧ j = entity_get e) ∧
  ∀ key e, pd_get (stores s k) key = Some e → can_write key = true →
    pd_get (disk s k) (file_name key) = Some (entity_get e).

Record inv (s : Server) : Prop := {
  inv_typed : typed s;
  inv_consistent k : all_consistent s k;
  inv_mirrored k : mirrored s k;
}.

Definition same_entities (s s' : Server) : Prop := stores s' = stores s ∧ disk s' = disk s.

Lemma in_scoring_same m s r s' : in_scoring float_of_string m s = (r, s') → same_entities s s'.
Proof. unfold in_scoring. destruct (m _) as [r' w']. by intros [= _ <-]. Qed.

Lemma create_callbacks_same k key item s r s' :
  create_callbacks float_of_string k key item s = (r, s') → same_entities s s'.
Proof.
  destruct item; cbn; first [apply in_scoring_same|by intros [= _ <-]].
Qed.

Lemma update_callbacks_same k key old item s r s' :
  update_callbacks float_of_string k key old item s = (r, s') → same_entities s s'.
Proof.
  destruct old, item; cbn; first [apply in_scoring_same|by intros [= _ <-]].
Qed.

Lemma delete_callbacks_same k key old s r s' :
  delete_callbacks float_of_string k key old s = (r, s') → same_entities s s'.
Proof.
  destruct old; cbn; first [apply in_scoring_same|by intros [= _ <-]].
Qed.

(** *** Storing an entity *)

(** After the entity [e] has been put under [key] and its file written. *)
Lemma put_inv k key e s s1 s2 :
  inv s → kind_of e = k → entity_set k (entity_get e) = Ok e → key ≠ "" → consistent s e = true →
  same_entities (with_store k (λ d, pd_set d key e) s) s1 → save can_write k key s1 = (Ok tt, s2) →
  inv s2 ∧ (∀ k' key', has s2 k' key' = has s k' key' || bool_decide (k' = k ∧ key' = key)).
Proof.
  intros [[Hk Hf He] Hc Hm] Hkind Hget Hne Hcons [S1 S2] Hsave.
  assert (stores s2 = stores (with_store k (λ d, pd_set d key e) s) ∧
    disk s2 = if can_write key then update_fun k (λ d, pd_set d (file_name key) (entity_get e)) (disk s) else disk s)
    as [S3 S4].
  { unfold save in Hsave. destruct (can_write key).
    - rewrite (M_run_Ok _ _ _ s1 s1) in Hsave by done. apply M_bind_Ok in Hsave as (x & s3 & Hx & Hs).
      unfold lift in Hx. rewrite S1, stores_with_store, decide_True, pd_get_set_eq in Hx by done.
      injection Hx as <- <-. injection Hs as <-. split; [exact S1|]. cbn. by rewrite S2.
    - injection Hsave as <-. by rewrite S1, S2. }
  assert (∀ k' key', pd_get (stores s2 k') key' =
    if decide (k' = k ∧ key' = key) then Some e else pd_get (stores s k') key') as Hg.
  { intros k' key'. rewrite S3, stores_with_store. destruct (decide (k' = k)) as [->|]; [|by rewrite decide_False by tauto].
    rewrite pd_get_set. repeat case_decide; naive_solver. }
  assert (∀ k' key', has s2 k' key' = has s k' key' || bool_decide (k' = k ∧ key' = key)) as Hhas.
  { intros k' key'. apply eq_bool_prop_intro. unfold has, pd_mem. rewrite orb_True, !bool_decide_spec, Hg.
    case_decide; naive_solver. }
  split; [|done]. split.
  - split.
    + intros k'. rewrite S3, stores_with_store. case_decide; [by apply pd_keys_set_NoDup|done].
    + intros k'. rewrite S4. destruct (can_write key); [|done]. unfold update_fun.
      case_decide; [by apply pd_keys_set_NoDup|done].
    + intros k' key' e'. rewrite Hg. case_decide as Hd; [|apply He]. destruct Hd as [-> ->]. by intros [= <-].
  - intros k' key' e'. rewrite Hg. intros Hs. apply (consistent_mono s).
    { intros k2 key2 H2. by rewrite Hhas, H2. }
    case_decide; [by injection Hs as <-|by eapply Hc].
  - intros k'. destruct (Hm k') as [M1 M2]. split.
    + intros name j. rewrite S4. intros Hn. assert (
        (k' = k ∧ can_write key = true ∧ name = file_name key ∧ j = entity_get e) ∨
        (pd_get (disk s k') name = Some j ∧ ¬ (k' = k ∧ can_write key = true ∧ name = file_name key))) as [(-> & Hw & -> & ->)|[Hd Hnot]].
      { destruct (can_write key); [|right; by split; [|intros (? & ? & ?)]]. unfold update_fun in Hn.
        destruct (decide (k' = k)) as [->|]; [|right; split; [done|tauto]]. rewrite pd_get_set in Hn.
        case_decide; [left; by injection Hn as <-|right; split; [done|naive_solver]]. }
      * exists key, e. by rewrite Hg, decide_True.
      * destruct (M1 _ _ Hd) as (key' & e' & -> & Hw & Hs & ->). exists key', e'. rewrite Hg.
        rewrite decide_False; [done|]. intros [-> ->]. tauto.
    + intros key' e'. rewrite Hg, S4. intros Hs Hw. case_decide as Hd.
      * destruct Hd as [-> ->]. injection Hs as <-. rewrite Hw, update_fun_eq. apply pd_get_set_eq.
      * destruct (can_write key); [|by apply M2]. unfold update_fun. case_decide as Hk'; [|by apply M2].
        subst k'. rewrite pd_get_set_ne; [by apply M2|]. intros E%file_name_inj. naive_solver.
Qed.

(** *** Deleting an entity and those that refer to it *)

(** What deleting in [k] needs and keeps while stores above are in transit. *)
Record part_inv (k : kind) (s : Server) : Prop := {
  part_typed : typed s;
  part_mirrored k' : k' ∈ k :: below k → mirrored s k';
  part_consistent k' : k' ∈ below k → all_consistent s k';
}.

Definition same_outside (k : kind) (s s' : Server) : Prop :=
  ∀ k', k' ∉ k :: below k → stores s' k' = stores s k' ∧ disk s' k' = disk s k'.

Definition deletes (f : kind → string → M Server unit) (k : kind) : Prop :=
  ∀ key s s', f k key s = (Ok tt, s') → part_inv k s →
    part_inv k s' ∧ same_outside k s s' ∧ stores s' k = pd_del (stores s k) key.

Lemma same_outside_trans k s1 s2 s3 : same_outside k s1 s2 → same_outside k s2 s3 → same_outside k s1 s3.
Proof. intros H1 H2 k' Hk'. destruct (H1 k' Hk'), (H2 k' Hk'). split; congruence. Qed.

(** The entities of [d] have the references they had. *)
Lemma consistent_outside d s s' e :
  kind_of e = d → same_outside d s s' → consistent s' e = consistent s e.
Proof. intros Hd Hs. apply consistent_ext. intros k Hk. rewrite Hd in Hk. by apply Hs, refers_irrefl. Qed.

(** The loop over the store [d] leaves its consistent entities. *)
Lemma cascade_spec f d s s' :
  deletes f d → part_inv d s →
  for_each (λ o, s ← get; if consistent s o.2 then mret tt else f d o.1) (stores s d) s = (Ok tt, s') →
  part_inv d s' ∧ same_outside d s s' ∧ all_consistent s' d.
Proof.
  intros Hf Hi Hrun. set (l := stores s d) in *.
  set (I (pre : list (string * entity)) t := part_inv d t ∧ same_outside d s t ∧
    ∀ o e, pd_get (stores t d) o = Some e → pd_get l o = Some e ∧ (o ∈ pre.*1 → consistent s e = true)).
  assert (I l s') as (Hi' & Hout & Hl).
  { apply (for_each_returns _ I l s s') in Hrun; [done| |].
    2: { split; [done|]. split; [done|]. intros o e Ho. split; [done|]. by intros ?%elem_of_nil. }
    intros pre [o e] post t t' Hsplit (Ht & Hto & Htl) Hstep. cbn [fst snd] in Hstep.
    rewrite (M_run_Ok _ _ _ t t) in Hstep by done.
    assert (pd_get l o = Some e) as Hoe.
    { apply pd_in_get; [apply (typed_keys _ (part_typed _ _ Hi))|]. rewrite Hsplit. apply elem_of_app. right. left. }
    assert (kind_of e = d) as Hkind by (by eapply (typed_entity _ (part_typed _ _ Hi))).
    pose proof (consistent_outside d s t e Hkind Hto) as Hcons. destruct (consistent t e).
    - injection Hstep as <-. split; [done|]. split; [done|]. intros o' e' Ho'. destruct (Htl _ _ Ho') as [H1 H2].
      split; [done|]. rewrite fmap_app, elem_of_app. csimpl. rewrite list_elem_of_singleton.
      intros [?| ->]; [by apply H2|]. rewrite Hoe in H1. by injection H1 as <-.
    - destruct (Hf o t t' Hstep Ht) as (Ht' & Hto' & Hdel). split; [done|].
      split; [by eapply same_outside_trans|]. intros o' e'. rewrite Hdel, pd_get_del.
      case_decide as Hne; [done|]. intros Ho'. destruct (Htl _ _ Ho') as [H1 H2]. split; [done|].
      rewrite fmap_app, elem_of_app. csimpl. rewrite list_elem_of_singleton. intros [?|E]; [by apply H2|congruence]. }
  split; [done|]. split; [done|]. intros o e Ho. destruct (Hl _ _ Ho) as [H1 H2].
  rewrite (consistent_outside d s s' e); [|by eapply (typed_entity _ (part_typed _ _ Hi'))|done].
  apply H2. apply pd_get_in. by exists e.
Qed.

Lemma mirrored_ext s s' k : stores s' k = stores s k → disk s' k = disk s k → mirrored s k → mirrored s' k.
Proof. unfold mirrored. by intros -> ->. Qed.

Lemma mirrored_del s s' k key :
  stores s' k = pd_del (stores s k) key → disk s' k = pd_del (disk s k) (file_name key) →
  mirrored s k → mirrored s' k.
Proof.
  intros Hs Hd [M1 M2]. split.
  - intros name j. rewrite Hd, pd_get_del. case_decide as Hn; [done|]. intros (key' & e & -> & Hw & He & ->)%M1.
    exists key', e. rewrite Hs, pd_get_del, decide_False; [done|]. by intros ->.
  - intros key' e. rewrite Hs, pd_get_del. case_decide as Hn; [done|]. intros He Hw.
    rewrite Hd, pd_get_del, decide_False; [by apply M2|]. by intros E%file_name_inj.
Qed.

Lemma typed_ext s s' : same_entities s s' → typed s → typed s'.
Proof. intros [E1 E2] [H1 H2 H3]. split; intros k; rewrite ?E1, ?E2; auto. Qed.

Lemma delete_spec n k : deletes (delete float_of_string n) k.
Proof.
  revert k. induction n as [|n IH]; intros k key s s' Hrun [Ht Hm Hc]; [done|]. cbn [delete] in Hrun.
  rewrite (M_run_Ok _ _ _ s s) in Hrun by done. destruct (pd_get (stores s k) key) as [old|] eqn:Hold; [|done].
  set (s1 := with_store k (λ d, pd_del d key) s) in Hrun. rewrite (M_run_Ok _ _ _ tt s1) in Hrun by done.
  apply M_bind_Ok in Hrun as ([] & s2 & Hcas & Hrun).
  apply M_bind_Ok in Hrun as ([] & s3 & [S3 D3]%delete_callbacks_same & Hrun).
  injection Hrun as <-. set (s4 := with_disk k (λ d, pd_del d (file_name key)) s3).
  assert (∀ k', k' ≠ k → stores s1 k' = stores s k') as Hs1 by (intros k' ?; by apply update_fun_ne).
  assert (stores s1 k = pd_del (stores s k) key) as Hs1k by apply update_fun_eq.
  assert (typed s1) as Ht1.
  { destruct Ht as [H1 H2 H3]. split; [|done|].
    - intros k'. destruct (decide (k' = k)) as [->|]; [rewrite Hs1k; by apply pd_keys_del_NoDup|by rewrite Hs1].
    - intros k' key' e. destruct (decide (k' = k)) as [->|]; [|rewrite Hs1 by done; apply H3].
      rewrite Hs1k, pd_get_del. case_decide; [done|]. apply H3. }
  assert (typed s2 ∧ (∀ k', k' ∈ below k → mirrored s2 k') ∧ (∀ k', k' ∈ below k → all_consistent s2 k') ∧
    ∀ k', k' ∉ below k → stores s2 k' = stores s1 k' ∧ disk s2 k' = disk s k') as (Ht2 & Hm2 & Hc2 & Ho2).
  { destruct (depends_below k) as [[Hd Hb]|(d & Hd & Hb & Hk)]; rewrite Hd in Hcas; cbn [for_each] in Hcas.
    - injection Hcas as <-. rewrite Hb. split; [done|]. split; [set_solver|]. split; [set_solver|done].
    - apply M_bind_Ok in Hcas as ([] & s2' & Hcas & [= <-]). rewrite (M_run_Ok _ _ _ s1 s1) in Hcas by done.
      destruct (cascade_spec _ d s1 s2' (IH d)) as ([H1 H2 H3] & Hout & Hall); [|done|].
      { split; [done| |].
        - intros k' Hk'. apply (mirrored_ext s); [apply Hs1; by intros ->|done|]. apply Hm. rewrite Hb. by right.
        - intros k' Hk' o e. rewrite Hs1 by (intros ->; apply Hk; by right). intros Ho.
          rewrite (consistent_ext s s1); [by eapply Hc; [rewrite Hb; by right|]|].
          intros k2 Hk2. apply Hs1. intros ->. revert Hk2. apply (depends_refers _ d); [rewrite Hd; by left|].
          by rewrite (proj1 (typed_entity _ Ht _ _ _ Ho)). }
      rewrite Hb. split; [done|]. split; [done|].
      split; [intros k' [->|Hk']%elem_of_cons; [done|by apply H3]|]. intros k' Hk'. by apply Hout. }
  assert (same_entities s2 s3) as Hse by done.
  assert (stores s4 k = pd_del (stores s k) key) as Hsk.
  { change (stores s3 k = pd_del (stores s k) key). rewrite S3.
    destruct (Ho2 k (not_below k)) as [-> _]. exact Hs1k. }
  assert (∀ k', k' ∈ below k → mirrored s4 k' ∧ all_consistent s4 k') as Hbelow.
  { intros k' Hk'. split.
    - apply (mirrored_ext s2); [change (stores s3 k' = stores s2 k'); by rewrite S3| |by apply Hm2].
      change (update_fun k (λ d, pd_del d (file_name key)) (disk s3) k' = disk s2 k').
      rewrite update_fun_ne by (intros ->; by apply (not_below k)). by rewrite D3.
    - intros o e Ho. change (pd_get (stores s3 k') o = Some e) in Ho. rewrite S3 in Ho.
      rewrite (consistent_ext s2); [by eapply Hc2|]. intros k2 _. change (stores s3 k2 = stores s2 k2). by rewrite S3. }
  split; [split|split].
  - destruct (typed_ext _ _ Hse Ht2) as [H1 H2 H3]. split; [done| |done]. intros k'.
    change (NoDup (pd_keys (update_fun k (λ d, pd_del d (file_name key)) (disk s3) k'))). unfold update_fun.
    case_decide; [by apply pd_keys_del_NoDup|done].
  - intros k' [->|Hk']%elem_of_cons; [|by apply Hbelow]. apply (mirrored_del s s4 k key); [done| |].
    + change (update_fun k (λ d, pd_del d (file_name key)) (disk s3) k = pd_del (disk s k) (file_name key)).
      rewrite update_fun_eq, D3. by destruct (Ho2 k (not_below k)) as [_ ->].
    + apply Hm. by left.
  - intros k' Hk'. by apply Hbelow.
  - intros k' [Hne Hk']%not_elem_of_cons. destruct (Ho2 k' Hk') as [E1 E2].
    change (stores s3 k' = stores s k' ∧ update_fun k (λ d, pd_del d (file_name key)) (disk s3) k' = disk s k').
    rewrite update_fun_ne by done. rewrite S3, D3, E1, E2. by rewrite Hs1.
  - done.
Qed.

Lemma delete_inv n k key s s' :
  delete float_of_string n k key s = (Ok tt, s') → inv s →
  inv s' ∧ stores s' k = pd_del (stores s k) key.
Proof.
  intros Hrun [Ht Hc Hm]. destruct (delete_spec n k key s s' Hrun) as ([Ht' Hm' Hc'] & Hout & Hdel).
  { split; [done|intros; apply Hm|intros; apply Hc]. }
  split; [|done]. split; [done| |].
  - intros k'. destruct (decide (k' ∈ below k)) as [Hb|Hb]; [by apply Hc'|]. intros o e Ho.
    assert (pd_get (stores s k') o = Some e) as Ho'.
    { destruct (decide (k' = k)) as [->|Hne]; [|by rewrite <- (proj1 (Hout k' ltac:(by apply not_elem_of_cons)))].
      rewrite Hdel, pd_get_del in Ho. by case_decide. }
    rewrite (consistent_ext s); [by eapply Hc|]. intros k2 Hk2. apply Hout. intros Hin. apply Hb.
    apply (refers_below k k' k2); [done|]. by rewrite <- (proj1 (typed_entity _ Ht _ _ _ Ho')).
  - intros k'. destruct (decide (k' ∈ k :: below k)) as [Hb|Hb]; [by apply Hm'|].
    destruct (Hout k' Hb). by apply (mirrored_ext s).
Qed.

(** *** Requests that are refused, and requests that end *)

Lemma tame_in_scoring m : tame m → tame (in_scoring float_of_string m).
Proof. intros Hm s. specialize (Hm (to_world float_of_string s)). unfold in_scoring. by destruct (m _). Qed.
Hint Resolve tame_in_scoring : tame.

Lemma tame_create_callbacks k key e : tame (create_callbacks float_of_string k key e).
Proof. unfold create_callbacks, watch. tame_tac. Qed.

Lemma tame_update_callbacks k key old e : tame (update_callbacks float_of_string k key old e).
Proof. unfold update_callbacks, watch. tame_tac. Qed.

Lemma tame_delete_callbacks k key old : tame (delete_callbacks float_of_string k key old).
Proof. unfold delete_callbacks, watch. tame_tac. Qed.

Lemma tame_save k key : tame (save can_write k key).
Proof. unfold save. tame_tac. Qed.
Hint Resolve tame_create_callbacks tame_update_callbacks tame_delete_callbacks tame_save : tame.

Lemma tame_merge k key e : tame (merge float_of_string can_write k key e).
Proof. unfold merge. tame_tac. Qed.
Hint Resolve tame_merge : tame.

(** The fuel of [delete] is enough. *)
Lemma tame_delete n k key : (List.length (below k) < n)%nat → tame (delete float_of_string n k key).
Proof.
  revert k key. induction n as [|n IH]; intros k key Hn; [lia|]. cbn [delete].
  apply tame_bind; [tame_tac|]. intros s. destruct (pd_get _ _) as [old|]; [|tame_tac].
  apply tame_bind; [tame_tac|]. intros _. apply tame_bind; [|intros _; tame_tac].
  destruct (depends_below k) as [[-> _]|(d & -> & Hb & _)]; [intros ?; exact I|]. rewrite Hb in Hn. cbn in Hn.
  cbn [for_each]. apply tame_bind; [|intros _; tame_tac]. apply tame_bind; [tame_tac|]. intros t.
  apply tame_for_each. intros o. apply tame_bind; [tame_tac|]. intros t'. destruct (consistent t' o.2); [tame_tac|].
  apply IH. lia.
Qed.

Lemma depth_enough k : (List.length (below k) < depth)%nat.
Proof. unfold depth. destruct k; cbn; lia. Qed.

(** The data is refused, or the rest of the method neither refuses it nor
    stops. *)
Definition checks {A} (m : M Server A) : Prop :=
  ∀ s, m s = (Raise InvalidData, s) ∨ tame_res (m s).1.

Lemma checks_tame {A} (m : M Server A) : tame m → checks m.
Proof. intros Hm s. right. apply Hm. Qed.

Lemma checks_get {A} (f : Server → M Server A) : (∀ s, checks (f s)) → checks (s ← get; f s).
Proof. intros Hf s. rewrite (M_run_Ok _ _ _ s s) by done. apply Hf. Qed.

Lemma checks_lift {A B} (r : res A) (f : A → M Server B) :
  r = Raise InvalidData ∨ tame_res r → (∀ a, checks (f a)) → checks (a ← lift r; f a).
Proof. intros Hr Hf s. unfold mbind, M_bind, lift. destruct r; naive_solver. Qed.

Lemma checks_raise {A} : checks (raise (A := A) InvalidData).
Proof. intros s. by left. Qed.

Lemma entity_set_checked k data : entity_set k data = Raise InvalidData ∨ tame_res (entity_set k data).
Proof. apply entity_set_cases; [by left|by right]. Qed.

Lemma checks_create k key data : checks (create float_of_string can_write k key data).
Proof.
  apply checks_get. intros s. destruct (has s k key); [apply checks_tame; tame_tac|].
  apply checks_lift; [apply entity_set_checked|]. intros item.
  destruct (negb _); [apply checks_raise|apply checks_tame; tame_tac].
Qed.

Lemma checks_update k key data : checks (update float_of_string can_write k key data).
Proof.
  apply checks_get. intros s. destruct (pd_get _ _); [|apply checks_tame; tame_tac].
  apply checks_lift; [apply entity_set_checked|]. intros item.
  destruct (negb _); [apply checks_raise|apply checks_tame; tame_tac].
Qed.

Lemma check_items s k acc l :
  fold_res (check_item s k) acc l = Raise InvalidData ∨ tame_res (fold_res (check_item s k) acc l).
Proof.
  revert acc. induction l as [|[key data] l IH]; intros acc; [by right|]. cbn [fold_res].
  unfold check_item at 2 4. destruct (negb (starts_as_key _)); [by left|]. cbn [fst snd].
  destruct (entity_set_checked k data) as [->|He]; [by left|]. destruct (entity_set k data); try (by right).
  cbn [mbind res_bind]. destruct (negb _); [by left|]. apply IH.
Qed.

Lemma checks_merge_list k data : checks (merge_list float_of_string can_write k data).
Proof.
  destruct data; try apply checks_raise. apply checks_get. intros s.
  apply checks_lift; [apply check_items|]. intros items. apply checks_tame. tame_tac.
Qed.

Lemma checks_put k key data :
  checks (s ← get; if negb (has s k key) then create float_of_string can_write k key data
                   else update float_of_string can_write k key data).
Proof. apply checks_get. intros s. destruct (negb _); [apply checks_create|apply checks_update]. Qed.

(** *** What the methods of the stores keep *)

Lemma create_inv k key data s s' :
  create float_of_string can_write k key data s = (Ok tt, s') → key ≠ "" → inv s → inv s'.
Proof.
  intros Hrun Hne Hi. unfold create in Hrun. rewrite (M_run_Ok _ _ _ s s) in Hrun by done.
  destruct (has s k key); [done|]. apply M_bind_Ok in Hrun as (e & s1 & [= He <-] & Hrun).
  apply entity_set_Ok in He as [Hk He]. destruct (consistent s e) eqn:Hc; [|done]. cbn [negb] in Hrun.
  apply M_bind_Ok in Hrun as ([] & s1 & [= <-] & Hrun).
  apply M_bind_Ok in Hrun as ([] & s2 & Hcb%create_callbacks_same & Hrun).
  by destruct (put_inv k key e s s2 s' Hi Hk He Hne Hc Hcb Hrun).
Qed.

Lemma update_inv k key data s s' :
  update float_of_string can_write k key data s = (Ok tt, s') → inv s → inv s'.
Proof.
  intros Hrun Hi. unfold update in Hrun. rewrite (M_run_Ok _ _ _ s s) in Hrun by done.
  destruct (pd_get (stores s k) key) as [old|] eqn:Hold; [|done].
  apply M_bind_Ok in Hrun as (e & s1 & [= He <-] & Hrun).
  apply entity_set_Ok in He as [Hk He]. destruct (consistent s e) eqn:Hc; [|done]. cbn [negb] in Hrun.
  apply M_bind_Ok in Hrun as ([] & s1 & [= <-] & Hrun).
  apply M_bind_Ok in Hrun as ([] & s2 & Hcb%update_callbacks_same & Hrun).
  destruct (typed_entity _ (inv_typed _ Hi) _ _ _ Hold) as (_ & _ & Hne).
  by destruct (put_inv k key e s s2 s' Hi Hk He Hne Hc Hcb Hrun).
Qed.

Lemma check_items_spec s k l acc items :
  fold_res (check_item s k) acc l = Ok items →
  (∀ key e, (key, e) ∈ acc → kind_of e = k ∧ entity_set k (entity_get e) = Ok e ∧ key ≠ "" ∧ consistent s e = true) →
  ∀ key e, (key, e) ∈ items → kind_of e = k ∧ entity_set k (entity_get e) = Ok e ∧ key ≠ "" ∧ consistent s e = true.
Proof.
  revert acc. induction l as [|[key data] l IH]; intros acc H Hacc; [by injection H as <-|].
  cbn [fold_res] in H. apply res_bind_Ok in H as (acc' & Hc & H). apply (IH acc' H). clear H IH.
  unfold check_item in Hc. cbn [fst snd] in Hc. destruct (starts_as_key key) eqn:Hkey; [|done]. cbn [negb] in Hc.
  apply res_bind_Ok in Hc as (e & He & Hc). apply entity_set_Ok in He as [Hk He].
  destruct (consistent s e) eqn:Hcons; [|done]. injection Hc as <-.
  intros key' e' [[= -> ->]|Hin]%pd_set_elem; [|by apply Hacc]. split_and!; try done. by intros ->.
Qed.

Lemma merge_list_inv k data s s' :
  merge_list float_of_string can_write k data s = (Ok tt, s') → inv s → inv s'.
Proof.
  intros Hrun Hi. destruct data as [| | | | | |d]; try done. unfold merge_list in Hrun.
  rewrite (M_run_Ok _ _ _ s s) in Hrun by done. apply M_bind_Ok in Hrun as (items & s1 & [= Hit <-] & Hrun).
  pose proof (check_items_spec s k d [] items Hit ltac:(by intros ?? ?%elem_of_nil)) as Hok.
  apply (for_each_returns _ (λ _ t, inv t ∧ ∀ k key, has s k key = true → has t k key = true)) in Hrun;
    [by destruct Hrun| |by split].
  intros pre [key e] post t t' Hsplit [Ht Hgrow] Hm. cbn [fst snd] in Hm.
  destruct (Hok key e) as (Hk & He & Hne & Hc); [rewrite Hsplit; apply elem_of_app; right; left|].
  unfold merge in Hm. rewrite (M_run_Ok _ _ _ t t) in Hm by done.
  apply M_bind_Ok in Hm as ([] & t1 & [= <-] & Hm). apply M_bind_Ok in Hm as ([] & t2 & Hcb & Hm).
  assert (same_entities (with_store k (λ d, pd_set d key e) t) t2) as Hse.
  { destruct (pd_get (stores t k) key); [by eapply update_callbacks_same|by eapply create_callbacks_same]. }
  destruct (put_inv k key e t t2 t' Ht Hk He Hne (consistent_mono s t e Hgrow Hc) Hse Hm) as [Ht' Hhas].
  split; [done|]. intros k' key' H'. by rewrite Hhas, (Hgrow _ _ H').
Qed.

Lemma delete_list_inv k s s' :
  delete_list float_of_string k s = (Ok tt, s') → inv s → inv s'.
Proof.
  intros Hrun Hi. unfold delete_list in Hrun. rewrite (M_run_Ok _ _ _ s s) in Hrun by done.
  apply (for_each_returns _ (λ _ t, inv t)) in Hrun; [done| |done].
  intros _ key _ t t' _ Ht Hd. by eapply delete_inv.
Qed.

(** *** Requests *)

(** The request ends; if it is answered the invariant stays, and an answer
    that is an error changes nothing. *)
Definition answers (m : M Server Response) : Prop := ∀ s, inv s →
  returns_or_raises (m s).1 ∧ ∀ r s', m s = (Ok r, s') → inv s' ∧ ((400 <= status r)%Z → s' = s).

Lemma answers_reply code : answers (reply code).
Proof. intros s Hs. split; [exact I|]. by intros r s' [= <- <-]. Qed.

Lemma tame_returns {A} (r : res A) : tame_res r → returns_or_raises r.
Proof. by destruct r. Qed.

(** A method that checks its data and keeps the invariant when it returns. *)
Definition sound (m : M Server unit) : Prop := ∀ s s', m s = (Ok tt, s') → inv s → inv s'.

Lemma answers_tame m code : (code < 400)%Z → tame m → sound m → answers (_ ← m; reply code).
Proof.
  intros Hcode Ht Hm s Hs. specialize (Ht s). unfold mbind, M_bind. destruct (m s) as [[[]|e'| |] s1] eqn:Hr; try done.
  split; [exact I|]. intros r s' [= <- <-]. split; [by eapply Hm|cbn; lia].
Qed.

Lemma answers_payload request f :
  (∀ data, checks (f data)) → (∀ data, sound (f data)) → answers (with_payload request f).
Proof.
  intros Hc Hf. unfold with_payload. destruct (negb (authorized request)); [apply answers_reply|].
  destruct (negb (is_json request)); [apply answers_reply|]. destruct (payload request) as [data|]; [|apply answers_reply].
  intros s Hs. unfold try_except, mbind, M_bind. destruct (Hc data s) as [->|Ht].
  - cbn. split; [exact I|]. by intros r s' [= <- <-].
  - destruct (f data s) as [[[]|e| |] s1] eqn:Hr; try done; cbn.
    + split; [exact I|]. intros r s' [= <- <-]. split; [by eapply Hf|cbn; lia].
    + unfold invalid_data. rewrite bool_decide_eq_false_2 by exact Ht. done.
Qed.

Lemma is_key_nonempty key : is_key key = true → key ≠ "".
Proof. by intros H ->. Qed.

Lemma answers_wsgi_app k e : answers (wsgi_app float_of_string can_write k e).
Proof.
  destruct e as [key| |key request|request|key request|request]; cbn [wsgi_app].
  - unfold handle_get. destruct (negb (is_key key)); [apply answers_reply|]. intros s Hs.
    rewrite (M_run_Ok _ _ _ s s) by done. destruct (has s k key) eqn:Hh; [|by apply answers_reply].
    apply has_elem in Hh as [e He]. unfold retrieve. rewrite He. split; [exact I|]. by intros r s' [= <- <-].
  - intros s Hs. split; [exact I|]. by intros r s' [= <- <-].
  - unfold handle_put. destruct (is_key key) eqn:Hkey; [|apply answers_reply]. apply is_key_nonempty in Hkey.
    apply answers_payload; [intros data; apply checks_put|]. intros data s s' Hrun Hs.
    rewrite (M_run_Ok _ _ _ s s) in Hrun by done.
    destruct (negb (has s k key)); [by eapply create_inv|by eapply update_inv].
  - apply answers_payload; [apply checks_merge_list|]. intros data s s'. apply merge_list_inv.
  - unfold handle_delete. destruct (negb (is_key key)); [apply answers_reply|]. intros s Hs.
    rewrite (M_run_Ok _ _ _ s s) by done. destruct (negb (has s k key)); [by apply answers_reply|].
    destruct (negb (authorized request)); [by apply answers_reply|].
    apply answers_tame; [done|apply tame_delete, depth_enough| |done]. intros t t' Hd Ht.
    by destruct (delete_inv _ _ _ _ _ Hd Ht).
  - unfold handle_delete_list. destruct (negb (authorized request)); [apply answers_reply|].
    apply answers_tame; [done| |].
    + unfold delete_list. apply tame_bind; [tame_tac|]. intros s. apply tame_for_each. intros key.
      apply tame_delete, depth_enough.
    + intros s s'. apply delete_list_inv.
Qed.

(** A server without entities; requests that are answered. *)
Definition empty_server : Server := mk_server (λ _, []) (λ _, []) [] [] [].

Inductive answered (s s' : Server) : Prop :=
  | answered_intro k e r : wsgi_app float_of_string can_write k e s = (Ok r, s') → answered s s'.

Lemma empty_server_inv : inv empty_server.
Proof. split; [split|..]; try done; intros k; constructor. Qed.

Lemma answered_inv s : rtc answered empty_server s → inv s.
Proof.
  assert (∀ a, rtc answered a s → inv a → inv s) as H.
  { induction 1 as [|a b c [k e r Hr] _ IH]; [done|]. intros Ha. apply IH.
    by destruct (answers_wsgi_app k e a Ha) as [_ Hs], (Hs r b Hr). }
  intros Hr. exact (H _ Hr empty_server_inv).
Qed.

(** C35. Whatever the requests that the server has answered, with any data and
    in any order, every entity it holds refers to entities that it holds: a
    task to its contest, a user to the team, a submission to its user and
    task, a change to its submission. A further request always ends, and if
    it is answered with an error nothing has changed. *)
Theorem server_keeps_references s :
  rtc answered empty_server s →
  (∀ k key e, pd_get (stores s k) key = Some e → kind_of e = k ∧ consistent s e = true) ∧
  ∀ k e, returns_or_raises (wsgi_app float_of_string can_write k e s).1 ∧
    ∀ r s', wsgi_app float_of_string can_write k e s = (Ok r, s') → (400 <= status r)%Z → s' = s.
Proof.
  intros Hi%answered_inv. split.
  - intros k key e He. split; [by eapply typed_entity; [apply Hi|]|by eapply inv_consistent].
  - intros k e. destruct (answers_wsgi_app k e s Hi) as [Hr Ha]. split; [done|]. intros r s' H. by apply (Ha r).
Qed.

(** *** Restarting *)

Lemma load_spec k (d : pydict string json) (store0 : pydict string entity) :
  NoDup (pd_keys d) →
  (∀ name j, (name, j) ∈ d → ∃ key e, name = file_name key ∧ key ≠ "" ∧ j = entity_get e ∧ entity_set k j = Ok e) →
  ∀ key, pd_get (load_from_disk k (prod_map id Some <$> d) store0) key =
    match pd_get d (file_name key) with
    | Some j => match entity_set k j with Ok e => Some e | _ => None end
    | None => pd_get store0 key
    end.
Proof.
  revert store0. induction d as [|[name j] d IH]; intros store0 Hn Hd key; [done|].
  apply NoDup_cons in Hn as [Hname Hn]. csimpl in *.
  destruct (Hd name j ltac:(by left)) as (key' & e & -> & Hne & -> & He).
  rewrite key_of_file_name, He by done. rewrite IH; [|done|intros ?? ?; apply Hd; by right].
  destruct (decide (file_name key = file_name key')) as [E|E].
  - apply file_name_inj in E as ->. rewrite (proj2 (pd_get_None d _) Hname), He. apply pd_get_set_eq.
  - destruct (pd_get d (file_name key)); [done|]. apply pd_get_set_ne. by intros ->.
Qed.

(** C36. If the files of all its entities could be written, a server that is
    started again finds in each directory, whatever the order in which the
    system lists the files, exactly the entities that the server held before:
    every one is stored under its key as it was. *)
Theorem restart_restores s k files :
  rtc answered empty_server s → (∀ key, has s k key = true → can_write key = true) →
  files ≡ₚ (prod_map id Some <$> disk s k) →
  ∀ key, pd_get (load_from_disk k files []) key = pd_get (stores s k) key.
Proof.
  intros Hi%answered_inv Hw Hp key.
  assert (∃ d, files = prod_map id Some <$> d ∧ d ≡ₚ disk s k) as (d & -> & Hd).
  { change (files ≡ₚ map (prod_map id Some) (disk s k)) in Hp.
    apply Permutation_map_inv in Hp as (d & -> & Hd). by exists d. }
  assert (NoDup (pd_keys d)) as Hn by (unfold pd_keys; rewrite Hd; apply Hi).
  assert (∀ name, pd_get d name = pd_get (disk s k) name) as Hg by (intros name; by apply pd_get_Permutation).
  destruct (inv_mirrored _ Hi k) as [M1 M2]. rewrite load_spec; [|done|].
  - rewrite Hg. destruct (pd_get (stores s k) key) as [e|] eqn:He.
    + rewrite (M2 _ _ He) by (apply Hw; apply has_elem; by eexists).
      by destruct (typed_entity _ (inv_typed _ Hi) _ _ _ He) as (_ & -> & _).
    + destruct (pd_get (disk s k) (file_name key)) as [j|] eqn:Hj; [|done].
      destruct (M1 _ _ Hj) as (key' & e & ->%file_name_inj & _ & He' & _). congruence.
  - intros name j Hin%pd_in_get; [|done]. rewrite Hg in Hin. destruct (M1 _ _ Hin) as (key' & e & -> & _ & He & ->).
    destruct (typed_entity _ (inv_typed _ Hi) _ _ _ He) as (_ & Hget & Hne). by exists key', e.
Qed.
End invariant.

(** ** A contest with one task, one user and one scored submission *)

Section demo.
Let demo_float (s : string) : option float := if String.eqb s "40" then Some (of_Z 40) else None.
Let demo_write (s : string) : bool := true.

Definition demo_request (j : json) : Request := mk_request true true (Some j).

Definition demo_requests : list (kind * endpoint) :=
  [(CONTEST, PutList (demo_request (JObject [("ioi", JObject [("name", JString "IOI"); ("begin", JInt 0);
      ("end", JInt 100); ("score_precision", JInt 2)])])));
   (TASK, Put "sum" (demo_request (JObject [("name", JString "Sum"); ("short_name", JString "sum");
      ("contest", JString "ioi"); ("max_score", JFloat (of_Z 100)); ("score_precision", JInt 0);
      ("extra_headers", JList [JString "Subtask 1 (100)"]); ("score_mode", JString "max"); ("order", JInt 0)])));
   (USER, Put "ada" (demo_request (JObject [("f_name", JString "Ada"); ("l_name", JString "L"); ("team", JNull)])));
   (SUBMISSION, PutList (demo_request (JObject [("10", JObject [("user", JString "ada");
      ("task", JString "sum"); ("time", JInt 7)])])));
   (SUBCHANGE, PutList (demo_request (JObject [("710s", JObject [("submission", JString "10"); ("time", JInt 7);
      ("score", JFloat (of_Z 40)); ("extra", JList [JString "40"])])])));
   (SUBMISSION, Put "11" (demo_request (JObject [("user", JString "eve"); ("task", JString "sum"); ("time", JInt 8)])))].

Fixpoint serve_requests (l : list (kind * endpoint)) (s : Server) : option (list Z * Server) :=
  match l with
  | [] => Some ([], s)
  | (k, e) :: l =>
      match wsgi_app demo_float demo_write k e s with
      | (Ok r, s') => prod_map (cons (status r)) id <$> serve_requests l s'
      | _ => None
      end
  end.

Lemma serve_requests_answered l s codes s' :
  serve_requests l s = Some (codes, s') → rtc (answered demo_float demo_write) s s'.
Proof.
  revert s codes. induction l as [|[k e] l IH]; intros s codes H; cbn in H; [by injection H as _ <-|].
  destruct (wsgi_app _ _ k e s) as [[r| | |] s1] eqn:Hr; try done.
  destruct (serve_requests l s1) as [[codes1 s2]|] eqn:Hl; [|done]. injection H as _ ->.
  eapply rtc_l; [by econstructor|by eapply IH].
Qed.

Definition demo_server : Server := default empty_server (snd <$> serve_requests demo_requests empty_server).

Lemma demo_server_answered : rtc (answered demo_float demo_write) empty_server demo_server.
Proof.
  unfold demo_server. destruct (serve_requests demo_requests empty_server) as [[codes s]|] eqn:H.
  - by eapply serve_requests_answered.
  - apply rtc_refl.
Qed.

(** The submission of an unknown user is refused; deleting the contest
    deletes its task, the submission and its change. *)
Lemma server_keeps_references_witness :
  (fst <$> serve_requests demo_requests empty_server) = Some [204; 204; 204; 204; 204; 400]%Z ∧
  notified demo_server = [("ada", "sum", of_Z 40)] ∧
  (λ k, pd_keys (stores (wsgi_app demo_float demo_write CONTEST (Delete "ioi" (demo_request JNull)) demo_server).2 k))
    <$> [CONTEST; TASK; TEAM; USER; SUBMISSION; SUBCHANGE] = [[]; []; []; ["ada"]; []; []] ∧
  ∀ k key e, pd_get (stores demo_server k) key = Some e → kind_of e = k ∧ consistent demo_server e = true.
Proof.
  split; [vm_compute; reflexivity|]. split; [vm_compute; reflexivity|]. split; [vm_compute; reflexivity|].
  apply (server_keeps_references demo_float demo_write demo_server demo_server_answered).
Defined.

Lemma restart_restores_witness :
  (pd_keys (disk demo_server SUBMISSION) = ["10.json"]) ∧
  ∀ key, pd_get (load_from_disk SUBMISSION (prod_map id Some <$> disk demo_server SUBMISSION) []) key =
    pd_get (stores demo_server SUBMISSION) key.
Proof.
  split; [vm_compute; reflexivity|].
  apply (restart_restores demo_float demo_write demo_server SUBMISSION); [apply demo_server_answered|done|done].
Defined.
End demo.
