(* ===== verification/ProxyService.v ===== *)
(** * The proxy service (cms/service/ProxyService.py)

    A [TriggeredService] with one executor for each ranking server. An
    operation is some entities of one type to send; operations are compared
    by identity, so that the queues hold the number of an object of
    [ps_objects]. Handlers only read the database. The requests go through
    [put], a parameter that gives the status of the answer or raises; logging
    and the wait after a failure are left out. Names are code names (ASCII). *)

From S2P Require Import Prelude PriorityQueue Executor PyFloat PyString ScoringStore RankingEntities.
From S2P Require Import Database DbUtil ScoreTypes.
From stdpp Require Import pretty.

Local Open Scope string_scope.
Local Open Scope list_scope.

(** ** Names and times *)

(** ["%x" % n], for [n < 256]. *)
Definition hex_digit (n : nat) : Ascii.ascii :=
  Ascii.ascii_of_nat (if (n <? 10)%nat then 48 + n else 87 + n).
Definition hex (n : nat) : string :=
  if (n <? 16)%nat then String (hex_digit n) EmptyString
  else String (hex_digit (n / 16)) (String (hex_digit (n mod 16)) EmptyString).

(** [char in string.ascii_letters + string.digits] *)
Definition letter_or_digit (c : Ascii.ascii) : bool :=
  let n := Ascii.nat_of_ascii c in
  (48 <=? n)%nat && (n <=? 57)%nat || (65 <=? n)%nat && (n <=? 90)%nat || (97 <=? n)%nat && (n <=? 122)%nat.

Fixpoint encode_id (entity_id : string) : string :=
  match entity_id with
  | EmptyString => EmptyString
  | String char rest =>
      if letter_or_digit char then String char (encode_id rest)
      else "_" +:+ hex (Ascii.nat_of_ascii char) +:+ encode_id rest
  end.

(** [int(make_timestamp(t))], from microseconds. *)
Definition seconds (t : Z) : Z := Z.quot t 1000000.

(** ** Operations *)

Record ProxyOperation : Type := mkProxyOperation {
  type_ : kind;
  data : pydict string json;
}.

(** In the order of the constants of [ProxyExecutor]. *)
Definition types : list kind := [CONTEST; TASK; TEAM; USER; SUBMISSION; SUBCHANGE].

Definition resource_path (k : kind) : string :=
  match k with
  | CONTEST => "contests" | TASK => "tasks" | TEAM => "teams"
  | USER => "users" | SUBMISSION => "submissions" | SUBCHANGE => "subchanges"
  end.

(** [d.update(e)] *)
Definition dict_update (d e : pydict string json) : pydict string json :=
  foldl (λ d kv, pd_set d kv.1 kv.2) d e.

(** [data], the entities to send, by type. *)
Definition combine (entries : list ProxyOperation) : kind → pydict string json :=
  foldl (λ d op k, if decide (k = type_ op) then dict_update (d k) (data op) else d k) (λ _, []) entries.

Definition CannotSendError : exn := UserError "CannotSendError".
Definition RequestException : exn := UserError "requests.exceptions.RequestException".

Section sending.
(** The ranking server; [put] sends a request and gives its status. *)
Context {R : Type} (put : kind → json → M R Z).

Definition safe_put_data (k : kind) (data : json) : M R unit :=
  status ← try_except (λ e, bool_decide (e = RequestException)) (put k data) (raise CannotSendError);
  if ((400 <=? status) && (status <? 600))%Z then raise CannotSendError else mret tt.

(** [data[i].clear()] has no effect on what follows. *)
Definition send_type (data : kind → pydict string json) (k : kind) : M R unit :=
  if decide (data k = []) then mret tt else safe_put_data k (JObject (data k)).

(** Any exception ends the sending. *)
Definition execute (entries : list ProxyOperation) : M R unit :=
  try_except (λ _, true) (for_each (send_type (combine entries)) types) (mret tt).
End sending.

(** ** The service *)

Section ProxyService.
Context {Q : Type} `{!PQueue nat Q} (re_match : string → option (string → bool)).

Record Proxy : Type := mkProxy {
  contest_id : Z;
  scores_sent_to_rankings : gset Z;
  tokens_sent_to_rankings : gset Z;
  ps_service : TriggeredService (Q := Q);
  ps_objects : list ProxyOperation;
}.

Definition set_scores_sent (f : gset Z → gset Z) (p : Proxy) : Proxy :=
  mkProxy (contest_id p) (f (scores_sent_to_rankings p)) (tokens_sent_to_rankings p) (ps_service p) (ps_objects p).
Definition set_tokens_sent (f : gset Z → gset Z) (p : Proxy) : Proxy :=
  mkProxy (contest_id p) (scores_sent_to_rankings p) (f (tokens_sent_to_rankings p)) (ps_service p) (ps_objects p).
Definition set_ps_service (s : TriggeredService (Q := Q)) (p : Proxy) : Proxy :=
  mkProxy (contest_id p) (scores_sent_to_rankings p) (tokens_sent_to_rankings p) s (ps_objects p).

(** A new object and [self.enqueue(operation)]. *)
Definition enqueue_operation (now : Z) (op : ProxyOperation) : M Proxy unit :=
  p ← get;
  let id := List.length (ps_objects p) in
  _ ← modify (λ p, mkProxy (contest_id p) (scores_sent_to_rankings p) (tokens_sent_to_rankings p)
                     (ps_service p) (ps_objects p ++ [op]));
  '(_, s) ← lift (service_enqueue id None None (λ _, now) (ps_service p));
  modify (set_ps_service s).

(** [submission.participation], [participation.user], [participation.team] *)
Definition participation_of (db : Db) (s : Submission) : option Participation :=
  head (filter (λ p, pa_id p = sub_participation_id s) (db_participations db)).
Definition user_of (db : Db) (p : Participation) : option User :=
  head (filter (λ u, us_id u = pa_user_id p) (db_users db)).
Definition team_of (db : Db) (p : Participation) : option Team :=
  head (filter (λ t, Some (tm_id t) = pa_team_id p) (db_teams db)).

Definition submission_user (db : Db) (s : Submission) : res User :=
  p ← or_raise AttributeError (participation_of db s); or_raise AttributeError (user_of db p).

(** The name of the submission: ["%d" % submission.id]. *)
Definition submission_key (s : Submission) : string := pretty (sub_id s).

(** [submission_data] *)
Definition submission_data (db : Db) (s : Submission) : res json :=
  u ← submission_user db s;
  t ← or_raise AttributeError (get_task db (sub_task_id s));
  Ok (JObject [("user", JString (encode_id (us_username u))); ("task", JString (encode_id (task_name t)));
               ("time", JInt (seconds (sub_timestamp s)))]).

Definition opt_json {A} (f : A → json) (o : option A) : json := match o with Some a => f a | None => JNull end.

Definition score_data (s : Submission) (sr : option SubmissionResult) : json :=
  JObject ([("submission", JString (submission_key s)); ("time", JInt (seconds (sub_timestamp s)))]
           ++ match sr with
              | Some sr =>
                  if SR.scored sr then
                    [("score", opt_json JFloat (sr_score sr)); ("extra", opt_json strs (sr_ranking_score_details sr))]
                  else []
              | None => []
              end).

(** ["%d%ss" % (make_timestamp(submission.timestamp), submission_id)] *)
Definition score_key (s : Submission) : string :=
  pretty (seconds (sub_timestamp s)) +:+ submission_key s +:+ "s".

Definition operations_for_score (db : Db) (s : Submission) : M Proxy (list ProxyOperation) :=
  sr ← lift (submission_get_result db s None);
  submission_data ← lift (submission_data db s);
  _ ← modify (set_scores_sent ({[sub_id s]} ∪.));
  mret [mkProxyOperation SUBMISSION [(submission_key s, submission_data)];
        mkProxyOperation SUBCHANGE [(score_key s, score_data s sr)]].

Definition token_data (s : Submission) (token : Z) : json :=
  JObject [("submission", JString (submission_key s)); ("time", JInt (seconds token)); ("token", JBool true)].

Definition token_key (s : Submission) (token : Z) : string :=
  pretty (seconds token) +:+ submission_key s +:+ "t".

Definition operations_for_token (db : Db) (s : Submission) : M Proxy (list ProxyOperation) :=
  submission_data ← lift (submission_data db s);
  token ← lift (or_raise AttributeError (sub_token s));
  _ ← modify (set_tokens_sent ({[sub_id s]} ∪.));
  mret [mkProxyOperation SUBMISSION [(submission_key s, submission_data)];
        mkProxyOperation SUBCHANGE [(token_key s token, token_data s token)]].

(** [for operation in ...: self.enqueue(operation)] *)
Definition enqueue_operations (now : Z) (ops : list ProxyOperation) : M Proxy unit :=
  for_each (enqueue_operation now) ops.

(** *** initialize *)

(** One participation: [users] and [teams]. *)
Definition participation_data (db : Db) (acc : pydict string json * pydict string json) (p : Participation)
    : res (pydict string json * pydict string json) :=
  let '(users, teams) := acc in
  if pa_hidden p then Ok (users, teams)
  else
    u ← or_raise AttributeError (user_of db p);
    let team := team_of db p in
    Ok (pd_set users (encode_id (us_username u))
          (JObject [("f_name", JString (us_first_name u)); ("l_name", JString (us_last_name u));
                    ("team", opt_json (λ t, JString (encode_id (tm_code t))) team)]),
        match team with
        | Some t => pd_set teams (encode_id (tm_code t)) (JObject [("name", JString (tm_name t))])
        | None => teams
        end).

Definition task_data (db : Db) (c : Contest) (tasks : pydict string json) (t : Task) : res (pydict string json) :=
  dataset ← or_raise AttributeError (task_active_dataset_id t ≫= get_dataset db);
  score_type ← score_type_object re_match db dataset;
  Ok (pd_set tasks (encode_id (task_name t))
        (JObject [("short_name", JString (task_name t)); ("name", JString (task_title t));
                  ("contest", JString (encode_id (co_name c))); ("order", opt_json JInt (task_num t));
                  ("max_score", JFloat (max_score score_type));
                  ("extra_headers", strs (ranking_headers score_type));
                  ("score_precision", JInt (task_score_precision t));
                  ("score_mode", JString (task_score_mode t))])).

Definition contest_data (c : Contest) : json :=
  JObject [("name", JString (co_description c)); ("begin", JInt (seconds (co_start c)));
           ("end", JInt (seconds (co_stop c))); ("score_precision", JInt (co_score_precision c))].

(** The operations of [initialize]. *)
Definition initial_operations (db : Db) (id : Z) : res (list ProxyOperation) :=
  c ← or_raise KeyError (head (filter (λ c, co_id c = id) (db_contests db)));
  '(users, teams) ← fold_res (participation_data db) ([], [])
     (filter (λ p, pa_contest_id p = id) (db_participations db));
  tasks ← fold_res (task_data db c) [] (filter (λ t, task_contest_id t = Some id) (db_tasks db));
  Ok [mkProxyOperation CONTEST [(encode_id (co_name c), contest_data c)];
      mkProxyOperation TEAM teams; mkProxyOperation USER users; mkProxyOperation TASK tasks].

Definition initialize (now : Z) (db : Db) : M Proxy unit :=
  p ← get;
  ops ← lift (initial_operations db (contest_id p));
  enqueue_operations now ops.

Definition reinitialize (now : Z) (db : Db) : M Proxy unit := initialize now db.

(** [__init__], with [rankings] servers. *)
Definition proxy_init (contest_id : Z) (rankings : nat) (now : Z) (db : Db) : res Proxy :=
  let service := Nat.iter rankings (add_executor (executor_init true)) service_init in
  match initialize now db (mkProxy contest_id ∅ ∅ service []) with
  | (Ok _, p) => Ok (set_ps_service (start_sweeper 347 (ps_service p)) p)
  | (Raise e, _) => Raise e
  | (Blocks, _) => Blocks
  | (NoFuel, _) => NoFuel
  end.

(** *** The sweep *)

Definition visible (db : Db) (s : Submission) : bool :=
  match participation_of db s with Some p => negb (pa_hidden p) | None => false end.

Definition sweep_submission (now : Z) (db : Db) (counter : Z) (s : Submission) : M Proxy Z :=
  sr ← lift (submission_get_result db s None);
  match sr with
  | None => mret counter
  | Some sr =>
      p ← get;
      counter ← (if SR.scored sr && negb (bool_decide (sub_id s ∈ scores_sent_to_rankings p)) then
                   ops ← operations_for_score db s;
                   _ ← enqueue_operations now ops; mret (counter + Z.of_nat (List.length ops))%Z
                 else mret counter);
      p ← get;
      if is_some (sub_token s) && negb (bool_decide (sub_id s ∈ tokens_sent_to_rankings p)) then
        ops ← operations_for_token db s;
        _ ← enqueue_operations now ops; mret (counter + Z.of_nat (List.length ops))%Z
      else mret counter
  end.

Definition _missing_operations (now : Z) (db : Db) : M Proxy Z :=
  p ← get;
  submissions ← lift (get_submissions db (Some (contest_id p)) None None None);
  for_acc (sweep_submission now db) 0%Z (filter (λ s, visible db s = true ∧ sub_official s = true) submissions).

(** *** Remote calls *)

(** The checks that [submission_scored] and [submission_tokened] share; the
    operations are computed after them. *)
Definition notify_rankings (db : Db) (submission_id : Z)
    (now : Z) (operations : Submission → M Proxy (list ProxyOperation)) : M Proxy unit :=
  s ← lift (or_raise KeyError (get_submission db submission_id));
  t ← lift (or_raise AttributeError (get_task db (sub_task_id s)));
  p ← get;
  if negb (bool_decide (task_contest_id t = Some (contest_id p))) then mret tt
  else
    pa ← lift (or_raise AttributeError (participation_of db s));
    if pa_hidden pa then mret tt
    else if negb (sub_official s) then mret tt
    else ops ← operations s; enqueue_operations now ops.

Definition submission_scored (now : Z) (db : Db) (submission_id : Z) : M Proxy unit :=
  notify_rankings db submission_id now (operations_for_score db).

Definition submission_tokened (now : Z) (db : Db) (submission_id : Z) : M Proxy unit :=
  notify_rankings db submission_id now (operations_for_token db).

(** One submission of the task, in [dataset_updated]. *)
Definition update_submission (now : Z) (db : Db) (s : Submission) : M Proxy unit :=
  pa ← lift (or_raise AttributeError (participation_of db s));
  if pa_hidden pa || negb (sub_official s) then mret tt
  else
    sr ← lift (submission_get_result db s None);
    match sr with
    | Some sr => if SR.scored sr then ops ← operations_for_score db s; enqueue_operations now ops else mret tt
    | None => mret tt
    end.

(** The messages of the log name [task.contest.id] and [dataset.id]. *)
Definition dataset_updated (now : Z) (db : Db) (task_id : Z) : M Proxy unit :=
  t ← lift (or_raise AttributeError (get_task db task_id));
  p ← get;
  if negb (bool_decide (task_contest_id t = Some (contest_id p))) then
    if is_some (task_contest_id t) then mret tt else raise AttributeError
  else
    _ ← lift (or_raise AttributeError (task_active_dataset_id t ≫= get_dataset db));
    _ ← reinitialize now db;
    for_each (update_submission now db) (filter (λ s, sub_task_id s = task_id) (db_submissions db)).

(** *** The executors *)

(** One turn of the loop of the [i]-th executor. *)
Definition ranking_turn {R} (put : kind → json → M R Z) (i : nat) : M (Proxy * R) unit :=
  '(p, r) ← get;
  ex ← lift (or_raise IndexError (_executors (ps_service p) !! i));
  '(es, ex') ← lift (run_iteration ex);
  let s := mkService (<[i := ex']> (_executors (ps_service p)))
             (_sweeper_started (ps_service p)) (_sweeper_timeout (ps_service p)) in
  entries ← lift (map_res (λ e, or_raise IndexError (ps_objects p !! PriorityQueue.item e)) es);
  _ ← Prelude.put (set_ps_service s p, r);
  zoom snd (λ r pr, (pr.1, r)) (execute put entries).

(** ** What is sent *)

(** [s] is a submission of the contest [cid] that the rankings may show. *)
Record announced (db : Db) (cid : Z) (s : Submission) : Prop := {
  ann_known : s ∈ db_submissions db;
  ann_official : sub_official s = true;
  ann_visible : visible db s = true;
  ann_task : ∃ t, t ∈ db_tasks db ∧ task_id t = sub_task_id s ∧ task_contest_id t = Some cid;
}.

(** In [db], [pa] takes part in the contest and is not hidden. *)
Definition takes_part (db : Db) (cid : Z) (pa : Participation) : Prop :=
  pa ∈ db_participations db ∧ pa_contest_id pa = cid ∧ pa_hidden pa = false.

(** [key] is the name of a user of the contest who is not hidden. *)
Definition public_user (db : Db) (cid : Z) (key : string) : Prop :=
  ∃ pa u, takes_part db cid pa ∧ user_of db pa = Some u ∧ key = encode_id (us_username u).

(** [key] is the code of the team of such a user. *)
Definition public_team (db : Db) (cid : Z) (key : string) : Prop :=
  ∃ pa t, takes_part db cid pa ∧ team_of db pa = Some t ∧ key = encode_id (tm_code t).

(** An operation on the data, in [db], of one submission announced in [db]. *)
Definition about_submission (db : Db) (cid : Z) (op : ProxyOperation) : Prop :=
  ∃ s, announced db cid s ∧
    ((∃ d, submission_data db s = Ok d ∧ op = mkProxyOperation SUBMISSION [(submission_key s, d)]) ∨
     (∃ sr, submission_get_result db s None = Ok sr ∧
        op = mkProxyOperation SUBCHANGE [(score_key s, score_data s sr)]) ∨
     (∃ t, sub_token s = Some t ∧ op = mkProxyOperation SUBCHANGE [(token_key s t, token_data s t)])).

(** What the rankings may be told of contest [cid] by a call that reads [db]. *)
Definition public_operation (db : Db) (cid : Z) (op : ProxyOperation) : Prop :=
  match type_ op with
  | CONTEST => ∃ c, c ∈ db_contests db ∧ co_id c = cid ∧ data op = [(encode_id (co_name c), contest_data c)]
  | TASK => ∀ key, key ∈ pd_keys (data op) → ∃ t, t ∈ db_tasks db ∧ task_contest_id t = Some cid ∧
      key = encode_id (task_name t)
  | TEAM => ∀ key, key ∈ pd_keys (data op) → public_team db cid key
  | USER => ∀ key, key ∈ pd_keys (data op) → public_user db cid key
  | SUBMISSION | SUBCHANGE => about_submission db cid op
  end.

(** What a run of the service that reads the databases [dbs] keeps. *)
Record proxy_inv (dbs : list Db) (p0 p : Proxy) : Prop := {
  pi_contest : contest_id p = contest_id p0;
  pi_scores : scores_sent_to_rankings p0 ⊆ scores_sent_to_rankings p;
  pi_tokens : tokens_sent_to_rankings p0 ⊆ tokens_sent_to_rankings p;
  pi_objects op : op ∈ ps_objects p →
    op ∈ ps_objects p0 ∨ ∃ db, db ∈ dbs ∧ public_operation db (contest_id p0) op;
}.

Lemma proxy_inv_refl dbs p : proxy_inv dbs p p.
Proof. split; auto. Qed.

Lemma proxy_inv_trans dbs1 dbs2 dbs p0 p1 p2 :
  dbs1 ⊆ dbs → dbs2 ⊆ dbs → proxy_inv dbs1 p0 p1 → proxy_inv dbs2 p1 p2 → proxy_inv dbs p0 p2.
Proof.
  intros I1 I2 [C1 S1 T1 O1] [C2 S2 T2 O2]. split; [congruence|set_solver..|].
  intros op [[Hop|(db & Hdb & Hop)]%O1|(db & Hdb & Hop)]%O2; [by left|right; exists db; split; [by apply I1|done]..|].
  right. exists db. rewrite C1 in Hop. split; [by apply I2|done].
Qed.

Section reading.
(** The database that a call reads. *)
Context (db : Db).

(** [m] keeps the invariant, and what it returns satisfies [Φ]. *)
Definition discreet {A} (cid : Z) (Φ : A → Prop) (m : M Proxy A) : Prop :=
  ∀ p, contest_id p = cid → proxy_inv [db] p (m p).2 ∧ ∀ a, (m p).1 = Ok a → Φ a.

Lemma discreet_bind {A B} cid (Φ : A → Prop) (Ψ : B → Prop) (m : M Proxy A) (f : A → M Proxy B) :
  discreet cid Φ m → (∀ a, Φ a → discreet cid Ψ (f a)) → discreet cid Ψ (m ≫= f).
Proof.
  intros Hm Hf p Hp. destruct (Hm p Hp) as [Hi HQ]. unfold mbind, M_bind.
  destruct (m p) as [[a| | |] p1]; cbn in *; try done.
  destruct (Hf a (HQ a eq_refl) p1) as [Hi' HR]; [by rewrite (pi_contest _ _ _ Hi)|].
  split; [by eapply (proxy_inv_trans [db] [db])|done].
Qed.

Lemma discreet_lift {A} cid (r : res A) : discreet cid (λ a, r = Ok a) (lift r).
Proof. intros p _. split; [apply proxy_inv_refl|done]. Qed.

Lemma discreet_ret {A} cid (Φ : A → Prop) a : Φ a → discreet cid Φ (mret a).
Proof. intros HQ p _. split; [apply proxy_inv_refl|]. by intros ? [= <-]. Qed.

Lemma discreet_get cid : discreet cid (λ p, contest_id p = cid) get.
Proof. intros p Hp. split; [apply proxy_inv_refl|]. by intros ? [= <-]. Qed.

Lemma discreet_weaken {A} cid (Φ Ψ : A → Prop) m : (∀ a, Φ a → Ψ a) → discreet cid Φ m → discreet cid Ψ m.
Proof. intros HQR Hm p Hp. destruct (Hm p Hp). split; [done|auto]. Qed.

Lemma discreet_for_each {A} cid (f : A → M Proxy unit) l :
  (∀ x, x ∈ l → discreet cid (λ _, True) (f x)) → discreet cid (λ _, True) (for_each f l).
Proof.
  induction l as [|x l IH]; intros Hf; [by apply discreet_ret|].
  eapply discreet_bind; [apply Hf; by left|]. intros _ _. apply IH. intros y Hy. apply Hf. by right.
Qed.

Lemma discreet_for_acc {A B} cid (f : B → A → M Proxy B) acc l :
  (∀ acc x, x ∈ l → discreet cid (λ _, True) (f acc x)) → discreet cid (λ _, True) (for_acc f acc l).
Proof.
  revert acc. induction l as [|x l IH]; intros acc Hf; [by apply discreet_ret|].
  eapply discreet_bind; [apply Hf; by left|]. intros a _. apply IH. intros b y Hy. apply Hf. by right.
Qed.

Lemma discreet_enqueue cid now op : public_operation db cid op → discreet cid (λ _, True) (enqueue_operation now op).
Proof.
  intros Hop p Hp. split; [|done]. unfold enqueue_operation. rewrite (M_run_Ok _ _ _ p p) by done.
  erewrite M_run_Ok by reflexivity. unfold mbind at 1, M_bind, lift.
  assert (∀ s, proxy_inv [db] p (mkProxy (contest_id p) (scores_sent_to_rankings p) (tokens_sent_to_rankings p) s
    (ps_objects p ++ [op]))) as H.
  { intros s. split; [done..|]. intros op' [Ho|Ho%list_elem_of_singleton]%elem_of_app; [by left|right].
    exists db. split; [by left|]. by rewrite Ho, Hp. }
  destruct (service_enqueue _ _ _ _ _) as [[? s]| | |]; apply H.
Qed.

Lemma discreet_enqueues cid now ops :
  Forall (public_operation db cid) ops → discreet cid (λ _, True) (enqueue_operations now ops).
Proof. intros Ho. apply discreet_for_each. intros op Hop. apply discreet_enqueue. by eapply Forall_forall in Ho. Qed.

Lemma discreet_scores cid i : discreet cid (λ _, True) (modify (set_scores_sent ({[i]} ∪.))).
Proof. intros p _. split; [|done]. split; cbn; [done|set_solver|done|auto]. Qed.

Lemma discreet_tokens cid i : discreet cid (λ _, True) (modify (set_tokens_sent ({[i]} ∪.))).
Proof. intros p _. split; [|done]. split; cbn; [done|done|set_solver|auto]. Qed.

Lemma discreet_operations_for_score cid s :
  announced db cid s → discreet cid (Forall (public_operation db cid)) (operations_for_score db s).
Proof.
  intros Ha. unfold operations_for_score. eapply discreet_bind; [apply discreet_lift|]. intros sr Hsr.
  eapply discreet_bind; [apply discreet_lift|]. intros d Hd. eapply discreet_bind; [apply discreet_scores|]. intros _ _.
  apply discreet_ret. repeat constructor; exists s; (split; [done|]); [left; by exists d|right; left; by exists sr].
Qed.

Lemma discreet_operations_for_token cid s :
  announced db cid s → discreet cid (Forall (public_operation db cid)) (operations_for_token db s).
Proof.
  intros Ha. unfold operations_for_token. eapply discreet_bind; [apply discreet_lift|]. intros d Hd.
  eapply discreet_bind; [apply discreet_lift|]. intros t Ht%or_raise_Ok. eapply discreet_bind; [apply discreet_tokens|]. intros _ _.
  apply discreet_ret. repeat constructor; exists s; (split; [done|]); [left; by exists d|right; right; by exists t].
Qed.

(** Computing the operations and putting them in the queues. *)
Lemma discreet_send {A} cid now (m : M Proxy (list ProxyOperation)) (f : list ProxyOperation → A) :
  discreet cid (Forall (public_operation db cid)) m →
  discreet cid (λ _, True) (ops ← m; _ ← enqueue_operations now ops; mret (f ops)).
Proof.
  intros Hm. eapply discreet_bind; [exact Hm|]. intros ops Ho. eapply discreet_bind; [by apply discreet_enqueues|].
  intros _ _. by apply discreet_ret.
Qed.

Lemma discreet_send_unit cid now (m : M Proxy (list ProxyOperation)) :
  discreet cid (Forall (public_operation db cid)) m → discreet cid (λ _, True) (ops ← m; enqueue_operations now ops).
Proof. intros Hm. eapply discreet_bind; [exact Hm|]. intros ops Ho. by apply discreet_enqueues. Qed.

Lemma visible_participation s :
  visible db s = true ↔ ∃ pa, participation_of db s = Some pa ∧ pa_hidden pa = false.
Proof.
  unfold visible. destruct (participation_of db s) as [pa|].
  - rewrite negb_true_iff. split; [by exists pa|]. by intros (? & [= <-] & ?).
  - by split; [|intros (? & ? & _)].
Qed.

Lemma in_contest_task cid s :
  in_contest db (Some cid) s = true → ∃ t, t ∈ db_tasks db ∧ task_id t = sub_task_id s ∧ task_contest_id t = Some cid.
Proof.
  cbn. intros [_ (t & Ht & [H1 H2]%andb_true_iff)%existsb_exists]%andb_true_iff.
  apply bool_decide_eq_true in H1, H2. exists t. split_and!; [by apply list_elem_of_In|done..].
Qed.

(** The submissions of the sweep. *)
Lemma swept_announced cid l s :
  get_submissions db (Some cid) None None None = Ok l →
  s ∈ filter (λ s, visible db s = true ∧ sub_official s = true) l → announced db cid s.
Proof.
  intros [= <-] [[Hv Ho] [Hs Hin]%list_elem_of_filter]%list_elem_of_filter. split; try done.
  by apply in_contest_task, Is_true_true.
Qed.

Lemma discreet_sweep_submission cid now n s :
  announced db cid s → discreet cid (λ _, True) (sweep_submission now db n s).
Proof.
  intros Ha. unfold sweep_submission. eapply discreet_bind; [apply discreet_lift|]. intros [sr|] Hsr; [|by apply discreet_ret].
  eapply discreet_bind; [apply discreet_get|]. intros p _. eapply discreet_bind.
  { case_match; [|exact (discreet_ret cid (λ _, True) n I)].
    by apply (discreet_send cid now _ (λ ops, n + Z.of_nat (List.length ops))%Z), discreet_operations_for_score. }
  intros c _. eapply discreet_bind; [apply discreet_get|]. intros p' _.
  case_match; [|exact (discreet_ret cid (λ _, True) c I)].
  by apply (discreet_send cid now _ (λ ops, c + Z.of_nat (List.length ops))%Z), discreet_operations_for_token.
Qed.

Lemma discreet_missing cid now : discreet cid (λ _, True) (_missing_operations now db).
Proof.
  unfold _missing_operations. eapply discreet_bind; [apply discreet_get|]. intros p Hp. rewrite Hp.
  eapply discreet_bind; [apply discreet_lift|]. intros l Hl. apply discreet_for_acc. intros n s Hs.
  apply discreet_sweep_submission. exact (swept_announced _ _ _ Hl Hs).
Qed.

Lemma fold_res_inv {A B} (f : B → A → res B) (I : B → Prop) acc l b :
  (∀ acc x b, x ∈ l → I acc → f acc x = Ok b → I b) → I acc → fold_res f acc l = Ok b → I b.
Proof.
  revert acc. induction l as [|x l IH]; intros acc Hf HI H; [by injection H as <-|].
  apply res_bind_Ok in H as (a & Ha & H). eapply IH; [|by eapply Hf; [left|..]|exact H].
  intros ????. apply Hf. by right.
Qed.

(** What [initialize] gathers from the participations. *)
Lemma participations_public cid l acc :
  l = filter (λ p, pa_contest_id p = cid) (db_participations db) →
  fold_res (participation_data db) ([], []) l = Ok acc →
  Forall (public_user db cid) (pd_keys acc.1) ∧ Forall (public_team db cid) (pd_keys acc.2).
Proof.
  intros -> H. revert H. apply (fold_res_inv _ (λ acc, Forall (public_user db cid) (pd_keys acc.1) ∧
    Forall (public_team db cid) (pd_keys acc.2))); [|by split; constructor].
  intros [us ts] pa acc' [Hc Hin]%list_elem_of_filter [HU HT] Hf. unfold participation_data in Hf.
  destruct (pa_hidden pa) eqn:Hh; [by injection Hf as <-|].
  apply res_bind_Ok in Hf as (u & Hus%or_raise_Ok & Hf). injection Hf as <-. cbn in *. rewrite !Forall_forall in *.
  assert (takes_part db cid pa) as Htp by done. split.
  - intros key [->|Hk]%pd_keys_set_elem; [by exists pa, u|]. by apply HU.
  - destruct (team_of db pa) as [t|] eqn:Ht; [|done].
    intros key [->|Hk]%pd_keys_set_elem; [by exists pa, t|]. by apply HT.
Qed.

Lemma tasks_public cid c l tasks :
  l = filter (λ t, task_contest_id t = Some cid) (db_tasks db) →
  fold_res (task_data db c) [] l = Ok tasks →
  Forall (λ key, ∃ t, t ∈ db_tasks db ∧ task_contest_id t = Some cid ∧ key = encode_id (task_name t)) (pd_keys tasks).
Proof.
  intros -> H. revert H. apply (fold_res_inv _ (λ tasks, Forall _ (pd_keys tasks))); [|by constructor].
  intros ts t ts' [Hc Hin]%list_elem_of_filter HI Hf. unfold task_data in Hf.
  apply res_bind_Ok in Hf as (d & _ & Hf). apply res_bind_Ok in Hf as (st & _ & Hf). injection Hf as <-.
  rewrite Forall_forall in *. intros key [->|Hk]%pd_keys_set_elem; [by exists t|]. by apply HI.
Qed.

Lemma initial_public cid ops : initial_operations db cid = Ok ops → Forall (public_operation db cid) ops.
Proof.
  unfold initial_operations. intros H. apply res_bind_Ok in H as (c & Hc%or_raise_Ok & H).
  apply res_bind_Ok in H as ([users teams] & Hu & H). apply res_bind_Ok in H as (tasks & Ht & H). injection H as <-.
  apply head_Some_elem_of, list_elem_of_filter in Hc as [Hid Hc].
  apply (participations_public cid) in Hu as [HU HT]; [|done]. apply (tasks_public cid) in Ht; [|done].
  repeat constructor; cbn; [by exists c|by apply Forall_forall..].
Qed.

Lemma discreet_initialize cid now : discreet cid (λ _, True) (initialize now db).
Proof.
  unfold initialize. eapply discreet_bind; [apply discreet_get|]. intros p Hp. rewrite Hp.
  eapply discreet_bind; [apply discreet_lift|]. intros ops Ho%initial_public. by apply discreet_enqueues.
Qed.

Lemma get_submission_in i s : get_submission db i = Some s → s ∈ db_submissions db.
Proof. intros H. apply head_Some_elem_of, list_elem_of_filter in H. apply H. Qed.

Lemma get_task_in i t : get_task db i = Some t → t ∈ db_tasks db ∧ task_id t = i.
Proof. intros H. apply head_Some_elem_of, list_elem_of_filter in H as []. done. Qed.

Lemma discreet_notify cid i now ops :
  (∀ s, announced db cid s → discreet cid (Forall (public_operation db cid)) (ops s)) →
  discreet cid (λ _, True) (notify_rankings db i now ops).
Proof.
  intros Hops. unfold notify_rankings. eapply discreet_bind; [apply discreet_lift|]. intros s Hs%or_raise_Ok%get_submission_in.
  eapply discreet_bind; [apply discreet_lift|]. intros t [Ht1 Ht2]%or_raise_Ok%get_task_in.
  eapply discreet_bind; [apply discreet_get|]. intros p Hp. rewrite Hp.
  case_bool_decide as Hc; [|by apply discreet_ret]. eapply discreet_bind; [apply discreet_lift|]. intros pa Hpa%or_raise_Ok.
  destruct (pa_hidden pa) eqn:Hh; [by apply discreet_ret|]. destruct (sub_official s) eqn:Ho; [|by apply discreet_ret].
  apply discreet_send_unit, Hops. split; try done; [apply visible_participation; by exists pa|by exists t].
Qed.

Lemma discreet_update_submission cid now s t :
  s ∈ db_submissions db → t ∈ db_tasks db → task_id t = sub_task_id s → task_contest_id t = Some cid →
  discreet cid (λ _, True) (update_submission now db s).
Proof.
  intros Hs Ht Hid Hc. unfold update_submission. eapply discreet_bind; [apply discreet_lift|]. intros pa Hpa%or_raise_Ok.
  destruct (pa_hidden pa) eqn:Hh, (sub_official s) eqn:Ho; cbn; try by apply discreet_ret.
  eapply discreet_bind; [apply discreet_lift|]. intros [sr|] _; [|by apply discreet_ret]. case_match; [|by apply discreet_ret].
  apply discreet_send_unit, discreet_operations_for_score.
  split; try done; [apply visible_participation; by exists pa|by exists t].
Qed.

Lemma discreet_dataset_updated cid now i : discreet cid (λ _, True) (dataset_updated now db i).
Proof.
  unfold dataset_updated. eapply discreet_bind; [apply discreet_lift|]. intros t [Ht1 Ht2]%or_raise_Ok%get_task_in.
  eapply discreet_bind; [apply discreet_get|]. intros p Hp. rewrite Hp. case_bool_decide as Hc; cbn.
  2: { case_match; [by apply discreet_ret|]. intros q _. split; [apply proxy_inv_refl|done]. }
  eapply discreet_bind; [apply discreet_lift|]. intros d _. eapply discreet_bind; [apply discreet_initialize|]. intros _ _.
  apply discreet_for_each. intros s [Hs Hin]%list_elem_of_filter.
  by apply (discreet_update_submission cid now s t); [..|congruence|].
Qed.

End reading.

(** ** Runs of the service

    Every call reads the database of its moment; between the calls the
    executors empty the queues and send, with any result. *)
Inductive proxy_step (p : Proxy) : list Db → Proxy → Prop :=
  | step_sweep now db : proxy_step p [db] (_missing_operations now db p).2
  | step_reinitialize now db : proxy_step p [db] (reinitialize now db p).2
  | step_scored now db i : proxy_step p [db] (submission_scored now db i p).2
  | step_tokened now db i : proxy_step p [db] (submission_tokened now db i p).2
  | step_dataset now db i : proxy_step p [db] (dataset_updated now db i p).2
  | step_executor s : proxy_step p [] (set_ps_service s p).

(** A run, with the databases that it reads. *)
Inductive proxy_run : Proxy → list Db → Proxy → Prop :=
  | run_nil p : proxy_run p [] p
  | run_cons p dbs p1 dbs' p2 : proxy_step p dbs p1 → proxy_run p1 dbs' p2 → proxy_run p (dbs ++ dbs') p2.

Lemma proxy_step_inv p dbs p' : proxy_step p dbs p' → proxy_inv dbs p p'.
Proof.
  intros [now db|now db|now db i|now db i|now db i|s].
  - by apply (discreet_missing db (contest_id p)).
  - by apply (discreet_initialize db (contest_id p)).
  - by apply (discreet_notify db (contest_id p)), eq_refl; intros; apply discreet_operations_for_score.
  - by apply (discreet_notify db (contest_id p)), eq_refl; intros; apply discreet_operations_for_token.
  - by apply (discreet_dataset_updated db (contest_id p)).
  - split; auto.
Qed.

Lemma proxy_run_inv p dbs p' : proxy_run p dbs p' → proxy_inv dbs p p'.
Proof.
  induction 1 as [|p dbs p1 dbs' p2 H _ IH]; [apply proxy_inv_refl|].
  eapply proxy_inv_trans; [..|by apply proxy_step_inv|exact IH]; set_solver.
Qed.

(** ** The sweep *)

(** The submission needs nothing more from a sweep. *)
Definition settled (db : Db) (p : Proxy) (s : Submission) : Prop :=
  ∃ o, submission_get_result db s None = Ok o ∧ ∀ sr, o = Some sr →
    (SR.scored sr = true → sub_id s ∈ scores_sent_to_rankings p) ∧
    (is_some (sub_token s) = true → sub_id s ∈ tokens_sent_to_rankings p).

Lemma settled_mono db dbs p p' s : proxy_inv dbs p p' → settled db p s → settled db p' s.
Proof.
  intros [_ Hs Ht _] (o & Ho & Hset). exists o. split; [done|]. intros sr Hsr. destruct (Hset sr Hsr). set_solver.
Qed.

Lemma settled_skips now db n p s : settled db p s → sweep_submission now db n s p = (Ok n, p).
Proof.
  intros (o & Ho & Hset). unfold sweep_submission. erewrite M_run_Ok; [|by unfold lift; rewrite Ho].
  destruct o as [sr|]; [|done]. destruct (Hset sr eq_refl) as [Hs Ht]. erewrite M_run_Ok by reflexivity.
  erewrite M_run_Ok.
  2: { destruct (SR.scored sr); [|reflexivity]. rewrite bool_decide_eq_true_2 by auto. reflexivity. }
  erewrite M_run_Ok by reflexivity. destruct (is_some (sub_token s)); [|done].
  by rewrite bool_decide_eq_true_2 by auto.
Qed.

(** What [operations_for_score] and [operations_for_token] return and leave. *)
Lemma operations_for_score_Ok db s p ops p' :
  operations_for_score db s p = (Ok ops, p') →
  ∃ sr d, submission_get_result db s None = Ok sr ∧ submission_data db s = Ok d ∧
    p' = set_scores_sent ({[sub_id s]} ∪.) p ∧
    ops = [mkProxyOperation SUBMISSION [(submission_key s, d)];
           mkProxyOperation SUBCHANGE [(score_key s, score_data s sr)]].
Proof.
  intros H. apply M_bind_Ok in H as (sr & p1 & [= Hsr <-] & H). apply M_bind_Ok in H as (d & p2 & [= Hd <-] & H).
  apply M_bind_Ok in H as ([] & p3 & [= <-] & H). injection H as <- <-. by exists sr, d.
Qed.

Lemma operations_for_token_Ok db s p ops p' :
  operations_for_token db s p = (Ok ops, p') →
  ∃ d t, submission_data db s = Ok d ∧ sub_token s = Some t ∧
    p' = set_tokens_sent ({[sub_id s]} ∪.) p ∧
    ops = [mkProxyOperation SUBMISSION [(submission_key s, d)];
           mkProxyOperation SUBCHANGE [(token_key s t, token_data s t)]].
Proof.
  intros H. apply M_bind_Ok in H as (d & p1 & [= Hd <-] & H). apply M_bind_Ok in H as (t & p2 & [= Ht <-] & H).
  apply M_bind_Ok in H as ([] & p3 & [= <-] & H). injection H as <- <-. by exists d, t; apply or_raise_Ok in Ht.
Qed.

(** Putting operations in the queues leaves the sets. *)
Definition same_sent (p p' : Proxy) : Prop :=
  contest_id p' = contest_id p ∧ scores_sent_to_rankings p' = scores_sent_to_rankings p ∧
  tokens_sent_to_rankings p' = tokens_sent_to_rankings p.

Lemma enqueue_operations_sent now ops p p' : enqueue_operations now ops p = (Ok tt, p') → same_sent p p'.
Proof.
  intros H. apply (for_each_returns _ (λ _ q, same_sent p q)) in H; [done| |done].
  intros _ op _ q q' _ (H1 & H2 & H3) Hop. unfold enqueue_operation in Hop.
  rewrite (M_run_Ok _ _ _ q q) in Hop by done. erewrite M_run_Ok in Hop by reflexivity.
  apply M_bind_Ok in Hop as ([k s] & q1 & [= _ <-] & Hop). by injection Hop as <-.
Qed.

Lemma swept_settled now db n s p n' p' : sweep_submission now db n s p = (Ok n', p') → settled db p' s.
Proof.
  unfold sweep_submission. intros H. apply M_bind_Ok in H as (o & p0 & [= Ho <-] & H).
  destruct o as [sr|]; [|exists None; split; [done|by intros]]. exists (Some sr). split; [done|].
  intros sr' [= <-]. erewrite M_run_Ok in H by reflexivity. apply M_bind_Ok in H as (c & p1 & H1 & H).
  assert (SR.scored sr = true → sub_id s ∈ scores_sent_to_rankings p1) as Hs1.
  { intros Hsc. rewrite Hsc in H1. case_bool_decide; cbn in H1; [by injection H1 as _ <-|].
    apply M_bind_Ok in H1 as (ops & q & (? & ? & _ & _ & -> & _)%operations_for_score_Ok & H1).
    apply M_bind_Ok in H1 as ([] & q' & (_ & E & _)%enqueue_operations_sent & [= _ <-]). rewrite E. set_solver. }
  erewrite M_run_Ok in H by reflexivity.
  assert (scores_sent_to_rankings p' = scores_sent_to_rankings p1 ∧
    (is_some (sub_token s) = true → sub_id s ∈ tokens_sent_to_rankings p')) as [E Ht].
  { destruct (is_some (sub_token s)); cbn in H; [|by injection H as _ <-].
    case_bool_decide; cbn in H; [by injection H as _ <-|].
    apply M_bind_Ok in H as (ops & q & (? & ? & _ & _ & -> & _)%operations_for_token_Ok & H).
    apply M_bind_Ok in H as ([] & q' & (_ & E1 & E2)%enqueue_operations_sent & [= _ <-]).
    rewrite E1, E2. split; [done|set_solver]. }
  rewrite E. auto.
Qed.

(** The sweep is idempotent. *)
Lemma sweep_again now now' db p n p1 dbs p2 :
  _missing_operations now db p = (Ok n, p1) → proxy_run p1 dbs p2 →
  _missing_operations now' db p2 = (Ok 0%Z, p2).
Proof.
  intros Hr Hsteps. pose proof (discreet_missing db (contest_id p) now p eq_refl) as [Hi _]. rewrite Hr in Hi. cbn in Hi.
  apply proxy_run_inv in Hsteps as H12. unfold _missing_operations in *.
  rewrite (M_run_Ok _ _ _ p p) in Hr by done. rewrite (M_run_Ok _ _ _ p2 p2) by done.
  rewrite (pi_contest _ _ _ H12), (pi_contest _ _ _ Hi). apply M_bind_Ok in Hr as (l & q & [= <- <-] & Hr).
  erewrite M_run_Ok by reflexivity. set (l := filter _ (filter _ _)) in *.
  assert (Forall (settled db p1) l) as Hset.
  { apply (for_acc_returns _ (λ pre _ q, proxy_inv [db] p q ∧ Forall (settled db q) pre)) in Hr as [_ Hr]; [done| |].
    2: { split; [apply proxy_inv_refl|constructor]. }
    intros pre s post c q d q' Hl [Hq Hpre] Hs.
    assert (announced db (contest_id p) s) as Ha.
    { apply (swept_announced db (contest_id p) _ s eq_refl). change (s ∈ l). rewrite Hl. apply elem_of_app. right. left. }
    destruct (discreet_sweep_submission db _ now c s Ha q (pi_contest _ _ _ Hq)) as [Hi' _].
    rewrite Hs in Hi'. cbn in Hi'. split; [by eapply (proxy_inv_trans [db] [db])|]. apply Forall_app. split.
    - eapply Forall_impl; [exact Hpre|]. intros x. by apply (settled_mono _ [db]).
    - constructor; [by eapply swept_settled|constructor]. }
  clear Hr. induction Hset as [|s l' Hs _ IH]; [done|]. cbn [for_acc].
  rewrite (M_run_Ok _ _ _ _ _ (settled_skips now' db 0 p2 s (settled_mono _ _ _ _ _ H12 Hs))). exact IH.
Qed.

(** C38. Whatever the databases that the service reads, the calls it gets in
    any order, and whatever becomes of the requests, each operation that is
    put in the queues is public in one of the databases that were read (in
    the database, when there is only one): what it says of a submission is
    about a submission that this database has as official, of a task of the
    contest, by a participation that is not hidden, with the user, task, time,
    token and the score of its current result there; the users sent take part
    in the contest and are not hidden, the teams are teams of such users, and
    the tasks and the contest are those of the service's contest. *)
Theorem only_public_data_sent p dbs p' :
  ps_objects p = [] → proxy_run p dbs p' →
  contest_id p' = contest_id p ∧
  ∀ op, op ∈ ps_objects p' → ∃ db, db ∈ dbs ∧ public_operation db (contest_id p) op.
Proof.
  intros Hp [Hc _ _ Ho]%proxy_run_inv. split; [done|]. intros op [Hop|Hop]%Ho; [|done].
  rewrite Hp in Hop. by apply elem_of_nil in Hop.
Qed.

(** ** The queues *)

Section queues.
(** What is kept of each executor while the objects, [n] by now, are put in
    its queue: at least that the queue is well formed. *)
Context (keeps : nat → Executor Q → Prop).
Hypothesis keeps_wf : ∀ n ex, keeps n ex → q_wf (_operation_queue ex).
Hypothesis keeps_enqueued : ∀ n ex ex', keeps n ex → enqueued n ex ex' → keeps (S n) ex'.


Definition queues_keep (p : Proxy) : Prop :=
  Forall (keeps (List.length (ps_objects p))) (_executors (ps_service p)).

(** [p'] is [p] with [ops] put in the queues. *)
Record queued (ops : list ProxyOperation) (p p' : Proxy) : Prop := {
  qd_objects : ps_objects p' = ps_objects p ++ ops;
  qd_full : queues_keep p';
  qd_executors : List.length (_executors (ps_service p')) = List.length (_executors (ps_service p));
  qd_sent : same_sent p p';
}.

Lemma queued_nil p : queues_keep p → queued [] p p.
Proof. intros H. split; [by rewrite app_nil_r|done..]. Qed.

Lemma queued_app ops1 ops2 p p1 p2 : queued ops1 p p1 → queued ops2 p1 p2 → queued (ops1 ++ ops2) p p2.
Proof.
  intros [A1 A2 A3 (A4 & A5 & A6)] [B1 B2 B3 (B4 & B5 & B6)]. split; [by rewrite B1, A1, app_assoc|done|congruence|].
  unfold same_sent. split_and!; congruence.
Qed.

Lemma enqueue_operation_ok now op p :
  queues_keep p → ∃ p', enqueue_operation now op p = (Ok tt, p') ∧ queued [op] p p'.
Proof.
  intros Hf. unfold enqueue_operation. rewrite (M_run_Ok _ _ _ p p) by done.
  erewrite M_run_Ok by reflexivity. cbn [ps_service].
  destruct (service_enqueue_counts (List.length (ps_objects p)) None None (λ _, now) (ps_service p))
    as (s' & Hs & _ & He).
  { unfold service_wf. eapply Forall_impl; [exact Hf|]. by intros ex ?%keeps_wf. }
  erewrite M_run_Ok; [|unfold lift; rewrite Hs; reflexivity]. cbv beta iota. eexists. split; [reflexivity|].
  split; cbn; [done| |by rewrite <- (Forall2_length _ _ _ He)|done].
  unfold queues_keep in *. cbn. rewrite length_app. cbn. rewrite Nat.add_1_r. clear Hs. revert Hf.
  revert He. generalize (List.length (ps_objects p)). intros n He Hf. rewrite Forall_forall in *. intros ex' (i & Hi)%list_elem_of_lookup.
  destruct (Forall2_lookup_r _ _ _ _ _ He Hi) as (ex & Hex & Hx). eapply keeps_enqueued; [|exact Hx].
  apply Hf. by apply list_elem_of_lookup_2 in Hex.
Qed.

Lemma enqueue_operations_ok now ops p :
  queues_keep p → ∃ p', enqueue_operations now ops p = (Ok tt, p') ∧ queued ops p p'.
Proof.
  intros Hf. destruct (for_each_total (enqueue_operation now) (λ pre q, queued pre p q) ops p) as (p' & H & H').
  - intros pre op post q _ Hq. destruct (enqueue_operation_ok now op q (qd_full _ _ _ Hq)) as (q' & Hr & Hq').
    exists q'. split; [done|]. by eapply queued_app.
  - by apply queued_nil.
  - by exists p'.
Qed.

(** *** What a sweep puts in the queues *)

Definition sweep_operations (db : Db) (scores tokens : gset Z) (s : Submission) : list ProxyOperation :=
  match submission_get_result db s None, submission_data db s with
  | Ok (Some sr), Ok d =>
      (if SR.scored sr && negb (bool_decide (sub_id s ∈ scores)) then
         [mkProxyOperation SUBMISSION [(submission_key s, d)];
          mkProxyOperation SUBCHANGE [(score_key s, score_data s (Some sr))]] else [])
      ++ match sub_token s with
         | Some t =>
             if negb (bool_decide (sub_id s ∈ tokens)) then
               [mkProxyOperation SUBMISSION [(submission_key s, d)];
                mkProxyOperation SUBCHANGE [(token_key s t, token_data s t)]] else []
         | None => []
         end
  | _, _ => []
  end.

(** Other submissions are as before. *)
Definition sent_for_others (i : Z) (p p' : Proxy) : Prop :=
  ∀ j, j ≠ i → (j ∈ scores_sent_to_rankings p' ↔ j ∈ scores_sent_to_rankings p) ∧
               (j ∈ tokens_sent_to_rankings p' ↔ j ∈ tokens_sent_to_rankings p).

Record swept (i : Z) (ops : list ProxyOperation) (p p' : Proxy) : Prop := {
  sw_objects : ps_objects p' = ps_objects p ++ ops;
  sw_full : queues_keep p';
  sw_executors : List.length (_executors (ps_service p')) = List.length (_executors (ps_service p));
  sw_others : sent_for_others i p p';
}.

(** Operations computed after a change of the sets of sent submissions. *)
Lemma send_operations {A} now (m : M Proxy (list ProxyOperation)) (f : list ProxyOperation → A) i ops p p1 :
  m p = (Ok ops, p1) → queues_keep p1 → ps_objects p1 = ps_objects p → ps_service p1 = ps_service p →
  sent_for_others i p p1 →
  ∃ p', (ops ← m; _ ← enqueue_operations now ops; mret (f ops)) p = (Ok (f ops), p') ∧ swept i ops p p' ∧
    tokens_sent_to_rankings p' = tokens_sent_to_rankings p1.
Proof.
  intros Hm Hf Ho Hs Ht. rewrite (M_run_Ok _ _ _ _ _ Hm).
  destruct (enqueue_operations_ok now ops p1 Hf) as (p2 & Hr & [Q1 Q2 Q3 (Q4 & Q5 & Q6)]).
  rewrite (M_run_Ok _ _ _ _ _ Hr). exists p2. split; [done|]. split; [|done].
  split; [by rewrite Q1, Ho|done|by rewrite Q3, Hs|]. intros j Hj. rewrite Q5, Q6. by apply Ht.
Qed.

Lemma sweep_submission_ok now db n s p sr d :
  queues_keep p → submission_get_result db s None = Ok sr → submission_data db s = Ok d →
  let ops := sweep_operations db (scores_sent_to_rankings p) (tokens_sent_to_rankings p) s in
  ∃ p', sweep_submission now db n s p = (Ok (n + Z.of_nat (List.length ops))%Z, p') ∧ swept (sub_id s) ops p p'.
Proof.
  intros Hf Hsr Hd ops. unfold sweep_submission. erewrite M_run_Ok; [|unfold lift; by rewrite Hsr].
  unfold ops, sweep_operations. rewrite Hsr, Hd. clear ops. destruct sr as [sr|].
  2: { exists p. cbn. rewrite Z.add_0_r. split; [done|]. split; [by rewrite app_nil_r|done..]. }
  erewrite M_run_Ok by reflexivity. set (ops1 := if SR.scored sr && _ then _ else []).
  assert (∃ p1, (if SR.scored sr && negb (bool_decide (sub_id s ∈ scores_sent_to_rankings p)) then
                   ops ← operations_for_score db s;
                   _ ← enqueue_operations now ops; mret (n + Z.of_nat (List.length ops))%Z
                 else mret n) p = (Ok (n + Z.of_nat (List.length ops1))%Z, p1) ∧ swept (sub_id s) ops1 p p1 ∧
    tokens_sent_to_rankings p1 = tokens_sent_to_rankings p) as (p1 & H1 & [O1 F1 E1 T1] & K1).
  { unfold ops1. destruct (SR.scored sr && _).
    - apply (send_operations now (operations_for_score db s) (λ ops, n + Z.of_nat (List.length ops))%Z (sub_id s)
        [mkProxyOperation SUBMISSION [(submission_key s, d)];
         mkProxyOperation SUBCHANGE [(score_key s, score_data s (Some sr))]] p (set_scores_sent ({[sub_id s]} ∪.) p)).
      + unfold operations_for_score. erewrite M_run_Ok; [|unfold lift; by rewrite Hsr].
        erewrite M_run_Ok; [|unfold lift; by rewrite Hd]. reflexivity.
      + exact Hf.
      + done.
      + done.
      + intros j Hj. cbn. set_solver.
    - exists p. cbn. rewrite Z.add_0_r. split; [done|]. split; [|done]. split; [by rewrite app_nil_r|done..]. }
  rewrite (M_run_Ok _ _ _ _ _ H1). erewrite M_run_Ok by reflexivity. rewrite K1. clearbody ops1.
  destruct (sub_token s) as [t|] eqn:Ht; cbn [is_some andb].
  2: { exists p1. rewrite app_nil_r. split; [done|]. by split. }
  destruct (negb (bool_decide (sub_id s ∈ tokens_sent_to_rankings p))).
  2: { exists p1. rewrite app_nil_r. split; [done|]. by split. }
  destruct (send_operations now (operations_for_token db s)
    (λ ops, (n + Z.of_nat (List.length ops1)) + Z.of_nat (List.length ops))%Z (sub_id s)
    [mkProxyOperation SUBMISSION [(submission_key s, d)]; mkProxyOperation SUBCHANGE [(token_key s t, token_data s t)]]
    p1 (set_tokens_sent ({[sub_id s]} ∪.) p1)) as (p2 & H2 & [O2 F2 E2 T2] & _); [|done..| |].
  - unfold operations_for_token. erewrite M_run_Ok; [|unfold lift; by rewrite Hd].
    erewrite M_run_Ok; [|unfold lift; by rewrite Ht]. reflexivity.
  - intros j Hj. cbn. set_solver.
  - exists p2. rewrite H2, length_app, Nat2Z.inj_add, Z.add_assoc. split; [done|].
    split; [by rewrite O2, O1, app_assoc|done|congruence|]. intros j Hj.
    destruct (T1 j Hj) as [A1 A2], (T2 j Hj) as [B1 B2]. by rewrite B1, B2, A1, A2.
Qed.

(** The submissions that a sweep looks at. *)
Definition swept_submissions (db : Db) (cid : Z) : list Submission :=
  filter (λ s, visible db s = true ∧ sub_official s = true)
    (filter (λ s, in_contest db (Some cid) s = true) (db_submissions db)).

Lemma get_submissions_contest db cid :
  get_submissions db (Some cid) None None None =
  Ok (filter (λ s, in_contest db (Some cid) s = true) (db_submissions db)).
Proof.
  unfold get_submissions. cbn [is_some andb orb]. f_equal. apply filter_ext_elem. intros s _. cbn [matches andb].
  by rewrite Is_true_true.
Qed.

Lemma missing_operations_ok now db p :
  queues_keep p → NoDup (sub_id <$> db_submissions db) →
  (∀ s, s ∈ swept_submissions db (contest_id p) →
     ∃ sr d, submission_get_result db s None = Ok sr ∧ submission_data db s = Ok d) →
  let ops := swept_submissions db (contest_id p)
    ≫= sweep_operations db (scores_sent_to_rankings p) (tokens_sent_to_rankings p) in
  ∃ p', _missing_operations now db p = (Ok (Z.of_nat (List.length ops)), p') ∧
    ps_objects p' = ps_objects p ++ ops ∧ queues_keep p' ∧
    List.length (_executors (ps_service p')) = List.length (_executors (ps_service p)).
Proof.
  intros Hf Hn Hok. unfold _missing_operations. rewrite (M_run_Ok _ _ _ p p) by done.
  erewrite M_run_Ok; [|unfold lift; by rewrite get_submissions_contest].
  set (l := swept_submissions db (contest_id p)) in *.
  set (f := sweep_operations db (scores_sent_to_rankings p) (tokens_sent_to_rankings p)).
  change (filter (λ s, visible db s = true ∧ sub_official s = true) _) with l.
  assert (NoDup (sub_id <$> l)) as Hl.
  { eapply sublist_NoDup; [exact Hn|]. apply fmap_sublist. unfold l, swept_submissions.
    etransitivity; apply sublist_filter. }
  destruct (for_acc_total (sweep_submission now db) (λ pre n q, n = Z.of_nat (List.length (pre ≫= f)) ∧
    ps_objects q = ps_objects p ++ (pre ≫= f) ∧ queues_keep q ∧
    List.length (_executors (ps_service q)) = List.length (_executors (ps_service p)) ∧
    ∀ i, i ∉ sub_id <$> pre → (i ∈ scores_sent_to_rankings q ↔ i ∈ scores_sent_to_rankings p) ∧
      (i ∈ tokens_sent_to_rankings q ↔ i ∈ tokens_sent_to_rankings p)) l 0%Z p)
    as (n & p' & Hr & -> & Ho & Hf' & He & _); [| |by exists p'].
  2: { cbn. rewrite app_nil_r. by split_and!. }
  intros pre s post n q Hsplit (-> & Ho & Hq & He & Ht).
  destruct (Hok s) as (sr & d & Hsr & Hd); [rewrite Hsplit; apply elem_of_app; right; left|].
  assert (sub_id s ∉ sub_id <$> pre) as Hs.
  { rewrite Hsplit, fmap_app in Hl. apply NoDup_app in Hl as (_ & Hx & _). intros Hin. destruct (Hx _ Hin). by left. }
  assert (sweep_operations db (scores_sent_to_rankings q) (tokens_sent_to_rankings q) s = f s) as Hops.
  { unfold f, sweep_operations. rewrite Hsr, Hd. destruct (Ht _ Hs) as [H1 H2].
    by rewrite (bool_decide_ext _ _ H1), (bool_decide_ext _ _ H2). }
  destruct (sweep_submission_ok now db (Z.of_nat (List.length (pre ≫= f))) s q sr d Hq Hsr Hd) as (q' & Hrun & [S1 S2 S3 S4]).
  rewrite Hops in *. assert ((pre ++ [s]) ≫= f = (pre ≫= f) ++ f s) as E by (rewrite bind_app; cbn; by rewrite app_nil_r).
  eexists _, q'. split; [exact Hrun|]. rewrite E. split; [by rewrite length_app, Nat2Z.inj_add|].
  split; [by rewrite S1, Ho, app_assoc|]. split; [done|]. split; [congruence|].
  intros i. rewrite fmap_app, not_elem_of_app. cbn. rewrite not_elem_of_cons. intros (Hi & Hne & _).
  destruct (Ht i Hi) as [A1 A2], (S4 i Hne) as [B1 B2]. by rewrite B1, B2.
Qed.

End queues.

(** *** The executors *)

(** The executor sends in batches, and its queue holds the first [n]
    operations. *)
Definition holds_first (n : nat) (ex : Executor Q) : Prop :=
  _batch_executions ex = true ∧ q_wf (_operation_queue ex) ∧
  ∀ i : nat, is_Some (q_abs (_operation_queue ex) !! i) ↔ (i < n)%nat.

(** Nothing has been taken from the queues. *)
Abbreviation queues_full := (queues_keep holds_first).

Lemma holds_first_wf n ex : holds_first n ex → q_wf (_operation_queue ex).
Proof. by intros (_ & ? & _). Qed.

Lemma holds_first_enqueued n ex ex' : holds_first n ex → enqueued n ex ex' → holds_first (S n) ex'.
Proof.
  intros (Hb & Hw & Hd) (Hw' & Hn & Hdel & Hb' & _). split; [congruence|]. split; [done|]. intros i.
  destruct (decide (n = i)) as [<-|Hne]; [split; [lia|done]|].
  rewrite <- (lookup_delete_ne (q_abs (_operation_queue ex')) n i), Hdel, lookup_delete_ne, Hd by done. lia.
Qed.

(** Whatever has been taken from it before, the queue holds the operations
    from the [n0]-th to the [n]-th. *)
Definition holds_from (n0 n : nat) (ex : Executor Q) : Prop :=
  q_wf (_operation_queue ex) ∧
  ∀ i : nat, (n0 <= i < n)%nat → is_Some (q_abs (_operation_queue ex) !! i).

Lemma holds_from_enqueued n0 n ex ex' : holds_from n0 n ex → enqueued n ex ex' → holds_from n0 (S n) ex'.
Proof.
  intros [Hw Hd] (Hw' & Hn & Hdel & _). split; [done|]. intros i Hi.
  destruct (decide (n = i)) as [<-|Hne]; [done|].
  rewrite <- (lookup_delete_ne (q_abs (_operation_queue ex')) n i), Hdel, lookup_delete_ne by done. apply Hd. lia.
Qed.

(** C39. On a database whose submissions have different ids and whose visible
    official submissions of the contest have a user, a task and an active
    dataset, a sweep ends without an exception; it has put in every queue, in
    the order of the submissions, the operations for the score of each of
    them that has one and for its token, except those that the service has
    already put in the queues, by a sweep or when it was notified; and it
    returns their number. Afterwards, whatever calls come, whatever databases
    they read and whatever becomes of the requests, no later sweep that finds
    this database adds anything (a notification may still queue a submission
    again). *)
Theorem sweep_queues_missing now now' db p :
  service_wf (ps_service p) → NoDup (sub_id <$> db_submissions db) →
  (∀ s, s ∈ swept_submissions db (contest_id p) →
     ∃ sr d, submission_get_result db s None = Ok sr ∧ submission_data db s = Ok d) →
  let ops := swept_submissions db (contest_id p)
    ≫= sweep_operations db (scores_sent_to_rankings p) (tokens_sent_to_rankings p) in
  ∃ p', _missing_operations now db p = (Ok (Z.of_nat (List.length ops)), p') ∧
    ps_objects p' = ps_objects p ++ ops ∧
    Forall (λ ex, ∀ i, (List.length (ps_objects p) <= i < List.length (ps_objects p'))%nat →
      is_Some (q_abs (_operation_queue ex) !! i)) (_executors (ps_service p')) ∧
    ∀ dbs p2, proxy_run p' dbs p2 → _missing_operations now' db p2 = (Ok 0%Z, p2).
Proof.
  intros Hw Hn Hok ops.
  destruct (missing_operations_ok (holds_from (List.length (ps_objects p)))
    (λ n ex H, proj1 H) (holds_from_enqueued _) now db p) as (p' & Hr & Ho & Hf & _); [|done..|].
  { eapply Forall_impl; [exact Hw|]. intros ex Hex. split; [done|]. lia. }
  exists p'. split_and!; [exact Hr|exact Ho| |].
  - eapply Forall_impl; [exact Hf|]. by intros ex [_ H].
  - intros dbs p2 Hrun. by eapply sweep_again.
Qed.

Lemma lookup_all (objs : list ProxyOperation) (l : list (PriorityQueue.QueueEntry nat)) :
  (∀ e, e ∈ l → (PriorityQueue.item e < List.length objs)%nat) →
  map_res (λ e, or_raise IndexError (objs !! PriorityQueue.item e)) l =
  Ok (omap (λ i, objs !! i) (PriorityQueue.item <$> l)).
Proof.
  induction l as [|e l IH]; intros Hl; [done|]. csimpl.
  destruct (lookup_lt_is_Some_2 objs (PriorityQueue.item e)) as [op Hop]; [apply Hl; by left|].
  rewrite Hop. cbn [or_raise mbind res_bind]. rewrite IH; [done|]. intros e' He'. apply Hl. by right.
Qed.

Lemma omap_seq {A} (l : list A) : omap (λ i, l !! i) (seq 0 (List.length l)) = l.
Proof.
  induction l as [|x l IH] using rev_ind; [done|]. rewrite length_app. cbn. rewrite Nat.add_1_r, seq_S, omap_app. cbn.
  rewrite lookup_app_r, Nat.sub_diag by done. cbn. f_equal.
  etransitivity; [|exact IH]. apply list_omap_ext. apply Forall2_same_length_lookup_2; [done|].
  intros i a b Ha Hb. rewrite Ha in Hb. injection Hb as <-. apply lookup_seq in Ha as [-> Hi]. by apply lookup_app_l.
Qed.

(** An executor that has not sent anything sends everything, in some order. *)
Lemma ranking_turn_ok {R} (put : kind → json → M R Z) i p r :
  queues_full p → (i < List.length (_executors (ps_service p)))%nat → ps_objects p ≠ [] →
  ∃ entries p', entries ≡ₚ ps_objects p ∧
    ranking_turn put i (p, r) = ((execute put entries r).1, (p', (execute put entries r).2)).
Proof.
  intros Hf [ex Hex]%lookup_lt_is_Some_2 Hne. set (n := List.length (ps_objects p)).
  assert (holds_first n ex) as (Hb & Hw & Hd).
  { eapply Forall_forall; [exact Hf|]. by apply list_elem_of_lookup_2 in Hex. }
  assert (∀ i, i ∈ dom (q_abs (_operation_queue ex)) ↔ i ∈ seq 0 n) as Hdom.
  { intros j. rewrite elem_of_dom, Hd, elem_of_seq. lia. }
  assert (size (q_abs (_operation_queue ex)) = n) as Hsize.
  { rewrite <- size_dom. transitivity (size (list_to_set (seq 0 n) : gset nat)).
    - f_equal. apply set_eq. intros j. by rewrite Hdom, elem_of_list_to_set.
    - rewrite size_list_to_set by apply NoDup_seq. apply length_seq. }
  destruct (run_iteration_spec ex Hw) as [[H0 _]|(es & ex' & Hrun & Hw' & Hlen & Hbatch)].
  { destruct (ps_objects p); [done|]. exfalso. rewrite Hsize in H0. by unfold n in H0. }
  rewrite Hb, Hsize in Hlen.
  assert (PriorityQueue.item <$> es ≡ₚ seq 0 n) as Hp.
  { apply submseteq_length_Permutation; [|by rewrite length_fmap, length_seq, Hlen].
    apply NoDup_submseteq; [by eapply batch_NoDup|]. intros j (e & -> & He)%list_elem_of_fmap.
    apply Hdom, elem_of_dom. eexists. by eapply batch_in. }
  exists (omap (λ i, ps_objects p !! i) (PriorityQueue.item <$> es)).
  exists (set_ps_service (mkService (<[i := ex']> (_executors (ps_service p)))
             (_sweeper_started (ps_service p)) (_sweeper_timeout (ps_service p))) p).
  split.
  - etransitivity; [|by rewrite <- (omap_seq (ps_objects p))]. by rewrite Hp.
  - unfold ranking_turn. erewrite M_run_Ok by reflexivity. cbv beta iota.
    erewrite M_run_Ok; [|unfold lift; rewrite Hex; reflexivity]. cbv beta iota.
    erewrite M_run_Ok; [|unfold lift; rewrite Hrun; reflexivity]. cbv beta iota zeta.
    erewrite M_run_Ok; [|unfold lift; rewrite lookup_all; [reflexivity|]].
    + erewrite M_run_Ok by reflexivity. unfold zoom. cbn [snd fst]. by destruct (execute _ _ _).
    + intros e He. assert (PriorityQueue.item e ∈ seq 0 n) as Hin.
      { rewrite <- Hp. apply list_elem_of_fmap. by exists e. }
      apply elem_of_seq in Hin. unfold n in Hin. lia.
Qed.
End ProxyService.

(** ** A contest with a hidden participation

    Two submissions of a visible participation, one with a token, and one of
    a participation that is hidden. *)

Definition feed_result (i : Z) (score : Z) : SubmissionResult :=
  mkSubmissionResult i 1 (Some COk) [] 1 None None None None None None None (Some EOk) None 1
    (Some (of_Z score)) (Some (JList [])) (Some (of_Z score)) (Some (JList [])) (Some ["1.0"]) [] [].

Definition feed_db : Db := mkDb
  [mkContest 3 1600000000000000 1700000000000000 [] "ioi_24" "IOI" 2 no_limits]
  [mkParticipation 7 3 1 false false (Some 4%Z); mkParticipation 8 3 2 true false None]
  [mkTask 5 (Some 3%Z) (Some 1%Z) 0 "Sum" "max" 0 false "sum" (Some 0%Z) [] no_limits]
  [mkDataset 1 5 false None None "Batch" [] [] "Sum" (JInt 50)]
  [mkTestcase 1 1 "a" "in" "out" true; mkTestcase 2 1 "b" "in" "out" false]
  [mkSubmission 10 7 5 1650000000000000 None true None None;
   mkSubmission 11 7 5 1660000000000000 None true None (Some 1660000100000000%Z);
   mkSubmission 12 8 5 1660000000000000 None true None None]
  [] [feed_result 10 40; feed_result 11 15; feed_result 12 100] [] [] [] [] []
  [mkUser 1 "Ada" "L" "ada_l"; mkUser 2 "Eve" "M" "eve"] [] [mkTeam 4 "IT" "Italy"].

Definition feed_fresh : Proxy (Q := PriorityQueue nat) :=
  mkProxy 3 ∅ ∅ (add_executor (executor_init true) service_init) [].
Definition feed_started : Proxy := (reinitialize demo_regexp 0 feed_db feed_fresh).2.
Definition feed_swept : Proxy := (_missing_operations 1 feed_db feed_started).2.

Lemma feed_steps : proxy_run demo_regexp feed_fresh [feed_db; feed_db] feed_swept.
Proof.
  eapply (run_cons _ _ [feed_db]); [apply step_reinitialize|].
  eapply (run_cons _ _ [feed_db]); [apply step_sweep|]. apply run_nil.
Qed.

Lemma only_public_data_sent_witness :
  ps_objects feed_fresh = [] ∧
  ((λ op, (type_ op, pd_keys (data op))) <$> ps_objects feed_swept) =
    [(CONTEST, ["ioi_5f24"]); (TEAM, ["IT"]); (USER, ["ada_5fl"]); (TASK, ["sum"]);
     (SUBMISSION, ["10"]); (SUBCHANGE, ["165000000010s"]);
     (SUBMISSION, ["11"]); (SUBCHANGE, ["166000000011s"]);
     (SUBMISSION, ["11"]); (SUBCHANGE, ["166000010011t"])] ∧
  ∀ op, op ∈ ps_objects feed_swept → ∃ db, db ∈ [feed_db; feed_db] ∧ public_operation db 3 op.
Proof.
  split; [reflexivity|]. split; [vm_compute; reflexivity|].
  apply (only_public_data_sent demo_regexp feed_fresh [feed_db; feed_db] feed_swept); [reflexivity|apply feed_steps].
Defined.

(** The participation that is hidden is not public, nor its submission. *)
Example hidden_not_public :
  ¬ public_user feed_db 3 "eve" ∧
  ¬ about_submission feed_db 3 (mkProxyOperation SUBMISSION [("12", JNull)]).
Proof.
  split.
  - intros (pa & u & (Hpa & _ & Hh) & Hu & Hk).
    repeat (apply elem_of_cons in Hpa as [-> |Hpa]; [first [done|by vm_compute in Hu; injection Hu as <-]|]).
    by apply elem_of_nil in Hpa.
  - intros (s & [Hs _ Hv _] & [(d & _ & [= Hk _])|[(sr & _ & [=])|(t & _ & [=])]]).
    repeat (apply elem_of_cons in Hs as [-> |Hs]; [first [by vm_compute in Hk|by vm_compute in Hv]|]).
    by apply elem_of_nil in Hs.
Qed.

(** Two scores and a token, and the submission of each, are to be sent; when
    the queue has been emptied and the request has failed the next sweep finds
    nothing. *)
Lemma sweep_queues_missing_witness :
  ∃ p', _missing_operations 1 feed_db feed_fresh = (Ok 6%Z, p') ∧
    (type_ <$> ps_objects p') = [SUBMISSION; SUBCHANGE; SUBMISSION; SUBCHANGE; SUBMISSION; SUBCHANGE] ∧
    let lost := set_ps_service (ps_service feed_fresh) p' in
    _missing_operations 2 feed_db lost = (Ok 0%Z, lost).
Proof.
  destruct (sweep_queues_missing demo_regexp 1 2 feed_db feed_fresh) as (p' & Hr & Ho & _ & Hagain).
  - constructor; [apply q_init_wf|constructor].
  - apply (bool_decide_eq_true_1 (NoDup _)). vm_compute. reflexivity.
  - assert (swept_submissions feed_db 3 = take 2 (db_submissions feed_db)) as E by (vm_compute; reflexivity).
    change (contest_id feed_fresh) with 3%Z. rewrite E. clear E. intros s Hs.
    repeat (apply elem_of_cons in Hs as [-> |Hs]; [eexists _, _; split; vm_compute; reflexivity|]).
    by apply elem_of_nil in Hs.
  - exists p'. split; [exact Hr|]. split; [rewrite Ho; vm_compute; reflexivity|].
    apply (Hagain []). eapply (run_cons _ _ []); [apply step_executor|apply run_nil].
Defined.
