(* ===== verification/RankingFeed.v ===== *)
(** * From the contest to the ranking

    The proxy service feeds a ranking server: what it sends after it starts
    and sweeps is accepted, and the ranking then shows the scores of the
    contest. The executor's requests are [RankingServer.wsgi_app] of the
    receiving server. *)

From S2P Require Import Prelude PriorityQueue Executor PyFloat PyString Ranking ScoringStore RankingEntities.
From S2P Require Import RankingServer Database DbUtil ScoreTypes Scoring ProxyService.
From stdpp Require Import pretty.

Local Open Scope string_scope.
Local Open Scope list_scope.

(** ** Names *)

(** A character that [encode_id] writes with two digits, or as it is. *)
Definition encodable (c : Ascii.ascii) : bool := letter_or_digit c || (16 <=? Ascii.nat_of_ascii c)%nat.

(** What [encode_id] makes of one character. *)
Definition encode_char (c : Ascii.ascii) : string :=
  if letter_or_digit c then String c EmptyString else "_" +:+ hex (Ascii.nat_of_ascii c).

Lemma encode_id_cons c s : encode_id (String c s) = encode_char c +:+ encode_id s.
Proof.
  unfold encode_char. cbn [encode_id]. by destruct (letter_or_digit c).
Qed.

Lemma append_eq_inv a b x y : String.length a = String.length b → a +:+ x = b +:+ y → a = b ∧ x = y.
Proof.
  revert b. induction a as [|c a IH]; intros [|d b]; simpl; try done.
  intros [= Hl] [= -> H]. by destruct (IH b Hl H) as [-> ->].
Qed.

Definition all_chars : list Ascii.ascii := Ascii.ascii_of_nat <$> seq 0 256.

Lemma all_chars_in c : c ∈ all_chars.
Proof.
  apply list_elem_of_fmap. exists (Ascii.nat_of_ascii c). rewrite Ascii.ascii_nat_embedding. split; [done|].
  apply elem_of_seq. pose proof (Ascii.nat_ascii_bounded c). lia.
Qed.

(** A property of a character, by trying them all. *)
Lemma every_char (P : Ascii.ascii → bool) : forallb P all_chars = true → ∀ c, P c = true.
Proof. intros H c. rewrite forallb_forall in H. apply H, list_elem_of_In, all_chars_in. Qed.

Lemma encode_char_key c : string_forall word_char (encode_char c) && negb (String.eqb (encode_char c) "") = true.
Proof. revert c. apply every_char. vm_compute. reflexivity. Qed.

(** The codes of characters are told apart by their beginning. *)
Lemma encode_char_shape c :
  encodable c = true →
  (letter_or_digit c = true ∧ encode_char c = String c EmptyString ∧ c ≠ Ascii.ascii_of_nat 95) ∨
  (∃ h, encode_char c = String (Ascii.ascii_of_nat 95) h ∧ String.length h = 2%nat).
Proof.
  intros Hc. assert ((if letter_or_digit c then negb (Ascii.eqb c (Ascii.ascii_of_nat 95)) else
    negb (16 <=? Ascii.nat_of_ascii c)%nat || (String.length (hex (Ascii.nat_of_ascii c)) =? 2)%nat) = true) as H.
  { revert c Hc. intros c _. revert c. apply every_char. vm_compute. reflexivity. }
  unfold encode_char, encodable in *. destruct (letter_or_digit c).
  - left. split_and!; try done. intros ->. by rewrite Ascii.eqb_refl in H.
  - right. exists (hex (Ascii.nat_of_ascii c)). rewrite orb_false_l in Hc. rewrite Hc in H. split; [done|]. by apply Nat.eqb_eq.
Qed.

Lemma encode_char_inj c d : encode_char c = encode_char d → encodable c = true → encodable d = true → c = d.
Proof.
  assert (∀ c, implb (encodable c) (bool_decide (head (filter (λ d, encodable d && String.eqb (encode_char d)
    (encode_char c) = true) all_chars) = Some c)) = true) as H.
  { apply every_char. vm_compute. reflexivity. }
  intros E Hc Hd. pose proof (H c) as H1. pose proof (H d) as H2. rewrite Hc in H1. rewrite Hd in H2.
  cbn [implb] in *. apply bool_decide_eq_true in H1, H2. rewrite E in H1. congruence.
Qed.

Lemma encode_id_inj a b :
  string_forall encodable a = true → string_forall encodable b = true → encode_id a = encode_id b → a = b.
Proof.
  revert b. induction a as [|c a IH]; intros [|d b] Ha Hb; [done|..]; rewrite ?encode_id_cons.
  - intros E. exfalso. pose proof (encode_char_key d) as H. by destruct (encode_char d).
  - intros E. exfalso. pose proof (encode_char_key c) as H. by destruct (encode_char c).
  - cbn in Ha, Hb. apply andb_true_iff in Ha as [Hc Ha], Hb as [Hd Hb]. intros E.
    assert (String.length (encode_char c) = String.length (encode_char d)) as Hl.
    { destruct (encode_char_shape c Hc) as [(_ & E1 & N1)|(h & E1 & L1)],
        (encode_char_shape d Hd) as [(_ & E2 & N2)|(h' & E2 & L2)]; rewrite E1, E2 in *.
      - done.
      - exfalso. injection E as E3 _. by apply N1.
      - exfalso. injection E as E3 _. by apply N2.
      - cbn [String.length]. by rewrite L1, L2. }
    destruct (append_eq_inv _ _ _ _ Hl E) as [E1 E2]. f_equal; [by apply encode_char_inj|by apply IH].
Qed.

Lemma string_forall_substring P i n s : string_forall P s = true → string_forall P (String.substring i n s) = true.
Proof.
  revert i n. induction s as [|c s IH]; intros i n Hs; [by destruct i, n|]. cbn in Hs.
  apply andb_true_iff in Hs as [Hc Hs]. destruct i as [|i]; [|by apply IH]. destruct n as [|n]; [done|].
  cbn. rewrite Hc. by apply IH.
Qed.

Lemma encode_id_chars s : string_forall word_char (encode_id s) = true.
Proof.
  induction s as [|c s IH]; [done|]. rewrite encode_id_cons, string_forall_append, IH, andb_true_r.
  by destruct (andb_prop _ _ (encode_char_key c)).
Qed.

(** [encode_id] gives only letters, digits and underscores, and gives
    different keys to different names, of characters from 16 on: names that
    the ranking server accepts and does not confuse. *)
Theorem encode_id_keys a b :
  (a ≠ "" → is_key (encode_id a) = true) ∧
  (string_forall encodable a = true → string_forall encodable b = true → encode_id a = encode_id b → a = b).
Proof.
  split; [|apply encode_id_inj]. intros Ha. unfold is_key.
  assert (endswith newline (encode_id a) = false) as ->.
  { unfold endswith. destruct (String.eqb_spec (String.substring (String.length (encode_id a) - String.length newline)
      (String.length newline) (encode_id a)) newline) as [E|E]; [|by rewrite andb_false_r].
    pose proof (string_forall_substring word_char (String.length (encode_id a) - String.length newline)
      (String.length newline) _ (encode_id_chars a)) as H. rewrite E in H. discriminate H. }
  rewrite encode_id_chars, andb_true_r. destruct a as [|c a]; [done|]. rewrite encode_id_cons.
  pose proof (encode_char_key c) as H. by destruct (encode_char c).
Qed.

Lemma encode_id_keys_witness :
  encode_id "day-1_a" = "day_2d1_5fa" ∧ is_key (encode_id "day-1_a") = true ∧
  (encode_id "day-1_a" = encode_id "day_1-a" → "day-1_a" = "day_1-a").
Proof.
  split; [reflexivity|]. split; [by apply (encode_id_keys "day-1_a" "")|].
  by apply (encode_id_keys "day-1_a" "day_1-a").
Defined.

(** ** Keys *)

Lemma pretty_N_go_length n x s :
  (10 ^ N.of_nat n ≤ x < 10 ^ N.of_nat (S n))%N → String.length (pretty_N_go x s) = (S n + String.length s)%nat.
Proof.
  revert x s. induction n as [|n IH]; intros x s Hx.
  - rewrite pretty_N_go_step by lia. change (10 ^ N.of_nat 0)%N with 1%N in Hx. change (10 ^ N.of_nat 1)%N with 10%N in Hx.
    rewrite N.div_small by lia. by rewrite pretty_N_go_0.
  - rewrite !Nat2N.inj_succ, !N.pow_succ_r' in Hx. rewrite pretty_N_go_step by (pose proof (N.pow_nonzero 10 (N.of_nat n) ltac:(done)); lia).
    rewrite IH; [simpl; lia|]. rewrite Nat2N.inj_succ, N.pow_succ_r'.
    split; [apply N.div_le_lower_bound; lia|apply N.Div0.div_lt_upper_bound; lia].
Qed.

(** Times from September 2001 to 2286 have ten digits. *)
Definition ten_digits (n : Z) : Prop := (10 ^ 9 ≤ n < 10 ^ 10)%Z.

Lemma pretty_ten_digits n : ten_digits n → String.length (pretty n) = 10%nat.
Proof.
  unfold ten_digits. intros Hn. destruct n as [|p|p]; [lia| |lia].
  change (pretty (Z.pos p)) with (pretty (N.pos p)). unfold pretty, pretty_N. rewrite decide_False by done.
  rewrite (pretty_N_go_length 9); [done|]. change (N.of_nat 9) with 9%N. change (N.of_nat 10) with 10%N. lia.
Qed.

Lemma digit_char n : (n < 10)%N → word_char (pretty_N_char n) = true.
Proof. destruct n as [|[[[[]|[]|]|[[]|[]|]|]|[[[]|[]|]|[[]|[]|]|]|]]; intros H; first [done|lia]. Qed.

Lemma pretty_N_go_chars x s : string_forall word_char s = true → string_forall word_char (pretty_N_go x s) = true.
Proof.
  revert s. induction (N.lt_wf_0 x) as [x _ IH]. intros s Hs.
  destruct (decide (0 < x)%N) as [Hx|Hx].
  - rewrite pretty_N_go_step by done. apply IH; [by apply N.div_lt|]. simpl. rewrite Hs, andb_true_r.
    apply digit_char, N.mod_lt. done.
  - replace x with 0%N by lia. by rewrite pretty_N_go_0.
Qed.

Lemma pretty_key n : (0 < n)%Z → string_forall word_char (pretty n) = true ∧ pretty n ≠ "".
Proof.
  intros Hn. destruct n as [|p|p]; [lia| |lia]. change (pretty (Z.pos p)) with (pretty (N.pos p)).
  unfold pretty, pretty_N. rewrite decide_False by done. split; [by apply pretty_N_go_chars|]. intros E.
  assert (∀ x s, s ≠ "" → pretty_N_go x s ≠ "") as H.
  { intros x. induction (N.lt_wf_0 x) as [x _ IH]. intros s Hs. destruct (decide (0 < x)%N) as [Hx|Hx].
    - rewrite pretty_N_go_step by done. by apply IH; [apply N.div_lt|].
    - replace x with 0%N by lia. by rewrite pretty_N_go_0. }
  rewrite pretty_N_go_step in E by lia. by apply H in E.
Qed.

Lemma starts_as_key_chars s : string_forall word_char s = true → s ≠ "" → starts_as_key s = true.
Proof. destruct s as [|c s]; [done|]. by intros [? _]%andb_true_iff _. Qed.

Lemma starts_as_key_append a b : starts_as_key a = true → starts_as_key (a +:+ b) = true.
Proof. by destruct a. Qed.

(** The names of changes determine the submission and the kind of change. *)
Lemma change_key_inj a b i j x y :
  ten_digits a → ten_digits b → String.length x = String.length y →
  pretty a +:+ pretty i +:+ x = pretty b +:+ pretty j +:+ y → a = b ∧ (i : Z) = j ∧ x = y.
Proof.
  intros Ha Hb Hl E. apply append_eq_inv in E as [E1 E2]; [|by rewrite !pretty_ten_digits].
  pose proof (f_equal String.length E2) as Hl2. rewrite !length_append in Hl2.
  apply append_eq_inv in E2 as [E2 E3]; [|lia]. split_and!; [by apply (inj pretty)|by apply (inj pretty)|done].
Qed.

(** ** Requests to the ranking server *)

Section feed.
Context (float_of_string : string → option float) (can_write : string → bool).

(** What the request of [safe_put_data] does to the server. *)
Definition put_to_server (k : kind) (data : json) : M Server Z :=
  r ← wsgi_app float_of_string can_write k (PutList (mk_request true true (Some data))); mret (status r).

Definition same_scoring (s s' : Server) : Prop := scores s' = scores s ∧ notified s' = notified s.

Lemma save_ok k key e s :
  pd_get (stores s k) key = Some e →
  ∃ s', save can_write k key s = (Ok tt, s') ∧ stores s' = stores s ∧ same_scoring s s'.
Proof.
  intros He. unfold save. destruct (can_write key); [|by exists s].
  rewrite (M_run_Ok _ _ _ s s) by done. rewrite He. by eexists.
Qed.

Lemma check_items_total s k d :
  NoDup (pd_keys d) →
  (∀ key j, (key, j) ∈ d → starts_as_key key = true ∧ ∃ e, entity_set k j = Ok e ∧ consistent s e = true) →
  ∃ items, fold_res (check_item s k) [] d = Ok items ∧
    Forall2 (λ kv it : string * _, kv.1 = it.1 ∧ entity_set k kv.2 = Ok it.2) d items.
Proof.
  intros Hn Hd. assert (∀ acc : pydict string entity, NoDup (pd_keys acc ++ pd_keys d) →
    ∃ items, fold_res (check_item s k) acc d = Ok (acc ++ items) ∧
      Forall2 (λ kv it : string * _, kv.1 = it.1 ∧ entity_set k kv.2 = Ok it.2) d items) as H; [|by apply (H [])].
  clear Hn. induction d as [|[key j] d IH]; intros acc Hn; [exists []; by rewrite app_nil_r|].
  destruct (Hd key j ltac:(by left)) as (Hkey & e & He & Hc). csimpl in Hn.
  assert (check_item s k acc (key, j) = Ok (acc ++ [(key, e)])) as Hi.
  { unfold check_item. cbn [fst snd]. rewrite Hkey, He. cbn [negb mbind res_bind]. rewrite Hc. cbn [negb].
    rewrite pd_set_fresh; [done|]. intros Hin. apply NoDup_app in Hn as (_ & Hx & _). destruct (Hx key Hin). by left. }
  cbn [fold_res]. rewrite (res_bind_eq _ _ _ Hi).
  destruct (IH ltac:(intros; apply Hd; by right) (acc ++ [(key, e)])) as (items & -> & Hf).
  { unfold pd_keys in *. rewrite fmap_app, <- app_assoc. exact Hn. }
  exists ((key, e) :: items). rewrite <- app_assoc. split; [done|by constructor].
Qed.

(** The stores whose entities the scores do not follow. *)
Definition plain (k : kind) : Prop := k ≠ SUBMISSION ∧ k ≠ SUBCHANGE.

Lemma merge_plain k key e s :
  plain k → kind_of e = k →
  ∃ s', RankingServer.merge float_of_string can_write k key e s = (Ok tt, s') ∧
    stores s' = update_fun k (λ d, pd_set d key e) (stores s) ∧ same_scoring s s'.
Proof.
  intros [Hk1 Hk2] Hk. unfold RankingServer.merge. rewrite (M_run_Ok _ _ _ s s) by done.
  set (s1 := with_store k (λ d, pd_set d key e) s). rewrite (M_run_Ok _ _ _ tt s1) by done.
  assert (∃ s2, (match pd_get (stores s k) key with
    | None => create_callbacks float_of_string k key e
    | Some old_value => update_callbacks float_of_string k key old_value e
    end) s1 = (Ok tt, s2) ∧ stores s2 = stores s1 ∧ same_scoring s1 s2) as (s2 & H2 & S2 & C2).
  { destruct (pd_get (stores s k) key) as [old|].
    - destruct old, e; try by eexists. all: by destruct Hk1 + destruct Hk2.
    - destruct e; try by eexists. all: by destruct Hk1 + destruct Hk2. }
  rewrite (M_run_Ok _ _ _ _ _ H2). destruct (save_ok k key e s2) as (s3 & -> & S3 & C3).
  { rewrite S2. unfold s1. rewrite stores_with_store, decide_True by done. apply pd_get_set_eq. }
  exists s3. split; [done|]. rewrite S3, S2. split; [done|]. destruct C2 as [A1 A2], C3 as [B1 B2].
  split; [by rewrite B1, A1|by rewrite B2, A2].
Qed.

(** The items of a request, stored in an empty store. *)
Lemma merge_items k items s (I : Server → Prop) :
  NoDup (pd_keys items) → stores s k = [] → I s →
  (∀ pre key e t, (key, e) ∈ items → key ∉ pd_keys pre → I t → stores t k = pre →
     ∃ t', RankingServer.merge float_of_string can_write k key e t = (Ok tt, t') ∧ I t' ∧
       stores t' = update_fun k (λ d, pd_set d key e) (stores t)) →
  ∃ s', for_each (λ kv, RankingServer.merge float_of_string can_write k kv.1 kv.2) items s = (Ok tt, s') ∧
    I s' ∧ stores s' k = items ∧ ∀ k', k' ≠ k → stores s' k' = stores s k'.
Proof.
  intros Hn Hs HI Hm. destruct (for_each_total (λ kv, RankingServer.merge float_of_string can_write k kv.1 kv.2)
    (λ pre t, I t ∧ stores t k = pre ∧ ∀ k', k' ≠ k → stores t k' = stores s k') items s) as (s' & H & H').
  - intros pre [key e] post t Hl (Ht & Hk & Ho). assert (key ∉ pd_keys pre) as Hkey.
    { rewrite Hl in Hn. unfold pd_keys in *. rewrite fmap_app in Hn. apply NoDup_app in Hn as (_ & Hx & _).
      intros Hin. destruct (Hx _ Hin). by left. }
    destruct (Hm pre key e t) as (t' & Hr & Ht' & Hst); [rewrite Hl; apply elem_of_app; right; left|done..|].
    exists t'. split; [done|]. split; [done|]. rewrite Hst. split.
    + rewrite update_fun_eq, Hk. by apply pd_set_fresh.
    + intros k' Hne. rewrite update_fun_ne by done. by apply Ho.
  - done.
  - by exists s'.
Qed.

(** *** Submissions and changes *)

Abbreviation to_world := (RankingServer.to_world float_of_string).

Lemma omap_fresh {V W} (g : string * V → option (string * W)) (d : pydict string V) key :
  (∀ kv kw, g kv = Some kw → kw.1 = kv.1) → key ∉ pd_keys d → key ∉ pd_keys (omap (M := list) g d).
Proof.
  intros Hg Hk (kw & -> & (kv & Hin & H)%list_elem_of_omap)%list_elem_of_fmap. apply Hk, list_elem_of_fmap.
  exists kv. by rewrite (Hg _ _ H).
Qed.

Lemma omap_set_fresh {V W} (g : string * V → option (string * W)) (d : pydict string V) key v w :
  (∀ kv kw, g kv = Some kw → kw.1 = kv.1) → key ∉ pd_keys d → g (key, v) = Some (key, w) →
  omap (M := list) g (pd_set d key v) = pd_set (omap (M := list) g d : pydict string W) key w.
Proof.
  intros Hg Hk Hv. rewrite !pd_set_fresh by (try apply omap_fresh; done). rewrite omap_app. cbn. by rewrite Hv.
Qed.

(** Only these parts of the server matter. *)
Lemma to_world_ext s s' : stores s' = stores s → same_scoring s s' → to_world s' = to_world s.
Proof. intros H1 [H2 H3]. unfold RankingServer.to_world. by rewrite H1, H2, H3. Qed.

(** A callback whose result is [w']. *)
Lemma in_scoring_world m s w' :
  m (to_world s) = (Ok tt, w') → task_store w' = task_store (to_world s) → user_store w' = user_store (to_world s) →
  submission_store w' = submission_store (to_world s) → subchange_store w' = subchange_store (to_world s) →
  ∃ s', in_scoring float_of_string m s = (Ok tt, s') ∧ stores s' = stores s ∧ to_world s' = w'.
Proof.
  intros Hm E1 E2 E3 E4. unfold in_scoring. rewrite Hm. eexists. split; [done|]. split; [done|].
  unfold RankingServer.to_world in *. cbn in *. destruct w'; cbn in *. by subst.
Qed.

Lemma merge_submission key x s :
  store_inv (to_world s) → key ∉ pd_keys (stores s SUBMISSION) →
  submission_consistent (to_world s) (submission_of x) = true →
  ∃ s', RankingServer.merge float_of_string can_write SUBMISSION key (ESubmission x) s = (Ok tt, s') ∧
    store_inv (to_world s') ∧ stores s' = update_fun SUBMISSION (λ d, pd_set d key (ESubmission x)) (stores s).
Proof.
  intros Hi Hk Hc. set (w := to_world s) in *.
  assert (pd_get (submission_store w) key = None) as Hnew.
  { apply pd_get_None. apply omap_fresh; [|done]. intros [k []] kw; cbn; by intros [= <-]. }
  destruct (put_submission_ok key (submission_of x) w Hi Hc) as (w' & Hput & Hi' & E1 & E2 & E3 & E4).
  { intros old. by rewrite Hnew. }
  unfold put_submission, store_merge in Hput. rewrite (M_run_Ok _ _ _ w w) in Hput by done.
  erewrite M_run_Ok in Hput by reflexivity. rewrite Hnew in Hput.
  set (s1 := with_store SUBMISSION (λ d, pd_set d key (ESubmission x)) s).
  assert (to_world s1 = set_submission_store (pd_set (submission_store w) key (submission_of x)) w) as Hw1.
  { unfold RankingServer.to_world, set_submission_store. cbn. f_equal.
    apply omap_set_fresh; [|done|done]. intros [k []] kw; cbn; by intros [= <-]. }
  rewrite <- Hw1 in Hput. destruct (in_scoring_world _ s1 w' Hput) as (s2 & H2 & S2 & W2);
    [by rewrite Hw1..|]. unfold RankingServer.merge. rewrite (M_run_Ok _ _ _ s s) by done.
  rewrite (M_run_Ok _ _ _ tt s1) by done. rewrite (proj2 (pd_get_None _ _) Hk).
  rewrite (M_run_Ok _ _ _ _ _ H2). destruct (save_ok SUBMISSION key (ESubmission x) s2) as (s3 & H3 & S3 & C3).
  { rewrite S2. unfold s1. rewrite stores_with_store, decide_True by done. apply pd_get_set_eq. }
  exists s3. split; [exact H3|]. split; [|by rewrite S3, S2]. by rewrite (to_world_ext s2), W2.
Qed.

Lemma merge_subchange key c s :
  store_inv (to_world s) → key ∉ pd_keys (stores s SUBCHANGE) →
  subchange_consistent (to_world s) (subchange_of float_of_string key c) = true →
  regular_change (subchange_of float_of_string key c) = true →
  ∃ s', RankingServer.merge float_of_string can_write SUBCHANGE key (ESubchange c) s = (Ok tt, s') ∧
    store_inv (to_world s') ∧ stores s' = update_fun SUBCHANGE (λ d, pd_set d key (ESubchange c)) (stores s).
Proof.
  intros Hi Hk Hc Hr. set (w := to_world s) in *. set (ch := subchange_of float_of_string key c) in *.
  assert (pd_get (subchange_store w) key = None) as Hnew.
  { apply pd_get_None. apply omap_fresh; [|done]. intros [k []] kw; cbn; by intros [= <-]. }
  destruct (put_subchange_ok key ch w Hi Hc) as (w' & Hput & Hi' & E1 & E2 & E3 & E4).
  { split; [done|]. intros old. by rewrite Hnew. }
  unfold put_subchange, store_merge in Hput. rewrite (M_run_Ok _ _ _ w w) in Hput by done.
  erewrite M_run_Ok in Hput by reflexivity. rewrite Hnew in Hput. change (with_sc_key key ch) with ch in *.
  set (s1 := with_store SUBCHANGE (λ d, pd_set d key (ESubchange c)) s).
  assert (to_world s1 = set_subchange_store (pd_set (subchange_store w) key ch) w) as Hw1.
  { unfold RankingServer.to_world, set_subchange_store. cbn. f_equal.
    apply omap_set_fresh; [|done|done]. intros [k []] kw; cbn; by intros [= <-]. }
  rewrite <- Hw1 in Hput. destruct (in_scoring_world _ s1 w' Hput) as (s2 & H2 & S2 & W2);
    [by rewrite Hw1..|]. unfold RankingServer.merge. rewrite (M_run_Ok _ _ _ s s) by done.
  rewrite (M_run_Ok _ _ _ tt s1) by done. rewrite (proj2 (pd_get_None _ _) Hk).
  rewrite (M_run_Ok _ _ _ _ _ H2). destruct (save_ok SUBCHANGE key (ESubchange c) s2) as (s3 & H3 & S3 & C3).
  { rewrite S2. unfold s1. rewrite stores_with_store, decide_True by done. apply pd_get_set_eq. }
  exists s3. split; [exact H3|]. split; [|by rewrite S3, S2]. by rewrite (to_world_ext s2), W2.
Qed.

(** *** A whole batch *)

(** The entities of a batch, by type; they refer to each other. *)
Definition server_of (items : kind → pydict string entity) : Server := mk_server items (λ _, []) [] [] [].

Record acceptable (data : kind → pydict string json) (items : kind → pydict string entity) : Prop := {
  ac_keys k : NoDup (pd_keys (data k));
  ac_items k : Forall2 (λ kv it : string * _, kv.1 = it.1 ∧ entity_set k kv.2 = Ok it.2) (data k) (items k);
  ac_start k key : key ∈ pd_keys (data k) → starts_as_key key = true;
  ac_refs k key e : (key, e) ∈ items k → consistent (server_of items) e = true;
  ac_modes key t : (key, ETask t) ∈ items TASK → ta_score_mode t ∈ score_modes;
  ac_regular key c : (key, ESubchange c) ∈ items SUBCHANGE →
    regular_change (subchange_of float_of_string key c) = true;
}.

Section batch.
Context (data : kind → pydict string json) (items : kind → pydict string entity).
Hypothesis Hac : acceptable data items.

Lemma items_keys k : pd_keys (items k) = pd_keys (data k).
Proof.
  unfold pd_keys. pose proof (ac_items _ _ Hac k) as Hf.
  induction Hf as [|kv it l l' [H _] _ IH]; csimpl; [done|]. by rewrite H, IH.
Qed.

Lemma items_kind k key e : (key, e) ∈ items k → kind_of e = k ∧ ∃ j, (key, j) ∈ data k ∧ entity_set k j = Ok e.
Proof.
  intros (i & Hi)%list_elem_of_lookup.
  destruct (Forall2_lookup_r _ _ _ _ _ (ac_items _ _ Hac k) Hi) as ([key' j] & Hj & Hkey & He). cbn in *. subst key'.
  split; [by eapply entity_set_Ok|]. exists j. split; [by apply list_elem_of_lookup_2 in Hj|done].
Qed.

(** The stores of the types [l] have been filled. *)
Definition fed (l : list kind) (s : Server) : Prop :=
  ∀ k, stores s k = if decide (k ∈ l) then items k else [].

Lemma fed_consistent l s k key e :
  fed l s → (key, e) ∈ items k → (∀ k', k' ∈ refers k → k' ∈ l) → consistent s e = true.
Proof.
  intros Hs He Hl. rewrite <- (ac_refs _ _ Hac k key e He). apply consistent_ext. intros k' Hk'.
  rewrite (proj1 (items_kind _ _ _ He)) in Hk'. cbn. by rewrite Hs, decide_True by auto.
Qed.

(** One request, from what merging its entities does. *)
Lemma send_type_ok l k s (I : Server → Prop) :
  fed l s → k ∉ l → (∀ k', k' ∈ refers k → k' ∈ l) → I s →
  (∀ pre key e t, (key, e) ∈ items k → key ∉ pd_keys pre → I t → stores t k = pre →
     (∀ k', k' ≠ k → stores t k' = stores s k') →
     ∃ t', RankingServer.merge float_of_string can_write k key e t = (Ok tt, t') ∧ I t' ∧
       stores t' = update_fun k (λ d, pd_set d key e) (stores t)) →
  ∃ s', send_type put_to_server data k s = (Ok tt, s') ∧ fed (k :: l) s' ∧ I s'.
Proof.
  intros Hs Hk Hl HI Hm. unfold send_type. destruct (decide (data k = [])) as [Hd|Hd].
  - exists s. split; [done|]. split; [|done]. intros k'. rewrite Hs.
    assert (items k = []) as Hi.
    { pose proof (ac_items _ _ Hac k) as Hf. rewrite Hd in Hf. by inversion Hf. }
    destruct (decide (k' = k)) as [->|Hne]; [by rewrite decide_False, decide_True by (done || by left)|].
    destruct (decide (k' ∈ l)); [by rewrite decide_True by by right|]. rewrite decide_False; [done|]. by apply not_elem_of_cons.
  - assert (stores s k = []) as Hempty by by rewrite Hs, decide_False.
    destruct (check_items_total s k (data k)) as (its & Hits & Hf); [apply Hac| |].
    { intros key j Hin. split; [eapply ac_start; [done|]; apply list_elem_of_fmap; by exists (key, j)|].
      apply list_elem_of_lookup in Hin as [i Hi].
      destruct (Forall2_lookup_l _ _ _ _ _ (ac_items _ _ Hac k) Hi) as ([key' e] & He & Hkey & Hset). cbn in *. subst key'.
      exists e. split; [done|]. apply list_elem_of_lookup_2 in He. by eapply fed_consistent. }
    assert (its = items k) as ->.
    { pose proof (ac_items _ _ Hac k) as Hg. clear -Hf Hg. revert its Hf. induction Hg as [|[a b] [c e] l l' [H1 H2] _ IH];
        intros its Hf; inversion Hf as [|? [c' e'] ? ? [H3 H4] Hr]; [done|]; subst. cbn in *. f_equal; [congruence|auto]. }
    destruct (merge_items k (items k) s
      (λ t, I t ∧ ∀ k', k' ≠ k → stores t k' = stores s k')) as (s' & Hrun & [HI' _] & Hst & Ho).
    { rewrite items_keys. apply Hac. }
    { done. }
    { done. }
    { intros pre key e t Hin Hkey [Ht Ht'] Hpre. destruct (Hm pre key e t) as (t' & H1 & H2 & H3); [done..|].
      exists t'. split; [done|]. split; [|done]. split; [done|]. intros k' Hne. rewrite H3, update_fun_ne by done. auto. }
    exists s'. split.
    + unfold safe_put_data, put_to_server. cbn [wsgi_app handle_put_list with_payload authorized is_json payload negb].
      unfold handle_put_list, with_payload. cbn [authorized is_json payload negb].
      assert (merge_list float_of_string can_write k (JObject (data k)) s = (Ok tt, s')) as Hml.
      { unfold merge_list. rewrite (M_run_Ok _ _ _ s s) by done.
        rewrite (M_run_Ok _ _ _ (items k) s) by (unfold lift; by rewrite Hits). exact Hrun. }
      unfold try_except, mbind, M_bind. rewrite Hml. reflexivity.
    + split; [|done]. intros k'. destruct (decide (k' = k)) as [->|Hne]; [by rewrite decide_True by by left|].
      rewrite Ho, Hs by done. destruct (decide (k' ∈ l)); [by rewrite decide_True by by right|].
      rewrite decide_False; [done|]. by apply not_elem_of_cons.
Qed.

Lemma send_plain l k s :
  plain k → fed l s → k ∉ l → (∀ k', k' ∈ refers k → k' ∈ l) → same_scoring empty_server s →
  ∃ s', send_type put_to_server data k s = (Ok tt, s') ∧ fed (k :: l) s' ∧ same_scoring empty_server s'.
Proof.
  intros Hp Hs Hk Hl Hsc. apply (send_type_ok l); [done..|]. intros pre key e t Hin _ [T1 T2] _ _.
  destruct (merge_plain k key e t Hp (proj1 (items_kind _ _ _ Hin))) as (t' & H1 & H2 & [T3 T4]).
  exists t'. split; [done|]. split; [|done]. split; [by rewrite T3|by rewrite T4].
Qed.

Lemma task_modes_lookup (d : pydict string entity) key m :
  task_modes d !! key = Some m → ∃ t, (key, ETask t) ∈ d ∧ ta_score_mode t = m.
Proof.
  unfold task_modes. intros ([k []] & Hin & H)%elem_of_list_to_map_2%list_elem_of_omap; try done.
  injection H as -> <-. by eexists.
Qed.

Lemma task_modes_has (d : pydict string entity) key t : (key, ETask t) ∈ d → is_Some (task_modes d !! key).
Proof.
  intros Hin. apply not_eq_None_Some. unfold task_modes. intros H%not_elem_of_list_to_map. apply H.
  apply list_elem_of_fmap. exists (key, ta_score_mode t). split; [done|]. apply list_elem_of_omap.
  by exists (key, ETask t).
Qed.

(** Before any submission. *)
Lemma fed_store_inv s :
  fed [USER; TEAM; TASK; CONTEST] s → same_scoring empty_server s → store_inv (to_world s).
Proof.
  intros Hs [H1 H2].
  assert (to_world s = empty_world (task_modes (stores s TASK)) (list_to_set (pd_keys (stores s USER)))) as ->.
  { unfold RankingServer.to_world, empty_world. rewrite H1, H2, (Hs SUBMISSION), (Hs SUBCHANGE). done. }
  apply ScoringStore.empty_inv. intros key m (t & Hin & <-)%task_modes_lookup. rewrite Hs in Hin.
  by eapply (ac_modes _ _ Hac).
Qed.

Lemma send_submissions s :
  fed [USER; TEAM; TASK; CONTEST] s → store_inv (to_world s) →
  ∃ s', send_type put_to_server data SUBMISSION s = (Ok tt, s') ∧
    fed [SUBMISSION; USER; TEAM; TASK; CONTEST] s' ∧ store_inv (to_world s').
Proof.
  intros Hs Hi. apply (send_type_ok _ SUBMISSION s (λ t, store_inv (to_world t))); [done|set_solver|cbn; set_solver|done|].
  intros pre key e t Hin Hkey Ht Hpre Ho. destruct (items_kind _ _ _ Hin) as (Hkind & _).
  assert (consistent s e = true) as Hc by (eapply fed_consistent; [done..|cbn; set_solver]).
  destruct e as [| | | |x|]; try done. apply merge_submission; [done|by rewrite Hpre|].
  cbn in Hc. apply andb_true_iff in Hc as [[et Htask]%has_elem [eu Huser]%has_elem].
  unfold submission_consistent. apply andb_true_iff. rewrite !bool_decide_eq_true. cbn. rewrite !Ho by done. split.
  - apply pd_get_Some_in in Htask as Hin'. rewrite Hs in Hin'. destruct (items_kind TASK _ _ Hin') as (Hk & _).
    destruct et; try done. eapply task_modes_has. by apply pd_get_Some_in.
  - apply elem_of_list_to_set, pd_get_in. by exists eu.
Qed.

Lemma send_subchanges s :
  fed [SUBMISSION; USER; TEAM; TASK; CONTEST] s → store_inv (to_world s) →
  ∃ s', send_type put_to_server data SUBCHANGE s = (Ok tt, s') ∧
    fed [SUBCHANGE; SUBMISSION; USER; TEAM; TASK; CONTEST] s' ∧ store_inv (to_world s').
Proof.
  intros Hs Hi. apply (send_type_ok _ SUBCHANGE s (λ t, store_inv (to_world t))); [done|set_solver|cbn; set_solver|done|].
  intros pre key e t Hin Hkey Ht Hpre Ho. destruct (items_kind _ _ _ Hin) as (Hkind & _).
  assert (consistent s e = true) as Hc by (eapply fed_consistent; [done..|cbn; set_solver]).
  destruct e as [| | | | |c]; try done. apply merge_subchange; [done|by rewrite Hpre| |by eapply (ac_regular _ _ Hac)].
  cbn in Hc. apply has_elem in Hc as [es Hes].
  unfold subchange_consistent, pd_mem. apply bool_decide_eq_true, pd_get_in. cbn. rewrite Ho by done.
  apply pd_get_Some_in in Hes as Hin'. pose proof Hin' as Hin2. rewrite Hs in Hin'.
  destruct (items_kind SUBMISSION _ _ Hin') as (Hk & _). destruct es as [| | | |x|]; try done.
  apply list_elem_of_fmap. exists (cd_submission c, submission_of x). split; [done|]. apply list_elem_of_omap.
  by exists (cd_submission c, ESubmission x).
Qed.

(** All the types. *)
Lemma send_all :
  ∃ s, for_each (send_type put_to_server data) types empty_server = (Ok tt, s) ∧
    (∀ k, stores s k = items k) ∧ store_inv (to_world s).
Proof.
  assert (fed [] empty_server) as F0 by (intros k; by rewrite decide_False by apply not_elem_of_nil).
  destruct (send_plain [] CONTEST empty_server) as (s1 & R1 & F1 & C1); [done|done|set_solver|cbn; set_solver|done|].
  destruct (send_plain [CONTEST] TASK s1) as (s2 & R2 & F2 & C2); [done|done|set_solver|cbn; set_solver|done|].
  destruct (send_plain [TASK; CONTEST] TEAM s2) as (s3 & R3 & F3 & C3); [done|done|set_solver|cbn; set_solver|done|].
  destruct (send_plain [TEAM; TASK; CONTEST] USER s3) as (s4 & R4 & F4 & C4); [done|done|set_solver|cbn; set_solver|done|].
  destruct (send_submissions s4 F4) as (s5 & R5 & F5 & I5); [by apply fed_store_inv|].
  destruct (send_subchanges s5 F5 I5) as (s6 & R6 & F6 & I6).
  exists s6. split; [|split; [|done]].
  - unfold types. cbn [for_each].
    by rewrite (M_run_Ok _ _ _ _ _ R1), (M_run_Ok _ _ _ _ _ R2), (M_run_Ok _ _ _ _ _ R3), (M_run_Ok _ _ _ _ _ R4),
      (M_run_Ok _ _ _ _ _ R5), (M_run_Ok _ _ _ _ _ R6).
  - intros k. rewrite F6, decide_True; [done|]. destruct k; set_solver.
Qed.
End batch.
End feed.

(** ** What the ranking shows *)

(** The score of a user on a task of mode "max" is the greatest of the scores
    that the changes of the user's submissions give. *)
Lemma current_score_max w u t (l : list float) :
  store_inv w → task_store w !! t = Some Ranking.SCORE_MODE_MAX →
  (∀ k1 c1 x1 k2 c2 x2, pd_get (subchange_store w) k1 = Some c1 → pd_get (subchange_store w) k2 = Some c2 →
     sc_submission c1 = sc_submission c2 → sc_score c1 = Some x1 → sc_score c2 = Some x2 → x1 = x2) →
  Forall (λ x, nonneg x = true) l →
  (∀ x, x ∈ l → ∃ k c, pd_get (subchange_store w) k = Some c ∧ sc_score c = Some x ∧
     is_Some (sub_of (submission_store w) u t (sc_submission c))) →
  (∀ k c x, pd_get (subchange_store w) k = Some c → sc_score c = Some x →
     is_Some (sub_of (submission_store w) u t (sc_submission c)) → x ∈ l) →
  current_score w u t = fmaxs l.
Proof.
  intros [[[_ _ Hch _] Ht _] _] Hmode Hu Hn H1 H2. specialize (Ht u t). unfold current_score.
  destruct (score_at (_scores w) u t) as [st|]; cbn in Ht.
  - destruct Ht as (Hi & Hm & _ & Hsub & Hchg). rewrite Hm in Hmode. injection Hmode as Hmode.
    rewrite (proj1 (inv_history _ Hi)). unfold spec_score. rewrite decide_True by done. apply fmaxs_same.
    + apply regular_scores, good_regular, Hi.
    + done.
    + intros x (s & -> & ([k s'] & -> & Hs)%list_elem_of_fmap)%list_elem_of_fmap. cbn.
      apply pd_in_get in Hs; [|apply good_keys, Hi]. rewrite (inv_submission_score _ _ _ Hi Hs).
      destruct (score_after_in k f0 (_changes st)) as [->|(c & [Hc Hof]%Hchg & Hk & Hsc)]; [by left|].
      right. by eapply H2.
    + intros x (k & c & Hc & Hsc & [s Hs])%H1. right. destruct (Hch _ _ Hc) as (Hkey & _ & _).
      pose proof (Hsub (sc_submission c)) as Hat. rewrite Hs in Hat. unfold sub_at in Hat.
      destruct (pd_get (_submissions st) (sc_submission c)) as [s'|] eqn:Hs'; [|done].
      apply list_elem_of_fmap. exists s'. split.
      * rewrite (inv_submission_score _ _ _ Hi Hs'). symmetry. apply (score_after_unique _ _ _ c); try done.
        -- apply Hchg. split; [by rewrite Hkey|by exists s].
        -- intros c' [Hc' _]%Hchg Hk'. destruct (sc_score c') as [y|] eqn:Hy; [|done]. cbn. by apply (Hu (sc_key c') c' y k c x).
      * apply list_elem_of_fmap. exists (sc_submission c, s'). split; [done|]. by apply pd_get_Some_in.
  - change f0 with (fmaxs []). apply fmaxs_same; [constructor|done|by intros ? ?%elem_of_nil|].
    intros x (k & c & _ & _ & [s Hs])%H1. by rewrite Ht in Hs.
Qed.
