(* ===== verification/ContestRanking.v ===== *)
(** * A contest and its ranking

    The data that the proxy service sends for a contest, as the entities that
    the ranking server makes of it, and the theorem that ties the services
    together: the ranking shows the scores of the contest. *)

From S2P Require Import Prelude PriorityQueue Executor PyFloat PyString Ranking ScoringStore RankingEntities.
From S2P Require Import RankingServer Database DbUtil ScoreTypes Scoring ProxyService RankingFeed.
From stdpp Require Import pretty.

Local Open Scope string_scope.
Local Open Scope list_scope.

(** ** Combined operations *)

Lemma dict_update_spec (d e : pydict string json) :
  NoDup (pd_keys d) →
  NoDup (pd_keys (dict_update d e)) ∧
  (∀ kv, kv ∈ dict_update d e → kv ∈ d ∨ kv ∈ e) ∧
  (∀ key, key ∈ pd_keys d ∨ key ∈ pd_keys e → key ∈ pd_keys (dict_update d e)).
Proof.
  unfold dict_update. revert d. induction e as [|[key j] e IH]; intros d Hn; cbn [foldl].
  { split_and!; [done|by left|]. intros key [?|?%elem_of_nil]; done. }
  destruct (IH (pd_set d key j) (pd_keys_set_NoDup _ _ _ Hn)) as (H1 & H2 & H3). cbn [fst snd] in *. split_and!.
  - done.
  - intros kv [[->|Hd]%pd_set_elem|He]%H2; [right; by left|by left|right; by right].
  - intros k Hk. apply H3. rewrite pd_keys_set_elem. csimpl in Hk. rewrite elem_of_cons in Hk. tauto.
Qed.

Lemma combine_spec entries k :
  NoDup (pd_keys (ProxyService.combine entries k)) ∧
  (∀ kv, kv ∈ ProxyService.combine entries k → ∃ op, op ∈ entries ∧ type_ op = k ∧ kv ∈ data op) ∧
  (∀ op key, op ∈ entries → type_ op = k → key ∈ pd_keys (data op) → key ∈ pd_keys (ProxyService.combine entries k)).
Proof.
  induction entries as [|op entries (H1 & H2 & H3)] using rev_ind.
  { split_and!; [constructor|by intros ? ?%elem_of_nil|by intros ?? ?%elem_of_nil]. }
  unfold ProxyService.combine in *. rewrite foldl_app. cbn [foldl]. destruct (decide (k = type_ op)) as [Hk|Hk].
  - destruct (dict_update_spec _ (data op) H1) as (D1 & D2 & D3). split_and!; [done|..].
    + intros kv [(op' & Hop & Ht)%H2|He]%D2; [exists op'|exists op]; rewrite elem_of_app, list_elem_of_singleton; auto.
    + intros op' key [Hop|Hop%list_elem_of_singleton]%elem_of_app Ht Hkey; apply D3; [left; by eapply H3|right; by subst].
  - split_and!; [done|..].
    + intros kv (op' & Hop & Ht)%H2. exists op'. rewrite elem_of_app. auto.
    + intros op' key [Hop|Hop%list_elem_of_singleton]%elem_of_app Ht Hkey; [by eapply H3|by subst].
Qed.

(** ** Contests that can be shown *)

Definition code_name (s : string) : Prop := s ≠ "" ∧ string_forall encodable s = true.

(** The keys of the tables; code names; an active data set, a known score mode
    and an order for each task; submissions from 2001 on; and scores and
    details that the ranking server can read. *)
Record feedable (re_match : string → option (string → bool)) (float_of_string : string → option float)
    (db : Db) (cid : Z) (c : Contest) : Prop := {
  fd_contests : NoDup (co_id <$> db_contests db);
  fd_tasks : NoDup (task_id <$> db_tasks db);
  fd_datasets : NoDup (ds_id <$> db_datasets db);
  fd_submissions : NoDup (sub_id <$> db_submissions db);
  fd_participations : NoDup (pa_id <$> db_participations db);
  fd_once : NoDup ((λ p, (pa_contest_id p, pa_user_id p)) <$> db_participations db);
  fd_users : NoDup (us_id <$> db_users db);
  fd_usernames : NoDup (us_username <$> db_users db);
  fd_task_names : NoDup (task_name <$> db_tasks db);
  fd_user p : p ∈ db_participations db → ∃ u, u ∈ db_users db ∧ us_id u = pa_user_id p;
  fd_contest : c ∈ db_contests db ∧ co_id c = cid ∧ code_name (co_name c) ∧
    (co_start c ≤ co_stop c)%Z ∧ (0 ≤ co_score_precision c)%Z;
  fd_username u : u ∈ db_users db → code_name (us_username u);
  fd_team t : t ∈ db_teams db → code_name (tm_code t);
  fd_task t : t ∈ db_tasks db → task_contest_id t = Some cid →
    code_name (task_name t) ∧ is_Some (task_num t) ∧ (0 ≤ task_score_precision t)%Z ∧
    task_score_mode t ∈ score_modes ∧
    ∃ d st, d ∈ db_datasets db ∧ task_active_dataset_id t = Some (ds_id d) ∧ ds_task_id d = task_id t ∧
      score_type_object re_match db d = Ok st;
  fd_submission s : s ∈ db_submissions db →
    (0 < sub_id s)%Z ∧ ten_digits (seconds (sub_timestamp s)) ∧
    ∀ t, sub_token s = Some t → ten_digits (seconds t);
  fd_result r : r ∈ db_submission_results db → SR.scored r = true →
    nonneg (default f0 (sr_score r)) = true ∧
    regular_extra (float_of_string <$> default [] (sr_ranking_score_details r)) = true;
}.

Section contest.
Context (re_match : string → option (string → bool)) (float_of_string : string → option float).
Context (db : Db) (cid : Z) (c : Contest).
Hypothesis Hfd : feedable re_match float_of_string db cid c.

(** *** Rows *)

Lemma row_by_key {A} (f : A → Z) (l : list A) x : NoDup (f <$> l) → x ∈ l → head (filter (λ y, f y = f x) l) = Some x.
Proof. intros Hn Hx. apply head_filter_unique; [done|done|]. intros y Hy E. by eapply key_unique. Qed.

Lemma get_task_known t : t ∈ db_tasks db → get_task db (task_id t) = Some t.
Proof. apply row_by_key, Hfd. Qed.

Lemma get_dataset_known d : d ∈ db_datasets db → get_dataset db (ds_id d) = Some d.
Proof. apply row_by_key, Hfd. Qed.

Lemma user_of_known p : p ∈ db_participations db → ∃ u, u ∈ db_users db ∧ us_id u = pa_user_id p ∧ user_of db p = Some u.
Proof.
  intros (u & Hu & Hid)%(fd_user _ _ _ _ _ Hfd). exists u. split; [done|]. split; [done|].
  unfold user_of. rewrite <- Hid. by apply row_by_key; [apply Hfd|].
Qed.

Lemma team_of_known p t : team_of db p = Some t → t ∈ db_teams db.
Proof. by intros [? _]%head_filter_in. Qed.

(** What a submission of the sweep refers to. *)
Lemma swept_rows s :
  s ∈ swept_submissions db cid →
  s ∈ db_submissions db ∧ sub_official s = true ∧
  ∃ p u t, p ∈ db_participations db ∧ pa_id p = sub_participation_id s ∧ pa_contest_id p = cid ∧ pa_hidden p = false ∧
    user_of db p = Some u ∧ u ∈ db_users db ∧ us_id u = pa_user_id p ∧
    t ∈ db_tasks db ∧ task_id t = sub_task_id s ∧ task_contest_id t = Some cid ∧
    submission_get_result db s None = Ok (find_submission_result db (sub_id s) (task_active_dataset_id t)) ∧
    submission_data db s = Ok (JObject [("user", JString (encode_id (us_username u)));
      ("task", JString (encode_id (task_name t))); ("time", JInt (seconds (sub_timestamp s)))]).
Proof.
  intros [[Hv Ho] [Hc Hs]%list_elem_of_filter]%list_elem_of_filter. split; [done|]. split; [done|].
  cbn in Hc. apply andb_true_iff in Hc as [(p & Hp & [H1 H2]%andb_true_iff)%existsb_exists (t & Ht & [H3 H4]%andb_true_iff)%existsb_exists].
  apply bool_decide_eq_true in H1, H2, H3, H4. apply list_elem_of_In in Hp, Ht.
  assert (participation_of db s = Some p) as Hpo.
  { unfold participation_of. rewrite <- H1. by apply row_by_key; [apply Hfd|]. }
  unfold visible in Hv. rewrite Hpo in Hv. apply negb_true_iff in Hv.
  destruct (user_of_known p Hp) as (u & Hu & Hid & Huo). exists p, u, t. split_and!; try done.
  - unfold submission_get_result, result_dataset_id. by rewrite <- H3, get_task_known.
  - unfold submission_data, submission_user. rewrite Hpo. cbn [or_raise mbind res_bind]. rewrite Huo.
    cbn [or_raise mbind res_bind]. by rewrite <- H3, get_task_known.
Qed.

(** *** What is sent first *)

(** The entity [key], [j] of a user that is sent. *)
Definition user_entry (key : string) (j : json) (p : Participation) : Prop :=
  ∃ u, p ∈ db_participations db ∧ pa_contest_id p = cid ∧ pa_hidden p = false ∧ user_of db p = Some u ∧ u ∈ db_users db ∧
    key = encode_id (us_username u) ∧
    j = JObject [("f_name", JString (us_first_name u)); ("l_name", JString (us_last_name u));
                 ("team", opt_json (λ t, JString (encode_id (tm_code t))) (team_of db p))].

Definition team_entry (key : string) (j : json) : Prop :=
  ∃ t, t ∈ db_teams db ∧ key = encode_id (tm_code t) ∧ j = JObject [("name", JString (tm_name t))].

Definition task_entry (key : string) (j : json) (t : Task) : Prop :=
  ∃ num max headers, t ∈ db_tasks db ∧ task_contest_id t = Some cid ∧ key = encode_id (task_name t) ∧
    task_num t = Some num ∧
    j = JObject [("short_name", JString (task_name t)); ("name", JString (task_title t));
                 ("contest", JString (encode_id (co_name c))); ("order", JInt num);
                 ("max_score", JFloat max); ("extra_headers", strs headers);
                 ("score_precision", JInt (task_score_precision t));
                 ("score_mode", JString (task_score_mode t))].

(** The dictionaries of [initialize] hold these entries, and all of them. *)
Record users_sent (l : list Participation) (users teams : pydict string json) : Prop := {
  us_users key j : (key, j) ∈ users → ∃ p, user_entry key j p;
  us_all p u : p ∈ l → pa_hidden p = false → user_of db p = Some u → encode_id (us_username u) ∈ pd_keys users;
  us_teams key j : (key, j) ∈ teams → team_entry key j;
  us_team_of p t : p ∈ db_participations db → team_of db p = Some t → p ∈ l → pa_hidden p = false →
    encode_id (tm_code t) ∈ pd_keys teams;
}.

Lemma send_users :
  let l := filter (λ p, pa_contest_id p = cid) (db_participations db) in
  ∃ users teams, fold_res (participation_data db) ([], []) l = Ok (users, teams) ∧ users_sent l users teams.
Proof.
  intros l. destruct (fold_res_prefix (participation_data db) (λ pre acc, users_sent pre acc.1 acc.2) l ([], []))
    as ([users teams] & H & Hs); [| |by exists users, teams].
  2: { split; cbn; intros; by match goal with H : _ ∈ [] |- _ => apply elem_of_nil in H end. }
  intros pre p post [users teams] Hsplit [H1 H2 H3 H4]. cbn in *.
  assert (p ∈ db_participations db ∧ pa_contest_id p = cid) as [Hp Hc].
  { assert (p ∈ l) as Hin by (rewrite Hsplit; apply elem_of_app; right; left).
    by apply list_elem_of_filter in Hin as [? ?]. }
  destruct (user_of_known p Hp) as (u & Hu & _ & Huo). unfold participation_data. rewrite Huo. cbn [or_raise mbind res_bind].
  destruct (pa_hidden p) eqn:Hh; (eexists; split; [reflexivity|]); cbn.
  - split; try done.
    + intros p' u' [Hin|Hin%list_elem_of_singleton]%elem_of_app Hh'; [by apply H2|congruence].
    + intros p' t Hp' Ht [Hin|Hin%list_elem_of_singleton]%elem_of_app Hh'; [by apply (H4 p')|congruence].
  - split.
    + intros key j [[= -> ->]|Hin]%pd_set_elem; [|by apply H1]. by exists p, u.
    + intros p' u' Hin Hh' Hu'. apply pd_keys_set_elem. apply elem_of_app in Hin as [Hin|Hin%list_elem_of_singleton].
      * right. by eapply H2.
      * left. congruence.
    + intros key j. destruct (team_of db p) as [t|] eqn:Ht; [|apply H3].
      intros [[= -> ->]|Hin]%pd_set_elem; [|by apply H3]. exists t. split; [by eapply team_of_known|done].
    + intros p' t Hp' Ht Hin Hh'. apply elem_of_app in Hin as [Hin|Hin%list_elem_of_singleton].
      * destruct (team_of db p) as [t'|]; [apply pd_keys_set_elem; right|]; by apply (H4 p').
      * subst p'. rewrite Ht. apply pd_keys_set_elem. by left.
Qed.

Lemma send_tasks :
  ∃ tasks, fold_res (task_data re_match db c) [] (filter (λ t, task_contest_id t = Some cid) (db_tasks db)) = Ok tasks ∧
    (∀ key j, (key, j) ∈ tasks → ∃ t, task_entry key j t) ∧
    ∀ t, t ∈ db_tasks db → task_contest_id t = Some cid → encode_id (task_name t) ∈ pd_keys tasks.
Proof.
  set (l := filter _ _). destruct (fold_res_prefix (task_data re_match db c) (λ pre d,
      (∀ key j, (key, j) ∈ d → ∃ t, task_entry key j t) ∧ ∀ t, t ∈ pre → encode_id (task_name t) ∈ pd_keys d) l [])
    as (tasks & H & H1 & H2).
  - intros pre t post d Hsplit [H1 H2].
    assert (t ∈ l) as [Hc Ht]%list_elem_of_filter by (rewrite Hsplit; apply elem_of_app; right; left).
    destruct (fd_task _ _ _ _ _ Hfd t Ht Hc) as (_ & [num Hnum] & _ & _ & ds & st & Hds & Hact & _ & Hst).
    unfold task_data. rewrite Hact. cbn [mbind option_bind]. rewrite get_dataset_known by done.
    cbn [or_raise mbind res_bind]. rewrite Hst. cbn [mbind res_bind]. eexists. split; [reflexivity|]. split.
    + intros key j [[= -> ->]|Hin]%pd_set_elem; [|by apply H1]. exists t, num, (max_score st), (ranking_headers st).
      rewrite Hnum. by split_and!.
    + intros t' [Hin|Hin%list_elem_of_singleton]%elem_of_app; apply pd_keys_set_elem; [right; by apply H2|left; by subst].
  - split; [by intros ?? ?%elem_of_nil|by intros ? ?%elem_of_nil].
  - exists tasks. split; [done|]. split; [done|]. intros t Ht Hc. apply H2. by apply list_elem_of_filter.
Qed.

Lemma initial_content :
  ∃ users teams tasks,
    initial_operations re_match db cid =
      Ok [mkProxyOperation CONTEST [(encode_id (co_name c), contest_data c)];
          mkProxyOperation TEAM teams; mkProxyOperation USER users; mkProxyOperation TASK tasks] ∧
    users_sent (filter (λ p, pa_contest_id p = cid) (db_participations db)) users teams ∧
    (∀ key j, (key, j) ∈ tasks → ∃ t, task_entry key j t) ∧
    (∀ t, t ∈ db_tasks db → task_contest_id t = Some cid → encode_id (task_name t) ∈ pd_keys tasks).
Proof.
  destruct send_users as (users & teams & Hu & Hus), send_tasks as (tasks & Ht & Hts & Hta).
  exists users, teams, tasks. split; [|done]. unfold initial_operations.
  destruct (fd_contest _ _ _ _ _ Hfd) as (Hc & Hid & _). rewrite <- Hid, row_by_key by (done || apply Hfd).
  cbn [or_raise mbind res_bind]. rewrite Hid, Hu. cbn [mbind res_bind]. by rewrite Ht.
Qed.

(** *** The entities that the server makes of it *)

Lemma check_nonneg n : (0 ≤ n)%Z → check (0 <=? integer_val (IntZ n))%Z = Ok tt.
Proof. intros Hn. unfold check. cbn. by rewrite (proj2 (Z.leb_le 0 n) Hn). Qed.

Lemma read_contest_data :
  ∃ x, entity_set CONTEST (contest_data c) = Ok (EContest x).
Proof.
  destruct (fd_contest _ _ _ _ _ Hfd) as (_ & _ & _ & Ht & Hp).
  assert (check (integer_val (IntZ (seconds (co_start c))) <=? integer_val (IntZ (seconds (co_stop c))))%Z = Ok tt) as Hc.
  { unfold check. cbn. unfold seconds. by rewrite (proj2 (Z.leb_le _ _) (Z.quot_le_mono _ _ 1000000 eq_refl Ht)). }
  pose proof (check_nonneg _ Hp) as Hc2.
  eexists. unfold entity_set, contest_data. eapply bind_returns; [|reflexivity]. unfold read; cbn [contest_entity].
  unfold read_contest. read_back.
Qed.

Lemma read_task_entry key j t :
  task_entry key j t →
  ∃ x, entity_set TASK j = Ok (ETask x) ∧ ta_contest x = encode_id (co_name c) ∧ ta_score_mode x = task_score_mode t.
Proof.
  intros (num & max & headers & Ht & Hc & _ & _ & ->).
  destruct (fd_task _ _ _ _ _ Hfd t Ht Hc) as (_ & _ & Hp & _). pose proof (check_nonneg _ Hp) as Hc2.
  eexists. split; [|split; [|]]. 
  - unfold entity_set. eapply bind_returns; [|reflexivity]. unfold read; cbn [task_entity]. unfold read_task. read_back.
  - reflexivity.
  - reflexivity.
Qed.

Lemma read_team_entry key j : team_entry key j → ∃ x, entity_set TEAM j = Ok (ETeam x).
Proof.
  intros (t & _ & _ & ->). eexists. unfold entity_set. eapply bind_returns; [|reflexivity].
  unfold read; cbn [team_entity]. unfold read_team. read_back.
Qed.

Lemma read_user_entry key j p :
  user_entry key j p →
  ∃ x, entity_set USER j = Ok (EUser x) ∧ us_team x = (λ t, encode_id (tm_code t)) <$> team_of db p.
Proof.
  intros (u & _ & _ & _ & _ & _ & _ & ->). destruct (team_of db p) as [t|]; cbn [opt_json].
  all: eexists; split; [unfold entity_set; eapply bind_returns; [|reflexivity]; unfold read; cbn [user_entity];
    unfold read_user; read_back|reflexivity].
Qed.

Lemma read_submission_data u t n :
  entity_set SUBMISSION (JObject [("user", JString u); ("task", JString t); ("time", JInt n)]) =
  Ok (ESubmission (mk_submission_data u t (IntZ n))).
Proof.
  unfold entity_set. eapply bind_returns; [|reflexivity]. unfold read; cbn [submission_entity].
  unfold read_submission. read_back.
Qed.

Lemma read_score_data s sr :
  SR.scored sr = true →
  ∃ x l, sr_score sr = Some x ∧ sr_ranking_score_details sr = Some l ∧
    entity_set SUBCHANGE (score_data s (Some sr)) =
    Ok (ESubchange (mk_subchange_data (submission_key s) (IntZ (seconds (sub_timestamp s))) (Some x) None (Some l))).
Proof.
  intros Hs. pose proof Hs as Hs'. unfold SR.scored in Hs'.
  destruct (sr_score sr) as [x|] eqn:Hx, (sr_ranking_score_details sr) as [l|] eqn:Hl;
    rewrite ?andb_false_r in Hs'; try done. exists x, l. split; [done|]. split; [done|].
  unfold score_data. rewrite Hs, Hx, Hl. cbn [opt_json app]. unfold entity_set. eapply bind_returns; [|reflexivity].
  unfold read; cbn [subchange_entity]. unfold read_subchange. read_back.
Qed.

Lemma read_token_data s t :
  entity_set SUBCHANGE (token_data s t) =
  Ok (ESubchange (mk_subchange_data (submission_key s) (IntZ (seconds t)) None (Some true) None)).
Proof.
  unfold token_data, entity_set. eapply bind_returns; [|reflexivity]. unfold read; cbn [subchange_entity].
  unfold read_subchange. read_back.
Qed.

(** *** A batch with all the operations *)

Definition scored_result (s : Submission) (sr : SubmissionResult) : Prop :=
  submission_get_result db s None = Ok (Some sr) ∧ SR.scored sr = true ∧ sr ∈ db_submission_results db.

(** The change of a submission that [x] is. *)
Definition change_entry (key : string) (s : Submission) (x : SubchangeData) : Prop :=
  cd_submission x = submission_key s ∧
  ((∃ sr, scored_result s sr ∧ key = score_key s ∧ cd_score x = sr_score sr ∧
      cd_extra x = sr_ranking_score_details sr) ∨
   (∃ t, sub_token s = Some t ∧ key = token_key s t ∧ cd_score x = None ∧ cd_extra x = None)).

Definition submission_entry (key : string) (s : Submission) (x : SubmissionData) : Prop :=
  key = submission_key s ∧
  ∃ p u t, pa_id p = sub_participation_id s ∧ p ∈ db_participations db ∧ pa_contest_id p = cid ∧ pa_hidden p = false ∧
    user_of db p = Some u ∧ t ∈ db_tasks db ∧ task_id t = sub_task_id s ∧ task_contest_id t = Some cid ∧
    sd_user x = encode_id (us_username u) ∧ sd_task x = encode_id (task_name t).

(** What an entity that was sent stands for. *)
Definition stands_for (key : string) (e : entity) : Prop :=
  match e with
  | EContest _ => key = encode_id (co_name c)
  | ETask x => ∃ t, t ∈ db_tasks db ∧ task_contest_id t = Some cid ∧ key = encode_id (task_name t) ∧
      ta_contest x = encode_id (co_name c) ∧ ta_score_mode x = task_score_mode t
  | ETeam _ => True
  | EUser x => ∃ p u, p ∈ db_participations db ∧ pa_contest_id p = cid ∧ pa_hidden p = false ∧ user_of db p = Some u ∧
      key = encode_id (us_username u) ∧ us_team x = (λ t, encode_id (tm_code t)) <$> team_of db p
  | ESubmission x => ∃ s, s ∈ swept_submissions db cid ∧ submission_entry key s x ∧
      ∃ op j, op ∈ sweep_operations db ∅ ∅ s ∧ op = mkProxyOperation SUBMISSION [(key, j)]
  | ESubchange x => ∃ s op, s ∈ swept_submissions db cid ∧ op ∈ sweep_operations db ∅ ∅ s ∧ change_entry key s x
  end.

Lemma encode_starts name : code_name name → starts_as_key (encode_id name) = true.
Proof.
  intros [Hne _]. apply starts_as_key_chars; [apply encode_id_chars|]. destruct name as [|a name]; [done|].
  rewrite encode_id_cons. pose proof (encode_char_key a) as H. by destruct (encode_char a).
Qed.

(** The operations of a sweep on one submission. *)
Lemma sweep_operation_cases s op :
  s ∈ swept_submissions db cid → op ∈ sweep_operations db ∅ ∅ s →
  ∃ sr d, submission_get_result db s None = Ok (Some sr) ∧ sr ∈ db_submission_results db ∧ submission_data db s = Ok d ∧
    (op = mkProxyOperation SUBMISSION [(submission_key s, d)] ∨
     (SR.scored sr = true ∧ op = mkProxyOperation SUBCHANGE [(score_key s, score_data s (Some sr))]) ∨
     (∃ t, sub_token s = Some t ∧ op = mkProxyOperation SUBCHANGE [(token_key s t, token_data s t)])).
Proof.
  intros Hs Hop. destruct (swept_rows s Hs) as (_ & _ & p & u & t & _ & _ & _ & _ & _ & _ & _ & _ & _ & _ & Hr & Hd).
  unfold sweep_operations in Hop. rewrite Hr, Hd in Hop.
  destruct (find_submission_result db (sub_id s) (task_active_dataset_id t)) as [sr|] eqn:Hsr; [|by apply elem_of_nil in Hop].
  exists sr. eexists. split; [exact Hr|]. apply head_filter_in in Hsr as [Hin _]. split; [done|]. split; [exact Hd|].
  apply elem_of_app in Hop as [Hop|Hop].
  - destruct (SR.scored sr); [|by apply elem_of_nil in Hop]. cbn in Hop.
    apply elem_of_cons in Hop as [->|Hop%list_elem_of_singleton]; [by left|right; by left].
  - destruct (sub_token s) as [tk|]; [|by apply elem_of_nil in Hop]. cbn in Hop.
    apply elem_of_cons in Hop as [->|Hop%list_elem_of_singleton]; [by left|right; right; by exists tk].
Qed.

Lemma sweep_entry_shown s op key j :
  s ∈ swept_submissions db cid → op ∈ sweep_operations db ∅ ∅ s → (key, j) ∈ data op →
  starts_as_key key = true ∧ ∃ e, entity_set (type_ op) j = Ok e ∧ stands_for key e.
Proof.
  intros Hs Hop Hin. pose proof (swept_rows s Hs) as
    (Hdb & _ & p & u & t & Hp & Hpid & Hpc & Hh & Hu & _ & _ & Ht & Htid & Htc & _ & Hd).
  destruct (fd_submission _ _ _ _ _ Hfd s Hdb) as (Hid & Htime & Htok). unfold ten_digits in *.
  destruct (sweep_operation_cases s op Hs Hop) as (sr & d & Hr & Hsr & Hd' & Hcase).
  rewrite Hd in Hd'. injection Hd' as <-. destruct Hcase as [->|[[Hsc ->]|(tk & Htk & ->)]].
  - apply list_elem_of_singleton in Hin. injection Hin as -> ->. unfold submission_key.
    destruct (pretty_key _ Hid) as [K1 K2]. split; [by apply starts_as_key_chars|]. eexists.
    split; [apply read_submission_data|]. exists s. split; [done|].
    split; [split; [done|]; exists p, u, t; by split_and!|]. eexists _, _. by split; [exact Hop|].
  - apply list_elem_of_singleton in Hin. injection Hin as -> ->. unfold score_key.
    destruct (pretty_key (seconds (sub_timestamp s)) ltac:(lia)) as [K1 K2].
    split; [by apply starts_as_key_append, starts_as_key_chars|].
    destruct (read_score_data s sr Hsc) as (x & l & Hx & Hl & Hread). eexists. split; [exact Hread|].
    exists s. eexists. split; [done|]. split; [exact Hop|]. split; [done|]. left. by exists sr.
  - apply list_elem_of_singleton in Hin. injection Hin as -> ->. unfold token_key. specialize (Htok tk Htk).
    destruct (pretty_key (seconds tk) ltac:(lia)) as [K1 K2].
    split; [by apply starts_as_key_append, starts_as_key_chars|]. eexists. split; [apply read_token_data|].
    exists s. eexists. split; [done|]. split; [exact Hop|]. split; [done|]. right. by exists tk.
Qed.

(** *** The score of the contest *)

Lemma map_res_pure {A B} (f : A → res B) (g : A → B) l : (∀ x, x ∈ l → f x = Ok (g x)) → map_res f l = Ok (g <$> l).
Proof.
  induction l as [|x l IH]; intros Hl; [done|]. cbn. rewrite (Hl x) by by left. cbn.
  rewrite IH; [done|]. intros y Hy. apply Hl. by right.
Qed.

Lemma sort_by_time_Permutation l : sort_by_time l ≡ₚ l.
Proof.
  induction l as [|s l IH]; [done|].
  change (insert_by_time s (sort_by_time l) ≡ₚ s :: l). transitivity (s :: sort_by_time l); [|by rewrite IH].
  generalize (sort_by_time l). clear l IH. intros l. induction l as [|x l IH]; [done|]. cbn. destruct (_ <=? _)%Z; [done|]. rewrite IH. by apply Permutation_swap.
Qed.

(** The scores of the official submissions that have one. *)
Lemma task_score_is_max p t :
  t ∈ db_tasks db → task_contest_id t = Some cid → task_score_mode t = Scoring.SCORE_MODE_MAX →
  ∃ l partial, task_score db p t false false false = Ok (fmaxs l, partial) ∧ Forall (λ x, nonneg x = true) l ∧
    ∀ x, x ∈ l ↔ ∃ s sr, s ∈ official_submissions db p t ∧ scored_result s sr ∧ sr_score sr = Some x.
Proof.
  intros Ht Hc Hmode. destruct (fd_task _ _ _ _ _ Hfd t Ht Hc) as (_ & _ & _ & _ & d & _ & Hd & Hact & Hdt & _).
  set (result := λ s, find_submission_result db (sub_id s) (Some (ds_id d))).
  assert (∀ s, s ∈ official_submissions db p t → submission_get_result db s None = Ok (result s) ∧
    submission_get_result db s (task_active_dataset_id t ≫= get_dataset db) = Ok (result s)) as Hres.
  { intros s [(_ & Hs & _) _]%list_elem_of_filter. unfold submission_get_result, result_dataset_id.
    rewrite Hs, get_task_known by done. cbn [or_raise mbind res_bind]. rewrite Hact. cbn [mbind option_bind].
    rewrite get_dataset_known by done. split; [done|]. by rewrite Hdt, bool_decide_eq_true_2. }
  set (subs := official_submissions db p t) in *.
  set (l := omap (λ s, r ← result s; if SR.scored r then sr_score r else None) (sort_by_time subs)).
  assert (∀ x, x ∈ l ↔ ∃ s sr, s ∈ subs ∧ scored_result s sr ∧ sr_score sr = Some x) as Hl.
  { intros x. unfold l. rewrite list_elem_of_omap. setoid_rewrite sort_by_time_Permutation. split.
    - intros (s & Hs & Hx). destruct (result s) as [sr|] eqn:Hr; [|done]. cbn in Hx.
      destruct (SR.scored sr) eqn:Hsc; [|done]. exists s, sr. split; [done|]. split; [|done].
      split; [rewrite <- Hr; by apply Hres|]. split; [done|]. by apply head_filter_in in Hr as [? _].
    - intros (s & sr & Hs & (Hr & Hsc & _) & Hx). exists s. split; [done|].
      rewrite (proj1 (Hres s Hs)) in Hr. injection Hr as ->. cbn. by rewrite Hsc. }
  assert (Forall (λ x, nonneg x = true) l) as Hn.
  { apply Forall_forall. intros x (s & sr & _ & (_ & Hsc & Hin) & Hx)%Hl.
    destruct (fd_result _ _ _ _ _ Hfd sr Hin Hsc) as [Hs _]. by rewrite Hx in Hs. }
  set (entries := (λ sr, entry_of false false sr.1 sr.2) <$> ((λ s, (s, result s)) <$> sort_by_time subs)).
  assert (scores_of (omap id entries) = l) as Hent.
  { unfold entries, l, scores_of. rewrite <- list_fmap_compose. generalize (sort_by_time subs). intros ss.
    induction ss as [|s ss IH]; [done|]. csimpl. unfold entry_of at 1. destruct (result s) as [sr|]; [|done].
    cbn [mbind option_bind]. destruct (SR.scored sr); csimpl; [|done]. destruct (sr_score sr); by rewrite IH. }
  exists l. unfold task_score. cbn [andb]. fold subs. destruct subs as [|s0 subs'] eqn:Hsubs.
  { exists false. split; [|done]. done. }
  unfold submissions_and_results. rewrite (map_res_pure _ (λ s, (s, result s))).
  2: { intros s Hs. rewrite sort_by_time_Permutation in Hs. by rewrite (proj2 (Hres s Hs)). }
  cbn [mbind res_bind]. change (_ <$> (_ <$> _)) with entries. destruct (omap id entries) as [|e es] eqn:He.
  { exists false. split; [|done]. by rewrite <- Hent. }
  rewrite Hmode. eexists. split; [|done]. cbn [mbind res_bind mode_score String.eqb].
  unfold mode_score. cbn [String.eqb Ascii.eqb Bool.eqb mbind res_bind].
  rewrite task_score_max_eq, Hent, foldl_fmax by done. by rewrite fmax_f0_l by by apply fmaxs_nonneg.
Qed.

(** *** Batches *)

Lemma choose_items {A B} (P : A → B → Prop) (d : pydict string A) :
  (∀ key a, (key, a) ∈ d → ∃ b, P a b) →
  ∃ items : pydict string B, Forall2 (λ kv it, kv.1 = it.1 ∧ P kv.2 it.2) d items.
Proof.
  induction d as [|[key a] d IH]; intros Hd; [by exists []|]. destruct (Hd key a ltac:(by left)) as [b Hb].
  destruct IH as [items Hf]; [intros k x Hx; eapply Hd; by right|]. exists ((key, b) :: items). by constructor.
Qed.

Section batch.
Context (users teams tasks : pydict string json) (entries : list ProxyOperation).
Hypothesis Husers : users_sent (filter (λ p, pa_contest_id p = cid) (db_participations db)) users teams.
Hypothesis Htasks : ∀ key j, (key, j) ∈ tasks → ∃ t, task_entry key j t.
Hypothesis Hall : ∀ t, t ∈ db_tasks db → task_contest_id t = Some cid → encode_id (task_name t) ∈ pd_keys tasks.
Hypothesis Hentries : entries ≡ₚ
  [mkProxyOperation CONTEST [(encode_id (co_name c), contest_data c)]; mkProxyOperation TEAM teams;
   mkProxyOperation USER users; mkProxyOperation TASK tasks]
  ++ (swept_submissions db cid ≫= sweep_operations db ∅ ∅).

Lemma entries_cases op :
  op ∈ entries ↔
  op = mkProxyOperation CONTEST [(encode_id (co_name c), contest_data c)] ∨ op = mkProxyOperation TEAM teams ∨
  op = mkProxyOperation USER users ∨ op = mkProxyOperation TASK tasks ∨
  ∃ s, s ∈ swept_submissions db cid ∧ op ∈ sweep_operations db ∅ ∅ s.
Proof.
  rewrite Hentries, elem_of_app, !elem_of_cons, elem_of_nil, list_elem_of_bind. naive_solver.
Qed.

Lemma entry_shown k key j :
  (key, j) ∈ ProxyService.combine entries k →
  starts_as_key key = true ∧ ∃ e, entity_set k j = Ok e ∧ stands_for key e.
Proof.
  intros (op & Hop & <- & Hin)%(proj1 (proj2 (combine_spec entries k))).
  apply entries_cases in Hop as [->|[->|[->|[->|(s & Hs & Hop)]]]]; cbn [data type_] in *.
  - apply list_elem_of_singleton in Hin. injection Hin as -> ->.
    split; [apply encode_starts, (fd_contest _ _ _ _ _ Hfd)|]. destruct read_contest_data as [x Hx]. by exists (EContest x).
  - apply (us_teams _ _ _ Husers) in Hin as He. destruct (read_team_entry _ _ He) as [x Hx].
    destruct He as (t & Ht & -> & _). split; [by apply encode_starts, (fd_team _ _ _ _ _ Hfd)|]. by exists (ETeam x).
  - apply (us_users _ _ _ Husers) in Hin as [p He]. destruct (read_user_entry _ _ _ He) as (x & Hx & Ht).
    destruct He as (u & Hp & Hc & Hh & Hu & Hin & -> & _). split; [by apply encode_starts, (fd_username _ _ _ _ _ Hfd)|].
    exists (EUser x). split; [done|]. by exists p, u.
  - apply Htasks in Hin as [t He]. destruct (read_task_entry _ _ _ He) as (x & Hx & H1 & H2).
    destruct He as (_ & _ & _ & Ht & Hc & -> & _). split; [by apply encode_starts, (fd_task _ _ _ _ _ Hfd)|].
    exists (ETask x). split; [done|]. by exists t.
  - by eapply sweep_entry_shown.
Qed.

Lemma entries_keys op key : op ∈ entries → key ∈ pd_keys (data op) → key ∈ pd_keys (ProxyService.combine entries (type_ op)).
Proof. intros Hop. by apply (proj2 (proj2 (combine_spec entries (type_ op)))). Qed.

(** The entities of the batch. *)
Context (items : kind → pydict string entity).
Hypothesis Hitems : ∀ k, Forall2 (λ kv it : string * _, kv.1 = it.1 ∧ entity_set k kv.2 = Ok it.2)
  (ProxyService.combine entries k) (items k).

Lemma item_keys k : pd_keys (items k) = pd_keys (ProxyService.combine entries k).
Proof.
  unfold pd_keys. pose proof (Hitems k) as Hf.
  induction Hf as [|kv it l l' [H _] _ IH]; csimpl; [done|]. by rewrite H, IH.
Qed.

Lemma item_shown k key e : (key, e) ∈ items k → kind_of e = k ∧ stands_for key e.
Proof.
  intros (i & Hi)%list_elem_of_lookup.
  destruct (Forall2_lookup_r _ _ _ _ _ (Hitems k) Hi) as ([key' j] & Hj & Hkey & He). cbn in *. subst key'.
  split; [by eapply entity_set_Ok|]. apply list_elem_of_lookup_2 in Hj.
  destruct (entry_shown k key j Hj) as (_ & e' & He' & Hs). rewrite He in He'. by injection He' as ->.
Qed.

Lemma has_key k key : key ∈ pd_keys (ProxyService.combine entries k) → has (server_of items) k key = true.
Proof. intros Hk. apply has_elem. cbn. apply pd_get_in. by rewrite item_keys. Qed.

(** The keys that are present. *)
Lemma has_user p u :
  p ∈ db_participations db → pa_contest_id p = cid → pa_hidden p = false → user_of db p = Some u →
  has (server_of items) USER (encode_id (us_username u)) = true.
Proof.
  intros Hp Hc Hh Hu. apply has_key. apply (entries_keys (mkProxyOperation USER users)); [apply entries_cases; auto|].
  cbn. apply (us_all _ _ _ Husers p u); [by apply list_elem_of_filter|done|done].
Qed.

Lemma has_task t :
  t ∈ db_tasks db → task_contest_id t = Some cid → has (server_of items) TASK (encode_id (task_name t)) = true.
Proof.
  intros Ht Hc. apply has_key. apply (entries_keys (mkProxyOperation TASK tasks)); [apply entries_cases; auto|]. by apply Hall.
Qed.

Lemma has_submission s op key j :
  s ∈ swept_submissions db cid → op ∈ sweep_operations db ∅ ∅ s → op = mkProxyOperation SUBMISSION [(key, j)] →
  has (server_of items) SUBMISSION key = true.
Proof.
  intros Hs Hop ->. apply has_key. apply (entries_keys (mkProxyOperation SUBMISSION [(key, j)])); [|cbn; by left].
  apply entries_cases. do 4 right. by exists s.
Qed.

(** Every change comes with its submission. *)
Lemma change_has_submission s op :
  s ∈ swept_submissions db cid → op ∈ sweep_operations db ∅ ∅ s →
  has (server_of items) SUBMISSION (submission_key s) = true.
Proof.
  intros Hs Hop. destruct (swept_rows s Hs) as (_ & _ & p & u & t & _ & _ & _ & _ & _ & _ & _ & _ & _ & _ & Hr & Hd).
  set (d := JObject _) in Hd. apply (has_submission s (mkProxyOperation SUBMISSION [(submission_key s, d)]) _ d); [done| |done].
  unfold sweep_operations in *. rewrite Hr, Hd in *. destruct (find_submission_result _ _ _) as [sr|]; [|by apply elem_of_nil in Hop].
  apply elem_of_app. apply elem_of_app in Hop as [Hop|Hop].
  - left. destruct (SR.scored sr && _); [by left|by apply elem_of_nil in Hop].
  - right. destruct (sub_token s); [|by apply elem_of_nil in Hop].
    destruct (negb _); [by left|by apply elem_of_nil in Hop].
Qed.

Lemma batch_acceptable : acceptable float_of_string (ProxyService.combine entries) items.
Proof.
  split.
  - intros k. apply combine_spec.
  - exact Hitems.
  - intros k key ([key' j] & -> & Hin)%list_elem_of_fmap. by apply entry_shown in Hin as [? _].
  - intros k key e [_ Hs]%item_shown. destruct e as [x|x|x|x|x|x]; cbn [stands_for] in Hs; cbn [consistent]; [done|..].
    + destruct Hs as (t & _ & _ & _ & -> & _). apply has_key.
      apply (entries_keys (mkProxyOperation CONTEST [(encode_id (co_name c), contest_data c)])); [apply entries_cases; auto|by left].
    + done.
    + destruct Hs as (p & u & Hp & Hc & Hh & Hu & _ & ->). destruct (team_of db p) as [t|] eqn:Ht; [|done]. cbn.
      apply has_key. apply (entries_keys (mkProxyOperation TEAM teams)); [apply entries_cases; auto|].
      cbn. apply (us_team_of _ _ _ Husers p t); [done|done|by apply list_elem_of_filter|done].
    + destruct Hs as (s & _ & (_ & p & u & t & _ & Hp & Hc & Hh & Hu & Ht & _ & Htc & -> & ->) & _).
      apply andb_true_iff. split; [by apply has_task|by eapply has_user].
    + destruct Hs as (s & op & Hs & Hop & -> & _). by eapply change_has_submission.
  - intros key x [_ (t & Ht & Hc & _ & _ & ->)]%item_shown. by apply (fd_task _ _ _ _ _ Hfd).
  - intros key x [_ (s & op & _ & _ & _ & Hx)]%item_shown. unfold regular_change, subchange_of. cbn [sc_score sc_extra].
    destruct Hx as [(sr & (_ & Hsc & Hin) & _ & -> & ->)|(t & _ & _ & -> & ->)]; [|done].
    destruct (fd_result _ _ _ _ _ Hfd sr Hin Hsc) as [-> He]. by destruct (sr_ranking_score_details sr).
Qed.

(** *** What the server holds after the batch *)

Context (sv : Server).
Hypothesis Hstores : ∀ k, stores sv k = items k.
Hypothesis Hinv : store_inv (RankingServer.to_world float_of_string sv).

Lemma items_NoDup k : NoDup (pd_keys (items k)).
Proof. rewrite item_keys. apply combine_spec. Qed.

Lemma pd_get_omap {V W} (g : string * V → option (string * W)) (d : pydict string V) k kw :
  (∀ kv kw, g kv = Some kw → kw.1 = kv.1) → NoDup (pd_keys d) →
  pd_get (omap (M := list) g d : pydict string W) k = Some kw ↔ ∃ v, (k, v) ∈ d ∧ g (k, v) = Some (k, kw).
Proof.
  intros Hg. induction d as [|[k' v'] d IH]; intros Hn.
  { split; [done|]. by intros (? & ?%elem_of_nil & _). }
  apply NoDup_cons in Hn as [Hk Hn]. specialize (IH Hn). csimpl. destruct (g (k', v')) as [[k2 w]|] eqn:E.
  - pose proof (Hg _ _ E) as Hk2. cbn in Hk2. subst k2. cbn [pd_get]. destruct (decide (k' = k)) as [Heq|Hne].
    + subst k'. rewrite decide_True by done. transitivity (w = kw); [split; [by intros [= H]|by intros ->]|]. split.
      * intros <-. exists v'. by split; [left|].
      * intros (v & [Hv|Hin]%elem_of_cons & Hgv); [injection Hv as ->; rewrite E in Hgv; by injection Hgv|].
        destruct Hk. apply list_elem_of_fmap. by exists (k, v).
    + rewrite decide_False, IH by done. setoid_rewrite elem_of_cons. split; [intros (v & ? & ?); eauto|].
      intros (v & [[= -> _]|?] & ?); [done|eauto].
  - rewrite IH. setoid_rewrite elem_of_cons. split; [intros (v & ? & ?); eauto|].
    intros (v & [[= -> ->]|?] & ?); [congruence|eauto].
Qed.

Lemma world_submission k x :
  pd_get (submission_store (RankingServer.to_world float_of_string sv)) k = Some x ↔
  ∃ e, (k, ESubmission e) ∈ items SUBMISSION ∧ x = submission_of e.
Proof.
  cbn. rewrite Hstores, pd_get_omap; [|by intros [? []] ?; cbn; intros [= <-]|apply items_NoDup]. split.
  - intros ([] & Hin & [= <-]); try done. by eexists.
  - intros (e & Hin & ->). by exists (ESubmission e).
Qed.

Lemma world_subchange k x :
  pd_get (subchange_store (RankingServer.to_world float_of_string sv)) k = Some x ↔
  ∃ e, (k, ESubchange e) ∈ items SUBCHANGE ∧ x = subchange_of float_of_string k e.
Proof.
  cbn. rewrite Hstores, pd_get_omap; [|by intros [? []] ?; cbn; intros [= <-]|apply items_NoDup]. split.
  - intros ([] & Hin & [= <-]); try done. by eexists.
  - intros (e & Hin & ->). by exists (ESubchange e).
Qed.

(** Rows that have the same name are the same. *)
Lemma submission_key_inj s s' :
  s ∈ db_submissions db → s' ∈ db_submissions db → submission_key s = submission_key s' → s = s'.
Proof.
  intros H1 H2 Hk. apply (key_unique sub_id (db_submissions db)); [apply Hfd|done..|]. by apply (inj pretty).
Qed.

Lemma score_key_inj s s' :
  s ∈ db_submissions db → s' ∈ db_submissions db → score_key s = score_key s' → s = s'.
Proof.
  intros H1 H2 Hk. apply submission_key_inj; [done..|]. unfold score_key, submission_key in *.
  apply change_key_inj in Hk as (_ & -> & _); [done| | |done]; by apply (fd_submission _ _ _ _ _ Hfd).
Qed.

Lemma score_key_token s s' t :
  s ∈ db_submissions db → s' ∈ db_submissions db → sub_token s' = Some t → score_key s ≠ token_key s' t.
Proof.
  intros H1 H2 Ht Hk. unfold score_key, token_key, submission_key in Hk.
  destruct (fd_submission _ _ _ _ _ Hfd s H1) as (_ & H3 & _), (fd_submission _ _ _ _ _ Hfd s' H2) as (_ & _ & H4).
  by apply change_key_inj in Hk as (_ & _ & Hk); [|done|by apply H4|].
Qed.

Lemma user_key_inj p p' u u' :
  p ∈ db_participations db → p' ∈ db_participations db → pa_contest_id p = cid → pa_contest_id p' = cid →
  user_of db p = Some u → user_of db p' = Some u' → encode_id (us_username u) = encode_id (us_username u') → p = p'.
Proof.
  intros H1 H2 C1 C2 [U1 V1]%head_filter_in [U2 V2]%head_filter_in Hk.
  assert (u = u') as <-.
  { apply (key_unique us_username (db_users db)); [apply Hfd|done..|].
    apply encode_id_inj in Hk; [done|by apply (fd_username _ _ _ _ _ Hfd)..]. }
  apply (key_unique (λ p, (pa_contest_id p, pa_user_id p)) (db_participations db)); [apply Hfd|done..|]. congruence.
Qed.

Lemma task_key_inj t t' :
  t ∈ db_tasks db → t' ∈ db_tasks db → task_contest_id t = Some cid → task_contest_id t' = Some cid →
  encode_id (task_name t) = encode_id (task_name t') → t = t'.
Proof.
  intros H1 H2 C1 C2 Hk. apply (key_unique task_name (db_tasks db)); [apply Hfd|done..|].
  apply encode_id_inj in Hk; [done|by apply (fd_task _ _ _ _ _ Hfd)..].
Qed.
(** The changes that give a score. *)
Lemma score_change k x v :
  pd_get (subchange_store (RankingServer.to_world float_of_string sv)) k = Some x → sc_score x = Some v →
  ∃ s sr, s ∈ swept_submissions db cid ∧ scored_result s sr ∧ k = score_key s ∧
    sc_submission x = submission_key s ∧ sr_score sr = Some v.
Proof.
  intros (e & [_ (s & op & Hs & _ & Hsub & He)]%item_shown & ->)%world_subchange Hv.
  destruct He as [(sr & Hsr & -> & Hsc & _)|(t & _ & _ & Hsc & _)]; cbn in Hv; [|congruence].
  exists s, sr. split_and!; try done. congruence.
Qed.

(** A submission of [u] on [t] that the ranking holds. *)
Lemma owned_submission s p u t :
  s ∈ swept_submissions db cid → p ∈ db_participations db → pa_contest_id p = cid → user_of db p = Some u →
  t ∈ db_tasks db → task_contest_id t = Some cid →
  is_Some (sub_of (submission_store (RankingServer.to_world float_of_string sv))
    (encode_id (us_username u)) (encode_id (task_name t)) (submission_key s)) →
  s ∈ official_submissions db p t.
Proof.
  intros Hs Hp Hc Hu Ht Htc [x [(e & Hin & ->)%world_submission [Hbu Hbt]]%sub_of_Some]. cbn in Hbu, Hbt.
  apply item_shown in Hin as (_ & s' & Hs' & (Hk & p' & u' & t' & Hpid & Hp' & Hc' & _ & Hu' & Ht' & Htid & Htc' & E1 & E2) & _).
  destruct (swept_rows s Hs) as (Hdb & Ho & _), (swept_rows s' Hs') as (Hdb' & _).
  apply submission_key_inj in Hk; [|done..]. subst s'. rewrite E1 in Hbu. rewrite E2 in Hbt.
  apply (user_key_inj p' p) in Hbu; [|done..]. apply task_key_inj in Hbt; [|done..]. subst p' t'.
  apply list_elem_of_filter. by split_and!.
Qed.

(** An official submission of a visible participation is swept. *)
Lemma official_swept s p t :
  p ∈ db_participations db → pa_contest_id p = cid → pa_hidden p = false →
  t ∈ db_tasks db → task_contest_id t = Some cid →
  s ∈ official_submissions db p t → s ∈ swept_submissions db cid.
Proof.
  intros Hp Hc Hh Ht Htc [(Hsp & Hst & Ho) Hs]%list_elem_of_filter. apply list_elem_of_filter. split.
  - split; [|done]. apply visible_participation. exists p. split; [|done]. unfold participation_of. rewrite Hsp.
    by apply row_by_key; [apply Hfd|].
  - apply list_elem_of_filter. split; [|done]. cbn. apply andb_true_iff. split; apply existsb_exists.
    + exists p. rewrite Hsp, Hc, !bool_decide_eq_true_2 by done. by split; [apply list_elem_of_In|].
    + exists t. rewrite Hst, Htc, !bool_decide_eq_true_2 by done. by split; [apply list_elem_of_In|].
Qed.

(** A scored submission is in the ranking with its user and task, and so is
    the change with its score. *)
Lemma scored_in_ranking s sr p u t :
  s ∈ official_submissions db p t → scored_result s sr →
  p ∈ db_participations db → pa_contest_id p = cid → pa_hidden p = false → user_of db p = Some u →
  t ∈ db_tasks db → task_contest_id t = Some cid →
  ∃ x, pd_get (subchange_store (RankingServer.to_world float_of_string sv)) (score_key s) = Some x ∧
    sc_score x = sr_score sr ∧ sc_submission x = submission_key s ∧
    is_Some (sub_of (submission_store (RankingServer.to_world float_of_string sv))
      (encode_id (us_username u)) (encode_id (task_name t)) (submission_key s)).
Proof.
  intros Hof (Hr & Hsc & Hsr) Hp Hc Hh Hu Ht Htc. pose proof (official_swept s p t Hp Hc Hh Ht Htc Hof) as Hs.
  apply list_elem_of_filter in Hof as [(Hsp & Hst & Ho) Hdb].
  destruct (swept_rows s Hs) as (_ & _ & p' & u' & t' & _ & _ & _ & _ & _ & _ & _ & _ & _ & _ & _ & Hd).
  set (d := JObject _) in Hd.
  set (op1 := mkProxyOperation SUBMISSION [(submission_key s, d)]).
  set (op2 := mkProxyOperation SUBCHANGE [(score_key s, score_data s (Some sr))]).
  assert (op1 ∈ sweep_operations db ∅ ∅ s ∧ op2 ∈ sweep_operations db ∅ ∅ s) as [Hop1 Hop2].
  { unfold sweep_operations. rewrite Hr, Hd, Hsc. cbn [andb]. rewrite bool_decide_eq_false_2 by set_solver. cbn [negb].
    split; apply elem_of_app; left; [by left|right; by left]. }
  assert (op1 ∈ entries) as He1 by (apply entries_cases; do 4 right; by exists s).
  assert (op2 ∈ entries) as He2 by (apply entries_cases; do 4 right; by exists s).
  apply (entries_keys op1 (submission_key s)) in He1; [|by left]. apply (entries_keys op2 (score_key s)) in He2; [|by left].
  cbn [type_ op1 op2] in He1, He2. rewrite <- item_keys in He1, He2.
  apply list_elem_of_fmap in He1 as ([k1 e1] & K1 & Hin1), He2 as ([k2 e2] & K2 & Hin2).
  cbn [fst] in *. subst k1 k2.
  destruct (item_shown _ _ _ Hin1) as (Hk1 & Hsh1), (item_shown _ _ _ Hin2) as (Hk2 & Hsh2).
  destruct e1 as [| | | |x1|]; try done. destruct e2 as [| | | | |x2]; try done.
  destruct Hsh1 as (s1 & Hs1 & (Hkey1 & p1 & u1 & t1 & Hp1 & Hp1' & _ & _ & Hu1 & Ht1 & Ht1' & _ & E1 & E2) & _).
  destruct Hsh2 as (s2 & _ & Hs2 & _ & Hsub2 & He2).
  destruct (swept_rows s1 Hs1) as (Hdb1 & _), (swept_rows s2 Hs2) as (Hdb2 & _).
  apply submission_key_inj in Hkey1; [|done..]. subst s1.
  assert (p1 = p) as -> by (apply (key_unique pa_id (db_participations db)); [apply Hfd|done..|congruence]).
  assert (t1 = t) as -> by (apply (key_unique task_id (db_tasks db)); [apply Hfd|done..|congruence]).
  assert (u1 = u) as -> by congruence.
  destruct He2 as [(sr2 & (Hr2 & _) & Hkey2 & Hx & _)|(tk & Htk & Hkey2 & _)].
  2: { by apply score_key_token in Hkey2. }
  apply score_key_inj in Hkey2; [|done..]. subst s2. assert (sr2 = sr) as -> by congruence.
  exists (subchange_of float_of_string (score_key s) x2). split; [apply world_subchange; by exists x2|].
  split; [done|]. split; [done|]. exists (submission_of x1). apply sub_of_Some.
  split; [apply world_submission; by exists x1|]. by split.
Qed.

(** The ranking shows the score of the contest. *)
Lemma ranking_shows_score p u t :
  p ∈ db_participations db → pa_contest_id p = cid → pa_hidden p = false → user_of db p = Some u →
  t ∈ db_tasks db → task_contest_id t = Some cid → task_score_mode t = Scoring.SCORE_MODE_MAX →
  ∃ partial, task_score db p t false false false =
    Ok (current_score (RankingServer.to_world float_of_string sv)
          (encode_id (us_username u)) (encode_id (task_name t)), partial).
Proof.
  intros Hp Hc Hh Hu Ht Htc Hm. destruct (task_score_is_max p t Ht Htc Hm) as (l & partial & Hts & Hn & Hl).
  exists partial. rewrite Hts. do 2 f_equal. symmetry. apply current_score_max; [done| | |done|..].
  - pose proof (has_task t Ht Htc) as [e He]%has_elem. cbn in He. apply pd_get_Some_in in He.
    destruct (item_shown _ _ _ He) as [Hk _]. destruct e as [|x| | | |]; try done. clear Hk. cbn [task_store RankingServer.to_world].
    rewrite Hstores. destruct (task_modes_has _ _ _ He) as [m Hmode]. rewrite Hmode. f_equal.
    apply task_modes_lookup in Hmode as (x' & Hin & <-). apply item_shown in Hin as (_ & t' & Ht' & Htc' & Hk & _ & ->).
    apply task_key_inj in Hk; [|done..]. by subst t'.
  - intros k1 c1 x1 k2 c2 x2 H1 H2 Hsame Hx1 Hx2.
    destruct (score_change k1 c1 x1 H1 Hx1) as (s1 & sr1 & Hs1 & (Hr1 & _) & _ & E1 & V1).
    destruct (score_change k2 c2 x2 H2 Hx2) as (s2 & sr2 & Hs2 & (Hr2 & _) & _ & E2 & V2).
    destruct (swept_rows s1 Hs1) as (Hdb1 & _), (swept_rows s2 Hs2) as (Hdb2 & _).
    rewrite E1, E2 in Hsame. apply submission_key_inj in Hsame; [|done..]. subst s2. congruence.
  - intros x (s & sr & Hof & Hsr & Hx)%Hl.
    destruct (scored_in_ranking s sr p u t) as (ch & Hch & Hv & Hsub & Hof'); [done..|].
    exists (score_key s), ch. rewrite Hv, Hsub. done.
  - intros k ch x Hch Hx Hof. destruct (score_change k ch x Hch Hx) as (s & sr & Hs & Hsr & _ & E & V).
    apply Hl. exists s, sr. split; [|done]. rewrite E in Hof. by eapply owned_submission.
Qed.
End batch.

End contest.

(** ** The services together *)

Section services.
Context {Q : Type} `{!PQueue nat Q}.
Context (re_match : string → option (string → bool)) (float_of_string : string → option float)
  (can_write : string → bool).

(** A service with [n] executors and nothing to do. *)
Definition idle_proxy (cid : Z) (n : nat) : Proxy (Q := Q) :=
  mkProxy cid ∅ ∅ (Nat.iter n (add_executor (executor_init true)) service_init) [].

Lemma idle_executors n :
  List.length (_executors (Nat.iter n (add_executor (executor_init (Q := Q) true)) service_init)) = n ∧
  Forall (holds_first 0) (_executors (Nat.iter n (add_executor (executor_init (Q := Q) true)) service_init)).
Proof.
  induction n as [|n [IHl IHf]]; [done|]. rewrite Nat.iter_succ. cbn [add_executor _executors]. rewrite length_app, IHl.
  split; [apply Nat.add_1_r|].
  apply Forall_app. split; [done|]. constructor; [|constructor]. destruct q_init_wf as [Hw Ha]. split; [done|].
  split; [done|]. intros i. cbn. rewrite Ha, lookup_empty. split; [by intros []|lia].
Qed.

Lemma proxy_init_ok cid n now db ops :
  initial_operations re_match db cid = Ok ops →
  ∃ p, proxy_init re_match cid n now db = Ok p ∧ ps_objects p = ops ∧ queues_keep holds_first p ∧
    List.length (_executors (ps_service p)) = n ∧ contest_id p = cid ∧
    scores_sent_to_rankings p = ∅ ∧ tokens_sent_to_rankings p = ∅.
Proof.
  intros Hops. destruct (idle_executors n) as [Hl Hf]. unfold proxy_init. fold (idle_proxy cid n).
  destruct (enqueue_operations_ok holds_first holds_first_wf holds_first_enqueued now ops (idle_proxy cid n) Hf) as (p & Hr & [Q1 Q2 Q3 (Q4 & Q5 & Q6)]).
  assert (initialize re_match now db (idle_proxy cid n) = (Ok tt, p)) as ->.
  { unfold initialize. rewrite (M_run_Ok _ _ _ (idle_proxy cid n) (idle_proxy cid n)) by done. cbn [contest_id idle_proxy].
    rewrite (M_run_Ok _ _ _ ops (idle_proxy cid n)) by (unfold lift; by rewrite Hops). exact Hr. }
  assert (_executors (start_sweeper 347 (ps_service p)) = _executors (ps_service p)) as He.
  { unfold start_sweeper. by destruct (_sweeper_started _). }
  exists (set_ps_service (start_sweeper 347 (ps_service p)) p). split; [done|]. split; [exact Q1|].
  split; [|cbn; rewrite He, Q3; by split_and!]. unfold queues_keep. cbn. rewrite He. exact Q2.
Qed.

(** C10. When the proxy service starts for a contest whose data the ranking
    server accepts, sweeps, and the executor of an empty ranking server gets
    its turn, all of that happens without error, and then the ranking knows
    exactly the contestants who are not hidden, and shows for each of them,
    on every task of score mode "max", the score that the contest server
    computes. *)
Theorem ranking_agrees_with_contest db cid c n i now now' :
  feedable re_match float_of_string db cid c → (i < n)%nat →
  ∃ p0 k p1 p2 sv,
    proxy_init re_match cid n now db = Ok p0 ∧
    _missing_operations now' db p0 = (Ok k, p1) ∧
    ranking_turn (put_to_server float_of_string can_write) i (p1, empty_server) = (Ok tt, (p2, sv)) ∧
    (∀ key, has sv USER key = true ↔
       ∃ p u, p ∈ db_participations db ∧ pa_contest_id p = cid ∧ pa_hidden p = false ∧ user_of db p = Some u ∧
         key = encode_id (us_username u)) ∧
    ∀ p u t, p ∈ db_participations db → pa_contest_id p = cid → pa_hidden p = false → user_of db p = Some u →
      t ∈ db_tasks db → task_contest_id t = Some cid → task_score_mode t = Scoring.SCORE_MODE_MAX →
      ∃ partial, task_score db p t false false false =
        Ok (current_score (RankingServer.to_world float_of_string sv)
              (encode_id (us_username u)) (encode_id (task_name t)), partial).
Proof.
  intros Hfd Hi. destruct (initial_content _ _ _ _ _ Hfd) as (users & teams & tasks & Hops & Hus & Hts & Hta).
  destruct (proxy_init_ok cid n now db _ Hops) as (p0 & Hp0 & Ho0 & Hf0 & Hl0 & Hc0 & Hs0 & Ht0).
  destruct (missing_operations_ok holds_first holds_first_wf holds_first_enqueued now' db p0 Hf0) as (p1 & Hr1 & Ho1 & Hf1 & Hl1).
  { apply Hfd. }
  { rewrite Hc0. intros s (_ & _ & p & u & t & _ & _ & _ & _ & _ & _ & _ & _ & _ & _ & Hr & Hd)%(swept_rows _ _ _ _ _ Hfd).
    by eexists _, _. }
  rewrite Hc0, Hs0, Ht0 in *. rewrite Ho0 in Ho1.
  destruct (ranking_turn_ok (put_to_server float_of_string can_write) i p1 empty_server) as (entries & p2 & Hp & Hturn);
    [done|by rewrite Hl1, Hl0|by rewrite Ho1|]. rewrite Ho1 in Hp.
  assert (∃ items : kind → pydict string entity, ∀ k, Forall2 (λ kv it : string * _, kv.1 = it.1 ∧ entity_set k kv.2 = Ok it.2)
    (ProxyService.combine entries k) (items k)) as [items Hitems].
  { assert (∀ k, ∃ it : pydict string entity, Forall2 (λ kv it : string * _, kv.1 = it.1 ∧ entity_set k kv.2 = Ok it.2)
      (ProxyService.combine entries k) it) as Hk.
    { intros k. apply (choose_items (λ j e, entity_set k j = Ok e)). intros key j Hin.
      destruct (entry_shown _ _ _ _ _ Hfd users teams tasks entries Hus Hts Hp k key j Hin) as (_ & e & He & _). by exists e. }
    destruct (Hk CONTEST) as [i1 H1], (Hk TASK) as [i2 H2], (Hk TEAM) as [i3 H3], (Hk USER) as [i4 H4],
      (Hk SUBMISSION) as [i5 H5], (Hk SUBCHANGE) as [i6 H6].
    exists (λ k, match k with CONTEST => i1 | TASK => i2 | TEAM => i3 | USER => i4 | SUBMISSION => i5 | SUBCHANGE => i6 end).
    by intros []. }
  pose proof (batch_acceptable _ _ _ _ _ Hfd users teams tasks entries Hus Hts Hta Hp items Hitems) as Hac.
  destruct (send_all float_of_string can_write _ items Hac) as (sv & Hsend & Hstores & Hinv).
  assert (execute (put_to_server float_of_string can_write) entries empty_server = (Ok tt, sv)) as Hex.
  { unfold execute, try_except. by rewrite Hsend. }
  rewrite Hex in Hturn. exists p0, (Z.of_nat (List.length (swept_submissions db cid ≫= sweep_operations db ∅ ∅))), p1, p2, sv.
  split; [done|]. split; [done|]. split; [exact Hturn|]. split.
  - intros key. assert (has sv USER key = has (server_of items) USER key) as -> by (unfold has; by rewrite Hstores).
    split.
    + intros [e He%pd_get_Some_in]%has_elem. cbn in He.
      destruct (item_shown _ _ _ _ _ Hfd users teams tasks entries Hus Hts Hp items Hitems USER key e He) as [Hk Hs].
      destruct e as [| | |x| |]; try done. destruct Hs as (p & u & ? & ? & ? & ? & -> & _). by exists p, u.
    + intros (p & u & Hpp & Hc & Hh & Hu & ->).
      by apply (has_user _ _ _ users teams tasks entries Hus Hp items Hitems p).
  - by apply (ranking_shows_score _ _ _ _ _ Hfd users teams tasks entries Hus Hts Hta Hp items Hitems).
Qed.
End services.

(** ** The contest of [feed_db] *)

Definition feed_contest : Contest := mkContest 3 1600000000000000 1700000000000000 [] "ioi_24" "IOI" 2 no_limits.

Ltac each_row H := repeat (apply elem_of_cons in H as [->|H]); [..|by apply elem_of_nil in H].
Ltac in_rows := solve [repeat first [left | right]].
Ltac computed := first [apply (bool_decide_unpack _); vm_compute; exact I | in_rows | vm_compute; reflexivity].

Lemma feed_feedable : feedable demo_regexp demo_read_float feed_db 3 feed_contest.
Proof.
  split.
  1-9: computed.
  - intros p Hp. each_row Hp; [exists (mkUser 1 "Ada" "L" "ada_l")|exists (mkUser 2 "Eve" "M" "eve")];
      (split; [in_rows|reflexivity]).
  - split; [in_rows|]. split; [reflexivity|]. split; [split; [discriminate|vm_compute; reflexivity]|].
    split; discriminate.
  - intros u Hu. each_row Hu; (split; [discriminate|vm_compute; reflexivity]).
  - intros t Ht. each_row Ht. split; [discriminate|vm_compute; reflexivity].
  - intros t Ht _. each_row Ht. split; [split; [discriminate|vm_compute; reflexivity]|]. split; [by eexists|].
    split; [discriminate|]. split; [by left|]. eexists (mkDataset 1 5 false None None "Batch" [] [] "Sum" (JInt 50)), _.
    split; [in_rows|]. split; [reflexivity|]. split; [reflexivity|]. vm_compute. reflexivity.
  - intros s Hs. each_row Hs; (split; [reflexivity|]; split; [split; vm_compute; [discriminate|reflexivity]|]);
      intros t Ht; try discriminate Ht. injection Ht as <-. split; vm_compute; [discriminate|reflexivity].
  - intros r Hr _. each_row Hr; vm_compute; by split.
Qed.

(** The ranking shows 40 for "ada_l" on "sum". *)
Lemma ranking_agrees_with_contest_witness :
  (∃ p0 sv, proxy_init (Q := PriorityQueue nat) demo_regexp 3 1 0 feed_db = Ok p0 ∧
     (ranking_turn (put_to_server demo_read_float (λ _, true)) 0
        ((_missing_operations 1 feed_db p0).2, empty_server)).2.2 = sv ∧
     current_score (RankingServer.to_world demo_read_float sv) "ada_5fl" "sum" = of_Z 40 ∧
     pd_keys (stores sv SUBCHANGE) = ["165000000010s"; "166000000011s"; "166000010011t"]) ∧
  ∃ p0 k p1 p2 sv,
    proxy_init (Q := PriorityQueue nat) demo_regexp 3 1 0 feed_db = Ok p0 ∧
    _missing_operations 1 feed_db p0 = (Ok k, p1) ∧
    ranking_turn (put_to_server demo_read_float (λ _, true)) 0 (p1, empty_server) = (Ok tt, (p2, sv)).
Proof.
  split.
  - eexists _, _. split; [vm_compute; reflexivity|]. split; [reflexivity|]. split; vm_compute; reflexivity.
  - destruct (ranking_agrees_with_contest (Q := PriorityQueue nat) demo_regexp demo_read_float (λ _, true) feed_db 3
      feed_contest 1 0 0 1 feed_feedable ltac:(lia)) as (p0 & k & p1 & p2 & sv & H1 & H2 & H3 & _).
    by exists p0, k, p1, p2, sv.
Defined.
