(* ===== verification/Languages.v ===== *)
(** * Programming languages (cms/grading/language.py,
    cms/grading/languages/*.py, cms/grading/languagemanager.py)

    A language is a record of the constants of its class and of its two
    methods that build commands. The languages installed on a server are the
    plug-ins that the package registers; they are a parameter of what follows,
    and [cms_languages] is the list of the classes of the repository. *)

From S2P Require Import Prelude PyFloat PyString.
From Stdlib Require Import Strings.Ascii.

Local Open Scope string_scope.
Local Open Scope list_scope.

Definition command : Type := list string.

Record Language : Type := mkLanguage {
  name : string;
  source_extensions : list string;
  header_extensions : list string;
  object_extensions : list string;
  requires_multithreading : bool;
  executable_extension : string;
  time_limit_multiplier : float;
  get_compilation_commands : list string → string → bool → res (list command);
  get_evaluation_commands : string → string → list string → list command;
}.

Definition source_extension (l : Language) : option string := head (source_extensions l).
Definition header_extension (l : Language) : option string := head (header_extensions l).
Definition object_extension (l : Language) : option string := head (object_extensions l).

(** [get_evaluation_commands] of CompiledLanguage; [main], which every caller
    passes, is only used by Java. *)
Definition compiled_evaluation (executable_filename main : string) (args : list string) : list command :=
  [path_join "." executable_filename :: args].

(** ** The classes *)

Definition gpp_compilation (std : string) (source_filenames : list string)
    (executable_filename : string) (for_evaluation : bool) : res (list command) :=
  Ok [["/usr/bin/g++"] ++ (if for_evaluation then ["-DEVAL"] else [])
      ++ [std; "-O2"; "-pipe"; "-static"; "-s"; "-o"; executable_filename] ++ source_filenames].

Definition cpp (name std : string) : Language :=
  mkLanguage name [".cpp"; ".cc"; ".cxx"; ".c++"; ".C"] [".h"] [".o"] false "" f1
    (gpp_compilation std) compiled_evaluation.

Definition Cpp11Gpp : Language := cpp "C++11 / g++" "-std=gnu++11".
Definition Cpp14Gpp : Language := cpp "C++14 / g++" "-std=gnu++14".
Definition Cpp17Gpp : Language := cpp "C++17 / g++" "-std=gnu++17".
Definition Cpp20Gpp : Language := cpp "C++20 / g++" "-std=gnu++20".

Definition C11Gcc : Language :=
  mkLanguage "C11 / gcc" [".c"] [".h"] [".o"] false "" f1
    (λ source_filenames executable_filename for_evaluation,
       Ok [["/usr/bin/gcc"] ++ (if for_evaluation : bool then ["-DEVAL"] else [])
           ++ ["-std=gnu11"; "-O2"; "-pipe"; "-static"; "-s"; "-o"; executable_filename]
           ++ source_filenames ++ ["-lm"]])
    compiled_evaluation.

Definition CSharpMono : Language :=
  mkLanguage "C# / Mono" [".cs"] [] [] true ".exe" f1
    (λ source_filenames executable_filename _,
       Ok [["/usr/bin/mcs"; "-out:" +:+ executable_filename; "-optimize+"] ++ source_filenames] )
    (λ executable_filename _ _, [["/usr/bin/mono"; executable_filename]]).

(** [HaskellGhc._capitalize] *)
Definition _capitalize (s : string) : res string :=
  let '(dirname, basename) := path_split s in
  match basename with
  | EmptyString => Raise IndexError
  | String c rest => Ok (path_join dirname (String (upper c) rest))
  end.

Fixpoint haskell_links (sources : list string) : res (list command) :=
  match sources with
  | [] => Ok []
  | source :: sources =>
      target ← _capitalize source;
      links ← haskell_links sources;
      Ok (["/bin/ln"; "-s"; basename source; target] :: links)
  end.

Definition HaskellGhc : Language :=
  mkLanguage "Haskell / ghc" [".hs"] [] [".o"] false "" f1
    (λ source_filenames executable_filename _,
       commands ← haskell_links (tail source_filenames);
       first ← or_raise IndexError (head source_filenames);
       Ok (commands ++ [["/usr/bin/ghc"; "-static"; "-O2"; "-Wall"; "-o"; executable_filename; first]]))
    compiled_evaluation.

Definition JavaJDK : Language :=
  mkLanguage "Java / JDK" [".java"] [] [] true ".jar" (of_Q 3 2)
    (λ source_filenames executable_filename _,
       Ok ["/usr/bin/javac" :: source_filenames;
           ["/bin/sh"; "-c"; join_strings " " ["jar"; "cf"; shell_quote executable_filename; "*.class"]]])
    (λ executable_filename main args,
       [["/usr/bin/java"; "-Deval=true"; "-Xmx512M"; "-Xss64M"; "-cp"; executable_filename; main] ++ args]).

Definition PascalFpc : Language :=
  mkLanguage "Pascal / fpc" [".pas"] ["lib.pas"] [".o"] false "" f1
    (λ source_filenames executable_filename for_evaluation,
       first ← or_raise IndexError (head source_filenames);
       Ok [["/usr/bin/fpc"] ++ (if for_evaluation : bool then ["-dEVAL"] else [])
           ++ ["-O2"; "-XSs"; "-o" +:+ executable_filename; first]] )
    compiled_evaluation.

Definition Php : Language :=
  mkLanguage "PHP" [".php"] [] [] false ".php" f1
    (λ source_filenames executable_filename _,
       first ← or_raise IndexError (head source_filenames);
       Ok (if decide (first ≠ executable_filename) then [["/bin/cp"; first; executable_filename]]
           else [["/bin/true"]]))
    (λ executable_filename _ args, [["/usr/bin/php"; executable_filename] ++ args]).

Definition MAIN_FILENAME : string := "__main__.pyc".

Definition pyc_filename (source_filename : string) : string :=
  (splitext (basename source_filename)).1 +:+ ".pyc".

(** Compilation for both Python interpreters. *)
Definition python_compilation (interpreter : string) (source_filenames : list string)
    (executable_filename : string) (_ : bool) : res (list command) :=
  let compile := [interpreter; "-m"; "compileall"; "-b"; "."] in
  match pyc_filename <$> source_filenames with
  | [] => Ok [compile; ["/usr/bin/zip"; executable_filename]]
  | first :: others =>
      Ok [compile; ["/bin/mv"; first; MAIN_FILENAME];
          ["/usr/bin/zip"; executable_filename; MAIN_FILENAME] ++ others] 
  end.

Definition python3 (name interpreter : string) : Language :=
  mkLanguage name [".py"] [] [] false ".pyz" (of_Z 2) (python_compilation interpreter)
    (λ executable_filename _ args, [[interpreter; executable_filename] ++ args]).

Definition Python3CPython : Language := python3 "Python 3 / CPython" "/usr/bin/python3".
Definition Python3PyPy : Language := python3 "Python 3 / PyPy" "/usr/bin/pypy3".

Definition Rust : Language :=
  mkLanguage "Rust" [".rs"] [] [] false "" f1
    (λ source_filenames executable_filename _,
       first ← or_raise IndexError (head source_filenames);
       Ok [["/usr/bin/rustc"; "-O"; "-o"; executable_filename; first]])
    compiled_evaluation.

Definition cms_languages : list Language :=
  [Cpp11Gpp; Cpp14Gpp; Cpp17Gpp; Cpp20Gpp; C11Gcc; CSharpMono; HaskellGhc; JavaJDK; PascalFpc; Php;
   Python3CPython; Python3PyPy; Rust].

(** ** The language manager *)

Section languagemanager.
Context (LANGUAGES : list Language).

(** [_BY_NAME] is filled in the order of [LANGUAGES]: the last language of a
    name wins. *)
Definition get_language (n : string) : res Language :=
  or_raise KeyError (last (filter (λ l, name l = n) LANGUAGES)).

(** [min(names)]: the first of the sorted names. *)
Fixpoint least_string (l : list string) : option string :=
  match l with
  | [] => None
  | s :: l =>
      match least_string l with
      | Some t => Some (if String.ltb t s then t else s)
      | None => Some s
      end
  end.

Definition filename_to_language (filename : string) : res (option Language) :=
  match rfind dot filename with
  | None => Ok None
  | Some ext_index =>
      let ext := drop_string ext_index filename in
      match least_string (name <$> filter (λ l, ext ∈ source_extensions l) LANGUAGES) with
      | None => Ok None
      | Some n => l ← get_language n; Ok (Some l)
      end
  end.
End languagemanager.

(** [is_manager_for_compilation] of cms/grading/tasktypes/util.py *)
Definition is_manager_for_compilation (filename : string) (l : Language) : bool :=
  existsb (λ e, endswith e filename) (source_extensions l)
  || existsb (λ e, endswith e filename) (header_extensions l)
  || existsb (λ e, endswith e filename) (object_extensions l).
