(* ===== verification/TaskTypes.v ===== *)
(** * Task types and their parameters (cms/grading/ParameterTypes.py,
    cms/grading/tasktypes/: the parts that need no sandbox)

    The parameters of a data set are a JSON value; [get_task_type] validates
    them against the accepted parameters of the class and builds the object.
    The methods of the five classes that other components call are functions
    of that object. *)

From S2P Require Import Prelude PyFloat Database PyString Languages.

Local Open Scope string_scope.
Local Open Scope list_scope.

(** ** Parameter types *)

Inductive ParameterType : Type :=
  | ParameterTypeString
  | ParameterTypeInt
  | ParameterTypeChoice (values : list string)
  | ParameterTypeCollection (subparameters : list ParameterType).

(** [str(value)] as far as a choice can be equal to it: the text of a number,
    of a list or of a dictionary is none of the choices of the classes. *)
Definition choice_text (value : json) : option string :=
  match value with
  | JString s => Some s
  | JNull => Some "None"
  | JBool true => Some "True"
  | JBool false => Some "False"
  | _ => None
  end.

(** [validate]; [isinstance(value, int)] accepts booleans. *)
Fixpoint validate (p : ParameterType) (value : json) : res unit :=
  match p with
  | ParameterTypeString => match value with JString _ => Ok tt | _ => Raise ValueError end
  | ParameterTypeInt => match value with JInt _ | JBool _ => Ok tt | _ => Raise ValueError end
  | ParameterTypeChoice values =>
      match choice_text value with
      | Some s => if decide (s ∈ values) then Ok tt else Raise ValueError
      | None => Raise ValueError
      end
  | ParameterTypeCollection subparameters =>
      match value with
      | JList l =>
          if decide (length l ≠ length subparameters) then Raise ValueError
          else
            (fix validate_all (ps : list ParameterType) (vs : list json) : res unit :=
               match ps, vs with
               | p :: ps, v :: vs => _ ← validate p v; validate_all ps vs
               | _, _ => Ok tt
               end) subparameters l
      | _ => Raise ValueError
      end
  end.

(** [parse_string] of the basic types; [int(value)] is a parameter. *)
Definition parse_string (int_of_string : string → res Z) (p : ParameterType) (value : string) : res json :=
  match p with
  | ParameterTypeString => Ok (JString value)
  | ParameterTypeInt => n ← int_of_string value; Ok (JInt n)
  | ParameterTypeChoice values =>
      if decide (value ∈ values) then Ok (JString value) else Raise ValueError
  | ParameterTypeCollection _ => Raise (UserError "NotImplementedError")
  end.

(** ** Classes *)

Definition COMPILATION_ALONE : string := "alone".
Definition COMPILATION_GRADER : string := "grader".
Definition COMPILATION_STUB : string := "stub".
Definition OUTPUT_EVAL_DIFF : string := "diff".
Definition OUTPUT_EVAL_CHECKER : string := "comparator".
Definition USER_IO_STD : string := "std_io".
Definition USER_IO_FIFOS : string := "fifo_io".
Definition ENABLE_AUTO_EVAL : string := "enabled".
Definition DISABLE_AUTO_EVAL : string := "disabled".

Definition GRADER_BASENAME : string := "grader".
Definition STUB_BASENAME : string := "stub".
Definition MANAGER_FILENAME : string := "manager".

Inductive TaskTypeClass : Set := CBatch | CCommunication | COutputOnly | CTwoSteps | CPvP.

(** The name of the class, under which [TASK_TYPES] keeps it. *)
Definition class_name (c : TaskTypeClass) : string :=
  match c with
  | CBatch => "Batch"
  | CCommunication => "Communication"
  | COutputOnly => "OutputOnly"
  | CTwoSteps => "TwoSteps"
  | CPvP => "PvP"
  end.

Definition ACCEPTED_PARAMETERS (c : TaskTypeClass) : list ParameterType :=
  match c with
  | CBatch =>
      [ParameterTypeChoice [COMPILATION_ALONE; COMPILATION_GRADER];
       ParameterTypeCollection [ParameterTypeString; ParameterTypeString];
       ParameterTypeChoice [OUTPUT_EVAL_DIFF; OUTPUT_EVAL_CHECKER]]
  | CCommunication =>
      [ParameterTypeInt; ParameterTypeChoice [COMPILATION_ALONE; COMPILATION_STUB];
       ParameterTypeChoice [USER_IO_STD; USER_IO_FIFOS]]
  | COutputOnly | CTwoSteps => [ParameterTypeChoice [OUTPUT_EVAL_DIFF; OUTPUT_EVAL_CHECKER]]
  | CPvP =>
      [ParameterTypeChoice [COMPILATION_ALONE; COMPILATION_STUB];
       ParameterTypeChoice [USER_IO_STD; USER_IO_FIFOS];
       ParameterTypeChoice [ENABLE_AUTO_EVAL; DISABLE_AUTO_EVAL];
       ParameterTypeInt; ParameterTypeInt; ParameterTypeInt]
  end.

Definition ALLOW_PARTIAL_SUBMISSION (c : TaskTypeClass) : bool :=
  match c with COutputOnly => true | _ => false end.

Definition testable (c : TaskTypeClass) : bool :=
  match c with COutputOnly => false | _ => true end.

(** An object with the attributes that its constructor sets. *)
Inductive TaskType : Type :=
  | Batch (compilation input_filename output_filename output_eval : string)
          (_actual_input _actual_output : string)
  | Communication (num_processes : Z) (compilation io : string)
  | OutputOnly (output_eval : string)
  | TwoSteps (output_eval : string)
  | PvP (compilation io auto_eval : string) (interval rounds notification_time : Z).

Definition class_of (t : TaskType) : TaskTypeClass :=
  match t with
  | Batch _ _ _ _ _ _ => CBatch
  | Communication _ _ _ => CCommunication
  | OutputOnly _ => COutputOnly
  | TwoSteps _ => CTwoSteps
  | PvP _ _ _ _ _ _ => CPvP
  end.

(** The integer that a validated parameter stands for. *)
Definition json_int (v : json) : option Z :=
  match v with
  | JInt n => Some n
  | JBool b => Some (if b then 1 else 0)%Z
  | _ => None
  end.

(** [timedelta(seconds=n)] holds at most 999999999 days. *)
Definition timedelta (n : Z) : res Z :=
  let days := (n / 86400)%Z in
  if (-999999999 <=? days)%Z && (days <=? 999999999)%Z then Ok n else Raise (UserError "OverflowError").

(** [validate_parameters] *)
Definition validate_parameters (c : TaskTypeClass) (parameters : json) : res unit :=
  validate (ParameterTypeCollection (ACCEPTED_PARAMETERS c)) parameters.

(** The constructors, once the parameters are valid; a value that the
    attributes cannot take is reported as [TypeError]. *)
Definition construct (c : TaskTypeClass) (parameters : json) : res TaskType :=
  _ ← validate_parameters c parameters;
  match c, parameters with
  | CBatch, JList [JString compilation; JList [JString i; JString o]; JString output_eval] =>
      Ok (Batch compilation i o output_eval
            (if String.eqb i "" then "input.txt" else i)
            (if String.eqb o "" then "output.txt" else o))
  | CCommunication, JList [n; JString compilation; JString io] =>
      n ← or_raise TypeError (json_int n); Ok (Communication n compilation io)
  | COutputOnly, JList [JString output_eval] => Ok (OutputOnly output_eval)
  | CTwoSteps, JList [JString output_eval] => Ok (TwoSteps output_eval)
  | CPvP, JList [JString compilation; JString io; JString auto_eval; i; r; n] =>
      i ← or_raise TypeError (json_int i);
      r ← or_raise TypeError (json_int r);
      n ← or_raise TypeError (json_int n);
      i ← timedelta i;
      n ← timedelta n;
      Ok (PvP compilation io auto_eval i r n)
  | _, _ => Raise TypeError
  end.

Definition TASK_TYPES : list TaskTypeClass := [CBatch; CCommunication; COutputOnly; CTwoSteps; CPvP].

Definition get_task_type_class (name : string) : res TaskTypeClass :=
  or_raise KeyError (head (filter (λ c, class_name c = name) TASK_TYPES)).

Definition get_task_type (name : string) (parameters : json) : res TaskType :=
  c ← get_task_type_class name; construct c parameters.

(** [dataset.task_type_object] *)
Definition task_type_object (d : Dataset) : res TaskType :=
  get_task_type (ds_task_type d) (JList (ds_task_type_parameters d)).

(** ** Methods *)

(** The source that the data set provides and that goes first. *)
Definition provided_basename (t : TaskType) : option string :=
  match t with
  | Batch compilation _ _ _ _ _ => if String.eqb compilation COMPILATION_GRADER then Some GRADER_BASENAME else None
  | Communication _ compilation _ | PvP compilation _ _ _ _ _ =>
      if String.eqb compilation COMPILATION_STUB then Some STUB_BASENAME else None
  | _ => None
  end.

Definition get_user_managers (t : TaskType) : list string :=
  match t with
  | TwoSteps _ => ["manager.%l"]
  | _ => match provided_basename t with Some b => [b +:+ ".%l"] | None => [] end
  end.

Definition get_auto_managers (t : TaskType) : list string :=
  match t with
  | Communication _ _ _ | PvP _ _ _ _ _ _ => [MANAGER_FILENAME]
  | _ => []
  end.

Definition _executable_filename (codenames : list string) (l : Language) : string :=
  join_strings "_" (sort_strings (replace ".%l" "" <$> codenames)) +:+ executable_extension l.

(** [[codename.replace(".%l", ext) for codename in codenames]] *)
Fixpoint with_extension (ext : option string) (codenames : list string) : res (list string) :=
  match codenames with
  | [] => Ok []
  | codename :: codenames =>
      ext' ← or_raise TypeError ext;
      filenames ← with_extension ext codenames;
      Ok (replace ".%l" ext' codename :: filenames)
  end.

(** The commands of one language for Batch, Communication and PvP. *)
Definition grader_commands (provided : option string) (submission_format : list string) (l : Language)
    : res (list command) :=
  filenames ← with_extension (source_extension l)
                ((match provided with Some b => [b +:+ ".%l"] | None => [] end) ++ submission_format);
  get_compilation_commands l filenames (_executable_filename submission_format l) true.

(** [x%s % ext]; an absent extension is written [None]. *)
Definition format_ext (x : string) (ext : option string) : string := x +:+ default "None" ext.

Fixpoint sources_and_headers (source_ext header_ext : option string) (filenames : list string)
    : res (list string) :=
  match filenames with
  | [] => Ok []
  | filename :: filenames =>
      source_ext' ← or_raise TypeError source_ext;
      rest ← sources_and_headers source_ext header_ext filenames;
      Ok (replace ".%l" source_ext' filename ::
          match header_ext with Some h => [replace ".%l" h filename] | None => [] end ++ rest)
  end.

(** The commands of one language for TwoSteps. *)
Definition two_steps_commands (submission_format : list string) (l : Language) : res (list command) :=
  rest ← sources_and_headers (source_extension l) (header_extension l) submission_format;
  get_compilation_commands l
    (format_ext "manager" (source_extension l) ::
     match header_extension l with Some h => [("manager" +:+ h)] | None => [] end ++ rest)
    ("manager" +:+ executable_extension l) true.

Definition language_commands (t : TaskType) (submission_format : list string) (l : Language)
    : res (list command) :=
  match t with
  | TwoSteps _ => two_steps_commands submission_format l
  | _ => grader_commands (provided_basename t) submission_format l
  end.

(** The dictionary of the commands of all the languages. *)
Fixpoint commands_by_language (f : Language → res (list command)) (ls : list Language)
    (acc : pydict string (list command)) : res (pydict string (list command)) :=
  match ls with
  | [] => Ok acc
  | l :: ls => c ← f l; commands_by_language f ls (pd_set acc (name l) c)
  end.

Definition task_type_commands (LANGUAGES : list Language) (t : TaskType) (submission_format : list string)
    : res (option (pydict string (list command))) :=
  match t with
  | OutputOnly _ => Ok None
  | _ => c ← commands_by_language (language_commands t submission_format) LANGUAGES [];
         Ok (Some c)
  end.

Example commands_demo :
  (c ← task_type_commands [Cpp17Gpp] (Batch "grader" "" "" "diff" "input.txt" "output.txt") ["foo.%l"];
   Ok c) =
  Ok (Some [("C++17 / g++", [["/usr/bin/g++"; "-DEVAL"; "-std=gnu++17"; "-O2"; "-pipe"; "-static"; "-s";
                             "-o"; "foo"; "grader.cpp"; "foo.cpp"]])]).
Proof. vm_compute. reflexivity. Qed.

(** ** Typed objects *)

Section validate_ind.
Context (P : ParameterType → Prop) (HS : P ParameterTypeString) (HI : P ParameterTypeInt).
Context (HC : ∀ values, P (ParameterTypeChoice values)).
Context (HL : ∀ ps, Forall P ps → P (ParameterTypeCollection ps)).

Fixpoint ParameterType_nested (p : ParameterType) : P p :=
  match p with
  | ParameterTypeString => HS
  | ParameterTypeInt => HI
  | ParameterTypeChoice values => HC values
  | ParameterTypeCollection ps =>
      HL ps ((fix go (ps : list ParameterType) : Forall P ps :=
                match ps with
                | [] => Forall_nil_2 P
                | p :: ps => Forall_cons_2 P p ps (ParameterType_nested p) (go ps)
                end) ps)
  end.
End validate_ind.

(** A list is valid when it has a valid value for each parameter. *)
Lemma validate_collection ps v :
  validate (ParameterTypeCollection ps) v = Ok tt ↔
  ∃ vs, v = JList vs ∧ Forall2 (λ p v, validate p v = Ok tt) ps vs.
Proof.
  split.
  - destruct v as [| | | | |vs|]; try done. cbn. case_decide as Hl; [done|].
    intros H. exists vs. split; [done|]. revert vs Hl H. induction ps as [|p ps IH]; intros [|v vs] Hl H; try discriminate Hl.
    + constructor.
    + apply res_bind_Ok in H as ([] & Hp & H). constructor; [done|]. apply IH; [|done]. by injection Hl.
  - intros (vs & -> & H). cbn. rewrite decide_False by (intros Hn; apply Hn; symmetry; by eapply Forall2_length).
    induction H as [|p v ps vs Hp _ IH]; [done|]. by rewrite Hp.
Qed.

Lemma validate_outcomes p v : validate p v = Ok tt ∨ validate p v = Raise ValueError.
Proof.
  revert v. induction p as [| |values|ps IH] using ParameterType_nested; intros v.
  - destruct v; cbn; auto.
  - destruct v; cbn; auto.
  - cbn. destruct (choice_text v); [|by right]. case_decide; auto.
  - destruct v as [| | | | |vs|]; cbn; auto. case_decide as Hl; [by right|]. clear Hl.
    revert vs. induction IH as [|p ps Hp _ IH]; intros [|v vs]; auto.
    destruct (Hp v) as [-> | ->]; cbn; [apply IH|by right].
Qed.

Lemma validate_string v : validate ParameterTypeString v = Ok tt → ∃ s, v = JString s.
Proof. destruct v; try done. eauto. Qed.

Lemma validate_int v : validate ParameterTypeInt v = Ok tt → ∃ n, json_int v = Some n.
Proof. destruct v; try done; cbn; eauto. Qed.

(** A choice between strings that are not the text of something else. *)
Lemma validate_choice values v :
  ("None" ∉ values) ∧ ("True" ∉ values) ∧ ("False" ∉ values) →
  validate (ParameterTypeChoice values) v = Ok tt → ∃ s, v = JString s ∧ s ∈ values.
Proof.
  intros (H1 & H2 & H3). cbn. destruct v as [|[]| | |s| |]; cbn; try done; case_decide; try done. eauto.
Qed.

(** What the constructor of each class promises of the attributes. *)
Definition duration (n : Z) : Prop := timedelta n = Ok n.

Definition typed (t : TaskType) : Prop :=
  match t with
  | Batch compilation i o output_eval actual_i actual_o =>
      compilation ∈ [COMPILATION_ALONE; COMPILATION_GRADER] ∧ output_eval ∈ [OUTPUT_EVAL_DIFF; OUTPUT_EVAL_CHECKER] ∧
      actual_i = (if String.eqb i "" then "input.txt" else i) ∧
      actual_o = (if String.eqb o "" then "output.txt" else o) ∧ actual_i ≠ "" ∧ actual_o ≠ ""
  | Communication _ compilation io =>
      compilation ∈ [COMPILATION_ALONE; COMPILATION_STUB] ∧ io ∈ [USER_IO_STD; USER_IO_FIFOS]
  | OutputOnly output_eval | TwoSteps output_eval => output_eval ∈ [OUTPUT_EVAL_DIFF; OUTPUT_EVAL_CHECKER]
  | PvP compilation io auto_eval interval _ notification_time =>
      compilation ∈ [COMPILATION_ALONE; COMPILATION_STUB] ∧ io ∈ [USER_IO_STD; USER_IO_FIFOS] ∧
      auto_eval ∈ [ENABLE_AUTO_EVAL; DISABLE_AUTO_EVAL] ∧ duration interval ∧ duration notification_time
  end.

(** [self.parameters] *)
Definition parameters_of (t : TaskType) : json :=
  match t with
  | Batch compilation i o output_eval _ _ =>
      JList [JString compilation; JList [JString i; JString o]; JString output_eval]
  | Communication n compilation io => JList [JInt n; JString compilation; JString io]
  | OutputOnly output_eval | TwoSteps output_eval => JList [JString output_eval]
  | PvP compilation io auto_eval i r n =>
      JList [JString compilation; JString io; JString auto_eval; JInt i; JInt r; JInt n]
  end.

Lemma timedelta_cases n : duration n ∨ timedelta n = Raise (UserError "OverflowError").
Proof. unfold duration, timedelta. destruct (_ && _); auto. Qed.

(** A typed object is built from its parameters. *)
Lemma construct_typed t : typed t → construct (class_of t) (parameters_of t) = Ok t.
Proof.
  unfold construct, validate_parameters. intros Ht.
  assert (validate (ParameterTypeCollection (ACCEPTED_PARAMETERS (class_of t))) (parameters_of t) = Ok tt) as ->.
  { apply validate_collection. destruct t; cbn in *; eexists; (split; [reflexivity|]);
      repeat constructor; cbn; rewrite ?decide_True by tauto; done. }
  destruct t as [c i o oe ai ao|n c io|oe|oe|c io ae i r n]; cbn in *; try done.
  - by destruct Ht as (_ & _ & -> & -> & _).
  - destruct Ht as (_ & _ & _ & Hi & Hn). by rewrite Hi, Hn.
Qed.

Lemma class_named name c :
  get_task_type_class name = Ok c → class_name c = name.
Proof.
  unfold get_task_type_class, or_raise. destruct (head _) as [c'|] eqn:Hc; [|done]. intros [= ->].
  by apply head_filter_in in Hc as [_ ?].
Qed.

Lemma class_found c : get_task_type_class (class_name c) = Ok c.
Proof. by destruct c. Qed.

Ltac valid_parameters H :=
  repeat match type of H with
    | Forall2 _ (_ :: _) _ => let v := fresh "v" in apply Forall2_cons_inv_l in H as (v & ? & ? & H & ->)
    | Forall2 _ [] _ => apply Forall2_nil_inv_l in H as ->
    end;
  repeat match goal with
    | Hv : validate (ParameterTypeChoice _) _ = Ok tt |- _ =>
        apply validate_choice in Hv as (? & -> & ?); [|split_and!; by apply (bool_decide_unpack _)]
    | Hv : validate ParameterTypeString _ = Ok tt |- _ => apply validate_string in Hv as (? & ->)
    | Hv : validate ParameterTypeInt _ = Ok tt |- _ => apply validate_int in Hv as (? & Hv)
    end.

(** Valid parameters give a typed object, but for the durations. *)
Lemma construct_valid c parameters :
  validate_parameters c parameters = Ok tt →
  (∃ t, construct c parameters = Ok t ∧ class_of t = c ∧ typed t) ∨
  (c = CPvP ∧ construct c parameters = Raise (UserError "OverflowError")).
Proof.
  intros Hv. unfold construct. rewrite Hv. cbn [mbind res_bind].
  apply validate_collection in Hv as (vs & -> & Hv). destruct c; cbn [ACCEPTED_PARAMETERS] in Hv.
  - valid_parameters Hv.
    match goal with Hc : validate (ParameterTypeCollection _) _ = Ok tt |- _ =>
      apply validate_collection in Hc as (ws & -> & Hc); valid_parameters Hc end.
    left. eexists. split; [reflexivity|]. cbn. split_and!; try done;
      match goal with |- (if String.eqb ?a _ then _ else _) ≠ _ => by destruct (String.eqb_spec a "") end.
  - valid_parameters Hv. left. match goal with Hn : json_int _ = Some _ |- _ => rewrite Hn end.
    eexists. split; [reflexivity|]. done.
  - valid_parameters Hv. left. eexists. split; [reflexivity|]. done.
  - valid_parameters Hv. left. eexists. split; [reflexivity|]. done.
  - valid_parameters Hv.
    repeat match goal with Hn : json_int _ = Some _ |- _ => rewrite Hn; clear Hn end.
    cbn [or_raise mbind res_bind].
    do 2 (match goal with |- context [timedelta ?n] =>
      let Hd := fresh "Hd" in
      destruct (timedelta_cases n) as [Hd|Hd]; rewrite Hd; cbn [mbind res_bind]; [|by right] end).
    left. eexists. split; [reflexivity|]. by split_and!.
Qed.

(** [get_task_type] on any name and any JSON value: an object of the
    class with that name, whose attributes have the types and the values that
    its methods rely on and which its own parameters build again, or one of
    three errors: [KeyError] for an unknown name, [ValueError] for invalid
    parameters, and, for PvP only, [OverflowError] for a duration that
    [timedelta] cannot hold. No valid parameters make a constructor fail with
    another exception. *)
Theorem task_types_typed (name : string) (parameters : json) :
  match get_task_type name parameters with
  | Ok t => class_name (class_of t) = name ∧ typed t ∧ get_task_type name (parameters_of t) = Ok t
  | Raise e =>
      (e = KeyError ∧ ∀ c, class_name c ≠ name) ∨
      (e = ValueError ∧ ∃ c, class_name c = name ∧ validate_parameters c parameters = Raise ValueError) ∨
      (e = UserError "OverflowError" ∧ name = class_name CPvP)
  | Blocks | NoFuel => False
  end.
Proof.
  unfold get_task_type. destruct (get_task_type_class name) as [c|e| |] eqn:Hc; cbn [mbind res_bind].
  - pose proof (class_named name c Hc) as <-.
    destruct (validate_outcomes (ParameterTypeCollection (ACCEPTED_PARAMETERS c)) parameters) as [Hv|Hv].
    + destruct (construct_valid c parameters Hv) as [(t & Ht & <- & Htt)|[-> Ht]]; rewrite Ht; [|by right; right].
      split_and!; [done|done|]. by apply construct_typed.
    + unfold construct, validate_parameters. rewrite Hv. cbn. right. left. eauto.
  - left. unfold get_task_type_class, or_raise in Hc. destruct (head _) eqn:Hh; [done|]. injection Hc as <-.
    split; [done|]. intros c <-. pose proof (class_found c) as Hf.
    unfold get_task_type_class, or_raise in Hf. by rewrite Hh in Hf.
  - unfold get_task_type_class, or_raise in Hc. by destruct (head _).
  - unfold get_task_type_class, or_raise in Hc. by destruct (head _).
Qed.
