(* ===== verification/Job.v ===== *)
(** * Jobs (cms/grading/Job.py)

    A job is what the evaluation service sends to a worker and receives back:
    the operation, everything the worker needs, and the results. The three
    classes share the fields of [Job]. A job travels as a dictionary of JSON
    values ([export_to_dict], [import_from_dict]); the methods [to_submission],
    [to_user_test] and [to_match] write its results into a row of the
    database. Objects of the classes File, Manager and Executable are pairs of
    a file name and a digest. *)

From S2P Require Import Prelude PyFloat Database EsOperations PyString Languages TaskTypes.
From stdpp Require Import pretty.

Local Open Scope string_scope.
Local Open Scope list_scope.

(** ** JSON values of Python objects *)

(** [of_json] gives back the object that [to_json] writes; a value of another
    type has no object. *)
Class Json (A : Type) := {
  to_json : A → json;
  of_json : json → option A;
}.

Class JsonOk (A : Type) `{Json A} := of_to_json (x : A) : of_json (to_json x) = Some x.

#[export] Instance json_json : Json json := {| to_json := id; of_json := Some |}.
#[export] Instance json_bool : Json bool :=
  {| to_json := JBool; of_json v := match v with JBool b => Some b | _ => None end |}.
#[export] Instance json_Z : Json Z :=
  {| to_json := JInt; of_json v := match v with JInt n => Some n | _ => None end |}.
#[export] Instance json_float : Json float :=
  {| to_json := JFloat; of_json v := match v with JFloat x => Some x | _ => None end |}.
#[export] Instance json_string : Json string :=
  {| to_json := JString; of_json v := match v with JString s => Some s | _ => None end |}.
#[export] Instance json_list `{Json A} : Json (list A) :=
  {| to_json l := JList (to_json <$> l);
     of_json v := match v with JList l => mapM of_json l | _ => None end |}.
#[export] Instance json_dict `{Json A} : Json (pydict string A) :=
  {| to_json d := JObject (prod_map id to_json <$> d);
     of_json v := match v with
                  | JObject d => mapM (λ kv : string * json, pair kv.1 <$> of_json kv.2) d
                  | _ => None
                  end |}.
(** [None] is [null]; no other object of the fields is. *)
#[export] Instance json_option `{Json A} : Json (option A) :=
  {| to_json o := match o with Some x => to_json x | None => JNull end;
     of_json v := match v with JNull => Some None | _ => Some <$> of_json v end |}.
#[export] Instance json_operation : Json ESOperation :=
  {| to_json o := JObject (to_dict o);
     of_json v := match v with
                  | JObject d => match from_dict d with Ok o => Some o | _ => None end
                  | _ => None
                  end |}.

(** ** Classes *)

(** File, Manager, Executable. *)
Record FileObject : Type := mkFileObject {
  filename : string;
  digest : string;
}.

Definition FileDict : Type := pydict string FileObject.

Record Job : Type := mkJob {
  operation : option ESOperation;
  task_type : string;
  task_type_parameters : json;
  language : option string;
  multithreaded_sandbox : bool;
  shard : option Z;
  keep_sandbox : bool;
  sandboxes : list string;
  info : string;
  success : option bool;
  text : option (list string);
  files : FileDict;
  managers : FileDict;
  executables : FileDict;
}.

Record CompilationJob : Type := mkCompilationJob {
  cj_job :> Job;
  compilation_success : option bool;
  cj_plus : option (pydict string json);
}.

(** The fields that EvaluationJob and MatchJob both add. *)
Record EvaluationData : Type := mkEvaluationData {
  input : option string;
  output : option string;
  time_limit : option float;
  memory_limit : option Z;
  outcome : option string;
  user_output : option string;
  plus : option (pydict string json);
  only_execution : bool;
  get_output : bool;
}.

Record EvaluationJob : Type := mkEvaluationJob {
  ej_job :> Job;
  ej_data : EvaluationData;
}.

Record MatchJob : Type := mkMatchJob {
  mj_job :> Job;
  language_list : list (option string);
  executables_list : list FileDict;
  files_list : list FileDict;
  mj_data : EvaluationData;
}.

(** A job of some class. *)
Inductive AnyJob : Type :=
  | JCompilation (j : CompilationJob)
  | JEvaluation (j : EvaluationJob)
  | JMatch (j : MatchJob).

Definition base_of (j : AnyJob) : Job :=
  match j with
  | JCompilation j => cj_job j
  | JEvaluation j => ej_job j
  | JMatch j => mj_job j
  end.

(** ** Export *)

(** [dict((k, v.digest) for k, v in d.items())] *)
Definition digests (d : FileDict) : pydict string string := prod_map id digest <$> d.

Definition export_base (j : Job) : pydict string json :=
  [("operation", to_json (operation j));
   ("task_type", to_json (task_type j));
   ("task_type_parameters", task_type_parameters j);
   ("language", to_json (language j));
   ("multithreaded_sandbox", to_json (multithreaded_sandbox j));
   ("shard", to_json (shard j));
   ("keep_sandbox", to_json (keep_sandbox j));
   ("sandboxes", to_json (sandboxes j));
   ("info", to_json (info j));
   ("success", to_json (success j));
   ("text", to_json (text j));
   ("files", to_json (digests (files j)));
   ("managers", to_json (digests (managers j)));
   ("executables", to_json (digests (executables j)))].

Definition export_data (d : EvaluationData) : pydict string json :=
  [("input", to_json (input d));
   ("output", to_json (output d));
   ("time_limit", to_json (time_limit d));
   ("memory_limit", to_json (memory_limit d));
   ("outcome", to_json (outcome d));
   ("user_output", to_json (user_output d));
   ("plus", to_json (plus d));
   ("only_execution", to_json (only_execution d));
   ("get_output", to_json (get_output d))].

(** [res.update(...)] with keys that [res] does not have. *)
Definition export_to_dict (j : AnyJob) : pydict string json :=
  match j with
  | JCompilation j =>
      export_base j ++
      [("type", JString "compilation"); ("compilation_success", to_json (compilation_success j));
       ("plus", to_json (cj_plus j))]
  | JEvaluation j => export_base j ++ [("type", JString "evaluation")] ++ export_data (ej_data j)
  | JMatch j =>
      export_base j ++
      [("type", JString "match"); ("language_list", to_json (language_list j));
       ("executables_list", to_json (digests <$> executables_list j));
       ("files_list", to_json (digests <$> files_list j))] ++
      export_data (mj_data j)
  end.

(** ** Import *)

(** [dict((k, Cls(k, v)) for k, v in d.items())] *)
Definition file_objects (d : pydict string string) : FileDict :=
  (λ kv, (kv.1, mkFileObject kv.1 kv.2)) <$> d.

(** [data[key]] *)
Definition item (data : pydict string json) (key : string) : res json :=
  or_raise KeyError (pd_get data key).

(** The value of the keyword argument [key] of a constructor called with the
    dictionary; a value of another type than the field's, which Python would
    store, is reported as [TypeError]. *)
Definition arg {A} `{Json A} (data : pydict string json) (key : string) (dflt : A) : res A :=
  match pd_get data key with
  | Some v => or_raise TypeError (of_json v)
  | None => Ok dflt
  end.

(** An argument whose default [None] stands for an empty value. *)
Definition arg_or_empty {A} `{Json A} (data : pydict string json) (key : string) (empty : A) : res A :=
  o ← arg data key None; Ok (default empty o).

(** An unexpected keyword argument. *)
Definition check_keywords (allowed : list string) (data : pydict string json) : res unit :=
  if decide (Forall (.∈ allowed) (pd_keys data)) then Ok tt else Raise TypeError.

Definition base_keywords : list string :=
  ["operation"; "task_type"; "task_type_parameters"; "language"; "multithreaded_sandbox"; "shard";
   "keep_sandbox"; "sandboxes"; "info"; "success"; "text"; "files"; "managers"; "executables"].
Definition data_keywords : list string :=
  ["input"; "output"; "time_limit"; "memory_limit"; "outcome"; "user_output"; "plus"; "only_execution";
   "get_output"].

(** A dictionary of objects given as a dictionary of digests. *)
Definition file_arg (data : pydict string json) (key : string) : res FileDict :=
  v ← item data key;
  d ← or_raise AttributeError (of_json v);
  Ok (file_objects d).

(** The call of the constructor of [Job], once the dictionaries of objects
    are built. *)
Definition import_base (data : pydict string json) (files managers executables : FileDict) : res Job :=
  operation ← arg data "operation" None;
  task_type ← arg_or_empty data "task_type" "";
  task_type_parameters ← arg data "task_type_parameters" JNull;
  language ← arg data "language" None;
  multithreaded_sandbox ← arg data "multithreaded_sandbox" false;
  shard ← arg data "shard" None;
  keep_sandbox ← arg data "keep_sandbox" false;
  sandboxes ← arg_or_empty data "sandboxes" [];
  info ← arg_or_empty data "info" "";
  success ← arg data "success" None;
  text ← arg data "text" None;
  Ok (mkJob operation task_type task_type_parameters language multithreaded_sandbox shard keep_sandbox
        sandboxes info success text files managers executables).

Definition import_data (data : pydict string json) : res EvaluationData :=
  input ← arg data "input" None;
  output ← arg data "output" None;
  time_limit ← arg data "time_limit" None;
  memory_limit ← arg data "memory_limit" None;
  outcome ← arg data "outcome" None;
  user_output ← arg data "user_output" None;
  plus ← arg data "plus" None;
  only_execution ← arg data "only_execution" false;
  get_output ← arg data "get_output" false;
  Ok (mkEvaluationData input output time_limit memory_limit outcome user_output plus only_execution
        get_output).

Definition import_compilation (data : pydict string json) : res CompilationJob :=
  _ ← item data "operation";
  files ← file_arg data "files";
  managers ← file_arg data "managers";
  executables ← file_arg data "executables";
  _ ← check_keywords (base_keywords ++ ["compilation_success"; "plus"]) data;
  job ← import_base data files managers executables;
  compilation_success ← arg data "compilation_success" None;
  plus ← arg data "plus" None;
  Ok (mkCompilationJob job compilation_success plus).

Definition import_evaluation (data : pydict string json) : res EvaluationJob :=
  _ ← item data "operation";
  files ← file_arg data "files";
  managers ← file_arg data "managers";
  executables ← file_arg data "executables";
  _ ← check_keywords (base_keywords ++ data_keywords) data;
  job ← import_base data files managers executables;
  d ← import_data data;
  Ok (mkEvaluationJob job d).

Definition file_list_arg (data : pydict string json) (key : string) : res (list FileDict) :=
  v ← item data key;
  l ← or_raise AttributeError (of_json v);
  Ok (file_objects <$> (l : list (pydict string string))).

(** [MatchJob.import_from_dict] leaves [files] and [executables] as they are
    in the dictionary: dictionaries of digests, which are dictionaries of
    objects only when they are empty. *)
Definition raw_files (data : pydict string json) (key : string) : res FileDict :=
  d ← arg_or_empty data key ([] : pydict string string);
  if decide (d = []) then Ok [] else Raise TypeError.

Definition import_match (data : pydict string json) : res MatchJob :=
  _ ← item data "operation";
  files_list ← file_list_arg data "files_list";
  managers ← file_arg data "managers";
  executables_list ← file_list_arg data "executables_list";
  _ ← check_keywords (base_keywords ++ ["language_list"; "executables_list"; "files_list"] ++ data_keywords)
        data;
  files ← raw_files data "files";
  executables ← raw_files data "executables";
  job ← import_base data files managers executables;
  language_list ← arg_or_empty data "language_list" [];
  d ← import_data data;
  Ok (mkMatchJob job language_list executables_list files_list d).

Definition import_from_dict_with_type (data : pydict string json) : res AnyJob :=
  type_ ← item data "type";
  let data := pd_del data "type" in
  match type_ with
  | JString "compilation" => j ← import_compilation data; Ok (JCompilation j)
  | JString "evaluation" => j ← import_evaluation data; Ok (JEvaluation j)
  | JString "match" => j ← import_match data; Ok (JMatch j)
  | _ => Raise (UserError "Exception")
  end.

(** ** JobGroup *)

Definition JobGroup : Type := list AnyJob.

Definition export_group (g : JobGroup) : pydict string json :=
  [("jobs", JList ((λ j, JObject (export_to_dict j)) <$> g))].

Fixpoint import_jobs (l : list json) : res (list AnyJob) :=
  match l with
  | [] => Ok []
  | JObject d :: l => j ← import_from_dict_with_type d; js ← import_jobs l; Ok (j :: js)
  | _ :: _ => Raise TypeError
  end.

Definition import_group (data : pydict string json) : res JobGroup :=
  v ← item data "jobs";
  match v with
  | JList l => import_jobs l
  | _ => Raise TypeError
  end.

(** ** Building a job *)

Section from_operation.
Context (LANGUAGES : list Language) (db : Db).

Definition get_contest (i : option Z) : option Contest :=
  head (filter (λ c, Some (co_id c) = i) (db_contests db)).

(** [any(get_language(l).requires_multithreading for l in languages)] *)
Fixpoint any_multithreaded (languages : list string) : res bool :=
  match languages with
  | [] => Ok false
  | l :: languages =>
      l ← get_language LANGUAGES l;
      if requires_multithreading l then Ok true else any_multithreaded languages
  end.

(** [_is_contest_multithreaded(task.contest)] *)
Definition task_multithreaded (task_id : Z) : res bool :=
  t ← or_raise AttributeError (get_task db task_id);
  c ← or_raise AttributeError (get_contest (task_contest_id t));
  any_multithreaded (co_languages c).

(** [dict(submission.files)] *)
Definition submission_files (s : Submission) : FileDict :=
  (λ f, (fi_filename f, mkFileObject (fi_filename f) (fi_digest f)))
    <$> filter (λ f, fi_submission_id f = sub_id s) (db_files db).

(** [dataset.testcases[codename]] *)
Definition testcase_of (d : Dataset) (codename : option string) : res Testcase :=
  or_raise KeyError (head (filter (λ t, Some (tc_codename t) = codename) (testcases db d))).

(** The input fields of a job, the results being empty. *)
Definition new_job (op : ESOperation) (d : Dataset) (language : option string) (multithreaded : bool)
    (files managers executables : FileDict) (info : string) : Job :=
  mkJob (Some op) (ds_task_type d) (JList (ds_task_type_parameters d)) language multithreaded None false
    [] info None None files managers executables.

Definition new_data (d : Dataset) (input output : option string) (only_execution get_output : bool)
    : EvaluationData :=
  mkEvaluationData input output (ds_time_limit d) (ds_memory_limit d) None None None only_execution
    get_output.

Definition compilation_from_submission (op : ESOperation) (s : Submission) (d : Dataset)
    : res CompilationJob :=
  if decide (type_ op ≠ COMPILATION) then Raise ValueError
  else
    multithreaded ← task_multithreaded (sub_task_id s);
    Ok (mkCompilationJob
          (new_job op d (sub_language s) multithreaded (submission_files s) (file_objects (ds_managers d))
             [] ("compile submission " +:+ pretty (sub_id s)))
          None None).

Definition evaluation_from_submission (op : ESOperation) (s : Submission) (d : Dataset)
    : res EvaluationJob :=
  if decide (type_ op ≠ EVALUATION) then Raise ValueError
  else
    multithreaded ← task_multithreaded (sub_task_id s);
    submission_result ← submission_get_result db s (Some d);
    submission_result ← or_raise AssertionError submission_result;
    testcase ← testcase_of d (testcase_codename op);
    Ok (mkEvaluationJob
          (new_job op d (sub_language s) multithreaded (submission_files s) (file_objects (ds_managers d))
             (file_objects (sr_executables submission_result))
             ("evaluate submission " +:+ pretty (sub_id s) +:+ " on testcase " +:+ tc_codename testcase))
          (new_data d (Some (tc_input testcase)) (Some (tc_output testcase)) false false)).

Definition from_match (op : ESOperation) (m : Match) (d : Dataset) : res MatchJob :=
  if decide (type_ op ≠ MATCH) then Raise ValueError
  else
    multithreaded ← task_multithreaded (m_task_id m);
    submission1 ← or_raise AttributeError (get_submission db (m_submission1_id m));
    submission2 ← or_raise AttributeError (get_submission db (m_submission2_id m));
    submission_result1 ← submission_get_result db submission1 (Some d);
    submission_result2 ← submission_get_result db submission2 (Some d);
    if decide (sub_task_id submission1 ≠ sub_task_id submission2) then Raise ValueError
    else
      testcase ← testcase_of d (testcase_codename op);
      submission_result1 ← or_raise AttributeError submission_result1;
      submission_result2 ← or_raise AttributeError submission_result2;
      Ok (mkMatchJob
            (new_job op d None multithreaded [] (file_objects (ds_managers d)) []
               ("evaluate match " +:+ pretty (m_id m) +:+ " between submission "
                +:+ pretty (sub_id submission1) +:+ " and submission " +:+ pretty (sub_id submission2)
                +:+ " on testcase " +:+ tc_codename testcase))
            [sub_language submission1; sub_language submission2]
            [file_objects (sr_executables submission_result1);
             file_objects (sr_executables submission_result2)]
            [submission_files submission1; submission_files submission2]
            (new_data d (Some (tc_input testcase)) (Some (tc_output testcase)) false false)).

(** The loop over [task_type.get_auto_managers()], which is a list for every
    task type; [l] is the language, if it is known. *)
Fixpoint add_auto_managers (l : option Language) (d : Dataset) (names : list string) (acc : pydict string string)
    : res (pydict string string) :=
  match names with
  | [] => Ok acc
  | manager_filename :: names =>
      manager_filename ←
        (match l with
         | Some l =>
             if endswith ".%l" manager_filename
             then e ← or_raise TypeError (source_extension l); Ok (replace ".%l" e manager_filename)
             else Ok manager_filename
         | None => Ok manager_filename
         end);
      digest ← or_raise KeyError (pd_get (ds_managers d) manager_filename);
      add_auto_managers l d names (pd_set acc manager_filename digest)
  end.

(** Copy the header files of the data set. *)
Definition add_headers (l : Language) (d : Dataset) (acc : pydict string string) : pydict string string :=
  foldl (λ acc kv, if existsb (λ h, endswith h kv.1) (header_extensions l)
                   then pd_set acc kv.1 kv.2 else acc)
    acc (ds_managers d).

(** [get_language(user_test.language)]; there is no language [None]. *)
Definition language_of (n : option string) : res Language :=
  match n with Some n => get_language LANGUAGES n | None => Raise KeyError end.

Definition compilation_from_user_test (op : ESOperation) (u : UserTest) (d : Dataset)
    : res CompilationJob :=
  if decide (type_ op ≠ USER_TEST_COMPILATION) then Raise ValueError
  else
    multithreaded ← task_multithreaded (ut_task_id u);
    let l := match language_of (ut_language u) with Ok l => Some l | _ => None end in
    task_type ← task_type_object d;
    managers ← add_auto_managers l d (get_auto_managers task_type) (ut_managers u);
    let managers := match l with Some l => add_headers l d managers | None => managers end in
    Ok (mkCompilationJob
          (new_job op d (ut_language u) multithreaded (file_objects (ut_files u)) (file_objects managers)
             [] ("compile user test " +:+ pretty (ut_id u)))
          None None).

Definition evaluation_from_user_test (op : ESOperation) (u : UserTest) (d : Dataset)
    : res EvaluationJob :=
  if decide (type_ op ≠ USER_TEST_EVALUATION) then Raise ValueError
  else
    multithreaded ← task_multithreaded (ut_task_id u);
    user_test_result ← user_test_get_result db u (Some d);
    user_test_result ← or_raise AssertionError user_test_result;
    l ← language_of (ut_language u);
    task_type ← task_type_object d;
    managers ← add_auto_managers (Some l) d (get_auto_managers task_type) (ut_managers u);
    Ok (mkEvaluationJob
          (new_job op d (ut_language u) multithreaded (file_objects (ut_files u)) (file_objects managers)
             (file_objects (utr_executables user_test_result))
             ("evaluate user test " +:+ pretty (ut_id u)))
          (new_data d (Some (ut_input u)) None true true)).

(** The object an operation refers to. *)
Inductive object : Type :=
  | OSubmission (s : Submission)
  | OMatch (m : Match)
  | OUserTest (u : UserTest).

Definition object_key (o : object) : Z :=
  match o with OSubmission s => sub_id s | OMatch m => m_id m | OUserTest u => ut_id u end.

(** [Job.from_operation]: [None] for the type of operation that has no job.
    The caller passes an object of the class that the type asks for. *)
Definition from_operation (op : ESOperation) (o : object) (d : Dataset) : res (option AnyJob) :=
  if decide (object_id op ≠ object_key o) then Raise ValueError
  else if decide (dataset_id op ≠ ds_id d) then Raise ValueError
  else
    match type_ op, o with
    | COMPILATION, OSubmission s => j ← compilation_from_submission op s d; Ok (Some (JCompilation j))
    | EVALUATION, OSubmission s => j ← evaluation_from_submission op s d; Ok (Some (JEvaluation j))
    | MATCH, OMatch m => j ← from_match op m d; Ok (Some (JMatch j))
    | USER_TEST_COMPILATION, OUserTest u =>
        j ← compilation_from_user_test op u d; Ok (Some (JCompilation j))
    | USER_TEST_EVALUATION, OUserTest u =>
        j ← evaluation_from_user_test op u d; Ok (Some (JEvaluation j))
    | USER_TEST_MATCH, _ => Ok None
    | _, _ => Raise AttributeError
    end.

(** [X.get_from_id(operation.object_id, session)] *)
Definition object_of (op : ESOperation) : option object :=
  if for_submission op then OSubmission <$> get_submission db (object_id op)
  else if for_match op then OMatch <$> get_match db (object_id op)
  else OUserTest <$> get_user_test db (object_id op).

(** [JobGroup.from_operations]: an object that is not there has no [id]. *)
Fixpoint from_operations (operations : list ESOperation) : res (list (option AnyJob)) :=
  match operations with
  | [] => Ok []
  | op :: operations =>
      o ← or_raise AttributeError (object_of op);
      d ← or_raise AttributeError (get_dataset db (dataset_id op));
      j ← from_operation op o d;
      js ← from_operations operations;
      Ok (j :: js)
  end.

(** ** Writing the results of a job into the database

    What the flush of the session refuses (a null in a column that has none, a
    value of another type, two rows with the same key) is raised by the method
    whose assignment it refuses. *)

Definition IntegrityError : exn := UserError "IntegrityError".
Definition DataError : exn := UserError "DataError".

(** [self.plus.get(key)], stored in a column of floats, integers or text. *)
Definition plus_get (plus : option (pydict string json)) (key : string) : res json :=
  p ← or_raise AttributeError plus; Ok (default JNull (pd_get p key)).

Definition float_column (v : json) : res (option float) :=
  match v with
  | JNull => Ok None
  | JFloat x => Ok (Some x)
  | JInt n => Ok (Some (of_Z n))
  | _ => Raise DataError
  end.

Definition plus_float (plus : option (pydict string json)) (key : string) : res (option float) :=
  v ← plus_get plus key; float_column v.
Definition plus_int (plus : option (pydict string json)) (key : string) : res (option Z) :=
  v ← plus_get plus key; or_raise DataError (of_json v).
Definition plus_text (plus : option (pydict string json)) (key : string) : res (option string) :=
  v ← plus_get plus key; or_raise DataError (of_json v).

(** A column that is not nullable. *)
Definition not_null {A} (o : option A) : res A := or_raise IntegrityError o.

(** [for executable in self.executables.values(): result.executables.set(executable)] *)
Definition set_executables (d : FileDict) (acc : pydict string string) : pydict string string :=
  foldl (λ acc f, pd_set acc (filename f) (digest f)) acc (pd_values d).

Definition compilation_to_submission (j : CompilationJob) (sr : SubmissionResult) : res SubmissionResult :=
  let sr := SR.invalidate_compilation sr in
  let sr := match sr_submission_discarded sr with
            | Some _ => SR.set_compilation_outcome false sr
            | None => SR.set_compilation_outcome (default false (compilation_success j)) sr
            end in
  stdout ← plus_text (cj_plus j) "stdout";
  stderr ← plus_text (cj_plus j) "stderr";
  time ← plus_float (cj_plus j) "execution_time";
  wall_clock_time ← plus_float (cj_plus j) "execution_wall_clock_time";
  memory ← plus_int (cj_plus j) "execution_memory";
  text ← not_null (text j);
  Ok (mkSubmissionResult (sr_submission_id sr) (sr_dataset_id sr) (sr_compilation_outcome sr)
        text (sr_compilation_tries sr) stdout stderr time wall_clock_time memory
        (shard j) (Some (join_strings ":" (sandboxes j)))
        (sr_evaluation_outcome sr) (sr_submission_discarded sr) (sr_evaluation_tries sr)
        (sr_score sr) (sr_score_details sr) (sr_public_score sr) (sr_public_score_details sr)
        (sr_ranking_score_details sr)
        (set_executables (executables j) (sr_executables sr)) (sr_evaluations sr)).

Definition compilation_to_user_test (j : CompilationJob) (ur : UserTestResult) : res UserTestResult :=
  let ur := UTR.invalidate_compilation ur in
  let ur := UTR.set_compilation_outcome (default false (compilation_success j)) ur in
  stdout ← plus_text (cj_plus j) "stdout";
  stderr ← plus_text (cj_plus j) "stderr";
  time ← plus_float (cj_plus j) "execution_time";
  wall_clock_time ← plus_float (cj_plus j) "execution_wall_clock_time";
  memory ← plus_int (cj_plus j) "execution_memory";
  text ← not_null (text j);
  Ok (mkUserTestResult (utr_user_test_id ur) (utr_dataset_id ur) (utr_output ur)
        (utr_compilation_outcome ur) text (utr_compilation_tries ur) stdout stderr
        time wall_clock_time memory (shard j) (Some (join_strings ":" (sandboxes j)))
        (utr_evaluation_outcome ur) (utr_evaluation_text ur) (utr_evaluation_tries ur)
        (utr_execution_time ur) (utr_execution_wall_clock_time ur) (utr_execution_memory ur)
        (utr_evaluation_shard ur) (utr_evaluation_sandbox ur)
        (set_executables (executables j) (utr_executables ur))).

(** [result.dataset.testcases[self.operation.testcase_codename]] *)
Definition job_testcase (j : Job) (dataset_id : Z) : res Testcase :=
  d ← or_raise AttributeError (get_dataset db dataset_id);
  op ← or_raise AttributeError (operation j);
  testcase_of d (testcase_codename op).

Definition evaluation_to_submission (j : EvaluationJob) (sr : SubmissionResult) : res SubmissionResult :=
  time ← plus_float (plus (ej_data j)) "execution_time";
  wall_clock_time ← plus_float (plus (ej_data j)) "execution_wall_clock_time";
  memory ← plus_int (plus (ej_data j)) "execution_memory";
  t ← job_testcase j (sr_dataset_id sr);
  text ← not_null (text j);
  if decide (tc_id t ∈ ev_testcase_id <$> sr_evaluations sr) then Raise IntegrityError
  else Ok (SR.add_evaluation
             (mkEvaluation (sr_submission_id sr) (sr_dataset_id sr) (tc_id t) (outcome (ej_data j)) text
                time wall_clock_time memory (shard j) (Some (join_strings ":" (sandboxes j)))) sr).

Definition evaluation_to_user_test (j : EvaluationJob) (ur : UserTestResult) : res UserTestResult :=
  let ur := UTR.set_evaluation_outcome (UTR.invalidate_evaluation ur) in
  time ← plus_float (plus (ej_data j)) "execution_time";
  wall_clock_time ← plus_float (plus (ej_data j)) "execution_wall_clock_time";
  memory ← plus_int (plus (ej_data j)) "execution_memory";
  text ← not_null (text j);
  Ok (mkUserTestResult (utr_user_test_id ur) (utr_dataset_id ur) (user_output (ej_data j))
        (utr_compilation_outcome ur) (utr_compilation_text ur) (utr_compilation_tries ur)
        (utr_compilation_stdout ur) (utr_compilation_stderr ur)
        (utr_compilation_time ur) (utr_compilation_wall_clock_time ur) (utr_compilation_memory ur)
        (utr_compilation_shard ur) (utr_compilation_sandbox ur)
        (utr_evaluation_outcome ur) text (utr_evaluation_tries ur)
        time wall_clock_time memory (shard j) (Some (join_strings ":" (sandboxes j)))
        (utr_executables ur)).

Definition to_match (j : MatchJob) (mr : MatchResult) : res MatchResult :=
  t ← job_testcase j (mr_dataset_id mr);
  text ← not_null (text j);
  if decide (tc_id t ∈ mg_testcase_id <$> mr_matchings mr) then Raise IntegrityError
  else Ok (MR.add_matching
             (mkMatching (mr_match_id mr) (mr_dataset_id mr) (tc_id t) (outcome (mj_data j)) text) mr).
End from_operation.

(** ** Codecs *)

(** The texts of a type never read as [null]. *)
Class NotNull (A : Type) `{Json A} := not_null_json (x : A) : to_json x ≠ JNull.

#[export] Instance json_json_ok : JsonOk json.
Proof. done. Qed.
#[export] Instance json_bool_ok : JsonOk bool.
Proof. done. Qed.
#[export] Instance json_Z_ok : JsonOk Z.
Proof. done. Qed.
#[export] Instance json_float_ok : JsonOk float.
Proof. done. Qed.
#[export] Instance json_string_ok : JsonOk string.
Proof. done. Qed.

Lemma mapM_fmap_inverse {A B} (f : A → B) (g : B → option A) (l : list A) :
  (∀ x, g (f x) = Some x) → mapM g (f <$> l) = Some l.
Proof. intros Hg. induction l as [|x l IH]; [done|]. cbn. by rewrite Hg, IH. Qed.

#[export] Instance json_list_ok `{JsonOk A} : JsonOk (list A).
Proof. intros l. cbn. apply mapM_fmap_inverse, of_to_json. Qed.

#[export] Instance json_dict_ok `{JsonOk A} : JsonOk (pydict string A).
Proof.
  intros d. cbn. apply mapM_fmap_inverse. intros [k x]. cbn. by rewrite of_to_json.
Qed.

#[export] Instance json_option_ok `{JsonOk A, !NotNull A} : JsonOk (option A).
Proof.
  intros [x|]; [|done]. pose proof (not_null_json x). cbn.
  destruct (to_json x) eqn:Hx; [done|..]; by rewrite <- Hx, of_to_json.
Qed.

#[export] Instance json_operation_ok : JsonOk ESOperation.
Proof. intros o. cbn [to_json of_json json_operation]. by destruct o as [[] i d [c|]]. Qed.

#[export] Instance json_bool_not_null : NotNull bool.
Proof. done. Qed.
#[export] Instance json_Z_not_null : NotNull Z.
Proof. done. Qed.
#[export] Instance json_float_not_null : NotNull float.
Proof. done. Qed.
#[export] Instance json_string_not_null : NotNull string.
Proof. done. Qed.
#[export] Instance json_list_not_null `{Json A} : NotNull (list A).
Proof. done. Qed.
#[export] Instance json_dict_not_null `{Json A} : NotNull (pydict string A).
Proof. done. Qed.
#[export] Instance json_operation_not_null : NotNull ESOperation.
Proof. done. Qed.

(** ** Round trip *)

(** The keys are the names of the objects, as in a mapped collection. *)
Definition keyed (d : FileDict) : Prop := Forall (λ kv, filename kv.2 = kv.1) d.

Lemma file_objects_digests d : keyed d → file_objects (digests d) = d.
Proof.
  induction 1 as [|[k [n g]] d Hk _ IH]; [done|]. cbn in Hk. subst n.
  unfold digests, file_objects in *. csimpl. by f_equal.
Qed.

Lemma file_objects_keyed d : keyed (file_objects d).
Proof. apply Forall_fmap, Forall_true. done. Qed.

Lemma file_objects_list l : Forall keyed l → file_objects <$> (digests <$> l) = l.
Proof. induction 1 as [|d l Hd _ IH]; [done|]. csimpl. f_equal; [by apply file_objects_digests|done]. Qed.

(** A job that travels unchanged: its dictionaries are keyed by file names,
    and a match job has its files and executables in lists. *)
Definition job_ok (j : AnyJob) : Prop :=
  keyed (managers (base_of j)) ∧
  match j with
  | JMatch j => files j = [] ∧ executables j = [] ∧ Forall keyed (files_list j) ∧ Forall keyed (executables_list j)
  | _ => keyed (files (base_of j)) ∧ keyed (executables (base_of j))
  end.

Lemma arg_to_json `{JsonOk A} data key (x d : A) :
  pd_get data key = Some (to_json x) → arg data key d = Ok x.
Proof. unfold arg. intros ->. cbn. by rewrite of_to_json. Qed.

Lemma arg_or_empty_to_json `{JsonOk A, !NotNull A} data key (x empty : A) :
  pd_get data key = Some (to_json x) → arg_or_empty data key empty = Ok x.
Proof. unfold arg_or_empty. intros Hk. by rewrite (arg_to_json data key (Some x)). Qed.

Lemma file_arg_digests data key d :
  keyed d → pd_get data key = Some (to_json (digests d)) → file_arg data key = Ok d.
Proof.
  unfold file_arg, item. intros Hd ->. cbn [or_raise mbind res_bind]. rewrite of_to_json. cbn.
  by rewrite file_objects_digests.
Qed.

Lemma file_list_arg_digests data key l :
  Forall keyed l → pd_get data key = Some (to_json (digests <$> l)) → file_list_arg data key = Ok l.
Proof.
  unfold file_list_arg, item. intros Hl ->. cbn [or_raise mbind res_bind]. rewrite of_to_json. cbn.
  by rewrite file_objects_list.
Qed.

(** The dictionary has all the items of [d]. *)
Definition agrees (data d : pydict string json) : Prop := Forall (λ kv, pd_get data kv.1 = Some kv.2) d.

(** Read one argument of a constructor. *)
Ltac read_arg H :=
  lazymatch type of H with
  | pd_get ?d ?k = Some (to_json ?x) =>
      first [rewrite (arg_to_json d k x _ H) | rewrite (arg_or_empty_to_json d k x _ H)];
      cbn [mbind res_bind]
  end.

Lemma import_base_export (j : Job) data fs ms es :
  agrees data (export_base j) → files j = fs → managers j = ms → executables j = es →
  import_base data fs ms es = Ok j.
Proof.
  intros Ha <- <- <-. unfold agrees, export_base in Ha. rewrite !Forall_cons in Ha. cbn [fst snd] in Ha.
  destruct Ha as (H1 & H2 & H3 & H4 & H5 & H6 & H7 & H8 & H9 & H10 & H11 & _).
  change (task_type_parameters j) with (to_json (task_type_parameters j)) in H3. unfold import_base.
  read_arg H1. read_arg H2. read_arg H3. read_arg H4. read_arg H5. read_arg H6. read_arg H7.
  read_arg H8. read_arg H9. read_arg H10. read_arg H11. by destruct j.
Qed.

Lemma import_data_export d data : agrees data (export_data d) → import_data data = Ok d.
Proof.
  intros Ha. unfold agrees, export_data in Ha. rewrite !Forall_cons in Ha. cbn [fst snd] in Ha.
  destruct Ha as (H1 & H2 & H3 & H4 & H5 & H6 & H7 & H8 & H9 & _). unfold import_data.
  read_arg H1. read_arg H2. read_arg H3. read_arg H4. read_arg H5. read_arg H6. read_arg H7.
  read_arg H8. read_arg H9. by destruct d.
Qed.

Ltac agree := repeat (apply Forall_cons; split; [reflexivity|]); apply Forall_nil; exact I.

Section import_export.
(** The dictionary that the constructors get. *)
Let sent (j : AnyJob) : pydict string json := pd_del (export_to_dict j) "type".

Lemma import_compilation_export (j : CompilationJob) :
  job_ok (JCompilation j) → import_compilation (sent (JCompilation j)) = Ok j.
Proof.
  intros (Hm & Hf & He). set (data := sent _). unfold import_compilation.
  change (item data "operation") with (Ok (to_json (operation j))). cbn [mbind res_bind].
  rewrite (file_arg_digests data "files" (files j)), (file_arg_digests data "managers" (managers j)),
    (file_arg_digests data "executables" (executables j)) by done. cbn [mbind res_bind].
  change (check_keywords _ data) with (Ok tt). cbn [mbind res_bind].
  rewrite (import_base_export j) by (try done; agree). cbn [mbind res_bind].
  rewrite (arg_to_json data "compilation_success" (compilation_success j)) by done. cbn [mbind res_bind].
  rewrite (arg_to_json data "plus" (cj_plus j)) by done. by destruct j.
Qed.

Lemma import_evaluation_export (j : EvaluationJob) :
  job_ok (JEvaluation j) → import_evaluation (sent (JEvaluation j)) = Ok j.
Proof.
  intros (Hm & Hf & He). set (data := sent _). unfold import_evaluation.
  change (item data "operation") with (Ok (to_json (operation j))). cbn [mbind res_bind].
  rewrite (file_arg_digests data "files" (files j)), (file_arg_digests data "managers" (managers j)),
    (file_arg_digests data "executables" (executables j)) by done. cbn [mbind res_bind].
  change (check_keywords _ data) with (Ok tt). cbn [mbind res_bind].
  rewrite (import_base_export j) by (try done; agree). cbn [mbind res_bind].
  rewrite (import_data_export (ej_data j)) by agree. by destruct j.
Qed.

Lemma import_match_export (j : MatchJob) : job_ok (JMatch j) → import_match (sent (JMatch j)) = Ok j.
Proof.
  intros (Hm & Hf & He & Hfl & Hel). set (data := sent _). unfold import_match.
  change (item data "operation") with (Ok (to_json (operation j))). cbn [mbind res_bind].
  rewrite (file_list_arg_digests data "files_list" (files_list j)),
    (file_arg_digests data "managers" (managers j)),
    (file_list_arg_digests data "executables_list" (executables_list j)) by done. cbn [mbind res_bind].
  change (check_keywords _ data) with (Ok tt). cbn [mbind res_bind].
  assert (∀ key, pd_get data key = Some (to_json (digests [])) → raw_files data key = Ok []) as Hraw.
  { intros key Hk. unfold raw_files. by rewrite (arg_or_empty_to_json data key _ _ Hk). }
  assert (pd_get data "files" = Some (to_json (digests (files j)))) as Hdf by done. rewrite Hf in Hdf.
  assert (pd_get data "executables" = Some (to_json (digests (executables j)))) as Hde by done.
  rewrite He in Hde. rewrite (Hraw _ Hdf), (Hraw _ Hde). cbn [mbind res_bind].
  rewrite (import_base_export j) by (try done; agree). cbn [mbind res_bind].
  rewrite (arg_or_empty_to_json data "language_list" (language_list j)) by done. cbn [mbind res_bind].
  rewrite (import_data_export (mj_data j)) by agree. by destruct j.
Qed.

Lemma import_export j : job_ok j → import_from_dict_with_type (export_to_dict j) = Ok j.
Proof.
  destruct j as [j|j|j]; intros Hj; unfold import_from_dict_with_type.
  - change (item _ "type") with (Ok (JString "compilation")). cbn [mbind res_bind].
    pose proof (import_compilation_export j Hj) as Hi. cbv delta [sent] beta in Hi. by rewrite Hi.
  - change (item _ "type") with (Ok (JString "evaluation")). cbn [mbind res_bind].
    pose proof (import_evaluation_export j Hj) as Hi. cbv delta [sent] beta in Hi. by rewrite Hi.
  - change (item _ "type") with (Ok (JString "match")). cbn [mbind res_bind].
    pose proof (import_match_export j Hj) as Hi. cbv delta [sent] beta in Hi. by rewrite Hi.
Qed.
End import_export.

Lemma import_jobs_export g :
  Forall job_ok g → import_jobs ((λ j, JObject (export_to_dict j)) <$> g) = Ok g.
Proof.
  induction 1 as [|j g Hj _ IH]; [done|]. csimpl. cbn [import_jobs]. rewrite import_export by done.
  cbn [mbind res_bind]. by rewrite IH.
Qed.

Lemma group_export g : Forall job_ok g → import_group (export_group g) = Ok g.
Proof. apply import_jobs_export. Qed.

(** ** The jobs that the service builds *)

Section built.
Context (LANGUAGES : list Language) (db : Db).

Lemma submission_files_keyed s : keyed (submission_files db s).
Proof. apply Forall_fmap, Forall_true. done. Qed.

Lemma from_operation_ok op o d j :
  from_operation LANGUAGES db op o d = Ok (Some j) →
  job_ok j ∧ operation (base_of j) = Some op ∧ task_type (base_of j) = ds_task_type d.
Proof.
  pose proof submission_files_keyed. pose proof file_objects_keyed.
  assert (keyed []) by constructor.
  unfold from_operation. repeat case_decide; try done.
  destruct (type_ op) eqn:Ht, o; try done; intros (j' & Hj' & [= <-])%res_bind_Ok;
    revert Hj'; unfold compilation_from_submission, evaluation_from_submission, from_match,
      compilation_from_user_test, evaluation_from_user_test; rewrite decide_False by congruence;
    intros Hj'; repeat (apply res_bind_Ok in Hj' as (? & _ & Hj')); try (case_decide; [done|]);
    repeat (apply res_bind_Ok in Hj' as (? & _ & Hj')); injection Hj' as <-;
    unfold job_ok; cbn [base_of cj_job ej_job mj_job new_job files managers executables files_list
      executables_list operation task_type]; split_and!; eauto using Forall_nil, Forall_cons_2.
Qed.

Lemma from_operation_Some op o d j :
  type_ op ≠ USER_TEST_MATCH → from_operation LANGUAGES db op o d = Ok j → is_Some j.
Proof.
  unfold from_operation. intros Ht. repeat case_decide; try done.
  destruct (type_ op), o; try done; intros (? & _ & [= <-])%res_bind_Ok; done.
Qed.

(** C34. Whatever jobs the evaluation service builds from operations, the
    worker that imports the exported group gets the same jobs, one for each
    operation in the same order; and so does the service when the worker sends
    them back, whatever results it has written into them, as long as their
    dictionaries are keyed by file names and a match job keeps its files and
    executables in its lists. *)
Theorem group_roundtrip :
  (∀ operations jobs, from_operations LANGUAGES db operations = Ok jobs →
     Forall (λ op, type_ op ≠ USER_TEST_MATCH) operations →
     ∃ g, jobs = Some <$> g ∧ import_group (export_group g) = Ok g ∧
       operation ∘ base_of <$> g = Some <$> operations) ∧
  (∀ g, Forall job_ok g → import_group (export_group g) = Ok g).
Proof.
  split; [|apply group_export].
  assert (∀ operations jobs, from_operations LANGUAGES db operations = Ok jobs →
    Forall (λ op, type_ op ≠ USER_TEST_MATCH) operations →
    ∃ g, jobs = Some <$> g ∧ Forall job_ok g ∧ operation ∘ base_of <$> g = Some <$> operations) as H.
  { induction operations as [|op operations IH]; intros jobs.
    - intros [= <-] _. exists []. done.
    - cbn [from_operations]. intros (o & _ & (d & _ & (j & Hj & (js & Hjs & [= <-])%res_bind_Ok)%res_bind_Ok)%res_bind_Ok)%res_bind_Ok
        [Ht Hts]%Forall_cons.
      destruct (from_operation_Some _ _ _ _ Ht Hj) as [j' ->].
      destruct (from_operation_ok _ _ _ _ Hj) as (Hok & Hop & _).
      destruct (IH _ Hjs Hts) as (g & -> & Hg & Hops). exists (j' :: g).
      split_and!; [done|by constructor|]. csimpl. by rewrite Hops, Hop. }
  intros operations jobs Hj Ht. destruct (H _ _ Hj Ht) as (g & -> & Hg & Hops).
  exists g. split_and!; [done|by apply group_export|done].
Qed.
End built.

(** The operations of a submission of the demonstration database. *)
Definition demo_operations : list ESOperation :=
  [mkESOperation COMPILATION 10 1 None; mkESOperation EVALUATION 10 1 (Some "a"%string)].

Lemma group_roundtrip_witness :
  ∃ jobs, from_operations cms_languages demo_db demo_operations = Ok jobs ∧ length jobs = 2 ∧
  Forall (λ op, type_ op ≠ USER_TEST_MATCH) demo_operations ∧
  ∃ g, jobs = Some <$> g ∧ import_group (export_group g) = Ok g ∧
    operation ∘ base_of <$> g = Some <$> demo_operations.
Proof.
  eexists. split; [vm_compute; reflexivity|]. split; [reflexivity|].
  assert (Forall (λ op, type_ op ≠ USER_TEST_MATCH) demo_operations) as Ht by (by repeat constructor).
  split; [exact Ht|].
  refine (proj1 (group_roundtrip cms_languages demo_db) demo_operations _ _ Ht).
  vm_compute. reflexivity.
Defined.
