(* ===== verification/EvalService.v ===== *)
(** * The evaluation service and the database
    (cms/service/EvaluationService.py, the handlers that EvalExecutor leaves
    out; cms/db/util.py)

    A handler runs in a session: it sees the committed rows with its own
    changes, and the others see them when it commits. [committed] is the
    database as the others see it, [pending] the changes of the session in
    progress, [view] what that session sees. A savepoint ([begin_nested])
    drops the changes made since it was opened when an exception goes through
    it; [commit] inside a savepoint only closes the savepoint, whose block
    then ends with an error, as SQLAlchemy does. The calls of other services
    are asynchronous and kept in [outbox]. Logging is left out. *)

From S2P Require Import Prelude PriorityQueue Executor WorkerPool PyFloat.
From S2P Require Import Database DbUtil EsOperations FlushingDict EvalExecutor Languages TaskTypes Job.

(** [Result(job, job.success)] *)
Record Result : Type := mkResult {
  job : AnyJob;
  job_success : bool;
}.

Inductive rpc : Set :=
  | NewEvaluation (submission_id dataset_id : Z)
  | MatchEnded (match_id : Z).

Section EvaluationService.
Context {Q : Type} `{!PQueue ESOperation Q}.

Record World : Type := mkWorld {
  committed : Db;
  pending : list (Db → Db);
  in_savepoint : bool;
  dispatcher : Dispatcher Q Result;
  outbox : list rpc;
}.

Definition set_session (c : Db) (p : list (Db → Db)) (b : bool) (w : World) : World :=
  mkWorld c p b (dispatcher w) (outbox w).
Definition set_pending (p : list (Db → Db)) (w : World) : World :=
  set_session (committed w) p (in_savepoint w) w.
Definition set_dispatcher (ds : Dispatcher Q Result) (w : World) : World :=
  mkWorld (committed w) (pending w) (in_savepoint w) ds (outbox w).
Definition set_outbox (l : list rpc) (w : World) : World :=
  mkWorld (committed w) (pending w) (in_savepoint w) (dispatcher w) l.

(** ** Sessions *)

Definition apply_all (l : list (Db → Db)) (db : Db) : Db := foldl (λ db f, f db) db l.

Definition view (w : World) : Db := apply_all (pending w) (committed w).

(** A query, or the value of an attribute. *)
Definition query {A} (f : Db → A) : M World A := gets (λ w, f (view w)).

(** A query or an attribute that may raise. *)
Definition query_res {A} (f : Db → res A) : M World A := r ← query f; lift r.

Definition update (f : Db → Db) : M World unit := modify (λ w, set_pending (pending w ++ [f]) w).

(** [session.commit()] *)
Definition commit : M World unit :=
  modify (λ w, if in_savepoint w then set_session (committed w) (pending w) false w
               else set_session (view w) [] false w).

(** [with SessionGen() as session: m] *)
Definition with_session {A} (m : M World A) : M World A := λ w,
  let '(r, w') := m (set_session (committed w) [] false w) in
  (r, set_session (committed w') (pending w) (in_savepoint w) w').

Definition InvalidRequestError : exn := UserError "InvalidRequestError".

(** [with session.begin_nested(): m] *)
Definition begin_nested {A} (m : M World A) : M World A := λ w,
  let '(r, w') := m (set_session (committed w) (pending w) true w) in
  if in_savepoint w' then
    (r, set_session (committed w')
          (match r with Ok _ => pending w' | _ => pending w end) (in_savepoint w) w')
  else
    (match r with Ok _ => Raise InvalidRequestError | r => r end,
     set_session (committed w') (pending w') (in_savepoint w) w').

(** *** Rows *)

Definition sr_key (r : SubmissionResult) : Z * Z := (sr_submission_id r, sr_dataset_id r).
Definition mr_key (r : MatchResult) : Z * Z := (mr_match_id r, mr_dataset_id r).
Definition utr_key (r : UserTestResult) : Z * Z := (utr_user_test_id r, utr_dataset_id r).

(** Replace the row with a key. *)
Definition on_row {A} (key : A → Z * Z) (k : Z * Z) (f : A → A) (l : list A) : list A :=
  (λ x, if decide (key x = k) then f x else x) <$> l.

(** A new row. Its key is not in the table: a row is only added when the
    session has just looked for it in vain ([insert_row_absent]). That another
    service adds the same row between the query and the commit, which would
    make the commit raise IntegrityError, is left out with all interleaving
    inside a handler; a change is a total function on the database, and this
    one does nothing then. *)
Definition insert_row {A} (key : A → Z * Z) (x : A) (l : list A) : list A :=
  if decide (key x ∈ key <$> l) then l else l ++ [x].

Lemma insert_row_absent {A} (key : A → Z * Z) x l :
  (∀ y, y ∈ l → key y ≠ key x) → insert_row key x l = l ++ [x].
Proof.
  intros H. unfold insert_row. rewrite decide_False; [done|].
  intros (y & Hk & Hy)%list_elem_of_fmap. by apply (H y Hy).
Qed.

Definition change_sr (k : Z * Z) (f : SubmissionResult → SubmissionResult) : M World unit :=
  update (with_results (on_row sr_key k f)).
Definition change_mr (k : Z * Z) (f : MatchResult → MatchResult) : M World unit :=
  update (with_match_results (on_row mr_key k f)).
Definition change_utr (k : Z * Z) (f : UserTestResult → UserTestResult) : M World unit :=
  update (with_user_test_results (on_row utr_key k f)).

(** [submission.get_result_or_create(dataset)]: the key of the row, which is
    inserted if it is not there. *)
Definition ensure_submission_result (s : Submission) (d : Dataset) : M World (Z * Z) :=
  r ← query_res (λ db, submission_get_result db s (Some d));
  _ ← match r with
      | Some _ => mret tt
      | None => update (with_results (insert_row sr_key (SR.new (sub_id s) (ds_id d))))
      end;
  mret (sub_id s, ds_id d).

Definition ensure_match_result (m : Match) (d : Dataset) : M World (Z * Z) :=
  r ← query_res (λ db, match_get_result db m (Some d));
  _ ← match r with
      | Some _ => mret tt
      | None => update (with_match_results (insert_row mr_key (MR.new (m_id m) (ds_id d))))
      end;
  mret (m_id m, ds_id d).

Definition ensure_user_test_result (u : UserTest) (d : Dataset) : M World (Z * Z) :=
  r ← query_res (λ db, user_test_get_result db u (Some d));
  _ ← match r with
      | Some _ => mret tt
      | None => update (with_user_test_results (insert_row utr_key (UTR.new (ut_id u) (ds_id d))))
      end;
  mret (ut_id u, ds_id d).

(** [X.get_from_id(key, session)], whose attribute is then read. *)
Definition the_sr (k : Z * Z) : M World SubmissionResult :=
  query_res (λ db, or_raise AttributeError (find_submission_result db k.1 (Some k.2))).
Definition the_mr (k : Z * Z) : M World MatchResult :=
  query_res (λ db, or_raise AttributeError (find_match_result db k.1 (Some k.2))).
Definition the_utr (k : Z * Z) : M World UserTestResult :=
  query_res (λ db, or_raise AttributeError (find_user_test_result db k.1 (Some k.2))).

Definition enqueue_operation (e : entry) : M World bool :=
  zoom dispatcher set_dispatcher (ds_enqueue e.1.1 e.1.2 e.2).

Definition call_service (c : rpc) : M World unit := modify (λ w, set_outbox (outbox w ++ [c]) w).

(** ** prepare_pvp_evaluation *)

(** A result, not compiled or waiting for a match, of another submission of
    the same participation on the same task, before ([true]) or after [s]. *)
Definition other_result (db : Db) (before : bool) (s : Submission) (r : SubmissionResult) : bool :=
  match get_submission db (sr_submission_id r), get_dataset db (sr_dataset_id r) with
  | Some s', Some d' =>
      holds (sql_or (SR.filter_pending d' s' r) (sql_is_none (sr_compilation_outcome r)))
      && bool_decide (sub_participation_id s' = sub_participation_id s)
      && bool_decide (sub_task_id s' = sub_task_id s)
      && (if before then (sub_timestamp s' <? sub_timestamp s)%Z
          else (sub_timestamp s <? sub_timestamp s')%Z)
  | _, _ => false
  end.

Definition other_results (db : Db) (before : bool) (s : Submission) : list SubmissionResult :=
  filter (other_result db before s) (db_submission_results db).

Definition dummy_evaluation (k : Z * Z) (t : Testcase) : Evaluation :=
  mkEvaluation k.1 k.2 (tc_id t) (Some "0.0"%string) [] None None None None None.

(** [session.add(Evaluation(...))]; an evaluation that another session has
    inserted meanwhile is not inserted again. *)
Definition insert_evaluation (e : Evaluation) (r : SubmissionResult) : SubmissionResult :=
  if decide (ev_testcase_id e ∈ ev_testcase_id <$> sr_evaluations r) then r else SR.add_evaluation e r.

Definition prepare_submission (op : ESOperation) (d : Dataset) (t : Testcase) (testcase_id : option Z)
    (s : Submission) : M World unit :=
  k ← ensure_submission_result s d;
  submission_result ← the_sr k;
  _ ← (if bool_decide (tc_id t ∉ ev_testcase_id <$> sr_evaluations submission_result)
          && (negb (is_some testcase_id) || bool_decide (testcase_id = Some (tc_id t)))
       then change_sr k (insert_evaluation (dummy_evaluation k t))
       else mret tt);
  if decide (type_ op = EVALUATION) then
    submission_results ← query (λ db, other_results db true s);
    after_submission_results ← query (λ db, other_results db false s);
    _ ← (if decide (after_submission_results ≠ []) then change_sr k SR.set_discarded else mret tt);
    _ ← for_each (λ sr, if SR.discarded sr then mret tt else change_sr (sr_key sr) SR.set_discarded)
          submission_results;
    commit
  else mret tt.

Definition prepare_pvp_evaluation (op : ESOperation) : M World unit :=
  with_session (
    d ← query (λ db, get_dataset db (dataset_id op));
    if decide (type_ op ≠ EVALUATION ∧ type_ op ≠ MATCH) then mret tt
    else
      d ← lift (or_raise AttributeError d);
      if decide (ds_task_type d ≠ "PvP"%string) then mret tt
      else
        t ← query_res (λ db, testcase_of db d (testcase_codename op));
        '(submissions, testcase_id) ←
          (if decide (type_ op = MATCH) then
             m ← query_res (λ db, or_raise AttributeError (get_match db (object_id op)));
             s1 ← query_res (λ db, or_raise AttributeError (get_submission db (m_submission1_id m)));
             s2 ← query_res (λ db, or_raise AttributeError (get_submission db (m_submission2_id m)));
             mret ([s1; s2], m_testcase_id m)
           else
             s ← query_res (λ db, or_raise AttributeError (get_submission db (object_id op)));
             mret ([s], None));
        _ ← for_each (prepare_submission op d t testcase_id) submissions;
        commit).

(** ** Enqueuing the operations of an object *)

(** [submission.dataset], that is [submission.task.active_dataset]. *)
Definition submission_dataset (db : Db) (s : Submission) : res Dataset :=
  t ← or_raise AttributeError (get_task db (sub_task_id s));
  i ← or_raise AttributeError (task_active_dataset_id t);
  or_raise AttributeError (get_dataset db i).

(** The body of the loops over the operations of submissions. *)
Definition enqueue_submission_operation (s : Submission) (n : Z) (e : entry) : M World Z :=
  d ← query_res (λ db, submission_dataset db s);
  pushed ← (if bool_decide (ds_task_type d ≠ "PvP"%string) || bool_decide (type_ e.1.1 = COMPILATION)
            then enqueue_operation e else mret false);
  if pushed : bool then mret (n + 1)%Z
  else _ ← prepare_pvp_evaluation e.1.1; mret n.

(** [evaluation_ended], given [submission_enqueue_operations]. *)
Definition evaluation_ended_with (enqueue_all : Submission → M World Z) (k : Z * Z) : M World unit :=
  sr ← the_sr k;
  s ← query_res (λ db, or_raise AttributeError (get_submission db (sr_submission_id sr)));
  _ ← (if SR.evaluated sr then call_service (NewEvaluation k.1 k.2) else mret tt);
  _ ← enqueue_all s;
  mret tt.

(** One data set to judge. *)
Definition enqueue_on_dataset (enqueue_all : Submission → M World Z) (s : Submission) (n : Z)
    (d : Dataset) : M World Z :=
  r ← query_res (λ db, submission_get_result db s (Some d));
  ops ← query (λ db, submission_get_operations db r s d);
  n ← for_acc (enqueue_submission_operation s) n ops;
  if bool_decide (ops = []) && submission_to_evaluate r then
    let k := (sub_id s, ds_id d) in
    _ ← change_sr k SR.set_evaluation_outcome;
    _ ← commit;
    _ ← evaluation_ended_with enqueue_all k;
    mret n
  else mret n.

Fixpoint submission_enqueue (fuel : nat) (s : Submission) : M World Z :=
  match fuel with
  | 0%nat => lift NoFuel
  | S fuel =>
      datasets ← query (λ db, get_datasets_to_judge db (sub_task_id s));
      for_acc (enqueue_on_dataset (submission_enqueue fuel) s) 0%Z datasets
  end.

(** Each call that the finalization of a result makes is for a result that
    will not be finalized again. *)
Definition judge_fuel (db : Db) : nat := S (List.length (db_datasets db)).

Definition submission_enqueue_operations (s : Submission) : M World Z :=
  fuel ← query judge_fuel; submission_enqueue fuel s.

Definition evaluation_ended (k : Z * Z) : M World unit :=
  evaluation_ended_with submission_enqueue_operations k.

Definition compilation_ended (k : Z * Z) : M World unit :=
  sr ← the_sr k;
  s ← query_res (λ db, or_raise AttributeError (get_submission db (sr_submission_id sr)));
  _ ← (if SR.compilation_succeeded sr then mret tt
       else if SR.compilation_failed sr then call_service (NewEvaluation k.1 k.2)
       else mret tt);
  _ ← submission_enqueue_operations s;
  mret tt.

(** Matches. *)

Definition enqueue_match_operation (n : Z) (e : entry) : M World Z :=
  pushed ← enqueue_operation e;
  if pushed : bool then _ ← prepare_pvp_evaluation e.1.1; mret (n + 1)%Z else mret n.

Definition match_ended_with (enqueue_all : Match → M World Z) (k : Z * Z) : M World unit :=
  mr ← the_mr k;
  m ← query_res (λ db, or_raise AttributeError (get_match db (mr_match_id mr)));
  _ ← (if MR.evaluated mr then call_service (MatchEnded (m_id m)) else mret tt);
  _ ← enqueue_all m;
  mret tt.

Definition enqueue_match_on_dataset (enqueue_all : Match → M World Z) (m : Match) (n : Z)
    (d : Dataset) : M World Z :=
  r ← query_res (λ db, match_get_result db m (Some d));
  ops ← query_res (λ db, match_get_operations db r m d);
  n ← for_acc enqueue_match_operation n ops;
  if bool_decide (ops = []) && match_to_evaluate r then
    let k := (m_id m, ds_id d) in
    _ ← change_mr k MR.set_evaluation_outcome;
    _ ← commit;
    _ ← match_ended_with enqueue_all k;
    mret n
  else mret n.

Fixpoint match_enqueue (fuel : nat) (m : Match) : M World Z :=
  match fuel with
  | 0%nat => lift NoFuel
  | S fuel =>
      datasets ← query (λ db, get_datasets_to_judge db (m_task_id m));
      for_acc (enqueue_match_on_dataset (match_enqueue fuel) m) 0%Z datasets
  end.

Definition match_enqueue_operations (m : Match) : M World Z :=
  fuel ← query judge_fuel; match_enqueue fuel m.

Definition es_match_ended (k : Z * Z) : M World unit := match_ended_with match_enqueue_operations k.

(** User tests. *)

Definition count_pushed (n : Z) (e : entry) : M World Z :=
  pushed ← enqueue_operation e; mret (if pushed : bool then n + 1 else n)%Z.

Definition user_test_enqueue_operations (u : UserTest) : M World Z :=
  datasets ← query (λ db, get_datasets_to_judge db (ut_task_id u));
  for_acc (λ n d, ops ← query_res (λ db, user_test_get_operations db u d); for_acc count_pushed n ops)
    0%Z datasets.

(** Both handlers for user tests only log before. *)
Definition user_test_ended (k : Z * Z) : M World unit :=
  ur ← the_utr k;
  u ← query_res (λ db, or_raise AttributeError (get_user_test db (utr_user_test_id ur)));
  _ ← user_test_enqueue_operations u;
  mret tt.

Definition user_test_compilation_ended : Z * Z → M World unit := user_test_ended.
Definition user_test_evaluation_ended : Z * Z → M World unit := user_test_ended.

(** ** The sweeper *)

Definition sweep_submission (n : Z) (e : entry) : M World Z :=
  s ← query_res (λ db, or_raise AttributeError (get_submission db (object_id e.1.1)));
  enqueue_submission_operation s n e.

Definition _missing_operations (contest_id : option Z) : M World Z :=
  with_session (
    ops ← query (λ db, get_submissions_operations db contest_id);
    n ← for_acc sweep_submission 0%Z ops;
    ops ← query (λ db, get_user_tests_operations db contest_id);
    n ← for_acc count_pushed n ops;
    ops ← query (λ db, get_match_operations db contest_id);
    for_acc enqueue_match_operation n ops).

(** ** New objects *)

Definition new_submission (submission_id : Z) : M World unit :=
  with_session (
    s ← query (λ db, get_submission db submission_id);
    match s with
    | None => mret tt
    | Some s => _ ← submission_enqueue_operations s; commit
    end).

Definition new_match (match_id : Z) : M World unit :=
  with_session (
    m ← query (λ db, get_match db match_id);
    match m with
    | None => mret tt
    | Some m => _ ← match_enqueue_operations m; commit
    end).

Definition new_user_test (user_test_id : Z) : M World unit :=
  with_session (
    u ← query (λ db, get_user_test db user_test_id);
    match u with
    | None => mret tt
    | Some u => _ ← user_test_enqueue_operations u; commit
    end).

(** ** Writing results *)

Definition job_plus (j : AnyJob) : option (pydict string json) :=
  match j with
  | JCompilation j => cj_plus j
  | JEvaluation j => plus (ej_data j)
  | JMatch j => plus (mj_data j)
  end.

(** [result.job.plus is not None and result.job.plus.get("tombstone") is True] *)
Definition tombstone (j : AnyJob) : bool :=
  match job_plus j with
  | Some p => match pd_get p "tombstone"%string with Some (JBool true) => true | _ => false end
  | None => false
  end.

(** [Digest.TOMBSTONE] *)
Definition TOMBSTONE : string := "x".

(** [result.job.to_submission(object_result)]: only two classes have it. *)
Definition job_to_submission (db : Db) (j : AnyJob) (sr : SubmissionResult) : Prelude.res SubmissionResult :=
  match j with
  | JCompilation j => compilation_to_submission j sr
  | JEvaluation j => evaluation_to_submission db j sr
  | JMatch _ => Raise AttributeError
  end.

(** [to_user_test] of MatchJob does nothing. *)
Definition job_to_user_test (j : AnyJob) (ur : UserTestResult) : Prelude.res UserTestResult :=
  match j with
  | JCompilation j => compilation_to_user_test j ur
  | JEvaluation j => evaluation_to_user_test j ur
  | JMatch _ => Ok ur
  end.

Definition job_to_match (db : Db) (j : AnyJob) (mr : MatchResult) : Prelude.res MatchResult :=
  match j with
  | JMatch j => to_match db j mr
  | _ => Raise AttributeError
  end.

(** A method of the job on the row with a key. *)
Definition write_sr (k : Z * Z) (f : Db → SubmissionResult → Prelude.res SubmissionResult) : M World unit :=
  sr ← the_sr k; sr' ← query_res (λ db, f db sr); change_sr k (λ _, sr').
Definition write_mr (k : Z * Z) (f : Db → MatchResult → Prelude.res MatchResult) : M World unit :=
  mr ← the_mr k; mr' ← query_res (λ db, f db mr); change_mr k (λ _, mr').
Definition write_utr (k : Z * Z) (f : Db → UserTestResult → Prelude.res UserTestResult) : M World unit :=
  ur ← the_utr k; ur' ← query_res (λ db, f db ur); change_utr k (λ _, ur').

Definition write_results_one_row (k : Z * Z) (op : ESOperation) (r : Result) : M World unit :=
  match type_ op with
  | COMPILATION =>
      if job_success r then write_sr k (λ db, job_to_submission db (job r))
      else change_sr k SR.add_compilation_try
  | EVALUATION =>
      if job_success r then write_sr k (λ db, job_to_submission db (job r))
      else if tombstone (job r) then
        sr ← the_sr k;
        if decide (TOMBSTONE ∈ pd_values (sr_executables sr)) then
          _ ← begin_nested (change_sr k SR.invalidate_compilation);
          s ← query_res (λ db, or_raise AttributeError (get_submission db (sr_submission_id sr)));
          _ ← submission_enqueue_operations s;
          mret tt
        else mret tt
      else change_sr k SR.add_evaluation_try
  | MATCH =>
      if job_success r then write_mr k (λ db, job_to_match db (job r))
      else if tombstone (job r) then mret tt
      else change_mr k MR.add_evaluation_try
  | USER_TEST_COMPILATION =>
      if job_success r then write_utr k (λ _, job_to_user_test (job r))
      else change_utr k (UTR.add_tries 1 0)
  | USER_TEST_EVALUATION =>
      if job_success r then write_utr k (λ _, job_to_user_test (job r))
      else change_utr k (UTR.add_tries 0 1)
  | USER_TEST_MATCH => mret tt
  end.

(** The exceptions are only logged. *)
Definition write_results_one_object_and_type (k : Z * Z) (operation_results : list (ESOperation * Result))
    : M World unit :=
  for_each (λ opr : ESOperation * Result,
    try_except (λ _, true) (begin_nested (write_results_one_row k opr.1 opr.2)) (mret tt))
    operation_results.

(** (type, object, data set) *)
Definition group_key : Type := op_type * Z * Z.

Definition group_key_of (op : ESOperation) : group_key := (type_ op, object_id op, dataset_id op).

(** [by_object_and_type] *)
Definition by_object_and_type (items : list (ESOperation * Result))
    : pydict group_key (list (ESOperation * Result)) :=
  foldl (λ acc item, let t := group_key_of item.1 in
                     pd_set acc t (default [] (pd_get acc t) ++ [item])) [] items.

(** The key of the result of an object on a data set, which is created if it
    is not there; nothing if the object is not in the database. *)
Definition ensure_result (type_ : op_type) (object_id : Z) (d : Dataset) : M World (option (Z * Z)) :=
  match type_ with
  | COMPILATION | EVALUATION =>
      s ← query (λ db, get_submission db object_id);
      match s with None => mret None | Some s => k ← ensure_submission_result s d; mret (Some k) end
  | MATCH =>
      m ← query (λ db, get_match db object_id);
      match m with None => mret None | Some m => k ← ensure_match_result m d; mret (Some k) end
  | _ =>
      u ← query (λ db, get_user_test db object_id);
      match u with None => mret None | Some u => k ← ensure_user_test_result u d; mret (Some k) end
  end.

(** The first loop of [write_results]. *)
Definition write_group (g : group_key * list (ESOperation * Result)) : M World unit :=
  let '(type_, object_id, dataset_id) := g.1 in
  d ← query (λ db, get_dataset db dataset_id);
  match d with
  | None => mret tt
  | Some d =>
      k ← ensure_result type_ object_id d;
      match k with
      | None => mret tt
      | Some k => write_results_one_object_and_type k g.2
      end
  end.

Definition num_testcases (db : Db) (dataset_id : Z) : nat :=
  List.length (filter (λ t, tc_dataset_id t = dataset_id) (db_testcases db)).

Definition num_evaluations (db : Db) (object_id dataset_id : Z) : nat :=
  List.length (filter (λ e, ev_dataset_id e = dataset_id ∧ ev_submission_id e = object_id)
                 (r ← db_submission_results db; sr_evaluations r)).

Definition num_matchings (db : Db) (object_id dataset_id : Z) : nat :=
  List.length (filter (λ g, mg_dataset_id g = dataset_id ∧ mg_match_id g = object_id)
                 (r ← db_match_results db; mr_matchings r)).

(** The second loop: the results that are complete. [num_testcases_per_dataset]
    is what the same query gave before. *)
Definition complete_group (t : group_key) : M World unit :=
  let '(type_, object_id, dataset_id) := t in
  let k := (object_id, dataset_id) in
  match type_ with
  | EVALUATION =>
      testcases ← query (λ db, num_testcases db dataset_id);
      evaluations ← query (λ db, num_evaluations db object_id dataset_id);
      if decide (evaluations = testcases) then
        _ ← the_sr k; change_sr k SR.set_evaluation_outcome
      else mret tt
  | MATCH =>
      testcases ← query (λ db, num_testcases db dataset_id);
      matchings ← query (λ db, num_matchings db object_id dataset_id);
      mr ← the_mr k;
      m ← query_res (λ db, or_raise AttributeError (get_match db (mr_match_id mr)));
      let need_matchings := if MR.single_testcase m then 1%nat else testcases in
      if decide (matchings = need_matchings) then change_mr k MR.set_evaluation_outcome else mret tt
  | _ => mret tt
  end.

(** The third loop: what follows the end of an operation. *)
Definition end_group (t : group_key) : M World unit :=
  let '(type_, object_id, dataset_id) := t in
  let k := (object_id, dataset_id) in
  match type_ with
  | COMPILATION => compilation_ended k
  | EVALUATION => sr ← the_sr k; if SR.evaluated sr then evaluation_ended k else mret tt
  | MATCH => mr ← the_mr k; if MR.evaluated mr then es_match_ended k else mret tt
  | USER_TEST_COMPILATION => user_test_compilation_ended k
  | USER_TEST_EVALUATION => user_test_evaluation_ended k
  | USER_TEST_MATCH => mret tt
  end.

Definition write_results (items : list (ESOperation * Result)) : M World unit :=
  let groups := by_object_and_type items in
  with_session (
    _ ← for_each write_group groups;
    _ ← commit;
    _ ← for_each complete_group (pd_keys groups);
    _ ← commit;
    for_each end_group (pd_keys groups)).

(** The result cache calls [write_results] with what it flushes. *)
Definition flush_results : M World unit :=
  flush (λ w, result_cache (dispatcher w))
    (λ c w, set_dispatcher (set_result_cache c (dispatcher w)) w) write_results.

(** ** Invalidation *)

Definition is_none {A} (o : option A) : bool := negb (is_some o).

Definition level_of_string (level : string) : Prelude.res EsOperations.level :=
  if decide (level = "compilation"%string) then Ok LCompilation
  else if decide (level = "evaluation"%string) then Ok LEvaluation
  else Raise ValueError.

Definition invalidate (l : EsOperations.level) : SubmissionResult → SubmissionResult :=
  match l with
  | LCompilation => SR.invalidate_compilation
  | LEvaluation => SR.invalidate_evaluation
  end.

(** [self_contest_id]: the contest that the service runs for. *)
Definition invalidate_submission (self_contest_id : option Z)
    (contest_id submission_id dataset_id participation_id task_id : option Z) (level : string)
    : M World unit :=
  l ← lift (level_of_string level);
  let contest_id := match contest_id with None => self_contest_id | Some c => Some c end in
  with_session (
    task_id ←
      (match dataset_id with
       | Some i =>
           if is_none task_id && is_none submission_id then
             d ← query_res (λ db, or_raise AttributeError (get_dataset db i)); mret (Some (ds_task_id d))
           else mret task_id
       | None => mret task_id
       end);
    submissions ← query_res (λ db,
      get_submissions db
        (if is_none participation_id && is_none task_id && is_none submission_id then contest_id else None)
        participation_id task_id submission_id);
    operations ← query (λ db, get_relevant_operations db l submissions dataset_id);
    _ ← for_each (λ op, zoom dispatcher set_dispatcher (forget_operation op)) operations;
    submission_results ← query_res (λ db,
      get_submission_results db
        (if is_none participation_id && is_none task_id && is_none submission_id && is_none dataset_id
         then contest_id else None)
        participation_id (if is_none dataset_id then task_id else None) submission_id dataset_id);
    _ ← for_each (λ sr, change_sr (sr_key sr) (invalidate l)) submission_results;
    _ ← for_each (λ s, _ ← submission_enqueue_operations s; mret tt) submissions;
    commit).
End EvaluationService.

Arguments World Q : clear implicits.
