(* ===== verification/EvalServiceRows.v ===== *)
(** * The rows that the evaluation service writes

    Whatever a handler of the evaluation service does, and however it ends,
    the database keeps its constraints, and a submission result that is marked
    as evaluated has exactly one evaluation on each testcase of its data set.

    [good st db] says so of a database whose other tables are those of [st];
    this file has the changes of the rows that keep it, EvalServiceSafe the
    handlers. *)

From S2P Require Import Prelude PriorityQueue Executor WorkerPool PyFloat.
From S2P Require Import Database DbUtil EsOperations FlushingDict EvalExecutor Languages TaskTypes Job.
From S2P Require Import EvalService.

(** The database without its results. *)
Definition static (db : Db) : Db :=
  with_results (λ _, []) (with_match_results (λ _, []) (with_user_test_results (λ _, []) db)).

(** ** Rows *)

(** The result of an object of the task [i] is on a data set of the task. *)
Definition dataset_ok (st : Db) (own dataset_id : Z) : Prop :=
  ∃ d, d ∈ db_datasets st ∧ ds_id d = dataset_id ∧ ds_task_id d = own.

(** The testcases of the data set with an id. *)
Definition testcases_of (st : Db) (dataset_id : Z) : list Testcase :=
  filter (λ t, tc_dataset_id t = dataset_id) (db_testcases st).

Record sr_ok (st : Db) (r : SubmissionResult) : Prop := {
  sr_ok_evaluations :
    Forall (λ e, ev_submission_id e = sr_submission_id r ∧ ev_dataset_id e = sr_dataset_id r)
      (sr_evaluations r);
  sr_ok_distinct : NoDup (ev_testcase_id <$> sr_evaluations r);
  sr_ok_testcases :
    Forall (λ i, i ∈ tc_id <$> testcases_of st (sr_dataset_id r)) (ev_testcase_id <$> sr_evaluations r);
  sr_ok_discard : discard_sound r;
  sr_ok_dataset s :
    s ∈ db_submissions st → sr_submission_id r = sub_id s →
    dataset_ok st (sub_task_id s) (sr_dataset_id r);
  sr_ok_complete :
    SR.evaluated r = true →
    Forall (λ i, i ∈ ev_testcase_id <$> sr_evaluations r) (tc_id <$> testcases_of st (sr_dataset_id r));
}.

Record mr_ok (st : Db) (r : MatchResult) : Prop := {
  mr_ok_matchings :
    Forall (λ g, mg_match_id g = mr_match_id r ∧ mg_dataset_id g = mr_dataset_id r) (mr_matchings r);
  mr_ok_dataset m :
    m ∈ db_matches st → mr_match_id r = m_id m → dataset_ok st (m_task_id m) (mr_dataset_id r);
}.

Record utr_ok (st : Db) (r : UserTestResult) : Prop := {
  utr_ok_dataset u :
    u ∈ db_user_tests st → utr_user_test_id r = ut_id u →
    dataset_ok st (ut_task_id u) (utr_dataset_id r);
}.

Record good (st db : Db) : Prop := {
  good_static : static db = st;
  good_sr_keys : NoDup (sr_key <$> db_submission_results db);
  good_sr : Forall (sr_ok st) (db_submission_results db);
  good_mr_keys : NoDup (mr_key <$> db_match_results db);
  good_mr : Forall (mr_ok st) (db_match_results db);
  good_utr_keys : NoDup (utr_key <$> db_user_test_results db);
  good_utr : Forall (utr_ok st) (db_user_test_results db);
}.

(** Every testcase of an evaluated submission has its evaluation. *)
Definition evaluated_complete (db : Db) : Prop :=
  ∀ r, r ∈ db_submission_results db →
    NoDup (ev_testcase_id <$> sr_evaluations r) ∧
    Forall (λ i, i ∈ tc_id <$> testcases_of db (sr_dataset_id r)) (ev_testcase_id <$> sr_evaluations r) ∧
    (SR.evaluated r = true →
     Forall (λ i, i ∈ ev_testcase_id <$> sr_evaluations r) (tc_id <$> testcases_of db (sr_dataset_id r))).

Lemma good_intro db : db_wf db → evaluated_complete db → good (static db) db.
Proof.
  intros Hwf Hc. split; [done|apply Hwf| |apply Hwf| |apply Hwf|].
  - apply Forall_forall. intros r Hr. destruct (Hc r Hr) as (H1 & H2 & H3). split; try done.
    + apply Forall_forall. intros e He. by apply (wf_evaluations db Hwf).
    + by apply (wf_discard db Hwf).
    + intros s Hs Hrs. by apply (wf_submission_result db Hwf r s).
  - apply Forall_forall. intros r Hr. split.
    + apply Forall_forall. intros g Hg. by apply (wf_matchings db Hwf).
    + intros m Hm Hrm. by apply (wf_match_result db Hwf r m).
  - apply Forall_forall. intros r Hr. split. intros u Hu Hru. by apply (wf_user_test_result db Hwf r u).
Qed.

(** The tables other than the results satisfy the constraints of [db_wf]. *)
Lemma static_tables db db' : static db' = static db →
  db_tasks db' = db_tasks db ∧ db_datasets db' = db_datasets db ∧ db_testcases db' = db_testcases db ∧
  db_submissions db' = db_submissions db ∧ db_matches db' = db_matches db ∧
  db_user_tests db' = db_user_tests db.
Proof. destruct db, db'. by intros [=]. Qed.

Lemma good_wf db db' : db_wf db → good (static db) db' → db_wf db' ∧ evaluated_complete db'.
Proof.
  intros Hwf Hg. destruct (static_tables _ _ (good_static _ _ Hg)) as (E1 & E2 & E3 & E4 & E5 & E6).
  pose proof (proj1 (Forall_forall _ _) (good_sr _ _ Hg)) as Hsr.
  pose proof (proj1 (Forall_forall _ _) (good_mr _ _ Hg)) as Hmr.
  pose proof (proj1 (Forall_forall _ _) (good_utr _ _ Hg)) as Hutr. split.
  - split; rewrite ?E1, ?E2, ?E3, ?E4, ?E5, ?E6; try apply Hwf; try apply Hg.
    + intros r e Hr. pose proof (sr_ok_evaluations _ _ (Hsr r Hr)) as He. rewrite Forall_forall in He. apply He.
    + intros r g Hr. pose proof (mr_ok_matchings _ _ (Hmr r Hr)) as He. rewrite Forall_forall in He. apply He.
    + intros r Hr. by apply (Hsr r Hr).
    + intros r s Hr Hs Hrs. by apply (sr_ok_dataset _ _ (Hsr r Hr) s).
    + intros r m Hr Hm Hrm. by apply (mr_ok_dataset _ _ (Hmr r Hr) m).
    + intros r u Hr Hu Hru. by apply (utr_ok_dataset _ _ (Hutr r Hr) u).
  - intros r Hr. destruct (Hsr r Hr) as [H1 H2 H3 H4 H5 H6]. unfold testcases_of in *. rewrite E3. done.
Qed.

(** ** Changes that keep a good database good *)

Lemma on_row_keys {A} (key : A → Z * Z) k f (l : list A) :
  (∀ x, x ∈ l → key x = k → key (f x) = k) → key <$> on_row key k f l = key <$> l.
Proof.
  unfold on_row. intros Hf. induction l as [|x l IH]; [done|]. csimpl. f_equal.
  - case_decide as Hk; [|done]. rewrite Hk. apply Hf; [by left|done].
  - apply IH. intros y Hy. apply Hf. by right.
Qed.

Lemma on_row_Forall {A} (key : A → Z * Z) k f (P : A → Prop) (l : list A) :
  (∀ x, x ∈ l → P x → key x = k → P (f x)) → Forall P l → Forall P (on_row key k f l).
Proof.
  intros Hf. rewrite !Forall_forall. intros Hl y (x & -> & Hx)%list_elem_of_fmap.
  case_decide; [apply Hf; auto|auto].
Qed.

Lemma insert_row_ok {A} (key : A → Z * Z) (P : A → Prop) x l :
  NoDup (key <$> l) → Forall P l → P x →
  NoDup (key <$> insert_row key x l) ∧ Forall P (insert_row key x l).
Proof.
  intros Hn Hl Hx. unfold insert_row. case_decide as Hk; [done|]. rewrite fmap_app. split.
  - apply NoDup_app. split_and!; [done| |apply NoDup_singleton].
    intros y Hy ->%list_elem_of_singleton. done.
  - apply Forall_app. split; [done|by apply Forall_singleton].
Qed.

Section rows.
Context (st : Db).

Definition preserves (f : Db → Db) : Prop := ∀ db, good st db → good st (f db).

Lemma good_sr_list f db :
  good st db →
  (∀ l, l = db_submission_results db → NoDup (sr_key <$> l) → Forall (sr_ok st) l →
   NoDup (sr_key <$> f l) ∧ Forall (sr_ok st) (f l)) →
  good st (with_results f db).
Proof. intros [H1 H2 H3 H4 H5 H6 H7] Hf. destruct (Hf _ eq_refl H2 H3). by split. Qed.

Lemma preserves_sr_list f :
  (∀ l, NoDup (sr_key <$> l) → Forall (sr_ok st) l → NoDup (sr_key <$> f l) ∧ Forall (sr_ok st) (f l)) →
  preserves (with_results f).
Proof. intros Hf db Hg. apply good_sr_list; [done|]. intros l _. apply Hf. Qed.

Lemma preserves_mr_list f :
  (∀ l, NoDup (mr_key <$> l) → Forall (mr_ok st) l → NoDup (mr_key <$> f l) ∧ Forall (mr_ok st) (f l)) →
  preserves (with_match_results f).
Proof. intros Hf db [H1 H2 H3 H4 H5 H6 H7]. destruct (Hf _ H4 H5). by split. Qed.

Lemma preserves_utr_list f :
  (∀ l, NoDup (utr_key <$> l) → Forall (utr_ok st) l → NoDup (utr_key <$> f l) ∧ Forall (utr_ok st) (f l)) →
  preserves (with_user_test_results f).
Proof. intros Hf db [H1 H2 H3 H4 H5 H6 H7]. destruct (Hf _ H6 H7). by split. Qed.

(** A change of the row with a key. *)
Definition row_change {A} (key : A → Z * Z) (ok : A → Prop) (k : Z * Z) (f : A → A) : Prop :=
  ∀ x, ok x → key x = k → ok (f x) ∧ key (f x) = k.

Lemma on_row_ok_in {A} (key : A → Z * Z) (ok : A → Prop) k f l :
  (∀ x, x ∈ l → ok x → key x = k → ok (f x) ∧ key (f x) = k) → NoDup (key <$> l) → Forall ok l →
  NoDup (key <$> on_row key k f l) ∧ Forall ok (on_row key k f l).
Proof.
  intros Hf Hn Hl. split.
  - rewrite on_row_keys; [done|]. intros x Hx Hk. apply Hf; [done| |done].
    by apply (proj1 (Forall_forall _ _) Hl).
  - apply on_row_Forall; [|done]. intros x Hin Hx Hk. by apply Hf.
Qed.

Lemma on_row_ok {A} (key : A → Z * Z) (ok : A → Prop) k f l :
  row_change key ok k f → NoDup (key <$> l) → Forall ok l →
  NoDup (key <$> on_row key k f l) ∧ Forall ok (on_row key k f l).
Proof. intros Hf. apply on_row_ok_in. intros x _. apply Hf. Qed.

Lemma preserves_change_sr k f : row_change sr_key (sr_ok st) k f → preserves (with_results (on_row sr_key k f)).
Proof. intros Hf. apply preserves_sr_list. intros l. by apply on_row_ok. Qed.
Lemma preserves_change_mr k f :
  row_change mr_key (mr_ok st) k f → preserves (with_match_results (on_row mr_key k f)).
Proof. intros Hf. apply preserves_mr_list. intros l. by apply on_row_ok. Qed.
Lemma preserves_change_utr k f :
  row_change utr_key (utr_ok st) k f → preserves (with_user_test_results (on_row utr_key k f)).
Proof. intros Hf. apply preserves_utr_list. intros l. by apply on_row_ok. Qed.

(** *** Rows of submission results *)

(** A row with the same evaluations and a sound outcome. *)
Lemma sr_ok_same r r' :
  sr_ok st r → sr_key r' = sr_key r → sr_evaluations r' = sr_evaluations r → discard_sound r' →
  (SR.evaluated r' = true → SR.evaluated r = true) → sr_ok st r'.
Proof.
  intros [H1 H2 H3 H4 H5 H6] [= Hk1 Hk2] He Hd Hev. split; rewrite ?He, ?Hk1, ?Hk2; auto.
Qed.

(** A row without evaluations. *)
Lemma sr_ok_blank r r' :
  sr_ok st r → sr_key r' = sr_key r → sr_evaluations r' = [] → discard_sound r' →
  SR.evaluated r' = false → sr_ok st r'.
Proof.
  intros [H1 H2 H3 H4 H5 H6] [= Hk1 Hk2] He Hd Hev.
  split; rewrite ?He, ?Hk1, ?Hk2; auto; try constructor. by rewrite Hev.
Qed.

Lemma invalidate_evaluation_ok r : sr_ok st r → sr_ok st (SR.invalidate_evaluation r).
Proof. intros Hr. apply (sr_ok_blank r); [done..|apply Hr|done]. Qed.

Lemma invalidate_compilation_ok r : sr_ok st r → sr_ok st (SR.invalidate_compilation r).
Proof. intros Hr. by apply (sr_ok_blank r). Qed.

Lemma set_discarded_ok r : sr_ok st r → sr_ok st (SR.set_discarded r).
Proof. intros Hr. by apply (sr_ok_same r). Qed.

Lemma add_compilation_try_ok r : sr_ok st r → sr_ok st (SR.add_compilation_try r).
Proof. intros Hr. apply (sr_ok_same r); [done..|apply Hr|done]. Qed.

Lemma add_evaluation_try_ok r : sr_ok st r → sr_ok st (SR.add_evaluation_try r).
Proof. intros Hr. apply (sr_ok_same r); [done..|apply Hr|done]. Qed.

Lemma add_evaluation_ok e r :
  sr_ok st r → ev_submission_id e = sr_submission_id r → ev_dataset_id e = sr_dataset_id r →
  (ev_testcase_id e ∉ ev_testcase_id <$> sr_evaluations r) →
  ev_testcase_id e ∈ tc_id <$> testcases_of st (sr_dataset_id r) → sr_ok st (SR.add_evaluation e r).
Proof.
  intros [H1 H2 H3 H4 H5 H6] Hs Hd Hn Ht.
  split; cbn [sr_evaluations SR.add_evaluation sr_submission_id sr_dataset_id] in *; rewrite ?fmap_app.
  - apply Forall_app. split; [done|]. by apply Forall_singleton.
  - apply NoDup_app. split_and!; [done| |apply NoDup_singleton]. intros i Hi ->%list_elem_of_singleton. done.
  - apply Forall_app. split; [done|]. by apply Forall_singleton.
  - done.
  - done.
  - intros Hev. eapply Forall_impl; [by apply H6|]. intros i Hi. apply elem_of_app. by left.
Qed.

Lemma insert_evaluation_ok e r :
  sr_ok st r → ev_submission_id e = sr_submission_id r → ev_dataset_id e = sr_dataset_id r →
  ev_testcase_id e ∈ tc_id <$> testcases_of st (sr_dataset_id r) → sr_ok st (insert_evaluation e r).
Proof. intros. unfold insert_evaluation. case_decide; [done|]. by apply add_evaluation_ok. Qed.

Lemma set_evaluation_outcome_ok r :
  sr_ok st r →
  Forall (λ i, i ∈ ev_testcase_id <$> sr_evaluations r) (tc_id <$> testcases_of st (sr_dataset_id r)) →
  sr_ok st (SR.set_evaluation_outcome r).
Proof. intros [H1 H2 H3 H4 H5 H6] Hc. by split. Qed.

Lemma new_sr_ok s d :
  NoDup (sub_id <$> db_submissions st) → s ∈ db_submissions st → d ∈ db_datasets st →
  sub_task_id s = ds_task_id d → sr_ok st (SR.new (sub_id s) (ds_id d)).
Proof.
  intros Hn Hs Hd Ht. split; cbn; try constructor; try done.
  intros s' Hs' Hk. assert (s' = s) as -> by (by eapply (key_unique sub_id)).
  by exists d.
Qed.
End rows.

(** *** What the jobs write *)

Lemma static_testcases db st i : static db = st → testcases_of st i = testcases_of db i.
Proof. by intros <-. Qed.

Lemma job_testcase_in db (j : Job) i t :
  job_testcase db j i = Ok t → tc_id t ∈ tc_id <$> testcases_of (static db) i.
Proof.
  unfold job_testcase, testcase_of, get_dataset, or_raise.
  destruct (head _) as [d|] eqn:Hd; [|done]. apply head_filter_in in Hd as [_ <-].
  cbn [mbind res_bind]. destruct (operation j); [|done]. cbn [mbind res_bind].
  destruct (head _) as [t'|] eqn:Ht; [|done]. intros [= ->].
  apply head_filter_in in Ht as [Ht _]. apply list_elem_of_fmap. exists t. split; [done|].
  unfold testcases in Ht. apply list_elem_of_filter in Ht as [Htd Ht]. by apply list_elem_of_filter.
Qed.

Ltac res_binds H :=
  repeat match type of H with
    | mbind _ _ = Ok _ => let E := fresh "Hb" in apply res_bind_Ok in H as (? & E & H)
    end.

Lemma compilation_to_submission_ok st j r r' :
  sr_ok st r → compilation_to_submission j r = Ok r' → sr_ok st r' ∧ sr_key r' = sr_key r.
Proof.
  intros Hr Hw. unfold compilation_to_submission in Hw. cbv zeta in Hw. res_binds Hw.
  injection Hw as <-.
  destruct r as [i d co ct cy so se cm cw cmem cs csb eo sd et sc scd ps psd rsd ex evs].
  split; [|by destruct sd].
  by apply (sr_ok_blank st _ _ Hr); destruct sd.
Qed.

Lemma evaluation_to_submission_ok st db j r r' :
  static db = st → sr_ok st r → evaluation_to_submission db j r = Ok r' →
  sr_ok st r' ∧ sr_key r' = sr_key r.
Proof.
  intros <- Hr Hw. unfold evaluation_to_submission in Hw. res_binds Hw. case_decide as Hn; [done|].
  injection Hw as <-. split; [|done]. apply add_evaluation_ok; try done. by eapply job_testcase_in.
Qed.

Lemma job_to_submission_ok st db j r r' :
  static db = st → sr_ok st r → job_to_submission db j r = Ok r' → sr_ok st r' ∧ sr_key r' = sr_key r.
Proof.
  destruct j; cbn; [eauto using compilation_to_submission_ok|by apply evaluation_to_submission_ok|done].
Qed.

Lemma to_match_ok st db j r r' :
  mr_ok st r → job_to_match db j r = Ok r' → mr_ok st r' ∧ mr_key r' = mr_key r.
Proof.
  destruct j as [j|j|j]; cbn; [done..|]. unfold to_match. intros [H1 H2] Hw. res_binds Hw.
  case_decide; [done|]. injection Hw as <-. split; [|done]. split; [|done].
  cbn. apply Forall_app. split; [done|]. by apply Forall_singleton.
Qed.

Lemma utr_ok_key st r r' : utr_ok st r → utr_key r' = utr_key r → utr_ok st r'.
Proof. intros [H] [= E1 E2]. split. by rewrite E1, E2. Qed.

Lemma mr_ok_same st r r' : mr_ok st r → mr_key r' = mr_key r → mr_matchings r' = mr_matchings r → mr_ok st r'.
Proof. intros [H1 H2] [= E1 E2] E. split; by rewrite ?E1, ?E2, ?E. Qed.

Lemma job_to_user_test_ok st j r r' :
  utr_ok st r → job_to_user_test j r = Ok r' → utr_ok st r' ∧ utr_key r' = utr_key r.
Proof.
  intros Hr Hw. assert (utr_key r' = utr_key r) as Hk; [|split; [by eapply utr_ok_key|done]].
  destruct j as [j|j|j]; cbn in Hw; [| |by injection Hw as ->];
    unfold compilation_to_user_test, evaluation_to_user_test in Hw; cbv zeta in Hw; res_binds Hw;
    by injection Hw as <-.
Qed.

