(* ===== verification/EvalServiceSafe.v ===== *)
(** * The handlers of the evaluation service keep the database

    [sound st w] extends [good st] to a session in progress: its changes keep
    every good database good that other sessions may have made of the
    committed one meanwhile. Those sessions ([prepare_pvp_evaluation]) only
    add results and evaluations: [grows]. *)

From S2P Require Import Prelude PriorityQueue Executor WorkerPool PyFloat.
From S2P Require Import Database DbUtil EsOperations FlushingDict EvalExecutor Languages TaskTypes Job.
From S2P Require Import EvalService EvalServiceRows.

(** ** More results *)

Definition ev_ids (r : SubmissionResult) : list Z := ev_testcase_id <$> sr_evaluations r.

(** The results of [a] are in [b], with their evaluations at least. *)
Definition grows (a b : Db) : Prop :=
  ∀ r, r ∈ db_submission_results a →
    ∃ r', r' ∈ db_submission_results b ∧ sr_key r' = sr_key r ∧ ev_ids r ⊆ ev_ids r'.

#[export] Instance grows_preorder : PreOrder grows.
Proof.
  split.
  - intros a r Hr. by exists r.
  - intros a b c Hab Hbc r Hr. destruct (Hab r Hr) as (r1 & H1 & <- & Hs1).
    destruct (Hbc r1 H1) as (r2 & H2 & <- & Hs2). exists r2. split_and!; [done..|]. by etrans.
Qed.

Definition monotone (f : Db → Db) : Prop := ∀ a b, grows a b → grows (f a) (f b).

Lemma monotone_same f : (∀ db, db_submission_results (f db) = db_submission_results db) → monotone f.
Proof. intros Hf a b Hab r. unfold grows in Hab. rewrite !Hf. apply Hab. Qed.

Lemma grows_same a b : db_submission_results b = db_submission_results a → grows a b.
Proof. intros H r Hr. exists r. by rewrite H. Qed.

Lemma monotone_change k f :
  (∀ x, sr_key x = k → sr_key (f x) = k) →
  (∀ x y, sr_key x = k → sr_key y = k → ev_ids x ⊆ ev_ids y → ev_ids (f x) ⊆ ev_ids (f y)) →
  monotone (with_results (on_row sr_key k f)).
Proof.
  intros Hk Hf a b Hab r. cbn [with_results db_submission_results]. unfold on_row.
  intros (x & -> & Hx)%list_elem_of_fmap. destruct (Hab x Hx) as (y & Hy & Hyk & Hs).
  exists (if decide (sr_key y = k) then f y else y).
  split; [apply list_elem_of_fmap; eauto|]. rewrite Hyk. case_decide as Hxk; [|done].
  split; [by rewrite !Hk by congruence|]. apply Hf; [congruence..|done].
Qed.

Lemma grows_change k f db :
  (∀ x, sr_key x = k → sr_key (f x) = k ∧ ev_ids x ⊆ ev_ids (f x)) →
  grows db (with_results (on_row sr_key k f) db).
Proof.
  intros Hf r Hr. exists (if decide (sr_key r = k) then f r else r). split.
  - cbn [with_results db_submission_results]. apply list_elem_of_fmap. eauto.
  - case_decide as Hk; [|done]. rewrite Hk. by apply Hf.
Qed.

Lemma monotone_insert x : ev_ids x = [] → monotone (with_results (insert_row sr_key x)).
Proof.
  intros Hx a b Hab r. cbn [with_results db_submission_results]. unfold insert_row.
  assert (∀ y, y ∈ db_submission_results b →
    y ∈ (if decide (sr_key x ∈ sr_key <$> db_submission_results b) then db_submission_results b
         else db_submission_results b ++ [x])) as Hb by (intros y Hy; case_decide; set_solver).
  intros Hr. assert (r ∈ db_submission_results a ∨ r = x) as [Ha| ->] by (case_decide; set_solver).
  - destruct (Hab r Ha) as (y & Hy & ?). exists y. split; [by apply Hb|done].
  - destruct (decide (sr_key x ∈ sr_key <$> db_submission_results b)) as [Hk|Hk].
    + apply list_elem_of_fmap in Hk as (y & Hk & Hy). exists y. split_and!; [done|done|].
      rewrite Hx. by intros i ?%elem_of_nil.
    + exists x. split; [set_solver|done].
Qed.

Lemma grows_insert x db : grows db (with_results (insert_row sr_key x) db).
Proof.
  intros r Hr. exists r. split; [|done]. cbn [with_results db_submission_results]. unfold insert_row.
  case_decide; set_solver.
Qed.

(** The evaluations of the result with a key are complete. *)
Definition complete_in (st : Db) (k : Z * Z) (db : Db) : Prop :=
  ∀ r, r ∈ db_submission_results db → sr_key r = k →
    Forall (λ i, i ∈ ev_ids r) (tc_id <$> testcases_of st k.2).

Lemma complete_in_grows st k a b r :
  NoDup (sr_key <$> db_submission_results b) → grows a b →
  r ∈ db_submission_results a → sr_key r = k → complete_in st k a → complete_in st k b.
Proof.
  intros Hn Hab Hr Hk Hc r' Hr' Hk'. destruct (Hab r Hr) as (r2 & Hr2 & Hk2 & Hs).
  assert (r' = r2) as -> by (eapply (key_unique sr_key); [exact Hn|done..|congruence]).
  eapply Forall_impl; [by apply (Hc r Hr)|]. intros i Hi. by apply Hs.
Qed.

(** ** Sessions *)

Section sessions.
Context {Q : Type} `{!PQueue ESOperation Q} (st : Db).
Implicit Types (w : World Q) (I : World Q → Prop).

Record sound w : Prop := {
  sound_committed : good st (committed w);
  sound_pending c : grows (committed w) c → good st c → good st (apply_all (pending w) c);
  sound_monotone : monotone (apply_all (pending w));
}.

(** A session that goes on: unless it has left the savepoint it was opened
    in, only nested sessions have committed. *)
Definition session (w0 w : World Q) : Prop :=
  sound w ∧ (in_savepoint w = true → in_savepoint w0 = true ∧ grows (committed w0) (committed w)).

(** A session that only adds. *)
Definition growing (c0 : Db) w : Prop :=
  sound w ∧ grows c0 (committed w) ∧ ∀ c, grows c (apply_all (pending w) c).

Definition add_change (f : Db → Db) w : World Q := set_pending (pending w ++ [f]) w.

Definition inflating (f : Db → Db) : Prop :=
  preserves st f ∧ monotone f ∧ ∀ c, grows c (f c).

(** What the handlers need of the condition on the session. *)
Record session_inv I : Prop := {
  inv_sound w : I w → sound w;
  inv_dispatcher w ds : I w → I (set_dispatcher ds w);
  inv_outbox w l : I w → I (set_outbox l w);
  inv_commit w : I w → I (commit w).2;
  inv_inflating f w : I w → inflating f → I (add_change f w);
  inv_nested w c : I w → grows (committed w) c → good st c →
    I (set_session c (pending w) (in_savepoint w) w);
}.

Lemma apply_add_change f w c :
  apply_all (pending (add_change f w)) c = f (apply_all (pending w) c).
Proof. unfold add_change, apply_all. cbn [set_pending set_session pending]. by rewrite foldl_app. Qed.

Lemma sound_view w : sound w → good st (view w).
Proof. intros [H1 H2 H3]. by apply H2. Qed.

(** A change that is allowed on what the session sees and more. *)
Lemma sound_change f w :
  sound w → (∀ v, grows (view w) v → good st v → good st (f v)) → monotone f → sound (add_change f w).
Proof.
  intros [H1 H2 H3] Hf Hm. split; [done|..].
  - intros c Hc Hg. rewrite apply_add_change. apply Hf; [by apply H3|by apply H2].
  - intros a b Hab. rewrite !apply_add_change. by apply Hm, H3.
Qed.

Lemma sound_nested w c :
  sound w → grows (committed w) c → good st c → sound (set_session c (pending w) (in_savepoint w) w).
Proof.
  intros [H1 H2 H3] Hc Hg. split; [done| |done]. intros c' Hc' Hg'. apply H2; [by etrans|done].
Qed.

Lemma sound_idle w : good st (committed w) → pending w = [] → sound w.
Proof. intros Hg Hp. split; rewrite ?Hp; [done..|]. by intros a b. Qed.

Lemma sound_commit w : sound w → sound (commit w).2.
Proof.
  intros Hw. unfold commit, modify. cbn. destruct (in_savepoint w).
  - split; apply Hw.
  - apply sound_idle; [by apply sound_view|done].
Qed.

Lemma session_session_inv w0 : session_inv (session w0).
Proof.
  split.
  - by intros w [H _].
  - intros w ds [[H1 H2 H3] H]. by split.
  - intros w l [[H1 H2 H3] H]. by split.
  - intros w [Hs H]. split; [by apply sound_commit|]. unfold commit, modify. cbn.
    by destruct (in_savepoint w).
  - intros f w [Hs H] (Hp & Hm & Hg). split; [|done]. apply sound_change; [done| |done]. intros v _. apply Hp.
  - intros w c [Hs H] Hc Hg. split; [by apply sound_nested|]. intros Hb. destruct (H Hb). split; [done|].
    by etrans.
Qed.

Lemma growing_session_inv c0 : session_inv (growing c0).
Proof.
  split.
  - by intros w [H _].
  - intros w ds [[H1 H2 H3] H]. by split.
  - intros w l [[H1 H2 H3] H]. by split.
  - intros w (Hs & Hc & Hg). split_and!; [by apply sound_commit|..]; unfold commit, modify; cbn;
      destruct (in_savepoint w); try done. cbn. etrans; [exact Hc|]. apply Hg.
  - intros f w (Hs & Hc & Hg) (Hp & Hm & Hf). split_and!; [|done|].
    + apply sound_change; [done| |done]. intros v _. apply Hp.
    + intros c. rewrite apply_add_change. etrans; [apply Hg|apply Hf].
  - intros w c (Hs & Hc & Hg) Hgc Hgd. split_and!; [by apply sound_nested| |done]. by etrans.
Qed.

(** However [m] ends, the condition holds; a result satisfies [R]. *)
Definition safe I {A} (m : M (World Q) A) (R : A → Prop) : Prop := triple I m (λ a w, I w ∧ R a) I.

Lemma session_change w0 f w :
  session w0 w → (∀ v, grows (view w) v → good st v → good st (f v)) → monotone f →
  session w0 (add_change f w).
Proof. intros [Hs H] Hf Hm. split; [by apply sound_change|done]. Qed.

Section rules.
Context (I : World Q → Prop) (HI : session_inv I).

Lemma safe_bind {A B} (m : M (World Q) A) (f : A → M (World Q) B) R R' :
  safe I m R → (∀ a, R a → safe I (f a) R') → safe I (m ≫= f) R'.
Proof. intros Hm Hf. eapply triple_bind; [exact Hm|]. intros a w [Hw Ha]. by apply (Hf a Ha). Qed.

Lemma safe_weaken {A} (m : M (World Q) A) (R R' : A → Prop) :
  safe I m R → (∀ a, R a → R' a) → safe I m R'.
Proof. intros Hm HR. eapply triple_consequence; [exact Hm|naive_solver..]. Qed.

Lemma safe_ret {A} (a : A) (R : A → Prop) : R a → safe I (mret a) R.
Proof. intros Ha w Hw. done. Qed.

Lemma safe_lift {A} (r : Prelude.res A) : safe I (lift r) (λ a, r = Ok a).
Proof. intros w Hw. cbn. by destruct r. Qed.

Lemma safe_query {A} (f : Db → A) : safe I (query f) (λ a, ∃ db, good st db ∧ a = f db).
Proof. intros w Hw. split; [done|]. exists (view w). split; [by apply sound_view, HI|done]. Qed.

Lemma safe_query_res {A} (f : Db → Prelude.res A) :
  safe I (query_res f) (λ a, ∃ db, good st db ∧ f db = Ok a).
Proof.
  unfold query_res. eapply safe_bind; [apply safe_query|]. intros r (db & Hdb & ->).
  eapply safe_weaken; [apply safe_lift|]. eauto.
Qed.

Lemma safe_inflating f : inflating f → safe I (update f) (λ _, True).
Proof. intros Hf w Hw. split; [|done]. by apply (inv_inflating I HI). Qed.

Lemma safe_commit : safe I commit (λ _, True).
Proof. intros w Hw. split; [|done]. by apply (inv_commit I HI). Qed.

Lemma safe_zoom {A} (m : M (Dispatcher Q Result) A) : safe I (zoom dispatcher set_dispatcher m) (λ _, True).
Proof.
  intros w Hw. unfold zoom. destruct (m _) as [r ds]. pose proof (inv_dispatcher I HI w ds Hw).
  by destruct r.
Qed.

Lemma safe_call_service c : safe I (call_service (Q:=Q) c) (λ _, True).
Proof. intros w Hw. split; [|done]. by apply (inv_outbox I HI). Qed.

Lemma safe_for_each {A} (f : A → M (World Q) unit) l :
  (∀ x, x ∈ l → safe I (f x) (λ _, True)) → safe I (for_each f l) (λ _, True).
Proof.
  induction l as [|x l IH]; intros Hf; cbn [for_each]; [by apply safe_ret|].
  eapply safe_bind; [apply Hf; by left|]. intros [] _. apply IH. intros y Hy. apply Hf. by right.
Qed.

Lemma safe_for_acc {A B} (f : B → A → M (World Q) B) acc l :
  (∀ acc x, x ∈ l → safe I (f acc x) (λ _, True)) → safe I (for_acc f acc l) (λ _, True).
Proof.
  revert acc. induction l as [|x l IH]; intros acc Hf; cbn [for_acc]; [by apply safe_ret|].
  eapply safe_bind; [apply Hf; by left|]. intros b _. apply IH. intros c y Hy. apply Hf. by right.
Qed.

(** A session inside the session that only adds. *)
Lemma safe_with_session {A} (m : M (World Q) A) R :
  (∀ c0, safe (growing c0) m R) → safe I (with_session m) R.
Proof.
  intros Hm w Hw. unfold with_session.
  pose proof (sound_committed w (inv_sound I HI w Hw)) as Hg.
  assert (growing (committed w) (set_session (committed w) [] false w)) as Hw0.
  { split_and!; [by apply sound_idle|done..]. }
  specialize (Hm (committed w) _ Hw0). destruct (m _) as [r w'].
  assert (growing (committed w) w' → I (set_session (committed w') (pending w) (in_savepoint w) w')) as Hend.
  { intros (Hs & Hc & _).
    apply (inv_nested I HI _ (committed w')) in Hw; [|done|by apply sound_committed].
    apply (inv_dispatcher I HI _ (dispatcher w')), (inv_outbox I HI _ (outbox w')) in Hw. exact Hw. }
  destruct r; [destruct Hm as [Hm Hr]; split; [by apply Hend|done]|by apply Hend..].
Qed.
End rules.
End sessions.

Create HintDb safe.
#[export] Hint Resolve safe_query safe_query_res safe_lift safe_commit safe_zoom safe_call_service : safe.

(** Walk through the code of a handler. *)
Ltac safe_step :=
  match goal with
  | |- safe _ (mret _) _ => by apply safe_ret
  | |- safe _ (_ ≫= _) _ => eapply safe_bind; [solve [eauto with safe]|cbv beta; intros]
  | |- safe _ (for_each _ _) _ => eapply safe_for_each; [done..|intros]
  | |- safe _ (for_acc _ _ _) _ => eapply safe_for_acc; [done..|intros]
  | |- safe _ (match ?x with _ => _ end) _ => destruct x eqn:?
  | |- safe _ _ (λ _, True) => solve [eapply safe_weaken; [eauto with safe|done]]
  end.

(** ** Handlers *)

(** An operation is for a data set of the task of its object. *)
Definition op_valid (st : Db) (op : ESOperation) : Prop :=
  ∀ d, d ∈ db_datasets st → ds_id d = dataset_id op →
  match type_ op with
  | COMPILATION | EVALUATION =>
      ∀ s, s ∈ db_submissions st → sub_id s = object_id op → sub_task_id s = ds_task_id d
  | MATCH => ∀ m, m ∈ db_matches st → m_id m = object_id op → m_task_id m = ds_task_id d
  | _ => ∀ u, u ∈ db_user_tests st → ut_id u = object_id op → ut_task_id u = ds_task_id d
  end.

(** The other tables: unique ids, and a match is between submissions to its
    task. *)
Record tables_ok (st : Db) : Prop := {
  tables_datasets : NoDup (ds_id <$> db_datasets st);
  tables_submissions : NoDup (sub_id <$> db_submissions st);
  tables_matches : NoDup (m_id <$> db_matches st);
  tables_user_tests : NoDup (ut_id <$> db_user_tests st);
  tables_match_task m s :
    m ∈ db_matches st → s ∈ db_submissions st →
    sub_id s = m_submission1_id m ∨ sub_id s = m_submission2_id m → sub_task_id s = m_task_id m;
}.

Section handlers.
Context {Q : Type} `{!PQueue ESOperation Q} (st : Db) (Hst : tables_ok st).
Implicit Types (w : World Q) (I : World Q → Prop).

(** A query sees the tables of [st]. *)
Lemma good_tables db : good st db →
  db_tasks db = db_tasks st ∧ db_datasets db = db_datasets st ∧ db_testcases db = db_testcases st ∧
  db_submissions db = db_submissions st ∧ db_matches db = db_matches st ∧
  db_user_tests db = db_user_tests st.
Proof. intros Hg. rewrite <- (good_static _ _ Hg). by destruct db. Qed.

Lemma or_raise_Some {A} e (o : option A) x : or_raise e o = Ok x ∨ o = Some x → o = Some x.
Proof. destruct o; intros [H|H]; by simplify_eq/=. Qed.

Lemma good_dataset db i d :
  good st db → or_raise AttributeError (get_dataset db i) = Ok d ∨ get_dataset db i = Some d →
  d ∈ db_datasets st ∧ ds_id d = i.
Proof.
  intros Hg [Hin Hi]%or_raise_Some%head_filter_in.
  by rewrite (proj1 (proj2 (good_tables db Hg))) in Hin.
Qed.

Lemma good_submission db i s :
  good st db → or_raise AttributeError (get_submission db i) = Ok s ∨ get_submission db i = Some s →
  s ∈ db_submissions st ∧ sub_id s = i.
Proof.
  intros Hg [Hin Hi]%or_raise_Some%head_filter_in.
  destruct (good_tables db Hg) as (_ & _ & _ & E & _). by rewrite E in Hin.
Qed.

Lemma good_match db i m :
  good st db → or_raise AttributeError (get_match db i) = Ok m ∨ get_match db i = Some m →
  m ∈ db_matches st ∧ m_id m = i.
Proof.
  intros Hg [Hin Hi]%or_raise_Some%head_filter_in.
  destruct (good_tables db Hg) as (_ & _ & _ & _ & E & _). by rewrite E in Hin.
Qed.

Lemma good_user_test db i u :
  good st db → or_raise AttributeError (get_user_test db i) = Ok u ∨ get_user_test db i = Some u →
  u ∈ db_user_tests st ∧ ut_id u = i.
Proof.
  intros Hg [Hin Hi]%or_raise_Some%head_filter_in.
  destruct (good_tables db Hg) as (_ & _ & _ & _ & _ & E). by rewrite E in Hin.
Qed.

Lemma good_testcase db d c t :
  good st db → testcase_of db d c = Ok t → tc_id t ∈ tc_id <$> testcases_of st (ds_id d).
Proof.
  intros Hg. unfold testcase_of, or_raise. destruct (head _) as [t'|] eqn:Ht; [|done]. intros [= ->].
  apply head_filter_in in Ht as [Ht _]. apply list_elem_of_fmap. exists t. split; [done|].
  unfold testcases in Ht. destruct (good_tables db Hg) as (_ & _ & E & _). by rewrite E in Ht.
Qed.

(** *** Rows that are added *)

Lemma inflating_insert_sr s d :
  s ∈ db_submissions st → d ∈ db_datasets st → sub_task_id s = ds_task_id d →
  inflating st (with_results (insert_row sr_key (SR.new (sub_id s) (ds_id d)))).
Proof.
  intros Hs Hd Ht. split_and!.
  - apply preserves_sr_list. intros l Hn Hl. apply insert_row_ok; [done..|]. apply new_sr_ok; try done.
    apply Hst.
  - by apply monotone_insert.
  - intros c. apply grows_insert.
Qed.

Lemma inflating_insert_mr m d :
  m ∈ db_matches st → d ∈ db_datasets st → m_task_id m = ds_task_id d →
  inflating st (with_match_results (insert_row mr_key (MR.new (m_id m) (ds_id d)))).
Proof.
  intros Hm Hd Ht. split_and!; [|by apply monotone_same|intros c; by apply grows_same].
  apply preserves_mr_list. intros l Hn Hl. apply insert_row_ok; [done..|]. split; [constructor|].
  intros m' Hm' Hk. assert (m' = m) as -> by (by eapply (key_unique m_id); [apply Hst|..]). by exists d.
Qed.

Lemma inflating_insert_utr u d :
  u ∈ db_user_tests st → d ∈ db_datasets st → ut_task_id u = ds_task_id d →
  inflating st (with_user_test_results (insert_row utr_key (UTR.new (ut_id u) (ds_id d)))).
Proof.
  intros Hu Hd Ht. split_and!; [|by apply monotone_same|intros c; by apply grows_same].
  apply preserves_utr_list. intros l Hn Hl. apply insert_row_ok; [done..|]. split.
  intros u' Hu' Hk. assert (u' = u) as -> by (by eapply (key_unique ut_id); [apply Hst|..]). by exists d.
Qed.

Lemma inflating_discard k : inflating st (with_results (on_row sr_key k SR.set_discarded)).
Proof.
  split_and!.
  - apply preserves_change_sr. intros r Hr Hk. split; [by apply set_discarded_ok|done].
  - by apply monotone_change.
  - intros c. by apply grows_change.
Qed.

Lemma ev_ids_insert e r :
  ∀ i, i ∈ ev_ids (insert_evaluation e r) ↔ i ∈ ev_ids r ∨ i = ev_testcase_id e.
Proof.
  intros i. unfold insert_evaluation, ev_ids. case_decide; [set_solver|].
  cbn [SR.add_evaluation sr_evaluations]. rewrite fmap_app. set_solver.
Qed.

Lemma sr_key_insert e r : sr_key (insert_evaluation e r) = sr_key r.
Proof. unfold insert_evaluation. by case_decide. Qed.

Lemma inflating_insert_evaluation k t :
  tc_id t ∈ tc_id <$> testcases_of st k.2 →
  inflating st (with_results (on_row sr_key k (insert_evaluation (dummy_evaluation k t)))).
Proof.
  intros Ht. split_and!.
  - apply preserves_change_sr. intros r Hr <-. split; [|apply sr_key_insert].
    by apply insert_evaluation_ok.
  - apply monotone_change; [intros x; by rewrite sr_key_insert|]. intros x y _ _ Hxy i.
    rewrite !ev_ids_insert. naive_solver.
  - intros c. apply grows_change. intros x Hx. split; [by rewrite sr_key_insert|].
    intros i. rewrite ev_ids_insert. naive_solver.
Qed.

Section growing_handlers.
Context (I : World Q → Prop) (HI : session_inv st I).

Lemma safe_ensure_submission_result s d :
  s ∈ db_submissions st → d ∈ db_datasets st → sub_task_id s = ds_task_id d →
  safe I (ensure_submission_result s d) (λ k, k = (sub_id s, ds_id d)).
Proof.
  intros Hs Hd Ht. unfold ensure_submission_result.
  eapply safe_bind; [by eapply safe_query_res|]. intros r _.
  eapply (safe_bind _ _ _ (λ _, True)).
  - destruct r; [by apply safe_ret|]. by eapply safe_inflating, inflating_insert_sr.
  - intros _ _. by apply safe_ret.
Qed.

Lemma safe_ensure_match_result m d :
  m ∈ db_matches st → d ∈ db_datasets st → m_task_id m = ds_task_id d →
  safe I (ensure_match_result m d) (λ k, k = (m_id m, ds_id d)).
Proof.
  intros Hs Hd Ht. unfold ensure_match_result.
  eapply safe_bind; [by eapply safe_query_res|]. intros r _.
  eapply (safe_bind _ _ _ (λ _, True)).
  - destruct r; [by apply safe_ret|]. by eapply safe_inflating, inflating_insert_mr.
  - intros _ _. by apply safe_ret.
Qed.

Lemma safe_ensure_user_test_result u d :
  u ∈ db_user_tests st → d ∈ db_datasets st → ut_task_id u = ds_task_id d →
  safe I (ensure_user_test_result u d) (λ k, k = (ut_id u, ds_id d)).
Proof.
  intros Hs Hd Ht. unfold ensure_user_test_result.
  eapply safe_bind; [by eapply safe_query_res|]. intros r _.
  eapply (safe_bind _ _ _ (λ _, True)).
  - destruct r; [by apply safe_ret|]. by eapply safe_inflating, inflating_insert_utr.
  - intros _ _. by apply safe_ret.
Qed.

(** An intermediate step of which nothing is kept. *)
Lemma safe_then {A B} (m : M (World Q) A) (f : A → M (World Q) B) R :
  safe I m (λ _, True) → (∀ a, safe I (f a) R) → safe I (m ≫= f) R.
Proof. intros Hm Hf. by eapply safe_bind. Qed.

Lemma safe_prepare_submission op d t tid s :
  s ∈ db_submissions st → d ∈ db_datasets st → sub_task_id s = ds_task_id d →
  tc_id t ∈ tc_id <$> testcases_of st (ds_id d) →
  safe I (prepare_submission op d t tid s) (λ _, True).
Proof.
  intros Hs Hd Ht Htc. unfold prepare_submission.
  eapply safe_bind; [by apply safe_ensure_submission_result|]. intros ? ->. safe_step.
  apply safe_then; [|intros _].
  { safe_step; [|safe_step]. by eapply safe_inflating, inflating_insert_evaluation. }
  safe_step; [|safe_step]. do 2 safe_step. apply safe_then; [|intros _].
  { safe_step; [|safe_step]. by eapply safe_inflating, inflating_discard. }
  apply safe_then; [|intros _; by eapply safe_commit]. safe_step.
  safe_step; [safe_step|]. by eapply safe_inflating, inflating_discard.
Qed.

Lemma safe_the_submission i :
  safe I (query_res (λ db, or_raise AttributeError (get_submission db i)))
    (λ s, s ∈ db_submissions st ∧ sub_id s = i).
Proof.
  eapply safe_weaken; [by eapply safe_query_res|]. intros s (db & Hg & Hs).
  eapply good_submission; [exact Hg|]. by left.
Qed.

Lemma safe_the_match i :
  safe I (query_res (λ db, or_raise AttributeError (get_match db i)))
    (λ m, m ∈ db_matches st ∧ m_id m = i).
Proof.
  eapply safe_weaken; [by eapply safe_query_res|]. intros m (db & Hg & Hm).
  eapply good_match; [exact Hg|]. by left.
Qed.

Lemma safe_the_user_test i :
  safe I (query_res (λ db, or_raise AttributeError (get_user_test db i)))
    (λ u, u ∈ db_user_tests st ∧ ut_id u = i).
Proof.
  eapply safe_weaken; [by eapply safe_query_res|]. intros u (db & Hg & Hu).
  eapply good_user_test; [exact Hg|]. by left.
Qed.

Lemma safe_pvp_submissions op d :
  op_valid st op → d ∈ db_datasets st → ds_id d = dataset_id op →
  type_ op = EVALUATION ∨ type_ op = MATCH →
  safe I
    (if decide (type_ op = MATCH) then
       m ← query_res (λ db, or_raise AttributeError (get_match db (object_id op)));
       s1 ← query_res (λ db, or_raise AttributeError (get_submission db (m_submission1_id m)));
       s2 ← query_res (λ db, or_raise AttributeError (get_submission db (m_submission2_id m)));
       mret ([s1; s2], m_testcase_id m)
     else
       s ← query_res (λ db, or_raise AttributeError (get_submission db (object_id op)));
       mret ([s], None))
    (λ p, Forall (λ s, s ∈ db_submissions st ∧ sub_task_id s = ds_task_id d) p.1).
Proof.
  intros Hv Hd Hi Hty. specialize (Hv d Hd Hi). case_decide as Hm.
  - rewrite Hm in Hv. eapply safe_bind; [apply safe_the_match|]. intros m [Hmin Hmi].
    eapply safe_bind; [apply safe_the_submission|]. intros s1 [Hs1 Hi1].
    eapply safe_bind; [apply safe_the_submission|]. intros s2 [Hs2 Hi2].
    apply safe_ret. cbn. rewrite <- (Hv m Hmin Hmi).
    repeat constructor; try done; eapply tables_match_task; eauto.
  - assert (type_ op = EVALUATION) as E by (by destruct Hty). rewrite E in Hv.
    eapply safe_bind; [apply safe_the_submission|]. intros s [Hs Hsi]. apply safe_ret.
    repeat constructor; [done|]. by apply Hv.
Qed.
End growing_handlers.

Section session_handlers.
Context (I : World Q → Prop) (HI : session_inv st I).

Lemma safe_prepare_pvp_evaluation op : op_valid st op → safe I (prepare_pvp_evaluation op) (λ _, True).
Proof.
  intros Hv. unfold prepare_pvp_evaluation. apply (safe_with_session st I HI). intros c0.
  pose proof (growing_session_inv (Q:=Q) st c0) as HG. safe_step. case_decide as Hty; [safe_step|].
  eapply safe_bind; [apply safe_lift|]. intros d Hd. case_decide; [safe_step|].
  destruct H as (db & Hg & ->). destruct (good_dataset db _ d Hg (or_introl Hd)) as [Hdi Hdd].
  eapply safe_bind; [by eapply safe_query_res|]. intros t (db' & Hg' & Ht).
  eapply safe_bind; [apply (safe_pvp_submissions _ HG _ d); [done..|]|].
  { destruct (type_ op); try (by left); try (by right); by destruct Hty. }
  intros [submissions tid] Hs. apply safe_then; [|intros _; by eapply safe_commit].
  apply safe_for_each. intros s Hin. apply (proj1 (Forall_forall _ _) Hs) in Hin as [Hsin Hst'].
  apply safe_prepare_submission; try done. by eapply good_testcase.
Qed.

Lemma safe_enqueue_operation e : safe I (enqueue_operation e) (λ _, True).
Proof. by eapply safe_zoom. Qed.

Lemma safe_enqueue_submission_operation s n e :
  op_valid st e.1.1 → safe I (enqueue_submission_operation s n e) (λ _, True).
Proof.
  intros Hv. unfold enqueue_submission_operation. safe_step. apply safe_then.
  { safe_step; [apply safe_enqueue_operation|safe_step]. }
  intros pushed. safe_step; [safe_step|]. apply safe_then; [by apply safe_prepare_pvp_evaluation|].
  intros _. safe_step.
Qed.

Lemma safe_enqueue_match_operation n e :
  op_valid st e.1.1 → safe I (enqueue_match_operation n e) (λ _, True).
Proof.
  intros Hv. unfold enqueue_match_operation. apply safe_then; [apply safe_enqueue_operation|].
  intros pushed. safe_step; [|safe_step]. apply safe_then; [by apply safe_prepare_pvp_evaluation|].
  intros _. safe_step.
Qed.

Lemma safe_count_pushed n e : safe I (count_pushed n e) (λ _, True).
Proof. unfold count_pushed. apply safe_then; [apply safe_enqueue_operation|]. intros. safe_step. Qed.
End session_handlers.
End handlers.

(** What the operations of a submission are for. *)
Lemma submission_operation_for db r s d e :
  e ∈ submission_get_operations db r s d →
  object_id e.1.1 = sub_id s ∧ dataset_id e.1.1 = ds_id d ∧
  (type_ e.1.1 = COMPILATION ∨ type_ e.1.1 = EVALUATION).
Proof.
  intros He. unfold submission_get_operations in He. cbv zeta in He. destruct (submission_to_compile r).
  - apply list_elem_of_singleton in He as ->. cbn. auto.
  - destruct (submission_to_evaluate r), r as [r|]; try by apply elem_of_nil in He.
    apply list_elem_of_bind in He as (t & [_ ->]%elem_of_if_dec & _). cbn. auto.
Qed.

(** *** Sessions that change results *)

Section changes.
Context {Q : Type} `{!PQueue ESOperation Q} (st : Db) (Hst : tables_ok st) (w0 : World Q).
Implicit Types (w : World Q).
Let I : World Q → Prop := session st w0.

Lemma triple_at {A} {P : World Q → Prop} {m : M (World Q) A} {R E} w :
  P w → triple P m R E → match m w with (Ok a, w') => R a w' | (_, w') => E w' end.
Proof. intros Hw Hm. by apply Hm. Qed.

Lemma triple_query {A} (P : World Q → Prop) E (f : Db → A) :
  triple P (query f) (λ a w, P w ∧ a = f (view w)) E.
Proof. by intros w Hw. Qed.

Lemma triple_query_res {A} (P E : World Q → Prop) (f : Db → Prelude.res A) :
  (∀ w, P w → E w) → triple P (query_res f) (λ a w, P w ∧ f (view w) = Ok a) E.
Proof.
  intros HE w Hw. specialize (HE w Hw). unfold query_res, query, gets, lift, mbind, M_bind.
  by destruct (f (view w)).
Qed.

(** The outcome of a result whose evaluations are complete. *)
Lemma triple_set_evaluation_outcome k :
  triple (λ w, I w ∧ complete_in st k (view w) ∧ k ∈ sr_key <$> db_submission_results (view w))
    (change_sr k SR.set_evaluation_outcome) (λ _ w, I w ∧ True) I.
Proof.
  intros w (Hw & Hc & Hk). split; [|done]. apply list_elem_of_fmap in Hk as (r & -> & Hr).
  apply session_change; [done|..]; [|by apply monotone_change].
  intros v Hv Hg. apply good_sr_list; [done|]. intros l -> Hn Hl. apply on_row_ok_in; [|done..].
  intros x Hin Hx Hxk. split; [|done]. apply set_evaluation_outcome_ok; [done|].
  replace (sr_dataset_id x) with (sr_dataset_id r) by (unfold sr_key in Hxk; congruence).
  by eapply (complete_in_grows st (sr_key r) (view w) v r).
Qed.
Lemma submission_get_result_in db s d r :
  submission_get_result db s (Some d) = Ok (Some r) →
  r ∈ db_submission_results db ∧ sr_key r = (sub_id s, ds_id d).
Proof.
  unfold submission_get_result, result_dataset_id. cbn [mbind res_bind]. case_decide; [|done].
  cbn [mbind res_bind]. intros [= Hf]. unfold find_submission_result in Hf.
  apply head_filter_in in Hf as (Hr & H1 & [= H2]). split; [done|]. unfold sr_key. congruence.
Qed.

(** A result without operations that is to evaluate has all its
    evaluations. *)
Lemma nothing_missing db r s d :
  submission_get_operations db (Some r) s d = [] → submission_to_evaluate (Some r) = true →
  Forall (λ i, i ∈ ev_ids r) (tc_id <$> testcases db d).
Proof.
  intros Hops Hev. unfold submission_get_operations in Hops. rewrite Hev in Hops.
  assert (submission_to_compile (Some r) = false) as Hc.
  { unfold submission_to_evaluate in Hev. unfold submission_to_compile, SR.compiled.
    unfold SR.compilation_succeeded in Hev. by destruct (sr_compilation_outcome r), (sr_submission_discarded r). }
  rewrite Hc in Hops. cbv zeta in Hops. apply Forall_forall. intros i (t & -> & Ht)%list_elem_of_fmap.
  destruct (decide (tc_id t ∈ ev_ids r)) as [|Hn]; [done|]. exfalso.
  eapply elem_of_nil. rewrite <- Hops. apply list_elem_of_bind. exists t. split; [|done].
  rewrite decide_True by done. by left.
Qed.

Lemma submission_operation_valid db r s d e :
  s ∈ db_submissions st → d ∈ db_datasets st → sub_task_id s = ds_task_id d →
  e ∈ submission_get_operations db r s d → op_valid st e.1.1.
Proof.
  intros Hs Hd Ht He. destruct (submission_operation_for db r s d e He) as (Ho & Hi & Hty).
  intros d' Hd' Hi'. assert (d' = d) as ->.
  { eapply (key_unique ds_id); [apply Hst|done..|congruence]. }
  rewrite Ho. destruct Hty as [->| ->]; intros s' Hs' Hk;
    (assert (s' = s) as -> by (by eapply (key_unique sub_id); [apply Hst|..]); done).
Qed.

Lemma datasets_to_judge db i d :
  good st db → d ∈ get_datasets_to_judge db i → d ∈ db_datasets st ∧ ds_task_id d = i.
Proof.
  intros Hg. unfold get_datasets_to_judge, task_datasets. intros [_ [Ht Hd]%list_elem_of_filter]%list_elem_of_filter.
  destruct (good_tables st db Hg) as (_ & E & _). by rewrite E in Hd.
Qed.

Lemma HI : session_inv st I.
Proof. apply session_session_inv. Qed.

Lemma safe_the_sr k : safe I (the_sr k) (λ r, sr_submission_id r = k.1).
Proof.
  eapply safe_weaken; [eapply safe_query_res, HI|]. intros r (db & Hg & Hr).
  unfold or_raise in Hr. destruct (find_submission_result _ _ _) as [r'|] eqn:Hf; [|done].
  injection Hr as ->. unfold find_submission_result in Hf. by apply head_filter_in in Hf as (_ & ? & _).
Qed.

Lemma safe_evaluation_ended_with enqueue_all k :
  (∀ s, s ∈ db_submissions st → safe I (enqueue_all s) (λ _, True)) →
  safe I (evaluation_ended_with enqueue_all k) (λ _, True).
Proof.
  pose proof HI. intros Hall. unfold evaluation_ended_with. eapply safe_bind; [apply safe_the_sr|]. intros r _.
  eapply safe_bind; [by apply safe_the_submission|]. intros s [Hs _].
  apply safe_then; [safe_step; [by apply safe_call_service with (st:=st)|safe_step]|]. intros _.
  apply safe_then; [by apply Hall|]. intros _. safe_step.
Qed.

Lemma safe_enqueue_on_dataset enqueue_all s n d :
  s ∈ db_submissions st → d ∈ db_datasets st → sub_task_id s = ds_task_id d →
  (∀ s, s ∈ db_submissions st → safe I (enqueue_all s) (λ _, True)) →
  safe I (enqueue_on_dataset enqueue_all s n d) (λ _, True).
Proof.
  pose proof HI as HI. intros Hs Hd Ht Hall. unfold enqueue_on_dataset.
  eapply triple_bind; [by apply triple_query_res|]. intros r.
  eapply triple_bind; [apply triple_query|]. intros ops. cbv beta. destruct (bool_decide (ops = [])) eqn:Hops; cbn [andb].
  - apply bool_decide_eq_true in Hops as ->. cbn [for_acc].
    eapply triple_bind; [eapply triple_ret; intros w Hw; exact Hw|]. intros n'.
    destruct (submission_to_evaluate r) eqn:Hev; [|apply triple_ret; naive_solver].
    destruct r as [r|]; [|done]. cbv zeta.
    eapply triple_bind.
    { eapply triple_consequence; [apply (triple_set_evaluation_outcome (sub_id s, ds_id d))|..|done]; [|done].
      intros w [[Hw Hr] Hops]. apply submission_get_result_in in Hr as [Hr Hk].
      pose proof (sound_view st w (inv_sound st I HI w Hw)) as Hg. split_and!; [done| |].
      - intros r' Hr' Hk'. assert (r' = r) as -> by
          (eapply (key_unique sr_key); [apply Hg|done..|congruence]).
        symmetry in Hops. apply nothing_missing in Hops; [|done].
        unfold testcases, testcases_of in *.
        by destruct (good_tables st _ Hg) as (_ & _ & <- & _).
      - rewrite <- Hk. apply list_elem_of_fmap. by exists r. }
    intros []. apply (triple_consequence _ I _ _ (λ _ w, I w ∧ True) _ I); [|by intros w []|done..].
    change (safe I (_ ← commit; _ ← evaluation_ended_with enqueue_all (sub_id s, ds_id d); mret n') (λ _, True)).
    apply safe_then; [by eapply safe_commit|]. intros _.
    apply safe_then; [by apply safe_evaluation_ended_with|]. intros _. safe_step.
  - intros w [[Hw Hr] Ho]. refine (triple_at w Hw _).
    change (safe I (n ← for_acc (enqueue_submission_operation s) n ops; mret n) (λ _, True)).
    apply safe_then; [|intros n'; safe_step]. apply safe_for_acc. intros n' e He.
    eapply safe_enqueue_submission_operation; [done..|]. subst ops. by eapply submission_operation_valid.
Qed.

Lemma safe_datasets_to_judge i :
  safe I (query (λ db, get_datasets_to_judge db i))
    (λ l, ∀ d, d ∈ l → d ∈ db_datasets st ∧ ds_task_id d = i).
Proof.
  eapply safe_weaken; [eapply safe_query, HI|]. intros l (db & Hg & ->) d. by apply datasets_to_judge.
Qed.

Lemma safe_submission_enqueue fuel s :
  s ∈ db_submissions st → safe I (submission_enqueue fuel s) (λ _, True).
Proof.
  revert s. induction fuel as [|fuel IH]; intros s Hs; cbn [submission_enqueue]; [by intros w Hw|].
  eapply safe_bind; [apply safe_datasets_to_judge|]. intros datasets Hds. apply safe_for_acc.
  intros n d [Hd Ht]%Hds. by apply safe_enqueue_on_dataset.
Qed.

Lemma safe_submission_enqueue_operations s :
  s ∈ db_submissions st → safe I (submission_enqueue_operations s) (λ _, True).
Proof.
  intros Hs. unfold submission_enqueue_operations. eapply safe_bind; [eapply safe_query, HI|].
  intros fuel _. by apply safe_submission_enqueue.
Qed.

Lemma safe_evaluation_ended k : safe I (evaluation_ended k) (λ _, True).
Proof. apply safe_evaluation_ended_with, safe_submission_enqueue_operations. Qed.

Lemma safe_compilation_ended k : safe I (compilation_ended k) (λ _, True).
Proof.
  unfold compilation_ended. eapply safe_bind; [apply safe_the_sr|]. intros r _.
  eapply safe_bind; [apply safe_the_submission, HI|]. intros s [Hs _].
  apply safe_then; [|intros _; apply safe_then; [by apply safe_submission_enqueue_operations|];
    intros _; by apply safe_ret].
  destruct (SR.compilation_succeeded r); [by apply safe_ret|].
  destruct (SR.compilation_failed r); [eapply safe_call_service, HI|by apply safe_ret].
Qed.

(** Matches. *)

Lemma preserves_change_mr_same k f :
  (∀ r, mr_key (f r) = mr_key r) → (∀ r, mr_matchings (f r) = mr_matchings r) →
  inflating st (with_match_results (on_row mr_key k f)).
Proof.
  intros Hk Hm. split_and!; [|by apply monotone_same|intros c; by apply grows_same].
  apply preserves_change_mr. intros r Hr Hrk. rewrite Hk. split; [|done].
  by apply (mr_ok_same st r).
Qed.

Lemma match_operation_valid db r m d ops e :
  m ∈ db_matches st → d ∈ db_datasets st → m_task_id m = ds_task_id d →
  match_get_operations db r m d = Ok ops → e ∈ ops → op_valid st e.1.1.
Proof.
  intros Hm Hd Ht Hops He.
  assert (object_id e.1.1 = m_id m ∧ dataset_id e.1.1 = ds_id d ∧ type_ e.1.1 = MATCH) as (Ho & Hi & Hty).
  { unfold match_get_operations in Hops. cbv zeta in Hops. destruct r as [r|]; [|done].
    injection Hops as <-. apply list_elem_of_bind in He as (t & He & _).
    destruct (m_testcase_id m) as [i|]; [case_decide; [by apply elem_of_nil in He|]|];
      by apply elem_of_if_dec in He as [_ ->]. }
  intros d' Hd' Hi'. assert (d' = d) as ->.
  { eapply (key_unique ds_id); [apply Hst|done..|congruence]. }
  rewrite Hty. intros m' Hm' Hk.
  assert (m' = m) as -> by (eapply (key_unique m_id); [apply Hst|done..|congruence]). done.
Qed.

Lemma safe_the_mr k : safe I (the_mr k) (λ _, True).
Proof. eapply safe_weaken; [eapply safe_query_res, HI|done]. Qed.

Lemma safe_match_ended_with enqueue_all k :
  (∀ m, m ∈ db_matches st → safe I (enqueue_all m) (λ _, True)) →
  safe I (match_ended_with enqueue_all k) (λ _, True).
Proof.
  intros Hall. unfold match_ended_with. apply safe_then; [apply safe_the_mr|]. intros r.
  eapply safe_bind; [apply safe_the_match, HI|]. intros m [Hm _].
  apply safe_then; [|intros _; apply safe_then; [by apply Hall|intros _; by apply safe_ret]].
  destruct (MR.evaluated r); [eapply safe_call_service, HI|by apply safe_ret].
Qed.

Lemma safe_enqueue_match_on_dataset enqueue_all m n d :
  m ∈ db_matches st → d ∈ db_datasets st → m_task_id m = ds_task_id d →
  (∀ m, m ∈ db_matches st → safe I (enqueue_all m) (λ _, True)) →
  safe I (enqueue_match_on_dataset enqueue_all m n d) (λ _, True).
Proof.
  pose proof HI as HI. intros Hm Hd Ht Hall. unfold enqueue_match_on_dataset.
  eapply safe_bind; [by eapply safe_query_res|]. intros r _.
  eapply safe_bind; [by eapply safe_query_res|]. intros ops (db & _ & Hops).
  apply safe_then.
  { apply safe_for_acc. intros n' e He. eapply safe_enqueue_match_operation; [done..|].
    by eapply match_operation_valid. }
  intros n'. destruct (_ && _); [cbv zeta|by apply safe_ret].
  apply safe_then; [by eapply safe_inflating, preserves_change_mr_same|]. intros _.
  apply safe_then; [by eapply safe_commit|]. intros _.
  apply safe_then; [by apply safe_match_ended_with|]. intros _. by apply safe_ret.
Qed.

Lemma safe_match_enqueue fuel m : m ∈ db_matches st → safe I (match_enqueue fuel m) (λ _, True).
Proof.
  revert m. induction fuel as [|fuel IH]; intros m Hm; cbn [match_enqueue]; [by intros w Hw|].
  eapply safe_bind; [apply safe_datasets_to_judge|]. intros datasets Hds. apply safe_for_acc.
  intros n d [Hd Ht]%Hds. by apply safe_enqueue_match_on_dataset.
Qed.

Lemma safe_match_enqueue_operations m :
  m ∈ db_matches st → safe I (match_enqueue_operations m) (λ _, True).
Proof.
  intros Hm. unfold match_enqueue_operations. eapply safe_bind; [eapply safe_query, HI|].
  intros fuel _. by apply safe_match_enqueue.
Qed.

Lemma safe_es_match_ended k : safe I (es_match_ended k) (λ _, True).
Proof. apply safe_match_ended_with, safe_match_enqueue_operations. Qed.

(** User tests. *)

Lemma safe_user_test_enqueue_operations u : safe I (user_test_enqueue_operations u) (λ _, True).
Proof.
  unfold user_test_enqueue_operations. eapply safe_bind; [eapply safe_query, HI|]. intros datasets _.
  apply safe_for_acc. intros n d _. eapply safe_bind; [eapply safe_query_res, HI|]. intros ops _.
  apply safe_for_acc. intros. eapply safe_count_pushed, HI.
Qed.

Lemma safe_user_test_ended k : safe I (user_test_ended k) (λ _, True).
Proof.
  unfold user_test_ended. apply safe_then; [eapply safe_weaken; [eapply safe_query_res, HI|done]|].
  intros r. eapply safe_bind; [apply safe_the_user_test, HI|]. intros u _.
  apply safe_then; [apply safe_user_test_enqueue_operations|]. intros _. by apply safe_ret.
Qed.

(** *** Writing results *)

Lemma safe_update f : preserves st f → monotone f → safe I (update f) (λ _, True).
Proof. intros Hf Hm w Hw. split; [|done]. apply session_change; [done| |done]. intros v _. apply Hf. Qed.

(** A change of a row that is not about its evaluations, or clears them. *)
Lemma safe_change_sr k f :
  (∀ r, sr_ok st r → sr_ok st (f r)) → (∀ r, sr_key (f r) = sr_key r) →
  (∀ r, ev_ids (f r) = ev_ids r) ∨ (∀ r, ev_ids (f r) = []) → safe I (change_sr k f) (λ _, True).
Proof.
  intros Hf Hk He. apply safe_update.
  - apply preserves_change_sr. intros r Hr <-. auto.
  - apply monotone_change; [intros x <-; apply Hk|]. intros x y _ _ Hxy i.
    destruct He as [He|He]; rewrite !He; [apply Hxy|done].
Qed.

Lemma safe_write_sr k f :
  (∀ db r r', static db = st → sr_ok st r → f db r = Ok r' → sr_ok st r' ∧ sr_key r' = sr_key r) →
  safe I (write_sr k f) (λ _, True).
Proof.
  intros Hf. unfold write_sr. eapply (safe_bind _ _ _ (λ r, sr_ok st r ∧ sr_key r = k)).
  { eapply safe_weaken; [eapply safe_query_res, HI|]. intros r (db & Hg & Hr).
    apply or_raise_Ok, head_filter_in in Hr as (Hr & H1 & [= H2]). split.
    - by apply (proj1 (Forall_forall _ _) (good_sr st db Hg)).
    - destruct k. unfold sr_key. simpl in *. congruence. }
  intros r [Hr Hk]. eapply safe_bind; [eapply safe_query_res, HI|]. intros r' (db & Hg & Hw).
  apply Hf in Hw as [Hr' Hk']; [|apply Hg|done]. apply safe_update.
  - apply preserves_change_sr. intros x _ _. split; [done|congruence].
  - apply monotone_change; [intros x _; congruence|]. by intros x y _ _ _ i.
Qed.

Lemma safe_write_mr k j : safe I (write_mr k (λ db, job_to_match db j)) (λ _, True).
Proof.
  unfold write_mr. eapply (safe_bind _ _ _ (λ r, mr_ok st r ∧ mr_key r = k)).
  { eapply safe_weaken; [eapply safe_query_res, HI|]. intros r (db & Hg & Hr).
    apply or_raise_Ok, head_filter_in in Hr as (Hr & H1 & [= H2]). split.
    - by apply (proj1 (Forall_forall _ _) (good_mr st db Hg)).
    - destruct k. unfold mr_key. simpl in *. congruence. }
  intros r [Hr Hk]. eapply safe_bind; [eapply safe_query_res, HI|]. intros r' (db & _ & Hw).
  apply (to_match_ok st) in Hw as [Hr' Hk']; [|done]. apply safe_update; [|by apply monotone_same].
  apply preserves_change_mr. intros x _ _. split; [done|congruence].
Qed.

Lemma safe_change_utr k f : (∀ r, utr_key (f r) = utr_key r) → safe I (change_utr k f) (λ _, True).
Proof.
  intros Hf. apply safe_update; [|by apply monotone_same].
  apply preserves_change_utr. intros x Hx <-. split; [|done]. by eapply utr_ok_key.
Qed.

Lemma safe_write_utr k j : safe I (write_utr k (λ _, job_to_user_test j)) (λ _, True).
Proof.
  unfold write_utr. eapply (safe_bind _ _ _ (λ r, utr_ok st r ∧ utr_key r = k)).
  { eapply safe_weaken; [eapply safe_query_res, HI|]. intros r (db & Hg & Hr).
    apply or_raise_Ok, head_filter_in in Hr as (Hr & H1 & [= H2]). split.
    - by apply (proj1 (Forall_forall _ _) (good_utr st db Hg)).
    - destruct k. unfold utr_key. simpl in *. congruence. }
  intros r [Hr Hk]. eapply safe_bind; [eapply safe_query_res, HI|]. intros r' (db & _ & Hw).
  apply (job_to_user_test_ok st) in Hw as [Hr' Hk']; [|done]. apply safe_update; [|by apply monotone_same].
  apply preserves_change_utr. intros x _ _. split; [done|congruence].
Qed.

(** A savepoint around changes only. *)
Lemma safe_nested_change f :
  safe I (update f) (λ _, True) → safe I (begin_nested (update f)) (λ _, True).
Proof. intros Hf w Hw. exact (Hf w Hw). Qed.

Lemma safe_write_results_one_row k op r : safe I (write_results_one_row k op r) (λ _, True).
Proof.
  unfold write_results_one_row.
  assert (safe I (write_sr k (λ db, job_to_submission db (job r))) (λ _, True)) as Hsr.
  { apply safe_write_sr. intros db x x' E. by apply job_to_submission_ok. }
  destruct (type_ op), (job_success r); try done; try (by apply safe_ret);
    try (by apply safe_change_utr); try apply safe_write_utr; try apply safe_write_mr.
  - apply safe_change_sr; [apply add_compilation_try_ok|done|by left].
  - destruct (tombstone (job r)).
    + eapply safe_bind; [eapply safe_query_res, HI|]. intros sr _. case_decide; [|by apply safe_ret].
      apply safe_then.
      { apply safe_nested_change, safe_change_sr; [apply invalidate_compilation_ok|done|by right]. }
      intros _. eapply safe_bind; [apply safe_the_submission, HI|]. intros s [Hs _].
      apply safe_then; [by apply safe_submission_enqueue_operations|]. intros _. by apply safe_ret.
    + apply safe_change_sr; [apply add_evaluation_try_ok|done|by left].
  - destruct (tombstone (job r)); [by apply safe_ret|].
    by eapply safe_inflating, preserves_change_mr_same; [apply HI|..].
Qed.
End changes.

(** *** Sessions outside savepoints *)

Section outside.
Context {Q : Type} `{!PQueue ESOperation Q} (st : Db) (Hst : tables_ok st) (w0 : World Q).
Implicit Types (w : World Q).
Hypothesis outside : in_savepoint w0 = false.
Let I : World Q → Prop := session st w0.

Lemma session_outside w : sound st w → in_savepoint w = false → I w.
Proof. intros Hs Hw. split; [done|]. by rewrite Hw. Qed.

(** A savepoint is opened, and whatever happens inside the session goes on. *)
Lemma safe_begin_nested {A} (m : M (World Q) A) R :
  (∀ w1, safe (session st w1) m R) → safe I (begin_nested m) R.
Proof.
  intros Hm w [Hs Hw]. assert (in_savepoint w = false) as Hout.
  { destruct (in_savepoint w); [|done]. destruct Hw; [done|]. congruence. }
  unfold begin_nested. set (w1 := set_session _ _ _ w).
  assert (sound st w1) as Hs1 by (split; apply Hs).
  specialize (Hm w1 w1). destruct (m w1) as [r w'].
  assert (session st w1 w' → in_savepoint w' = true → sound st
    (set_session (committed w') (pending w) (in_savepoint w) w')) as Hback.
  { intros [H1 H2] Hin. destruct (H2 Hin) as [_ Hg]. split; [apply H1|..].
    - intros c Hc Hgc. apply (sound_pending st w1 Hs1); [by etrans|done].
    - apply (sound_monotone st w Hs). }
  assert (session st w1 w' → sound st
    (set_session (committed w') (pending w') (in_savepoint w) w')) as Hgo.
  { intros [H1 _]. split; apply H1. }
  assert (session st w1 w1) as Hw1 by (split; [done|by split]). specialize (Hm Hw1).
  destruct (in_savepoint w') eqn:Hin.
  - destruct r; [destruct Hm as [Hm Hr]; split; [|done]|..]; apply session_outside; auto.
  - destruct r; [destruct Hm as [Hm Hr]|..]; apply session_outside; auto.
Qed.

Lemma safe_try_except {A} h (m m' : M (World Q) A) R :
  safe I m R → safe I m' R → safe I (try_except h m m') R.
Proof.
  intros Hm Hm' w Hw. specialize (Hm w Hw). unfold try_except.
  destruct (m w) as [[a|e| |] w']; try done. destruct (h e); [by apply Hm'|done].
Qed.

Lemma safe_write_results_one_object_and_type k rs :
  safe I (write_results_one_object_and_type k rs) (λ _, True).
Proof.
  unfold write_results_one_object_and_type. apply safe_for_each. intros opr _. apply safe_try_except.
  - apply safe_begin_nested. intros w1. by apply safe_write_results_one_row.
  - by apply safe_ret.
Qed.

Lemma inside : session_inv st I.
Proof. apply session_session_inv. Qed.

Lemma safe_find {A} (get : Db → Z → option A) (P : A → Prop) i :
  (∀ db x, good st db → or_raise AttributeError (get db i) = Ok x ∨ get db i = Some x → P x) →
  safe I (query (λ db, get db i)) (λ o, ∀ x, o = Some x → P x).
Proof.
  intros HP. eapply safe_weaken; [eapply safe_query, inside|]. intros o (db & Hg & ->) x Hx.
  eapply HP; [exact Hg|]. by right.
Qed.

Lemma safe_ensure_result ty i d :
  d ∈ db_datasets st → op_valid st (mkESOperation ty i (ds_id d) None) →
  safe I (ensure_result ty i d) (λ _, True).
Proof.
  intros Hd Hv. specialize (Hv d Hd eq_refl). unfold ensure_result. cbn in Hv.
  destruct ty;
    (eapply safe_bind;
       [first [apply (safe_find get_submission _ i (λ db x, good_submission st db i x))
              |apply (safe_find get_match _ i (λ db x, good_match st db i x))
              |apply (safe_find get_user_test _ i (λ db x, good_user_test st db i x))]|];
     intros [x|] Hx; [|by apply safe_ret]; destruct (Hx x eq_refl) as [Hin Hi];
     apply safe_then; [|intros; by apply safe_ret]; eapply safe_weaken;
     [first [apply (safe_ensure_submission_result st)|apply (safe_ensure_match_result st)
            |apply (safe_ensure_user_test_result st)]; try done; [apply inside|by apply Hv]|done]).
Qed.

(** The operations of a group are for its key. *)
Lemma safe_write_group g :
  op_valid st (mkESOperation g.1.1.1 g.1.1.2 g.1.2 None) → safe I (write_group g) (λ _, True).
Proof.
  destruct g as [[[ty i] di] rs]. cbn. intros Hv. unfold write_group. cbn [fst snd].
  eapply safe_bind; [apply (safe_find get_dataset _ di (λ db x, good_dataset st db di x))|].
  intros [d|] Hd; [|by apply safe_ret]. destruct (Hd d eq_refl) as [Hin <-].
  apply safe_then; [by apply safe_ensure_result|]. intros [k|]; [|by apply safe_ret].
  apply safe_write_results_one_object_and_type.
Qed.

(** The evaluations that the query counts are those of the row. *)
Lemma evaluations_of_row k l r :
  NoDup (sr_key <$> l) → Forall (sr_ok st) l → r ∈ l → sr_key r = k →
  filter (λ e, ev_dataset_id e = k.2 ∧ ev_submission_id e = k.1) (r ← l; sr_evaluations r) = sr_evaluations r.
Proof.
  intros Hn Hl Hr Hk.
  assert (∀ x, sr_ok st x → filter (λ e, ev_dataset_id e = k.2 ∧ ev_submission_id e = k.1) (sr_evaluations x)
    = if decide (sr_key x = k) then sr_evaluations x else []) as Hrow.
  { intros x Hx. pose proof (sr_ok_evaluations st x Hx) as He. unfold sr_key. destruct k as [i di]. cbn.
    case_decide as Hxk; [injection Hxk as <- <-|]; (induction He as [|e es [H1 H2] _ IH]; [done|]);
      rewrite filter_cons.
    - rewrite decide_True by done. by rewrite IH.
    - rewrite decide_False; [done|]. rewrite H1, H2. by intros [<- <-]. }
  induction l as [|x l IH]; [by apply elem_of_nil in Hr|]. rewrite fmap_cons in Hn.
  apply NoDup_cons in Hn as [Hx Hn]. apply Forall_cons in Hl as [Hxo Hl]. rewrite bind_cons, filter_app, Hrow by done.
  apply elem_of_cons in Hr as [->|Hr].
  - rewrite decide_True by done. rewrite Hk in Hx. clear IH. rewrite <- (app_nil_r (sr_evaluations x)) at 2. f_equal.
    induction l as [|y l IH]; [done|]. rewrite fmap_cons in Hx, Hn. apply not_elem_of_cons in Hx as [Hky Hx].
    apply NoDup_cons in Hn as [_ Hn]. apply Forall_cons in Hl as [Hy Hl].
    rewrite bind_cons, filter_app, Hrow by done. rewrite decide_False by done. by apply IH.
  - rewrite IH by done. rewrite decide_False; [done|]. intros Hkx. apply Hx. apply list_elem_of_fmap.
    exists r. split; [congruence|done].
Qed.

(** As many evaluations as testcases: all of them. *)
Lemma count_complete db i di :
  good st db → num_evaluations db i di = num_testcases db di → complete_in st (i, di) db.
Proof.
  intros Hg Hn r Hr Hk. pose proof (proj1 (Forall_forall _ _) (good_sr st db Hg) r Hr) as Hok.
  pose proof (evaluations_of_row (i, di) _ r (good_sr_keys st db Hg) (good_sr st db Hg) Hr Hk) as Hev.
  unfold num_evaluations, num_testcases in Hn. cbn [fst snd] in Hev. rewrite Hev in Hn.
  injection Hk as Hki Hkd. cbn [snd]. destruct (good_tables st db Hg) as (_ & _ & E & _).
  rewrite E in Hn. change (List.length (sr_evaluations r) = List.length (testcases_of st di)) in Hn.
  assert (ev_ids r ⊆+ tc_id <$> testcases_of st di) as Hsub.
  { apply NoDup_submseteq; [apply Hok|]. intros j Hj. rewrite <- Hkd.
    by apply (proj1 (Forall_forall _ _) (sr_ok_testcases st r Hok)). }
  apply submseteq_length_Permutation in Hsub; [|unfold ev_ids; rewrite !length_fmap; lia].
  apply Forall_forall. intros j Hj. by rewrite Hsub.
Qed.

Lemma safe_complete_group t : safe I (complete_group t) (λ _, True).
Proof.
  pose proof inside as HI. destruct t as [[ty i] di]. unfold complete_group.
  destruct ty; try by apply safe_ret.
  - eapply triple_bind; [apply triple_query|]. intros testcases.
    eapply triple_bind; [apply triple_query|]. intros evaluations. cbv beta.
    case_decide as Hn; [|apply triple_ret; naive_solver].
    eapply triple_bind; [apply triple_query_res; by intros w [[? _] _]|].
    intros sr. eapply triple_consequence; [apply triple_set_evaluation_outcome|..|done]; [|done].
    intros w [[[Hw ->] ->] Hr]. pose proof (sound_view st w (inv_sound st I HI w Hw)) as Hg.
    split_and!; [done|by apply count_complete|].
    apply or_raise_Ok, head_filter_in in Hr as (Hr & H1 & [= H2]). apply list_elem_of_fmap. exists sr.
    unfold sr_key. by rewrite H1, H2.
  - do 2 safe_step. eapply safe_bind; [eapply safe_query_res, HI|]. intros mr _. safe_step.
    cbv zeta. case_decide; [|by apply safe_ret]. by eapply safe_inflating, preserves_change_mr_same.
Qed.

Lemma safe_end_group t : safe I (end_group t) (λ _, True).
Proof.
  destruct t as [[ty i] di]. unfold end_group.
  destruct ty; try by apply safe_ret; try by apply safe_user_test_ended; try by apply safe_compilation_ended.
  - by apply safe_compilation_ended.
  - eapply safe_bind; [eapply safe_the_sr; done|]. intros sr _.
    destruct (SR.evaluated sr); [by apply safe_evaluation_ended|by apply safe_ret].
  - apply safe_then; [by eapply safe_the_mr|]. intros mr.
    destruct (MR.evaluated mr); [by apply safe_es_match_ended|by apply safe_ret].
  - by apply safe_user_test_ended.
  - by apply safe_user_test_ended.
Qed.
End outside.

(** ** The handlers *)

(** The operations of the sweeper are for data sets of the tasks. *)
Lemma sweep_operation_valid db cid e :
  db_wf db → e ∈ get_submissions_operations db cid → op_valid db e.1.1.
Proof.
  intros Hwf He.
  destruct (submissions_sweep_rows db Hwf cid e He) as (s & t & d & Hs & Hj & Ho & Hi & Hty).
  intros d' Hd' Hdi. assert (d' = d) as ->.
  { eapply (key_unique ds_id); [apply Hwf|done|apply Hj|congruence]. }
  rewrite (judged_dataset_task _ _ _ _ _ Hj), Ho. destruct Hty as [->| ->]; intros s' Hs' Hk;
    (assert (s' = s) as -> by (by eapply (key_unique sub_id); [apply Hwf|..]); done).
Qed.

Lemma match_sweep_operation_valid db cid e :
  db_wf db → e ∈ get_match_operations db cid → op_valid db e.1.1.
Proof.
  intros Hwf He. unfold get_match_operations in He. rewrite list_elem_of_bind in He.
  destruct He as (r & Hx & Hr). apply list_elem_of_bind in Hx as (d & Hx & Hd).
  apply list_elem_of_bind in Hx as (m & Hx & Hm). apply list_elem_of_bind in Hx as (t & Hx & Ht).
  apply list_elem_of_bind in Hx as (tc & Hx & Htc). apply list_elem_of_bind in Hx as (g & Hx & Hg).
  apply elem_of_join_dec in Hm as [Hm Hmk], Hd as [Hd Hdk]. apply elem_of_if in Hx as [_ ->]. cbn.
  destruct (wf_match_result db Hwf r m Hr Hm) as (d1 & Hd1 & Hi1 & Ht1); [done|].
  intros d' Hd' Hdi m' Hm' Hk. assert (m' = m) as -> by (by eapply (key_unique m_id); [apply Hwf|..]).
  rewrite <- Ht1. f_equal. symmetry.
  eapply (key_unique ds_id); [apply Hwf|done..|]. cbn in Hdi. congruence.
Qed.

(** A group has the key of its operations, which are of the batch. *)
Lemma group_items items g :
  g ∈ by_object_and_type items →
  (∃ item, item ∈ items ∧ g.1 = group_key_of item.1) ∧
  Forall (λ item, item ∈ items ∧ group_key_of item.1 = g.1) g.2.
Proof.
  unfold by_object_and_type.
  assert (∀ l acc, Forall (λ g, (∃ item, item ∈ items ∧ g.1 = group_key_of item.1) ∧
      Forall (λ item, item ∈ items ∧ group_key_of item.1 = g.1) g.2) acc → l ⊆ items →
    Forall (λ g, (∃ item, item ∈ items ∧ g.1 = group_key_of item.1) ∧
      Forall (λ item, item ∈ items ∧ group_key_of item.1 = g.1) g.2)
      (foldl (λ acc item, let t := group_key_of item.1 in
         pd_set acc t (default [] (pd_get acc t) ++ [item])) acc l)) as Hgen.
  { induction l as [|item l IH]; intros acc Hacc Hl; [done|]. cbn [foldl]. apply IH; [|set_solver].
    assert (item ∈ items) as Hin by set_solver.
    apply Forall_forall. intros [k rs] [[= -> ->]|Hg]%pd_set_elem; cbn [fst snd];
      [|by apply (proj1 (Forall_forall _ _) Hacc (k, rs))].
    split; [by exists item|]. apply Forall_app. split; [|by repeat constructor].
    destruct (pd_get acc (group_key_of item.1)) as [rs'|] eqn:Hrs; [|constructor].
    apply pd_get_Some_in in Hrs. by apply (proj1 (Forall_forall _ _) Hacc _ Hrs). }
  intros Hg. apply (proj1 (Forall_forall _ _) (Hgen items [] (Forall_nil_2 _) (reflexivity _)) g Hg).
Qed.

Section top.
Context {Q : Type} `{!PQueue ESOperation Q} (db0 : Db).
Implicit Types (w : World Q).
Hypothesis Hwf : db_wf db0.
Hypothesis Htables : tables_ok (static db0).
Let st : Db := static db0.

(** Between two handlers. *)
Definition idle w : Prop := good st (committed w) ∧ pending w = [] ∧ in_savepoint w = false.

Definition idles {A} (m : M (World Q) A) : Prop := triple idle m (λ _, idle) idle.

Lemma idle_with_session {A} (m : M (World Q) A) R :
  (∀ w0, in_savepoint w0 = false → safe (session st w0) m R) → idles (with_session m).
Proof.
  intros Hm w (Hg & Hp & Hs). unfold with_session. set (w1 := set_session (committed w) [] false w).
  assert (session st w1 w1) as Hw1 by (apply session_outside; [by apply sound_idle|done]).
  specialize (Hm w1 eq_refl w1 Hw1). destruct (m w1) as [r w'].
  assert (session st w1 w' → idle (set_session (committed w') (pending w) (in_savepoint w) w')) as Hend.
  { intros [[Hg' _ _] _]. by split_and!. }
  destruct r; [apply Hend, Hm|by apply Hend..].
Qed.

Lemma valid_static op : op_valid db0 op → op_valid st op.
Proof. done. Qed.

Lemma idle_new_submission i : idles (new_submission (Q:=Q) i).
Proof.
  apply idle_with_session with (R := λ _, True). intros w0 Hw0. pose proof (session_session_inv st w0) as HI.
  eapply safe_bind; [apply (safe_find st w0 get_submission _ i (λ db x, good_submission st db i x))|].
  intros [s|] Hs; [|by apply safe_ret]. destruct (Hs s eq_refl) as [Hin _].
  apply safe_then; [by apply safe_submission_enqueue_operations|]. intros _. by eapply safe_commit.
Qed.

Lemma idle_new_match i : idles (new_match (Q:=Q) i).
Proof.
  apply idle_with_session with (R := λ _, True). intros w0 Hw0. pose proof (session_session_inv st w0) as HI.
  eapply safe_bind; [apply (safe_find st w0 get_match _ i (λ db x, good_match st db i x))|].
  intros [m|] Hm; [|by apply safe_ret]. destruct (Hm m eq_refl) as [Hin _].
  apply safe_then; [by apply safe_match_enqueue_operations|]. intros _. by eapply safe_commit.
Qed.

Lemma idle_new_user_test i : idles (new_user_test (Q:=Q) i).
Proof.
  apply idle_with_session with (R := λ _, True). intros w0 Hw0. pose proof (session_session_inv st w0) as HI.
  eapply safe_bind; [apply (safe_find st w0 get_user_test _ i (λ db x, good_user_test st db i x))|].
  intros [u|] Hu; [|by apply safe_ret].
  apply safe_then; [by apply safe_user_test_enqueue_operations|]. intros _. by eapply safe_commit.
Qed.

Lemma idle_missing_operations cid : idles (_missing_operations (Q:=Q) cid).
Proof.
  apply idle_with_session with (R := λ _, True). intros w0 Hw0. pose proof (session_session_inv st w0) as HI.
  eapply safe_bind; [by eapply safe_query|]. intros ops (db & Hg & ->). apply safe_then.
  { apply safe_for_acc. intros n e He. unfold sweep_submission.
    eapply safe_bind; [by apply safe_the_submission|]. intros s _.
    eapply safe_enqueue_submission_operation; [done..|].
    destruct (good_wf db0 db Hwf Hg) as [Hdb _].
    pose proof (sweep_operation_valid db cid e Hdb He) as Hv. 
    change (op_valid (static db0) e.1.1). fold st. by rewrite <- (good_static st db Hg). }
  intros n. eapply safe_bind; [by eapply safe_query|]. intros ops _. apply safe_then.
  { apply safe_for_acc. intros. by eapply safe_count_pushed. }
  intros n'. eapply safe_bind; [by eapply safe_query|]. intros mops (db' & Hg' & ->).
  apply safe_for_acc. intros n2 e He. eapply safe_enqueue_match_operation; [done..|].
  destruct (good_wf db0 db' Hwf Hg') as [Hdb _].
  pose proof (match_sweep_operation_valid db' cid e Hdb He) as Hv. 
  change (op_valid (static db0) e.1.1). fold st. by rewrite <- (good_static st db' Hg').
Qed.

Lemma idle_write_results items :
  Forall (λ item, op_valid db0 item.1) items → idles (write_results (Q:=Q) items).
Proof.
  intros Hitems. eapply idle_with_session. intros w0 Hw0. pose proof (session_session_inv st w0) as HI.
  cbv zeta. apply safe_then.
  { apply safe_for_each. intros g [(item & Hin & Hk) _]%group_items. apply safe_write_group; [done..|].
    apply (proj1 (Forall_forall _ _) Hitems) in Hin.
    destruct g as [[[ty i] di] rs]. injection Hk as -> -> ->. exact Hin. }
  intros _. apply safe_then; [by eapply safe_commit|]. intros _.
  apply safe_then; [by apply safe_for_each; intros; apply safe_complete_group|]. intros _.
  apply safe_then; [by eapply safe_commit|]. intros _.
  apply safe_for_each. intros t _. by apply safe_end_group.
Qed.

Lemma idle_invalidate_submission self cid sid did pid tid level :
  idles (invalidate_submission (Q:=Q) self cid sid did pid tid level).
Proof.
  unfold invalidate_submission. eapply triple_bind; [apply triple_lift; [intros w l Hw _; exact Hw|done]|].
  intros l. cbv zeta. apply idle_with_session with (R := λ _, True). intros w0 Hw0. pose proof (session_session_inv st w0) as HI.
  apply safe_then.
  { destruct did as [i|]; [|by apply safe_ret]. destruct (_ && _); [|by apply safe_ret].
    eapply safe_bind; [by eapply safe_query_res|]. intros d _. by apply safe_ret. }
  intros tid'. eapply safe_bind; [by eapply safe_query_res|]. intros submissions (db & Hg & Hs).
  eapply safe_bind; [by eapply safe_query|]. intros operations _.
  apply safe_then; [by apply safe_for_each; intros; eapply safe_zoom|]. intros _.
  eapply safe_bind; [by eapply safe_query_res|]. intros srs _. apply safe_then.
  { apply safe_for_each. intros sr _. apply safe_change_sr.
    - destruct l; [apply invalidate_compilation_ok|apply invalidate_evaluation_ok].
    - by destruct l.
    - right. by destruct l. }
  intros _. apply safe_then; [|intros _; by eapply safe_commit].
  apply safe_for_each. intros s Hin. apply safe_then; [|intros _; by apply safe_ret].
  apply safe_submission_enqueue_operations; [done|]. unfold get_submissions in Hs.
  destruct (_ || _); [done|]. injection Hs as <-. apply list_elem_of_filter in Hin as [_ Hin].
  destruct (good_tables st db Hg) as (_ & _ & _ & E & _). by rewrite E in Hin.
Qed.
End top.

(** ** Any sequence of calls *)

Inductive call : Type :=
  | CNewSubmission (submission_id : Z)
  | CNewMatch (match_id : Z)
  | CNewUserTest (user_test_id : Z)
  | CSweep (contest_id : option Z)
  | CWriteResults (items : list (ESOperation * Result))
  | CInvalidate (contest_id submission_id dataset_id participation_id task_id : option Z) (level : string).

Definition valid_call (db : Db) (c : call) : Prop :=
  match c with
  | CWriteResults items => Forall (λ item, op_valid db item.1) items
  | _ => True
  end.

(** The two submissions of a match are to its task. *)
Definition match_tasks (db : Db) : Prop :=
  ∀ m s, m ∈ db_matches db → s ∈ db_submissions db →
    sub_id s = m_submission1_id m ∨ sub_id s = m_submission2_id m → sub_task_id s = m_task_id m.

Section serve.
Context {Q : Type} `{!PQueue ESOperation Q} (self_contest_id : option Z).
Implicit Types (w : World Q).

Definition handle_call (c : call) : M (World Q) unit :=
  match c with
  | CNewSubmission i => new_submission i
  | CNewMatch i => new_match i
  | CNewUserTest i => new_user_test i
  | CSweep cid => _ ← _missing_operations cid; mret tt
  | CWriteResults items => write_results items
  | CInvalidate cid sid did pid tid level =>
      invalidate_submission self_contest_id cid sid did pid tid level
  end.

(** The calls, one after the other, exceptions included; between two of them
    the rest of the service does what it wants with the dispatcher. *)
Fixpoint serve (calls : list (call * (Dispatcher Q Result → Dispatcher Q Result))) (w : World Q) : World Q :=
  match calls with
  | [] => w
  | (c, f) :: calls => let w := (handle_call c w).2 in serve calls (set_dispatcher (f (dispatcher w)) w)
  end.

Lemma wf_tables db : db_wf db → match_tasks db → tables_ok (static db).
Proof. intros Hwf Hm. split; try apply Hwf. exact Hm. Qed.

Lemma idle_handle_call db c :
  db_wf db → tables_ok (static db) → valid_call db c → idles db (handle_call c).
Proof.
  intros Hwf Ht Hv. destruct c; cbn [handle_call].
  - by apply idle_new_submission.
  - by apply idle_new_match.
  - by apply idle_new_user_test.
  - eapply triple_bind; [by apply idle_missing_operations|]. intros n. by apply triple_ret.
  - by apply idle_write_results.
  - by apply idle_invalidate_submission.
Qed.

Lemma idle_serve db calls w :
  db_wf db → tables_ok (static db) → Forall (λ c, valid_call db c.1) calls → idle db w →
  idle db (serve calls w).
Proof.
  intros Hwf Ht Hc. revert w. induction Hc as [|[c f] calls Hv _ IH]; intros w Hw; [done|].
  cbn [serve]. apply IH. pose proof (idle_handle_call db c Hwf Ht Hv w Hw) as Hi.
  assert (idle db (handle_call c w).2) as Hw' by (by destruct (handle_call c w) as [[]]).
  exact Hw'.
Qed.

(** C8. Whatever the requests, whatever the operations written, and however
    the handlers end (an exception in the middle of a session included), the
    database that the other services see keeps its constraints, a result has
    at most one evaluation on a testcase, of its own data set, and a
    submission is marked as evaluated only if every testcase of the data set
    has its evaluation; the other tables are not changed. *)
Theorem handlers_keep_database calls w :
  db_wf (committed w) → evaluated_complete (committed w) → match_tasks (committed w) →
  pending w = [] → in_savepoint w = false →
  Forall (λ c, valid_call (committed w) c.1) calls →
  db_wf (committed (serve calls w)) ∧ evaluated_complete (committed (serve calls w)) ∧
  static (committed (serve calls w)) = static (committed w).
Proof.
  intros Hwf Hc Hm Hp Hs Hv. assert (idle (committed w) w) as Hw.
  { split_and!; [by apply good_intro|done..]. }
  eapply idle_serve in Hw as (Hg & _); [|done|by apply wf_tables|exact Hv].
  split_and!; [..|apply Hg]; by apply (good_wf (committed w)).
Qed.
End serve.

(** ** A submission to a Batch task, compiled and evaluated *)

Definition judge_db : Db := mkDb
  [mkContest 5 0 9000 [] "contest" "A contest" 0 no_limits] [mkParticipation 1 5 1 false false None] [mkTask 1 (Some 5%Z) (Some 1%Z) 1 "A task" "max_tokened_last" 0 false "task" (Some 0%Z) ["task.%l"] no_limits]
  [mkDataset 1 1 false None None "Batch" [] [] "Sum" (JInt 50)]
  [mkTestcase 1 1 "a" "in" "out" true; mkTestcase 2 1 "b" "in" "out" true]
  [mkSubmission 10 1 1 1000 None true None None] [] [] [] [] [] [] [] [mkUser 1 "A" "B" "user1"; mkUser 2 "C" "D" "user2"] [] [].

Lemma judge_db_wf : db_wf judge_db.
Proof.
  split; try nodup_compute; try (by intros ? ? ?%elem_of_nil); try (by intros ? ?%elem_of_nil).
  - intros t1 t2 H1 H2 E1 E2. elem_cases; done.
  - intros d Hd. exists (mkTask 1 (Some 5%Z) (Some 1%Z) 1 "A task" "max_tokened_last" 0 false "task" (Some 0%Z) ["task.%l"] no_limits). split; [by left|]. elem_cases; done.
Qed.

Definition compile10 : ESOperation := mkESOperation COMPILATION 10 1 None.
Definition evaluate10 (c : string) : ESOperation := mkESOperation EVALUATION 10 1 (Some c).

Definition done_job (op : ESOperation) : Job :=
  mkJob (Some op) "Batch" (JList []) None false None false [] "" (Some true) (Some []) [] [] [].

Definition compiled10 : ESOperation * Result :=
  (compile10, mkResult (JCompilation (mkCompilationJob (done_job compile10) (Some true) (Some []))) true).

Definition evaluated10 (c o : string) : ESOperation * Result :=
  (evaluate10 c,
   mkResult (JEvaluation (mkEvaluationJob (done_job (evaluate10 c))
     (mkEvaluationData None None None None (Some o) None (Some []) false false))) true).

(** The second evaluation on a testcase is refused by the database. *)
Definition judge_calls : list (call * (Dispatcher (PriorityQueue ESOperation) Result →
    Dispatcher (PriorityQueue ESOperation) Result)) :=
  [(CNewSubmission 10, id); (CWriteResults [compiled10], id);
   (CWriteResults [evaluated10 "a" "1.0"; evaluated10 "a" "0.5"; evaluated10 "b" "0.0"], id)].

Definition judge_world : World (PriorityQueue ESOperation) :=
  mkWorld judge_db [] false (ds_init [true] 0) [].

Lemma handlers_keep_database_witness :
  (λ r, (SR.evaluated r, ev_outcome <$> sr_evaluations r)) <$>
    db_submission_results (committed (serve None judge_calls judge_world)) =
    [(true, [Some "1.0"%string; Some "0.0"%string])] ∧
  outbox (serve None judge_calls judge_world) = [NewEvaluation 10 1] ∧
  evaluated_complete (committed (serve None judge_calls judge_world)).
Proof.
  split; [vm_compute; reflexivity|]. split; [vm_compute; reflexivity|].
  apply (handlers_keep_database None judge_calls judge_world).
  - exact judge_db_wf.
  - by intros r ?%elem_of_nil.
  - by intros m s ?%elem_of_nil.
  - reflexivity.
  - reflexivity.
  - assert (∀ c o, op_valid judge_db (evaluated10 c o).1) as He.
    { intros c o d Hd _ s Hs _. elem_cases; done. }
    assert (op_valid judge_db compile10) as Hc by (intros d Hd _ s Hs _; elem_cases; done).
    repeat constructor; try done; apply He.
Defined.
