(* ===== verification/EvalServiceSpec.v ===== *)
(** * What the evaluation service promises for ordinary task types

    Enqueuing the operations of a submission, and the sweep over the whole
    database, when no data set is of the PvP task type: what is put in the
    queue, which results are finalized and reported, and that the calls
    return. The hand-over to the dispatcher is [ds_enqueue], whose
    specification is in EvalExecutor. *)

From S2P Require Import Prelude PriorityQueue Executor WorkerPool PyFloat.
From S2P Require Import Database DbUtil EsOperations FlushingDict EvalExecutor Languages TaskTypes Job.
From S2P Require Import EvalService EvalServiceRows EvalServiceSafe.

(** ** Offering operations to the dispatcher *)

Section offers.
Context {R : Type}.
Implicit Types (l : list entry) (m : ESOperation → option (place R)).

(** Where the first entry for an operation puts it. *)
Definition offer l (op : ESOperation) : option (place R) :=
  (λ e, Queued e.1.2 e.2) <$> head (filter (λ e : entry, e.1.1 = op) l).

(** An operation that is held stays where it is. *)
Definition placed l m (op : ESOperation) : option (place R) :=
  match m op with Some x => Some x | None => offer l op end.

(** The operations that are put in the queue. *)
Definition fresh l m : gset ESOperation := list_to_set (filter (λ op, m op = None) (l.*1.*1)).

Lemma offer_cons e l op :
  offer (e :: l) op = if decide (e.1.1 = op) then Some (Queued e.1.2 e.2) else offer l op.
Proof. unfold offer. rewrite filter_cons. by case_decide. Qed.

Lemma offer_app l1 l2 op :
  offer (l1 ++ l2) op = match offer l1 op with Some x => Some x | None => offer l2 op end.
Proof.
  induction l1 as [|e l1 IH]; [done|]. cbn [app]. rewrite !offer_cons, IH. by case_decide.
Qed.

Lemma offer_held l e : e ∈ l → offer l e.1.1 ≠ None.
Proof.
  induction l as [|e' l IH]; [by intros ?%elem_of_nil|]. rewrite offer_cons.
  intros [->|He]%elem_of_cons; [by rewrite decide_True|]. case_decide; [done|auto].
Qed.

Lemma placed_app l1 l2 m op : placed l2 (placed l1 m) op = placed (l1 ++ l2) m op.
Proof. unfold placed. rewrite offer_app. by destruct (m op), (offer l1 op). Qed.

Lemma placed_nil m op : placed [] m op = m op.
Proof. unfold placed. by destruct (m op). Qed.

Lemma offer_subset l l2 op : l2 ⊆ l → offer l op = None → offer l2 op = None.
Proof.
  intros Hs Ho. destruct (offer l2 op) eqn:Ho2; [|done]. exfalso.
  unfold offer in Ho2. destruct (head _) as [e|] eqn:He; [|done]. apply head_filter_in in He as [He <-].
  by apply (offer_held l e (Hs e He)).
Qed.

(** Offering again changes nothing. *)
Lemma placed_again l1 l2 l3 m op :
  l3 ⊆ l1 ++ l2 → placed (l1 ++ (l1 ++ l2) ++ l3) m op = placed (l1 ++ l2) m op.
Proof.
  intros Hs. unfold placed. destruct (m op); [done|]. rewrite !offer_app.
  destruct (offer l1 op) eqn:H1; [done|]. destruct (offer l2 op) eqn:H2; [done|].
  apply (offer_subset (l1 ++ l2)); [done|]. by rewrite offer_app, H1.
Qed.

Lemma placed_ext l m m' : (∀ op, m op = m' op) → ∀ op, placed l m op = placed l m' op.
Proof. intros H op. unfold placed. by rewrite H. Qed.

Lemma fresh_cons e l m :
  size (fresh (e :: l) m) =
  ((if decide (m e.1.1 = None) then 1 else 0) + size (fresh l (placed [e] m)))%nat.
Proof.
  unfold fresh. rewrite !fmap_cons, filter_cons. case_decide as Hm.
  - rewrite list_to_set_cons.
    replace ({[e.1.1]} ∪ list_to_set (filter (λ op, m op = None) l.*1.*1) : gset ESOperation)
      with ({[e.1.1]} ∪ list_to_set (filter (λ op, placed [e] m op = None) l.*1.*1) : gset ESOperation).
    + rewrite size_union, size_singleton; [done|]. intros op ->%elem_of_singleton.
      rewrite elem_of_list_to_set. intros [Hp _]%list_elem_of_filter. unfold placed in Hp.
      rewrite Hm, offer_cons, decide_True in Hp by done. done.
    + apply set_eq. intros op. rewrite !elem_of_union, !elem_of_singleton, !elem_of_list_to_set, !list_elem_of_filter.
      unfold placed. rewrite offer_cons. destruct (decide (e.1.1 = op)) as [->|Hne].
      * split; intros _; by left.
      * destruct (m op); naive_solver.
  - cbn. f_equal. f_equal. apply list_filter_iff. intros op. unfold placed. destruct (m op) eqn:Ho; [done|].
    rewrite offer_cons, decide_False; [done|]. congruence.
Qed.
End offers.

(** ** Loops that enqueue operations *)

Section enqueue.
Context {Q : Type} `{!PQueue ESOperation Q}.
Implicit Types (c : Db) (ds : Dispatcher Q Result) (out : list rpc) (l : list entry).

(** A session without changes. *)
Definition fresh_session c ds out : World Q := mkWorld c [] false ds out.

(** The operation is not one that [prepare_pvp_evaluation] prepares. *)
Definition ordinary_op c (op : ESOperation) : Prop :=
  (type_ op ≠ EVALUATION ∧ type_ op ≠ MATCH) ∨
  ∃ d, get_dataset c (dataset_id op) = Some d ∧ ds_task_type d ≠ "PvP"%string.

Lemma prepare_ordinary c ds out op :
  ordinary_op c op →
  prepare_pvp_evaluation op (fresh_session c ds out) = (Ok tt, fresh_session c ds out).
Proof.
  intros [Ht|(d & Hd & Ht)]; unfold prepare_pvp_evaluation, with_session, query, fresh_session;
    run_goal; cbn -[decide].
  - by rewrite decide_True.
  - case_decide; [done|]. unfold view. cbn -[decide]. rewrite Hd. cbn -[decide].
    by rewrite decide_True.
Qed.

(** One turn of a loop hands its entry over. *)
Definition hands_over c out (f : Z → entry → M (World Q) Z) (e : entry) : Prop :=
  ∀ n ds b ds', ds_enqueue e.1.1 e.1.2 e.2 ds = (Ok b, ds') →
    f n e (fresh_session c ds out) = (Ok (if b : bool then n + 1 else n)%Z, fresh_session c ds' out).

Lemma enqueue_loop c out f l n ds :
  (∀ e, e ∈ l → hands_over c out f e) → ds_inv ds →
  ∃ ds', for_acc f n l (fresh_session c ds out) =
      (Ok (n + Z.of_nat (size (fresh l (place_of ds))))%Z, fresh_session c ds' out) ∧
    ds_inv ds' ∧ ∀ op, place_of ds' op = placed l (place_of ds) op.
Proof.
  revert n ds. induction l as [|e l IH]; intros n ds Hl Hi.
  - exists ds. split_and!; [|done|intros op; by rewrite placed_nil].
    cbn. by rewrite Z.add_0_r.
  - destruct (ds_enqueue_spec e.1.1 e.1.2 e.2 ds Hi) as (ds1 & He & Hi1 & _ & _ & _ & _ & Hp1).
    destruct (IH (if decide (place_of ds e.1.1 = None) then n + 1 else n)%Z ds1) as (ds' & Hrun & Hi' & Hp').
    { intros e' He'. apply Hl. by right. }
    { done. }
    assert (∀ op, place_of ds1 op = placed [e] (place_of ds) op) as Hp1'.
    { intros op. rewrite Hp1. unfold placed. rewrite offer_cons. unfold offer. cbn.
      destruct (decide (op = e.1.1 ∧ _)) as [[-> Hn]|Hn]; [rewrite Hn, decide_True; done|].
      destruct (place_of ds op) eqn:Ho; [done|]. rewrite decide_False; [done|]. intros <-. by apply Hn. }
    exists ds'. split_and!; [|done|].
    + cbn [for_acc]. erewrite M_run_Ok; [|by apply (Hl e); [by left|exact He]].
      assert (fresh l (place_of ds1) = fresh l (placed [e] (place_of ds))) as Hf.
      { unfold fresh. f_equal. apply list_filter_iff. intros op. by rewrite Hp1'. }
      rewrite fresh_cons, <- Hf.
      replace (if bool_decide (place_of ds e.1.1 = None) then (n + 1)%Z else n)
        with (if decide (place_of ds e.1.1 = None) then (n + 1)%Z else n)
        by (by case_decide; [rewrite bool_decide_eq_true_2|rewrite bool_decide_eq_false_2]).
      rewrite Hrun. f_equal. f_equal. case_decide; lia.
    + intros op. rewrite Hp'. rewrite (placed_ext l _ _ Hp1'). apply (placed_app [e] l).
Qed.

Lemma enqueue_operation_run c ds out e b ds' :
  ds_enqueue e.1.1 e.1.2 e.2 ds = (Ok b, ds') →
  enqueue_operation e (fresh_session c ds out) = (Ok b, fresh_session c ds' out).
Proof. intros He. unfold enqueue_operation, zoom, fresh_session. cbn [dispatcher]. by rewrite He. Qed.

Lemma count_pushed_hands_over c out e : hands_over c out count_pushed e.
Proof.
  intros n ds b ds' He. unfold count_pushed.
  by rewrite (M_run_Ok _ _ _ _ _ (enqueue_operation_run c ds out e b ds' He)).
Qed.

Lemma match_hands_over c out e : ordinary_op c e.1.1 → hands_over c out enqueue_match_operation e.
Proof.
  intros Ho n ds b ds' He. unfold enqueue_match_operation.
  rewrite (M_run_Ok _ _ _ _ _ (enqueue_operation_run c ds out e b ds' He)).
  destruct b; [|done]. by rewrite (M_run_Ok _ _ _ _ _ (prepare_ordinary c ds' out _ Ho)).
Qed.

Lemma submission_hands_over c out s e d :
  submission_dataset c s = Ok d → ds_task_type d ≠ "PvP"%string → ordinary_op c e.1.1 →
  hands_over c out (enqueue_submission_operation s) e.
Proof.
  intros Hd Ht Ho n ds b ds' He. unfold enqueue_submission_operation.
  assert (query_res (λ db, submission_dataset db s) (fresh_session c ds out) = (Ok d, fresh_session c ds out)) as Hq.
  { unfold query_res, query. run_goal. unfold view, fresh_session. cbn. by rewrite Hd. }
  rewrite (M_run_Ok _ _ _ _ _ Hq). rewrite bool_decide_eq_true_2 by done. cbn [orb].
  rewrite (M_run_Ok _ _ _ _ _ (enqueue_operation_run c ds out e b ds' He)).
  destruct b; [done|]. by rewrite (M_run_Ok _ _ _ _ _ (prepare_ordinary c ds' out _ Ho)).
Qed.
End enqueue.

(** ** The sweep *)

Lemma fresh_ext {R} l (m m' : ESOperation → option (place R)) :
  (∀ op, m op = m' op) → fresh l m = fresh l m'.
Proof. intros H. unfold fresh. f_equal. apply list_filter_iff. intros op. by rewrite H. Qed.

Lemma fresh_app {R} l1 l2 (m : ESOperation → option (place R)) :
  size (fresh (l1 ++ l2) m) = (size (fresh l1 m) + size (fresh l2 (placed l1 m)))%nat.
Proof.
  revert m. induction l1 as [|e l1 IH]; intros m.
  - change (fresh [] m) with (∅ : gset ESOperation). rewrite size_empty. cbn [app].
    rewrite Nat.add_0_l. f_equal. apply fresh_ext. intros op. by rewrite placed_nil.
  - cbn [app]. rewrite !fresh_cons, IH, Nat.add_assoc. f_equal. f_equal. apply fresh_ext. intros op.
    apply (placed_app [e] l1).
Qed.

Lemma placed_held {R} l (m : ESOperation → option (place R)) e : e ∈ l → placed l m e.1.1 ≠ None.
Proof. intros He. unfold placed. destruct (m e.1.1); [done|]. by apply offer_held. Qed.

(** Every task has an active data set and no data set is for the PvP task
    type. *)
Record ordinary (c : Db) : Prop := {
  ordinary_wf : db_wf c;
  ordinary_active t : t ∈ db_tasks c → ∃ d, d ∈ db_datasets c ∧ task_active_dataset_id t = Some (ds_id d);
  ordinary_type d : d ∈ db_datasets c → ds_task_type d ≠ "PvP"%string;
}.

Section rows.
Context (c : Db) (Hc : ordinary c).

Lemma get_dataset_row d : d ∈ db_datasets c → get_dataset c (ds_id d) = Some d.
Proof.
  intros Hd. apply head_filter_unique; [done|done|].
  intros y Hy Hk. by eapply (key_unique ds_id); [apply Hc|..].
Qed.

Lemma get_submission_row s : s ∈ db_submissions c → get_submission c (sub_id s) = Some s.
Proof.
  intros Hs. apply head_filter_unique; [done|done|].
  intros y Hy Hk. by eapply (key_unique sub_id); [apply Hc|..].
Qed.

Lemma submission_dataset_row s t :
  t ∈ db_tasks c → task_id t = sub_task_id s →
  ∃ d, submission_dataset c s = Ok d ∧ ds_task_type d ≠ "PvP"%string.
Proof.
  intros Ht Hk. destruct (ordinary_active c Hc t Ht) as (d & Hd & Ha). exists d. split; [|by apply Hc].
  unfold submission_dataset. rewrite <- Hk, get_task_row by (done || apply Hc).
  cbn [or_raise mbind res_bind]. rewrite Ha. cbn [or_raise mbind res_bind]. by rewrite get_dataset_row.
Qed.

Lemma ordinary_op_row op d : d ∈ db_datasets c → dataset_id op = ds_id d → ordinary_op c op.
Proof. intros Hd Hi. right. exists d. rewrite Hi. split; [by apply get_dataset_row|by apply Hc]. Qed.

Lemma sweep_hands_over {Q} `{!PQueue ESOperation Q} out cid e :
  e ∈ get_submissions_operations c cid → hands_over (Q:=Q) c out sweep_submission e.
Proof.
  intros He. destruct (submissions_sweep_rows c (ordinary_wf c Hc) cid e He) as (s & t & d & Hs & Hj & Ho & Hi & _).
  intros n ds b ds' Henq. unfold sweep_submission.
  assert (query_res (λ db, or_raise AttributeError (get_submission db (object_id e.1.1))) (fresh_session (Q:=Q) c ds out)
    = (Ok s, fresh_session c ds out)) as Hq.
  { unfold query_res, query. run_goal. unfold view, fresh_session. cbn. by rewrite Ho, get_submission_row. }
  rewrite (M_run_Ok _ _ _ _ _ Hq).
  destruct (submission_dataset_row s t) as (d' & Hd' & Ht'); [apply Hj|apply Hj|].
  by eapply submission_hands_over; [exact Hd'|done|eapply ordinary_op_row; [apply Hj|done]|].
Qed.

Lemma match_sweep_hands_over {Q} `{!PQueue ESOperation Q} out cid e :
  e ∈ get_match_operations c cid → hands_over (Q:=Q) c out enqueue_match_operation e.
Proof.
  intros He. apply match_hands_over. unfold get_match_operations in He. rewrite list_elem_of_bind in He.
  destruct He as (r & Hx & Hr). apply list_elem_of_bind in Hx as (d & Hx & Hd).
  apply list_elem_of_bind in Hx as (m & Hx & Hm). apply list_elem_of_bind in Hx as (t & Hx & Ht).
  apply list_elem_of_bind in Hx as (tc & Hx & Htc). apply list_elem_of_bind in Hx as (g & Hx & Hg).
  apply elem_of_join_dec in Hd as [Hd Hdk]. apply elem_of_if in Hx as [_ ->].
  by apply (ordinary_op_row _ d).
Qed.
End rows.

(** All that the sweeper looks for, in its order. *)
Definition sweep_operations (c : Db) (cid : option Z) : list entry :=
  get_submissions_operations c cid ++ get_user_tests_operations c cid ++ get_match_operations c cid.

Section sweep.
Context {Q : Type} `{!PQueue ESOperation Q}.
Implicit Types (w : World Q) (ds : Dispatcher Q Result).

Lemma query_run {A} (f : Db → A) c ds out :
  query f (fresh_session (Q:=Q) c ds out) = (Ok (f c), fresh_session c ds out).
Proof. done. Qed.

Lemma sweep_run cid w :
  ordinary (committed w) → ds_inv (dispatcher w) →
  let ops := sweep_operations (committed w) cid in
  ∃ ds', _missing_operations cid w =
      (Ok (Z.of_nat (size (fresh ops (place_of (dispatcher w))))), set_dispatcher ds' w) ∧
    ds_inv ds' ∧ ∀ op, place_of ds' op = placed ops (place_of (dispatcher w)) op.
Proof.
  intros Hc Hi. destruct w as [c p b ds out]. cbn [committed dispatcher] in *. unfold sweep_operations.
  destruct (enqueue_loop c out sweep_submission (get_submissions_operations c cid) 0 ds) as (ds1 & H1 & Hi1 & Hp1);
    [intros e; by apply sweep_hands_over|done|].
  destruct (enqueue_loop c out count_pushed (get_user_tests_operations c cid)
    (0 + Z.of_nat (size (fresh (get_submissions_operations c cid) (place_of ds)))) ds1) as (ds2 & H2 & Hi2 & Hp2);
    [intros e _; apply count_pushed_hands_over|done|].
  destruct (enqueue_loop c out enqueue_match_operation (get_match_operations c cid)
    (0 + Z.of_nat (size (fresh (get_submissions_operations c cid) (place_of ds)))
       + Z.of_nat (size (fresh (get_user_tests_operations c cid) (place_of ds1)))) ds2) as (ds3 & H3 & Hi3 & Hp3);
    [intros e; by apply match_sweep_hands_over|done|].
  exists ds3. split_and!; [|done|].
  - unfold _missing_operations, with_session, set_session. cbn [committed dispatcher outbox].
    change (mkWorld c [] false ds out) with (fresh_session c ds out).
    rewrite (M_run_Ok _ _ _ _ _ (query_run _ c ds out)). rewrite (M_run_Ok _ _ _ _ _ H1).
    rewrite (M_run_Ok _ _ _ _ _ (query_run _ c ds1 out)). rewrite (M_run_Ok _ _ _ _ _ H2).
    rewrite (M_run_Ok _ _ _ _ _ (query_run _ c ds2 out)). rewrite H3.
    unfold set_dispatcher, fresh_session. cbn [committed pending in_savepoint dispatcher outbox].
    f_equal. f_equal. rewrite !fresh_app, (fresh_ext _ _ _ Hp1), (fresh_ext _ _ _ Hp2).
    rewrite (fresh_ext _ _ _ (placed_ext (get_user_tests_operations c cid) _ _ Hp1)). lia.
  - intros op. rewrite Hp3, (placed_ext _ _ _ Hp2), (placed_ext _ _ _ (placed_ext _ _ _ Hp1)).
    rewrite placed_app, placed_app. by rewrite app_assoc.
Qed.
End sweep.

(** C9. When every task has an active data set and none is for PvP, and the
    service has not yet given up a batch of operations for want of its job
    group ([reachable]), a sweep returns the number of the operations that it
    has queued; the database and the calls to the other services are as
    before; an operation that was queued, assigned, executing, cached or being
    written is still where it was, and the others found by the queries are
    queued with their priority. So afterwards the service holds every
    operation that the generator asks for, for the submissions of the contest
    and the data sets to judge, and for the results of matches that are not
    evaluated and have been tried less than the maximum number of times. (Of
    user tests it holds what the query finds, which is not all that their
    generator asks for: [EsOperations.user_tests_sweep_untried].) *)
Theorem sweep_holds_everything {Q} `{!PQueue ESOperation Q} (cid : option Z) (w : World Q) :
  let c := committed w in let m := place_of (dispatcher w) in
  ordinary c → reachable (dispatcher w) →
  ∃ ds', _missing_operations cid w =
      (Ok (Z.of_nat (size (fresh (sweep_operations c cid) m))), set_dispatcher ds' w) ∧
    (∀ op, place_of ds' op = placed (sweep_operations c cid) m op) ∧
    (∀ s t d e, s ∈ db_submissions c → judged c cid (sub_task_id s) t d →
       e ∈ submission_get_operations c (find_submission_result c (sub_id s) (Some (ds_id d))) s d →
       place_of ds' e.1.1 ≠ None) ∧
    (∀ mt t d r ops e, mt ∈ db_matches c → judged c cid (m_task_id mt) t d →
       find_match_result c (m_id mt) (Some (ds_id d)) = Some r → match_to_evaluate (Some r) = true →
       match_get_operations c (Some r) mt d = Ok ops → e ∈ ops → place_of ds' e.1.1 ≠ None).
Proof.
  intros c m Hc Hr. destruct (sweep_run cid w Hc (reachable_inv _ Hr)) as (ds' & Hrun & _ & Hp).
  assert (∀ t, t ∈ db_tasks c → is_some (task_active_dataset_id t) = true) as Ha.
  { intros t Ht. by destruct (ordinary_active c Hc t Ht) as (d & _ & ->). }
  assert (∀ e, e ∈ sweep_operations c cid → place_of ds' e.1.1 ≠ None) as Hheld.
  { intros e He. rewrite Hp. by apply placed_held. }
  exists ds'. split_and!; [done|done|..].
  - intros s t d e Hs Hj He. apply Hheld. apply elem_of_app. left.
    apply submissions_sweep_all; [apply Hc|done|]. by exists s, t, d.
  - intros mt t d r ops [[op q] ts] Hm Hj Hf Hev Hops He.
    apply (Hheld (op, if active c d && negb (mr_evaluation_tries r =? 0)%Z then PRIORITY_LOW else q, ts)).
    do 2 (apply elem_of_app; right).
    apply matches_sweep_all; [apply Hc|done|]. exists mt, t, d, r, ops, q. by split_and!.
Qed.

(** The result of [f], if the call returns. *)
Definition returned {S A} (r : Prelude.res A * S) : option A := match r.1 with Ok a => Some a | _ => None end.

Lemma judge_db_ordinary : ordinary judge_db.
Proof.
  split; [exact judge_db_wf|..].
  - intros t Ht. elem_cases. exists (mkDataset 1 1 false None None "Batch" [] [] "Sum" (JInt 50)). split; [by left|done].
  - intros d Hd. elem_cases; done.
Qed.

Lemma judge_world_reachable : reachable (dispatcher judge_world).
Proof. exists [true], 0%Z. split; [done|]. apply rtc_refl. Qed.

Lemma sweep_holds_everything_witness :
  returned (_missing_operations (Some 5%Z) judge_world) = Some 1%Z ∧
  place_of (dispatcher (_missing_operations (Some 5%Z) judge_world).2) compile10 =
    Some (Queued PRIORITY_HIGH 1000) ∧
  ∃ ds', _missing_operations (Some 5%Z) judge_world = (Ok 1%Z, set_dispatcher ds' judge_world) ∧
    place_of ds' compile10 ≠ None.
Proof.
  split; [vm_compute; reflexivity|]. split; [vm_compute; reflexivity|].
  destruct (sweep_holds_everything (Some 5%Z) judge_world judge_db_ordinary judge_world_reachable)
    as (ds' & Hrun & Hp & _).
  exists ds'. split; [|rewrite Hp; vm_compute; discriminate]. rewrite Hrun.
  by f_equal.
Defined.

(** ** Enqueuing the operations of a submission *)

Section ready.
Implicit Types (c : Db) (s : Submission) (d : Dataset) (r : SubmissionResult).

(** Nothing is missing but the outcome. *)
Definition row_ready c s d r : bool :=
  submission_to_evaluate (Some r) && bool_decide (submission_get_operations c (Some r) s d = []).

Definition result_of c s d : option SubmissionResult :=
  find_submission_result c (sub_id s) (Some (ds_id d)).

Definition ready c s d : bool := match result_of c s d with Some r => row_ready c s d r | None => false end.

Definition to_judge c s : list Dataset := get_datasets_to_judge c (sub_task_id s).

(** The data sets whose results are finalized. *)
Definition ready_datasets c s : list Dataset := filter (λ d, ready c s d = true) (to_judge c s).

Definition settle c s r : SubmissionResult :=
  if existsb (λ d, bool_decide (sr_key r = (sub_id s, ds_id d)) && row_ready c s d r) (to_judge c s)
  then SR.set_evaluation_outcome r else r.

(** The results of [s] that are ready are finalized. *)
Definition finalize c s : Db := with_results (fmap (settle c s)) c.

Definition operations_on c s d : list entry := submission_get_operations c (result_of c s d) s d.

Definition wanted c s : list entry := d ← to_judge c s; operations_on c s d.

Lemma row_ready_done c s d r : row_ready c s d (SR.set_evaluation_outcome r) = false.
Proof.
  unfold row_ready, submission_to_evaluate. apply andb_false_iff. left.
  change (SR.evaluated (SR.set_evaluation_outcome r)) with true. by rewrite andb_false_r.
Qed.

(** A finalized result asks for nothing, as before. *)
Lemma operations_done c s d r :
  row_ready c s d r = true →
  submission_get_operations c (Some (SR.set_evaluation_outcome r)) s d =
  submission_get_operations c (Some r) s d.
Proof.
  intros Hr. pose proof (row_ready_done c s d r) as Hd. unfold row_ready in *.
  apply andb_true_iff in Hr as [He Ho%bool_decide_eq_true]. rewrite Ho.
  assert (submission_to_compile (Some (SR.set_evaluation_outcome r)) = false) as Hc.
  { unfold submission_to_evaluate, SR.compilation_succeeded in He.
    unfold submission_to_compile, SR.compiled, SR.set_evaluation_outcome. cbn.
    by destruct (sr_compilation_outcome r), (sr_submission_discarded r). }
  assert (submission_to_evaluate (Some (SR.set_evaluation_outcome r)) = false) as Hev.
  { unfold submission_to_evaluate. change (SR.evaluated (SR.set_evaluation_outcome r)) with true.
    by rewrite andb_false_r. }
  unfold submission_get_operations. by rewrite Hc, Hev.
Qed.

Lemma find_fmap g c i j :
  (∀ r, sr_key (g r) = sr_key r) →
  find_submission_result (with_results (fmap g) c) i j = g <$> find_submission_result c i j.
Proof.
  intros Hg. unfold find_submission_result. cbn [with_results db_submission_results].
  induction (db_submission_results c) as [|r l IH]; [done|]. rewrite fmap_cons, !filter_cons.
  specialize (Hg r). injection Hg as H1 H2. rewrite H1, H2. by case_decide.
Qed.

Lemma settle_key c s r : sr_key (settle c s r) = sr_key r.
Proof. unfold settle. by destruct (existsb _ _). Qed.

Lemma result_key c s d r : result_of c s d = Some r → sr_key r = (sub_id s, ds_id d).
Proof.
  unfold result_of, find_submission_result. intros (_ & H1 & [= H2])%head_filter_in. unfold sr_key. congruence.
Qed.

Lemma result_in c s d r : result_of c s d = Some r → r ∈ db_submission_results c.
Proof. unfold result_of, find_submission_result. by intros (? & _)%head_filter_in. Qed.

Context (c : Db) (s : Submission).
Hypothesis Hids : NoDup (ds_id <$> to_judge c s).
Hypothesis Hkeys : NoDup (sr_key <$> db_submission_results c).

Lemma settle_result d r :
  d ∈ to_judge c s → result_of c s d = Some r →
  settle c s r = if row_ready c s d r then SR.set_evaluation_outcome r else r.
Proof.
  intros Hd Hr. unfold settle. apply result_key in Hr.
  assert (existsb (λ d, bool_decide (sr_key r = (sub_id s, ds_id d)) && row_ready c s d r) (to_judge c s)
    = row_ready c s d r) as ->; [|done]. destruct (row_ready c s d r) eqn:Hrr.
  - apply existsb_exists. exists d. split; [by apply list_elem_of_In|].
    by rewrite bool_decide_eq_true_2, Hrr.
  - apply not_true_is_false. intros (d' & Hd' & [Hk%bool_decide_eq_true Hrr']%andb_true_iff)%existsb_exists.
    apply list_elem_of_In in Hd'. assert (d' = d) as ->; [|congruence].
    eapply (key_unique ds_id); [exact Hids|done..|congruence].
Qed.

Lemma finalize_result d :
  d ∈ to_judge c s → result_of (finalize c s) s d =
    (λ r, if row_ready c s d r then SR.set_evaluation_outcome r else r) <$> result_of c s d.
Proof.
  intros Hd. unfold result_of at 1, finalize. rewrite find_fmap by apply settle_key.
  fold (result_of c s d). destruct (result_of c s d) as [r|] eqn:Hr; [|done]. cbn [fmap option_fmap option_map].
  f_equal. by apply settle_result.
Qed.

Lemma finalize_ready d : d ∈ to_judge c s → ready (finalize c s) s d = false.
Proof.
  intros Hd. unfold ready. rewrite finalize_result by done.
  destruct (result_of c s d) as [r|]; [|done]. cbn [fmap option_fmap option_map].
  destruct (row_ready c s d r) eqn:Hr; [apply row_ready_done|done].
Qed.

Lemma finalize_operations d : d ∈ to_judge c s → operations_on (finalize c s) s d = operations_on c s d.
Proof.
  intros Hd. unfold operations_on. rewrite finalize_result by done.
  destruct (result_of c s d) as [r|]; [|done]. cbn [fmap option_fmap option_map].
  destruct (row_ready c s d r) eqn:Hr; [by apply (operations_done c)|done].
Qed.

Lemma finalize_nothing : ready_datasets c s = [] → finalize c s = c.
Proof.
  intros Hn. unfold finalize. assert (settle c s <$> db_submission_results c = db_submission_results c) as He.
  { rewrite <- (list_fmap_id (db_submission_results c)) at 2. apply list_fmap_ext. intros i r Hr%list_elem_of_lookup_2.
    unfold settle. destruct (existsb _ _) eqn:He; [|done]. exfalso.
    apply existsb_exists in He as (d & Hd & [Hk%bool_decide_eq_true Hrr]%andb_true_iff).
    apply list_elem_of_In in Hd. assert (d ∈ ready_datasets c s) as Hin; [|rewrite Hn in Hin; by apply elem_of_nil in Hin].
    apply list_elem_of_filter. split; [|done]. unfold ready.
    assert (result_of c s d = Some r) as ->; [|done]. injection Hk as H1 H2.
    apply head_filter_unique; [done|by rewrite H1, H2|]. intros y Hy [E1 [= E2]].
    eapply (key_unique sr_key); [exact Hkeys|done..|]. unfold sr_key. congruence. }
  destruct c. cbn in *. unfold with_results. cbn. by rewrite He.
Qed.

(** One result is finalized. *)
Definition set_one d : Db :=
  with_results (on_row sr_key (sub_id s, ds_id d) SR.set_evaluation_outcome) c.

Lemma set_one_result d d' :
  result_of (set_one d) s d' =
    (if decide (ds_id d' = ds_id d) then SR.set_evaluation_outcome <$> result_of c s d' else result_of c s d').
Proof.
  unfold result_of at 1, set_one, on_row. rewrite find_fmap by (intros r; by case_decide).
  fold (result_of c s d'). destruct (result_of c s d') as [r|] eqn:Hr; [|by case_decide].
  apply result_key in Hr. cbn [fmap option_fmap option_map]. rewrite Hr.
  destruct (decide (ds_id d' = ds_id d)) as [->|Hne]; [by rewrite decide_True|].
  rewrite decide_False; [done|]. congruence.
Qed.

Lemma set_one_ready d d' :
  ready (set_one d) s d' = if decide (ds_id d' = ds_id d) then false else ready c s d'.
Proof.
  unfold ready. rewrite set_one_result. case_decide; [|done].
  destruct (result_of c s d'); [apply row_ready_done|done].
Qed.

Lemma set_one_operations d d' :
  d ∈ to_judge c s → d' ∈ to_judge c s → ready c s d = true →
  operations_on (set_one d) s d' = operations_on c s d'.
Proof.
  intros Hd Hd' Hr. unfold operations_on. rewrite set_one_result. case_decide as Hi; [|done].
  assert (d' = d) as -> by (by eapply (key_unique ds_id); [exact Hids|..]).
  unfold ready in Hr. destruct (result_of c s d) as [r|]; [|done]. by apply (operations_done c).
Qed.

Lemma set_one_finalize d :
  d ∈ to_judge c s → ready c s d = true → finalize (set_one d) s = finalize c s.
Proof.
  intros Hd Hr. unfold ready in Hr. destruct (result_of c s d) as [r0|] eqn:Hr0; [|done].
  unfold finalize, set_one. set (k := (sub_id s, ds_id d)).
  assert (settle (set_one d) s <$> on_row sr_key k SR.set_evaluation_outcome (db_submission_results c)
    = settle c s <$> db_submission_results c) as He.
  { unfold on_row. rewrite <- list_fmap_compose. apply list_fmap_ext. intros i r Hin%list_elem_of_lookup_2.
    cbn [compose]. case_decide as Hk; [|done].
    assert (r = r0) as ->.
    { eapply (key_unique sr_key); [exact Hkeys|done|by eapply result_in|].
      by rewrite Hk, (result_key c s d r0). }
    rewrite (settle_result d r0) by done. rewrite Hr. unfold settle.
    destruct (existsb _ _) eqn:Hex; [|done]. exfalso.
    apply existsb_exists in Hex as (d' & _ & [_ Hrr]%andb_true_iff). by rewrite row_ready_done in Hrr. }
  unfold with_results at 1. cbn [db_submission_results with_results].
  change (on_row sr_key k SR.set_evaluation_outcome (db_submission_results c))
    with (db_submission_results (set_one d)) in He.
  unfold with_results. f_equal. exact He.
Qed.

Lemma set_one_ready_datasets pre d post :
  to_judge c s = pre ++ d :: post → (∀ x, x ∈ pre → ready c s x = false) → ready c s d = true →
  ready_datasets c s = d :: ready_datasets (set_one d) s.
Proof.
  intros Hj Hpre Hd. unfold ready_datasets. change (to_judge (set_one d) s) with (to_judge c s).
  rewrite Hj in Hids |- *. rewrite !filter_app, !filter_cons, decide_True by done.
  rewrite decide_False by (rewrite set_one_ready, decide_True; done).
  assert (∀ x, x ∈ pre → ds_id x ≠ ds_id d) as Hpi.
  { intros x Hx Hi. rewrite fmap_app, fmap_cons in Hids. apply NoDup_app in Hids as (_ & Hn & _).
    apply (Hn (ds_id x)); [by apply list_elem_of_fmap_2|]. rewrite Hi. by left. }
  assert (∀ x, x ∈ post → ds_id x ≠ ds_id d) as Hpo.
  { intros x Hx Hi. rewrite fmap_app, fmap_cons in Hids. apply NoDup_app in Hids as (_ & _ & Hn).
    apply NoDup_cons in Hn as [Hn _]. apply Hn. rewrite <- Hi. by apply list_elem_of_fmap_2. }
  rewrite (filter_none (λ x, ready c s x = true) pre) by (intros x Hx; by rewrite Hpre).
  rewrite (filter_none (λ x, ready (set_one d) s x = true) pre)
    by (intros x Hx; by rewrite set_one_ready, decide_False, Hpre by auto).
  cbn [app]. f_equal. apply filter_ext_elem. intros x Hx. by rewrite set_one_ready, decide_False by auto.
Qed.
End ready.

Lemma first_true {A} (g : A → bool) (l : list A) :
  (∀ x, x ∈ l → g x = false) ∨
  ∃ pre x post, l = pre ++ x :: post ∧ (∀ y, y ∈ pre → g y = false) ∧ g x = true.
Proof.
  induction l as [|x l IH]; [left; by intros x ?%elem_of_nil|]. destruct (g x) eqn:Hx.
  - right. exists [], x, l. split_and!; [done|by intros y ?%elem_of_nil|done].
  - destruct IH as [IH|(pre & y & post & -> & Hpre & Hy)].
    + left. intros y [->|Hy]%elem_of_cons; auto.
    + right. exists (x :: pre), y, post. split_and!; [done| |done]. intros z [->|Hz]%elem_of_cons; auto.
Qed.

Section settling.
Context {Q : Type} `{!PQueue ESOperation Q} (c0 : Db) (s : Submission).
Hypothesis Hc0 : ordinary c0.
Hypothesis Hs : s ∈ db_submissions c0.
Implicit Types (ds : Dispatcher Q Result) (out : list rpc) (f : list SubmissionResult → list SubmissionResult).

Lemma query_res_run {A} (g : Db → Prelude.res A) c ds out :
  query_res g (fresh_session (Q:=Q) c ds out) = (g c, fresh_session c ds out).
Proof. unfold query_res, query. run_goal. unfold view, fresh_session. cbn. by destruct (g c). Qed.

Lemma to_judge_row d : d ∈ to_judge c0 s → d ∈ db_datasets c0 ∧ ds_task_id d = sub_task_id s.
Proof.
  unfold to_judge, get_datasets_to_judge, task_datasets.
  by intros [_ [Ht Hd]%list_elem_of_filter]%list_elem_of_filter.
Qed.

Lemma to_judge_ids : NoDup (ds_id <$> to_judge c0 s).
Proof.
  eapply sublist_NoDup; [apply (wf_datasets c0 (ordinary_wf c0 Hc0))|]. apply fmap_sublist.
  unfold to_judge, get_datasets_to_judge, task_datasets. etrans; apply sublist_filter.
Qed.

Lemma result_query f d :
  d ∈ to_judge c0 s →
  submission_get_result (with_results f c0) s (Some d) = Ok (result_of (with_results f c0) s d).
Proof.
  intros [_ Ht]%to_judge_row. unfold submission_get_result, result_dataset_id.
  by rewrite bool_decide_eq_true_2 by done.
Qed.

Lemma operations_hand_over f out d e :
  d ∈ to_judge c0 s → e ∈ operations_on (with_results f c0) s d →
  hands_over (Q:=Q) (with_results f c0) out (enqueue_submission_operation s) e.
Proof.
  intros [Hd Ht]%to_judge_row (_ & Hi & _)%submission_operation_for.
  destruct (wf_dataset_task c0 (ordinary_wf c0 Hc0) d Hd) as (t & Htin & Hti).
  destruct (submission_dataset_row c0 Hc0 s t) as (d' & Hd' & Hp); [done|congruence|].
  eapply submission_hands_over; [exact Hd'|done|]. by apply (ordinary_op_row c0 Hc0 _ d).
Qed.

Lemma ready_condition c d :
  bool_decide (submission_get_operations c (result_of c s d) s d = [])
    && submission_to_evaluate (result_of c s d) = ready c s d.
Proof.
  unfold ready, row_ready. destruct (result_of c s d); [apply andb_comm|apply andb_false_r].
Qed.

(** A data set that is not finalized: its operations are offered. *)
Lemma on_dataset_skip enqueue_all f out d n ds :
  let c := with_results f c0 in
  d ∈ to_judge c0 s → ready c s d = false → ds_inv ds →
  ∃ n' ds', enqueue_on_dataset enqueue_all s n d (fresh_session c ds out) = (Ok n', fresh_session c ds' out) ∧
    ds_inv ds' ∧ ∀ op, place_of ds' op = placed (operations_on c s d) (place_of ds) op.
Proof.
  intros c Hd Hr Hi. destruct (enqueue_loop c out (enqueue_submission_operation s) (operations_on c s d) n ds)
    as (ds' & Hrun & Hi' & Hp); [intros e He; by eapply operations_hand_over|done|].
  eexists _, ds'. split_and!; [|done|done]. unfold enqueue_on_dataset.
  erewrite M_run_Ok by (rewrite query_res_run; unfold c; by rewrite result_query).
  erewrite M_run_Ok by apply query_run. fold (operations_on c s d).
  rewrite (M_run_Ok _ _ _ _ _ Hrun). fold c. rewrite ready_condition, Hr. done.
Qed.

(** A data set that is finalized. *)
Lemma on_dataset_finalize enqueue_all f out d n ds :
  let c := with_results f c0 in
  d ∈ to_judge c0 s → ready c s d = true →
  enqueue_on_dataset enqueue_all s n d (fresh_session c ds out) =
  (_ ← enqueue_all s; mret n)
    (fresh_session (set_one c s d) ds (out ++ [NewEvaluation (sub_id s) (ds_id d)])).
Proof.
  intros c Hd Hr. unfold enqueue_on_dataset.
  erewrite M_run_Ok by (rewrite query_res_run; unfold c; by rewrite result_query).
  erewrite M_run_Ok by apply query_run. fold c. fold (operations_on c s d).
  pose proof (ready_condition c d) as Hrc. rewrite Hr in Hrc.
  pose proof Hrc as [Ho%bool_decide_eq_true Hev]%andb_true_iff. change (operations_on c s d = []) in Ho.
  rewrite Ho. cbn [for_acc]. rewrite (M_run_Ok (mret n) _ _ n _ eq_refl).
  rewrite bool_decide_eq_true_2, Hev by done. cbn [andb]. cbv zeta.
  rewrite (M_run_Ok (change_sr _ _) _ _ tt (add_change (with_results (on_row sr_key (sub_id s, ds_id d)
    SR.set_evaluation_outcome)) (fresh_session c ds out)) eq_refl).
  assert (commit (add_change (with_results (on_row sr_key (sub_id s, ds_id d) SR.set_evaluation_outcome))
    (fresh_session c ds out)) = (Ok tt, fresh_session (set_one c s d) ds out)) as Hcommit by done.
  rewrite (M_run_Ok _ _ _ _ _ Hcommit).
  unfold ready in Hr. destruct (result_of c s d) as [r|] eqn:Hres; [|done].
  assert (the_sr (Q:=Q) (sub_id s, ds_id d) (fresh_session (set_one c s d) ds out)
    = (Ok (SR.set_evaluation_outcome r), fresh_session (set_one c s d) ds out)) as Hsr.
  { unfold the_sr. rewrite query_res_run. cbn [fst snd]. fold (result_of (set_one c s d) s d).
    by rewrite set_one_result, Hres, decide_True. }
  assert (evaluation_ended_with enqueue_all (sub_id s, ds_id d) (fresh_session (set_one c s d) ds out)
    = (_ ← enqueue_all s; mret tt)
        (fresh_session (set_one c s d) ds (out ++ [NewEvaluation (sub_id s) (ds_id d)]))) as He.
  { unfold evaluation_ended_with. rewrite (M_run_Ok _ _ _ _ _ Hsr).
    rewrite (M_run_Ok (query_res _) _ _ s (fresh_session (set_one c s d) ds out)).
    - by rewrite (M_run_Ok _ _ _ tt (fresh_session (set_one c s d) ds
        (out ++ [NewEvaluation (sub_id s) (ds_id d)]))).
    - rewrite query_res_run. cbn [sr_submission_id SR.set_evaluation_outcome].
      apply result_key in Hres. injection Hres as -> _.
      change (get_submission (set_one c s d)) with (get_submission c0).
      by rewrite (get_submission_row c0 Hc0). }
  unfold mbind at 1, M_bind at 1. rewrite He. unfold mbind, M_bind.
  by destruct (enqueue_all s _) as [[] ?].
Qed.

Lemma loop_skip enqueue_all f out l n ds :
  let c := with_results f c0 in
  (∀ d, d ∈ l → d ∈ to_judge c0 s ∧ ready c s d = false) → ds_inv ds →
  ∃ n' ds', for_acc (enqueue_on_dataset enqueue_all s) n l (fresh_session c ds out)
      = (Ok n', fresh_session c ds' out) ∧
    ds_inv ds' ∧ ∀ op, place_of ds' op = placed (d ← l; operations_on c s d) (place_of ds) op.
Proof.
  intros c. revert n ds. induction l as [|d l IH]; intros n ds Hl Hi.
  - exists n, ds. split_and!; [done|done|]. intros op. by rewrite placed_nil.
  - destruct (Hl d) as [Hd Hr]; [by left|].
    destruct (on_dataset_skip enqueue_all f out d n ds Hd Hr Hi) as (n1 & ds1 & H1 & Hi1 & Hp1).
    destruct (IH n1 ds1) as (n2 & ds2 & H2 & Hi2 & Hp2); [intros d' Hd'; apply Hl; by right|done|].
    exists n2, ds2. split_and!; [|done|].
    + cbn [for_acc]. rewrite (M_run_Ok _ _ _ _ _ H1). exact H2.
    + intros op. rewrite Hp2, (placed_ext _ _ _ Hp1), bind_cons. by rewrite placed_app.
Qed.

Definition reports c : list rpc := (λ d, NewEvaluation (sub_id s) (ds_id d)) <$> ready_datasets c s.

(** Each level of the recursion finalizes one result. *)
Lemma settle_run fuel f ds out :
  let c := with_results f c0 in
  NoDup (sr_key <$> db_submission_results c) → (List.length (ready_datasets c s) < fuel)%nat → ds_inv ds →
  ∃ n ds', submission_enqueue fuel s (fresh_session c ds out)
      = (Ok n, fresh_session (finalize c s) ds' (out ++ reports c)) ∧
    ds_inv ds' ∧ ∀ op, place_of ds' op = placed (wanted c s) (place_of ds) op.
Proof.
  revert f ds out. induction fuel as [|fuel IH]; intros f ds out c Hk Hf Hi; [lia|].
  cbn [submission_enqueue]. rewrite (M_run_Ok _ _ _ _ _ (query_run _ c ds out)). fold (to_judge c s).
  destruct (first_true (ready c s) (to_judge c s)) as [Hnone|(pre & d & post & Hj & Hpre & Hd)].
  - assert (ready_datasets c s = []) as Hrd by (apply filter_none; intros x Hx; by rewrite Hnone).
    destruct (loop_skip (submission_enqueue fuel) f out (to_judge c s) 0 ds) as (n & ds' & Hrun & Hi' & Hp);
      [by intros d Hd; split; [|apply Hnone]|done|].
    exists n, ds'. split_and!; [|done|done].
    unfold reports. rewrite (finalize_nothing c s to_judge_ids Hk Hrd), Hrd, app_nil_r. exact Hrun.
  - pose proof (to_judge_ids : NoDup (ds_id <$> to_judge c s)) as Hids.
    assert (∀ x, x ∈ pre ++ d :: post → x ∈ to_judge c s) as Hin by (by rewrite Hj).
    assert (d ∈ to_judge c s) as Hdj by (apply Hin; set_solver).
    destruct (loop_skip (submission_enqueue fuel) f out pre 0 ds) as (n1 & ds1 & H1 & Hi1 & Hp1);
      [intros x Hx; split; [apply Hin; set_solver|by apply Hpre]|done|].
    pose proof (set_one_ready_datasets c s Hids pre d post Hj Hpre Hd) as Hrd.
    destruct (IH (λ l, on_row sr_key (sub_id s, ds_id d) SR.set_evaluation_outcome (f l)) ds1
      (out ++ [NewEvaluation (sub_id s) (ds_id d)])) as (n2 & ds2 & H2 & Hi2 & Hp2).
    { cbn [with_results db_submission_results]. rewrite on_row_keys; [exact Hk|]. done. }
    { rewrite Hrd in Hf. cbn [List.length] in Hf. fold c. unfold set_one in Hf. apply Nat.succ_lt_mono. exact Hf. }
    { done. }
    change (with_results (λ l, on_row sr_key (sub_id s, ds_id d) SR.set_evaluation_outcome (f l)) c0)
      with (set_one c s d) in H2, Hp2.
    rewrite (set_one_finalize c s Hids Hk d Hdj Hd) in H2.
    destruct (loop_skip (submission_enqueue fuel) (λ l, settle c s <$> f l)
      ((out ++ [NewEvaluation (sub_id s) (ds_id d)]) ++ reports (set_one c s d)) post n1 ds2)
      as (n3 & ds3 & H3 & Hi3 & Hp3).
    { intros x Hx. assert (x ∈ to_judge c s) as Hxj by (apply Hin; set_solver). split; [exact Hxj|].
      by apply (finalize_ready c s Hids). }
    { done. }
    change (with_results (λ l, settle c s <$> f l) c0) with (finalize c s) in H3, Hp3.
    exists n3, ds3. split_and!; [|done|].
    + rewrite Hj, for_acc_app, (M_run_Ok _ _ _ _ _ H1). cbn [for_acc].
      pose proof (on_dataset_finalize (submission_enqueue fuel) f out d n1 ds1 Hdj Hd) as Hfin. fold c in Hfin.
      assert (enqueue_on_dataset (submission_enqueue fuel) s n1 d (fresh_session c ds1 out) =
        (Ok n1, fresh_session (finalize c s) ds2
           ((out ++ [NewEvaluation (sub_id s) (ds_id d)]) ++ reports (set_one c s d)))) as Hstep.
      { rewrite Hfin. by rewrite (M_run_Ok _ _ _ _ _ H2). }
      rewrite (M_run_Ok _ _ _ _ _ Hstep), H3. unfold reports. by rewrite Hrd, fmap_cons, <- app_assoc.
    + intros op. rewrite Hp3, (placed_ext _ _ _ Hp2), (placed_ext _ _ _ (placed_ext _ _ _ Hp1)).
      rewrite !placed_app.
      assert (wanted (set_one c s d) s = wanted c s) as ->.
      { apply bind_ext_in. intros x Hx. by apply set_one_operations. }
      assert ((x ← post; operations_on (finalize c s) s x) = (x ← post; operations_on c s x)) as ->.
      { apply bind_ext_in. intros x Hx. apply (finalize_operations c s Hids), Hin. set_solver. }
      unfold wanted. rewrite Hj, bind_app. apply placed_again.
      rewrite bind_cons. set_solver.
Qed.
End settling.

Lemma submission_settles {Q} `{!PQueue ESOperation Q} c s (ds : Dispatcher Q Result) out :
  ordinary c → s ∈ db_submissions c → ds_inv ds →
  ∃ n ds', submission_enqueue_operations s (fresh_session c ds out)
      = (Ok n, fresh_session (finalize c s) ds' (out ++ reports s c)) ∧
    ds_inv ds' ∧ ∀ op, place_of ds' op = placed (wanted c s) (place_of ds) op.
Proof.
  intros Hc Hs Hi. unfold submission_enqueue_operations. rewrite (M_run_Ok _ _ _ _ _ (query_run _ c ds out)).
  assert (with_results (λ l, l) c = c) as Hid by (by destruct c).
  destruct (settle_run c s Hc Hs (judge_fuel c) (λ l, l) ds out) as (n & ds' & Hrun & H).
  - rewrite Hid. apply (wf_submission_results c (ordinary_wf c Hc)).
  - rewrite Hid. unfold judge_fuel, ready_datasets, to_judge, get_datasets_to_judge, task_datasets.
    apply Nat.lt_succ_r. etrans; [apply length_filter|]. etrans; [apply length_filter|]. apply length_filter.
  - done.
  - rewrite Hid in Hrun, H. by exists n, ds'.
Qed.

(** C7. For a submission of the database, in a world of ordinary task types,
    and a service that has not given up a batch ([reachable]), [new_submission] always returns (the recursion through [evaluation_ended]
    ends). Its results on the data sets to judge that only lack the outcome
    are finalized, all of them and no other row, and reported to
    ScoringService in the order of the data sets; the operations of the
    submission on each data set to judge are held by the service, those it
    held being where they were. *)
Theorem new_submission_settles {Q} `{!PQueue ESOperation Q} (s : Submission) (w : World Q) :
  let c := committed w in let m := place_of (dispatcher w) in
  ordinary c → s ∈ db_submissions c → reachable (dispatcher w) →
  ∃ ds', new_submission (sub_id s) w =
      (Ok tt, mkWorld (finalize c s) (pending w) (in_savepoint w) ds'
         (outbox w ++ ((λ d, NewEvaluation (sub_id s) (ds_id d)) <$> ready_datasets c s))) ∧
    (∀ op, place_of ds' op = placed (wanted c s) m op) ∧
    ready_datasets (finalize c s) s = [] ∧
    (∀ d e, d ∈ get_datasets_to_judge c (sub_task_id s) → e ∈ operations_on (finalize c s) s d →
       place_of ds' e.1.1 ≠ None).
Proof.
  intros c m Hc Hs Hr. destruct w as [c' p b ds out]. cbn [committed dispatcher pending in_savepoint outbox] in *.
  subst c m. destruct (submission_settles c' s ds out Hc Hs (reachable_inv _ Hr)) as (n & ds' & Hrun & _ & Hp).
  exists ds'. split_and!.
  - unfold new_submission, with_session, set_session. cbn [committed dispatcher outbox].
    change (mkWorld c' [] false ds out) with (fresh_session c' ds out).
    rewrite (M_run_Ok _ _ _ _ _ (query_run _ c' ds out)), (get_submission_row c' Hc) by done.
    by rewrite (M_run_Ok _ _ _ _ _ Hrun).
  - exact Hp.
  - apply filter_none. intros d Hd. rewrite finalize_ready; [done|by apply to_judge_ids|done].
  - intros d e Hd He. rewrite Hp. apply placed_held.
    rewrite finalize_operations in He; [|by apply to_judge_ids|done].
    apply list_elem_of_bind. by exists d.
Qed.

(** A submission whose evaluations are there without the outcome: the service
    stopped before it wrote it. *)
Definition stopped_db : Db := mkDb
  [mkContest 5 0 9000 [] "contest" "A contest" 0 no_limits] [mkParticipation 1 5 1 false false None] [mkTask 1 (Some 5%Z) (Some 1%Z) 1 "A task" "max_tokened_last" 0 false "task" (Some 0%Z) ["task.%l"] no_limits]
  [mkDataset 1 1 false None None "Batch" [] [] "Sum" (JInt 50); mkDataset 2 1 true None None "Batch" [] [] "Sum" (JInt 50)]
  [mkTestcase 1 1 "a" "in" "out" true]
  [mkSubmission 10 1 1 1000 None true None None] []
  [mkSubmissionResult 10 1 (Some COk) [] 1 None None None None None None None None None 0
     None None None None None [] [mkEvaluation 10 1 1 (Some "1.0"%string) [] None None None None None]]
  [] [] [] [] [] [mkUser 1 "A" "B" "user1"; mkUser 2 "C" "D" "user2"] [] [].

Lemma stopped_db_ordinary : ordinary stopped_db.
Proof.
  split; [split; try nodup_compute; try (by intros ? ? ?%elem_of_nil); try (by intros ? ?%elem_of_nil)|..].
  - intros t1 t2 H1 H2 E1 E2. elem_cases; done.
  - intros r e Hr He. elem_cases; done.
  - intros d Hd. exists (mkTask 1 (Some 5%Z) (Some 1%Z) 1 "A task" "max_tokened_last" 0 false "task" (Some 0%Z) ["task.%l"] no_limits). split; [by left|]. elem_cases; done.
  - intros r Hr. elem_cases; done.
  - intros r s Hr Hs E. exists (mkDataset 1 1 false None None "Batch" [] [] "Sum" (JInt 50)). split; [by left|]. elem_cases; done.
  - intros t Ht. elem_cases. exists (mkDataset 1 1 false None None "Batch" [] [] "Sum" (JInt 50)). split; [by left|done].
  - intros d Hd. elem_cases; done.
Qed.

Definition stopped_world : World (PriorityQueue ESOperation) :=
  mkWorld stopped_db [] false (ds_init [true] 0) [].

Lemma new_submission_settles_witness :
  let s := mkSubmission 10 1 1 1000 None true None None in
  outbox (new_submission 10 stopped_world).2 = [NewEvaluation 10 1] ∧
  ∃ ds' : Dispatcher (PriorityQueue ESOperation) Result, (new_submission 10 stopped_world).1 = Ok tt ∧
    place_of ds' (mkESOperation COMPILATION 10 2 None) ≠ None ∧
    ready_datasets (finalize stopped_db s) s = [].
Proof.
  split; [vm_compute; reflexivity|].
  destruct (new_submission_settles (mkSubmission 10 1 1 1000 None true None None) stopped_world)
    as (ds' & Hrun & Hp & Hr & _).
  - exact stopped_db_ordinary.
  - by left.
  - exists [true], 0%Z. split; [done|]. apply rtc_refl.
  - exists ds'. cbn [sub_id] in Hrun. rewrite Hrun. split; [done|]. split; [|exact Hr].
    rewrite Hp. vm_compute. discriminate.
Defined.
