(* ===== verification/EvalServiceWrite.v ===== *)
(** * Writing a batch of results

    [write_results] as a function of the database, for the results of
    submissions to ordinary tasks: the first loop writes each result that can
    be written and skips the others (their exceptions are only logged), the
    second marks the results that are complete, the third reports and goes
    on with the submissions. The handler with its sessions and savepoints
    computes that function. *)

From S2P Require Import Prelude PriorityQueue Executor WorkerPool PyFloat.
From S2P Require Import Database DbUtil EsOperations FlushingDict EvalExecutor Languages TaskTypes Job.
From S2P Require Import EvalService EvalServiceRows EvalServiceSafe EvalServiceSpec.

(** ** The function *)

(** One result: nothing changes when it cannot be written. *)
Definition write_one (k : Z * Z) (v : Db) (opr : ESOperation * Result) : Db :=
  if job_success opr.2 then
    match (sr ← or_raise AttributeError (find_submission_result v k.1 (Some k.2));
           job_to_submission v (job opr.2) sr) with
    | Ok sr' => with_results (on_row sr_key k (λ _, sr')) v
    | _ => v
    end
  else
    with_results (on_row sr_key k
      (match type_ opr.1 with COMPILATION => SR.add_compilation_try | _ => SR.add_evaluation_try end)) v.

Definition write_one_group (v : Db) (g : group_key * list (ESOperation * Result)) : Db :=
  let '(_, object_id, dataset_id) := g.1 in
  foldl (write_one (object_id, dataset_id))
    (with_results (insert_row sr_key (SR.new object_id dataset_id)) v) g.2.

Definition complete_one (v : Db) (t : group_key) : Db :=
  let '(type_, object_id, dataset_id) := t in
  if decide (type_ = EVALUATION ∧ num_evaluations v object_id dataset_id = num_testcases v dataset_id) then
    with_results (on_row sr_key (object_id, dataset_id) SR.set_evaluation_outcome) v
  else v.

(** The report of the end of an operation, and what [submission_settles]
    says of the submission. *)
Definition end_one (acc : Db * list rpc) (t : group_key) : Db * list rpc :=
  let '(v, calls) := acc in
  let '(type_, object_id, dataset_id) := t in
  match find_submission_result v object_id (Some dataset_id), get_submission v object_id with
  | Some sr, Some s =>
      let go_on (l : list rpc) := (finalize v s, calls ++ l ++ reports s v) in
      if decide (type_ = COMPILATION) then
        go_on (if SR.compilation_succeeded sr then []
               else if SR.compilation_failed sr then [NewEvaluation object_id dataset_id] else [])
      else if SR.evaluated sr then go_on [NewEvaluation object_id dataset_id]
      else (v, calls)
  | _, _ => (v, calls)
  end.

Definition write_batch (items : list (ESOperation * Result)) (c : Db) : Db * list rpc :=
  let groups := by_object_and_type items in
  foldl end_one (foldl complete_one (foldl write_one_group c groups) (pd_keys groups), []) (pd_keys groups).

(** ** Results that raise *)

Lemma ror_plus_get p key : returns_or_raises (plus_get p key).
Proof. apply ror_bind; [apply ror_or_raise|done]. Qed.

Lemma ror_plus_float p key : returns_or_raises (plus_float p key).
Proof. apply ror_bind; [apply ror_plus_get|]. by intros []. Qed.
Lemma ror_plus_int p key : returns_or_raises (plus_int p key).
Proof. apply ror_bind; [apply ror_plus_get|]. intros. apply ror_or_raise. Qed.
Lemma ror_plus_text p key : returns_or_raises (plus_text p key).
Proof. apply ror_bind; [apply ror_plus_get|]. intros. apply ror_or_raise. Qed.

Lemma ror_job_to_submission db j sr : returns_or_raises (job_to_submission db j sr).
Proof.
  destruct j as [j|j|j]; [| |done]; cbn [job_to_submission];
    unfold compilation_to_submission, evaluation_to_submission; cbv zeta;
    repeat (apply ror_bind; [first [apply ror_plus_text|apply ror_plus_float|apply ror_plus_int|apply ror_or_raise
      |unfold job_testcase; repeat (apply ror_bind; [apply ror_or_raise|intros]); apply ror_or_raise]|intros]);
    try done. by case_decide.
Qed.

(** ** Sessions with changes *)

Section write.
Context {Q : Type} `{!PQueue ESOperation Q}.
Implicit Types (w : World Q) (ds : Dispatcher Q Result) (out : list rpc) (v : Db).

(** A session in progress on [c] that sees [v]. *)
Record sees (c : Db) ds out v w : Prop := {
  sees_committed : committed w = c;
  sees_view : view w = v;
  sees_outside : in_savepoint w = false;
  sees_dispatcher : dispatcher w = ds;
  sees_outbox : outbox w = out;
}.

Lemma sees_commit c ds out v w : sees c ds out v w → commit w = (Ok tt, fresh_session v ds out).
Proof.
  destruct w as [c' p b ds' out']. intros [H1 H2 H3 H4 H5]. unfold commit, modify.
  cbn -[view] in *. subst. done.
Qed.

(** From a session that sees [v], [m] returns [a] in one that sees [v']. *)
Definition computes {A} (m : M (World Q) A) (v : Db) (a : A) (v' : Db) : Prop :=
  ∀ c ds out w, sees c ds out v w → ∃ w', m w = (Ok a, w') ∧ sees c ds out v' w'.

Lemma computes_bind {A B} (m : M (World Q) A) (f : A → M (World Q) B) v a v1 b v2 :
  computes m v a v1 → computes (f a) v1 b v2 → computes (m ≫= f) v b v2.
Proof.
  intros Hm Hf c ds out w Hw. destruct (Hm c ds out w Hw) as (w1 & H1 & Hw1).
  rewrite (M_run_Ok _ _ _ _ _ H1). by apply Hf.
Qed.

Lemma computes_ret {A} (a : A) v : computes (mret a) v a v.
Proof. intros c ds out w Hw. by exists w. Qed.

Lemma computes_query {A} (f : Db → A) v : computes (query f) v (f v) v.
Proof. intros c ds out w Hw. exists w. split; [|done]. unfold query, gets. by rewrite (sees_view _ _ _ _ _ Hw). Qed.

Lemma computes_query_res {A} (f : Db → Prelude.res A) v a : f v = Ok a → computes (query_res f) v a v.
Proof.
  intros Hf. eapply computes_bind; [apply computes_query|]. rewrite Hf. intros c ds out w Hw. by exists w.
Qed.

Lemma computes_update f v : computes (update f) v tt (f v).
Proof.
  intros c ds out w [H1 H2 H3 H4 H5]. eexists. split; [done|]. split; try done.
  rewrite <- H2. unfold view. cbn. unfold apply_all. by rewrite foldl_app.
Qed.

Lemma computes_for_each {A} (f : A → M (World Q) unit) (g : Db → A → Db) (I : Db → Prop) l v :
  (∀ v x, x ∈ l → I v → computes (f x) v tt (g v x) ∧ I (g v x)) → I v →
  computes (for_each f l) v tt (foldl g v l) ∧ I (foldl g v l).
Proof.
  revert v. induction l as [|x l IH]; intros v Hf Hv; [by split; [apply computes_ret|]|].
  destruct (Hf v x) as [Hx HI]; [by left|done|].
  destruct (IH (g v x)) as [Hl HI']; [intros v' y Hy; apply Hf; by right|done|].
  split; [|done]. cbn [for_each foldl]. by eapply computes_bind.
Qed.

(** A change in a savepoint, or an exception before it. *)
Lemma nested_change m v v' :
  (∀ w, view w = v → (∃ g, m w = (Ok tt, add_change g w) ∧ g v = v') ∨ (∃ e, m w = (Raise e, w) ∧ v' = v)) →
  computes (try_except (λ _, true) (begin_nested m) (mret tt)) v tt v'.
Proof.
  intros Hm c ds out w [H1 H2 H3 H4 H5]. unfold try_except, begin_nested.
  set (w1 := set_session (committed w) (pending w) true w). assert (view w1 = v) as Hv by done.
  destruct (Hm w1 Hv) as [(g & -> & Hg)|(e & -> & ->)]; cbn -[view]; (eexists; split; [reflexivity|]).
  - split; cbn -[view]; try done. unfold view. cbn. unfold apply_all. rewrite foldl_app. cbn.
    change (foldl (λ db f, f db) (committed w) (pending w)) with (view w). by rewrite H2.
  - by split.
Qed.

(** A result that is written, or not. *)
Lemma row_written k op r v :
  type_ op = COMPILATION ∨ type_ op = EVALUATION → tombstone (job r) = false →
  computes (try_except (λ _, true) (begin_nested (write_results_one_row k op r)) (mret tt)) v tt
    (write_one k v (op, r)).
Proof.
  intros Hty Ht. apply nested_change. intros w Hv. unfold write_one. cbn [fst snd].
  assert (∀ f v', with_results (on_row sr_key k f) v = v' → (∃ g, change_sr k f w = (Ok tt, add_change g w) ∧ g v = v') ∨
    (∃ e, change_sr k f w = (Raise e, w) ∧ v' = v)) as Hchange by (intros f v' Hf; left; by eexists).
  assert (job_success r = true → ∀ v',
    match (sr ← or_raise AttributeError (find_submission_result v k.1 (Some k.2)); job_to_submission v (job r) sr) with
    | Ok sr' => with_results (on_row sr_key k (λ _, sr')) v | _ => v end = v' →
    (∃ g, write_sr k (λ db, job_to_submission db (job r)) w = (Ok tt, add_change g w) ∧ g v = v') ∨
    (∃ e, write_sr k (λ db, job_to_submission db (job r)) w = (Raise e, w) ∧ v' = v)) as Hwrite.
  { intros _ v' Hv'. unfold write_sr, the_sr, query_res, query, gets, lift, mbind, M_bind. rewrite Hv.
    destruct (find_submission_result v k.1 (Some k.2)) as [sr|]; cbn [or_raise mbind res_bind] in *; [|right; by eexists].
    pose proof (ror_job_to_submission v (job r) sr) as Hr.
    destruct (job_to_submission v (job r) sr) as [sr'|e| |]; [left; by eexists|right; by eexists|done|done]. }
  unfold write_results_one_row. destruct (type_ op); try (by destruct Hty); destruct (job_success r) eqn:Hs;
    rewrite ?Ht; auto.
Qed.

Lemma rows_written k rs v :
  Forall (λ opr : ESOperation * Result,
    (type_ opr.1 = COMPILATION ∨ type_ opr.1 = EVALUATION) ∧ tombstone (job opr.2) = false) rs →
  computes (write_results_one_object_and_type k rs) v tt (foldl (write_one k) v rs).
Proof.
  intros Hrs. apply (computes_for_each _ _ (λ _, True)); [|done]. intros v' [op r] Hin _. split; [|done].
  apply (proj1 (Forall_forall _ _) Hrs) in Hin as [Hty Ht]. by apply row_written.
Qed.
End write.

(** ** The batch *)

(** The result of a compilation or an evaluation of a submission, on a data
    set of its task; the worker did not miss the executables. *)
Definition known_item (c : Db) (item : ESOperation * Result) : Prop :=
  (type_ item.1 = COMPILATION ∨ type_ item.1 = EVALUATION) ∧ tombstone (job item.2) = false ∧
  ∃ s d, s ∈ db_submissions c ∧ sub_id s = object_id item.1 ∧
    d ∈ db_datasets c ∧ ds_id d = dataset_id item.1 ∧ sub_task_id s = ds_task_id d.

Definition key_of (t : group_key) : Z * Z := (t.1.2, t.2).

(** The keys of the results in a database. *)
Definition sr_keys (v : Db) : list (Z * Z) := sr_key <$> db_submission_results v.

Section batch.
Context (c0 : Db) (Hc : ordinary c0).
Let st : Db := static c0.
Implicit Types (v : Db).

Lemma good_ordinary v : good st v → ordinary v.
Proof.
  intros Hg. destruct (good_wf c0 v (ordinary_wf c0 Hc) Hg) as [Hwf _].
  destruct (good_tables st v Hg) as (E1 & E2 & _). split; [done|..]; rewrite ?E1, ?E2; apply Hc.
Qed.

(** The object of a known group. *)
Definition group_of (t : group_key) (s : Submission) (d : Dataset) : Prop :=
  (t.1.1 = COMPILATION ∨ t.1.1 = EVALUATION) ∧ s ∈ db_submissions c0 ∧ sub_id s = t.1.2 ∧
  d ∈ db_datasets c0 ∧ ds_id d = t.2 ∧ sub_task_id s = ds_task_id d.

Lemma good_get v t s d :
  good st v → group_of t s d → get_submission v t.1.2 = Some s ∧ get_dataset v t.2 = Some d.
Proof.
  intros Hg (_ & Hs & <- & Hd & <- & _). destruct (good_tables st v Hg) as (_ & E2 & _ & E4 & _).
  split; [apply (get_submission_row v (good_ordinary v Hg))|apply (get_dataset_row v (good_ordinary v Hg))].
  - by rewrite E4.
  - by rewrite E2.
Qed.

Lemma keys_change v k f :
  (∀ x, x ∈ db_submission_results v → sr_key x = k → sr_key (f x) = k) →
  sr_keys (with_results (on_row sr_key k f) v) = sr_keys v.
Proof. intros Hf. unfold sr_keys. cbn [with_results db_submission_results]. by apply on_row_keys. Qed.

Lemma insert_keys v x k : k ∈ sr_keys (with_results (insert_row sr_key x) v) ↔ k ∈ sr_keys v ∨ k = sr_key x.
Proof.
  unfold sr_keys. cbn [with_results db_submission_results]. unfold insert_row.
  case_decide; [naive_solver|]. rewrite fmap_app, elem_of_app. cbn. by rewrite list_elem_of_singleton.
Qed.

Lemma find_good v k sr :
  good st v → find_submission_result v k.1 (Some k.2) = Some sr → sr_ok st sr ∧ sr_key sr = k.
Proof.
  intros Hg (Hr & H1 & [= H2])%head_filter_in. split.
  - by apply (proj1 (Forall_forall _ _) (good_sr st v Hg)).
  - destruct k. unfold sr_key. simpl in *. congruence.
Qed.

Lemma write_one_good k v opr :
  good st v → good st (write_one k v opr) ∧ sr_keys (write_one k v opr) = sr_keys v.
Proof.
  intros Hg. unfold write_one. destruct (job_success opr.2).
  - destruct (find_submission_result v k.1 (Some k.2)) as [sr|] eqn:Hf; [|done]. cbn [or_raise mbind res_bind].
    destruct (job_to_submission v (job opr.2) sr) as [sr'| | |] eqn:Hj; try done.
    destruct (find_good v k sr Hg Hf) as [Hok Hk].
    destruct (job_to_submission_ok st v _ sr sr' (good_static st v Hg) Hok Hj) as [Hok' Hk'].
    split; [|apply keys_change; congruence].
    apply (preserves_change_sr st k (λ _, sr')); [|done]. intros x _ _. split; [done|congruence].
  - split; [|apply keys_change; intros x _ Hxk; by destruct (type_ opr.1)].
    apply (preserves_change_sr st k); [|done]. intros x Hx Hxk.
    destruct (type_ opr.1); (split; [by apply add_compilation_try_ok || by apply add_evaluation_try_ok|done]).
Qed.

Lemma write_rows_good k rs v :
  good st v → good st (foldl (write_one k) v rs) ∧ sr_keys (foldl (write_one k) v rs) = sr_keys v.
Proof.
  revert v. induction rs as [|opr rs IH]; intros v Hg; [done|]. cbn [foldl].
  destruct (write_one_good k v opr Hg) as [Hg1 Hk1]. destruct (IH _ Hg1) as [Hg2 Hk2]. split; [done|congruence].
Qed.

Lemma insert_good v t s d :
  group_of t s d → good st v → good st (with_results (insert_row sr_key (SR.new t.1.2 t.2)) v).
Proof.
  intros (_ & Hs & <- & Hd & <- & Ht). apply preserves_sr_list. intros l Hn Hl.
  apply insert_row_ok; [done..|]. apply new_sr_ok; try done. apply (wf_submissions c0 (ordinary_wf c0 Hc)).
Qed.

Lemma write_group_good g s d v :
  group_of g.1 s d → good st v →
  good st (write_one_group v g) ∧
  ∀ k, k ∈ sr_keys (write_one_group v g) ↔ k ∈ sr_keys v ∨ k = key_of g.1.
Proof.
  destruct g as [[[ty i] di] rs]. intros Ht Hg. unfold write_one_group. cbn [fst].
  pose proof (insert_good v (ty, i, di) s d Ht Hg) as Hg1.
  destruct (write_rows_good (i, di) rs _ Hg1) as [Hg2 Hk]. split; [exact Hg2|]. intros k.
  cbn [fst snd] in *. rewrite Hk. apply insert_keys.
Qed.

Context {Q : Type} `{!PQueue ESOperation Q}.

Lemma group_written g s d v :
  group_of g.1 s d → good st v →
  Forall (λ opr : ESOperation * Result,
    (type_ opr.1 = COMPILATION ∨ type_ opr.1 = EVALUATION) ∧ tombstone (job opr.2) = false) g.2 →
  computes (Q:=Q) (write_group g) v tt (write_one_group v g).
Proof.
  intros Ht Hg Hrs. destruct (good_get v g.1 s d Hg Ht) as [Hs Hd].
  destruct g as [[[ty i] di] rs]. destruct Ht as (Hty & Hsin & Hsi & Hdin & Hdi & Htask).
  cbn [fst snd] in *. unfold write_group. cbn [fst snd].
  eapply computes_bind; [apply computes_query|]. rewrite Hd.
  apply (computes_bind _ _ v (Some (i, di)) (with_results (insert_row sr_key (SR.new i di)) v));
    [|by apply rows_written]. unfold ensure_result.
  assert (computes (Q:=Q) (s ← query (λ db, get_submission db i);
    match s with None => mret None | Some s => k ← ensure_submission_result s d; mret (Some k) end) v
    (Some (i, di)) (with_results (insert_row sr_key (SR.new i di)) v)) as He; [|by destruct Hty as [->| ->]].
  eapply computes_bind; [apply computes_query|]. rewrite Hs.
  eapply computes_bind; [|apply computes_ret]. unfold ensure_submission_result.
  eapply computes_bind.
  { apply (computes_query_res _ _ (find_submission_result v i (Some di))).
    unfold submission_get_result, result_dataset_id. rewrite bool_decide_eq_true_2 by done.
    cbn [assert mbind res_bind]. by rewrite Hsi, Hdi. }
  eapply (computes_bind _ _ _ tt); [|rewrite Hsi, Hdi; apply computes_ret].
  destruct (find_submission_result v i (Some di)) as [r|] eqn:Hf; [|rewrite Hsi, Hdi; apply computes_update].
  assert (with_results (insert_row sr_key (SR.new i di)) v = v) as ->; [|apply computes_ret].
  destruct (find_good v (i, di) r Hg Hf) as [_ Hk]. unfold with_results, insert_row.
  rewrite decide_True; [by destruct v|]. apply head_filter_in in Hf as [Hr _].
  apply list_elem_of_fmap. by exists r.
Qed.

Lemma find_present v k :
  good st v → k ∈ sr_keys v → ∃ sr, find_submission_result v k.1 (Some k.2) = Some sr.
Proof.
  intros Hg (r & Hk & Hr)%list_elem_of_fmap.
  exists r. apply find_submission_result_Some; [apply (ordinary_wf v (good_ordinary v Hg))|]. by subst k.
Qed.

Lemma complete_written t v :
  t.1.1 = COMPILATION ∨ t.1.1 = EVALUATION → good st v → key_of t ∈ sr_keys v →
  computes (Q:=Q) (complete_group t) v tt (complete_one v t) ∧
  good st (complete_one v t) ∧ sr_keys (complete_one v t) = sr_keys v.
Proof.
  destruct t as [[ty i] di]. intros Hty Hg Hk. unfold complete_group, complete_one. cbn [fst snd] in *.
  destruct Hty as [->| ->].
  { rewrite decide_False by naive_solver. split; [apply computes_ret|done]. }
  destruct (find_present v (i, di) Hg Hk) as [sr Hsr].
  destruct (decide (num_evaluations v i di = num_testcases v di)) as [Hn|Hn].
  - rewrite decide_True by done. split_and!.
    + do 2 (eapply computes_bind; [apply computes_query|]). rewrite decide_True by done.
      eapply (computes_bind _ _ v sr v); [|apply computes_update].
      apply computes_query_res. cbn [fst snd] in *. by rewrite Hsr.
    + pose proof (count_complete st v i di Hg Hn) as Hcc. apply good_sr_list; [done|].
      intros l -> Hnd Hl. apply on_row_ok_in; [|done..]. intros x Hx Hok Hxk. split; [|done].
      apply set_evaluation_outcome_ok; [done|]. specialize (Hcc x Hx Hxk). injection Hxk as _ Hxd.
      by rewrite Hxd.
    + by apply keys_change.
  - rewrite decide_False by tauto. split; [|done].
    do 2 (eapply computes_bind; [apply computes_query|]). rewrite decide_False by done. apply computes_ret.
Qed.

Lemma finalize_good v s :
  good st v → s ∈ db_submissions c0 → good st (finalize v s) ∧ sr_keys (finalize v s) = sr_keys v.
Proof.
  intros Hg Hs. assert (sr_keys (finalize v s) = sr_keys v) as Hk.
  { unfold sr_keys, finalize. cbn [with_results db_submission_results]. rewrite <- list_fmap_compose.
    apply list_fmap_ext. intros j r _. apply settle_key. }
  split; [|done]. apply good_sr_list; [done|]. intros l -> Hn Hl. split; [by unfold sr_keys, finalize in Hk; rewrite <- Hk in Hn|].
  apply Forall_fmap. eapply Forall_impl; [exact Hl|]. intros r Hr. cbn. unfold settle.
  destruct (existsb _ _) eqn:He; [|done].
  apply existsb_exists in He as (d & Hd & [Hkr%bool_decide_eq_true Hrr]%andb_true_iff).
  apply set_evaluation_outcome_ok; [done|]. unfold row_ready in Hrr.
  apply andb_true_iff in Hrr as [Hev Ho%bool_decide_eq_true].
  pose proof (nothing_missing v r s d Ho Hev) as Hnm. injection Hkr as _ Hkd. rewrite Hkd.
  destruct (good_tables st v Hg) as (_ & _ & E & _). unfold testcases in Hnm. by rewrite E in Hnm.
Qed.

(** A session that has enqueued and finalized. *)
Lemma submission_goes_on v ds out s :
  good st v → s ∈ db_submissions c0 → ds_inv ds →
  ∃ n ds', submission_enqueue_operations (Q:=Q) s (fresh_session v ds out)
      = (Ok n, fresh_session (finalize v s) ds' (out ++ reports s v)) ∧
    ds_inv ds' ∧ (∀ op x, place_of ds op = Some x → place_of ds' op = Some x).
Proof.
  intros Hg Hs Hi. destruct (good_tables st v Hg) as (_ & _ & _ & E & _).
  destruct (submission_settles v s ds out (good_ordinary v Hg)) as (n & ds' & Hrun & Hi' & Hp);
    [by rewrite E|done|].
  exists n, ds'. split_and!; [done|done|]. intros op x Hx. rewrite Hp. unfold placed. by rewrite Hx.
Qed.

Lemma end_written t s d v ds out :
  group_of t s d → good st v → key_of t ∈ sr_keys v → ds_inv ds →
  ∃ ds', end_group (Q:=Q) t (fresh_session v ds out)
      = (Ok tt, fresh_session (end_one (v, []) t).1 ds' (out ++ (end_one (v, []) t).2)) ∧
    ds_inv ds' ∧ (∀ op x, place_of ds op = Some x → place_of ds' op = Some x) ∧
    good st (end_one (v, []) t).1 ∧ sr_keys (end_one (v, []) t).1 = sr_keys v.
Proof.
  intros Ht Hg Hk Hi. destruct (good_get v t s d Hg Ht) as [Hs _].
  destruct (find_present v (key_of t) Hg Hk) as [sr Hsr].
  destruct t as [[ty i] di]. destruct Ht as (Hty & Hsin & Hsi & _). cbn [key_of fst snd] in *.
  destruct (find_good v (i, di) sr Hg Hsr) as [_ Hkey]. injection Hkey as Hki _.
  destruct (finalize_good v s Hg Hsin) as [Hfg Hfk].
  unfold end_one. cbn [app]. rewrite Hsr, Hs.
  assert (∀ out, the_sr (Q:=Q) (i, di) (fresh_session v ds out) = (Ok sr, fresh_session v ds out)) as Hthe.
  { intros out'. unfold the_sr. rewrite query_res_run. cbn [fst snd]. by rewrite Hsr. }
  assert (∀ out, query_res (λ db, or_raise AttributeError (get_submission db (sr_submission_id sr)))
    (fresh_session (Q:=Q) v ds out) = (Ok s, fresh_session v ds out)) as Hsub.
  { intros out'. rewrite query_res_run, Hki. by rewrite Hs. }
  assert (∀ c out, call_service (Q:=Q) c (fresh_session v ds out) = (Ok tt, fresh_session v ds (out ++ [c]))) as Hcall by done.
  unfold end_group. destruct Hty as [->| ->].
  - rewrite decide_True by done. unfold compilation_ended.
    rewrite (M_run_Ok _ _ _ _ _ (Hthe out)), (M_run_Ok _ _ _ _ _ (Hsub out)).
    set (calls := if SR.compilation_succeeded sr then [] else if SR.compilation_failed sr then [NewEvaluation i di] else []).
    destruct (submission_goes_on v ds (out ++ calls) s Hg Hsin Hi) as (n & ds' & Hrun & Hi' & Hp).
    exists ds'. split_and!; [|done..]. rewrite (M_run_Ok _ _ _ tt (fresh_session v ds (out ++ calls))).
    + rewrite (M_run_Ok _ _ _ _ _ Hrun). cbn [fst snd]. by rewrite app_assoc.
    + unfold calls. destruct (SR.compilation_succeeded sr); [by rewrite app_nil_r|].
      destruct (SR.compilation_failed sr); [done|by rewrite app_nil_r].
  - rewrite decide_False by done. rewrite (M_run_Ok _ _ _ _ _ (Hthe out)).
    destruct (SR.evaluated sr) eqn:Hev; [|exists ds; cbn [fst snd]; by rewrite app_nil_r].
    destruct (submission_goes_on v ds (out ++ [NewEvaluation i di]) s Hg Hsin Hi) as (n & ds' & Hrun & Hi' & Hp).
    exists ds'. split_and!; [|done..]. unfold evaluation_ended, evaluation_ended_with.
    rewrite (M_run_Ok _ _ _ _ _ (Hthe out)), (M_run_Ok _ _ _ _ _ (Hsub out)), Hev.
    rewrite (M_run_Ok _ _ _ _ _ (Hcall _ out)), (M_run_Ok _ _ _ _ _ Hrun). cbn [fst snd app].
    by rewrite <- app_assoc.
Qed.
End batch.

Section loops.
Context {Q : Type} `{!PQueue ESOperation Q} (c0 : Db) (Hc : ordinary c0).
Let st : Db := static c0.
Implicit Types (v : Db) (ds : Dispatcher Q Result) (out : list rpc).

(** A group of known results. *)
Definition known_group (g : group_key * list (ESOperation * Result)) : Prop :=
  (∃ s d, group_of c0 g.1 s d) ∧
  Forall (λ opr : ESOperation * Result,
    (type_ opr.1 = COMPILATION ∨ type_ opr.1 = EVALUATION) ∧ tombstone (job opr.2) = false) g.2.

Lemma known_groups items :
  Forall (known_item c0) items → Forall known_group (by_object_and_type items).
Proof.
  intros Hk. apply Forall_forall. intros g [(item & Hin & Hkey) Hrs]%group_items.
  rewrite Forall_forall in Hk. split.
  - destruct (Hk item Hin) as (Hty & _ & s & d & Hs & Hsi & Hd & Hdi & Ht). exists s, d. by rewrite Hkey.
  - eapply Forall_impl; [exact Hrs|]. intros opr [Hopr _]. by destruct (Hk opr Hopr) as (? & ? & _).
Qed.

Lemma write_loop l v :
  Forall known_group l → good st v →
  computes (Q:=Q) (for_each write_group l) v tt (foldl write_one_group v l) ∧
  good st (foldl write_one_group v l) ∧
  ∀ k, k ∈ sr_keys v ∨ k ∈ key_of <$> l.*1 → k ∈ sr_keys (foldl write_one_group v l).
Proof.
  revert v. induction l as [|g l IH]; intros v Hl Hg.
  - split_and!; [apply computes_ret|done|]. intros k [Hk|Hk]; [done|by apply elem_of_nil in Hk].
  - apply Forall_cons in Hl as [((s & d & Hgr) & Hrs) Hl].
    destruct (write_group_good c0 Hc g s d v Hgr Hg) as [Hg1 Hk1].
    destruct (IH (write_one_group v g) Hl Hg1) as (Hrun & Hg2 & Hk2). split_and!; [|done|].
    + cbn [for_each foldl]. eapply computes_bind; [by eapply group_written|exact Hrun].
    + intros k Hk. apply Hk2. rewrite Hk1. cbn [fmap list_fmap] in Hk. rewrite elem_of_cons in Hk. tauto.
Qed.

Lemma complete_loop l v :
  Forall (λ t, ∃ s d, group_of c0 t s d) l → good st v → Forall (λ t, key_of t ∈ sr_keys v) l →
  computes (Q:=Q) (for_each complete_group l) v tt (foldl complete_one v l) ∧
  good st (foldl complete_one v l) ∧ sr_keys (foldl complete_one v l) = sr_keys v.
Proof.
  revert v. induction l as [|t l IH]; intros v Hl Hg Hk; [by split; [apply computes_ret|]|].
  apply Forall_cons in Hl as [(s & d & Hty & _) Hl]. apply Forall_cons in Hk as [Hkt Hk].
  destruct (complete_written c0 Hc (Q:=Q) t v Hty Hg Hkt) as (Hrun1 & Hg1 & Hk1).
  destruct (IH (complete_one v t) Hl Hg1) as (Hrun & Hg2 & Hk2); [by rewrite Hk1|].
  cbn [for_each foldl]. split_and!; [|done|congruence]. by eapply computes_bind.
Qed.

(** The calls accumulate. *)
Lemma end_one_calls v calls t :
  end_one (v, calls) t = ((end_one (v, []) t).1, calls ++ (end_one (v, []) t).2).
Proof.
  destruct t as [[ty i] di]. unfold end_one. repeat case_match; cbn [fst snd app]; by rewrite ?app_nil_r.
Qed.

Lemma end_loop l v ds out calls :
  Forall (λ t, ∃ s d, group_of c0 t s d) l → good st v → Forall (λ t, key_of t ∈ sr_keys v) l → ds_inv ds →
  ∃ ds', for_each end_group l (fresh_session (Q:=Q) v ds (out ++ calls))
      = (Ok tt, fresh_session (foldl end_one (v, calls) l).1 ds' (out ++ (foldl end_one (v, calls) l).2)) ∧
    (∀ op x, place_of ds op = Some x → place_of ds' op = Some x).
Proof.
  revert v ds calls. induction l as [|t l IH]; intros v ds calls Hl Hg Hk Hi; [by exists ds|].
  apply Forall_cons in Hl as [(s & d & Ht) Hl]. apply Forall_cons in Hk as [Hkt Hk].
  destruct (end_written c0 Hc t s d v ds (out ++ calls) Ht Hg Hkt Hi) as (ds1 & Hrun1 & Hi1 & Hp1 & Hg1 & Hk1).
  destruct (IH (end_one (v, []) t).1 ds1 (calls ++ (end_one (v, []) t).2) Hl Hg1) as (ds2 & Hrun2 & Hp2);
    [by rewrite Hk1|done|].
  exists ds2. split; [|auto]. cbn [for_each foldl]. rewrite (M_run_Ok _ _ _ _ _ Hrun1).
  rewrite <- app_assoc, Hrun2. by rewrite (end_one_calls v calls).
Qed.
End loops.

(** C6. A batch of results of compilations and evaluations of submissions of
    the database (ordinary task types, executables not missing), in a service
    that has not given up a batch of operations ([reachable]): whatever
    exception the writing of a result raises, [write_results] returns; the
    database is the one given by [write_batch], where a result that cannot be
    written changes nothing, the others are written in the order of the groups,
    a submission result is marked as evaluated if it has as many evaluations
    as testcases, and the submissions whose compilation or evaluation is over
    go on; the calls to ScoringService are those of [write_batch]; no
    operation that the service held is dropped or moved. *)
Theorem write_results_writes {Q} `{!PQueue ESOperation Q} (items : list (ESOperation * Result)) (w : World Q) :
  ordinary (committed w) → evaluated_complete (committed w) → reachable (dispatcher w) →
  Forall (known_item (committed w)) items →
  ∃ ds', write_results items w =
      (Ok tt, mkWorld (write_batch items (committed w)).1 (pending w) (in_savepoint w) ds'
         (outbox w ++ (write_batch items (committed w)).2)) ∧
    ∀ op x, place_of (dispatcher w) op = Some x → place_of ds' op = Some x.
Proof.
  destruct w as [c p b ds out]. cbn [committed dispatcher pending in_savepoint outbox].
  intros Hc He Hr Hk. pose proof (good_intro c (ordinary_wf c Hc) He) as Hg.
  pose proof (known_groups c items Hk) as Hgroups. unfold write_batch.
  set (groups := by_object_and_type items) in *.
  assert (Forall (λ t, ∃ s d, group_of c t s d) (pd_keys groups)) as Hkeys.
  { apply Forall_fmap. eapply Forall_impl; [exact Hgroups|]. by intros g [Hgr _]. }
  destruct (write_loop (Q:=Q) c Hc groups c Hgroups Hg) as (Hrun1 & Hg1 & Hk1).
  set (v1 := foldl write_one_group c groups) in *.
  assert (Forall (λ t, key_of t ∈ sr_keys v1) (pd_keys groups)) as Hin1.
  { apply Forall_forall. intros t Ht. apply Hk1. right. by apply list_elem_of_fmap_2. }
  destruct (complete_loop (Q:=Q) c Hc (pd_keys groups) v1 Hkeys Hg1 Hin1) as (Hrun2 & Hg2 & Hk2).
  set (v2 := foldl complete_one v1 (pd_keys groups)) in *.
  destruct (end_loop (Q:=Q) c Hc (pd_keys groups) v2 ds out [] Hkeys Hg2) as (ds' & Hrun3 & Hp);
    [by rewrite Hk2|by apply reachable_inv|].
  rewrite app_nil_r in Hrun3. exists ds'. split; [|done].
  unfold write_results, with_session, set_session. cbn [committed dispatcher outbox]. fold groups.
  destruct (Hrun1 c ds out (fresh_session c ds out)) as (w1 & H1 & Hw1); [by split|].
  change (mkWorld c [] false ds out) with (fresh_session c ds out).
  rewrite (M_run_Ok _ _ _ _ _ H1), (M_run_Ok _ _ _ _ _ (sees_commit _ _ _ _ _ Hw1)).
  destruct (Hrun2 v1 ds out (fresh_session v1 ds out)) as (w2 & H2 & Hw2); [by split|].
  rewrite (M_run_Ok _ _ _ _ _ H2), (M_run_Ok _ _ _ _ _ (sees_commit _ _ _ _ _ Hw2)), Hrun3. done.
Qed.

(** The evaluation on a testcase that has been removed meanwhile cannot be
    written. *)
Definition judge_items : list (ESOperation * Result) :=
  [compiled10; evaluated10 "a" "1.0"; evaluated10 "removed" "1.0"; evaluated10 "b" "0.0"].

Lemma write_results_writes_witness :
  (λ r, (SR.evaluated r, ev_outcome <$> sr_evaluations r)) <$>
    db_submission_results (write_batch judge_items judge_db).1 =
    [(true, [Some "1.0"%string; Some "0.0"%string])] ∧
  (write_batch judge_items judge_db).2 = [NewEvaluation 10 1] ∧
  ∃ ds', write_results judge_items judge_world =
    (Ok tt, mkWorld (write_batch judge_items judge_db).1 [] false ds' [NewEvaluation 10 1]).
Proof.
  split; [vm_compute; reflexivity|]. split; [vm_compute; reflexivity|].
  destruct (write_results_writes judge_items judge_world) as (ds' & Hrun & _).
  - exact judge_db_ordinary.
  - by intros r ?%elem_of_nil.
  - exact judge_world_reachable.
  - assert (∀ c o, known_item judge_db (evaluated10 c o)) as He.
    { intros c o. split; [by right|]. split; [reflexivity|].
      exists (mkSubmission 10 1 1 1000 None true None None), (mkDataset 1 1 false None None "Batch" [] [] "Sum" (JInt 50)).
      split_and!; try reflexivity; by left. }
    assert (known_item judge_db compiled10) as Hc.
    { split; [by left|]. split; [reflexivity|].
      exists (mkSubmission 10 1 1 1000 None true None None), (mkDataset 1 1 false None None "Batch" [] [] "Sum" (JInt 50)).
      split_and!; try reflexivity; by left. }
    constructor; [exact Hc|]. do 3 (constructor; [apply He|]). constructor.
  - exists ds'. exact Hrun.
Defined.
