(* ===== verification/Interleaving.v ===== *)
(** * Greenlets and processes that share a store

    A program of the file cacher is a sequence of atomic actions on what it
    shares with the others: [prog]. Run alone it is a computation of the state
    and exception monad ([run]); in a pool, any other thread may act between
    two of its actions ([pool_step]). [valid] is a rely-guarantee logic for
    such programs: [O] is what a thread owns, [rely o] what the others may do
    to the shared state meanwhile, [guar o o'] what an action of the thread
    may do to it. *)

From S2P Require Import Prelude.

Inductive prog (S A : Type) : Type :=
  | Done (r : res A)
  | Atomic (f : S → prog S A * S).
Arguments Done {S A} r.
Arguments Atomic {S A} f.

(** The programs that follow an action are its parts. *)
Fixpoint prog_nested_ind {S A} (P : prog S A → Prop) (HD : ∀ r, P (Done r))
    (HA : ∀ f, (∀ s, P (f s).1) → P (Atomic f)) (p : prog S A) : P p :=
  match p with
  | Done r => HD r
  | Atomic f => HA f (λ s, prog_nested_ind P HD HA (f s).1)
  end.

(** What follows the end of [p], however it ends. *)
Fixpoint on_result {S A B} (k : res A → prog S B) (p : prog S A) : prog S B :=
  match p with
  | Done r => k r
  | Atomic f => Atomic (λ s, (on_result k (f s).1, (f s).2))
  end.

Definition when_ok {S A B} (k : A → prog S B) (r : res A) : prog S B :=
  match r with
  | Ok a => k a
  | Raise e => Done (Raise e)
  | Blocks => Done Blocks
  | NoFuel => Done NoFuel
  end.

#[export] Instance prog_ret {S} : MRet (prog S) := λ A a, Done (Ok a).
#[export] Instance prog_bind {S} : MBind (prog S) := λ A B k p, on_result (when_ok k) p.

(** One action. *)
Definition act {S A} (m : M S A) : prog S A := Atomic (λ s, (Done (m s).1, (m s).2)).
Definition fails {S A} (e : exn) : prog S A := Done (Raise e).

(** [try: p  except e if handles e: h] *)
Definition prog_try {S A} (handles : exn → bool) (p h : prog S A) : prog S A :=
  on_result (λ r, match r with
                  | Raise e => if handles e then h else Done (Raise e)
                  | r => Done r
                  end) p.

(** A program on a part of the state. *)
Fixpoint zoom_prog {S T A} (part : S → T) (set_part : T → S → S) (p : prog T A) : prog S A :=
  match p with
  | Done r => Done r
  | Atomic f => Atomic (λ s, (zoom_prog part set_part (f (part s)).1, set_part (f (part s)).2 s))
  end.

(** [for x in l: f x] and [acc = init; for x in l: acc = f acc x] *)
Fixpoint prog_for_acc {S A B} (f : B → A → prog S B) (acc : B) (l : list A) : prog S B :=
  match l with
  | [] => mret acc
  | x :: l => acc ← f acc x; prog_for_acc f acc l
  end.

(** ** Alone *)

Fixpoint run {S A} (p : prog S A) : M S A := λ s,
  match p with
  | Done r => (r, s)
  | Atomic f => run (f s).1 (f s).2
  end.

Lemma run_on_result {S A B} (k : res A → prog S B) (p : prog S A) s :
  run (on_result k p) s = run (k (run p s).1) (run p s).2.
Proof.
  revert s. induction p as [r|f IH] using prog_nested_ind; intros s; [done|]. cbn. apply IH.
Qed.

Lemma run_bind {S A B} (p : prog S A) (k : A → prog S B) s :
  run (p ≫= k) s = (run p ≫= λ a, run (k a)) s.
Proof.
  unfold mbind at 1, prog_bind. rewrite run_on_result. unfold mbind, M_bind.
  by destruct (run p s) as [[a| | |] s'].
Qed.

Lemma run_act {S A} (m : M S A) s : run (act m) s = m s.
Proof. cbn. by destruct (m s). Qed.

Lemma run_try {S A} handles (p h : prog S A) s :
  run (prog_try handles p h) s = try_except handles (run p) (run h) s.
Proof.
  unfold prog_try, try_except. rewrite run_on_result.
  destruct (run p s) as [[a|e| |] s']; try done. cbn. by destruct (handles e).
Qed.

Lemma run_zoom {S T A} (part : S → T) (set_part : T → S → S) (p : prog T A) s :
  (∀ t s, part (set_part t s) = t) → (∀ t t' s, set_part t (set_part t' s) = set_part t s) →
  (∀ s, set_part (part s) s = s) →
  run (zoom_prog part set_part p) s = zoom part set_part (run p) s.
Proof.
  intros H1 H2 H3. revert s. induction p as [r|f IH] using prog_nested_ind; intros s; unfold zoom; cbn.
  - by rewrite H3.
  - rewrite IH. unfold zoom. rewrite H1. destruct (run _ _) as [r t]. by rewrite H2.
Qed.

(** ** In a pool *)

Inductive pool_step {S A} : list (prog S A) * S → list (prog S A) * S → Prop :=
  | pool_act ts s i f :
      ts !! i = Some (Atomic f) → pool_step (ts, s) (<[i := (f s).1]> ts, (f s).2).

(** The same, without the state that the actions depend on. *)
Definition threads_step {S A} (ts ts' : list (prog S A)) : Prop :=
  ∃ i f s, ts !! i = Some (Atomic f) ∧ ts' = <[i := (f s).1]> ts.

Lemma threads_terminate {S A} (ts : list (prog S A)) : Acc (flip threads_step) ts.
Proof.
  induction ts as [|p ts IH]; [by constructor; intros ? (i & f & s & Hi & _)|].
  revert p. induction IH as [ts _ IH]. intros p.
  induction p as [r|f IHp] using prog_nested_ind; constructor; intros ? ([|i] & g & s & Hi & ->); cbn in *.
  - done.
  - apply IH. by exists i, g, s.
  - injection Hi as <-. apply IHp.
  - apply IH. by exists i, g, s.
Qed.

(** Whatever the schedule, the actions of a pool come to an end. *)
Lemma pool_terminates {S A} (c : list (prog S A) * S) : Acc (flip pool_step) c.
Proof.
  destruct c as [ts s]. revert s. induction (threads_terminate ts) as [ts _ IH]. intros s.
  constructor. intros c Hc. inversion Hc as [? ? i f Hi]; subst. apply IH. by exists i, f, s.
Qed.

(** The threads act in the order of a list; one that has ended does nothing. *)
Fixpoint schedule {S A} (l : list nat) (c : list (prog S A) * S) : list (prog S A) * S :=
  match l with
  | [] => c
  | i :: l =>
      schedule l (match c.1 !! i with
                  | Some (Atomic f) => (<[i := (f c.2).1]> c.1, (f c.2).2)
                  | _ => c
                  end)
  end.

Lemma schedule_steps {S A} (l : list nat) (c : list (prog S A) * S) : rtc pool_step c (schedule l c).
Proof.
  revert c. induction l as [|i l IH]; intros [ts s]; [done|]. cbn [schedule fst snd].
  destruct (ts !! i) as [[r|f]|] eqn:Hi; [apply IH| |apply IH].
  eapply rtc_l; [by apply (pool_act ts s i f)|apply IH].
Qed.

(** One thread may act until it ends. *)
Lemma pool_run {A S} (ts : list (prog S A)) s i p :
  ts !! i = Some p → rtc pool_step (ts, s) (<[i := Done (run p s).1]> ts, (run p s).2).
Proof.
  revert ts s. induction p as [r|f IH] using prog_nested_ind; intros ts s Hi; cbn.
  - by rewrite list_insert_id.
  - eapply rtc_l; [by apply (pool_act ts s i f)|]. etrans; [apply IH|].
    + apply list_lookup_insert_eq. by eapply lookup_lt_Some.
    + by rewrite list_insert_insert_eq.
Qed.

(** Where no thread can act, all have ended. *)
Definition ended {S A} (p : prog S A) : Prop := ∃ r, p = Done r.

Lemma pool_stuck {S A} (ts : list (prog S A)) s :
  (∀ c, ¬ pool_step (ts, s) c) → Forall ended ts.
Proof.
  intros Hn. apply Forall_lookup. intros i [r|f] Hi; [by exists r|]. edestruct Hn. by econstructor.
Qed.

(** ** Rely and guarantee *)

Class Protocol (S O : Type) := {
  inv : S → Prop;
  owns : O → S → Prop;
  rely : O → S → S → Prop;
  guar : O → O → S → S → Prop;
  apart : O → O → Prop;
  (** What must not be forgotten: a resource that somebody has to release. *)
  token : Type;
  holds : O → token → Prop;
  garbage : S → token → Prop;
}.

Class ProtocolLaws (S O : Type) `{Protocol S O} := {
  rely_preorder (o : O) :: PreOrder (rely o);
  guar_refl (o : O) (s : S) : inv s → owns o s → guar o o s s;
  rely_owns (o : O) (s s' : S) : rely o s s' → owns o s → owns o s';
  guar_inv (o o' : O) (s s' : S) : inv s → guar o o' s s' → inv s';
  guar_owns (o o' : O) (s s' : S) : inv s → owns o s → guar o o' s s' → owns o' s';
  apart_sym (o o' : O) : apart o o' → apart o' o;
  (** An action of a thread is among what the others rely on. *)
  guar_rely (o o' o2 : O) (s s' : S) :
    inv s → owns o s → owns o2 s → guar o o' s s' → apart o o2 → rely o2 s s' ∧ apart o' o2;
  (** Garbage is made by a thread that holds it. *)
  guar_garbage (o o' : O) (s s' : S) t :
    inv s → guar o o' s s' → garbage s' t → holds o' t ∨ (garbage s t ∧ ¬ holds o t);
}.

Section rely_guarantee.
Context {S O : Type} `{ProtocolLaws S O}.
Implicit Types (o : O) (s : S).

(** From [s] on, owning [o], every action of [p] keeps the guarantee and its
    result satisfies [Q], whatever the others do in between. *)
Fixpoint valid {A} (p : prog S A) (Q : res A → O → S → Prop) o s : Prop :=
  match p with
  | Done r => ∀ s', inv s' → rely o s s' → Q r o s'
  | Atomic f => ∀ s', inv s' → owns o s' → rely o s s' →
      ∃ o', guar o o' s' (f s').2 ∧ valid (f s').1 Q o' (f s').2
  end.

Lemma valid_rely {A} (p : prog S A) Q o s s' : rely o s s' → valid p Q o s → valid p Q o s'.
Proof.
  destruct p as [r|f]; cbn; intros Hr Hv s1 H1; [|intros Ho]; intros H2.
  - apply Hv; [done|]. by etrans.
  - apply Hv; [done..|]. by etrans.
Qed.

Lemma valid_mono {A} (p : prog S A) (Q Q' : res A → O → S → Prop) o s :
  valid p Q o s → (∀ r o' s', inv s' → Q r o' s' → Q' r o' s') → valid p Q' o s.
Proof.
  intros Hv HQ. revert o s Hv. induction p as [r|f IH] using prog_nested_ind; cbn; intros o s Hv s' Hi.
  - intros Hr. by apply HQ, Hv.
  - intros Ho Hr. destruct (Hv s' Hi Ho Hr) as (o' & Hg & Hv'). exists o'. split; [done|]. by apply IH.
Qed.

Lemma valid_on_result {A B} (k : res A → prog S B) (p : prog S A) Q o s :
  inv s → valid p (λ r o s, valid (k r) Q o s) o s → valid (on_result k p) Q o s.
Proof.
  intros Hi Hv. revert o s Hi Hv. induction p as [r|f IH] using prog_nested_ind; cbn; intros o s Hi Hv.
  - apply Hv; [done|reflexivity].
  - intros s' Hi' Ho Hr. destruct (Hv s' Hi' Ho Hr) as (o' & Hg & Hv'). exists o'. split; [done|].
    apply IH; [|done]. by eapply guar_inv.
Qed.

(** The postcondition of a program that a bind follows. *)
Definition post_bind {A B} (k : A → prog S B) (Q : res B → O → S → Prop) (r : res A) o s : Prop :=
  valid (when_ok k r) Q o s.

Lemma valid_bind {A B} (k : A → prog S B) (p : prog S A) Q o s :
  inv s → valid p (post_bind k Q) o s → valid (p ≫= k) Q o s.
Proof. apply valid_on_result. Qed.

Lemma valid_try {A} (handles : exn → bool) (p h : prog S A) Q o s :
  inv s →
  valid p (λ r o s, match r with
                    | Raise e => if handles e then valid h Q o s else valid (Done r) Q o s
                    | r => valid (Done r) Q o s
                    end) o s →
  valid (prog_try handles p h) Q o s.
Proof.
  intros Hi Hv. apply valid_on_result; [done|]. eapply valid_mono; [exact Hv|].
  intros [a|e| |] o' s' _ HQ; try exact HQ. by destruct (handles e).
Qed.

Lemma valid_done {A} (r : res A) (Q : res A → O → S → Prop) o s :
  (∀ s', inv s' → rely o s s' → Q r o s') → valid (Done r) Q o s.
Proof. done. Qed.

Lemma valid_act {A} (m : M S A) (Q : res A → O → S → Prop) o s :
  (∀ s1, inv s1 → owns o s1 → rely o s s1 →
    ∃ o', guar o o' s1 (m s1).2 ∧ ∀ s2, inv s2 → rely o' (m s1).2 s2 → Q (m s1).1 o' s2) →
  valid (act m) Q o s.
Proof. intros Hm. exact Hm. Qed.

(** An action that only looks. *)
Lemma valid_look {A} (m : M S A) (Q : res A → O → S → Prop) o s :
  (∀ s1, inv s1 → owns o s1 → rely o s s1 →
    (m s1).2 = s1 ∧ ∀ s2, inv s2 → rely o s1 s2 → Q (m s1).1 o s2) →
  valid (act m) Q o s.
Proof.
  intros Hm. apply valid_act. intros s1 H1 H2 H3. destruct (Hm s1 H1 H2 H3) as [-> HQ].
  exists o. split; [by apply guar_refl|exact HQ].
Qed.

(** A bind, from what its first part promises. *)
Lemma valid_seq {A B} (k : A → prog S B) (p : prog S A) Q1 Q o s :
  inv s → valid p Q1 o s →
  (∀ r o' s', inv s' → Q1 r o' s' → valid (when_ok k r) Q o' s') → valid (p ≫= k) Q o s.
Proof. intros Hi Hp Hk. apply valid_bind; [done|]. eapply valid_mono; [exact Hp|exact Hk]. Qed.

(** What no action undoes is still there at the end. *)
Lemma valid_frame {A} (P : S → Prop) (p : prog S A) Q o s :
  (∀ o s s', rely o s s' → P s → P s') → (∀ o o' s s', guar o o' s s' → P s → P s') →
  P s → valid p Q o s → valid p (λ r o s, Q r o s ∧ P s) o s.
Proof.
  intros Hr Hg. revert o s. induction p as [r|f IH] using prog_nested_ind; cbn; intros o s Hs Hv s' Hi.
  - intros Hrs. split; [by apply Hv|by eapply Hr].
  - intros Ho Hrs. destruct (Hv s' Hi Ho Hrs) as (o' & Hgs & Hv'). exists o'. split; [done|].
    apply IH; [|done]. by eapply Hg, Hr.
Qed.

(** A method that ends with a constant. *)
Lemma valid_ret_after {A B} (p : prog S A) (b : B) (P : O → S → Prop) o s :
  (∀ o s s', rely o s s' → P o s → P o s') → inv s →
  valid p (λ r o s, is_Ok r ∧ P o s) o s → valid (_ ← p; mret b) (λ r o s, r = Ok b ∧ P o s) o s.
Proof.
  intros Hst Hi Hp. eapply valid_seq; [done|exact Hp|]. intros ? o' s' _ [(a & ->) HP].
  intros s2 _ Hr. split; [done|by eapply Hst].
Qed.

(** ** The threads of a pool *)

Record pool_ok {A} (Qs : list (res A → O → S → Prop)) (os : list O) (c : list (prog S A) * S) : Prop := {
  pool_inv : inv c.2;
  pool_length : length os = length c.1;
  pool_owned i o : os !! i = Some o → owns o c.2;
  pool_apart i j oi oj : i ≠ j → os !! i = Some oi → os !! j = Some oj → apart oi oj;
  pool_garbage t : garbage c.2 t → ∃ i o, os !! i = Some o ∧ holds o t;
  pool_valid i p : c.1 !! i = Some p → ∃ o Q, os !! i = Some o ∧ Qs !! i = Some Q ∧ valid p Q o c.2;
}.

Lemma pool_ok_step {A} Qs os (c c' : list (prog S A) * S) :
  pool_ok Qs os c → pool_step c c' → ∃ os', pool_ok Qs os' c' ∧ ∃ o o', guar o o' c.2 c'.2.
Proof.
  intros [Hi Hl Ho Ha Hu Hv] Hs. destruct Hs as [ts s i f Hf]. cbn in *.
  destruct (Hv i _ Hf) as (o & Q & Hoi & HQ & Hp). cbn in Hp.
  destruct (Hp s Hi (Ho i o Hoi) ltac:(reflexivity)) as (o' & Hg & Hp').
  assert (∀ j oj, j ≠ i → os !! j = Some oj → rely oj s (f s).2 ∧ apart o' oj) as Hoth.
  { intros j oj Hj Hoj. apply (guar_rely o o' oj s); [done|by eapply Ho..|done|].
    by eapply (Ha i j). }
  assert (∀ j oj, <[i:=o']> os !! j = Some oj → j = i ∧ oj = o' ∨ j ≠ i ∧ os !! j = Some oj) as Hins.
  { intros j oj. destruct (decide (j = i)) as [->|Hj].
    - rewrite list_lookup_insert_eq by (by apply lookup_lt_Some in Hoi). intros [= <-]. by left.
    - rewrite list_lookup_insert_ne by done. by right. }
  exists (<[i:=o']> os). split; [split; cbn|by exists o, o'].
  - by eapply guar_inv.
  - by rewrite !length_insert.
  - intros j oj [[-> ->]|[Hj Hoj]]%Hins; [by eapply guar_owns; [..|exact Hg]; [|by eapply Ho]|].
    eapply rely_owns; [by apply (Hoth j)|by eapply Ho].
  - intros j k oj ok Hjk [[-> ->]|[Hj Hoj]]%Hins [[-> ->]|[Hk Hok]]%Hins.
    + done.
    + by apply (Hoth k).
    + by apply apart_sym, (Hoth j).
    + by eapply (Ha j k).
  - intros t Ht. destruct (guar_garbage o o' s _ t Hi Hg Ht) as [Hh|[Hh Hn]].
    { exists i, o'. split; [|done]. apply list_lookup_insert_eq. by apply lookup_lt_Some in Hoi. }
    destruct (Hu t Hh) as (j & oj & Hoj & Hhj). exists j, oj. split; [|done].
    rewrite list_lookup_insert_ne; [done|]. intros <-. congruence.
  - intros j p Hj. destruct (decide (j = i)) as [->|Hne].
    + rewrite list_lookup_insert_eq in Hj by (by apply lookup_lt_Some in Hf). injection Hj as <-.
      exists o', Q. split_and!; [|done..]. apply list_lookup_insert_eq. by apply lookup_lt_Some in Hoi.
    + rewrite list_lookup_insert_ne in Hj by done. destruct (Hv j p Hj) as (oj & Qj & Hoj & HQj & Hpj).
      exists oj, Qj. split_and!; [by rewrite list_lookup_insert_ne|done|].
      eapply valid_rely; [by apply (Hoth j)|done].
Qed.

Lemma pool_ok_steps {A} Qs os (c c' : list (prog S A) * S) :
  pool_ok Qs os c → rtc pool_step c c' → ∃ os', pool_ok Qs os' c'.
Proof.
  intros Hc Hr. revert os Hc. induction Hr as [c|c c1 c' Hs _ IH]; intros os Hc; [by exists os|].
  destruct (pool_ok_step Qs os c c1 Hc Hs) as (os1 & H1 & _). by apply (IH os1).
Qed.

(** What no action undoes is still there later. *)
Lemma pool_keeps {A} (P : S → Prop) Qs os (c c' : list (prog S A) * S) :
  (∀ o o' s s', guar o o' s s' → P s → P s') → pool_ok Qs os c → rtc pool_step c c' → P c.2 → P c'.2.
Proof.
  intros HP Hc Hr. revert os Hc. induction Hr as [c|c c1 c' Hs _ IH]; intros os Hc; [done|].
  destruct (pool_ok_step Qs os c c1 Hc Hs) as (os1 & H1 & o & o' & Hg). intros Hp. eapply IH; [exact H1|by eapply HP].
Qed.

(** What a thread of the pool has returned satisfies its postcondition. *)
Lemma pool_result {A} Qs os (c : list (prog S A) * S) i r :
  pool_ok Qs os c → c.1 !! i = Some (Done r) →
  ∃ o Q, os !! i = Some o ∧ Qs !! i = Some Q ∧ Q r o c.2.
Proof.
  intros Hc Hd. destruct (pool_valid Qs os c Hc i _ Hd) as (o & Q & Ho & HQ & Hv).
  exists o, Q. split_and!; [done..|]. apply Hv; [apply Hc|reflexivity].
Qed.

(** A pool of one thread. *)
Lemma valid_run {A} (p : prog S A) Q o s :
  inv s → owns o s → valid p Q o s → ∃ o', owns o' (run p s).2 ∧ inv (run p s).2 ∧ Q (run p s).1 o' (run p s).2.
Proof.
  revert o s. induction p as [r|f IH] using prog_nested_ind; intros o s Hi Ho Hv; cbn.
  - exists o. split_and!; [done..|]. apply Hv; [done|reflexivity].
  - destruct (Hv s Hi Ho ltac:(reflexivity)) as (o' & Hg & Hv'). eapply IH; [..|exact Hv'].
    + by eapply guar_inv.
    + by eapply guar_owns.
Qed.
End rely_guarantee.
