(* ===== verification/FileStorage.v ===== *)
(** * Files by digest (cmscommon/digest.py, cmscommon/binary.py,
    cms/db/filecacher.py: the backends)

    A file is stored under the hexadecimal SHA-1 of its content. [bytes] are
    strings of 8-bit characters; [sha1] is a parameter. A backend is an
    instance of [FileCacherBackend]: the directory of [FSBackend], the rows
    and large objects of [DBBackend], and [NullBackend]. Every operation is a
    sequence of the actions after which another process may act. A file
    opened for reading is the content it had when it was opened: a file in
    place is replaced, never written, and a large object is read in the
    snapshot of its transaction. What is written to a large object is visible
    to others from [close], which commits. *)

From S2P Require Import Prelude PyString Interleaving.
From Stdlib Require Import Strings.Ascii.

Local Open Scope string_scope.

Abbreviation bytes := string (only parsing).

Definition OSError : exn := UserError "OSError".
Definition FileNotFoundError : exn := UserError "FileNotFoundError".
Definition IntegrityError : exn := UserError "IntegrityError".
Definition UndefinedObject : exn := UserError "UndefinedObject".

Definition is_os_error (e : exn) : bool :=
  bool_decide (e = OSError) || bool_decide (e = FileNotFoundError).
Definition is_integrity_error (e : exn) : bool := bool_decide (e = IntegrityError).

(** ** Digests *)

Definition hex_digit (n : nat) : ascii := ascii_of_nat (if decide (n < 10) then 48 + n else 87 + n).

Fixpoint bin_to_hex (b : bytes) : string :=
  match b with
  | EmptyString => EmptyString
  | String c b =>
      String (hex_digit (nat_of_ascii c / 16)) (String (hex_digit (nat_of_ascii c mod 16)) (bin_to_hex b))
  end.

(** [a2b_hex] also reads capital letters. *)
Definition hex_value (c : ascii) : option nat :=
  let n := nat_of_ascii c in
  if decide (48 ≤ n < 58) then Some (n - 48)
  else if decide (97 ≤ n < 103) then Some (n - 87)
  else if decide (65 ≤ n < 71) then Some (n - 55)
  else None.

Fixpoint hex_to_bin (h : string) : res bytes :=
  match h with
  | EmptyString => Ok EmptyString
  | String c1 (String c2 h) =>
      a ← or_raise ValueError (hex_value c1);
      b ← or_raise ValueError (hex_value c2);
      rest ← hex_to_bin h;
      Ok (String (ascii_of_nat (a * 16 + b)) rest)
  | String _ EmptyString => Raise ValueError
  end.

Section digest.
Context (sha1 : bytes → bytes).

(** The state of a hasher is what it was fed. *)
Record Digester : Type := mkDigester { _hasher : bytes }.

Definition new_digester : Digester := mkDigester "".
Definition digester_update (d : Digester) (b : bytes) : Digester := mkDigester (_hasher d +:+ b).
Definition digester_digest (d : Digester) : string := bin_to_hex (sha1 (_hasher d)).

Definition bytes_digest (b : bytes) : string := digester_digest (digester_update new_digester b).

(** The digest of what a file object has left to read. *)
Fixpoint digest_chunks (fuel : nat) (size : nat) (d : Digester) (src : bytes) : res Digester :=
  match fuel with
  | O => NoFuel
  | S fuel =>
      let buf := take_string size src in
      if decide (buf = "") then Ok d
      else digest_chunks fuel size (digester_update d buf) (drop_string size src)
  end.

Definition DEFAULT_BUFFER_SIZE : nat := Z.to_nat 8192.

(** [path_digest], of the content of the file. *)
Definition path_digest (content : bytes) : res string :=
  d ← digest_chunks (S (String.length content)) DEFAULT_BUFFER_SIZE new_digester content;
  Ok (digester_digest d).
End digest.

Definition TOMBSTONE : string := "x".

Definition is_hex (c : ascii) : bool :=
  let n := nat_of_ascii c in bool_decide (48 ≤ n < 58) || bool_decide (97 ≤ n < 103).

(** The domain of the column type [Digest], tombstone apart. *)
Definition digest_name (d : string) : bool :=
  bool_decide (String.length d = 40) && string_forall is_hex d.

(** ** Copying *)

(** [while len(buffer) > 0: written = write(buffer); buffer = buffer[written:]] *)
Fixpoint write_all {S} (fuel : nat) (write : bytes → prog S nat) (buffer : bytes) : prog S unit :=
  match fuel with
  | O => Done NoFuel
  | Datatypes.S fuel =>
      if decide (buffer = "") then mret tt
      else written ← write buffer; write_all fuel write (drop_string written buffer)
  end.

(** [copyfileobj], from what the source has left to read. *)
Fixpoint copy_chunks {S} (fuel : nat) (write : bytes → prog S nat) (buffer_size : nat) (src : bytes)
    : prog S unit :=
  match fuel with
  | O => Done NoFuel
  | Datatypes.S fuel =>
      let buffer := take_string buffer_size src in
      if decide (buffer = "") then mret tt
      else _ ← write_all (Datatypes.S (String.length buffer)) write buffer;
           copy_chunks fuel write buffer_size (drop_string buffer_size src)
  end.

Definition copyfileobj {S} (src : bytes) (write : bytes → prog S nat) (buffer_size : nat) : prog S unit :=
  copy_chunks (Datatypes.S (String.length src)) write buffer_size src.

(** ** Backends *)

(** [B] is the storage and [W] the handle of a file that is being created. *)
Class FileCacherBackend (B W : Type) := {
  get_file : string → prog B bytes;
  create_file : string → prog B (option W);
  write_file : W → bytes → prog B nat;
  commit_file : W → string → string → prog B bool;
  describe : string → prog B (option string);
  get_size : string → prog B nat;
  delete_file : string → prog B unit;
  list_files : prog B (list (string * option string));
}.

Module FS.
(** The files of the directory, by name. *)
Abbreviation Dir := (gmap string string).

Section FSBackend.
(** The name that [tempfile] chooses among the names in use, with a prefix
    and a suffix. *)
Context (temp_name : gset string → string → string → string).

Definition exists_file (name : string) : M Dir bool := gets (λ d, bool_decide (is_Some (d !! name))).
Definition open_file (name : string) : M Dir bytes := λ d, (or_raise FileNotFoundError (d !! name), d).
Definition rename (src dst : string) : M Dir unit := λ d,
  match d !! src with
  | Some c => (Ok tt, <[dst := c]> (delete src d))
  | None => (Raise FileNotFoundError, d)
  end.
Definition unlink (name : string) : M Dir unit := λ d,
  match d !! name with
  | Some _ => (Ok tt, delete name d)
  | None => (Raise FileNotFoundError, d)
  end.
Definition NamedTemporaryFile (prefix suffix : string) : M Dir string := λ d,
  let name := temp_name (dom d) prefix suffix in (Ok name, <[name := ""]> d).
Definition append (name : string) (buf : bytes) : M Dir nat := λ d,
  (Ok (String.length buf), alter (λ c, c +:+ buf) name d).

Definition get_file (digest : string) : prog Dir bytes :=
  found ← act (exists_file digest);
  if found : bool then act (open_file digest) else fails KeyError.

Definition create_file (digest : string) : prog Dir (option string) :=
  found ← act (exists_file digest);
  if found : bool then mret None else temp_file ← act (NamedTemporaryFile ".tmp." digest); mret (Some temp_file).

Definition commit_file (fobj digest desc : string) : prog Dir bool :=
  found ← act (exists_file digest);
  if negb found then _ ← act (rename fobj digest); mret true
  else _ ← act (unlink fobj); mret false.

Definition describe (digest : string) : prog Dir (option string) :=
  found ← act (exists_file digest);
  if found : bool then mret (Some "") else fails KeyError.

Definition get_size (digest : string) : prog Dir nat :=
  found ← act (exists_file digest);
  if found : bool then c ← act (open_file digest); mret (String.length c) else fails KeyError.

Definition delete_file (digest : string) : prog Dir unit :=
  prog_try is_os_error (act (unlink digest)) (mret tt).

Definition list_files : prog Dir (list (string * option string)) :=
  act (gets (λ d, (λ x, (x.1, Some "")) <$> map_to_list d)).

#[export] Instance FSBackend : FileCacherBackend Dir string := {
  FileStorage.get_file := get_file;
  FileStorage.create_file := create_file;
  FileStorage.write_file := λ fobj buf, act (append fobj buf);
  FileStorage.commit_file := commit_file;
  FileStorage.describe := describe;
  FileStorage.get_size := get_size;
  FileStorage.delete_file := delete_file;
  FileStorage.list_files := list_files;
}.
End FSBackend.
End FS.

Module DB.
Section DBBackend.
(** The identifier that PostgreSQL gives to a new large object, among the
    ones in use. *)
Context (lo_creat : gset Z → Z).

Record FSObject : Type := mkFSObject {
  loid : Z;
  description : option string;
}.

Record Rows : Type := mkRows {
  fsobjects : gmap string FSObject;     (* by digest *)
  lobjects : gmap Z bytes;              (* the large objects, committed *)
  open_lobjects : gmap Z bytes;         (* in the transaction that created them *)
}.

Definition with_fsobjects (f : gmap string FSObject → gmap string FSObject) (b : Rows) : Rows :=
  mkRows (f (fsobjects b)) (lobjects b) (open_lobjects b).
Definition with_lobjects (f : gmap Z bytes → gmap Z bytes) (b : Rows) : Rows :=
  mkRows (fsobjects b) (f (lobjects b)) (open_lobjects b).
Definition with_open (f : gmap Z bytes → gmap Z bytes) (b : Rows) : Rows :=
  mkRows (fsobjects b) (lobjects b) (f (open_lobjects b)).

Definition get_from_digest (digest : string) : M Rows (option FSObject) := gets (λ b, fsobjects b !! digest).

(** [LargeObject(0, mode='wb')] *)
Definition create_lobject : M Rows Z := λ b,
  let l := lo_creat (dom (lobjects b) ∪ dom (open_lobjects b)) in
  if decide (l = 0%Z) then (Raise OSError, b) else (Ok l, with_open <[l := ""]> b).

(** [LargeObject(loid, mode='rb')], read to its end. *)
Definition open_lobject (l : Z) : M Rows bytes := λ b, (or_raise OSError (lobjects b !! l), b).

Definition write_lobject (l : Z) (buf : bytes) : M Rows nat := λ b,
  match open_lobjects b !! l with
  | Some c => (Ok (String.length buf), with_open <[l := c +:+ buf]> b)
  | None => (Raise OSError, b)
  end.

(** [close], which commits and may be called again. *)
Definition close_lobject (l : Z) : M Rows unit := modify (λ b,
  match open_lobjects b !! l with
  | Some c => with_lobjects <[l := c]> (with_open (delete l) b)
  | None => b
  end).

Definition unlink_lobject (l : Z) : M Rows unit := λ b,
  match lobjects b !! l with
  | Some _ => (Ok tt, with_lobjects (delete l) b)
  | None => (Raise UndefinedObject, b)
  end.

(** A session that adds an object and commits. *)
Definition insert_fsobject (digest : string) (fso : FSObject) : M Rows unit := λ b,
  match fsobjects b !! digest with
  | Some _ => (Raise IntegrityError, b)
  | None => (Ok tt, with_fsobjects <[digest := fso]> b)
  end.

Definition found (digest : string) : prog Rows FSObject :=
  fso ← act (get_from_digest digest);
  match fso with
  | None => fails KeyError
  | Some fso => mret fso
  end.

(** [get_lobject(mode='rb')] *)
Definition get_lobject (fso : FSObject) : prog Rows bytes :=
  if bool_decide (loid fso = 0%Z) then fails AssertionError else act (open_lobject (loid fso)).

Definition get_file (digest : string) : prog Rows bytes := fso ← found digest; get_lobject fso.

Definition create_file (digest : string) : prog Rows (option Z) :=
  fso ← act (get_from_digest digest);
  match fso with
  | Some _ => mret None
  | None => l ← act create_lobject; mret (Some l)
  end.

Definition commit_file (fobj : Z) (digest desc : string) : prog Rows bool :=
  _ ← act (close_lobject fobj);
  prog_try is_integrity_error
    (_ ← act (insert_fsobject digest (mkFSObject fobj (Some desc))); mret true)
    (_ ← act (unlink_lobject fobj); mret false).

Definition describe (digest : string) : prog Rows (option string) :=
  fso ← found digest; mret (description fso).

Definition get_size (digest : string) : prog Rows nat :=
  fso ← found digest; c ← get_lobject fso; mret (String.length c).

Definition delete_file (digest : string) : prog Rows unit :=
  fso ← act (get_from_digest digest);
  match fso with
  | None => mret tt
  | Some fso => _ ← act (unlink_lobject (loid fso)); act (modify (with_fsobjects (delete digest)))
  end.

Definition list_files : prog Rows (list (string * option string)) :=
  act (gets (λ b, (λ x, (x.1, description x.2)) <$> map_to_list (fsobjects b))).

#[export] Instance DBBackend : FileCacherBackend Rows Z := {
  FileStorage.get_file := get_file;
  FileStorage.create_file := create_file;
  FileStorage.write_file := λ fobj buf, act (write_lobject fobj buf);
  FileStorage.commit_file := commit_file;
  FileStorage.describe := describe;
  FileStorage.get_size := get_size;
  FileStorage.delete_file := delete_file;
  FileStorage.list_files := list_files;
}.
End DBBackend.
End DB.

Module Null.
#[export] Instance NullBackend : FileCacherBackend unit Empty_set := {
  get_file _ := fails KeyError;
  create_file _ := mret None;
  write_file _ buf := mret (String.length buf);
  commit_file _ _ _ := mret false;
  describe _ := fails KeyError;
  get_size _ := fails KeyError;
  delete_file _ := mret tt;
  list_files := mret [];
}.
End Null.
