(* ===== verification/FileCacher.v ===== *)
(** * The file cacher (cms/db/filecacher.py: FileCacher)

    A local directory of files by digest in front of a backend. The directory
    may be shared with the other services of the machine, and anyone may
    delete a file from it; a file is first written under a temporary name and
    then renamed into place. The temporary files have their own directory,
    inside the first one. *)

From S2P Require Import Prelude PyString Interleaving FileStorage.

Local Open Scope string_scope.

Definition TombstoneError : exn := UserError "TombstoneError".
Definition SharedCache : exn := UserError "Exception".

(** [None] is a directory that does not exist. *)
Record Cacher (B : Type) : Type := mkCacher {
  storage : B;
  file_dir : option (gmap string bytes);
  temp_dir : option (gmap string bytes);
  cache_lock : bool;
  local_files : gmap string bytes;         (* other paths of the machine *)
}.
Arguments mkCacher {B}.
Arguments storage {B}.
Arguments file_dir {B}.
Arguments temp_dir {B}.
Arguments cache_lock {B}.
Arguments local_files {B}.

Section FileCacher.
Context {B W : Type} `{FileCacherBackend B W}.
Context (sha1 : bytes → bytes).
(** The name [tempfile] chooses among the names in use. *)
Context (temp_name : gset string → string).

Definition set_storage (b : B) (c : Cacher B) : Cacher B :=
  mkCacher b (file_dir c) (temp_dir c) (cache_lock c) (local_files c).
Definition set_dirs (f t : option (gmap string bytes)) (c : Cacher B) : Cacher B :=
  mkCacher (storage c) f t (cache_lock c) (local_files c).
Definition set_lock (l : bool) (c : Cacher B) : Cacher B :=
  mkCacher (storage c) (file_dir c) (temp_dir c) l (local_files c).
Definition set_local_files (f : gmap string bytes → gmap string bytes) (c : Cacher B) : Cacher B :=
  mkCacher (storage c) (file_dir c) (temp_dir c) (cache_lock c) (f (local_files c)).

(** ** Actions on the two directories *)

Definition cached (c : Cacher B) (name : string) : option bytes := f ← file_dir c; f !! name.
Definition temp (c : Cacher B) (name : string) : option bytes := t ← temp_dir c; t !! name.

Definition exists_cached (name : string) : M (Cacher B) bool := gets (λ c, bool_decide (is_Some (cached c name))).
Definition open_cached (name : string) : M (Cacher B) bytes := λ c, (or_raise FileNotFoundError (cached c name), c).
Definition unlink_cached (name : string) : M (Cacher B) unit := λ c,
  match cached c name with
  | Some _ => (Ok tt, set_dirs (delete name <$> file_dir c) (temp_dir c) c)
  | None => (Raise FileNotFoundError, c)
  end.

Definition mkstemp : M (Cacher B) string := λ c,
  match temp_dir c with
  | Some t => let name := temp_name (dom t) in (Ok name, set_dirs (file_dir c) (Some (<[name := ""]> t)) c)
  | None => (Raise FileNotFoundError, c)
  end.
(** A file that is open can be written even when its name is gone. *)
Definition write_temp (name : string) (buf : bytes) : M (Cacher B) nat := λ c,
  (Ok (String.length buf), set_dirs (file_dir c) (alter (λ x, x +:+ buf) name <$> temp_dir c) c).
Definition open_temp (name : string) : M (Cacher B) bytes := λ c, (or_raise FileNotFoundError (temp c name), c).
Definition rename_temp (name digest : string) : M (Cacher B) unit := λ c,
  match temp c name, file_dir c with
  | Some x, Some f => (Ok tt, set_dirs (Some (<[digest := x]> f)) (delete name <$> temp_dir c) c)
  | _, _ => (Raise FileNotFoundError, c)
  end.

(** ** Methods *)

Definition CHUNK_SIZE : nat := Z.to_nat 16384.

Definition on_backend {A} (p : prog B A) : prog (Cacher B) A := zoom_prog storage set_storage p.

(** The lock is held until the file that is returned is closed. *)
Definition precache_lock : prog (Cacher B) (option unit) :=
  act (λ c, if cache_lock c then (Ok None, c) else (Ok (Some tt), set_lock true c)).

Definition download (digest : string) : prog (Cacher B) string :=
  temp_file_path ← act mkstemp;
  fobj ← on_backend (get_file digest);
  _ ← copyfileobj fobj (λ buf, act (write_temp temp_file_path buf)) CHUNK_SIZE;
  mret temp_file_path.

Definition _load (digest : string) (cache_only : bool) : prog (Cacher B) (option bytes) :=
  if cache_only then
    found ← act (exists_cached digest);
    if found : bool then mret None
    else temp_file_path ← download digest;
         _ ← act (rename_temp temp_file_path digest);
         mret None
  else
    prog_try (λ e, bool_decide (e = FileNotFoundError))
      (c ← act (open_cached digest); mret (Some c)) (mret None) ≫= λ opened,
    match opened with
    | Some c => mret (Some c)
    | None =>
        temp_file_path ← download digest;
        fd ← act (open_temp temp_file_path);
        _ ← act (rename_temp temp_file_path digest);
        mret (Some fd)
    end.

Definition check_tombstone {A} (digest : string) (p : prog (Cacher B) A) : prog (Cacher B) A :=
  if bool_decide (digest = TOMBSTONE) then fails TombstoneError else p.

Definition cache_file (digest : string) : prog (Cacher B) unit :=
  check_tombstone digest (_ ← _load digest true; mret tt).

Definition cacher_get_file (digest : string) : prog (Cacher B) bytes :=
  check_tombstone digest (fd ← _load digest false; Done (or_raise AttributeError fd)).

Definition get_file_content (digest : string) : prog (Cacher B) bytes :=
  check_tombstone digest (cacher_get_file digest).

Definition get_file_to_fobj (digest : string) (dst : bytes → prog (Cacher B) nat) : prog (Cacher B) unit :=
  check_tombstone digest (src ← cacher_get_file digest; copyfileobj src dst CHUNK_SIZE).

Definition truncate_path (path : string) : M (Cacher B) unit := modify (set_local_files <[path := ""]>).
Definition write_path (path : string) (buf : bytes) : M (Cacher B) nat := λ c,
  (Ok (String.length buf), set_local_files (alter (λ x, x +:+ buf) path) c).

Definition get_file_to_path (digest dst_path : string) : prog (Cacher B) unit :=
  check_tombstone digest
    (src ← cacher_get_file digest;
     _ ← act (truncate_path dst_path);
     copyfileobj src (λ buf, act (write_path dst_path buf)) CHUNK_SIZE).

(** The loop that reads the source, feeds the digester and writes the
    temporary file. *)
Fixpoint digest_and_write (fuel : nat) (name : string) (d : Digester) (src : bytes) : prog (Cacher B) Digester :=
  match fuel with
  | O => Done NoFuel
  | S fuel =>
      let buf := take_string CHUNK_SIZE src in
      if decide (buf = "") then mret d
      else
        let d := digester_update d buf in
        _ ← write_all (S (String.length buf)) (λ buf, act (write_temp name buf)) buf;
        digest_and_write fuel name d (drop_string CHUNK_SIZE src)
  end.

Definition store_in_backend (digest desc : string) (src : bytes) : prog (Cacher B) unit :=
  fobj ← on_backend (create_file digest);
  match fobj with
  | Some fobj =>
      _ ← copyfileobj src (λ buf, on_backend (write_file fobj buf)) CHUNK_SIZE;
      _ ← on_backend (commit_file fobj digest desc);
      mret tt
  | None => mret tt
  end.

Definition put_file_from_fobj (src : bytes) (desc : string) : prog (Cacher B) string :=
  dst ← act mkstemp;
  d ← digest_and_write (S (String.length src)) dst new_digester src;
  let digest := digester_digest sha1 d in
  src ← act (open_temp dst);
  _ ← store_in_backend digest desc src;
  _ ← act (rename_temp dst digest);
  mret digest.

Definition put_file_content (content : bytes) (desc : string) : prog (Cacher B) string :=
  put_file_from_fobj content desc.

Definition put_file_from_path (src_path desc : string) : prog (Cacher B) string :=
  src ← act (λ c, (or_raise FileNotFoundError (local_files c !! src_path), c));
  put_file_from_fobj src desc.

Definition cacher_describe (digest : string) : prog (Cacher B) (option string) :=
  check_tombstone digest (on_backend (describe digest)).

Definition cacher_get_size (digest : string) : prog (Cacher B) nat :=
  check_tombstone digest (on_backend (get_size digest)).

Definition drop (digest : string) : prog (Cacher B) unit :=
  if bool_decide (digest = TOMBSTONE) then mret tt
  else prog_try is_os_error (act (unlink_cached digest)) (mret tt).

Definition delete (digest : string) : prog (Cacher B) unit :=
  if bool_decide (digest = TOMBSTONE) then mret tt
  else _ ← drop digest; on_backend (delete_file digest).

(** [shared] is whether the cacher was made for a service. The temporary
    directory is inside the one that is removed. *)
Definition destroy_cache (shared : bool) : prog (Cacher B) unit :=
  if shared then fails SharedCache
  else act (λ c, match file_dir c with
                 | Some _ => (Ok tt, set_dirs None None c)
                 | None => (Raise FileNotFoundError, c)
                 end).

(** [mkdir_ok] is what [mkdir] answers on the two directories. *)
Definition purge_cache (shared mkdir_ok : bool) : prog (Cacher B) unit :=
  _ ← destroy_cache shared;
  if mkdir_ok then act (modify (λ c, set_dirs (Some ∅) (temp_dir c) c)) else fails RuntimeError.

Definition cacher_list : prog (Cacher B) (list (string * option string)) := on_backend list_files.

Definition check_file (delete_wrong : bool) (clean : bool) (digest : string) : prog (Cacher B) bool :=
  fobj ← on_backend (get_file digest);
  d ← Done (digest_chunks (S (String.length fobj)) CHUNK_SIZE new_digester fobj);
  if bool_decide (digest ≠ digester_digest sha1 d) then
    _ ← (if delete_wrong then delete digest else mret tt); mret false
  else mret clean.

Definition check_backend_integrity (delete_wrong : bool) : prog (Cacher B) bool :=
  files ← cacher_list;
  prog_for_acc (check_file delete_wrong) true files.*1.

(** [__init__]: the local directory of a service is shared and may exist. *)
Definition new_cacher (b : B) (existing : option (gmap string bytes)) (paths : gmap string bytes) : Cacher B :=
  mkCacher b (Some (default ∅ existing)) (Some ∅) false paths.
End FileCacher.
