(* ===== verification/FileStorageSpec.v ===== *)
(** * What a backend promises to the file cacher

    [BackendSpec] is the contract: a file that is in place under a digest has
    a content of that digest and stays, and a file that was created, written
    and committed is in place, whatever the others do meanwhile. The directory
    of [FSBackend] and the rows and large objects of [DBBackend] keep it; what
    must not be forgotten is a temporary file, or a large object that no row
    refers to. *)

From S2P Require Import Prelude PyString Interleaving FileStorage.
From Stdlib Require Import Strings.Ascii.

Local Open Scope string_scope.

(** ** Digests *)

Lemma is_hex_digit n : n < 16 → is_hex (hex_digit n) = true.
Proof. intros Hn. do 16 (destruct n as [|n]; [done|]). lia. Qed.

Lemma hex_value_digit n : n < 16 → hex_value (hex_digit n) = Some n.
Proof. intros Hn. do 16 (destruct n as [|n]; [done|]). lia. Qed.

Lemma nibbles c : nat_of_ascii c / 16 < 16 ∧ nat_of_ascii c mod 16 < 16.
Proof.
  pose proof (nat_ascii_bounded c). split; [|by apply Nat.mod_upper_bound].
  apply Nat.Div0.div_lt_upper_bound. lia.
Qed.

Lemma length_bin_to_hex b : String.length (bin_to_hex b) = 2 * String.length b.
Proof. induction b as [|c b IH]; [done|]. cbn [bin_to_hex String.length]. rewrite IH. lia. Qed.

Lemma bin_to_hex_is_hex b : string_forall is_hex (bin_to_hex b) = true.
Proof.
  induction b as [|c b IH]; [done|]. cbn [bin_to_hex string_forall].
  destruct (nibbles c) as [H1 H2]. by rewrite !is_hex_digit, IH.
Qed.

Lemma hex_to_bin_to_hex b : hex_to_bin (bin_to_hex b) = Ok b.
Proof.
  induction b as [|c b IH]; [done|]. cbn [bin_to_hex hex_to_bin].
  destruct (nibbles c) as [H1 H2]. rewrite !hex_value_digit, IH by done.
  cbn [or_raise mbind res_bind]. replace (_ + _) with (nat_of_ascii c); [by rewrite ascii_nat_embedding|].
  pose proof (Nat.div_mod_eq (nat_of_ascii c) 16). lia.
Qed.

Lemma take_string_empty i s : 0 < i → take_string i s = "" → s = "".
Proof. intros Hi. destruct s; [done|]. destruct i; [lia|]. by rewrite take_string_S. Qed.

Lemma append_take_drop w n s : (w +:+ take_string n s) +:+ drop_string n s = w +:+ s.
Proof. by rewrite <- append_assoc, take_drop_string. Qed.

Lemma take_string_nonempty i s : take_string i s ≠ "" → 0 < String.length s.
Proof. destruct s; [by destruct i|]. cbn. lia. Qed.

Section digests.
Context (sha1 : bytes → bytes).

Lemma digest_chunks_ok size fuel d src :
  0 < size → String.length src < fuel → digest_chunks fuel size d src = Ok (digester_update d src).
Proof.
  intros Hs. revert d src. induction fuel as [|fuel IH]; intros d src Hf; [lia|]. cbn [digest_chunks].
  destruct (decide (take_string size src = "")) as [He|He].
  - apply take_string_empty in He as ->; [|done]. unfold digester_update. rewrite append_empty_r.
    by destruct d.
  - rewrite IH.
    + unfold digester_update. cbn. by rewrite append_take_drop.
    + rewrite length_drop_string. apply take_string_nonempty in He. lia.
Qed.

Lemma path_digest_ok content : path_digest sha1 content = Ok (bytes_digest sha1 content).
Proof.
  unfold path_digest, bytes_digest. rewrite digest_chunks_ok; [done| |lia].
  unfold DEFAULT_BUFFER_SIZE. lia.
Qed.

Lemma bytes_digest_name (Hlen : ∀ b, String.length (sha1 b) = 20) content :
  digest_name (bytes_digest sha1 content) = true.
Proof.
  unfold digest_name, bytes_digest, digester_digest. rewrite bin_to_hex_is_hex, andb_true_r.
  apply bool_decide_eq_true. rewrite length_bin_to_hex, Hlen. done.
Qed.
End digests.

Lemma digest_name_no_dot d : digest_name d = true → startswith "." d = false.
Proof.
  unfold digest_name. intros [_ H]%andb_prop. destruct d as [|c d]; [done|]. cbn in *.
  apply andb_prop in H as [H _]. destruct (decide (c = "."%char)) as [->|Hc]; [done|].
  unfold startswith. cbn. case_match; [congruence|done].
Qed.

Lemma digest_name_tombstone d : digest_name d = true → d ≠ TOMBSTONE.
Proof. by intros H ->. Qed.

(** ** Copying *)

Section copying.
Context {S O : Type} `{ProtocolLaws S O}.

(** [write] adds part of a nonempty buffer to what it wrote so far. *)
Context (J : bytes → O → S → Prop) (write : bytes → prog S nat).
Context (J_stable : ∀ w o s s', rely o s s' → J w o s → J w o s').
Context (write_ok : ∀ w buf o s, inv s → J w o s → buf ≠ "" →
  valid (write buf) (λ r o' s', ∃ n, r = Ok n ∧ 0 < n ∧ J (w +:+ take_string n buf) o' s') o s).

Definition copied (w : bytes) (r : res unit) (o : O) (s : S) : Prop := r = Ok tt ∧ J w o s.

Lemma valid_copied w o s : J w o s → valid (mret tt) (copied w) o s.
Proof. intros HJ s' _ Hr. split; [done|by eapply J_stable]. Qed.

Lemma valid_write_all fuel w buf o s :
  inv s → J w o s → String.length buf < fuel → valid (write_all fuel write buf) (copied (w +:+ buf)) o s.
Proof.
  revert w buf o s. induction fuel as [|fuel IH]; intros w buf o s Hi HJ Hf; [lia|]. cbn [write_all].
  case_decide as Hb; [subst; rewrite append_empty_r; by apply valid_copied|].
  eapply valid_seq; [done|by apply write_ok|]. cbv beta. intros ? o' s' Hi' (n & -> & Hn & HJ').
  rewrite <- (append_take_drop w n buf). apply IH; [done..|].
  rewrite length_drop_string. assert (0 < String.length buf) by (destruct buf; [done|cbn; lia]). lia.
Qed.

Lemma valid_copy_chunks fuel size w src o s :
  inv s → J w o s → 0 < size → String.length src < fuel →
  valid (copy_chunks fuel write size src) (copied (w +:+ src)) o s.
Proof.
  revert w src o s. induction fuel as [|fuel IH]; intros w src o s Hi HJ Hs Hf; [lia|]. cbn [copy_chunks].
  case_decide as Hb.
  - apply take_string_empty in Hb as ->; [|done]. rewrite append_empty_r. by apply valid_copied.
  - eapply valid_seq; [done|apply valid_write_all; [done..|lia]|]. intros ? o' s' Hi' [-> HJ'].
    rewrite <- (append_take_drop w size src). apply IH; [done..|].
    rewrite length_drop_string. apply take_string_nonempty in Hb. lia.
Qed.

Lemma valid_copyfileobj size w src o s :
  inv s → J w o s → 0 < size → valid (copyfileobj src write size) (copied (w +:+ src)) o s.
Proof. intros ???. apply valid_copy_chunks; [done..|lia]. Qed.
End copying.

(** ** The contract *)

Section contract.
Context (sha1 : bytes → bytes).

Class BackendSpec (B W : Type) `{FileCacherBackend B W} := {
  bowned : Type;
  bprotocol :: Protocol B bowned;
  blaws :: ProtocolLaws B bowned;
  nothing : bowned;
  nothing_owns s : owns nothing s;
  nothing_holds t : ¬ holds nothing t;
  nothing_apart : apart nothing nothing;
  (** A file is stored under the digest. *)
  in_place : B → string → Prop;
  (** Just the file of the handle is being created, with this content so far. *)
  creating : W → bytes → bowned → B → Prop;
  in_place_stable d o s s' : rely o s s' → in_place s d → in_place s' d;
  in_place_kept d o o' s s' : guar o o' s s' → in_place s d → in_place s' d;
  creating_stable w c o s s' : rely o s s' → creating w c o s → creating w c o s';
  get_file_ok d s :
    inv s → digest_name d = true →
    valid (get_file d) (λ r o s',
      o = nothing ∧ match r with
                    | Ok c => bytes_digest sha1 c = d
                    | Raise KeyError => ¬ in_place s d
                    | _ => False
                    end) nothing s;
  create_file_ok d s :
    inv s → digest_name d = true →
    valid (create_file d) (λ r o s',
      (r = Ok None ∧ o = nothing ∧ in_place s' d) ∨ (∃ w, r = Ok (Some w) ∧ creating w "" o s')) nothing s;
  write_file_ok w c buf o s :
    inv s → creating w c o s →
    valid (write_file w buf) (λ r o' s', r = Ok (String.length buf) ∧ creating w (c +:+ buf) o' s') o s;
  commit_file_ok w c d desc o s :
    inv s → digest_name d = true → creating w c o s → bytes_digest sha1 c = d →
    valid (commit_file w d desc) (λ r o' s', (∃ b, r = Ok b) ∧ o' = nothing ∧ in_place s' d) o s;
}.
End contract.

(** ** The directory *)

Module FSSpec.
Import FS.
Section fs.
Context (sha1 : bytes → bytes) (temp_name : gset string → string → string → string).
Context (temp_fresh : ∀ used prefix suffix, temp_name used prefix suffix ∉ used).
Context (temp_prefix : ∀ used prefix suffix, startswith prefix (temp_name used prefix suffix) = true).

Definition is_temp (n : string) : Prop := startswith "." n = true.

Lemma is_temp_tmp n : startswith ".tmp." n = true → is_temp n.
Proof.
  unfold is_temp, startswith. destruct n as [|c n]; [done|]. cbn. case_match; [|done]. by destruct n.
Qed.

Lemma temp_not_digest n : is_temp n → digest_name n = true → False.
Proof. unfold is_temp. intros H1 H2%digest_name_no_dot. congruence. Qed.

#[export] Instance fs_protocol : Protocol Dir (gset string) := {
  inv s := ∀ d c, digest_name d = true → s !! d = Some c → bytes_digest sha1 c = d;
  owns o s := ∀ n, n ∈ o → is_temp n ∧ is_Some (s !! n);
  rely o s s' := (∀ n, n ∈ o → s' !! n = s !! n) ∧
    (∀ d, digest_name d = true → is_Some (s !! d) → is_Some (s' !! d));
  guar o o' s s' :=
    (∀ d c, digest_name d = true → s' !! d = Some c → bytes_digest sha1 c = d) ∧
    (∀ n, is_temp n → n ∉ o → is_Some (s !! n) → s' !! n = s !! n) ∧
    (∀ d, digest_name d = true → is_Some (s !! d) → is_Some (s' !! d)) ∧
    (∀ n, n ∈ o' → is_temp n ∧ is_Some (s' !! n) ∧ (n ∈ o ∨ s !! n = None)) ∧
    (∀ n, is_temp n → is_Some (s' !! n) → n ∈ o' ∨ (is_Some (s !! n) ∧ n ∉ o));
  apart o o' := o ## o';
  token := string;
  holds o n := n ∈ o;
  garbage s n := is_temp n ∧ is_Some (s !! n);
}.

#[export] Instance fs_laws : ProtocolLaws Dir (gset string).
Proof.
  split; cbn.
  - intros o. split.
    + by intros s.
    + intros s1 s2 s3 [H1 H2] [H3 H4]. split; [|auto]. intros n Hn. by rewrite H3, H1.
  - intros o s Hi Ho. split_and!; [done..| |].
    + intros n Hn. destruct (Ho n Hn). auto.
    + intros n _ Hn. destruct (decide (n ∈ o)); auto.
  - intros o s s' [H1 _] Ho n Hn. destruct (Ho n Hn) as [Ht Hs]. by rewrite (H1 n Hn).
  - by intros o o' s s' _ (Hi & _).
  - intros o o' s s' _ _ (_ & _ & _ & H & _) n Hn. destruct (H n Hn) as (?&?&_). done.
  - intros o o' H. by symmetry.
  - intros o o' o2 s s' _ Ho Ho2 (_ & H2 & H3 & H4 & _) Hd. split; [split; [|done]|].
    + intros n Hn. destruct (Ho2 n Hn). apply H2; [done|set_solver|done].
    + intros n Hn Hn2. destruct (H4 n Hn) as (_ & _ & [Hno|Hno]); [set_solver|].
      destruct (Ho2 n Hn2) as [_ [x Hx]]. congruence.
  - intros o o' s s' n _ (_ & _ & _ & _ & H) [Ht Hs]. destruct (H n Ht Hs) as [?|[??]]; auto.
Qed.

Definition in_dir (s : Dir) (d : string) : Prop := digest_name d = true ∧ is_Some (s !! d).
Definition writing (w : string) (c : bytes) (o : gset string) (s : Dir) : Prop :=
  o = {[w]} ∧ is_temp w ∧ s !! w = Some c.

Lemma valid_exists d o s :
  digest_name d = true → inv s →
  valid (act (exists_file d)) (λ r o' s', o' = o ∧ ∃ b, r = Ok b ∧
    if b : bool then in_dir s' d else ¬ in_dir s d) o s.
Proof.
  intros Hd Hi. apply valid_look. intros s1 _ _ [_ H1]. split; [done|]. intros s2 _ [_ H2].
  split; [done|]. eexists. split; [done|]. case_bool_decide as Hs; [split; auto|]. intros [_ H]. auto.
Qed.

Lemma valid_open d s :
  inv s → in_dir s d →
  valid (act (open_file d)) (λ r o' _, o' = ∅ ∧ ∃ c, r = Ok c ∧ bytes_digest sha1 c = d) ∅ s.
Proof.
  intros Hi [Hd Hs]. apply valid_look. intros s1 H1 _ [_ Hr]. split; [done|]. intros s2 _ _.
  split; [done|]. destruct (Hr d Hd Hs) as [c Hc]. cbn. rewrite Hc. exists c. split; [done|]. by apply H1.
Qed.

Lemma fs_get_file_ok d s :
  inv s → digest_name d = true →
  valid (get_file d) (λ r o s',
    o = ∅ ∧ match r with
            | Ok c => bytes_digest sha1 c = d
            | Raise KeyError => ¬ in_dir s d
            | _ => False
            end) ∅ s.
Proof.
  intros Hi Hd. unfold get_file. eapply valid_seq; [done|by apply valid_exists|].
  intros ? o s' Hi' [-> ([] & -> & Hf)]; cbn [when_ok].
  - eapply valid_mono; [by apply valid_open|]. intros ? o' s2 _ [-> (c & -> & Hc)]. done.
  - by apply valid_done.
Qed.

Lemma fs_create_file_ok d s :
  inv s → digest_name d = true →
  valid (create_file temp_name d) (λ r o s',
    (r = Ok None ∧ o = ∅ ∧ in_dir s' d) ∨ (∃ w, r = Ok (Some w) ∧ writing w "" o s')) ∅ s.
Proof.
  intros Hi Hd. unfold create_file. eapply valid_seq; [done|by apply valid_exists|].
  intros ? o s' Hi' [-> ([] & -> & Hf)]; cbn [when_ok].
  { intros s2 _ [_ Hr]. left. destruct Hf. split_and!; [done..|]. split; auto. }
  eapply (valid_seq _ _ (λ r o s', ∃ w, r = Ok w ∧ writing w "" o s')); [done| |].
  2:{ intros ? o s2 _ (w & -> & Ho & Hw & Hs2) s3 _ [Hr _]. right. exists w. split; [done|].
      split_and!; [done..|]. rewrite Hr; [done|]. by rewrite Ho, elem_of_singleton. }
  apply valid_act. intros s1 H1 _ _. cbn. set (w := temp_name _ _ _).
  assert (is_temp w) as Hw by apply is_temp_tmp, temp_prefix.
  assert (s1 !! w = None) as Hn by apply not_elem_of_dom, temp_fresh.
  exists {[w]}. split; [split_and!|].
  - intros d' c Hd' [[<- <-]|[_ Hc]]%lookup_insert_Some; [by destruct (temp_not_digest w)|by apply H1].
  - intros n _ _ Hs. destruct (decide (n = w)) as [->|]; [by rewrite Hn in Hs; destruct Hs|].
    by rewrite lookup_insert_ne.
  - intros d' _ Hs. by apply lookup_insert_is_Some'; right.
  - intros n ->%elem_of_singleton. rewrite lookup_insert_eq. by split_and!; [| |right].
  - intros n _ [c [[<- _]|[_ Hc]]%lookup_insert_Some]; [left; set_solver|right]. split; [done|set_solver].
  - intros s2 _ [Hr _]. exists w. split; [done|]. split_and!; [done..|].
    rewrite Hr by set_solver. by rewrite lookup_insert_eq.
Qed.

Lemma fs_write_file_ok w c buf o s :
  inv s → writing w c o s →
  valid (act (append w buf)) (λ r o' s', r = Ok (String.length buf) ∧ writing w (c +:+ buf) o' s') o s.
Proof.
  intros _ (-> & Hw & Hs). apply valid_act. intros s1 H1 _ [Hr _]. cbn.
  assert (s1 !! w = Some c) as Hc by (rewrite Hr; [done|set_solver]).
  assert (∀ n, is_Some (alter (λ c0, c0 +:+ buf) w s1 !! n) ↔ is_Some (s1 !! n)) as Hsome.
  { intros n. destruct (decide (n = w)) as [->|]; [rewrite lookup_alter_eq, Hc; done|]. by rewrite lookup_alter_ne. }
  exists {[w]}. split; [split_and!|].
  - intros d x Hd. rewrite lookup_alter_ne; [by apply H1|]. intros ->. by destruct (temp_not_digest d).
  - intros n _ Hn _. rewrite lookup_alter_ne; [done|set_solver].
  - intros d _. by rewrite Hsome.
  - intros n ->%elem_of_singleton. split_and!; [done|by apply Hsome; eauto|left; set_solver].
  - intros n _ Hn%Hsome. destruct (decide (n = w)) as [->|]; [left|right]; set_solver.
  - intros s2 _ [Hr2 _]. split; [done|]. split_and!; [done..|]. rewrite Hr2 by set_solver.
    by rewrite lookup_alter_eq, Hc.
Qed.

(** What a commit does: the temporary file is gone, whichever way. *)
Lemma fs_commit_guar w (s1 s2 : Dir) :
  is_temp w → is_Some (s1 !! w) → inv s2 →
  (∀ n, is_temp n → s2 !! n = delete w s1 !! n) →
  (∀ d', digest_name d' = true → is_Some (s1 !! d') → is_Some (s2 !! d')) →
  guar {[w]} ∅ s1 s2.
Proof.
  intros Hw Hs Hi Ht Hd. split_and!; [exact Hi| |done| |].
  - intros n Hn Hne _. rewrite Ht by done. rewrite lookup_delete_ne; [done|set_solver].
  - intros n Hn. set_solver.
  - intros n Hn. rewrite Ht by done. intros [c [Hne Hc]%lookup_delete_Some]. right. split; [done|set_solver].
Qed.

Lemma fs_commit_file_ok w c d desc o s :
  inv s → digest_name d = true → writing w c o s → bytes_digest sha1 c = d →
  valid (commit_file w d desc) (λ r o' s', (∃ b, r = Ok b) ∧ o' = ∅ ∧ in_dir s' d) o s.
Proof.
  intros Hi Hd (-> & Hw & Hs) Hc. unfold commit_file.
  apply (valid_seq _ _ (λ r o' s', (∃ b, r = Ok b ∧ (b = true → in_dir s' d)) ∧ writing w c o' s')); [done| |].
  { apply valid_look. intros s1 _ _ [Hr1 _]. split; [done|]. intros s2 _ [Hr2 Hk]. split.
    - eexists. split; [done|]. intros Hb%bool_decide_eq_true. split; [done|]. by apply Hk.
    - split_and!; [done..|]. rewrite Hr2, Hr1 by set_solver. done. }
  intros ? o1 s' Hi' [(b & -> & Hb) (-> & _ & Hs')]. cbn [when_ok].
  assert (∀ s1, inv s1 → rely {[w]} s' s1 → s1 !! w = Some c) as Hkept.
  { intros s1 _ [Hr _]. rewrite Hr; [done|set_solver]. }
  assert (∀ o s1 s2, rely o s1 s2 → o = ∅ ∧ in_dir s1 d → o = ∅ ∧ in_dir s2 d) as Hst.
  { intros o s1 s2 [_ Hr] [Ho [_ Hin]]. split; [done|]. split; auto. }
  assert (∀ d', digest_name d' = true → w ≠ d') as Hwd by (intros d' Hd' ->; by destruct (temp_not_digest d')).
  destruct b; cbn [negb].
  - eapply valid_mono; [apply (valid_ret_after _ false (λ o s, o = ∅ ∧ in_dir s d)); [done..|]|naive_solver].
    apply valid_act. intros s1 H1 _ Hr. exists ∅. unfold unlink. rewrite (Hkept s1 H1 Hr). cbn. split.
    + apply (fs_commit_guar w); [done|by rewrite Hkept| |done|]; intros d' x Hd'.
      * intros [_ Hx]%lookup_delete_Some. by apply H1.
      * rewrite lookup_delete_ne; [done|by apply Hwd].
    + intros s2 _ [_ Hk]. split_and!; [by eexists|done|]. split; [done|]. apply Hk; [done|].
      rewrite lookup_delete_ne by (by apply Hwd). apply Hr, Hb; done.
  - eapply valid_mono; [apply (valid_ret_after _ true (λ o s, o = ∅ ∧ in_dir s d)); [done..|]|naive_solver].
    apply valid_act. intros s1 H1 _ Hr. exists ∅. unfold rename. rewrite (Hkept s1 H1 Hr). cbn. split.
    + apply (fs_commit_guar w); [done|by rewrite Hkept| | |].
      * intros d' x Hd'. rewrite lookup_insert_Some. intros [[<- <-]|[_ [_ Hx]%lookup_delete_Some]]; [done|].
        by apply H1.
      * intros n Hn. rewrite lookup_insert_ne; [done|]. intros <-. by destruct (temp_not_digest d).
      * intros d' Hd' Hx. destruct (decide (d = d')) as [->|]; [by rewrite lookup_insert_eq|].
        rewrite lookup_insert_ne, lookup_delete_ne; [done|by apply Hwd|done].
    + intros s2 _ [_ Hk]. split_and!; [by eexists|done|]. split; [done|]. apply Hk; [done|]. by rewrite lookup_insert_eq.
Qed.

#[export] Instance fs_spec : @BackendSpec sha1 Dir string (FSBackend temp_name).
Proof.
  refine (@Build_BackendSpec sha1 Dir string (FSBackend temp_name) (gset string) _ _ ∅ _ _ _
    in_dir writing _ _ _ _ _ _ _).
  - by intros s n Hn.
  - by intros n Hn.
  - apply disjoint_empty_l.
  - intros d o s s' [_ Hr] [Hd Hs]. split; auto.
  - intros d o o' s s' (_ & _ & Hr & _) [Hd Hs]. split; auto.
  - intros w c o s s' [Hr _] (-> & Hw & Hs). split_and!; [done..|]. rewrite Hr; [done|set_solver].
  - apply fs_get_file_ok.
  - apply fs_create_file_ok.
  - apply fs_write_file_ok.
  - apply fs_commit_file_ok.
Defined.
End fs.
End FSSpec.

(** ** The rows and the large objects *)

Module DBSpec.
Import DB.
Section db.
Context (sha1 : bytes → bytes) (lo_creat : gset Z → Z).
Context (lo_fresh : ∀ used, lo_creat used ∉ used) (lo_nonzero : ∀ used, lo_creat used ≠ 0%Z).

(** A large object exists, as others see it or in its transaction. *)
Definition lobject (b : Rows) (l : Z) : Prop := is_Some (lobjects b !! l) ∨ is_Some (open_lobjects b !! l).
Definition referenced (b : Rows) (l : Z) : Prop := ∃ d fso, fsobjects b !! d = Some fso ∧ loid fso = l.

Record rows_inv (b : Rows) : Prop := {
  (** What a row refers to is there, and has the row's digest. *)
  row_content d fso : fsobjects b !! d = Some fso →
    loid fso ≠ 0%Z ∧ open_lobjects b !! loid fso = None ∧
    ∃ c, lobjects b !! loid fso = Some c ∧ (digest_name d = true → bytes_digest sha1 c = d);
}.

(** The two contents of a large object, to others and in its transaction. *)
Definition same_lobject (b b' : Rows) (l : Z) : Prop :=
  lobjects b' !! l = lobjects b !! l ∧ open_lobjects b' !! l = open_lobjects b !! l.

#[export] Instance db_protocol : Protocol Rows (gset Z) := {
  inv := rows_inv;
  owns o b := ∀ l, l ∈ o → lobject b l ∧ ¬ referenced b l ∧ l ≠ 0%Z;
  rely o b b' := (∀ l, l ∈ o → same_lobject b b' l ∧ (referenced b' l → referenced b l)) ∧
    (∀ d fso, fsobjects b !! d = Some fso → fsobjects b' !! d = Some fso);
  guar o o' b b' :=
    rows_inv b' ∧
    (∀ l, l ∉ o → lobject b l → same_lobject b b' l ∧ (referenced b' l → referenced b l)) ∧
    (∀ d fso, fsobjects b !! d = Some fso → fsobjects b' !! d = Some fso) ∧
    (∀ l, l ∈ o' → (lobject b' l ∧ ¬ referenced b' l ∧ l ≠ 0%Z) ∧ (l ∈ o ∨ ¬ lobject b l)) ∧
    (∀ l, lobject b' l → ¬ referenced b' l → l ∈ o' ∨ (lobject b l ∧ ¬ referenced b l ∧ l ∉ o));
  apart o o' := o ## o';
  token := Z;
  holds o l := l ∈ o;
  garbage b l := lobject b l ∧ ¬ referenced b l;
}.

Lemma same_lobject_ex b b' l : same_lobject b b' l → lobject b l → lobject b' l.
Proof. intros [H1 H2]. unfold lobject. by rewrite H1, H2. Qed.

#[export] Instance db_laws : ProtocolLaws Rows (gset Z).
Proof.
  split; cbn.
  - intros o. split.
    + intros b. split; [|auto]. intros l _. by split.
    + intros b1 b2 b3 [H1 H2] [H3 H4]. split; [|auto]. intros l Hl.
      destruct (H1 l Hl) as [[E1 E2] R1], (H3 l Hl) as [[E3 E4] R3]. split; [|auto]. split; congruence.
  - intros o b Hi Ho. split_and!; [done| |done| |].
    + intros l _ _. by split.
    + intros l Hl. auto.
    + intros l H1 H2. destruct (decide (l ∈ o)); auto.
  - intros o b b' [H1 _] Ho l Hl. destruct (Ho l Hl) as (Hx & Hr & Hz), (H1 l Hl) as [Hs Hb].
    split_and!; [by eapply same_lobject_ex|auto|done].
  - by intros o o' b b' _ (Hi & _).
  - intros o o' b b' _ _ (_ & _ & _ & H & _) l Hl. apply (H l Hl).
  - intros o o' H. by symmetry.
  - intros o o' o2 b b' _ Ho Ho2 (_ & H2 & H3 & H4 & _) Hd. split; [split; [|done]|].
    + intros l Hl. apply H2; [set_solver|]. by apply Ho2.
    + intros l Hl Hl2. destruct (H4 l Hl) as [_ [Hno|Hno]]; [set_solver|]. apply Hno. by apply Ho2.
  - intros o o' b b' l _ (_ & _ & _ & _ & H) [Hx Hr]. destruct (H l Hx Hr) as [?|(?&?&?)]; auto.
Qed.

Definition row_in (b : Rows) (d : string) : Prop := is_Some (fsobjects b !! d).
Definition writing (w : Z) (c : bytes) (o : gset Z) (b : Rows) : Prop :=
  o = {[w]} ∧ open_lobjects b !! w = Some c ∧ lobjects b !! w = None ∧ ¬ referenced b w ∧ w ≠ 0%Z.
(** The object that is closed and has no row yet. *)
Definition closed (w : Z) (c : bytes) (o : gset Z) (b : Rows) : Prop :=
  o = {[w]} ∧ open_lobjects b !! w = None ∧ lobjects b !! w = Some c ∧ ¬ referenced b w ∧ w ≠ 0%Z.

Lemma row_stable (o : gset Z) b b' d : rely o b b' → row_in b d → row_in b' d.
Proof. intros [_ Hr] [fso Hf]. exists fso. by apply Hr. Qed.

Lemma writing_stable w c o b b' : rely o b b' → writing w c o b → writing w c o b'.
Proof.
  intros [Hr _] (-> & H1 & H2 & H3 & H4). destruct (Hr w ltac:(set_solver)) as [[E1 E2] Href].
  split_and!; [done|congruence|congruence|auto|done].
Qed.

Lemma closed_stable w c o b b' : rely o b b' → closed w c o b → closed w c o b'.
Proof.
  intros [Hr _] (-> & H1 & H2 & H3 & H4). destruct (Hr w ltac:(set_solver)) as [[E1 E2] Href].
  split_and!; [done|congruence|congruence|auto|done].
Qed.

Lemma db_get_file_ok d b :
  inv b → digest_name d = true →
  valid (get_file d) (λ r o b',
    o = ∅ ∧ match r with
            | Ok c => bytes_digest sha1 c = d
            | Raise KeyError => ¬ row_in b d
            | _ => False
            end) ∅ b.
Proof.
  intros Hi Hd. unfold get_file, found.
  apply (valid_seq _ _ (λ r o b', o = ∅ ∧
    ((∃ fso, r = Ok fso ∧ fsobjects b' !! d = Some fso) ∨ (r = Raise KeyError ∧ ¬ row_in b d)))); [done| |].
  - apply (valid_seq _ _ (λ r o b', o = ∅ ∧ ∃ x, r = Ok x ∧
      match x with Some fso => fsobjects b' !! d = Some fso | None => ¬ row_in b d end)); [done| |].
    + apply valid_look. intros b1 H1 _ [_ Hr]. split; [done|]. intros b2 _ [_ Hr2]. split; [done|].
      eexists. split; [done|]. destruct (fsobjects b1 !! d) as [fso|] eqn:Hf; [by apply Hr2|].
      intros [fso Hfso%Hr]. congruence.
    + intros ? o b1 _ [-> (x & -> & Hx)]. cbn [when_ok]. destruct x as [fso|]; intros b2 _ [_ Hr].
      * split; [done|left]. exists fso. split; [done|]. by apply Hr.
      * split; [done|by right].
  - intros ? o b1 H1 [-> [(fso & -> & Hf)|[-> Hn]]]; cbn [when_ok]; [|by intros b2 _ _].
    unfold get_lobject. rewrite bool_decide_eq_false_2 by apply (row_content b1 H1 d fso Hf).
    apply valid_look. intros b2 H2 _ [_ Hr]. split; [done|]. intros b3 _ _. split; [done|].
    destruct (row_content b2 H2 d fso (Hr d fso Hf)) as (_ & _ & c & Hc & Hdig). cbn. rewrite Hc. by apply Hdig.
Qed.

Lemma db_create_file_ok d b :
  inv b → digest_name d = true →
  valid (create_file lo_creat d) (λ r o b',
    (r = Ok None ∧ o = ∅ ∧ row_in b' d) ∨ (∃ w, r = Ok (Some w) ∧ writing w "" o b')) ∅ b.
Proof.
  intros Hi Hd. unfold create_file.
  apply (valid_seq _ _ (λ r o b', o = ∅ ∧ ∃ x, r = Ok x ∧ (is_Some x → row_in b' d))); [done| |].
  { apply valid_look. intros b1 H1 _ [_ Hr]. split; [done|]. intros b2 _ [_ Hr2]. split; [done|].
    eexists. split; [done|]. intros [fso Hf]. exists fso. by apply Hr2. }
  intros ? o b1 H1 [-> (x & -> & Hx)]. cbn [when_ok]. destruct x as [fso|].
  { intros b2 _ Hr. left. split_and!; [done..|]. by eapply row_stable, Hx. }
  apply (valid_seq _ _ (λ r o b', ∃ w, r = Ok w ∧ writing w "" o b')); [done| |].
  2:{ intros ? o b2 _ (w & -> & Hw) b3 _ Hr. right. exists w. split; [done|]. by eapply writing_stable. }
  apply valid_act. intros b2 H2 _ _. unfold create_lobject. set (l := lo_creat _).
  assert (l ∉ dom (lobjects b2) ∪ dom (open_lobjects b2)) as Hl by apply lo_fresh.
  assert (lobjects b2 !! l = None) as Hl1 by (apply not_elem_of_dom; set_solver).
  assert (open_lobjects b2 !! l = None) as Hl2 by (apply not_elem_of_dom; set_solver).
  assert (¬ lobject b2 l) as Hno by (intros [[? ?]|[? ?]]; congruence).
  assert (¬ referenced b2 l) as Hnr.
  { intros (d' & fso & Hf & <-). destruct (row_content b2 H2 d' fso Hf) as (_ & _ & c & Hc & _). congruence. }
  rewrite decide_False by apply lo_nonzero. cbn. exists {[l]}. split; [split_and!|].
  - split. intros d' fso Hf. destruct (row_content b2 H2 d' fso Hf) as (Hz & Ho & Hc). split_and!; [done| |done].
    cbn. rewrite lookup_insert_ne; [done|]. intros ->. apply Hnr. by exists d', fso.
  - intros l' _ Hl'. split; [|done]. split; [done|]. cbn. rewrite lookup_insert_ne; [done|]. by intros ->.
  - done.
  - intros l' ->%elem_of_singleton. split; [split_and!|by right]; [|done|apply lo_nonzero].
    right. cbn. by rewrite lookup_insert_eq.
  - intros l' Hl' Hr'. destruct (decide (l' = l)) as [->|Hne]; [left; set_solver|right].
    split_and!; [|done|set_solver]. destruct Hl' as [Hl'|Hl']; [by left|right].
    cbn in Hl'. by rewrite lookup_insert_ne in Hl' by done.
  - intros b3 _ Hr. exists l. split; [done|]. eapply writing_stable; [exact Hr|].
    split_and!; [done| |done|done|apply lo_nonzero]. cbn. by rewrite lookup_insert_eq.
Qed.

(** An action on the object that the thread owns. *)
Lemma db_guar_own w o' b1 b2 :
  inv b1 → ¬ referenced b1 w → w ≠ 0%Z → fsobjects b2 = fsobjects b1 →
  (∀ l, l ≠ w → same_lobject b1 b2 l) → lobject b1 w →
  (o' = {[w]} ∧ lobject b2 w ∨ o' = ∅ ∧ ¬ lobject b2 w) → guar {[w]} o' b1 b2.
Proof.
  intros Hi Hnr Hz Hf Hs Hw Ho.
  assert (∀ l, referenced b2 l ↔ referenced b1 l) as Href by (intros l; unfold referenced; by rewrite Hf).
  split_and!.
  - split. rewrite Hf. intros d fso Hd. destruct (row_content b1 Hi d fso Hd) as (H1 & H2 & H3).
    assert (loid fso ≠ w) as Hne by (intros Hl; apply Hnr; by exists d, fso).
    destruct (Hs _ Hne) as [-> ->]. done.
  - intros l Hl _. split; [apply Hs; set_solver|]. by rewrite Href.
  - by rewrite Hf.
  - intros l Hl. destruct Ho as [[-> Ho]|[-> _]]; [|set_solver].
    apply elem_of_singleton in Hl as ->. rewrite Href. split; [done|]. left. set_solver.
  - intros l Hl. rewrite Href. intros Hr. destruct (decide (l = w)) as [->|Hne].
    + destruct Ho as [[-> _]|[_ Ho]]; [left; set_solver|done].
    + right. split_and!; [|done|set_solver]. unfold lobject in *. by destruct (Hs l Hne) as [<- <-].
Qed.

Lemma db_write_file_ok w c buf o b :
  inv b → writing w c o b →
  valid (act (write_lobject w buf)) (λ r o' b', r = Ok (String.length buf) ∧ writing w (c +:+ buf) o' b') o b.
Proof.
  intros _ Hw. assert (o = {[w]}) as -> by apply Hw. apply valid_act. intros b1 H1 _ Hr.
  destruct (writing_stable w c _ b b1 Hr Hw) as (_ & Ho & Hl & Hnr & Hz).
  unfold write_lobject. rewrite Ho. cbn [fst snd]. exists {[w]}. split.
  - apply (db_guar_own w); [done..| |by right|left; split; [done|right]].
    + intros l Hl'. split; [done|]. cbn. by rewrite lookup_insert_ne.
    + cbn. by rewrite lookup_insert_eq.
  - intros b2 _ Hr2. split; [done|]. eapply writing_stable; [exact Hr2|].
    split_and!; [done| |done..]. cbn. by rewrite lookup_insert_eq.
Qed.

Lemma db_close_ok w c o b :
  inv b → writing w c o b → valid (act (close_lobject w)) (λ r o' b', is_Ok r ∧ closed w c o' b') o b.
Proof.
  intros _ Hw. assert (o = {[w]}) as -> by apply Hw. apply valid_act. intros b1 H1 _ Hr.
  destruct (writing_stable w c _ b b1 Hr Hw) as (_ & Ho & Hl & Hnr & Hz).
  unfold close_lobject, modify. cbn [fst snd]. rewrite Ho. exists {[w]}. split.
  - apply (db_guar_own w); [done..| |by right|left; split; [done|left]].
    + intros l Hl'. split; cbn; [by rewrite lookup_insert_ne|by rewrite lookup_delete_ne].
    + cbn. by rewrite lookup_insert_eq.
  - intros b2 _ Hr2. split; [by eexists|]. eapply closed_stable; [exact Hr2|].
    split_and!; [done| | |done|done]; cbn; [by rewrite lookup_delete_eq|by rewrite lookup_insert_eq].
Qed.

(** The row is added, or somebody added one for the digest before. *)
Lemma db_insert_ok w c d desc o b :
  inv b → digest_name d = true → bytes_digest sha1 c = d → closed w c o b →
  valid (act (insert_fsobject d (mkFSObject w desc)))
    (λ r o' b', row_in b' d ∧ (r = Ok tt ∧ o' = ∅ ∨ r = Raise IntegrityError ∧ closed w c o' b')) o b.
Proof.
  intros _ Hd Hc Hw. assert (o = {[w]}) as -> by apply Hw. apply valid_act. intros b1 H1 Ho Hr.
  pose proof (closed_stable w c _ b b1 Hr Hw) as Hw1. destruct Hw1 as (_ & Hop & Hl & Hnr & Hz).
  unfold insert_fsobject. destruct (fsobjects b1 !! d) as [fso|] eqn:Hf; cbn [fst snd].
  - exists {[w]}. split; [by apply guar_refl|]. intros b2 _ Hr2.
    split; [eapply row_stable; [exact Hr2|by exists fso]|]. right. split; [done|].
    by eapply closed_stable, closed_stable.
  - exists ∅. split; [cbn; split_and!|].
    + split. cbn. intros d' fso [[<- <-]|[_ Hf']]%lookup_insert_Some; [|by apply (row_content b1 H1)].
      cbn. split_and!; [done..|]. by exists c.
    + intros l Hlw _. split; [by split|]. intros (d' & fso & Hf' & <-). cbn in Hf'.
      apply lookup_insert_Some in Hf' as [[<- <-]|[_ Hf']].
      * cbn in Hlw. set_solver.
      * by exists d', fso.
    + intros d' fso Hf'. cbn. rewrite lookup_insert_ne; [done|]. intros ->. congruence.
    + intros l Hl'. set_solver.
    + intros l Hl' Hr'. right. assert (l ≠ w) as Hne.
      { intros ->. apply Hr'. exists d, (mkFSObject w desc). cbn. by rewrite lookup_insert_eq. }
      split_and!; [done| |set_solver]. intros (d' & fso & Hf' & <-). apply Hr'. exists d', fso.
      split; [|done]. cbn. rewrite lookup_insert_ne; [done|]. intros ->. congruence.
    + intros b2 _ Hr2. split; [|by left]. eapply row_stable; [exact Hr2|]. eexists. cbn. by rewrite lookup_insert_eq.
Qed.

Lemma db_unlink_ok w c d o b :
  inv b → closed w c o b → row_in b d →
  valid (act (unlink_lobject w)) (λ r o' b', is_Ok r ∧ o' = ∅ ∧ row_in b' d) o b.
Proof.
  intros _ Hw Hd. assert (o = {[w]}) as -> by apply Hw. apply valid_act. intros b1 H1 _ Hr.
  destruct (closed_stable w c _ b b1 Hr Hw) as (_ & Ho & Hl & Hnr & Hz).
  unfold unlink_lobject. rewrite Hl. cbn [fst snd]. exists ∅. split.
  - apply (db_guar_own w); [done..| |left; by exists c|right; split; [done|]].
    + intros l Hl'. split; [|done]. cbn. by rewrite lookup_delete_ne.
    + unfold lobject. cbn. rewrite lookup_delete_eq, Ho. by intros [[? ?]|[? ?]].
  - intros b2 _ Hr2. split_and!; [by eexists|done|]. eapply row_stable; [exact Hr2|].
    by apply (row_stable {[w]} b b1).
Qed.

Lemma db_commit_file_ok w c d desc o b :
  inv b → digest_name d = true → writing w c o b → bytes_digest sha1 c = d →
  valid (commit_file w d desc) (λ r o' b', (∃ x, r = Ok x) ∧ o' = ∅ ∧ row_in b' d) o b.
Proof.
  intros Hi Hd Hw Hc. unfold commit_file.
  assert (∀ o b b', rely o b b' → o = ∅ ∧ row_in b d → o = ∅ ∧ row_in b' d) as Hst.
  { intros o1 b1 b2 Hr [-> Hin]. split; [done|]. by eapply row_stable. }
  eapply valid_seq; [done|by eapply db_close_ok|]. intros ? o1 b1 H1 [([] & ->) Hcl]. cbn [when_ok].
  apply valid_try; [done|]. eapply valid_seq; [done|by eapply db_insert_ok|].
  intros ? o2 b2 H2 [Hin [[-> ->]|[-> Hcl2]]]; cbn [when_ok]; intros b3 H3 Hr.
  - intros b4 _ Hr4. split_and!; [by eexists|done|]. eapply row_stable; [exact Hr4|]. by eapply row_stable.
  - change (is_integrity_error IntegrityError) with true. cbv iota.
    eapply valid_mono; [apply (valid_ret_after _ false (λ o b, o = ∅ ∧ row_in b d)); [done..|]|naive_solver].
    eapply db_unlink_ok; [done|by eapply closed_stable|by eapply row_stable].
Qed.

#[export] Instance db_spec : @BackendSpec sha1 Rows Z (DBBackend lo_creat).
Proof.
  refine (@Build_BackendSpec sha1 Rows Z (DBBackend lo_creat) (gset Z) _ _ ∅ _ _ _
    row_in writing _ _ _ _ _ _ _).
  - by intros s n Hn.
  - by intros n Hn.
  - apply disjoint_empty_l.
  - intros d o s s' Hr. by eapply row_stable.
  - intros d o o' s s' (_ & _ & Hr & _) [fso Hf]. exists fso. by apply Hr.
  - intros w c o s s' Hr. by eapply writing_stable.
  - apply db_get_file_ok.
  - apply db_create_file_ok.
  - apply db_write_file_ok.
  - apply db_commit_file_ok.
Defined.
End db.
End DBSpec.
