(* ===== verification/FileCacherSpec.v ===== *)
(** * The file cacher keeps what it promises, whatever runs beside it

    The requests of [FileCacher] are verified once against the contract of a
    backend ([BackendSpec]) and for any interleaving with the requests of
    other greenlets and services: the local directory and the storage hold
    under a digest only contents of that digest, a file that was stored is
    there, and no temporary file or large object is forgotten. *)

From S2P Require Import Prelude PyString Interleaving FileStorage FileCacher FileStorageSpec.

Local Open Scope string_scope.

Section FileCacherSpec.
Context {B W : Type} `{FileCacherBackend B W} (sha1 : bytes → bytes) `{!BackendSpec sha1 B W}.
Context (temp_name : gset string → string).
Context (sha1_length : ∀ b, String.length (sha1 b) = 20).
Context (temp_fresh : ∀ used, temp_name used ∉ used).

Definition owned : Type := bowned sha1 (B:=B) (W:=W) * gset string.
Definition free : owned := (nothing sha1, ∅).
Implicit Types (c : Cacher B) (o : owned).

Record cacher_inv c : Prop := {
  ci_storage : inv (storage c);
  ci_file_dir : is_Some (file_dir c);
  ci_temp_dir : is_Some (temp_dir c);
  ci_cached d x : digest_name d = true → cached c d = Some x → bytes_digest sha1 x = d;
}.

(** An action of a thread on the temporary files. *)
Record temp_guar (t t' : gset string) c c' : Prop := {
  tg_others n : n ∉ t → is_Some (temp c n) → temp c' n = temp c n;
  tg_owned n : n ∈ t' → is_Some (temp c' n) ∧ (n ∈ t ∨ temp c n = None);
  tg_left n : is_Some (temp c' n) → n ∈ t' ∨ (is_Some (temp c n) ∧ n ∉ t);
}.

#[export] Instance cacher_protocol : Protocol (Cacher B) owned := {
  inv := cacher_inv;
  owns o c := owns o.1 (storage c) ∧ ∀ n, n ∈ o.2 → is_Some (temp c n);
  rely o c c' := rely o.1 (storage c) (storage c') ∧ ∀ n, n ∈ o.2 → temp c' n = temp c n;
  guar o o' c c' := guar o.1 o'.1 (storage c) (storage c') ∧ cacher_inv c' ∧ temp_guar o.2 o'.2 c c';
  apart o o' := apart o.1 o'.1 ∧ o.2 ## o'.2;
  token := token (S:=B) (O:=bowned sha1) + string;
  holds o t := match t with inl t => holds o.1 t | inr n => n ∈ o.2 end;
  garbage c t := match t with inl t => garbage (storage c) t | inr n => is_Some (temp c n) end;
}.

Lemma temp_guar_same (t : gset string) c c' :
  temp_dir c' = temp_dir c → (∀ n, n ∈ t → is_Some (temp c n)) → temp_guar t t c c'.
Proof.
  intros He Ht. assert (∀ n, temp c' n = temp c n) as Heq by (intros n; unfold temp; by rewrite He).
  split; [done| |]; setoid_rewrite Heq.
  - intros n Hn. split; [by apply Ht|by left].
  - intros n Hn. destruct (decide (n ∈ t)); [by left|by right].
Qed.

#[export] Instance cacher_laws : ProtocolLaws (Cacher B) owned.
Proof.
  clear temp_fresh sha1_length temp_name.
  split; cbn.
  - intros o. split.
    + intros c. by split.
    + intros c1 c2 c3 [H1 H2] [H3 H4]. split; [by etrans|]. intros n Hn. by rewrite H4, H2.
  - intros o c Hi [H1 H2]. split_and!; [apply guar_refl; [apply Hi|done]|done|by apply temp_guar_same].
  - intros o c c' [H1 H2] [H3 H4]. split; [by eapply rely_owns|]. intros n Hn. rewrite H2 by done. auto.
  - by intros o o' c c' _ (_ & Hi & _).
  - intros o o' c c' Hi [H1 _] (H3 & _ & H4). split; [by eapply guar_owns; [apply Hi|..]|].
    intros n Hn. by apply (tg_owned _ _ _ _ H4 n).
  - intros o o' [H1 H2]. split; [by apply apart_sym|by symmetry].
  - intros o o' o2 c c' Hi [Ho1 Ho2] [Hp1 Hp2] (Hg & _ & Ht) [Ha1 Ha2].
    destruct (guar_rely o.1 o'.1 o2.1 _ _ (ci_storage c Hi) Ho1 Hp1 Hg Ha1) as [Hr Ha].
    split; [split|split]; [done| |done|].
    + intros n Hn. apply (tg_others _ _ _ _ Ht); [set_solver|by apply Hp2].
    + intros n Hn Hn2. destruct (tg_owned _ _ _ _ Ht n Hn) as [_ [Hno|Hno]]; [set_solver|].
      destruct (Hp2 n Hn2) as [x Hx]. congruence.
  - intros o o' c c' [t|n] Hi (Hg & _ & Ht) Hgb.
    + eapply guar_garbage; [apply Hi|exact Hg|exact Hgb].
    + apply (tg_left _ _ _ _ Ht n Hgb).
Qed.

Lemma free_owns c : owns free c.
Proof. split; [apply nothing_owns|]. intros n Hn. by apply elem_of_empty in Hn. Qed.

Lemma free_holds t : ¬ holds free t.
Proof. destruct t as [t|n]; cbn; [apply nothing_holds|apply not_elem_of_empty]. Qed.

(** ** Programs of the backend *)

Lemma valid_on_backend {A} (p : prog B A) (Q : res A → owned → Cacher B → Prop) b t c :
  inv c →
  valid p (λ r b' s, ∀ c', inv c' → storage c' = s → (∀ n, n ∈ t → temp c' n = temp c n) → Q r (b', t) c')
    b (storage c) →
  valid (on_backend p) Q (b, t) c.
Proof.
  unfold on_backend. revert b c. induction p as [r|f IH] using prog_nested_ind; cbn; intros b c Hi Hv.
  - intros c' Hi' [Hr Ht]. by apply (Hv (storage c')); [apply Hi'|..].
  - intros c' Hi' [Ho Hot] [Hr Ht]. destruct (Hv (storage c') (ci_storage c' Hi') Ho Hr) as (b' & Hg & Hv').
    assert (cacher_inv (set_storage (f (storage c')).2 c')) as Hi2.
    { destruct Hi'. split; [by eapply guar_inv|done..]. }
    exists (b', t). split; [split_and!; [done..|by apply temp_guar_same]|].
    apply IH; [done|]. eapply valid_mono; [exact Hv'|]. intros r b2 s2 _ HQ c2 H2 Hs2 Ht2.
    apply HQ; [done..|]. intros n Hn. rewrite Ht2 by done. by apply Ht.
Qed.

(** An action on the local directories, that leaves the storage alone. *)
Lemma valid_local {A} (m : M (Cacher B) A) (Q : res A → owned → Cacher B → Prop) b t c :
  inv c →
  (∀ c1, inv c1 → rely ((b, t) : owned) c c1 → (∀ n, n ∈ t → is_Some (temp c1 n)) →
    ∃ t', storage (m c1).2 = storage c1 ∧ cacher_inv (m c1).2 ∧ temp_guar t t' c1 (m c1).2 ∧
      ∀ c2, inv c2 → rely ((b, t') : owned) (m c1).2 c2 → Q (m c1).1 (b, t') c2) →
  valid (act m) Q (b, t) c.
Proof.
  intros Hi Hm. apply valid_act. intros c1 H1 [Ho1 Ho2] Hr. destruct (Hm c1 H1 Hr Ho2) as (t' & Hs & H2 & Ht & HQ).
  exists (b, t'). split; [|exact HQ]. split_and!; [|done|done]. cbn. rewrite Hs. apply guar_refl; [apply H1|done].
Qed.

(** The temporary file of the thread holds this so far. *)
Definition at_temp (b : bowned sha1 (B:=B) (W:=W)) (n : string) (x : bytes) o c : Prop :=
  o = (b, {[n]}) ∧ temp c n = Some x.

Lemma at_temp_stable b n x o c c' : rely o c c' → at_temp b n x o c → at_temp b n x o c'.
Proof. intros [_ Hr] [-> Ht]. split; [done|]. rewrite Hr; [done|set_solver]. Qed.

Lemma set_dirs_inv f t c :
  cacher_inv c → (∀ d x, digest_name d = true → f !! d = Some x → bytes_digest sha1 x = d) →
  cacher_inv (set_dirs (Some f) (Some t) c).
Proof. intros Hi Hf. split; cbn; [apply Hi|by eexists..|exact Hf]. Qed.

Lemma dirs_eq c : cacher_inv c → ∃ f t, file_dir c = Some f ∧ temp_dir c = Some t ∧
  (∀ d x, digest_name d = true → f !! d = Some x → bytes_digest sha1 x = d).
Proof.
  intros [Hs [f Hf] [t Ht] Hc]. exists f, t. split_and!; [done..|]. intros d x Hd Hx. apply Hc; [done|].
  unfold cached. by rewrite Hf.
Qed.

Lemma mkstemp_ok b c :
  inv c → valid (act (mkstemp temp_name)) (λ r o c', ∃ n, r = Ok n ∧ at_temp b n "" o c') (b, ∅) c.
Proof.
  intros Hi. apply valid_local; [done|]. intros c1 H1 _ _.
  destruct (dirs_eq c1 H1) as (f & t & Hf & Ht & Hc). unfold mkstemp. rewrite Ht. cbn [fst snd].
  set (n := temp_name (dom t)). assert (t !! n = None) as Hn by apply not_elem_of_dom, temp_fresh.
  exists {[n]}. split_and!; [done|rewrite Hf; by apply set_dirs_inv| |].
  - split; unfold temp; rewrite Ht; cbn; intros n'.
    + intros _ Hs. rewrite lookup_insert_ne; [done|]. intros ->. rewrite Hn in Hs. by destruct Hs.
    + intros ->%elem_of_singleton. rewrite lookup_insert_eq. split; [by eexists|by right].
    + intros [x [[<- _]|[_ Hx]]%lookup_insert_Some]; [left; set_solver|right].
      split; [by eexists|apply not_elem_of_empty].
  - intros c2 _ Hr. exists n. split; [done|]. eapply at_temp_stable; [exact Hr|].
    split; [done|]. unfold temp. cbn. by rewrite lookup_insert_eq.
Qed.

Lemma write_temp_ok b n x buf o c :
  inv c → at_temp b n x o c →
  valid (act (write_temp n buf)) (λ r o' c', r = Ok (String.length buf) ∧ at_temp b n (x +:+ buf) o' c') o c.
Proof.
  intros Hi [-> Hx]. apply valid_local; [done|]. intros c1 H1 [_ Hr] _.
  assert (temp c1 n = Some x) as Hx1 by (rewrite Hr; [done|set_solver]).
  destruct (dirs_eq c1 H1) as (f & t & Hf & Ht & Hc). unfold write_temp. rewrite Ht, Hf. cbn [fst snd fmap option_fmap option_map].
  unfold temp in Hx1. rewrite Ht in Hx1. cbn in Hx1.
  exists {[n]}. split_and!; [done|by apply set_dirs_inv| |].
  - split; unfold temp; rewrite Ht; cbn; intros n'.
    + intros Hn _. rewrite lookup_alter_ne; [done|set_solver].
    + intros ->%elem_of_singleton. rewrite lookup_alter_eq, Hx1. split; [by eexists|left; set_solver].
    + intros Hs. destruct (decide (n' = n)) as [->|Hne]; [left; set_solver|].
      rewrite lookup_alter_ne in Hs by done. right. split; [done|set_solver].
  - intros c2 _ Hr2. split; [done|]. eapply at_temp_stable; [exact Hr2|].
    split; [done|]. unfold temp. cbn. by rewrite lookup_alter_eq, Hx1.
Qed.

Lemma open_temp_ok b n x o c :
  inv c → at_temp b n x o c →
  valid (act (open_temp n)) (λ r o' c', r = Ok x ∧ at_temp b n x o' c') o c.
Proof.
  intros Hi Hat. apply valid_look. intros c1 H1 _ Hr. split; [done|]. intros c2 _ Hr2.
  pose proof (at_temp_stable _ _ _ _ _ _ Hr Hat) as [_ Ht]. split; [cbn; by rewrite Ht|].
  by eapply at_temp_stable, at_temp_stable.
Qed.

Lemma rename_temp_ok b n x d o c :
  inv c → at_temp b n x o c → bytes_digest sha1 x = d →
  valid (act (rename_temp n d)) (λ r o' c', r = Ok tt ∧ o' = (b, ∅)) o c.
Proof.
  intros Hi [-> Hx] Hd. apply valid_local; [done|]. intros c1 H1 [_ Hr] _.
  assert (temp c1 n = Some x) as Hx1 by (rewrite Hr; [done|set_solver]).
  destruct (dirs_eq c1 H1) as (f & t & Hf & Ht & Hc). unfold rename_temp. rewrite Hx1, Hf, Ht.
  cbn [fst snd fmap option_fmap option_map]. exists ∅. split_and!; [done|apply set_dirs_inv; [done|]| |done].
  - intros d' y Hd' [[<- <-]|[_ Hy]]%lookup_insert_Some; [done|by apply Hc].
  - split; unfold temp; rewrite Ht; cbn; intros n'.
    + intros Hn _. rewrite lookup_delete_ne; [done|set_solver].
    + intros Hn. by apply not_elem_of_empty in Hn.
    + intros [y [Hne Hy]%lookup_delete_Some]. right. split; [by eexists|set_solver].
Qed.

(** ** Methods *)

Definition in_storage (d : string) c : Prop := in_place sha1 (storage c) d.

Lemma in_storage_since {A} (G : Prop) d (p : prog (Cacher B) A) Q o c :
  (G → in_storage d c) → valid p Q o c → valid p (λ r o c, Q r o c ∧ (G → in_storage d c)) o c.
Proof.
  apply (valid_frame (λ c, G → in_storage d c)).
  - intros o1 c1 c2 [Hr _] Hin HG. eapply in_place_stable; [exact Hr|by apply Hin].
  - intros o1 o2 c1 c2 [Hg _] Hin HG. eapply in_place_kept; [exact Hg|by apply Hin].
Qed.

Lemma in_storage_frame {A} d (p : prog (Cacher B) A) Q o c :
  in_storage d c → valid p Q o c → valid p (λ r o c, Q r o c ∧ in_storage d c) o c.
Proof.
  intros Hin Hv. eapply valid_mono; [by apply (in_storage_since True d)|]. intros r o' c' _ [HQ Hd]. auto.
Qed.

Lemma copy_to_temp_ok b n x src o c :
  inv c → at_temp b n x o c →
  valid (copyfileobj src (λ buf, act (write_temp n buf)) CHUNK_SIZE) (copied (at_temp b n) (x +:+ src)) o c.
Proof.
  intros Hi Hx. apply valid_copyfileobj; [by intros; eapply at_temp_stable| |done|done|unfold CHUNK_SIZE; lia].
  intros w buf o1 c1 H1 Hw Hb. eapply valid_mono; [by apply write_temp_ok|]. intros ? o2 c2 _ [-> Hx2].
  exists (String.length buf). rewrite take_string_all by done. split_and!; [done| |done].
  destruct buf; [done|cbn; lia].
Qed.

Lemma digest_and_write_ok fuel b n x src o c :
  inv c → at_temp b n x o c → String.length src < fuel →
  valid (digest_and_write fuel n (mkDigester x) src)
    (λ r o' c', r = Ok (mkDigester (x +:+ src)) ∧ at_temp b n (x +:+ src) o' c') o c.
Proof.
  revert x src o c. induction fuel as [|fuel IH]; intros x src o c Hi Hx Hf; [lia|]. cbn [digest_and_write].
  case_decide as Hb.
  - apply take_string_empty in Hb as ->; [|unfold CHUNK_SIZE; lia]. rewrite append_empty_r.
    intros c1 _ Hr. split; [done|by eapply at_temp_stable].
  - eapply valid_seq; [done|eapply (valid_write_all (at_temp b n)); [| |done|exact Hx|lia]|].
    + intros. by eapply at_temp_stable.
    + intros w buf o1 c1 H1 Hw Hbuf. eapply valid_mono; [by apply write_temp_ok|]. intros ? o2 c2 _ [-> Hx2].
      exists (String.length buf). rewrite take_string_all by done. split_and!; [done| |done].
      destruct buf; [done|cbn; lia].
    + intros ? o1 c1 H1 [-> Hx1]. cbn [when_ok]. unfold digester_update. cbn [_hasher].
      rewrite <- (append_take_drop x CHUNK_SIZE src). apply IH; [done..|].
      rewrite length_drop_string. apply take_string_nonempty in Hb. unfold CHUNK_SIZE. lia.
Qed.

Lemma store_in_backend_ok n x d desc o c :
  inv c → at_temp (nothing sha1) n x o c → bytes_digest sha1 x = d →
  valid (store_in_backend d desc x)
    (λ r o' c', (r = Ok tt ∧ at_temp (nothing sha1) n x o' c') ∧ in_storage d c') o c.
Proof.
  intros Hi [-> Hx] Hd. assert (digest_name d = true) as Hn by (rewrite <- Hd; by apply bytes_digest_name).
  unfold store_in_backend.
  set (writing w y o c := ∃ b, at_temp b n x o c ∧ creating sha1 w y b (storage c)).
  assert (∀ w y o c c', rely o c c' → writing w y o c → writing w y o c') as Hst.
  { intros w y o1 c1 c2 Hr (b & [-> Ht] & Hc). exists b. split; [by eapply at_temp_stable|].
    eapply creating_stable; [apply Hr|done]. }
  apply (valid_seq _ _ (λ r o c,
    (r = Ok None ∧ at_temp (nothing sha1) n x o c ∧ in_storage d c) ∨
    (∃ w, r = Ok (Some w) ∧ writing w "" o c))); [done| |].
  { apply valid_on_backend; [done|]. eapply valid_mono; [apply create_file_ok; [apply Hi|done]|].
    intros r b s _ Hr c1 H1 <- Ht. assert (temp c1 n = Some x) as Htx by (rewrite Ht; [done|set_solver]).
    destruct Hr as [(-> & -> & Hin)|(w & -> & Hc)]; [left|right]; [by split_and!|].
    exists w. split; [done|]. exists b. by split. }
  intros ? o1 c1 H1 [(-> & Hat & Hin)|(w & -> & Hw)]; cbn [when_ok].
  { apply in_storage_frame; [done|]. intros c2 _ Hr. split; [done|by eapply at_temp_stable]. }
  assert (at_temp_of : ∀ o c w y, writing w y o c → ∃ b, o = (b, {[n]}) ∧ temp c n = Some x ∧
    creating sha1 w y b (storage c)) by (intros o2 c2 w' y (b & [-> Ht] & Hc); eauto).
  eapply valid_seq; [done|eapply (valid_copyfileobj (writing w)); [apply Hst| |done|exact Hw|]|].
  - intros y buf o2 c2 H2 Hy Hb. destruct (at_temp_of _ _ _ _ Hy) as (b & -> & Htx & Hc).
    apply valid_on_backend; [done|]. eapply valid_mono; [apply write_file_ok; [apply H2|exact Hc]|].
    intros ? b' s _ [-> Hc'] c3 H3 <- Ht. exists (String.length buf). rewrite take_string_all by done.
    split_and!; [done|destruct buf; [done|cbn; lia]|]. exists b'. split; [|done].
    split; [done|]. rewrite Ht; [done|set_solver].
  - unfold CHUNK_SIZE. lia.
  - intros ? o2 c2 H2 [-> Hw2]. cbn [when_ok]. destruct (at_temp_of _ _ _ _ Hw2) as (b & -> & Htx & Hc).
    apply (valid_seq _ _ (λ r o c, (∃ y, r = Ok y) ∧ at_temp (nothing sha1) n x o c ∧ in_storage d c)); [done| |].
    + apply valid_on_backend; [done|].
      eapply valid_mono; [eapply commit_file_ok; [apply H2|done|exact Hc|done]|].
      intros r b' s _ (Hr & -> & Hin) c3 H3 <- Ht. split_and!; [done|split; [done|]|done]. rewrite Ht; [done|set_solver].
    + intros ? o3 c3 H3 ([y ->] & Hat & Hin). cbn [when_ok]. apply in_storage_frame; [done|].
      intros c4 _ Hr. split; [done|by eapply at_temp_stable].
Qed.

(** What is known of a file that was put. *)
Definition was_put (content : bytes) (r : res string) o c : Prop :=
  r = Ok (bytes_digest sha1 content) ∧ o = free ∧ in_storage (bytes_digest sha1 content) c.

Lemma put_file_content_ok content desc c :
  inv c → valid (put_file_content sha1 temp_name content desc) (was_put content) free c.
Proof.
  intros Hi. unfold put_file_content, put_file_from_fobj.
  eapply valid_seq; [done|by apply mkstemp_ok|]. intros ? o1 c1 H1 (n & -> & Hn). cbn [when_ok].
  eapply valid_seq; [done|apply (digest_and_write_ok _ (nothing sha1) n "" content); [done..|lia]|].
  intros ? o2 c2 H2 [-> Hn2]. cbn [when_ok].
  eapply valid_seq; [done|by eapply open_temp_ok|]. intros ? o3 c3 H3 [-> Hn3]. cbn [when_ok].
  eapply valid_seq; [done|by eapply store_in_backend_ok|]. intros ? o4 c4 H4 [[-> Hn4] Hin]. cbn [when_ok].
  eapply valid_seq; [done|apply in_storage_frame; [exact Hin|]; by eapply rename_temp_ok|].
  intros ? o5 c5 H5 [[-> ->] Hin5]. cbn [when_ok]. eapply valid_mono.
  - apply in_storage_frame; [exact Hin5|]. apply (valid_done _ (λ r o _, r = Ok (bytes_digest sha1 content) ∧ o = free)). by intros.
  - intros r o6 c6 _ [[-> ->] Hin6]. by split_and!.
Qed.

(** What is known of the answer to a request for a digest. *)
Definition was_got {A} (d : string) (here : Prop) (P : A → Prop) (r : res A) o : Prop :=
  match r with
  | Ok x => P x ∧ o = free
  | Raise KeyError => ¬ here
  | _ => False
  end.

Lemma download_ok d c :
  inv c → digest_name d = true →
  valid (download temp_name d) (λ r o c',
    match r with
    | Ok n => ∃ x, at_temp (nothing sha1) n x o c' ∧ bytes_digest sha1 x = d
    | Raise KeyError => ¬ in_storage d c
    | _ => False
    end) free c.
Proof.
  intros Hi Hd. unfold download.
  eapply valid_seq; [done|apply (in_storage_since (in_storage d c) d); [done|by apply mkstemp_ok]|].
  intros ? o1 c1 H1 [(n & -> & [-> Hn]) Hin]. cbn [when_ok].
  apply (valid_seq _ _ (λ r o c', match r with
    | Ok x => at_temp (nothing sha1) n "" o c' ∧ bytes_digest sha1 x = d
    | Raise KeyError => ¬ in_storage d c
    | _ => False
    end)); [done| |].
  - apply valid_on_backend; [done|]. eapply valid_mono; [apply get_file_ok; [apply H1|done]|].
    intros r b s _ [-> Hr] c2 H2 _ Ht. destruct r as [x|[]| |]; try done.
    + split; [|done]. split; [done|]. rewrite Ht; [done|set_solver].
    + intros Hc. by apply Hr, Hin.
  - intros [x|[]| |] o2 c2 H2 Hr; try done; cbn [when_ok]; [|by apply valid_done].
    destruct Hr as [Hat Hx]. eapply valid_seq; [done|by apply (copy_to_temp_ok (nothing sha1) n "")|].
    intros ? o3 c3 H3 [-> Hat3]. cbn [when_ok]. intros c4 _ Hr. exists x.
    split; [by eapply at_temp_stable|done].
Qed.

Lemma open_cached_ok d c :
  inv c → digest_name d = true →
  valid (act (open_cached d)) (λ r o _, o = free ∧
    match r with Ok x => bytes_digest sha1 x = d | Raise e => e = FileNotFoundError | _ => False end) free c.
Proof.
  intros Hi Hd. apply valid_look. intros c1 H1 _ _. split; [done|]. intros c2 _ _. split; [done|].
  unfold open_cached. cbn. destruct (cached c1 d) as [x|] eqn:Hx; [by apply H1|done].
Qed.

Lemma load_ok d c :
  inv c → digest_name d = true →
  valid (_load temp_name d false)
    (λ r o _, was_got d (in_storage d c) (λ x, ∃ y, x = Some y ∧ bytes_digest sha1 y = d) r o) free c.
Proof.
  intros Hi Hd. unfold _load.
  apply (valid_seq _ _ (λ r o c', o = free ∧ (in_storage d c → in_storage d c') ∧
    ∃ x, r = Ok x ∧ ∀ y, x = Some y → bytes_digest sha1 y = d)); [done| |].
  - apply valid_try; [done|].
    eapply valid_seq; [done|apply (in_storage_since (in_storage d c) d); [done|by apply open_cached_ok]|].
    intros [x|e| |] o1 c1 H1 [[-> Hr] Hin]; try done; cbn [when_ok].
    + intros c2 _ Hr2 c3 _ Hr3. split_and!; [done| |].
      * intros HG. eapply in_place_stable; [apply Hr3|]. eapply in_place_stable; [apply Hr2|by apply Hin].
      * eexists. split; [done|]. by intros y [= <-].
    + subst e. intros c2 _ Hr2. rewrite bool_decide_eq_true_2 by done. intros c3 _ Hr3. split_and!; [done| |].
      * intros HG. eapply in_place_stable; [apply Hr3|]. eapply in_place_stable; [apply Hr2|by apply Hin].
      * by eexists.
  - intros ? o1 c1 H1 (-> & Hin & [x|] & -> & Hx); cbn [when_ok].
    { intros c2 _ _. split; [|done]. exists x. split; [done|by apply Hx]. }
    eapply valid_seq; [done|by apply download_ok|].
    intros [n|[]| |] o2 c2 H2 Hr; try done; cbn [when_ok].
    2:{ intros c3 _ _ HG. by apply Hr, Hin. }
    destruct Hr as (y & Hat & Hy). eapply valid_seq; [done|by eapply open_temp_ok|].
    intros ? o3 c3 H3 [-> Hat3]. cbn [when_ok]. eapply valid_seq; [done|by eapply rename_temp_ok|].
    intros ? o4 c4 H4 [-> ->]. cbn [when_ok]. intros c5 _ _. split; [by exists y|done].
Qed.

Lemma load_only_ok d c :
  inv c → digest_name d = true →
  valid (_load temp_name d true) (λ r o _, was_got d (in_storage d c) (λ _, True) r o) free c.
Proof.
  intros Hi Hd. unfold _load.
  apply (valid_seq _ _ (λ r o c', o = free ∧ (in_storage d c → in_storage d c') ∧ ∃ b, r = Ok b)); [done| |].
  { eapply valid_mono; [apply (in_storage_since (in_storage d c) d); [done|]|].
    - apply (valid_look _ (λ r o _, o = free ∧ ∃ b, r = Ok b)). intros c1 _ _ _. split; [done|].
      intros c2 _ _. split; [done|by eexists].
    - intros r o1 c1 _ [[-> Hr] Hin]. done. }
  intros ? o1 c1 H1 (-> & Hin & b & ->). cbn [when_ok]. destruct b; [by intros c2 _ _|].
  eapply valid_seq; [done|by apply download_ok|].
  intros [n|[]| |] o2 c2 H2 Hr; try done; cbn [when_ok].
  2:{ intros c3 _ _ HG. by apply Hr, Hin. }
  destruct Hr as (y & Hat & Hy). eapply valid_seq; [done|by eapply rename_temp_ok|].
  intros ? o4 c4 H4 [-> ->]. by intros c5 _ _.
Qed.

Lemma get_file_content_ok d c :
  inv c → digest_name d = true →
  valid (get_file_content temp_name d)
    (λ r o _, was_got d (in_storage d c) (λ x, bytes_digest sha1 x = d) r o) free c.
Proof.
  intros Hi Hd. unfold get_file_content, cacher_get_file, check_tombstone.
  rewrite bool_decide_eq_false_2 by (by apply digest_name_tombstone).
  eapply valid_seq; [done|by apply load_ok|].
  intros [x|[]| |] o1 c1 H1 Hr; try done; cbn [when_ok]; [|by intros c2 _ _].
  destruct Hr as [(y & -> & Hy) ->]. by intros c2 _ _.
Qed.

Lemma cache_file_ok d c :
  inv c → digest_name d = true →
  valid (cache_file temp_name d) (λ r o _, was_got d (in_storage d c) (λ _, True) r o) free c.
Proof.
  intros Hi Hd. unfold cache_file, check_tombstone.
  rewrite bool_decide_eq_false_2 by (by apply digest_name_tombstone).
  eapply valid_seq; [done|by apply load_only_ok|].
  intros [x|[]| |] o1 c1 H1 Hr; try done; cbn [when_ok]; [|by intros c2 _ _].
  destruct Hr as [_ ->]. by intros c2 _ _.
Qed.

Lemma drop_ok d c : inv c → valid (drop d) (λ r o _, r = Ok tt ∧ o = free) free c.
Proof.
  intros Hi. unfold drop. case_bool_decide; [by intros c1 _ _|]. apply valid_try; [done|].
  apply valid_local; [done|]. intros c1 H1 _ _. exists ∅.
  destruct (dirs_eq c1 H1) as (f & t & Hf & Ht & Hc). unfold unlink_cached, cached. rewrite Hf. cbn.
  destruct (f !! d) as [x|] eqn:Hx; cbn [fst snd].
  - split_and!; [done|rewrite Ht; apply set_dirs_inv; [done|]|by apply temp_guar_same|by intros c2 _ _].
    intros d' y Hd' [_ Hy]%lookup_delete_Some. by apply Hc.
  - split_and!; [done|done|by apply temp_guar_same|by intros c2 _ _].
Qed.

(** ** Requests *)

Inductive request : Type :=
  | Put (content : bytes) (desc : string)
  | Get (digest : string)
  | Cache (digest : string)
  | Drop (digest : string).

Inductive answer : Type :=
  | Stored (digest : string)
  | Content (x : bytes)
  | Finished.

Definition serve (r : request) : prog (Cacher B) answer :=
  match r with
  | Put content desc => d ← put_file_content sha1 temp_name content desc; mret (Stored d)
  | Get d => x ← get_file_content temp_name d; mret (Content x)
  | Cache d => _ ← cache_file temp_name d; mret Finished
  | Drop d => _ ← drop d; mret Finished
  end.

Definition wf_request (r : request) : Prop :=
  match r with Put _ _ | Drop _ => True | Get d | Cache d => digest_name d = true end.

(** The answers to a request, when [here] are the files that were in place
    before. *)
Definition answers (here : string → Prop) (q : request) (r : res answer) c : Prop :=
  match q, r with
  | Put content _, Ok (Stored d) => d = bytes_digest sha1 content ∧ in_storage d c
  | Get d, Ok (Content x) => bytes_digest sha1 x = d
  | Cache _, Ok Finished | Drop _, Ok Finished => True
  | Get d, Raise KeyError | Cache d, Raise KeyError => ¬ here d
  | _, _ => False
  end.

Definition answered (here : string → Prop) (q : request) (r : res answer) o c : Prop :=
  answers here q r c ∧ (is_Ok r → o = free).

Lemma serve_valid q c :
  inv c → wf_request q → valid (serve q) (answered (λ d, in_storage d c) q) free c.
Proof.
  intros Hi Hq. destruct q as [content desc|d|d|d]; cbn [serve].
  - eapply valid_seq; [done|by apply put_file_content_ok|]. intros ? o1 c1 H1 (-> & -> & Hin). cbn [when_ok].
    intros c2 _ Hr. split; [|done]. split; [done|]. eapply in_place_stable; [apply Hr|exact Hin].
  - eapply valid_seq; [done|by apply get_file_content_ok|].
    intros [x|[]| |] o1 c1 H1 Hr; try done; cbn [when_ok]; intros c2 _ _; [by destruct Hr|].
    split; [done|]. by intros [? ?].
  - eapply valid_seq; [done|by apply cache_file_ok|].
    intros [x|[]| |] o1 c1 H1 Hr; try done; cbn [when_ok]; intros c2 _ _; [by destruct Hr|].
    split; [done|]. by intros [? ?].
  - eapply valid_seq; [done|by apply drop_ok|]. intros ? o1 c1 H1 [-> ->]. by intros c2 _ _.
Qed.

Lemma serve_pool_ok qs c :
  inv c → (∀ t, ¬ garbage c t) → Forall wf_request qs →
  pool_ok (answered (λ d, in_storage d c) <$> qs) ((λ _, free) <$> qs) (serve <$> qs, c).
Proof.
  intros Hi Hg Hq. split; cbn [fst snd].
  - done.
  - by rewrite !length_fmap.
  - intros i o Ho. rewrite list_lookup_fmap in Ho. destruct (qs !! i); [|done]. injection Ho as <-. apply free_owns.
  - intros i j oi oj _. rewrite !list_lookup_fmap. destruct (qs !! i), (qs !! j); try done. intros [= <-] [= <-].
    split; [apply nothing_apart|apply disjoint_empty_l].
  - intros t Ht. by destruct (Hg t).
  - intros i p Hp. rewrite !list_lookup_fmap in *. destruct (qs !! i) as [q|] eqn:Hqi; [|done].
    injection Hp as <-. exists free, (answered (λ d, in_storage d c) q). split_and!; [done..|].
    apply serve_valid; [done|]. by apply (Forall_lookup_1 _ _ _ _ Hq Hqi).
Qed.

(** Whatever the schedule, what the threads have answered is right, and when
    all have returned nothing is forgotten. *)
Lemma served qs c ts c' :
  inv c → (∀ t, ¬ garbage c t) → Forall wf_request qs →
  rtc pool_step (serve <$> qs, c) (ts, c') →
  inv c' ∧
  (∀ i q r, qs !! i = Some q → ts !! i = Some (Done r) → answers (λ d, in_storage d c) q r c') ∧
  ((∀ i p, ts !! i = Some p → ∃ a, p = Done (Ok a)) → ∀ t, ¬ garbage c' t).
Proof.
  intros Hi Hg Hq Hr. pose proof (serve_pool_ok qs c Hi Hg Hq) as Hok.
  destruct (pool_ok_steps _ _ _ _ Hok Hr) as (os & Hok'). split_and!; [apply Hok'| |].
  - intros i q r Hqi Hd. destruct (pool_result _ _ _ i r Hok' Hd) as (o & Q & _ & HQ & Ha).
    rewrite list_lookup_fmap, Hqi in HQ. injection HQ as <-. apply Ha.
  - intros Hall t Ht. destruct (pool_garbage _ _ _ Hok' t Ht) as (i & o & Ho & Hh).
    destruct (ts !! i) as [p|] eqn:Hp.
    2:{ apply lookup_ge_None in Hp. apply lookup_lt_Some in Ho. rewrite (pool_length _ _ _ Hok') in Ho. cbn in Ho. lia. }
    destruct (Hall i p Hp) as (a & ->).
    destruct (pool_result _ _ _ i _ Hok' Hp) as (o' & Q & Ho' & HQ & Ha). rewrite Ho in Ho'. injection Ho' as <-.
    rewrite list_lookup_fmap in HQ. destruct (qs !! i) as [q|]; [|done]. injection HQ as <-.
    destruct Ha as [_ Hfree]. rewrite Hfree in Hh by (by eexists). by destruct (free_holds t).
Qed.

(** A put when nobody else acts. *)
Lemma put_alone content desc c :
  inv c → (∀ t, ¬ garbage c t) →
  let c1 := (run (put_file_content sha1 temp_name content desc) c).2 in
  (run (put_file_content sha1 temp_name content desc) c).1 = Ok (bytes_digest sha1 content) ∧
  inv c1 ∧ (∀ t, ¬ garbage c1 t) ∧ in_storage (bytes_digest sha1 content) c1 ∧
  ∀ d, in_storage d c → in_storage d c1.
Proof.
  intros Hi Hg c1.
  destruct (valid_run _ _ _ _ Hi (free_owns c) (put_file_content_ok content desc c Hi)) as (o & _ & _ & Hres & _ & Hin).
  fold c1 in Hin. set (d := bytes_digest sha1 content) in *.
  assert (run (serve (Put content desc)) c = (Ok (Stored d), c1)) as Hserve.
  { cbn [serve]. rewrite run_bind. unfold mbind, M_bind. subst c1. by destruct (run (put_file_content _ _ _ _) c) as [r s]; cbn in *; subst r. }
  pose proof (pool_run [serve (Put content desc)] c 0 _ eq_refl) as Hp. rewrite Hserve in Hp.
  destruct (served [Put content desc] c [Done (Ok (Stored d))] c1 Hi Hg ltac:(by repeat constructor) Hp) as (Hi1 & _ & Hg1).
  split_and!; [done|done| |done|].
  - apply Hg1. intros [|i] p Hpi; [injection Hpi as <-; by eexists|done].
  - intros d' Hd'. refine (pool_keeps (in_storage d') _ _ _ ([_], c1) _ (serve_pool_ok [Put content desc] c Hi Hg ltac:(by repeat constructor)) Hp Hd').
    intros o1 o' s s' [Hgs _]. by eapply in_place_kept.
Qed.
End FileCacherSpec.
