(* ===== verification/FileService.v ===== *)
(** * Files stored and read by many services at once

    The contract of the file cacher on the storage in the database, for any
    requests and any schedule; a file that was stored can be read back; and
    what the check of the backend finds. *)

From S2P Require Import Prelude PyString Interleaving FileStorage FileCacher FileStorageSpec FileCacherSpec.

Local Open Scope string_scope.

(** ** The storage in the database *)

Section database.
Context (sha1 : bytes → bytes) (lo_creat : gset Z → Z) (temp_name : gset string → string).
Context (sha1_length : ∀ b, String.length (sha1 b) = 20).
Context (lo_fresh : ∀ used, lo_creat used ∉ used) (lo_nonzero : ∀ used, lo_creat used ≠ 0%Z).
Context (temp_fresh : ∀ used, temp_name used ∉ used).

#[local] Instance backend : FileCacherBackend DB.Rows Z := DB.DBBackend lo_creat.
Abbreviation serve := (serve (B:=DB.Rows) (W:=Z) sha1 temp_name).

(** The content of the file in the database. *)
Definition file_of (b : DB.Rows) (d : string) : option bytes :=
  fso ← DB.fsobjects b !! d; DB.lobjects b !! DB.loid fso.

(** The directories exist, what they hold and the rows refer to has the right
    digest, and there is nothing to clean. *)
Record healthy (c : Cacher DB.Rows) : Prop := {
  he_rows d fso : DB.fsobjects (storage c) !! d = Some fso →
    DB.loid fso ≠ 0%Z ∧ ∃ x, file_of (storage c) d = Some x ∧ (digest_name d = true → bytes_digest sha1 x = d);
  he_objects l : is_Some (DB.lobjects (storage c) !! l) → ∃ d fso, DB.fsobjects (storage c) !! d = Some fso ∧ DB.loid fso = l;
  he_open : DB.open_lobjects (storage c) = ∅;
  he_cache : ∃ f, file_dir c = Some f ∧ ∀ d x, digest_name d = true → f !! d = Some x → bytes_digest sha1 x = d;
  he_temp : temp_dir c = Some ∅;
}.

#[local] Instance spec : BackendSpec sha1 DB.Rows Z := DBSpec.db_spec sha1 lo_creat lo_fresh lo_nonzero.

Lemma healthy_inv c : healthy c → inv c ∧ ∀ t, ¬ garbage c t.
Proof.
  intros [Hr Ho Hop (f & Hf & Hc) Ht]. split; [split|].
  - split. intros d fso Hd. destruct (Hr d fso Hd) as (Hz & x & Hx & Hdig). split_and!; [done|by rewrite Hop|].
    unfold file_of in Hx. rewrite Hd in Hx. by exists x.
  - by rewrite Hf.
  - by rewrite Ht.
  - unfold cached. by rewrite Hf.
  - intros [l|n]; cbn.
    + intros [[Hl|[x Hl]] Hn]; [|by rewrite Hop in Hl]. destruct (Ho l Hl) as (d & fso & Hd & Hl'). apply Hn. by exists d, fso.
    + unfold temp. rewrite Ht. cbn. by intros [x Hx].
Qed.

Lemma inv_row c d : inv c → digest_name d = true → DBSpec.row_in (storage c) d →
  ∃ x, file_of (storage c) d = Some x ∧ bytes_digest sha1 x = d.
Proof.
  intros [[Hi] _ _ _] Hd [fso Hf]. destruct (Hi d fso Hf) as (_ & _ & x & Hx & Hdig).
  exists x. unfold file_of. rewrite Hf. split; [done|by apply Hdig].
Qed.

(** C1. Any number of services and greenlets put, get, cache and drop files on
    the same database and the same local directory, their actions interleaved
    in any order, the check and the insertion of a row included: every put
    that has ended returned the digest of its content, and the database has a
    content of that digest; every get has ended with a content of its digest,
    or with [KeyError] if the file was not there to begin with; no other
    exception is raised; once all have returned, every large object is the
    content of a row and no temporary file is left, also when the same file
    was put by several; and the schedule cannot go on forever. *)
Theorem concurrent_requests c qs ts c' :
  healthy c → Forall wf_request qs →
  rtc pool_step (serve <$> qs, c) (ts, c') →
  (∀ i content desc r, qs !! i = Some (Put content desc) → ts !! i = Some (Done r) →
    r = Ok (Stored (bytes_digest sha1 content)) ∧
    ∃ x, file_of (storage c') (bytes_digest sha1 content) = Some x ∧
      bytes_digest sha1 x = bytes_digest sha1 content) ∧
  (∀ i d r, qs !! i = Some (Get d) → ts !! i = Some (Done r) →
    (∃ x, r = Ok (Content x) ∧ bytes_digest sha1 x = d) ∨
    r = Raise KeyError ∧ file_of (storage c) d = None) ∧
  (∀ i d r, qs !! i = Some (Cache d) → ts !! i = Some (Done r) →
    r = Ok Finished ∨ r = Raise KeyError ∧ file_of (storage c) d = None) ∧
  (∀ i d r, qs !! i = Some (Drop d) → ts !! i = Some (Done r) → r = Ok Finished) ∧
  ((∀ i p, ts !! i = Some p → ∃ a, p = Done (Ok a)) →
    (∀ l, is_Some (DB.lobjects (storage c') !! l) →
      ∃ d fso, DB.fsobjects (storage c') !! d = Some fso ∧ DB.loid fso = l) ∧
    DB.open_lobjects (storage c') = ∅ ∧ temp_dir c' = Some ∅) ∧
  Acc (flip pool_step) (ts, c').
Proof.
  intros Hh Hq Hr. destruct (healthy_inv c Hh) as [Hi Hg].
  destruct (served sha1 temp_name sha1_length temp_fresh qs c ts c' Hi Hg Hq Hr) as (Hi' & Ha & Hgone).
  assert (∀ d, digest_name d = true → ¬ in_storage sha1 d c → file_of (storage c) d = None) as Hnot.
  { intros d Hd Hn. unfold file_of. destruct (DB.fsobjects (storage c) !! d) eqn:Hf; [|done].
    destruct Hn. by eexists. }
  split_and!.
  - intros i content desc r Hqi Hd. specialize (Ha i _ r Hqi Hd). destruct r as [[d| |]|e| |]; try done.
    destruct Ha as [-> Hin]. split; [done|]. apply inv_row; [done|by apply bytes_digest_name|done].
  - intros i d r Hqi Hd. specialize (Ha i _ r Hqi Hd). pose proof (Forall_lookup_1 _ _ _ _ Hq Hqi) as Hwf.
    destruct r as [[]|[]| |]; try done; [left; eauto|right]. split; [done|by apply Hnot].
  - intros i d r Hqi Hd. specialize (Ha i _ r Hqi Hd). pose proof (Forall_lookup_1 _ _ _ _ Hq Hqi) as Hwf.
    destruct r as [[]|[]| |]; try done; [by left|right]. split; [done|by apply Hnot].
  - intros i d r Hqi Hd. specialize (Ha i _ r Hqi Hd). by destruct r as [[]|[]| |].
  - intros Hall. specialize (Hgone Hall). split_and!.
    + intros l Hl. destruct (decide (Exists (λ kv, DB.loid kv.2 = l) (map_to_list (DB.fsobjects (storage c'))))) as [He|He].
      * apply Exists_exists in He as ([d fso] & Hin%elem_of_map_to_list & Heq). by exists d, fso.
      * destruct (Hgone (inl l)). split; [by left|]. intros (d & fso & Hf & Hl'). apply He, Exists_exists.
        exists (d, fso). by rewrite elem_of_map_to_list.
    + apply map_empty. intros l. destruct (DB.open_lobjects (storage c') !! l) as [x|] eqn:Hx; [|done].
      destruct (Hgone (inl l)). split; [right; by eexists|]. intros (d & fso & Hf & <-).
      destruct (DBSpec.row_content sha1 _ (ci_storage _ _ Hi') d fso Hf) as (_ & Hno & _). congruence.
    + destruct (ci_temp_dir _ _ Hi') as [t Ht]. rewrite Ht. f_equal. apply map_empty. intros n.
      destruct (t !! n) as [x|] eqn:Hx; [|done]. destruct (Hgone (inr n)). cbn. unfold temp. rewrite Ht. by eexists.
  - apply pool_terminates.
Qed.
End database.

(** Two services store the same file at once: both look for the row, both
    create a large object, and the second to insert its row removes it. *)
Definition demo_sha1 (b : bytes) : bytes := take_string 20 (b +:+ "--------------------").
Definition demo_oid (used : gset Z) : Z := (1 + foldr Z.max 0 (elements used))%Z.
Fixpoint demo_longer (n : nat) : string :=
  match n with O => "t" | S n => "t" +:+ demo_longer n end.
Definition demo_temp (used : gset string) : string :=
  demo_longer (foldr Nat.max 0 (String.length <$> elements used)).

Lemma demo_sha1_length b : String.length (demo_sha1 b) = 20.
Proof. unfold demo_sha1. rewrite length_take_string, length_append. cbn [String.length]. lia. Qed.

Lemma demo_oid_fresh used : demo_oid used ∉ used.
Proof.
  unfold demo_oid. rewrite <- elem_of_elements. generalize (elements used). intros l Hl.
  assert (∀ x, x ∈ l → x ≤ foldr Z.max 0 l)%Z as Hmax.
  { clear Hl. induction l as [|y l IH]; intros x Hx; [by apply elem_of_nil in Hx|].
    cbn. apply elem_of_cons in Hx as [->|Hx]; [lia|]. specialize (IH x Hx). lia. }
  specialize (Hmax _ Hl). lia.
Qed.

Lemma demo_oid_nonzero used : demo_oid used ≠ 0%Z.
Proof.
  unfold demo_oid. assert (0 ≤ foldr Z.max 0 (elements used))%Z as H; [|lia].
  induction (elements used) as [|x l IH]; cbn; lia.
Qed.

Lemma demo_temp_fresh used : demo_temp used ∉ used.
Proof.
  unfold demo_temp. rewrite <- elem_of_elements. generalize (elements used). intros l Hl.
  assert (∀ x, x ∈ l → (String.length x ≤ foldr Nat.max 0 (String.length <$> l))%nat) as Hmax.
  { clear Hl. induction l as [|y l IH]; intros x Hx; [by apply elem_of_nil in Hx|].
    cbn. apply elem_of_cons in Hx as [->|Hx]; [lia|]. specialize (IH x Hx). lia. }
  specialize (Hmax _ Hl). assert (∀ n, String.length (demo_longer n) = S n) as Hlen.
  { intros n. induction n as [|n IH]; [done|]. cbn [demo_longer]. by rewrite length_append, IH. }
  rewrite Hlen in Hmax. lia.
Qed.

Definition demo_cacher : Cacher DB.Rows := new_cacher (DB.mkRows ∅ ∅ ∅) None ∅.

Lemma demo_healthy : healthy demo_sha1 demo_cacher.
Proof.
  split; cbn; try done.
  - intros l Hl. by apply lookup_empty_is_Some in Hl.
  - by exists ∅.
Qed.

Definition demo_requests : list request := [Put "a" ""; Put "a" ""].
Definition demo_pool : list (prog (Cacher DB.Rows) answer) * Cacher DB.Rows :=
  (@serve DB.Rows Z (DB.DBBackend demo_oid) demo_sha1 demo_temp <$> demo_requests, demo_cacher).
Definition demo_race : list (prog (Cacher DB.Rows) answer) * Cacher DB.Rows :=
  schedule (concat (replicate 20 [0; 1])) demo_pool.

Example demo_race_ends :
  demo_race.1 = replicate 2 (Done (Ok (Stored (bytes_digest demo_sha1 "a")))) ∧
  map_to_list (DB.lobjects (storage demo_race.2)) = [(1%Z, "a")].
Proof. vm_compute. done. Qed.

Lemma concurrent_requests_witness :
  (∀ l, is_Some (DB.lobjects (storage demo_race.2) !! l) →
    ∃ d fso, DB.fsobjects (storage demo_race.2) !! d = Some fso ∧ DB.loid fso = l) ∧
  (∃ x, file_of (storage demo_race.2) (bytes_digest demo_sha1 "a") = Some x ∧
    bytes_digest demo_sha1 x = bytes_digest demo_sha1 "a").
Proof.
  destruct demo_race_ends as [Hends _].
  destruct (concurrent_requests demo_sha1 demo_oid demo_temp demo_sha1_length demo_oid_fresh demo_oid_nonzero
    demo_temp_fresh demo_cacher demo_requests demo_race.1 demo_race.2) as (Hput & _ & _ & _ & Hclean & _).
  - exact demo_healthy.
  - repeat constructor.
  - rewrite <- surjective_pairing. apply schedule_steps.
  - split.
    + apply Hclean. intros i p. rewrite Hends. intros Hp. apply list_elem_of_lookup_2, elem_of_replicate in Hp as [-> _].
      by eexists.
    + apply (Hput 0 "a" "" (Ok (Stored (bytes_digest demo_sha1 "a")))); [reflexivity|]. by rewrite Hends.
Defined.

(** ** Reading back *)

Section roundtrip.
Context {B W : Type} `{FileCacherBackend B W} (sha1 : bytes → bytes) `{!BackendSpec sha1 B W}.
Context (temp_name : gset string → string).
Context (sha1_length : ∀ b, String.length (sha1 b) = 20).
Context (temp_fresh : ∀ used, temp_name used ∉ used).

(** C11. A file that was stored is read back: the put returns the digest of
    the content, and after any number of actions of other services a get of
    this digest returns a content of this digest, which is the content that
    was put unless SHA-1 collides on it. It holds for every backend that keeps
    the contract. *)
Theorem put_then_get content desc qs ts (c c2 : Cacher B) :
  inv c → (∀ t, ¬ garbage c t) → Forall wf_request qs →
  rtc pool_step (serve sha1 temp_name <$> qs, (run (put_file_content sha1 temp_name content desc) c).2) (ts, c2) →
  (run (put_file_content sha1 temp_name content desc) c).1 = Ok (bytes_digest sha1 content) ∧
  ∃ x, (run (get_file_content temp_name (bytes_digest sha1 content)) c2).1 = Ok x ∧
    bytes_digest sha1 x = bytes_digest sha1 content ∧
    ((∀ y, bytes_digest sha1 y = bytes_digest sha1 content → y = content) → x = content).
Proof.
  intros Hi Hg Hq Hr. set (d := bytes_digest sha1 content) in *.
  set (c1 := (run (put_file_content sha1 temp_name content desc) c).2) in *.
  destruct (put_alone sha1 temp_name sha1_length temp_fresh content desc c Hi Hg) as (Hres & Hi1 & Hg1 & Hin & _).
  fold c1 d in Hi1, Hg1, Hin, Hres.
  pose proof (serve_pool_ok sha1 temp_name sha1_length temp_fresh qs c1 Hi1 Hg1 Hq) as Hok.
  assert (in_storage sha1 d c2) as Hin2.
  { refine (pool_keeps (in_storage sha1 d) _ _ _ (ts, c2) _ Hok Hr Hin).
    intros o o' s s' [Hgs _]. by eapply in_place_kept. }
  destruct (served sha1 temp_name sha1_length temp_fresh qs c1 ts c2 Hi1 Hg1 Hq Hr) as (Hi2 & _).
  assert (digest_name d = true) as Hd by (by apply bytes_digest_name).
  destruct (valid_run _ _ _ _ Hi2 (free_owns sha1 c2) (get_file_content_ok sha1 temp_name sha1_length temp_fresh d c2 Hi2 Hd)) as (o & _ & _ & Hgot).
  split; [done|]. destruct (run (get_file_content temp_name d) c2).1 as [x|[]| |]; try done.
  destruct Hgot as [Hx _]. exists x. split_and!; [done..|]. intros Hcol. by apply Hcol.
Qed.
End roundtrip.

(** Dropped from the local directory in between. *)
Lemma put_then_get_witness :
  ∃ x, (run (@get_file_content DB.Rows Z (DB.DBBackend demo_oid) demo_temp (bytes_digest demo_sha1 "abc"))
    (schedule [0; 0] ([@serve DB.Rows Z (DB.DBBackend demo_oid) demo_sha1 demo_temp (Drop (bytes_digest demo_sha1 "abc"))],
      (run (@put_file_content DB.Rows Z (DB.DBBackend demo_oid) demo_sha1 demo_temp "abc" "") demo_cacher).2)).2).1 = Ok x ∧
    bytes_digest demo_sha1 x = bytes_digest demo_sha1 "abc".
Proof.
  pose (spec := DBSpec.db_spec demo_sha1 demo_oid demo_oid_fresh demo_oid_nonzero).
  destruct (healthy_inv demo_sha1 demo_oid demo_oid_fresh demo_oid_nonzero demo_cacher demo_healthy) as [Hi Hg].
  destruct (put_then_get demo_sha1 demo_temp demo_sha1_length demo_temp_fresh "abc" ""
    [Drop (bytes_digest demo_sha1 "abc")] _ _ _ Hi Hg ltac:(repeat constructor) (schedule_steps [0; 0] _))
    as (_ & x & Hx & Hd & _).
  exists x. split; [exact Hx|exact Hd].
Defined.
