(* ===== verification/CleanFiles.v ===== *)
(** * Removing files that nothing refers to (cmscontrib/CleanFiles.py,
    cms/db/util.py: enumerate_files, Worker.precache_files,
    FileCacher.check_backend_integrity)

    The digests that the rows of the contests refer to, the program that
    deletes the other files of the storage, the task that a worker has to
    cache the files of a contest, and the check of the contents. *)

From S2P Require Import Prelude PyString Database DbUtil Interleaving FileStorage FileCacher FileStorageSpec FileService.

Local Open Scope string_scope.
Local Open Scope list_scope.

Record Statement : Type := mkStatement {
  st_task_id : Z;
  st_language : string;
  st_digest : string;
}.

Record Attachment : Type := mkAttachment {
  at_task_id : Z;
  at_filename : string;
  at_digest : string;
}.

Record PrintJob : Type := mkPrintJob {
  pj_participation_id : Z;
  pj_filename : string;
  pj_digest : string;
}.

(** The rows of the model and the other tables that refer to files. *)
Record FileTables : Type := mkFileTables {
  ft_db : Db;
  ft_statements : list Statement;
  ft_attachments : list Attachment;
  ft_printjobs : list PrintJob;
}.

(** ** [enumerate_files] *)

Section enumerate.
Context (t : FileTables) (contest : option Z).
Abbreviation db := (ft_db t).

Definition contest_q : list Contest := filter (λ c, matches contest (co_id c)) (db_contests db).
Definition task_q : list Task := contest_q ≫= λ c, filter (λ k, task_contest_id k = Some (co_id c)) (db_tasks db).
Definition dataset_q : list Dataset := task_q ≫= λ k, task_datasets db (task_id k).
Definition submission_q : list Submission := task_q ≫= λ k, filter (λ s, sub_task_id s = task_id k) (db_submissions db).
Definition user_test_q : list UserTest := task_q ≫= λ k, filter (λ u, ut_task_id u = task_id k) (db_user_tests db).
Definition user_test_result_q : list UserTestResult :=
  user_test_q ≫= λ u, filter (λ r, utr_user_test_id r = ut_id u) (db_user_test_results db).

Definition statement_files : list string :=
  task_q ≫= λ k, st_digest <$> filter (λ x, st_task_id x = task_id k) (ft_statements t).
Definition attachment_files : list string :=
  task_q ≫= λ k, at_digest <$> filter (λ x, at_task_id x = task_id k) (ft_attachments t).
Definition submission_files : list string :=
  submission_q ≫= λ s, fi_digest <$> filter (λ f, fi_submission_id f = sub_id s) (db_files db).
Definition executable_files : list string :=
  submission_q ≫= λ s,
    filter (λ r, sr_submission_id r = sub_id s) (db_submission_results db) ≫= λ r, pd_values (sr_executables r).
Definition printjob_files : list string :=
  contest_q ≫= λ c, filter (λ p, pa_contest_id p = co_id c) (db_participations db) ≫= λ p,
    pj_digest <$> filter (λ j, pj_participation_id j = pa_id p) (ft_printjobs t).

Definition queries (skip_submissions skip_user_tests skip_users skip_print_jobs skip_generated : bool)
    : list (list string) :=
  [statement_files; attachment_files; dataset_q ≫= (λ d, pd_values (ds_managers d));
   dataset_q ≫= (λ d, tc_input <$> testcases db d); dataset_q ≫= (λ d, tc_output <$> testcases db d)]
  ++ (if negb skip_submissions && negb skip_users then
        [submission_files] ++ (if negb skip_generated then [executable_files] else [])
      else [])
  ++ (if negb skip_user_tests && negb skip_users then
        [ut_input <$> user_test_q; user_test_q ≫= (λ u, pd_values (ut_files u));
         user_test_q ≫= (λ u, pd_values (ut_managers u))]
        ++ (if negb skip_generated then
              [user_test_result_q ≫= (λ r, pd_values (utr_executables r));
               omap utr_output user_test_result_q]
            else [])
      else [])
  ++ (if negb skip_print_jobs && negb skip_users then [printjob_files] else []).

Definition enumerate_files (skip_submissions skip_user_tests skip_users skip_print_jobs skip_generated : bool)
    : gset string :=
  list_to_set (concat (queries skip_submissions skip_user_tests skip_users skip_print_jobs skip_generated))
    ∖ {[TOMBSTONE]}.
End enumerate.

(** ** The program *)

Definition with_executables (f : pydict string string → pydict string string) (r : SubmissionResult) : SubmissionResult :=
  mkSubmissionResult (sr_submission_id r) (sr_dataset_id r)
    (sr_compilation_outcome r) (sr_compilation_text r) (sr_compilation_tries r)
    (sr_compilation_stdout r) (sr_compilation_stderr r)
    (sr_compilation_time r) (sr_compilation_wall_clock_time r) (sr_compilation_memory r)
    (sr_compilation_shard r) (sr_compilation_sandbox r) (sr_evaluation_outcome r)
    (sr_submission_discarded r) (sr_evaluation_tries r)
    (sr_score r) (sr_score_details r) (sr_public_score r) (sr_public_score_details r)
    (sr_ranking_score_details r) (f (sr_executables r)) (sr_evaluations r).

Definition make_tombstone (t : FileTables) : FileTables :=
  mkFileTables (with_results (fmap (with_executables (fmap (λ x, (x.1, TOMBSTONE))))) (ft_db t))
    (ft_statements t) (ft_attachments t) (ft_printjobs t).

Section precaching.
Context {B W : Type} `{FileCacherBackend B W} (temp_name : gset string → string).

(** [Worker.precache_files], with the files that the session sees: a worker
    that does not get the lock leaves it to the one that has it; the lock is
    released however the caching ends. *)
Definition precache (files : gset string) : prog (Cacher B) unit :=
  lock ← precache_lock;
  match lock with
  | None => mret tt
  | Some _ =>
      on_result (λ r, _ ← act (modify (set_lock false)); Done r)
        (prog_for_acc (λ _ digest,
           prog_try (λ e, bool_decide (e = KeyError)) (cache_file temp_name digest) (mret tt)) tt (elements files))
  end.

(** A contest that does not exist is [None], which stands for all. *)
Definition precache_files (t : FileTables) (contest_id : Z) : prog (Cacher B) unit :=
  let contest := co_id <$> head (filter (λ c, co_id c = contest_id) (db_contests (ft_db t))) in
  precache (enumerate_files t contest true true false true false).
End precaching.

Section files.
Context (lo_creat : gset Z → Z).
#[local] Instance backend : FileCacherBackend DB.Rows Z := DB.DBBackend lo_creat.
Abbreviation Storage := (Cacher DB.Rows).

(** [found_digests] is what the session sees; the order in which Python walks
    the set of orphans is that of [elements]. *)
Definition clean_files (found_digests : gset string) (dry_run : bool) : prog Storage unit :=
  listed ← cacher_list;
  let files := elements (list_to_set (C := gset string) listed.*1 ∖ found_digests) in
  total_size ← prog_for_acc (λ total_size orphan,
    size ← cacher_get_size orphan; mret (total_size + size)%nat) 0%nat files;
  if dry_run then mret tt else prog_for_acc (λ _ orphan, delete orphan) tt files.

(** What is left of the tables and of the storage. The tombstones are only
    sent to the database when the session is committed: [make_tombstone] does
    not flush it, and [session.execute] (in the 1.3 releases of SQLAlchemy,
    which requirements.txt asks for) does not flush it either, unlike the
    queries of the session. So the digests found are those of the rows as they
    were. *)
Definition main (tombstone dry_run : bool) (t : FileTables) (b : DB.Rows) : res unit * (FileTables * DB.Rows) :=
  let t' := if tombstone then make_tombstone t else t in
  match run (clean_files (enumerate_files t None false false false false false) dry_run) (new_cacher b None ∅) with
  | (Ok _, c) => (Ok tt, (if dry_run then t else t', storage c))
  | (r, c) => (r, (t, storage c))
  end.

(** ** What deleting does *)

(** The rows of the storage are sound: each has its own large object. *)
Record rows_sound (b : DB.Rows) : Prop := {
  rs_object d fso : DB.fsobjects b !! d = Some fso → DB.loid fso ≠ 0%Z ∧ is_Some (DB.lobjects b !! DB.loid fso);
  rs_own d1 d2 f1 f2 : DB.fsobjects b !! d1 = Some f1 → DB.fsobjects b !! d2 = Some f2 →
    DB.loid f1 = DB.loid f2 → d1 = d2;
}.

(** The files [gone] have been removed with their large objects. *)
Record cleaned (gone : gset string) (b b' : DB.Rows) : Prop := {
  cl_gone d : d ∈ gone → DB.fsobjects b' !! d = None;
  cl_kept d : d ∉ gone → DB.fsobjects b' !! d = DB.fsobjects b !! d;
  cl_content d fso : DB.fsobjects b' !! d = Some fso → DB.lobjects b' !! DB.loid fso = DB.lobjects b !! DB.loid fso;
  cl_objects l : is_Some (DB.lobjects b' !! l) →
    is_Some (DB.lobjects b !! l) ∧ ∀ d fso, d ∈ gone → DB.fsobjects b !! d = Some fso → DB.loid fso ≠ l;
}.

Lemma cleaned_sub gone b b' d fso :
  cleaned gone b b' → DB.fsobjects b' !! d = Some fso → (d ∉ gone) ∧ DB.fsobjects b !! d = Some fso.
Proof.
  intros Hc Hf. destruct (decide (d ∈ gone)) as [Hd|Hd].
  - rewrite (cl_gone _ _ _ Hc d Hd) in Hf. done.
  - by rewrite (cl_kept _ _ _ Hc d Hd) in Hf.
Qed.

Lemma cleaned_refl b : cleaned ∅ b b.
Proof. split; [set_solver|done|done|]. intros l Hl. split; [done|]. intros d fso Hd. by apply elem_of_empty in Hd. Qed.

Lemma cleaned_trans g1 g2 b b1 b2 : cleaned g1 b b1 → cleaned g2 b1 b2 → cleaned (g1 ∪ g2) b b2.
Proof.
  intros H1 H2. split.
  - intros d Hd. destruct (DB.fsobjects b2 !! d) as [fso|] eqn:Hf; [|done].
    apply (cleaned_sub g2 b1 b2) in Hf as [Hn Hf]; [|done]. apply (cleaned_sub g1 b b1) in Hf as [Hn1 _]; [|done].
    set_solver.
  - intros d Hd. rewrite (cl_kept _ _ _ H2), (cl_kept _ _ _ H1); [done|set_solver..].
  - intros d fso Hf. rewrite (cl_content _ _ _ H2 d fso Hf). apply (cleaned_sub g2 b1 b2) in Hf as [_ Hf]; [|done].
    by apply (cl_content _ _ _ H1 d).
  - intros l Hl. destruct (cl_objects _ _ _ H2 l Hl) as [Hl1 Hg2], (cl_objects _ _ _ H1 l Hl1) as [Hl0 Hg1].
    split; [done|]. intros d fso Hd Hf. destruct (decide (d ∈ g1)) as [Hd1|Hd1]; [by apply (Hg1 d)|].
    apply (Hg2 d); [set_solver|]. by rewrite (cl_kept _ _ _ H1 d Hd1).
Qed.

Lemma cleaned_sound gone b b' : cleaned gone b b' → rows_sound b → rows_sound b'.
Proof.
  intros Hc [Ho Hu]. split.
  - intros d fso Hf. rewrite (cl_content _ _ _ Hc d fso Hf).
    apply (cleaned_sub gone b b') in Hf as [_ Hf]; [by apply (Ho d)|done].
  - intros d1 d2 f1 f2 [_ H1]%(cleaned_sub gone b b'); [|done]. intros [_ H2]%(cleaned_sub gone b b'); [|done]. by apply Hu.
Qed.

Definition remove_row (d : string) (l : Z) (b : DB.Rows) : DB.Rows :=
  DB.with_fsobjects (base.delete d) (DB.with_lobjects (base.delete l) b).

Lemma remove_row_cleaned d fso b :
  rows_sound b → DB.fsobjects b !! d = Some fso → cleaned {[d]} b (remove_row d (DB.loid fso) b).
Proof.
  intros [Ho Hu] Hd. unfold remove_row, DB.with_fsobjects, DB.with_lobjects. split; cbn.
  - intros d' ->%elem_of_singleton. by rewrite lookup_delete_eq.
  - intros d' Hd'. rewrite lookup_delete_ne; [done|set_solver].
  - intros d' fso' [Hne Hf]%lookup_delete_Some. rewrite lookup_delete_ne; [done|].
    intros Heq. apply Hne. by apply (Hu d d' fso fso').
  - intros l [x [Hne Hx]%lookup_delete_Some]. split; [by eexists|]. intros d' fso' ->%elem_of_singleton Hf. congruence.
Qed.

Lemma run_ok {S A A'} (p : prog S A) (k : A → prog S A') s a s1 :
  run p s = (Ok a, s1) → run (p ≫= k) s = run (k a) s1.
Proof. intros Hp. rewrite run_bind. unfold mbind, M_bind. by rewrite Hp. Qed.

Lemma run_on_backend {A} (p : prog DB.Rows A) (c : Storage) r b :
  run p (storage c) = (r, b) → run (on_backend p) c = (r, set_storage b c).
Proof.
  intros Hp. unfold on_backend. rewrite run_zoom; [|done|done|by intros []]. unfold zoom. by rewrite Hp.
Qed.

Lemma run_list (c : Storage) :
  run cacher_list c =
    (Ok ((λ x : string * DB.FSObject, (x.1, DB.description x.2)) <$> map_to_list (DB.fsobjects (storage c))), c).
Proof. by destruct c as [[] ? ? ? ?]. Qed.

Lemma run_drop d (c : Storage) :
  d ≠ TOMBSTONE → is_Some (file_dir c) →
  ∃ c', run (drop d) c = (Ok tt, c') ∧ storage c' = storage c ∧ is_Some (file_dir c') ∧ temp_dir c' = temp_dir c.
Proof.
  intros Ht [f Hf]. unfold drop. rewrite bool_decide_eq_false_2, run_try by done.
  unfold try_except. rewrite run_act. unfold unlink_cached, cached. rewrite Hf. cbn. destruct (f !! d); by eexists.
Qed.

(** Deleting the file of a row. *)
Lemma run_delete (c : Storage) d fso :
  rows_sound (storage c) → DB.fsobjects (storage c) !! d = Some fso → d ≠ TOMBSTONE → is_Some (file_dir c) →
  ∃ c', run (delete d) c = (Ok tt, c') ∧ cleaned {[d]} (storage c) (storage c') ∧ is_Some (file_dir c').
Proof.
  intros Hs Hd Ht Hf. destruct (run_drop d c Ht Hf) as (c1 & H1 & Hst & Hf1 & _).
  destruct (rs_object _ Hs d fso Hd) as [_ [x Hx]]. unfold delete. rewrite bool_decide_eq_false_2 by done.
  rewrite (run_ok _ _ _ _ _ H1). exists (set_storage (remove_row d (DB.loid fso) (storage c)) c1). split_and!.
  - apply run_on_backend. rewrite Hst. unfold delete_file, backend, DB.DBBackend, DB.delete_file.
    rewrite (run_ok _ _ _ (Some fso) (storage c)) 
      by (rewrite run_act; unfold DB.get_from_digest, gets; by rewrite Hd).
    rewrite (run_ok _ _ _ tt (DB.with_lobjects (base.delete (DB.loid fso)) (storage c))); [done|].
    rewrite run_act. unfold DB.unlink_lobject. by rewrite Hx.
  - by apply remove_row_cleaned.
  - done.
Qed.

Lemma run_deletes (c : Storage) l :
  rows_sound (storage c) → (∀ d, d ∈ l → is_Some (DB.fsobjects (storage c) !! d) ∧ d ≠ TOMBSTONE) → NoDup l →
  is_Some (file_dir c) →
  ∃ c', run (prog_for_acc (λ _ orphan, delete orphan) tt l) c = (Ok tt, c') ∧
    cleaned (list_to_set l) (storage c) (storage c').
Proof.
  revert c. induction l as [|d l IH]; intros c Hs Hl Hn Hf.
  - exists c. split; [done|apply cleaned_refl].
  - apply NoDup_cons in Hn as [Hd Hn]. destruct (Hl d ltac:(by left)) as [[fso Hfso] Ht].
    destruct (run_delete c d fso Hs Hfso Ht Hf) as (c1 & H1 & Hc1 & Hf1).
    destruct (IH c1) as (c2 & H2 & Hc2); [by eapply cleaned_sound| |done|done|].
    + intros d' Hd'. rewrite (cl_kept _ _ _ Hc1) by set_solver. apply Hl. by right.
    + exists c2. cbn [prog_for_acc]. rewrite (run_ok _ _ _ _ _ H1). split; [done|]. by eapply cleaned_trans.
Qed.

Lemma run_get_size (c : Storage) d fso :
  rows_sound (storage c) → DB.fsobjects (storage c) !! d = Some fso → d ≠ TOMBSTONE →
  ∃ n, run (cacher_get_size d) c = (Ok n, c).
Proof.
  intros Hs Hd Ht. destruct (rs_object _ Hs d fso Hd) as [Hz [x Hx]]. exists (String.length x).
  unfold cacher_get_size, check_tombstone. rewrite bool_decide_eq_false_2 by done.
  replace c with (set_storage (storage c) c) at 2 by (by destruct c). apply run_on_backend.
  unfold get_size, backend, DB.DBBackend, DB.get_size, DB.found, DB.get_lobject. cbn. rewrite Hd. cbn.
  rewrite bool_decide_eq_false_2 by done. cbn. by rewrite Hx.
Qed.

Lemma run_sizes (c : Storage) n l :
  rows_sound (storage c) → (∀ d, d ∈ l → is_Some (DB.fsobjects (storage c) !! d) ∧ d ≠ TOMBSTONE) →
  ∃ n', run (prog_for_acc (λ total_size orphan, size ← cacher_get_size orphan; mret (total_size + size)%nat) n l) c
    = (Ok n', c).
Proof.
  intros Hs. revert n. induction l as [|d l IH]; intros n Hl; [by exists n|]. cbn [prog_for_acc].
  destruct (Hl d ltac:(by left)) as [[fso Hfso] Ht]. destruct (run_get_size c d fso Hs Hfso Ht) as (k & Hk).
  destruct (IH (n + k)) as (n' & Hn'); [intros d' Hd'; apply Hl; by right|]. exists n'.
  rewrite (run_ok _ _ _ (n + k) c); [done|]. by rewrite (run_ok _ _ _ _ _ Hk).
Qed.

(** C14. When the storage is sound, CleanFiles ends without an exception. In a
    dry run nothing changes. Otherwise exactly the files whose digest no row
    of a contest referred to before it started are gone, with their large
    objects: the files that were referred to have the content they had, and
    what was the large object of a row that is gone is no more. When tombstones
    were asked for the executables are replaced by them in the rows, but their
    files are still there, for the next run to delete. *)
Theorem clean_files_exact (tombstone dry_run : bool) (t : FileTables) (b : DB.Rows) :
  rows_sound b → DB.fsobjects b !! TOMBSTONE = None →
  let t' := if tombstone then make_tombstone t else t in
  let found := enumerate_files t None false false false false false in
  ∃ b', main tombstone dry_run t b = (Ok tt, (if dry_run then t else t', b')) ∧
    rows_sound b' ∧
    (dry_run = true → b' = b) ∧
    (dry_run = false →
      (∀ d, d ∈ found → DB.fsobjects b' !! d = DB.fsobjects b !! d ∧
        ∀ fso, DB.fsobjects b !! d = Some fso → DB.lobjects b' !! DB.loid fso = DB.lobjects b !! DB.loid fso) ∧
      (∀ d, d ∉ found → DB.fsobjects b' !! d = None ∧
        ∀ fso, DB.fsobjects b !! d = Some fso → DB.lobjects b' !! DB.loid fso = None)).
Proof.
  intros Hs Ht t' found. set (c := new_cacher b None ∅).
  set (listed := map_to_list (DB.fsobjects b)).
  set (files := elements (list_to_set (C := gset string) listed.*1 ∖ found)).
  assert (∀ d, d ∈ files ↔ is_Some (DB.fsobjects b !! d) ∧ d ∉ found) as Hfiles.
  { intros d. subst files. rewrite elem_of_elements, elem_of_difference, elem_of_list_to_set.
    subst listed. rewrite list_elem_of_fmap. setoid_rewrite <- elem_of_dom. rewrite elem_of_dom. split.
    - intros [([d' fso] & -> & Hin%elem_of_map_to_list) Hn]. split; [by eexists|done].
    - intros [[fso Hf] Hn]. split; [|done]. exists (d, fso). split; [done|]. by apply elem_of_map_to_list. }
  assert (∀ d, d ∈ files → is_Some (DB.fsobjects (storage c) !! d) ∧ d ≠ TOMBSTONE) as Hok.
  { intros d [Hd Hn]%Hfiles. split; [done|]. intros ->. rewrite Ht in Hd. by destruct Hd. }
  destruct (run_sizes c 0 files Hs Hok) as (n & Hn).
  destruct (run_deletes c files Hs Hok (NoDup_elements _) ltac:(by eexists)) as (c' & Hdel & Hc).
  assert (run (clean_files found dry_run) c = (Ok tt, if dry_run then c else c')) as Hrun.
  { unfold clean_files. rewrite (run_ok _ _ _ _ _ (run_list c)). change (map_to_list _) with listed.
    rewrite <- list_fmap_compose. fold files. change (fst ∘ _) with (@fst string DB.FSObject).
    rewrite (run_ok _ _ _ _ _ Hn). by destruct dry_run. }
  exists (if dry_run then b else storage c'). unfold main. fold t' found. fold c. rewrite Hrun.
  split; [by destruct dry_run|]. split; [destruct dry_run; [done|by eapply cleaned_sound]|].
  split; [by intros ->|]. intros ->. split.
  - intros d Hd. assert (d ∉ (list_to_set files : gset string)) as Hn' by (rewrite elem_of_list_to_set, Hfiles; tauto).
    pose proof (cl_kept _ _ _ Hc d Hn') as Hkept. split; [done|]. intros fso Hf.
    apply (cl_content _ _ _ Hc d). by rewrite Hkept.
  - intros d Hd. assert (DB.fsobjects (storage c') !! d = None) as Hgone.
    { destruct (DB.fsobjects (storage c') !! d) as [fso|] eqn:Hf; [|done].
      apply (cleaned_sub _ _ _ _ _ Hc) in Hf as [Hno Hf]. destruct Hno. apply elem_of_list_to_set, Hfiles.
      split; [by eexists|done]. }
    split; [done|]. intros fso Hf. destruct (DB.lobjects (storage c') !! DB.loid fso) eqn:Hl; [|done].
    destruct (cl_objects _ _ _ Hc (DB.loid fso) ltac:(by eexists)) as [_ Hno]. destruct (Hno d fso); [|done|done].
    apply elem_of_list_to_set, Hfiles. split; [by eexists|done].
Qed.

(** ** The check of the contents *)

Context (sha1 : bytes → bytes).

Definition wrong (b : DB.Rows) (d : string) : bool :=
  match file_of b d with
  | Some x => bool_decide (d ≠ bytes_digest sha1 x)
  | None => false
  end.

Lemma run_get_file (c : Storage) d fso x :
  DB.fsobjects (storage c) !! d = Some fso → DB.loid fso ≠ 0%Z → DB.lobjects (storage c) !! DB.loid fso = Some x →
  run (on_backend (get_file d)) c = (Ok x, c).
Proof.
  intros Hd Hz Hx. replace c with (set_storage (storage c) c) at 2 by (by destruct c). apply run_on_backend.
  unfold get_file, backend, DB.DBBackend, DB.get_file, DB.found, DB.get_lobject. cbn. rewrite Hd. cbn.
  rewrite bool_decide_eq_false_2 by done. cbn. by rewrite Hx.
Qed.

(** One file: it is deleted if it is wrong, and that was asked for. *)
Lemma run_check_file del clean d fso (c : Storage) :
  rows_sound (storage c) → DB.fsobjects (storage c) !! d = Some fso → d ≠ TOMBSTONE → is_Some (file_dir c) →
  ∃ c', run (check_file sha1 del clean d) c = (Ok (clean && negb (wrong (storage c) d)), c') ∧
    cleaned (if del && wrong (storage c) d then {[d]} else ∅) (storage c) (storage c') ∧ is_Some (file_dir c').
Proof.
  intros Hs Hd Ht Hf. destruct (rs_object _ Hs d fso Hd) as [Hz [x Hx]].
  assert (file_of (storage c) d = Some x) as Hfile by (unfold file_of; by rewrite Hd).
  unfold check_file. rewrite (run_ok _ _ _ _ _ (run_get_file c d fso x Hd Hz Hx)).
  rewrite digest_chunks_ok by (unfold CHUNK_SIZE; lia).
  rewrite (run_ok _ _ _ (digester_update new_digester x) c) by done.
  unfold wrong. rewrite Hfile. change (digester_digest sha1 (digester_update new_digester x)) with (bytes_digest sha1 x).
  case_bool_decide as Hw; cbn [negb]; rewrite ?andb_true_r, ?andb_false_r.
  - destruct del.
    + destruct (run_delete c d fso Hs Hd Ht Hf) as (c' & Hdel & Hc & Hf'). exists c'.
      by rewrite (run_ok _ _ _ _ _ Hdel).
    + exists c. split_and!; [done|apply cleaned_refl|done].
  - exists c. split_and!; [done|apply cleaned_refl|done].
Qed.

Lemma wrong_kept gone b b' d : cleaned gone b b' → d ∉ gone → wrong b' d = wrong b d.
Proof.
  intros Hc Hd. unfold wrong, file_of. rewrite (cl_kept _ _ _ Hc d Hd).
  destruct (DB.fsobjects b !! d) as [fso|] eqn:Hf; [|done]. cbn.
  rewrite (cl_content _ _ _ Hc d fso); [done|]. by rewrite (cl_kept _ _ _ Hc d Hd).
Qed.

Lemma run_check_files del clean l (c : Storage) :
  rows_sound (storage c) → (∀ d, d ∈ l → is_Some (DB.fsobjects (storage c) !! d) ∧ d ≠ TOMBSTONE) → NoDup l →
  is_Some (file_dir c) →
  ∃ c', run (prog_for_acc (check_file sha1 del) clean l) c
      = (Ok (clean && forallb (λ d, negb (wrong (storage c) d)) l), c') ∧
    cleaned (list_to_set (filter (λ d, del && wrong (storage c) d) l)) (storage c) (storage c').
Proof.
  revert clean c. induction l as [|d l IH]; intros clean c Hs Hl Hn Hf.
  - exists c. cbn. rewrite andb_true_r. split; [done|apply cleaned_refl].
  - apply NoDup_cons in Hn as [Hd Hn]. destruct (Hl d ltac:(by left)) as [[fso Hfso] Ht].
    destruct (run_check_file del clean d fso c Hs Hfso Ht Hf) as (c1 & H1 & Hc1 & Hf1).
    assert (∀ d', d' ∈ l → d' ∉ (if del && wrong (storage c) d then {[d]} else ∅ : gset string)) as Hother.
    { intros d' Hd' Hin. assert (d' = d) as -> by (case_match; set_solver). done. }
    destruct (IH (clean && negb (wrong (storage c) d)) c1) as (c2 & H2 & Hc2); [by eapply cleaned_sound| |done|done|].
    + intros d' Hd'. rewrite (cl_kept _ _ _ Hc1) by (by apply Hother). apply Hl. by right.
    + assert (∀ d', d' ∈ l → wrong (storage c1) d' = wrong (storage c) d') as Hsame
        by (intros d' Hd'; apply (wrong_kept _ _ _ _ Hc1); by apply Hother).
      exists c2. cbn [prog_for_acc forallb]. rewrite (run_ok _ _ _ _ _ H1), H2. split.
      * do 2 f_equal. rewrite <- andb_assoc. f_equal. f_equal. clear -Hsame.
        induction l as [|x l IH]; [done|]. cbn. rewrite Hsame by (by left). f_equal. apply IH. intros y Hy. apply Hsame. by right.
      * rewrite (filter_ext_elem _ (λ d, Is_true (del && wrong (storage c) d))) in Hc2
          by (intros x Hx; by rewrite Hsame).
        pose proof (cleaned_trans _ _ _ _ _ Hc1 Hc2) as Hc. rewrite filter_cons.
        destruct (del && wrong (storage c) d) eqn:Hw; cbn.
        -- exact Hc.
        -- by rewrite union_empty_l_L in Hc.
Qed.

(** [check_backend_integrity] ends without an exception on a sound
    storage, and answers whether every file has the digest it is stored
    under; when asked to delete, exactly the files that have another one are
    gone, with their large objects, and the others have kept their content. *)
Theorem integrity_check_exact (del : bool) (c : Storage) :
  rows_sound (storage c) → DB.fsobjects (storage c) !! TOMBSTONE = None → is_Some (file_dir c) →
  ∃ clean c', run (check_backend_integrity sha1 del) c = (Ok clean, c') ∧
    (clean = true ↔ ∀ d x, file_of (storage c) d = Some x → bytes_digest sha1 x = d) ∧
    (∀ d, file_of (storage c') d =
      match file_of (storage c) d with
      | Some x => if decide (del = true ∧ bytes_digest sha1 x ≠ d) then None else Some x
      | None => None
      end).
Proof.
  intros Hs Ht Hf. set (l := (map_to_list (DB.fsobjects (storage c))).*1).
  assert (∀ d, d ∈ l ↔ is_Some (DB.fsobjects (storage c) !! d)) as Hl.
  { intros d. subst l. rewrite list_elem_of_fmap. split.
    - intros ([d' fso] & -> & Hin%elem_of_map_to_list). by eexists.
    - intros [fso Hfso]. exists (d, fso). split; [done|]. by apply elem_of_map_to_list. }
  destruct (run_check_files del true l c Hs) as (c' & Hrun & Hc); [|apply NoDup_fst_map_to_list|done|].
  { intros d Hd%Hl. split; [done|]. intros ->. rewrite Ht in Hd. by destruct Hd. }
  assert (∀ d x, file_of (storage c) d = Some x → (wrong (storage c) d = true ↔ bytes_digest sha1 x ≠ d) ∧ d ∈ l) as Hw.
  { intros d x Hx. split.
    - unfold wrong. rewrite Hx, bool_decide_eq_true. split; congruence.
    - apply Hl. unfold file_of in Hx. destruct (DB.fsobjects (storage c) !! d); [by eexists|done]. }
  eexists _, c'. split_and!.
  - unfold check_backend_integrity. rewrite (run_ok _ _ _ _ _ (run_list c)).
    rewrite <- list_fmap_compose. change (fst ∘ _) with (@fst string DB.FSObject). exact Hrun.
  - cbn. rewrite forallb_forall. split.
    + intros Hall d x Hx. destruct (Hw d x Hx) as [Hwd Hd]. apply list_elem_of_In in Hd. apply Hall in Hd.
      destruct (decide (bytes_digest sha1 x = d)) as [|Hne]; [done|]. apply Hwd in Hne. by rewrite Hne in Hd.
    + intros Hall d Hd. destruct (wrong (storage c) d) eqn:Hwd; [|done]. unfold wrong in Hwd.
      destruct (file_of (storage c) d) as [x|] eqn:Hx; [|done]. apply bool_decide_eq_true in Hwd. by rewrite (Hall d x Hx) in Hwd.
  - intros d. unfold file_of at 1. destruct (decide (d ∈ (list_to_set (filter (λ d, del && wrong (storage c) d) l) : gset string))) as [Hd|Hd].
    + rewrite (cl_gone _ _ _ Hc d Hd). cbn. apply elem_of_list_to_set, list_elem_of_filter in Hd as [[-> Hwd]%Is_true_true%andb_prop Hd].
      destruct (file_of (storage c) d) as [x|] eqn:Hx; [|done]. rewrite decide_True; [done|].
      split; [done|]. by apply (Hw d x Hx).
    + rewrite (cl_kept _ _ _ Hc d Hd). unfold file_of at 1. destruct (DB.fsobjects (storage c) !! d) as [fso|] eqn:Hfso; [|done].
      cbn. rewrite (cl_content _ _ _ Hc d fso) by (by rewrite (cl_kept _ _ _ Hc d Hd)).
      destruct (DB.lobjects (storage c) !! DB.loid fso) as [x|] eqn:Hx; [|done]. rewrite decide_False; [done|].
      intros [-> Hne]. destruct (Hw d x) as [Hwd Hin]; [unfold file_of; by rewrite Hfso|].
      apply Hd, elem_of_list_to_set, list_elem_of_filter. split; [|done]. apply Is_true_true. cbn. by apply Hwd.
Qed.
End files.

(** A task without a contest, a submission of the other one that has been
    compiled, and a file that does not have its digest. *)
Definition demo_task (i : Z) (contest : option Z) : Task :=
  mkTask i contest None 0 "" "max" 0 false "" None [] no_limits.
Definition demo_result : SubmissionResult :=
  with_executables (λ _, [("prog", "d3")]) (SR.new 1 1).
Definition demo_tables : FileTables :=
  mkFileTables (mkDb [mkContest 1 0 10 [] "" "" 0 no_limits] [] [demo_task 1 (Some 1%Z); demo_task 2 None]
    [] [] [mkSubmission 1 1 1 100 None true None None] [] [demo_result] [] [] [] [] [] [] [] []) [mkStatement 1 "en" "d1"; mkStatement 2 "en" "d2"] [] [].
Definition demo_rows : DB.Rows :=
  DB.mkRows (<["d1" := DB.mkFSObject 5 None]> (<["d2" := DB.mkFSObject 6 None]> (<["d3" := DB.mkFSObject 7 None]> ∅)))
    (<[5%Z := "one"]> (<[6%Z := "two"]> (<[7%Z := "three"]> ∅))) ∅.

Lemma demo_rows_sound : rows_sound demo_rows.
Proof.
  split; cbn.
  - intros d fso Hf. repeat (apply lookup_insert_Some in Hf as [[<- <-]|[_ Hf]]; [by split; [|eexists]|]).
    by apply lookup_empty_Some in Hf.
  - intros d1 d2 f1 f2 H1 H2.
    repeat (apply lookup_insert_Some in H1 as [[<- <-]|[_ H1]];
      [by repeat (apply lookup_insert_Some in H2 as [[<- <-]|[_ H2]]; [done|])|]).
    by apply lookup_empty_Some in H1.
Qed.

(** Asked for tombstones, the program writes them in the rows but leaves the
    file of the executable; run again, it deletes it. *)
Example tombstones_then_files :
  let run1 := (main demo_oid true false demo_tables demo_rows).2 in
  let run2 := (main demo_oid false false run1.1 run1.2).2 in
  (sr_executables <$> db_submission_results (ft_db run1.1)) = [[("prog", TOMBSTONE)]] ∧
  is_Some (DB.fsobjects run1.2 !! "d3") ∧ DB.fsobjects run2.2 !! "d3" = None.
Proof. split_and!; [vm_compute; reflexivity|eexists; vm_compute; reflexivity|vm_compute; reflexivity]. Qed.

Lemma clean_files_exact_witness :
  ∃ b', main demo_oid false false demo_tables demo_rows = (Ok tt, (demo_tables, b')) ∧
    DB.fsobjects b' !! "d1" = Some (DB.mkFSObject 5 None) ∧ DB.lobjects b' !! 5%Z = Some "one" ∧
    DB.fsobjects b' !! "d2" = None ∧ DB.lobjects b' !! 6%Z = None.
Proof.
  destruct (clean_files_exact demo_oid false false demo_tables demo_rows demo_rows_sound eq_refl)
    as (b' & Hm & _ & _ & Hb). exists b'. split; [exact Hm|]. destruct (Hb eq_refl) as [Hin Hout].
  destruct (Hin "d1") as [H1 H2]; [by vm_compute|].
  destruct (Hout "d2") as [H3 H4]; [by vm_compute|].
  split_and!; [rewrite H1; reflexivity|apply (H2 (DB.mkFSObject 5 None)); reflexivity|exact H3|].
  apply (H4 (DB.mkFSObject 6 None)); reflexivity.
Defined.

Lemma integrity_check_exact_witness :
  ∃ clean c', run (@check_backend_integrity DB.Rows Z (DB.DBBackend demo_oid) demo_sha1 true)
      (new_cacher demo_rows None ∅) = (Ok clean, c') ∧ clean = false ∧ file_of (storage c') "d1" = None.
Proof.
  destruct (integrity_check_exact demo_oid demo_sha1 true (new_cacher demo_rows None ∅) demo_rows_sound eq_refl)
    as (clean & c' & Hrun & Hclean & Hfiles); [by eexists|].
  exists clean, c'. split_and!; [exact Hrun| |].
  - destruct clean; [|done]. pose proof (proj1 Hclean eq_refl "d1" "one" eq_refl) as Hd. by vm_compute in Hd.
  - rewrite (Hfiles "d1"). vm_compute. reflexivity.
Defined.
