(* ===== verification/SubmissionCheck.v ===== *)
(** * Limits on submissions and user tests (cms/server/contest/submission/check.py)

    The number of submissions (or user tests) that a participation sent on a
    task or on a contest, and the time of the latest of them, against the
    limits of that task or contest. [Sent] is what the functions need of their
    argument [cls]. Datetimes and timedeltas are numbers of microseconds. *)

From S2P Require Import Prelude Database.

Local Open Scope Z_scope.

Class Sent (R : Type) := {
  sent_rows : Db → list R;
  sent_participation_id : R → Z;
  sent_task_id : R → Z;
  sent_timestamp : R → Z;
}.

#[export] Instance submission_sent : Sent Submission := {
  sent_rows := db_submissions;
  sent_participation_id := sub_participation_id;
  sent_task_id := sub_task_id;
  sent_timestamp := sub_timestamp;
}.

#[export] Instance user_test_sent : Sent UserTest := {
  sent_rows := db_user_tests;
  sent_participation_id := ut_participation_id;
  sent_task_id := ut_task_id;
  sent_timestamp := ut_timestamp;
}.

Section check.
Context (R : Type) `{Sent R} (db : Db).

(** [r.task.contest] is the contest. *)
Definition of_contest (contest : Z) (r : R) : bool :=
  existsb (λ t, bool_decide (task_id t = sent_task_id r) && bool_decide (task_contest_id t = Some contest)) (db_tasks db).

(** The rows that the filtered query selects; a contest is its id. *)
Definition _filter_submission_query (participation : Participation) (contest : option Z) (task : option Task)
    : res (list R) :=
  rows ← match task, contest with
         | Some t, Some c =>
             if bool_decide (task_contest_id t ≠ Some c) then Raise ValueError
             else Ok (filter (λ r, sent_task_id r = task_id t) (sent_rows db))
         | Some t, None => Ok (filter (λ r, sent_task_id r = task_id t) (sent_rows db))
         | None, Some c => Ok (filter (λ r, of_contest c r) (sent_rows db))
         | None, None => Raise ValueError
         end;
  Ok (filter (λ r, sent_participation_id r = pa_id participation) rows).

Definition get_submission_count (participation : Participation) (contest : option Z) (task : option Task) : res Z :=
  rows ← _filter_submission_query participation contest task; Ok (Z.of_nat (length rows)).

Definition check_max_number (max_number : option Z) (participation : Participation) (contest : option Z)
    (task : option Task) : res bool :=
  match max_number with
  | None => Ok true
  | Some max_number =>
      if pa_unrestricted participation then Ok true
      else count ← get_submission_count participation contest task; Ok (count <? max_number)
  end.

(** The first of [order_by(desc(timestamp))]; of equal ones the database may
    give any, here it is the one that comes first in the table. *)
Fixpoint latest (l : list R) : option R :=
  match l with
  | [] => None
  | r :: l =>
      match latest l with
      | Some r' => Some (if sent_timestamp r <? sent_timestamp r' then r' else r)
      | None => Some r
      end
  end.

Definition get_latest_submission (participation : Participation) (contest : option Z) (task : option Task)
    : res (option R) :=
  rows ← _filter_submission_query participation contest task; Ok (latest rows).

Definition check_min_interval (min_interval : option Z) (timestamp : Z) (participation : Participation)
    (contest : option Z) (task : option Task) : res bool :=
  match min_interval with
  | None => Ok true
  | Some min_interval =>
      if pa_unrestricted participation then Ok true
      else
        submission ← get_latest_submission participation contest task;
        Ok (match submission with
            | None => true
            | Some s => min_interval <=? timestamp - sent_timestamp s
            end)
  end.
End check.
Arguments check_max_number R {_} db max_number participation contest task.
Arguments check_min_interval R {_} db min_interval timestamp participation contest task.
Arguments get_latest_submission R {_} db participation contest task.
Arguments latest {R _} l.

(** ** What the checks decide *)

Section checked.
Context {R : Type} `{Sent R}.

Lemma latest_in (l : list R) r : latest l = Some r → r ∈ l.
Proof.
  revert r. induction l as [|x l IH]; intros r; [done|]. cbn. destruct (latest l) as [y|] eqn:Hy.
  - intros [= <-]. case_match; [right; by apply IH|by left].
  - intros [= <-]. by left.
Qed.

Lemma latest_max (l : list R) r x : latest l = Some r → x ∈ l → sent_timestamp x ≤ sent_timestamp r.
Proof.
  revert r x. induction l as [|y l IH]; intros r x Hl Hx; [by apply elem_of_nil in Hx|].
  cbn in Hl. apply elem_of_cons in Hx as [->|Hx].
  - destruct (latest l) as [z|]; injection Hl as <-; [|lia]. destruct (Z.ltb_spec (sent_timestamp y) (sent_timestamp z)); lia.
  - destruct (latest l) as [z|] eqn:Hz.
    + specialize (IH z x eq_refl Hx). injection Hl as <-.
      destruct (Z.ltb_spec (sent_timestamp y) (sent_timestamp z)); lia.
    + destruct l as [|w l]; [by apply elem_of_nil in Hx|]. cbn in Hz. by destruct (latest l).
Qed.

Lemma latest_None (l : list R) : latest l = None → l = [].
Proof. destruct l; [done|]. cbn. by destruct (latest l). Qed.

(** The rows of a participation on a task, or on the tasks of a contest. *)
Definition sent_on_task (db : Db) (p t : Z) : list R :=
  filter (λ r, sent_participation_id r = p) (filter (λ r, sent_task_id r = t) (sent_rows db)).
Definition sent_in_contest (db : Db) (p c : Z) : list R :=
  filter (λ r, sent_participation_id r = p) (filter (λ r, of_contest R db c r) (sent_rows db)).

Lemma check_max_ok db m p c t l :
  _filter_submission_query R db p c t = Ok l → pa_unrestricted p = false →
  check_max_number R db (Some m) p c t = Ok (Z.of_nat (length l) <? m).
Proof. intros Hq Hu. unfold check_max_number, get_submission_count. by rewrite Hu, Hq. Qed.

Lemma check_interval_ok db m now p c t l :
  _filter_submission_query R db p c t = Ok l → pa_unrestricted p = false →
  ∃ b, check_min_interval R db (Some m) now p c t = Ok b ∧
    (b = true ↔ ∀ r, r ∈ l → m ≤ now - sent_timestamp r).
Proof.
  intros Hq Hu. unfold check_min_interval, get_latest_submission. rewrite Hu, Hq. cbn. eexists. split; [done|].
  destruct (latest l) as [s|] eqn:Hs.
  - rewrite Z.leb_le. split.
    + intros Hm r Hr. pose proof (latest_max l s r Hs Hr). lia.
    + intros Hall. apply Hall. by apply latest_in.
  - apply latest_None in Hs as ->. split; [intros _ r Hr; by apply elem_of_nil in Hr|done].
Qed.
End checked.
