(* ===== verification/Archive.v ===== *)
(** * Archives (cmscommon/archive.py)

    An archive that was received is written to a temporary file, recognised
    and unpacked to a temporary directory by patool, read, and cleaned up.
    patool is a parameter; the state is what is under the configured
    temporary directory, with the files of a directory in the order in which
    [os.walk] finds them. Packing is not modelled. *)

From S2P Require Import Prelude PyString FileStorage.

Local Open Scope string_scope.
Local Open Scope list_scope.

Definition ArchiveException : exn := UserError "ArchiveException".
Definition PatoolError : exn := UserError "PatoolError".
Definition NotImplementedError : exn := UserError "NotImplementedError".

(** patool: whether it recognises the file at a path, and what it leaves in
    the directory when it extracts it, also when it fails. *)
Class Patool := {
  test_archive : string → option bytes → res unit;
  extract_archive : string → option bytes → res unit * list (string * bytes);
}.

Record Disk : Type := mkDisk {
  disk_files : gmap string bytes;
  disk_dirs : gmap string (list (string * bytes));
}.
Definition set_files (f : gmap string bytes → gmap string bytes) (d : Disk) : Disk := mkDisk (f (disk_files d)) (disk_dirs d).
Definition set_dirs f (d : Disk) : Disk := mkDisk (disk_files d) (f (disk_dirs d)).

Record Archive : Type := mkArchive {
  delete_source : bool;
  path : string;
  arc_temp_dir : option string;
}.

Section archive.
Context `{Patool} (temp_name : gset string → string).

Definition used_names (d : Disk) : gset string := dom (disk_files d) ∪ dom (disk_dirs d).

Definition is_supported (path : string) : M Disk bool :=
  try_except (λ e, bool_decide (e = PatoolError))
    (λ d, (test_archive path (disk_files d !! path) ≫= λ _, Ok true, d)) (mret false).

Definition archive_init (path : string) (delete_source : bool) : M Disk Archive :=
  supported ← is_supported path;
  if negb supported then raise ArchiveException else mret (mkArchive delete_source path None).

Definition mkstemp_with (raw_data : bytes) : M Disk string := λ d,
  let name := temp_name (used_names d) in (Ok name, set_files (<[name := raw_data]>) d).

Definition from_raw_data (raw_data : bytes) : M Disk (option Archive) :=
  temp_filename ← mkstemp_with raw_data;
  try_except (λ e, bool_decide (e = ArchiveException))
    (a ← archive_init temp_filename true; mret (Some a))
    (_ ← modify (set_files (delete temp_filename)); mret None).

(** The methods change the object and the disk. *)
Definition unpack : M (Archive * Disk) unit := λ '(a, d),
  let name := temp_name (used_names d) in
  let '(r, files) := extract_archive (path a) (disk_files d !! path a) in
  (r, (mkArchive (delete_source a) (path a) (Some name), set_dirs (<[name := files]>) d)).

Definition cleanup : M (Archive * Disk) unit := λ '(a, d),
  let '(a, d) :=
    match arc_temp_dir a with
    | Some t =>
        match disk_dirs d !! t with
        | Some _ => (mkArchive (delete_source a) (path a) None, set_dirs (delete t) d)
        | None => (a, d)
        end
    | None => (a, d)
    end in
  (Ok tt, (a, if delete_source a then set_files (delete (path a)) d else d)).

Definition namelist : M (Archive * Disk) (list string) := λ '(a, d),
  (match arc_temp_dir a with
   | None => Raise NotImplementedError
   | Some t => Ok (default [] (disk_dirs d !! t)).*1
   end, (a, d)).

Definition read (file_path : string) : M (Archive * Disk) bytes := λ '(a, d),
  (match arc_temp_dir a with
   | None => Raise NotImplementedError
   | Some t => or_raise FileNotFoundError (pd_get (default [] (disk_dirs d !! t)) file_path)
   end, (a, d)).
End archive.

(** What an unpacked archive consists of, when nothing goes wrong. *)
Section unpacked.
Context `{Patool} (temp_name : gset string → string).
Context (temp_fresh : ∀ used, temp_name used ∉ used).

Lemma temp_unused d :
  disk_files d !! temp_name (used_names d) = None ∧ disk_dirs d !! temp_name (used_names d) = None.
Proof.
  pose proof (temp_fresh (used_names d)) as Hf. unfold used_names in *.
  rewrite <- !not_elem_of_dom. set_solver.
Qed.

(** An archive that is recognised or refused; in the second case nothing is
    left of it. *)
Lemma from_raw_data_ok data d :
  let p := temp_name (used_names d) in
  match test_archive p (Some data) with
  | Ok _ => from_raw_data temp_name data d = (Ok (Some (mkArchive true p None)), set_files (<[p := data]>) d)
  | Raise e =>
      from_raw_data temp_name data d =
      if decide (e = PatoolError) then (Ok None, d)
      else if decide (e = ArchiveException) then (Ok None, d) else (Raise e, set_files (<[p := data]>) d)
  | Blocks => from_raw_data temp_name data d = (Blocks, set_files (<[p := data]>) d)
  | NoFuel => from_raw_data temp_name data d = (NoFuel, set_files (<[p := data]>) d)
  end.
Proof.
  intros p. destruct (temp_unused d) as [Hn _]. fold p in Hn.
  assert (set_files (delete p) (set_files (<[p := data]>) d) = d) as Hback.
  { unfold set_files. cbn. rewrite delete_insert_id by done. by destruct d. }
  unfold from_raw_data, archive_init, is_supported, try_except, mbind, M_bind, mkstemp_with. fold p.
  replace (disk_files (set_files (<[p := data]>) d) !! p) with (Some data) by (symmetry; apply lookup_insert_eq).
  destruct (test_archive p (Some data)) as [[]|e| |]; cbn; [done| |done..].
  repeat case_decide; subst; repeat case_bool_decide; try congruence; cbn; repeat case_bool_decide; try congruence;
    cbn; by rewrite ?Hback.
Qed.
End unpacked.
