(* ===== verification/FileMatching.v ===== *)
(** * Matching the files of a submission (cms/server/contest/submission/file_matching.py,
    file_retrieval.py)

    The files that a contestant sent, with the names of the form fields and
    the names on their system, are fitted into the format of a submission, in
    the one language that makes sense of them. The installed languages are a
    parameter.
    The elements of a set are a list without duplicates; the order in which
    Python walks a set does not matter: what a match is ([matching]) only says
    which elements and languages there are. *)

From S2P Require Import Prelude PyString Languages FileStorage Archive.

Local Open Scope string_scope.
Local Open Scope list_scope.

Definition InvalidFiles : exn := UserError "InvalidFiles".
Definition InvalidFilesOrLanguage : exn := UserError "InvalidFilesOrLanguage".
Definition InvalidArchive : exn := UserError "InvalidArchive".

Record ReceivedFile : Type := mkReceivedFile {
  codename : option string;
  filename : option string;
  content : string;
}.

(** ** Retrieving the files *)

Section retrieval.
Context `{Patool} (temp_name : gset string → string).

(** [try: m  finally: c], on an object of its own. *)
Definition finally {A} (m : M (Archive * Disk) A) (c : M (Archive * Disk) unit) (a : Archive) : M Disk A := λ d,
  let '(r, s) := m (a, d) in
  match c s with
  | (Ok _, (_, d)) => (r, d)
  | (Raise e, (_, d)) => (Raise e, d)
  | (Blocks, (_, d)) => (Blocks, d)
  | (NoFuel, (_, d)) => (NoFuel, d)
  end.

Definition read_archive : M (Archive * Disk) (list ReceivedFile) :=
  try_except (λ e, bool_decide (e = PatoolError) || is_os_error e)
    (_ ← unpack temp_name;
     names ← namelist;
     for_acc (λ result name,
       content ← read name; mret (result ++ [mkReceivedFile None (Some (basename name)) content])) [] names)
    (raise InvalidArchive).

Definition extract_files_from_archive (data : bytes) : M Disk (list ReceivedFile) :=
  archive ← from_raw_data temp_name data;
  match archive with
  | None => raise InvalidArchive
  | Some a => finally read_archive cleanup a
  end.

(** [HTTPFile]: its name and body. *)
Definition HTTPFile : Type := string * string.

Definition extract_files_from_tornado (tornado_files : pydict string (list HTTPFile)) : M Disk (list ReceivedFile) :=
  match tornado_files with
  | [("submission", [f])] => extract_files_from_archive f.2
  | _ => mret (tornado_files ≫= λ kv, (λ f, mkReceivedFile (Some kv.1) (Some f.1) f.2) <$> kv.2)
  end.
End retrieval.

(** A request leaves nothing on the disk, and its archive is read or refused. *)
Section retrieved.
Context `{Patool} (temp_name : gset string → string).
Context (temp_fresh : ∀ used, temp_name used ∉ used).

(** What patool says of the archive. *)
Definition archive_files (p : string) (data : bytes) : res (list ReceivedFile) :=
  match test_archive p (Some data), extract_archive p (Some data) with
  | Ok _, (Ok _, files) => Ok ((λ f, mkReceivedFile None (Some (basename f.1)) f.2) <$> files)
  | _, _ => Raise InvalidArchive
  end.

(** The errors that patool documents. *)
Definition patool_errors : Prop :=
  ∀ p x, (test_archive p x = Ok tt ∨ test_archive p x = Raise PatoolError) ∧ NoDup (extract_archive p x).2.*1 ∧
    ((extract_archive p x).1 = Ok tt ∨ (extract_archive p x).1 = Raise PatoolError ∨ (extract_archive p x).1 = Raise OSError).

Lemma read_all_ok acc (files : list (string * bytes)) done_ a d t :
  arc_temp_dir a = Some t → disk_dirs d !! t = Some (done_ ++ files) → NoDup (done_ ++ files).*1 →
  for_acc (λ result name,
    content ← read name; mret (result ++ [mkReceivedFile None (Some (basename name)) content])) acc files.*1 (a, d) =
  (Ok (acc ++ ((λ f, mkReceivedFile None (Some (basename f.1)) f.2) <$> files)), (a, d)).
Proof.
  intros Ha Hd. revert done_ acc Hd. induction files as [|[n x] files IH]; intros done_ acc Hd Hn.
  - by rewrite app_nil_r.
  - cbn [fmap list_fmap fst snd for_acc]. rewrite (M_run_Ok _ _ _ (acc ++ [mkReceivedFile None (Some (basename n)) x]) (a, d)).
    + rewrite (IH (done_ ++ [(n, x)])); [by rewrite <- app_assoc|by rewrite <- app_assoc|by rewrite <- app_assoc].
    + rewrite (M_run_Ok _ _ _ x (a, d)); [done|]. unfold read. rewrite Ha, Hd. cbn [default].
      rewrite (pd_in_get (done_ ++ (n, x) :: files) n x Hn); [done|]. apply elem_of_app. right. by left.
Qed.

Lemma extract_files_ok data d (Hp : patool_errors) :
  extract_files_from_archive temp_name data d = (archive_files (temp_name (used_names d)) data, d).
Proof.
  unfold extract_files_from_archive, archive_files. set (p := temp_name (used_names d)).
  pose proof (from_raw_data_ok temp_name temp_fresh data d) as Hraw. fold p in Hraw. cbn in Hraw.
  destruct (Hp p (Some data)) as ([Ht|Ht] & Hnd & Hx); rewrite Ht in *.
  2: { rewrite decide_True in Hraw by done. by rewrite (M_run_Ok _ _ _ _ _ Hraw). }
  rewrite (M_run_Ok _ _ _ _ _ Hraw). set (d1 := set_files (<[p := data]>) d). set (t := temp_name (used_names d1)).
  destruct (temp_unused temp_name temp_fresh d) as [Hfree _]. destruct (temp_unused temp_name temp_fresh d1) as [_ Hfree1].
  fold p in Hfree. fold t in Hfree1.
  assert (∀ files, cleanup (mkArchive true p (Some t), set_dirs (<[t := files]>) d1) = (Ok tt, (mkArchive true p None, d))) as Hclean.
  { intros files. unfold cleanup. cbn. rewrite lookup_insert_eq. unfold set_files, set_dirs. cbn.
    rewrite !delete_insert_id by done. by destruct d. }
  assert (disk_files d1 !! p = Some data) as Hdata by apply lookup_insert_eq.
  unfold finally, read_archive, try_except.
  destruct (extract_archive p (Some data)) as [r files] eqn:He. cbn in Hx, Hnd.
  assert (unpack temp_name (mkArchive true p None, d1) = (r, (mkArchive true p (Some t), set_dirs (<[t := files]>) d1))) as Hu.
  { unfold unpack. cbn [path delete_source]. by rewrite Hdata, He. }
  destruct Hx as [->|[-> | ->]].
  - rewrite (M_run_Ok _ _ _ _ _ Hu).
    rewrite (M_run_Ok _ _ _ files.*1 (mkArchive true p (Some t), set_dirs (<[t := files]>) d1))
      by (unfold namelist; cbn; by rewrite lookup_insert_eq).
    rewrite (read_all_ok [] files [] _ _ t); [by rewrite Hclean|done|by apply lookup_insert_eq|done].
  - rewrite (M_run_Raise _ _ _ _ _ Hu). change (bool_decide _ || _) with true. unfold raise. by rewrite Hclean.
  - rewrite (M_run_Raise _ _ _ _ _ Hu). change (bool_decide _ || _) with true. unfold raise. by rewrite Hclean.
Qed.

Lemma extract_from_tornado_ok tornado_files d (Hp : patool_errors) :
  ∃ r, extract_files_from_tornado temp_name tornado_files d = (r, d) ∧ ((∃ l, r = Ok l) ∨ r = Raise InvalidArchive).
Proof.
  assert (∀ x, ∃ r, extract_files_from_archive temp_name x d = (r, d) ∧ ((∃ l, r = Ok l) ∨ r = Raise InvalidArchive)) as Ha.
  { intros x. rewrite (extract_files_ok x d Hp). eexists. split; [done|]. unfold archive_files.
    destruct (test_archive _ _) as [[]| | |]; [|by right..]. destruct (extract_archive _ _) as [[[]| | |] files]; eauto. }
  assert (∀ l : list ReceivedFile, ∃ r, (mret l : M Disk _) d = (r, d) ∧ ((∃ l, r = Ok l) ∨ r = Raise InvalidArchive)) as Hr by (eauto).
  unfold extract_files_from_tornado. repeat case_match; auto.
Qed.
End retrieved.

(** ** Matching *)

Definition _match_filename (filename : string) (language : option Language) (element : string) : res bool :=
  if negb (endswith ".%l" element) then Ok (String.eqb filename element)
  else
    language ← or_raise ValueError language;
    let base := (splitext element).1 in
    Ok (existsb (λ ext, String.eqb filename (base +:+ ext)) (source_extensions language)).

Definition _match_extension (filename : option string) (language : option Language) (element : string) : res bool :=
  match filename with
  | None => Ok true
  | Some filename =>
      if negb (endswith ".%l" element) then Ok true
      else
        language ← or_raise ValueError language;
        Ok (existsb (λ ext, endswith ext filename) (source_extensions language))
  end.

(** [{element for element in submission_format if match(element)}] *)
Fixpoint filter_res (f : string → res bool) (l : list string) : res (list string) :=
  match l with
  | [] => Ok []
  | x :: l => b ← f x; l' ← filter_res f l; Ok (if b : bool then x :: l' else l')
  end.

Definition _match_file (codename filename : option string) (language : option Language)
    (submission_format : list string) : res string :=
  match codename, filename with
  | None, None => Raise InvalidFiles
  | None, Some filename =>
      candidate_elements ← filter_res (_match_filename filename language) submission_format;
      match candidate_elements with
      | [element] => Ok element
      | _ => Raise InvalidFiles
      end
  | Some codename, _ =>
      if decide (codename ∈ submission_format) then
        b ← _match_extension filename language codename;
        if b : bool then Ok codename else Raise InvalidFiles
      else Raise InvalidFiles
  end.

Definition match_next (language : option Language) (submission_format : list string)
    (files : pydict string string) (f : ReceivedFile) : res (pydict string string) :=
  name ← _match_file (codename f) (filename f) language submission_format;
  if pd_mem files name then Raise InvalidFiles else Ok (pd_set files name (content f)).

Definition _match_files (given_files : list ReceivedFile) (language : option Language)
    (submission_format : list string) : res (pydict string string) :=
  fold_res (match_next language submission_format) [] given_files.

Section languages.
Context (LANGUAGES : list Language).

(** [set.add]: two languages are equal when they are of the same class, which
    is named after itself. *)
Definition add_language (ls : list (option Language)) (l : Language) : list (option Language) :=
  if existsb (λ l', bool_decide (name <$> l' = Some (name l))) ls then ls else ls ++ [Some l].

Definition candidate_languages (given_language_name : option string) (submission_format : list string)
    (allowed_language_names : option (list string)) : res (list (option Language)) :=
  if negb (existsb (endswith ".%l") submission_format) then
    match given_language_name with
    | Some _ => Raise InvalidFilesOrLanguage
    | None => Ok [None]
    end
  else
    match given_language_name with
    | Some n =>
        match get_language LANGUAGES n with
        | Ok language =>
            match allowed_language_names with
            | Some allowed =>
                if decide (name language ∈ allowed) then Ok [Some language] else Raise InvalidFilesOrLanguage
            | None => Ok [Some language]
            end
        | Raise KeyError => Raise InvalidFilesOrLanguage
        | Raise e => Raise e
        | Blocks => Blocks
        | NoFuel => NoFuel
        end
    | None =>
        match allowed_language_names with
        | None => Ok (foldl add_language [] LANGUAGES)
        | Some allowed =>
            Ok (foldl (λ ls n, match get_language LANGUAGES n with Ok l => add_language ls l | _ => ls end) [] allowed)
        end
    end.

(** The languages in which the files match; [InvalidFiles] is caught. *)
Fixpoint matched_files_by_language (given_files : list ReceivedFile) (submission_format : list string)
    (candidates : list (option Language)) : res (list (option Language * pydict string string)) :=
  match candidates with
  | [] => Ok []
  | language :: candidates =>
      match _match_files given_files language submission_format with
      | Ok files =>
          rest ← matched_files_by_language given_files submission_format candidates; Ok ((language, files) :: rest)
      | Raise e =>
          if bool_decide (e = InvalidFiles) then matched_files_by_language given_files submission_format candidates
          else Raise e
      | Blocks => Blocks
      | NoFuel => NoFuel
      end
  end.

Definition match_files_and_language (given_files : list ReceivedFile) (given_language_name : option string)
    (submission_format : list string) (allowed_language_names : option (list string))
    : res (pydict string string * option Language) :=
  if bool_decide (given_files = []) then Raise InvalidFilesOrLanguage
  else
    candidates ← candidate_languages given_language_name submission_format allowed_language_names;
    matched ← matched_files_by_language given_files submission_format candidates;
    match matched with
    | [(language, files)] => Ok (files, language)
    | _ => Raise InvalidFilesOrLanguage
    end.
End languages.

(** ** What a match is *)

Definition language_extensions (l : option Language) : list string := default [] (source_extensions <$> l).
Definition templated (e : string) : bool := endswith ".%l" e.

(** The name of the file is the element, with an extension of the language
    in the place of [%l]. *)
Definition filename_fits (l : option Language) (fn e : string) : Prop :=
  if templated e then ∃ ext, ext ∈ language_extensions l ∧ fn = (splitext e).1 +:+ ext else fn = e.

Definition extension_fits (l : option Language) (fn : option string) (e : string) : Prop :=
  templated e = true → ∀ n, fn = Some n → ∃ ext, ext ∈ language_extensions l ∧ endswith ext n = true.

(** The file is for the element: by the name of its field, or by its own name
    when it fits no other element. *)
Definition fits (l : option Language) (format : list string) (f : ReceivedFile) (e : string) : Prop :=
  match codename f, filename f with
  | Some c, fn => e = c ∧ c ∈ format ∧ extension_fits l fn c
  | None, Some fn => e ∈ format ∧ filename_fits l fn e ∧ ∀ e', e' ∈ format → filename_fits l fn e' → e' = e
  | None, None => False
  end.

(** Every file is for an element of its own. *)
Definition matching (given : list ReceivedFile) (l : option Language) (format : list string)
    (files : pydict string string) : Prop :=
  Forall2 (λ f kv, fits l format f kv.1 ∧ kv.2 = content f) given files ∧ NoDup (pd_keys files).

(** A language is given exactly if the format needs one. *)
Definition suits (l : option Language) (format : list string) : Prop :=
  l = None → ∀ e, e ∈ format → templated e = false.

Lemma match_filename_ok fn l format e :
  suits l format → e ∈ format →
  ∃ b, _match_filename fn l e = Ok b ∧ (b = true ↔ filename_fits l fn e).
Proof.
  intros Hs He. unfold _match_filename, filename_fits. fold (templated e).
  destruct (templated e) eqn:Ht; cbn [negb].
  - destruct l as [l|]; [|by rewrite (Hs eq_refl e He) in Ht]. cbn. eexists. split; [done|].
    rewrite existsb_exists. setoid_rewrite String.eqb_eq. by setoid_rewrite list_elem_of_In.
  - eexists. split; [done|]. apply String.eqb_eq.
Qed.

Lemma match_extension_ok fn l format e :
  suits l format → e ∈ format →
  ∃ b, _match_extension fn l e = Ok b ∧ (b = true ↔ extension_fits l fn e).
Proof.
  intros Hs He. unfold _match_extension, extension_fits. fold (templated e). destruct fn as [fn|].
  - destruct (templated e) eqn:Ht; cbn [negb].
    + destruct l as [l|]; [|by rewrite (Hs eq_refl e He) in Ht]. cbn. eexists. split; [done|].
      rewrite existsb_exists. setoid_rewrite list_elem_of_In. split; [by intros ? _ ? [= <-]|naive_solver].
    + eexists. split; [done|]. naive_solver.
  - eexists. split; [done|]. naive_solver.
Qed.

Lemma filter_res_ok (f : string → res bool) (P : string → Prop) l :
  (∀ x, x ∈ l → ∃ b, f x = Ok b ∧ (b = true ↔ P x)) → NoDup l →
  ∃ l', filter_res f l = Ok l' ∧ NoDup l' ∧ ∀ x, x ∈ l' ↔ x ∈ l ∧ P x.
Proof.
  induction l as [|y l IH]; intros Hf Hn.
  - exists []. split_and!; [done|done|]. intros x. rewrite elem_of_nil. tauto.
  - apply NoDup_cons in Hn as [Hy Hn]. destruct (Hf y ltac:(by left)) as (b & Hb & HP).
    destruct IH as (l' & Hl' & Hn' & Hin); [intros x Hx; apply Hf; by right|done|].
    cbn [filter_res]. rewrite Hb, Hl'. cbn. destruct b.
    + exists (y :: l'). split_and!; [done|constructor; [by rewrite Hin; intros []|done]|].
      intros x. rewrite !elem_of_cons, Hin. split; [|tauto]. intros [->|?]; [|tauto]. split; [by left|by apply HP].
    + exists l'. split_and!; [done..|]. intros x. rewrite elem_of_cons, Hin. split; [tauto|].
      intros [[->|Hx] HPx]; [|done]. apply HP in HPx. done.
Qed.

Lemma match_file_ok l format f :
  suits l format → NoDup format →
  (∃ e, _match_file (codename f) (filename f) l format = Ok e ∧ fits l format f e) ∨
  (_match_file (codename f) (filename f) l format = Raise InvalidFiles ∧ ∀ e, ¬ fits l format f e).
Proof.
  intros Hs Hn. unfold _match_file, fits. destruct (codename f) as [c|], (filename f) as [fn|].
  4: { right. split; [done|]. by intros e []. }
  - destruct (decide (c ∈ format)) as [Hc|Hc]; [|right; split; [done|naive_solver]].
    destruct (match_extension_ok (Some fn) l format c Hs Hc) as (b & -> & Hb). cbn. destruct b; [left|right].
    + exists c. split; [done|]. split_and!; [done..|by apply Hb].
    + split; [done|]. intros e (-> & _ & He). by apply Hb in He.
  - destruct (decide (c ∈ format)) as [Hc|Hc]; [left|right; split; [done|naive_solver]].
    exists c. split; [done|]. split_and!; [done..|]. by intros _ n.
  - destruct (filter_res_ok (_match_filename fn l) (filename_fits l fn) format) as (es & -> & Hes & Hin); [|done|].
    { intros e He. by eapply match_filename_ok. }
    cbn. destruct es as [|e [|e2 es]].
    + right. split; [done|]. intros e (He & Hf & _). apply (elem_of_nil e), Hin. done.
    + left. exists e. split; [done|]. destruct (proj1 (Hin e) ltac:(by left)) as [He Hf]. split_and!; [done..|].
      intros e' He' Hf'. assert (e' ∈ [e]) as ->%list_elem_of_singleton by (by apply Hin). done.
    + right. split; [done|]. intros e' (He' & Hf' & Hu).
      assert (e = e') as -> by (apply Hu; apply Hin; by left).
      assert (e2 = e') as -> by (apply Hu; apply Hin; right; by left).
      apply NoDup_cons in Hes as [Hes _]. apply Hes. by left.
Qed.

Lemma fits_unique l format f e1 e2 : fits l format f e1 → fits l format f e2 → e1 = e2.
Proof.
  unfold fits. destruct (codename f), (filename f); try done; [naive_solver..|].
  intros (H1 & H2 & H3) (H4 & H5 & H6). by apply H6.
Qed.

Lemma matching_unique l format given m1 m2 :
  matching given l format m1 → matching given l format m2 → m1 = m2.
Proof.
  intros [H1 _] [H2 _]. revert m2 H2. induction H1 as [|f [k v] given m1 [Hk Hv] _ IH]; intros m2 H2.
  - by inversion H2.
  - inversion H2 as [|? [k' v'] ? m2' [Hk' Hv'] H2']; subst. cbn in *. rewrite (IH m2') by done. f_equal. f_equal.
    + by eapply fits_unique.
    + by rewrite Hv'.
Qed.

Lemma match_fold_cons l format acc f given :
  fold_res (match_next l format) acc (f :: given) =
  (name ← _match_file (codename f) (filename f) l format;
   if pd_mem acc name then Raise InvalidFiles
   else fold_res (match_next l format) (pd_set acc name (content f)) given).
Proof.
  transitivity (match_next l format acc f ≫= λ acc, fold_res (match_next l format) acc given); [reflexivity|].
  assert (match_next l format acc f = (name ← _match_file (codename f) (filename f) l format;
    if pd_mem acc name then Raise InvalidFiles else Ok (pd_set acc name (content f)))) as -> by reflexivity.
  destruct (_match_file _ _ _ _) as [e| | |]; try reflexivity. cbn. by destruct (pd_mem acc e).
Qed.

(** From the elements that are taken already. *)
Lemma match_fold l format given acc :
  suits l format → NoDup format → NoDup (pd_keys acc) →
  (∃ m, fold_res (match_next l format) acc given = Ok (acc ++ m) ∧
     Forall2 (λ f kv, fits l format f kv.1 ∧ kv.2 = content f) given m ∧ NoDup (pd_keys (acc ++ m))) ∨
  (fold_res (match_next l format) acc given = Raise InvalidFiles ∧
     ∀ m, Forall2 (λ f kv, fits l format f kv.1 ∧ kv.2 = content f) given m → ¬ NoDup (pd_keys (acc ++ m))).
Proof.
  intros Hs Hn. revert acc. induction given as [|f given IH]; intros acc Hacc.
  { left. exists []. rewrite app_nil_r. by split_and!. }
  rewrite match_fold_cons.
  destruct (match_file_ok l format f Hs Hn) as [(e & -> & He)|[-> Hno]]; cbn [mbind res_bind].
  2: { right. split; [done|]. intros m Hm. inversion Hm as [|? [k v] ? ? [Hk _]]; subst. by destruct (Hno k). }
  unfold pd_mem. case_bool_decide as Hin.
  - right. split; [done|]. intros m Hm. inversion Hm as [|? [k v] ? m' [Hk _]]; subst. cbn in Hk.
    apply pd_get_in in Hin. rewrite (fits_unique l format f e k He Hk) in Hin.
    unfold pd_keys in *. rewrite fmap_app, NoDup_app. intros (_ & Hd & _). apply (Hd k Hin). by left.
  - assert (e ∉ pd_keys acc) as Hfresh by (by rewrite <- pd_get_in). rewrite (pd_set_fresh _ _ _ Hfresh).
    destruct (IH (acc ++ [(e, content f)])) as [(m & Hm & Hf & Hd)|[Hm Hno]].
    { rewrite <- (pd_set_fresh _ _ _ Hfresh). by apply pd_keys_set_NoDup. }
    + left. exists ((e, content f) :: m). rewrite (cons_middle _ acc m), (app_assoc acc). split_and!; [done|by constructor|done].
    + right. split; [done|]. intros m0 Hm0. inversion Hm0 as [|? [k v] ? m' [Hk Hv] Hm']; subst. cbn in Hk, Hv. subst v.
      rewrite (fits_unique l format f k e Hk He), (cons_middle _ acc m'), (app_assoc acc). by apply Hno.
Qed.

(** The files are fitted exactly when there is a match. *)
Lemma match_files_ok l format given :
  suits l format → NoDup format →
  (∃ m, _match_files given l format = Ok m ∧ matching given l format m) ∨
  (_match_files given l format = Raise InvalidFiles ∧ ∀ m, ¬ matching given l format m).
Proof.
  intros Hs Hn. destruct (match_fold l format given [] Hs Hn) as [(m & Hm & Hf)|[Hm Hno]]; [constructor| |].
  - left. by exists m.
  - right. split; [done|]. intros m [Hf Hd]. by apply (Hno m).
Qed.

Section languages_spec.
Context (LANGUAGES : list Language) (HL : NoDup (name <$> LANGUAGES)).

(** A language that may be considered: none for a format that needs none,
    and otherwise an installed and allowed one, the given one if any. *)
Definition candidate (given : option string) (format : list string) (allowed : option (list string))
    (l : option Language) : Prop :=
  match l with
  | None => (∀ e, e ∈ format → templated e = false) ∧ given = None
  | Some l => (∃ e, e ∈ format ∧ templated e = true) ∧ l ∈ LANGUAGES ∧
              (∀ n, given = Some n → name l = n) ∧ (∀ ns, allowed = Some ns → name l ∈ ns)
  end.

Lemma candidate_suits given format allowed l : candidate given format allowed l → suits l format.
Proof. destruct l; [done|]. by intros [H _] _. Qed.

Lemma get_language_ok n :
  (∃ l, get_language LANGUAGES n = Ok l ∧ l ∈ LANGUAGES ∧ name l = n) ∨
  (get_language LANGUAGES n = Raise KeyError ∧ ∀ l, l ∈ LANGUAGES → name l ≠ n).
Proof.
  unfold get_language. destruct (last _) as [l|] eqn:Hl; [left; exists l|right].
  - split; [done|]. apply last_Some_elem_of, list_elem_of_filter in Hl. tauto.
  - split; [done|]. intros l Hin Hn. apply last_None in Hl.
    apply (not_elem_of_nil l). rewrite <- Hl. by apply list_elem_of_filter.
Qed.

Lemma language_name_inj l1 l2 : l1 ∈ LANGUAGES → l2 ∈ LANGUAGES → name l1 = name l2 → l1 = l2.
Proof.
  intros [i Hi]%list_elem_of_lookup [j Hj]%list_elem_of_lookup Hn.
  assert (i = j) as ->; [|congruence].
  eapply NoDup_lookup; [exact HL| |]; rewrite list_lookup_fmap; [by rewrite Hi|by rewrite Hj, Hn].
Qed.

(** The set holds installed languages, each once. *)
Definition language_set (ls : list (option Language)) : Prop :=
  NoDup ls ∧ ∀ l, l ∈ ls → ∃ l', l = Some l' ∧ l' ∈ LANGUAGES.

Lemma add_language_ok ls l :
  language_set ls → l ∈ LANGUAGES →
  language_set (add_language ls l) ∧ ∀ x, x ∈ add_language ls l ↔ x ∈ ls ∨ x = Some l.
Proof.
  intros [Hn Hs] Hl. unfold add_language. destruct (existsb _ ls) eqn:He.
  - split; [done|]. intros x. split; [by left|]. intros [?| ->]; [done|].
    apply existsb_exists in He as (l0 & Hin%list_elem_of_In & Heq%bool_decide_eq_true).
    destruct (Hs l0 Hin) as (l' & -> & Hl'). injection Heq as Heq. by rewrite <- (language_name_inj l' l Hl' Hl Heq).
  - assert (Some l ∉ ls) as Hnew.
    { intros Hin. assert (existsb (λ l', bool_decide (name <$> l' = Some (name l))) ls = true) as Ht; [|congruence].
      apply existsb_exists. exists (Some l). split; [by apply list_elem_of_In|by apply bool_decide_eq_true]. }
    split; [split|].
    + apply NoDup_app. split_and!; [done| |apply NoDup_singleton]. by intros x Hx ->%list_elem_of_singleton.
    + intros x [Hx| ->%list_elem_of_singleton]%elem_of_app; [by apply Hs|by exists l].
    + intros x. by rewrite elem_of_app, list_elem_of_singleton.
Qed.

Lemma add_all_ok {A} (f : list (option Language) → A → list (option Language)) (P : A → Language → Prop) xs ls :
  (∀ ls x, language_set ls → x ∈ xs →
     language_set (f ls x) ∧ ∀ l, l ∈ f ls x ↔ l ∈ ls ∨ ∃ l', l = Some l' ∧ P x l') →
  language_set ls →
  language_set (foldl f ls xs) ∧ ∀ l, l ∈ foldl f ls xs ↔ l ∈ ls ∨ ∃ x l', x ∈ xs ∧ l = Some l' ∧ P x l'.
Proof.
  revert ls. induction xs as [|x xs IH]; intros ls Hf Hs; cbn.
  - split; [done|]. intros l. split; [by left|]. intros [?|(x & l' & []%elem_of_nil & _)]; done.
  - destruct (Hf ls x Hs ltac:(by left)) as [Hs' Hin].
    destruct (IH (f ls x)) as [Hs'' Hin']; [intros; apply Hf; [done|by right]|done|].
    split; [done|]. intros l. rewrite Hin', Hin. setoid_rewrite elem_of_cons. naive_solver.
Qed.

(** The candidates are found exactly. *)
Lemma candidate_languages_ok given format allowed :
  (∃ ls, candidate_languages LANGUAGES given format allowed = Ok ls ∧ NoDup ls ∧
     ∀ l, l ∈ ls ↔ candidate given format allowed l) ∨
  (candidate_languages LANGUAGES given format allowed = Raise InvalidFilesOrLanguage ∧
     ∀ l, ¬ candidate given format allowed l).
Proof.
  unfold candidate_languages. change (existsb (endswith ".%l") format) with (existsb templated format). destruct (existsb templated format) eqn:Ht; cbn [negb].
  - apply existsb_exists in Ht as (e & He%list_elem_of_In & Hte).
    assert (∀ l, candidate given format allowed l ↔ ∃ l', l = Some l' ∧ l' ∈ LANGUAGES ∧
      (∀ n, given = Some n → name l' = n) ∧ (∀ ns, allowed = Some ns → name l' ∈ ns)) as Hc.
    { intros [l|]; cbn; [naive_solver|]. split; [|naive_solver]. intros [Hno _]. by rewrite Hno in Hte. }
    setoid_rewrite Hc. destruct given as [n|].
    + destruct (get_language_ok n) as [(l & -> & Hl & Hn)|[-> Hno]]; [|right; naive_solver].
      assert (∀ l', l' ∈ LANGUAGES → name l' = n → l' = l) as Hu.
      { intros l' Hl' Hn'. apply language_name_inj; [done..|congruence]. }
      destruct allowed as [ns|]; [destruct (decide (name l ∈ ns))|].
      * left. exists [Some l]. split_and!; [done|apply NoDup_singleton|]. intros l'. rewrite list_elem_of_singleton. naive_solver.
      * right. split; [done|]. intros l' (l0 & -> & Hl0 & Hg & Ha).
        rewrite (Hu l0 Hl0 (Hg n eq_refl)) in Ha. by specialize (Ha ns eq_refl).
      * left. exists [Some l]. split_and!; [done|apply NoDup_singleton|]. intros l'. rewrite list_elem_of_singleton. naive_solver.
    + assert (language_set []) as H0 by (split; [constructor|by intros l []%elem_of_nil]). left. destruct allowed as [ns|].
      * destruct (add_all_ok (λ ls n, match get_language LANGUAGES n with Ok l => add_language ls l | _ => ls end)
          (λ n l, l ∈ LANGUAGES ∧ name l = n) ns []) as [[Hn _] Hin]; [|done|].
        { intros ls n Hs _. destruct (get_language_ok n) as [(l & -> & Hl & Hn)|[-> Hno]].
          - destruct (add_language_ok ls l Hs Hl) as [Hs' Hin]. split; [done|]. intros l0. rewrite Hin.
            split; [naive_solver|]. intros [?|(l' & -> & Hl' & Hn')]; [by left|right].
            f_equal. apply language_name_inj; [done..|congruence].
          - split; [done|]. naive_solver. }
        eexists. split_and!; [done|done|]. intros l. rewrite Hin. rewrite elem_of_nil. naive_solver.
      * destruct (add_all_ok add_language (λ x l, x = l) LANGUAGES []) as [[Hn _] Hin]; [|done|].
        { intros ls x Hs Hx. destruct (add_language_ok ls x Hs Hx) as [Hs' Hin]. split; [done|]. intros l. rewrite Hin. naive_solver. }
        eexists. split_and!; [done|done|]. intros l. rewrite Hin. rewrite elem_of_nil. naive_solver.
  - assert (∀ e, e ∈ format → templated e = false) as Hno.
    { intros e He. destruct (templated e) eqn:Hte; [|done]. rewrite <- Ht. symmetry. apply existsb_exists.
      exists e. split; [by apply list_elem_of_In|done]. }
    assert (∀ l, candidate given format allowed l ↔ l = None ∧ given = None) as Hc.
    { intros [l|]; cbn; [|naive_solver]. split; [|naive_solver]. intros [(e & He & Hte) _]. by rewrite Hno in Hte. }
    setoid_rewrite Hc. destruct given as [n|]; [right; naive_solver|left].
    exists [None]. split_and!; [done|apply NoDup_singleton|]. intros l. rewrite list_elem_of_singleton. naive_solver.
Qed.

(** The languages that match are those of the candidates with a match. *)
Lemma matched_ok given format ls :
  NoDup format → NoDup ls → (∀ l, l ∈ ls → suits l format) →
  ∃ ms, matched_files_by_language given format ls = Ok ms ∧ NoDup ms.*1 ∧
    ∀ l files, (l, files) ∈ ms ↔ l ∈ ls ∧ matching given l format files.
Proof.
  intros Hf. induction ls as [|l ls IH]; intros Hn Hs.
  { exists []. split_and!; [done|constructor|]. intros l files. rewrite !elem_of_nil. tauto. }
  apply NoDup_cons in Hn as [Hl Hn]. destruct IH as (ms & Hms & Hnm & Hin); [done|intros; apply Hs; by right|].
  cbn [matched_files_by_language]. rewrite Hms.
  destruct (match_files_ok l format given (Hs l ltac:(by left)) Hf) as [(m & -> & Hm)|[-> Hno]].
  - cbn. exists ((l, m) :: ms). split_and!; [done| |].
    + cbn. apply NoDup_cons. split; [|done]. intros ([l' m'] & -> & [Hl' _]%Hin)%list_elem_of_fmap. done.
    + intros l' m'. rewrite !elem_of_cons, Hin. split; [naive_solver|].
      intros [[->|?] Hm']; [left|by right]. f_equal. by eapply matching_unique.
  - rewrite bool_decide_eq_true_2 by done. exists ms. split_and!; [done..|].
    intros l' m'. rewrite elem_of_cons, Hin. split; [naive_solver|]. intros [[->|?] Hm']; [by destruct (Hno m')|done].
Qed.

Lemma one_of {A} (l : list A) : (∃ x, l = [x]) ∨ ∀ x, l ≠ [x].
Proof. destruct l as [|x [|y l]]; [by right|left; by exists x|by right]. Qed.

(** The one match in the one language. *)
Definition only_match (given_files : list ReceivedFile) (given : option string) (format : list string)
    (allowed : option (list string)) (files : pydict string string) (l : option Language) : Prop :=
  given_files ≠ [] ∧ candidate given format allowed l ∧ matching given_files l format files ∧
  ∀ l' files', candidate given format allowed l' → matching given_files l' format files' → l' = l.

Lemma only_match_unique given_files given format allowed f1 l1 f2 l2 :
  only_match given_files given format allowed f1 l1 → only_match given_files given format allowed f2 l2 → f1 = f2 ∧ l1 = l2.
Proof.
  intros (_ & Hc1 & Hm1 & Hu1) (_ & Hc2 & Hm2 & _). pose proof (Hu1 l2 f2 Hc2 Hm2) as ->.
  split; [by eapply matching_unique|done].
Qed.

Lemma match_decided given_files given format allowed :
  NoDup format →
  let r := match_files_and_language LANGUAGES given_files given format allowed in
  (∃ files l, r = Ok (files, l) ∧ only_match given_files given format allowed files l) ∨
  (r = Raise InvalidFilesOrLanguage ∧ ∀ files l, ¬ only_match given_files given format allowed files l).
Proof.
  intros Hformat. unfold match_files_and_language, only_match. case_bool_decide as Hg; [right; naive_solver|].
  destruct (candidate_languages_ok given format allowed) as [(ls & -> & Hn & Hin)|[-> Hno]]; [|right; naive_solver].
  destruct (matched_ok given_files format ls Hformat Hn) as (ms & Hms & Hnm & Hmin).
  { intros l Hl%Hin. by eapply candidate_suits. }
  cbn. rewrite Hms. cbn. setoid_rewrite <- Hin. destruct (one_of ms) as [[[l files] ->]|Hone].
  - left. exists files, l. destruct (proj1 (Hmin l files) ltac:(by left)) as [Hl Hm]. split_and!; [done..|].
    intros l' files' Hl' Hm'. assert ((l', files') ∈ [(l, files)]) as Heq by (by apply Hmin).
    apply list_elem_of_singleton in Heq. congruence.
  - right. split; [destruct ms as [|[l f] [|? ms]]; [done|by destruct (Hone (l, f))|by destruct l]|].
    intros files l (_ & Hl & Hm & Hu). assert ((l, files) ∈ ms) as Hlm by (by apply Hmin).
    apply (Hone (l, files)). assert (∀ x, x ∈ ms → x.1 = l) as Hall.
    { intros [l' f'] [Hl' Hm']%Hmin. by eapply Hu. }
    clear -Hlm Hall Hnm. destruct ms as [|x [|y ms]]; [by apply elem_of_nil in Hlm|by apply list_elem_of_singleton in Hlm as ->|].
    exfalso. apply NoDup_cons in Hnm as [Hx _]. apply Hx. cbn. rewrite (Hall x), (Hall y); [by left|right; by left|by left].
Qed.

(** C15. The files that were received are accepted as those of a submission
    exactly if there is at least one and, of the languages that may be
    considered (none when the format has no [%l]; otherwise the installed and
    allowed ones, and only the given one when one is given), there is one and
    only one in which every file is for an element of its own; the files and
    that language are returned. In every other case, and whatever the
    untrusted names, the only exception is InvalidFilesOrLanguage. *)
Theorem match_files_and_language_exact given_files given format allowed (Hformat : NoDup format) :
  let r := match_files_and_language LANGUAGES given_files given format allowed in
  (∀ files l, r = Ok (files, l) ↔ only_match given_files given format allowed files l) ∧
  ((∀ files l, ¬ only_match given_files given format allowed files l) → r = Raise InvalidFilesOrLanguage).
Proof.
  intros r. destruct (match_decided given_files given format allowed Hformat) as [(files & l & Hr & Ha)|[Hr Hno]]; fold r in Hr.
  - split; [|naive_solver]. intros files' l'. rewrite Hr. split; [by intros [= <- <-]|].
    intros Ha'. by destruct (only_match_unique _ _ _ _ _ _ _ _ Ha Ha') as [-> ->].
  - split; [|done]. intros files l. rewrite Hr. split; [done|]. by intros ?%Hno.
Qed.
End languages_spec.

(** A file with the name of the element and the extension of one language. *)
Definition demo_format : list string := ["sum.%l"].
Definition demo_sent : list ReceivedFile := [mkReceivedFile (Some "sum.%l") (Some "my.c") "int main;"].

Lemma match_files_and_language_exact_witness :
  match_files_and_language [Cpp17Gpp; C11Gcc] demo_sent None demo_format None =
    Ok ([("sum.%l", "int main;")], Some C11Gcc) ∧
  matching demo_sent (Some C11Gcc) demo_format [("sum.%l", "int main;")] ∧
  ∀ files, ¬ matching demo_sent (Some Cpp17Gpp) demo_format files.
Proof.
  assert (NoDup (name <$> [Cpp17Gpp; C11Gcc])) as HL by (cbn; repeat constructor; set_solver).
  assert (NoDup demo_format) as Hf by (apply NoDup_singleton).
  destruct (match_files_and_language_exact _ HL demo_sent None demo_format None Hf) as [Hok _].
  assert (match_files_and_language [Cpp17Gpp; C11Gcc] demo_sent None demo_format None =
    Ok ([("sum.%l", "int main;")], Some C11Gcc)) as Hr by reflexivity.
  split; [exact Hr|]. apply Hok in Hr as (_ & (Hc & _) & Hm & Hu). split; [exact Hm|].
  intros files Hm'. assert (Some Cpp17Gpp = Some C11Gcc) as Heq; [|by inversion Heq].
  apply (Hu _ files); [|exact Hm']. split_and!; [exact Hc|by left|done|done].
Defined.
