(* ===== verification/AcceptSubmission.v ===== *)
(** * Accepting submissions and user tests
    (cms/server/contest/submission/workflow.py, utils.py; the handlers of
    cms/server/contest/handlers/tasksubmission.py, taskusertest.py)

    A request of a contestant, as a program on the state of a contest web
    server: the committed database, the file cacher, the temporary directory
    and the local copies. Queries, actions on the storage and the commit are
    the points between which other requests may act. A refusal is a value;
    an exception is one that the handlers do not catch. Configuration,
    installed languages and patool are parameters. A path of a local copy is
    its directory and the datetime that names the file; the primary key of a
    new row comes from a sequence of the database. *)

From S2P Require Import Prelude PyString Database Languages TaskTypes Interleaving FileStorage FileCacher Archive SubmissionCheck FileMatching.
From stdpp Require Import pretty.

Local Open Scope string_scope.
Local Open Scope list_scope.

(** [UnacceptableSubmission] and [UnacceptableUserTest]; parameters are only
    formatted with [%d], which drops the fraction of a second. *)
Inductive Refused : Type :=
  | Unacceptable (subject text : string) (text_params : option Z)
  | TestingNotAllowed.

Definition formatted_text (text : string) (text_params : option Z) : string :=
  match text_params with
  | None => text
  | Some n => replace "%d" (pretty n) text
  end.

Record Config : Type := mkConfig {
  data_dir : string;
  submit_local_copy : bool;
  submit_local_copy_path : string;
  tests_local_copy : bool;
  tests_local_copy_path : string;
  max_submission_length : nat;
  max_input_length : nat;
}.

(** The pickled tuple: contest, user, task, files. *)
Definition LocalCopy : Type := Z * Z * Z * pydict string string.

Record World (B : Type) : Type := mkWorld {
  w_db : Db;
  w_cacher : Cacher B;
  w_disk : Disk;
  w_copies : gmap (string * Z) LocalCopy;
}.
Arguments mkWorld {B} w_db w_cacher w_disk w_copies.
Arguments w_db {B} w.
Arguments w_cacher {B} w.
Arguments w_disk {B} w.
Arguments w_copies {B} w.

Definition set_db {B} (f : Db → Db) (w : World B) : World B := mkWorld (f (w_db w)) (w_cacher w) (w_disk w) (w_copies w).
Definition set_cacher {B} (c : Cacher B) (w : World B) : World B := mkWorld (w_db w) c (w_disk w) (w_copies w).
Definition set_disk {B} (d : Disk) (w : World B) : World B := mkWorld (w_db w) (w_cacher w) d (w_copies w).
Definition set_copies {B} f (w : World B) : World B := mkWorld (w_db w) (w_cacher w) (w_disk w) (f (w_copies w)).

(** ** Files of the previous submission (utils.py) *)

(** What is taken from a row of the class [cls]. *)
Class Resent (R : Type) := {
  resent_language : R → option string;
  resent_digest : Db → option Language → R → string → res (option string);
}.

#[export] Instance submission_resent : Resent Submission := {
  resent_language := sub_language;
  resent_digest := λ db _ s codename,
    Ok (fi_digest <$> head (filter (λ f, fi_submission_id f = sub_id s ∧ fi_filename f = codename) (db_files db)));
}.

#[export] Instance user_test_resent : Resent UserTest := {
  resent_language := ut_language;
  resent_digest := λ _ language u codename,
    match pd_get (ut_files u) codename with
    | Some digest => Ok (Some digest)
    | None =>
        if decide (codename = "input") then Ok (Some (ut_input u))
        else
          filename ← (if endswith ".%l" codename then
                        l ← or_raise ValueError language;
                        e ← or_raise TypeError (source_extension l);
                        Ok ((splitext codename).1 +:+ e)
                      else Ok codename);
          Ok (pd_get (ut_managers u) filename)
    end;
}.

Definition fetch_file_digests_from_previous_submission (R : Type) `{Sent R, Resent R} (db : Db)
    (participation : Participation) (task : Task) (language : option Language) (codenames : list string)
    : res (pydict string string) :=
  latest_submission ← get_latest_submission R db participation None (Some task);
  match latest_submission with
  | None => Ok []
  | Some s =>
      if decide (resent_language s ≠ name <$> language) then Ok []
      else
        fold_res (λ digests codename,
          d ← resent_digest db language s codename;
          Ok (match d with Some d => pd_set digests codename d | None => digests end)) [] codenames
  end.

(** ** The stages of a request *)

Section accept.
Context {B W : Type} `{FileCacherBackend B W} (sha1 : bytes → bytes).
Context `{Patool} (temp_name : gset string → string) (LANGUAGES : list Language) (config : Config).
(** Whether the system lets the server write a local copy in a directory. *)
Context (copy_denied : string → bool).
(** The sequence of the primary keys. *)
Context (next_id : list Z → Z).

Abbreviation stage A := (prog (World B) (Refused + A)).

Definition refuse {A} (r : Refused) : stage A := mret (inl r).
Definition and_then {A A'} (m : stage A) (k : A → stage A') : stage A' :=
  r ← m; match r with inl e => mret (inl e) | inr a => k a end.
(** [if not b: raise e] *)
Definition require (b : bool) (e : Refused) : stage unit := if b then mret (inr tt) else refuse e.

Definition query {A} (f : Db → res A) : prog (World B) A := act (λ w, (f (w_db w), w)).
Definition on_disk {A} (m : M Disk A) : M (World B) A := zoom w_disk set_disk m.

(** The words of the refusals, for submissions or for user tests. *)
Record Words : Type := mkWords {
  too_many : string;
  many_in_contest : string;
  many_on_task : string;
  too_often : string;
  often_in_contest : string;
  often_on_task : string;
  invalid_format : string;
  storage_failed : string;
  file_description : string;
}.

Definition in_seconds (microseconds : option Z) : option Z := (λ i, Z.quot i 1000000) <$> microseconds.

Definition check_limits (R : Type) `{Sent R} (words : Words) (max_number min_interval : Limits → option Z)
    (participation : Participation) (contest : Contest) (task : Task) (timestamp : Z) : stage unit :=
  let c := co_limits contest in
  let t := task_limits task in
  ok ← query (λ db, check_max_number R db (max_number c) participation (Some (co_id contest)) None);
  and_then (require ok (Unacceptable (too_many words) (many_in_contest words) (max_number c))) (λ _,
  ok ← query (λ db, check_max_number R db (max_number t) participation None (Some task));
  and_then (require ok (Unacceptable (too_many words) (many_on_task words) (max_number t))) (λ _,
  ok ← query (λ db, check_min_interval R db (min_interval c) timestamp participation (Some (co_id contest)) None);
  and_then (require ok (Unacceptable (too_often words) (often_in_contest words) (in_seconds (min_interval c)))) (λ _,
  ok ← query (λ db, check_min_interval R db (min_interval t) timestamp participation None (Some task));
  require ok (Unacceptable (too_often words) (often_on_task words) (in_seconds (min_interval t)))))).

Definition select_files (words : Words) : Refused :=
  Unacceptable (invalid_format words) "Please select the correct files." None.

(** [required_codenames] is a set. *)
Definition receive (words : Words) (contest : Contest) (required_codenames : list string)
    (tornado_files : pydict string (list HTTPFile)) (language_name : option string)
    : stage (pydict string string * option Language) :=
  received_files ← prog_try (λ e, bool_decide (e = InvalidArchive))
    (files ← act (on_disk (extract_files_from_tornado temp_name tornado_files)); mret (Some files)) (mret None);
  match received_files with
  | None => refuse (Unacceptable "Invalid archive format!" "The submitted archive could not be opened." None)
  | Some received_files =>
      match match_files_and_language LANGUAGES received_files language_name required_codenames
              (Some (co_languages contest)) with
      | Ok r => mret (inr r)
      | Raise e => if bool_decide (e = InvalidFilesOrLanguage) then refuse (select_files words) else fails e
      | Blocks => Done Blocks
      | NoFuel => Done NoFuel
      end
  end.

Definition active_task_type (task : Task) : prog (World B) TaskType :=
  query (λ db, d ← or_raise AttributeError (task_active_dataset_id task ≫= get_dataset db); task_type_object d).

Definition complete (R : Type) `{Sent R, Resent R} (words : Words) (participation : Participation) (task : Task)
    (required_codenames : list string) (files : pydict string string) (language : option Language)
    : stage (pydict string string) :=
  let missing_codenames := filter (λ c, c ∉ pd_keys files) required_codenames in
  if decide (missing_codenames = []) then mret (inr [])
  else
    task_type ← active_task_type task;
    if ALLOW_PARTIAL_SUBMISSION (class_of task_type) then
      digests ← query (λ db, fetch_file_digests_from_previous_submission R db participation task language missing_codenames);
      mret (inr digests)
    else refuse (select_files words).

Definition StorageFailed : exn := UserError "StorageFailed".

Definition store_local_copy (directory : string) (contest : Contest) (user : User) (task : Task) (timestamp : Z)
    (files : pydict string string) : M (World B) unit := λ w,
  let directory := path_join (replace "%s" (data_dir config) directory) (us_username user) in
  if copy_denied directory then (Raise StorageFailed, w)
  else (Ok tt, set_copies (<[(directory, timestamp) := (co_id contest, us_id user, task_id task, files)]>) w).

Definition make_copy (copy : bool) (directory : string) (contest : Contest) (user : User) (task : Task) (timestamp : Z)
    (files : pydict string string) : prog (World B) unit :=
  if copy then
    act (try_except (λ e, bool_decide (e = StorageFailed))
      (store_local_copy directory contest user task timestamp files) (mret tt))
  else mret tt.

(** [words % (codename, username, timestamp)] *)
Definition describe_file (words : Words) (codename : string) (user : User) (timestamp : Z) : string :=
  file_description words +:+ codename +:+ " sent by " +:+ us_username user +:+ " at "
    +:+ pretty (Z.quot timestamp 1000000) +:+ ".".

Definition store_files (words : Words) (user : User) (timestamp : Z) (files digests : pydict string string)
    : stage (pydict string string) :=
  stored ← prog_try (λ _, true)
    (digests ← prog_for_acc (λ digests kv,
       digest ← zoom_prog w_cacher set_cacher
         (put_file_content sha1 temp_name kv.2 (describe_file words kv.1 user timestamp));
       mret (pd_set digests kv.1 digest)) digests files;
     mret (Some digests)) (mret None);
  match stored with
  | Some digests => mret (inr digests)
  | None => refuse (Unacceptable (storage_failed words) "Please try again." None)
  end.

Definition too_big (max : nat) (files : pydict string string) : bool :=
  existsb (λ kv, bool_decide (max < String.length kv.2)%nat) files.

Definition the_contest (participation : Participation) : prog (World B) Contest :=
  query (λ db, or_raise AttributeError (head (filter (λ c, co_id c = pa_contest_id participation) (db_contests db)))).
Definition the_user (participation : Participation) : prog (World B) User :=
  query (λ db, or_raise AttributeError (head (filter (λ u, us_id u = pa_user_id participation) (db_users db)))).

(** ** [accept_submission] *)

Definition submission_words : Words := mkWords
  "Too many submissions!"
  "You have reached the maximum limit of at most %d submissions among all tasks."
  "You have reached the maximum limit of at most %d submissions on this task."
  "Submissions too frequent!"
  "Among all tasks, you can submit again after %d seconds from last submission."
  "For this task, you can submit again after %d seconds from last submission."
  "Invalid submission format!" "Submission storage failed!" "Submission file ".

(** The rows that the session adds, without their primary key. *)
Record NewSubmission : Type := mkNewSubmission {
  ns_participation : Z;
  ns_task : Z;
  ns_timestamp : Z;
  ns_language : option string;
  ns_official : bool;
  ns_files : pydict string string;
}.

Definition accept_submission (participation : Participation) (task : Task) (timestamp : Z)
    (tornado_files : pydict string (list HTTPFile)) (language_name : option string) (official : bool)
    : stage NewSubmission :=
  let words := submission_words in
  contest ← the_contest participation;
  if bool_decide (task_contest_id task ≠ Some (co_id contest)) then fails AssertionError
  else
    and_then (check_limits Submission words max_submission_number min_submission_interval
      participation contest task timestamp) (λ _,
    let required_codenames := remove_dups (task_submission_format task) in
    and_then (receive words contest required_codenames tornado_files language_name) (λ '(files, language),
    and_then (complete Submission words participation task required_codenames files language) (λ digests,
    and_then (require (negb (too_big (max_submission_length config) files))
      (Unacceptable "Submission too big!" "Each source file must be at most %d bytes long."
        (Some (Z.of_nat (max_submission_length config))))) (λ _,
    user ← the_user participation;
    _ ← make_copy (submit_local_copy config) (submit_local_copy_path config) contest user task timestamp files;
    and_then (store_files words user timestamp files digests) (λ digests,
    mret (inr (mkNewSubmission (pa_id participation) (task_id task) timestamp (name <$> language) official digests))))))).

(** [sql_session.commit()] *)
Definition commit_submission (s : NewSubmission) : M (World B) Z := λ w,
  let i := next_id (sub_id <$> db_submissions (w_db w)) in
  (Ok i, set_db (λ db,
     with_files (λ fs, fs ++ ((λ kv, mkFile i kv.1 kv.2) <$> ns_files s))
       (with_submissions (λ l, l ++ [mkSubmission i (ns_participation s) (ns_task s) (ns_timestamp s) (ns_language s)
          (ns_official s) None None]) db)) w).

(** [SubmitHandler.post], up to the call of the evaluation service with the
    id that is returned. *)
Definition submit (participation : Participation) (task : Task) (timestamp : Z)
    (tornado_files : pydict string (list HTTPFile)) (language_name : option string) (official : bool) : stage Z :=
  and_then (accept_submission participation task timestamp tornado_files language_name official) (λ s,
  i ← act (commit_submission s); mret (inr i)).

(** ** [accept_user_test] *)

Definition user_test_words : Words := mkWords
  "Too many tests!"
  "You have reached the maximum limit of at most %d tests among all tasks."
  "You have reached the maximum limit of at most %d tests on this task."
  "Tests too frequent!"
  "Among all tasks, you can test again after %d seconds from last test."
  "For this task, you can test again after %d seconds from last test."
  "Invalid test format!" "Test storage failed!" "Test file ".

(** The rows of the files and of the managers, of which the names may not
    repeat. *)
Record NewUserTest : Type := mkNewUserTest {
  nu_participation : Z;
  nu_task : Z;
  nu_timestamp : Z;
  nu_language : option string;
  nu_input : string;
  nu_files : list (string * string);
  nu_managers : list (string * string);
}.

(** The name of a manager in the language. *)
Definition manager_filename (language : option Language) (codename : string) : res string :=
  match language with
  | Some l => e ← or_raise TypeError (source_extension l); Ok (replace ".%l" e codename)
  | None => Ok codename
  end.

Definition user_test_files (task : Task) (digests : pydict string string) : list (string * string) :=
  filter (λ kv, kv.1 ≠ "input" ∧ kv.1 ∈ task_submission_format task) digests.
Definition user_test_managers (task : Task) (language : option Language) (digests : pydict string string)
    : res (list (string * string)) :=
  map_res (λ kv, filename ← manager_filename language kv.1; Ok (filename, kv.2))
    (filter (λ kv, kv.1 ≠ "input" ∧ kv.1 ∉ task_submission_format task) digests).

Definition accept_user_test (participation : Participation) (task : Task) (timestamp : Z)
    (tornado_files : pydict string (list HTTPFile)) (language_name : option string) : stage NewUserTest :=
  let words := user_test_words in
  contest ← the_contest participation;
  if bool_decide (task_contest_id task ≠ Some (co_id contest)) then fails AssertionError
  else
    task_type ← active_task_type task;
    and_then (require (testable (class_of task_type)) TestingNotAllowed) (λ _,
    and_then (check_limits UserTest words max_user_test_number min_user_test_interval
      participation contest task timestamp) (λ _,
    let required_codenames := remove_dups (task_submission_format task ++ get_user_managers task_type ++ ["input"]) in
    and_then (receive words contest required_codenames tornado_files language_name) (λ '(files, language),
    and_then (complete UserTest words participation task required_codenames files language) (λ digests,
    and_then (require (pd_mem files "input" || pd_mem digests "input") (select_files words)) (λ _,
    and_then (require (negb (too_big (max_submission_length config) (pd_del files "input")))
      (Unacceptable "Test too big!" "Each source file must be at most %d bytes long."
        (Some (Z.of_nat (max_submission_length config))))) (λ _,
    and_then (require (negb (too_big (max_input_length config) (filter (λ kv, kv.1 = "input") files)))
      (Unacceptable "Input too big!" "The input file must be at most %d bytes long."
        (Some (Z.of_nat (max_input_length config))))) (λ _,
    user ← the_user participation;
    _ ← make_copy (tests_local_copy config) (tests_local_copy_path config) contest user task timestamp files;
    and_then (store_files words user timestamp files digests) (λ digests,
    match pd_get digests "input", user_test_managers task language digests with
    | Some input, Ok managers =>
        mret (inr (mkNewUserTest (pa_id participation) (task_id task) timestamp (name <$> language) input
          (user_test_files task digests) managers))
    | None, _ => fails KeyError
    | Some _, Raise e => fails e
    | Some _, Blocks => Done Blocks
    | Some _, NoFuel => Done NoFuel
    end)))))))).

Definition commit_user_test (u : NewUserTest) : M (World B) Z := λ w,
  if decide (NoDup (nu_managers u).*1 ∧ NoDup (nu_files u).*1) then
    let i := next_id (ut_id <$> db_user_tests (w_db w)) in
    (Ok i, set_db (with_user_tests (λ l, l ++ [mkUserTest i (nu_task u) (nu_timestamp u) (nu_language u) (nu_input u)
       (nu_files u) (nu_managers u) (nu_participation u)])) w)
  else (Raise IntegrityError, w).

(** [UserTestHandler.post], up to the call of the evaluation service. *)
Definition submit_test (participation : Participation) (task : Task) (timestamp : Z)
    (tornado_files : pydict string (list HTTPFile)) (language_name : option string) : stage Z :=
  and_then (accept_user_test participation task timestamp tornado_files language_name) (λ u,
  i ← act (commit_user_test u); mret (inr i)).
End accept.
