(* ===== verification/SubmissionLimits.v ===== *)
(** * The limits of contestants

    A contest web server that handles requests one after another never lets a
    participation exceed the maximum number of submissions and user tests, nor
    send them more often than the minimum interval ([limits_respected]),
    whatever the requests, the storage and the archives. *)

From S2P Require Import Prelude PyString Database Languages TaskTypes Interleaving FileStorage FileCacher Archive SubmissionCheck FileMatching AcceptSubmission.

Local Open Scope string_scope.
Local Open Scope list_scope.

(** ** Programs that leave the database as it is *)

Section reading.
Context {B : Type}.

Definition keeps_db {A} (p : prog (World B) A) : Prop := ∀ w, w_db (run p w).2 = w_db w.

Lemma keeps_done {A} (r : res A) : keeps_db (Done r).
Proof. done. Qed.

Lemma keeps_on_result {A A'} (k : res A → prog (World B) A') p :
  keeps_db p → (∀ r, keeps_db (k r)) → keeps_db (on_result k p).
Proof. intros Hp Hk w. by rewrite run_on_result, Hk, Hp. Qed.

Lemma keeps_seq {A A'} (p : prog (World B) A) (k : A → prog (World B) A') :
  keeps_db p → (∀ a, keeps_db (k a)) → keeps_db (p ≫= k).
Proof. intros Hp Hk. apply keeps_on_result; [done|]. intros [a| | |]; [apply Hk|done..]. Qed.

Lemma keeps_and_then {A A'} (m : prog (World B) (Refused + A)) (k : A → prog (World B) (Refused + A')) :
  keeps_db m → (∀ a, keeps_db (k a)) → keeps_db (and_then m k).
Proof. intros Hm Hk. apply keeps_seq; [done|]. intros [e|a]; [done|apply Hk]. Qed.

Lemma keeps_try {A} h (p q : prog (World B) A) : keeps_db p → keeps_db q → keeps_db (prog_try h p q).
Proof. intros Hp Hq. apply keeps_on_result; [done|]. intros [|e| |]; [done| |done..]. by destruct (h e). Qed.

Lemma keeps_act {A} (m : M (World B) A) : (∀ w, w_db (m w).2 = w_db w) → keeps_db (act m).
Proof. intros Hm w. rewrite run_act. apply Hm. Qed.

Lemma keeps_query {A} (f : Db → res A) : keeps_db (query f).
Proof. by apply keeps_act. Qed.

Lemma keeps_require b e : keeps_db (require b e).
Proof. by destruct b. Qed.

Lemma run_cacher {A} (p : prog (Cacher B) A) w :
  run (zoom_prog w_cacher set_cacher p) w = ((run p (w_cacher w)).1, set_cacher (run p (w_cacher w)).2 w).
Proof.
  rewrite run_zoom; [|done|done|by intros []]. unfold zoom. by destruct (run p (w_cacher w)).
Qed.

Lemma keeps_cacher {A} (p : prog (Cacher B) A) : keeps_db (zoom_prog w_cacher set_cacher p).
Proof. intros w. by rewrite run_cacher. Qed.

Lemma keeps_disk {A} (m : M Disk A) : keeps_db (act (on_disk m)).
Proof. apply keeps_act. intros w. unfold on_disk, zoom. by destruct (m (w_disk w)). Qed.

Lemma keeps_loop {A A'} (f : A' → A → prog (World B) A') acc l :
  (∀ acc x, keeps_db (f acc x)) → keeps_db (prog_for_acc f acc l).
Proof. intros Hf. revert acc. induction l as [|x l IH]; intros acc; [done|]. by apply keeps_seq. Qed.

(** A run that is accepted was accepted by every stage. *)
Lemma run_seq_Ok {A A'} (p : prog (World B) A) (k : A → prog (World B) A') w b w' :
  run (p ≫= k) w = (Ok b, w') ↔ ∃ a w1, run p w = (Ok a, w1) ∧ run (k a) w1 = (Ok b, w').
Proof. rewrite run_bind. apply M_bind_Ok. Qed.

Lemma run_and_then {A A'} (m : prog (World B) (Refused + A)) (k : A → prog (World B) (Refused + A')) w o w1 :
  run m w = (Ok o, w1) →
  run (and_then m k) w = match o with inl e => (Ok (inl e), w1) | inr a => run (k a) w1 end.
Proof.
  intros Hm. unfold and_then. rewrite run_bind. rewrite (M_run_Ok _ _ _ _ _ Hm). by destruct o.
Qed.

Lemma and_then_accepts {A A'} (m : prog (World B) (Refused + A)) (k : A → prog (World B) (Refused + A')) w b w' :
  run (and_then m k) w = (Ok (inr b), w') ↔ ∃ a w1, run m w = (Ok (inr a), w1) ∧ run (k a) w1 = (Ok (inr b), w').
Proof.
  unfold and_then. rewrite run_seq_Ok. split.
  - intros ([e|a] & w1 & Hm & Hk); [done|]. by exists a, w1.
  - intros (a & w1 & Hm & Hk). by exists (inr a), w1.
Qed.


(** What follows a stage that leaves the database as it is. *)
Lemma after_stage {A A'} (P : Db → Prop) (m : prog (World B) (Refused + A)) (k : A → prog (World B) (Refused + A')) w :
  keeps_db m → P (w_db w) → (∀ a w1, run m w = (Ok (inr a), w1) → w_db w1 = w_db w → P (w_db (run (k a) w1).2)) →
  P (w_db (run (and_then m k) w).2).
Proof.
  intros Hm Hw Hk. specialize (Hm w). unfold and_then. rewrite run_bind. unfold mbind at 1, M_bind.
  destruct (run m w) as [[[e|a]| | |] w1]; cbn in Hm; [by rewrite <- Hm in Hw|by apply Hk|by rewrite <- Hm in Hw..].
Qed.
End reading.

(** ** Limits *)

Section limits.
Context {B R : Type} `{Sent R}.

(** There is room for one more, and the last ones are old enough. *)
Definition room (max_number : option Z) (l : list R) : Prop := ∀ n, max_number = Some n → (Z.of_nat (length l) < n)%Z.
Definition rested (min_interval : option Z) (now : Z) (l : list R) : Prop :=
  ∀ n r, min_interval = Some n → r ∈ l → (n ≤ now - sent_timestamp r)%Z.

Definition may_send (max_number min_interval : Limits → option Z) (db : Db) (p : Participation) (c : Contest) (t : Task)
    (now : Z) : Prop :=
  pa_unrestricted p = true ∨
  let in_contest := sent_in_contest db (pa_id p) (co_id c) in
  let on_task := sent_on_task db (pa_id p) (task_id t) in
  room (max_number (co_limits c)) in_contest ∧ room (max_number (task_limits t)) on_task ∧
  rested (min_interval (co_limits c)) now in_contest ∧ rested (min_interval (task_limits t)) now on_task.

Lemma check_max_decides db m p c t l :
  _filter_submission_query R db p c t = Ok l →
  ∃ b, check_max_number R db m p c t = Ok b ∧ (b = true ↔ pa_unrestricted p = true ∨ room m l).
Proof.
  intros Hl. destruct m as [m|].
  - destruct (pa_unrestricted p) eqn:Hu.
    + exists true. unfold check_max_number. rewrite Hu. split; [done|]. tauto.
    + eexists. split; [by apply check_max_ok|]. rewrite Z.ltb_lt. unfold room. naive_solver.
  - exists true. split; [done|]. split; [|done]. by right.
Qed.

Lemma check_interval_decides db m now p c t l :
  _filter_submission_query R db p c t = Ok l →
  ∃ b, check_min_interval R db m now p c t = Ok b ∧ (b = true ↔ pa_unrestricted p = true ∨ rested m now l).
Proof.
  intros Hl. destruct m as [m|].
  - destruct (pa_unrestricted p) eqn:Hu.
    + exists true. unfold check_min_interval. rewrite Hu. split; [done|]. tauto.
    + destruct (check_interval_ok db m now p c t l Hl Hu) as (b & Hb & Hiff). exists b. split; [done|].
      rewrite Hiff. unfold rested. naive_solver.
  - exists true. split; [done|]. split; [|done]. by right.
Qed.

(** The four checks decide whether one more may be sent. *)
Lemma check_limits_ok words max_number min_interval p c t now (w : World B) :
  ∃ o, run (check_limits R words max_number min_interval p c t now) w = (Ok o, w) ∧
    (o = inr tt ↔ may_send max_number min_interval (w_db w) p c t now).
Proof.
  unfold check_limits, may_send. set (db := w_db w). cbn.
  destruct (check_max_decides db (max_number (co_limits c)) p (Some (co_id c)) None
    (sent_in_contest db (pa_id p) (co_id c)) eq_refl) as (b1 & Hb1 & H1).
  destruct (check_max_decides db (max_number (task_limits t)) p None (Some t)
    (sent_on_task db (pa_id p) (task_id t)) eq_refl) as (b2 & Hb2 & H2).
  destruct (check_interval_decides db (min_interval (co_limits c)) now p (Some (co_id c)) None
    (sent_in_contest db (pa_id p) (co_id c)) eq_refl) as (b3 & Hb3 & H3).
  destruct (check_interval_decides db (min_interval (task_limits t)) now p None (Some t)
    (sent_on_task db (pa_id p) (task_id t)) eq_refl) as (b4 & Hb4 & H4).
  fold db. rewrite Hb1. destruct b1; cbn; [|eexists; split; [done|]; naive_solver].
  fold db. rewrite Hb2. destruct b2; cbn; [|eexists; split; [done|]; naive_solver].
  fold db. rewrite Hb3. destruct b3; cbn; [|eexists; split; [done|]; naive_solver].
  fold db. rewrite Hb4. destruct b4; cbn; eexists; (split; [done|]); naive_solver.
Qed.
End limits.

(** ** Limits over many requests *)

Section kept.
Context {R : Type} `{Sent R}.

(** At most the maximum of rows, each the interval after all those before. *)
Definition respected (max_number min_interval : option Z) (l : list R) : Prop :=
  (∀ n, max_number = Some n → (Z.of_nat (length l) ≤ Z.max 0 n)%Z) ∧
  (∀ n, min_interval = Some n → StronglySorted (λ r r', n ≤ sent_timestamp r' - sent_timestamp r)%Z l).

(** The limits of contests and tasks on participations that are not
    unrestricted. *)
Definition limits_kept (max_number min_interval : Limits → option Z) (db : Db) : Prop :=
  ∀ p c, p ∈ db_participations db → pa_unrestricted p = false → c ∈ db_contests db → pa_contest_id p = co_id c →
    respected (max_number (co_limits c)) (min_interval (co_limits c)) (sent_in_contest db (pa_id p) (co_id c)) ∧
    ∀ t, t ∈ db_tasks db → task_contest_id t = Some (co_id c) →
      respected (max_number (task_limits t)) (min_interval (task_limits t)) (sent_on_task db (pa_id p) (task_id t)).

Lemma respected_one_more m i l x :
  respected m i l → room m l → rested i (sent_timestamp x) l → respected m i (l ++ [x]).
Proof.
  intros [Hm Hi] Hroom Hrest. split.
  - intros n Hn. specialize (Hroom n Hn). rewrite length_app. cbn. lia.
  - intros n Hn. apply StronglySorted_app_2; [|by apply Hi|repeat constructor].
    intros a b Ha ->%list_elem_of_singleton. by apply (Hrest n).
Qed.

Record keys_unique (db : Db) : Prop := {
  ku_participations : NoDup (pa_id <$> db_participations db);
  ku_contests : NoDup (co_id <$> db_contests db);
  ku_tasks : NoDup (task_id <$> db_tasks db);
}.

(** A row that may be sent keeps the limits. *)
Lemma limits_kept_add max_number min_interval db db' p c t x :
  keys_unique db → limits_kept max_number min_interval db →
  p ∈ db_participations db → c ∈ db_contests db → t ∈ db_tasks db →
  pa_contest_id p = co_id c → task_contest_id t = Some (co_id c) →
  may_send max_number min_interval db p c t (sent_timestamp x) →
  sent_participation_id x = pa_id p → sent_task_id x = task_id t →
  db_participations db' = db_participations db → db_contests db' = db_contests db → db_tasks db' = db_tasks db →
  sent_rows db' = sent_rows db ++ [x] →
  limits_kept max_number min_interval db'.
Proof.
  intros [Hkp Hkc Hkt] Hl Hp Hc Ht Hpc Htc Hmay Hxp Hxt Hp' Hc' Ht' Hrows q d Hq Hu Hd Hqd.
  rewrite Hp' in Hq. rewrite Hc' in Hd. destruct (Hl q d Hq Hu Hd Hqd) as [Hlc Hlt].
  assert (∀ e, of_contest R db' e x = true → e = co_id c) as Hof.
  { intros e He. unfold of_contest in He. rewrite Ht' in He.
    apply existsb_exists in He as (t0 & Ht0%list_elem_of_In & [H1%bool_decide_eq_true H2%bool_decide_eq_true]%andb_prop).
    assert (t0 = t) as -> by (apply (key_unique task_id _ _ _ Hkt); [done|done|congruence]). congruence. }
  assert (q = p → pa_contest_id q = co_id c) as Hqc by (by intros ->).
  assert (pa_id q = pa_id p → q = p) as Hqp.
  { intros Heq. by apply (key_unique pa_id _ _ _ Hkp). }
  assert (∀ a b, pa_contest_id q = co_id b → pa_contest_id q = co_id a → a ∈ db_contests db → b ∈ db_contests db → a = b) as Hcc.
  { intros a b H1 H2 Ha Hb. apply (key_unique co_id _ _ _ Hkc); [done|done|congruence]. }
  assert (∀ e r, of_contest R db' e r = of_contest R db e r) as Hofeq by (intros; unfold of_contest; by rewrite Ht').
  split.
  - unfold sent_in_contest. rewrite Hrows, !filter_app.
    assert (filter (λ r, of_contest R db' (co_id d) r) (sent_rows db) = filter (λ r, of_contest R db (co_id d) r) (sent_rows db)) as ->.
    { apply list_filter_iff. intros r. by rewrite Hofeq. }
    rewrite filter_cons, filter_nil. case_decide as Hx; [|by rewrite filter_nil, app_nil_r].
    rewrite filter_cons, filter_nil. case_decide as Hxq; [|by rewrite app_nil_r].
    assert (q = p) as -> by (apply Hqp; congruence). assert (d = c) as -> by (by apply Hcc).
    destruct Hmay as [Hun|(H1 & _ & H3 & _)]; [congruence|]. by apply respected_one_more.
  - intros t0 Ht0 Htd. rewrite Ht' in Ht0. specialize (Hlt t0 Ht0 Htd). unfold sent_on_task. rewrite Hrows, !filter_app.
    rewrite filter_cons, filter_nil. case_decide as Hx; [|by rewrite filter_nil, app_nil_r].
    rewrite filter_cons, filter_nil. case_decide as Hxq; [|by rewrite app_nil_r].
    assert (q = p) as -> by (apply Hqp; congruence).
    assert (t0 = t) as -> by (apply (key_unique task_id _ _ _ Hkt); [done|done|congruence]).
    destruct Hmay as [Hun|(_ & H2 & _ & H4)]; [congruence|]. by apply respected_one_more.
Qed.

Lemma limits_kept_same max_number min_interval db db' :
  limits_kept max_number min_interval db →
  db_participations db' = db_participations db → db_contests db' = db_contests db → db_tasks db' = db_tasks db →
  sent_rows db' = sent_rows db → limits_kept max_number min_interval db'.
Proof.
  intros Hl Hp Hc Ht Hr p c H1 H2 H3 H4. rewrite Hp in H1. rewrite Hc in H3. rewrite Ht.
  destruct (Hl p c H1 H2 H3 H4) as [H5 H6]. unfold sent_in_contest, sent_on_task, of_contest in *. by rewrite Hr, Ht.
Qed.
End kept.

(** ** What an accepted request has passed *)

Section accepted.
Context {B W : Type} `{FileCacherBackend B W} (sha1 : bytes → bytes).
Context `{Patool} (temp_name : gset string → string) (LANGUAGES : list Language) (config : Config).
Context (copy_denied : string → bool) (next_id : list Z → Z).

Lemma keeps_copy b dir c u t now files : keeps_db (make_copy (B:=B) config copy_denied b dir c u t now files).
Proof.
  unfold make_copy. destruct b; [|done]. apply keeps_act. intros w. unfold try_except, store_local_copy. by destruct (copy_denied _).
Qed.

Lemma keeps_limits R `{Sent R} words mx mi p c t now : keeps_db (B:=B) (check_limits R words mx mi p c t now).
Proof. intros w. by destruct (check_limits_ok words mx mi p c t now w) as (o & -> & _). Qed.

Lemma keeps_receive words c req tf lang : keeps_db (B:=B) (receive temp_name LANGUAGES words c req tf lang).
Proof.
  unfold receive. apply keeps_seq; [apply keeps_try; [apply keeps_seq; [apply keeps_disk|done]|done]|]. intros [files|]; [|done].
  destruct (match_files_and_language _ _ _ _ _) as [|e| |]; [done| |done..]. by case_match.
Qed.

Lemma keeps_complete R `{Sent R, !Resent R} words p t req files l : keeps_db (B:=B) (complete R words p t req files l).
Proof.
  unfold complete. case_decide; [done|]. apply keeps_seq; [apply keeps_query|]. intros tt_.
  case_match; [|done]. apply keeps_seq; [apply keeps_query|done].
Qed.

Lemma keeps_store words u now files ds : keeps_db (store_files sha1 temp_name words u now files ds).
Proof.
  unfold store_files. apply keeps_seq; [|by intros [|]]. apply keeps_try; [|done].
  apply keeps_seq; [|done]. apply keeps_loop. intros acc x. by apply keeps_seq; [apply keeps_cacher|].
Qed.


Abbreviation accept_submission := (accept_submission sha1 temp_name LANGUAGES config copy_denied).
Abbreviation accept_user_test := (accept_user_test sha1 temp_name LANGUAGES config copy_denied).

Lemma accept_submission_keeps p t now tf lang off : keeps_db (accept_submission p t now tf lang off).
Proof.
  unfold AcceptSubmission.accept_submission. apply keeps_seq; [apply keeps_query|]. intros c. case_match; [done|].
  apply keeps_and_then; [apply keeps_limits|]. intros _. apply keeps_and_then; [apply keeps_receive|]. intros [files l].
  apply keeps_and_then; [apply keeps_complete|]. intros ds. apply keeps_and_then; [apply keeps_require|]. intros _.
  apply keeps_seq; [apply keeps_query|]. intros u. apply keeps_seq; [apply keeps_copy|]. intros _.
  apply keeps_and_then; [apply keeps_store|done].
Qed.

Lemma accept_user_test_keeps p t now tf lang : keeps_db (accept_user_test p t now tf lang).
Proof.
  unfold AcceptSubmission.accept_user_test. apply keeps_seq; [apply keeps_query|]. intros c. case_match; [done|].
  apply keeps_seq; [apply keeps_query|]. intros ty. apply keeps_and_then; [apply keeps_require|]. intros _.
  apply keeps_and_then; [apply keeps_limits|]. intros _. apply keeps_and_then; [apply keeps_receive|]. intros [files l].
  apply keeps_and_then; [apply keeps_complete|]. intros ds. do 3 (apply keeps_and_then; [apply keeps_require|]; intros _).
  apply keeps_seq; [apply keeps_query|]. intros u. apply keeps_seq; [apply keeps_copy|]. intros _.
  apply keeps_and_then; [apply keeps_store|]. intros ds'. by repeat case_match.
Qed.

(** The contest of the participation. *)
Definition contest_of (db : Db) (p : Participation) (t : Task) (c : Contest) : Prop :=
  c ∈ db_contests db ∧ pa_contest_id p = co_id c ∧ task_contest_id t = Some (co_id c).

Lemma the_contest_inv p w c w1 :
  run (the_contest (B:=B) p) w = (Ok c, w1) → w1 = w ∧ c ∈ db_contests (w_db w) ∧ pa_contest_id p = co_id c.
Proof.
  unfold the_contest, query. rewrite run_act. intros [= Hc <-]. split; [done|].
  destruct (head _) as [c'|] eqn:Hh; [|done]. injection Hc as ->.
  apply head_Some_elem_of, list_elem_of_filter in Hh. naive_solver.
Qed.

Lemma accept_submission_inv p t now tf lang off w s w' :
  run (accept_submission p t now tf lang off) w = (Ok (inr s), w') →
  ∃ c, contest_of (w_db w) p t c ∧ may_send (R:=Submission) max_submission_number min_submission_interval (w_db w) p c t now ∧
    ns_participation s = pa_id p ∧ ns_task s = task_id t ∧ ns_timestamp s = now.
Proof.
  intros (c & w1 & Hc & Hr)%run_seq_Ok. apply the_contest_inv in Hc as (-> & Hin & Hpc). exists c.
  case_bool_decide as Htc; [done|].
  apply and_then_accepts in Hr as ([] & w2 & Hlim & Hr).
  destruct (check_limits_ok (R:=Submission) submission_words max_submission_number min_submission_interval p c t now w) as (o & Ho & Hiff).
  rewrite Hlim in Ho. injection Ho as <- ->. split_and!; [done..|by apply Hiff| | |];
    (apply and_then_accepts in Hr as ([files l] & w3 & _ & Hr); apply and_then_accepts in Hr as (ds & w4 & _ & Hr);
     apply and_then_accepts in Hr as ([] & w5 & _ & Hr); apply run_seq_Ok in Hr as (u & w6 & _ & Hr);
     apply run_seq_Ok in Hr as ([] & w7 & _ & Hr); apply and_then_accepts in Hr as (ds' & w8 & _ & Hr); by injection Hr as <- _).
Qed.

Lemma accept_user_test_inv p t now tf lang w s w' :
  run (accept_user_test p t now tf lang) w = (Ok (inr s), w') →
  ∃ c, contest_of (w_db w) p t c ∧ may_send (R:=UserTest) max_user_test_number min_user_test_interval (w_db w) p c t now ∧
    nu_participation s = pa_id p ∧ nu_task s = task_id t ∧ nu_timestamp s = now.
Proof.
  intros (c & w1 & Hc & Hr)%run_seq_Ok. apply the_contest_inv in Hc as (-> & Hin & Hpc). exists c.
  case_bool_decide as Htc; [done|].
  apply run_seq_Ok in Hr as (ty & w2 & Hty & Hr). injection Hty as _ <-.
  apply and_then_accepts in Hr as ([] & w3 & Hreq & Hr).
  assert (w3 = w) as -> by (destruct (testable (class_of ty)); [by injection Hreq as <-|done]).
  apply and_then_accepts in Hr as ([] & w4 & Hlim & Hr).
  destruct (check_limits_ok (R:=UserTest) user_test_words max_user_test_number min_user_test_interval p c t now w) as (o & Ho & Hiff).
  rewrite Hlim in Ho. injection Ho as <- ->. split_and!; [done..|by apply Hiff| | |];
    (apply and_then_accepts in Hr as ([files l] & w3 & _ & Hr); apply and_then_accepts in Hr as (ds & w4 & _ & Hr);
     do 3 (apply and_then_accepts in Hr as ([] & ? & _ & Hr)); apply run_seq_Ok in Hr as (u & w6 & _ & Hr);
     apply run_seq_Ok in Hr as ([] & w7 & _ & Hr); apply and_then_accepts in Hr as (ds' & w8 & _ & Hr);
     repeat case_match; try done; by injection Hr as <- _).
Qed.

(** Requests of either kind, one after another. *)
Inductive Request : Type :=
  | SubmitRequest (tornado_files : pydict string (list HTTPFile)) (language_name : option string) (official : bool)
  | TestRequest (tornado_files : pydict string (list HTTPFile)) (language_name : option string).

Definition handle (p : Participation) (t : Task) (now : Z) (q : Request) : prog (World B) (Refused + Z) :=
  match q with
  | SubmitRequest files lang official => submit sha1 temp_name LANGUAGES config copy_denied next_id p t now files lang official
  | TestRequest files lang => submit_test sha1 temp_name LANGUAGES config copy_denied next_id p t now files lang
  end.

Definition handle_all (qs : list (Participation * Task * Z * Request)) (w : World B) : World B :=
  foldl (λ w '(p, t, now, q), (run (handle p t now q) w).2) w qs.

Definition all_limits_kept (db : Db) : Prop :=
  limits_kept (R:=Submission) max_submission_number min_submission_interval db ∧
  limits_kept (R:=UserTest) max_user_test_number min_user_test_interval db.

(** Contests, participations and tasks are not touched. *)
Definition same_setting (db db' : Db) : Prop :=
  db_participations db' = db_participations db ∧ db_contests db' = db_contests db ∧ db_tasks db' = db_tasks db.

(** What a request adds to the database. *)
Inductive added (db : Db) (p : Participation) (t : Task) (now : Z) : Db → Prop :=
  | added_nothing : added db p t now db
  | added_submission c s fs db' :
      contest_of db p t c → may_send (R:=Submission) max_submission_number min_submission_interval db p c t now →
      sub_participation_id s = pa_id p → sub_task_id s = task_id t → sub_timestamp s = now →
      db' = with_files (λ l, l ++ fs) (with_submissions (λ l, l ++ [s]) db) → added db p t now db'
  | added_user_test c u db' :
      contest_of db p t c → may_send (R:=UserTest) max_user_test_number min_user_test_interval db p c t now →
      ut_participation_id u = pa_id p → ut_task_id u = task_id t → ut_timestamp u = now →
      db' = with_user_tests (λ l, l ++ [u]) db → added db p t now db'.

Lemma submit_adds p t now q w : added (w_db w) p t now (w_db (run (handle p t now q) w).2).
Proof.
  destruct q as [tf lang off|tf lang]; cbn [handle].
  - apply (after_stage (added (w_db w) p t now)); [apply accept_submission_keeps|constructor|].
    intros s w1 (c & Hc & Hm & H1 & H2 & H3)%accept_submission_inv Hdb. cbn. rewrite Hdb. by refine (added_submission _ _ _ _ c _ _ _ Hc Hm _ _ _ eq_refl).
  - apply (after_stage (added (w_db w) p t now)); [apply accept_user_test_keeps|constructor|].
    intros u w1 (c & Hc & Hm & H1 & H2 & H3)%accept_user_test_inv Hdb.
    cbn. unfold commit_user_test. case_decide; cbn; rewrite Hdb; [by refine (added_user_test _ _ _ _ c _ _ Hc Hm _ _ _ eq_refl)|constructor].
Qed.

Lemma added_keeps db p t now db' :
  keys_unique db → p ∈ db_participations db → t ∈ db_tasks db → added db p t now db' → all_limits_kept db →
  all_limits_kept db' ∧ same_setting db db'.
Proof.
  intros Hu Hp Ht [|c s fs ? (Hc & Hpc & Htc) Hm H1 H2 H3 ->|c u ? (Hc & Hpc & Htc) Hm H1 H2 H3 ->] [Hs Hl]; [done|split..]; try done; split.
  - subst now. by eapply (limits_kept_add _ _ _ _ p c t s).
  - by eapply limits_kept_same.
  - by eapply limits_kept_same.
  - subst now. by eapply (limits_kept_add _ _ _ _ p c t u).
Qed.

(** C5. Whatever is sent, in whatever format, at whatever time, whatever the
    storage, the archives and the disk answer, as long as requests are handled
    one after another: if no participation that is not unrestricted exceeds
    the limits to begin with, none ever does. On a contest and on a task there
    are at most as many submissions, and as many user tests, as the maximum
    that is set for them, and each is the minimum interval or more after all
    those that came before. *)
Theorem limits_respected qs w :
  keys_unique (w_db w) → all_limits_kept (w_db w) →
  Forall (λ '(p, t, now, q), p ∈ db_participations (w_db w) ∧ t ∈ db_tasks (w_db w)) qs →
  all_limits_kept (w_db (handle_all qs w)).
Proof.
  revert w. induction qs as [|[[[p t] now] q] qs IH]; intros w Hu Hl Hqs; [done|].
  apply Forall_cons in Hqs as [[Hp Ht] Hqs]. cbn [handle_all foldl].
  destruct (added_keeps _ p t now _ Hu Hp Ht (submit_adds p t now q w) Hl) as (Hl' & H1 & H2 & H3).
  apply IH; [|done|by rewrite H1, H3]. destruct Hu. split; congruence.
Qed.
End accepted.
