(* ===== verification/SubmissionSpec.v ===== *)
(** * Which submissions are accepted

    With a storage that keeps its contract and archives that patool reads or
    refuses, a submission is accepted exactly when it should be, with the
    files that it should have ([accept_submission_exact]). Requests one after
    the other respect the limits ([limits_respected]); two at the same time may
    not ([limit_exceeded_by_race], an example). *)

From S2P Require Import Prelude PyString Database Languages TaskTypes Interleaving FileStorage FileCacher FileStorageSpec FileCacherSpec FileService Archive SubmissionCheck FileMatching AcceptSubmission SubmissionLimits.

Local Open Scope string_scope.
Local Open Scope list_scope.

(** ** When a submission is accepted *)

Section exact.
Context {B W : Type} `{FileCacherBackend B W} (sha1 : bytes → bytes) `{!BackendSpec sha1 B W}.
Context (temp_name : gset string → string).
Context (sha1_length : ∀ b, String.length (sha1 b) = 20) (temp_fresh : ∀ used, temp_name used ∉ used).
Context `{Patool} (Hpatool : patool_errors).
Context (LANGUAGES : list Language) (HL : NoDup (name <$> LANGUAGES)) (config : Config) (copy_denied : string → bool).

Lemma run_receive words c req tf lang (w : World B) :
  NoDup req →
  ∃ o, run (receive temp_name LANGUAGES words c req tf lang) w = (Ok o, w) ∧
    ∀ files l, o = inr (files, l) ↔ ∃ g, (extract_files_from_tornado temp_name tf (w_disk w)).1 = Ok g ∧
      only_match LANGUAGES g lang req (Some (co_languages c)) files l.
Proof.
  intros Hreq. unfold receive. rewrite run_bind.
  destruct (extract_from_tornado_ok temp_name temp_fresh tf (w_disk w) Hpatool) as (r & Hr & Hcases).
  assert (run (act (on_disk (extract_files_from_tornado temp_name tf))) w = (r, w)) as Hact.
  { rewrite run_act. unfold on_disk, zoom. rewrite Hr. by destruct w. }
  rewrite (M_run_Ok _ _ w (match r with Ok l => Some l | _ => None end) w).
  2: { rewrite run_try. unfold try_except. rewrite run_bind. unfold mbind, M_bind. rewrite Hact.
       destruct Hcases as [[l ->]| ->]; [done|]. by rewrite bool_decide_eq_true_2. }
  rewrite Hr. cbn [fst]. destruct Hcases as [[g ->]| ->]; [|by eexists; split; [done|naive_solver]].
  destruct (match_decided LANGUAGES HL g lang req (Some (co_languages c)) Hreq) as [(files & l & -> & Hm)|[-> Hno]].
  - eexists. split; [done|]. intros files' l'. split.
    + intros [= <- <-]. by exists g.
    + intros (g' & [= <-] & Hm'). by destruct (only_match_unique _ _ _ _ _ _ _ _ _ Hm Hm') as [-> ->].
  - rewrite bool_decide_eq_true_2 by done. eexists. split; [done|]. naive_solver.
Qed.

(** The file of the same name of the last submission on the task, when that is
    in the same language. *)
Definition previous_file (db : Db) (p : Participation) (t : Task) (l : option Language) (e : string) : option string :=
  match latest (sent_on_task (R:=Submission) db (pa_id p) (task_id t)) with
  | Some s =>
      if decide (sub_language s = name <$> l) then
        fi_digest <$> head (filter (λ f, fi_submission_id f = sub_id s ∧ fi_filename f = e) (db_files db))
      else None
  | None => None
  end.

Lemma fetch_ok db p t l codenames :
  ∃ ds, fetch_file_digests_from_previous_submission Submission db p t l codenames = Ok ds ∧
    ∀ e, pd_get ds e = if decide (e ∈ codenames) then previous_file db p t l e else None.
Proof.
  unfold fetch_file_digests_from_previous_submission, previous_file.
  change (get_latest_submission Submission db p None (Some t)) with
    (Ok (latest (sent_on_task (R:=Submission) db (pa_id p) (task_id t)))).
  cbn [mbind res_bind option_bind]. destruct (latest _) as [s|].
  2: { exists []. split; [done|]. intros e. by case_decide. }
  cbn [resent_language resent_digest submission_resent]. case_decide as Hl.
  { exists []. split; [done|]. intros e. rewrite (decide_False (P := sub_language s = _)) by done. by case_decide. }
  set (f e := fi_digest <$> head (filter (λ f, fi_submission_id f = sub_id s ∧ fi_filename f = e) (db_files db))).
  assert (∀ acc, ∃ ds, fold_res (λ digests codename,
      d ← Ok (f codename); Ok (match d with Some d => pd_set digests codename d | None => digests end)) acc codenames = Ok ds ∧
    ∀ e, pd_get ds e = match (if decide (e ∈ codenames) then f e else None) with Some d => Some d | None => pd_get acc e end) as Hf.
  { induction codenames as [|x xs IH]; intros acc; [by exists acc|]. cbn [fold_res]. cbn [mbind res_bind].
    destruct (IH (match f x with Some d => pd_set acc x d | None => acc end)) as (ds & Hds & Hget).
    exists ds. split; [exact Hds|]. intros e. rewrite Hget.
    destruct (decide (e ∈ xs)) as [Hin|Hin]; [rewrite decide_True by (by right)|].
    - destruct (f e) eqn:Hfe; [done|]. destruct (f x) eqn:Hfx; [|done]. rewrite pd_get_set_ne; [done|]. intros ->. congruence.
    - destruct (decide (e = x)) as [->|Hne].
      + rewrite decide_True by (by left). destruct (f x); [by rewrite pd_get_set_eq|done].
      + rewrite decide_False by (rewrite elem_of_cons; tauto). destruct (f x); [by rewrite pd_get_set_ne|done]. }
  destruct (Hf []) as (ds & Hds & Hget). exists ds. split; [exact Hds|]. intros e. rewrite Hget.
  rewrite (decide_True (P := sub_language s = _)) by done. subst f. cbn. by destruct (if decide (e ∈ codenames) then _ else _).
Qed.

Lemma run_complete words p t req files l ty (w : World B) :
  (∃ d, task_active_dataset_id t ≫= get_dataset (w_db w) = Some d ∧ task_type_object d = Ok ty) →
  let whole := ALLOW_PARTIAL_SUBMISSION (class_of ty) = true ∨ ∀ e, e ∈ req → e ∈ pd_keys files in
  ∃ o, run (complete Submission words p t req files l) w = (Ok o, w) ∧
    (whole ↔ ∃ ds, o = inr ds) ∧
    ∀ ds e, o = inr ds → pd_get ds e = if decide (e ∈ req ∧ e ∉ pd_keys files) then previous_file (w_db w) p t l e else None.
Proof.
  intros (d & Hd & Hty) whole. unfold complete. set (missing := filter _ req).
  assert (∀ e, e ∈ missing ↔ e ∈ req ∧ e ∉ pd_keys files) as Hmis.
  { intros e. subst missing. rewrite list_elem_of_filter. tauto. }
  case_decide as Hm.
  - assert (∀ e, e ∈ req → e ∈ pd_keys files) as Hall.
    { intros e He. destruct (decide (e ∈ pd_keys files)); [done|]. exfalso. apply (not_elem_of_nil e). rewrite <- Hm. by apply Hmis. }
    exists (inr []). split_and!; [done| |].
    + split; [by eexists|]. by right.
    + intros ds e [= <-]. rewrite decide_False; [done|]. naive_solver.
  - rewrite run_bind. rewrite (M_run_Ok _ _ w ty w).
    2: { unfold active_task_type, query. rewrite run_act. cbn. unfold mbind, option_bind in Hd. cbn in Hd. f_equal.
         destruct (task_active_dataset_id t) as [i|]; [|done]. cbn in *. by rewrite Hd. }
    destruct (ALLOW_PARTIAL_SUBMISSION (class_of ty)) eqn:Hp.
    + destruct (fetch_ok (w_db w) p t l missing) as (ds & Hds & Hget). rewrite run_bind.
      rewrite (M_run_Ok _ _ w ds w) by (unfold query; by rewrite run_act, Hds).
      exists (inr ds). split_and!; [done| |].
      * split; [by eexists|]. by left.
      * intros ds' e [= <-]. rewrite Hget. apply decide_ext, Hmis.
    + eexists (inl _). split_and!; [done| |done]. split; [|by intros []]. intros [?|Hall]; [done|].
      destruct missing as [|e es] eqn:He; [done|]. destruct (proj1 (Hmis e) ltac:(by left)) as [Hin Hno]. destruct Hno. by apply Hall.
Qed.

Lemma run_copy b dir c u t now files (w : World B) :
  ∃ w1, run (make_copy config copy_denied b dir c u t now files) w = (Ok tt, w1) ∧
    w_db w1 = w_db w ∧ w_cacher w1 = w_cacher w ∧ w_disk w1 = w_disk w.
Proof.
  unfold make_copy. destruct b; [|by exists w]. rewrite run_act. unfold try_except, store_local_copy.
  destruct (copy_denied _); [rewrite bool_decide_eq_true_2 by done|]; by eexists.
Qed.

Abbreviation digest_of := (bytes_digest sha1).

Lemma run_store words u now files ds (w : World B) :
  inv (w_cacher w) → (∀ g, ¬ garbage (w_cacher w) g) →
  ∃ c', run (store_files sha1 temp_name words u now files ds) w =
      (Ok (inr (foldl (λ ds kv, pd_set ds kv.1 (digest_of kv.2)) ds files)), set_cacher c' w) ∧
    inv c' ∧ (∀ g, ¬ garbage c' g) ∧ (∀ kv, kv ∈ files → in_storage sha1 (digest_of kv.2) c').
Proof.
  intros Hi Hg. unfold store_files. rewrite run_bind.
  assert (∃ c', run (prog_for_acc (λ digests kv,
       digest ← zoom_prog w_cacher set_cacher (put_file_content sha1 temp_name kv.2 (describe_file words kv.1 u now));
       mret (pd_set digests kv.1 digest)) ds files) w =
      (Ok (foldl (λ ds kv, pd_set ds kv.1 (digest_of kv.2)) ds files), set_cacher c' w) ∧
    inv c' ∧ (∀ g, ¬ garbage c' g) ∧ (∀ kv, kv ∈ files → in_storage sha1 (digest_of kv.2) c') ∧
    ∀ d, in_storage sha1 d (w_cacher w) → in_storage sha1 d c') as (c' & Hrun & H1 & H2 & H3 & _).
  - revert ds w Hi Hg. induction files as [|[k x] files IH]; intros ds w Hi Hg.
    + exists (w_cacher w). split_and!; [by destruct w|done..|by intros kv []%elem_of_nil|done].
    + cbn [prog_for_acc foldl]. set (desc := describe_file words k u now).
      destruct (put_alone sha1 temp_name sha1_length temp_fresh x desc (w_cacher w) Hi Hg) as (Hres & Hi1 & Hg1 & Hin & Hkeep).
      set (c1 := (run (put_file_content sha1 temp_name x desc) (w_cacher w)).2) in *.
      destruct (IH (pd_set ds k (digest_of x)) (set_cacher c1 w) Hi1 Hg1) as (c' & Hrun & H1 & H2 & H3 & H4).
      exists c'. split_and!; [|done|done| |by intros d Hd; apply H4, Hkeep].
      * rewrite run_bind. rewrite (M_run_Ok _ _ w (pd_set ds k (digest_of x)) (set_cacher c1 w)); [by rewrite Hrun|].
        rewrite run_bind. rewrite (M_run_Ok _ _ w (digest_of x) (set_cacher c1 w)); [done|].
        rewrite run_cacher. cbn [fst snd]. fold desc. fold c1. by rewrite Hres.
      * intros kv [->|Hkv]%elem_of_cons; [by apply H4|by apply H3].
  - exists c'. split_and!; [|done..].
    rewrite (M_run_Ok _ _ w (Some (foldl (λ ds kv, pd_set ds kv.1 (digest_of kv.2)) ds files)) (set_cacher c' w)); [done|].
    rewrite run_try. unfold try_except. by rewrite run_bind, (M_run_Ok _ _ _ _ _ Hrun).
Qed.

Lemma stored_digests (files : pydict string string) ds e :
  NoDup (pd_keys files) →
  pd_get (foldl (λ ds kv, pd_set ds kv.1 (digest_of kv.2)) ds files) e =
  match pd_get files e with Some x => Some (digest_of x) | None => pd_get ds e end.
Proof.
  revert ds. induction files as [|[k x] files IH]; intros ds Hn; [done|]. apply NoDup_cons in Hn as [Hk Hn].
  cbn [foldl pd_get fst snd]. rewrite IH by done. case_decide as Hek.
  - subst k. rewrite (proj2 (pd_get_None files e)) by done. by rewrite pd_get_set_eq.
  - destruct (pd_get files e); [done|]. by apply pd_get_set_ne.
Qed.

(** What the database says of the request. *)
Record setting (db : Db) (p : Participation) (t : Task) (c : Contest) (u : User) (ty : TaskType) : Prop := {
  se_contest : head (filter (λ c, co_id c = pa_contest_id p) (db_contests db)) = Some c;
  se_task : task_contest_id t = Some (co_id c);
  se_user : head (filter (λ u, us_id u = pa_user_id p) (db_users db)) = Some u;
  se_type : ∃ d, task_active_dataset_id t ≫= get_dataset db = Some d ∧ task_type_object d = Ok ty;
}.

(** The contestant may send a submission, the files that were received match
    the format in one language, none is missing unless the task type allows
    it, and none is too long. *)
Record acceptable (w : World B) (p : Participation) (t : Task) (c : Contest) (ty : TaskType) (now : Z)
    (tf : pydict string (list HTTPFile)) (lang : option string) (files : pydict string string) (l : option Language) : Prop := {
  ac_limits : may_send (R:=Submission) max_submission_number min_submission_interval (w_db w) p c t now;
  ac_matching : ∃ g, (extract_files_from_tornado temp_name tf (w_disk w)).1 = Ok g ∧
    only_match LANGUAGES g lang (remove_dups (task_submission_format t)) (Some (co_languages c)) files l;
  ac_whole : ALLOW_PARTIAL_SUBMISSION (class_of ty) = true ∨ ∀ e, e ∈ task_submission_format t → e ∈ pd_keys files;
  ac_length kv : kv ∈ files → (String.length kv.2 ≤ max_submission_length config)%nat;
}.

Lemma too_big_false n (files : pydict string string) :
  negb (too_big n files) = true ↔ ∀ kv, kv ∈ files → (String.length kv.2 ≤ n)%nat.
Proof.
  unfold too_big. rewrite negb_true_iff, <- not_true_iff_false, existsb_exists. setoid_rewrite bool_decide_eq_true.
  setoid_rewrite <- list_elem_of_In. split.
  - intros Hno kv Hkv. destruct (decide (String.length kv.2 ≤ n)%nat); [done|]. destruct Hno. exists kv. split; [done|lia].
  - intros Hall (kv & Hkv & Hlt). specialize (Hall kv Hkv). lia.
Qed.

Lemma run_require b e (w : World B) : run (require b e) w = (Ok (if b then inr tt else inl e), w).
Proof. by destruct b. Qed.

Lemma run_setting p t c u ty (w : World B) :
  setting (w_db w) p t c u ty →
  run (the_contest p) w = (Ok c, w) ∧ run (the_user p) w = (Ok u, w).
Proof. intros [Hc _ Hu _]. unfold the_contest, the_user, query. rewrite !run_act. by rewrite Hc, Hu. Qed.

(** C4. When the storage and the archives work, a request always gets an
    answer. The submission is accepted exactly if the contestant may send one
    within the limits, the files match the format in one language, none is
    missing (or the task type allows it) and none is too long. It is then of
    the participation, the task, the time and the language; for each file of
    the format it has the digest of the content that was sent, which is in the
    storage, or otherwise that of the previous submission in the language, if
    there is one, and nothing else. In any case the database is untouched
    before the commit, and no temporary file is left. *)
Theorem accept_submission_exact p t now tf lang off c u ty w :
  setting (w_db w) p t c u ty → inv (w_cacher w) → (∀ g, ¬ garbage (w_cacher w) g) →
  ∃ o w', run (accept_submission sha1 temp_name LANGUAGES config copy_denied p t now tf lang off) w = (Ok o, w') ∧
    w_db w' = w_db w ∧ w_disk w' = w_disk w ∧ (∀ g, ¬ garbage (w_cacher w') g) ∧
    ((∃ s, o = inr s) ↔ ∃ files l, acceptable w p t c ty now tf lang files l) ∧
    ∀ s files l, o = inr s → acceptable w p t c ty now tf lang files l →
      ns_participation s = pa_id p ∧ ns_task s = task_id t ∧ ns_timestamp s = now ∧ ns_official s = off ∧
      ns_language s = name <$> l ∧
      (∀ e, pd_get (ns_files s) e =
        match pd_get files e with
        | Some x => Some (digest_of x)
        | None => if decide (e ∈ task_submission_format t) then previous_file (w_db w) p t l e else None
        end) ∧
      ∀ kv, kv ∈ files → in_storage sha1 (digest_of kv.2) (w_cacher w').
Proof.
  intros Hset Hi Hg. destruct (run_setting p t c u ty w Hset) as [Hc _].
  unfold accept_submission. rewrite run_bind, (M_run_Ok _ _ _ _ _ Hc).
  rewrite bool_decide_eq_false_2 by (intros Hne; apply Hne, Hset).
  destruct (check_limits_ok (R:=Submission) submission_words max_submission_number min_submission_interval p c t now w) as (o1 & Ho1 & H1).
  rewrite (run_and_then _ _ _ _ _ Ho1). destruct o1 as [e|[]].
  { exists (inl e), w. split_and!; [done..| |done]. split; [by intros []|]. intros (files & l & [Hl _ _ _]). by apply H1 in Hl. }
  set (req := remove_dups (task_submission_format t)).
  assert (∀ e, e ∈ req ↔ e ∈ task_submission_format t) as Hreq by (intros; apply elem_of_remove_dups).
  destruct (run_receive submission_words c req tf lang w (NoDup_remove_dups _)) as (o2 & Ho2 & H2).
  rewrite (run_and_then _ _ _ _ _ Ho2). destruct o2 as [e|[files l]].
  { exists (inl e), w. split_and!; [done..| |done]. split; [by intros []|].
    intros (files & l & [_ Hm _ _]). by apply H2 in Hm. }
  assert (∀ files' l', acceptable w p t c ty now tf lang files' l' → files' = files ∧ l' = l) as Hsame.
  { intros files' l' [_ Hm _ _]. apply H2 in Hm. by injection Hm as -> ->. }
  destruct (run_complete submission_words p t req files l ty w (se_type _ _ _ _ _ _ Hset)) as (o3 & Ho3 & H3 & Hget).
  rewrite (run_and_then _ _ _ _ _ Ho3). setoid_rewrite Hreq in H3. destruct o3 as [e|ds].
  { exists (inl e), w. split_and!; [done..| |done]. split; [by intros []|].
    intros (files' & l' & Ha). destruct (Hsame _ _ Ha) as [-> ->]. destruct Ha as [_ _ Hw _]. by apply H3 in Hw as []. }
  rewrite (run_and_then _ _ _ _ _ (run_require _ _ w)). pose proof (too_big_false (max_submission_length config) files) as H4.
  destruct (negb _); cbn [fst snd].
  2: { eexists (inl _), w. split_and!; [done..| |done]. split; [by intros []|].
    intros (files' & l' & Ha). destruct (Hsame _ _ Ha) as [-> ->]. destruct Ha as [_ _ _ Hlen]. by apply H4 in Hlen. }
  rewrite run_bind, (M_run_Ok _ _ _ _ _ (proj2 (run_setting p t c u ty w Hset))), run_bind.
  destruct (run_copy (submit_local_copy config) (submit_local_copy_path config) c u t now files w) as (w1 & Hw1 & Hdb & Hca & Hdi).
  rewrite (M_run_Ok _ _ _ _ _ Hw1). rewrite <- Hca in Hi, Hg.
  destruct (run_store submission_words u now files ds w1 Hi Hg) as (c' & Hst & Hi' & Hg' & Hin).
  rewrite (run_and_then _ _ _ _ _ Hst).
  assert (acceptable w p t c ty now tf lang files l) as Hacc.
  { split; [by apply H1|by apply H2|apply H3; by exists ds|by apply H4]. }
  eexists (inr _), (set_cacher c' w1). split_and!; [done|done|done|done| |].
  - split; [by exists files, l|by eexists].
  - intros s files' l' [= <-] Ha. destruct (Hsame _ _ Ha) as [-> ->]. cbn. split_and!; [done..| |done].
    intros e. destruct (ac_matching _ _ _ _ _ _ _ _ _ _ Hacc) as (g & _ & _ & _ & [_ Hnd] & _).
    rewrite stored_digests by done. destruct (pd_get files e) eqn:He; [done|]. rewrite (Hget ds e eq_refl).
    apply pd_get_None in He. apply decide_ext. rewrite Hreq. tauto.
Qed.
End exact.

(** ** An example, and a race *)

#[local] Instance demo_patool : Patool := {
  test_archive := λ _ _, Raise PatoolError;
  extract_archive := λ _ _, (Ok tt, []);
}.

Definition demo_config : Config := mkConfig "/data" true "%s/submissions/" true "%s/tests/" 100 200.
Definition demo_next_id (ids : list Z) : Z := (1 + foldr Z.max 0 ids)%Z.
(** One submission on the contest. *)
Definition demo_contest : Contest := mkContest 1 0 10 [] "" "" 0 (mkLimits (Some 1%Z) None None None).
Definition demo_task : Task := mkTask 1 (Some 1%Z) (Some 1%Z) 0 "" "max" 0 false "" None ["a.txt"] no_limits.
Definition demo_participation : Participation := mkParticipation 1 1 1 false false None.
Definition demo_user : User := mkUser 1 "" "" "ann".
Definition demo_dataset : Dataset := mkDataset 1 1 false None None "OutputOnly" [JString "diff"] [] "Sum" JNull.
Definition demo_db : Db :=
  mkDb [demo_contest] [demo_participation] [demo_task] [demo_dataset] [] [] [] [] [] [] [] [] [] [demo_user] [] [].
Definition demo_world : World DB.Rows := mkWorld demo_db demo_cacher (mkDisk ∅ ∅) ∅.
Definition demo_request : Request := SubmitRequest [("a.txt", [("a.txt", "hi")])] None true.

Definition demo_handle (now : Z) : prog (World DB.Rows) (Refused + Z) :=
  @handle DB.Rows Z (DB.DBBackend demo_oid) demo_sha1 demo_patool demo_temp [] demo_config (λ _, false) demo_next_id
    demo_participation demo_task now demo_request.

Lemma demo_keys_unique : keys_unique demo_db.
Proof. split; apply NoDup_singleton. Qed.

Lemma demo_limits : all_limits_kept demo_db.
Proof.
  split; (intros p c ->%list_elem_of_singleton _ ->%list_elem_of_singleton _; split;
    [|intros t ->%list_elem_of_singleton _]; split; intros n Hn; try done; cbn; lia).
Qed.

Definition demo_race : list (prog (World DB.Rows) (Refused + Z)) * World DB.Rows :=
  schedule (concat (replicate 40 [0; 1])) ([demo_handle 5; demo_handle 6], demo_world).

(** An example: the number of submissions is checked before the files are stored and
    the row is committed after: two requests of a contestant that are handled
    at the same time can both be accepted when there is room for one, and the
    limit is exceeded. *)
Example limit_exceeded_by_race :
  ∃ ts w', rtc pool_step ([demo_handle 5; demo_handle 6], demo_world) (ts, w') ∧
    ts = [Done (Ok (inr 1%Z)); Done (Ok (inr 2%Z))] ∧
    all_limits_kept (w_db demo_world) ∧ ¬ all_limits_kept (w_db w').
Proof.
  exists demo_race.1, demo_race.2. split_and!.
  - rewrite <- surjective_pairing. apply schedule_steps.
  - vm_compute. reflexivity.
  - exact demo_limits.
  - intros [Hl _].
    destruct (Hl demo_participation demo_contest) as [[Hn _] _]; [by vm_compute; left|done|by vm_compute; left|done|].
    specialize (Hn 1%Z eq_refl). revert Hn. vm_compute. done.
Qed.

(** One after the other, the second is refused. *)
Lemma limits_respected_witness :
  let w' := @handle_all DB.Rows Z (DB.DBBackend demo_oid) demo_sha1 demo_patool demo_temp [] demo_config (λ _, false) demo_next_id
    [(demo_participation, demo_task, 5%Z, demo_request); (demo_participation, demo_task, 6%Z, demo_request)] demo_world in
  length (db_submissions (w_db w')) = 1 ∧ all_limits_kept (w_db w').
Proof.
  split; [vm_compute; reflexivity|].
  apply limits_respected; [exact demo_keys_unique|exact demo_limits|].
  repeat constructor.
Defined.

Lemma demo_patool_errors : patool_errors.
Proof. intros p x. split_and!; [by right|constructor|by left]. Qed.

Lemma demo_setting : setting demo_db demo_participation demo_task demo_contest demo_user (OutputOnly "diff").
Proof. split; [reflexivity..|]. exists demo_dataset. split; reflexivity. Qed.

Lemma accept_submission_exact_witness :
  ∃ s w', run (@accept_submission DB.Rows Z (DB.DBBackend demo_oid) demo_sha1 demo_patool demo_temp [] demo_config (λ _, false)
      demo_participation demo_task 5 [("a.txt", [("a.txt", "hi")])] None true) demo_world = (Ok (inr s), w') ∧
    w_db w' = demo_db ∧ ns_files s = [("a.txt", bytes_digest demo_sha1 "hi")] ∧
    ∃ files l, @acceptable DB.Rows demo_temp demo_patool [] demo_config demo_world demo_participation demo_task demo_contest
      (OutputOnly "diff") 5 [("a.txt", [("a.txt", "hi")])] None files l.
Proof.
  pose (spec := DBSpec.db_spec demo_sha1 demo_oid demo_oid_fresh demo_oid_nonzero).
  destruct (healthy_inv demo_sha1 demo_oid demo_oid_fresh demo_oid_nonzero demo_cacher demo_healthy) as [Hi Hg].
  destruct (accept_submission_exact demo_sha1 demo_temp demo_sha1_length demo_temp_fresh demo_patool_errors []
    NoDup_nil_2 demo_config (λ _, false) demo_participation demo_task 5 [("a.txt", [("a.txt", "hi")])] None true
    demo_contest demo_user (OutputOnly "diff") demo_world demo_setting Hi Hg)
    as (o & w' & Hr & Hdb & _ & _ & Hiff & _).
  assert (∃ s, o = inr s ∧ ns_files s = [("a.txt", bytes_digest demo_sha1 "hi")]) as (s & -> & Hs).
  { apply (f_equal fst) in Hr. vm_compute in Hr. injection Hr as <-. eexists. split; vm_compute; reflexivity. }
  exists s, w'. split_and!; [exact Hr|exact Hdb|exact Hs|]. apply Hiff. by exists s.
Defined.
