(* ===== verification/Sandbox.v ===== *)
(** * The sandbox (IsolateSandbox of cms/grading/Sandbox.py)

    An object of the class with its directory on disk: the files of the home
    directory, their permissions, and the execution logs. isolate is an
    external program, the commands that run without it too: a run depends on
    how many there were before, on the arguments and on the files, and leaves
    an exit code, the files and a log ([Isolate]). What the file cacher does
    for a sandbox is the class [FileStore]. Names of files are relative to the
    home directory, without directories or links. Runs are those that the
    caller waits for. *)

From S2P Require Import Prelude PyFloat PyString PyFormat PyParse FileStorage.
From Stdlib Require Import Strings.Ascii.
From stdpp Require Import pretty.

Local Open Scope string_scope.
Local Open Scope list_scope.

Definition SandboxInterfaceException : exn := UserError "SandboxInterfaceException".
Definition CalledProcessError : exn := UserError "CalledProcessError".
Definition FileExistsError : exn := UserError "FileExistsError".

Definition EXIT_SANDBOX_ERROR : string := "sandbox error".
Definition EXIT_OK : string := "ok".
Definition EXIT_SIGNAL : string := "signal".
Definition EXIT_TIMEOUT : string := "timeout".
Definition EXIT_TIMEOUT_WALL : string := "wall timeout".
Definition EXIT_NONZERO_RETURN : string := "nonzero return".

(** Permissions as in octal. *)
Record BoxFile : Type := mkBoxFile { file_content : bytes; file_mode : Z }.
Abbreviation Home := (gmap string BoxFile).

(** What a run leaves: the exit code of isolate, the home directory and the
    log, if any. *)
Record Run : Type := mkRun { run_exit : Z; run_home : Home; run_log : option string }.

Class Isolate := {
  (** What each of the processes that run at the same time leaves, [None] if it
      cannot be started: isolate with its arguments and the home directory. *)
  isolate_run : nat → list (list string * Home) → nat → option Run;
  secure_run : nat → list string → Home → option (Z * Home);
  (** The exit codes of [isolate --init] and [isolate --cleanup]. *)
  isolate_init : Z → option Z;
  isolate_cleanup : Z → option Z;
  (** The temporary directories of a sandbox and of fifos, if they can be made. *)
  make_outer_dir : Z → string → option string;
  make_fifo_dir : nat → nat → option string;
  path_exists : string → bool;
  (** A file that can be executed with the rights of its owner, and isolate
      next to the source. *)
  is_suid : string → bool;
  source_isolate : string;
}.

(** What a sandbox asks of the file cacher. *)
Class FileStore (C : Type) := {
  fetch : string → M C bytes;
  store : bytes → string → M C string;
}.

(** The worker and its machine. *)
Record Host (C : Type) : Type := mkHost {
  next_id : Z;
  runs : nat;
  cacher : C;
}.
Arguments mkHost {C} next_id runs cacher.
Arguments next_id {C} h.
Arguments runs {C} h.
Arguments cacher {C} h.
Definition set_cacher {C} (c : C) (h : Host C) : Host C := mkHost (next_id h) (runs h) c.
Definition one_more_run {C} (h : Host C) : Host C := mkHost (next_id h) (S (runs h)) (cacher h).

Record Options : Type := mkOptions {
  dirs : list (string * string * option string);
  preserve_env : bool;
  set_env : pydict string string;
  fsize : option Z;
  stdin_file : option string;
  address_space : option Z;
  stdout_file : option string;
  max_processes : option Z;
  stderr_file : option string;
  timeout : option float;
  wallclock_timeout : option float;
}.

Record Sandbox : Type := mkSandbox {
  box_id : Z;
  outer_dir : string;
  home : Home;
  home_mode : Z;
  options : Options;
  logs : gmap Z string;
  exec_num : Z;
  log : option (pydict string (list string));
  commands_log : list (list string);
}.

Definition set_home (f : Home → Home) (s : Sandbox) : Sandbox :=
  mkSandbox (box_id s) (outer_dir s) (f (home s)) (home_mode s) (options s) (logs s) (exec_num s) (log s) (commands_log s).
Definition set_home_mode (m : Z) (s : Sandbox) : Sandbox :=
  mkSandbox (box_id s) (outer_dir s) (home s) m (options s) (logs s) (exec_num s) (log s) (commands_log s).
Definition set_options (f : Options → Options) (s : Sandbox) : Sandbox :=
  mkSandbox (box_id s) (outer_dir s) (home s) (home_mode s) (f (options s)) (logs s) (exec_num s) (log s) (commands_log s).
Definition set_log (l : option (pydict string (list string))) (s : Sandbox) : Sandbox :=
  mkSandbox (box_id s) (outer_dir s) (home s) (home_mode s) (options s) (logs s) (exec_num s) l (commands_log s).
Definition set_logs (f : gmap Z string → gmap Z string) (s : Sandbox) : Sandbox :=
  mkSandbox (box_id s) (outer_dir s) (home s) (home_mode s) (options s) (f (logs s)) (exec_num s) (log s) (commands_log s).
(** [self.log = None; self.exec_num += 1] *)
Definition next_run (s : Sandbox) : Sandbox :=
  mkSandbox (box_id s) (outer_dir s) (home s) (home_mode s) (options s) (logs s) (exec_num s + 1) None (commands_log s).
(** A line of commands.log. *)
Definition log_command (command : list string) (s : Sandbox) : Sandbox :=
  mkSandbox (box_id s) (outer_dir s) (home s) (home_mode s) (options s) (logs s) (exec_num s) (log s)
    (commands_log s ++ [command]).

(** Assigning the options that steps assign. *)
Definition with_dirs f (o : Options) : Options := mkOptions (f (dirs o)) (preserve_env o) (set_env o) (fsize o) (stdin_file o)
  (address_space o) (stdout_file o) (max_processes o) (stderr_file o) (timeout o) (wallclock_timeout o).
Definition with_preserve_env b (o : Options) : Options := mkOptions (dirs o) b (set_env o) (fsize o) (stdin_file o)
  (address_space o) (stdout_file o) (max_processes o) (stderr_file o) (timeout o) (wallclock_timeout o).
Definition with_fsize n (o : Options) : Options := mkOptions (dirs o) (preserve_env o) (set_env o) n (stdin_file o)
  (address_space o) (stdout_file o) (max_processes o) (stderr_file o) (timeout o) (wallclock_timeout o).
Definition with_stdin_file f (o : Options) : Options := mkOptions (dirs o) (preserve_env o) (set_env o) (fsize o) f
  (address_space o) (stdout_file o) (max_processes o) (stderr_file o) (timeout o) (wallclock_timeout o).
Definition with_address_space n (o : Options) : Options := mkOptions (dirs o) (preserve_env o) (set_env o) (fsize o) (stdin_file o)
  n (stdout_file o) (max_processes o) (stderr_file o) (timeout o) (wallclock_timeout o).
Definition with_outputs out err (o : Options) : Options := mkOptions (dirs o) (preserve_env o) (set_env o) (fsize o) (stdin_file o)
  (address_space o) out (max_processes o) err (timeout o) (wallclock_timeout o).
Definition with_max_processes n (o : Options) : Options := mkOptions (dirs o) (preserve_env o) (set_env o) (fsize o) (stdin_file o)
  (address_space o) (stdout_file o) n (stderr_file o) (timeout o) (wallclock_timeout o).
Definition with_timeouts t w (o : Options) : Options := mkOptions (dirs o) (preserve_env o) (set_env o) (fsize o) (stdin_file o)
  (address_space o) (stdout_file o) (max_processes o) (stderr_file o) t w.

(** Values of the configuration that concern sandboxes. *)
Record SandboxConfig : Type := mkSandboxConfig {
  use_cgroups : bool;
  max_file_size : Z;
  compilation_max_processes : Z;
  compilation_max_time_s : float;
  compilation_max_memory_kib : Z;
  trusted_max_processes : Z;
  trusted_max_time_s : float;
  trusted_max_memory_kib : Z;
  keep_sandboxes : bool;
}.

Section sandbox.
Context `{Isolate} {C : Type} `{FileStore C} (config : SandboxConfig) (service_shard : option Z).


Definition change (f : Sandbox → Sandbox) : M (Sandbox * Host C) unit := modify (λ s, (f s.1, s.2)).
Definition option_set (f : Options → Options) : M (Sandbox * Host C) unit := change (set_options f).
Definition on_cacher {A} (m : M C A) : M (Sandbox * Host C) A := λ '(s, h),
  let '(r, c) := m (cacher h) in (r, (s, set_cacher c h)).
Definition look {A} (f : Sandbox → res A) : M (Sandbox * Host C) A := λ s, (f s.1, s).

(** ** Files (SandboxBase) *)

Definition relative_path (s : Sandbox) (path : string) : string := path_join (path_join (outer_dir s) "home") path.

Definition create_file (path : string) (executable : bool) : M (Sandbox * Host C) unit := λ '(s, h),
  match home s !! path with
  | Some _ => (Raise FileExistsError, (s, h))
  | None => (Ok tt, (set_home <[path := mkBoxFile "" (if executable : bool then 755 else 644)]> s, h))
  end.

(** Writing to the file that was created. *)
Definition fill (path : string) (content : bytes) : M (Sandbox * Host C) unit :=
  change (set_home (alter (λ f, mkBoxFile content (file_mode f)) path)).

Definition create_file_from_storage (path : string) (digest : option string) (executable : bool) : M (Sandbox * Host C) unit :=
  _ ← create_file path executable;
  digest ← lift (or_raise TypeError digest);
  content ← on_cacher (fetch digest);
  fill path content.

Definition create_file_from_string (path : string) (content : bytes) (executable : bool) : M (Sandbox * Host C) unit :=
  _ ← create_file path executable; fill path content.

(** The bytes that can be read, at most [trunc_len] of them. *)
Definition get_file (path : string) (trunc_len : option nat) : M (Sandbox * Host C) bytes :=
  look (λ s,
    f ← or_raise FileNotFoundError (home s !! path);
    Ok (match trunc_len with Some n => take_string n (file_content f) | None => file_content f end)).

Definition get_file_to_string (path : string) (maxlen : option nat) : M (Sandbox * Host C) bytes := get_file path maxlen.

Definition get_file_to_storage (path description : string) (trunc_len : option nat) : M (Sandbox * Host C) string :=
  content ← get_file path trunc_len; on_cacher (store content description).

Definition file_exists (path : string) : M (Sandbox * Host C) bool := look (λ s, Ok (bool_decide (is_Some (home s !! path)))).

Definition remove_file (path : string) : M (Sandbox * Host C) unit := λ '(s, h),
  match home s !! path with
  | Some _ => (Ok tt, (set_home (delete path) s, h))
  | None => (Raise FileNotFoundError, (s, h))
  end.

(** ** Permissions *)

Definition chmod_all (mode : Z) (s : Sandbox) : Sandbox :=
  set_home (fmap (λ f, mkBoxFile (file_content f) mode)) (set_home_mode mode s).
Definition allow_writing_all : M (Sandbox * Host C) unit := change (chmod_all 777).
Definition allow_writing_none : M (Sandbox * Host C) unit := change (chmod_all 755).

Definition HOME_DEST : string := "/tmp".

(** The file of the home directory that an inner path names, if it is one. *)
Definition inner_file (inner_path : string) : option string :=
  let abs := path_join HOME_DEST inner_path in
  if startswith "/tmp/" abs then Some (drop_string 5 abs) else None.

Definition allow_writing_only (inner_paths : list string) : M (Sandbox * Host C) unit :=
  let files := omap inner_file inner_paths in
  change (λ s,
    let touched := foldl (λ s f, set_home (λ h, match h !! f with Some _ => h | None => <[f := mkBoxFile "" 644]> h end) s) s files in
    foldl (λ s f, set_home (alter (λ x, mkBoxFile (file_content x) 722) f) s) (chmod_all 755 touched) files).

Definition add_mapped_directory (src : string) (dest options : option string) (ignore_if_not_existing : bool)
    : M (Sandbox * Host C) unit :=
  let dest := default src dest in
  if ignore_if_not_existing && negb (path_exists src) then mret tt
  else option_set (with_dirs (λ l, l ++ [(src, dest, options)])).
Definition maybe_add_mapped_directory (src : string) (dest options : option string) : M (Sandbox * Host C) unit :=
  add_mapped_directory src dest options true.

Definition set_multiprocess (multiprocess : bool) : M (Sandbox * Host C) unit :=
  option_set (with_max_processes (Some (if multiprocess then 1000 else 1)%Z)).

(** ** Command lines *)

Definition detect_box_executable : string :=
  default "isolate" (List.find is_suid [path_join (path_join "." "isolate") "isolate"; path_join "." "isolate"; source_isolate]).
Definition inner_absolute_path (path : string) : string := path_join HOME_DEST path.
Definition info_file (s : Sandbox) (i : Z) : string := path_join (outer_dir s) "run.log" +:+ "." +:+ pretty i.

Definition option_arg {A} (o : option A) (f : A → string) : list string :=
  match o with Some a => [f a] | None => [] end.

(** Options that no step sets ([inherit_env], [stack_space], [verbosity],
    [extra_timeout]) add nothing. *)
Definition build_box_options (s : Sandbox) : list string :=
  let o := options s in
  ["--box-id=" +:+ pretty (box_id s)]
  ++ (if use_cgroups config then ["--cg"] else [])
  ++ ["--chdir=" +:+ HOME_DEST]
  ++ ((λ d, "--dir=" +:+ d.1.2 +:+ "=" +:+ d.1.1 +:+ match d.2 with Some op => ":" +:+ op | None => "" end) <$> dirs o)
  ++ (if preserve_env o then ["--full-env"] else [])
  ++ ((λ kv, "--env=" +:+ kv.1 +:+ "=" +:+ kv.2) <$> set_env o)
  ++ option_arg (fsize o) (λ n, "--fsize=" +:+ pretty (n / 1024)%Z)
  ++ option_arg (stdin_file o) (λ f, "--stdin=" +:+ inner_absolute_path f)
  ++ option_arg (address_space o) (λ n, (if use_cgroups config then "--cg-mem=" else "--mem=") +:+ pretty (n / 1024)%Z)
  ++ option_arg (stdout_file o) (λ f, "--stdout=" +:+ inner_absolute_path f)
  ++ [match max_processes o with Some n => "--processes=" +:+ pretty n | None => "--processes" end]
  ++ option_arg (stderr_file o) (λ f, "--stderr=" +:+ inner_absolute_path f)
  ++ option_arg (timeout o) (λ t, "--time=" +:+ format_g t)
  ++ option_arg (wallclock_timeout o) (λ t, "--wall-time=" +:+ format_g t)
  ++ ["--meta=" +:+ info_file s (exec_num s); "--run"].

(** ** Running *)

Definition SECURE_COMMANDS : list string := ["/bin/cp"; "/bin/mv"; "/usr/bin/zip"; "/usr/bin/unzip"].

Definition nl : string := String newline "".
Definition empty_run_log : string :=
  "time:0.000" +:+ nl +:+ "time-wall:0.000" +:+ nl +:+ "max-rss:0" +:+ nl +:+ "cg-mem:0" +:+ nl.
Definition _write_empty_run_log : M (Sandbox * Host C) unit := change (λ s, set_logs <[exec_num s := empty_run_log]> s).

(** [open(os.path.join(self._home, f), "wb").close()] *)
Definition truncate_file (f : option string) : M (Sandbox * Host C) unit :=
  f ← lift (or_raise TypeError f);
  change (set_home (λ h, <[f := mkBoxFile "" (default 644%Z (file_mode <$> h !! f))]> h)).

Definition run_secure (command : list string) : M (Sandbox * Host C) Z := λ '(s, h),
  match secure_run (runs h) command (home s) with
  | None => (Raise OSError, (s, h))
  | Some (code, files) => (Ok code, (set_home (λ _, files) s, one_more_run h))
  end.

(** What a process of isolate leaves in the sandbox. *)
Definition leave (r : Run) (s : Sandbox) : Sandbox :=
  set_logs (λ l, match run_log r with Some t => <[exec_num s := t]> l | None => delete (exec_num s) l end)
    (set_home (λ _, run_home r) s).

(** A process: one that is over, or isolate with its arguments. *)
Inductive Process : Type :=
  | Finished (code : Z)
  | Running (args : list string).

Definition box_args (s : Sandbox) (command : list string) : list string :=
  [detect_box_executable] ++ build_box_options s ++ ["--"] ++ command.

(** [_popen]; what a secure command writes to its output is cleared. *)
Definition popen (command : list string) : M (Sandbox * Host C) Process :=
  _ ← change next_run;
  first ← lift (or_raise IndexError (head command));
  if decide (first ∈ SECURE_COMMANDS) then
    _ ← change (log_command command);
    code ← run_secure command;
    o ← look (λ s, Ok (options s));
    _ ← truncate_file (stdout_file o);
    _ ← truncate_file (stderr_file o);
    _ ← _write_empty_run_log;
    mret (Finished code)
  else
    args ← look (λ s, Ok (box_args s command));
    _ ← change (log_command args);
    mret (Running args).

(** [wait_without_std([p])[0]] *)
Definition wait_without_std (p : Process) : M (Sandbox * Host C) Z := λ '(s, h),
  match p with
  | Finished code => (Ok code, (s, h))
  | Running args =>
      match isolate_run (runs h) [(args, home s)] 0 with
      | None => (Raise OSError, (s, h))
      | Some r => (Ok (run_exit r), (leave r s, one_more_run h))
      end
  end.

Definition translate_box_exitcode (exitcode : Z) : res bool :=
  if decide (exitcode = 0 ∨ exitcode = 1)%Z then Ok true
  else if decide (exitcode = 2)%Z then Ok false
  else Raise SandboxInterfaceException.

(** With [wait=True]; without, it is [popen]. *)
Definition execute_without_std (command : list string) : M (Sandbox * Host C) bool :=
  p ← popen command; code ← wait_without_std p; lift (translate_box_exitcode code).

(** ** Logs *)

(** A line [key:value] of the log. *)
Definition log_line (line : string) : M (Sandbox * Host C) unit :=
  kv ← lift (or_raise ValueError (split_once ":"%char (strip line)));
  change (λ s, let l := default [] (log s) in set_log (Some (pd_set l kv.1 (default [] (pd_get l kv.1) ++ [kv.2]))) s).

Definition get_log : M (Sandbox * Host C) unit :=
  _ ← change (set_log (Some []));
  text ← look (λ s, or_raise OSError (logs s !! exec_num s));
  for_each log_line (text_lines text).

(** The decorator; the log that the method reads. *)
Definition with_log {A} (f : pydict string (list string) → res A) : M (Sandbox * Host C) A :=
  known ← look (λ s, Ok (log s));
  match known with
  | Some l => lift (f l)
  | None => _ ← get_log; look (λ s, l ← or_raise TypeError (log s); f l)
  end.

(** [f(self.log[key][0])], or a default. *)
Definition log_value {A} (key : string) (parse : string → res A) (missing : A) (l : pydict string (list string)) : res A :=
  match pd_get l key with
  | None => Ok missing
  | Some v => x ← or_raise IndexError (head v); parse x
  end.

Definition some_res {A} (r : res A) : res (option A) := a ← r; Ok (Some a).

Definition get_execution_time : M (Sandbox * Host C) (option float) :=
  with_log (log_value "time" (λ x, some_res (float_of_string x)) None).
Definition get_execution_wall_clock_time : M (Sandbox * Host C) (option float) :=
  with_log (log_value "time-wall" (λ x, some_res (float_of_string x)) None).
Definition get_memory_used : M (Sandbox * Host C) (option Z) :=
  with_log (log_value "cg-mem" (λ x, n ← int_of_string x; Ok (Some (n * 1024)%Z)) None).
Definition get_killing_signal : M (Sandbox * Host C) Z := with_log (log_value "exitsig" int_of_string 0%Z).
Definition get_exit_code : M (Sandbox * Host C) Z := with_log (log_value "exitcode" int_of_string 0%Z).
Definition get_status_list : M (Sandbox * Host C) (list string) := with_log (λ l, Ok (default [] (pd_get l "status"))).

Definition contains (p s : string) : bool := bool_decide (is_Some (String.index 0 p s)).

Definition exit_status_of (l : pydict string (list string)) : string :=
  let status_list := default [] (pd_get l "status") in
  if decide ("XX" ∈ status_list) then EXIT_SANDBOX_ERROR
  else if decide ("TO" ∈ status_list) then
    match default [] (pd_get l "message") with
    | m :: _ => if contains "wall" m then EXIT_TIMEOUT_WALL else EXIT_TIMEOUT
    | [] => EXIT_TIMEOUT
    end
  else if decide ("SG" ∈ status_list) then EXIT_SIGNAL
  else if decide ("RE" ∈ status_list) then EXIT_NONZERO_RETURN
  else EXIT_OK.

Definition get_exit_status : M (Sandbox * Host C) string := with_log (λ l, Ok (exit_status_of l)).

Definition get_human_exit_description : M (Sandbox * Host C) (option string) :=
  status ← get_exit_status;
  if decide (status = EXIT_OK) then
    code ← get_exit_code; mret (Some ("Execution successfully finished (with exit code " +:+ pretty code +:+ ")"))
  else if decide (status = EXIT_SANDBOX_ERROR) then mret (Some "Execution failed because of sandbox error")
  else if decide (status = EXIT_TIMEOUT) then mret (Some "Execution timed out")
  else if decide (status = EXIT_TIMEOUT_WALL) then mret (Some "Execution timed out (wall clock limit exceeded)")
  else if decide (status = EXIT_SIGNAL) then
    signal ← get_killing_signal; mret (Some ("Execution killed with signal " +:+ pretty signal))
  else if decide (status = EXIT_NONZERO_RETURN) then mret (Some "Execution failed because the return code was nonzero")
  else mret None.

(** ** Making and deleting *)

(** [subprocess.check_call] *)
Definition check_call (exit_code : option Z) : res unit :=
  code ← or_raise OSError exit_code; if (code =? 0)%Z then Ok tt else Raise CalledProcessError.

(** What deleting removes is not used any more. *)
Definition cleanup (delete : bool) : M (Sandbox * Host C) unit := look (λ s, check_call (isolate_cleanup (box_id s))).

Definition initialize_isolate : M (Sandbox * Host C) unit :=
  try_except (λ e, bool_decide (e = CalledProcessError)) (look (λ s, check_call (isolate_init (box_id s))))
    (raise SandboxInterfaceException).

(** [IsolateSandbox.__init__] *)
Definition new_box_id (next : Z) : Z :=
  match service_shard with
  | Some shard => (((shard + 1) * 10 + next mod 10) mod 1000)%Z
  | None => (next mod 10)%Z
  end.

Definition new_options : Options :=
  mkOptions [] false [] None None None None (Some 1%Z) None None None.

Definition new_sandbox (name : string) : M (Host C) Sandbox := λ h,
  let id := new_box_id (next_id h) in
  let h := mkHost (next_id h + 1) (runs h) (cacher h) in
  match make_outer_dir (next_id h) name with
  | None => (Raise OSError, h)
  | Some outer =>
      let s := mkSandbox id outer ∅ 777 new_options ∅ (-1) None [] in
      match (_ ← add_mapped_directory (path_join outer "home") (Some HOME_DEST) (Some "rw") false;
             _ ← option_set (λ o, mkOptions (dirs o) (preserve_env o) (pd_set (set_env o) "HOME" HOME_DEST) (fsize o)
                   (stdin_file o) (address_space o) (stdout_file o) (max_processes o) (stderr_file o) (timeout o)
                   (wallclock_timeout o));
             _ ← maybe_add_mapped_directory "/etc/alternatives" None None;
             _ ← maybe_add_mapped_directory "/etc/mono" None (Some "noexec");
             _ ← cleanup false;
             initialize_isolate) (s, h) with
      | (Ok _, (s, h)) => (Ok s, h)
      | (Raise e, (_, h)) => (Raise e, h)
      | (Blocks, (_, h)) => (Blocks, h)
      | (NoFuel, (_, h)) => (NoFuel, h)
      end
  end.

(** Methods of a sandbox that a task type holds. *)
Definition in_box {A} (s : Sandbox) (m : M (Sandbox * Host C) A) : M (Host C) (A * Sandbox) := λ h,
  match m (s, h) with
  | (Ok a, (s, h)) => (Ok (a, s), h)
  | (Raise e, (_, h)) => (Raise e, h)
  | (Blocks, (_, h)) => (Blocks, h)
  | (NoFuel, (_, h)) => (NoFuel, h)
  end.
End sandbox.

Example exit_status_demo :
  exit_status_of [("status", ["TO"]); ("message", ["Time limit exceeded (wall clock)"])] = EXIT_TIMEOUT_WALL ∧
  exit_status_of [("status", ["RE"; "XX"])] = EXIT_SANDBOX_ERROR ∧ exit_status_of [("time", ["1.0"])] = EXIT_OK.
Proof. by vm_compute. Qed.
