(* ===== verification/GradingSteps.v ===== *)
(** * The steps of a grading (cms/grading/steps/)

    Commands run in a sandbox for a compilation, for an evaluation or by a
    manager of the admins; the statistics of runs and how they are merged;
    what a checker answers; messages to contestants. A file decoded as UTF-8
    is its bytes; the replacement of what is not UTF-8 is a parameter. *)

From S2P Require Import Prelude WhiteDiff PyFloat PyString PyFormat PyParse FileStorage Sandbox.
From Stdlib Require Import Strings.Ascii.
From stdpp Require Import pretty.

Local Open Scope string_scope.
Local Open Scope list_scope.

(** ** Messages (messages.py) *)

Record HumanMessage : Type := mkHumanMessage { shorthand : string; message : string; help_text : string }.

(** [MessageCollection]: a second message of the same name is not added. *)
Definition add_message (c : pydict string HumanMessage) (m : HumanMessage) : pydict string HumanMessage :=
  if pd_mem c (shorthand m) then c else pd_set c (shorthand m) m.
Definition message_collection (l : list HumanMessage) : pydict string HumanMessage := foldl add_message [] l.
Definition get_message (c : pydict string HumanMessage) (shorthand : string) : res HumanMessage :=
  or_raise KeyError (pd_get c shorthand).
Definition all_messages (c : pydict string HumanMessage) : list HumanMessage := pd_values c.

Definition EVALUATION_MESSAGES : pydict string HumanMessage := message_collection [
  mkHumanMessage "success" "Output is correct" "Your submission ran and gave the correct answer";
  mkHumanMessage "partial" "Output is partially correct" "Your submission ran and gave the partially correct answer";
  mkHumanMessage "wrong" "Output isn't correct" "Your submission ran, but gave the wrong answer";
  mkHumanMessage "nooutput" "Evaluation didn't produce file %s"
    "Your submission ran, but did not write on the correct output file";
  mkHumanMessage "timeout" "Execution timed out" "Your submission used too much CPU time.";
  mkHumanMessage "walltimeout" "Execution timed out (wall clock limit exceeded)"
    "Your submission used too much total time. This might be triggered by undefined code, or buffer overflow, for example. Note that in this case the CPU time visible in the submission details might be much smaller than the time limit.";
  mkHumanMessage "signal" "Execution killed (could be triggered by violating memory limits)"
    "The evaluation was killed by a signal. Among other things, this might be caused by exceeding the memory limit. Note that if this is the reason, the memory usage visible in the submission details is the usage before the allocation that caused the signal.";
  mkHumanMessage "returncode" "Execution failed because the return code was nonzero"
    "Your submission failed because it exited with a return code different from 0."].

Definition COMPILATION_MESSAGES : pydict string HumanMessage := message_collection [
  mkHumanMessage "success" "Compilation succeeded" "Your submission successfully compiled to an executable.";
  mkHumanMessage "fail" "Compilation failed" "Your submission did not compile correctly.";
  mkHumanMessage "timeout" "Compilation timed out"
    "Your submission exceeded the time limit while compiling. This might be caused by an excessive use of C++ templates, for example.";
  mkHumanMessage "signal" "Compilation killed with signal %s (could be triggered by violating memory limits)"
    "Your submission was killed with the specified signal. Among other things, this might be caused by exceeding the memory limit for the compilation, and in turn by an excessive use of C++ templates, for example."].

(** [COLLECTION.get(x).message] *)
Definition message_of (c : pydict string HumanMessage) (x : string) : res string := m ← get_message c x; Ok (message m).

(** ** UTF-8 *)

(** Reads [need] more bytes of a character, the next of which is between [lo]
    and [hi]: how many are missing at the end, unless there is an error. *)
Fixpoint utf8_scan (need lo hi : nat) (s : bytes) : option nat :=
  match s with
  | EmptyString => Some need
  | String c s =>
      let n := nat_of_ascii c in
      match need with
      | S need => if (lo <=? n)%nat && (n <=? hi)%nat then utf8_scan need 128 191 s else None
      | O =>
          if (n <=? 127)%nat then utf8_scan 0 128 191 s
          else if (194 <=? n)%nat && (n <=? 223)%nat then utf8_scan 1 128 191 s
          else if (n =? 224)%nat then utf8_scan 2 160 191 s
          else if (n =? 237)%nat then utf8_scan 2 128 159 s
          else if (225 <=? n)%nat && (n <=? 239)%nat then utf8_scan 2 128 191 s
          else if (n =? 240)%nat then utf8_scan 3 144 191 s
          else if (241 <=? n)%nat && (n <=? 243)%nat then utf8_scan 3 128 191 s
          else if (n =? 244)%nat then utf8_scan 3 128 143 s
          else None
      end
  end.
Definition is_utf8 (s : bytes) : bool := bool_decide (utf8_scan 0 128 191 s = Some 0%nat).

Definition UnicodeDecodeError : exn := UserError "UnicodeDecodeError".

Fixpoint line_end (s : string) : option nat :=
  match s with
  | EmptyString => None
  | String c s => if Ascii.eqb c newline || Ascii.eqb c carriage_return then Some 0%nat else S <$> line_end s
  end.

(** A text file is read, and decoded, by blocks of this size. *)
Definition TEXT_CHUNK : nat := Z.to_nat 8192.

(** [f.readline()] of a file opened as text. *)
Definition text_readline (content : bytes) : res string :=
  let read :=
    match line_end content with
    | Some i => take_string (TEXT_CHUNK * (i / TEXT_CHUNK + 1)) content
    | None => content
    end in
  match utf8_scan 0 128 191 read with
  | None => Raise UnicodeDecodeError
  | Some missing =>
      if (0 <? missing)%nat && (String.length content <=? String.length read)%nat then Raise UnicodeDecodeError
      else Ok (first_line read)
  end.

(** ** Statistics (stats.py) *)

Record Stats : Type := mkStats {
  execution_time : option float;
  execution_wall_clock_time : option float;
  execution_memory : option Z;
  exit_status : string;
  signal : option Z;
  stdout : option string;
  stderr : option string;
}.

(** An operation on two numbers, neither of which may be [None]. *)
Definition both {A} (f : A → A → A) (x y : option A) : res (option A) :=
  match x, y with Some x, Some y => Ok (Some (f x y)) | _, _ => Raise TypeError end.

Definition separator : string := String newline ("===" +:+ String newline "").

(** The outputs that there are, with a line in between. *)
Definition join_outputs (x y : option string) : option string :=
  match x, y with
  | Some x, Some y => Some (x +:+ separator +:+ y)
  | Some x, None | None, Some x => Some x
  | None, None => None
  end.

Definition merge_execution_stats (first_stats second_stats : option Stats) (concurrent : bool) : res Stats :=
  b ← or_raise ValueError second_stats;
  match first_stats with
  | None => Ok b
  | Some a =>
      time ← both fadd (execution_time a) (execution_time b);
      wall ← both (if concurrent then fmax else fadd) (execution_wall_clock_time a) (execution_wall_clock_time b);
      memory ← both (if concurrent then Z.add else Z.max) (execution_memory a) (execution_memory b);
      status ← (if decide (exit_status a = EXIT_OK) then
                  if decide (exit_status b = EXIT_SIGNAL) then
                    signal ← or_raise KeyError (signal b); Ok (exit_status b, Some signal)
                  else Ok (exit_status b, signal a)
                else Ok (exit_status a, signal a));
      Ok (mkStats time wall memory status.1 status.2
            (join_outputs (stdout a) (stdout b)) (join_outputs (stderr a) (stderr b)))
  end.

Section steps.
Context `{Isolate} {C : Type} `{FileStore C} (config : SandboxConfig) (utf8_replace : bytes → string).

Abbreviation BoxM A := (M (Sandbox * Host C) A).

(** [b.decode("utf-8", errors="replace")] *)
Definition decode (b : bytes) : string := if is_utf8 b then b else utf8_replace b.

Definition collected (path : option string) : BoxM string :=
  path ← lift (or_raise TypeError path);
  b ← get_file_to_string path (Some 1024%nat);
  mret (strip (decode b)).

Definition execution_stats (collect_output : bool) : BoxM Stats :=
  time ← get_execution_time;
  wall ← get_execution_wall_clock_time;
  memory ← get_memory_used;
  status ← get_exit_status;
  signal ← (if decide (status = EXIT_SIGNAL) then s ← get_killing_signal; mret (Some s) else mret None);
  if collect_output then
    o ← look (λ s, Ok (options s));
    out ← collected (stdout_file o);
    err ← collected (stderr_file o);
    mret (mkStats time wall memory status signal (Some out) (Some err))
  else mret (mkStats time wall memory status signal None None).

(** ** Steps of many commands (utils.py) *)

Definition step_file (step_name what : string) (exec_num : nat) : string :=
  step_name +:+ "_" +:+ what +:+ "_" +:+ pretty exec_num +:+ ".txt".

Definition _generic_execution (command : list string) (exec_num : nat) (step_name : string) (collect_output : bool)
    : BoxM (option Stats) :=
  _ ← option_set (with_outputs (Some (step_file step_name "stdout" exec_num)) (Some (step_file step_name "stderr" exec_num)));
  box_success ← execute_without_std config command;
  if negb box_success then mret None else s ← execution_stats collect_output; mret (Some s).

(** The commands from number [exec_num], after those with the statistics
    [stats]. *)
Fixpoint generic_loop (commands : list (list string)) (exec_num : nat) (stats : option Stats) (step_name : string)
    (collect_output : bool) : BoxM (option Stats) :=
  match commands with
  | [] => mret stats
  | command :: commands =>
      this_stats ← _generic_execution command exec_num step_name collect_output;
      match this_stats with
      | None => mret None
      | Some _ =>
          merged ← lift (merge_execution_stats stats this_stats false);
          if decide (exit_status merged ≠ EXIT_OK) then mret (Some merged)
          else generic_loop commands (S exec_num) (Some merged) step_name collect_output
      end
  end.

Definition generic_step (commands : list (list string)) (step_name : string) (collect_output : bool) : BoxM (option Stats) :=
  generic_loop commands 0 None step_name collect_output.

(** ** Compilation (compilation.py) *)

Definition plus_one (t : float) : float := fadd t f1.

(** The sandbox did not fail; there is an executable; message; statistics. *)
Record StepResult : Type := mkStepResult {
  box_success : bool;
  step_success : option bool;
  step_text : option (list string);
  step_stats : option Stats;
}.
Definition sandbox_failed : StepResult := mkStepResult false None None None.

Definition compilation_step (commands : list (list string)) : BoxM StepResult :=
  _ ← add_mapped_directory "/etc" None None false;
  _ ← maybe_add_mapped_directory "/var/lib/ghc" None None;
  _ ← option_set (with_preserve_env true);
  _ ← option_set (with_max_processes (Some (compilation_max_processes config)));
  let timeout := compilation_max_time_s config in
  _ ← option_set (with_timeouts (Some timeout) (Some (plus_one timeout)));
  _ ← option_set (with_address_space (Some (compilation_max_memory_kib config * 1024)%Z));
  stats ← generic_step commands "compilation" true;
  match stats with
  | None => mret sandbox_failed
  | Some s =>
      let status := exit_status s in
      if decide (status = EXIT_OK) then
        text ← lift (message_of COMPILATION_MESSAGES "success"); mret (mkStepResult true (Some true) (Some [text]) stats)
      else if decide (status = EXIT_NONZERO_RETURN) then
        text ← lift (message_of COMPILATION_MESSAGES "fail"); mret (mkStepResult true (Some false) (Some [text]) stats)
      else if decide (status = EXIT_TIMEOUT ∨ status = EXIT_TIMEOUT_WALL) then
        text ← lift (message_of COMPILATION_MESSAGES "timeout"); mret (mkStepResult true (Some false) (Some [text]) stats)
      else if decide (status = EXIT_SIGNAL) then
        signal ← lift (or_raise KeyError (signal s));
        text ← lift (message_of COMPILATION_MESSAGES "signal");
        mret (mkStepResult true (Some false) (Some [text; pretty signal]) stats)
      else mret sandbox_failed
  end.

(** ** Evaluation (evaluation.py) *)

(** [evaluation_step_before_run] up to the start of the process. *)
Definition evaluation_start (command : list string) (time_limit : option float) (memory_limit : option Z)
    (dirs_map : list (string * (string * option string))) (writable_files : list string)
    (stdin_redirect stdout_redirect : option string) (multiprocess : bool) : BoxM Process :=
  if match time_limit with Some t => fleb t f0 | None => false end then raise ValueError
  else if match memory_limit with Some m => (m <=? 0)%Z | None => false end then raise ValueError
  else
    let stdout_redirect := default "stdout.txt" stdout_redirect in
    _ ← option_set (with_timeouts time_limit (plus_one <$> time_limit));
    _ ← option_set (with_address_space memory_limit);
    _ ← option_set (with_fsize (Some (max_file_size config * 1024)%Z));
    _ ← option_set (with_stdin_file stdin_redirect);
    _ ← option_set (with_outputs (Some stdout_redirect) (Some "stderr.txt"));
    _ ← for_each (λ d : string * (string * option string), add_mapped_directory d.1 (Some d.2.1) d.2.2 false) dirs_map;
    _ ← allow_writing_only (writable_files ++ ["stderr.txt"; stdout_redirect]);
    _ ← set_multiprocess multiprocess;
    popen config command.

(** With [wait=True]. *)
Definition evaluation_step_before_run (command : list string) (time_limit : option float) (memory_limit : option Z)
    (writable_files : list string) (stdin_redirect stdout_redirect : option string) (multiprocess : bool) : BoxM bool :=
  p ← evaluation_start command time_limit memory_limit [] writable_files stdin_redirect stdout_redirect multiprocess;
  code ← wait_without_std p;
  lift (translate_box_exitcode code).

(** Its three results; the message is [human_evaluation_message]. *)
Definition evaluation_step_after_run : BoxM StepResult :=
  stats ← execution_stats false;
  let status := exit_status stats in
  if decide (status = EXIT_OK) then mret (mkStepResult true (Some true) None (Some stats))
  else if decide (status ∈ [EXIT_TIMEOUT; EXIT_TIMEOUT_WALL; EXIT_NONZERO_RETURN; EXIT_SIGNAL]) then
    mret (mkStepResult true (Some false) None (Some stats))
  else mret sandbox_failed.

(** The commands, until the sandbox fails. *)
Fixpoint evaluation_commands (commands : list (list string)) (time_limit : option float) (memory_limit : option Z)
    (writable_files : list string) (stdin_redirect stdout_redirect : option string) (multiprocess : bool) : BoxM bool :=
  match commands with
  | [] => mret true
  | command :: commands =>
      success ← evaluation_step_before_run command time_limit memory_limit writable_files stdin_redirect stdout_redirect
        multiprocess;
      if negb success then mret false
      else evaluation_commands commands time_limit memory_limit writable_files stdin_redirect stdout_redirect multiprocess
  end.

Definition evaluation_step (commands : list (list string)) (time_limit : option float) (memory_limit : option Z)
    (writable_files : list string) (stdin_redirect stdout_redirect : option string) (multiprocess : bool)
    : BoxM StepResult :=
  success ← evaluation_commands commands time_limit memory_limit writable_files stdin_redirect stdout_redirect multiprocess;
  if negb success then mret sandbox_failed else evaluation_step_after_run.

Definition human_evaluation_message (stats : Stats) : res (list string) :=
  let status := exit_status stats in
  let say x := m ← message_of EVALUATION_MESSAGES x; Ok [m] in
  if decide (status = EXIT_TIMEOUT) then say "timeout"
  else if decide (status = EXIT_TIMEOUT_WALL) then say "walltimeout"
  else if decide (status = EXIT_SIGNAL) then say "signal"
  else if decide (status = EXIT_SANDBOX_ERROR) then Ok []
  else if decide (status = EXIT_NONZERO_RETURN) then say "returncode"
  else Ok [].

(** ** Managers of the admins (trusted.py) *)

Definition trusted_step (commands : list (list string)) : BoxM StepResult :=
  _ ← option_set (with_preserve_env true);
  _ ← option_set (with_max_processes (Some (trusted_max_processes config)));
  let timeout := trusted_max_time_s config in
  _ ← option_set (with_timeouts (Some timeout) (Some (plus_one timeout)));
  _ ← option_set (with_address_space (Some (trusted_max_memory_kib config * 1024)%Z));
  stats ← generic_step commands "trusted" false;
  match stats with
  | None => mret sandbox_failed
  | Some s =>
      let status := exit_status s in
      if decide (status = EXIT_OK) then mret (mkStepResult true (Some true) None stats)
      else if decide (status ∈ [EXIT_NONZERO_RETURN; EXIT_TIMEOUT; EXIT_TIMEOUT_WALL; EXIT_SIGNAL]) then
        mret (mkStepResult true (Some false) None stats)
      else mret sandbox_failed
  end.

Definition escape : ascii := ascii_of_nat 27.

(** Characters from an escape to the next [m] are dropped. *)
Fixpoint filter_ansi (ansi_mode : bool) (s : string) : string :=
  match s with
  | EmptyString => EmptyString
  | String c s =>
      let ansi_mode := ansi_mode || Ascii.eqb c escape in
      let rest := filter_ansi (ansi_mode && negb (Ascii.eqb c "m"%char)) s in
      if ansi_mode then rest else String c rest
  end.
Definition _filter_ansi_escape (s : string) : string := filter_ansi false s.

(** The first line of a file of the sandbox, without white space around. *)
Definition read_line_of (path : option string) : BoxM string :=
  path ← lift (or_raise TypeError path);
  content ← get_file path None;
  lift (line ← match text_readline content with
               | Raise e => Raise (if bool_decide (e = UnicodeDecodeError) then ValueError else e)
               | r => r
               end;
        Ok (strip line)).

(** The outcome of a manager: a number, or the two numbers of a match. *)
Inductive Outcome : Type := OFloat (x : float) | OPair (s : string).

Definition parse_outcome (PvP : bool) (outcome : string) : res Outcome :=
  if PvP then
    match split_all " "%char outcome with
    | [a; b] => _ ← float_of_string a; _ ← float_of_string b; Ok (OPair outcome)
    | _ => Raise ValueError
    end
  else x ← float_of_string outcome; Ok (OFloat x).

Definition translate_text (text : string) : res string :=
  if startswith "translate:" text then
    let remaining := strip (drop_string 10 text) in
    if decide (remaining ∈ ["success"; "partial"; "wrong"]) then message_of EVALUATION_MESSAGES remaining else Ok text
  else Ok text.

Definition extract_outcome_and_text (PvP : bool) : BoxM (Outcome * list string) :=
  o ← look (λ s, Ok (options s));
  outcome ← read_line_of (stdout_file o);
  line ← read_line_of (stderr_file o);
  let text := _filter_ansi_escape line in
  outcome ← lift (parse_outcome PvP outcome);
  text ← lift (translate_text text);
  mret (outcome, [text]).

Definition CHECKER_INPUT_FILENAME : string := "input.txt".
Definition CHECKER_CORRECT_OUTPUT_FILENAME : string := "correct_output.txt".
Definition CHECKER_FILENAME : string := "checker".

(** Success, outcome and text. *)
Record CheckResult : Type := mkCheckResult {
  check_success : bool;
  check_outcome : option Outcome;
  check_text : option (list string);
}.
Definition check_failed : CheckResult := mkCheckResult false None None.

Fixpoint any_exists (paths : list string) : BoxM bool :=
  match paths with
  | [] => mret false
  | path :: paths => e ← file_exists path; if e : bool then mret true else any_exists paths
  end.

Definition checker_step (checker_digest input_digest correct_output_digest : option string) (output_filename : string)
    : BoxM CheckResult :=
  taken ← any_exists [CHECKER_INPUT_FILENAME; CHECKER_CORRECT_OUTPUT_FILENAME; CHECKER_FILENAME];
  if taken : bool then mret check_failed
  else
    match checker_digest with
    | None => mret check_failed
    | Some checker_digest =>
        _ ← create_file_from_storage CHECKER_FILENAME (Some checker_digest) true;
        _ ← create_file_from_storage CHECKER_INPUT_FILENAME input_digest false;
        _ ← create_file_from_storage CHECKER_CORRECT_OUTPUT_FILENAME correct_output_digest false;
        let command := ["./" +:+ CHECKER_FILENAME; CHECKER_INPUT_FILENAME; CHECKER_CORRECT_OUTPUT_FILENAME; output_filename] in
        r ← trusted_step [command];
        if negb (box_success r) || negb (default false (step_success r)) then mret check_failed
        else
          try_except (λ e, bool_decide (e = ValueError) || bool_decide (e = FileNotFoundError))
            (ot ← extract_outcome_and_text false; mret (mkCheckResult true (Some ot.1) (Some ot.2)))
            (mret check_failed)
    end.
End steps.

Example steps_demo :
  _filter_ansi_escape ("a" +:+ String escape "[31mred" +:+ String escape "[0m.") = "ared." ∧
  translate_text "translate: wrong " = Ok "Output isn't correct" ∧ translate_text "translate:x" = Ok "translate:x" ∧
  parse_outcome false "0.5" = Ok (OFloat (of_Q 1 2)) ∧ parse_outcome true "1.0 0.0" = Ok (OPair "1.0 0.0") ∧
  parse_outcome true "1.0" = Raise ValueError ∧
  is_utf8 (String (ascii_of_nat 195) (String (ascii_of_nat 168) "")) = true ∧ is_utf8 (String (ascii_of_nat 192) "") = false.
Proof. by vm_compute. Qed.
