(* ===== verification/Grading.v ===== *)
(** * Compiling and evaluating (cms/grading/tasktypes/util.py, Batch.py,
    OutputOnly.py)

    The methods [compile] and [evaluate] of two task types: what they put in
    a sandbox, the steps they run, and the results that they write in the job,
    which is returned; a job whose task type raises is lost. The installed
    languages and [str] of a float are parameters. A path in a sandbox is
    given with what is there; links are not modelled. *)

From S2P Require Import Prelude WhiteDiff PyFloat PyString PyFormat PyParse Database EsOperations Languages TaskTypes Job FileStorage Sandbox GradingSteps.
From stdpp Require Import pretty.

Local Open Scope string_scope.
Local Open Scope list_scope.

Definition JobException : exn := UserError "JobException".
Definition StopIteration : exn := UserError "StopIteration".

(** ** Writing to a job *)

Definition with_sandbox (root : string) (j : Job) : Job :=
  mkJob (operation j) (task_type j) (task_type_parameters j) (language j) (multithreaded_sandbox j) (shard j) (keep_sandbox j)
    (sandboxes j ++ [root]) (info j) (success j) (text j) (files j) (managers j) (executables j).
Definition with_result (success : option bool) (text : option (list string)) (j : Job) : Job :=
  mkJob (operation j) (task_type j) (task_type_parameters j) (language j) (multithreaded_sandbox j) (shard j) (keep_sandbox j)
    (sandboxes j) (info j) success text (files j) (managers j) (executables j).
Definition with_executable (name digest : string) (j : Job) : Job :=
  mkJob (operation j) (task_type j) (task_type_parameters j) (language j) (multithreaded_sandbox j) (shard j) (keep_sandbox j)
    (sandboxes j) (info j) (success j) (text j) (files j) (managers j)
    (pd_set (executables j) name (mkFileObject name digest)).

Definition with_outcome (outcome : option string) (d : EvaluationData) : EvaluationData :=
  mkEvaluationData (input d) (output d) (time_limit d) (memory_limit d) outcome (user_output d) (Job.plus d) (only_execution d)
    (get_output d).
Definition with_user_output (o : option string) (d : EvaluationData) : EvaluationData :=
  mkEvaluationData (input d) (output d) (time_limit d) (memory_limit d) (outcome d) o (Job.plus d) (only_execution d) (get_output d).
Definition with_plus (p : option (pydict string json)) (d : EvaluationData) : EvaluationData :=
  mkEvaluationData (input d) (output d) (time_limit d) (memory_limit d) (outcome d) (user_output d) p (only_execution d)
    (get_output d).

(** The statistics as the dictionary that they are in the code. *)
Definition stats_dict (s : Stats) : pydict string json :=
  [("execution_time", to_json (execution_time s)); ("execution_wall_clock_time", to_json (execution_wall_clock_time s));
   ("execution_memory", to_json (execution_memory s)); ("exit_status", to_json (exit_status s))]
  ++ match GradingSteps.signal s with Some n => [("signal", to_json n)] | None => [] end
  ++ match stdout s with Some o => [("stdout", to_json o)] | None => [] end
  ++ match stderr s with Some o => [("stderr", to_json o)] | None => [] end.

(** ** util.py *)

Definition configuration_error (j : Job) : Job := with_result (Some false) None j.
(** [set_configuration_error], for the two classes of jobs. *)
Definition compilation_configuration_error (j : CompilationJob) : CompilationJob :=
  mkCompilationJob (configuration_error j) None (cj_plus j).
Definition evaluation_configuration_error (j : EvaluationJob) : EvaluationJob :=
  mkEvaluationJob (configuration_error j) (with_outcome None (ej_data j)).

Definition check_executables_number (j : Job) (n : nat) : bool := bool_decide (List.length (executables j) = n).
Definition check_files_number (j : Job) (n : nat) (or_more : bool) : bool :=
  if or_more then bool_decide (n ≤ List.length (files j))%nat else bool_decide (List.length (files j) = n).
Definition check_manager_present (j : Job) (codename : string) : bool := pd_mem (managers j) codename.

Definition EVAL_USER_OUTPUT_FILENAME : string := "user_output.txt".

(** The output to check: what is at a path, or a digest. *)
Inductive UserOutput : Type :=
  | AtPath (content : option bytes)
  | OfDigest (digest : string).

Section grading.
Context `{Isolate} {C : Type} `{FileStore C} (config : SandboxConfig) (service_shard : option Z).
Context (utf8_replace : bytes → string) (LANGUAGES : list Language) (str_float : float → string).

Abbreviation HostM A := (M (Host C) A).

Definition create_sandbox (name : string) : HostM Sandbox :=
  try_except (λ e, bool_decide (e = OSError)) (new_sandbox service_shard name) (raise JobException).

(** Only [OSError] is caught. *)
Definition delete_sandbox (s : Sandbox) (success keep_sandbox : bool) : HostM unit :=
  let delete := success && negb (keep_sandboxes config) && negb keep_sandbox in
  try_except (λ e, bool_decide (e = OSError)) (_ ← in_box s (cleanup delete); mret tt) (mret tt).

Definition fetch_file (digest : string) : HostM bytes := λ h,
  let '(r, c) := fetch digest (cacher h) in (r, set_cacher c h).

Definition str_outcome (o : Outcome) : string := match o with OFloat x => str_float x | OPair s => s end.

(** In the sandbox of the check: the output is put there, and the checker runs. *)
Definition put_output (user_output : UserOutput) : M (Sandbox * Host C) unit :=
  match user_output with
  | AtPath (Some content) => change (set_home <[EVAL_USER_OUTPUT_FILENAME := mkBoxFile content 644]>)
  | AtPath None => mret tt
  | OfDigest digest => create_file_from_storage EVAL_USER_OUTPUT_FILENAME (Some digest) false
  end.

Definition run_checker (j : Job) (input correct_output : option string) (codename : string) (user_output : UserOutput)
    : M (Sandbox * Host C) CheckResult :=
  _ ← put_output user_output;
  let checker : option string := digest <$> pd_get (managers j) codename in
  checker_step config utf8_replace checker input correct_output EVAL_USER_OUTPUT_FILENAME.

(** What is found, and the directories of the sandboxes that were made. *)
Definition eval_output (j : Job) (input correct_output : option string) (checker_codename : option string)
    (user_output : UserOutput) (user_output_filename : string) : HostM (CheckResult * list string) :=
  match user_output with
  | AtPath None =>
      m ← lift (message_of EVALUATION_MESSAGES "nooutput");
      mret (mkCheckResult true (Some (OFloat f0)) (Some [m; user_output_filename]), [])
  | _ =>
      match checker_codename with
      | Some codename =>
          if negb (check_manager_present j codename) then mret (check_failed, [])
          else
            sandbox ← create_sandbox "check";
            r ← in_box sandbox (run_checker j input correct_output codename user_output);
            _ ← delete_sandbox r.2 (check_success r.1) (keep_sandbox j);
            mret (r.1, [outer_dir r.2])
      | None =>
          mine ← match user_output with
                 | AtPath (Some content) => mret content
                 | AtPath None => raise FileNotFoundError
                 | OfDigest digest => fetch_file digest
                 end;
          correct_output ← lift (or_raise TypeError correct_output);
          correct ← fetch_file correct_output;
          r ← lift (white_diff_fobj_step (String.list_byte_of_string mine) (String.list_byte_of_string correct));
          mret (mkCheckResult true (Some (OFloat r.1)) (Some r.2), [])
      end
  end.

Definition job_language (j : Job) : HostM Language :=
  lift (n ← or_raise KeyError (language j); get_language LANGUAGES n).

(** [for filename, digest in d.items(): sandbox.create_file_from_storage(...)] *)
Definition create_files (d : pydict string string) (executable : bool) : M (Sandbox * Host C) unit :=
  for_each (λ kv, create_file_from_storage kv.1 (Some kv.2) executable) d.

(** ** Compiling

    [compile] of Batch, Communication and PvP, with the file that the admins
    provide to be compiled first, if any. *)

(** From the command line to the deletion of the sandbox. *)
Definition compile_sources (job : CompilationJob) (l : Language) (filenames_to_compile : list string)
    (filenames_and_digests_to_get : pydict string string) (executable_filename : string) : HostM CompilationJob :=
  commands ← lift (get_compilation_commands l filenames_to_compile executable_filename true);
  sandbox ← create_sandbox "compile";
  r ← in_box sandbox
    (_ ← create_files filenames_and_digests_to_get false;
     r ← compilation_step config utf8_replace commands;
     if box_success r && default false (step_success r) then
       d ← get_file_to_storage executable_filename ("Executable " +:+ executable_filename +:+ " for " +:+ info job) None;
       mret (r, Some d)
     else mret (r, None));
  let '((r, executable), sandbox) := r in
  let j := with_result (Some (box_success r)) (step_text r) (with_sandbox (outer_dir sandbox) job) in
  let j := match executable with Some d => with_executable executable_filename d j | None => j end in
  _ ← delete_sandbox sandbox (box_success r) (keep_sandbox job);
  mret (mkCompilationJob j (step_success r) (stats_dict <$> step_stats r)).

Section compile.
Context (uses_provided : bool) (basename : string).

(** The names passed to the compiler, and the digests of the files to get; a
    missing grader or stub is a configuration error. *)
Definition sources (j : Job) (l : Language) : res (option (list string * pydict string string)) :=
  provided ← (if uses_provided then
              e ← or_raise TypeError (source_extension l);
              let filename := basename +:+ e in
              match pd_get (managers j) filename with
              | Some f => Ok (Some ([filename], [(filename, digest f)]))
              | None => Ok None
              end
            else Ok (Some ([], [])));
  match provided with
  | None => Ok None
  | Some start =>
      r ← fold_res (λ acc cf,
        e ← or_raise TypeError (source_extension l);
        let filename := replace ".%l" e cf.1 in
        Ok (acc.1 ++ [filename], pd_set acc.2 filename (digest cf.2))) start (files j);
      Ok (Some (r.1, foldl (λ d fm, if is_manager_for_compilation fm.1 l then pd_set d fm.1 (digest fm.2) else d) r.2
                       (managers j)))
  end.

Definition compile_job (job : CompilationJob) : HostM CompilationJob :=
  l ← job_language job;
  if negb (check_files_number job 1 true) then mret (compilation_configuration_error job)
  else
    s ← lift (sources job l);
    match s with
    | None => mret (compilation_configuration_error job)
    | Some (filenames, digests) => compile_sources job l filenames digests (_executable_filename (pd_keys (files job)) l)
    end.
End compile.

Definition uses_grader (compilation : string) : bool := String.eqb compilation COMPILATION_GRADER.
Definition uses_stub (compilation : string) : bool := String.eqb compilation COMPILATION_STUB.
Definition batch_compile (compilation : string) : CompilationJob → HostM CompilationJob :=
  compile_job (uses_grader compilation) GRADER_BASENAME.
Definition communication_compile (compilation : string) : CompilationJob → HostM CompilationJob :=
  compile_job (uses_stub compilation) STUB_BASENAME.
Definition pvp_compile (compilation : string) : CompilationJob → HostM CompilationJob :=
  compile_job (uses_stub compilation) STUB_BASENAME.

(** ** Batch *)

Definition CHECKER_CODENAME : string := "checker".

Section batch.
Context (compilation input_filename output_filename output_eval actual_input actual_output : string).

Definition uses_checker : bool := String.eqb output_eval OUTPUT_EVAL_CHECKER.

(** Outcome, text, success, the digest of the output if there is a new value,
    and the sandboxes made. *)
Record Evaluated : Type := mkEvaluated {
  e_success : bool;
  e_outcome : option Outcome;
  e_text : option (list string);
  e_user_output : option (option string);
  e_sandboxes : list string;
}.

(** What is done with the results of the evaluation step. *)
Definition judge (job : EvaluationJob) (r : StepResult) (sandbox : Sandbox) : HostM (Evaluated * Sandbox) :=
  let d := ej_data job in
  let no_output := if get_output d then Some None else None in
  if negb (box_success r) then mret (mkEvaluated false None None None [], sandbox)
  else if negb (default false (step_success r)) then
    stats ← lift (or_raise TypeError (step_stats r));
    text ← lift (human_evaluation_message stats);
    mret (mkEvaluated true (Some (OFloat f0)) (Some text) no_output [], sandbox)
  else
    match home sandbox !! actual_output with
    | None =>
        mret (mkEvaluated true (Some (OFloat f0)) (Some ["Evaluation didn't produce file %s"; actual_output]) no_output [], sandbox)
    | Some f =>
        stored ← (if get_output d then
                    r ← in_box sandbox (get_file_to_storage actual_output ("Output file in job " +:+ info job)
                          (Some (Z.to_nat (100 * 1024))));
                    mret (Some (Some r.1))
                  else mret None);
        if only_execution d then
          mret (mkEvaluated true (Some (OFloat f0)) (Some ["Execution completed successfully"]) stored [], sandbox)
        else
          c ← eval_output job (input d) (output d) (if uses_checker then Some CHECKER_CODENAME else None)
            (AtPath (Some (file_content f))) output_filename;
          (* a missing checker is a configuration error of the job, which is overwritten *)
          mret (mkEvaluated (check_success c.1) (check_outcome c.1) (check_text c.1) stored c.2, sandbox)
    end.

(** The main of the program, and the redirections: what is read as standard
    input, what is written as standard output, other files that it writes. *)
Definition main_of (executable_filename : string) : string :=
  if uses_grader compilation then GRADER_BASENAME else (splitext executable_filename).1.
Definition stdin_redirect : option string := if String.eqb input_filename "" then Some actual_input else None.
Definition stdout_redirect : option string := if String.eqb output_filename "" then Some actual_output else None.
Definition files_allowing_write : list string := if String.eqb output_filename "" then [] else [actual_output].

(** In the sandbox of the program. *)
Definition run_program (job : EvaluationJob) (l : Language) (executable_filename executable_digest : string)
    : M (Sandbox * Host C) StepResult :=
  let d := ej_data job in
  let commands := get_evaluation_commands l executable_filename (main_of executable_filename) [] in
  _ ← create_files [(executable_filename, executable_digest)] true;
  _ ← create_file_from_storage actual_input (input d) false;
  time_limit ← lift (t ← or_raise TypeError (time_limit d); Ok (fmul t (time_limit_multiplier l)));
  evaluation_step config utf8_replace commands (Some time_limit) (memory_limit d) files_allowing_write stdin_redirect
    stdout_redirect (multithreaded_sandbox job).

(** The results in the job. *)
Definition fill_job (job : EvaluationJob) (root : string) (r : StepResult) (e : Evaluated) : EvaluationJob :=
  let j := foldl (λ j s, with_sandbox s j) (with_sandbox root job) (e_sandboxes e) in
  let d := match e_user_output e with Some o => with_user_output o (ej_data job) | None => ej_data job end in
  mkEvaluationJob (with_result (Some (e_success e)) (e_text e) j)
    (with_plus (stats_dict <$> step_stats r) (with_outcome (str_outcome <$> e_outcome e) d)).

Definition batch_evaluate (job : EvaluationJob) : HostM EvaluationJob :=
  if negb (check_executables_number job 1) then mret (evaluation_configuration_error job)
  else
    executable ← lift (or_raise StopIteration (head (executables job)));
    l ← job_language job;
    sandbox ← create_sandbox "evaluate";
    r ← in_box sandbox (run_program job l executable.1 (digest executable.2));
    e ← judge job r.1 r.2;
    _ ← delete_sandbox e.2 (e_success e.1) (keep_sandbox job);
    mret (fill_job job (outer_dir e.2) r.1 e.1).
End batch.

(** ** OutputOnly *)

Definition output_only_compile (job : CompilationJob) : HostM CompilationJob :=
  mret (mkCompilationJob (with_result (Some true) (Some ["No compilation needed"]) job) (Some true) (Some [])).

Definition user_output_filename (j : Job) : res string :=
  o ← or_raise AttributeError (operation j);
  Ok ("output_" +:+ default "None" (testcase_codename o) +:+ ".txt").

Definition output_only_evaluate (output_eval : string) (job : EvaluationJob) : HostM EvaluationJob :=
  filename ← lift (user_output_filename job);
  match pd_get (files job) filename with
  | None =>
      mret (mkEvaluationJob (with_result (Some true) (Some ["File not submitted"]) job)
        (with_plus (Some []) (with_outcome (Some "0.0") (ej_data job))))
  | Some f =>
      let d := ej_data job in
      c ← eval_output job (input d) (output d)
        (if String.eqb output_eval OUTPUT_EVAL_CHECKER then Some CHECKER_CODENAME else None) (OfDigest (digest f)) "";
      let j := foldl (λ j s, with_sandbox s j) (ej_job job) c.2 in
      mret (mkEvaluationJob (with_result (Some (check_success c.1)) (check_text c.1) j)
        (with_plus (if check_success c.1 then Some [] else None)
          (with_outcome (str_outcome <$> check_outcome c.1) d)))
  end.
End grading.
