(* ===== verification/GradingSpec.v ===== *)
(** * The judgement of a program (contract of Grading.v)

    With a file storage that holds the files of a job: what is in the sandbox
    and which limits hold when isolate runs the program of a Batch task, and
    which outcome and message each end of the run is given. *)

From S2P Require Import Prelude WhiteDiff PyFloat PyString PyFormat PyParse Database EsOperations Languages TaskTypes Job FileStorage Sandbox GradingSteps Grading.
From Stdlib Require Import Strings.Ascii.

Local Open Scope string_scope.
Local Open Scope list_scope.

(** ** The contract of the storage *)

Class StoreLaws (C : Type) `{FileStore C} := {
  contents : C → gmap string bytes;
  fetch_ok d b c : contents c !! d = Some b → ∃ c', fetch d c = (Ok b, c') ∧ contents c' = contents c;
  store_ok b description c : ∃ d c', store b description c = (Ok d, c') ∧ contents c ⊆ contents c' ∧ contents c' !! d = Some b;
}.

(** ** Ends of a program *)

Lemma exit_status_cases l :
  exit_status_of l = EXIT_SANDBOX_ERROR ∨ exit_status_of l = EXIT_OK ∨
  exit_status_of l ∈ [EXIT_TIMEOUT; EXIT_TIMEOUT_WALL; EXIT_NONZERO_RETURN; EXIT_SIGNAL].
Proof.
  unfold exit_status_of. case_decide; [by left|]. case_decide.
  { right. right. destruct (default [] (pd_get l "message")) as [|m ?]; [set_solver|]. destruct (contains _ _); set_solver. }
  case_decide; [right; right; set_solver|]. case_decide; [right; right; set_solver|]. auto.
Qed.

(** What a contestant is told of a program that failed. *)
Definition failure_messages : list (string * string) :=
  [(EXIT_TIMEOUT, "Execution timed out"); (EXIT_TIMEOUT_WALL, "Execution timed out (wall clock limit exceeded)");
   (EXIT_SIGNAL, "Execution killed (could be triggered by violating memory limits)");
   (EXIT_NONZERO_RETURN, "Execution failed because the return code was nonzero")].

Definition program_failed (st : Stats) : Prop :=
  exit_status st ∈ [EXIT_TIMEOUT; EXIT_TIMEOUT_WALL; EXIT_NONZERO_RETURN; EXIT_SIGNAL].

Lemma human_message st :
  program_failed st → ∃ message, human_evaluation_message st = Ok [message] ∧ (exit_status st, message) ∈ failure_messages.
Proof.
  unfold program_failed. intros Hst. unfold human_evaluation_message.
  repeat (apply elem_of_cons in Hst as [->|Hst]); [..|by apply not_elem_of_nil in Hst];
    eexists; (split; [reflexivity|]); unfold failure_messages; set_solver.
Qed.

Section spec.
Context `{Isolate} {C : Type} `{StoreLaws C} (config : SandboxConfig) (service_shard : option Z).
Context (utf8_replace : bytes → string) (LANGUAGES : list Language) (str_float : float → string).

Definition held (h : Host C) : gmap string bytes := contents (cacher h).

(** The worker made a sandbox; a run took place; the storage has at least the
    same files. *)
Definition later (h h' : Host C) : Prop := held h ⊆ held h'.

Lemma later_refl h : later h h.
Proof. unfold later. reflexivity. Qed.
#[local] Hint Resolve later_refl : core.

(** ** Files of a sandbox *)

Lemma create_file_from_storage_ok path digest executable content s (h : Host C) :
  home s !! path = None → held h !! digest = Some content →
  ∃ h', create_file_from_storage path (Some digest) executable (s, h) =
      (Ok tt, (set_home <[path := mkBoxFile content (if executable : bool then 755 else 644)]> s, h')) ∧
    held h' = held h ∧ runs h' = runs h ∧ next_id h' = next_id h.
Proof.
  intros Hp Hd. destruct (fetch_ok digest content (cacher h) Hd) as (c' & Hf & Hc).
  exists (set_cacher c' h). split; [|done].
  unfold create_file_from_storage, create_file, on_cacher, fill, change, modify, mbind, M_bind, lift. cbn.
  rewrite Hp. cbn. rewrite Hf. cbn. unfold set_home. cbn.
  by rewrite alter_insert_eq.
Qed.

Lemma get_file_to_storage_ok path description trunc_len f s (h : Host C) :
  home s !! path = Some f →
  ∃ d h', get_file_to_storage path description trunc_len (s, h) = (Ok d, (s, h')) ∧ later h h' ∧ runs h' = runs h ∧
    held h' !! d = Some (match trunc_len with Some n => take_string n (file_content f) | None => file_content f end).
Proof.
  intros Hf. set (b := match trunc_len with Some n => _ | None => _ end).
  destruct (store_ok b description (cacher h)) as (d & c' & Hs & Hsub & Hd).
  exists d, (set_cacher c' h). split; [|done].
  unfold get_file_to_storage, get_file, look, on_cacher, mbind, M_bind. cbn. rewrite Hf. cbn. fold b. by rewrite Hs.
Qed.

(** Files that may be written are made, with mode 722; no other file may. *)
Lemma fold_touch files s :
  let s' := foldl (λ s f, set_home (λ h, match h !! f with Some _ => h | None => <[f := mkBoxFile "" 644]> h end) s) s files in
  s' = set_home (λ _, home s') s ∧
  ∀ f, home s' !! f = match home s !! f with
                      | Some x => Some x
                      | None => if decide (f ∈ files) then Some (mkBoxFile "" 644) else None
                      end.
Proof.
  clear utf8_replace str_float.
  revert s. induction files as [|g files IH]; intros s; cbn [foldl].
  - split; [by destruct s|]. intros f. rewrite decide_False by apply not_elem_of_nil. by destruct (home s !! f).
  - set (s1 := set_home _ s). destruct (IH s1) as [Hs Hf]. cbn zeta. split; [rewrite Hs at 1; done|].
    intros f. rewrite Hf. unfold s1. cbn. destruct (home s !! g) eqn:Hg.
    + destruct (home s !! f) eqn:Hsf; [done|]. apply decide_ext. rewrite elem_of_cons.
      split; [tauto|]. intros [->|?]; [congruence|done].
    + destruct (decide (f = g)) as [->|Hne].
      * rewrite lookup_insert_eq, Hg. by rewrite decide_True by left.
      * rewrite lookup_insert_ne by done. destruct (home s !! f); [done|]. apply decide_ext. rewrite elem_of_cons. tauto.
Qed.

Lemma fold_chmod files s :
  let s' := foldl (λ s f, set_home (alter (λ x, mkBoxFile (file_content x) 722) f) s) s files in
  s' = set_home (λ _, home s') s ∧
  ∀ f, home s' !! f = if decide (f ∈ files) then (λ x, mkBoxFile (file_content x) 722) <$> home s !! f else home s !! f.
Proof.
  clear utf8_replace str_float.
  revert s. induction files as [|g files IH]; intros s; cbn [foldl].
  - split; [by destruct s|]. intros f. by rewrite decide_False by apply not_elem_of_nil.
  - set (s1 := set_home _ s). destruct (IH s1) as [Hs Hf]. cbn zeta. split; [rewrite Hs at 1; done|].
    intros f. rewrite Hf. unfold s1. cbn. destruct (decide (f = g)) as [->|Hne].
    + rewrite lookup_alter_eq. rewrite (decide_True (P:=g ∈ g :: files)) by left.
      case_decide; [|done]. by destruct (home s !! g).
    + rewrite lookup_alter_ne by done. apply decide_ext. rewrite elem_of_cons. tauto.
Qed.

Definition plain (path : string) : Prop := inner_file path = Some path.

Lemma omap_plain paths : Forall plain paths → omap inner_file paths = paths.
Proof. induction 1 as [|p paths Hpl _ IH]; [done|]. cbn. by rewrite Hpl, IH. Qed.

Lemma allow_writing_only_ok paths s (h : Host C) :
  ∃ files, allow_writing_only paths (s, h) = (Ok tt, (set_home (λ _, files) (set_home_mode 755 s), h)) ∧
    ∀ f, files !! f = if decide (f ∈ omap inner_file paths) then Some (mkBoxFile (default "" (file_content <$> home s !! f)) 722)
                      else (λ x, mkBoxFile (file_content x) 755) <$> home s !! f.
Proof.
  unfold allow_writing_only, change, modify. cbn. generalize (omap inner_file paths). clear paths. intros paths.
  set (touched := foldl _ s paths). destruct (fold_touch paths s) as [Ht Htf]. fold touched in Ht, Htf.
  destruct (fold_chmod paths (chmod_all 755 touched)) as [Hc Hcf].
  set (s' := foldl _ (chmod_all 755 touched) paths) in *. exists (home s'). split.
  - rewrite Hc. unfold chmod_all. by rewrite Ht.
  - intros f. rewrite Hcf. unfold chmod_all. cbn. rewrite lookup_fmap, Htf.
    destruct (home s !! f); case_decide; done.
Qed.

(** ** A new sandbox *)

(** The directories that the programs see. *)
Definition shared (outer : string) : list (string * string * option string) :=
  [(path_join outer "home", HOME_DEST, Some "rw")]
  ++ (if path_exists "/etc/alternatives" then [("/etc/alternatives", "/etc/alternatives", None)] else [])
  ++ (if path_exists "/etc/mono" then [("/etc/mono", "/etc/mono", Some "noexec")] else []).

Definition fresh (id : Z) (outer : string) : Sandbox :=
  mkSandbox id outer ∅ 777
    (mkOptions (shared outer) false [("HOME", HOME_DEST)] None None None None (Some 1%Z) None None None) ∅ (-1) None [].

(** The machine makes and removes the sandbox. *)
Definition can_box (h : Host C) (name outer : string) : Prop :=
  make_outer_dir (next_id h + 1) name = Some outer ∧ isolate_init (new_box_id service_shard (next_id h)) = Some 0%Z ∧
  isolate_cleanup (new_box_id service_shard (next_id h)) = Some 0%Z.

Lemma create_sandbox_ok name outer h :
  can_box h name outer →
  create_sandbox service_shard name h =
    (Ok (fresh (new_box_id service_shard (next_id h)) outer), mkHost (next_id h + 1) (runs h) (cacher h)).
Proof.
  intros (Ho & Hi & Hc). unfold create_sandbox, try_except, new_sandbox.
  cbn. rewrite Ho.
  unfold add_mapped_directory, maybe_add_mapped_directory, add_mapped_directory, option_set, change, modify, cleanup,
    initialize_isolate, try_except, look, mbind, M_bind. cbn.
  unfold fresh, shared, add_mapped_directory, option_set, change, modify, set_options, with_dirs. cbn.
  destruct (path_exists "/etc/alternatives"), (path_exists "/etc/mono"); cbn; unfold check_call; rewrite Hc; cbn; by rewrite Hi.
Qed.

Lemma delete_sandbox_ok s success keep (h : Host C) :
  isolate_cleanup (box_id s) = Some 0%Z → delete_sandbox config s success keep h = (Ok tt, h).
Proof.
  intros Hc. unfold delete_sandbox, try_except, in_box, cleanup, check_call, look, mbind, M_bind. cbn. by rewrite Hc.
Qed.

(** ** What isolate is given *)

(** A file to execute, a file to read, files to write. *)
Definition program_files (executable executable_content input input_content : string) (writable : list string) : Home :=
  foldr (λ f, <[f := mkBoxFile "" 722]>)
    (<[executable := mkBoxFile executable_content 755]> {[input := mkBoxFile input_content 755]}) writable.

Definition mapped (dirs_map : list (string * (string * option string))) : list (string * string * option string) :=
  (λ d : string * (string * option string), (d.1, d.2.1, d.2.2)) <$> dirs_map.

Definition program_options (dirs_map : list (string * (string * option string))) (time_limit : float) (memory_limit : option Z) (stdin_redirect : option string) (stdout : string)
    (multiprocess : bool) (o : Options) : Options :=
  mkOptions (dirs o ++ mapped dirs_map) (preserve_env o) (set_env o) (Some (max_file_size config * 1024)%Z) stdin_redirect memory_limit
    (Some stdout) (Some (if multiprocess then 1000 else 1)%Z) (Some "stderr.txt") (Some time_limit) (Some (plus_one time_limit)).

Lemma lookup_writable (m : Home) writable f :
  foldr (λ f, <[f := mkBoxFile "" 722]>) m writable !! f = if decide (f ∈ writable) then Some (mkBoxFile "" 722) else m !! f.
Proof.
  clear utf8_replace str_float.
  induction writable as [|g writable IH]; cbn [foldr]; [by rewrite decide_False by apply not_elem_of_nil|].
  destruct (decide (f = g)) as [->|Hne].
  - rewrite lookup_insert_eq. by rewrite decide_True by left.
  - rewrite lookup_insert_ne, IH by done. apply decide_ext. rewrite elem_of_cons. tauto.
Qed.

Definition positive_limits (time_limit : float) (memory_limit : option Z) : Prop :=
  fleb time_limit f0 = false ∧ match memory_limit with Some m => (0 < m)%Z | None => True end.

Lemma add_dirs_ok dirs_map s (h : Host C) :
  for_each (λ d : string * (string * option string), add_mapped_directory d.1 (Some d.2.1) d.2.2 false) dirs_map (s, h) =
    (Ok tt, (set_options (with_dirs (λ l, l ++ mapped dirs_map)) s, h)).
Proof.
  revert s. induction dirs_map as [|d dirs_map IH]; intros s; cbn [for_each].
  - unfold set_options, with_dirs, mapped. cbn. rewrite app_nil_r. destruct s as [????[] ????]. done.
  - erewrite M_run_Ok by reflexivity. rewrite IH. unfold set_options, with_dirs, mapped. cbn. by rewrite <- app_assoc.
Qed.

(** The process is started on the files of the sandbox. *)
Lemma evaluation_start_ok command time_limit memory_limit dirs_map writable stdin stdout multiprocess s (h : Host C) :
  positive_limits time_limit memory_limit →
  let out := default "stdout.txt" stdout in
  ∃ files,
    evaluation_start config command (Some time_limit) memory_limit dirs_map writable stdin stdout multiprocess (s, h) =
      popen config command
        (set_options (program_options dirs_map time_limit memory_limit stdin out multiprocess) (set_home (λ _, files) (set_home_mode 755 s)), h) ∧
    ∀ f, files !! f = if decide (f ∈ omap inner_file (writable ++ ["stderr.txt"; out])) then Some (mkBoxFile (default "" (file_content <$> home s !! f)) 722)
                      else (λ x, mkBoxFile (file_content x) 755) <$> home s !! f.
Proof.
  intros [Ht Hm] out.
  set (s0 := set_options (with_outputs (Some out) (Some "stderr.txt")) (set_options (with_stdin_file stdin)
    (set_options (with_fsize (Some (max_file_size config * 1024)%Z)) (set_options (with_address_space memory_limit)
    (set_options (with_timeouts (Some time_limit) (Some (plus_one time_limit))) s))))).
  set (s1 := set_options (with_dirs (λ l, l ++ mapped dirs_map)) s0).
  destruct (allow_writing_only_ok (writable ++ ["stderr.txt"; out]) s1 h) as (files & Ha & Hf).
  exists files. split; [|exact Hf].
  unfold evaluation_start. rewrite Ht.
  assert (match memory_limit with Some m => (m <=? 0)%Z | None => false end = false) as ->.
  { destruct memory_limit as [m|]; [|done]. apply Z.leb_gt, Hm. }
  do 5 (erewrite M_run_Ok by reflexivity). cbn [fst snd]. fold out. fold s0. rewrite (M_run_Ok _ _ _ _ _ (add_dirs_ok dirs_map s0 h)).
  fold s1. rewrite (M_run_Ok _ _ _ _ _ Ha). by erewrite M_run_Ok by reflexivity.
Qed.

Lemma evaluation_step_start command time_limit memory_limit writable stdin stdout multiprocess (x y : Sandbox * Host C) :
  evaluation_start config command time_limit memory_limit [] writable stdin stdout multiprocess x = popen config command y →
  evaluation_step config utf8_replace [command] time_limit memory_limit writable stdin stdout multiprocess x =
    (success ← execute_without_std config command;
     if negb success then mret sandbox_failed else evaluation_step_after_run utf8_replace) y.
Proof.
  intros Hs. unfold evaluation_step, evaluation_commands, evaluation_step_before_run, execute_without_std, mbind, M_bind.
  rewrite Hs. destruct (popen config command y) as [[p| | |] z]; try done.
  destruct (wait_without_std p z) as [[c| | |] w]; try done. unfold lift.
  by destruct (translate_box_exitcode c) as [[]| | |].
Qed.

(** ** A run and its statistics *)

Definition isolated (command : list string) : Prop :=
  match command with [] => False | first :: _ => first ∉ SECURE_COMMANDS end.

(** The arguments of isolate for the next run. *)
Definition isolate_command (s : Sandbox) (command : list string) : list string := box_args config (next_run s) command.

(** The sandbox when a process runs, and when it is over. *)
Definition started (command : list string) (s : Sandbox) : Sandbox := log_command (isolate_command s command) (next_run s).
Definition ran (command : list string) (r : Run) (s : Sandbox) : Sandbox := leave r (started command s).

Lemma popen_ok command s (h : Host C) :
  isolated command → popen config command (s, h) = (Ok (Running (isolate_command s command)), (started command s, h)).
Proof. intros Hc. destruct command as [|first args]; [done|]. unfold popen, lift, mbind, M_bind. cbn. by rewrite decide_False. Qed.

Lemma execute_ok command r s (h : Host C) :
  isolated command → isolate_run (runs h) [(isolate_command s command, home s)] 0 = Some r →
  execute_without_std config command (s, h) = (translate_box_exitcode (run_exit r), (ran command r s, one_more_run h)).
Proof.
  intros Hc Hr. unfold execute_without_std. rewrite (M_run_Ok _ _ _ _ _ (popen_ok command s h Hc)).
  unfold wait_without_std, lift, mbind, M_bind. change (home (started command s)) with (home s). by rewrite Hr.
Qed.

(** The lines [key:value] of a log. *)
Definition parse_line (log : pydict string (list string)) (line : string) : res (pydict string (list string)) :=
  kv ← or_raise ValueError (split_once ":"%char (strip line));
  Ok (pd_set log kv.1 (default [] (pd_get log kv.1) ++ [kv.2])).
Definition parse_log (text : string) : res (pydict string (list string)) := fold_res parse_line [] (text_lines text).

(** The statistics that a log holds. *)
Definition stats_of (l : pydict string (list string)) : res Stats :=
  time ← log_value "time" (λ x, some_res (float_of_string x)) None l;
  wall ← log_value "time-wall" (λ x, some_res (float_of_string x)) None l;
  memory ← log_value "cg-mem" (λ x, n ← int_of_string x; Ok (Some (n * 1024)%Z)) None l;
  signal ← (if decide (exit_status_of l = EXIT_SIGNAL) then some_res (log_value "exitsig" int_of_string 0%Z l) else Ok None);
  Ok (mkStats time wall memory (exit_status_of l) signal None None).

Lemma with_log_known {A} (f : pydict string (list string) → res A) l s (h : Host C) :
  log s = Some l → with_log f (s, h) = (f l, (s, h)).
Proof. intros Hl. unfold with_log, look, lift, mbind, M_bind. cbn. by rewrite Hl. Qed.

Lemma log_lines_ok lines l0 l s (h : Host C) :
  fold_res parse_line l0 lines = Ok l →
  for_each log_line lines (set_log (Some l0) s, h) = (Ok tt, (set_log (Some l) s, h)).
Proof.
  revert l0. induction lines as [|x lines IH]; intros l0 Hl; [by injection Hl as <-|].
  cbn in Hl. apply res_bind_Ok in Hl as (l1 & Hx & Hl). unfold parse_line in Hx.
  apply res_bind_Ok in Hx as (kv & Hkv & Hx). injection Hx as <-.
  cbn [for_each]. erewrite M_run_Ok; [by apply IH, Hl|].
  unfold log_line, lift, change, modify, mbind, M_bind. by rewrite Hkv.
Qed.

Lemma with_log_first {A} (f : pydict string (list string) → res A) t l s (h : Host C) :
  log s = None → logs s !! exec_num s = Some t → parse_log t = Ok l →
  with_log f (s, h) = (f l, (set_log (Some l) s, h)).
Proof.
  intros Hn Ht Hl. assert (get_log (s, h) = (Ok tt, (set_log (Some l) s, h))) as Hg.
  { unfold get_log. erewrite M_run_Ok by reflexivity. erewrite M_run_Ok; [by apply (log_lines_ok _ [] l s)|].
    unfold look. cbn. by rewrite Ht. }
  unfold with_log. erewrite M_run_Ok by reflexivity. cbn. rewrite Hn. rewrite (M_run_Ok _ _ _ _ _ Hg). done.
Qed.

Lemma execution_stats_ok t l st s (h : Host C) :
  log s = None → logs s !! exec_num s = Some t → parse_log t = Ok l → stats_of l = Ok st →
  execution_stats utf8_replace false (s, h) = (Ok st, (set_log (Some l) s, h)).
Proof.
  intros Hn Ht Hl Hst. unfold stats_of in Hst.
  apply res_bind_Ok in Hst as (time & Htime & Hst). apply res_bind_Ok in Hst as (wall & Hwall & Hst).
  apply res_bind_Ok in Hst as (memory & Hmem & Hst). apply res_bind_Ok in Hst as (sg & Hsig & Hst). injection Hst as <-.
  unfold execution_stats, get_execution_time, get_execution_wall_clock_time, get_memory_used, get_exit_status.
  set (s1 := set_log (Some l) s).
  rewrite (M_run_Ok _ _ _ time (s1, h)) by (rewrite (with_log_first _ t l) by done; by rewrite Htime).
  rewrite (M_run_Ok _ _ _ wall (s1, h)) by (rewrite (with_log_known _ l) by done; by rewrite Hwall).
  rewrite (M_run_Ok _ _ _ memory (s1, h)) by (rewrite (with_log_known _ l) by done; by rewrite Hmem).
  rewrite (M_run_Ok _ _ _ (exit_status_of l) (s1, h)) by (by rewrite (with_log_known _ l)).
  rewrite (M_run_Ok _ _ _ sg (s1, h)); [done|].
  case_decide; [|by injection Hsig as <-].
  unfold some_res in Hsig. apply res_bind_Ok in Hsig as (n & Hn' & Hs). injection Hs as <-.
  rewrite (M_run_Ok _ _ _ n (s1, h)); [done|]. unfold get_killing_signal. rewrite (with_log_known _ l) by done. by rewrite Hn'.
Qed.

(** What a run of the program says: [None] if isolate says that it failed. *)
Definition run_stats (r : Run) : res (option Stats) :=
  ok ← translate_box_exitcode (run_exit r);
  if ok : bool then
    t ← or_raise OSError (run_log r); l ← parse_log t; st ← stats_of l; Ok (Some st)
  else Ok None.

Definition step_of (o : option Stats) : StepResult :=
  match o with
  | None => sandbox_failed
  | Some st => if decide (exit_status st = EXIT_SANDBOX_ERROR) then sandbox_failed
               else mkStepResult true (Some (bool_decide (exit_status st = EXIT_OK))) None (Some st)
  end.

Lemma stats_of_status l st : stats_of l = Ok st → exit_status st = exit_status_of l.
Proof.
  unfold stats_of. intros Hst.
  do 4 (apply res_bind_Ok in Hst as (? & _ & Hst)). by injection Hst as <-.
Qed.

Lemma step_after_run_ok t l st s (h : Host C) :
  log s = None → logs s !! exec_num s = Some t → parse_log t = Ok l → stats_of l = Ok st →
  evaluation_step_after_run utf8_replace (s, h) = (Ok (step_of (Some st)), (set_log (Some l) s, h)).
Proof.
  intros Hn Ht Hl Hst. unfold evaluation_step_after_run.
  rewrite (M_run_Ok _ _ _ _ _ (execution_stats_ok t l st s h Hn Ht Hl Hst)).
  cbn [step_of]. destruct (exit_status_cases l) as [He|[He|He]]; rewrite <- (stats_of_status l st) in He by done.
  - rewrite He. done.
  - rewrite He. done.
  - rewrite (decide_False (P:=exit_status st = EXIT_OK)) by (intros Heq; rewrite Heq in He; set_solver).
    rewrite decide_True by done.
    rewrite decide_False by (intros Heq; rewrite Heq in He; set_solver).
    by rewrite bool_decide_eq_false_2 by (intros Heq; rewrite Heq in He; set_solver).
Qed.

Lemma after_run_ok command r o s (h : Host C) :
  isolated command → isolate_run (runs h) [(isolate_command s command, home s)] 0 = Some r → run_stats r = Ok o →
  ∃ s', (success ← execute_without_std config command;
         if negb success then mret sandbox_failed else evaluation_step_after_run utf8_replace) (s, h) =
      (Ok (step_of o), (s', one_more_run h)) ∧
    home s' = run_home r ∧ box_id s' = box_id s ∧ outer_dir s' = outer_dir s.
Proof.
  intros Hc Hr Ho. apply res_bind_Ok in Ho as (ok & Hok & Ho).
  rewrite (M_run_Ok _ _ _ ok (ran command r s, one_more_run h)) by (rewrite (execute_ok _ r) by done; by rewrite Hok).
  destruct ok; cbn [negb]; [|injection Ho as <-; by exists (ran command r s)].
  apply res_bind_Ok in Ho as (t & Ht%or_raise_Ok & Ho). apply res_bind_Ok in Ho as (l & Hl & Ho).
  apply res_bind_Ok in Ho as (st & Hst & Ho). injection Ho as <-.
  exists (set_log (Some l) (ran command r s)). split; [|done].
  apply (step_after_run_ok t); [done| |done|done]. unfold ran, leave, set_logs. cbn. rewrite Ht. apply lookup_insert_eq.
Qed.

(** The files once their rights are set. *)
Lemma writable_eq (files m m0 : Home) writable :
  (∀ f, files !! f = if decide (f ∈ writable) then Some (mkBoxFile (default "" (file_content <$> m0 !! f)) 722)
                     else (λ x, mkBoxFile (file_content x) 755) <$> m0 !! f) →
  m = (λ x, mkBoxFile (file_content x) 755) <$> m0 → (∀ f, f ∈ writable → m0 !! f = None) →
  files = foldr (λ f, <[f := mkBoxFile "" 722]>) m writable.
Proof.
  intros Hf -> Hw. apply map_eq. intros f. rewrite Hf, lookup_writable, lookup_fmap.
  case_decide as Hin; [|done]. by rewrite (Hw f Hin).
Qed.

Lemma program_files_eq (files m0 : Home) writable executable bexe mexe input bin min :
  executable ≠ input → executable ∉ writable → input ∉ writable →
  (∀ f, files !! f = if decide (f ∈ writable) then Some (mkBoxFile (default "" (file_content <$> m0 !! f)) 722)
                     else (λ x, mkBoxFile (file_content x) 755) <$> m0 !! f) →
  m0 = <[input := mkBoxFile bin min]> (<[executable := mkBoxFile bexe mexe]> ∅) →
  files = program_files executable bexe input bin writable.
Proof.
  intros Hne He Hi Hf ->. apply (writable_eq _ _ _ _ Hf).
  - rewrite !fmap_insert, fmap_empty. cbn. by rewrite (insert_insert_ne _ input) by done.
  - intros f Hin. do 2 rewrite lookup_insert_ne by (intros <-; contradiction). apply lookup_empty.
Qed.

(** ** Batch *)

Section batch.
Context (compilation input_filename output_filename output_eval actual_input actual_output : string).

Abbreviation out_file := (default "stdout.txt" (stdout_redirect output_filename actual_output)).
Definition writable_files : list string := files_allowing_write output_filename actual_output ++ ["stderr.txt"; out_file].

(** The job is complete: one executable and the input, in the storage, a
    language whose programs are started by one command, positive limits, and
    names of files that do not clash. *)
Record complete (job : EvaluationJob) (l : Language) (command : list string) (executable : string * FileObject)
    (executable_content input_content : bytes) (time : float) (h : Host C) : Prop := mkComplete {
  c_executables : executables job = [executable];
  c_executable : held h !! digest executable.2 = Some executable_content;
  c_input : ∃ d, input (ej_data job) = Some d ∧ held h !! d = Some input_content;
  c_language : ∃ n, language job = Some n ∧ get_language LANGUAGES n = Ok l;
  c_command : get_evaluation_commands l executable.1 (main_of compilation executable.1) [] = [command];
  c_isolated : isolated command;
  c_time : time_limit (ej_data job) = Some time;
  c_limits : positive_limits (fmul time (time_limit_multiplier l)) (memory_limit (ej_data job));
  c_plain : Forall plain writable_files;
  c_names : executable.1 ≠ actual_input ∧ (executable.1 ∉ writable_files) ∧ (actual_input ∉ writable_files);
}.

(** The sandbox that isolate is run with. *)
Definition ready (job : EvaluationJob) (l : Language) (executable : string) (executable_content input_content : bytes)
    (time : float) (s : Sandbox) : Sandbox :=
  set_options (program_options [] (fmul time (time_limit_multiplier l)) (memory_limit (ej_data job))
      (stdin_redirect input_filename actual_input) out_file (multithreaded_sandbox job))
    (set_home (λ _, program_files executable executable_content actual_input input_content writable_files)
      (set_home_mode 755 s)).

Lemma run_program_ok job l command executable bexe bin time s (h : Host C) :
  home s = ∅ → complete job l command executable bexe bin time h →
  ∃ h', held h' = held h ∧ runs h' = runs h ∧
    run_program config utf8_replace compilation input_filename output_filename actual_input actual_output job l
        executable.1 (digest executable.2) (s, h) =
      (success ← execute_without_std config command;
       if negb success then mret sandbox_failed else evaluation_step_after_run utf8_replace)
        (ready job l executable.1 bexe bin time s, h').
Proof.
  intros Hs [Hex Hexe (d & Hd & Hin) _ Hcmd _ Ht Hlim Hplain (Hne & Hew & Hiw)].
  set (s1 := set_home <[executable.1 := mkBoxFile bexe 755]> s).
  destruct (create_file_from_storage_ok executable.1 (digest executable.2) true bexe s h) as (h1 & H1' & Hh1 & Hr1 & _); [by rewrite Hs, lookup_empty|done|].
  destruct (create_file_from_storage_ok actual_input d false bin s1 h1) as (h2 & H2 & Hh2 & Hr2 & _).
  { unfold s1. cbn. by rewrite lookup_insert_ne, Hs by done. }
  { by rewrite Hh1. }
  set (s2 := set_home <[actual_input := mkBoxFile bin 644]> s1).
  destruct (evaluation_start_ok command (fmul time (time_limit_multiplier l)) (memory_limit (ej_data job)) []
    (files_allowing_write output_filename actual_output) (stdin_redirect input_filename actual_input)
    (stdout_redirect output_filename actual_output) (multithreaded_sandbox job) s2 h2 Hlim) as (files & He & Hf).
  exists h2. split; [congruence|]. split; [congruence|].
  unfold run_program. rewrite Hcmd, Hd.
  erewrite M_run_Ok by (unfold create_files; cbn [for_each fst snd]; rewrite (M_run_Ok _ _ _ _ _ H1'); reflexivity).
  rewrite (M_run_Ok _ _ _ _ _ H2).
  rewrite (M_run_Ok _ _ _ (fmul time (time_limit_multiplier l)) (s2, h2)) by (unfold lift; by rewrite Ht).
  rewrite (evaluation_step_start _ _ _ _ _ _ _ _ _ He). f_equal. f_equal.
  assert (files = program_files executable.1 bexe actual_input bin writable_files) as ->; [|done].
  change (files_allowing_write output_filename actual_output ++ _) with writable_files in Hf.
  rewrite (omap_plain _ Hplain) in Hf. eapply program_files_eq; [done..|exact Hf|].
  unfold s2, s1. cbn. by rewrite Hs.
Qed.

(** Which run of the program is judged how: the statistics of the run, the
    files that it leaves and the correct output; whether the job succeeds, its
    outcome and its text; the output to store, if the program ran. *)
Inductive judgement (execution_only : bool) (after : Home) (correct : bytes)
    : option Stats → bool → option float → option string → option (option bytes) → Prop :=
  | isolate_fails : judgement execution_only after correct None false None None None
  | sandbox_error st : exit_status st = EXIT_SANDBOX_ERROR → judgement execution_only after correct (Some st) false None None None
  | program_fails st message :
      (exit_status st, message) ∈ failure_messages →
      judgement execution_only after correct (Some st) true (Some f0) (Some message) (Some None)
  | no_output st :
      exit_status st = EXIT_OK → after !! actual_output = None →
      judgement execution_only after correct (Some st) true (Some f0) (Some "Evaluation didn't produce file %s") (Some None)
  | only_executed st f :
      exit_status st = EXIT_OK → after !! actual_output = Some f → execution_only = true →
      judgement execution_only after correct (Some st) true (Some f0) (Some "Execution completed successfully") (Some (Some (file_content f)))
  | output_correct st f :
      exit_status st = EXIT_OK → after !! actual_output = Some f → execution_only = false →
      same_lines (String.list_byte_of_string (file_content f)) (String.list_byte_of_string correct) →
      judgement execution_only after correct (Some st) true (Some f1) (Some "Output is correct") (Some (Some (file_content f)))
  | output_wrong st f :
      exit_status st = EXIT_OK → after !! actual_output = Some f → execution_only = false →
      ¬ same_lines (String.list_byte_of_string (file_content f)) (String.list_byte_of_string correct) →
      judgement execution_only after correct (Some st) true (Some f0) (Some "Output isn't correct") (Some (Some (file_content f))).

(** The digest in the job of what the program wrote. *)
Definition stored_output (d : EvaluationData) (produced : option (option bytes)) (digest : option string)
    (files : gmap string bytes) : Prop :=
  match produced with
  | Some out =>
      if get_output d then
        match out with
        | Some content => ∃ dg, digest = Some dg ∧ files !! dg = Some (take_string (Z.to_nat (100 * 1024)) content)
        | None => digest = None
        end
      else digest = user_output d
  | None => digest = user_output d
  end.

(** The text of the job: the message, and the file that it is about. *)
Definition text_of (message : string) : list string :=
  if decide (message = "Evaluation didn't produce file %s") then [message; actual_output] else [message].

Lemma text_of_failure st message : (exit_status st, message) ∈ failure_messages → text_of message = [message].
Proof.
  intros Hin. unfold text_of. rewrite decide_False; [done|]. intros ->. unfold failure_messages in Hin.
  repeat (apply elem_of_cons in Hin as [Heq|Hin]; [by injection Heq|]). by apply not_elem_of_nil in Hin.
Qed.

Lemma eval_output_diff job files path d correct (h : Host C) :
  held h !! d = Some correct →
  ∃ h' r, eval_output config service_shard utf8_replace job files (Some d) None (AtPath (Some path)) output_filename h =
      (Ok (mkCheckResult true (Some (OFloat (if r : bool then f1 else f0)))
             (Some [if r then "Output is correct" else "Output isn't correct"]), []), h') ∧
    (r = true ↔ same_lines (String.list_byte_of_string path) (String.list_byte_of_string correct)) ∧
    held h' = held h ∧ runs h' = runs h.
Proof.
  intros Hd. destruct (fetch_ok d correct (cacher h) Hd) as (c' & Hf & Hc).
  destruct (white_diff_loop_spec (S (List.length (String.list_byte_of_string path)
    + List.length (String.list_byte_of_string correct))) (String.list_byte_of_string path)
    (String.list_byte_of_string correct)) as (r & Hr & Hs); [lia|].
  exists (set_cacher c' h), r. split; [|done].
  unfold eval_output, fetch_file, lift, mbind, M_bind. cbn -[white_diff_fobj_step]. rewrite Hf.
  cbn -[white_diff_fobj_step].
  unfold white_diff_fobj_step, _white_diff. rewrite Hr. by destruct r.
Qed.

Lemma run_stats_cases r st :
  run_stats r = Ok (Some st) →
  exit_status st = EXIT_SANDBOX_ERROR ∨ exit_status st = EXIT_OK ∨
  exit_status st ∈ [EXIT_TIMEOUT; EXIT_TIMEOUT_WALL; EXIT_NONZERO_RETURN; EXIT_SIGNAL].
Proof.
  unfold run_stats. intros Hr. apply res_bind_Ok in Hr as ([] & _ & Hr); [|done].
  apply res_bind_Ok in Hr as (t & _ & Hr). apply res_bind_Ok in Hr as (l & _ & Hr).
  apply res_bind_Ok in Hr as (x & Hx & [= <-]). rewrite (stats_of_status l x) by done. apply exit_status_cases.
Qed.

Abbreviation judge := (judge config service_shard utf8_replace output_filename output_eval actual_output).

(** What [judge] answers agrees with the judgement. *)
Definition agrees (job : EvaluationJob) (o : option Stats) (correct : bytes) (s : Sandbox) (h : Host C) : Prop :=
  ∃ ok oc txt produced out h',
    judge job (step_of o) s h = (Ok (mkEvaluated ok (OFloat <$> oc) (text_of <$> txt) out [], s), h') ∧
    judgement (only_execution (ej_data job)) (home s) correct o ok oc txt produced ∧
    stored_output (ej_data job) produced (default (user_output (ej_data job)) out) (held h') ∧
    later h h' ∧ runs h' = runs h.

Lemma step_of_ok st : exit_status st = EXIT_OK → step_of (Some st) = mkStepResult true (Some true) None (Some st).
Proof. unfold step_of. by intros ->. Qed.

(** The output is there: it is stored if the job asks for it. *)
Lemma output_stored job path f s (h : Host C) :
  home s !! path = Some f →
  ∃ stored h', (if get_output (ej_data job) then
       r ← in_box s (get_file_to_storage path ("Output file in job " +:+ info job) (Some (Z.to_nat (100 * 1024))));
       mret (Some (Some r.1))
     else mret None) h = (Ok stored, h') ∧
    stored_output (ej_data job) (Some (Some (file_content f))) (default (user_output (ej_data job)) stored) (held h') ∧
    later h h' ∧ runs h' = runs h.
Proof.
  intros Hf. unfold stored_output. destruct (get_output (ej_data job)).
  - destruct (get_file_to_storage_ok path ("Output file in job " +:+ info job) (Some (Z.to_nat (100 * 1024))) f s h Hf)
      as (d & h' & Hg & Hl & Hr & Hd).
    exists (Some (Some d)), h'. split; [|by eauto].
    unfold in_box. apply M_bind_Ok. exists (d, s), h'. by rewrite Hg.
  - exists None, h. by split_and!.
Qed.

Lemma judge_ok job r o dout correct s (h : Host C) :
  run_stats r = Ok o → String.eqb output_eval OUTPUT_EVAL_CHECKER = false →
  output (ej_data job) = Some dout → held h !! dout = Some correct → agrees job o correct s h.
Proof.
  intros Ho Hev Hd Hc.
  destruct o as [st|]; [|exists false, None, None, None, None, h; split_and!; try done; constructor].
  destruct (run_stats_cases r st Ho) as [Hst|[Hst|Hst]].
  - exists false, None, None, None, None, h. unfold step_of. rewrite decide_True by done. split_and!; try done. by constructor.
  - unfold agrees. rewrite step_of_ok by done. unfold Grading.judge. cbn [box_success step_success negb default id].
    destruct (home s !! actual_output) as [f|] eqn:Hf.
    + destruct (output_stored job actual_output f s h Hf) as (stored & h1 & Hs & Hso & Hl & Hr).
      rewrite (M_run_Ok _ _ _ _ _ Hs). destruct (only_execution (ej_data job)) eqn:Hex.
      * exists true, (Some f0), (Some "Execution completed successfully"), (Some (Some (file_content f))), stored, h1.
        split_and!; try done. by constructor.
      * rewrite Hd. unfold uses_checker. rewrite Hev.
        destruct (eval_output_diff job (input (ej_data job)) (file_content f) dout correct h1) as (h2 & b & He & Hb & Hh & Hr2).
        { by apply (lookup_weaken (held h)). }
        rewrite (M_run_Ok _ _ _ _ _ He).
        exists true, (Some (if b then f1 else f0)), (Some (if b then "Output is correct" else "Output isn't correct")),
          (Some (Some (file_content f))), stored, h2.
        unfold later. rewrite Hh, Hr2. split_and!; try done; [by destruct b|].
        destruct b; [eapply output_correct|eapply output_wrong]; try done; [by apply Hb|]. by intros ?%Hb.
    + eexists true, (Some f0), (Some "Evaluation didn't produce file %s"), (Some None), _, h.
      split_and!; [reflexivity|by constructor| |done|done]. unfold stored_output. by destruct (get_output _).
  - destruct (human_message st Hst) as (m & Hm & Hin). pose proof (text_of_failure st m Hin) as Htm.
    eexists true, (Some f0), (Some m), (Some None), _, h.
    split_and!; [|by constructor| |done|done].
    + unfold step_of. rewrite decide_False by (intros Heq; rewrite Heq in Hst; set_solver).
      rewrite bool_decide_eq_false_2 by (intros Heq; rewrite Heq in Hst; set_solver).
      unfold Grading.judge. cbn [box_success step_success step_stats negb default id or_raise].
      erewrite M_run_Ok by reflexivity. rewrite (M_run_Ok _ _ _ [m] h) by (unfold lift; by rewrite Hm).
      cbn. by rewrite Htm.
    + unfold stored_output. by destruct (get_output _).
Qed.

(** C3. Batch with a white diff, for a job that is complete, on a machine that
    makes sandboxes and a storage that keeps its contract: isolate is run once,
    with the limits of the job and on nothing but the executable and the input,
    which the program cannot write, and the files that it may write; and the
    job comes back with the outcome and the text of the judgement of what it
    left: failed if isolate did; 0.0 and why if the program failed, or wrote no
    output, or was only to be executed; otherwise 1.0 exactly when every line of
    the output has the words of the same line of the correct output. The output
    is stored, cut to 100 KiB, when the job asks for it. Nothing else of the
    job changes and nothing in the storage is lost. *)
Theorem batch_evaluate_exact job l command executable bexe bin time dout correct outer (h : Host C) r o :
  complete job l command executable bexe bin time h → can_box h "evaluate" outer →
  String.eqb output_eval OUTPUT_EVAL_CHECKER = false →
  output (ej_data job) = Some dout → held h !! dout = Some correct →
  let s := ready job l executable.1 bexe bin time (fresh (new_box_id service_shard (next_id h)) outer) in
  isolate_run (runs h) [(isolate_command s command, home s)] 0 = Some r → run_stats r = Ok o →
  ∃ ok oc txt produced uo h',
    batch_evaluate config service_shard utf8_replace LANGUAGES str_float compilation input_filename output_filename
        output_eval actual_input actual_output job h =
      (Ok (mkEvaluationJob (with_result (Some ok) (text_of <$> txt) (with_sandbox outer job))
             (with_plus (stats_dict <$> step_stats (step_of o))
               (with_outcome (str_float <$> oc) (with_user_output uo (ej_data job))))), h') ∧
    judgement (only_execution (ej_data job)) (run_home r) correct o ok oc txt produced ∧
    stored_output (ej_data job) produced uo (held h') ∧ later h h' ∧ runs h' = S (runs h).
Proof.
  intros Hj Hb Hev Hd Hc s Hrun Ho.
  set (h1 := mkHost (next_id h + 1) (runs h) (cacher h)).
  destruct (run_program_ok job l command executable bexe bin time (fresh (new_box_id service_shard (next_id h)) outer) h1)
    as (h2 & Hh2 & Hr2 & Hp); [done|by destruct Hj|]. fold s in Hp.
  destruct (after_run_ok command r o s h2) as (s3 & Hs3 & Hhome & Hid & Hroot);
    [by destruct Hj|by rewrite Hr2|done|]. rewrite Hs3 in Hp.
  destruct (judge_ok job r o dout correct s3 (one_more_run h2) Ho Hev Hd) as (ok & oc & txt & produced & out & h4 & Hjudge & Hjd & Hso & Hl & Hr4).
  { change (held h2 !! dout = Some correct). by rewrite Hh2. }
  exists ok, oc, txt, produced, (default (user_output (ej_data job)) out), h4.
  rewrite <- Hhome. split_and!; [|done|done| |by rewrite Hr4; cbn; rewrite Hr2].
  - destruct Hj as [Hex _ _ (n & Hn & Hlang) _ _ _ _ _ _].
    unfold batch_evaluate, check_executables_number. rewrite Hex, bool_decide_eq_true_2 by done. cbn [negb head].
    rewrite (M_run_Ok _ _ _ executable h) by done.
    rewrite (M_run_Ok _ _ _ l h) by (unfold job_language, lift; rewrite Hn; cbn; by rewrite Hlang).
    rewrite (M_run_Ok _ _ _ _ _ (create_sandbox_ok "evaluate" outer h Hb)). fold h1.
    rewrite (M_run_Ok _ _ _ (step_of o, s3) (one_more_run h2)) by (unfold in_box; by rewrite Hp).
    rewrite (M_run_Ok _ _ _ _ _ Hjudge). cbn [fst snd e_success].
    erewrite M_run_Ok by (apply delete_sandbox_ok; rewrite Hid; apply Hb).
    unfold fill_job. cbn. rewrite Hroot.
    replace (str_outcome str_float <$> (OFloat <$> oc)) with (str_float <$> oc) by (by destruct oc).
    destruct out; [done|]. cbn. by destruct (ej_data job).
  - revert Hl. unfold later. change (held (one_more_run h2)) with (held h2). by rewrite Hh2.
Qed.
End batch.
End spec.

(** ** A job *)

(** A storage where the digest of a file is its content. *)
Definition demo_store : FileStore (gset bytes) := {|
  fetch d c := if decide (d ∈ c) then (Ok d, c) else (Raise KeyError, c);
  store b _ c := (Ok b, {[b]} ∪ c);
|}.

Definition demo_contents (c : gset bytes) : gmap string bytes := set_to_map (λ b, (b, b)) c.

Lemma demo_lookup c d b : demo_contents c !! d = Some b ↔ d = b ∧ b ∈ c.
Proof.
  unfold demo_contents. rewrite lookup_set_to_map by (intros y y' _ _; cbn; done). split.
  - by intros (y & Hy & [= -> ->]).
  - intros [-> Hb]. by exists b.
Qed.

#[program] Definition demo_laws : @StoreLaws (gset bytes) demo_store := {| contents := demo_contents |}.
Next Obligation.
  intros d b c [-> Hb]%demo_lookup. exists c. split; [|done]. cbn. by rewrite decide_True.
Qed.
Next Obligation.
  intros b description c. exists b, ({[b]} ∪ c). split_and!; [done| |apply demo_lookup; set_solver].
  apply map_subseteq_spec. intros d x [-> Hx]%demo_lookup. apply demo_lookup. set_solver.
Qed.

(** The program adds the numbers 1 and 2. *)
Definition demo_log : string := "time:0.25" +:+ nl +:+ "time-wall:0.5" +:+ nl +:+ "cg-mem:100" +:+ nl.
Definition demo_isolate : Isolate := {|
  isolate_run n processes i := (λ p : list string * Home, let home := p.2 in mkRun 0 (<["output.txt" := mkBoxFile (" 3" +:+ nl) 722]> home) (Some demo_log)) <$> processes !! i;
  secure_run n argv home := None;
  isolate_init id := Some 0%Z;
  isolate_cleanup id := Some 0%Z;
  make_outer_dir n name := Some ("/tmp/cms-" +:+ name);
  make_fifo_dir n i := Some "/tmp/fifos";
  path_exists p := true;
  is_suid p := String.eqb p "/usr/bin/isolate";
  source_isolate := "/cms/isolate/isolate";
|}.

Definition demo_config : SandboxConfig :=
  mkSandboxConfig true 1048576 1000 (of_Z 10) 524288 1000 (of_Z 10) 4194304 false.
Definition demo_host : Host (gset bytes) := mkHost 0 0 {["elf"; "1 2"; "3"]}.
Definition demo_job : EvaluationJob :=
  mkEvaluationJob
    (mkJob None "Batch" (JList []) (Some "C++17 / g++") false None false [] "evaluate" None None [] []
       [("sum", mkFileObject "sum" "elf")])
    (mkEvaluationData (Some "1 2") (Some "3") (Some f1) (Some 268435456%Z) None None None false true).
Definition demo_str (x : float) : string := if fleb f1 x then "1.0" else "0.0".
Definition demo_stats : Stats := mkStats (Some (of_Q 1 4)) (Some (of_Q 1 2)) (Some 102400%Z) EXIT_OK None None None.

Lemma batch_evaluate_exact_witness :
  ∃ uo h',
    @batch_evaluate demo_isolate (gset bytes) demo_store demo_config (Some 0%Z) id [Cpp17Gpp] demo_str "alone" "" "" "diff"
        "input.txt" "output.txt" demo_job demo_host =
      (Ok (mkEvaluationJob (with_result (Some true) (Some ["Output is correct"]) (with_sandbox "/tmp/cms-evaluate" demo_job))
             (with_plus (Some (stats_dict demo_stats)) (with_outcome (Some "1.0") (with_user_output uo (ej_data demo_job))))), h') ∧
    (∃ d, uo = Some d ∧ demo_contents (cacher h') !! d = Some (" 3" +:+ nl)).
Proof.
  destruct (@batch_evaluate_exact demo_isolate (gset bytes) demo_store demo_laws demo_config (Some 0%Z) id [Cpp17Gpp] demo_str
    "alone" "" "" "diff" "input.txt" "output.txt" demo_job Cpp17Gpp ["./sum"] ("sum", mkFileObject "sum" "elf") "elf" "1 2" f1
    "3" "3" "/tmp/cms-evaluate" demo_host
    (mkRun 0 (<["output.txt" := mkBoxFile (" 3" +:+ nl) 722]>
       (program_files "sum" "elf" "input.txt" "1 2" (writable_files "" "output.txt"))) (Some demo_log)) (Some demo_stats))
    as (ok & oc & txt & produced & uo & h' & Hr & Hj & Hso & _ & _).
  - split; [reflexivity|vm_compute; reflexivity|exists "1 2"; split; vm_compute; reflexivity|
      exists "C++17 / g++"; split; vm_compute; reflexivity|vm_compute; reflexivity| |reflexivity|split; vm_compute; reflexivity| |].
    + cbn. set_solver.
    + repeat constructor.
    + split; [done|]. cbn. set_solver.
  - split_and!; vm_compute; reflexivity.
  - reflexivity.
  - reflexivity.
  - vm_compute; reflexivity.
  - reflexivity.
  - vm_compute; reflexivity.
  - exists uo, h'. inversion Hj as [|st Hst|st m Hin|st Hst Hno|st f Hst Hf Hex|st f Hst Hf Hex Hsame|st f Hst Hf Hex Hsame]; subst;
      try (vm_compute in Hst; done).
    + exfalso. vm_compute in Hin. set_solver.
    + split; [exact Hr|]. vm_compute in Hf. injection Hf as <-. exact Hso.
Defined.

