(* ===== verification/ManagedTasks.v ===== *)
(** * Programs that talk to a manager (cms/grading/tasktypes/PvP.py,
    Communication.py)

    [match] of PvP and [evaluate] of Communication: a program of the admins
    and programs of contestants run at the same time, each in a sandbox, and
    write to each other through fifos, which the directories that are mapped
    in the sandboxes hold. What processes that run together leave is a
    parameter of all of them ([isolate_run]). *)

From S2P Require Import Prelude WhiteDiff PyFloat PyString PyFormat PyParse Database EsOperations Languages TaskTypes Job FileStorage Sandbox GradingSteps Grading.
From stdpp Require Import pretty.

Local Open Scope string_scope.
Local Open Scope list_scope.

Definition INPUT_FILENAME : string := "input.txt".
Definition OUTPUT_FILENAME : string := "output.txt".

(** [[f(x) for x in l]] *)
Fixpoint each {S A B} (f : A → M S B) (l : list A) : M S (list B) :=
  match l with
  | [] => mret []
  | x :: l => y ← f x; ys ← each f l; mret (y :: ys)
  end.

(** ** Fifos of the program number [i] *)

Definition user_to_manager (i : nat) : string := "u" +:+ pretty i +:+ "_to_m".
Definition manager_to_user (i : nat) : string := "m_to_u" +:+ pretty i.
Definition sandbox_fifo_dir (i : nat) : string := "/fifo" +:+ pretty i.
Definition sandbox_fifo_user_to_manager (i : nat) : string := path_join (sandbox_fifo_dir i) (user_to_manager i).
Definition sandbox_fifo_manager_to_user (i : nat) : string := path_join (sandbox_fifo_dir i) (manager_to_user i).

Section managed.
Context `{Isolate} {C : Type} `{FileStore C} (config : SandboxConfig) (service_shard : option Z).
Context (utf8_replace : bytes → string) (LANGUAGES : list Language) (str_float : float → string).

Abbreviation HostM A := (M (Host C) A).

(** A directory for each program. *)
Definition make_fifos (n : nat) : HostM (list string) := λ h,
  (map_res (λ i, or_raise OSError (make_fifo_dir (runs h) i)) (seq 0 n), h).

(** ** Processes at the same time *)

Definition running (p : Process * Sandbox) : option (list string * Home) :=
  match p.1 with Running args => Some (args, home p.2) | Finished _ => None end.

Fixpoint leave_all (n : nat) (processes : list (list string * Home)) (i : nat) (l : list (Process * Sandbox)) : res (list Sandbox) :=
  match l with
  | [] => Ok []
  | (Finished _, s) :: l => rest ← leave_all n processes i l; Ok (s :: rest)
  | (Running _, s) :: l =>
      r ← or_raise OSError (isolate_run n processes i);
      rest ← leave_all n processes (S i) l;
      Ok (leave r s :: rest)
  end.

(** [wait_without_std(processes)]; the exit codes are not looked at. *)
Definition wait_for_all (l : list (Process * Sandbox)) : HostM (list Sandbox) := λ h,
  (leave_all (runs h) (omap running l) 0 l, one_more_run h).

(** ** Sandboxes of the manager and of the programs *)

Definition manager_sandbox (manager_digest : string) (input : option string) : HostM Sandbox :=
  s ← create_sandbox service_shard "manager_evaluate";
  r ← in_box s (_ ← create_file_from_storage MANAGER_FILENAME (Some manager_digest) true;
                create_file_from_storage INPUT_FILENAME input false);
  mret r.2.

(** All are made, then the executables are put there. *)
Definition user_sandboxes (executables : list (string * string)) : HostM (list Sandbox) :=
  boxes ← each (λ _, create_sandbox service_shard "user_evaluate") executables;
  each (λ bx : Sandbox * (string * string),
    r ← in_box bx.1 (create_file_from_storage bx.2.1 (Some bx.2.2) true); mret r.2) (zip boxes executables).

Definition manager_command (n : nat) : list string :=
  ["./" +:+ MANAGER_FILENAME]
  ++ concat ((λ i, [sandbox_fifo_user_to_manager i; sandbox_fifo_manager_to_user i]) <$> seq 0 n).

Definition start_manager (s : Sandbox) (fifo_dirs : list string) (time_limit : float) (multithreaded : bool)
    : HostM (Process * Sandbox) :=
  in_box s (evaluation_start config (manager_command (List.length fifo_dirs)) (Some time_limit)
    (Some (trusted_max_memory_kib config * 1024)%Z)
    (imap (λ i d, (d, (sandbox_fifo_dir i, Some "rw"))) fifo_dirs)
    [OUTPUT_FILENAME] (Some INPUT_FILENAME) None multithreaded).

(** The last command is the program; those before prepare it. *)
Definition start_user (uses_stub uses_fifos : bool) (i : nat) (s : Sandbox) (executable_filename : string) (l : Language)
    (fifo_dir : string) (time_limit : float) (memory_limit : option Z) (more_args : list string) (multithreaded : bool)
    : HostM (Process * Sandbox) :=
  let main := if uses_stub then STUB_BASENAME else (splitext executable_filename).1 in
  let args := (if uses_fifos then [sandbox_fifo_manager_to_user i; sandbox_fifo_user_to_manager i] else []) ++ more_args in
  let stdin_redirect := if uses_fifos then None else Some (sandbox_fifo_manager_to_user i) in
  let stdout_redirect := if uses_fifos then None else Some (sandbox_fifo_user_to_manager i) in
  let commands := get_evaluation_commands l executable_filename main args in
  in_box s
    (_ ← (if (1 <? List.length commands)%nat then
            _ ← trusted_step config utf8_replace (removelast commands); mret tt
          else mret tt);
     command ← lift (or_raise IndexError (last commands));
     evaluation_start config command (Some time_limit) memory_limit [(fifo_dir, (sandbox_fifo_dir i, Some "rw"))] []
       stdin_redirect stdout_redirect multithreaded).

(** [evaluation_step_after_run] of a sandbox. *)
Definition result_of (s : Sandbox) : HostM (StepResult * Sandbox) := in_box s (evaluation_step_after_run utf8_replace).

(** If asked so, the output of the manager is saved, provided that it exists. *)
Definition save_output (d : EvaluationData) (info : string) (s : Sandbox) : HostM (option string) :=
  if get_output d then
    if decide (is_Some (home s !! OUTPUT_FILENAME)) then
      r ← in_box s (get_file_to_storage OUTPUT_FILENAME ("Output file in job " +:+ info) (Some (Z.to_nat (100 * 1024))));
      mret (Some r.1)
    else mret None
  else mret (user_output d).

(** What a job is given at the end, and the deletion of the sandboxes. *)
Definition finish (j : Job) (d : EvaluationData) (boxes : list Sandbox) (success : bool) (outcome : option string)
    (text : option (list string)) (plus : option Stats) (output : option string) : HostM (Job * EvaluationData) :=
  _ ← for_each (λ s, delete_sandbox config s success (keep_sandbox j)) boxes;
  mret (with_result (Some success) text (foldl (λ j s, with_sandbox (outer_dir s) j) j boxes),
        with_plus (stats_dict <$> plus) (with_outcome outcome (with_user_output output d))).

(** The sandboxes and processes did what they should: the programs, the manager. *)
Definition all_ok (mgr : StepResult) (users : list StepResult) : bool :=
  forallb box_success users && box_success mgr && default false (step_success mgr).

(** ** PvP *)

(** [set_configuration_error] does not know the class of the job. *)
Definition match_configuration_error {A} : HostM A := raise ValueError.

Definition only_one (executables : FileDict) : option (string * FileObject) :=
  match executables with [e] => Some e | _ => None end.

(** The first message for a program that failed. *)
Definition failure (r : StepResult) : res string :=
  stats ← or_raise TypeError (step_stats r);
  text ← human_evaluation_message stats;
  or_raise IndexError (head text).

Definition your_failure : string :=
  "You lose because your program failed to execute. The info of your program is:" +:+ String newline "".
Definition both_failures : string :=
  "All user programs failed to execute, so the result is considered as draw. The info of your program is:" +:+ String newline "".

(** Outcome and text of a match that succeeds. *)
Definition match_verdict (only_execution : bool) (mgr : Sandbox) (first second : StepResult)
    : HostM (string * list string) :=
  let first_ok := default false (step_success first) in
  let second_ok := default false (step_success second) in
  if only_execution then mret ("0.5 0.5", ["Execution completed successfully"])
  else if negb (first_ok && second_ok) then
    if first_ok then mret ("1.0 0.0", ["You win because the opponent's program failed to execute"])
    else if second_ok then m ← lift (failure first); mret ("0.0 1.0", [your_failure +:+ m])
    else m ← lift (failure first); mret ("0.5 0.5", [both_failures +:+ m])
  else
    r ← in_box mgr (extract_outcome_and_text true);
    mret (str_outcome str_float r.1.1, r.1.2).

(** What follows the end of the processes. *)
Definition conclude_match (job : MatchJob) (mgr : Sandbox) (users : list Sandbox) : HostM MatchJob :=
  let d := mj_data job in
  m ← result_of mgr;
  rs ← each result_of users;
  let results := rs.*1 in
  let success := all_ok m.1 results in
  first ← lift (or_raise IndexError (results !! 0));
  second ← lift (or_raise IndexError (results !! 1));
  verdict ← (if success then v ← match_verdict (only_execution d) m.2 first second; mret (Some v) else mret None);
  output ← save_output d (info job) m.2;
  r ← finish job d (m.2 :: rs.*2) success (fst <$> verdict) (snd <$> verdict)
    (if success then step_stats first else None) output;
  mret (mkMatchJob r.1 (language_list job) (executables_list job) (files_list job) r.2).

(** [t + 1.0 + sum(t * multiplier + 1.0 ...)], at least the limit of managers. *)
Definition match_manager_limit (t : float) (multipliers : list float) : float :=
  fmax (fadd (fadd t f1) (foldl (λ acc m, fadd acc (fadd (fmul t m) f1)) f0 multipliers)) (trusted_max_time_s config).

Definition pvp_match (compilation io : string) (job : MatchJob) : HostM MatchJob :=
  let d := mj_data job in
  match executables_list job, mapM only_one (executables_list job) with
  | [_; _], Some executables =>
      match pd_get (managers job) MANAGER_FILENAME with
      | None => match_configuration_error
      | Some manager =>
          fifo_dirs ← make_fifos 2;
          mgr ← manager_sandbox (digest manager) (input d);
          users ← user_sandboxes ((λ e : string * FileObject, (e.1, digest e.2)) <$> executables);
          languages ← each (λ i : nat, lift (n ← or_raise IndexError (language_list job !! i);
            n ← or_raise KeyError n; get_language LANGUAGES n)) (seq 0 2);
          t ← lift (or_raise TypeError (time_limit d));
          m ← start_manager mgr fifo_dirs (match_manager_limit t (time_limit_multiplier <$> languages)) (multithreaded_sandbox job);
          us ← each (λ x : nat * (Sandbox * (string * FileObject * (Language * string))),
              let '(i, (s, (e, (l, fifo_dir)))) := x in
              start_user (uses_stub compilation) (String.eqb io USER_IO_FIFOS) i s e.1 l fifo_dir
                (fmul t (time_limit_multiplier l)) (memory_limit d) [] (multithreaded_sandbox job))
            (zip (seq 0 2) (zip users (zip executables (zip languages fifo_dirs))));
          ended ← wait_for_all (us ++ [m]);
          match ended with
          | [first; second; mgr] => conclude_match job mgr [first; second]
          | _ => raise IndexError
          end
      end
  | _, _ => match_configuration_error
  end.

(** ** Communication *)

(** [reduce(merge_execution_stats, l)] *)
Definition reduce_stats (l : list (option Stats)) : res (option Stats) :=
  match l with
  | [] => Raise TypeError
  | s :: l => fold_res (λ acc s, some_res (merge_execution_stats acc s true)) s l
  end.

Definition with_exit_status (e : string) (s : Stats) : Stats :=
  mkStats (execution_time s) (execution_wall_clock_time s) (execution_memory s) e (GradingSteps.signal s) (stdout s) (stderr s).

(** The times of the programs add up to the limit. *)
Definition too_long (time_limit : float) (s : Stats) : res bool :=
  t ← or_raise TypeError (execution_time s); Ok (fleb time_limit t).

Definition conclude_communication (job : EvaluationJob) (time_limit : float) (mgr : Sandbox) (users : list Sandbox)
    : HostM EvaluationJob :=
  let d := ej_data job in
  m ← result_of mgr;
  rs ← each result_of users;
  let results := rs.*1 in
  let box_success_user := forallb box_success results in
  let evaluation_success_user := forallb (λ r, default false (step_success r)) results in
  stats ← lift (reduce_stats (step_stats <$> results));
  timeout ← (if box_success_user && evaluation_success_user then
               lift (s ← or_raise TypeError stats; too_long time_limit s)
             else mret false);
  let evaluation_success_user := evaluation_success_user && negb timeout in
  let stats := if timeout : bool then with_exit_status EXIT_TIMEOUT <$> stats else stats in
  let success := all_ok m.1 results in
  verdict ← (if negb success then mret (None, None)
             else if only_execution d then mret (Some (OFloat f0), Some ["Execution completed successfully"])
             else if negb evaluation_success_user then
               text ← lift (s ← or_raise TypeError stats; human_evaluation_message s); mret (Some (OFloat f0), Some text)
             else r ← in_box m.2 (extract_outcome_and_text false); mret (Some r.1.1, Some r.1.2));
  output ← save_output d (info job) m.2;
  r ← finish job d (m.2 :: rs.*2) success (str_outcome str_float <$> verdict.1) verdict.2 (if success then stats else None) output;
  mret (mkEvaluationJob r.1 r.2).

Definition communication_evaluate (num_processes : Z) (compilation io : string) (job : EvaluationJob) : HostM EvaluationJob :=
  let d := ej_data job in
  let n := Z.to_nat num_processes in
  match executables job with
  | [executable] =>
      match pd_get (managers job) MANAGER_FILENAME with
      | None => mret (evaluation_configuration_error job)
      | Some manager =>
          fifo_dirs ← make_fifos n;
          mgr ← manager_sandbox (digest manager) (input d);
          users ← user_sandboxes (replicate n (executable.1, digest executable.2));
          l ← job_language LANGUAGES job;
          t ← lift (t ← or_raise TypeError (time_limit d); Ok (fmul t (time_limit_multiplier l)));
          m ← start_manager mgr fifo_dirs
            (fmax (fmul (of_Z (num_processes + 1)) (fadd t f1)) (trusted_max_time_s config)) (multithreaded_sandbox job);
          us ← each (λ x : nat * (Sandbox * string),
              start_user (uses_stub compilation) (String.eqb io USER_IO_FIFOS) x.1 x.2.1 executable.1 l x.2.2 t (memory_limit d)
                (if decide (num_processes = 1%Z) then [] else [pretty x.1]) (multithreaded_sandbox job))
            (zip (seq 0 n) (zip users fifo_dirs));
          ended ← wait_for_all (us ++ [m]);
          mgr ← lift (or_raise IndexError (last ended));
          conclude_communication job t mgr (removelast ended)
      end
  | _ => mret (evaluation_configuration_error job)
  end.

(** ** TwoSteps: two runs of the program, the second reads what the first
    writes to a fifo *)

(** A name with its extension, which is [None] as text if there is none. *)
Definition manager_filename (extension : option string) : string := "manager" +:+ default "None" extension.

(** A manager to compile, with its digest; [None] if it is missing. *)
Definition add_manager (j : Job) (name : string) (acc : list string * pydict string string)
    : option (list string * pydict string string) :=
  f ← pd_get (managers j) name; Some (acc.1 ++ [name], pd_set acc.2 name (digest f)).

Definition add_manager_if (j : Job) (name : option string) (acc : list string * pydict string string)
    : option (list string * pydict string string) :=
  match name with Some name => add_manager j name acc | None => Some acc end.

(** [None] for a configuration error. *)
Definition two_steps_sources (j : Job) (l : Language) : res (option (list string * pydict string string)) :=
  let header := header_extension l in
  let start :=
    acc ← add_manager j (manager_filename (source_extension l)) ([], []);
    add_manager_if j ((λ e, "manager" +:+ e) <$> header) acc in
  fold_res (λ acc cf,
    match acc with
    | None => Ok None
    | Some acc =>
        e ← or_raise TypeError (source_extension l);
        let filename := replace ".%l" e cf.1 in
        Ok (add_manager_if j ((λ e, replace ".%l" e cf.1) <$> header)
              (acc.1 ++ [filename], pd_set acc.2 filename (digest cf.2)))
    end) start (files j).

Definition two_steps_compile (job : CompilationJob) : HostM CompilationJob :=
  l ← job_language LANGUAGES job;
  if negb (check_files_number job 2 false) then mret (compilation_configuration_error job)
  else
    s ← lift (two_steps_sources job l);
    match s with
    | None => mret (compilation_configuration_error job)
    | Some (filenames, digests) =>
        compile_sources config service_shard utf8_replace job l filenames digests ("manager" +:+ executable_extension l)
    end.

(** One of the two processes. *)
Definition start_step (job : EvaluationJob) (s : Sandbox) (executable : string * FileObject) (number fifo_dir : string)
    (files : list (string * option string)) (stdin_redirect stdout_redirect : option string) : HostM (Process * Sandbox) :=
  let d := ej_data job in
  in_box s
    (_ ← create_file_from_storage executable.1 (Some (digest executable.2)) true;
     _ ← for_each (λ f : string * option string, create_file_from_storage f.1 f.2 false) files;
     evaluation_start config ["./" +:+ executable.1; number; "/fifo/fifo"] (time_limit d) (memory_limit d)
       [(fifo_dir, ("/fifo", Some "rw"))] [] stdin_redirect stdout_redirect (multithreaded_sandbox job)).

(** Both results as one, with the merged statistics. *)
Definition both_steps (first second : StepResult) : res StepResult :=
  stats ← merge_execution_stats (step_stats first) (step_stats second) true;
  Ok (mkStepResult (box_success first && box_success second)
        (Some (default false (step_success first) && default false (step_success second))) None (Some stats)).

Definition two_steps_evaluate (output_eval : string) (job : EvaluationJob) : HostM EvaluationJob :=
  let d := ej_data job in
  match executables job with
  | [executable] =>
      first ← create_sandbox service_shard "first_evaluate";
      second ← create_sandbox service_shard "second_evaluate";
      fifo_dir ← make_fifos 1;
      fifo_dir ← lift (or_raise IndexError (head fifo_dir));
      p1 ← start_step job first executable "0" fifo_dir [(INPUT_FILENAME, input d)] (Some INPUT_FILENAME) None;
      p2 ← start_step job second executable "1" fifo_dir [] None (Some OUTPUT_FILENAME);
      ended ← wait_for_all [p2; p1];
      match ended with
      | [second; first] =>
          r1 ← result_of first;
          r2 ← result_of second;
          r ← lift (both_steps r1.1 r2.1);
          e ← judge config service_shard utf8_replace "" output_eval OUTPUT_FILENAME job r r2.2;
          _ ← delete_sandbox config r1.2 (e_success e.1) (keep_sandbox job);
          _ ← delete_sandbox config e.2 (e_success e.1) (keep_sandbox job);
          let j := fill_job str_float job (outer_dir r1.2) r
            (mkEvaluated (e_success e.1) (e_outcome e.1) (e_text e.1) (e_user_output e.1) (outer_dir e.2 :: e_sandboxes e.1)) in
          mret j
      | _ => raise IndexError
      end
  | _ => mret (evaluation_configuration_error job)
  end.
End managed.
