(* ===== verification/MatchSpec.v ===== *)
(** * Matches (contract of [match] in ManagedTasks.v)

    Two programs of contestants and the manager of the admins run at the same
    time, each on its own files; which outcome and message the match has, from
    how the three of them end. *)

From S2P Require Import Prelude WhiteDiff PyFloat PyString PyFormat PyParse Database EsOperations Languages TaskTypes Job FileStorage Sandbox GradingSteps Grading GradingSpec ManagedTasks.
From Stdlib Require Import Strings.Ascii.

Local Open Scope string_scope.
Local Open Scope list_scope.

Definition finished (st : Stats) : Prop := exit_status st = EXIT_OK.
Definition box_failed (st : Stats) : Prop := exit_status st = EXIT_SANDBOX_ERROR.

Lemma failed_not_fine st : program_failed st → ¬ box_failed st ∧ ¬ finished st.
Proof. unfold program_failed, box_failed, finished. intros Hp. split; intros Heq; rewrite Heq in Hp; set_solver. Qed.

Lemma finished_fine st : finished st → ¬ box_failed st.
Proof. unfold finished, box_failed. by intros ->. Qed.

Section spec.
Context `{Isolate} {C : Type} `{StoreLaws C} (config : SandboxConfig) (service_shard : option Z).
Context (utf8_replace : bytes → string) (LANGUAGES : list Language) (str_float : float → string).

(** ** Runs and their results *)

Definition run_says (r : Run) (st : Stats) : Prop :=
  ∃ t l, run_log r = Some t ∧ parse_log t = Ok l ∧ stats_of l = Ok st.

Lemma result_of_ok r st command s (h : Host C) :
  run_says r st →
  ∃ s', result_of utf8_replace (leave r (started config command s)) h = (Ok (step_of (Some st), s'), h) ∧
    home s' = run_home r ∧ box_id s' = box_id s ∧ outer_dir s' = outer_dir s ∧ options s' = options s.
Proof.
  intros (t & l & Ht & Hl & Hst). exists (set_log (Some l) (leave r (started config command s))). split; [|done].
  unfold result_of, in_box. rewrite (step_after_run_ok utf8_replace t l st); [reflexivity|done| |done|done].
  unfold leave, set_logs. cbn. rewrite Ht. apply lookup_insert_eq.
Qed.

(** What a manager answers with the files that it leaves. *)
Definition first_line_of (f : BoxFile) : res string :=
  match text_readline (file_content f) with
  | Ok line => Ok (strip line)
  | Raise e => Raise (if bool_decide (e = UnicodeDecodeError) then ValueError else e)
  | Blocks => Blocks
  | NoFuel => NoFuel
  end.

Definition manager_answer (after : Home) : res (Outcome * list string) :=
  out ← or_raise FileNotFoundError (after !! "stdout.txt");
  outcome ← first_line_of out;
  err ← or_raise FileNotFoundError (after !! "stderr.txt");
  line ← first_line_of err;
  outcome ← parse_outcome true outcome;
  text ← translate_text (_filter_ansi_escape line);
  Ok (outcome, [text]).

Lemma read_line_ok path s (h : Host C) :
  read_line_of (Some path) (s, h) = ((f ← or_raise FileNotFoundError (home s !! path); first_line_of f), (s, h)).
Proof.
  unfold read_line_of, get_file, look, lift, mbind, M_bind, first_line_of. cbn.
  destruct (home s !! path) as [f|]; cbn; [|done]. by destruct (text_readline (file_content f)).
Qed.

Lemma extract_ok s (h : Host C) :
  stdout_file (options s) = Some "stdout.txt" → stderr_file (options s) = Some "stderr.txt" →
  extract_outcome_and_text true (s, h) = (manager_answer (home s), (s, h)).
Proof.
  intros Ho He. unfold extract_outcome_and_text, manager_answer. erewrite M_run_Ok by reflexivity. cbn [fst]. rewrite Ho, He.
  unfold mbind at 1, M_bind at 1. rewrite read_line_ok. cbn -[parse_outcome translate_text].
  destruct (home s !! "stdout.txt") as [out|]; cbn -[parse_outcome translate_text]; [|done].
  destruct (first_line_of out) as [o| | |]; cbn -[parse_outcome translate_text]; [|done..].
  unfold mbind at 1, M_bind at 1. rewrite read_line_ok. cbn -[parse_outcome translate_text].
  destruct (home s !! "stderr.txt") as [err|]; cbn -[parse_outcome translate_text]; [|done].
  destruct (first_line_of err) as [line| | |]; cbn -[parse_outcome translate_text]; [|done..].
  unfold lift, mbind, M_bind. cbn -[parse_outcome translate_text].
  destruct (parse_outcome true o); cbn -[translate_text]; [|done..]. by destruct (translate_text _).
Qed.

(** The outcome is two numbers. *)
Definition two_numbers (o : string) : Prop :=
  ∃ a b x y, split_all " "%char o = [a; b] ∧ float_of_string a = Ok x ∧ float_of_string b = Ok y.

Lemma answer_numbers after o text : manager_answer after = Ok (o, text) → ∃ s, o = OPair s ∧ two_numbers s.
Proof.
  unfold manager_answer. intros Ha.
  do 4 (apply res_bind_Ok in Ha as (? & _ & Ha)). apply res_bind_Ok in Ha as (o' & Ho & Ha).
  apply res_bind_Ok in Ha as (t' & _ & Ha). injection Ha as <- _.
  unfold parse_outcome in Ho. destruct (split_all _ _) as [|a [|b [|]]] eqn:Hs; try done.
  apply res_bind_Ok in Ho as (u & Hu & Ho). apply res_bind_Ok in Ho as (v & Hv & Ho). injection Ho as <-.
  eexists. split; [done|]. by exists a, b, u, v.
Qed.

(** It answers or raises an exception. *)
Definition ends {A} (r : res A) : Prop := (∃ a, r = Ok a) ∨ ∃ e, r = Raise e.

Lemma ends_bind {A B} (m : res A) (f : A → res B) : ends m → (∀ a, ends (f a)) → ends (m ≫= f).
Proof. intros [[a ->]|[e ->]] Hf; [apply Hf|right; by exists e]. Qed.

Lemma ends_or_raise {A} e (o : option A) : ends (or_raise e o).
Proof. destruct o; [left|right]; eauto. Qed.

Lemma ends_Ok {A} (a : A) : ends (Ok a).
Proof. left. eauto. Qed.

Lemma answer_ends after : ends (manager_answer after).
Proof.
  assert (∀ f, ends (first_line_of f)) as Hl.
  { intros f. unfold first_line_of, text_readline. destruct (utf8_scan _ _ _ _) as [k|]; [destruct (_ && _)|];
      [right|left|right]; by eexists. }
  unfold manager_answer.
  repeat (apply ends_bind; [try first [apply ends_or_raise|apply Hl]|intros ?]); [..|apply ends_Ok].
  - unfold parse_outcome. destruct (split_all _ _) as [|? [|? [|]]]; try (right; by eexists).
    repeat (apply ends_bind; [apply ends_or_raise|intros ?]). apply ends_Ok.
  - unfold translate_text. case_match; [|apply ends_Ok]. case_decide; [|apply ends_Ok].
    unfold message_of, get_message. apply ends_bind; [apply ends_or_raise|intros ?]. apply ends_Ok.
Qed.

(** ** The result of a match *)

(** From what the manager leaves and the statistics of the manager and of the
    two programs: whether the job succeeds, the outcome and the text, which is
    for the first contestant. *)
Inductive match_result (only_execution : bool) (after : Home) (sm s0 s1 : Stats)
    : bool → option string → option (list string) → Prop :=
  | match_fails :
      box_failed s0 ∨ box_failed s1 ∨ ¬ finished sm → match_result only_execution after sm s0 s1 false None None
  | match_executed :
      only_execution = true → ¬ box_failed s0 → ¬ box_failed s1 → finished sm →
      match_result only_execution after sm s0 s1 true (Some "0.5 0.5") (Some ["Execution completed successfully"])
  | opponent_fails :
      only_execution = false → finished sm → finished s0 → program_failed s1 →
      match_result only_execution after sm s0 s1 true (Some "1.0 0.0")
        (Some ["You win because the opponent's program failed to execute"])
  | program_fails m :
      only_execution = false → finished sm → program_failed s0 → finished s1 → (exit_status s0, m) ∈ failure_messages →
      match_result only_execution after sm s0 s1 true (Some "0.0 1.0") (Some [your_failure +:+ m])
  | both_fail m :
      only_execution = false → finished sm → program_failed s0 → program_failed s1 → (exit_status s0, m) ∈ failure_messages →
      match_result only_execution after sm s0 s1 true (Some "0.5 0.5") (Some [both_failures +:+ m])
  | manager_decides o text :
      only_execution = false → finished sm → finished s0 → finished s1 → manager_answer after = Ok (OPair o, text) →
      match_result only_execution after sm s0 s1 true (Some o) (Some text).

Lemma fixed_numbers : two_numbers "0.5 0.5" ∧ two_numbers "1.0 0.0" ∧ two_numbers "0.0 1.0".
Proof.
  split_and!; [exists "0.5", "0.5", (of_Q 1 2), (of_Q 1 2)|exists "1.0", "0.0", f1, f0|exists "0.0", "1.0", f0, f1];
    split_and!; vm_compute; reflexivity.
Qed.

Lemma result_numbers only after sm s0 s1 ok oc txt o :
  match_result only after sm s0 s1 ok oc txt → oc = Some o → two_numbers o.
Proof.
  destruct fixed_numbers as (Hd & Hw & Hl).
  destruct 1 as [|Ho|Ho|m Ho|m Ho|x text Ho Hm H0' H1' Ha]; intros Heq; try discriminate Heq; injection Heq as <-; try assumption.
  destruct (answer_numbers after (OPair x) text Ha) as (y & Hy & Hn). by injection Hy as ->.
Qed.

Lemma says_cases r st : run_says r st → box_failed st ∨ finished st ∨ program_failed st.
Proof.
  intros (t & l & _ & _ & Hst). unfold box_failed, finished, program_failed.
  rewrite (stats_of_status l st Hst). apply exit_status_cases.
Qed.

Lemma step_of_failed st : box_failed st → step_of (Some st) = sandbox_failed.
Proof. unfold step_of, box_failed. intros. by rewrite decide_True. Qed.

Lemma step_of_program st : program_failed st → step_of (Some st) = mkStepResult true (Some false) None (Some st).
Proof.
  intros Hp. destruct (failed_not_fine st Hp) as [Hb Hf]. unfold step_of.
  rewrite decide_False by done. by rewrite bool_decide_eq_false_2.
Qed.

Lemma failure_ok st : program_failed st → ∃ m, failure (step_of (Some st)) = Ok m ∧ (exit_status st, m) ∈ failure_messages.
Proof.
  intros Hp. destruct (human_message st Hp) as (m & Hm & Hin). exists m. split; [|done].
  unfold failure. rewrite (step_of_program st Hp). cbn. by rewrite Hm.
Qed.

(** The verdict of a match whose sandboxes did not fail. *)
Lemma match_verdict_ok only after sm s0 s1 mgr (h : Host C) :
  (finished s0 ∨ program_failed s0) → (finished s1 ∨ program_failed s1) → finished sm →
  stdout_file (options mgr) = Some "stdout.txt" → stderr_file (options mgr) = Some "stderr.txt" → home mgr = after →
  (∃ o text, match_verdict str_float only mgr (step_of (Some s0)) (step_of (Some s1)) h = (Ok (o, text), h) ∧
     match_result only after sm s0 s1 true (Some o) (Some text)) ∨
  (∃ e, match_verdict str_float only mgr (step_of (Some s0)) (step_of (Some s1)) h = (Raise e, h) ∧
     only = false ∧ finished s0 ∧ finished s1 ∧ manager_answer after = Raise e).
Proof.
  intros H0' H1' Hm Ho He Ha. unfold match_verdict.
  destruct only eqn:Honly.
  { left. eexists _, _. split; [reflexivity|]. apply match_executed; try done.
    - destruct H0' as [?%finished_fine|?%failed_not_fine]; tauto.
    - destruct H1' as [?%finished_fine|?%failed_not_fine]; tauto. }
  destruct H0' as [H0'|H0'], H1' as [H1'|H1'].
  - rewrite !step_of_ok by done. cbn [step_success default id andb negb].
    unfold in_box, mbind, M_bind. rewrite (extract_ok mgr h Ho He), Ha.
    destruct (answer_ends after) as [[[o text] Hok]|[e Hr]].
    + left. destruct (answer_numbers after o text Hok) as (x & -> & _). rewrite Hok. cbn.
      eexists _, _. split; [reflexivity|]. by apply manager_decides.
    + right. exists e. rewrite Hr. done.
  - rewrite step_of_ok, step_of_program by done. left. eexists _, _. split; [reflexivity|]. by apply opponent_fails.
  - left. destruct (failure_ok s0 H0') as (m & Hf & Hin). unfold lift, mbind, M_bind. rewrite Hf.
    rewrite step_of_program, step_of_ok by done. eexists _, _. split; [reflexivity|]. by apply program_fails.
  - left. destruct (failure_ok s0 H0') as (m & Hf & Hin). unfold lift, mbind, M_bind. rewrite Hf.
    rewrite !step_of_program by done. eexists _, _. split; [reflexivity|]. by apply both_fail.
Qed.

(** ** The end of a match *)

Lemma save_output_ok d info s (h : Host C) :
  ∃ uo h', save_output d info s h = (Ok uo, h') ∧
    stored_output d (Some (file_content <$> home s !! OUTPUT_FILENAME)) uo (held h') ∧ later h h' ∧ runs h' = runs h.
Proof.
  unfold save_output, stored_output. destruct (get_output d); [|exists (user_output d), h; split_and!; [done..|apply later_refl|done]].
  destruct (home s !! OUTPUT_FILENAME) as [f|] eqn:Hf.
  - rewrite decide_True by by eexists.
    destruct (get_file_to_storage_ok OUTPUT_FILENAME ("Output file in job " +:+ info) (Some (Z.to_nat (100 * 1024))) f s h Hf)
      as (d' & h' & Hg & Hl & Hr & Hd).
    exists (Some d'), h'. split_and!; [|by exists d'|done|done]. unfold in_box, mbind, M_bind. by rewrite Hg.
  - rewrite decide_False by (by intros [? [=]]). exists None, h. split_and!; [done..|apply later_refl|done].
Qed.

Definition removable (s : Sandbox) : Prop := isolate_cleanup (box_id s) = Some 0%Z.

Lemma delete_all_ok boxes success keep (h : Host C) :
  Forall removable boxes → for_each (λ s, delete_sandbox config s success keep) boxes h = (Ok tt, h).
Proof.
  induction 1 as [|s boxes Hs _ IH]; [done|]. cbn [for_each].
  by rewrite (M_run_Ok _ _ _ _ _ (delete_sandbox_ok config s success keep h Hs)).
Qed.

Lemma all_ok_iff sm s0 s1 :
  (box_failed s0 ∨ finished s0 ∨ program_failed s0) → (box_failed s1 ∨ finished s1 ∨ program_failed s1) →
  (box_failed sm ∨ finished sm ∨ program_failed sm) →
  (all_ok (step_of (Some sm)) [step_of (Some s0); step_of (Some s1)] = true ∧
     (finished s0 ∨ program_failed s0) ∧ (finished s1 ∨ program_failed s1) ∧ finished sm) ∨
  (all_ok (step_of (Some sm)) [step_of (Some s0); step_of (Some s1)] = false ∧ (box_failed s0 ∨ box_failed s1 ∨ ¬ finished sm)).
Proof.
  unfold all_ok. intros H0' H1' Hm.
  destruct H0' as [Hb0|H0']; [right; rewrite (step_of_failed s0 Hb0); by split; [|left]|].
  destruct H1' as [Hb1|H1'].
  { right. rewrite (step_of_failed s1 Hb1). cbn. rewrite andb_false_r. by split; [|right; left]. }
  assert (box_success (step_of (Some s0)) = true) as E0
    by (destruct H0'; [by rewrite step_of_ok|by rewrite step_of_program]).
  assert (box_success (step_of (Some s1)) = true) as E1
    by (destruct H1'; [by rewrite step_of_ok|by rewrite step_of_program]).
  cbn [forallb]. rewrite E0, E1. destruct Hm as [Hm|[Hm|Hm]].
  - right. rewrite (step_of_failed sm Hm). split; [done|]. right. right. intros Hf. by apply (finished_fine sm Hf).
  - left. rewrite (step_of_ok sm Hm). by split_and!.
  - right. rewrite (step_of_program sm Hm). split; [done|]. right. right. by apply failed_not_fine.
Qed.

(** The job when the match is over. *)
Definition match_done (job : MatchJob) (roots : list string) (ok : bool) (oc : option string) (txt : option (list string))
    (plus : option Stats) (uo : option string) : MatchJob :=
  mkMatchJob (with_result (Some ok) txt (foldl (λ j r, with_sandbox r j) (mj_job job) roots))
    (language_list job) (executables_list job) (files_list job)
    (with_plus (stats_dict <$> plus) (with_outcome oc (with_user_output uo (mj_data job)))).

(** Three sandboxes whose processes are over. *)
Lemma conclude_match_ok job rm sm cm bm r0 s0 c0 b0 r1 s1 c1 b1 (h : Host C) :
  run_says rm sm → run_says r0 s0 → run_says r1 s1 →
  stdout_file (options bm) = Some "stdout.txt" → stderr_file (options bm) = Some "stderr.txt" →
  Forall removable [bm; b0; b1] →
  let run := conclude_match config utf8_replace str_float job (leave rm (started config cm bm))
    [leave r0 (started config c0 b0); leave r1 (started config c1 b1)] h in
  let only := only_execution (mj_data job) in
  (∃ ok oc txt uo h',
     run = (Ok (match_done job [outer_dir bm; outer_dir b0; outer_dir b1] ok oc txt (if ok then Some s0 else None) uo), h') ∧
     match_result only (run_home rm) sm s0 s1 ok oc txt ∧
     stored_output (mj_data job) (Some (file_content <$> run_home rm !! OUTPUT_FILENAME)) uo (held h') ∧
     later h h' ∧ runs h' = runs h) ∨
  (∃ e, run = (Raise e, h) ∧ only = false ∧ finished sm ∧ finished s0 ∧ finished s1 ∧ manager_answer (run_home rm) = Raise e).
Proof.
  intros Hm H0' H1' Hout Herr Hrem run only.
  destruct (result_of_ok rm sm cm bm h Hm) as (m & Em & Hmh & Hmi & Hmr & Hmo).
  destruct (result_of_ok r0 s0 c0 b0 h H0') as (u0 & E0 & _ & Hi0 & Hr0 & _).
  destruct (result_of_ok r1 s1 c1 b1 h H1') as (u1 & E1 & _ & Hi1 & Hr1 & _).
  set (first := step_of (Some s0)) in *. set (second := step_of (Some s1)) in *.
  unfold run, conclude_match. rewrite (M_run_Ok _ _ _ _ _ Em).
  rewrite (M_run_Ok _ _ _ [(first, u0); (second, u1)] h)
    by (cbn [each]; rewrite (M_run_Ok _ _ _ _ _ E0); unfold mbind at 1, M_bind at 1; by rewrite (M_run_Ok _ _ _ _ _ E1)).
  change ([(first, u0); (second, u1)].*1) with [first; second]. change ([(first, u0); (second, u1)].*2) with [u0; u1].
  do 2 (erewrite M_run_Ok by reflexivity). cbn [fst snd].
  assert (Forall removable [m; u0; u1]) as Hrem'.
  { revert Hrem. unfold removable. rewrite !Forall_cons, Hmi, Hi0, Hi1. done. }
  assert (∀ ok oc txt plus uo (h' : Host C), finish config job (mj_data job) [m; u0; u1] ok oc txt plus uo h' =
    (Ok (with_result (Some ok) txt (foldl (λ j r, with_sandbox r j) (mj_job job) [outer_dir bm; outer_dir b0; outer_dir b1]),
         with_plus (stats_dict <$> plus) (with_outcome oc (with_user_output uo (mj_data job)))), h')) as Hfin.
  { intros. unfold finish. rewrite (M_run_Ok _ _ _ _ _ (delete_all_ok _ _ _ _ Hrem')). cbn. by rewrite Hmr, Hr0, Hr1. }
  destruct (save_output_ok (mj_data job) (info job) m h) as (uo & h' & Hs & Hso & Hl & Hr). rewrite Hmh in Hso.
  destruct (all_ok_iff sm s0 s1) as [(Hall & F0 & F1 & Fm)|[Hall Hf]]; [by eapply says_cases..| |]; fold first second in Hall; rewrite Hall.
  - destruct (match_verdict_ok only (run_home rm) sm s0 s1 m h F0 F1 Fm) as [(o & text & Hv & Hres)|(e & Hv & He)];
      [by rewrite Hmo|by rewrite Hmo|done| |].
    + left. exists true, (Some o), (Some text), uo, h'. split; [|done].
      rewrite (M_run_Ok _ _ _ (Some (o, text)) h) by (fold only; by rewrite (M_run_Ok _ _ _ _ _ Hv)).
      rewrite (M_run_Ok _ _ _ _ _ Hs). rewrite (M_run_Ok _ _ _ _ _ (Hfin _ _ _ _ _ _)).
      replace (step_stats first) with (Some s0); [done|].
      destruct F0; unfold first; [by rewrite step_of_ok|by rewrite step_of_program].
    + right. exists e. split; [|tauto]. fold only. unfold mbind at 1, M_bind at 1. by rewrite (M_run_Raise _ _ _ _ _ Hv).
  - left. exists false, None, None, uo, h'. split; [|split; [by apply match_fails|done]].
    erewrite M_run_Ok by reflexivity. rewrite (M_run_Ok _ _ _ _ _ Hs). by rewrite (M_run_Ok _ _ _ _ _ (Hfin _ _ _ _ _ _)).
Qed.

(** ** The start of a match *)

Lemma manager_sandbox_ok md bmd di bin outer (h : Host C) :
  held h !! md = Some bmd → held h !! di = Some bin → can_box service_shard h "manager_evaluate" outer →
  ∃ h', manager_sandbox service_shard md (Some di) h =
      (Ok (set_home (λ _, <[INPUT_FILENAME := mkBoxFile bin 644]> (<[MANAGER_FILENAME := mkBoxFile bmd 755]> ∅))
             (fresh (new_box_id service_shard (next_id h)) outer)), h') ∧
    held h' = held h ∧ runs h' = runs h ∧ next_id h' = (next_id h + 1)%Z.
Proof.
  intros Hmd Hdi Hb. set (h1 := mkHost (next_id h + 1) (runs h) (cacher h)).
  set (s := fresh (new_box_id service_shard (next_id h)) outer).
  destruct (create_file_from_storage_ok MANAGER_FILENAME md true bmd s h1) as (h2 & E2 & Hh2 & Hr2 & Hn2); [done..|].
  destruct (create_file_from_storage_ok INPUT_FILENAME di false bin (set_home <[MANAGER_FILENAME := mkBoxFile bmd 755]> s) h2)
    as (h3 & E3 & Hh3 & Hr3 & Hn3); [done|by rewrite Hh2|].
  exists h3. split; [|split; [by rewrite Hh3, Hh2|split; [by rewrite Hr3, Hr2|by rewrite Hn3, Hn2]]].
  unfold manager_sandbox. rewrite (M_run_Ok _ _ _ _ _ (create_sandbox_ok service_shard "manager_evaluate" outer h Hb)). fold s h1.
  unfold in_box, mbind, M_bind. rewrite E2, E3. done.
Qed.

Lemma can_box_same name outer (h h' : Host C) :
  next_id h = next_id h' → can_box service_shard h name outer → can_box service_shard h' name outer.
Proof. unfold can_box. by intros ->. Qed.

(** A host some sandboxes later. *)
Definition skip (k : Z) (h : Host C) : Host C := mkHost (next_id h + k) (runs h) (cacher h).

Lemma user_sandboxes_ok x0 d0 b0 o0 x1 d1 b1 o1 (h : Host C) :
  held h !! d0 = Some b0 → held h !! d1 = Some b1 →
  can_box service_shard h "user_evaluate" o0 → can_box service_shard (skip 1 h) "user_evaluate" o1 →
  let box k x b o := set_home (λ _, {[x := mkBoxFile b 755]}) (fresh (new_box_id service_shard (next_id h + k)) o) in
  ∃ h', user_sandboxes service_shard [(x0, d0); (x1, d1)] h = (Ok [box 0%Z x0 b0 o0; box 1%Z x1 b1 o1], h') ∧
    held h' = held h ∧ runs h' = runs h.
Proof.
  intros H0' H1' B0 B1 box. set (h2 := skip 2 h).
  set (s0 := fresh (new_box_id service_shard (next_id h)) o0). set (s1 := fresh (new_box_id service_shard (next_id h + 1)) o1).
  destruct (create_file_from_storage_ok x0 d0 true b0 s0 h2) as (h3 & E3 & Hh3 & Hr3 & Hn3); [done..|].
  destruct (create_file_from_storage_ok x1 d1 true b1 s1 h3) as (h4 & E4 & Hh4 & Hr4 & Hn4); [done|by rewrite Hh3|].
  exists h4. split; [|split; [by rewrite Hh4, Hh3|by rewrite Hr4, Hr3]].
  unfold user_sandboxes. rewrite (M_run_Ok _ _ _ [s0; s1] h2).
  - cbn [zip_with each]. unfold mbind, M_bind. cbn [fst snd]. unfold in_box. rewrite E3. cbn. rewrite E4.
    unfold box. by rewrite Z.add_0_r.
  - cbn [each]. rewrite (M_run_Ok _ _ _ _ _ (create_sandbox_ok service_shard "user_evaluate" o0 h B0)).
    unfold mbind at 1, M_bind at 1. rewrite (M_run_Ok _ _ _ _ _ (create_sandbox_ok service_shard "user_evaluate" o1 (skip 1 h) B1)).
    unfold h2, skip. cbn. by rewrite <- Z.add_assoc.
Qed.

Definition manager_limit_kib : Z := (trusted_max_memory_kib config * 1024)%Z.

(** The sandbox of the manager when it runs. *)
Definition manager_ready (fifo_dirs : list string) (time_limit : float) (multithreaded : bool) (bmd bin : bytes) (s : Sandbox) : Sandbox :=
  set_options (program_options config (imap (λ i d, (d, (sandbox_fifo_dir i, Some "rw"))) fifo_dirs) time_limit
      (Some manager_limit_kib) (Some INPUT_FILENAME) "stdout.txt" multithreaded)
    (set_home (λ _, program_files MANAGER_FILENAME bmd INPUT_FILENAME bin [OUTPUT_FILENAME; "stderr.txt"; "stdout.txt"])
      (set_home_mode 755 s)).

Lemma isolated_manager n : isolated (manager_command n).
Proof. unfold isolated, manager_command, SECURE_COMMANDS. cbn. set_solver. Qed.

Lemma start_manager_ok fifo_dirs time_limit multithreaded bmd bin s (h : Host C) :
  positive_limits time_limit (Some manager_limit_kib) →
  home s = <[INPUT_FILENAME := mkBoxFile bin 644]> (<[MANAGER_FILENAME := mkBoxFile bmd 755]> ∅) →
  let b := manager_ready fifo_dirs time_limit multithreaded bmd bin s in
  let command := manager_command (List.length fifo_dirs) in
  start_manager config s fifo_dirs time_limit multithreaded h =
    (Ok (Running (isolate_command config b command), started config command b), h).
Proof.
  intros Hl Hs b command.
  destruct (evaluation_start_ok config command time_limit (Some manager_limit_kib)
    (imap (λ i d, (d, (sandbox_fifo_dir i, Some "rw"))) fifo_dirs) [OUTPUT_FILENAME] (Some INPUT_FILENAME) None multithreaded s h Hl)
    as (files & He & Hf).
  assert (files = program_files MANAGER_FILENAME bmd INPUT_FILENAME bin [OUTPUT_FILENAME; "stderr.txt"; "stdout.txt"]) as ->.
  { eapply (program_files_eq files (home s)); [done|by vm_compute; set_solver|by vm_compute; set_solver|exact Hf|exact Hs]. }
  unfold start_manager, in_box. fold manager_limit_kib command. rewrite He. fold b.
  by rewrite (popen_ok config command b h (isolated_manager _)).
Qed.

(** A player: a program and what it runs with. *)
Record Player : Type := mkPlayer {
  p_executable : string * FileObject;
  p_content : bytes;
  p_language : Language;
  p_command : list string;
  p_fifos : string;
  p_root : string;
}.

Section players.
Context (compilation io : string).

Abbreviation fifos := (String.eqb io USER_IO_FIFOS).
Definition user_stdin (i : nat) : option string := if fifos then None else Some (sandbox_fifo_manager_to_user i).
Definition user_stdout (i : nat) : option string := if fifos then None else Some (sandbox_fifo_user_to_manager i).
Definition user_writable : list string := if fifos then ["stderr.txt"; "stdout.txt"] else ["stderr.txt"].
Definition user_args (i : nat) : list string :=
  if fifos then [sandbox_fifo_manager_to_user i; sandbox_fifo_user_to_manager i] else [].

(** What player [i] needs to play; its sandbox is made after that of the manager. *)
Record plays (job : MatchJob) (t : float) (h : Host C) (i : nat) (p : Player) : Prop := mkPlays {
  p_held : held h !! digest (p_executable p).2 = Some (p_content p);
  p_has_language : ∃ n, language_list job !! i = Some (Some n) ∧ get_language LANGUAGES n = Ok (p_language p);
  p_has_command : get_evaluation_commands (p_language p) (p_executable p).1
    (if uses_stub compilation then STUB_BASENAME else (splitext (p_executable p).1).1) (user_args i) = [p_command p];
  p_isolated : isolated (p_command p);
  p_limits : positive_limits (fmul t (time_limit_multiplier (p_language p))) (memory_limit (mj_data job));
  p_name : (p_executable p).1 ∉ user_writable;
  p_made : make_fifo_dir (runs h) i = Some (p_fifos p);
  p_boxed : can_box service_shard (skip (Z.of_nat i + 1) h) "user_evaluate" (p_root p);
}.

Definition user_files (p : Player) : Home :=
  foldr (λ f, <[f := mkBoxFile "" 722]>) {[(p_executable p).1 := mkBoxFile (p_content p) 755]} user_writable.

(** The sandbox of a player when it runs. *)
Definition user_ready (job : MatchJob) (t : float) (i : nat) (p : Player) (s : Sandbox) : Sandbox :=
  set_options (program_options config [(p_fifos p, (sandbox_fifo_dir i, Some "rw"))] (fmul t (time_limit_multiplier (p_language p)))
      (memory_limit (mj_data job)) (user_stdin i) (default "stdout.txt" (user_stdout i)) (multithreaded_sandbox job))
    (set_home (λ _, user_files p) (set_home_mode 755 s)).

Lemma fifo_not_inner i : inner_file (sandbox_fifo_user_to_manager i) = None.
Proof.
  unfold inner_file, sandbox_fifo_user_to_manager, sandbox_fifo_dir.
  assert (∀ a b, ∃ c, path_join ("/fifo" +:+ a) ("u" +:+ b) = "/fifo" +:+ c) as Hj.
  { intros a b. unfold path_join. cbn [startswith]. destruct (endswith _ _); cbn; [by exists (a +:+ ("u" +:+ b))|].
    by exists (a +:+ ("/" +:+ ("u" +:+ b))). }
  unfold user_to_manager.
  match goal with |- context [path_join ("/fifo" +:+ ?a) ("u" +:+ ?b)] => destruct (Hj a b) as (c & ->) end. done.
Qed.

Lemma user_writable_eq i : omap inner_file (["stderr.txt"] ++ [default "stdout.txt" (user_stdout i)]) = user_writable.
Proof.
  unfold user_stdout, user_writable. destruct fifos; [done|].
  cbn -[inner_file sandbox_fifo_user_to_manager]. rewrite fifo_not_inner. done.
Qed.

Lemma start_user_ok job t i p s h0 (h : Host C) :
  plays job t h0 i p → home s = {[(p_executable p).1 := mkBoxFile (p_content p) 755]} →
  let b := user_ready job t i p s in
  start_user config utf8_replace (uses_stub compilation) fifos i s (p_executable p).1 (p_language p) (p_fifos p)
      (fmul t (time_limit_multiplier (p_language p))) (memory_limit (mj_data job)) [] (multithreaded_sandbox job) h =
    (Ok (Running (isolate_command config b (p_command p)), started config (p_command p) b), h).
Proof.
  intros [_ _ Hc Hi Hl Hn _ _] Hs b.
  destruct (evaluation_start_ok config (p_command p) (fmul t (time_limit_multiplier (p_language p))) (memory_limit (mj_data job))
    [(p_fifos p, (sandbox_fifo_dir i, Some "rw"))] [] (user_stdin i) (user_stdout i) (multithreaded_sandbox job) s h Hl)
    as (files & He & Hf).
  assert (files = user_files p) as ->.
  { cbn [app] in Hf. change ["stderr.txt"; ?x] with (["stderr.txt"] ++ [x]) in Hf. rewrite user_writable_eq in Hf.
    apply (writable_eq _ _ _ _ Hf); rewrite Hs.
    - by rewrite map_fmap_singleton.
    - intros f Hin. apply lookup_singleton_ne. by intros <-. }
  unfold start_user. fold (user_args i). fold (user_stdin i). fold (user_stdout i). rewrite app_nil_r, Hc. cbn [List.length Nat.ltb Nat.leb last].
  unfold in_box. erewrite M_run_Ok by reflexivity. erewrite M_run_Ok by reflexivity.
  rewrite He. fold b. by rewrite (popen_ok config (p_command p) b h Hi).
Qed.

(** A match that can be played. *)
Record playable (job : MatchJob) (t : float) (manager : FileObject) (bmd bin : bytes) (root : string) (p0 p1 : Player)
    (h : Host C) : Prop := mkPlayable {
  m_executables : executables_list job = [[p_executable p0]; [p_executable p1]];
  m_manager : pd_get (managers job) MANAGER_FILENAME = Some manager ∧ held h !! digest manager = Some bmd;
  m_input : ∃ d, input (mj_data job) = Some d ∧ held h !! d = Some bin;
  m_time : time_limit (mj_data job) = Some t;
  m_limits : positive_limits (match_manager_limit config t [time_limit_multiplier (p_language p0); time_limit_multiplier (p_language p1)])
    (Some manager_limit_kib);
  m_box : can_box service_shard h "manager_evaluate" root;
  m_first : plays job t h 0 p0;
  m_second : plays job t h 1 p1;
}.

(** The sandboxes with what is run in them. *)
Definition manager_box (job : MatchJob) (t : float) (bmd bin : bytes) (root : string) (p0 p1 : Player) (h : Host C) : Sandbox :=
  manager_ready [p_fifos p0; p_fifos p1]
    (match_manager_limit config t [time_limit_multiplier (p_language p0); time_limit_multiplier (p_language p1)])
    (multithreaded_sandbox job) bmd bin (fresh (new_box_id service_shard (next_id h)) root).
Definition player_box (job : MatchJob) (t : float) (i : nat) (p : Player) (h : Host C) : Sandbox :=
  user_ready job t i p (fresh (new_box_id service_shard (next_id h + 1 + Z.of_nat i)) (p_root p)).
Definition process (s : Sandbox) (command : list string) : list string * Home := (isolate_command config s command, home s).

Lemma plays_removable job t h i p : plays job t h i p → removable (player_box job t i p h).
Proof. intros [_ _ _ _ _ _ _ (_ & _ & Hc)]. unfold removable. cbn in *. by replace (next_id h + 1 + Z.of_nat i)%Z with (next_id h + (Z.of_nat i + 1))%Z by lia. Qed.

Lemma languages_ok job t p0 p1 h (h' : Host C) :
  plays job t h 0 p0 → plays job t h 1 p1 →
  each (λ i : nat, lift (n ← or_raise IndexError (language_list job !! i); n ← or_raise KeyError n; get_language LANGUAGES n))
    (seq 0 2) h' = (Ok [p_language p0; p_language p1], h').
Proof.
  intros [_ (n0 & Hn0 & Hl0) _ _ _ _ _ _] [_ (n1 & Hn1 & Hl1) _ _ _ _ _ _].
  cbn -[get_language]. unfold lift, mbind, M_bind. rewrite Hn0. cbn -[get_language]. rewrite Hl0, Hn1. cbn -[get_language]. by rewrite Hl1.
Qed.

(** C2. A match with two programs, a manager and the input, on a machine that
    makes sandboxes and a storage that keeps its contract: the three processes
    run at the same time, each once, with its limits and on nothing but its own
    executable, the input for the manager, and the files that it may write. If
    a sandbox fails, or the manager does not end well, the job fails. Otherwise
    a program that fails loses to one that does not, and when both fail it is a
    draw; when none does the outcome is what the manager says, two numbers, and
    an answer that is not well formed is an exception. The text is for the
    first contestant. *)
Theorem pvp_match_exact job t manager bmd bin root p0 p1 (h : Host C) rm sm r0 s0 r1 s1 :
  playable job t manager bmd bin root p0 p1 h →
  let bm := manager_box job t bmd bin root p0 p1 h in
  let b0 := player_box job t 0 p0 h in
  let b1 := player_box job t 1 p1 h in
  let processes := [process b0 (p_command p0); process b1 (p_command p1); process bm (manager_command 2)] in
  isolate_run (runs h) processes 0 = Some r0 → isolate_run (runs h) processes 1 = Some r1 →
  isolate_run (runs h) processes 2 = Some rm →
  run_says r0 s0 → run_says r1 s1 → run_says rm sm →
  let run := pvp_match config service_shard utf8_replace LANGUAGES str_float compilation io job h in
  let only := only_execution (mj_data job) in
  (∃ ok oc txt uo h',
     run = (Ok (match_done job [root; p_root p0; p_root p1] ok oc txt (if ok then Some s0 else None) uo), h') ∧
     match_result only (run_home rm) sm s0 s1 ok oc txt ∧ (∀ o, oc = Some o → two_numbers o) ∧
     stored_output (mj_data job) (Some (file_content <$> run_home rm !! OUTPUT_FILENAME)) uo (held h') ∧
     later h h' ∧ runs h' = S (runs h)) ∨
  (∃ e h', run = (Raise e, h') ∧ only = false ∧ finished sm ∧ finished s0 ∧ finished s1 ∧ manager_answer (run_home rm) = Raise e).
Proof.
  intros [Hex [Hman Hbmd] (d & Hd & Hbin) Ht Hlim Hbox P0 P1] bm b0 b1 processes Hr0 Hr1 Hrm S0 S1 Sm run only.
  destruct (manager_sandbox_ok (digest manager) bmd d bin root h Hbmd Hbin Hbox) as (h1 & E1 & Hh1 & Hru1 & Hn1).
  destruct (user_sandboxes_ok (p_executable p0).1 (digest (p_executable p0).2) (p_content p0) (p_root p0)
    (p_executable p1).1 (digest (p_executable p1).2) (p_content p1) (p_root p1) h1) as (h2 & E2 & Hh2 & Hru2).
  { rewrite Hh1. apply P0. } { rewrite Hh1. apply P1. }
  { eapply can_box_same; [|apply P0]. cbn. lia. } { eapply can_box_same; [|apply P1]. cbn. lia. }
  rewrite Hn1 in E2.
  assert (run = conclude_match config utf8_replace str_float job (leave rm (started config (manager_command 2) bm))
    [leave r0 (started config (p_command p0) b0); leave r1 (started config (p_command p1) b1)] (one_more_run h2)) as Hrun.
  { unfold run, pvp_match. rewrite Hex. cbn [mapM mbind option_bind only_one mret option_ret]. rewrite Hman, Hd.
    rewrite (M_run_Ok _ _ _ [p_fifos p0; p_fifos p1] h)
      by (unfold make_fifos; cbn; by rewrite (p_made _ _ _ _ _ P0), (p_made _ _ _ _ _ P1)).
    rewrite (M_run_Ok _ _ _ _ _ E1). cbn [fmap list_fmap fst snd]. rewrite (M_run_Ok _ _ _ _ _ E2).
    rewrite (M_run_Ok _ _ _ _ _ (languages_ok job t p0 p1 h h2 P0 P1)).
    rewrite (M_run_Ok _ _ _ t h2) by (unfold lift; by rewrite Ht).
    erewrite M_run_Ok by (apply (start_manager_ok _ _ _ bmd bin); [exact Hlim|reflexivity]).
    rewrite (M_run_Ok _ _ _ [(Running (isolate_command config b0 (p_command p0)), started config (p_command p0) b0);
      (Running (isolate_command config b1 (p_command p1)), started config (p_command p1) b1)] h2).
    2:{ cbn [seq zip_with each].
      erewrite M_run_Ok by (apply (start_user_ok job t 0 p0 _ h); [exact P0|reflexivity]).
      unfold mbind at 1, M_bind at 1.
      erewrite M_run_Ok by (apply (start_user_ok job t 1 p1 _ h); [exact P1|reflexivity]). reflexivity. }
    rewrite (M_run_Ok _ _ _ [leave r0 (started config (p_command p0) b0); leave r1 (started config (p_command p1) b1);
      leave rm (started config (manager_command 2) bm)] (one_more_run h2)); [done|].
    unfold wait_for_all. rewrite Hru2, Hru1. change (omap running _) with processes. cbn [app leave_all].
    rewrite Hr0, Hr1, Hrm. reflexivity. }
  rewrite Hrun.
  destruct (conclude_match_ok job rm sm (manager_command 2) bm r0 s0 (p_command p0) b0 r1 s1 (p_command p1) b1
    (one_more_run h2) Sm S0 S1) as [(ok & oc & txt & uo & h' & Hc & Hres & Hso & Hl & Hr)|(e & Hc & He)]; [done|done| | |].
  - repeat constructor; [apply Hbox|by apply (plays_removable job t h 0)|by apply (plays_removable job t h 1)].
  - left. exists ok, oc, txt, uo, h'. split_and!; [exact Hc|exact Hres| |exact Hso| |rewrite Hr; cbn; by rewrite Hru2, Hru1].
    + intros o Ho. eapply result_numbers; [exact Hres|exact Ho].
    + revert Hl. unfold later. change (held (one_more_run h2)) with (held h2). by rewrite Hh2, Hh1.
  - right. exists e, (one_more_run h2). done.
Qed.
End players.
End spec.

(** ** A match *)

(** All end well, and the manager writes its answer. *)
Definition demo_after (m : Home) : Home :=
  <["stdout.txt" := mkBoxFile ("0.0 1.0" +:+ nl) 722]> (<["stderr.txt" := mkBoxFile ("Second wins" +:+ nl) 722]> m).
Definition demo_machine : Isolate := {|
  isolate_run n processes i := (λ p : list string * Home, mkRun 0 (if decide (i = 2) then demo_after p.2 else p.2) (Some demo_log)) <$> processes !! i;
  secure_run n argv home := None;
  isolate_init id := Some 0%Z;
  isolate_cleanup id := Some 0%Z;
  make_outer_dir n name := Some ("/tmp/cms-" +:+ name);
  make_fifo_dir n i := Some (if decide (i = 0) then "/tmp/a" else "/tmp/b");
  path_exists p := false;
  is_suid p := false;
  source_isolate := "/cms/isolate/isolate";
|}.

Definition demo_players_host : Host (gset bytes) := mkHost 0 0 {["elf a"; "elf b"; "elf m"; "7"]}.
Definition demo_player (x root fifo : string) : Player := mkPlayer ("bot", mkFileObject "bot" x) x Cpp17Gpp ["./bot"] fifo root.
Definition demo_match : MatchJob :=
  mkMatchJob
    (mkJob None "PvP" (JList []) None false None false [] "match" None None [] [("manager", mkFileObject "manager" "elf m")] [])
    [Some "C++17 / g++"; Some "C++17 / g++"] [[("bot", mkFileObject "bot" "elf a")]; [("bot", mkFileObject "bot" "elf b")]] []
    (mkEvaluationData (Some "7") None (Some f1) (Some 268435456%Z) None None None false false).

Abbreviation demo_first := (demo_player "elf a" "/tmp/cms-user_evaluate" "/tmp/a").
Abbreviation demo_second := (demo_player "elf b" "/tmp/cms-user_evaluate" "/tmp/b").

Lemma demo_plays i p :
  (i = 0 ∧ p = demo_first) ∨ (i = 1 ∧ p = demo_second) →
  @plays demo_machine (gset bytes) demo_store demo_laws (Some 0%Z) [Cpp17Gpp] "alone" USER_IO_STD demo_match f1 demo_players_host i p.
Proof.
  intros [[-> ->]|[-> ->]]; (split; [vm_compute; reflexivity|exists "C++17 / g++"; split; reflexivity|reflexivity| |
    split; vm_compute; reflexivity|vm_compute; set_solver|reflexivity|split_and!; reflexivity]); cbn; set_solver.
Qed.

Lemma pvp_match_exact_witness :
  ∃ h', @pvp_match demo_machine (gset bytes) demo_store demo_config (Some 0%Z) id [Cpp17Gpp] demo_str "alone" USER_IO_STD demo_match
      demo_players_host =
    (Ok (match_done demo_match ["/tmp/cms-manager_evaluate"; "/tmp/cms-user_evaluate"; "/tmp/cms-user_evaluate"] true
           (Some "0.0 1.0") (Some ["Second wins"]) (Some demo_stats) None), h') ∧ runs h' = 1.
Proof.
  destruct (@pvp_match_exact demo_machine (gset bytes) demo_store demo_laws demo_config (Some 0%Z) id [Cpp17Gpp] demo_str "alone"
    USER_IO_STD demo_match f1 (mkFileObject "manager" "elf m") "elf m" "7" "/tmp/cms-manager_evaluate" demo_first demo_second
    demo_players_host
    (mkRun 0 (demo_after (program_files "manager" "elf m" "input.txt" "7" ["output.txt"; "stderr.txt"; "stdout.txt"])) (Some demo_log))
    demo_stats (mkRun 0 (user_files USER_IO_STD demo_first) (Some demo_log)) demo_stats
    (mkRun 0 (user_files USER_IO_STD demo_second) (Some demo_log)) demo_stats)
    as [(ok & oc & txt & uo & h' & Hr & Hres & _ & Huo & _ & Hn)|(e & h' & _ & _ & _ & _ & _ & He)].
  - split; [reflexivity|split; vm_compute; reflexivity|exists "7"; split; vm_compute; reflexivity|reflexivity|
      split; vm_compute; reflexivity|split_and!; reflexivity|apply demo_plays; auto|apply demo_plays; auto].
  - reflexivity.
  - reflexivity.
  - reflexivity.
  - eexists _, _. split_and!; [reflexivity|vm_compute; reflexivity|vm_compute; reflexivity].
  - eexists _, _. split_and!; [reflexivity|vm_compute; reflexivity|vm_compute; reflexivity].
  - eexists _, _. split_and!; [reflexivity|vm_compute; reflexivity|vm_compute; reflexivity].
  - exists h'. split; [|exact Hn]. cbn in Huo. subst uo.
    inversion Hres as [[Hb|[Hb|Hb]]|Ho|Ho Hm H0 H1|m Ho Hm H0|m Ho Hm H0|o text Ho Hm H0 H1 Ha]; subst.
    + vm_compute in Hb. discriminate Hb.
    + vm_compute in Hb. discriminate Hb.
    + by destruct Hb.
    + discriminate Ho.
    + by destruct (failed_not_fine _ H1) as [_ []].
    + by destruct (failed_not_fine _ H0) as [_ []].
    + by destruct (failed_not_fine _ H0) as [_ []].
    + vm_compute in Ha. injection Ha as <- <-. exact Hr.
  - vm_compute in He. discriminate He.
Defined.
